(* ===== verification/_CoqProject ===== *)
-Q . S2P
Prelude.v
PyDecimal.v
DecimalFacts.v
PyText.v
TextFacts.v
JsonSyntax.v
Models.v
Precision.v
Markets.v
MarketFacts.v
OrderPreflight.v
RestPolicy.v
RestBudget.v
RestFence.v
BudgetFacts.v
DecisionFacts.v
ContinuousConfig.v
RoundingFacts.v
DesiredEngine.v
DesiredFacts.v
ConvergenceFacts.v
CopyEngine.v
CopyFacts.v
CopyTargets.v
CopyExample.v
Liquidity.v
LiquidityFacts.v
Safety.v
SafetyFacts.v
SafetyExample.v
RestThrottle.v
ThrottleFacts.v
AccountState.v
AccountStateFacts.v
InfoClient.v
InfoFacts.v
Guard.v
GuardFacts.v
ActionJournal.v
JournalFacts.v
OrderStatus.v
WsActions.v
WsFacts.v
Executor.v
ExecutorFacts.v
AccountParsing.v
FrameErrors.v
AccountStream.v
AccountFacts.v
FollowerRefresh.v
RefreshFacts.v
MarketCatalog.v
CatalogRevisions.v
CatalogActor.v
PriceContext.v
CatalogFacts.v
CatalogReload.v
ActorFacts.v
CatalogExample.v
PriceFacts.v
MarketStream.v
DepthFacts.v
MarketStreamFacts.v
Runtime.v
Checkpoint.v
RuntimePlan.v
RuntimeDrive.v
RuntimeFold.v
RuntimeEvents.v
RuntimeReconcile.v
RuntimeSession.v
RuntimeInit.v
ContinuousFollower.v
RuntimeExample.v
FollowerFacts.v
PlanFacts.v
LatchFacts.v
AttributionFacts.v
CheckpointFacts.v
ReconcileFacts.v
