(* ===== verification/Prelude.v ===== *)
(** * The continuous copy trader of hyperliquid-copytrader

    The program copies the perpetual positions of leader accounts ("sources") to follower
    accounts on Hyperliquid.  Its continuous runtime is fed by WebSocket frames: a reducer
    per source keeps the leader's positions and fills, a reducer keeps the order books of
    the markets that matter, a pure engine turns both into one corrective order at a time,
    and a signer lane sends that order through a durable journal.  This library models
    these parts from the source text and proves what makes them correct.

    ** Parts, files and how they interact

    Python under the model: PyDecimal.v ([decimal] with its context of 28 digits),
    PyText.v (text, numbers, JSON values) and JsonSyntax.v (what [json.loads] accepts),
    with their theories in DecimalFacts.v, RoundingFacts.v and TextFacts.v.  Prelude.v
    holds the exceptions, the fallible computations [res], the stateful ones [ST], Python's
    ordered dict as an association list [dict], sorting, and the shared automation.

    Data and pure decisions (src/hyperliquid_copytrader/):
    - models.py, cloid.py: Models.v;  precision.py: Precision.v (lots, ticks, limit prices);
    - markets.py: Markets.v (names, the launch catalog, its digest text and drift), with
      MarketFacts.v;
    - market_catalog.py: MarketCatalog.v (markets and revisions), CatalogRevisions.v (payloads,
      the revision of three answers, diffs, and the catalog file of continuous_runner.py),
      CatalogActor.v (the actor under its lock) and PriceContext.v (last good prices), with
      CatalogFacts.v, CatalogReload.v, ActorFacts.v and PriceFacts.v; CatalogExample.v
      is a small exchange;
    - order_preflight.py: OrderPreflight.v (admission of one order);
    - continuous_config.py: ContinuousConfig.v (a plan, its validation and binding);
    - desired_engine.py: DesiredEngine.v, with DesiredFacts.v and ConvergenceFacts.v.

    Of the older REST service: copy_engine.py: CopyEngine.v (sizing, targets, orders), with
    CopyFacts.v, CopyTargets.v and CopyExample.v; liquidity.py: Liquidity.v (book snapshots
    and depth quotes), with LiquidityFacts.v; safety.py: Safety.v (the
    safe mode that processes share through a journal of persistence.py, and the shield), with
    SafetyFacts.v and SafetyExample.v.  A controller of the safe mode is a record beside the
    journal; what other processes append between two of its accesses is an argument.
    rest_throttle.py: RestThrottle.v (the spacing of requests through one state file), with
    ThrottleFacts.v; account_state.py: AccountState.v (revisions of accounts and books, the
    book that publishes them, and fences), with AccountStateFacts.v; reconciliation.py:
    InfoClient.v (the client that asks for a grant before every request, as a transition
    system over all interleavings of its calls), with InfoFacts.v, and FollowerRefresh.v (the
    follower truth and the ledger audit), with RefreshFacts.v; guard.py: Guard.v (the last
    checks before an order is sent), with GuardFacts.v.

    Frames: observer.py and unified_account.py (the parsers): AccountParsing.v;
    account_stream.py: AccountStream.v, with FrameErrors.v and AccountFacts.v;
    market_stream.py: MarketStream.v, with DepthFacts.v and MarketStreamFacts.v.

    Orders: action_journal.py: ActionJournal.v, with JournalFacts.v (two SQLite tables as
    maps, every operation as a transaction); reconciliation.py: OrderStatus.v (what an
    [orderStatus] answer proves); ws_actions.py: WsActions.v, with WsFacts.v (signed
    actions, the classification of answers, and the POST multiplexer as a transition
    system over all interleavings of its calls with the socket); continuous_executor.py:
    Executor.v, with ExecutorFacts.v (a signer lane over journal and multiplexer).

    The budget of REST requests, rest_budget.py: RestPolicy.v (priorities, weights, senders,
    the load model), RestBudget.v (the ledger, its clock epochs, requests and batches,
    takeover) and RestFence.v (imports, the launch fence, the pipe's messages), with
    BudgetFacts.v and DecisionFacts.v.  The database is a record of tables, a transaction
    either commits or gives the tables back, and the clocks are arguments.

    The runtime, continuous_runtime.py, joins them: Runtime.v (slots, attribution of source
    fills, baseline, readiness), Checkpoint.v (what survives a restart), RuntimePlan.v
    (exposure and fingerprints), RuntimeDrive.v ([_plan_drive]), RuntimeFold.v ([_fold],
    [_drive]), RuntimeEvents.v and RuntimeReconcile.v (handlers), RuntimeSession.v (the
    serialised drive, reports) and RuntimeInit.v (the constructor).  continuous_follower.py,
    ContinuousFollower.v, is the hook that reads the follower's account.  Each handler is a
    computation over the record [Runtime]; between two [await]s it runs alone, and at an
    [await] the model takes an arbitrary change of the runtime as an argument, so that the
    theorems hold for every interleaving of tasks.  RuntimeExample.v is the small runtime on
    which the hypotheses of these theorems are shown to hold.

    ** What is proved

    - Orders (WsFacts, ExecutorFacts, JournalFacts): a written frame is the signed payload of
      a journaled action and is written at most once; results say truthfully whether the
      frame left; nonces are never reused; a lane has one unresolved action; recovery never
      un-sends; every call of the multiplexer finishes.
    - Decisions (DesiredFacts, ConvergenceFacts, OrderPreflight, Precision, DepthFacts): the
      target is the scaled copy of the largest source positions, inside its limits; the next
      action is safe and placeable under the rules of its market, and repeated filling ends at
      the target; admission and prices are exact; the 28-digit walk over a book is the exact
      one.
    - Frames (AccountFacts, MarketStreamFacts): a fill is delivered once, positions follow the
      chain of its fills, a refused frame changes nothing, snapshots are always tradeable
      books.
    - The runtime (PlanFacts, LatchFacts, AttributionFacts, ReconcileFacts, CheckpointFacts,
      FollowerFacts): a prepared order passed every gate, its price included; a fail-close
      holds until it is re-armed; attribution conserves the leader's position and spends what
      was copied first; follower truth is adopted only when nothing overlapped it; a restart
      keeps what was saved.
    - The REST budget (BudgetFacts, DecisionFacts): every operation of a coordinator refines
      the events of an abstract ledger, whose invariant bounds the weight granted in every
      minute, apart from what a preview imports into a ledger that has already granted; a
      message is decided once; a batch leaves nothing pending, and grants nothing when the
      clocks cannot be trusted.
    - The catalog (CatalogFacts, CatalogReload, ActorFacts, PriceFacts): a market in use keeps
      its identity, the catalog file is read back as it was written, an asset id never admits
      two markets, and a reduction is priced with the newest price.
    - The older service (CopyTargets, GuardFacts, LiquidityFacts, SafetyFacts,
      AccountStateFacts, ThrottleFacts, InfoFacts, RefreshFacts): targets are permitted and
      inside every cap, and orders never cross zero in one step; what the guard passes keeps
      every limit; a quote stands for depth that is there; an incident is cleared only while
      it is the newest, and an account passes only if it agrees with its record; a fill is
      projected once, and a fence recognises the revisions it was taken on; requests that
      wait as long as they are told keep the pace of the shared throttle, and none is sent
      without a grant; a ledger row is reported once, and a refresh never overwrites a newer
      revision.
    - Texts and plans (ContinuousConfig, MarketFacts, OrderStatus): validated plans, catalogs
      and manifests, and order evidence, mean what they say.

    ** Bounds and fuel

    Recursion is structural throughout, except for a few loops with fuel whose bound is
    proved enough where they are defined (the digits of a printed number, the JSON scanner).
    Integers are unbounded as in Python.  Theorems on exact sums assume that the sizes are
    whole lots that fit 28 digits; a rounded operation is otherwise within [ulp28] = 10^-27.

    ** Parameters

    SHA-256 and BLAKE2, the SDK's signature, [json.loads] on text the program did not write,
    clocks, and the answers of the exchange are arguments; for [json.loads] on text that
    [json.dumps] wrote, [sort_keys] (PyText.v) says what is read back.

    ** Not modelled

    The exponent range of [decimal]; non-ASCII text; the [repr] of floats; opening, locking
    and creating database files; sockets, threads and timers (their events are inputs); the
    latency figures and the evidence written beside an order.  Of the older REST
    service, service.py, most of persistence.py, the exchange adapter,
    the network supervision and command-line parts, the web page and the scripts are listed
    as components of the manifest with the reason each is left out. *)

From Stdlib Require Export ZArith Lia.
From Stdlib Require Export String Sorting.Sorted.
From stdpp Require Export base list strings gmap tactics.
From stdpp Require sorting.

#[global] Set Warnings "-notation-overridden".
#[global] Open Scope string_scope.
#[global] Open Scope list_scope.
#[global] Open Scope Z_scope.

(** * Exceptions and fallible computations *)

(** The exception classes the modelled code raises or catches.  The payload is
    the constant part of the message; interpolated values are kept only where
    the program itself stores the text. *)
Inductive exn :=
  | ValueError (msg : string)
  | MarketIdentityError (msg : string)
  | AccountStreamError (msg : string)
  | MarketStreamError (msg : string)
  | UnifiedAccountStateError (msg : string)
  | ArithmeticError (msg : string)
  | TypeError (msg : string)
  | KeyError (msg : string)
  | RuntimeError (msg : string)
  | RestThrottleBacklogError (msg : string)
  | AssertionError (msg : string)
  | IntegrityError (msg : string)
  | ConnectionError (msg : string)
  | FollowerTruthError (msg : string)
  | OtherError (cls msg : string).

#[export] Instance exn_eq_dec : EqDecision exn.
Proof. solve_decision. Defined.

(** Python's class hierarchy, as far as [except] clauses look at it:
    [MarketIdentityError], [AccountStreamError] and [MarketStreamError] derive from
    [ValueError];
    [UnifiedAccountStateError] derives from [RuntimeError]. *)
Definition is_value_error (e : exn) : bool :=
  match e with
  | ValueError _ | MarketIdentityError _ | AccountStreamError _ | MarketStreamError _ => true
  | _ => false
  end.

(** A Python computation either returns a value or raises. *)
Inductive res (A : Type) :=
  | Ok (a : A)
  | Raise (e : exn).
Arguments Ok {A} a.
Arguments Raise {A} e.

#[export] Instance res_eq_dec {A} `{EqDecision A} : EqDecision (res A).
Proof. solve_decision. Defined.

#[export] Instance res_ret : MRet res := @Ok.
#[export] Instance res_bind : MBind res := fun A B f m =>
  match m with Ok a => f a | Raise e => Raise e end.
#[export] Instance res_fmap : FMap res := fun A B f m =>
  match m with Ok a => Ok (f a) | Raise e => Raise e end.

Definition is_ok {A} (m : res A) : bool :=
  match m with Ok _ => true | Raise _ => false end.

(** [try: m except <p>: h]: the handler [h] runs for the exceptions [p] accepts. *)
Definition catch {A} (m : res A) (p : exn -> bool) (h : exn -> res A) : res A :=
  match m with
  | Ok a => Ok a
  | Raise e => if p e then h e else Raise e
  end.

(** A [for] loop that may raise. *)
Fixpoint fold_res {A B} (f : B -> A -> res B) (l : list A) (acc : B) : res B :=
  match l with
  | [] => Ok acc
  | x :: t => match f acc x with Ok acc' => fold_res f t acc' | Raise e => Raise e end
  end.

(** A comprehension whose body may raise. *)
Fixpoint map_res {A B} (f : A -> res B) (l : list A) : res (list B) :=
  match l with
  | [] => Ok []
  | x :: t =>
      match f x with
      | Ok y => match map_res f t with Ok ys => Ok (y :: ys) | Raise e => Raise e end
      | Raise e => Raise e
      end
  end.

(** * Computations over an object that changes *)

(** A computation over a mutable state: an exception keeps what was assigned before it. *)
Definition ST (S A : Type) : Type := S -> S * res A.

Definition jret {S A} (a : A) : ST S A := fun s => (s, Ok a).
Definition jraise {S A} (e : exn) : ST S A := fun s => (s, Raise e).
Definition jlift {S A} (r : res A) : ST S A := fun s => (s, r).
Definition jquery {S A} (q : S -> res A) : ST S A := fun s => (s, q s).
Definition jmodify {S} (f : S -> S) : ST S unit := fun s => (f s, Ok tt).
Definition jbind {S A B} (m : ST S A) (k : A -> ST S B) : ST S B := fun s =>
  match m s with
  | (s', Ok a) => k a s'
  | (s', Raise e) => (s', Raise e)
  end.

Declare Scope state_scope.
Notation "'let!' x := m 'in' k" := (jbind m (fun x => k))
  (at level 200, x pattern, m at level 100, k at level 200) : state_scope.
#[global] Open Scope state_scope.

Lemma jbind_Ok {S A B} (m : ST S A) (k : A -> ST S B) s s' b :
  jbind m k s = (s', Ok b) -> exists a s1, m s = (s1, Ok a) /\ k a s1 = (s', Ok b).
Proof. unfold jbind. destruct (m s) as [s1 [a|e]]; [by exists a, s1|done]. Qed.

Lemma jbind_Raise {S A B} (m : ST S A) (k : A -> ST S B) s s' e :
  jbind m k s = (s', Raise e) -> m s = (s', Raise e) \/ exists a s1, m s = (s1, Ok a) /\ k a s1 = (s', Raise e).
Proof. unfold jbind. destruct (m s) as [s1 [a|e1]]; [right; by exists a, s1|intros [= -> ->]; by left]. Qed.

Lemma jquery_Ok {S A} (q : S -> res A) s s' a : jquery q s = (s', Ok a) -> s' = s /\ q s = Ok a.
Proof. unfold jquery. by intros [-> ->]%pair_equal_spec. Qed.

Lemma jlift_Ok {S A} (r : res A) (s s' : S) a : jlift r s = (s', Ok a) -> s' = s /\ r = Ok a.
Proof. unfold jlift. by intros [-> ->]%pair_equal_spec. Qed.

(** * Python strings: comparison by code point *)

Definition str_leb (a b : string) : bool :=
  match String.compare a b with Gt => false | _ => true end.

Definition str_ltb (a b : string) : bool :=
  match String.compare a b with Lt => true | _ => false end.

(** * Python's [sorted]: a stable sort *)

Section Sort.
Context {A : Type} (leb : A -> A -> bool).

Fixpoint sort_insert (x : A) (l : list A) : list A :=
  match l with
  | [] => [x]
  | y :: t => if leb x y then x :: y :: t else y :: sort_insert x t
  end.

Definition py_sorted (l : list A) : list A := fold_right sort_insert [] l.
End Sort.

(** [sorted(l, key=key)] for a key that may raise. *)
Definition sorted_key {A K} (kleb : K -> K -> bool) (key : A -> res K) (l : list A) : res (list A) :=
  kl ← map_res (fun x => k ← key x; Ok (k, x)) l;
  Ok (py_sorted (fun a b => kleb a.1 b.1) kl).*2.

(** Comparison of tuples: the first differing component decides. *)
Definition tuple_leb {A B} `{EqDecision A} (lebA : A -> A -> bool) (lebB : B -> B -> bool)
    (x y : A * B) : bool :=
  if decide (x.1 = y.1) then lebB x.2 y.2 else lebA x.1 y.1.

(** [False < True] *)
Definition bool_leb (a b : bool) : bool := implb a b.

(** The sum of [g] over [l], and how many elements of [l] satisfy [f]. *)
Definition zsum {A} (g : A -> Z) (l : list A) : Z := fold_right (fun x n => g x + n) 0 l.
Definition count {A} (f : A -> bool) (l : list A) : Z := zsum (fun x => Z.b2z (f x)) l.

(** * Python's [dict]: an insertion-ordered association list *)

Abbreviation dict V := (list (string * V)).

Section Dict.
Context {V : Type}.

Fixpoint dict_get (k : string) (d : dict V) : option V :=
  match d with
  | [] => None
  | (k', v) :: t => if decide (k = k') then Some v else dict_get k t
  end.

(** Assignment keeps the place of a key that is already there. *)
Fixpoint dict_set (k : string) (v : V) (d : dict V) : dict V :=
  match d with
  | [] => [(k, v)]
  | (k', v') :: t => if decide (k = k') then (k, v) :: t else (k', v') :: dict_set k v t
  end.

(** [d.pop(k, None)] *)
Definition dict_del (k : string) (d : dict V) : dict V := List.filter (fun kv => negb (bool_decide (kv.1 = k))) d.

Definition dict_keys (d : dict V) : list string := d.*1.
Definition dict_values (d : dict V) : list V := d.*2.
Definition dict_mem (k : string) (d : dict V) : bool := bool_decide (k ∈ dict_keys d).
End Dict.

(** * Lemmas *)

(** ** [res] *)

Lemma bind_Ok {A B} (m : res A) (f : A -> res B) (b : B) :
  m ≫= f = Ok b <-> exists a, m = Ok a /\ f a = Ok b.
Proof. destruct m; cbn; split; [eauto| |done|]; intros (? & ? & ?); by simplify_eq. Qed.

Lemma fmap_Ok {A B} (m : res A) (f : A -> B) (b : B) :
  f <$> m = Ok b <-> exists a, m = Ok a /\ b = f a.
Proof.
  destruct m; cbn; split; try done; [intros; simplify_eq; eauto|intros (? & ? & ?)|intros (? & ? & ?)];
    by simplify_eq.
Qed.

Lemma is_ok_spec {A} (m : res A) : is_ok m = true <-> exists a, m = Ok a.
Proof. destruct m; cbn; split; try done; [eauto|by intros [? ?]]. Qed.

Lemma fold_res_app {A B} (f : B -> A -> res B) l1 l2 acc :
  fold_res f (l1 ++ l2) acc = (fold_res f l1 acc ≫= fold_res f l2).
Proof.
  revert acc. induction l1 as [|x l1 IH]; intros acc; cbn; [done|].
  by destruct (f acc x); cbn.
Qed.

(** Loop invariants: what holds before the loop and is kept by every step that
    does not raise holds after it. *)
Lemma fold_res_ind {A B} (P : B -> Prop) (f : B -> A -> res B) l acc r :
  (forall b x b', x ∈ l -> P b -> f b x = Ok b' -> P b') ->
  P acc -> fold_res f l acc = Ok r -> P r.
Proof.
  revert acc. induction l as [|x l IH]; intros acc Hf Hacc Hr; cbn in *.
  - by simplify_eq.
  - destruct (f acc x) as [acc'|e] eqn:E; [|done].
    eapply IH; [|by eapply Hf; [left| |]|done].
    intros b y b' Hy. apply Hf. by right.
Qed.

(** A loop none of whose steps raises ends, with its invariant. *)
Lemma fold_res_good {A B} (P : B -> Prop) (f : B -> A -> res B) l acc :
  (forall b x, x ∈ l -> P b -> exists b', f b x = Ok b' /\ P b') -> P acc -> exists r, fold_res f l acc = Ok r /\ P r.
Proof.
  revert acc. induction l as [|x l IH]; intros acc Hf Hacc; cbn; [by eexists|].
  destruct (Hf acc x ltac:(by left) Hacc) as (b' & -> & Hb). apply IH; [|done]. intros b y Hy. apply Hf. by right.
Qed.

(** The same with an invariant that may mention what was already processed. *)
Lemma fold_res_prefix {A B} (P : list A -> B -> Prop) (f : B -> A -> res B) l acc r :
  (forall pre x b b', x ∈ l -> P pre b -> f b x = Ok b' -> P (pre ++ [x]) b') ->
  P [] acc -> fold_res f l acc = Ok r -> P l r.
Proof.
  intros Hf Hacc.
  assert (forall l' pre b, (forall x, x ∈ l' -> x ∈ l) -> P pre b -> fold_res f l' b = Ok r -> P (pre ++ l') r)
    as H; [|by apply (H l [] acc)].
  induction l' as [|x l' IH]; intros pre b Hin Hb Hr; cbn in Hr.
  - simplify_eq. by rewrite app_nil_r.
  - destruct (f b x) as [b'|] eqn:E; [|done].
    rewrite (cons_middle x pre l'), (app_assoc pre [x] l').
    apply (IH _ b'); [intros y Hy; apply Hin; by right| |done].
    eapply Hf; [apply Hin; by left|done|done].
Qed.

Lemma map_res_Forall2 {A B} (f : A -> res B) l r :
  map_res f l = Ok r <-> Forall2 (fun x y => f x = Ok y) l r.
Proof.
  revert r. induction l as [|x l IH]; intros r; cbn.
  - split; [intros; simplify_eq; constructor|by inversion 1].
  - split.
    + destruct (f x) as [y|] eqn:E; [|done].
      destruct (map_res f l) as [ys|] eqn:E'; [|done].
      intros; simplify_eq. constructor; [done|]. by apply IH.
    + inversion 1 as [|? y ? ys Hx Hl]; subst.
      apply IH in Hl. by rewrite Hx, Hl.
Qed.

Lemma map_res_total {A B} (f : A -> res B) l :
  (forall x, x ∈ l -> exists y, f x = Ok y) -> exists r, map_res f l = Ok r.
Proof.
  induction l as [|x l IH]; intros H; cbn; [eauto|].
  destruct (H x) as [y ->]; [by left|]. destruct IH as [r ->]; [intros z Hz; apply H; by right|]. eauto.
Qed.

Lemma map_res_elem {A B} (f : A -> res B) l r y :
  map_res f l = Ok r -> y ∈ r <-> exists x, x ∈ l /\ f x = Ok y.
Proof.
  intros H%map_res_Forall2. induction H as [|x z l r Hx Hl IH].
  - split; [by intros ?%not_elem_of_nil|by intros (? & ?%not_elem_of_nil & _)].
  - rewrite elem_of_cons, IH. split.
    + intros [->|(x' & Hin & Hx')]; [exists x; split; [by left|done]|exists x'; split; [by right|done]].
    + intros (x' & [->|Hin]%elem_of_cons & Hx'); [left; congruence|right; eauto].
Qed.

(** ** Counting *)

Lemma zsum_app {A} (g : A -> Z) l1 l2 : zsum g (l1 ++ l2) = zsum g l1 + zsum g l2.
Proof. unfold zsum. induction l1 as [|x l1 IH]; cbn [app fold_right]; [done|]. rewrite IH. lia. Qed.

Lemma zsum_nonneg {A} (g : A -> Z) l : (forall x, 0 <= g x) -> 0 <= zsum g l.
Proof. intros H. unfold zsum. induction l as [|x l IH]; cbn [fold_right]; [done|]. specialize (H x). lia. Qed.

Lemma zsum_insert {A} (g : A -> Z) l i x y : l !! i = Some x -> zsum g (<[i := y]> l) = zsum g l - g x + g y.
Proof.
  unfold zsum. revert i. induction l as [|z l IH]; intros [|i] H; try done.
  - injection H as ->. cbn [insert list_insert fold_right]. lia.
  - change (<[S i := y]> (z :: l)) with (z :: <[i := y]> l). cbn [fold_right]. rewrite (IH i H). lia.
Qed.

Lemma zsum_lookup {A} (g : A -> Z) l i x : (forall x, 0 <= g x) -> l !! i = Some x -> g x <= zsum g l.
Proof.
  intros Hg Hi. apply take_drop_middle in Hi. rewrite <- Hi, zsum_app.
  pose proof (zsum_nonneg g (take i l) Hg). pose proof (zsum_nonneg g (drop (S i) l) Hg).
  change (zsum g (x :: drop (S i) l)) with (g x + zsum g (drop (S i) l)). lia.
Qed.

Lemma b2z_nonneg b : 0 <= Z.b2z b.
Proof. destruct b; cbn; lia. Qed.

Lemma count_app {A} (f : A -> bool) l1 l2 : count f (l1 ++ l2) = count f l1 + count f l2.
Proof. apply (zsum_app (fun x => Z.b2z (f x))). Qed.

Lemma count_nonneg {A} (f : A -> bool) l : 0 <= count f l.
Proof. apply (zsum_nonneg (fun x => Z.b2z (f x))). intros x. apply b2z_nonneg. Qed.

Lemma count_insert {A} (f : A -> bool) l i x y :
  l !! i = Some x -> count f (<[i := y]> l) = count f l - Z.b2z (f x) + Z.b2z (f y).
Proof. apply (zsum_insert (fun x => Z.b2z (f x))). Qed.

Lemma count_pos {A} (f : A -> bool) l i x : l !! i = Some x -> f x = true -> 1 <= count f l.
Proof.
  intros Hi Hx. pose proof (zsum_lookup (fun x => Z.b2z (f x)) l i x (fun z => b2z_nonneg (f z)) Hi) as H.
  cbv beta in H. rewrite Hx in H. exact H.
Qed.

Lemma count_witness {A} (f : A -> bool) l : 1 <= count f l -> exists i x, l !! i = Some x /\ f x = true.
Proof.
  unfold count, zsum. induction l as [|x l IH]; cbn [fold_right]; [lia|]. intros H.
  destruct (f x) eqn:E; [by exists O, x|]. cbn [Z.b2z] in H. destruct (IH H) as (i & y & Hi & Hy). by exists (S i), y.
Qed.

(** ** Sorting *)

Section SortLemmas.
Context {A : Type} (leb : A -> A -> bool).

Lemma sort_insert_perm x l : sort_insert leb x l ≡ₚ x :: l.
Proof.
  induction l as [|y l IH]; cbn; [done|].
  destruct (leb x y); [done|]. rewrite IH. apply Permutation_swap.
Qed.

Lemma py_sorted_perm l : py_sorted leb l ≡ₚ l.
Proof.
  induction l as [|x l IH]; cbn; [done|].
  rewrite sort_insert_perm. by f_equiv.
Qed.

Lemma elem_of_py_sorted x l : x ∈ py_sorted leb l <-> x ∈ l.
Proof. by rewrite py_sorted_perm. Qed.

Lemma length_py_sorted l : List.length (py_sorted leb l) = List.length l.
Proof. apply Permutation_length, py_sorted_perm. Qed.

Lemma NoDup_py_sorted l : NoDup l -> NoDup (py_sorted leb l).
Proof. by rewrite py_sorted_perm. Qed.

Hypothesis bo_total : forall x y, leb x y = true \/ leb y x = true.

Lemma sort_insert_sorted x l :
  Sorted (fun a b => leb a b = true) l ->
  Sorted (fun a b => leb a b = true) (sort_insert leb x l).
Proof.
  induction 1 as [|y l Hs IH Hh]; cbn; [by repeat constructor|].
  destruct (leb x y) eqn:E; [by repeat constructor|].
  constructor; [done|].
  assert (leb y x = true) as Hyx by (destruct (bo_total x y); congruence).
  destruct l as [|z l]; cbn; [by constructor|].
  destruct (leb x z); constructor; [done|]. by inversion Hh.
Qed.

Lemma py_sorted_sorted l : Sorted (fun a b => leb a b = true) (py_sorted leb l).
Proof. induction l; cbn; [constructor|by apply sort_insert_sorted]. Qed.
End SortLemmas.

(** A boolean order that is total, transitive and antisymmetric. *)
Class BoolOrder {A} (leb : A -> A -> bool) : Prop := {
  bo_total x y : leb x y = true \/ leb y x = true;
  bo_trans x y z : leb x y = true -> leb y z = true -> leb x z = true;
  bo_antisym x y : leb x y = true -> leb y x = true -> x = y;
}.

#[export] Instance bool_order : BoolOrder bool_leb.
Proof.
  split; [intros [] []; cbn; auto|intros [] [] []; cbn; done|intros [] []; cbn; done].
Qed.

Lemma bo_refl {A} (leb : A -> A -> bool) `{BoolOrder A leb} x : leb x x = true.
Proof. by destruct (bo_total x x). Qed.

#[export] Instance tuple_order {A B} `{EqDecision A} (lebA : A -> A -> bool) (lebB : B -> B -> bool)
  `{!BoolOrder lebA, !BoolOrder lebB} : BoolOrder (tuple_leb lebA lebB).
Proof.
  split; unfold tuple_leb.
  - intros [a b] [a' b']; cbn. repeat case_decide; subst; try done; apply bo_total.
  - intros [a b] [a' b'] [a2 b2]; cbn. intros H1 H2.
    repeat case_decide; subst; try done; try (by eapply bo_trans; eauto).
    exfalso. apply H. by apply (bo_antisym (leb := lebA)).
  - intros [a b] [a' b']; cbn. intros H1 H2.
    destruct (decide (a = a')) as [->|Hne].
    + rewrite decide_True in H2 by done. f_equal. by apply bo_antisym.
    + rewrite decide_False in H2 by congruence. destruct Hne. by apply bo_antisym.
Qed.

Lemma sorted_unique {A} (leb : A -> A -> bool) `{BoolOrder A leb} (l1 l2 : list A) :
  Sorted (fun a b => leb a b = true) l1 -> Sorted (fun a b => leb a b = true) l2 ->
  l1 ≡ₚ l2 -> l1 = l2.
Proof.
  assert (Transitive (fun a b => leb a b = true)) by (intros x y z; apply bo_trans).
  assert (AntiSymm (=) (fun a b => leb a b = true)) by (intros x y; apply bo_antisym).
  by apply (sorting.Sorted_unique (fun a b => leb a b = true)).
Qed.

Lemma str_compare_refl a : String.compare a a = Eq.
Proof. induction a as [|c a IH]; cbn; [done|]. unfold Ascii.compare. by rewrite N.compare_refl. Qed.

Lemma str_compare_trans a b c :
  String.compare a b = Lt -> String.compare b c = Lt -> String.compare a c = Lt.
Proof.
  revert b c. induction a as [|x a IH]; intros [|y b] [|z c]; cbn; try done.
  unfold Ascii.compare.
  destruct (N.compare_spec (Ascii.N_of_ascii x) (Ascii.N_of_ascii y)) as [E1|E1|E1];
  destruct (N.compare_spec (Ascii.N_of_ascii y) (Ascii.N_of_ascii z)) as [E2|E2|E2];
  destruct (N.compare_spec (Ascii.N_of_ascii x) (Ascii.N_of_ascii z)) as [E3|E3|E3];
    try done; try lia. apply IH.
Qed.

#[export] Instance z_order : BoolOrder Z.leb.
Proof. split; intros; rewrite ?Z.leb_le in *; lia. Qed.

#[export] Instance str_order : BoolOrder str_leb.
Proof.
  split; unfold str_leb.
  - intros x y. rewrite (String.compare_antisym x y).
    destruct (String.compare y x); cbn; auto.
  - intros x y z.
    destruct (String.compare x y) eqn:E1; [|destruct (String.compare y z) eqn:E2|].
    + apply String.compare_eq_iff in E1. by subst.
    + apply String.compare_eq_iff in E2. subst. by rewrite E1.
    + by rewrite (str_compare_trans _ _ _ E1 E2).
    + by intros _ ?.
    + by intros ?.
  - intros x y. rewrite (String.compare_antisym x y).
    destruct (String.compare y x) eqn:E; cbn; try done. intros. symmetry. by apply String.compare_eq_iff in E.
Qed.

Section SortedKey.
Context {A K : Type} (kleb : K -> K -> bool) `{!BoolOrder kleb} (key : A -> res K).

(** The order [sorted_key] sorts by. *)
Definition key_leb (a b : A) : bool :=
  match key a, key b with Ok ka, Ok kb => kleb ka kb | _, _ => false end.

Lemma sorted_key_spec l r :
  sorted_key kleb key l = Ok r ->
  r ≡ₚ l /\ Sorted (fun a b => key_leb a b = true) r /\ Forall (fun x => is_ok (key x) = true) l.
Proof.
  unfold sorted_key. intros (kl & Hkl & [= <-])%bind_Ok.
  apply map_res_Forall2 in Hkl.
  assert (kl.*2 = l /\ Forall (fun kx => key kx.2 = Ok kx.1) kl) as [El Hk].
  { clear - Hkl. induction Hkl as [|x [k y] l kl Hx _ [<- IH]]; [done|].
    apply bind_Ok in Hx as (k' & Hk & [= -> ->]). by repeat constructor. }
  split; [|split].
  - rewrite <- El. apply fmap_Permutation, py_sorted_perm.
  - rewrite <- (py_sorted_perm (fun a b => kleb a.1 b.1)) in Hk.
    pose proof (py_sorted_sorted (fun a b : K * A => kleb a.1 b.1) (fun a b => bo_total (leb := kleb) a.1 b.1) kl) as Hs.
    induction Hs as [|[k x] t Hs IH Hh]; cbn; [constructor|].
    apply list.Forall_cons in Hk as [Hx Ht]. constructor; [by apply IH|].
    destruct Hh as [|[k' y] t Hle]; constructor.
    apply list.Forall_cons in Ht as [Hy _]. cbn in *. unfold key_leb. by rewrite Hx, Hy.
  - rewrite <- El. apply list.Forall_fmap. eapply list.Forall_impl; [exact Hk|].
    intros [k x]; cbn. by intros ->.
Qed.

Lemma sorted_key_ok l :
  Forall (fun x => is_ok (key x) = true) l -> exists r, sorted_key kleb key l = Ok r.
Proof.
  intros Hl. unfold sorted_key.
  assert (exists kl, map_res (fun x => k ← key x; Ok (k, x)) l = Ok kl) as [kl ->]; [|by eexists].
  induction Hl as [|x l (k & Hk)%is_ok_spec _ [kl IH]]; cbn; [by eexists|].
  rewrite Hk. cbn. rewrite IH. by eexists.
Qed.

Lemma key_leb_trans a b c : key_leb a b = true -> key_leb b c = true -> key_leb a c = true.
Proof.
  unfold key_leb. destruct (key a), (key b), (key c); try done. apply bo_trans.
Qed.

(** Sorting by a key that tells the elements apart is deterministic. *)
Lemma key_sorted_unique l1 l2 :
  Sorted (fun a b => key_leb a b = true) l1 -> Sorted (fun a b => key_leb a b = true) l2 ->
  (forall x y, x ∈ l1 -> y ∈ l1 -> key x = key y -> x = y) -> l1 ≡ₚ l2 -> l1 = l2.
Proof.
  intros H1 H2 Hinj Hp.
  assert (Transitive (fun a b => key_leb a b = true)) by (intros x y z; apply key_leb_trans).
  apply (sorting.Sorted_unique_strong (fun a b => key_leb a b = true)); [|done|done|done].
  intros x y Hx Hy. rewrite <- Hp in Hy. unfold key_leb.
  destruct (key x) as [kx|] eqn:Ex, (key y) as [ky|] eqn:Ey; try done. intros Hxy Hyx.
  apply Hinj; [done|done|]. rewrite Ex, Ey. f_equal. by apply bo_antisym.
Qed.
End SortedKey.

(** An order pulled back along an injection. *)
Lemma order_on {A K} (f : A -> K) (kleb : K -> K -> bool) `{!BoolOrder kleb} :
  (forall x y, f x = f y -> x = y) -> BoolOrder (fun a b => kleb (f a) (f b)).
Proof.
  intros Hf. split; intros *; [apply bo_total|apply bo_trans|].
  intros. by apply Hf, bo_antisym.
Qed.

(** ** Dictionaries *)

Section DictLemmas.
Context {V : Type}.
Implicit Types (d : dict V) (k : string) (v : V).

Lemma dict_get_set_eq k v d : dict_get k (dict_set k v d) = Some v.
Proof.
  induction d as [|[k' v'] d IH]; cbn; [by rewrite decide_True|].
  case_decide; cbn; [by rewrite decide_True|]. by rewrite decide_False.
Qed.

Lemma dict_get_set_ne k k' v d :
  k <> k' -> dict_get k' (dict_set k v d) = dict_get k' d.
Proof.
  intros Hne. induction d as [|[k0 v0] d IH]; cbn; [by rewrite decide_False|].
  destruct (decide (k = k0)); cbn; repeat case_decide; congruence.
Qed.

Lemma dict_get_del_eq k d : dict_get k (dict_del k d) = None.
Proof.
  induction d as [|[k' v] t IH]; [done|]. cbn. case_bool_decide as E; cbn; [done|].
  destruct (decide (k = k')) as [->|]; [done|done].
Qed.

Lemma dict_get_del_ne k k' d : k <> k' -> dict_get k' (dict_del k d) = dict_get k' d.
Proof.
  intros Hne. induction d as [|[x v] t IH]; [done|]. cbn. case_bool_decide as E; cbn.
  - subst. by rewrite decide_False by congruence.
  - by destruct (decide (k' = x)).
Qed.

Lemma dict_get_Some_in k v d : dict_get k d = Some v -> (k, v) ∈ d.
Proof.
  induction d as [|[k' v'] d IH]; cbn; [done|].
  case_decide; intros; simplify_eq; [by left|right; auto].
Qed.

Lemma dict_get_None k d : dict_get k d = None <-> k ∉ dict_keys d.
Proof.
  induction d as [|[k' v'] d IH]; cbn; [set_solver|].
  case_decide; subst; rewrite elem_of_cons; [split; [done|tauto]|]. rewrite IH. tauto.
Qed.

Lemma dict_in_get k v d : NoDup (dict_keys d) -> (k, v) ∈ d -> dict_get k d = Some v.
Proof.
  induction d as [|[k' v'] d IH]; cbn; [set_solver|].
  intros [Hni Hnd]%list.NoDup_cons [Heq|Hin]%elem_of_cons; simplify_eq.
  - by rewrite decide_True.
  - rewrite decide_False; [auto|]. intros ->. apply Hni.
    by apply (list_elem_of_fmap_2 fst) in Hin.
Qed.

Lemma dict_set_keys_elem k k' v d :
  k' ∈ dict_keys (dict_set k v d) <-> k' = k \/ k' ∈ dict_keys d.
Proof.
  induction d as [|[k0 v0] d IH]; cbn; [set_solver|].
  case_decide; subst; cbn; rewrite !elem_of_cons; [tauto|]. rewrite IH. tauto.
Qed.

Lemma dict_set_NoDup k v d :
  NoDup (dict_keys d) -> NoDup (dict_keys (dict_set k v d)).
Proof.
  induction d as [|[k0 v0] d IH]; cbn; [intros _; apply NoDup_singleton|].
  intros [Hni Hnd]%list.NoDup_cons. case_decide; subst; cbn; apply list.NoDup_cons; [done|].
  split; [|by apply IH]. intros [?|?]%dict_set_keys_elem; [congruence|done].
Qed.

Lemma dict_set_length k v d : (List.length (dict_set k v d) <= S (List.length d))%nat.
Proof. induction d as [|[k0 v0] d IH]; cbn; [lia|]. case_decide; cbn; lia. Qed.

Lemma dict_set_in k v d k' v' :
  (k', v') ∈ dict_set k v d -> (k', v') = (k, v) \/ (k', v') ∈ d.
Proof.
  induction d as [|[k0 v0] d IH]; cbn; [set_solver|].
  case_decide; subst; rewrite !elem_of_cons; tauto.
Qed.
End DictLemmas.

Lemma dict_get_fmap {V W} (g : V -> W) (d : dict V) k : dict_get k ((fun kv => (kv.1, g kv.2)) <$> d) = g <$> dict_get k d.
Proof. induction d as [|[k' v] d IH]; cbn; [done|]. by case_decide. Qed.

Lemma dict_keys_fmap {V W} (g : V -> W) (d : dict V) : dict_keys ((fun kv => (kv.1, g kv.2)) <$> d) = dict_keys d.
Proof. unfold dict_keys. by rewrite <- list_fmap_compose. Qed.

Lemma dict_get_app {V} m (a b : dict V) : dict_get m (a ++ b) = match dict_get m a with Some v => Some v | None => dict_get m b end.
Proof. induction a as [|[k v] a IH]; cbn; [done|]. by case_decide. Qed.

Lemma keys_const {V} (v : V) l : dict_keys ((fun k => (k, v)) <$> l) = l.
Proof. unfold dict_keys. induction l as [|k l IH]; cbn; [done|]. by rewrite IH. Qed.

(** Dicts with distinct keys that hold the same items answer alike. *)
Lemma dict_get_perm {V} (a b : dict V) m : NoDup (dict_keys a) -> a ≡ₚ b -> dict_get m a = dict_get m b.
Proof.
  intros Hnd Hp. assert (NoDup (dict_keys b)) as Hnb by (unfold dict_keys in *; by rewrite <- Hp).
  destruct (dict_get m a) as [v|] eqn:E.
  - symmetry. apply dict_in_get; [done|]. rewrite <- Hp. by apply dict_get_Some_in.
  - symmetry. apply dict_get_None. apply dict_get_None in E. unfold dict_keys in *. by rewrite <- Hp.
Qed.

(** ** Lists of rows *)

(** Rows with distinct keys are told apart by them. *)
Lemma same_row {A K} (key : A -> K) l x y : NoDup (key <$> l) -> x ∈ l -> y ∈ l -> key x = key y -> x = y.
Proof.
  induction l as [|z l IH]; [set_solver|]. cbn. intros [Hn Hd]%list.NoDup_cons [->|Hx]%elem_of_cons [->|Hy]%elem_of_cons E; [done|..].
  - destruct Hn. rewrite E. by apply list_elem_of_fmap_2.
  - destruct Hn. rewrite <- E. by apply list_elem_of_fmap_2.
  - by apply IH.
Qed.

(** * Automation *)

Create HintDb copytrader.
#[export] Hint Resolve sort_insert_perm py_sorted_perm NoDup_py_sorted : copytrader.
#[export] Hint Resolve dict_set_NoDup : copytrader.

(** Case analysis on every fallible step of a hypothesis [_ = Ok _]. *)
Ltac res_step :=
  match goal with
  | H : Raise _ = Ok _ |- _ => discriminate H
  | H : Ok _ = Raise _ |- _ => discriminate H
  | H : Ok _ = Ok _ |- _ => injection H as H; try subst
  | H : _ ≫= _ = Ok _ |- _ =>
      apply bind_Ok in H; let a := fresh "a" in let E := fresh "E" in
      destruct H as (a & E & H)
  | H : mret _ = Ok _ |- _ => unfold mret, res_ret in H
  | H : (if ?b then _ else _) = Ok _ |- _ => let E := fresh "E" in destruct b eqn:E
  | H : (match ?m with _ => _ end) = Ok _ |- _ => let E := fresh "E" in destruct m eqn:E
  end.
Ltac res_inv := repeat (res_step; try discriminate).

(** Turn boolean tests of the code into propositions. *)
Ltac bool_prop :=
  repeat match goal with
  | H : _ && _ = true |- _ => apply andb_true_iff in H; destruct H
  | H : _ || _ = false |- _ => apply orb_false_iff in H; destruct H
  | H : negb _ = true |- _ => apply negb_true_iff in H
  | H : negb _ = false |- _ => apply negb_false_iff in H
  | H : bool_decide _ = true |- _ => apply bool_decide_eq_true in H
  | H : bool_decide _ = false |- _ => apply bool_decide_eq_false in H
  | H : (_ <? _) = true |- _ => apply Z.ltb_lt in H
  | H : (_ <? _) = false |- _ => apply Z.ltb_ge in H
  | H : (_ <=? _) = true |- _ => apply Z.leb_le in H
  | H : (_ <=? _) = false |- _ => apply Z.leb_gt in H
  | H : (_ =? _) = true |- _ => apply Z.eqb_eq in H
  | H : (_ =? _) = false |- _ => apply Z.eqb_neq in H
  end.
