(* ===== verification/PyDecimal.v ===== *)
(** Python's [decimal] module, as far as the program uses it.

    A finite number is a sign, a coefficient and an exponent, exactly the triple
    of [Decimal.as_tuple()]; [pydec] adds the infinities and NaN, for the code
    that tests [is_finite()].  Every arithmetic operation computes the exact
    result and then rounds it to the precision of the context (28 digits,
    ROUND_HALF_EVEN: the program never changes the default context, except for
    one [localcontext] with [prec = 50]).  Comparisons are exact.

    The exponent range of the default context (-999999 .. 999999) is not
    modelled: there is no overflow, underflow or clamping here.

    [dval] is the rational a number denotes; the theory of the operations is in
    DecimalFacts.v. *)

From S2P Require Import Prelude.
From Stdlib Require Import QArith Qabs Qpower Lqa.

Open Scope Z_scope.

(** * Numbers *)

Record dec := Dec { dneg : bool; dcoef : N; dexp : Z }.

#[export] Instance dec_eq_dec : EqDecision dec.
Proof. solve_decision. Defined.

Inductive pydec :=
  | Fin (d : dec)
  | Inf (neg : bool)
  | NaN.

#[export] Instance pydec_eq_dec : EqDecision pydec.
Proof. solve_decision. Defined.

Definition is_finite (x : pydec) : bool :=
  match x with Fin _ => true | _ => false end.

(** [Decimal(n)] for an integer [n], and the literals of the program. *)
Definition dint (n : Z) : dec := Dec (n <? 0) (Z.abs_N n) 0.

Definition dzero : dec := dint 0.
Definition done_ : dec := dint 1.

Definition prec_default : N := 28.

(** * Digits *)

Fixpoint ndigits_fuel (fuel : nat) (n : N) : N :=
  match fuel with
  | O => 1
  | S f => if (n <? 10)%N then 1%N else (1 + ndigits_fuel f (n / 10))%N
  end.

(** [len(str(n))]; [N.size_nat n] bits bound the number of decimal digits. *)
Definition ndigits (n : N) : N := ndigits_fuel (N.size_nat n) n.

Definition adjusted (d : dec) : Z := dexp d + Z.of_N (ndigits (dcoef d)) - 1.

(** * Rounding *)

Inductive rounding := ROUND_HALF_EVEN | ROUND_HALF_UP | ROUND_FLOOR | ROUND_CEILING.

(** Whether the quotient [q] (remainder [r], divisor [b]) is incremented. *)
Definition round_up (m : rounding) (neg : bool) (q r b : N) : bool :=
  match m with
  | ROUND_HALF_EVEN => (b <? 2 * r)%N || ((2 * r =? b)%N && N.odd q)
  | ROUND_HALF_UP => (b <=? 2 * r)%N
  | ROUND_FLOOR => neg && negb (r =? 0)%N
  | ROUND_CEILING => negb neg && negb (r =? 0)%N
  end.

Definition round_div (m : rounding) (neg : bool) (n b : N) : N :=
  let q := (n / b)%N in
  let r := (n mod b)%N in
  if round_up m neg q r b then (q + 1)%N else q.

(** [d._rescale(e, m)]: the same value with exponent [e], padding or rounding. *)
Definition rescale (m : rounding) (d : dec) (e : Z) : dec :=
  if e <=? dexp d
  then Dec (dneg d) (dcoef d * 10 ^ Z.to_N (dexp d - e)) e
  else Dec (dneg d) (round_div m (dneg d) (dcoef d) (10 ^ Z.to_N (e - dexp d))) e.

(** [d._fix(context)]: at most [p] digits, rounding half to even. *)
Definition dfix (p : N) (d : dec) : dec :=
  let n := ndigits (dcoef d) in
  if (n <=? p)%N then d
  else
    let k := (n - p)%N in
    let c := round_div ROUND_HALF_EVEN (dneg d) (dcoef d) (10 ^ k) in
    if (ndigits c <=? p)%N
    then Dec (dneg d) c (dexp d + Z.of_N k)
    else Dec (dneg d) (c / 10) (dexp d + Z.of_N k + 1).

(** * Arithmetic in the default context *)

Definition dsgn (d : dec) : Z :=
  if dneg d then - Z.of_N (dcoef d) else Z.of_N (dcoef d).

Definition dis_zero (d : dec) : bool := (dcoef d =? 0)%N.

Definition copy_negate (d : dec) : dec := Dec (negb (dneg d)) (dcoef d) (dexp d).
Definition copy_abs (d : dec) : dec := Dec false (dcoef d) (dexp d).
Definition copy_sign (d s : dec) : dec := Dec (dneg s) (dcoef d) (dexp d).

(** [-d]: negative zero becomes zero. *)
Definition dopp (d : dec) : dec :=
  dfix prec_default (if dis_zero d then copy_abs d else copy_negate d).

(** [abs(d)] *)
Definition dabs (d : dec) : dec := dfix prec_default (copy_abs d).

Definition dadd_exact (a b : dec) : dec :=
  let e := Z.min (dexp a) (dexp b) in
  let s := dsgn a * 10 ^ (dexp a - e) + dsgn b * 10 ^ (dexp b - e) in
  Dec (if s =? 0 then dneg a && dneg b else s <? 0) (Z.abs_N s) e.

Definition dadd (a b : dec) : dec := dfix prec_default (dadd_exact a b).
Definition dsub (a b : dec) : dec := dadd a (copy_negate b).

Definition dmul_exact (a b : dec) : dec :=
  Dec (xorb (dneg a) (dneg b)) (dcoef a * dcoef b) (dexp a + dexp b).
Definition dmul (a b : dec) : dec := dfix prec_default (dmul_exact a b).

(** Strip zeros while the exponent is below the ideal one. *)
Fixpoint strip_to (fuel : nat) (c : N) (e ideal : Z) : N * Z :=
  match fuel with
  | O => (c, e)
  | S f =>
      if (e <? ideal) && (c mod 10 =? 0)%N
      then strip_to f (c / 10) (e + 1) ideal
      else (c, e)
  end.

(** The quotient before the final rounding: an exact quotient is brought as
    close to the ideal exponent as it goes, an inexact one keeps more digits
    than the precision and a sticky last digit. *)
Definition ddiv_raw (a b : dec) : dec :=
  let neg := xorb (dneg a) (dneg b) in
  let ideal := dexp a - dexp b in
  if dis_zero a then Dec neg 0 ideal
  else
    let shift := Z.of_N (ndigits (dcoef b)) - Z.of_N (ndigits (dcoef a))
                 + Z.of_N prec_default + 1 in
    let num := if 0 <=? shift then (dcoef a * 10 ^ Z.to_N shift)%N else dcoef a in
    let den := if 0 <=? shift then dcoef b else (dcoef b * 10 ^ Z.to_N (- shift))%N in
    let c := (num / den)%N in
    if (num mod den =? 0)%N
    then let '(c', e') := strip_to (Z.to_nat (Z.max 0 shift)) c (ideal - shift) ideal in
         Dec neg c' e'
    else Dec neg (if (c mod 5 =? 0)%N then (c + 1)%N else c) (ideal - shift).

(** [a / b]; the default context traps a zero divisor. *)
Definition ddiv (a b : dec) : res dec :=
  if dis_zero b then Raise (ArithmeticError "DivisionByZero")
  else Ok (dfix prec_default (ddiv_raw a b)).

(** [Decimal(1).scaleb(n)] *)
Definition dscale1 (n : Z) : dec := Dec false 1 n.

(** [d.quantize(exp, rounding=m)] in a context of precision [p]. *)
Definition quantize (p : N) (m : rounding) (d : dec) (e : Z) : res dec :=
  if dis_zero d then Ok (Dec (dneg d) 0 e)
  else if Z.of_N p <? adjusted d - e + 1
  then Raise (ArithmeticError "InvalidOperation")
  else
    let r := rescale m d e in
    if (p <? ndigits (dcoef r))%N then Raise (ArithmeticError "InvalidOperation") else Ok r.

(** [d.to_integral()] *)
Definition to_integral (d : dec) : dec :=
  if 0 <=? dexp d then d else rescale ROUND_HALF_EVEN d 0.

(** [d.normalize()] *)
Definition normalize (d : dec) : dec :=
  let f := dfix prec_default d in
  if dis_zero f then Dec (dneg f) 0 0
  else
    let top := dexp f + Z.of_N (ndigits (dcoef f)) in
    let '(c, e) := strip_to (N.to_nat (ndigits (dcoef f))) (dcoef f) (dexp f) top in
    Dec (dneg f) c e.

(** * Comparison *)

Definition dcmp (a b : dec) : comparison :=
  let e := Z.min (dexp a) (dexp b) in
  Z.compare (dsgn a * 10 ^ (dexp a - e)) (dsgn b * 10 ^ (dexp b - e)).

Definition dltb (a b : dec) : bool := match dcmp a b with Lt => true | _ => false end.
Definition dleb (a b : dec) : bool := match dcmp a b with Gt => false | _ => true end.
Definition deqb (a b : dec) : bool := match dcmp a b with Eq => true | _ => false end.

(** Python's [min] and [max] return the first of two equal arguments. *)
Definition dmin (a b : dec) : dec := if dltb b a then b else a.
Definition dmax (a b : dec) : dec := if dltb a b then b else a.

(** [sum(l, Decimal("0"))] *)
Definition dsum (l : list dec) : dec := fold_left dadd l dzero.

Definition dpos (d : dec) : bool := dltb dzero d.
Definition dnegative (d : dec) : bool := dltb d dzero.

Declare Scope dec_scope.
Delimit Scope dec_scope with D.
Infix "+" := dadd : dec_scope.
Infix "-" := dsub : dec_scope.
Infix "*" := dmul : dec_scope.
Infix "<?" := dltb (at level 70, no associativity) : dec_scope.
Infix "<=?" := dleb (at level 70, no associativity) : dec_scope.
Infix "=?" := deqb (at level 70, no associativity) : dec_scope.
