(* ===== verification/DecimalFacts.v ===== *)
(** The theory of [PyDecimal]: numbers denote rationals ([dval]), comparisons
    decide their order, rescaling rounds in the direction of its mode, and every
    arithmetic operation returns a value [near] the exact one, within a relative
    error of [ulp28] = 10^-27. *)

From S2P Require Import Prelude PyDecimal.
From Stdlib Require Import QArith Qabs Qpower Lqa.

Open Scope Z_scope.

#[local] Ltac Zify.zify_post_hook ::= Z.to_euclidean_division_equations.

(** * Powers of ten and values *)

Definition q10 (e : Z) : Q := (inject_Z 10 ^ e)%Q.

Definition dval (d : dec) : Q := (inject_Z (dsgn d) * q10 (dexp d))%Q.

(** [y] approximates [x] within the relative error [r]. *)
Definition near (r x y : Q) : Prop := (Qabs (y - x) <= r * Qabs x)%Q.

Definition ulp28 : Q := q10 (-27).

Lemma q10_pos e : (0 < q10 e)%Q.
Proof. apply Qpower_0_lt. reflexivity. Qed.

Lemma q10_add a b : (q10 (a + b) == q10 a * q10 b)%Q.
Proof. apply Qpower_plus. discriminate. Qed.

Lemma q10_inject k : 0 <= k -> (inject_Z (10 ^ k) == q10 k)%Q.
Proof. intros. unfold q10. by rewrite Zpower_Qpower. Qed.

Lemma q10_split a b : (q10 a == q10 (a - b) * q10 b)%Q.
Proof. rewrite <- q10_add. by replace (a - b + b) with a by lia. Qed.

Lemma q10_le a b : a <= b -> (q10 a <= q10 b)%Q.
Proof.
  intros Hab. rewrite (q10_split b a).
  assert (1 <= q10 (b - a))%Q as H1.
  { rewrite <- q10_inject by lia. change 1%Q with (inject_Z 1). rewrite <- Zle_Qle.
    assert (0 < 10 ^ (b - a)) by (apply Z.pow_pos_nonneg; lia). lia. }
  pose proof (q10_pos a). nra.
Qed.

Lemma dval_at d e :
  e <= dexp d -> (dval d == inject_Z (dsgn d * 10 ^ (dexp d - e)) * q10 e)%Q.
Proof.
  intros. unfold dval. rewrite inject_Z_mult, q10_inject by lia.
  rewrite (q10_split (dexp d) e). ring.
Qed.

Lemma dval_sign_mag s c e :
  (dval (Dec s c e) ==
   (if s then -1 else 1) * (inject_Z (Z.of_N c) * q10 e))%Q.
Proof.
  unfold dval, dsgn; cbn [dneg dcoef dexp]. destruct s; [|ring].
  rewrite inject_Z_opp. ring.
Qed.

(** * Comparison *)

Lemma scaled_lt (x y : Z) e :
  (inject_Z x * q10 e < inject_Z y * q10 e)%Q <-> x < y.
Proof. rewrite Qmult_lt_r by apply q10_pos. by rewrite <- Zlt_Qlt. Qed.

Lemma scaled_eq (x y : Z) e :
  (inject_Z x * q10 e == inject_Z y * q10 e)%Q <-> x = y.
Proof.
  pose proof (q10_pos e) as Hp. split; [|by intros ->].
  intros H. apply Qmult_inj_r in H; [|intros Hz; rewrite Hz in Hp; discriminate].
  by rewrite inject_Z_injective in H.
Qed.

Lemma dcmp_cases a b :
  match dcmp a b with
  | Lt => (dval a < dval b)%Q
  | Eq => (dval a == dval b)%Q
  | Gt => (dval b < dval a)%Q
  end.
Proof.
  unfold dcmp. set (e := Z.min (dexp a) (dexp b)).
  assert (e <= dexp a /\ e <= dexp b) as [Ha Hb] by lia.
  destruct (Z.compare_spec (dsgn a * 10 ^ (dexp a - e)) (dsgn b * 10 ^ (dexp b - e))) as [E|E|E];
    rewrite (dval_at a e Ha), (dval_at b e Hb).
  - by apply scaled_eq.
  - by apply scaled_lt.
  - by apply scaled_lt.
Qed.

Lemma dltb_spec a b : dltb a b = true <-> (dval a < dval b)%Q.
Proof.
  unfold dltb. pose proof (dcmp_cases a b) as H.
  destruct (dcmp a b); split; intros; try done; lra.
Qed.

Lemma dltb_false a b : dltb a b = false <-> (dval b <= dval a)%Q.
Proof.
  unfold dltb. pose proof (dcmp_cases a b) as H.
  destruct (dcmp a b); split; intros; try done; lra.
Qed.

Lemma dleb_spec a b : dleb a b = true <-> (dval a <= dval b)%Q.
Proof.
  unfold dleb. pose proof (dcmp_cases a b) as H.
  destruct (dcmp a b); split; intros; try done; lra.
Qed.

Lemma dleb_false a b : dleb a b = false <-> (dval b < dval a)%Q.
Proof.
  unfold dleb. pose proof (dcmp_cases a b) as H.
  destruct (dcmp a b); split; intros; try done; lra.
Qed.

Lemma deqb_spec a b : deqb a b = true <-> (dval a == dval b)%Q.
Proof.
  unfold deqb. pose proof (dcmp_cases a b) as H.
  destruct (dcmp a b); split; intros; try done; lra.
Qed.

Lemma deqb_false a b : deqb a b = false <-> ~ (dval a == dval b)%Q.
Proof. rewrite <- deqb_spec. by destruct (deqb a b). Qed.

Lemma deqb_refl a : deqb a a = true.
Proof. apply deqb_spec. reflexivity. Qed.

Lemma deqb_sym a b : deqb a b = deqb b a.
Proof.
  destruct (deqb a b) eqn:E1, (deqb b a) eqn:E2; try done.
  - apply deqb_spec in E1. apply deqb_false in E2. by rewrite E1 in E2.
  - apply deqb_spec in E2. apply deqb_false in E1. by rewrite E2 in E1.
Qed.

Lemma deqb_trans a b c : deqb a b = true -> deqb b c = true -> deqb a c = true.
Proof. rewrite !deqb_spec. by intros -> ->. Qed.

Lemma dval_zero : (dval dzero == 0)%Q.
Proof. reflexivity. Qed.

Lemma dval_int n : (dval (dint n) == inject_Z n)%Q.
Proof.
  unfold dval, dsgn, dint; cbn [dneg dcoef dexp]. rewrite N2Z.inj_abs_N.
  change (q10 0) with 1%Q. rewrite Qmult_1_r.
  destruct (Z.ltb_spec n 0).
  - by replace (- Z.abs n) with n by lia.
  - by replace (Z.abs n) with n by lia.
Qed.

Lemma dis_zero_spec d : dis_zero d = true <-> (dval d == 0)%Q.
Proof.
  unfold dis_zero, dval. rewrite N.eqb_eq. pose proof (q10_pos (dexp d)) as Hp.
  split.
  - intros H. unfold dsgn. rewrite H. assert (forall b : bool, (if b then - Z.of_N 0 else Z.of_N 0) = 0) as -> by (by intros []).
    apply Qmult_0_l.
  - intros [H|H]%Qmult_integral; [|rewrite H in Hp; discriminate].
    change 0%Q with (inject_Z 0) in H. rewrite inject_Z_injective in H.
    unfold dsgn in H. destruct (dneg d); lia.
Qed.

Lemma dpos_spec d : dpos d = true <-> (0 < dval d)%Q.
Proof. unfold dpos. by rewrite dltb_spec, dval_zero. Qed.

(** * Digits *)

Lemma ndigits_fuel_bounds f n :
  (0 < n)%N -> (n < 10 ^ N.of_nat (S f))%N ->
  (10 ^ (ndigits_fuel f n - 1) <= n < 10 ^ ndigits_fuel f n)%N /\ (1 <= ndigits_fuel f n)%N.
Proof.
  revert n. induction f as [|f IH]; intros n Hn Hf; cbn [ndigits_fuel].
  - change (10 ^ N.of_nat 1)%N with 10%N in Hf.
    change (10 ^ (1 - 1))%N with 1%N. change (10 ^ 1)%N with 10%N. lia.
  - destruct (N.ltb_spec n 10).
    { change (10 ^ (1 - 1))%N with 1%N. change (10 ^ 1)%N with 10%N. lia. }
    destruct (IH (n / 10)%N) as [[H1 H2] H3].
    + apply N.div_str_pos. lia.
    + apply N.Div0.div_lt_upper_bound.
      by rewrite <- N.pow_succ_r', <- Nat2N.inj_succ.
    + set (k := ndigits_fuel f (n / 10)) in *. split; [|lia].
      replace (1 + k - 1)%N with (N.succ (k - 1)) by lia.
      replace (1 + k)%N with (N.succ k) by lia.
      rewrite !N.pow_succ_r'. lia.
Qed.

Lemma size_nat_bound n : (n < 2 ^ N.of_nat (N.size_nat n))%N.
Proof.
  destruct n as [|p]; [done|]. cbn [N.size_nat].
  induction p as [p IH|p IH|]; cbn [Pos.size_nat]; [| |done];
    rewrite Nat2N.inj_succ, N.pow_succ_r'; lia.
Qed.

Lemma ndigits_bounds n :
  (0 < n)%N -> (10 ^ (ndigits n - 1) <= n < 10 ^ ndigits n)%N.
Proof.
  intros Hn. apply ndigits_fuel_bounds; [done|].
  eapply N.lt_le_trans; [apply size_nat_bound|].
  etransitivity; [apply N.pow_le_mono_l with (c := N.of_nat (N.size_nat n)); instantiate (1 := 10%N); lia|].
  apply N.pow_le_mono_r; lia.
Qed.

Lemma ndigits_pos n : (1 <= ndigits n)%N.
Proof.
  unfold ndigits. destruct (N.size_nat n) as [|f]; cbn; [lia|].
  destruct (n <? 10)%N; lia.
Qed.

Lemma ndigits_le n k : (n < 10 ^ k)%N -> (1 <= k)%N -> (ndigits n <= k)%N.
Proof.
  intros Hn Hk. destruct (N.eq_dec n 0%N) as [->|]; [cbn; lia|].
  destruct (ndigits_bounds n) as [H1 _]; [lia|].
  destruct (N.le_gt_cases (ndigits n) k); [done|].
  assert (10 ^ k <= 10 ^ (ndigits n - 1))%N by (apply N.pow_le_mono_r; lia). lia.
Qed.

(** * Rounded division *)

Lemma round_div_cases m s n b :
  round_div m s n b = (n / b)%N \/ round_div m s n b = (n / b + 1)%N.
Proof. unfold round_div. destruct round_up; auto. Qed.

Lemma round_div_half_even s n b :
  (0 < b)%N ->
  (2 * (round_div ROUND_HALF_EVEN s n b * b) <= 2 * n + b /\
   2 * n <= 2 * (round_div ROUND_HALF_EVEN s n b * b) + b)%N.
Proof.
  intros Hb. unfold round_div, round_up.
  pose proof (N.div_mod n b ltac:(lia)). pose proof (N.mod_lt n b ltac:(lia)).
  set (q := (n / b)%N) in *. set (r := (n mod b)%N) in *.
  destruct (N.ltb_spec b (2 * r)); cbn [orb]; [nia|].
  destruct (N.eqb_spec (2 * r) b); cbn [andb]; [destruct (N.odd q); nia|nia].
Qed.

Lemma round_div_half_up s n b :
  (0 < b)%N ->
  (2 * (round_div ROUND_HALF_UP s n b * b) <= 2 * n + b /\
   2 * n <= 2 * (round_div ROUND_HALF_UP s n b * b) + b)%N.
Proof.
  intros Hb. unfold round_div, round_up.
  pose proof (N.div_mod n b ltac:(lia)). pose proof (N.mod_lt n b ltac:(lia)).
  set (q := (n / b)%N) in *. set (r := (n mod b)%N) in *.
  destruct (N.leb_spec b (2 * r)); nia.
Qed.

(** Rounding the magnitude down: FLOOR of a non-negative, CEILING of a negative number. *)
Lemma round_div_down m s n b :
  (m = ROUND_FLOOR /\ s = false) \/ (m = ROUND_CEILING /\ s = true) ->
  (0 < b)%N ->
  (round_div m s n b * b <= n < round_div m s n b * b + b)%N.
Proof.
  intros Hm Hb. pose proof (N.div_mod n b ltac:(lia)). pose proof (N.mod_lt n b ltac:(lia)).
  unfold round_div. destruct Hm as [[-> ->]|[-> ->]]; cbn; nia.
Qed.

(** Rounding the magnitude up. *)
Lemma round_div_up m s n b :
  (m = ROUND_FLOOR /\ s = true) \/ (m = ROUND_CEILING /\ s = false) ->
  (0 < b)%N ->
  (n <= round_div m s n b * b < n + b)%N.
Proof.
  intros Hm Hb. pose proof (N.div_mod n b ltac:(lia)). pose proof (N.mod_lt n b ltac:(lia)).
  unfold round_div.
  destruct Hm as [[-> ->]|[-> ->]]; cbn; destruct (N.eqb_spec (n mod b) 0); cbn; nia.
Qed.

(** * Rescaling *)

(** Values of two numbers with the same sign and scale differ as their
    coefficients do. *)
Lemma dval_shift s c e k :
  0 <= k -> (dval (Dec s c (e + k)) == dval (Dec s (c * 10 ^ Z.to_N k) e))%Q.
Proof.
  intros. rewrite !dval_sign_mag.
  rewrite N2Z.inj_mul, N2Z.inj_pow, Z2N.id by lia. change (Z.of_N 10) with 10.
  rewrite inject_Z_mult, q10_inject, q10_add by lia. ring.
Qed.

Lemma dval_pad m d e : e <= dexp d -> (dval (rescale m d e) == dval d)%Q.
Proof.
  intros. unfold rescale. rewrite (proj2 (Z.leb_le _ _)) by done.
  rewrite <- dval_shift by lia.
  destruct d as [s c x]; cbn [dneg dcoef dexp] in *. by replace (e + (x - e)) with x by lia.
Qed.

Lemma rescale_exp m d e : dexp (rescale m d e) = e.
Proof. unfold rescale. by destruct (e <=? dexp d). Qed.

Lemma rescale_neg m d e : dneg (rescale m d e) = dneg d.
Proof. unfold rescale. by destruct (e <=? dexp d). Qed.

Lemma rescale_divisor d e : (0 < 10 ^ Z.to_N (e - dexp d))%N.
Proof. apply N.neq_0_lt_0, N.pow_nonzero. done. Qed.

Lemma rescale_quantum d e :
  dexp d < e ->
  (q10 e == inject_Z (Z.of_N (10 ^ Z.to_N (e - dexp d))) * q10 (dexp d))%Q.
Proof.
  intros. rewrite N2Z.inj_pow, Z2N.id by lia. change (Z.of_N 10) with 10.
  rewrite q10_inject by lia. apply q10_split.
Qed.

Section RescaleRound.
Context (m : rounding) (d : dec) (e : Z).
Hypothesis Hlt : dexp d < e.
Let b := (10 ^ Z.to_N (e - dexp d))%N.
Let c := round_div m (dneg d) (dcoef d) b.

Lemma rescale_value :
  (dval (rescale m d e) == dval (Dec (dneg d) (c * b) (dexp d)))%Q.
Proof.
  unfold rescale. rewrite (proj2 (Z.leb_gt _ _)) by done. fold b c.
  unfold b at 1. rewrite <- dval_shift by lia. by replace (dexp d + (e - dexp d)) with e by lia.
Qed.

End RescaleRound.

Lemma dval_eta d : dval d = dval (Dec (dneg d) (dcoef d) (dexp d)).
Proof. by destruct d. Qed.

Lemma scaled_le (x y : Z) e :
  x <= y -> (inject_Z x * q10 e <= inject_Z y * q10 e)%Q.
Proof. intros. apply Qmult_le_compat_r; [by rewrite <- Zle_Qle|]. apply Qlt_le_weak, q10_pos. Qed.

Lemma Q_add_scaled (x y : Z) (q : Q) :
  (inject_Z x * q + inject_Z y * q == inject_Z (x + y) * q)%Q.
Proof. rewrite inject_Z_plus. ring. Qed.

(** FLOOR goes down, CEILING goes up, by less than one unit of the target exponent. *)
Lemma rescale_floor d e :
  (dval (rescale ROUND_FLOOR d e) <= dval d)%Q /\
  (dval d < dval (rescale ROUND_FLOOR d e) + q10 e)%Q.
Proof.
  pose proof (q10_pos e) as Hq.
  destruct (Z.le_gt_cases e (dexp d)) as [Hle|Hlt].
  { rewrite dval_pad by done. lra. }
  pose proof (rescale_divisor d e) as Hb.
  rewrite rescale_value, (rescale_quantum d e), (dval_eta d) by done.
  rewrite !dval_sign_mag. destruct (dneg d).
  - pose proof (round_div_up ROUND_FLOOR true (dcoef d) (10 ^ Z.to_N (e - dexp d))) as [H1 H2];
      [auto|done|].
    split.
    + match goal with |- (-1 * ?x <= -1 * ?y)%Q => cut (y <= x)%Q; [lra|] end.
      apply scaled_le. lia.
    + match goal with |- (-1 * ?y < -1 * ?x + ?z)%Q => cut (x < y + z)%Q; [lra|] end.
      rewrite Q_add_scaled. apply scaled_lt. lia.
  - pose proof (round_div_down ROUND_FLOOR false (dcoef d) (10 ^ Z.to_N (e - dexp d))) as [H1 H2];
      [auto|done|].
    rewrite !Qmult_1_l, Q_add_scaled. split; [apply scaled_le|apply scaled_lt]; lia.
Qed.

Lemma copy_negate_val d : (dval (copy_negate d) == - dval d)%Q.
Proof.
  rewrite (dval_eta d). unfold copy_negate. rewrite !dval_sign_mag.
  destruct (dneg d); cbn [negb]; ring.
Qed.

(** CEILING is FLOOR of the negated number. *)
Lemma rescale_ceiling_floor d e :
  rescale ROUND_CEILING d e = copy_negate (rescale ROUND_FLOOR (copy_negate d) e).
Proof.
  unfold rescale, copy_negate; cbn. destruct (e <=? dexp d); cbn; rewrite negb_involutive;
    [done|]. by destruct (dneg d).
Qed.

Lemma rescale_ceiling d e :
  (dval d <= dval (rescale ROUND_CEILING d e))%Q /\
  (dval (rescale ROUND_CEILING d e) < dval d + q10 e)%Q.
Proof.
  rewrite rescale_ceiling_floor, copy_negate_val.
  pose proof (rescale_floor (copy_negate d) e) as [H1 H2].
  rewrite copy_negate_val in H1, H2. lra.
Qed.

(** HALF_UP and HALF_EVEN stay within half a unit. *)
Lemma rescale_half m d e :
  m = ROUND_HALF_UP \/ m = ROUND_HALF_EVEN ->
  (Qabs (dval (rescale m d e) - dval d) <= (1 # 2) * q10 e)%Q.
Proof.
  intros Hm. pose proof (q10_pos e) as Hq.
  destruct (Z.le_gt_cases e (dexp d)) as [Hle|Hlt].
  { rewrite dval_pad by done.
    rewrite Qabs_wd with (y := 0%Q) by ring. change (Qabs 0) with 0%Q. lra. }
  pose proof (rescale_divisor d e) as Hb.
  rewrite rescale_value, (rescale_quantum d e), (dval_eta d) by done.
  rewrite !dval_sign_mag.
  set (b := (10 ^ Z.to_N (e - dexp d))%N) in *.
  set (c := round_div m (dneg d) (dcoef d) b).
  assert (2 * (c * b) <= 2 * dcoef d + b /\ 2 * dcoef d <= 2 * (c * b) + b)%N as [H1 H2].
  { destruct Hm as [-> | ->]; [by apply round_div_half_up|by apply round_div_half_even]. }
  set (q := q10 (dexp d)).
  assert (forall x y : Z, (2 * x <= 2 * y + Z.of_N b)%Z ->
    (inject_Z x * q <= inject_Z y * q + (1 # 2) * (inject_Z (Z.of_N b) * q)))%Q as Hh.
  { intros x y Hxy. apply (scaled_le _ _ (dexp d)) in Hxy. fold q in Hxy.
    rewrite inject_Z_plus, !inject_Z_mult in Hxy. change (inject_Z 2) with 2%Q in Hxy. lra. }
  pose proof (Hh (Z.of_N (c * b)) (Z.of_N (dcoef d)) ltac:(lia)).
  pose proof (Hh (Z.of_N (dcoef d)) (Z.of_N (c * b)) ltac:(lia)).
  apply Qabs_Qle_condition. destruct (dneg d); lra.
Qed.

(** * Rounding to the context *)

Section Fix.
Context (p : N) (d : dec).
Hypothesis Hp : (1 <= p)%N.
Let n := ndigits (dcoef d).
Let k := (n - p)%N.
Let c := round_div ROUND_HALF_EVEN (dneg d) (dcoef d) (10 ^ k).

Lemma dfix_same : (n <= p)%N -> dfix p d = d.
Proof. intros H. unfold dfix. fold n. by rewrite (proj2 (N.leb_le _ _) H). Qed.

Lemma dfix_neg : dneg (dfix p d) = dneg d.
Proof. unfold dfix. fold n. by repeat case_match. Qed.

Lemma fix_coef_le : (p < n)%N -> (c <= 10 ^ p)%N.
Proof.
  intros Hn.
  assert (0 < dcoef d)%N as Hc.
  { destruct (N.eq_dec (dcoef d) 0%N) as [E|]; [|lia]. unfold n in Hn. rewrite E in Hn.
    cbn in Hn. lia. }
  destruct (ndigits_bounds (dcoef d) Hc) as [_ Hub]. fold n in Hub.
  assert (dcoef d / 10 ^ k < 10 ^ p)%N.
  { apply N.Div0.div_lt_upper_bound. rewrite <- N.pow_add_r.
    by replace (k + p)%N with n by (unfold k; lia). }
  unfold c. destruct (round_div_cases ROUND_HALF_EVEN (dneg d) (dcoef d) (10 ^ k)) as [-> | ->]; lia.
Qed.

(** The value after rounding is that of the rounded quotient. *)
Lemma dfix_value :
  (p < n)%N -> (dval (dfix p d) == dval (rescale ROUND_HALF_EVEN d (dexp d + Z.of_N k)))%Q.
Proof.
  intros Hn. unfold dfix. fold n k c. rewrite (proj2 (N.leb_gt _ _) Hn).
  unfold rescale. rewrite (proj2 (Z.leb_gt _ _)) by (unfold k; lia).
  replace (Z.to_N (dexp d + Z.of_N k - dexp d)) with k by lia. fold c.
  destruct (N.leb_spec (ndigits c) p) as [|Hc]; [done|].
  assert (c = 10 * 10 ^ (p - 1))%N as Hcp.
  { rewrite <- N.pow_succ_r'. replace (N.succ (p - 1)) with p by lia.
    pose proof (fix_coef_le Hn). destruct (N.eq_dec c (10 ^ p)%N) as [|Hne]; [done|].
    pose proof (ndigits_le c p ltac:(lia) Hp). lia. }
  rewrite dval_shift by lia. rewrite Hcp.
  change (Z.to_N 1) with 1%N.
  replace (10 * 10 ^ (p - 1) / 10 * 10 ^ 1)%N with (10 * 10 ^ (p - 1))%N; [done|].
  by rewrite N.pow_1_r, (N.mul_comm 10 (10 ^ (p - 1))), N.div_mul by done.
Qed.
End Fix.

Lemma Qabs_dval d : (Qabs (dval d) == inject_Z (Z.of_N (dcoef d)) * q10 (dexp d))%Q.
Proof.
  rewrite (dval_eta d), dval_sign_mag, Qabs_Qmult.
  pose proof (q10_pos (dexp d)) as Hq.
  assert (0 <= inject_Z (Z.of_N (dcoef d)) * q10 (dexp d))%Q as H0.
  { apply Qmult_le_0_compat; [|lra]. change 0%Q with (inject_Z 0). rewrite <- Zle_Qle. lia. }
  rewrite (Qabs_pos (_ * _)%Q H0).
  destruct (dneg d); [change (Qabs (-1)) with 1%Q|change (Qabs 1) with 1%Q]; ring.
Qed.

(** Rounding to [p] digits has a relative error of at most half a unit in the last place. *)
Lemma dfix_near p d :
  (1 <= p)%N -> near ((1 # 2) * q10 (1 - Z.of_N p)) (dval d) (dval (dfix p d)).
Proof.
  intros Hp. unfold near. pose proof (q10_pos (1 - Z.of_N p)) as Hq.
  destruct (N.le_gt_cases (ndigits (dcoef d)) p) as [Hle|Hgt].
  { rewrite dfix_same by done. rewrite Qabs_wd with (y := 0%Q) by ring.
    apply Qmult_le_0_compat; [lra|apply Qabs_nonneg]. }
  rewrite dfix_value by done. eapply Qle_trans; [apply rescale_half; auto|].
  rewrite Qabs_dval.
  assert (0 < dcoef d)%N as Hc.
  { destruct (N.eq_dec (dcoef d) 0%N) as [E|]; [|lia]. rewrite E in Hgt. cbn in Hgt. lia. }
  destruct (ndigits_bounds _ Hc) as [Hlb _].
  set (n := ndigits (dcoef d)) in *.
  replace (dexp d + Z.of_N (n - p)) with ((1 - Z.of_N p) + (Z.of_N n - 1) + dexp d) by lia.
  rewrite !q10_add.
  assert (q10 (Z.of_N n - 1) <= inject_Z (Z.of_N (dcoef d)))%Q as Hn.
  { rewrite <- q10_inject by lia. rewrite <- Zle_Qle.
    apply N2Z.inj_le in Hlb. rewrite N2Z.inj_pow, N2Z.inj_sub in Hlb by lia. lia. }
  pose proof (q10_pos (dexp d)) as Hx.
  rewrite <- Qmult_assoc, Qmult_assoc.
  apply Qmult_le_l; [lra|]. apply Qmult_le_compat_r; [done|lra].
Qed.

(** * Approximation *)

Lemma near_bounds r x y : near r x y -> (0 <= x)%Q -> (x - r * x <= y /\ y <= x + r * x)%Q.
Proof.
  unfold near. intros H Hx. rewrite (Qabs_pos x Hx) in H.
  apply Qabs_Qle_condition in H. lra.
Qed.

Lemma near_exact r x y : (0 <= r)%Q -> (x == y)%Q -> near r x y.
Proof.
  intros Hr Hxy. unfold near. rewrite Qabs_wd with (y := 0%Q) by (rewrite Hxy; ring).
  apply Qmult_le_0_compat; [done|apply Qabs_nonneg].
Qed.

Lemma near_opp r x y : near r x y -> near r (- x) (- y).
Proof.
  unfold near. intros H. rewrite Qabs_opp.
  rewrite Qabs_wd with (y := (- (y - x))%Q) by ring. by rewrite Qabs_opp.
Qed.

Lemma near_weaken r s x y : (r <= s)%Q -> near r x y -> near s x y.
Proof.
  unfold near. intros Hrs H. eapply Qle_trans; [done|].
  apply Qmult_le_compat_r; [done|apply Qabs_nonneg].
Qed.

#[export] Instance near_proper : Proper (Qeq ==> Qeq ==> Qeq ==> iff) near.
Proof. intros r r' Hr x x' Hx y y' Hy. unfold near. by rewrite Hr, Hx, Hy. Qed.

Lemma near_trans r s x y z :
  (0 <= s)%Q -> near r x y -> near s y z -> near (r + s + r * s) x z.
Proof.
  unfold near. intros Hs H1 H2.
  rewrite Qabs_wd with (y := ((z - y) + (y - x))%Q) by ring.
  eapply Qle_trans; [apply Qabs_triangle|].
  assert (Qabs y <= Qabs x + r * Qabs x)%Q as Hy.
  { rewrite Qabs_wd with (x := y) (y := ((y - x) + x)%Q) by ring.
    eapply Qle_trans; [apply Qabs_triangle|]. lra. }
  assert (s * Qabs y <= s * (Qabs x + r * Qabs x))%Q by (rewrite !(Qmult_comm s); by apply Qmult_le_compat_r).
  lra.
Qed.

Section NearSign.
Context (r x y : Q).
Hypotheses (Hr : (0 <= r)%Q) (Hr1 : (r < 1)%Q) (Hn : near r x y).

Lemma near_pos : (0 < x)%Q -> (0 < y)%Q.
Proof. intros Hx. destruct (near_bounds _ _ _ Hn); [lra|]. nra. Qed.

Lemma near_zero : (x == 0)%Q -> (y == 0)%Q.
Proof. intros Hx. destruct (near_bounds _ _ _ Hn); [lra|]. rewrite Hx in *. lra. Qed.
End NearSign.

Lemma near_neg r x y : (0 <= r)%Q -> (r < 1)%Q -> near r x y -> (x < 0)%Q -> (y < 0)%Q.
Proof.
  intros Hr Hr1 Hn%near_opp Hx.
  assert (0 < - y)%Q by (eapply near_pos; eauto; lra). lra.
Qed.

Lemma ulp28_range : (0 <= ulp28 /\ ulp28 < 1)%Q.
Proof. split; [discriminate|reflexivity]. Qed.

Lemma dfix28_near d : near ((1 # 2) * ulp28) (dval d) (dval (dfix prec_default d)).
Proof. apply dfix_near. done. Qed.

Lemma dfix28_near_ulp d x : (dval d == x)%Q -> near ulp28 x (dval (dfix prec_default d)).
Proof.
  intros <-. eapply near_weaken; [|apply dfix28_near]. pose proof ulp28_range. lra.
Qed.

(** * The arithmetic operations *)

Lemma copy_abs_val d : (dval (copy_abs d) == Qabs (dval d))%Q.
Proof. rewrite Qabs_dval. unfold copy_abs. rewrite dval_sign_mag. ring. Qed.

Lemma dadd_exact_val a b : (dval (dadd_exact a b) == dval a + dval b)%Q.
Proof.
  unfold dadd_exact. set (e := Z.min (dexp a) (dexp b)).
  rewrite (dval_at a e), (dval_at b e) by lia. rewrite Q_add_scaled.
  set (s := dsgn a * 10 ^ (dexp a - e) + dsgn b * 10 ^ (dexp b - e)).
  unfold dval, dsgn; cbn [dneg dcoef dexp]. rewrite N2Z.inj_abs_N.
  destruct (Z.eqb_spec s 0) as [->|]; [by destruct (_ && _)|].
  destruct (Z.ltb_spec s 0); [replace (- Z.abs s) with s by lia|replace (Z.abs s) with s by lia];
    reflexivity.
Qed.

Lemma dadd_near a b : near ulp28 (dval a + dval b) (dval (dadd a b)).
Proof. apply dfix28_near_ulp, dadd_exact_val. Qed.

Lemma dsub_near a b : near ulp28 (dval a - dval b) (dval (dsub a b)).
Proof. apply dfix28_near_ulp. rewrite dadd_exact_val, copy_negate_val. ring. Qed.

Lemma dmul_exact_val a b : (dval (dmul_exact a b) == dval a * dval b)%Q.
Proof.
  rewrite (dval_eta a), (dval_eta b). unfold dmul_exact. rewrite !dval_sign_mag.
  cbn [dneg dcoef dexp]. rewrite N2Z.inj_mul, inject_Z_mult, q10_add.
  destruct (dneg a), (dneg b); cbn [xorb]; ring.
Qed.

Lemma dmul_near a b : near ulp28 (dval a * dval b) (dval (dmul a b)).
Proof. apply dfix28_near_ulp, dmul_exact_val. Qed.

Lemma dabs_near a : near ulp28 (Qabs (dval a)) (dval (dabs a)).
Proof. apply dfix28_near_ulp, copy_abs_val. Qed.

Lemma dopp_near a : near ulp28 (- dval a) (dval (dopp a)).
Proof.
  unfold dopp. apply dfix28_near_ulp. destruct (dis_zero a) eqn:E; [|apply copy_negate_val].
  apply dis_zero_spec in E. rewrite copy_abs_val, E. reflexivity.
Qed.

(** ** Division *)

Lemma strip_to_val fuel c e ideal s :
  (dval (Dec s (strip_to fuel c e ideal).1 (strip_to fuel c e ideal).2) == dval (Dec s c e))%Q.
Proof.
  revert c e. induction fuel as [|f IH]; intros c e; cbn [strip_to]; [done|].
  destruct ((e <? ideal) && (c mod 10 =? 0)%N) eqn:E; [|done].
  bool_prop. apply N.eqb_eq in H0. rewrite IH, dval_shift by lia.
  change (10 ^ Z.to_N 1)%N with 10%N.
  replace (c / 10 * 10)%N with c; [done|].
  pose proof (N.div_mod c 10 ltac:(done)). lia.
Qed.

Section Division.
Context (a b : dec).
Hypotheses (Ha : dis_zero a = false) (Hb : dis_zero b = false).
Let shift := Z.of_N (ndigits (dcoef b)) - Z.of_N (ndigits (dcoef a)) + Z.of_N prec_default + 1.
Let num := if 0 <=? shift then (dcoef a * 10 ^ Z.to_N shift)%N else dcoef a.
Let den := if 0 <=? shift then dcoef b else (dcoef b * 10 ^ Z.to_N (- shift))%N.

Lemma coefs_pos : (0 < dcoef a)%N /\ (0 < dcoef b)%N.
Proof. unfold dis_zero in *. apply N.eqb_neq in Ha, Hb. lia. Qed.

Lemma den_pos : (0 < den)%N.
Proof.
  destruct coefs_pos. unfold den. destruct (0 <=? shift); [done|].
  apply N.mul_pos_pos; [done|]. apply N.neq_0_lt_0, N.pow_nonzero. done.
Qed.

(** The scaled quotient keeps at least 29 digits. *)
Lemma num_large : (den * 10 ^ prec_default <= num)%N.
Proof.
  destruct coefs_pos as [Ha0 Hb0].
  destruct (ndigits_bounds _ Ha0) as [Hal _], (ndigits_bounds _ Hb0) as [_ Hbu].
  pose proof (ndigits_pos (dcoef a)). unfold num, den.
  destruct (Z.leb_spec 0 shift) as [Hs|Hs].
  - etransitivity; [apply N.mul_le_mono_r, N.lt_le_incl, Hbu|].
    etransitivity; [|apply N.mul_le_mono_r, Hal].
    rewrite <- !N.pow_add_r. apply N.pow_le_mono_r; [done|]. unfold shift in *. lia.
  - etransitivity; [|apply Hal].
    etransitivity; [apply N.mul_le_mono_r, N.mul_le_mono_r, N.lt_le_incl, Hbu|].
    rewrite <- !N.pow_add_r. apply N.pow_le_mono_r; [done|]. unfold shift in *. lia.
Qed.

Let sgn : Q := if xorb (dneg a) (dneg b) then (-1)%Q else 1%Q.
Let t : Q := (inject_Z (Z.of_N num) / inject_Z (Z.of_N den))%Q.

Lemma inject_N_pos n : (0 < n)%N -> (0 < inject_Z (Z.of_N n))%Q.
Proof. intros. change 0%Q with (inject_Z 0). rewrite <- Zlt_Qlt. lia. Qed.

Lemma quotient_scaled :
  (dval a / dval b == sgn * (t * q10 (dexp a - dexp b - shift)))%Q.
Proof.
  destruct coefs_pos as [Ha0 Hb0].
  pose proof (inject_N_pos _ Ha0) as HA. pose proof (inject_N_pos _ Hb0) as HB.
  pose proof (q10_pos (dexp b)) as Hqb. pose proof (q10_pos (dexp a - dexp b - shift)) as Hqs.
  pose proof (q10_pos shift) as Hs. pose proof (q10_pos (- shift)) as Hs'.
  rewrite (dval_eta a), (dval_eta b), !dval_sign_mag.
  rewrite (q10_split (dexp a) (dexp a - dexp b - shift)).
  replace (dexp a - (dexp a - dexp b - shift)) with (dexp b + shift) by lia.
  rewrite q10_add. unfold sgn, t, num, den.
  destruct (Z.leb_spec 0 shift) as [Hsh|Hsh].
  - rewrite N2Z.inj_mul, N2Z.inj_pow, Z2N.id by lia. change (Z.of_N 10) with 10.
    rewrite inject_Z_mult, q10_inject by lia.
    destruct (dneg a), (dneg b); cbn [xorb]; field; split; lra.
  - rewrite N2Z.inj_mul, N2Z.inj_pow, Z2N.id by lia. change (Z.of_N 10) with 10.
    rewrite inject_Z_mult, q10_inject by lia.
    assert (q10 shift * q10 (- shift) == 1)%Q as Hinv.
    { rewrite <- q10_add. by replace (shift + - shift) with 0 by lia. }
    assert (q10 shift == / q10 (- shift))%Q as ->.
    { rewrite <- (Qmult_1_l (/ _)), <- Hinv. field. lra. }
    destruct (dneg a), (dneg b); cbn [xorb]; field; repeat split; lra.
Qed.

Lemma ddiv_raw_near : near (q10 (-28)) (dval a / dval b) (dval (ddiv_raw a b)).
Proof.
  pose proof den_pos as Hd. pose proof num_large as Hl.
  pose proof (N.div_mod num den ltac:(lia)) as Hdm. pose proof (N.mod_lt num den ltac:(lia)) as Hlt.
  pose proof (inject_N_pos _ Hd) as HD.
  rewrite quotient_scaled. unfold ddiv_raw. rewrite Ha. fold shift num den.
  set (c := (num / den)%N) in *. set (r := (num mod den)%N) in *.
  set (x := dexp a - dexp b) in *. pose proof (q10_pos (x - shift)) as Hq.
  destruct (N.eqb_spec r 0) as [Hr|Hr].
  - pose proof (strip_to_val (Z.to_nat (Z.max 0 shift)) c (x - shift) x
                  (xorb (dneg a) (dneg b))) as Hs.
    destruct (strip_to _ _ _ _) as [c' e'] eqn:E; cbn [fst snd] in Hs.
    apply near_exact; [discriminate|]. rewrite Hs, dval_sign_mag. fold sgn.
    unfold t. rewrite Hdm, Hr, N.add_0_r, N2Z.inj_mul, inject_Z_mult. field. lra.
  - set (c' := (if (c mod 5 =? 0)%N then (c + 1)%N else c)).
    assert (c <= c' <= c + 1)%N as Hc' by (unfold c'; destruct (_ =? 0)%N; lia).
    rewrite dval_sign_mag. fold sgn.
    assert (inject_Z (Z.of_N num) == t * inject_Z (Z.of_N den))%Q as Ht by (unfold t; field; lra).
    assert (forall u v : N, (u <= v)%N -> (inject_Z (Z.of_N u) <= inject_Z (Z.of_N v))%Q) as Hmono.
    { intros u v Huv. rewrite <- Zle_Qle. lia. }
    pose proof (Hmono _ _ Hl) as H1. pose proof (Hmono (c * den)%N num ltac:(lia)) as H2.
    pose proof (Hmono num ((c + 1) * den)%N ltac:(lia)) as H3.
    pose proof (Hmono c c' ltac:(lia)) as H4. pose proof (Hmono c' (c + 1)%N ltac:(lia)) as H5.
    rewrite ?N2Z.inj_mul, ?N2Z.inj_add, ?inject_Z_mult, ?inject_Z_plus in *.
    change (inject_Z (Z.of_N 1)) with 1%Q in *.
    rewrite Ht in H1, H2, H3.
    set (C := inject_Z (Z.of_N c)) in *. set (C' := inject_Z (Z.of_N c')) in *.
    set (DD := inject_Z (Z.of_N den)) in *. clearbody C C' DD. 
    assert (C <= t)%Q as Ht1 by nra. assert (t <= C + 1)%Q as Ht2 by nra.
    assert (inject_Z (Z.of_N (10 ^ prec_default)) <= t)%Q as Ht3 by nra.
    assert (1 <= q10 (-28) * t)%Q as Ht4.
    { assert (q10 (-28) * inject_Z (Z.of_N (10 ^ prec_default)) == 1)%Q as <- by reflexivity.
      apply Qmult_le_l; [apply q10_pos|done]. }
    unfold near.
    rewrite Qabs_wd with (y := (sgn * (C' - t) * q10 (x - shift))%Q) by ring.
    rewrite !Qabs_Qmult, (Qabs_pos (q10 (x - shift))) by lra.
    assert (0 <= t)%Q as Ht0.
    { eapply Qle_trans; [|exact Ht3]. discriminate. }
    rewrite (Qabs_pos t) by done.
    assert (Qabs sgn == 1)%Q as -> by (unfold sgn; by destruct (xorb _ _)).
    assert (Qabs (C' - t) <= 1)%Q by (apply Qabs_Qle_condition; lra). nra.
Qed.
End Division.

Lemma ddiv_ok a b : dis_zero b = false -> exists r, ddiv a b = Ok r.
Proof. intros H. unfold ddiv. rewrite H. eauto. Qed.

Lemma ddiv_near a b r : ddiv a b = Ok r -> near ulp28 (dval a / dval b) (dval r).
Proof.
  unfold ddiv. destruct (dis_zero b) eqn:Hb; [done|]. intros [= <-].
  destruct (dis_zero a) eqn:Ha.
  - apply dis_zero_spec in Ha as Hz. apply dfix28_near_ulp.
    unfold ddiv_raw. rewrite Ha, Hz, dval_sign_mag. cbn [Z.of_N].
    change (inject_Z 0) with 0%Q. unfold Qdiv. ring.
  - pose proof (ddiv_raw_near a b Ha Hb) as H1. pose proof (dfix28_near (ddiv_raw a b)) as H2.
    eapply near_weaken; [|eapply near_trans; [|exact H1|exact H2]]; by apply Qle_bool_iff.
Qed.

(** * Quantizing *)

Lemma rescale_zero m d e : dis_zero d = true -> rescale m d e = Dec (dneg d) 0 e.
Proof.
  unfold dis_zero, rescale. intros H%N.eqb_eq. rewrite H.
  destruct (e <=? dexp d); [done|].
  pose proof (rescale_divisor d e) as Hb. unfold round_div.
  rewrite N.Div0.div_0_l, N.Div0.mod_0_l.
  set (b := (10 ^ Z.to_N (e - dexp d))%N) in *.
  replace (round_up m (dneg d) 0 0 b) with false; [done|].
  destruct m; cbn [round_up]; symmetry.
  - apply orb_false_intro; [apply N.ltb_ge; lia|]. rewrite (proj2 (N.eqb_neq _ _)); [done|lia].
  - apply N.leb_gt. lia.
  - by rewrite andb_false_r.
  - by rewrite andb_false_r.
Qed.

Lemma quantize_inv p m d e r : quantize p m d e = Ok r -> r = rescale m d e.
Proof.
  unfold quantize. destruct (dis_zero d) eqn:E; [intros [= <-]; by rewrite rescale_zero|].
  by repeat case_match; intros [= <-].
Qed.

Lemma quantize_exp p m d e r : quantize p m d e = Ok r -> dexp r = e /\ dneg r = dneg d.
Proof. intros ->%quantize_inv. by rewrite rescale_exp, rescale_neg. Qed.

(** A number below [10 ^ p] units of the target exponent can be quantized,
    whatever the mode. *)
Lemma quantize_ok p m d e :
  (1 <= p)%N -> adjusted d - e + 1 < Z.of_N p -> exists r, quantize p m d e = Ok r.
Proof.
  intros Hp Hadj. unfold quantize. destruct (dis_zero d) eqn:Hz; [eauto|].
  rewrite (proj2 (Z.ltb_ge _ _)) by lia.
  unfold dis_zero in Hz. apply N.eqb_neq in Hz.
  pose proof (ndigits_bounds (dcoef d) ltac:(lia)) as [_ Hu].
  pose proof (ndigits_pos (dcoef d)) as Hnp.
  rewrite (proj2 (N.ltb_ge _ _)); [eauto|]. unfold adjusted in Hadj.
  set (n := ndigits (dcoef d)) in *. unfold rescale.
  destruct (Z.leb_spec e (dexp d)) as [Hle|Hgt]; cbn [dcoef].
  - apply ndigits_le; [|done]. set (j := Z.to_N (dexp d - e)).
    apply N.lt_le_trans with (10 ^ (n + j))%N; [|apply N.pow_le_mono_r; lia].
    rewrite N.pow_add_r. apply N.mul_lt_mono_pos_r; [|done].
    apply N.neq_0_lt_0, N.pow_nonzero. done.
  - apply ndigits_le; [|done]. set (j := Z.to_N (e - dexp d)).
    assert (dcoef d / 10 ^ j < 10 ^ (p - 1))%N as Hq.
    { apply N.Div0.div_lt_upper_bound. rewrite <- N.pow_add_r.
      eapply N.lt_le_trans; [done|]. apply N.pow_le_mono_r; lia. }
    assert (10 ^ p = 10 * 10 ^ (p - 1))%N as Hpp.
    { rewrite <- N.pow_succ_r'. f_equal. lia. }
    destruct (round_div_cases m (dneg d) (dcoef d) (10 ^ j)) as [-> | ->]; lia.
Qed.

(** A value that is already a multiple of the quantum is not changed. *)
Lemma rescale_multiple m d e k :
  (dval d == inject_Z k * q10 e)%Q -> (dval (rescale m d e) == dval d)%Q.
Proof.
  intros Hk. destruct (Z.le_gt_cases e (dexp d)) as [Hle|Hgt]; [by apply dval_pad|].
  rewrite rescale_value by done.
  pose proof (rescale_divisor d e) as Hb. rewrite (rescale_quantum d e Hgt) in Hk.
  set (b := (10 ^ Z.to_N (e - dexp d))%N) in *.
  assert (dsgn d = k * Z.of_N b) as Hs.
  { apply (scaled_eq _ _ (dexp d)). rewrite inject_Z_mult. unfold dval in Hk. rewrite Hk. ring. }
  assert (dcoef d = Z.abs_N k * b)%N as Hc.
  { unfold dsgn in Hs. apply N2Z.inj. rewrite N2Z.inj_mul, N2Z.inj_abs_N.
    destruct (dneg d); nia. }
  replace (round_div m (dneg d) (dcoef d) b) with (Z.abs_N k); [|].
  - by rewrite <- Hc, <- dval_eta.
  - unfold round_div. rewrite Hc, N.div_mul, N.Div0.mod_mul by lia.
    replace (round_up m (dneg d) (Z.abs_N k) 0 b) with false; [done|].
    destruct m; cbn [round_up]; symmetry.
    + apply orb_false_intro; [apply N.ltb_ge; lia|]. rewrite (proj2 (N.eqb_neq _ _)); [done|lia].
    + apply N.leb_gt. lia.
    + by rewrite andb_false_r.
    + by rewrite andb_false_r.
Qed.

(** ** Magnitude: [adjusted] locates a number between powers of ten *)

Lemma adjusted_bounds d :
  dis_zero d = false ->
  (q10 (adjusted d) <= Qabs (dval d) /\ Qabs (dval d) < q10 (adjusted d + 1))%Q.
Proof.
  intros Hz. unfold dis_zero in Hz. apply N.eqb_neq in Hz.
  destruct (ndigits_bounds (dcoef d) ltac:(lia)) as [H1 H2].
  pose proof (ndigits_pos (dcoef d)) as Hp. rewrite !Qabs_dval. unfold adjusted.
  set (n := ndigits (dcoef d)) in *.
  replace (dexp d + Z.of_N n - 1) with ((Z.of_N n - 1) + dexp d) by lia.
  replace ((Z.of_N n - 1) + dexp d + 1) with (Z.of_N n + dexp d) by lia.
  rewrite !q10_add, <- (q10_inject (Z.of_N n - 1)), <- (q10_inject (Z.of_N n)) by lia.
  apply N2Z.inj_le in H1. apply N2Z.inj_lt in H2. rewrite N2Z.inj_pow, ?N2Z.inj_sub in * by lia.
  split; [apply scaled_le|apply scaled_lt]; lia.
Qed.

(** Multiples of a quantum. *)
Definition multiple_of (e : Z) (x : Q) : Prop := exists k : Z, (x == inject_Z k * q10 e)%Q.

#[export] Instance multiple_of_proper e : Proper (Qeq ==> iff) (multiple_of e).
Proof. intros x y Hxy. unfold multiple_of. by setoid_rewrite Hxy. Qed.

Lemma multiple_of_dec d : multiple_of (dexp d) (dval d).
Proof. by exists (dsgn d). Qed.

Lemma multiple_of_mono e e' x : e <= e' -> multiple_of e' x -> multiple_of e x.
Proof.
  intros He [k Hk]. exists (k * 10 ^ (e' - e)).
  rewrite Hk, inject_Z_mult, q10_inject, (q10_split e' e) by lia. ring.
Qed.

Lemma rescale_multiple_of m d e : multiple_of e (dval (rescale m d e)).
Proof. rewrite <- (rescale_exp m d e) at 1. apply multiple_of_dec. Qed.

Lemma is_integral d : deqb d (to_integral d) = true <-> multiple_of 0 (dval d).
Proof.
  unfold to_integral. destruct (Z.leb_spec 0 (dexp d)) as [He|He].
  - rewrite deqb_refl. split; [intros _|done]. eapply multiple_of_mono, multiple_of_dec. done.
  - rewrite deqb_spec. split.
    + intros ->. apply rescale_multiple_of.
    + intros [k Hk]. by rewrite (rescale_multiple _ _ _ k Hk).
Qed.

Lemma adjusted_le d n : dis_zero d = false -> (Qabs (dval d) <= q10 n)%Q -> adjusted d <= n.
Proof.
  intros Hz H. destruct (adjusted_bounds d Hz) as [Hl _].
  destruct (Z.le_gt_cases (adjusted d) n) as [|Hgt]; [done|]. exfalso.
  assert (q10 n < q10 (adjusted d))%Q; [|lra].
  rewrite (q10_split (adjusted d) n). pose proof (q10_pos n).
  pose proof (q10_le 1 (adjusted d - n) ltac:(lia)) as H10.
  change (q10 1) with 10%Q in H10. nra.
Qed.

Lemma dmax_scale1 a b : dexp (dmax (dscale1 a) (dscale1 b)) = Z.max a b.
Proof.
  assert (forall e, dval (dscale1 e) == q10 e)%Q as Hv by (intros; apply Qmult_1_l).
  unfold dmax. destruct (dltb (dscale1 a) (dscale1 b)) eqn:E; cbn.
  - apply dltb_spec in E. rewrite !Hv in E.
    destruct (Z.le_gt_cases b a) as [Hle|]; [|lia]. apply q10_le in Hle. lra.
  - apply dltb_false in E. rewrite !Hv in E.
    destruct (Z.le_gt_cases b a) as [Hle|Hgt]; [lia|].
    pose proof (q10_pos a). pose proof (q10_le 1 (b - a) ltac:(lia)) as H10.
    change (q10 1) with 10%Q in H10. rewrite (q10_split b a) in E. nra.
Qed.

(** Multiples of a quantum that differ by less than it are equal. *)
Lemma multiple_le e x y : multiple_of e x -> multiple_of e y -> (x < y + q10 e -> x <= y)%Q.
Proof.
  intros [i ->] [j ->] H. apply scaled_le. assert (i < j + 1); [|lia]. apply (scaled_lt _ _ e).
  rewrite inject_Z_plus. change (inject_Z 1) with 1%Q. lra.
Qed.

Lemma multiple_q10 a b : 0 <= a -> multiple_of b (q10 (a + b)).
Proof. intros. exists (10 ^ a). by rewrite q10_inject, q10_add. Qed.

(** ** Results that fit the context *)

(** A number whose coefficient has at most 28 digits: operations that only change
    its sign are exact on it. *)
Definition fits (d : dec) : Prop := (ndigits (dcoef d) <= prec_default)%N.

Lemma quantize_fits m d e r : quantize prec_default m d e = Ok r -> fits r.
Proof.
  unfold quantize, fits. destruct (dis_zero d); [by intros [= <-]|].
  repeat case_match; try done. intros [= <-]. by apply N.ltb_ge.
Qed.

Lemma dabs_fits d : fits d -> dabs d = copy_abs d.
Proof. intros H. by apply dfix_same. Qed.

Lemma dopp_fits d : fits d -> (dval (dopp d) == - dval d)%Q.
Proof.
  intros H. unfold dopp. rewrite dfix_same by by destruct (dis_zero d).
  destruct (dis_zero d) eqn:E; [|apply copy_negate_val].
  apply dis_zero_spec in E. rewrite copy_abs_val, E. reflexivity.
Qed.

Lemma near_sign r x y : (0 <= r)%Q -> (r < 1)%Q -> near r x y ->
  ((0 < y)%Q <-> (0 < x)%Q) /\ ((y < 0)%Q <-> (x < 0)%Q) /\ ((y == 0)%Q <-> (x == 0)%Q).
Proof.
  intros H0 H1 Hn.
  assert ((0 < x)%Q -> (0 < y)%Q) as Hp by (intros; by eapply near_pos; eauto).
  assert ((x < 0)%Q -> (y < 0)%Q) as Hm by (intros; by eapply (near_neg r); eauto).
  assert ((x == 0)%Q -> (y == 0)%Q) as Hz by (intros; by eapply near_zero; eauto).
  destruct (Q_dec x 0) as [[Hx|Hx]|Hx].
  - specialize (Hm Hx). repeat split; intros; lra.
  - specialize (Hp Hx). repeat split; intros; lra.
  - specialize (Hz Hx). repeat split; intros; lra.
Qed.

(** The sign of a sum, difference or product is the sign of the exact one. *)
Lemma dadd_sign a b :
  ((0 < dval (dadd a b))%Q <-> (0 < dval a + dval b)%Q) /\
  ((dval (dadd a b) < 0)%Q <-> (dval a + dval b < 0)%Q) /\
  ((dval (dadd a b) == 0)%Q <-> (dval a + dval b == 0)%Q).
Proof. destruct ulp28_range. apply (near_sign ulp28); [done|done|apply dadd_near]. Qed.

Lemma dsub_sign a b :
  ((0 < dval (dsub a b))%Q <-> (0 < dval a - dval b)%Q) /\
  ((dval (dsub a b) < 0)%Q <-> (dval a - dval b < 0)%Q) /\
  ((dval (dsub a b) == 0)%Q <-> (dval a - dval b == 0)%Q).
Proof. destruct ulp28_range. apply (near_sign ulp28); [done|done|apply dsub_near]. Qed.

Lemma dmul_sign a b :
  ((0 < dval (dmul a b))%Q <-> (0 < dval a * dval b)%Q) /\
  ((dval (dmul a b) < 0)%Q <-> (dval a * dval b < 0)%Q) /\
  ((dval (dmul a b) == 0)%Q <-> (dval a * dval b == 0)%Q).
Proof. destruct ulp28_range. apply (near_sign ulp28); [done|done|apply dmul_near]. Qed.

Lemma round_div_exact m s c b : (0 < b)%N -> round_div m s (c * b) b = c.
Proof.
  intros Hb. unfold round_div, round_up. rewrite N.div_mul, N.Div0.mod_mul by lia.
  assert ((b <? 2 * 0)%N = false) as E1 by (apply N.ltb_ge; lia).
  assert ((2 * 0 =? b)%N = false) as E2 by (apply N.eqb_neq; lia).
  assert ((b <=? 2 * 0)%N = false) as E3 by (apply N.leb_gt; lia).
  destruct m; rewrite ?E1, ?E2, ?E3, ?andb_false_r; done.
Qed.

(** The result of every rounded operation fits. *)
Lemma dfix_fits d : fits (dfix prec_default d).
Proof.
  unfold fits, dfix. destruct (N.leb_spec (ndigits (dcoef d)) prec_default) as [H|H]; [done|].
  set (k := (ndigits (dcoef d) - prec_default)%N).
  set (c := round_div ROUND_HALF_EVEN (dneg d) (dcoef d) (10 ^ k)).
  destruct (N.leb_spec (ndigits c) prec_default) as [Hc|Hc]; [done|]. cbn [dcoef].
  pose proof (fix_coef_le prec_default d ltac:(done) H) as Hle. fold k c in Hle.
  apply ndigits_le; [|done]. apply N.Div0.div_lt_upper_bound. unfold prec_default in *. lia.
Qed.

(** The magnitude of a rounded number does not depend on its sign. *)
Lemma dfix_abs d : dfix prec_default (copy_abs d) = copy_abs (dfix prec_default d).
Proof.
  unfold dfix, copy_abs; cbn [dneg dcoef dexp]. destruct (N.leb_spec (ndigits (dcoef d)) prec_default); [done|].
  unfold round_div, round_up. by destruct (_ <=? _)%N.
Qed.

Lemma multiple_abs e d : multiple_of e (dval d) -> multiple_of e (Qabs (dval d)).
Proof.
  intros [i Hi]. exists (Z.abs i). rewrite Hi, Qabs_Qmult.
  rewrite (Qabs_pos (q10 e)) by apply Qlt_le_weak, q10_pos.
  reflexivity.
Qed.

(** Rounding never crosses a number that fits. *)
Lemma dfix_le_fits d c :
  fits c -> (Qabs (dval d) <= Qabs (dval c) -> Qabs (dval (dfix prec_default d)) <= Qabs (dval c))%Q.
Proof.
  intros Hc Hdc. destruct (N.le_gt_cases (ndigits (dcoef d)) prec_default) as [Hle|Hgt].
  { by rewrite dfix_same. }
  set (n := ndigits (dcoef d)) in *. set (e := dexp d + Z.of_N (n - prec_default)).
  assert (dval (dfix prec_default d) == dval (rescale ROUND_HALF_EVEN d e))%Q as Ev by by apply dfix_value.
  assert (0 < dcoef d)%N as Hcoef.
  { destruct (N.eq_dec (dcoef d) 0%N) as [E|]; [|lia]. unfold n in Hgt. rewrite E in Hgt. by cbn in Hgt. }
  assert (dis_zero d = false) as Hz by (unfold dis_zero; apply N.eqb_neq; lia).
  destruct (adjusted_bounds d Hz) as [Hlow _].
  assert (dis_zero c = false) as Hcz.
  { destruct (dis_zero c) eqn:E; [|done]. apply dis_zero_spec in E. rewrite E in Hdc.
    change (Qabs 0) with 0%Q in Hdc. pose proof (q10_pos (adjusted d)). lra. }
  destruct (adjusted_bounds c Hcz) as [_ Hcup].
  assert (adjusted d <= adjusted c) as Hadj.
  { destruct (Z.le_gt_cases (adjusted d) (adjusted c)) as [|Hlt]; [done|]. exfalso.
    pose proof (q10_le (adjusted c + 1) (adjusted d) ltac:(lia)). lra. }
  assert (e <= dexp c) as Hec.
  { unfold e, adjusted, fits, prec_default in *. fold n in Hadj. lia. }
  apply (multiple_le e).
  - rewrite Ev. apply multiple_abs, rescale_multiple_of.
  - apply multiple_abs. eapply multiple_of_mono; [exact Hec|apply multiple_of_dec].
  - rewrite Ev. pose proof (rescale_half ROUND_HALF_EVEN d e (or_intror eq_refl)) as Hh.
    pose proof (Qabs_triangle_reverse (dval (rescale ROUND_HALF_EVEN d e)) (dval d)) as Ht.
    pose proof (q10_pos e). lra.
Qed.

Lemma dabs_fits_val d : fits d -> (dval (dabs d) == Qabs (dval d))%Q.
Proof. intros H. rewrite dabs_fits by done. apply copy_abs_val. Qed.

Lemma dadd_fits a b : fits (dadd a b).
Proof. apply dfix_fits. Qed.
Lemma dsub_fits a b : fits (dsub a b).
Proof. apply dfix_fits. Qed.
Lemma dmul_fits a b : fits (dmul a b).
Proof. apply dfix_fits. Qed.
Lemma dabs_is_fits a : fits (dabs a).
Proof. apply dfix_fits. Qed.
Lemma dopp_is_fits a : fits (dopp a).
Proof. apply dfix_fits. Qed.
Lemma ddiv_is_fits a b r : ddiv a b = Ok r -> fits r.
Proof. unfold ddiv. destruct (dis_zero b); [done|]. intros [= <-]. apply dfix_fits. Qed.
#[export] Hint Resolve dadd_fits dsub_fits dmul_fits dabs_is_fits dopp_is_fits : copytrader.

Lemma dmul_one d : fits d -> dmul d (dint 1) = d.
Proof.
  intros H. unfold dmul. rewrite dfix_same; unfold dmul_exact; cbn [dneg dcoef dexp dint];
    change (Z.abs_N 1) with 1%N; rewrite N.mul_1_r; [|done].
  destruct d; cbn. by rewrite xorb_false_r, Z.add_0_r.
Qed.

(** The difference of two numbers on the same side of zero, the first no larger, is
    no larger than the second, also after rounding. *)
Lemma dsub_shrinks a b :
  fits b -> (0 <= dval a * dval b)%Q -> (Qabs (dval a) <= Qabs (dval b))%Q ->
  (Qabs (dval (dsub a b)) <= Qabs (dval b))%Q.
Proof.
  intros Hb Hs Hab. apply dfix_le_fits; [done|].
  rewrite dadd_exact_val, copy_negate_val.
  destruct (Qlt_le_dec (dval b) 0) as [H1|H1].
  - rewrite (Qabs_neg (dval b)) in * by lra.
    assert (dval a <= 0)%Q by (destruct (Qlt_le_dec 0 (dval a)); [nra|done]).
    rewrite (Qabs_neg (dval a)) in Hab by done. rewrite Qabs_pos by lra. lra.
  - rewrite (Qabs_pos (dval b)) in * by done.
    destruct (Qlt_le_dec (dval a) 0) as [H2|H2].
    + rewrite (Qabs_neg (dval a)) in Hab by lra. assert (dval b == 0)%Q as E by nra.
      rewrite E in *. lra.
    + rewrite (Qabs_pos (dval a)) in Hab by done. rewrite Qabs_neg by lra. lra.
Qed.

(** * Exact results *)

(** A value that is a multiple of the quantum and needs at most 28 digits of it. *)
Definition on_grid (e : Z) (x : Q) : Prop := multiple_of e x /\ (Qabs x < q10 (28 + e))%Q.

#[export] Instance on_grid_proper e : Proper (Qeq ==> iff) (on_grid e).
Proof. intros x y Hxy. unfold on_grid. by rewrite Hxy. Qed.

Lemma multiple_zero e : multiple_of e 0.
Proof. exists 0. change (inject_Z 0) with 0%Q. ring. Qed.

Lemma multiple_add e x y : multiple_of e x -> multiple_of e y -> multiple_of e (x + y).
Proof. intros [i ->] [j ->]. exists (i + j). rewrite inject_Z_plus. ring. Qed.

Lemma multiple_sub e x y : multiple_of e x -> multiple_of e y -> multiple_of e (x - y).
Proof. intros [i ->] [j ->]. exists (i + - j). rewrite inject_Z_plus, inject_Z_opp. ring. Qed.

Lemma multiple_mul e f x y : multiple_of e x -> multiple_of f y -> multiple_of (e + f) (x * y).
Proof. intros [i ->] [j ->]. exists (i * j). rewrite inject_Z_mult, q10_add. ring. Qed.

(** Rounding to the context keeps what fits on a grid. *)
Lemma dfix_exact e d : on_grid e (dval d) -> (dval (dfix prec_default d) == dval d)%Q.
Proof.
  intros [Hm Hlt]. destruct (N.le_gt_cases (ndigits (dcoef d)) prec_default) as [Hle|Hgt].
  { by rewrite dfix_same. }
  rewrite dfix_value by done.
  assert (dis_zero d = false) as Hz.
  { apply N.eqb_neq. intros E. rewrite E in Hgt. by cbn in Hgt. }
  destruct (adjusted_bounds d Hz) as [Hlow _].
  assert (dexp d + Z.of_N (ndigits (dcoef d) - prec_default) <= e) as He.
  { destruct (Z.le_gt_cases (adjusted d) (27 + e)) as [Ha|Ha].
    - unfold adjusted, prec_default in *. lia.
    - pose proof (q10_le (28 + e) (adjusted d) ltac:(lia)). lra. }
  destruct (multiple_of_mono _ _ _ He Hm) as [k Hk]. by eapply rescale_multiple.
Qed.

Lemma dadd_on_grid e a b : on_grid e (dval a + dval b) -> (dval (dadd a b) == dval a + dval b)%Q.
Proof. intros H. rewrite <- dadd_exact_val in *. by eapply dfix_exact. Qed.

Lemma dsub_on_grid e a b : on_grid e (dval a - dval b) -> (dval (dsub a b) == dval a - dval b)%Q.
Proof.
  intros H. unfold dsub.
  assert (dval a - dval b == dval a + dval (copy_negate b))%Q as E by (rewrite copy_negate_val; ring).
  rewrite E in *. by eapply dadd_on_grid.
Qed.

Lemma dmul_on_grid e a b : on_grid e (dval a * dval b) -> (dval (dmul a b) == dval a * dval b)%Q.
Proof. intros H. rewrite <- dmul_exact_val in *. by eapply dfix_exact. Qed.

Lemma on_grid_nonneg e x y : multiple_of e x -> (0 <= x)%Q -> (x <= y)%Q -> (y < q10 (28 + e))%Q -> on_grid e x.
Proof. intros Hm H0 Hxy Hy. split; [done|]. rewrite Qabs_pos by done. lra. Qed.

(** The smaller of two decimals. *)
Lemma dmin_cases a b : (dmin a b = a /\ dval a <= dval b \/ dmin a b = b /\ dval b < dval a)%Q.
Proof.
  unfold dmin. destruct (dltb b a) eqn:E; [right|left]; split; try done.
  - by apply dltb_spec.
  - by apply dltb_false.
Qed.
Lemma dmax_cases a b : (dmax a b = b /\ dval a < dval b \/ dmax a b = a /\ dval b <= dval a)%Q.
Proof.
  unfold dmax. destruct (dltb a b) eqn:E; [left|right]; split; try done.
  - by apply dltb_spec.
  - by apply dltb_false.
Qed.

(** ** Signs *)

Lemma dval_sign d : (0 <= (if dneg d then -1 else 1) * dval d)%Q.
Proof.
  rewrite (dval_eta d), dval_sign_mag. cbn [dneg].
  assert (0 <= inject_Z (Z.of_N (dcoef d)) * q10 (dexp d))%Q.
  { apply Qmult_le_0_compat; [|apply Qlt_le_weak, q10_pos].
    change 0%Q with (inject_Z 0). rewrite <- Zle_Qle. lia. }
  destruct (dneg d); lra.
Qed.

Lemma dval_nonneg_coef d : (0 <= dval d)%Q -> dneg d = false \/ dis_zero d = true.
Proof.
  intros H. destruct (dneg d) eqn:E; [right|auto]. apply dis_zero_spec.
  rewrite (dval_eta d), dval_sign_mag, E in H |- *.
  assert (0 <= inject_Z (Z.of_N (dcoef d)) * q10 (dexp d))%Q.
  { apply Qmult_le_0_compat; [|apply Qlt_le_weak, q10_pos].
    change 0%Q with (inject_Z 0). rewrite <- Zle_Qle. lia. }
  lra.
Qed.

Lemma copy_sign_val m s : (0 <= dval m)%Q ->
  (dval (copy_sign m s) == (if dneg s then -1 else 1) * dval m)%Q.
Proof.
  intros Hm. destruct (dval_nonneg_coef m Hm) as [E|E].
  - unfold copy_sign. rewrite dval_sign_mag. rewrite (dval_eta m), dval_sign_mag, E. ring.
  - pose proof E as Ez. apply dis_zero_spec in Ez. unfold dis_zero in E. apply N.eqb_eq in E.
    unfold copy_sign. rewrite dval_sign_mag, E, Ez. change (inject_Z (Z.of_N 0)) with 0%Q. ring.
Qed.

Lemma dneg_spec d : (dneg d = true -> dval d <= 0)%Q /\ (dneg d = false -> 0 <= dval d)%Q.
Proof. pose proof (dval_sign d) as H. split; intros E; rewrite E in H; lra. Qed.
