(* ===== verification/PyText.v ===== *)
(** Python text: [str] methods, number parsing and printing, and JSON values.

    Strings are sequences of ASCII characters.  [JFloat] carries the text
    [str(value)] of a float: the program reads floats only through [str]. *)

From S2P Require Import Prelude PyDecimal.
From Stdlib Require Import Ascii.

Open Scope Z_scope.

Abbreviation chars := (list ascii).

Definition to_chars (s : string) : chars := String.list_ascii_of_string s.
Definition of_chars (l : chars) : string := String.string_of_list_ascii l.

Definition code (c : ascii) : N := N_of_ascii c.

(** * Character classes *)

Definition in_range (lo hi : N) (c : ascii) : bool := ((lo <=? code c) && (code c <=? hi))%N.
Definition is_digit (c : ascii) : bool := in_range 48 57 c.
Definition is_lower (c : ascii) : bool := in_range 97 122 c.
Definition is_upper (c : ascii) : bool := in_range 65 90 c.
Definition is_alnum (c : ascii) : bool := is_digit c || is_lower c || is_upper c.
Definition is_space (c : ascii) : bool :=
  (code c =? 32)%N || in_range 9 13 c || in_range 28 31 c.

Definition char_lower (c : ascii) : ascii :=
  if is_upper c then ascii_of_N (code c + 32) else c.
Definition char_upper (c : ascii) : ascii :=
  if is_lower c then ascii_of_N (code c - 32) else c.

(** * String methods *)

Fixpoint lstrip (l : chars) : chars :=
  match l with
  | [] => []
  | c :: t => if is_space c then lstrip t else l
  end.

Definition strip_chars (l : chars) : chars := reverse (lstrip (reverse (lstrip l))).

Definition py_strip (s : string) : string := of_chars (strip_chars (to_chars s)).
Definition py_lower (s : string) : string := of_chars (char_lower <$> to_chars s).
Definition py_upper (s : string) : string := of_chars (char_upper <$> to_chars s).

(** [s.islower()]: no upper-case letter and at least one lower-case letter. *)
Definition py_islower (s : string) : bool :=
  existsb is_lower (to_chars s) && negb (existsb is_upper (to_chars s)).

Definition py_count (c : ascii) (s : string) : nat :=
  List.length (filter (fun x => x = c) (to_chars s)).

(** [s.split(c, 1)] for a string that contains [c]. *)
Fixpoint split_at (c : ascii) (l : chars) : chars * chars :=
  match l with
  | [] => ([], [])
  | x :: t => if decide (x = c) then ([], t) else let '(a, b) := split_at c t in (x :: a, b)
  end.

Definition starts_with (p s : string) : bool := String.prefix p s.
Definition ends_with (p s : string) : bool :=
  String.prefix (of_chars (reverse (to_chars p))) (of_chars (reverse (to_chars s))).

(** [needle in haystack] *)
Fixpoint chars_contain (needle hay : chars) : bool :=
  bool_decide (take (List.length needle) hay = needle) || match hay with [] => false | _ :: t => chars_contain needle t end.
Definition contains (needle hay : string) : bool := chars_contain (to_chars needle) (to_chars hay).

Definition is_empty (s : string) : bool := match s with "" => true | _ => false end.

(** * Printing numbers *)

Definition digit_char (d : N) : ascii := ascii_of_N (48 + d).

Fixpoint digits_fuel (fuel : nat) (n : N) (acc : chars) : chars :=
  match fuel with
  | O => acc
  | S f =>
      let acc' := digit_char (n mod 10) :: acc in
      if (n <? 10)%N then acc' else digits_fuel f (n / 10) acc'
  end.

(** [str(n)] for a natural number. *)
Definition digits_of (n : N) : chars := digits_fuel (S (N.size_nat n)) n [].

Definition str_of_Z (z : Z) : string :=
  of_chars ((if z <? 0 then ["-"%char] else []) ++ digits_of (Z.abs_N z)).

Definition zeros (n : nat) : chars := replicate n "0"%char.

(** [format(d, "f")] *)
Definition dec_to_fixed (d : dec) : string :=
  let sign := if dneg d then ["-"%char] else [] in
  if 0 <? dexp d
  then of_chars (sign ++ digits_of (dcoef d * 10 ^ Z.to_N (dexp d)))
  else
    let f := Z.to_nat (- dexp d) in
    let s := digits_of (dcoef d) in
    let s' := zeros (S f - List.length s) ++ s in
    let i := take (List.length s' - f) s' in
    let fr := drop (List.length s' - f) s' in
    of_chars (sign ++ i ++ (match fr with [] => [] | _ => "."%char :: fr end)).

(** [str(d)] *)
Definition dec_str (d : dec) : string :=
  let sign := if dneg d then ["-"%char] else [] in
  let s := digits_of (dcoef d) in
  let len := Z.of_nat (List.length s) in
  let left := dexp d + len in
  let dot := if (dexp d <=? 0) && (-6 <? left) then left else 1 in
  let body :=
    if dot <=? 0 then "0"%char :: "."%char :: zeros (Z.to_nat (- dot)) ++ s
    else if len <=? dot then s ++ zeros (Z.to_nat (dot - len))
    else take (Z.to_nat dot) s ++ "."%char :: drop (Z.to_nat dot) s in
  let ex := left - dot in
  let tail := if ex =? 0 then []
              else "E"%char :: (if ex <? 0 then "-"%char else "+"%char) :: digits_of (Z.abs_N ex) in
  of_chars (sign ++ body ++ tail).

(** * Parsing numbers *)

(** The longest prefix of digits: its value (continuing [acc]), its length and the rest. *)
Fixpoint read_digits (l : chars) (acc : N) : N * nat * chars :=
  match l with
  | c :: t =>
      if is_digit c
      then let '(v, n, r) := read_digits t (acc * 10 + (code c - 48)) in (v, S n, r)
      else (acc, O, l)
  | [] => (acc, O, [])
  end.

Definition read_sign (l : chars) : bool * chars :=
  match l with
  | c :: t => if decide (c = "-"%char) then (true, t)
              else if decide (c = "+"%char) then (false, t) else (false, l)
  | [] => (false, [])
  end.

(** [int(s)]; a single underscore may separate digits. *)
Fixpoint read_int (l : chars) (acc : N) (seen : bool) : option N :=
  match l with
  | [] => if seen then Some acc else None
  | c :: t =>
      if is_digit c then read_int t (acc * 10 + (code c - 48)) true
      else if decide (c = "_"%char) then
        match t with
        | c' :: _ => if seen && is_digit c' then read_int t acc false else None
        | [] => None
        end
      else None
  end.

Definition int_of_string (s : string) : option Z :=
  let '(neg, l) := read_sign (strip_chars (to_chars s)) in
  n ← read_int l 0 false; Some (if neg then - Z.of_N n else Z.of_N n).

Definition read_exponent (l : chars) : option Z :=
  match l with
  | [] => Some 0
  | c :: t =>
      if decide (char_lower c = "e"%char) then
        let '(neg, t') := read_sign t in
        let '(v, n, r) := read_digits t' 0 in
        match n, r with
        | S _, [] => Some (if neg then - Z.of_N v else Z.of_N v)
        | _, _ => None
        end
      else None
  end.

Definition read_special (l : chars) : option pydec :=
  let s := of_chars (char_lower <$> l) in
  if decide (s = "inf" \/ s = "infinity") then Some (Inf false)
  else
    let body := if starts_with "s" s then List.tl l else l in
    if starts_with "nan" (of_chars (char_lower <$> body)) then
      match read_digits (drop 3 body) 0 with (_, _, []) => Some NaN | _ => None end
    else None.

(** [Decimal(s)]: exact; [None] where the constructor raises InvalidOperation. *)
Definition decimal_of_string (s : string) : option pydec :=
  let l := filter (fun c => c <> "_"%char) (strip_chars (to_chars s)) in
  let '(neg, l1) := read_sign l in
  let '(iv, il, r1) := read_digits l1 0 in
  let '(v, fl, r2) :=
    match r1 with
    | c :: t => if decide (c = "."%char) then read_digits t iv else (iv, O, r1)
    | [] => (iv, O, [])
    end in
  match (il + fl)%nat with
  | O => match read_special l1 with
         | Some (Inf _) => Some (Inf neg)
         | o => o
         end
  | S _ => e ← read_exponent r2; Some (Fin (Dec neg v (e - Z.of_nat fl)))
  end.

(** * JSON *)

#[warnings="-register-all"]
Inductive json :=
  | JNull
  | JBool (b : bool)
  | JInt (z : Z)
  | JFloat (repr : string)
  | JStr (s : string)
  | JList (l : list json)
  | JObj (o : list (string * json)).

Definition json_quote : ascii := ascii_of_N 34.
Definition apostrophe : ascii := ascii_of_N 39.

Definition hex_digit (n : N) : ascii := if (n <? 10)%N then digit_char n else ascii_of_N (87 + n).

Fixpoint sep_by (sep : chars) (l : list chars) : chars :=
  match l with
  | [] => []
  | [x] => x
  | x :: t => x ++ sep ++ sep_by sep t
  end.

Definition repr_char (q c : ascii) : chars :=
  if bool_decide (c = q) || (code c =? 92)%N then ["\"%char; c]
  else if (code c =? 10)%N then ["\"%char; "n"%char]
  else if (code c =? 13)%N then ["\"%char; "r"%char]
  else if (code c =? 9)%N then ["\"%char; "t"%char]
  else if (code c <? 32)%N || (code c =? 127)%N
  then ["\"%char; "x"%char; hex_digit (code c / 16); hex_digit (code c mod 16)]
  else [c].

(** [repr(s)]: apostrophes, unless the text holds one and no quotation mark. *)
Definition str_repr (s : string) : chars :=
  let l := to_chars s in
  let q := if bool_decide (apostrophe ∈ l) && negb (bool_decide (json_quote ∈ l)) then json_quote else apostrophe in
  q :: concat (repr_char q <$> l) ++ [q].

(** [repr(value)] *)
Fixpoint json_repr (j : json) : chars :=
  match j with
  | JNull => to_chars "None"
  | JBool true => to_chars "True"
  | JBool false => to_chars "False"
  | JInt z => to_chars (str_of_Z z)
  | JFloat r => to_chars r
  | JStr s => str_repr s
  | JList l => "["%char :: sep_by [","%char; " "%char] (json_repr <$> l) ++ ["]"%char]
  | JObj o =>
      "{"%char :: sep_by [","%char; " "%char]
        ((fun kv => str_repr kv.1 ++ [":"%char; " "%char] ++ json_repr kv.2) <$> o) ++ ["}"%char]
  end.

(** [str(value)] *)
Definition py_str (j : json) : string :=
  match j with
  | JStr s => s
  | _ => of_chars (json_repr j)
  end.

(** Truth value; a float is false when it is zero. *)
Definition json_truthy (j : json) : bool :=
  match j with
  | JNull | JBool false | JStr "" | JList [] | JObj [] => false
  | JInt z => negb (z =? 0)
  | JFloat r => match decimal_of_string r with
                | Some (Fin d) => negb (dis_zero d)
                | _ => true
                end
  | _ => true
  end.

Fixpoint obj_get (k : string) (o : list (string * json)) : option json :=
  match o with
  | [] => None
  | (k', v) :: t => if decide (k = k') then Some v else obj_get k t
  end.

(** [o.get(k)] *)
Definition obj_field (k : string) (o : list (string * json)) : json :=
  default JNull (obj_get k o).

(** [a or b] *)
Definition json_or (a b : json) : json := if json_truthy a then a else b.

Definition as_obj (j : json) : option (list (string * json)) :=
  match j with JObj o => Some o | _ => None end.

Definition as_list (j : json) : option (list json) :=
  match j with JList l => Some l | _ => None end.

(** * [json.dumps(value, separators=(",", ":"))] *)

Definition escape_char (c : ascii) : chars :=
  if (code c =? 34)%N then ["\"%char; json_quote]
  else if (code c =? 92)%N then ["\"%char; "\"%char]
  else if (code c =? 10)%N then ["\"%char; "n"%char]
  else if (code c =? 13)%N then ["\"%char; "r"%char]
  else if (code c =? 9)%N then ["\"%char; "t"%char]
  else if (code c =? 8)%N then ["\"%char; "b"%char]
  else if (code c =? 12)%N then ["\"%char; "f"%char]
  else if (code c <? 32)%N
  then "\"%char :: "u"%char :: "0"%char :: "0"%char :: hex_digit (code c / 16) :: [hex_digit (code c mod 16)]
  else [c].

Definition json_string (s : string) : chars :=
  json_quote :: concat (escape_char <$> to_chars s) ++ [json_quote].

(** With [sort_keys], the fields of an object are in the order of their names. *)
Fixpoint json_text (sort_keys : bool) (j : json) : chars :=
  match j with
  | JNull => to_chars "null"
  | JBool b => to_chars (if b then "true" else "false")
  | JInt z => to_chars (str_of_Z z)
  | JFloat r => to_chars r
  | JStr s => json_string s
  | JList l => "["%char :: sep_by [","%char] (json_text sort_keys <$> l) ++ ["]"%char]
  | JObj o =>
      let fields := (fun kv => (kv.1, json_string kv.1 ++ ":"%char :: json_text sort_keys kv.2)) <$> o in
      let ordered := if sort_keys then py_sorted (fun a b => str_leb a.1 b.1) fields else fields in
      "{"%char :: sep_by [","%char] ordered.*2 ++ ["}"%char]
  end.

(** [json.dumps(value, sort_keys=True, separators=(",", ":"))] *)
Definition json_dumps (j : json) : chars := json_text true j.

(** What [json.loads] makes of a text that [json.dumps] wrote: the fields of every
    object in the order of their names. *)
Fixpoint sort_keys (j : json) : json :=
  match j with
  | JList l => JList (sort_keys <$> l)
  | JObj o => JObj (py_sorted (fun a b => str_leb a.1 b.1) ((fun kv => (kv.1, sort_keys kv.2)) <$> o))
  | j => j
  end.

(** [value == n] for an integer [n]: booleans and floats compare by value. *)
Definition json_eq_int (j : json) (n : Z) : bool :=
  match j with
  | JInt z => z =? n
  | JBool b => Z.b2z b =? n
  | JFloat r => match decimal_of_string r with Some (Fin d) => deqb d (dint n) | _ => false end
  | _ => false
  end.

(** [str(value or "")] *)
Definition str_or_empty (j : json) : string := py_str (json_or j (JStr "")).

(** [str(d)] of a number that may not be finite. *)
Definition pydec_str (d : pydec) : string :=
  match d with
  | Fin d => dec_str d
  | Inf false => "Infinity"
  | Inf true => "-Infinity"
  | NaN => "NaN"
  end.

(** * Equality of values *)

Definition json_number (j : json) : option pydec :=
  match j with
  | JBool b => Some (Fin (dint (Z.b2z b)))
  | JInt z => Some (Fin (dint z))
  | JFloat r => decimal_of_string r
  | _ => None
  end.

(** [a == b]: numbers by value, objects without regard to order (keys are distinct). *)
Fixpoint json_eqb (a b : json) : bool :=
  match a, b with
  | JNull, JNull => true
  | JStr s, JStr t => bool_decide (s = t)
  | JList l, JList m =>
      (fix go (l m : list json) : bool :=
         match l, m with
         | [], [] => true
         | x :: l', y :: m' => json_eqb x y && go l' m'
         | _, _ => false
         end) l m
  | JObj o, JObj p =>
      Nat.eqb (List.length o) (List.length p) &&
      (fix go (o : list (string * json)) : bool :=
         match o with
         | [] => true
         | (k, v) :: o' => match obj_get k p with Some w => json_eqb v w | None => false end && go o'
         end) o
  | (JBool _ | JInt _ | JFloat _), (JBool _ | JInt _ | JFloat _) =>
      match json_number a, json_number b with
      | Some (Fin x), Some (Fin y) => deqb x y
      | Some (Inf m), Some (Inf n) => Bool.eqb m n
      | _, _ => false
      end
  | _, _ => false
  end.

Definition json_is_str (s : string) (j : json) : bool :=
  match j with JStr t => bool_decide (t = s) | _ => false end.

(** * Words *)

(** [s.split()]: the maximal runs of characters that are not white space. *)
Fixpoint words_of (l word : chars) : list chars :=
  match l with
  | [] => match word with [] => [] | _ => [reverse word] end
  | c :: t =>
      if is_space c
      then match word with [] => words_of t [] | _ => reverse word :: words_of t [] end
      else words_of t (c :: word)
  end.

(** [" ".join(s.split())[:n]] *)
Definition squeeze (n : nat) (s : string) : string :=
  of_chars (take n (sep_by [" "%char] (words_of (to_chars s) []))).

(** * [int(value)] *)

(** The integer part of a float printed as [repr]: above 2^53 the float is the
    multiple of a power of two nearest to the printed number. *)
Definition float_int (n : N) : N :=
  if (n <? 2 ^ 53)%N then n
  else let unit := (2 ^ (N.log2 n - 52))%N in (round_div ROUND_HALF_EVEN false n unit * unit)%N.

Definition json_int (j : json) : res Z :=
  match j with
  | JBool b => Ok (Z.b2z b)
  | JInt z => Ok z
  | JFloat r =>
      match decimal_of_string r with
      | Some (Fin d) =>
          let n := if 0 <=? dexp d then (dcoef d * 10 ^ Z.to_N (dexp d))%N else (dcoef d / 10 ^ Z.to_N (- dexp d))%N in
          let i := Z.of_N (float_int n) in
          Ok (if dneg d then - i else i)
      | Some (Inf _) => Raise (ArithmeticError "OverflowError")
      | _ => Raise (ValueError "cannot convert float NaN to integer")
      end
  | JStr s =>
      match int_of_string s with
      | Some z => Ok z
      | None => Raise (ValueError "invalid literal for int() with base 10")
      end
  | JNull | JList _ | JObj _ => Raise (TypeError "int() argument must be a string or a real number")
  end.
