(* ===== verification/TextFacts.v ===== *)
(** Facts about Python text: stripping and lowering are idempotent, a decimal printed with
    [format(d, "f")] or [str(d)] parses back to the same number, and an object that was
    written with sorted keys has the same fields. *)

From S2P Require Import Prelude PyDecimal DecimalFacts PyText.
From Stdlib Require Import Ascii QArith.

Open Scope Z_scope.

(** * Characters *)

Lemma to_of_chars l : to_chars (of_chars l) = l.
Proof. apply String.list_ascii_of_string_of_list_ascii. Qed.

Lemma of_to_chars s : of_chars (to_chars s) = s.
Proof. apply String.string_of_list_ascii_of_string. Qed.

Lemma of_chars_inj a b : of_chars a = of_chars b -> a = b.
Proof. intros H. by rewrite <- (to_of_chars a), H, to_of_chars. Qed.

(** A property of all characters, by evaluation. *)
Lemma all_ascii (P : ascii -> bool) :
  forallb P (map (fun n => ascii_of_nat n) (seq 0 256)) = true -> forall c, P c = true.
Proof.
  intros H c. rewrite forallb_forall in H. apply H. apply in_map_iff.
  exists (nat_of_ascii c). split; [apply ascii_nat_embedding|].
  apply in_seq. pose proof (nat_ascii_bounded c). lia.
Qed.

Lemma digit_not_space c : is_digit c = true -> is_space c = false.
Proof.
  intros H. pose proof (all_ascii (fun c => negb (is_digit c && is_space c)) eq_refl c) as Hc.
  cbn in Hc. rewrite H in Hc. by destruct (is_space c).
Qed.

Lemma char_lower_idem c : char_lower (char_lower c) = char_lower c.
Proof.
  pose proof (all_ascii (fun c => bool_decide (char_lower (char_lower c) = char_lower c)) eq_refl c) as H.
  by apply bool_decide_eq_true in H.
Qed.

Lemma char_lower_space c : is_space (char_lower c) = is_space c.
Proof.
  pose proof (all_ascii (fun c => bool_decide (is_space (char_lower c) = is_space c)) eq_refl c) as H.
  by apply bool_decide_eq_true in H.
Qed.

(** * Stripping and lowering *)

Lemma lstrip_id l : match l with c :: _ => is_space c = false | [] => True end -> lstrip l = l.
Proof. destruct l as [|c l]; cbn; [done|]. by intros ->. Qed.

Lemma lstrip_head l : match lstrip l with c :: _ => is_space c = false | [] => True end.
Proof. induction l as [|c l IH]; cbn; [done|]. destruct (is_space c) eqn:E; cbn; [done|]. by rewrite E. Qed.

Lemma lstrip_snoc_space l c :
  is_space c = false -> lstrip (l ++ [c]) = lstrip l ++ [c].
Proof.
  intros Hc. induction l as [|x l IH]; cbn; [by rewrite Hc|].
  by destruct (is_space x).
Qed.

(** What [strip] returns starts and ends with a visible character. *)
Lemma strip_chars_ends l :
  match strip_chars l with c :: _ => is_space c = false | [] => True end /\
  match reverse (strip_chars l) with c :: _ => is_space c = false | [] => True end.
Proof.
  unfold strip_chars. rewrite reverse_involutive. split; [|apply lstrip_head].
  pose proof (lstrip_head l) as Hl. destruct (lstrip l) as [|c t] eqn:E; [done|].
  rewrite reverse_cons, lstrip_snoc_space by done. by rewrite reverse_snoc.
Qed.

Lemma strip_chars_id l :
  match l with c :: _ => is_space c = false | [] => True end ->
  match reverse l with c :: _ => is_space c = false | [] => True end ->
  strip_chars l = l.
Proof.
  intros H1 H2. unfold strip_chars. rewrite (lstrip_id l H1), (lstrip_id (reverse l) H2).
  apply reverse_involutive.
Qed.

Lemma strip_chars_idem l : strip_chars (strip_chars l) = strip_chars l.
Proof. destruct (strip_chars_ends l). by apply strip_chars_id. Qed.

Lemma py_strip_idem s : py_strip (py_strip s) = py_strip s.
Proof. unfold py_strip. by rewrite to_of_chars, strip_chars_idem. Qed.

Lemma py_lower_idem s : py_lower (py_lower s) = py_lower s.
Proof.
  unfold py_lower. rewrite to_of_chars. f_equal.
  rewrite <- list_fmap_compose. apply list_fmap_ext. intros. apply char_lower_idem.
Qed.

Lemma py_strip_lower s : py_strip (py_lower s) = py_lower (py_strip s).
Proof.
  unfold py_strip, py_lower. rewrite !to_of_chars. f_equal. unfold strip_chars.
  assert (forall l, lstrip (char_lower <$> l) = char_lower <$> lstrip l) as Hl.
  { induction l as [|c l IH]; cbn; [done|]. rewrite char_lower_space. by destruct (is_space c). }
  by rewrite Hl, <- fmap_reverse, Hl, fmap_reverse.
Qed.

Lemma no_space_strip l : Forall (fun c => is_space c = false) l -> strip_chars l = l.
Proof.
  intros H. apply strip_chars_id.
  - destruct H; done.
  - apply Forall_reverse in H. destruct H; done.
Qed.

(** * Digits *)

Lemma digit_char_value n : (n < 10)%N -> is_digit (digit_char n) = true /\ (code (digit_char n) - 48 = n)%N.
Proof.
  intros H.
  assert (Forall (fun k => is_digit (digit_char (N.of_nat k)) = true /\
                           (code (digit_char (N.of_nat k)) - 48 = N.of_nat k)%N) (seq 0 10)) as Hall
    by by repeat constructor.
  rewrite list.Forall_forall in Hall. specialize (Hall (N.to_nat n)).
  rewrite N2Nat.id in Hall. apply Hall, elem_of_seq. lia.
Qed.

(** [digits_fuel] accumulates: what it prints before [acc] reads back as [n]. *)
Lemma digits_fuel_spec f n acc :
  (n < 10 ^ N.of_nat f)%N -> (0 < f)%nat ->
  exists l, digits_fuel f n acc = l ++ acc /\ Forall (fun c => is_digit c = true) l /\ l <> [] /\
    forall r a, match r with c :: _ => is_digit c = false | [] => True end ->
      read_digits (l ++ r) a = ((a * 10 ^ N.of_nat (List.length l) + n)%N, List.length l, r).
Proof.
  revert n acc. induction f as [|f IH]; intros n acc Hn Hf; [lia|]. cbn [digits_fuel].
  assert (n mod 10 < 10)%N as Hm by by apply N.mod_lt.
  destruct (digit_char_value _ Hm) as [Hd Hv].
  destruct (N.ltb_spec n 10) as [Hlt|Hge].
  - exists [digit_char (n mod 10)]. repeat split; [by repeat constructor|done|].
    intros r a Hr. cbn [app read_digits]. rewrite Hd, Hv, N.mod_small by done.
    destruct r as [|c r]; cbn [read_digits]; [|rewrite Hr]; by rewrite N.pow_1_r.
  - destruct f as [|f]; [rewrite N.pow_1_r in Hn; lia|].
    destruct (IH (n / 10)%N (digit_char (n mod 10) :: acc)) as (l & El & Hl & Hne & Hread).
    + apply N.Div0.div_lt_upper_bound.
      by rewrite <- N.pow_succ_r', <- Nat2N.inj_succ.
    + lia.
    + exists (l ++ [digit_char (n mod 10)]). split; [by rewrite El, <- app_assoc|].
      split; [apply Forall_app; by repeat constructor|].
      split; [by destruct l|].
      intros r a Hr. rewrite <- app_assoc. cbn [app].
      (* read the prefix against a rest that starts with a digit *)
      assert (forall l a, Forall (fun c => is_digit c = true) l ->
        read_digits (l ++ digit_char (n mod 10) :: r) a =
        (let '(v, k, _) := read_digits l a in ((v * 10 + n mod 10)%N, S k, r))) as Hsnoc.
      { clear - Hd Hv Hr. intros l. induction l as [|c l IHl]; intros a Hl.
        - cbn [app read_digits]. rewrite Hd, Hv. destruct r as [|c r]; cbn [read_digits]; [done|].
          by rewrite Hr.
        - inversion Hl as [|? ? Hc Hl']; subst. cbn [app read_digits]. rewrite Hc.
          rewrite IHl by done. by destruct (read_digits l _) as [[v k] r']. }
      rewrite Hsnoc by done. specialize (Hread [] a I). rewrite app_nil_r in Hread.
      rewrite Hread, length_app. cbn [List.length].
      pose proof (N.div_mod n 10 ltac:(done)) as Hdm.
      replace (N.of_nat (List.length l + 1)) with (N.succ (N.of_nat (List.length l))) by lia.
      rewrite N.pow_succ_r'. rewrite Nat.add_1_r. do 2 f_equal. lia.
Qed.

Lemma pow_10_size n : (n < 10 ^ N.of_nat (S (N.size_nat n)))%N.
Proof.
  eapply N.lt_le_trans; [apply size_nat_bound|].
  transitivity (10 ^ N.of_nat (N.size_nat n))%N; [apply N.pow_le_mono_l; lia|].
  apply N.pow_le_mono_r; lia.
Qed.

Lemma digits_of_spec n :
  Forall (fun c => is_digit c = true) (digits_of n) /\ digits_of n <> [] /\
  forall r a, match r with c :: _ => is_digit c = false | [] => True end ->
    read_digits (digits_of n ++ r) a =
    ((a * 10 ^ N.of_nat (List.length (digits_of n)) + n)%N, List.length (digits_of n), r).
Proof.
  unfold digits_of. destruct (digits_fuel_spec (S (N.size_nat n)) n []) as (l & El & ? & ? & ?);
    [apply pow_10_size|lia|]. rewrite El, app_nil_r. auto.
Qed.

(** Reading a run of digits in two parts. *)
Lemma read_digits_app l1 l2 a :
  Forall (fun c => is_digit c = true) l1 ->
  read_digits (l1 ++ l2) a =
  (let '(v, n, _) := read_digits l1 a in let '(w, m, r) := read_digits l2 v in (w, (n + m)%nat, r)).
Proof.
  revert a. induction l1 as [|c l1 IH]; intros a H; cbn [app read_digits].
  - by destruct (read_digits l2 a) as [[? ?] ?].
  - inversion H; subst. rewrite H2, IH by done.
    destruct (read_digits l1 _) as [[v n] r]. by destruct (read_digits l2 v) as [[? ?] ?].
Qed.

Lemma read_digits_all l a :
  Forall (fun c => is_digit c = true) l ->
  exists v, read_digits l a = (v, List.length l, []).
Proof.
  revert a. induction l as [|c l IH]; intros a H; cbn [read_digits]; [eauto|].
  inversion H; subst. rewrite H2. edestruct IH as [v ->]; [done|]. eauto.
Qed.

Lemma read_zeros n a l :
  read_digits (zeros n ++ l) a =
  (let '(v, m, r) := read_digits l (a * 10 ^ N.of_nat n) in (v, (n + m)%nat, r)).
Proof.
  revert a. induction n as [|n IH]; intros a.
  - cbn. rewrite N.mul_1_r. by destruct (read_digits l a) as [[? ?] ?].
  - cbn [zeros replicate app read_digits]. change (is_digit "0") with true. cbn [andb].
    change (code "0" - 48)%N with 0%N. fold (zeros n). rewrite IH, Nat2N.inj_succ, N.pow_succ_r'.
    replace ((a * 10 + 0) * 10 ^ N.of_nat n)%N with (a * (10 * 10 ^ N.of_nat n))%N by lia.
    by destruct (read_digits l _) as [[? ?] ?].
Qed.

(** * Round trip of decimals through fixed-point text *)

(** The number that [format(d, "f")] denotes: [d] itself, except that a positive
    exponent is expanded into zeros. *)
Definition fixed_form (d : dec) : dec :=
  if 0 <? dexp d then Dec (dneg d) (dcoef d * 10 ^ Z.to_N (dexp d)) 0 else d.

Lemma fixed_form_val d : (dval (fixed_form d) == dval d)%Q.
Proof.
  unfold fixed_form. destruct (Z.ltb_spec 0 (dexp d)); [|done].
  rewrite <- dval_shift by lia. by destruct d.
Qed.

(** A text of digits, possibly with one dot, after an optional sign. *)
Lemma plain_text l :
  Forall (fun c => is_digit c = true \/ c = "-"%char \/ c = "."%char) l ->
  filter (fun c => c <> "_"%char) (strip_chars l) = l.
Proof.
  intros H. rewrite no_space_strip.
  - induction H as [|c l Hc Hl IH]; [done|]. rewrite filter_cons, decide_True; [by f_equal|].
    intros ->. destruct Hc as [Hc|[Hc|Hc]]; discriminate.
  - eapply list.Forall_impl; [exact H|]. intros c [Hc| [->| ->]]; [by apply digit_not_space|done|done].
Qed.

Lemma read_sign_digits (s : bool) l :
  match l with c :: _ => is_digit c = true | [] => False end ->
  read_sign ((if s then ["-"%char] else []) ++ l) = (s, l).
Proof.
  destruct s; cbn; [done|]. destruct l as [|c l]; [done|]. intros Hc. cbn.
  rewrite !decide_False; [done| |]; intros ->; discriminate.
Qed.

Lemma decimal_of_digits (s : bool) (ip fp : chars) v :
  Forall (fun c => is_digit c = true) ip -> ip <> [] ->
  Forall (fun c => is_digit c = true) fp ->
  (read_digits (ip ++ fp) 0).1.1 = v ->
  decimal_of_string (of_chars ((if s then ["-"%char] else []) ++ ip ++
    match fp with [] => [] | _ => "."%char :: fp end)) =
  Some (Fin (Dec s v (- Z.of_nat (List.length fp)))).
Proof.
  intros Hip Hne Hfp Hv. unfold decimal_of_string. rewrite to_of_chars, plain_text.
  2:{ repeat apply Forall_app_2.
      - destruct s; [apply Forall_cons_2; [auto|]|]; apply Forall_nil_2.
      - eapply list.Forall_impl; [exact Hip|]. auto.
      - destruct fp; [constructor|]. constructor; [auto|]. eapply list.Forall_impl; [exact Hfp|]. auto. }
  rewrite read_sign_digits by (by destruct Hip).
  rewrite read_digits_app in Hv by done. rewrite read_digits_app by done.
  destruct (read_digits_all ip 0 Hip) as [vi Ei]. rewrite Ei in *.
  destruct (read_digits_all fp vi Hfp) as [vf Ef]. rewrite Ef in Hv. cbn [fst] in Hv. subst v.
  assert ((List.length ip + List.length fp)%nat <> O) as Hlen by (destruct ip; [done|cbn; lia]).
  destruct fp as [|c fp]; cbn [read_digits].
  - cbn in Ef. injection Ef as <-. cbn [List.length] in *. rewrite Nat.add_0_r in *.
    destruct (List.length ip); [lia|]. cbn. done.
  - change (is_digit ".") with false. cbn iota. rewrite Nat.add_0_r. rewrite decide_True by done.
    rewrite Ef. destruct (List.length ip + List.length (c :: fp))%nat eqn:E; [lia|]. cbn [read_exponent mbind option_bind].
    rewrite Z.sub_0_l. done.
Qed.

Theorem decimal_fixed_roundtrip d :
  decimal_of_string (dec_to_fixed d) = Some (Fin (fixed_form d)).
Proof.
  unfold dec_to_fixed, fixed_form. destruct (Z.ltb_spec 0 (dexp d)) as [He|He].
  - destruct (digits_of_spec (dcoef d * 10 ^ Z.to_N (dexp d))) as (Hd & Hne & Hr).
    pose proof (decimal_of_digits (dneg d) _ [] _ Hd Hne (Forall_nil_2 _) eq_refl) as H.
    specialize (Hr [] 0%N I). cbn [List.length] in H. rewrite app_nil_r in H, Hr.
    rewrite H, Hr. cbn [fst]. by rewrite N.mul_0_l, N.add_0_l.
  - destruct (digits_of_spec (dcoef d)) as (Hd & Hne & Hr).
    set (f := Z.to_nat (- dexp d)). set (s := digits_of (dcoef d)) in *.
    set (s' := zeros (S f - List.length s) ++ s).
    assert (Forall (fun c => is_digit c = true) s') as Hs'.
    { apply Forall_app_2; [by apply Forall_replicate|done]. }
    assert (S f <= List.length s')%nat as Hlen.
    { unfold s', zeros. rewrite length_app, length_replicate. lia. }
    erewrite (decimal_of_digits (dneg d) (take (List.length s' - f) s')
                (drop (List.length s' - f) s') (dcoef d)).
    + rewrite length_drop.
      replace (- Z.of_nat _) with (dexp d); [by destruct d|]. unfold f in *. lia.
    + by apply Forall_take.
    + intros E%(f_equal List.length). rewrite length_take in E. cbn [List.length] in E. lia.
    + by apply Forall_drop.
    + rewrite take_drop. unfold s'. rewrite read_zeros, N.mul_0_l.
      specialize (Hr [] 0%N I). rewrite app_nil_r in Hr. rewrite Hr. cbn. lia.
Qed.

(** * Round trip of decimals through [str] *)

(** An exponent as [str] prints it. *)
Definition exponent_text (ex : Z) : chars :=
  if ex =? 0 then [] else "E"%char :: (if ex <? 0 then "-"%char else "+"%char) :: digits_of (Z.abs_N ex).

Lemma exponent_head ex : match exponent_text ex with c :: _ => c = "E"%char | [] => True end.
Proof. unfold exponent_text. by destruct (ex =? 0). Qed.

Lemma read_exponent_text ex : read_exponent (exponent_text ex) = Some ex.
Proof.
  unfold exponent_text. destruct (Z.eqb_spec ex 0) as [->|Hne]; [done|].
  destruct (digits_of_spec (Z.abs_N ex)) as (Hd & Hn & Hr). specialize (Hr [] 0%N I). rewrite app_nil_r in Hr.
  cbn [read_exponent]. rewrite decide_True by done.
  assert (read_sign ((if ex <? 0 then "-"%char else "+"%char) :: digits_of (Z.abs_N ex)) = (ex <? 0, digits_of (Z.abs_N ex))) as ->
    by (by destruct (ex <? 0)).
  destruct (read_digits _ _) as [[v n] r]. injection Hr as -> -> ->.
  destruct (digits_of (Z.abs_N ex)); [done|]. cbn [List.length]. rewrite N.mul_0_l, N.add_0_l. destruct (Z.ltb_spec ex 0); f_equal; lia.
Qed.

Lemma read_digits_stop l r a :
  Forall (fun c => is_digit c = true) l -> match r with c :: _ => is_digit c = false | [] => True end ->
  read_digits (l ++ r) a = ((read_digits l a).1.1, List.length l, r).
Proof.
  intros Hl Hr. rewrite read_digits_app by done. destruct (read_digits_all l a Hl) as [v ->].
  destruct r as [|c r]; cbn [read_digits]; [by rewrite Nat.add_0_r|]. rewrite Hr. by rewrite Nat.add_0_r.
Qed.

Definition number_char (c : ascii) : Prop :=
  is_digit c = true \/ c = "-"%char \/ c = "."%char \/ c = "E"%char \/ c = "+"%char.

Lemma number_text l : Forall number_char l -> filter (fun c => c <> "_"%char) (strip_chars l) = l.
Proof.
  intros H. rewrite no_space_strip.
  - induction H as [|c l Hc Hl IH]; [done|]. rewrite filter_cons, decide_True; [by f_equal|].
    intros ->. unfold number_char in Hc. repeat destruct Hc as [Hc|Hc]; discriminate.
  - eapply list.Forall_impl; [exact H|]. intros c [Hc| [->| [->| [->| ->]]]]; [by apply digit_not_space|done..].
Qed.

Lemma digits_number l : Forall (fun c => is_digit c = true) l -> Forall number_char l.
Proof. intros H. eapply list.Forall_impl; [exact H|]. by left. Qed.

Lemma exponent_number ex : Forall number_char (exponent_text ex).
Proof.
  unfold exponent_text. destruct (ex =? 0); [constructor|].
  constructor; [unfold number_char; tauto|]. constructor; [destruct (ex <? 0); unfold number_char; tauto|]. apply digits_number, digits_of_spec.
Qed.

(** A text of digits, possibly with a dot and an exponent, after an optional sign. *)
Lemma decimal_of_scientific (s : bool) (ip fp : chars) ex :
  Forall (fun c => is_digit c = true) ip -> ip <> [] -> Forall (fun c => is_digit c = true) fp ->
  decimal_of_string (of_chars ((if s then ["-"%char] else []) ++
    (ip ++ match fp with [] => [] | _ => "."%char :: fp end) ++ exponent_text ex)) =
  Some (Fin (Dec s (read_digits (ip ++ fp) 0).1.1 (ex - Z.of_nat (List.length fp)))).
Proof.
  intros Hip Hne Hfp. unfold decimal_of_string. rewrite to_of_chars, number_text.
  2:{ repeat apply Forall_app_2; [|by apply digits_number| |apply exponent_number].
      - destruct s; [apply Forall_singleton; unfold number_char; tauto|constructor].
      - destruct fp as [|c fp]; [constructor|]. constructor; [unfold number_char; tauto|by apply digits_number]. }
  rewrite read_sign_digits by (by destruct Hip). rewrite <- app_assoc, (read_digits_app ip fp 0) by done.
  assert (Forall (fun c => is_digit c = true) ip -> match exponent_text ex with c :: _ => is_digit c = false | [] => True end) as He.
  { intros _. pose proof (exponent_head ex). by destruct (exponent_text ex); subst. }
  specialize (He Hip).
  assert ((List.length ip + List.length fp)%nat <> O) as Hlen by (destruct ip; [done|cbn; lia]).
  destruct (read_digits_all ip 0 Hip) as [vi Ei]. destruct (read_digits_all fp vi Hfp) as [vf Ef].
  destruct fp as [|c fp].
  - cbn [app]. rewrite read_digits_stop by done. rewrite Ei. cbn [fst read_digits].
    destruct (exponent_text ex) as [|x t] eqn:Ex.
    + cbn [List.length] in *. destruct (List.length ip + 0)%nat eqn:El; [lia|]. rewrite <- Ex, read_exponent_text. done.
    + assert (x = "E"%char) as -> by (pose proof (exponent_head ex) as Hh; by rewrite Ex in Hh).
      rewrite decide_False by done. cbn [List.length] in *. destruct (List.length ip + 0)%nat eqn:El; [lia|].
      rewrite <- Ex, read_exponent_text. done.
  - rewrite read_digits_stop by done. rewrite Ei. cbn [fst app]. rewrite decide_True by done.
    rewrite app_comm_cons, read_digits_stop by done. rewrite Ef. cbn [fst].
    destruct (List.length ip + List.length (c :: fp))%nat eqn:El; [lia|]. rewrite read_exponent_text. done.
Qed.

Lemma digits_read n : (read_digits (digits_of n) 0).1.1 = n.
Proof.
  destruct (digits_of_spec n) as (_ & _ & H). specialize (H [] 0%N I). rewrite app_nil_r in H. rewrite H. cbn [fst]. lia.
Qed.

(** [Decimal(str(d))] is [d], sign and exponent included. *)
Lemma decimal_str_roundtrip d : decimal_of_string (dec_str d) = Some (Fin d).
Proof.
  destruct (digits_of_spec (dcoef d)) as (Hd & Hne & _). pose proof (digits_read (dcoef d)) as Hr.
  unfold dec_str. set (s := digits_of (dcoef d)) in *. set (left := dexp d + Z.of_nat (List.length s)).
  set (dot := if (dexp d <=? 0) && (-6 <? left) then left else 1).
  assert (0 < Z.of_nat (List.length s)) as Hlen by (destruct s; [done|cbn; lia]).
  assert ((dot = left /\ dexp d <= 0) \/ dot = 1) as Hcases.
  { unfold dot. destruct ((dexp d <=? 0) && (-6 <? left)) eqn:Ec; [left; bool_prop; lia|by right]. }
  clearbody dot. destruct (Z.leb_spec dot 0) as [Hdot|Hdot].
  - assert (dot = left) as Edot by lia.
    pose proof (decimal_of_scientific (dneg d) ["0"%char] (zeros (Z.to_nat (- dot)) ++ s) (left - dot)) as H.
    unfold exponent_text in H. rewrite Edot, Z.sub_diag in *. cbn [Z.eqb] in *. rewrite app_nil_r in *.
    destruct (zeros (Z.to_nat (- left)) ++ s) as [|x t] eqn:Ez; [destruct (zeros _); [done|done]|]. cbn [app] in H.
    rewrite H; [|by repeat constructor|done|rewrite <- Ez; apply Forall_app_2; [by apply Forall_replicate|done]].
    rewrite <- Ez. change ("0"%char :: zeros (Z.to_nat (- left)) ++ s) with (zeros (S (Z.to_nat (- left))) ++ s).
    rewrite read_zeros, N.mul_0_l. destruct (read_digits s 0) as [[v n] r]. cbn [fst] in *. subst v.
    rewrite length_app. unfold zeros. rewrite length_replicate.
    replace (0 - Z.of_nat _) with (dexp d); [by destruct d|]. unfold left in *. lia.
  - destruct (Z.leb_spec (Z.of_nat (List.length s)) dot) as [Hle|Hgt].
    + assert (dot = Z.of_nat (List.length s)) as Edot by (unfold left in *; lia).
      pose proof (decimal_of_scientific (dneg d) s [] (left - dot) Hd Hne (Forall_nil_2 _)) as H.
      rewrite Edot, Z.sub_diag in *. cbn [Z.to_nat zeros replicate]. rewrite !app_nil_r in *. unfold exponent_text in H.
      rewrite H, Hr. cbn [List.length]. do 2 f_equal. destruct d as [sg co ex]. unfold left. cbn [dexp dneg dcoef]. f_equal. lia.
    + pose proof (decimal_of_scientific (dneg d) (take (Z.to_nat dot) s) (drop (Z.to_nat dot) s) (left - dot)) as H.
      destruct (drop (Z.to_nat dot) s) as [|x t] eqn:Edr.
      { apply (f_equal List.length) in Edr. rewrite length_drop in Edr. cbn [List.length] in Edr. lia. }
      unfold exponent_text in H. rewrite H.
      * rewrite <- Edr, take_drop, Hr, length_drop. do 2 f_equal. destruct d as [sg co ex]. unfold left. cbn [dexp dneg dcoef] in *. f_equal. lia.
      * by apply Forall_take.
      * intros E%(f_equal List.length). rewrite length_take in E. cbn [List.length] in E. lia.
      * rewrite <- Edr. by apply Forall_drop.
Qed.

(** * Objects in another order *)

Lemma obj_get_dict k (o : list (string * json)) : obj_get k o = dict_get k o.
Proof. induction o as [|[k' v] o IH]; cbn; [done|]. by rewrite IH. Qed.

(** Sorting looks at the keys only. *)
Definition field_leb {V} (a b : string * V) : bool := str_leb a.1 b.1.

Lemma sort_insert_fmap {V W} (h : string * V -> string * W) x l :
  (forall kv, (h kv).1 = kv.1) -> sort_insert field_leb (h x) (h <$> l) = h <$> sort_insert field_leb x l.
Proof.
  intros Hh. induction l as [|y l IH]; cbn; [done|]. unfold field_leb at 1 3. rewrite !Hh.
  destruct (str_leb x.1 y.1); cbn; [done|]. by rewrite IH.
Qed.

Lemma py_sorted_fmap {V W} (h : string * V -> string * W) l :
  (forall kv, (h kv).1 = kv.1) -> py_sorted field_leb (h <$> l) = h <$> py_sorted field_leb l.
Proof.
  intros Hh. induction l as [|x l IH]; [done|]. cbn [fmap list_fmap py_sorted fold_right].
  change (fold_right (sort_insert field_leb) [] (h <$> l)) with (py_sorted field_leb (h <$> l)). rewrite IH. by apply sort_insert_fmap.
Qed.

Lemma dict_get_sorted {V} (d : dict V) k : NoDup (dict_keys d) -> dict_get k (py_sorted field_leb d) = dict_get k d.
Proof. intros H. symmetry. apply dict_get_perm; [done|]. symmetry. apply py_sorted_perm. Qed.

Lemma sorted_NoDup {V} (d : dict V) : NoDup (dict_keys d) -> NoDup (dict_keys (py_sorted field_leb d)).
Proof. unfold dict_keys. by rewrite py_sorted_perm. Qed.

(** An object that was written and read. *)
Lemma sort_keys_obj o : sort_keys (JObj o) = JObj ((fun kv => (kv.1, sort_keys kv.2)) <$> py_sorted field_leb o).
Proof. cbn [sort_keys]. f_equal. by apply py_sorted_fmap. Qed.

Lemma sorted_field k o : NoDup (dict_keys o) ->
  obj_get k ((fun kv => (kv.1, sort_keys kv.2)) <$> py_sorted field_leb o) = sort_keys <$> obj_get k o.
Proof. intros Hnd. by rewrite !obj_get_dict, (dict_get_fmap sort_keys), dict_get_sorted. Qed.
