(* ===== verification/JsonSyntax.v ===== *)
(** Which texts [json.loads] accepts as an object.

    A recogniser of JSON over ASCII text that follows the scanner of Python's
    [json] module, its extensions [NaN] and [Infinity] included.  The code under
    verification only asks whether a text is the text of an object. *)

From S2P Require Import Prelude PyText.
From Stdlib Require Import Ascii.

Open Scope Z_scope.

Definition is_ws (c : ascii) : bool :=
  ((code c =? 32) || (code c =? 9) || (code c =? 10) || (code c =? 13))%N.

Fixpoint skip_ws (l : chars) : chars :=
  match l with c :: t => if is_ws c then skip_ws t else l | [] => [] end.

Definition is_hex (c : ascii) : bool := is_digit c || in_range 97 102 c || in_range 65 70 c.

(** The rest of the text after a string whose opening quote was consumed. *)
Fixpoint scan_string (l : chars) : option chars :=
  match l with
  | [] => None
  | c :: t =>
      if (code c =? 34)%N then Some t
      else if (code c =? 92)%N then
        match t with
        | e :: t' =>
            if bool_decide (e = json_quote) || bool_decide (e ∈ to_chars "\/bfnrt") then scan_string t'
            else if bool_decide (e = "u"%char) then
              match t' with
              | a :: b :: c :: d :: t2 =>
                  if is_hex a && is_hex b && is_hex c && is_hex d then scan_string t2 else None
              | _ => None
              end
            else None
        | [] => None
        end
      else if (code c <? 32)%N then None
      else scan_string t
  end.

Fixpoint skip_digits (l : chars) : chars :=
  match l with c :: t => if is_digit c then skip_digits t else l | [] => [] end.

(** An optional minus sign, an integer without leading zeros, an optional fraction
    and an optional exponent; the longest match, as the module's regular expression. *)
Definition scan_number (l : chars) : option chars :=
  let l1 := match l with c :: t => if bool_decide (c = "-"%char) then t else l | [] => [] end in
  match l1 with
  | c :: t =>
      if negb (is_digit c) then None
      else
        let l2 := if bool_decide (c = "0"%char) then t else skip_digits t in
        let l3 :=
          match l2 with
          | p :: d :: t2 => if bool_decide (p = "."%char) && is_digit d then skip_digits t2 else l2
          | _ => l2
          end in
        Some match l3 with
             | e :: t3 =>
                 if bool_decide (e = "e"%char \/ e = "E"%char) then
                   match t3 with
                   | s :: d :: t4 =>
                       if is_digit s then skip_digits t3
                       else if bool_decide (s = "-"%char \/ s = "+"%char) && is_digit d then skip_digits t4
                       else l3
                   | [d] => if is_digit d then [] else l3
                   | [] => l3
                   end
                 else l3
             | [] => l3
             end
  | [] => None
  end.

Fixpoint scan_word (w l : chars) : option chars :=
  match w, l with
  | [], _ => Some l
  | x :: w', y :: l' => if decide (x = y) then scan_word w' l' else None
  | _, _ => None
  end.

(** [scan_once]: every level of nesting consumes a character, so the length of
    the text is enough fuel. *)
Fixpoint scan_value (fuel : nat) (l : chars) : option chars :=
  match fuel, l with
  | S f, c :: t =>
      if bool_decide (c = json_quote) then scan_string t
      else if bool_decide (c = "{"%char) then
        match skip_ws t with
        | c' :: t' =>
            if bool_decide (c' = "}"%char) then Some t'
            else if bool_decide (c' = json_quote) then scan_members f t' else None
        | [] => None
        end
      else if bool_decide (c = "["%char) then
        match skip_ws t with
        | c' :: t' => if bool_decide (c' = "]"%char) then Some t' else scan_elements f (c' :: t')
        | [] => None
        end
      else if bool_decide (c = "n"%char) then scan_word (to_chars "null") l
      else if bool_decide (c = "t"%char) then scan_word (to_chars "true") l
      else if bool_decide (c = "f"%char) then scan_word (to_chars "false") l
      else
        match scan_number l with
        | Some r => Some r
        | None =>
            if bool_decide (c = "N"%char) then scan_word (to_chars "NaN") l
            else if bool_decide (c = "I"%char) then scan_word (to_chars "Infinity") l
            else scan_word (to_chars "-Infinity") l
        end
  | _, _ => None
  end
(** After the opening quote of a key. *)
with scan_members (fuel : nat) (l : chars) : option chars :=
  match fuel with
  | O => None
  | S f =>
      match scan_string l with
      | Some r1 =>
          match skip_ws r1 with
          | c :: r2 =>
              if bool_decide (c = ":"%char) then
                match scan_value f (skip_ws r2) with
                | Some r3 =>
                    match skip_ws r3 with
                    | c :: r4 =>
                        if bool_decide (c = "}"%char) then Some r4
                        else if bool_decide (c = ","%char) then
                          match skip_ws r4 with
                          | q :: r5 => if bool_decide (q = json_quote) then scan_members f r5 else None
                          | [] => None
                          end
                        else None
                    | [] => None
                    end
                | None => None
                end
              else None
          | [] => None
          end
      | None => None
      end
  end
with scan_elements (fuel : nat) (l : chars) : option chars :=
  match fuel with
  | O => None
  | S f =>
      match scan_value f l with
      | Some r =>
          match skip_ws r with
          | c :: r2 =>
              if bool_decide (c = "]"%char) then Some r2
              else if bool_decide (c = ","%char) then scan_elements f (skip_ws r2)
              else None
          | [] => None
          end
      | None => None
      end
  end.

(** [isinstance(json.loads(s), dict)] *)
Definition json_is_object (s : string) : bool :=
  let l := skip_ws (to_chars s) in
  match l with
  | c :: _ =>
      bool_decide (c = "{"%char) &&
      match scan_value (S (2 * List.length l)) l with
      | Some r => match skip_ws r with [] => true | _ => false end
      | None => false
      end
  | [] => false
  end.

(** [json.loads(s)] succeeds. *)
Definition json_valid (s : string) : bool :=
  let l := skip_ws (to_chars s) in
  match scan_value (S (2 * List.length l)) l with
  | Some r => match skip_ws r with [] => true | _ => false end
  | None => false
  end.
