(* ===== verification/Models.v ===== *)
(** models.py and cloid.py: the shared data types, wire numbers and client order ids.

    [Position] is parametric in the type of its size.  The parsers of the program
    only build positions whose size passed [parse_decimal], which rejects
    non-finite numbers, so most components use [Position] (finite size); a
    function that tests [size.is_finite()] itself takes [RawPosition]. *)

From S2P Require Import Prelude PyDecimal PyText.
From Stdlib Require Import Ascii.

Open Scope Z_scope.

(** * Enumerations *)

Inductive Mode := SHADOW | PAPER | TESTNET | LIVE.

Inductive IntentAction := OPEN | REDUCE | CLOSE | CANCEL | NOOP.

Inductive IntentStatus :=
  | IS_PREPARED | COMMITTED_TO_JOURNAL | SIGNED | PENDING | SENT | ACCEPTED | IS_RESTING
  | IS_PARTIALLY_FILLED | ACKED | IS_FILLED | IS_CANCELED | CANCELLED | IS_REJECTED | EXPIRED
  | UNKNOWN_TRANSPORT_OUTCOME | RECONCILED_TERMINAL | DEFERRED | SKIPPED.

#[export] Instance Mode_eq_dec : EqDecision Mode.
Proof. solve_decision. Defined.
#[export] Instance IntentAction_eq_dec : EqDecision IntentAction.
Proof. solve_decision. Defined.
#[export] Instance IntentStatus_eq_dec : EqDecision IntentStatus.
Proof. solve_decision. Defined.

Definition Mode_value (m : Mode) : string :=
  match m with SHADOW => "shadow" | PAPER => "paper" | TESTNET => "testnet" | LIVE => "live" end.

Definition IntentAction_value (a : IntentAction) : string :=
  match a with
  | OPEN => "open" | REDUCE => "reduce" | CLOSE => "close" | CANCEL => "cancel" | NOOP => "noop"
  end.

(** * Positions and orders *)

Record PositionOf (D : Type) := MkPosition {
  pos_coin : string;
  pos_size : D;
  pos_entry_px : option pydec;
  pos_leverage : option Z;
  pos_updated_ms : Z;
}.
Arguments MkPosition {D}.
Arguments pos_coin {D}.
Arguments pos_size {D}.
Arguments pos_entry_px {D}.
Arguments pos_leverage {D}.
Arguments pos_updated_ms {D}.

Abbreviation Position := (PositionOf dec).
Abbreviation RawPosition := (PositionOf pydec).

(** [Position(coin, Decimal("0"))] *)
Definition flat_position (coin : string) : Position := MkPosition coin dzero None None 0.

Definition side (p : Position) : string :=
  if dpos (pos_size p) then "long" else if dnegative (pos_size p) then "short" else "flat".

Definition abs_size (p : Position) : dec := dabs (pos_size p).

Record OpenOrder := MkOpenOrder {
  oo_coin : string;
  oo_side : string;
  oo_size : dec;
  oo_price : option dec;
  oo_oid : option Z;
  oo_cloid : option string;
  oo_reduce_only : bool;
  oo_updated_ms : Z;
}.

#[export] Instance OpenOrder_eq_dec : EqDecision OpenOrder.
Proof. solve_decision. Defined.

(** * Numbers on the wire *)

(** [parse_decimal(value)] for a JSON value. *)
Definition parse_decimal (value : json) : res dec :=
  let parsed :=
    match value with
    | JNull => Some (Fin dzero)
    | v => decimal_of_string (py_str v)
    end in
  match parsed with
  | None => Raise (ArithmeticError "InvalidOperation")
  | Some (Fin d) => Ok d
  | Some _ => Raise (ValueError "decimal value must be finite")
  end.

Definition rstrip_char (c : ascii) (s : string) : string :=
  let fix go (l : chars) := match l with x :: t => if decide (x = c) then go t else l | [] => [] end in
  of_chars (reverse (go (reverse (to_chars s)))).

Definition decimal_to_wire (value : pydec) : res string :=
  match value with
  | Fin v =>
      let normalized := normalize v in
      if deqb normalized (to_integral normalized)
      then dec_str <$> quantize prec_default ROUND_HALF_EVEN normalized 0
      else Ok (rstrip_char "." (rstrip_char "0" (dec_to_fixed normalized)))
  | _ => Raise (ValueError "decimal value must be finite")
  end.

(** * Client order ids *)

Definition is_lower_hex (c : ascii) : bool := is_digit c || in_range 97 102 c.

(** [^0x[0-9a-f]{32}$] matched in full. *)
Definition cloid_re (s : string) : bool :=
  match to_chars s with
  | "0"%char :: "x"%char :: t => (List.length t =? 32)%nat && forallb is_lower_hex t
  | _ => false
  end.

(** Decimals among the [parts] are written as their text. *)
Definition deterministic_cloid (blake2s : string -> string) (parts : list json) : string :=
  "0x" +:+ blake2s (of_chars (json_dumps (JList (JStr "hlct-v1" :: parts)))).

Definition validate_cloid (cloid : string) : res string :=
  let lowered := py_lower cloid in
  if cloid_re lowered then Ok lowered else Raise (ValueError "invalid Hyperliquid cloid").

