(* ===== verification/Precision.v ===== *)
(** precision.py: lot sizes, tick sizes and immediate-or-cancel limit prices. *)

From S2P Require Import Prelude PyDecimal DecimalFacts PyText Models.
From Stdlib Require Import QArith Qabs Lqa.

Open Scope Z_scope.

Definition PERP_MAX_DECIMALS : Z := 6.
Definition SPOT_MAX_DECIMALS : Z := 8.

(** Round a size toward zero to the lot precision of the asset. *)
Definition quantize_size (size : pydec) (sz_decimals : Z) : res dec :=
  match size with
  | Fin s =>
      let step := dscale1 (- sz_decimals) in
      let mode := if dleb dzero s then ROUND_FLOOR else ROUND_CEILING in
      quantize prec_default mode s (dexp step)
  | _ => Raise (ValueError "size must be finite")
  end.

(** Five significant figures, in a context of 50 digits. *)
Definition five_sig (value : dec) : res dec :=
  if deqb value dzero then Ok dzero
  else
    let decimals := Z.max 0 (4 - adjusted value) in
    let quantum := dscale1 (- decimals) in
    quantize 50 ROUND_HALF_UP value (dexp quantum).

Definition quantize_price (price : pydec) (sz_decimals : Z) (is_spot : bool) : res dec :=
  match price with
  | Fin p =>
      if dleb p dzero then Raise (ValueError "price must be positive")
      else
        let max_decimals :=
          (if is_spot then SPOT_MAX_DECIMALS else PERP_MAX_DECIMALS) - sz_decimals in
        if max_decimals <? 0
        then Raise (ValueError "sz_decimals exceeds exchange price decimal budget")
        else
          rounded ← five_sig p;
          if deqb rounded (to_integral rounded) then Ok rounded
          else quantize prec_default ROUND_HALF_UP rounded (dexp (dscale1 (- max_decimals)))
  | _ => Raise (ValueError "price must be positive")
  end.

(** Round a limit toward the permitted side of its raw envelope. *)
Definition quantize_price_inside_limit (price : pydec) (sz_decimals : Z) (is_buy : bool) : res dec :=
  match price with
  | Fin p =>
      if dleb p dzero then Raise (ValueError "price must be positive")
      else
        let max_decimals := PERP_MAX_DECIMALS - sz_decimals in
        if max_decimals <? 0
        then Raise (ValueError "sz_decimals exceeds exchange price decimal budget")
        else
          let sig_decimals := Z.max 0 (4 - adjusted p) in
          let quantum := dmax (dscale1 (- sig_decimals)) (dscale1 (- max_decimals)) in
          rounded ← quantize prec_default (if is_buy then ROUND_FLOOR else ROUND_CEILING)
                      p (dexp quantum);
          if dleb rounded dzero
          then Raise (ValueError "no positive venue price exists inside the IOC limit")
          else Ok rounded
  | _ => Raise (ValueError "price must be positive")
  end.

Definition aggressive_ioc_price (mid : pydec) (is_buy : bool) (slippage_bps : pydec)
    (sz_decimals : Z) : res dec :=
  match mid, slippage_bps with
  | Fin m, Fin s =>
      if dleb m dzero
      then Raise (ValueError "mid must be positive and slippage_bps must be finite")
      else if dnegative s || dleb (dint 10000) s
      then Raise (ValueError "slippage_bps must be between 0 and 10000")
      else
        ratio ← ddiv s (dint 10000);
        let multiplier := if is_buy then dadd (dint 1) ratio else dsub (dint 1) ratio in
        quantize_price_inside_limit (Fin (dmul m multiplier)) sz_decimals is_buy
  | _, _ => Raise (ValueError "mid must be positive and slippage_bps must be finite")
  end.

Definition wire_size (size : pydec) (sz_decimals : Z) : res string :=
  q ← quantize_size size sz_decimals; decimal_to_wire (Fin q).

Definition wire_price (price : pydec) (sz_decimals : Z) (is_spot : bool) : res string :=
  q ← quantize_price price sz_decimals is_spot; decimal_to_wire (Fin q).

(** * Lot sizes *)

(** The result of rounding a size: a multiple of the lot that is the size with
    less than one lot removed, on the same side of zero. *)
Definition truncation (s r : Q) (e : Z) : Prop :=
  multiple_of e r /\
  (0 <= s -> 0 <= r /\ r <= s /\ s < r + q10 e)%Q /\
  (s <= 0 -> r <= 0 /\ s <= r /\ r - q10 e < s)%Q.

#[export] Instance truncation_proper : Proper (Qeq ==> Qeq ==> eq ==> iff) truncation.
Proof. intros s s' Hs r r' Hr e e' ->. unfold truncation. by rewrite Hs, Hr. Qed.

Lemma rescale_sign m d e :
  (0 < dval d)%Q -> (0 <= dval (rescale m d e))%Q.
Proof.
  intros H. pose proof (dval_sign (rescale m d e)) as Hs. rewrite rescale_neg in Hs.
  destruct (dval_nonneg_coef d) as [E|E]; [lra| |].
  - rewrite E in Hs. lra.
  - apply dis_zero_spec in E. lra.
Qed.

Lemma rescale_sign_neg m d e :
  (dval d < 0)%Q -> (dval (rescale m d e) <= 0)%Q.
Proof.
  intros H. pose proof (dval_sign (rescale m d e)) as Hs. rewrite rescale_neg in Hs.
  pose proof (dval_sign d) as Hd. destruct (dneg d); lra.
Qed.

Lemma quantize_size_inv size k r :
  quantize_size size k = Ok r ->
  exists s, size = Fin s /\
    r = rescale (if dleb dzero s then ROUND_FLOOR else ROUND_CEILING) s (- k).
Proof. destruct size; cbn; [|done|done]. intros H%quantize_inv. eauto. Qed.

Lemma quantize_size_truncation s k r :
  quantize_size (Fin s) k = Ok r -> truncation (dval s) (dval r) (- k).
Proof.
  intros (s' & [= <-] & ->)%quantize_size_inv. split; [apply rescale_multiple_of|].
  destruct (dleb dzero s) eqn:E.
  - apply dleb_spec in E. rewrite dval_zero in E.
    destruct (rescale_floor s (- k)) as [H1 H2]. split; intros Hs.
    + repeat split; try done.
      destruct (Qlt_le_dec 0 (dval s)) as [|Hz]; [by apply rescale_sign|].
      assert (dis_zero s = true) as Hz' by (apply dis_zero_spec; lra).
      rewrite rescale_zero, dval_sign_mag by done. cbn [Z.of_N]. change (inject_Z 0) with 0%Q. lra.
    + assert (dis_zero s = true) as Hz by (apply dis_zero_spec; lra).
      rewrite rescale_zero, dval_sign_mag by done. cbn [Z.of_N]. change (inject_Z 0) with 0%Q.
      pose proof (q10_pos (- k)). lra.
  - apply dleb_false in E. rewrite dval_zero in E.
    destruct (rescale_ceiling s (- k)) as [H1 H2]. split; intros Hs; [lra|].
    pose proof (rescale_sign_neg ROUND_CEILING s (- k) E). lra.
Qed.

(** A multiple of the lot no larger than the size is no larger than its truncation. *)
Lemma truncation_largest s r e x :
  truncation s r e -> multiple_of e x ->
  (0 <= x /\ x <= s -> x <= r)%Q /\ (s <= x /\ x <= 0 -> r <= x)%Q.
Proof.
  intros ([i Hi] & Hp & Hn) [j Hj]. pose proof (q10_pos e) as Hq.
  split; intros [Hx1 Hx2].
  - destruct Hp as (_ & _ & Hlt); [lra|]. rewrite Hi, Hj in *.
    apply scaled_le. assert (j < i + 1); [|lia]. apply (scaled_lt _ _ e).
    rewrite inject_Z_plus. change (inject_Z 1) with 1%Q. lra.
  - destruct Hn as (_ & _ & Hlt); [lra|]. rewrite Hi, Hj in *.
    apply scaled_le. assert (i - 1 < j); [|lia]. apply (scaled_lt _ _ e).
    replace (i - 1) with (i + -1) by lia. rewrite inject_Z_plus. change (inject_Z (-1)) with (-1)%Q. lra.
Qed.

(** A size that fits the precision of the context is always quantized. *)
Lemma quantize_size_ok s k : adjusted s + k < 27 -> exists r, quantize_size (Fin s) k = Ok r.
Proof. intros H. apply quantize_ok; [done|].
  change (Z.of_N prec_default) with 28. cbn [dexp dscale1]. lia. Qed.

(**  [quantize_size] returns the largest multiple of the asset's lot between
    zero and the requested size, exactly, for every size that fits the context;
    quantizing the result again changes nothing. *)
Theorem quantize_size_correct (s : dec) (k : Z) :
  adjusted s + k < 27 ->
  exists r, quantize_size (Fin s) k = Ok r /\ dexp r = - k /\
    truncation (dval s) (dval r) (- k) /\
    (forall x, multiple_of (- k) x -> (0 <= x <= dval s -> x <= dval r) /\
                                     (dval s <= x <= 0 -> dval r <= x))%Q /\
    (forall r', quantize_size (Fin r) k = Ok r' -> (dval r' == dval r)%Q).
Proof.
  intros H. destruct (quantize_size_ok s k H) as [r Hr]. exists r.
  pose proof (quantize_size_truncation _ _ _ Hr) as Ht.
  split_and!; [done| |done| |].
  - apply quantize_size_inv in Hr as (? & _ & ->). apply rescale_exp.
  - intros x Hx. by apply truncation_largest with (e := - k).
  - intros r' (? & [= <-] & ->)%quantize_size_inv. destruct Ht as [[j Hj] _].
    by eapply rescale_multiple.
Qed.

Lemma quantize_size_correct_witness :
  quantize_size (Fin (Dec true 123456 (-4))) 2 = Ok (Dec true 1234 (-2)).
Proof.
  destruct (quantize_size_correct (Dec true 123456 (-4)) 2) as (r & Hr & _); [by vm_compute|].
  rewrite Hr. vm_compute in Hr. by injection Hr as <-.
Defined.

(** * Price ticks *)

(** What the venue accepts: an integer, or at most [max_decimals] decimals and
    five significant figures ([10 ^ 5] units is one significant figure). *)
Definition valid_price (max_decimals : Z) (x : Q) : Prop :=
  multiple_of 0 x \/
  exists j, 0 <= j <= max_decimals /\ multiple_of (- j) x /\ (Qabs x <= q10 (5 - j))%Q.

#[export] Instance valid_price_proper n : Proper (Qeq ==> iff) (valid_price n).
Proof. intros x y Hxy. unfold valid_price. by setoid_rewrite Hxy. Qed.

(** Decimals that five significant figures leave to a price. *)
Definition sig_decimals (p : dec) : Z := Z.max 0 (4 - adjusted p).

Lemma sig_decimals_bound p :
  (0 < dval p)%Q -> 0 < sig_decimals p -> (dval p < q10 (5 - sig_decimals p))%Q.
Proof.
  intros Hp Hs. unfold sig_decimals in *.
  assert (dis_zero p = false) as Hz.
  { destruct (dis_zero p) eqn:E; [|done]. apply dis_zero_spec in E. lra. }
  destruct (adjusted_bounds p Hz) as [_ H]. rewrite Qabs_pos in H by lra.
  by replace (5 - Z.max 0 (4 - adjusted p)) with (adjusted p + 1) by lia.
Qed.

(** Rounding to the significant decimals in any mode does not leave the decade. *)
Lemma five_sig_bound p x :
  (0 < dval p)%Q -> 0 < sig_decimals p ->
  multiple_of (- sig_decimals p) x -> (x < dval p + q10 (- sig_decimals p))%Q ->
  (x <= q10 (5 - sig_decimals p))%Q.
Proof.
  intros Hp Hs Hm Hx. apply (multiple_le (- sig_decimals p)); [done| |].
  - replace (5 - sig_decimals p) with (5 + - sig_decimals p) by lia. by apply multiple_q10.
  - pose proof (sig_decimals_bound p Hp Hs). lra.
Qed.

Lemma five_sig_spec p :
  (0 < dval p)%Q -> adjusted p < 49 ->
  exists r, five_sig p = Ok r /\ multiple_of (- sig_decimals p) (dval r) /\
    (Qabs (dval r - dval p) <= (1 # 2) * q10 (- sig_decimals p))%Q /\ (0 <= dval r)%Q.
Proof.
  intros Hp Ha. unfold five_sig. rewrite (proj2 (deqb_false _ _)) by (rewrite dval_zero; lra).
  fold (sig_decimals p). cbn [dexp dscale1].
  destruct (quantize_ok 50 ROUND_HALF_UP p (- sig_decimals p)) as [r Hr]; [done| |].
  { unfold sig_decimals. lia. }
  exists r. split; [done|]. apply quantize_inv in Hr as ->.
  split_and!; [apply rescale_multiple_of|apply rescale_half; auto|by apply rescale_sign].
Qed.

Lemma q10_half_le a b : a < b -> (q10 a <= (1 # 2) * q10 b)%Q.
Proof.
  intros H. rewrite (q10_split b a). pose proof (q10_pos a).
  pose proof (q10_le 1 (b - a) ltac:(lia)) as H10. change (q10 1) with 10%Q in H10. nra.
Qed.

Lemma quantize_price_spec (p : dec) (sz : Z) (is_spot : bool) :
  let budget := (if is_spot then SPOT_MAX_DECIMALS else PERP_MAX_DECIMALS) - sz in
  (0 < dval p)%Q -> adjusted p < 49 -> 0 <= sz -> 0 <= budget ->
  exists r, quantize_price (Fin p) sz is_spot = Ok r /\
    valid_price budget (dval r) /\
    (Qabs (dval r - dval p) <= q10 (- Z.min (sig_decimals p) budget))%Q.
Proof.
  intros budget Hp Ha Hsz Hb. unfold quantize_price.
  rewrite (proj2 (dleb_false _ _)) by (by rewrite dval_zero).
  fold budget. rewrite (proj2 (Z.ltb_ge _ _) Hb).
  destruct (five_sig_spec p Hp Ha) as (r & -> & Hm & Herr & Hr0). cbn [mbind res_bind].
  pose proof (q10_pos (- sig_decimals p)) as Hq.
  apply Qabs_Qle_condition in Herr as Herr'.
  destruct (deqb r (to_integral r)) eqn:Ei.
  - exists r. split; [done|]. split; [left; by apply is_integral|].
    eapply Qle_trans; [exact Herr|].
    pose proof (q10_le (- sig_decimals p) (- Z.min (sig_decimals p) budget) ltac:(lia)). lra.
  - assert (~ multiple_of 0 (dval r)) as Hni by (rewrite <- is_integral; congruence).
    assert (0 < sig_decimals p) as Hs.
    { destruct (Z.lt_ge_cases 0 (sig_decimals p)) as [|Hle]; [done|]. exfalso. apply Hni.
      by replace (- sig_decimals p) with 0 in Hm by (unfold sig_decimals in *; lia). }
    assert (dval r <= q10 (5 - sig_decimals p))%Q as Hr5.
    { apply five_sig_bound; [done..|]. lra. }
    assert (dis_zero r = false) as Hz.
    { destruct (dis_zero r) eqn:E; [|done]. exfalso. apply Hni. apply dis_zero_spec in E.
      exists 0. by rewrite E. }
    assert (adjusted r <= 4) as Hadj.
    { apply adjusted_le; [done|]. rewrite Qabs_pos by done.
      eapply Qle_trans; [exact Hr5|]. apply q10_le. lia. }
    cbn [dexp dscale1].
    destruct (quantize_ok prec_default ROUND_HALF_UP r (- budget)) as [r' Hr']; [done| |].
    { change (Z.of_N prec_default) with 28. unfold budget, SPOT_MAX_DECIMALS, PERP_MAX_DECIMALS.
      destruct is_spot; lia. }
    exists r'. split; [done|]. apply quantize_inv in Hr' as ->.
    destruct (Z.le_gt_cases (sig_decimals p) budget) as [Hle|Hgt].
    + assert (dval (rescale ROUND_HALF_UP r (- budget)) == dval r)%Q as ->.
      { destruct (multiple_of_mono (- budget) (- sig_decimals p) _ ltac:(lia) Hm) as [k Hk].
        by eapply rescale_multiple. }
      split.
      * right. exists (sig_decimals p). split; [lia|]. split; [done|]. by rewrite Qabs_pos.
      * rewrite Z.min_l by done. lra.
    + pose proof (rescale_half ROUND_HALF_UP r (- budget) (or_introl eq_refl)) as Hh.
      apply Qabs_Qle_condition in Hh. rewrite Z.min_r by lia.
      pose proof (q10_half_le (- sig_decimals p) (- budget) ltac:(lia)).
      split.
      * right. exists budget. split; [lia|]. split; [apply rescale_multiple_of|].
        assert (0 <= dval (rescale ROUND_HALF_UP r (- budget)))%Q.
        { destruct (Qlt_le_dec 0 (dval r)) as [|Hr]; [by apply rescale_sign|].
          rewrite rescale_zero, dval_sign_mag; [cbn; destruct (dneg r); discriminate|].
          apply dis_zero_spec. lra. }
        rewrite Qabs_pos by done.
        pose proof (q10_half_le (5 - sig_decimals p) (5 - budget) ltac:(lia)).
        pose proof (q10_le (- budget) (5 - budget) ltac:(lia)). lra.
      * apply Qabs_Qle_condition. lra.
Qed.

(**  For every positive price below 10^49 and every lot precision inside the
    decimal budget, [quantize_price] returns a price the venue accepts, less
    than one tick away from the requested one. *)
Theorem quantize_price_correct (p : dec) (sz : Z) (is_spot : bool) :
  let budget := (if is_spot then SPOT_MAX_DECIMALS else PERP_MAX_DECIMALS) - sz in
  (0 < dval p)%Q -> adjusted p < 49 -> 0 <= sz -> 0 <= budget ->
  exists r, quantize_price (Fin p) sz is_spot = Ok r /\
    valid_price budget (dval r) /\
    (Qabs (dval r - dval p) <= q10 (- Z.min (sig_decimals p) budget))%Q.
Proof. apply quantize_price_spec. Qed.

Lemma quantize_price_correct_witness :
  quantize_price (Fin (Dec false 123456789 (-5))) 2 false = Ok (Dec false 12346000 (-4)).
Proof.
  destruct (quantize_price_correct (Dec false 123456789 (-5)) 2 false) as (r & Hr & _);
    [by vm_compute..|].
  rewrite Hr. vm_compute in Hr. by injection Hr as <-.
Defined.

(** * Limit prices *)

(** The exponent of the tick at a price: the coarser of five significant figures
    and the decimal budget. *)
Definition tick_exp (p : dec) (sz_decimals : Z) : Z :=
  - Z.min (sig_decimals p) (PERP_MAX_DECIMALS - sz_decimals).

Lemma tick_exp_quantum p sz :
  dexp (dmax (dscale1 (- sig_decimals p)) (dscale1 (- (PERP_MAX_DECIMALS - sz)))) = tick_exp p sz.
Proof. rewrite dmax_scale1. unfold tick_exp. lia. Qed.

Lemma inside_limit_inv p sz is_buy r :
  quantize_price_inside_limit (Fin p) sz is_buy = Ok r ->
  (0 < dval p)%Q /\ 0 <= PERP_MAX_DECIMALS - sz /\ (0 < dval r)%Q /\
  r = rescale (if is_buy then ROUND_FLOOR else ROUND_CEILING) p (tick_exp p sz).
Proof.
  unfold quantize_price_inside_limit. intros H. res_inv; bool_prop.
  rewrite dleb_false in *. rewrite dval_zero in *. apply quantize_inv in E1.
  split_and!; [done..|]. by rewrite <- tick_exp_quantum.
Qed.

(** Rounding to the tick in either direction yields a price the venue accepts. *)
Lemma tick_valid p sz r :
  (0 < dval p)%Q -> 0 <= PERP_MAX_DECIMALS - sz -> (0 < dval r)%Q ->
  multiple_of (tick_exp p sz) (dval r) -> (dval r < dval p + q10 (tick_exp p sz))%Q ->
  valid_price (PERP_MAX_DECIMALS - sz) (dval r).
Proof.
  intros Hp Hb Hr Hm Hlt. unfold tick_exp in *. set (b := PERP_MAX_DECIMALS - sz) in *.
  destruct (Z.le_gt_cases (sig_decimals p) 0) as [Hs|Hs].
  { left. by replace (- Z.min (sig_decimals p) b) with 0 in Hm by (unfold sig_decimals in *; lia). }
  right. exists (Z.min (sig_decimals p) b). split; [lia|]. split; [done|].
  rewrite Qabs_pos by lra. pose proof (sig_decimals_bound p Hp ltac:(lia)) as Hub.
  apply (multiple_le (- Z.min (sig_decimals p) b)); [done| |].
  - replace (5 - Z.min (sig_decimals p) b) with (5 + - Z.min (sig_decimals p) b) by lia.
    by apply multiple_q10.
  - pose proof (q10_le (5 - sig_decimals p) (5 - Z.min (sig_decimals p) b) ltac:(lia)). lra.
Qed.

Lemma inside_limit_spec p sz is_buy r :
  quantize_price_inside_limit (Fin p) sz is_buy = Ok r ->
  valid_price (PERP_MAX_DECIMALS - sz) (dval r) /\ (0 < dval r)%Q /\
  (if is_buy then dval r <= dval p /\ dval p - dval r < q10 (tick_exp p sz)
   else dval p <= dval r /\ dval r - dval p < q10 (tick_exp p sz))%Q.
Proof.
  intros (Hp & Hb & Hr & ->)%inside_limit_inv. pose proof (q10_pos (tick_exp p sz)) as Hq.
  split_and!; [|done|].
  - apply (tick_valid p); [done..|apply rescale_multiple_of|].
    destruct is_buy; [destruct (rescale_floor p (tick_exp p sz))
                     |destruct (rescale_ceiling p (tick_exp p sz))]; lra.
  - destruct is_buy; [destruct (rescale_floor p (tick_exp p sz))
                     |destruct (rescale_ceiling p (tick_exp p sz))]; lra.
Qed.

Lemma inject_10000 : (dval (dint 10000) == 10000)%Q.
Proof. apply dval_int. Qed.

Section Envelope.
Context (u w ratio mult m prod : Q).
Hypotheses (Hu : (0 <= u < 1)%Q) (Hw : (0 <= w)%Q) (Hm : (0 < m)%Q).
Hypotheses (Hratio : near u w ratio) (Hprod : near u (m * mult) prod).

Lemma envelope_buy :
  near u (1 + ratio) mult -> (prod <= m * ((1 + w * (1 + u)) * (1 + u)) * (1 + u))%Q.
Proof.
  intros Hmult. apply near_bounds in Hratio; [|done].
  apply near_bounds in Hmult; [|nra].
  assert (0 <= ratio)%Q by nra.
  assert (0 <= (1 - u) * (1 + ratio))%Q by (apply Qmult_le_0_compat; lra).
  assert (0 <= mult)%Q by lra. apply near_bounds in Hprod; [|nra].
  assert (mult <= (1 + w * (1 + u)) * (1 + u))%Q by nra.
  assert (m * mult <= m * ((1 + w * (1 + u)) * (1 + u)))%Q by nra. nra.
Qed.

Lemma envelope_sell :
  near u (1 - ratio) mult -> (0 < prod)%Q ->
  (m * ((1 - w * (1 + u)) * (1 - u)) * (1 - u) <= prod)%Q.
Proof.
  intros Hmult Hpos. apply near_bounds in Hratio; [|done].
  destruct (Qlt_le_dec (1 - ratio) 0) as [Hneg|Hge].
  - exfalso. assert (mult < 0)%Q by (apply (near_neg u (1 - ratio)); [lra|lra|done|done]).
    assert (prod < 0)%Q by (apply (near_neg u (m * mult)); [lra|lra|done|nra]). lra.
  - apply near_bounds in Hmult; [|done].
    assert (0 <= mult)%Q by nra. apply near_bounds in Hprod; [|nra].
    assert ((1 - w * (1 + u)) * (1 - u) <= mult)%Q by nra.
    assert (m * ((1 - w * (1 + u)) * (1 - u)) <= m * mult)%Q by nra. nra.
Qed.
End Envelope.

(**  The limit price of an aggressive order is positive, representable on the
    venue and on the permitted side of the slippage envelope around [mid]: a
    buy never pays more than [mid * (1 + bps/10000)], a sell never accepts less
    than [mid * (1 - bps/10000)], up to the three 28-digit roundings of the
    envelope itself. *)
Theorem aggressive_ioc_price_inside (m s r : dec) (is_buy : bool) (sz : Z) :
  aggressive_ioc_price (Fin m) is_buy (Fin s) sz = Ok r ->
  let w := (dval s / 10000)%Q in
  (0 < dval m)%Q /\ (0 <= w < 1)%Q /\ (0 < dval r)%Q /\
  valid_price (PERP_MAX_DECIMALS - sz) (dval r) /\
  (if is_buy
   then dval r <= dval m * ((1 + w * (1 + ulp28)) * (1 + ulp28)) * (1 + ulp28)
   else dval m * ((1 - w * (1 + ulp28)) * (1 - ulp28)) * (1 - ulp28) <= dval r)%Q.
Proof.
  intros H w. unfold aggressive_ioc_price in H. res_inv; bool_prop.
  rewrite ?dleb_false in *. unfold dnegative in *. rewrite ?dltb_false in *.
  rewrite ?dval_zero, ?inject_10000 in *.
  pose proof (inside_limit_inv _ _ _ _ H) as (Hp & _).
  apply inside_limit_spec in H as (Hv & Hr & Hside).
  pose proof ulp28_range as Hu.
  pose proof (ddiv_near _ _ _ E1) as Hratio. rewrite inject_10000 in Hratio. fold w in Hratio.
  assert (0 <= w < 1)%Q as Hw.
  { unfold w. split; [apply Qle_shift_div_l; lra|apply Qlt_shift_div_r; lra]. }
  split_and!; try done; try apply Hw.
  pose proof (dmul_near m) as Hprod.
  destruct is_buy; destruct Hside as [Hside _].
  - eapply Qle_trans; [exact Hside|]. eapply envelope_buy; [done|apply Hw|done|done|apply Hprod|].
    apply (dadd_near (dint 1)).
  - eapply Qle_trans; [|exact Hside]. eapply envelope_sell; [done|apply Hw|done|done|apply Hprod| |done].
    apply (dsub_near (dint 1)).
Qed.

Lemma aggressive_ioc_price_inside_witness :
  aggressive_ioc_price (Fin (dint 100)) true (Fin (dint 50)) 2 = Ok (Dec false 10050 (-2)) /\
  (dval (Dec false 10050 (-2)) <=
   dval (dint 100) * ((1 + dval (dint 50) / 10000 * (1 + ulp28)) * (1 + ulp28)) * (1 + ulp28))%Q.
Proof.
  split; [by vm_compute|].
  apply (aggressive_ioc_price_inside (dint 100) (dint 50) (Dec false 10050 (-2)) true 2).
  by vm_compute.
Defined.
