(* ===== verification/Markets.v ===== *)
(** markets.py: market identities, the launch catalog and its drift.

    The digest [hashlib.sha256(...).hexdigest()] is a parameter [sha256] of the
    catalog functions.  Error messages are kept up to the interpolated values. *)

From S2P Require Import Prelude PyDecimal PyText TextFacts.
From Stdlib Require Import Ascii.

Open Scope Z_scope.

(** * Components of a market name *)

Definition identity_error {A} (msg : string) : res A := Raise (MarketIdentityError msg).

Definition one_of (cs : string) (c : ascii) : bool := bool_decide (c ∈ to_chars cs).

(** [^[A-Za-z0-9$][A-Za-z0-9_$*.-]{0,31}$] *)
Definition asset_component_re (s : string) : bool :=
  match to_chars s with
  | c :: t => (is_alnum c || one_of "$" c) && (List.length t <=? 31)%nat
              && forallb (fun x => is_alnum x || one_of "_$*.-" x) t
  | [] => false
  end.

(** [^[A-Za-z0-9][A-Za-z0-9_.<>-]{0,15}$] *)
Definition dex_component_re (s : string) : bool :=
  match to_chars s with
  | c :: t => is_alnum c && (List.length t <=? 15)%nat
              && forallb (fun x => is_alnum x || one_of "_.<>-" x) t
  | [] => false
  end.

Inductive component := DEX | ASSET.

Definition validate_component (value : string) (name : component) : res unit :=
  let matches := match name with DEX => dex_component_re value | ASSET => asset_component_re value end in
  if matches then Ok tt
  else identity_error match name with
    | DEX => "DEX component must start with an ASCII letter or digit"
    | ASSET => "asset component must start with an ASCII letter, digit, or $"
    end.

Definition canonical_asset (value : string) : string :=
  if py_islower value then py_upper value else value.

(** * Identities *)

Record MarketIdentity := MkIdentity { asset : string; dex : option string }.

(** [MarketIdentity(asset, dex)] with its [__post_init__]. *)
Definition make_identity (asset : string) (dex : option string) : res MarketIdentity :=
  validate_component asset ASSET ;;
  if py_islower asset then identity_error "canonical all-lowercase asset component must be uppercase"
  else
    match dex with
    | Some d =>
        if is_empty d then identity_error "DEX component must not be empty"
        else validate_component d DEX ;; Ok (MkIdentity asset dex)
    | None => Ok (MkIdentity asset dex)
    end.

Definition canonical (m : MarketIdentity) : string :=
  match dex m with None => asset m | Some d => d +:+ ":" +:+ asset m end.

Definition is_default_perp (m : MarketIdentity) : bool :=
  match dex m with None => true | Some _ => false end.

Definition parse_market (value : json) : res MarketIdentity :=
  match value with
  | JStr value =>
      let raw := py_strip value in
      if is_empty raw then identity_error "market must not be empty" else
      let colon_count := py_count ":"%char raw in
      if (1 <? colon_count)%nat then identity_error "market must contain at most one colon" else
      if (colon_count =? 0)%nat then
        validate_component raw ASSET ;; make_identity (canonical_asset raw) None
      else
        let '(dex, asset) := split_at ":"%char (to_chars raw) in
        let dex := of_chars dex in
        let asset := of_chars asset in
        if is_empty dex then identity_error "DEX component must not be empty" else
        if is_empty asset then identity_error "asset component must not be empty" else
        validate_component dex DEX ;;
        validate_component asset ASSET ;;
        make_identity (canonical_asset asset) (Some dex)
  | _ => identity_error "market must be a string"
  end.

Definition canonical_market (value : json) : res string := canonical <$> parse_market value.

Definition canonical_market_symbol (value : json) : res string := canonical_market value.

Definition market_dex (value : json) : res string :=
  m ← parse_market value; Ok (default "" (dex m)).

Definition qualify_market_symbol (dexv coin : json) : res string :=
  match dexv with
  | JStr d =>
      let normalized_dex := py_strip d in
      (if is_empty normalized_dex then Ok tt else validate_component normalized_dex DEX) ;;
      identity ← parse_market coin;
      match dex identity with
      | Some d' =>
          if negb (is_empty normalized_dex) && negb (bool_decide (d' = normalized_dex))
          then identity_error "market DEX conflicts with response DEX"
          else Ok (canonical identity)
      | None =>
          if is_empty normalized_dex then Ok (canonical identity)
          else canonical <$> make_identity (asset identity) (Some normalized_dex)
      end
  | _ => identity_error "DEX must be a string"
  end.

(** [except MarketIdentityError] *)
Definition is_identity_error (e : exn) : bool :=
  match e with MarketIdentityError _ => true | _ => false end.

Definition is_valid_market (value : json) : bool := is_ok (parse_market value).

Definition is_canonical_market (value : json) : bool :=
  match value with
  | JStr s => match canonical_market value with Ok c => bool_decide (c = s) | Raise _ => false end
  | _ => false
  end.

(** * One [meta] response *)

(** [not isinstance(s, str) or not s or s != s.strip()] is false. *)
Definition exact_name (j : json) : option string :=
  match j with
  | JStr s => if is_empty s || negb (bool_decide (s = py_strip s)) then None else Some s
  | _ => None
  end.

(** The loop over the universe: the active symbols and every symbol seen. *)
Definition universe_step (dexs : string) (acc : list string * list string) (item : json)
    : res (list string * list string) :=
  let '(symbols, seen) := acc in
  match item with
  | JObj o =>
      match exact_name (obj_field "name" o) with
      | None => identity_error "market metadata contains an empty or inexact name"
      | Some raw_name =>
          match default (JBool false) (obj_get "isDelisted" o) with
          | JBool is_delisted =>
              symbol ← catch (qualify_market_symbol (JStr dexs) (JStr raw_name)) is_identity_error
                         (fun _ => identity_error "market metadata DEX contains invalid name");
              d ← market_dex (JStr symbol);
              if negb (bool_decide (d = dexs))
              then identity_error "market conflicts with metadata DEX" else
              if bool_decide (symbol ∈ seen)
              then identity_error "market metadata contains duplicate market" else
              let seen := symbol :: seen in
              if is_delisted then Ok (symbols, seen) else Ok (symbol :: symbols, seen)
          | _ => identity_error "market metadata isDelisted must be a boolean"
          end
      end
  | _ => identity_error "market metadata universe entries must be objects"
  end.

Definition active_perp_market_universe (meta_payload : list (string * json)) (dexs : string)
    : res (list string) :=
  if negb (bool_decide (dexs = py_strip dexs))
  then identity_error "metadata DEX must be an exact string without surrounding space" else
  (if is_empty dexs then Ok tt else validate_component dexs DEX) ;;
  match obj_field "universe" meta_payload with
  | JList universe =>
      '(symbols, _) ← fold_res (universe_step dexs) universe ([], []);
      sorted_key (tuple_leb str_leb str_leb)
        (fun symbol => d ← market_dex (JStr symbol); Ok (d, symbol)) symbols
  | _ => identity_error "market metadata must contain a universe array"
  end.

Definition perp_dex_step (names : list string) (item : json) : res (list string) :=
  match item with
  | JObj o =>
      match exact_name (obj_field "name" o) with
      | None => identity_error "perpDexs entry has an empty or inexact name"
      | Some name =>
          validate_component name DEX ;;
          if bool_decide (name ∈ names) then identity_error "perpDexs response contains duplicate DEX"
          else Ok (names ++ [name])
      end
  | _ => identity_error "perpDexs entry must be an object"
  end.

Definition perp_dex_names (payload : json) : res (list string) :=
  match payload with
  | JList (JNull :: rest) => fold_res perp_dex_step rest [""]
  | JList (_ :: _) => identity_error "perpDexs response must start with the default null DEX"
  | _ => identity_error "perpDexs response must be a non-empty array"
  end.

(** * The frozen catalog *)

Definition MARKET_UNIVERSE_MANIFEST_VERSION : Z := 1.
Definition MARKET_UNIVERSE_NETWORKS : list string := ["mainnet"; "testnet"].

Record FrozenMarketSpec := MkSpec { symbol : string; sz_decimals : Z }.

#[export] Instance FrozenMarketSpec_eq_dec : EqDecision FrozenMarketSpec.
Proof. solve_decision. Defined.

Definition make_spec (symbol : string) (sz_decimals : Z) : res FrozenMarketSpec :=
  if negb (is_canonical_market (JStr symbol))
  then identity_error "frozen market symbol must be canonical" else
  if negb ((0 <=? sz_decimals) && (sz_decimals <=? 18))
  then identity_error "market sz_decimals must be between 0 and 18"
  else Ok (MkSpec symbol sz_decimals).

Definition spec_to_payload (m : FrozenMarketSpec) : json :=
  JObj [("symbol", JStr (symbol m)); ("sz_decimals", JInt (sz_decimals m))].

Definition canonical_network (value : json) : res string :=
  match value with
  | JStr s =>
      let canonical := py_lower (py_strip s) in
      if bool_decide (canonical ∈ MARKET_UNIVERSE_NETWORKS) then Ok canonical
      else identity_error "market universe network must be mainnet or testnet"
  | _ => identity_error "market universe network must be mainnet or testnet"
  end.

Definition dex_sort_key (dex : string) : bool * string := (negb (is_empty dex), dex).

Definition symbol_sort_key (symbol : string) : res (bool * (string * string)) :=
  d ← market_dex (JStr symbol); Ok (negb (is_empty d), (d, symbol)).

Definition market_sort_key (m : FrozenMarketSpec) : res (bool * (string * string)) :=
  symbol_sort_key (symbol m).

Abbreviation dex_key_leb := (tuple_leb bool_leb str_leb).
Abbreviation symbol_key_leb := (tuple_leb bool_leb (tuple_leb str_leb str_leb)).

Definition dex_sorted (l : list string) : list string :=
  py_sorted (fun a b => dex_key_leb (dex_sort_key a) (dex_sort_key b)) l.

Definition sorted_unique_dexes (values : list json) : res (list string) :=
  dexes ← fold_res (fun seen value =>
    match value with
    | JStr v =>
        if negb (bool_decide (v = py_strip v)) then identity_error "market universe DEXes must be exact strings" else
        (if is_empty v then Ok tt else validate_component v DEX) ;;
        if bool_decide (v ∈ seen) then identity_error "market universe contains duplicate DEX"
        else Ok (seen ++ [v])
    | _ => identity_error "market universe DEXes must be exact strings"
    end) values [];
  Ok (dex_sorted dexes).

Definition sorted_unique_market_specs (values : list FrozenMarketSpec) : res (list FrozenMarketSpec) :=
  markets ← fold_res (fun seen value =>
    if bool_decide (symbol value ∈ symbol <$> seen)
    then identity_error "market universe contains duplicate market"
    else Ok (seen ++ [value])) values [];
  match markets with
  | [] => identity_error "market universe must not be empty"
  | _ => sorted_key symbol_key_leb market_sort_key markets
  end.

(** The text [json.dumps(payload, sort_keys=True, separators=(",", ":"))] of the
    catalog payload.  The names it quotes contain no character that JSON escapes. *)
Definition quote_char : ascii := ascii_of_N 34.
Definition quoted (s : string) : chars := quote_char :: to_chars s ++ [quote_char].

Fixpoint comma_sep (l : list chars) : chars :=
  match l with
  | [] => []
  | [x] => x
  | x :: t => x ++ ","%char :: comma_sep t
  end.

Definition spec_text (m : FrozenMarketSpec) : chars :=
  "{"%char :: quoted "symbol" ++ ":"%char :: quoted (symbol m) ++
  ","%char :: quoted "sz_decimals" ++ ":"%char :: to_chars (str_of_Z (sz_decimals m)) ++ ["}"%char].

Definition catalog_text (network : string) (dexes : list string) (markets : list FrozenMarketSpec) : string :=
  of_chars ("{"%char :: quoted "dexes" ++ ":"%char :: "["%char :: comma_sep (quoted <$> dexes) ++
            "]"%char :: ","%char :: quoted "markets" ++ ":"%char :: "["%char ::
            comma_sep (spec_text <$> markets) ++ "]"%char :: ","%char ::
            quoted "network" ++ ":"%char :: quoted network ++ ","%char ::
            quoted "version" ++ ":"%char ::
            to_chars (str_of_Z MARKET_UNIVERSE_MANIFEST_VERSION) ++ ["}"%char]).

Record FrozenMarketUniverseManifest := MkManifest {
  version : Z;
  network : string;
  observed_ms : Z;
  dexes : list string;
  markets : list FrozenMarketSpec;
  sha256_of : string;
}.

Definition symbols (m : FrozenMarketUniverseManifest) : list string := symbol <$> markets m.

(** [tuple(values) == tuple(strings)] *)
Fixpoint jstrs_eqb (values : list json) (strings : list string) : bool :=
  match values, strings with
  | [], [] => true
  | JStr v :: vs, s :: ss => bool_decide (v = s) && jstrs_eqb vs ss
  | _, _ => false
  end.

Section Catalog.
(** [hashlib.sha256(text.encode("utf-8")).hexdigest()] *)
Variable sha256 : string -> string.

Definition market_catalog_fingerprint (network : string) (dexes : list json)
    (markets : list FrozenMarketSpec) : res string :=
  n ← canonical_network (JStr network);
  ds ← sorted_unique_dexes dexes;
  ms ← sorted_unique_market_specs markets;
  Ok (sha256 (catalog_text n ds ms)).

(** [FrozenMarketUniverseManifest(...)] with its [__post_init__]. *)
Definition make_manifest (version : Z) (network : string) (observed_ms : Z) (dexes : list json)
    (markets : list FrozenMarketSpec) (sha : string) : res FrozenMarketUniverseManifest :=
  if negb (version =? MARKET_UNIVERSE_MANIFEST_VERSION)
  then identity_error "market universe manifest version must be 1" else
  if negb (bool_decide (network ∈ MARKET_UNIVERSE_NETWORKS))
  then identity_error "market universe network must be mainnet or testnet" else
  if observed_ms <=? 0 then identity_error "market universe observed_ms must be positive" else
  ds ← sorted_unique_dexes dexes;
  if negb (jstrs_eqb dexes ds)
  then identity_error "market universe DEXes must be canonical, unique, and sorted" else
  match ds with
  | "" :: _ =>
      ms ← sorted_unique_market_specs markets;
      if negb (bool_decide (markets = ms))
      then identity_error "market universe entries must be canonical, unique, and sorted" else
      expected ← market_catalog_fingerprint network dexes markets;
      if negb (bool_decide (sha = expected))
      then identity_error "market universe SHA256 does not match its frozen content"
      else Ok (MkManifest version network observed_ms ds markets sha)
  | _ => identity_error "market universe must include the default perp DEX"
  end.

Definition manifest_to_payload (m : FrozenMarketUniverseManifest) : json :=
  JObj [("version", JInt (version m)); ("network", JStr (network m));
        ("observed_ms", JInt (observed_ms m)); ("dexes", JList (JStr <$> dexes m));
        ("symbols", JList (JStr <$> symbols m)); ("markets", JList (spec_to_payload <$> markets m));
        ("sha256", JStr (sha256_of m))].

Definition manifest_market (m : FrozenMarketUniverseManifest) (symbolv : json) : res FrozenMarketSpec :=
  c ← canonical_market symbolv;
  match list_find (fun s => symbol s = c) (markets m) with
  | Some (_, s) => Ok s
  | None => identity_error "market is not present in the frozen universe"
  end.

Definition spec_from_payload (item : json) : res FrozenMarketSpec :=
  match item with
  | JObj o =>
      match obj_field "symbol" o with
      | JStr symbol =>
          match obj_field "sz_decimals" o with
          | JInt d => make_spec symbol d
          | _ => identity_error "market universe manifest market sz_decimals must be an integer"
          end
      | _ => identity_error "market universe manifest market symbol must be a string"
      end
  | _ => identity_error "market universe manifest market is malformed"
  end.

Definition manifest_from_payload (payload : json) : res FrozenMarketUniverseManifest :=
  match payload with
  | JObj o =>
      match obj_field "markets" o with
      | JList raw_markets =>
          markets ← map_res spec_from_payload raw_markets;
          match obj_field "dexes" o with
          | JList raw_dexes =>
              match obj_field "version" o, obj_field "network" o, obj_field "observed_ms" o,
                    obj_field "sha256" o with
              | JInt version, JStr network, JInt observed_ms, JStr sha =>
                  m ← make_manifest version network observed_ms raw_dexes markets sha;
                  match obj_field "symbols" o with
                  | JNull => Ok m
                  | JList raw_symbols =>
                      if jstrs_eqb raw_symbols (symbols m) then Ok m
                      else identity_error "market universe manifest symbols do not match its market entries"
                  | _ => identity_error "market universe manifest symbols do not match its market entries"
                  end
              | _, _, _, _ => identity_error "market universe manifest field has the wrong type"
              end
          | _ => identity_error "market universe manifest dexes must be an array"
          end
      | _ => identity_error "market universe manifest markets must be an array"
      end
  | _ => identity_error "market universe manifest must be an object"
  end.

(** One entry of [zip(wire_dexes, all_perp_metas_payload)]. *)
Definition entries_step (dexs : string) (entries : dict (list (string * json))) (raw_entry : json)
    : res (dict (list (string * json))) :=
  match raw_entry with
  | JObj o =>
      symbol ← qualify_market_symbol (JStr dexs) (obj_field "name" o);
      if json_truthy (default (JBool false) (obj_get "isDelisted" o)) then Ok entries
      else Ok (dict_set symbol o entries)
  | _ => Raise (AssertionError "")
  end.

Definition market_step (entries : dict (list (string * json))) (acc : list FrozenMarketSpec) (symbolv : string)
    : res (list FrozenMarketSpec) :=
  if bool_decide (symbolv ∈ symbol <$> acc)
  then identity_error "allPerpMetas response contains duplicate market identity" else
  match dict_get symbolv entries with
  | None => Raise (KeyError symbolv)
  | Some entry =>
      match obj_field "szDecimals" entry with
      | JInt d => m ← make_spec symbolv d; Ok (acc ++ [m])
      | _ => identity_error "market szDecimals must be an integer"
      end
  end.

Definition meta_step (acc : list FrozenMarketSpec) (dm : string * json) : res (list FrozenMarketSpec) :=
  let '(dexs, meta) := dm in
  match meta with
  | JObj meta_payload =>
      active_symbols ← active_perp_market_universe meta_payload dexs;
      match obj_field "universe" meta_payload with
      | JList universe =>
          entries ← fold_res (entries_step dexs) universe [];
          fold_res (market_step entries) active_symbols acc
      | _ => Raise (KeyError "universe")
      end
  | _ => identity_error "allPerpMetas entry must be an object"
  end.

Definition build_frozen_market_universe_manifest (network : json) (observed_ms : Z)
    (perp_dexs_payload all_perp_metas_payload : json) : res FrozenMarketUniverseManifest :=
  canonical_network ← canonical_network network;
  if observed_ms <=? 0 then identity_error "market universe observed_ms must be a positive integer" else
  wire_dexes ← perp_dex_names perp_dexs_payload;
  match all_perp_metas_payload with
  | JList (m0 :: ms) =>
      if negb (List.length (m0 :: ms) =? List.length wire_dexes)%nat
      then identity_error "perpDexs and allPerpMetas responses must have the same number of entries" else
      markets ← fold_res meta_step (zip wire_dexes (m0 :: ms)) [];
      frozen_dexes ← sorted_unique_dexes (JStr <$> wire_dexes);
      frozen_markets ← sorted_unique_market_specs markets;
      sha ← market_catalog_fingerprint canonical_network (JStr <$> frozen_dexes) frozen_markets;
      make_manifest MARKET_UNIVERSE_MANIFEST_VERSION canonical_network observed_ms
        (JStr <$> frozen_dexes) frozen_markets sha
  | _ => identity_error "allPerpMetas response must be a non-empty array"
  end.

(** Hash a canonical, order-independent market set. *)
Definition market_universe_fingerprint (symbols : list json) : res string :=
  cs ← map_res canonical_market_symbol symbols;
  match py_sorted str_leb (remove_dups cs) with
  | [] => identity_error "market universe must not be empty"
  | canonical => Ok (sha256 (String.concat (String (ascii_of_N 10) "") canonical))
  end.
End Catalog.

(** * Drift *)

Record MarketPrecisionDrift := MkPrecisionDrift {
  pd_symbol : string;
  expected_sz_decimals : Z;
  observed_sz_decimals : Z;
}.

Record MarketUniverseDrift := MkDrift {
  expected_sha256 : string;
  observed_sha256 : string;
  expected_network : string;
  observed_network : string;
  added_dexes : list string;
  removed_dexes : list string;
  added_symbols : list string;
  removed_symbols : list string;
  precision_changes : list MarketPrecisionDrift;
}.

Definition changed (d : MarketUniverseDrift) : bool :=
  negb (bool_decide (expected_sha256 d = observed_sha256 d)).

(** [set(left) - set(right)] *)
Definition set_difference (left right : list string) : list string :=
  filter (fun x => x ∉ right) (remove_dups left).

Definition sorted_set_difference (left right : list string) : list string :=
  dex_sorted (set_difference left right).

Definition sorted_symbol_difference (left right : list string) : res (list string) :=
  sorted_key symbol_key_leb symbol_sort_key (set_difference left right).

(** [{market.symbol: market.sz_decimals for market in markets}] *)
Definition precision_of (markets : list FrozenMarketSpec) : dict Z :=
  fold_left (fun d m => dict_set (symbol m) (sz_decimals m) d) markets [].

Definition compare_market_universes (expected observed : FrozenMarketUniverseManifest)
    : res MarketUniverseDrift :=
  let expected_precision := precision_of (markets expected) in
  let observed_precision := precision_of (markets observed) in
  common ← sorted_key symbol_key_leb symbol_sort_key
    (filter (fun s => s ∈ dict_keys observed_precision) (dict_keys expected_precision));
  added_symbols ← sorted_symbol_difference (symbols observed) (symbols expected);
  removed_symbols ← sorted_symbol_difference (symbols expected) (symbols observed);
  Ok {|
    expected_sha256 := sha256_of expected;
    observed_sha256 := sha256_of observed;
    expected_network := network expected;
    observed_network := network observed;
    added_dexes := sorted_set_difference (dexes observed) (dexes expected);
    removed_dexes := sorted_set_difference (dexes expected) (dexes observed);
    added_symbols := added_symbols;
    removed_symbols := removed_symbols;
    precision_changes :=
      omap (fun s =>
        match dict_get s expected_precision, dict_get s observed_precision with
        | Some e, Some o => if e =? o then None else Some (MkPrecisionDrift s e o)
        | _, _ => None
        end) common;
  |}.
