(* ===== verification/MarketFacts.v ===== *)
(** Lemmas and properties of Markets.v: canonical names, universes, manifests, drift. *)

From S2P Require Import Prelude PyDecimal PyText TextFacts Markets.
From Stdlib Require Import Ascii.

Open Scope Z_scope.

(** * Text of a component *)

(** A character that is neither space, separator nor JSON quote. *)
Definition plain (c : ascii) : bool :=
  negb (is_space c) && negb (bool_decide (c = ":"%char)) && negb (bool_decide (c = quote_char)).

Lemma plain_class c :
  (is_alnum c || one_of "$" c || one_of "_$*.-" c || one_of "_.<>-" c) = true -> plain c = true.
Proof.
  intros H.
  pose proof (all_ascii (fun c => implb (is_alnum c || one_of "$" c || one_of "_$*.-" c || one_of "_.<>-" c)
    (plain c)) eq_refl c) as Hc. cbn beta in Hc. by rewrite H in Hc.
Qed.

Lemma component_plain s name :
  validate_component s name = Ok tt ->
  is_empty s = false /\ Forall (fun c => plain c = true) (to_chars s).
Proof.
  unfold validate_component.
  destruct (match name with DEX => _ | ASSET => _ end) eqn:E; [intros _|done].
  assert (exists c t, to_chars s = c :: t /\ plain c = true /\ Forall (fun c => plain c = true) t)
    as (c & t & Hs & Hc & Ht).
  { destruct name; unfold dex_component_re, asset_component_re in E;
      (destruct (to_chars s) as [|c t]; [done|]); bool_prop; exists c, t; (split; [done|]).
    all: split; [apply plain_class; by repeat (apply orb_true_iff; auto; rewrite ?H; cbn)|].
    all: apply list.Forall_forall; intros x Hx; apply plain_class;
      match goal with H : forallb _ _ = true |- _ =>
        rewrite forallb_forall in H; apply list_elem_of_In, H in Hx end;
      destruct (is_alnum x); cbn in *; rewrite ?Hx, ?orb_true_r; done. }
  rewrite Hs. split; [by destruct s|by constructor].
Qed.

Lemma plain_spec c : plain c = true -> is_space c = false /\ c <> ":"%char /\ c <> quote_char.
Proof. unfold plain. intros H. bool_prop. done. Qed.

Lemma plain_no_space l : Forall (fun c => plain c = true) l -> Forall (fun c => is_space c = false) l.
Proof.
  intros H. eapply list.Forall_impl; [exact H|]. intros c Hc. by destruct (plain_spec c Hc).
Qed.

Lemma plain_no_colon l : Forall (fun c => plain c = true) l -> filter (fun x => x = ":"%char) l = [].
Proof.
  induction 1 as [|c l Hc _ IH]; [done|]. rewrite filter_cons_False; [done|].
  by apply plain_spec in Hc as (_ & ? & _).
Qed.

Lemma to_chars_app a b : to_chars (a +:+ b) = to_chars a ++ to_chars b.
Proof. induction a as [|c a IH]; [done|]. change (c :: to_chars (a +:+ b) = c :: to_chars a ++ to_chars b). by rewrite IH. Qed.

Lemma split_at_plain l r :
  Forall (fun c => plain c = true) l -> split_at ":"%char (l ++ ":"%char :: r) = (l, r).
Proof.
  induction 1 as [|c l Hc _ IH]; [done|]. apply plain_spec in Hc as (_ & Hne & _).
  cbn [app split_at]. rewrite decide_False by done. by rewrite IH.
Qed.

(** * Identities *)

(** What [__post_init__] of [MarketIdentity] establishes. *)
Record valid_identity (m : MarketIdentity) : Prop := {
  vi_asset : validate_component (asset m) ASSET = Ok tt;
  vi_lower : py_islower (asset m) = false;
  vi_dex d : dex m = Some d -> validate_component d DEX = Ok tt;
}.

Lemma make_identity_Ok a d m :
  make_identity a d = Ok m <-> m = MkIdentity a d /\ valid_identity m.
Proof.
  unfold make_identity. split.
  - intros ([] & Ha & H)%bind_Ok. destruct (py_islower a) eqn:El; [done|].
    destruct d as [d|].
    + destruct (is_empty d); [done|]. apply bind_Ok in H as ([] & Hd & [= <-]).
      split; [done|]. by split; cbn; [| |intros ? [= <-]].
    + injection H as <-. by split.
  - intros [-> [Ha Hl Hd]]; cbn in *. rewrite Ha; cbn. rewrite Hl. destruct d as [d|]; [|done].
    specialize (Hd d eq_refl). apply component_plain in Hd as Hp. destruct Hp as [-> _].
    by rewrite Hd.
Qed.

Lemma parse_valid v m : parse_market v = Ok m -> valid_identity m.
Proof.
  destruct v; try done; cbn. intros H. res_inv.
  - by apply make_identity_Ok in H as [_ H].
  - by apply make_identity_Ok in H as [_ H].
Qed.

Lemma parse_canonical m : valid_identity m -> parse_market (JStr (canonical m)) = Ok m.
Proof.
  intros Hv. pose proof Hv as [Ha Hl Hd]. destruct m as [a d]; cbn in *.
  apply component_plain in Ha as Hpa. destruct Hpa as [Hae Hap].
  assert (make_identity (canonical_asset a) d = Ok (MkIdentity a d)) as Hmk.
  { unfold canonical_asset. rewrite Hl. by apply make_identity_Ok. }
  destruct d as [d|]; unfold canonical; cbn [dex asset].
  - specialize (Hd d eq_refl). apply component_plain in Hd as Hpd. destruct Hpd as [Hde Hdp].
    assert (to_chars (d +:+ ":" +:+ a) = to_chars d ++ ":"%char :: to_chars a) as Et
      by by rewrite to_chars_app.
    assert (py_strip (d +:+ ":" +:+ a) = d +:+ ":" +:+ a) as Es.
    { unfold py_strip. rewrite no_space_strip; [apply of_to_chars|]. rewrite Et.
      apply Forall_app; split; [by apply plain_no_space|].
      constructor; [done|by apply plain_no_space]. }
    assert (py_count ":"%char (d +:+ ":" +:+ a) = 1%nat) as Ec.
    { unfold py_count. rewrite Et, list.filter_app, plain_no_colon by done.
      rewrite filter_cons_True by done. by rewrite plain_no_colon. }
    unfold parse_market. rewrite Es, Ec, Et, split_at_plain by done.
    destruct (is_empty (d +:+ ":" +:+ a)) eqn:E; [by destruct d|]. cbn [Nat.ltb Nat.leb Nat.eqb].
    rewrite !of_to_chars, Hde, Hae, Hd; cbn. by rewrite Ha.
  - assert (py_strip a = a) as Es.
    { unfold py_strip. rewrite no_space_strip; [apply of_to_chars|by apply plain_no_space]. }
    unfold parse_market. rewrite Es, Hae. unfold py_count. rewrite plain_no_colon by done; cbn.
    by rewrite Ha.
Qed.

Lemma parse_inj m1 m2 :
  valid_identity m1 -> valid_identity m2 -> canonical m1 = canonical m2 -> m1 = m2.
Proof. intros H1%parse_canonical H2%parse_canonical E. rewrite E in H1. congruence. Qed.

Lemma canonical_market_of m : valid_identity m -> canonical_market (JStr (canonical m)) = Ok (canonical m).
Proof. intros Hm. unfold canonical_market. by rewrite parse_canonical. Qed.

Lemma is_canonical_of m : valid_identity m -> is_canonical_market (JStr (canonical m)) = true.
Proof. intros Hm. unfold is_canonical_market. rewrite canonical_market_of by done. by apply bool_decide_eq_true. Qed.

Lemma is_canonical_inv s :
  is_canonical_market (JStr s) = true -> exists m, valid_identity m /\ s = canonical m.
Proof.
  unfold is_canonical_market, canonical_market. destruct (parse_market (JStr s)) as [m|] eqn:E; [|done].
  cbn. intros Hc. bool_prop. exists m. split; [by eapply parse_valid|done].
Qed.

Lemma market_dex_of m : valid_identity m -> market_dex (JStr (canonical m)) = Ok (default "" (dex m)).
Proof. intros Hm. unfold market_dex. by rewrite parse_canonical. Qed.

Lemma canonical_inv v c : canonical_market_symbol v = Ok c -> exists m, valid_identity m /\ c = canonical m.
Proof. intros (m & Hm & ->)%fmap_Ok. exists m. split; [by eapply parse_valid|done]. Qed.

Lemma canonical_of_canonical raw m : canonical_market_symbol (JStr raw) = Ok m -> canonical_market_symbol (JStr m) = Ok m /\ exists d, market_dex (JStr m) = Ok d.
Proof.
  unfold canonical_market_symbol, canonical_market. destruct (parse_market (JStr raw)) as [i|] eqn:E; [|done]. intros [= <-].
  apply parse_valid in E. split; [by apply canonical_market_of|]. rewrite market_dex_of by done. by eexists.
Qed.

(** Only identity errors are raised. *)
Lemma component_raises s c e : validate_component s c = Raise e -> is_identity_error e = true.
Proof. unfold validate_component, identity_error. destruct c; cbn; destruct (_ : bool); intros [= <-]; done. Qed.

Lemma identity_raises a d e : make_identity a d = Raise e -> is_identity_error e = true.
Proof.
  unfold make_identity, identity_error. destruct (validate_component a ASSET) as [[]|] eqn:E; cbn;
    [|intros [= <-]; by apply component_raises in E].
  destruct (py_islower a); [by intros [= <-]|]. destruct d as [d|]; [|done]. destruct (is_empty d); [by intros [= <-]|].
  destruct (validate_component d DEX) as [[]|] eqn:Ed; cbn; [done|intros [= <-]; by apply component_raises in Ed].
Qed.

Lemma canonical_raises v e : canonical_market_symbol v = Raise e -> is_identity_error e = true.
Proof.
  unfold canonical_market_symbol, canonical_market. destruct (parse_market v) as [i|e'] eqn:E; [done|]. cbn. intros [= <-].
  revert E. unfold parse_market, identity_error. destruct v; try by intros [= <-].
  destruct (is_empty _); [by intros [= <-]|]. destruct (_ <? _)%nat; [by intros [= <-]|].
  destruct (_ =? _)%nat.
  - destruct (validate_component _ _) as [[]|] eqn:Ec; cbn; [apply identity_raises|intros [= <-]; by apply component_raises in Ec].
  - destruct (split_at _ _). destruct (is_empty _); [by intros [= <-]|]. destruct (is_empty _); [by intros [= <-]|].
    destruct (validate_component _ DEX) as [[]|] eqn:Ec; cbn; [|intros [= <-]; by apply component_raises in Ec].
    destruct (validate_component _ ASSET) as [[]|] eqn:Ec'; cbn; [apply identity_raises|intros [= <-]; by apply component_raises in Ec'].
Qed.

Lemma component_stripped d : validate_component d DEX = Ok tt -> py_strip d = d.
Proof.
  intros [_ Hp]%component_plain. unfold py_strip.
  rewrite no_space_strip; [apply of_to_chars|by apply plain_no_space].
Qed.

(** The identity [qualify_market_symbol] answers with. *)
Lemma qualify_inv d coin q :
  qualify_market_symbol (JStr d) coin = Ok q ->
  exists mc m, parse_market coin = Ok mc /\ valid_identity m /\ q = canonical m /\ asset m = asset mc /\
    dex m = (if is_empty (py_strip d) then dex mc else Some (py_strip d)) /\
    (forall d', dex mc = Some d' -> dex m = Some d').
Proof.
  cbn. intros ([] & Hd & H)%bind_Ok. apply bind_Ok in H as (mc & Hmc & H).
  pose proof (parse_valid _ _ Hmc) as Hv. exists mc.
  destruct (dex mc) as [d'|] eqn:Edex.
  - exists mc. destruct (is_empty (py_strip d)) eqn:Ee; cbn in H.
    + injection H as <-. rewrite Edex. by split_and!.
    + case_bool_decide as Eq; cbn in H; [|done]. injection H as <-. subst. rewrite Edex. by split_and!.
  - destruct (is_empty (py_strip d)) eqn:Ee.
    + injection H as <-. exists mc. rewrite Edex. by split_and!.
    + apply fmap_Ok in H as (m & Hm & ->). apply make_identity_Ok in Hm as [-> Hm].
      exists (MkIdentity (asset mc) (Some (py_strip d))). by split_and!.
Qed.

Lemma qualify_canonical d m :
  valid_identity m ->
  (is_empty (py_strip d) = true \/ dex m = Some (py_strip d)) ->
  qualify_market_symbol (JStr d) (JStr (canonical m)) = Ok (canonical m).
Proof.
  intros Hm Hd. unfold qualify_market_symbol. rewrite parse_canonical by done.
  destruct (is_empty (py_strip d)) eqn:Ee; cbn.
  - by destruct (dex m).
  - destruct Hd as [?|Hd]; [done|]. rewrite (vi_dex _ Hm _ Hd). cbn. rewrite Hd.
    by rewrite bool_decide_eq_true_2.
Qed.

(** Market identity is canonical and unambiguous: a parsed name prints to a
    text that parses back to the same identity, so two names denote the same
    market exactly when their canonical texts are equal; qualifying a coin by a
    response DEX gives a canonical name of that DEX (a conflicting prefix never
    gets through), and qualifying again changes nothing. *)
Theorem market_identity_canonical :
  (forall v m, parse_market v = Ok m -> parse_market (JStr (canonical m)) = Ok m) /\
  (forall v1 v2 m1 m2, parse_market v1 = Ok m1 -> parse_market v2 = Ok m2 ->
     canonical m1 = canonical m2 -> m1 = m2) /\
  (forall d coin q, qualify_market_symbol (JStr d) coin = Ok q ->
     is_canonical_market (JStr q) = true /\
     (is_empty (py_strip d) = false -> market_dex (JStr q) = Ok (py_strip d)) /\
     (forall d', market_dex coin = Ok d' -> is_empty d' = false -> market_dex (JStr q) = Ok d') /\
     qualify_market_symbol (JStr d) (JStr q) = Ok q).
Proof.
  split; [|split].
  - intros v m Hm%parse_valid. by apply parse_canonical.
  - intros v1 v2 m1 m2 H1%parse_valid H2%parse_valid. by apply parse_inj.
  - intros d coin q (mc & m & Hmc & Hm & -> & _ & Hd & Hpre)%qualify_inv.
    rewrite is_canonical_of, market_dex_of by done. split; [done|]. split; [|split].
    + intros He. rewrite He in Hd. by rewrite Hd.
    + intros d' Hd' He. unfold market_dex in Hd'. rewrite Hmc in Hd'. injection Hd' as <-.
      destruct (dex mc) as [d'|] eqn:E; [|done]. by rewrite (Hpre _ eq_refl).
    + apply qualify_canonical; [done|]. destruct (is_empty (py_strip d)); auto.
Qed.

(** * Universes *)

(** [item] is a well-formed entry of the universe of [d], for the market [s]. *)
Definition item_symbol (d : string) (item : json) (s : string) : Prop :=
  exists o name b, item = JObj o /\ exact_name (obj_field "name" o) = Some name /\
    default (JBool false) (obj_get "isDelisted" o) = JBool b /\
    qualify_market_symbol (JStr d) (JStr name) = Ok s /\ market_dex (JStr s) = Ok d.

Definition item_active (item : json) : Prop :=
  exists o, item = JObj o /\ default (JBool false) (obj_get "isDelisted" o) = JBool false.

(** [s] is traded on [d] according to its [meta] universe. *)
Definition listed (d : string) (universe : list json) (item : json) (s : string) : Prop :=
  item ∈ universe /\ item_symbol d item s /\ item_active item.

Lemma item_symbol_fun d item s s' : item_symbol d item s -> item_symbol d item s' -> s = s'.
Proof. intros (o & n & b & -> & Hn & _ & Hq & _) (o' & n' & b' & [= <-] & Hn' & _ & Hq' & _). congruence. Qed.

Lemma exact_name_JStr j n : exact_name j = Some n -> j = JStr n /\ py_strip n = n.
Proof.
  destruct j; try done; cbn. destruct (is_empty s || _) eqn:E; [done|]. intros [= <-].
  bool_prop. done.
Qed.

Lemma catch_Ok {A} (m : res A) p h a :
  (forall e, is_ok (h e) = false) -> catch m p h = Ok a -> m = Ok a.
Proof. intros Hh. destruct m as [x|e]; cbn; [done|]. destruct (p e); [|done]. specialize (Hh e). by destruct (h e). Qed.

Lemma universe_step_inv d acc item acc' :
  universe_step d acc item = Ok acc' ->
  exists s, item_symbol d item s /\ (s ∉ acc.2) /\ acc'.2 = s :: acc.2 /\
    ((item_active item /\ acc'.1 = s :: acc.1) \/ (~ item_active item /\ acc'.1 = acc.1)).
Proof.
  destruct acc as [symbols seen]. destruct item as [| | | | | |o]; try done. cbn.
  destruct (exact_name _) as [n|] eqn:En; [|done].
  destruct (default _ _) as [|b| | | | |] eqn:Eb; try done.
  intros (s & Hs & H)%bind_Ok. apply catch_Ok in Hs; [|done].
  apply bind_Ok in H as (d' & Hd & H). destruct (bool_decide (d' = d)) eqn:Ed; cbn in H; [|done].
  destruct (bool_decide (s ∈ seen)) eqn:Eseen; cbn in H; [done|]. bool_prop. subst d'.
  exists s. split; [by exists o, n, b|]. split; [done|].
  destruct b; injection H as <-; (split; [done|]).
  - right. split; [|done]. intros (o' & [= <-] & E). congruence.
  - left. split; [|done]. by exists o.
Qed.

Lemma universe_fold d universe symbols seen :
  fold_res (universe_step d) universe ([], []) = Ok (symbols, seen) ->
  NoDup symbols /\
  (forall s, s ∈ symbols <-> exists item, listed d universe item s) /\
  (forall i1 i2 s, i1 ∈ universe -> i2 ∈ universe -> item_symbol d i1 s -> item_symbol d i2 s -> i1 = i2) /\
  (forall i, i ∈ universe -> exists s, item_symbol d i s).
Proof.
  intros H.
  apply (fold_res_prefix (fun pre acc =>
    NoDup acc.1 /\ (forall s, s ∈ acc.1 -> s ∈ acc.2) /\
    (forall s, s ∈ acc.2 <-> exists item, item ∈ pre /\ item_symbol d item s) /\
    (forall s, s ∈ acc.1 <-> exists item, listed d pre item s) /\
    (forall i1 i2 s, i1 ∈ pre -> i2 ∈ pre -> item_symbol d i1 s -> item_symbol d i2 s -> i1 = i2) /\
    (forall i, i ∈ pre -> exists s, item_symbol d i s))) in H;
    [by destruct H as (? & _ & _ & ? & ? & ?)| |].
  - intros pre x acc acc' _ (Hnd & Hsub & Hseen & Hact & Hun & Hall) (s & Hs & Hns & E2 & Hc)%universe_step_inv.
    assert (forall i, i ∈ pre ++ [x] <-> i ∈ pre \/ i = x) as Hin
      by (intros; rewrite elem_of_app, list_elem_of_singleton; done).
    assert (forall s', s' ∈ acc'.2 <-> s' = s \/ s' ∈ acc.2) as Hin2 by (intros; by rewrite E2, elem_of_cons).
    assert (forall i, i ∈ pre -> ~ item_symbol d i s) as Hfresh.
    { intros i Hi Hsi. apply Hns, Hseen. by exists i. }
    assert (forall s', s' ∈ acc'.1 <-> s' ∈ acc.1 \/ (s' = s /\ item_active x)) as Hin1.
    { intros s'. destruct Hc as [[Ha ->]|[Ha ->]]; rewrite ?elem_of_cons; tauto. }
    split_and!.
    + destruct Hc as [[_ ->]|[_ ->]]; [|done]. apply list.NoDup_cons. auto.
    + intros s' [H'|[-> _]]%Hin1; apply Hin2; auto.
    + intros s'. rewrite Hin2, Hseen. split.
      * intros [->|(i & Hi & Hsi)]; [exists x|exists i]; rewrite Hin; auto.
      * intros (i & [Hi| ->]%Hin & Hsi); [right; by exists i|].
        left. by eapply item_symbol_fun.
    + intros s'. rewrite Hin1, Hact. unfold listed. split.
      * intros [(i & Hi & Hsi)|[-> Ha]]; [exists i|exists x]; rewrite Hin; tauto.
      * intros (i & [Hi| ->]%Hin & Hsi & Ha); [left; by exists i|].
        right. split; [by eapply item_symbol_fun|done].
    + intros i1 i2 s' [H1| ->]%Hin [H2| ->]%Hin Hs1 Hs2; [by eapply Hun| | |done].
      * destruct (Hfresh i1 H1). by rewrite <- (item_symbol_fun _ _ _ _ Hs2 Hs).
      * destruct (Hfresh i2 H2). by rewrite <- (item_symbol_fun _ _ _ _ Hs1 Hs).
    + intros i [Hi| ->]%Hin; [by apply Hall|by exists s].
  - cbn. unfold listed. split_and!; try constructor; try set_solver.
Qed.

Lemma active_universe_spec o d syms :
  active_perp_market_universe o d = Ok syms ->
  exists universe, obj_field "universe" o = JList universe /\ NoDup syms /\
    (forall s, s ∈ syms <-> exists item, listed d universe item s) /\
    (forall i1 i2 s, i1 ∈ universe -> i2 ∈ universe -> item_symbol d i1 s -> item_symbol d i2 s -> i1 = i2) /\
    (forall i, i ∈ universe -> exists s, item_symbol d i s) /\
    Sorted (fun a b => key_leb (tuple_leb str_leb str_leb)
      (fun s => x ← market_dex (JStr s); Ok (x, s)) a b = true) syms.
Proof.
  unfold active_perp_market_universe. destruct (negb _); [done|].
  intros ([] & _ & H)%bind_Ok. destruct (obj_field "universe" o) as [| | | | |universe|]; try done.
  apply bind_Ok in H as ([symbols seen] & Hf & Hs). apply universe_fold in Hf as (Hnd & Hin & Hun & Hall).
  apply (sorted_key_spec _ _) in Hs as (Hp & Hs & _). exists universe.
  split_and!; [done|by rewrite Hp| |done|done|done].
  intros s. by rewrite Hp.
Qed.

(** * Building the catalog *)

Definition spec_ok (m : FrozenMarketSpec) : Prop := make_spec (symbol m) (sz_decimals m) = Ok m.

Lemma make_spec_Ok s z m :
  make_spec s z = Ok m <-> m = MkSpec s z /\ is_canonical_market (JStr s) = true /\ 0 <= z <= 18.
Proof.
  unfold make_spec. destruct (is_canonical_market (JStr s)); cbn; [|split; [done|by intros (_ & ? & _)]].
  destruct ((0 <=? z) && (z <=? 18)) eqn:E; cbn; bool_prop.
  - split; [by intros [= <-]|by intros (-> & _)].
  - apply andb_false_iff in E. split; [done|]. intros (_ & _ & ?). destruct E; bool_prop; lia.
Qed.

Lemma spec_ok_of s z m : make_spec s z = Ok m -> spec_ok m.
Proof. intros H. pose proof H as [-> _]%make_spec_Ok. done. Qed.

(** The active market [s] with precision [z], according to the two responses. *)
Definition traded (dexs : list string) (metas : list json) (s : string) (z : Z) : Prop :=
  exists d meta universe o, (d, JObj meta) ∈ zip dexs metas /\ obj_field "universe" meta = JList universe /\
    listed d universe (JObj o) s /\ obj_field "szDecimals" o = JInt z.

Lemma entries_fold d universe entries :
  fold_res (entries_step d) universe [] = Ok entries ->
  (forall s o, dict_get s entries = Some o ->
     JObj o ∈ universe /\ qualify_market_symbol (JStr d) (obj_field "name" o) = Ok s /\
     json_truthy (default (JBool false) (obj_get "isDelisted" o)) = false) /\
  (forall s o, JObj o ∈ universe -> qualify_market_symbol (JStr d) (obj_field "name" o) = Ok s ->
     json_truthy (default (JBool false) (obj_get "isDelisted" o)) = false -> dict_get s entries <> None).
Proof.
  apply (fold_res_prefix (fun pre entries =>
  (forall s o, dict_get s entries = Some o ->
     JObj o ∈ pre /\ qualify_market_symbol (JStr d) (obj_field "name" o) = Ok s /\
     json_truthy (default (JBool false) (obj_get "isDelisted" o)) = false) /\
  (forall s o, JObj o ∈ pre -> qualify_market_symbol (JStr d) (obj_field "name" o) = Ok s ->
     json_truthy (default (JBool false) (obj_get "isDelisted" o)) = false -> dict_get s entries <> None)));
    [|split; [done|set_solver]].
  intros pre x e e' _ [IH1 IH2] Hstep.
  unfold entries_step in Hstep. destruct x as [| | | | | |o']; try done.
  apply bind_Ok in Hstep as (s' & Hs' & Hstep).
  assert (forall o, JObj o ∈ pre ++ [JObj o'] <-> JObj o ∈ pre \/ o = o') as Hin.
  { intros o. rewrite elem_of_app, list_elem_of_singleton. split; (intros [?|?]; [by left|right; by simplify_eq]). }
  destruct (json_truthy _) eqn:Et; injection Hstep as <-.
  - split.
    + intros s o (? & ? & ?)%IH1. rewrite Hin. auto.
    + intros s o [Ho| ->]%Hin Hq Ht; [by eapply IH2|]. congruence.
  - split; intros s o; (destruct (decide (s' = s)) as [->|Hne];
      [rewrite dict_get_set_eq|rewrite dict_get_set_ne by done]).
    + intros [= <-]. rewrite Hin. auto.
    + intros (? & ? & ?)%IH1. rewrite Hin. auto.
    + done.
    + intros [Ho| ->]%Hin Hq Ht; [by eapply IH2|]. congruence.
Qed.

Lemma market_fold entries syms acc r :
  Forall spec_ok acc -> NoDup (symbol <$> acc) ->
  fold_res (market_step entries) syms acc = Ok r ->
  Forall spec_ok r /\ NoDup (symbol <$> r) /\
  forall s z, MkSpec s z ∈ r <-> MkSpec s z ∈ acc \/
    (s ∈ syms /\ exists o, dict_get s entries = Some o /\ obj_field "szDecimals" o = JInt z).
Proof.
  intros Hok Hnd. apply (fold_res_prefix (fun pre r => Forall spec_ok r /\ NoDup (symbol <$> r) /\
    forall s z, MkSpec s z ∈ r <-> MkSpec s z ∈ acc \/
    (s ∈ pre /\ exists o, dict_get s entries = Some o /\ obj_field "szDecimals" o = JInt z))).
  - intros pre x b b' _ (Hb & Hbn & IH) Hs. unfold market_step in Hs.
    destruct (bool_decide _) eqn:Ein; [done|]. bool_prop.
    destruct (dict_get x entries) as [o|] eqn:Eo; [|done].
    destruct (obj_field "szDecimals" o) as [| |z0| | | |] eqn:Ez; try done.
    apply bind_Ok in Hs as (m & Hm & [= <-]). pose proof Hm as [-> _]%make_spec_Ok.
    split_and!.
    + apply Forall_app. split; [done|]. constructor; [by eapply spec_ok_of|done].
    + rewrite fmap_app. apply list.NoDup_app. split_and!; [done| |apply NoDup_singleton].
      cbn. set_solver.
    + intros s z. rewrite !elem_of_app, IH, !list_elem_of_singleton. split.
      * intros [[?|[??]]|[= -> ->]]; [by left|right; tauto|right]. split; [by right|]. by exists o.
      * intros [?|[[?| ->] (o' & Ho' & Hz')]]; [tauto|left; right; split; [done|by exists o']|].
        right. rewrite Eo in Ho'. injection Ho' as <-. rewrite Ez in Hz'. by injection Hz' as ->.
  - split_and!; [done|done|]. intros s z. set_solver.
Qed.

(** The dictionary of entries finds, for an active symbol, the entry that lists it. *)
Lemma listed_entry d universe entries (syms : list string) s (P : list (string * json) -> Prop) :
  fold_res (entries_step d) universe [] = Ok entries ->
  (forall s, s ∈ syms <-> exists item, listed d universe item s) ->
  (forall i1 i2 s, i1 ∈ universe -> i2 ∈ universe -> item_symbol d i1 s -> item_symbol d i2 s -> i1 = i2) ->
  (forall i, i ∈ universe -> exists s, item_symbol d i s) ->
  (s ∈ syms /\ (exists o, dict_get s entries = Some o /\ P o)) <->
  (exists o, listed d universe (JObj o) s /\ P o).
Proof.
  intros [Hent1 Hent2]%entries_fold Hin Hun Hall.
  assert (forall o s', item_symbol d (JObj o) s' -> qualify_market_symbol (JStr d) (obj_field "name" o) = Ok s')
    as Hq by (intros o s' (o' & n & b & [= <-] & [-> _]%exact_name_JStr & _ & Hq & _); done).
  assert (forall o s', dict_get s' entries = Some o -> item_symbol d (JObj o) s') as Hsym.
  { intros o s' (Ho & Hqo & _)%Hent1. destruct (Hall _ Ho) as (s2 & Hs2).
    pose proof (Hq _ _ Hs2) as Hq2. rewrite Hqo in Hq2. by injection Hq2 as ->. }
  split.
  - intros [(item & Hi & Hsi & Ha)%Hin (o & Ho & Hp)]. exists o. split; [|done].
    destruct (Hent1 _ _ Ho) as (Hou & _). rewrite (Hun (JObj o) item s); [done|done|done| |done]. auto.
  - intros (o & Hl & Hp). split; [apply Hin; by exists (JObj o)|]. destruct Hl as (Ho & Hs & o' & [= <-] & Ha).
    destruct (dict_get s entries) as [o2|] eqn:E.
    + exists o2. split; [done|]. destruct (Hent1 _ _ E) as (Ho2 & _).
      assert (JObj o2 = JObj o) as [= ->]; [|done]. apply (Hun _ _ s); auto.
    + destruct (Hent2 s o Ho); [by apply Hq|by rewrite Ha|done].
Qed.

Lemma meta_fold dexs metas r :
  fold_res meta_step (zip dexs metas) [] = Ok r ->
  Forall spec_ok r /\ NoDup (symbol <$> r) /\ forall s z, MkSpec s z ∈ r <-> traded dexs metas s z.
Proof.
  intros H.
  apply (fold_res_prefix (fun pre r => Forall spec_ok r /\ NoDup (symbol <$> r) /\
    forall s z, MkSpec s z ∈ r <-> exists d meta universe o, (d, JObj meta) ∈ pre /\
      obj_field "universe" meta = JList universe /\ listed d universe (JObj o) s /\
      obj_field "szDecimals" o = JInt z)) in H; [done| |].
  - intros pre [d mj] acc acc' _ (Hok & Hnd & IH) Hs. unfold meta_step in Hs.
    destruct mj as [| | | | | |meta]; try done.
    apply bind_Ok in Hs as (syms & Hact & Hs).
    apply active_universe_spec in Hact as (universe & Hu & Hsn & Hsin & Hun & Hall & _). rewrite Hu in Hs.
    apply bind_Ok in Hs as (entries & He & Hs).
    destruct (market_fold _ _ _ _ Hok Hnd Hs) as (Hok' & Hnd' & Hr). split_and!; [done|done|].
    intros s z. rewrite Hr, IH.
    assert ((s ∈ syms /\ (exists o, dict_get s entries = Some o /\ obj_field "szDecimals" o = JInt z)) <->
            (exists o, listed d universe (JObj o) s /\ obj_field "szDecimals" o = JInt z)) as ->.
    { by apply (listed_entry d universe entries syms). }
    split.
    + intros [(d' & m' & u' & o & Hin & ?)|(o & Hl & Hz)].
      * exists d', m', u', o. split; [apply elem_of_app; by left|done].
      * exists d, meta, universe, o. split; [apply elem_of_app; right; by left|done].
    + intros (d' & m' & u' & o & [Hin|[= -> ->]%list_elem_of_singleton]%elem_of_app & Hu' & Hl & Hz).
      * left. by exists d', m', u', o.
      * right. exists o. rewrite Hu in Hu'. injection Hu' as <-. done.
  - split_and!; [constructor|constructor|]. intros s z. split; [set_solver|].
    intros (d & m & u & o & Hin & _). by apply elem_of_nil in Hin.
Qed.

(** * Manifests *)

Lemma jstrs_eqb_spec js ss : jstrs_eqb js ss = true <-> js = JStr <$> ss.
Proof.
  revert ss. induction js as [|j js IH]; intros [|s ss]; cbn; [done|done|by destruct j|].
  destruct j; try done. rewrite andb_true_iff, bool_decide_eq_true, IH. split; [by intros [-> ->]|].
  by intros [= -> ->].
Qed.

Lemma jstrs_inj (a b : list string) : JStr <$> a = JStr <$> b -> a = b.
Proof.
  revert b. induction a as [|x a IH]; intros [|y b] H; try done.
  injection H as -> H. f_equal. by apply IH.
Qed.

(** The DEX list of a manifest is the stable sort of distinct valid names. *)
Lemma sorted_unique_dexes_spec js ds :
  sorted_unique_dexes js = Ok ds ->
  exists raw, js = JStr <$> raw /\ NoDup raw /\ ds ≡ₚ raw /\
    Forall (fun v => v = "" \/ validate_component v DEX = Ok tt) raw /\
    Sorted (fun a b => dex_key_leb (dex_sort_key a) (dex_sort_key b) = true) ds.
Proof.
  unfold sorted_unique_dexes. intros (raw & Hf & [= <-])%bind_Ok.
  apply (fold_res_prefix (fun pre raw => pre = JStr <$> raw /\ NoDup raw /\
    Forall (fun v => v = "" \/ validate_component v DEX = Ok tt) raw)) in Hf.
  - destruct Hf as (-> & Hnd & Hv). exists raw. split_and!; [done|done|apply py_sorted_perm|done|].
    apply (py_sorted_sorted (fun a b => dex_key_leb (dex_sort_key a) (dex_sort_key b))).
    intros x y. apply (bo_total (leb := dex_key_leb)).
  - intros pre x b b' _ (-> & Hnd & Hv) Hs. destruct x as [| | | |v| |]; try done.
    destruct (negb _); [done|]. apply bind_Ok in Hs as ([] & Hc & Hs).
    case_bool_decide as Hin; [done|]. injection Hs as <-. split_and!.
    + by rewrite fmap_app.
    + apply list.NoDup_app. split_and!; [done|set_solver|apply NoDup_singleton].
    + apply Forall_app. split; [done|]. constructor; [|constructor].
      destruct (is_empty v) eqn:Ev; [left; by destruct v|by right].
  - split_and!; [done|constructor|constructor].
Qed.

Lemma sorted_unique_market_specs_spec l ms :
  sorted_unique_market_specs l = Ok ms ->
  NoDup (symbol <$> l) /\ ms ≡ₚ l /\ ms <> [] /\
  Sorted (fun a b => key_leb symbol_key_leb market_sort_key a b = true) ms.
Proof.
  unfold sorted_unique_market_specs. intros (raw & Hf & H)%bind_Ok.
  apply (fold_res_prefix (fun pre raw => pre = raw /\ NoDup (symbol <$> raw))) in Hf.
  - destruct Hf as (-> & Hnd). destruct raw as [|m raw]; [done|].
    apply (sorted_key_spec _ _) in H as (Hp & Hs & _). split_and!; [done|done| |done].
    intros ->. by apply Permutation_nil_cons in Hp.
  - intros pre x b b' _ (-> & Hnd) Hs. case_bool_decide as Hin; [done|]. injection Hs as <-.
    split; [done|]. rewrite fmap_app. apply list.NoDup_app. split_and!; [done|cbn; set_solver|].
    apply NoDup_singleton.
  - split; [done|constructor].
Qed.

(** A small catalog used by the examples below: two DEXes, three markets. *)
Definition sample_meta (l : list (string * Z)) : json :=
  JObj [("universe", JList ((fun '(n, d) => JObj [("name", JStr n); ("szDecimals", JInt d)]) <$> l))].
Definition sample_dexs : json := JList [JNull; JObj [("name", JStr "xyz")]].
Definition sample_metas (btc : Z) : json :=
  JList [sample_meta [("ETH", 4); ("BTC", btc)]; sample_meta [("aapl", 2)]].

Definition sample_manifest (btc : Z) : res FrozenMarketUniverseManifest :=
  build_frozen_market_universe_manifest (fun t => t) (JStr "mainnet") 1000 sample_dexs (sample_metas btc).

Section Manifests.
Variable sha256 : string -> string.

(** A manifest that passes its own [__post_init__] and holds validated specs. *)
Definition valid_manifest (m : FrozenMarketUniverseManifest) : Prop :=
  make_manifest sha256 (version m) (network m) (observed_ms m) (JStr <$> dexes m) (markets m) (sha256_of m) = Ok m
  /\ Forall spec_ok (markets m).

Lemma make_manifest_inv v n o js ms sha m :
  make_manifest sha256 v n o js ms sha = Ok m ->
  js = JStr <$> dexes m /\ v = version m /\ n = network m /\ o = observed_ms m /\ ms = markets m /\
  sha = sha256_of m /\ n ∈ MARKET_UNIVERSE_NETWORKS /\
  sorted_unique_dexes js = Ok (dexes m) /\ sorted_unique_market_specs ms = Ok ms /\
  sha = sha256 (catalog_text n (dexes m) ms).
Proof.
  unfold make_manifest. intros H.
  destruct (negb (v =? _)) eqn:Ev; [done|]. destruct (negb (bool_decide (n ∈ _))) eqn:En; [done|].
  destruct (o <=? 0) eqn:Eo; [done|]. apply bind_Ok in H as (ds & Hds & H).
  destruct (negb (jstrs_eqb js ds)) eqn:Ej; [done|]. bool_prop.
  destruct ds as [|[|c s] ds]; try done.
  apply bind_Ok in H as (ms' & Hms & H). destruct (negb (bool_decide (ms = ms'))) eqn:Em; [done|].
  apply bind_Ok in H as (ex & Hex & H). destruct (negb (bool_decide (sha = ex))) eqn:Es; [done|].
  bool_prop. subst ex ms'. injection H as <-; cbn. apply jstrs_eqb_spec in Ej.
  split_and!; try done. unfold market_catalog_fingerprint in Hex.
  apply bind_Ok in Hex as (n' & Hn' & Hex). rewrite Hds, Hms in Hex. cbn in Hex. injection Hex as <-.
  f_equal. f_equal. unfold canonical_network in Hn'.
  unfold MARKET_UNIVERSE_NETWORKS in En. rewrite !elem_of_cons, elem_of_nil in En.
  by destruct En as [->|[->|[]]]; vm_compute in Hn'; injection Hn' as <-.
Qed.

Lemma make_manifest_valid v n o js ms sha m :
  make_manifest sha256 v n o js ms sha = Ok m -> Forall spec_ok ms -> valid_manifest m.
Proof.
  intros H Hok. pose proof H as (-> & -> & -> & -> & -> & -> & _)%make_manifest_inv. by split.
Qed.

Lemma specs_roundtrip ms :
  Forall spec_ok ms -> map_res spec_from_payload (spec_to_payload <$> ms) = Ok ms.
Proof.
  induction 1 as [|[s z] ms Hm _ IH]; [done|].
  assert (spec_from_payload (spec_to_payload (MkSpec s z)) = Ok (MkSpec s z)) as E by exact Hm.
  cbn [fmap list_fmap map_res]. by rewrite E, IH.
Qed.

Lemma manifest_roundtrip m :
  valid_manifest m -> manifest_from_payload sha256 (manifest_to_payload m) = Ok m.
Proof.
  intros [Hm Hok]. unfold manifest_from_payload, manifest_to_payload.
  change (obj_field "markets" _) with (JList (spec_to_payload <$> markets m)).
  cbv beta iota. rewrite specs_roundtrip by done.
  change (obj_field "dexes" _) with (JList (JStr <$> dexes m)).
  change (obj_field "version" _) with (JInt (version m)).
  change (obj_field "network" _) with (JStr (network m)).
  change (obj_field "observed_ms" _) with (JInt (observed_ms m)).
  change (obj_field "sha256" _) with (JStr (sha256_of m)).
  change (obj_field "symbols" _) with (JList (JStr <$> symbols m)).
  cbv beta iota. unfold mbind, res_bind. rewrite Hm.
  by rewrite (proj2 (jstrs_eqb_spec _ _) eq_refl).
Qed.

(** The launch catalog is exact and durable: a manifest built from the two
    info responses lists a market with a precision exactly when that market is an
    active entry of the meta response of its DEX and carries that [szDecimals];
    no symbol appears twice, the DEXes are those of the response, and the
    manifest survives its own serialisation and revalidation. *)
Theorem built_manifest_exact (net : json) (ms : Z) (p1 p2 : json) (m : FrozenMarketUniverseManifest) :
  build_frozen_market_universe_manifest sha256 net ms p1 p2 = Ok m ->
  exists names metas, perp_dex_names p1 = Ok names /\ p2 = JList metas /\
    dexes m ≡ₚ names /\ NoDup (symbols m) /\
    (forall s z, MkSpec s z ∈ markets m <-> traded names metas s z) /\
    manifest_from_payload sha256 (manifest_to_payload m) = Ok m.
Proof.
  unfold build_frozen_market_universe_manifest. intros (n & Hn & H)%bind_Ok.
  destruct (ms <=? 0); [done|]. apply bind_Ok in H as (names & Hnames & H).
  destruct p2 as [| | | | |[|m0 metas]|]; try done. cbv beta iota in H.
  destruct (negb _); [done|]. apply bind_Ok in H as (mk & Hmk & H).
  apply bind_Ok in H as (ds & Hds & H). apply bind_Ok in H as (fm & Hfm & H).
  apply bind_Ok in H as (sha & Hsha & H).
  apply meta_fold in Hmk as (Hok & Hnd & Hin).
  apply sorted_unique_dexes_spec in Hds as (raw & Eraw & _ & Hp & _).
  apply sorted_unique_market_specs_spec in Hfm as (_ & Hpm & _).
  assert (Forall spec_ok fm) as Hokf by by rewrite Hpm.
  pose proof (make_manifest_valid _ _ _ _ _ _ _ H Hokf) as Hv.
  pose proof H as (Ed & _ & _ & _ & Em & _)%make_manifest_inv.
  apply jstrs_inj in Ed. apply jstrs_inj in Eraw. subst raw ds fm.
  exists names, (m0 :: metas). split_and!; [done|done|done| | |by apply manifest_roundtrip].
  - unfold symbols. by rewrite Hpm.
  - intros s z. by rewrite Hpm.
Qed.
End Manifests.

(** * The catalog text determines the catalog *)

Lemma cons_inv {A} (x : A) l l' : x :: l = x :: l' -> l = l'.
Proof. by injection 1. Qed.

Section Encoding.
Context {A : Type} (f : A -> chars) (P : A -> Prop).
Hypothesis f_inj : forall x y r r', P x -> P y -> f x ++ r = f y ++ r' -> x = y /\ r = r'.
Hypothesis f_head : forall x, exists c t, f x = c :: t /\ c <> "]"%char.

Lemma comma_sep_cons x l :
  comma_sep (f <$> (x :: l)) = f x ++ match l with [] => [] | _ => ","%char :: comma_sep (f <$> l) end.
Proof. destruct l; cbn; [by rewrite app_nil_r|done]. Qed.

Lemma comma_sep_inj l l' r r' :
  Forall P l -> Forall P l' ->
  comma_sep (f <$> l) ++ "]"%char :: r = comma_sep (f <$> l') ++ "]"%char :: r' -> l = l' /\ r = r'.
Proof.
  intros Hl. revert l'. induction Hl as [|x l Hx Hl IH]; intros [|y l'] Hl' H.
  - by injection H.
  - exfalso. destruct (f_head y) as (c & t & E & Hc). rewrite comma_sep_cons, E in H. by injection H.
  - exfalso. destruct (f_head x) as (c & t & E & Hc). rewrite comma_sep_cons, E in H. by injection H.
  - apply list.Forall_cons in Hl' as [Hy Hl']. rewrite !comma_sep_cons, <- !(assoc_L (++)) in H.
    apply f_inj in H as [-> H]; [|done|done].
    destruct l as [|x2 l], l' as [|y2 l']; try done; [by injection H as ->|].
    apply cons_inv in H. apply IH in H as [-> ->]; done.
Qed.
End Encoding.

Definition quotable (s : string) : Prop := Forall (fun c => c <> quote_char) (to_chars s).

Lemma plain_quotable s : Forall (fun c => plain c = true) (to_chars s) -> quotable s.
Proof. intros H. eapply list.Forall_impl; [exact H|]. intros c Hc. cbn. apply (plain_spec c Hc). Qed.

Lemma quoted_inj a b r r' :
  quotable a -> quotable b -> quoted a ++ r = quoted b ++ r' -> a = b /\ r = r'.
Proof.
  unfold quotable, quoted. intros Ha Hb H. injection H as H. rewrite <- !(assoc_L (++)) in H. cbn [app] in H.
  assert (to_chars a = to_chars b /\ r = r') as [E ->].
  { revert Hb H. generalize (to_chars b). induction Ha as [|c l Hc _ IH]; intros l' Hl' H.
    - destruct Hl' as [|c l' Hc]; [by injection H|]. injection H as <- _. done.
    - destruct Hl' as [|c' l' Hc' Hl'].
      + injection H as -> _. done.
      + injection H as <- H. by apply IH in H as [-> ->]. }
  split; [|done]. by rewrite <- (of_to_chars a), E, of_to_chars.
Qed.

Lemma str_of_Z_inj a b c r r' :
  0 <= a -> 0 <= b -> is_digit c = false ->
  to_chars (str_of_Z a) ++ c :: r = to_chars (str_of_Z b) ++ c :: r' -> a = b /\ r = r'.
Proof.
  intros Ha Hb Hc. unfold str_of_Z. rewrite !(proj2 (Z.ltb_ge _ _)), !to_of_chars by lia. cbn [app]. intros H.
  destruct (digits_of_spec (Z.abs_N a)) as (_ & _ & Hra).
  destruct (digits_of_spec (Z.abs_N b)) as (_ & _ & Hrb).
  specialize (Hra (c :: r) 0%N Hc). specialize (Hrb (c :: r') 0%N Hc). rewrite H, Hrb in Hra.
  injection Hra as Hv _ Hr. split; [lia|done].
Qed.

Definition spec_quotable (m : FrozenMarketSpec) : Prop := quotable (symbol m) /\ 0 <= sz_decimals m.

Lemma spec_text_app m r :
  spec_text m ++ r =
  ("{"%char :: quoted "symbol" ++ [":"%char]) ++ quoted (symbol m) ++
  (","%char :: quoted "sz_decimals" ++ [":"%char]) ++ to_chars (str_of_Z (sz_decimals m)) ++ "}"%char :: r.
Proof. unfold spec_text. cbn [app]. f_equal. do 4 (rewrite <- ?(assoc_L (++)); cbn [app]). reflexivity. Qed.

Lemma spec_text_inj x y r r' :
  spec_quotable x -> spec_quotable y -> spec_text x ++ r = spec_text y ++ r' -> x = y /\ r = r'.
Proof.
  destruct x as [s z], y as [s' z']. intros [Hs Hz] [Hs' Hz']. rewrite !spec_text_app.
  intros H%app_inv_head. apply quoted_inj in H as [E H]; [|done|done]. apply app_inv_head in H.
  apply str_of_Z_inj in H as [E' ->]; [|done..]. cbn [symbol sz_decimals] in E, E'. by subst.
Qed.

Lemma catalog_text_chars n ds ms :
  to_chars (catalog_text n ds ms) =
  ("{"%char :: quoted "dexes" ++ [":"%char; "["%char]) ++ comma_sep (quoted <$> ds) ++ "]"%char ::
  (","%char :: quoted "markets" ++ [":"%char; "["%char]) ++ comma_sep (spec_text <$> ms) ++ "]"%char ::
  (","%char :: quoted "network" ++ [":"%char]) ++ quoted n ++
  (","%char :: quoted "version" ++ ":"%char :: to_chars (str_of_Z MARKET_UNIVERSE_MANIFEST_VERSION) ++ ["}"%char]).
Proof. unfold catalog_text. rewrite to_of_chars. reflexivity. Qed.

Lemma catalog_text_inj n n' ds ds' ms ms' :
  quotable n -> quotable n' -> Forall quotable ds -> Forall quotable ds' ->
  Forall spec_quotable ms -> Forall spec_quotable ms' ->
  catalog_text n ds ms = catalog_text n' ds' ms' -> n = n' /\ ds = ds' /\ ms = ms'.
Proof.
  intros Hn Hn' Hd Hd' Hm Hm' H. apply (f_equal to_chars) in H. rewrite !catalog_text_chars in H.
  apply app_inv_head in H.
  apply (comma_sep_inj quoted quotable) in H as [-> H]; [|apply quoted_inj|by eexists _, _|done|done].
  apply app_inv_head in H.
  apply (comma_sep_inj spec_text spec_quotable) in H as [-> H];
    [|apply spec_text_inj|by eexists _, _|done|done].
  apply app_inv_head in H. apply quoted_inj in H as [-> _]; done.
Qed.

(** * Drift *)

Lemma spec_ok_quotable m : spec_ok m -> spec_quotable m.
Proof.
  intros (_ & Hc & Hz)%make_spec_Ok. split; [|lia].
  apply is_canonical_inv in Hc as (i & [Ha _ Hd] & ->).
  apply component_plain in Ha as [_ Ha%plain_quotable]. unfold quotable, canonical.
  destruct (dex i) as [d|]; [|done]. specialize (Hd d eq_refl).
  apply component_plain in Hd as [_ Hd%plain_quotable]. rewrite to_chars_app.
  apply Forall_app. split; [done|]. rewrite to_chars_app. by constructor.
Qed.

Lemma spec_ok_key m : spec_ok m -> exists k, symbol_sort_key (symbol m) = Ok k /\ k.2.2 = symbol m.
Proof.
  intros (_ & Hc & _)%make_spec_Ok. apply is_canonical_inv in Hc as (i & Hi & E).
  unfold symbol_sort_key. rewrite E, market_dex_of by done. cbn. by eexists.
Qed.

Lemma precision_of_get ms s z :
  NoDup (symbol <$> ms) -> dict_get s (precision_of ms) = Some z <-> MkSpec s z ∈ ms.
Proof.
  unfold precision_of. intros Hnd.
  assert (forall d : dict Z, (forall m, m ∈ ms -> dict_get (symbol m) d = None) ->
    dict_get s (fold_left (fun d m => dict_set (symbol m) (sz_decimals m) d) ms d) = Some z <->
    MkSpec s z ∈ ms \/ dict_get s d = Some z) as H.
  { induction ms as [|[s' z'] ms IH]; intros d Hd; cbn [fold_left symbol sz_decimals]; [set_solver|].
    cbn in Hnd. apply list.NoDup_cons in Hnd as [Hni Hnd].
    assert (s' ∉ dict_keys d) as Hs' by (apply dict_get_None, (Hd (MkSpec s' z')); by left).
    rewrite IH; [|done|].
    - rewrite elem_of_cons. destruct (decide (s' = s)) as [->|Hne].
      + rewrite dict_get_set_eq. apply dict_get_None in Hs'. split.
        * intros [?|[= ->]]; auto.
        * intros [[[= ->]|?]|?]; [auto|auto|congruence].
      + rewrite dict_get_set_ne by done. split; [tauto|]. intros [[[= -> ->]|?]|?]; auto. done.
    - intros m Hm. rewrite dict_get_set_ne; [apply Hd; by right|]. intros ->. apply Hni.
      by apply (list_elem_of_fmap_2 symbol). }
  rewrite H; [|done]. cbn. split; [by intros [?|?]|auto].
Qed.

Lemma precision_of_key ms s :
  NoDup (symbol <$> ms) -> s ∈ dict_keys (precision_of ms) <-> s ∈ symbol <$> ms.
Proof.
  intros Hnd. destruct (dict_get s (precision_of ms)) as [z|] eqn:E.
  - split; intros _.
    + apply precision_of_get in E; [|done]. by apply (list_elem_of_fmap_2 symbol) in E.
    + apply dict_get_Some_in in E. by apply (list_elem_of_fmap_2 fst) in E.
  - pose proof (proj1 (dict_get_None s _) E) as Hn. split; [done|].
    intros ([s' z] & -> & Hin)%list_elem_of_fmap. cbn in *.
    apply precision_of_get in Hin; [|done]. congruence.
Qed.

Lemma elem_of_set_difference x l r : x ∈ set_difference l r <-> x ∈ l /\ x ∉ r.
Proof. unfold set_difference. rewrite list_elem_of_filter, elem_of_remove_dups. tauto. Qed.

Section DriftFacts.
Variable sha256 : string -> string.
Implicit Types m e o : FrozenMarketUniverseManifest.

(** What validation gives, in the form the comparison needs. *)
Record catalog_facts m : Prop := {
  cf_network : quotable (network m);
  cf_dexes : NoDup (dexes m);
  cf_dexes_sorted : Sorted (fun a b => dex_key_leb (dex_sort_key a) (dex_sort_key b) = true) (dexes m);
  cf_dexes_quotable : Forall quotable (dexes m);
  cf_symbols : NoDup (symbols m);
  cf_markets : Forall spec_ok (markets m);
  cf_sorted : Sorted (fun a b => key_leb symbol_key_leb market_sort_key a b = true) (markets m);
  cf_sha : sha256_of m = sha256 (catalog_text (network m) (dexes m) (markets m));
}.

Lemma valid_facts m : valid_manifest sha256 m -> catalog_facts m.
Proof.
  intros [H Hok]. pose proof H as (_ & _ & _ & _ & _ & _ & Hn & Hd & Hm & Hs)%make_manifest_inv.
  apply sorted_unique_dexes_spec in Hd as (raw & _ & Hnd & Hp & Hv & Hds).
  apply sorted_unique_market_specs_spec in Hm as (Hns & _ & _ & Hms).
  split; try done.
  - unfold MARKET_UNIVERSE_NETWORKS in Hn. rewrite !elem_of_cons, elem_of_nil in Hn.
    by destruct Hn as [->|[->|[]]]; repeat constructor.
  - by rewrite Hp.
  - rewrite Hp. eapply list.Forall_impl; [exact Hv|]. intros d [->|Hd]; [constructor|].
    apply component_plain in Hd as [_ Hd]. by apply plain_quotable.
Qed.

Lemma same_dexes e o :
  catalog_facts e -> catalog_facts o ->
  (forall d, d ∈ dexes e <-> d ∈ dexes o) -> dexes e = dexes o.
Proof.
  intros He Ho H.
  assert (BoolOrder (fun a b => dex_key_leb (dex_sort_key a) (dex_sort_key b))) as Hb
    by (refine (order_on dex_sort_key dex_key_leb _); intros x y Hxy; unfold dex_sort_key in Hxy; congruence).
  apply (sorted_unique (fun a b => dex_key_leb (dex_sort_key a) (dex_sort_key b)));
    [apply He|apply Ho|]. apply NoDup_Permutation; [apply He|apply Ho|done].
Qed.

Lemma same_markets e o :
  catalog_facts e -> catalog_facts o ->
  (forall s z, MkSpec s z ∈ markets e <-> MkSpec s z ∈ markets o) -> markets e = markets o.
Proof.
  intros He Ho H. apply (key_sorted_unique symbol_key_leb market_sort_key);
    [apply He|apply Ho| |].
  - intros x y Hx Hy Hk. pose proof (cf_markets _ He) as Hok. rewrite list.Forall_forall in Hok.
    destruct (spec_ok_key _ (Hok _ Hx)) as (kx & Ex & Sx), (spec_ok_key _ (Hok _ Hy)) as (ky & Ey & Sy).
    unfold market_sort_key in Hk. rewrite Ex, Ey in Hk. injection Hk as ->.
    assert (symbol x = symbol y) as E by congruence.
    pose proof (cf_symbols _ He) as Hnd. destruct x as [s z], y as [s' z']; cbn in *. subst s'.
    apply (precision_of_get (markets e)) in Hx, Hy; [|done..]. congruence.
  - apply NoDup_Permutation; [eapply NoDup_fmap_1, He|eapply NoDup_fmap_1, Ho|]. intros [s z]. apply H.
Qed.

Lemma empty_drift_markets e o :
  catalog_facts e -> catalog_facts o ->
  (forall s, s ∈ symbols e -> s ∈ symbols o) -> (forall s, s ∈ symbols o -> s ∈ symbols e) ->
  (forall s a b, MkSpec s a ∈ markets e -> MkSpec s b ∈ markets o -> a = b) ->
  markets e = markets o.
Proof.
  intros He Ho H1 H2 H3. apply same_markets; [done|done|]. intros s z.
  assert (forall ms : list FrozenMarketSpec, s ∈ symbol <$> ms -> exists b, MkSpec s b ∈ ms) as Hspec.
  { intros ms ([s' b] & -> & ?)%list_elem_of_fmap. by exists b. }
  split; intros Hs; pose proof Hs as Hs'%(list_elem_of_fmap_2 symbol).
  - apply H1, Hspec in Hs' as [b Hb]. by rewrite (H3 _ _ _ Hs Hb).
  - apply H2, Hspec in Hs' as [a Ha]. by rewrite <- (H3 _ _ _ Ha Hs).
Qed.

(** The sorted differences exist: every symbol of a validated catalog has a key. *)
Lemma symbols_keyed m l :
  catalog_facts m -> (forall s, s ∈ l -> s ∈ symbols m) ->
  Forall (fun s => is_ok (symbol_sort_key s) = true) l.
Proof.
  intros Hm Hl. apply list.Forall_forall. intros s Hs.
  apply Hl, list_elem_of_fmap in Hs as (x & -> & Hx). pose proof (cf_markets _ Hm) as Hok.
  rewrite list.Forall_forall in Hok. destruct (spec_ok_key _ (Hok _ Hx)) as (k & -> & _). done.
Qed.

Lemma sorted_symbol_difference_spec l r m :
  catalog_facts m -> (forall s, s ∈ l -> s ∈ symbols m) ->
  exists d, sorted_symbol_difference l r = Ok d /\ forall s, s ∈ d <-> s ∈ l /\ s ∉ r.
Proof.
  intros Hm Hl.
  destruct (sorted_key_ok symbol_key_leb symbol_sort_key (set_difference l r)) as (d & Hd).
  { apply (symbols_keyed m); [done|]. intros s [Hs _]%elem_of_set_difference. auto. }
  exists d. split; [done|]. intros s. apply (sorted_key_spec _ _) in Hd as (Hp & _). rewrite Hp.
  apply elem_of_set_difference.
Qed.

(** The comparison, read as sets. *)
Lemma compare_spec e o :
  catalog_facts e -> catalog_facts o ->
  exists d, compare_market_universes e o = Ok d /\
    expected_sha256 d = sha256_of e /\ observed_sha256 d = sha256_of o /\
    (forall s, s ∈ added_dexes d <-> s ∈ dexes o /\ s ∉ dexes e) /\
    (forall s, s ∈ removed_dexes d <-> s ∈ dexes e /\ s ∉ dexes o) /\
    (forall s, s ∈ added_symbols d <-> s ∈ symbols o /\ s ∉ symbols e) /\
    (forall s, s ∈ removed_symbols d <-> s ∈ symbols e /\ s ∉ symbols o) /\
    (forall s a b, MkPrecisionDrift s a b ∈ precision_changes d <->
       MkSpec s a ∈ markets e /\ MkSpec s b ∈ markets o /\ a <> b).
Proof.
  intros He Ho. pose proof (cf_symbols _ He) as Hne. pose proof (cf_symbols _ Ho) as Hno.
  unfold compare_market_universes.
  destruct (sorted_key_ok symbol_key_leb symbol_sort_key
    (filter (fun s => s ∈ dict_keys (precision_of (markets o))) (dict_keys (precision_of (markets e)))))
    as (common & Hc).
  { apply (symbols_keyed e); [done|]. intros s [_ Hs]%list_elem_of_filter.
    by apply precision_of_key in Hs. }
  rewrite Hc. cbn [mbind res_bind].
  destruct (sorted_symbol_difference_spec (symbols o) (symbols e) o Ho) as (ad & -> & Had); [done|].
  destruct (sorted_symbol_difference_spec (symbols e) (symbols o) e He) as (rm & -> & Hrm); [done|].
  eexists. split; [done|]. cbn. split_and!; try done; try (intros s; unfold sorted_set_difference, dex_sorted;
    rewrite elem_of_py_sorted; apply elem_of_set_difference).
  intros s a b. rewrite list_elem_of_omap.
  apply (sorted_key_spec _ _) in Hc as (Hp & _).
  rewrite <- !precision_of_get by done. split.
  - intros (s' & _ & H). destruct (dict_get s' (precision_of (markets e))) as [ze|] eqn:Ee; [|done].
    destruct (dict_get s' (precision_of (markets o))) as [zo|] eqn:Eo; [|done].
    destruct (ze =? zo) eqn:Ez; [done|]. bool_prop. injection H as -> -> ->. done.
  - intros (Ha & Hb & Hab). exists s. rewrite Ha, Hb. rewrite (proj2 (Z.eqb_neq a b) Hab).
    split; [|done]. rewrite Hp, list_elem_of_filter.
    apply dict_get_Some_in, (list_elem_of_fmap_2 fst) in Ha, Hb. done.
Qed.

(** Drift detection is exact: for two validated manifests the comparison
    never raises, the added and removed DEXes and symbols and the precision
    changes are the set differences of the two catalogs, and, unless the digest
    collides on these two catalogs, [changed] is false exactly when the networks
    agree and every reported difference is empty. *)
Theorem drift_exact e o :
  valid_manifest sha256 e -> valid_manifest sha256 o ->
  let text m := catalog_text (network m) (dexes m) (markets m) in
  (sha256 (text e) = sha256 (text o) -> text e = text o) ->
  exists d, compare_market_universes e o = Ok d /\
    (forall s, s ∈ added_symbols d <-> s ∈ symbols o /\ s ∉ symbols e) /\
    (forall s, s ∈ removed_symbols d <-> s ∈ symbols e /\ s ∉ symbols o) /\
    (forall s a b, MkPrecisionDrift s a b ∈ precision_changes d <->
       MkSpec s a ∈ markets e /\ MkSpec s b ∈ markets o /\ a <> b) /\
    (changed d = false <->
       network e = network o /\ added_dexes d = [] /\ removed_dexes d = [] /\
       added_symbols d = [] /\ removed_symbols d = [] /\ precision_changes d = []).
Proof.
  intros He%valid_facts Ho%valid_facts text Hcol.
  destruct (compare_spec e o He Ho) as (d & Hd & Ee & Eo & Had & Hrd & Has & Hrs & Hpc).
  exists d. split_and!; [done..|]. unfold changed. rewrite negb_false_iff, bool_decide_eq_true, Ee, Eo.
  rewrite (cf_sha _ He), (cf_sha _ Ho). split.
  - intros Ht%Hcol. unfold text in Ht.
    apply catalog_text_inj in Ht as (Hn & Hds & Hms);
      [|apply He|apply Ho|apply He|apply Ho
       |eapply list.Forall_impl; [apply He|apply spec_ok_quotable]
       |eapply list.Forall_impl; [apply Ho|apply spec_ok_quotable]].
    split_and!; [done|..]; apply elem_of_nil_inv; intros x Hx.
    + apply Had in Hx as [? []]. by rewrite Hds.
    + apply Hrd in Hx as [? []]. by rewrite <- Hds.
    + apply Has in Hx as [? []]. unfold symbols. by rewrite Hms.
    + apply Hrs in Hx as [? []]. unfold symbols. by rewrite <- Hms.
    + destruct x as [s a b]. apply Hpc in Hx as (Ha & Hb & []). rewrite Hms in Ha.
      pose proof (cf_symbols _ Ho) as Hnd. apply precision_of_get in Ha, Hb; [|done..]. congruence.
  - intros (Hn & E1 & E2 & E3 & E4 & E5).
    rewrite E1 in Had. rewrite E2 in Hrd. rewrite E3 in Has. rewrite E4 in Hrs. rewrite E5 in Hpc.
    assert (forall (l l' : list string), (forall s, s ∈ [] <-> s ∈ l /\ s ∉ l') -> forall s, s ∈ l -> s ∈ l') as Hsub.
    { intros l l' H s Hs. destruct (decide (s ∈ l')); [done|].
      exfalso. apply (not_elem_of_nil s). apply H. done. }
    assert (dexes e = dexes o) as Hds by (apply same_dexes; [done..|]; intros x; split; by apply Hsub).
    assert (markets e = markets o) as Hms.
    { apply empty_drift_markets; [done|done|by apply Hsub|by apply Hsub|].
      intros s a b Ha Hb. destruct (decide (a = b)); [done|].
      exfalso. apply (not_elem_of_nil (MkPrecisionDrift s a b)). by apply Hpc. }
    by rewrite Hms, Hds, Hn.
Qed.
End DriftFacts.

Lemma built_manifest_exact_witness :
  exists m, sample_manifest 5 = Ok m /\
  exists names metas, perp_dex_names sample_dexs = Ok names /\ sample_metas 5 = JList metas /\
    dexes m ≡ₚ names /\ NoDup (symbols m) /\
    (forall s z, MkSpec s z ∈ markets m <-> traded names metas s z) /\
    manifest_from_payload (fun t => t) (manifest_to_payload m) = Ok m.
Proof.
  destruct (sample_manifest 5) as [m|] eqn:E; [|by vm_compute in E].
  exists m. split; [done|].
  exact (built_manifest_exact (fun t => t) (JStr "mainnet") 1000 sample_dexs (sample_metas 5) m E).
Defined.

Definition sample_specs (btc : Z) : list FrozenMarketSpec :=
  [MkSpec "BTC" btc; MkSpec "ETH" 4; MkSpec "xyz:AAPL" 2].
Definition sample (btc : Z) : FrozenMarketUniverseManifest :=
  MkManifest 1 "mainnet" 1000 [""; "xyz"] (sample_specs btc)
    (catalog_text "mainnet" [""; "xyz"] (sample_specs btc)).

Lemma drift_exact_witness :
  exists d, compare_market_universes (sample 5) (sample 3) = Ok d /\ changed d = true /\
    precision_changes d = [MkPrecisionDrift "BTC" 5 3].
Proof.
  assert (valid_manifest (fun t => t) (sample 5)) as H5 by (split; [by vm_compute|by repeat constructor]).
  assert (valid_manifest (fun t => t) (sample 3)) as H3 by (split; [by vm_compute|by repeat constructor]).
  destruct (drift_exact (fun t => t) (sample 5) (sample 3) H5 H3 (fun H => H)) as (d & Hd & _).
  exists d. split; [exact Hd|]. vm_compute in Hd. injection Hd as <-. by vm_compute.
Defined.
