(* ===== verification/OrderPreflight.v ===== *)
(** order_preflight.py: local admission of one perpetual order.

    The quantities the function tests with [is_finite()] are [pydec]; the venue
    rules carry finite numbers.  The argument of [_result] that the code deletes
    at once is not passed.  A leverage is an integer here, so the tests that
    exclude a boolean leverage are not written. *)

From S2P Require Import Prelude PyDecimal DecimalFacts PyText Models Precision.
From Stdlib Require Import QArith Qabs Lqa.

Open Scope Z_scope.

Definition HYPERLIQUID_PERP_MIN_NOTIONAL_USD : dec := dint 10.

Inductive OrderEligibility := PLACEABLE | PLACEABLE_AFTER_ROUNDING | REJECTED.

#[export] Instance OrderEligibility_eq_dec : EqDecision OrderEligibility.
Proof. solve_decision. Defined.

Record HyperliquidPerpRules := MkRules {
  r_market : string;
  r_sz_decimals : Z;
  r_max_leverage : Z;
  r_minimum_notional_usd : dec;
  r_contract_size : dec;
  r_market_type : string;
  r_margin_mode : string;
}.

(** The rule object with the defaults of its class. *)
Definition perp_rules (market : string) (sz_decimals max_leverage : Z) : HyperliquidPerpRules :=
  MkRules market sz_decimals max_leverage HYPERLIQUID_PERP_MIN_NOTIONAL_USD (dint 1) "perp" "unknown".

Definition quantity_step (rules : HyperliquidPerpRules) : dec := dscale1 (- r_sz_decimals rules).

Record OrderPreflightResult := MkPreflight {
  eligibility : OrderEligibility;
  pf_market : string;
  pf_market_type : string;
  pf_side : string;
  requested_quantity : pydec;
  requested_notional_usd : pydec;
  requested_price : pydec;
  rounded_quantity : dec;
  rounded_price : pydec;
  submitted_notional_usd : pydec;
  pf_quantity_step : dec;
  minimum_notional_usd : dec;
  required_margin_usd : option dec;
  available_collateral_usd : option pydec;
  pf_leverage : option Z;
  pf_margin_mode : string;
  pf_reduce_only : bool;
  exact_reduce_only_close : bool;
  pf_reason : string;
}.

Definition placeable (r : OrderPreflightResult) : bool :=
  negb (bool_decide (eligibility r = REJECTED)).

Definition is_buy_or_sell (side : string) : bool := bool_decide (side = "buy" \/ side = "sell").

Definition is_exact_reduce_only_close (side : string) (reduce_only : bool) (rounded_quantity : dec)
    (current_position_size : pydec) : bool :=
  match current_position_size with
  | Fin cur =>
      if negb reduce_only || negb (is_buy_or_sell side) || dleb rounded_quantity dzero || deqb cur dzero
      then false
      else
        let signed_quantity := if bool_decide (side = "buy") then rounded_quantity else dopp rounded_quantity in
        deqb (dadd cur signed_quantity) dzero
  | _ => false
  end.

Section Preflight.
Variables (rules : HyperliquidPerpRules) (requested price : pydec) (reduce_only : bool)
  (current_position_size : pydec) (leverage : option Z) (collateral : option pydec).

Definition is_spot : bool := bool_decide (r_market_type rules = "spot").

(** [try: quantize_price(...) except ValueError: pass], starting from NaN. *)
Definition result_price : res pydec :=
  match price with
  | Fin p =>
      if dpos p
      then catch (Fin <$> quantize_price price (r_sz_decimals rules) is_spot) is_value_error
             (fun _ => Ok NaN)
      else Ok NaN
  | _ => Ok NaN
  end.

Definition result_margin (submitted : pydec) : res (option dec) :=
  match leverage, submitted with
  | Some l, Fin n =>
      if negb reduce_only && (0 <? l) then Some <$> ddiv n (dint l)
      else Ok (if reduce_only then Some dzero else None)
  | _, _ => Ok (if reduce_only then Some dzero else None)
  end.

(** [_result] *)
Definition preflight_result (side : string) (status : OrderEligibility) (rounded_quantity : dec)
    (reason : string) : res OrderPreflightResult :=
  rounded_price ← result_price;
  let requested_notional :=
    match requested, price with
    | Fin q, Fin p => Fin (dmul (dmul (dabs q) (r_contract_size rules)) p)
    | _, _ => NaN
    end in
  let submitted_notional :=
    match rounded_price with
    | Fin rp => Fin (dmul (dmul (dabs rounded_quantity) (r_contract_size rules)) rp)
    | _ => NaN
    end in
  let exact_close := is_exact_reduce_only_close side reduce_only rounded_quantity current_position_size in
  required_margin ← result_margin submitted_notional;
  Ok {|
    eligibility := status;
    pf_market := r_market rules;
    pf_market_type := r_market_type rules;
    pf_side := side;
    requested_quantity := requested;
    requested_notional_usd := requested_notional;
    requested_price := price;
    rounded_quantity := rounded_quantity;
    rounded_price := rounded_price;
    submitted_notional_usd := submitted_notional;
    pf_quantity_step := quantity_step rules;
    minimum_notional_usd := r_minimum_notional_usd rules;
    required_margin_usd := required_margin;
    available_collateral_usd := collateral;
    pf_leverage := leverage;
    pf_margin_mode := r_margin_mode rules;
    pf_reduce_only := reduce_only;
    exact_reduce_only_close := exact_close;
    pf_reason := reason;
  |}.

(** What the margin test of a risk-increasing order answers: the required
    margin, or the reason of the rejection. *)
Definition check_margin (submitted_notional : dec) : res (option dec + string) :=
  match leverage with
  | Some l =>
      if negb reduce_only then
        if (l <? 1) || (r_max_leverage rules <? l)
        then Ok (inr ("leverage " +:+ str_of_Z l +:+ " is outside venue range 1.." +:+ str_of_Z (r_max_leverage rules)))
        else
          required_margin ← ddiv submitted_notional (dint l);
          match collateral with
          | Some (Fin c) =>
              if dltb c required_margin
              then Ok (inr ("estimated required margin " +:+ dec_str required_margin +:+
                            " USD exceeds available collateral " +:+ dec_str c +:+ " USD"))
              else Ok (inl (Some required_margin))
          | _ => Ok (inl (Some required_margin))
          end
      else Ok (inl None)
  | None => Ok (inl None)
  end.

(** The text of a placeable result. *)
Definition placeable_reason (q p rounded rounded_price submitted_notional : dec) (exact_close : bool)
    (required_margin : option dec) : string :=
  let estimate :=
    "estimated initial margin is " +:+ match required_margin with Some m => dec_str m | None => "None" end +:+
    " USD at observed " +:+ match leverage with Some l => str_of_Z l | None => "None" end +:+
    "x leverage, but available perp collateral is not authoritative locally" in
  let no_collateral := match collateral with None => true | Some _ => false end in
  if exact_close && dltb submitted_notional (r_minimum_notional_usd rules)
  then "exact full reduce-only close is placeable under the proven runtime policy"
  else if match required_margin with None => negb reduce_only | Some _ => false end
  then "venue quantity and notional rules pass; exact margin admission remains exchange-authoritative because current leverage is unavailable"
  else if negb (deqb rounded q) || negb (deqb rounded_price p)
  then
    let changes :=
      (if deqb rounded q then [] else ["quantity toward zero to " +:+ dec_str rounded]) ++
      (if deqb rounded_price p then [] else ["price to venue precision " +:+ dec_str rounded_price]) in
    "placeable after rounding " +:+ String.concat " and " changes +:+
    (if negb reduce_only && no_collateral then "; " +:+ estimate else "")
  else if negb reduce_only && no_collateral
  then "venue quantity and notional rules pass; " +:+ estimate
  else "venue quantity, notional and available-margin checks pass".

Definition preflight_hyperliquid_perp_order (side : string) (max_order_notional_usd : pydec)
    : res OrderPreflightResult :=
  let normalized_side := py_lower (py_strip side) in
  let reject := preflight_result normalized_side REJECTED in
  if negb (is_buy_or_sell normalized_side) then reject dzero "side must be buy or sell" else
  match requested, price, max_order_notional_usd, current_position_size with
  | Fin q, Fin p, Fin cap, Fin _ =>
      if dleb q dzero || dleb p dzero || dleb cap dzero
      then reject dzero "quantity, price and order-notional cap must be positive" else
      match quantize_price price (r_sz_decimals rules) is_spot with
      | Raise (ValueError exc) => reject dzero ("price cannot be represented by venue rules: " +:+ exc)
      | Raise e => Raise e
      | Ok rounded_price =>
          rounded ← dabs <$> quantize_size requested (r_sz_decimals rules);
          if dleb rounded dzero
          then reject rounded ("requested quantity is below one venue lot (" +:+ dec_str (quantity_step rules) +:+ ")")
          else
            let submitted_notional := dmul (dmul rounded (r_contract_size rules)) rounded_price in
            let exact_close := is_exact_reduce_only_close normalized_side reduce_only rounded current_position_size in
            if dltb cap submitted_notional
            then reject rounded ("submitted notional " +:+ dec_str submitted_notional +:+
                   " USD exceeds local order cap " +:+ dec_str cap +:+ " USD")
            else if dltb submitted_notional (r_minimum_notional_usd rules) && negb exact_close
            then reject rounded ((if reduce_only then "partial reduce-only" else "risk-increasing") +:+
                   " submitted notional " +:+ dec_str submitted_notional +:+ " USD is below the " +:+
                   r_market_type rules +:+ " minimum " +:+ dec_str (r_minimum_notional_usd rules) +:+ " USD")
            else
              margin ← check_margin submitted_notional;
              match margin with
              | inr reason => reject rounded reason
              | inl required_margin =>
                  let status :=
                    if negb (deqb rounded q) || negb (deqb rounded_price p)
                    then PLACEABLE_AFTER_ROUNDING else PLACEABLE in
                  result ← preflight_result normalized_side status rounded
                    (placeable_reason q p rounded rounded_price submitted_notional exact_close required_margin);
                  match required_margin, required_margin_usd result with
                  | Some m, Some m' =>
                      if deqb m' m then Ok result
                      else Raise (AssertionError "preflight margin calculation diverged")
                  | Some _, None => Raise (AssertionError "preflight margin calculation diverged")
                  | None, _ => Ok result
                  end
              end
      end
  | _, _, _, _ => reject dzero "order inputs must be finite"
  end.
End Preflight.

(** * What the preflight decides *)

Section Decision.
Variables (rules : HyperliquidPerpRules) (q p : dec) (reduce_only : bool)
  (cur : dec) (leverage : option Z) (collateral : option pydec).
Abbreviation sz := (r_sz_decimals rules).
Abbreviation spot := (is_spot rules).

(** The notional of an order as it would be submitted. *)
Definition notional (rounded rp : dec) : dec := dmul (dmul rounded (r_contract_size rules)) rp.

Lemma preflight_result_spec side status rounded reason rp :
  (0 < dval p)%Q -> quantize_price (Fin p) sz spot = Ok rp -> dabs rounded = rounded ->
  exists r, preflight_result rules (Fin q) (Fin p) reduce_only (Fin cur) leverage collateral
              side status rounded reason = Ok r /\
    eligibility r = status /\ rounded_quantity r = rounded /\ rounded_price r = Fin rp /\
    submitted_notional_usd r = Fin (notional rounded rp) /\
    (reduce_only = false -> forall l, leverage = Some l -> 0 < l ->
       exists m, ddiv (notional rounded rp) (dint l) = Ok m /\ required_margin_usd r = Some m).
Proof.
  intros Hp Hrp Habs. unfold preflight_result, result_price.
  rewrite (proj2 (dpos_spec p) Hp), Hrp. cbn [fmap res_fmap catch mbind res_bind].
  rewrite Habs. fold (notional rounded rp).
  assert (exists rm, result_margin reduce_only leverage (Fin (notional rounded rp)) = Ok rm /\
    (reduce_only = false -> forall l, leverage = Some l -> 0 < l ->
       exists m, ddiv (notional rounded rp) (dint l) = Ok m /\ rm = Some m)) as (rm & -> & Hrm).
  { unfold result_margin. destruct leverage as [l|]; [|eexists; split; [done|by intros _ ?]].
    destruct (negb reduce_only && (0 <? l)) eqn:E; bool_prop.
    - destruct (ddiv_ok (notional rounded rp) (dint l)) as [m Hm].
      { unfold dis_zero, dint; cbn [dcoef]. apply N.eqb_neq. lia. }
      rewrite Hm. eexists. split; [done|]. intros _ l' [= <-] _. by exists m.
    - eexists. split; [done|]. intros -> l' [= <-] Hl. cbn in E. bool_prop. lia. }
  cbn [mbind res_bind]. eexists. split; [reflexivity|]. cbn. by split_and!.
Qed.

Lemma exact_close_spec side rounded :
  is_buy_or_sell side = true -> fits rounded -> (0 < dval rounded)%Q ->
  is_exact_reduce_only_close side reduce_only rounded (Fin cur) = true <->
  reduce_only = true /\
  (dval cur + (if bool_decide (side = "buy") then 1 else -1) * dval rounded == 0)%Q.
Proof.
  intros Hside Hfit Hpos. unfold is_exact_reduce_only_close. rewrite Hside.
  destruct (dleb rounded dzero) eqn:Er; [apply dleb_spec in Er; rewrite dval_zero in Er; lra|].
  destruct reduce_only; cbn [negb orb]; [|split; [done|by intros [? _]]].
  set (signed := if bool_decide (side = "buy") then rounded else dopp rounded).
  assert (dval signed == (if bool_decide (side = "buy") then 1 else -1) * dval rounded)%Q as Es.
  { unfold signed. destruct (bool_decide _); [ring|]. rewrite dopp_fits by done. ring. }
  rewrite <- Es. destruct (dadd_sign cur signed) as (_ & _ & Hz).
  destruct (deqb cur dzero) eqn:Ec.
  - apply deqb_spec in Ec. rewrite dval_zero in Ec. split; [done|]. intros [_ H].
    rewrite Es, Ec in H. destruct (bool_decide _); lra.
  - rewrite deqb_spec, dval_zero, Hz. tauto.
Qed.

Lemma check_margin_spec n :
  exists m, check_margin rules reduce_only leverage collateral n = Ok m /\
  match m with
  | inl rm =>
      (reduce_only = false -> forall l, leverage = Some l -> 1 <= l <= r_max_leverage rules /\
        exists r, ddiv n (dint l) = Ok r /\ rm = Some r /\
          forall c, collateral = Some (Fin c) -> (dval r <= dval c)%Q) /\
      (reduce_only = true \/ leverage = None -> rm = None)
  | inr _ => reduce_only = false /\ exists l, leverage = Some l /\ ~ (1 <= l <= r_max_leverage rules /\
        forall c, collateral = Some (Fin c) -> exists r, ddiv n (dint l) = Ok r /\ (dval r <= dval c)%Q)
  end.
Proof.
  unfold check_margin. destruct leverage as [l|]; [|eexists; split; [done|]; by split].
  destruct reduce_only; cbn [negb].
  { eexists. split; [done|]. by split. }
  destruct ((l <? 1) || (r_max_leverage rules <? l)) eqn:E.
  { eexists. split; [done|]. split; [done|]. exists l. split; [done|]. intros [? _].
    apply orb_true_iff in E. destruct E; bool_prop; lia. }
  bool_prop. destruct (ddiv_ok n (dint l)) as [m Hm].
  { unfold dis_zero, dint; cbn [dcoef]. apply N.eqb_neq. lia. }
  rewrite Hm. cbn [mbind res_bind].
  assert (forall rm, rm = Some m -> (forall c, collateral = Some (Fin c) -> (dval m <= dval c)%Q) ->
    (false = false -> forall l', Some l = Some l' -> 1 <= l' <= r_max_leverage rules /\
        exists r, ddiv n (dint l') = Ok r /\ rm = Some r /\
          forall c, collateral = Some (Fin c) -> (dval r <= dval c)%Q) /\
    (false = true \/ Some l = None -> rm = None)) as Hok.
  { intros rm -> Hc. split; [|by intros [?|?]]. intros _ l' [= <-]. split; [lia|]. by exists m. }
  destruct collateral as [[c| |]|]; try (eexists; split; [reflexivity|]; by apply Hok).
  destruct (dltb c m) eqn:Ec; eexists; (split; [reflexivity|]).
  - split; [done|]. exists l. split; [done|]. intros [_ Hn]. destruct (Hn c eq_refl) as (r & Hr & Hle).
    apply dltb_spec in Ec. rewrite Hm in Hr. injection Hr as <-. lra.
  - apply Hok; [done|]. intros c' [= <-]. by apply dltb_false.
Qed.
End Decision.

(** What an order must satisfy to be placed, in exact arithmetic. *)
Definition admissible (rules : HyperliquidPerpRules) (reduce_only : bool) (cur : dec)
    (leverage : option Z) (collateral : option pydec) (side : string) (cap rounded n : dec) : Prop :=
  (0 < dval rounded)%Q /\ (dval n <= dval cap)%Q /\
  ((dval (r_minimum_notional_usd rules) <= dval n)%Q \/
   (reduce_only = true /\
    (dval cur + (if bool_decide (side = "buy") then 1 else -1) * dval rounded == 0)%Q)) /\
  (reduce_only = false -> forall l, leverage = Some l -> 1 <= l <= r_max_leverage rules /\
     forall c, collateral = Some (Fin c) -> exists m, ddiv n (dint l) = Ok m /\ (dval m <= dval c)%Q).

Lemma preflight_result_eligibility rules requested price ro cur lev coll side status rounded reason r :
  preflight_result rules requested price ro cur lev coll side status rounded reason = Ok r ->
  eligibility r = status.
Proof.
  unfold preflight_result. intros (rp & _ & H)%bind_Ok. apply bind_Ok in H as (m & _ & [= <-]). done.
Qed.

Lemma rejected_not_placeable rules requested price ro cur lev coll side rounded reason r :
  preflight_result rules requested price ro cur lev coll side REJECTED rounded reason = Ok r ->
  placeable r = true -> False.
Proof. unfold placeable. by intros ->%preflight_result_eligibility. Qed.

(** What a placeable answer implies, whatever the inputs. *)
Lemma placeable_inv rules requested price ro cur lev coll side cap r :
  preflight_hyperliquid_perp_order rules requested price ro cur lev coll side cap = Ok r ->
  placeable r = true ->
  exists q capd rounded rp, requested = Fin q /\ cap = Fin capd /\ (0 < dval q)%Q /\
    (dabs <$> quantize_size requested (r_sz_decimals rules)) = Ok rounded /\ (0 < dval rounded)%Q /\
    quantize_price price (r_sz_decimals rules) (is_spot rules) = Ok rp /\
    (dval (notional rules rounded rp) <= dval capd)%Q.
Proof.
  intros H Hpl. unfold preflight_hyperliquid_perp_order in H.
  destruct (negb (is_buy_or_sell _)); [by edestruct rejected_not_placeable|].
  destruct requested as [q| |]; [|by edestruct rejected_not_placeable..].
  destruct price as [p| |]; [|by edestruct rejected_not_placeable..].
  destruct cap as [capd| |]; [|by edestruct rejected_not_placeable..].
  destruct cur as [c| |]; [|by edestruct rejected_not_placeable..].
  destruct (dleb q dzero || dleb p dzero || dleb capd dzero) eqn:Epos;
    [by edestruct rejected_not_placeable|]. bool_prop.
  destruct (quantize_price (Fin p) _ _) as [rp|[]] eqn:Erp; try done;
    [|by edestruct rejected_not_placeable].
  apply bind_Ok in H as (rounded & Hr & H).
  destruct (dleb rounded dzero) eqn:Ez; [by edestruct rejected_not_placeable|].
  destruct (dltb capd _) eqn:Ecap; [by edestruct rejected_not_placeable|].
  exists q, capd, rounded, rp. apply dleb_false in Ez. apply dltb_false in Ecap.
  split_and!; try done. by match goal with H : dleb q dzero = false |- _ => apply dleb_false in H end.
Qed.

(** A placeable order meets the venue minimum, or closes the position exactly. *)
Lemma placeable_minimum rules q price ro cur lev coll side cap r rounded rp :
  preflight_hyperliquid_perp_order rules (Fin q) price ro (Fin cur) lev coll side cap = Ok r -> placeable r = true ->
  (dabs <$> quantize_size (Fin q) (r_sz_decimals rules)) = Ok rounded ->
  quantize_price price (r_sz_decimals rules) (is_spot rules) = Ok rp ->
  (dval (r_minimum_notional_usd rules) <= dval (notional rules rounded rp))%Q \/
  (ro = true /\ (dval cur + (if bool_decide (py_lower (py_strip side) = "buy") then 1 else -1) * dval rounded == 0)%Q).
Proof.
  intros H Hpl Hr Hrp. unfold preflight_hyperliquid_perp_order in H. rewrite Hr, Hrp in H.
  destruct (is_buy_or_sell _) eqn:Hside; cbn [negb] in H; [|by edestruct rejected_not_placeable].
  destruct price as [p| |]; [|by edestruct rejected_not_placeable..].
  destruct cap as [capd| |]; [|by edestruct rejected_not_placeable..].
  destruct (_ || _ || _); [by edestruct rejected_not_placeable|]. cbn [mbind res_bind] in H.
  destruct (dleb rounded dzero) eqn:Ez; [by edestruct rejected_not_placeable|].
  apply dleb_false in Ez. rewrite dval_zero in Ez.
  destruct (dltb capd _); [by edestruct rejected_not_placeable|].
  destruct (dltb _ (r_minimum_notional_usd rules) && _) eqn:Emin; [by edestruct rejected_not_placeable|].
  apply andb_false_iff in Emin as [E|E]; [left; by apply dltb_false|right]. apply negb_false_iff in E.
  apply exact_close_spec in E; [done|done| |done].
  apply fmap_Ok in Hr as (x & _ & ->). apply dabs_is_fits.
Qed.

Section Outcome.
Variables (rules : HyperliquidPerpRules) (q p cap cur rounded rp : dec) (reduce_only : bool)
  (leverage : option Z) (collateral : option pydec) (side : string).
Abbreviation n := (notional rules rounded rp).
Abbreviation result := (preflight_result rules (Fin q) (Fin p) reduce_only (Fin cur) leverage collateral side).
Hypotheses (Hp : (0 < dval p)%Q) (Habs : dabs rounded = rounded)
  (Hrp : quantize_price (Fin p) (r_sz_decimals rules) (is_spot rules) = Ok rp).

(** The answer [m] describes this order and says whether it is admissible. *)
Definition outcome (m : res OrderPreflightResult) : Prop :=
  exists r, m = Ok r /\ rounded_quantity r = rounded /\ rounded_price r = Fin rp /\
    submitted_notional_usd r = Fin n /\
    (placeable r = true <-> admissible rules reduce_only cur leverage collateral side cap rounded n).

Lemma reject_outcome reason :
  ~ admissible rules reduce_only cur leverage collateral side cap rounded n ->
  outcome (result REJECTED rounded reason).
Proof.
  intros Hno. destruct (preflight_result_spec rules q p reduce_only cur leverage collateral
    side REJECTED rounded reason rp Hp Hrp Habs) as (r & Hr & Est & Eq & Epx & En & _).
  exists r. split_and!; try done. unfold placeable. rewrite Est. split; [done|]. by intros ?%Hno.
Qed.

(** The tests after the whole lot, the cap and the minimum. *)
Lemma margin_outcome status reason :
  status <> REJECTED ->
  (0 < dval rounded)%Q -> (dval n <= dval cap)%Q ->
  ((dval (r_minimum_notional_usd rules) <= dval n)%Q \/
   (reduce_only = true /\
    (dval cur + (if bool_decide (side = "buy") then 1 else -1) * dval rounded == 0)%Q)) ->
  outcome (margin ← check_margin rules reduce_only leverage collateral n;
    match margin with
    | inr why => result REJECTED rounded why
    | inl required_margin =>
        r ← result status rounded (reason required_margin);
        match required_margin, required_margin_usd r with
        | Some m, Some m' =>
            if deqb m' m then Ok r else Raise (AssertionError "preflight margin calculation diverged")
        | Some _, None => Raise (AssertionError "preflight margin calculation diverged")
        | None, _ => Ok r
        end
    end).
Proof.
  intros Hst Hpos Hcap Hmin.
  destruct (check_margin_spec rules reduce_only leverage collateral n) as (m & -> & Hm). cbn [mbind res_bind].
  destruct m as [rm|why].
  2: { apply reject_outcome. intros (_ & _ & _ & H). destruct Hm as (Hro & l & Hl & Hn). apply Hn. by apply H. }
  destruct Hm as [Hrm Hrm0].
  destruct (preflight_result_spec rules q p reduce_only cur leverage collateral side status rounded
    (reason rm) rp Hp Hrp Habs) as (r & -> & Est & Eq & Epx & En & Hmr). cbn [mbind res_bind].
  exists r. split_and!; [|done|done|done|].
  - destruct rm as [m|]; [|done]. destruct leverage as [l|]; [|by specialize (Hrm0 (or_intror eq_refl))].
    destruct reduce_only; [by specialize (Hrm0 (or_introl eq_refl))|].
    destruct (Hrm eq_refl l eq_refl) as (Hl & m1 & Hm1 & [= <-] & _).
    destruct (Hmr eq_refl l eq_refl) as (m2 & Hm2 & ->); [lia|].
    rewrite Hm1 in Hm2. injection Hm2 as <-. by rewrite deqb_refl.
  - unfold placeable. rewrite Est, bool_decide_false by done. split; [intros _|done].
    split_and!; [done..|]. intros Hro l Hl. destruct (Hrm Hro l Hl) as (Hr & m1 & Hm1 & _ & Hc).
    split; [done|]. intros c Hcc. exists m1. split; [done|]. by apply Hc.
Qed.
End Outcome.

(** C21. The preflight always answers and its answer is exact: for finite positive
    inputs in range it never raises (in particular its internal margin assertion
    cannot fire), the rounded quantity is the requested one cut to whole lots and
    the rounded price is the venue price, and the order is placeable if and only
    if a whole lot remains, its notional is within the cap, it meets the venue
    minimum or closes the position exactly, and, when it adds risk at a known
    leverage, the leverage is allowed and the margin fits the known collateral. *)
Theorem preflight_decides (rules : HyperliquidPerpRules) (q p cap cur : dec) (reduce_only : bool)
    (leverage : option Z) (collateral : option pydec) (side : string) :
  let s := py_lower (py_strip side) in
  let sz := r_sz_decimals rules in
  is_buy_or_sell s = true ->
  (0 < dval q)%Q -> (0 < dval p)%Q -> (0 < dval cap)%Q ->
  0 <= sz <= (if is_spot rules then SPOT_MAX_DECIMALS else PERP_MAX_DECIMALS) ->
  adjusted p < 49 -> adjusted q + sz < 27 ->
  exists r rp, preflight_hyperliquid_perp_order rules (Fin q) (Fin p) reduce_only (Fin cur) leverage collateral
      side (Fin cap) = Ok r /\
    quantize_price (Fin p) sz (is_spot rules) = Ok rp /\ rounded_price r = Fin rp /\
    truncation (dval q) (dval (rounded_quantity r)) (- sz) /\
    submitted_notional_usd r = Fin (notional rules (rounded_quantity r) rp) /\
    (placeable r = true <->
       admissible rules reduce_only cur leverage collateral s cap (rounded_quantity r)
         (notional rules (rounded_quantity r) rp)).
Proof.
  intros s sz Hside Hq Hp Hcap Hsz Hpa Hqa.
  destruct (quantize_price_spec p sz (is_spot rules) Hp Hpa) as (rp & Hrp & _); [lia|lia|].
  destruct (quantize_size_ok q sz Hqa) as [rs Hrs].
  pose proof (quantize_size_truncation _ _ _ Hrs) as Htr.
  assert (fits rs) as Hfit by by eapply quantize_fits.
  assert (0 <= dval rs)%Q as Hrs0 by (apply Htr; lra).
  set (rounded := dabs rs).
  assert (rounded = copy_abs rs) as Erd by by apply dabs_fits.
  assert (fits rounded) as Hfr by (by rewrite Erd).
  assert (dabs rounded = rounded) as Habs by (rewrite Erd; exact (dabs_fits (copy_abs rs) Hfit)).
  assert (dval rounded == dval rs)%Q as Ev by (rewrite Erd, copy_abs_val; by apply Qabs_pos).
  unfold preflight_hyperliquid_perp_order. fold s. rewrite Hside. cbn [negb].
  rewrite !(proj2 (dleb_false _ _)) by (rewrite dval_zero; done). cbn [orb]. fold sz. rewrite Hrp, Hrs.
  cbn [fmap res_fmap mbind res_bind]. fold rounded (notional rules rounded rp).
  match goal with |- exists r rp0, ?m = Ok r /\ _ =>
    assert (outcome rules cap cur rounded rp reduce_only leverage collateral s m) as
      (r & Hr & Eq & Epx & En & Hdec) end.
  - destruct (dleb rounded dzero) eqn:Ezero.
    { apply reject_outcome; [done..|]. intros (H & _). apply dleb_spec in Ezero.
      rewrite dval_zero in Ezero. lra. }
    apply dleb_false in Ezero. rewrite dval_zero in Ezero.
    destruct (dltb cap (notional rules rounded rp)) eqn:Ecap.
    { apply reject_outcome; [done..|]. intros (_ & H & _). apply dltb_spec in Ecap. lra. }
    apply dltb_false in Ecap. pose proof (exact_close_spec reduce_only cur s rounded Hside Hfr Ezero) as Hex.
    destruct (dltb (notional rules rounded rp) (r_minimum_notional_usd rules) && negb _) eqn:Emin.
    { apply reject_outcome; [done..|]. bool_prop. intros (_ & _ & [H1|H1%Hex] & _); [|congruence].
      match goal with H : dltb _ _ = true |- _ => apply dltb_spec in H end. lra. }
    apply margin_outcome; [done|done|done|by destruct (_ || _)|done|done|].
    apply andb_false_iff in Emin as [E|E]; [left; by apply dltb_false|right]. bool_prop. by apply Hex.
  - exists r, rp. rewrite Eq, Ev. by split_and!.
Qed.

Lemma preflight_decides_witness :
  exists r, preflight_hyperliquid_perp_order (perp_rules "BTC" 5 40) (Fin (Dec false 123456789 (-10)))
      (Fin (Dec false 12345678 (-3))) false (Fin dzero) (Some 10) None " Buy" (Fin (dint 1000)) = Ok r /\
    placeable r = true.
Proof.
  destruct (preflight_decides (perp_rules "BTC" 5 40) (Dec false 123456789 (-10)) (Dec false 12345678 (-3))
    (dint 1000) dzero false (Some 10) None " Buy") as (r & rp & Hr & _); [by vm_compute|..].
  1-6: by vm_compute.
  exists r. split; [exact Hr|]. vm_compute in Hr. injection Hr as <-. by vm_compute.
Defined.
