(* ===== verification/RestPolicy.v ===== *)
(** rest_budget.py: what a REST request weighs, who may make it, and what a fleet needs. *)

From S2P Require Import Prelude PyText.
From Stdlib Require Import Ascii.

Open Scope Z_scope.

Inductive RestPriority :=
  | AMBIGUITY_CONTAINMENT | AFFECTED_FOLLOWER | GAP_REPAIR | CATALOG | BROAD_AUDIT | ANALYTICS.

#[export] Instance RestPriority_eq_dec : EqDecision RestPriority.
Proof. solve_decision. Defined.

Definition priority_value (p : RestPriority) : Z :=
  match p with
  | AMBIGUITY_CONTAINMENT => 0 | AFFECTED_FOLLOWER => 1 | GAP_REPAIR => 2
  | CATALOG => 3 | BROAD_AUDIT => 4 | ANALYTICS => 5
  end.

Definition ALL_PRIORITIES : list RestPriority :=
  [AMBIGUITY_CONTAINMENT; AFFECTED_FOLLOWER; GAP_REPAIR; CATALOG; BROAD_AUDIT; ANALYTICS].

(** [RestPriority(value)] *)
Definition priority_of (value : Z) : res RestPriority :=
  match List.filter (fun p => priority_value p =? value) ALL_PRIORITIES with
  | p :: _ => Ok p
  | [] => Raise (ValueError "is not a valid RestPriority")
  end.

Definition REST_BUDGET_WINDOW_MS : Z := 60000.
Definition REST_CLOCK_EPOCH_QUARANTINE_MS : Z := REST_BUDGET_WINDOW_MS.

Definition INFO_ENDPOINT_WEIGHTS : dict Z := [
  ("l2Book", 2); ("allMids", 2); ("clearinghouseState", 2); ("spotClearinghouseState", 2); ("orderStatus", 2);
  ("userRole", 60); ("userAbstraction", 20); ("userDexAbstraction", 20); ("vaultDetails", 20); ("extraAgents", 20);
  ("subAccounts", 20); ("userRateLimit", 20); ("allDexsClearinghouseState", 20); ("openOrders", 20);
  ("historicalOrders", 120); ("userFillsByTime", 120); ("userTwapSliceFillsByTime", 120);
  ("userNonFundingLedgerUpdates", 20); ("perpDexs", 20); ("allPerpMetas", 20); ("meta", 20); ("metaAndAssetCtxs", 20);
  ("spotMetaAndAssetCtxs", 20)].

Definition RUNTIME_SENDERS : list string := ["fleet-runtime"].
Definition GUARDIAN_SENDERS : list string :=
  ["containment-guardian"; "containment-guardian-info"; "containment-guardian-info-takeover"; "containment-guardian-action-takeover"].
Definition SUPERVISOR_SENDERS : list string := ["fleet-supervisor-network-end"].
Definition LAUNCH_SENDERS : list string :=
  ["context-feed-measurement"; "fast-execution-benchmark"; "ui-launch-preview"; "fleet-supervisor-preview-reservation";
   "fleet-supervisor-launch"; "fleet-supervisor-launch-network"].

(** [text.removeprefix(prefix)], when [text.startswith(prefix)] *)
Definition after_prefix (prefix text : string) : option string :=
  if String.prefix prefix text
  then Some (String.substring (String.length prefix) (String.length text - String.length prefix) text) else None.

Definition NETWORK_PROFILE : string := "network-profile:api.hyperliquid.xyz".
Definition EXCHANGE_ACTIONS : list string := ["cancel"; "cancelByCloid"; "order"; "scheduleCancel"].

Definition authoritative_rest_weight (endpoint : string) : res Z :=
  match after_prefix "info:" endpoint, after_prefix "exchange:" endpoint with
  | Some request_type, _ =>
      match dict_get request_type INFO_ENDPOINT_WEIGHTS with
      | Some w => Ok w
      | None => Raise (ValueError "REST endpoint policy has no weight for the endpoint")
      end
  | None, Some act =>
      if bool_decide (act ∈ EXCHANGE_ACTIONS) then Ok 1 else Raise (ValueError "REST endpoint policy rejects the endpoint")
  | None, None =>
      if bool_decide (endpoint = NETWORK_PROFILE) then Ok 6 else Raise (ValueError "REST endpoint policy rejects the endpoint")
  end.

Definition is_exchange (endpoint : string) : bool := String.prefix "exchange:" endpoint.

(** [_validate_sender_policy] *)
Definition validate_sender_policy (sender : string) (priority : RestPriority) (endpoint : string) (weight : Z) : res unit :=
  expected ← authoritative_rest_weight endpoint;
  if negb (weight =? expected) then Raise (ValueError "REST endpoint weight mismatch") else
  if bool_decide (sender ∈ RUNTIME_SENDERS) then
    if bool_decide (priority = ANALYTICS) || is_exchange endpoint
    then Raise (ValueError "fleet runtime REST role exceeded its admission policy") else Ok tt
  else if bool_decide (sender ∈ GUARDIAN_SENDERS) then
    if negb (bool_decide (priority = AMBIGUITY_CONTAINMENT))
    then Raise (ValueError "containment REST role may use only containment priority") else Ok tt
  else if bool_decide (sender ∈ SUPERVISOR_SENDERS) then
    if negb (bool_decide (priority = ANALYTICS)) || negb (bool_decide (endpoint = NETWORK_PROFILE))
    then Raise (ValueError "supervisor REST role exceeded its terminal measurement policy") else Ok tt
  else if bool_decide (sender ∈ LAUNCH_SENDERS) then
    if negb (bool_decide (priority ∈ [CATALOG; BROAD_AUDIT; ANALYTICS])) || is_exchange endpoint
    then Raise (ValueError "launch REST role exceeded its read-only admission policy") else Ok tt
  else Raise (ValueError "REST sender is not present in the frozen role policy").

Definition strs (l : list string) : json := JList (JStr <$> py_sorted str_leb l).

(** [_rest_policy_sha256], the digest being an argument. *)
Definition rest_policy_sha256 (sha256 : string -> string) : string :=
  sha256 (of_chars (json_dumps (JObj [
    ("endpoint_weights", JObj ((fun kw => (kw.1, JInt kw.2)) <$> INFO_ENDPOINT_WEIGHTS));
    ("runtime_senders", strs RUNTIME_SENDERS); ("guardian_senders", strs GUARDIAN_SENDERS);
    ("supervisor_senders", strs SUPERVISOR_SENDERS); ("launch_senders", strs LAUNCH_SENDERS); ("version", JInt 6)]))).

(** * The load of a fleet *)

Record RestLoadModel := MkLoad {
  fleet_slots : Z;
  audited_dexes : option Z;
  cheap_follower_weight : Z;
  cheap_follower_queries_per_cycle : option Z;
  cheap_follower_period_ms : Z;
  full_dex_discovery_weight : Z;
  full_open_order_weight : Z;
  full_follower_period_ms : Z;
  nonfunding_ledger_weight : Z;
  nonfunding_ledger_period_ms : Z;
  catalog_refresh_weight : Z;
  catalog_period_ms : Z;
}.

(** [RestLoadModel(fleet_slots=n)] *)
Definition default_load (slots : Z) : RestLoadModel := MkLoad slots None 2 None 5000 2 20 60000 20 600000 60 60000.

(** [a // b] *)
Definition floordiv (a b : Z) : res Z := if b =? 0 then Raise (ArithmeticError "ZeroDivisionError") else Ok (a / b).

(** The least number of periods that cover [span]. *)
Definition periods (span period : Z) : res Z := floordiv (span + period - 1) period.

Definition per_minute (m : RestLoadModel) : res (dict Z) :=
  if fleet_slots m <? 1 then Raise (ValueError "REST load model requires at least one slot") else
  cheap_cycles ← periods 60000 (cheap_follower_period_ms m);
  catalog_cycles ← periods 60000 (catalog_period_ms m);
  ledger_queries ← periods (fleet_slots m * 60000) (nonfunding_ledger_period_ms m);
  let audited := default (fleet_slots m) (audited_dexes m) in
  let cheap_queries := default (fleet_slots m) (cheap_follower_queries_per_cycle m) in
  if (audited <? fleet_slots m) || (cheap_queries <? fleet_slots m)
  then Raise (ValueError "REST load model must cover every follower and at least one DEX") else
  full_cycles ← periods (audited * 60000) (full_follower_period_ms m);
  let components := [
    ("affected_follower", cheap_queries * cheap_cycles * cheap_follower_weight m);
    ("full_follower_dex_discovery", full_cycles * full_dex_discovery_weight m);
    ("full_open_order_audit", full_cycles * full_open_order_weight m);
    ("nonfunding_ledger_audit", ledger_queries * nonfunding_ledger_weight m);
    ("catalog", catalog_cycles * catalog_refresh_weight m)] in
  Ok (components ++ [("total", fold_left Z.add (dict_values components) 0)]).

Record LoadReport := MkLoadReport { lr_components : dict Z; ordinary_headroom : Z; blockers : list string }.
Definition lr_passed (r : LoadReport) : bool := bool_decide (blockers r = []).

(** [RestLoadModel.validate] *)
Definition validate_load (m : RestLoadModel) (ordinary_budget reserve_budget : Z) : res LoadReport :=
  components ← per_minute m;
  let total := default 0 (dict_get "total" components) in
  Ok (MkLoadReport components (ordinary_budget - total)
        ((if ordinary_budget <? total
          then ["configured fleet requires " +:+ str_of_Z total +:+ " ordinary REST weight/min, above frozen budget " +:+ str_of_Z ordinary_budget]
          else []) ++
         (if reserve_budget <=? 0 then ["emergency REST reserve must be positive"] else []))).
