(* ===== verification/RestBudget.v ===== *)
(** rest_budget.py: the durable ledger that grants REST requests.

    The database is the record [Ledger]: one list per table, in the order of the rows'
    [seq].  A coordinator is an object over a ledger; the same ledger may be opened by
    another coordinator later, or at the same time.  A transaction that raises gives the
    tables back, but keeps what was assigned to the object.  The clocks are arguments, and
    so are the digest and [json.loads]. *)

From S2P Require Import Prelude PyText Models RestPolicy.
From Stdlib Require Import Ascii.

Open Scope Z_scope.

(** * Grants *)

Record RestGrant := MkGrant {
  grant_id : string;
  granted : bool;
  g_generation : string;
  coordinator_epoch : Z;
  g_sender : string;
  g_sender_epoch : Z;
  g_message_id : Z;
  g_priority : RestPriority;
  g_endpoint : string;
  g_weight : Z;
  pool : string;
  granted_wall_ms : Z;
  retry_after_ms : Z;
  g_reason : string;
}.

(** [json.dumps(asdict(grant), sort_keys=True, ...)], the priority as its number *)
Definition grant_json (g : RestGrant) : json := JObj [
  ("grant_id", JStr (grant_id g)); ("granted", JBool (granted g)); ("generation", JStr (g_generation g));
  ("coordinator_epoch", JInt (coordinator_epoch g)); ("sender", JStr (g_sender g)); ("sender_epoch", JInt (g_sender_epoch g));
  ("message_id", JInt (g_message_id g)); ("priority", JInt (priority_value (g_priority g))); ("endpoint", JStr (g_endpoint g));
  ("weight", JInt (g_weight g)); ("pool", JStr (pool g)); ("granted_wall_ms", JInt (granted_wall_ms g));
  ("retry_after_ms", JInt (retry_after_ms g)); ("reason", JStr (g_reason g))].
Definition grant_text (g : RestGrant) : string := of_chars (json_dumps (grant_json g)).

Definition member {A} (read : json -> option A) (key : string) (o : list (string * json)) : res A :=
  match obj_get key o with
  | Some v => match read v with Some a => Ok a | None => Raise (TypeError "unexpected type") end
  | None => Raise (TypeError "missing argument")
  end.
Definition as_str (j : json) : option string := match j with JStr s => Some s | _ => None end.
Definition as_int (j : json) : option Z := match j with JInt z => Some z | _ => None end.
Definition as_bool (j : json) : option bool := match j with JBool b => Some b | _ => None end.

(** [RestGrant( **json.loads(text))]: only texts that a coordinator wrote are read. *)
Definition grant_of_json (j : json) : res RestGrant :=
  match j with
  | JObj o =>
      id ← member as_str "grant_id" o; ok ← member as_bool "granted" o; gen ← member as_str "generation" o;
      ce ← member as_int "coordinator_epoch" o; s ← member as_str "sender" o; se ← member as_int "sender_epoch" o;
      m ← member as_int "message_id" o; pv ← member as_int "priority" o; p ← priority_of pv;
      e ← member as_str "endpoint" o; w ← member as_int "weight" o; pl ← member as_str "pool" o;
      t ← member as_int "granted_wall_ms" o; ra ← member as_int "retry_after_ms" o; why ← member as_str "reason" o;
      Ok (MkGrant id ok gen ce s se m p e w pl t ra why)
  | _ => Raise (TypeError "argument after ** must be a mapping")
  end.

(** * Tables *)

(** The key of a message: its generation, its sender, the sender's epoch and its number. *)
Definition message_key : Type := string * string * Z * Z.

(** [coordinator_owner] *)
Record OwnerRow := MkOwner {
  ow_generation : string;
  ow_epoch : Z;
  ow_process : string;
  ow_ordinary : Z;
  ow_reserve : Z;
  ow_policy : string;
  ow_clock_epoch : Z;
  ow_last_wall : Z;
  ow_last_mono : Z;
}.

(** [rest_grants] *)
Record GrantRow := MkGrantRow {
  gr_id : string;
  gr_key : message_key;
  gr_epoch : Z;
  gr_priority : Z;
  gr_endpoint : string;
  gr_weight : Z;
  gr_pool : string;
  gr_wall : Z;
  gr_mono : Z;
  gr_clock_epoch : Z;
}.

(** [rest_requests]; the response is there when the status is "decided". *)
Record RequestRow := MkRequest {
  rq_key : message_key;
  rq_priority : Z;
  rq_endpoint : string;
  rq_weight : Z;
  rq_sha256 : string;
  rq_wall : Z;
  rq_mono : Z;
  rq_decided : option (string * Z);
}.

(** [rest_ipc_acks] *)
Record AckRow := MkAck { ak_key : message_key; ak_sha256 : string; ak_response : string; ak_created : Z }.

(** [rest_egress_fence] *)
Record FenceRow := MkFence {
  fn_generation : string;
  fn_preview : string;
  fn_process : string;
  fn_wall : Z;
  fn_mono : Z;
  fn_clock_epoch : Z;
}.

(** [coordinator_clock_epochs] *)
Record EpochRow := MkEpoch {
  ep_generation : string;
  ep_clock_epoch : Z;
  ep_started_wall : Z;
  ep_started_mono : Z;
  ep_quarantine_until : Z;
  ep_prior : Z;
  ep_prior_wall : Z;
  ep_prior_mono : Z;
  ep_reason : string;
}.

(** [rest_grant_imports] *)
Record ImportRow := MkImport {
  im_generation : string;
  im_sha256 : string;
  im_source_clock_epoch : Z;
  im_captured_wall : Z;
  im_captured_mono : Z;
  im_source_count : Z;
  im_live_count : Z;
  im_weight : Z;
  im_clock_epoch : Z;
  im_wall : Z;
}.

(** [coordinator_takeovers] *)
Record TakeoverRow := MkTakeover {
  tk_id : string;
  tk_generation : string;
  tk_from_epoch : Z;
  tk_to_epoch : Z;
  tk_from_process : string;
  tk_to_process : string;
  tk_created : Z;
}.

Record Ledger := MkLedger {
  owner : option OwnerRow;
  grants : list GrantRow;
  requests : list RequestRow;
  acks : list AckRow;
  fence : option FenceRow;
  epochs : list EpochRow;
  imports : list ImportRow;
  takeovers : list TakeoverRow;
}.

Definition empty_ledger : Ledger := MkLedger None [] [] [] None [] [] [].

(** The attributes of a [RestBudgetCoordinator], and the database it is connected to. *)
Record Coordinator := MkCoordinator {
  generation : string;
  ordinary_weight : Z;
  reserve_weight : Z;
  process_identity : string;
  epoch : Z;
  clock_epoch : Z;
  max_pending_requests : Z;
  critical_pending_reserve : Z;
  sender_reorder_window : Z;
  ledger : Ledger;
}.

Section Updates.
Variable l : Ledger.
Definition set_owner v := MkLedger v (grants l) (requests l) (acks l) (fence l) (epochs l) (imports l) (takeovers l).
Definition add_grant g := MkLedger (owner l) (grants l ++ [g]) (requests l) (acks l) (fence l) (epochs l) (imports l) (takeovers l).
Definition set_requests v := MkLedger (owner l) (grants l) v (acks l) (fence l) (epochs l) (imports l) (takeovers l).
Definition add_ack a := MkLedger (owner l) (grants l) (requests l) (acks l ++ [a]) (fence l) (epochs l) (imports l) (takeovers l).
Definition set_fence v := MkLedger (owner l) (grants l) (requests l) (acks l) v (epochs l) (imports l) (takeovers l).
Definition add_epoch e := MkLedger (owner l) (grants l) (requests l) (acks l) (fence l) (epochs l ++ [e]) (imports l) (takeovers l).
Definition add_import i := MkLedger (owner l) (grants l) (requests l) (acks l) (fence l) (epochs l) (imports l ++ [i]) (takeovers l).
Definition add_takeover t := MkLedger (owner l) (grants l) (requests l) (acks l) (fence l) (epochs l) (imports l) (takeovers l ++ [t]).
End Updates.

Section CoordinatorUpdates.
Variable c : Coordinator.
Definition with_ledger l := MkCoordinator (generation c) (ordinary_weight c) (reserve_weight c) (process_identity c) (epoch c)
  (clock_epoch c) (max_pending_requests c) (critical_pending_reserve c) (sender_reorder_window c) l.
Definition with_clock_epoch v := MkCoordinator (generation c) (ordinary_weight c) (reserve_weight c) (process_identity c) (epoch c)
  v (max_pending_requests c) (critical_pending_reserve c) (sender_reorder_window c) (ledger c).
Definition with_identity e p := MkCoordinator (generation c) (ordinary_weight c) (reserve_weight c) p e
  (clock_epoch c) (max_pending_requests c) (critical_pending_reserve c) (sender_reorder_window c) (ledger c).
End CoordinatorUpdates.

(** * Statements *)

Abbreviation Budget := (ST Coordinator).

(** [BEGIN IMMEDIATE] ... [commit], or [rollback] when something raises. *)
Definition immediate {A} (body : Budget A) : Budget A := fun c =>
  match body c with
  | (c', Ok a) => (c', Ok a)
  | (c', Raise e) => (with_ledger c' (ledger c), Raise e)
  end.

Definition select {A} (q : Ledger -> A) : Budget A := jquery (fun c => Ok (q (ledger c))).
Definition update (f : Ledger -> Ledger) : Budget unit := jmodify (fun c => with_ledger c (f (ledger c))).
Definition self {A} (q : Coordinator -> A) : Budget A := jquery (fun c => Ok (q c)).

(** An insertion that a UNIQUE or PRIMARY KEY constraint may refuse. *)
Definition insert (clash : Ledger -> bool) (f : Ledger -> Ledger) : Budget unit :=
  let! duplicate := select clash in
  if duplicate : bool then jraise (IntegrityError "UNIQUE constraint failed") else update f.

Definition insert_grant (g : GrantRow) : Budget unit :=
  insert (fun l => existsb (fun x => bool_decide (gr_id x = gr_id g) || bool_decide (gr_key x = gr_key g)) (grants l))
    (fun l => add_grant l g).
Definition insert_request (q : RequestRow) : Budget unit :=
  insert (fun l => existsb (fun x => bool_decide (rq_key x = rq_key q)) (requests l)) (fun l => set_requests l (requests l ++ [q])).
Definition insert_ack (a : AckRow) : Budget unit :=
  insert (fun l => existsb (fun x => bool_decide (ak_key x = ak_key a)) (acks l)) (fun l => add_ack l a).
Definition insert_epoch (e : EpochRow) : Budget unit :=
  insert (fun l => existsb (fun x => bool_decide ((ep_generation x, ep_clock_epoch x) = (ep_generation e, ep_clock_epoch e))) (epochs l))
    (fun l => add_epoch l e).

(** [int(value)] of a parameter that SQLite stores in 64 bits. *)
Definition bound_ints (zs : list Z) : Budget unit :=
  if forallb (fun z => (- 2 ^ 63 <=? z) && (z <? 2 ^ 63)) zs then jret tt else jraise (ArithmeticError "OverflowError").

Definition sum_of (zs : list Z) : Z := fold_left Z.add zs 0.
(** [coalesce(max(column), 0)] *)
Definition column_max (zs : list Z) : Z := match zs with [] => 0 | z :: rest => fold_left Z.max rest z end.
Definition column_min (zs : list Z) : option Z := match zs with [] => None | z :: rest => Some (fold_left Z.min rest z) end.

Definition key_generation (k : message_key) : string := k.1.1.1.
Definition key_sender (k : message_key) : string := k.1.1.2.
Definition key_epoch (k : message_key) : Z := k.1.2.
Definition key_id (k : message_key) : Z := k.2.

Definition of_sender (gen sender : string) (k : message_key) : bool :=
  bool_decide (key_generation k = gen) && bool_decide (key_sender k = sender).

(** The keys the acknowledgements and the requests have of a sender. *)
Definition sender_keys (gen sender : string) (l : Ledger) : list message_key :=
  List.filter (of_sender gen sender) ((ak_key <$> acks l) ++ (rq_key <$> requests l)).

(** [sender_message_highwater] *)
Definition sender_message_highwater (sender : string) (sender_epoch : Z) (c : Coordinator) : res Z :=
  if is_empty sender || (sender_epoch <? 1) then Raise (ValueError "REST sender identity is incomplete") else
  Ok (column_max (key_id <$> List.filter (fun k => key_epoch k =? sender_epoch) (sender_keys (generation c) sender (ledger c)))).

(** A grant of the clock epoch that is still inside the rolling window. *)
Definition recent_grant (now_mono : Z) (c : Coordinator) (g : GrantRow) : bool :=
  bool_decide (key_generation (gr_key g) = generation c) && (gr_clock_epoch g =? clock_epoch c)
  && (now_mono - REST_BUDGET_WINDOW_MS <? gr_mono g).
Definition recent_grants (now_mono : Z) (c : Coordinator) : list GrantRow := List.filter (recent_grant now_mono c) (grants (ledger c)).

(** [sum(weight)] of a pool *)
Definition used (p : string) (rows : list GrantRow) : Z :=
  sum_of (gr_weight <$> List.filter (fun g => bool_decide (gr_pool g = p)) rows).

Definition is_pending (gen : string) (q : RequestRow) : bool :=
  bool_decide (key_generation (rq_key q) = gen) && match rq_decided q with None => true | Some _ => false end.

Section Coordinator.
Variables (sha256 : string -> string) (loads : string -> option json).

Definition digest32 (text : string) : string := String.substring 0 32 (sha256 text).
Definition hash_json (j : json) : string := sha256 (of_chars (json_dumps j)).

(** * Clock epochs *)

(** [_clock_epoch_changed] *)
Definition clock_epoch_changed (last_wall last_mono now_wall now_mono : Z) : bool :=
  if (last_wall <=? 0) || (last_mono <=? 0) then false else
  let wall_delta := now_wall - last_wall in
  let mono_delta := now_mono - last_mono in
  (mono_delta <? 0) || (2000 <? Z.abs (wall_delta - mono_delta)).

(** [_insert_clock_epoch_locked] *)
Definition insert_clock_epoch (ce now_wall now_mono quarantine prior prior_wall prior_mono : Z) (why : string) : Budget unit :=
  let! gen := self generation in
  insert_epoch (MkEpoch gen ce now_wall now_mono (now_mono + quarantine) prior prior_wall prior_mono why).

Definition update_owner (f : OwnerRow -> OwnerRow) : Budget unit := update (fun l => set_owner l (f <$> owner l)).

(** [UPDATE coordinator_owner SET last_wall_ms, last_mono_ms] *)
Definition touch_owner (now_wall now_mono : Z) : Budget unit :=
  update_owner (fun o => MkOwner (ow_generation o) (ow_epoch o) (ow_process o) (ow_ordinary o) (ow_reserve o) (ow_policy o)
                           (ow_clock_epoch o) now_wall now_mono).

(** [_begin_new_clock_epoch_locked] *)
Definition begin_new_clock_epoch (o : OwnerRow) (now_wall now_mono : Z) (why : string) : Budget unit :=
  let ce := ow_clock_epoch o + 1 in
  let! _ := insert_clock_epoch ce now_wall now_mono REST_CLOCK_EPOCH_QUARANTINE_MS (ow_clock_epoch o) (ow_last_wall o) (ow_last_mono o) why in
  let! _ := update_owner (fun o => MkOwner (ow_generation o) (ow_epoch o) (ow_process o) (ow_ordinary o) (ow_reserve o) (ow_policy o)
                                     ce now_wall now_mono) in
  jmodify (fun c => with_clock_epoch c ce).

Definition epoch_row (c : Coordinator) : option EpochRow :=
  List.find (fun e => bool_decide (ep_generation e = generation c) && (ep_clock_epoch e =? clock_epoch c)) (epochs (ledger c)).

(** [_clock_epoch_row_locked] *)
Definition clock_epoch_row (c : Coordinator) : res EpochRow :=
  match epoch_row c with Some e => Ok e | None => Raise (RuntimeError "REST coordinator clock epoch evidence is missing") end.

(** [_clock_quarantine_wait_locked] *)
Definition clock_quarantine_wait (now_mono : Z) (c : Coordinator) : res Z :=
  e ← clock_epoch_row c; Ok (Z.max 0 (ep_quarantine_until e - now_mono)).

(** [_durable_mono_highwater_locked] *)
Definition durable_mono_highwater (l : Ledger) : Z :=
  column_max [column_max (match owner l with Some o => [ow_last_mono o] | None => [] end);
              column_max (gr_mono <$> grants l); column_max (rq_mono <$> requests l);
              column_max (match fence l with Some f => [fn_mono f] | None => [] end);
              column_max (ep_started_mono <$> epochs l)].

(** * Decisions *)

(** What is asked: the message and its content. *)
Record Asked := MkAsked {
  as_sender : string;
  as_sender_epoch : Z;
  as_message_id : Z;
  as_priority : RestPriority;
  as_endpoint : string;
  as_weight : Z;
}.

Definition asked_key (gen : string) (a : Asked) : message_key := (gen, as_sender a, as_sender_epoch a, as_message_id a).

(** [_denial] *)
Definition denial (a : Asked) (now now_mono : Z) (why : string) (c : Coordinator) : res RestGrant :=
  wait ← clock_quarantine_wait now_mono c;
  let retry := Z.max wait match column_min (gr_mono <$> recent_grants now_mono c) with
                          | None => 1000
                          | Some oldest => Z.min (REST_BUDGET_WINDOW_MS + 1) (Z.max 1 (oldest + REST_BUDGET_WINDOW_MS + 1 - now_mono))
                          end in
  let identity := "deny|" +:+ generation c +:+ "|" +:+ as_sender a +:+ "|" +:+ str_of_Z (as_sender_epoch a) +:+ "|" +:+
                  str_of_Z (as_message_id a) +:+ "|" +:+ why in
  Ok (MkGrant ("rest-denial-" +:+ digest32 identity) false (generation c) (epoch c) (as_sender a) (as_sender_epoch a)
        (as_message_id a) (as_priority a) (as_endpoint a) (as_weight a) "none" now retry why).

Definition reserve_first (p : RestPriority) : bool := bool_decide (p ∈ [AMBIGUITY_CONTAINMENT; GAP_REPAIR]).
Definition reserve_eligible (p : RestPriority) : bool := reserve_first p || bool_decide (p = AFFECTED_FOLLOWER).

(** The pool that pays for a request, if one can. *)
Definition pool_for (p : RestPriority) (weight ordinary_left reserve_left : Z) : option string :=
  if reserve_first p && (weight <=? reserve_left) then Some "reserve"
  else if weight <=? ordinary_left then Some "ordinary"
  else if reserve_eligible p && (weight <=? reserve_left) then Some "reserve"
  else None.

(** [_allocate_locked] *)
Definition allocate (a : Asked) (now now_mono : Z) : Budget RestGrant :=
  let! rows := self (recent_grants now_mono) in
  let! c := self (fun c => c) in
  match pool_for (as_priority a) (as_weight a) (ordinary_weight c - used "ordinary" rows) (reserve_weight c - used "reserve" rows) with
  | None => jlift (denial a now now_mono "rolling_weight_budget_exhausted" c)
  | Some p =>
      let identity := generation c +:+ "|" +:+ str_of_Z (epoch c) +:+ "|" +:+ str_of_Z (clock_epoch c) +:+ "|" +:+ as_sender a +:+ "|" +:+
                      str_of_Z (as_sender_epoch a) +:+ "|" +:+ str_of_Z (as_message_id a) +:+ "|" +:+ as_endpoint a +:+ "|" +:+ str_of_Z (as_weight a) in
      let id := "rest-grant-" +:+ digest32 identity in
      let! _ := insert_grant (MkGrantRow id (asked_key (generation c) a) (epoch c) (priority_value (as_priority a)) (as_endpoint a)
                                (as_weight a) p now now_mono (clock_epoch c)) in
      jret (MkGrant id true (generation c) (epoch c) (as_sender a) (as_sender_epoch a) (as_message_id a) (as_priority a)
              (as_endpoint a) (as_weight a) p now 0 "granted")
  end.

(** What a row of [rest_requests] asks. *)
Definition asked_of (q : RequestRow) : res Asked :=
  p ← priority_of (rq_priority q);
  Ok (MkAsked (key_sender (rq_key q)) (key_epoch (rq_key q)) (key_id (rq_key q)) p (rq_endpoint q) (rq_weight q)).

(** Mark a pending row decided. *)
Definition decided (key : message_key) (response : string) (now : Z) (q : RequestRow) : RequestRow :=
  if bool_decide (rq_key q = key) && match rq_decided q with None => true | Some _ => false end
  then MkRequest (rq_key q) (rq_priority q) (rq_endpoint q) (rq_weight q) (rq_sha256 q) (rq_wall q) (rq_mono q) (Some (response, now))
  else q.

(** The acknowledgement and the new status of one row. *)
Definition acknowledge (q : RequestRow) (g : RestGrant) (now : Z) : Budget unit :=
  let! _ := insert_ack (MkAck (rq_key q) (rq_sha256 q) (grant_text g) now) in
  update (fun l => set_requests l (decided (rq_key q) (grant_text g) now <$> requests l)).

(** One row after another: its decision, and its answer. *)
Fixpoint answer_rows (decide_one : Asked -> Budget RestGrant) (rows : list RequestRow) (now : Z) : Budget unit :=
  match rows with
  | [] => jret tt
  | q :: rest =>
      let! a := jlift (asked_of q) in
      let! g := decide_one a in
      let! _ := acknowledge q g now in
      answer_rows decide_one rest now
  end.

(** Deny every row for the same reason. *)
Definition deny_all (rows : list RequestRow) (now now_mono : Z) (why : string) : Budget unit :=
  answer_rows (fun a => jquery (denial a now now_mono why)) rows now.

Definition pending_rows (c : Coordinator) : list RequestRow := List.filter (is_pending (generation c)) (requests (ledger c)).

(** [_deny_pending_for_clock_epoch_locked] *)
Definition deny_pending_for_clock_epoch (now now_mono : Z) : Budget unit :=
  let! rows := self pending_rows in
  deny_all rows now now_mono "monotonic_clock_epoch_requires_exact_request_replay".

(** * One batch *)

(** The owner row names this coordinator and its frozen policy. *)
Definition owned (c : Coordinator) : bool :=
  match owner (ledger c) with
  | None => false
  | Some o =>
      bool_decide (ow_generation o = generation c) && (ow_epoch o =? epoch c) && bool_decide (ow_process o = process_identity c)
      && (ow_ordinary o =? ordinary_weight c) && (ow_reserve o =? reserve_weight c)
      && bool_decide (ow_policy o = rest_policy_sha256 sha256) && (ow_clock_epoch o =? clock_epoch c)
  end.

(** The owner row, when this coordinator is the owner. *)
Definition fenced_owner (c : Coordinator) : res OwnerRow :=
  match owner (ledger c) with
  | Some o => if owned c then Ok o else Raise (RuntimeError "REST coordinator epoch fence failed")
  | None => Raise (RuntimeError "REST coordinator epoch fence failed")
  end.

Definition clock_jump (o : OwnerRow) (now now_mono : Z) : bool :=
  (0 <? ow_last_mono o) &&
  ((now_mono - ow_last_mono o <? 0) || (2000 <? Z.abs ((now - ow_last_wall o) - (now_mono - ow_last_mono o)))).

(** The pending rows are allocated, or all denied in a quarantine. *)
Definition decide_rows (rows : list RequestRow) (denied : bool) (now now_mono : Z) : Budget unit :=
  answer_rows (fun a => if denied then jquery (denial a now now_mono "monotonic_clock_epoch_quarantine") else allocate a now now_mono) rows now.

(** The pending rows by priority, and within one in their order. *)
Definition batch (c : Coordinator) : list RequestRow :=
  py_sorted (fun a b => rq_priority a <=? rq_priority b) (pending_rows c).

(** [_drain_pending_requests] *)
Definition drain_pending_requests : Budget unit := immediate (
  let! o := jquery fenced_owner in
  let! rows := self batch in
  match rows with
  | [] => jret tt
  | _ =>
      let now := column_max (rq_wall <$> rows) in
      let now_mono := column_max (rq_mono <$> rows) in
      let jump := clock_jump o now now_mono in
      let! _ := (if jump then begin_new_clock_epoch o now now_mono "runtime_wall_monotonic_epoch_change" else jret tt) in
      let! wait := jquery (clock_quarantine_wait now_mono) in
      let! _ := decide_rows rows (jump || (0 <? wait)) now now_mono in
      touch_owner now now_mono
  end).

(** * One request *)

Definition request_sha256 (gen : string) (a : Asked) : string := hash_json (JObj [
  ("generation", JStr gen); ("sender", JStr (as_sender a)); ("sender_epoch", JInt (as_sender_epoch a));
  ("message_id", JInt (as_message_id a)); ("priority", JInt (priority_value (as_priority a))); ("endpoint", JStr (as_endpoint a));
  ("weight", JInt (as_weight a))]).

Definition find_ack (key : message_key) (l : Ledger) : option AckRow := List.find (fun x => bool_decide (ak_key x = key)) (acks l).
Definition find_request (key : message_key) (l : Ledger) : option RequestRow :=
  List.find (fun x => bool_decide (rq_key x = key)) (requests l).

(** [RestGrant( **json.loads(response))] *)
Definition read_grant (text : string) : res RestGrant :=
  match loads text with Some j => grant_of_json j | None => Raise (ValueError "JSONDecodeError") end.

Definition replayed_differently {A} : Budget A :=
  jraise (RuntimeError "REST IPC message ID was replayed with different content").

(** The reorder window of the sender: one epoch, and no number far behind the last one. *)
Definition sender_fence (a : Asked) (c : Coordinator) : res unit :=
  match sender_keys (generation c) (as_sender a) (ledger c) with
  | [] => Ok tt
  | keys =>
      if negb (forallb (fun k => key_epoch k =? as_sender_epoch a) keys) then Raise (RuntimeError "REST sender epoch fence failed") else
      if as_message_id a <? column_max (key_id <$> keys) - sender_reorder_window c
      then Raise (RuntimeError "REST sender message ID exceeded the bounded reorder window") else Ok tt
  end.

(** The last places of the queue are kept for containment. *)
Definition queue_full (p : RestPriority) (c : Coordinator) : bool :=
  let pending := Z.of_nat (List.length (pending_rows c)) in
  (max_pending_requests c <=? pending)
  || (negb (bool_decide (p = AMBIGUITY_CONTAINMENT)) && (max_pending_requests c - critical_pending_reserve c <=? pending)).

(** A new message: refused when the queue is full, pending otherwise. *)
Definition enqueue (a : Asked) (hash : string) (now now_mono : Z) : Budget (option RestGrant) :=
  let! _ := jquery (sender_fence a) in
  let! _ := jquery fenced_owner in
  let! c := self (fun c => c) in
  let key := asked_key (generation c) a in
  let row := MkRequest key (priority_value (as_priority a)) (as_endpoint a) (as_weight a) hash now now_mono in
  if queue_full (as_priority a) c then
    let! g := jlift (denial a now now_mono "durable_priority_queue_capacity_exhausted" c) in
    let! _ := bound_ints [now; now_mono] in
    let! _ := insert_request (row (Some (grant_text g, now))) in
    let! _ := insert_ack (MkAck key hash (grant_text g) now) in
    jret (Some g)
  else
    let! _ := bound_ints [now; now_mono] in
    let! _ := insert_request (row None) in jret None.

(** The first transaction of [request_grant]: a grant, or nothing when the request waits. *)
Definition submit (a : Asked) (now now_mono : Z) : Budget (option RestGrant) := immediate (
  let! c := self (fun c => c) in
  let key := asked_key (generation c) a in
  let hash := request_sha256 (generation c) a in
  match fence (ledger c) with
  | Some f =>
      if negb (bool_decide (fn_generation f = generation c)) then jraise (RuntimeError "REST egress fence generation mismatch") else
      let! g := jlift (denial a now now_mono "host_wide_launch_egress_fenced" c) in jret (Some g)
  | None =>
      let! _ := bound_ints [as_sender_epoch a; as_message_id a] in
      match find_ack key (ledger c), find_request key (ledger c) with
      | Some x, _ =>
          if negb (bool_decide (ak_sha256 x = hash)) then replayed_differently else
          let! g := jlift (read_grant (ak_response x)) in jret (Some g)
      | None, Some q =>
          if negb (bool_decide (rq_sha256 q = hash)) then replayed_differently else
          match rq_decided q with
          | Some (response, _) => let! g := jlift (read_grant response) in jret (Some g)
          | None => jret None
          end
      | None, None => enqueue a hash now now_mono
      end
  end).

(** The acknowledgement of a request that was drained. *)
Definition collect (a : Asked) (c : Coordinator) : res RestGrant :=
  match find_ack (asked_key (generation c) a) (ledger c) with
  | None => Raise (RuntimeError "REST durable request was not decided")
  | Some x =>
      if negb (bool_decide (ak_sha256 x = request_sha256 (generation c) a))
      then Raise (RuntimeError "REST IPC acknowledgement content fence failed") else read_grant (ak_response x)
  end.

Definition check_request (a : Asked) : res unit :=
  if is_empty (as_sender a) || (as_sender_epoch a <? 1) || (as_message_id a <? 1) || is_empty (as_endpoint a) || (as_weight a <? 1)
  then Raise (ValueError "REST grant request fields are invalid")
  else validate_sender_policy (as_sender a) (as_priority a) (as_endpoint a) (as_weight a).

(** [request_grant]; other threads run while it waits for the batch, and after the drain. *)
Definition request_grant (meanwhile1 meanwhile2 : Coordinator -> Coordinator) (a : Asked) (now now_mono : Z) : Budget RestGrant :=
  let! _ := jlift (check_request a) in
  let! early := submit a now now_mono in
  match early with
  | Some g => jret g
  | None =>
      let! _ := jmodify meanwhile1 in
      let! _ := drain_pending_requests in
      let! _ := jmodify meanwhile2 in
      jquery (collect a)
  end.

(** * Opening and taking over a ledger *)

(** The bounds of the constructor. *)
Definition make_coordinator (gen process : string) (ordinary reserve e coalesce_ms max_pending critical reorder : Z) (l : Ledger)
    : res Coordinator :=
  if is_empty gen || is_empty process || (e <? 1) then Raise (ValueError "REST coordinator identity is incomplete") else
  if (ordinary <=? 0) || (reserve <=? 0) then Raise (ValueError "REST coordinator budgets must be positive") else
  if 1200 <? ordinary + reserve then Raise (ValueError "REST coordinator budgets exceed the frozen IP allowance") else
  if negb ((0 <=? coalesce_ms) && (coalesce_ms <=? 100)) then Raise (ValueError "REST priority coalescing must be between 0 and 100ms") else
  if (max_pending <? 2) || negb ((0 <? critical) && (critical <? max_pending)) || (reorder <? 1)
  then Raise (ValueError "REST durable queue bounds are invalid") else
  Ok (MkCoordinator gen ordinary reserve process e 1 max_pending critical reorder l).

(** The row of a clock epoch that an older version did not write. *)
Definition adopt_clock_epoch (o : OwnerRow) (why : string) : Budget unit :=
  let! known := self epoch_row in
  match known with
  | Some _ => jret tt
  | None => insert_clock_epoch (ow_clock_epoch o) (ow_last_wall o) (ow_last_mono o) 0 (Z.max 0 (ow_clock_epoch o - 1)) 0 0 why
  end.

(** The clock went back, or the two clocks disagree about the time that passed. *)
Definition clock_moved (o : OwnerRow) (now now_mono : Z) (l : Ledger) : bool :=
  (now_mono <? durable_mono_highwater l) || clock_epoch_changed (ow_last_wall o) (ow_last_mono o) now now_mono.

(** A ledger without an owner. *)
Definition first_owner (now now_mono : Z) : Budget unit :=
  let! c := self (fun c => c) in
  let! _ := update (fun l => set_owner l (Some (MkOwner (generation c) (epoch c) (process_identity c) (ordinary_weight c)
              (reserve_weight c) (rest_policy_sha256 sha256) 1 now now_mono))) in
  let! _ := jmodify (fun c => with_clock_epoch c 1) in
  insert_clock_epoch 1 now now_mono 0 0 0 0 "initial_process_clock_epoch".

(** The owner row names this coordinator; the clock epoch is not compared. *)
Definition claimed_by (o : OwnerRow) (c : Coordinator) : bool :=
  bool_decide (ow_generation o = generation c) && (ow_epoch o =? epoch c) && bool_decide (ow_process o = process_identity c)
  && (ow_ordinary o =? ordinary_weight c) && (ow_reserve o =? reserve_weight c) && bool_decide (ow_policy o = rest_policy_sha256 sha256).

(** [_claim_initial_epoch] *)
Definition claim_initial_epoch (now now_mono : Z) : Budget unit := immediate (
  let! c := self (fun c => c) in
  match owner (ledger c) with
  | None => first_owner now now_mono
  | Some o =>
      if negb (claimed_by o c) then jraise (RuntimeError "REST coordinator ledger owner or frozen policy does not match") else
      let! _ := jmodify (fun c => with_clock_epoch c (ow_clock_epoch o)) in
      let! _ := adopt_clock_epoch o "legacy_clock_epoch_adopted" in
      let! moved := select (clock_moved o now now_mono) in
      if moved : bool then
        let! _ := begin_new_clock_epoch o now now_mono "durable_wall_monotonic_epoch_change" in
        deny_pending_for_clock_epoch now now_mono
      else touch_owner now now_mono
  end).

(** The constructor on an opened database. *)
Definition open_coordinator (c : Coordinator) (claim_initial : bool) (now now_mono : Z) : Coordinator * res unit :=
  if claim_initial then claim_initial_epoch now now_mono c else (c, Ok tt).

Record RestTakeoverProof := MkProof {
  exact_prior_process_exited : bool;
  exit_attestation_sha256 : string;
  prior_grants_retained : bool;
}.

Definition is_sha256_text (s : string) : bool :=
  (String.length s =? 64)%nat && forallb is_lower_hex (to_chars s).

(** [complete] *)
Definition proof_complete (p : RestTakeoverProof) : bool :=
  exact_prior_process_exited p && (is_sha256_text (exit_attestation_sha256 p) && prior_grants_retained p).

(** The conditional update of the owner row. *)
Definition replace_owner (expected new_epoch : Z) (prior_process new_process : string) (now now_mono : Z) : Budget unit :=
  let! c := self (fun c => c) in
  match owner (ledger c) with
  | Some o =>
      if bool_decide (ow_generation o = generation c) && (ow_epoch o =? expected) && bool_decide (ow_process o = prior_process)
         && (ow_ordinary o =? ordinary_weight c) && (ow_reserve o =? reserve_weight c) && bool_decide (ow_policy o = rest_policy_sha256 sha256)
      then update (fun l => set_owner l (Some (MkOwner (ow_generation o) new_epoch new_process (ow_ordinary o) (ow_reserve o) (ow_policy o)
                                                 (ow_clock_epoch o) now now_mono)))
      else jraise (RuntimeError "REST coordinator takeover CAS failed")
  | None => jraise (RuntimeError "REST coordinator takeover CAS failed")
  end.

Definition insert_takeover (t : TakeoverRow) : Budget unit :=
  insert (fun l => existsb (fun x => bool_decide (tk_id x = tk_id t)) (takeovers l)) (fun l => add_takeover l t).

Definition takeover_policy (c : Coordinator) : res OwnerRow :=
  match owner (ledger c) with
  | Some o =>
      if bool_decide (ow_generation o = generation c) && (ow_ordinary o =? ordinary_weight c) && (ow_reserve o =? reserve_weight c)
         && bool_decide (ow_policy o = rest_policy_sha256 sha256)
      then Ok o else Raise (RuntimeError "REST takeover frozen-policy fence failed")
  | None => Raise (RuntimeError "REST takeover frozen-policy fence failed")
  end.

(** [takeover] up to its commit.  The count of grants cannot change in between. *)
Definition take_over_ledger (expected new_epoch : Z) (prior_process new_process : string) (now now_mono : Z) : Budget unit :=
  immediate (
    let! o := jquery takeover_policy in
    let! _ := jmodify (fun c => with_clock_epoch c (ow_clock_epoch o)) in
    let! _ := adopt_clock_epoch o "legacy_clock_epoch_adopted_during_takeover" in
    let! moved := select (clock_moved o now now_mono) in
    let! _ := (if moved : bool then begin_new_clock_epoch o now now_mono "takeover_wall_monotonic_epoch_change" else jret tt) in
    let! _ := replace_owner expected new_epoch prior_process new_process now now_mono in
    let! gen := self generation in
    let! _ := insert_takeover (MkTakeover ("rest-takeover-" +:+ digest32 (gen +:+ "|" +:+ str_of_Z expected +:+ "|" +:+ str_of_Z new_epoch
                                            +:+ "|" +:+ new_process)) gen expected new_epoch prior_process new_process now) in
    let! rows := self pending_rows in
    deny_all rows now now_mono "coordinator_takeover_requires_exact_request_replay").

Definition takeover (expected new_epoch : Z) (prior_process new_process : string) (proof : RestTakeoverProof) (now now_mono : Z)
    : Budget unit :=
  if negb (proof_complete proof) then jraise (RuntimeError "REST coordinator takeover proof is incomplete") else
  if negb (new_epoch =? expected + 1) then jraise (ValueError "REST coordinator epoch must advance by exactly one") else
  let! _ := take_over_ledger expected new_epoch prior_process new_process now now_mono in
  jmodify (fun c => with_identity c new_epoch new_process).

(** [usage] *)
Record Usage := MkUsage {
  ordinary_used : Z; ordinary_remaining : Z; reserve_used : Z; reserve_remaining : Z;
  pending_requests : Z; pending_critical : Z; us_clock_epoch : Z; clock_quarantine_remaining_ms : Z;
}.

Definition usage (now_mono : Z) (c : Coordinator) : res Usage :=
  let rows := recent_grants now_mono c in
  wait ← clock_quarantine_wait now_mono c;
  Ok (MkUsage (used "ordinary" rows) (ordinary_weight c - used "ordinary" rows) (used "reserve" rows)
        (reserve_weight c - used "reserve" rows) (Z.of_nat (List.length (pending_rows c)))
        (Z.of_nat (List.length (List.filter (fun q => rq_priority q =? 0) (pending_rows c)))) (clock_epoch c) wait).
End Coordinator.
