(* ===== verification/RestFence.v ===== *)
(** rest_budget.py: the hand-over between two ledgers.

    A launch preview spends weight in a ledger of its own.  Its grants are carried into the
    ledger of the run, and the preview's ledger is fenced so that it grants nothing more. *)

From S2P Require Import Prelude PyText Models RestPolicy RestBudget.

Open Scope Z_scope.

Section Fence.
Variables (sha256 : string -> string).

(** * Snapshots *)

Definition grant_row_json (seq : Z) (g : GrantRow) : json := JObj [
  ("seq", JInt seq); ("grant_id", JStr (gr_id g)); ("generation", JStr (key_generation (gr_key g)));
  ("coordinator_epoch", JInt (gr_epoch g)); ("sender", JStr (key_sender (gr_key g))); ("sender_epoch", JInt (key_epoch (gr_key g)));
  ("message_id", JInt (key_id (gr_key g))); ("priority", JInt (gr_priority g)); ("endpoint", JStr (gr_endpoint g));
  ("weight", JInt (gr_weight g)); ("pool", JStr (gr_pool g)); ("granted_wall_ms", JInt (gr_wall g));
  ("granted_mono_ms", JInt (gr_mono g)); ("clock_epoch", JInt (gr_clock_epoch g))].

(** [_recent_grant_rows_locked], with the row numbers *)
Fixpoint numbered (now_mono : Z) (c : Coordinator) (seq : Z) (rows : list GrantRow) : list json :=
  match rows with
  | [] => []
  | g :: rest => let others := numbered now_mono c (seq + 1) rest in
                 if recent_grant now_mono c g then grant_row_json seq g :: others else others
  end.

(** [recent_grant_snapshot] *)
Definition recent_grant_snapshot (now now_mono : Z) (c : Coordinator) : list (string * json) :=
  let payload := [("generation", JStr (generation c)); ("clock_epoch", JInt (clock_epoch c)); ("captured_wall_ms", JInt now);
                  ("captured_mono_ms", JInt now_mono); ("window_ms", JInt REST_BUDGET_WINDOW_MS);
                  ("grants", JList (numbered now_mono c 1 (grants (ledger c))))] in
  payload ++ [("snapshot_sha256", JStr (hash_json sha256 (JObj payload)))].

(** [body.pop(key)] *)
Definition without (key : string) (o : list (string * json)) : list (string * json) :=
  List.filter (fun kv => negb (bool_decide (kv.1 = key))) o.

(** [int(o.get(key) or 0)] and [str(o.get(key) or "")] *)
Definition field_int (key : string) (o : list (string * json)) : res Z := json_int (json_or (obj_field key o) (JInt 0)).
Definition field_str (key : string) (o : list (string * json)) : string := str_or_empty (obj_field key o).

Definition field_is (key value : string) (o : list (string * json)) : bool := json_eqb (obj_field key o) (JStr value).

(** The snapshot says what it hashes. *)
Definition snapshot_hash (snapshot : list (string * json)) : string := py_str (default (JStr "") (obj_get "snapshot_sha256" snapshot)).
Definition snapshot_intact (snapshot : list (string * json)) : bool :=
  bool_decide (snapshot_hash snapshot = hash_json sha256 (JObj (without "snapshot_sha256" snapshot))).

(** * Importing *)

Record ImportedGrant := MkImported {
  ig_source : string;
  ig_index : Z;
  ig_priority : RestPriority;
  ig_endpoint : string;
  ig_weight : Z;
  ig_wall : Z;
  ig_mono : Z;
}.

Definition import_error {A} (msg : string) : res A := Raise (ValueError msg).

Definition import_priority (row : list (string * json)) : res RestPriority :=
  match obj_field "priority" row with
  | JInt _ | JBool _ | JStr _ => n ← json_int (obj_field "priority" row); priority_of n
  | _ => import_error "REST grant import priority is malformed"
  end.

Definition PREVIEW_SENDER : string := "fleet-supervisor-preview-reservation".

(** One row of the snapshot. *)
Definition import_row (source : string) (source_clock captured_mono now_mono : Z) (acc : list ImportedGrant * list string)
    (ir : Z * json) : res (list ImportedGrant * list string) :=
  match ir.2 with
  | JObj row =>
      let id := field_str "grant_id" row in
      p ← import_priority row;
      let endpoint := field_str "endpoint" row in
      weight ← field_int "weight" row;
      let sender := field_str "sender" row in
      mono ← field_int "granted_mono_ms" row;
      wall ← field_int "granted_wall_ms" row;
      if is_empty id || bool_decide (id ∈ acc.2) || negb (field_is "generation" source row)
      then import_error "REST grant import row identity is invalid" else
      ce ← field_int "clock_epoch" row;
      if negb (ce =? source_clock) || negb (field_is "pool" "ordinary" row) || (wall <=? 0) || (mono <=? 0) || (captured_mono <? mono)
      then import_error "REST grant import row identity is invalid" else
      _ ← validate_sender_policy sender p endpoint weight;
      Ok (if REST_BUDGET_WINDOW_MS <=? now_mono - mono then acc.1
          else acc.1 ++ [MkImported id ir.1 p endpoint weight wall mono], id :: acc.2)
  | _ => import_error "REST grant import row is malformed"
  end.

Fixpoint enumerate_from (n : Z) (l : list json) : list (Z * json) :=
  match l with [] => [] | x :: rest => (n, x) :: enumerate_from (n + 1) rest end.

(** The checks of a snapshot, and the grants of it that are still in the window. *)
Record CheckedImport := MkChecked {
  ci_clock_epoch : Z; ci_captured_wall : Z; ci_captured_mono : Z; ci_count : Z; ci_rows : list ImportedGrant }.

Definition import_weight (rows : list ImportedGrant) : Z := sum_of (ig_weight <$> rows).

Definition check_import (snapshot : list (string * json)) (source : string) (now_mono : Z) (c : Coordinator) : res CheckedImport :=
  if negb (snapshot_intact snapshot) then import_error "REST grant import snapshot hash is invalid" else
  let body := without "snapshot_sha256" snapshot in
  if negb (field_is "generation" source body) then import_error "REST grant import snapshot identity is invalid" else
  ce ← field_int "clock_epoch" body;
  window ← (if ce <? 1 then Ok 0 else field_int "window_ms" body);
  match obj_field "grants" body with
  | JList rows =>
      if (ce <? 1) || negb (window =? REST_BUDGET_WINDOW_MS) then import_error "REST grant import snapshot identity is invalid" else
      captured_mono ← field_int "captured_mono_ms" body;
      captured_wall ← field_int "captured_wall_ms" body;
      if (captured_wall <=? 0) || (captured_mono <=? 0) || (now_mono <? captured_mono)
      then import_error "REST grant import snapshot clock identity is invalid" else
      wait ← clock_quarantine_wait now_mono c;
      if 0 <? wait then import_error "REST grant import snapshot clock identity is invalid" else
      checked ← fold_res (import_row source ce captured_mono now_mono) (enumerate_from 1 rows) ([], []);
      if ordinary_weight c <? import_weight checked.1 then import_error "REST grant import exceeds the run ordinary budget" else
      Ok (MkChecked ce captured_wall captured_mono (Z.of_nat (List.length rows)) checked.1)
  | _ => import_error "REST grant import snapshot identity is invalid"
  end.

(** What stands for an imported grant in the three tables. *)
Definition carry_over (now : Z) (i : ImportedGrant) : Budget unit :=
  let! c := self (fun c => c) in
  let key := (generation c, PREVIEW_SENDER, 1, ig_index i) in
  let id := "rest-carryover-" +:+ digest32 sha256 (generation c +:+ "|" +:+ str_of_Z (clock_epoch c) +:+ "|" +:+ ig_source i) in
  let! _ := insert_grant (MkGrantRow id key (epoch c) (priority_value (ig_priority i)) (ig_endpoint i) (ig_weight i) "ordinary"
                            (ig_wall i) (ig_mono i) (clock_epoch c)) in
  let hash := request_sha256 sha256 (generation c) (MkAsked PREVIEW_SENDER 1 (ig_index i) (ig_priority i) (ig_endpoint i) (ig_weight i)) in
  let text := grant_text (MkGrant id true (generation c) (epoch c) PREVIEW_SENDER 1 (ig_index i) (ig_priority i) (ig_endpoint i)
                            (ig_weight i) "ordinary" (ig_wall i) 0 "imported_preview_reservation") in
  let! _ := insert_request (MkRequest key (priority_value (ig_priority i)) (ig_endpoint i) (ig_weight i) hash (ig_wall i) (ig_mono i)
                              (Some (text, now))) in
  insert_ack (MkAck key hash text now).

Fixpoint carry_over_all (now : Z) (rows : list ImportedGrant) : Budget unit :=
  match rows with
  | [] => jret tt
  | i :: rest => let! _ := carry_over now i in carry_over_all now rest
  end.

Definition find_import (source : string) (l : Ledger) : option ImportRow :=
  List.find (fun i => bool_decide (im_generation i = source)) (imports l).

(** [import_recent_grant_snapshot] *)
Definition import_recent_grant_snapshot (snapshot : list (string * json)) (source : string) (now now_mono : Z) : Budget ImportRow :=
  let! checked := jquery (check_import snapshot source now_mono) in
  immediate (
    let! prior := select (find_import source) in
    match prior with
    | Some i =>
        if negb (bool_decide (im_sha256 i = snapshot_hash snapshot))
        then jraise (RuntimeError "REST grant import source was replayed differently") else jret i
    | None =>
        let! _ := carry_over_all now (ci_rows checked) in
        let! ce := self clock_epoch in
        let row := MkImport source (snapshot_hash snapshot) (ci_clock_epoch checked) (ci_captured_wall checked) (ci_captured_mono checked)
                     (ci_count checked) (Z.of_nat (List.length (ci_rows checked))) (import_weight (ci_rows checked)) ce now in
        let! _ := insert (fun l => match find_import source l with Some _ => true | None => false end) (fun l => add_import l row) in
        jret row
    end).

(** * The egress fence *)

(** [stale_egress_fence_release_status] *)
Record FenceStatus := MkFenceStatus { fs_ready : bool; fs_wait_ms : Z; fs_reason : string }.

Definition stale_egress_fence_release_status (now_mono : Z) (c : Coordinator) : res FenceStatus :=
  e ← clock_epoch_row c;
  match fence (ledger c) with
  | None => Ok (MkFenceStatus true 0 "no_fence")
  | Some f =>
      let same := fn_clock_epoch f =? clock_epoch c in
      let ready_at := if same then fn_mono f + REST_BUDGET_WINDOW_MS else ep_quarantine_until e in
      let wait := Z.max 0 (ready_at - now_mono) in
      Ok (MkFenceStatus (wait =? 0) wait (if same then "same_clock_epoch_window" else "prior_clock_epoch_quarantine"))
  end.

(** A grant of the snapshot that cannot be of its clock epoch. *)
Fixpoint foreign_grant (snapshot_clock captured_mono : Z) (rows : list json) : res bool :=
  match rows with
  | [] => Ok false
  | JObj row :: rest =>
      ce ← field_int "clock_epoch" row;
      if negb (ce =? snapshot_clock) then Ok true else
      mono ← field_int "granted_mono_ms" row;
      if (mono <=? 0) || (captured_mono <? mono) then Ok true else foreign_grant snapshot_clock captured_mono rest
  | _ :: _ => Ok true
  end.

Definition grant_ids (rows : list json) : list string :=
  omap (fun j => match j with JObj row => Some (field_str "grant_id" row) | _ => None end) rows.

(** The grants the preview knew of. *)
Definition check_fence_snapshot (preview : string) (snapshot : list (string * json)) (now_mono : Z) (c : Coordinator) : res (list string) :=
  if negb (is_sha256_text preview) then import_error "REST egress fence preview hash is invalid" else
  let body := without "snapshot_sha256" snapshot in
  if negb (snapshot_intact snapshot) || negb (field_is "generation" (generation c) body)
  then import_error "REST egress fence snapshot is invalid" else
  window ← field_int "window_ms" body;
  match obj_field "grants" body with
  | JList rows =>
      if negb (window =? REST_BUDGET_WINDOW_MS) then import_error "REST egress fence snapshot is invalid" else
      let ids : gset string := list_to_set (grant_ids rows) in
      if bool_decide (ids = ∅) || bool_decide ("" ∈ ids) || negb (size ids =? List.length rows)%nat
      then import_error "REST egress fence snapshot grant identities are invalid" else
      captured_mono ← field_int "captured_mono_ms" body;
      snapshot_clock ← field_int "clock_epoch" body;
      if negb (snapshot_clock =? clock_epoch c) || (captured_mono <=? 0) || (now_mono <? captured_mono)
      then import_error "REST egress fence snapshot clock epoch is invalid" else
      foreign ← foreign_grant snapshot_clock captured_mono rows;
      if foreign : bool then import_error "REST egress fence snapshot clock epoch is invalid" else Ok (elements ids)
  | _ => import_error "REST egress fence snapshot is invalid"
  end.

(** [freeze_egress] *)
Definition freeze_egress (preview : string) (snapshot : list (string * json)) (now now_mono : Z) : Budget FenceRow :=
  let! expected := jquery (check_fence_snapshot preview snapshot now_mono) in
  immediate (
    let! c := self (fun c => c) in
    match fence (ledger c) with
    | Some f =>
        if bool_decide (fn_generation f = generation c) && bool_decide (fn_preview f = preview) then jret f
        else jraise (RuntimeError "host-wide REST egress is already launch-fenced")
    | None =>
        if negb (bool_decide (pending_rows c = [])) then jraise (RuntimeError "host-wide REST egress has pending requests") else
        if negb (forallb (fun g => bool_decide (gr_id g ∈ expected)) (recent_grants now_mono c))
        then jraise (RuntimeError "host-wide REST grants changed after preview; request a fresh preview") else
        let f := MkFence (generation c) preview (process_identity c) now now_mono (clock_epoch c) in
        let! _ := update (fun l => set_fence l (Some f)) in jret f
    end).

(** [release_egress_fence] *)
Definition release_egress_fence (preview : string) : Budget bool := immediate (
  let! f := select fence in
  match f with
  | None => jret false
  | Some f =>
      if negb (bool_decide (fn_preview f = preview)) then jraise (RuntimeError "REST egress fence preview identity mismatch") else
      let! _ := update (fun l => set_fence l None) in jret true
  end).
End Fence.

(** * The pipe *)

(** [RestBudgetPipeServer._handle] *)
Definition required_str (key : string) (o : list (string * json)) : res string :=
  match obj_get key o with Some v => Ok (py_str v) | None => Raise (KeyError key) end.
Definition required_int (key : string) (o : list (string * json)) : res Z :=
  match obj_get key o with Some v => json_int v | None => Raise (KeyError key) end.

(** The request of a message, and the generation it was sent to. *)
Definition read_message (gen : string) (message : json) : res Asked :=
  match message with
  | JObj o =>
      if negb (field_is "generation" gen o) then Raise (RuntimeError "REST pipe generation fence failed") else
      sender ← required_str "sender" o; sender_epoch ← required_int "sender_epoch" o; message_id ← required_int "message_id" o;
      pv ← required_int "priority" o; p ← priority_of pv; endpoint ← required_str "endpoint" o; weight ← required_int "weight" o;
      Ok (MkAsked sender sender_epoch message_id p endpoint weight)
  | _ => Raise (ValueError "REST pipe request must be an object")
  end.

Definition handle_request (sha256 : string -> string) (loads : string -> option json) (meanwhile1 meanwhile2 : Coordinator -> Coordinator)
    (message : json) (now now_mono : Z) : Budget json :=
  let! gen := self generation in
  let! a := jlift (read_message gen message) in
  let! g := request_grant sha256 loads meanwhile1 meanwhile2 a now now_mono in
  jret (JObj [("ok", JBool true); ("grant", grant_json g)]).

(** The durable counter of a client: the number of its next message. *)
Definition next_message_id (sender : string) (sender_epoch : Z) (ids : gmap (string * Z) Z) : gmap (string * Z) Z * Z :=
  let n := default 1 (ids !! (sender, sender_epoch)) in (<[(sender, sender_epoch) := n + 1]> ids, n).
