(* ===== verification/BudgetFacts.v ===== *)
(** The ledger of REST grants keeps its budget: in every window of a minute the weight it
    granted is inside the budget, up to what was imported late.  DecisionFacts.v adds that a
    message is decided once. *)

From S2P Require Import Prelude PyText Models RestPolicy RestBudget RestFence.

Open Scope Z_scope.

(** * Sums *)

Lemma fold_add_acc l a : fold_left Z.add l a = a + fold_left Z.add l 0.
Proof.
  revert a. induction l as [|x l IH]; intros a; cbn [fold_left]; [lia|]. rewrite (IH (a + x)), (IH (0 + x)). lia.
Qed.

Lemma sum_cons x l : sum_of (x :: l) = x + sum_of l.
Proof. unfold sum_of. cbn [fold_left]. rewrite (fold_add_acc l (0 + x)). lia. Qed.

Lemma sum_app a b : sum_of (a ++ b) = sum_of a + sum_of b.
Proof. induction a as [|x a IH]; cbn [app]; rewrite ?sum_cons; [unfold sum_of; cbn; lia|]. lia. Qed.

(** The weight of the rows that satisfy a test. *)
Definition weigh (f : GrantRow -> bool) (rows : list GrantRow) : Z := sum_of (gr_weight <$> List.filter f rows).

Lemma weigh_cons f g rows : weigh f (g :: rows) = (if f g then gr_weight g else 0) + weigh f rows.
Proof. unfold weigh. cbn [List.filter]. destruct (f g); cbn [fmap list_fmap]; [by rewrite sum_cons|lia]. Qed.

Lemma weigh_snoc f rows g : weigh f (rows ++ [g]) = weigh f rows + if f g then gr_weight g else 0.
Proof.
  unfold weigh. rewrite List.filter_app, fmap_app, sum_app. cbn [List.filter]. by destruct (f g).
Qed.

Lemma weigh_mono f f' rows :
  Forall (fun g => 0 <= gr_weight g) rows -> Forall (fun g => f g = true -> f' g = true) rows -> weigh f rows <= weigh f' rows.
Proof.
  induction rows as [|g rows IH]; [done|]. intros [H Hw]%list.Forall_cons [Hi Hf]%list.Forall_cons. rewrite !weigh_cons. specialize (IH Hw Hf).
  destruct (f g) eqn:E; [rewrite Hi by done; lia|]. destruct (f' g); lia.
Qed.

Lemma weigh_nonneg f rows : Forall (fun g => 0 <= gr_weight g) rows -> 0 <= weigh f rows.
Proof. induction rows as [|g rows IH]; [done|]. intros [H Hw]%list.Forall_cons. rewrite weigh_cons. specialize (IH Hw). destruct (f g); lia. Qed.

Lemma used_weigh p f rows : used p (List.filter f rows) = weigh (fun g => f g && bool_decide (gr_pool g = p)) rows.
Proof.
  unfold used, weigh. do 2 f_equal. induction rows as [|g rows IH]; [done|]. cbn [List.filter].
  destruct (f g); cbn [List.filter andb]; [case_bool_decide|]; by rewrite IH.
Qed.

(** * What a ledger may spend *)

(** The grant belongs to the pool and to the minute up to [t], on the clock [ce]. *)
Definition in_window (ce : Z) (p : string) (t : Z) (g : GrantRow) : bool :=
  (gr_clock_epoch g =? ce) && bool_decide (gr_pool g = p) && (t - REST_BUDGET_WINDOW_MS <? gr_mono g) && (gr_mono g <=? t).

Definition spent (ce : Z) (p : string) (t : Z) (l : Ledger) : Z := weigh (in_window ce p t) (grants l).

(** The budget of a pool. *)
Definition budget_of (p : string) (o : OwnerRow) : Z :=
  if bool_decide (p = "ordinary") then ow_ordinary o else if bool_decide (p = "reserve") then ow_reserve o else 0.

(** * The abstract ledger *)

(** The answer is about the message. *)
Definition describes (g : RestGrant) (k : message_key) : Prop := (g_generation g, g_sender g, g_sender_epoch g, g_message_id g) = k.

Definition fresh_request (k : message_key) (l : Ledger) : Prop := k ∉ rq_key <$> requests l.
Definition fresh_ack (k : message_key) (l : Ledger) : Prop := k ∉ ak_key <$> acks l.
Definition fresh_grant (k : message_key) (l : Ledger) : Prop := k ∉ gr_key <$> grants l.

(** The pending request [q] gets its answer. *)
Definition answered (q : RequestRow) (g : RestGrant) (now : Z) (l : Ledger) : Ledger :=
  let l := add_ack l (MkAck (rq_key q) (rq_sha256 q) (grant_text g) now) in
  set_requests l (decided (rq_key q) (grant_text g) now <$> requests l).

(** Another owner row keeps the generation and the budgets. *)
Definition frozen (o o' : OwnerRow) : Prop :=
  ow_generation o' = ow_generation o /\ ow_ordinary o' = ow_ordinary o /\ ow_reserve o' = ow_reserve o.

(** A new owner is within the allowance of the address. *)
Definition allowance (o : OwnerRow) : Prop := 0 < ow_ordinary o /\ 0 < ow_reserve o /\ ow_ordinary o + ow_reserve o <= 1200.

(** The row is paid from its pool, and a reserve only pays for what may use it. *)
Definition affordable (row : GrantRow) (l : Ledger) : Prop :=
  exists o, owner l = Some o /\ key_generation (gr_key row) = ow_generation o /\
    (gr_pool row = "ordinary" \/ (gr_pool row = "reserve" /\ gr_priority row <= 2)) /\
    weigh (fun g => (gr_clock_epoch g =? gr_clock_epoch row) && bool_decide (gr_pool g = gr_pool row)
                    && (gr_mono row - REST_BUDGET_WINDOW_MS <? gr_mono g)) (grants l) + gr_weight row <= budget_of (gr_pool row) o.

(** What may happen to the tables of grants, requests and acknowledgements. *)
Inductive event : Ledger -> Ledger -> Prop :=
  | ev_owner l l' : grants l' = grants l -> requests l' = requests l -> acks l' = acks l ->
      match owner l, owner l' with
      | Some o, Some o' => frozen o o'
      | None, Some o => allowance o
      | None, None => True
      | Some _, None => False
      end -> event l l'
  | ev_queue l q : fresh_request (rq_key q) l -> fresh_ack (rq_key q) l -> rq_decided q = None -> 1 <= rq_weight q ->
      event l (set_requests l (requests l ++ [q]))
  | ev_refuse l q g now : fresh_request (rq_key q) l -> fresh_ack (rq_key q) l -> 1 <= rq_weight q ->
      rq_decided q = Some (grant_text g, now) -> granted g = false -> describes g (rq_key q) ->
      event l (add_ack (set_requests l (requests l ++ [q])) (MkAck (rq_key q) (rq_sha256 q) (grant_text g) now))
  | ev_deny l q g now : q ∈ requests l -> rq_decided q = None -> fresh_ack (rq_key q) l -> granted g = false -> describes g (rq_key q) ->
      event l (answered q g now l)
  | ev_grant l q g row now : q ∈ requests l -> rq_decided q = None -> fresh_ack (rq_key q) l -> fresh_grant (rq_key q) l ->
      granted g = true -> describes g (rq_key q) -> gr_key row = rq_key q -> gr_weight row = rq_weight q -> affordable row l ->
      event l (answered q g now (add_grant l row))
  | ev_carry l row q g now o : fresh_request (rq_key q) l -> fresh_ack (rq_key q) l -> fresh_grant (rq_key q) l ->
      1 <= rq_weight q -> rq_decided q = Some (grant_text g, now) -> granted g = true -> describes g (rq_key q) ->
      gr_key row = rq_key q -> gr_weight row = rq_weight q -> gr_pool row = "ordinary" ->
      owner l = Some o -> key_generation (gr_key row) = ow_generation o ->
      weigh (fun _ => true) (grants l) + gr_weight row <= ow_ordinary o ->
      event l (add_ack (set_requests (add_grant l row) (requests l ++ [q])) (MkAck (rq_key q) (rq_sha256 q) (grant_text g) now)).

(** * The invariant of the ledger *)

(** The ordinary pool may be [slack] above its budget: the weight that was imported into the
    ledger when it had already granted. *)
Section Slack.
Context {slack : N}.

(** An acknowledgement is the answer to its request, and tells whether there is a grant. *)
Definition answers (l : Ledger) (x : AckRow) : Prop :=
  exists q g now, q ∈ requests l /\ rq_key q = ak_key x /\ rq_sha256 q = ak_sha256 x /\ rq_decided q = Some (ak_response x, now) /\
    ak_response x = grant_text g /\ describes g (ak_key x) /\ (granted g = true <-> ak_key x ∈ gr_key <$> grants l).

Definition payable (g : GrantRow) : Prop :=
  0 <= gr_weight g /\ (gr_pool g = "ordinary" \/ (gr_pool g = "reserve" /\ gr_priority g <= 2)).

Definition slack_of (p : string) : Z := if bool_decide (p = "ordinary") then Z.of_N slack else 0.

Lemma slack_nonneg p : 0 <= slack_of p.
Proof. unfold slack_of. case_bool_decide; lia. Qed.

Record sound_with (l : Ledger) : Prop := {
  sd_owner : match owner l with Some o => allowance o | None => grants l = [] end;
  sd_weights : Forall (fun q => 1 <= rq_weight q) (requests l);
  sd_payable : Forall payable (grants l);
  sd_generation o : owner l = Some o -> Forall (fun g => key_generation (gr_key g) = ow_generation o) (grants l);
  sd_spent o ce p t : owner l = Some o -> spent ce p t l <= budget_of p o + slack_of p;
  sd_requests : NoDup (rq_key <$> requests l);
  sd_acks : NoDup (ak_key <$> acks l);
  sd_grants : NoDup (gr_key <$> grants l);
  sd_answers x : x ∈ acks l -> answers l x;
  sd_decided q : q ∈ requests l -> rq_decided q <> None -> rq_key q ∈ ak_key <$> acks l;
  sd_paid g : g ∈ grants l -> gr_key g ∈ ak_key <$> acks l;
}.

#[local] Abbreviation sound := sound_with.

Lemma payable_weights l : Forall payable (grants l) -> Forall (fun g => 0 <= gr_weight g) (grants l).
Proof. apply Forall_impl. by intros g [H _]. Qed.

Lemma sound_empty : sound empty_ledger.
Proof. split; cbn; try done; try constructor; set_solver. Qed.

Lemma decided_key k text now q : rq_key (decided k text now q) = rq_key q.
Proof. unfold decided. by destruct (_ && _). Qed.
Lemma decided_weight k text now q : rq_weight (decided k text now q) = rq_weight q.
Proof. unfold decided. by destruct (_ && _). Qed.

Lemma decided_other k text now q : rq_key q <> k \/ rq_decided q <> None -> decided k text now q = q.
Proof.
  unfold decided. intros [H|H]; [by rewrite bool_decide_false|]. destruct (rq_decided q); [by rewrite andb_false_r|done].
Qed.

Lemma decided_keys k text now (rows : list RequestRow) : rq_key <$> (decided k text now <$> rows) = rq_key <$> rows.
Proof. rewrite <- list_fmap_compose. apply list_fmap_ext. intros ? q _. apply decided_key. Qed.

Lemma NoDup_snoc {A} (l : list A) x : NoDup l -> x ∉ l -> NoDup (l ++ [x]).
Proof. intros Hl Hx. apply list.NoDup_app. split; [done|]. split; [set_solver|apply NoDup_singleton]. Qed.

Lemma spent_same ce p t l l' : grants l' = grants l -> spent ce p t l' = spent ce p t l.
Proof. unfold spent. by intros ->. Qed.

(** The other answers do not change when a message gets its own. *)
Lemma answers_kept l l' x k :
  answers l x -> ak_key x <> k ->
  (forall q, q ∈ requests l -> rq_key q <> k -> q ∈ requests l') ->
  (grants l' = grants l \/ exists row, gr_key row = k /\ grants l' = grants l ++ [row]) -> answers l' x.
Proof.
  intros (q & g & now & Hq & Hk & Hs & Hd & Ht & Hg & Hp) Hne Hreq Hgr. exists q, g, now.
  split_and!; try done; [apply Hreq; [done|congruence]|]. rewrite Hp.
  destruct Hgr as [->|(row & Hrow & ->)]; [done|]. rewrite fmap_app, elem_of_app. cbn. rewrite Hrow. set_solver.
Qed.

Lemma spent_snoc ce p t l row :
  weigh (in_window ce p t) (grants l ++ [row]) = spent ce p t l + if in_window ce p t row then gr_weight row else 0.
Proof. apply weigh_snoc. Qed.

(** A payable row that was affordable keeps every window inside its budget. *)
Lemma afford l row o ce p t : sound l -> owner l = Some o -> affordable row l ->
  weigh (in_window ce p t) (grants l ++ [row]) <= budget_of p o + slack_of p.
Proof.
  intros Hs Ho (o' & Ho' & Hgen & Hpool & Hle). rewrite Ho in Ho'. injection Ho' as <-. rewrite spent_snoc.
  destruct (in_window ce p t row) eqn:E; [|pose proof (sd_spent _ Hs o ce p t Ho); lia].
  unfold in_window in E. bool_prop. subst ce p.
  etrans; [|apply Z.add_le_mono; [exact Hle|apply slack_nonneg]]. rewrite Z.add_0_r. apply Z.add_le_mono_r. apply weigh_mono; [apply payable_weights, Hs|].
  apply list.Forall_forall. intros g _ Hg. unfold in_window in Hg. bool_prop.
  rewrite (proj2 (Z.eqb_eq _ _)), bool_decide_true by done. apply Z.ltb_lt. lia.
Qed.

Lemma carried l row o ce p t : sound l -> owner l = Some o -> gr_pool row = "ordinary" -> 0 <= gr_weight row ->
  weigh (fun _ => true) (grants l) + gr_weight row <= ow_ordinary o ->
  weigh (in_window ce p t) (grants l ++ [row]) <= budget_of p o + slack_of p.
Proof.
  intros Hs Ho Hp Hw Hle. rewrite spent_snoc. destruct (in_window ce p t row) eqn:E; [|pose proof (sd_spent _ Hs o ce p t Ho); lia].
  unfold in_window in E. bool_prop. subst p. rewrite Hp. unfold budget_of. rewrite bool_decide_true by done.
  pose proof (slack_nonneg (gr_pool row)) as Hslack.
  enough (spent ce (gr_pool row) t l <= weigh (fun _ => true) (grants l)) by (rewrite <- Hp; lia).
  apply weigh_mono; [apply payable_weights, Hs|]. by apply list.Forall_forall.
Qed.

(** One more acknowledgement, with the grant it may come with. *)
Lemma sound_grow l l' x rows :
  sound l -> owner l' = owner l -> acks l' = acks l ++ [x] -> fresh_ack (ak_key x) l -> answers l' x ->
  grants l' = grants l ++ rows ->
  (rows = [] \/ exists row, rows = [row] /\ gr_key row = ak_key x /\ payable row /\ fresh_grant (gr_key row) l /\
     exists o, owner l = Some o /\ key_generation (gr_key row) = ow_generation o /\
       forall ce p t, weigh (in_window ce p t) (grants l ++ rows) <= budget_of p o + slack_of p) ->
  Forall (fun q => 1 <= rq_weight q) (requests l') -> NoDup (rq_key <$> requests l') ->
  (forall q, q ∈ requests l -> rq_key q <> ak_key x -> q ∈ requests l') ->
  (forall q, q ∈ requests l' -> rq_decided q <> None -> rq_key q = ak_key x \/ q ∈ requests l) ->
  sound l'.
Proof.
  intros Hs Ho Ha Hf Hx Hg Hrows Hw Hnd Hkeep Hnew.
  assert (forall y, y ∈ acks l -> ak_key y <> ak_key x) as Hother.
  { intros y Hy E. apply Hf. rewrite <- E. by apply list_elem_of_fmap_2. }
  split.
  - rewrite Ho. pose proof (sd_owner _ Hs) as H. destruct (owner l) as [o|] eqn:Eo; [done|]. rewrite Hg, H.
    destruct Hrows as [->|(row & _ & _ & _ & _ & o & ? & _)]; [done|congruence].
  - done.
  - rewrite Hg. apply Forall_app. split; [apply Hs|]. destruct Hrows as [->|(row & -> & _ & Hp & _)]; [done|by constructor; [|constructor]].
  - intros o E. rewrite Ho in E. rewrite Hg. apply Forall_app. split; [by apply (sd_generation _ Hs)|].
    destruct Hrows as [->|(row & -> & _ & _ & _ & o' & Ho' & Hgen & _)]; [done|]. constructor; [|done]. congruence.
  - intros o ce p t E. rewrite Ho in E. unfold spent. rewrite Hg. destruct Hrows as [->|(row & _ & _ & _ & _ & o' & Ho' & _ & Hb)].
    + rewrite app_nil_r. by apply (sd_spent _ Hs).
    + assert (o' = o) as -> by congruence. apply Hb.
  - done.
  - rewrite Ha, fmap_app. by apply NoDup_snoc; [apply Hs|].
  - rewrite Hg, fmap_app. destruct Hrows as [->|(row & -> & _ & _ & Hfr & _)]; [rewrite app_nil_r; apply Hs|].
    by apply NoDup_snoc; [apply Hs|].
  - intros y. rewrite Ha, elem_of_app, list_elem_of_singleton. intros [Hy| ->]; [|done].
    apply (answers_kept l _ _ (ak_key x)); [by apply Hs|by apply Hother|done|]. rewrite Hg.
    destruct Hrows as [->|(row & -> & Hk & _)]; [left; by rewrite app_nil_r|right; by exists row].
  - intros q Hq Hd. rewrite Ha, fmap_app, elem_of_app. destruct (Hnew q Hq Hd) as [->|Hin]; [right; by left|].
    left. by apply (sd_decided _ Hs).
  - intros g. rewrite Hg, Ha, fmap_app, !elem_of_app. intros [Hin|Hin]; [left; by apply (sd_paid _ Hs)|].
    destruct Hrows as [->|(row & -> & Hk & _)]; [by apply elem_of_nil in Hin|]. apply list_elem_of_singleton in Hin as ->.
    rewrite Hk. right. by left.
Qed.

(** A new row with its answer. *)
Lemma sound_added l l' q g now rows :
  sound l -> fresh_request (rq_key q) l -> fresh_ack (rq_key q) l -> 1 <= rq_weight q -> rq_decided q = Some (grant_text g, now) ->
  describes g (rq_key q) -> (granted g = true <-> rq_key q ∈ gr_key <$> grants l') ->
  owner l' = owner l -> acks l' = acks l ++ [MkAck (rq_key q) (rq_sha256 q) (grant_text g) now] -> requests l' = requests l ++ [q] ->
  grants l' = grants l ++ rows ->
  (rows = [] \/ exists row, rows = [row] /\ gr_key row = rq_key q /\ payable row /\ fresh_grant (gr_key row) l /\
     exists o, owner l = Some o /\ key_generation (gr_key row) = ow_generation o /\
       forall ce p t, weigh (in_window ce p t) (grants l ++ rows) <= budget_of p o + slack_of p) ->
  sound l'.
Proof.
  intros Hs Hf Hfa Hw Hd Hdesc Hg Ho Ha Hr Hgr Hrows. apply (sound_grow l _ _ rows Hs Ho Ha); cbn; try done.
  - exists q, g, now. rewrite Hr. split_and!; try done. set_solver.
  - rewrite Hr. apply Forall_app. split; [apply Hs|by constructor; [|constructor]].
  - rewrite Hr, fmap_app. by apply NoDup_snoc; [apply Hs|].
  - intros q' Hq' _. rewrite Hr. set_solver.
  - intros q'. rewrite Hr, elem_of_app, list_elem_of_singleton. intros [?| ->]; tauto.
Qed.

(** A pending row that is answered. *)
Lemma sound_answered l l0 q g now rows :
  sound l -> q ∈ requests l -> rq_decided q = None -> fresh_ack (rq_key q) l -> describes g (rq_key q) ->
  owner l0 = owner l -> requests l0 = requests l -> acks l0 = acks l -> grants l0 = grants l ++ rows ->
  (granted g = true <-> rq_key q ∈ gr_key <$> grants l0) ->
  (rows = [] \/ exists row, rows = [row] /\ gr_key row = rq_key q /\ payable row /\ fresh_grant (gr_key row) l /\
     exists o, owner l = Some o /\ key_generation (gr_key row) = ow_generation o /\
       forall ce p t, weigh (in_window ce p t) (grants l ++ rows) <= budget_of p o + slack_of p) ->
  sound (answered q g now l0).
Proof.
  intros Hs Hq Hd Hf Hdesc Ho Hr Ha Hg Hgr Hrows.
  apply (sound_grow l _ (MkAck (rq_key q) (rq_sha256 q) (grant_text g) now) rows Hs); cbn; try done; rewrite ?Ha, ?Hr; try done.
  - exists (decided (rq_key q) (grant_text g) now q), g, now. cbn. rewrite Hr. split_and!; try done.
    + by apply list_elem_of_fmap_2.
    + apply decided_key.
    + unfold decided. by destruct (_ && _).
    + unfold decided. by rewrite bool_decide_true, Hd.
  - apply list.Forall_fmap. eapply Forall_impl; [|apply Hs]. intros q' H. cbn. by rewrite decided_weight.
  - rewrite decided_keys. apply Hs.
  - intros q' Hq' Hne. rewrite <- (decided_other (rq_key q) (grant_text g) now q') by tauto. by apply list_elem_of_fmap_2.
  - intros q' (q0 & -> & Hq0)%list_elem_of_fmap Hdec. rewrite decided_key in *.
    destruct (decide (rq_key q0 = rq_key q)) as [E|E]; [by left|right]. by rewrite decided_other by tauto.
Qed.

Lemma unpaid l k : sound l -> fresh_ack k l -> k ∉ gr_key <$> grants l.
Proof. intros Hs Hf (g & -> & Hg)%list_elem_of_fmap. by apply Hf, (sd_paid _ Hs). Qed.

Lemma sound_owner_event l l' :
  sound l -> grants l' = grants l -> requests l' = requests l -> acks l' = acks l ->
  match owner l, owner l' with
  | Some o, Some o' => frozen o o'
  | None, Some o => allowance o
  | None, None => True
  | Some _, None => False
  end -> sound l'.
Proof.
  intros Hs Hg Hr Ha Ho.
  assert (forall o', owner l' = Some o' -> grants l = [] \/ exists o, owner l = Some o /\ frozen o o') as Hof.
  { intros o' Ho'. rewrite Ho' in Ho. pose proof (sd_owner _ Hs) as H. destruct (owner l) as [o|]; [right; by exists o|by left]. }
  split; rewrite ?Hg, ?Hr, ?Ha; try apply Hs.
  - pose proof (sd_owner _ Hs) as H. destruct (owner l) as [o|], (owner l') as [o'|]; try done.
    destruct Ho as (_ & E1 & E2). unfold allowance. by rewrite E1, E2.
  - intros o' [->|(o & E & Hf & _)]%Hof; [done|]. rewrite Hf. by apply (sd_generation _ Hs).
  - intros o' ce p t Ho'. pose proof (slack_nonneg p) as Hslack. rewrite (spent_same _ _ _ l) by done. destruct (Hof o' Ho') as [E|(o & E & _ & E1 & E2)].
    + unfold spent. rewrite E. pose proof Ho as Ha'. rewrite Ho' in Ha'. unfold weigh, budget_of. cbn.
      pose proof (sd_owner _ Hs) as Hso. destruct (owner l) as [o|].
      * destruct Ha' as (_ & E1 & E2). destruct Hso as (? & ? & _). rewrite E1, E2. unfold sum_of. cbn. repeat case_bool_decide; lia.
      * destruct Ha' as (? & ? & _). unfold sum_of. cbn. repeat case_bool_decide; lia.
    + unfold budget_of. rewrite E1, E2. by apply (sd_spent _ Hs).
  - intros x Hx. destruct (sd_answers _ Hs x Hx) as (q & g & now & H). exists q, g, now. by rewrite Hg, Hr.
Qed.

Lemma sound_queue l q :
  sound l -> fresh_request (rq_key q) l -> rq_decided q = None -> 1 <= rq_weight q -> sound (set_requests l (requests l ++ [q])).
Proof.
  intros Hs Hf Hd Hw. split; cbn; try apply Hs.
  - apply Forall_app. split; [apply Hs|by constructor; [|constructor]].
  - rewrite fmap_app. by apply NoDup_snoc; [apply Hs|].
  - intros x Hx. destruct (sd_answers _ Hs x Hx) as (q0 & g & now & Hq & H). exists q0, g, now. split; [cbn; set_solver|done].
  - intros q0. rewrite elem_of_app, list_elem_of_singleton. intros [Hq| ->] Hn; [by apply (sd_decided _ Hs)|congruence].
Qed.

Lemma event_sound l l' : sound l -> event l l' -> sound l'.
Proof.
  intros Hs H. revert Hs.
  destruct H as [l1 l2 Hg Hr Ha Ho|l1 q Hf Hfa Hd Hw|l1 q g now Hf Hfa Hw Hd Hg Hdesc|l1 q g now Hq Hd Hfa Hg Hdesc
    |l1 q g row now Hq Hd Hfa Hfg Hg Hdesc Hk Hw Haff|l1 row q g now o Hf Hfa Hfg Hw Hd Hg Hdesc Hk Hwr Hp Ho Hgen Hle]; intros Hs.
  - by apply (sound_owner_event l1 l2 Hs).
  - by apply sound_queue.
  - eapply (sound_added l1 _ q g now []); try done; [|by rewrite app_nil_r|by left].
    cbn. split; [congruence|]. intros H. by apply unpaid in H.
  - eapply (sound_answered l1 l1 q g now []); try done; [by rewrite app_nil_r| |by left].
    split; [congruence|]. intros H. by apply unpaid in H.
  - eapply (sound_answered l1 _ q g now [row]); try done.
    + cbn. rewrite fmap_app, elem_of_app. split; [|done]. intros _. right. cbn. rewrite Hk. by left.
    + right. exists row. pose proof Haff as (o & Ho & Hgen & Hpool & _).
      assert (1 <= rq_weight q) as Hwq by (by apply (proj1 (list.Forall_forall _ _) (sd_weights _ Hs))).
      split_and!; [done|done|split; [lia|done]|by rewrite Hk|]. exists o. split_and!; [done|done|]. intros. by eapply afford.
  - eapply (sound_added l1 _ q g now [row]); try done.
    + cbn. rewrite fmap_app, elem_of_app. split; [|done]. intros _. right. cbn. rewrite Hk. by left.
    + right. exists row. split_and!; [done|done|split; [lia|by left]|by rewrite Hk|]. exists o. split_and!; [done|done|].
      intros. eapply carried; try done. lia.
Qed.

Definition events : Ledger -> Ledger -> Prop := rtc event.

Lemma events_sound l l' : sound l -> events l l' -> sound l'.
Proof. intros Hs. induction 1; [done|]. by eauto using event_sound. Qed.

End Slack.
Arguments sound_with _ _ : clear implicits.
Arguments slack_of _ _ : clear implicits.

Lemma sound_mono s1 s2 l : (s1 <= s2)%N -> sound_with s1 l -> sound_with s2 l.
Proof.
  intros Hle Hs. split; try apply Hs. intros o ce p t Ho. etrans; [by apply (sd_spent _ Hs)|]. unfold slack_of. case_bool_decide; lia.
Qed.

(** ** What events keep *)

(** Answers and grants only accumulate. *)
Lemma event_keeps l l' : event l l' -> (forall x, x ∈ acks l -> x ∈ acks l') /\ (forall g, g ∈ grants l -> g ∈ grants l').
Proof.
  intros H. destruct H as [l1 l2 Hg _ Ha _| | | | |]; cbn; [by rewrite Hg, Ha|..]; split; intros; rewrite ?elem_of_app; auto.
Qed.

Lemma events_keep l l' : events l l' -> (forall x, x ∈ acks l -> x ∈ acks l') /\ (forall g, g ∈ grants l -> g ∈ grants l').
Proof.
  induction 1 as [|l1 l2 l3 H _ [IH1 IH2]]; [done|]. apply event_keeps in H as [H1 H2]. split; eauto.
Qed.

(** * The coordinator refines the abstract ledger *)

(** The coordinator and the owner row have the same generation and budgets. *)
Definition agrees (c : Coordinator) : Prop :=
  exists o, owner (ledger c) = Some o /\ ow_generation o = generation c /\ ow_ordinary o = ordinary_weight c /\ ow_reserve o = reserve_weight c.

(** Only the tables changed. *)
Definition only_tables (c c' : Coordinator) : Prop := c' = with_ledger c (ledger c').

Lemma only_tables_with c l : only_tables c (with_ledger c l).
Proof. done. Qed.
Lemma with_ledger_twice c l l' : with_ledger (with_ledger c l) l' = with_ledger c l'.
Proof. done. Qed.
Lemma with_ledger_same c : with_ledger c (ledger c) = c.
Proof. by destruct c. Qed.

Lemma only_tables_trans c1 c2 c3 : only_tables c1 c2 -> only_tables c2 c3 -> only_tables c1 c3.
Proof. unfold only_tables. intros -> ->. done. Qed.

Lemma not_in_existsb {A K} `{EqDecision K} (key : A -> K) (k : K) rows :
  existsb (fun x => bool_decide (key x = k)) rows = false -> k ∉ key <$> rows.
Proof.
  intros H (x & -> & Hx)%list_elem_of_fmap. apply not_true_iff_false in H. apply H, existsb_exists. exists x.
  split; [by apply list_elem_of_In|]. by apply bool_decide_eq_true.
Qed.

Lemma insert_Ok clash f c c' u : insert clash f c = (c', Ok u) -> clash (ledger c) = false /\ c' = with_ledger c (f (ledger c)).
Proof.
  unfold insert, select, jbind, jquery. destruct (clash (ledger c)); [done|]. by intros [= <- _].
Qed.

Lemma insert_ack_Ok a c c' u : insert_ack a c = (c', Ok u) -> fresh_ack (ak_key a) (ledger c) /\ c' = with_ledger c (add_ack (ledger c) a).
Proof. intros [H ->]%insert_Ok. split; [by apply not_in_existsb|done]. Qed.

Lemma insert_request_Ok q c c' u :
  insert_request q c = (c', Ok u) -> fresh_request (rq_key q) (ledger c) /\ c' = with_ledger c (set_requests (ledger c) (requests (ledger c) ++ [q])).
Proof. intros [H ->]%insert_Ok. split; [by apply not_in_existsb|done]. Qed.

Lemma insert_grant_Ok g c c' u :
  insert_grant g c = (c', Ok u) -> fresh_grant (gr_key g) (ledger c) /\ c' = with_ledger c (add_grant (ledger c) g).
Proof.
  intros [H ->]%insert_Ok. split; [|done]. apply not_in_existsb. apply not_true_iff_false. intros E.
  apply not_true_iff_false in H. apply H. apply existsb_exists in E as (x & Hx & Hk). apply existsb_exists. exists x.
  split; [done|]. by rewrite Hk, orb_true_r.
Qed.

Lemma acknowledge_Ok q g now c c' u :
  acknowledge q g now c = (c', Ok u) -> fresh_ack (rq_key q) (ledger c) /\ c' = with_ledger c (answered q g now (ledger c)).
Proof.
  unfold acknowledge. intros (u1 & c1 & [Hf ->]%insert_ack_Ok & H)%jbind_Ok. split; [done|]. by injection H as <- _.
Qed.

Section Coordinator.
Context {slack : N}.
#[local] Abbreviation sound := (sound_with slack).
Variables (sha256 : string -> string) (loads : string -> option json).

Lemma denial_Ok a now m why c g : denial sha256 a now m why c = Ok g -> granted g = false /\ describes g (asked_key (generation c) a).
Proof. unfold denial. intros H. apply bind_Ok in H as (w & _ & [= <-]). done. Qed.

Lemma asked_of_Ok q a : asked_of q = Ok a -> asked_key (key_generation (rq_key q)) a = rq_key q /\ as_weight a = rq_weight q /\
  priority_value (as_priority a) = rq_priority q.
Proof.
  unfold asked_of. intros H. apply bind_Ok in H as (p & Hp & [= <-]). split_and!; [|done|].
  - unfold asked_key, key_generation, key_sender, key_epoch, key_id. cbn. by destruct (rq_key q) as [[[? ?] ?] ?].
  - cbn. unfold priority_of in Hp. destruct (List.filter _ _) as [|p' l] eqn:E; [done|]. injection Hp as ->.
    assert (In p (List.filter (fun p => priority_value p =? rq_priority q) ALL_PRIORITIES)) as Hin by (rewrite E; by left).
    apply List.filter_In in Hin as [_ Hin]. by apply Z.eqb_eq.
Qed.

Lemma pool_for_spec p w ol rl pl : pool_for p w ol rl = Some pl ->
  (pl = "ordinary" /\ w <= ol) \/ (pl = "reserve" /\ w <= rl /\ priority_value p <= 2).
Proof.
  unfold pool_for, reserve_eligible, reserve_first. intros H. destruct (_ && _) eqn:E in H.
  { injection H as <-. right. bool_prop. split_and!; [done|done|]. destruct p; try set_solver; cbn; lia. }
  destruct (_ <=? ol) eqn:E1 in H; [injection H as <-; left; by bool_prop|].
  destruct (_ && _) eqn:E2 in H; [|done]. injection H as <-. right. bool_prop. split_and!; [done|done|].
  destruct p; cbn; lia || done.
Qed.

Lemma allocate_Ok a now m c c' g :
  sound (ledger c) -> agrees c -> 0 <= as_weight a -> allocate sha256 a now m c = (c', Ok g) ->
  describes g (asked_key (generation c) a) /\
  ((granted g = false /\ c' = c) \/
   (granted g = true /\ exists row, c' = with_ledger c (add_grant (ledger c) row) /\ gr_key row = asked_key (generation c) a /\
      gr_weight row = as_weight a /\ fresh_grant (gr_key row) (ledger c) /\ affordable row (ledger c))).
Proof.
  intros Hs (o & Ho & Hgen & Hord & Hres) Hw. unfold allocate, self. intros H.
  unfold jbind at 1, jquery at 1 in H. unfold jbind at 1, jquery at 1 in H.
  destruct (pool_for _ _ _ _) as [pl|] eqn:Ep.
  2: { unfold jlift in H. injection H as <- H. destruct (denial_Ok _ _ _ _ _ _ H). split; [done|by left]. }
  apply jbind_Ok in H as (u & c1 & [Hf ->]%insert_grant_Ok & [= <- <-]). cbn. split; [done|]. right. split; [done|].
  eexists. split_and!; [reflexivity|done|done|done|]. exists o. cbn. split_and!; [done|done| |].
  - apply pool_for_spec in Ep as [[-> _]|(-> & _ & ?)]; [by left|by right].
  - assert (forall p, weigh (fun g => (gr_clock_epoch g =? clock_epoch c) && bool_decide (gr_pool g = p)
        && (m - REST_BUDGET_WINDOW_MS <? gr_mono g)) (grants (ledger c)) <= used p (recent_grants m c)) as Hused.
    { intros p. unfold recent_grants. rewrite used_weigh. apply weigh_mono; [apply payable_weights, Hs|].
      apply list.Forall_forall. intros x Hx Hin. unfold recent_grant. bool_prop.
      rewrite (proj1 (list.Forall_forall _ _) (sd_generation _ Hs o Ho) x Hx), Hgen, !bool_decide_true by done.
      rewrite (proj2 (Z.eqb_eq _ _)) by done. rewrite andb_true_r. cbn. by apply Z.ltb_lt. }
    cbn [gr_pool gr_weight gr_clock_epoch gr_mono]. apply pool_for_spec in Ep as [[-> Hle]|(-> & Hle & _)].
    + change (budget_of "ordinary" o) with (ow_ordinary o). specialize (Hused "ordinary"). lia.
    + change (budget_of "reserve" o) with (ow_reserve o). specialize (Hused "reserve"). lia.
Qed.

(** A decision: a denial, or a grant the budget can pay. *)
Definition decides (decide_one : Asked -> Budget RestGrant) : Prop := forall a c c' g,
  sound (ledger c) -> agrees c -> 0 <= as_weight a -> decide_one a c = (c', Ok g) ->
  describes g (asked_key (generation c) a) /\
  ((granted g = false /\ c' = c) \/
   (granted g = true /\ exists row, c' = with_ledger c (add_grant (ledger c) row) /\ gr_key row = asked_key (generation c) a /\
      gr_weight row = as_weight a /\ fresh_grant (gr_key row) (ledger c) /\ affordable row (ledger c))).

Lemma denial_decides now m why : decides (fun a => jquery (denial sha256 a now m why)).
Proof.
  intros a c c' g _ _ _ [= <- H]. destruct (denial_Ok _ _ _ _ _ _ H). split; [done|by left].
Qed.

Lemma allocate_decides (denied : bool) now m why :
  decides (fun a => if denied then jquery (denial sha256 a now m why) else allocate sha256 a now m).
Proof. destruct denied; [apply denial_decides|]. intros a c c' g. apply allocate_Ok. Qed.

(** The row waits in the ledger of this generation. *)
Definition waits (c : Coordinator) (q : RequestRow) : Prop :=
  q ∈ requests (ledger c) /\ rq_decided q = None /\ key_generation (rq_key q) = generation c.

Lemma waits_pending c q : q ∈ pending_rows c <-> waits c q.
Proof.
  unfold pending_rows, waits. rewrite list_elem_of_In, List.filter_In, <- list_elem_of_In. unfold is_pending.
  rewrite andb_true_iff, bool_decide_eq_true. destruct (rq_decided q); split; intros; destruct_and?; split_and!; done.
Qed.

Lemma pending_distinct c : NoDup (rq_key <$> requests (ledger c)) -> NoDup (rq_key <$> pending_rows c).
Proof.
  unfold pending_rows. induction (requests (ledger c)) as [|q rows IH]; [done|]. cbn. intros [Hn Hd]%list.NoDup_cons.
  destruct (is_pending _ q); [|by apply IH]. cbn. apply list.NoDup_cons. split; [|by apply IH].
  intros (q' & E & Hq')%list_elem_of_fmap. apply Hn. rewrite E. apply list_elem_of_fmap_2.
  apply list_elem_of_In, List.filter_In in Hq' as [Hq' _]. by apply list_elem_of_In.
Qed.

(** One row, decided and answered. *)
Lemma one_answer decide_one q a g now c c1 c2 u :
  decides decide_one -> sound (ledger c) -> agrees c -> waits c q -> asked_of q = Ok a ->
  decide_one a c = (c1, Ok g) -> acknowledge q g now c1 = (c2, Ok u) ->
  event (ledger c) (ledger c2) /\ only_tables c c2 /\ agrees c2 /\
  forall q', waits c q' -> rq_key q' <> rq_key q -> waits c2 q'.
Proof.
  intros Hd Hs Ha (Hq & Hn & Hgen) Hasked H1 [Hf ->]%acknowledge_Ok.
  assert (1 <= rq_weight q) as Hw by (by apply (proj1 (list.Forall_forall _ _) (sd_weights _ Hs))).
  apply asked_of_Ok in Hasked as (Hk & Hwa & _). rewrite Hgen in Hk.
  destruct (Hd a c c1 g Hs Ha ltac:(lia) H1) as (Hdesc & [[Hg ->]|(Hg & row & -> & Hrk & Hrw & Hfr & Haff)]); rewrite Hk in *.
  - split_and!; [by apply ev_deny|done|exact Ha|]. intros q' (Hq' & Hd' & Hg') Hne. split_and!; try done. cbn.
    rewrite <- (decided_other (rq_key q) (grant_text g) now q') by tauto. by apply list_elem_of_fmap_2.
  - cbn [with_ledger ledger] in Hf |- *. split_and!; [|done|exact Ha|].
    + apply ev_grant; try done; [by rewrite <- Hrk|congruence].
    + intros q' (Hq' & Hd' & Hg') Hne. split_and!; try done. cbn.
      rewrite <- (decided_other (rq_key q) (grant_text g) now q') by tauto. by apply list_elem_of_fmap_2.
Qed.

Lemma answer_rows_events decide_one rows now c c' u :
  decides decide_one -> sound (ledger c) -> agrees c -> NoDup (rq_key <$> rows) -> (forall q, q ∈ rows -> waits c q) ->
  answer_rows decide_one rows now c = (c', Ok u) -> events (ledger c) (ledger c') /\ only_tables c c' /\ agrees c'.
Proof.
  intros Hd. revert c. induction rows as [|q rows IH]; intros c Hs Ha Hnd Hw H; cbn [answer_rows] in H.
  { injection H as <- _. split_and!; [apply rtc_refl|by unfold only_tables; rewrite with_ledger_same|done]. }
  apply jbind_Ok in H as (a & c0 & Hasked & H). injection Hasked as <- Hasked.
  apply jbind_Ok in H as (g & c1 & H1 & H). apply jbind_Ok in H as (u2 & c2 & H2 & H).
  cbn in Hnd. apply list.NoDup_cons in Hnd as [Hni Hnd].
  destruct (one_answer _ _ _ _ _ _ _ _ _ Hd Hs Ha (Hw q ltac:(by left)) Hasked H1 H2) as (He & Ht & Ha2 & Hkeep).
  destruct (IH c2 (event_sound _ _ Hs He) Ha2 Hnd) as (He' & Ht' & Ha'); [|exact H|].
  { intros q' Hq'. apply Hkeep; [apply Hw; by right|]. intros E. apply Hni. rewrite <- E. by apply list_elem_of_fmap_2. }
  split_and!; [by eapply rtc_l|by eapply only_tables_trans|done].
Qed.

(** ** What leaves the three tables alone *)

Record quiet (c c' : Coordinator) : Prop := {
  qt_grants : grants (ledger c') = grants (ledger c);
  qt_requests : requests (ledger c') = requests (ledger c);
  qt_acks : acks (ledger c') = acks (ledger c);
  qt_generation : generation c' = generation c;
  qt_ordinary : ordinary_weight c' = ordinary_weight c;
  qt_reserve : reserve_weight c' = reserve_weight c;
  qt_owner : match owner (ledger c), owner (ledger c') with
             | Some o, Some o' => frozen o o'
             | None, None => True
             | _, _ => False
             end;
}.

Lemma quiet_refl c : quiet c c.
Proof. split; try done. by destruct (owner (ledger c)). Qed.

Lemma quiet_trans c1 c2 c3 : quiet c1 c2 -> quiet c2 c3 -> quiet c1 c3.
Proof.
  intros [] []. split; try congruence. destruct (owner (ledger c1)), (owner (ledger c2)), (owner (ledger c3)); try done.
  unfold frozen in *. destruct_and!. split_and!; congruence.
Qed.

#[local] Instance quiet_preorder : PreOrder quiet.
Proof. split; [exact quiet_refl|exact quiet_trans]. Qed.

Lemma quiet_event c c' : quiet c c' -> event (ledger c) (ledger c').
Proof. intros []. apply ev_owner; try done. by destruct (owner (ledger c)), (owner (ledger c')). Qed.

Lemma quiet_agrees c c' : quiet c c' -> agrees c -> agrees c'.
Proof.
  intros [] (o & Ho & E1 & E2 & E3). rewrite Ho in *. destruct (owner (ledger c')) as [o'|] eqn:E; [|done].
  destruct qt_owner0 as (? & ? & ?). exists o'. split_and!; congruence.
Qed.

Lemma quiet_waits c c' q : quiet c c' -> waits c q -> waits c' q.
Proof. intros [] (? & ? & ?). split_and!; congruence. Qed.

Lemma quiet_pending c c' : quiet c c' -> pending_rows c' = pending_rows c.
Proof. intros []. unfold pending_rows. congruence. Qed.

(** Computations that are quiet when they return. *)
Definition Quiet {A} (m : Budget A) : Prop := forall c c' a, m c = (c', Ok a) -> quiet c c'.

Lemma quiet_bind {A B} (m : Budget A) (k : A -> Budget B) : Quiet m -> (forall a, Quiet (k a)) -> Quiet (jbind m k).
Proof. intros Hm Hk c c' b (a & c1 & H1 & H2)%jbind_Ok. etrans; [by eapply Hm|by eapply Hk]. Qed.
Lemma quiet_ret {A} (a : A) : Quiet (jret a).
Proof. intros c c' b [= <- _]. apply quiet_refl. Qed.
Lemma quiet_raise {A} e : Quiet (jraise e : Budget A).
Proof. by intros c c' b H. Qed.
Lemma quiet_query {A} (q : Coordinator -> res A) : Quiet (jquery q).
Proof. intros c c' b [= <- _]. apply quiet_refl. Qed.
Lemma quiet_lift {A} (x : res A) : Quiet (jlift x).
Proof. intros c c' b [= <- _]. apply quiet_refl. Qed.
Lemma quiet_modify f : (forall c, quiet c (f c)) -> Quiet (jmodify f).
Proof. intros H c c' u [= <- _]. apply H. Qed.

Create HintDb quiet.
Hint Resolve quiet_ret quiet_raise quiet_query quiet_lift quiet_refl : quiet.

Lemma quiet_owner f c : (forall o, frozen o (f o)) -> quiet c (with_ledger c (set_owner (ledger c) (f <$> owner (ledger c)))).
Proof. intros H. split; try done. cbn. destruct (owner (ledger c)); [apply H|done]. Qed.
Lemma quiet_with_clock c ce : quiet c (with_clock_epoch c ce).
Proof. split; try done. cbn. by destruct (owner (ledger c)). Qed.

Lemma quiet_update_owner f : (forall o, frozen o (f o)) -> Quiet (update_owner f).
Proof. intros H. apply quiet_modify. intros c. by apply quiet_owner. Qed.

Lemma quiet_insert_epoch e : Quiet (insert_epoch e).
Proof. intros c c' u [_ ->]%insert_Ok. split; try done. cbn. by destruct (owner (ledger c)). Qed.

Lemma quiet_insert_takeover t : Quiet (insert_takeover t).
Proof. intros c c' u [_ ->]%insert_Ok. split; try done. cbn. by destruct (owner (ledger c)). Qed.

Hint Resolve quiet_insert_epoch quiet_insert_takeover quiet_with_clock : quiet.

Ltac quiet_step :=
  match goal with
  | |- forall _, _ => intro
  | |- Quiet (jbind _ _) => apply quiet_bind
  | |- Quiet (jmodify _) => apply quiet_modify
  | |- Quiet (update_owner _) => apply quiet_update_owner; intros ?; by split_and!
  | |- Quiet (if ?b then _ else _) => destruct b
  | |- Quiet (match ?x with _ => _ end) => destruct x
  | _ => solve [auto with quiet]
  end.
Ltac quieten := repeat quiet_step.

Lemma quiet_insert_clock_epoch ce a b q p pw pm why : Quiet (insert_clock_epoch ce a b q p pw pm why).
Proof. unfold insert_clock_epoch, self. quieten. Qed.
Lemma quiet_touch a b : Quiet (touch_owner a b).
Proof. unfold touch_owner. quieten. Qed.
Hint Resolve quiet_insert_clock_epoch quiet_touch : quiet.

Lemma quiet_begin o a b why : Quiet (begin_new_clock_epoch o a b why).
Proof. unfold begin_new_clock_epoch. quieten. Qed.
Lemma quiet_adopt o why : Quiet (adopt_clock_epoch o why).
Proof. unfold adopt_clock_epoch, self. quieten. Qed.
Hint Resolve quiet_begin quiet_adopt : quiet.

Lemma quiet_replace e n p q a b : Quiet (replace_owner sha256 e n p q a b).
Proof.
  unfold replace_owner, self. intros c c' u H. unfold jbind, jquery in H. destruct (owner (ledger c)) as [o|] eqn:E; [|done].
  destruct (_ && _); [|done]. unfold update, jmodify in H. injection H as <- _. split; try done. by rewrite E.
Qed.
Hint Resolve quiet_replace : quiet.

(** ** The transactions *)

Lemma immediate_ledger {A} (P : Ledger -> Prop) (body : Budget A) c :
  P (ledger c) -> (forall c' a, body c = (c', Ok a) -> P (ledger c')) -> P (ledger (immediate body c).1).
Proof. intros H0 H. unfold immediate. destruct (body c) as [c' [a|e]]; [by eapply H|exact H0]. Qed.

Lemma immediate_events {A} (body : Budget A) c :
  (forall c' a, body c = (c', Ok a) -> events (ledger c) (ledger c')) -> events (ledger c) (ledger (immediate body c).1).
Proof. intros H. apply immediate_ledger; [apply rtc_refl|exact H]. Qed.

Lemma quiet_events c c' : quiet c c' -> events (ledger c) (ledger c').
Proof. intros H. by apply rtc_once, quiet_event. Qed.

Lemma fenced_owner_Ok c o : fenced_owner sha256 c = Ok o -> agrees c /\ owner (ledger c) = Some o /\ owned sha256 c = true.
Proof.
  unfold fenced_owner. destruct (owner (ledger c)) as [o'|] eqn:Eo; [|done]. destruct (owned sha256 c) eqn:E; [|done].
  intros [= ->]. split_and!; try done. exists o. unfold owned in E. rewrite Eo in E. bool_prop. by split_and!.
Qed.

(** The pending rows of a quiet continuation get their answers. *)
Lemma pending_events decide_one rows now c c' u :
  decides decide_one -> sound (ledger c) -> agrees c -> rows ≡ₚ pending_rows c ->
  answer_rows decide_one rows now c = (c', Ok u) -> events (ledger c) (ledger c') /\ only_tables c c' /\ agrees c'.
Proof.
  intros Hd Hs Ha Hp H. eapply answer_rows_events; try done.
  - rewrite Hp. by apply pending_distinct, Hs.
  - intros q Hq. apply waits_pending. by rewrite <- Hp.
Qed.

Lemma drain_events c : sound (ledger c) -> events (ledger c) (ledger (drain_pending_requests sha256 c).1).
Proof.
  intros Hs. apply immediate_events. intros c' u H.
  apply jbind_Ok in H as (o & c0 & [= <- Ho] & H). apply fenced_owner_Ok in Ho as (Ha & _).
  unfold self in H. apply jbind_Ok in H as (rows & c0 & [= <- <-] & H).
  assert (batch c ≡ₚ pending_rows c) as Hp by apply py_sorted_perm. set (rows := batch c) in *.
  destruct rows as [|q0 rows0] eqn:Erows; [injection H as <- _; apply rtc_refl|]. rewrite <- Erows in *.
  apply jbind_Ok in H as (u1 & c1 & H1 & H).
  assert (quiet c c1) as Hq1.
  { destruct (clock_jump _ _ _); [by eapply quiet_begin|]. injection H1 as <- _. apply quiet_refl. }
  apply jbind_Ok in H as (w & c2 & [= <- _] & H). apply jbind_Ok in H as (u2 & c3 & H3 & H4).
  destruct (pending_events _ _ _ c1 c3 u2 (allocate_decides _ _ _ _) (event_sound _ _ Hs (quiet_event _ _ Hq1))
    (quiet_agrees _ _ Hq1 Ha) ltac:(by rewrite (quiet_pending _ _ Hq1)) H3) as (He & _ & _).
  etrans; [by apply quiet_events|]. etrans; [exact He|]. apply quiet_events. by eapply quiet_touch.
Qed.

Lemma deny_pending_events now m why c c' u :
  sound (ledger c) -> agrees c -> deny_all sha256 (pending_rows c) now m why c = (c', Ok u) ->
  events (ledger c) (ledger c').
Proof. intros Hs Ha H. by eapply pending_events in H as (? & _); [..|apply denial_decides|done|done|]. Qed.

(** The constructor's bounds. *)
Definition within (c : Coordinator) : Prop :=
  0 < ordinary_weight c /\ 0 < reserve_weight c /\ ordinary_weight c + reserve_weight c <= 1200.

Lemma make_coordinator_within gen process o r e ms mp cr ro l c :
  make_coordinator gen process o r e ms mp cr ro l = Ok c -> within c /\ ledger c = l.
Proof. unfold make_coordinator. intros H. res_inv. bool_prop. unfold within. cbn. split; [lia|done]. Qed.

Lemma claimed_agrees o c : owner (ledger c) = Some o -> claimed_by sha256 o c = true -> agrees c.
Proof. intros Ho H. unfold claimed_by in H. bool_prop. exists o. by split_and!. Qed.

Lemma claim_events now m c : sound (ledger c) -> within c -> events (ledger c) (ledger (claim_initial_epoch sha256 now m c).1).
Proof.
  intros Hs Hw. apply immediate_events. intros c' u H. unfold self in H. apply jbind_Ok in H as (c0 & c1 & [= <- <-] & H).
  destruct (owner (ledger c)) as [o|] eqn:Ho.
  - destruct (claimed_by sha256 o c) eqn:Ec; [|done]. cbn [negb] in H. pose proof (claimed_agrees _ _ Ho Ec) as Ha.
    apply jbind_Ok in H as (u1 & c1 & [= <- <-] & H). apply jbind_Ok in H as (u2 & c2 & H2 & H).
    assert (quiet c c2) as Hq by (etrans; [apply (quiet_with_clock c (ow_clock_epoch o))|by eapply quiet_adopt]).
    unfold select in H. apply jbind_Ok in H as (moved & c3 & [= <- <-] & H). destruct (clock_moved _ _ _ _).
    + apply jbind_Ok in H as (u3 & c3 & H3 & H). apply quiet_begin in H3.
      assert (quiet c c3) as Hq3 by by etrans. unfold deny_pending_for_clock_epoch, self in H.
      apply jbind_Ok in H as (rows & c4 & [= <- <-] & H). etrans; [by apply quiet_events|].
      eapply deny_pending_events; [by eapply event_sound, quiet_event|by eapply quiet_agrees|exact H].
    + apply quiet_events. etrans; [exact Hq|]. by eapply quiet_touch.
  - unfold first_owner, self in H. apply jbind_Ok in H as (c0 & c1 & [= <- <-] & H).
    unfold update in H. apply jbind_Ok in H as (u1 & c1 & [= <- <-] & H). apply jbind_Ok in H as (u2 & c2 & [= <- <-] & H).
    apply quiet_insert_clock_epoch in H. eapply rtc_l; [|by apply quiet_events]. apply ev_owner; try done. cbn. by rewrite Ho.
Qed.

Lemma open_events claim now m c : sound (ledger c) -> within c -> events (ledger c) (ledger (open_coordinator sha256 c claim now m).1).
Proof. intros Hs Hw. destruct claim; [by apply claim_events|apply rtc_refl]. Qed.

Lemma takeover_agrees c o : takeover_policy sha256 c = Ok o -> agrees c.
Proof.
  unfold takeover_policy. destruct (owner (ledger c)) as [o'|] eqn:Ho; [|done]. destruct (_ && _) eqn:E; [|done]. intros _.
  bool_prop. exists o'. by split_and!.
Qed.

Lemma takeover_events e n p q proof now m c : sound (ledger c) -> events (ledger c) (ledger (takeover sha256 e n p q proof now m c).1).
Proof.
  intros Hs. unfold takeover. destruct (negb (proof_complete proof)); [apply rtc_refl|]. destruct (negb _); [apply rtc_refl|].
  assert (events (ledger c) (ledger (take_over_ledger sha256 e n p q now m c).1)) as H.
  { apply immediate_events. intros c' u H.
    apply jbind_Ok in H as (o & c0 & [= <- Ho] & H). apply takeover_agrees in Ho as Ha.
    apply jbind_Ok in H as (u1 & c1 & [= <- _] & H). apply jbind_Ok in H as (u2 & c2 & H2 & H). apply quiet_adopt in H2.
    unfold select in H. apply jbind_Ok in H as (moved & c3 & [= <- <-] & H). apply jbind_Ok in H as (u3 & c3 & H3 & H).
    assert (quiet c2 c3) as Hq3.
    { destruct (clock_moved _ _ _ _); [by eapply quiet_begin|]. injection H3 as <- _. apply quiet_refl. }
    apply jbind_Ok in H as (u4 & c4 & H4 & H). apply quiet_replace in H4.
    unfold self in H. apply jbind_Ok in H as (gen & c5 & [= <- <-] & H). apply jbind_Ok in H as (u5 & c5 & H5 & H).
    apply quiet_insert_takeover in H5. apply jbind_Ok in H as (rows & c6 & [= <- <-] & H).
    assert (quiet c c5) as Hq.
    { etrans; [apply (quiet_with_clock c (ow_clock_epoch o))|]. etrans; [exact H2|]. etrans; [exact Hq3|]. by etrans. }
    etrans; [by apply quiet_events|].
    eapply deny_pending_events; [by eapply event_sound, quiet_event|by eapply quiet_agrees|exact H]. }
  unfold jbind. destruct (take_over_ledger _ _ _ _ _ _ _ c) as [c' [u|x]]; exact H.
Qed.

(** ** Requests *)

Lemma find_ack_None k l : find_ack k l = None -> fresh_ack k l.
Proof.
  intros H (x & -> & Hx)%list_elem_of_fmap. apply list_elem_of_In in Hx. unfold find_ack in H.
  pose proof (List.find_none _ _ H x Hx) as E. cbn in E. by rewrite bool_decide_true in E.
Qed.

Lemma find_ack_Some k l x : find_ack k l = Some x -> x ∈ acks l /\ ak_key x = k.
Proof. intros [H1 H2]%List.find_some. split; [by apply list_elem_of_In|by apply bool_decide_eq_true in H2]. Qed.

Lemma find_ack_in l x : NoDup (ak_key <$> acks l) -> x ∈ acks l -> find_ack (ak_key x) l = Some x.
Proof.
  intros Hnd Hx. destruct (find_ack (ak_key x) l) as [y|] eqn:E.
  - apply find_ack_Some in E as [Hy Hk]. f_equal. by eapply (same_row ak_key (acks l)).
  - apply find_ack_None in E. destruct E. by apply list_elem_of_fmap_2.
Qed.

Lemma bound_ints_Ok zs c c' u : bound_ints zs c = (c', Ok u) -> c' = c.
Proof. unfold bound_ints. destruct (forallb _ _); [by intros [= <- _]|done]. Qed.

Lemma check_request_weight a : check_request a = Ok tt -> 1 <= as_weight a.
Proof. unfold check_request. intros H. res_inv. bool_prop. lia. Qed.

Lemma enqueue_events a hash now m c c' r :
  sound (ledger c) -> 1 <= as_weight a -> fresh_ack (asked_key (generation c) a) (ledger c) ->
  enqueue sha256 a hash now m c = (c', Ok r) -> events (ledger c) (ledger c').
Proof.
  intros Hs Hw Hf H. unfold enqueue in H. apply jbind_Ok in H as (u1 & c1 & [= <- _] & H).
  apply jbind_Ok in H as (o & c2 & [= <- _] & H). unfold self in H. apply jbind_Ok in H as (c0 & c3 & [= <- <-] & H).
  destruct (queue_full _ c).
  - apply jbind_Ok in H as (g & c4 & [= <- Hg] & H). destruct (denial_Ok _ _ _ _ _ _ Hg) as [Hng Hdesc].
    apply jbind_Ok in H as (u2 & c5 & ->%bound_ints_Ok & H).
    apply jbind_Ok in H as (u3 & c6 & [Hfr ->]%insert_request_Ok & H). apply jbind_Ok in H as (u4 & c7 & [Hfa ->]%insert_ack_Ok & [= <- _]).
    apply rtc_once. set (q := MkRequest _ _ _ _ _ _ _ _) in *. by apply (ev_refuse (ledger c) q g now).
  - apply jbind_Ok in H as (u2 & c5 & ->%bound_ints_Ok & H).
    apply jbind_Ok in H as (u3 & c6 & [Hfr ->]%insert_request_Ok & [= <- _]). apply rtc_once. by apply ev_queue.
Qed.

Lemma submit_events a now m c :
  sound (ledger c) -> 1 <= as_weight a -> events (ledger c) (ledger (submit sha256 loads a now m c).1).
Proof.
  intros Hs Hw. apply immediate_events. intros c' r H. unfold self in H. apply jbind_Ok in H as (c0 & c1 & [= <- <-] & H).
  destruct (fence (ledger c)) as [f|].
  - destruct (negb _); [done|]. apply jbind_Ok in H as (g & c1 & [= <- _] & [= <- _]). apply rtc_refl.
  - apply jbind_Ok in H as (u & c1 & ->%bound_ints_Ok & H).
    destruct (find_ack _ _) as [x|] eqn:Ea.
    + destruct (negb _); [done|]. apply jbind_Ok in H as (g & c1 & [= <- _] & [= <- _]). apply rtc_refl.
    + destruct (find_request _ _) as [q|].
      * destruct (negb _); [done|]. destruct (rq_decided q) as [[text t]|].
        -- apply jbind_Ok in H as (g & c1 & [= <- _] & [= <- _]). apply rtc_refl.
        -- injection H as <- _. apply rtc_refl.
      * eapply enqueue_events; try done. by apply find_ack_None.
Qed.

(** ** The hand-over *)

Lemma quiet_fence c f : quiet c (with_ledger c (set_fence (ledger c) f)).
Proof. split; try done. cbn. by destruct (owner (ledger c)). Qed.

Lemma freeze_events preview snapshot now m c : events (ledger c) (ledger (freeze_egress sha256 preview snapshot now m c).1).
Proof.
  unfold freeze_egress. unfold jbind at 1, jquery at 1. destruct (check_fence_snapshot _ _ _ _ c) as [ids|e]; [|apply rtc_refl].
  apply immediate_events. intros c' f H. unfold self in H. apply jbind_Ok in H as (c0 & c1 & [= <- <-] & H).
  destruct (fence (ledger c)) as [f0|]; [destruct (_ && _); [injection H as <- _; apply rtc_refl|done]|].
  destruct (negb _); [done|]. destruct (negb _); [done|]. apply jbind_Ok in H as (u & c1 & [= <- _] & [= <- _]).
  apply quiet_events, quiet_fence.
Qed.

Lemma release_events preview c : events (ledger c) (ledger (release_egress_fence preview c).1).
Proof.
  apply immediate_events. intros c' b H. unfold select in H. apply jbind_Ok in H as (f & c1 & [= <- <-] & H).
  destruct (fence (ledger c)); [|injection H as <- _; apply rtc_refl]. destruct (negb _); [done|].
  apply jbind_Ok in H as (u & c1 & [= <- _] & [= <- _]). apply quiet_events, quiet_fence.
Qed.

(** What an imported grant adds. *)
Lemma carry_over_shape now i c c' u :
  carry_over sha256 now i c = (c', Ok u) -> agrees c ->
  exists row q g o, fresh_request (rq_key q) (ledger c) /\ fresh_ack (rq_key q) (ledger c) /\ fresh_grant (rq_key q) (ledger c) /\
    rq_weight q = ig_weight i /\ rq_decided q = Some (grant_text g, now) /\ granted g = true /\ describes g (rq_key q) /\
    gr_key row = rq_key q /\ gr_weight row = ig_weight i /\ gr_pool row = "ordinary" /\
    owner (ledger c) = Some o /\ key_generation (gr_key row) = ow_generation o /\ ow_ordinary o = ordinary_weight c /\
    c' = with_ledger c (add_ack (set_requests (add_grant (ledger c) row) (requests (ledger c) ++ [q])) (MkAck (rq_key q) (rq_sha256 q) (grant_text g) now)).
Proof.
  intros H (o & Ho & E1 & E2 & E3). unfold carry_over, self in H.
  apply jbind_Ok in H as (c0 & c1 & [= <- <-] & H). apply jbind_Ok in H as (u1 & c1 & [Hg ->]%insert_grant_Ok & H).
  apply jbind_Ok in H as (u2 & c2 & [Hr ->]%insert_request_Ok & [Hk ->]%insert_ack_Ok).
  set (text := grant_text _) in *. set (row := MkGrantRow _ _ _ _ _ _ _ _ _ _) in *. set (q := MkRequest _ _ _ _ _ _ _ _) in *.
  rewrite !with_ledger_twice in *. cbn [with_ledger ledger] in *. exists row, q. eexists. exists o.
  split; [exact Hr|]. split; [exact Hk|]. split; [exact Hg|]. split; [reflexivity|]. split; [reflexivity|]. split; [reflexivity|].
  split; [reflexivity|]. split; [reflexivity|]. split; [reflexivity|]. split; [reflexivity|]. split; [exact Ho|].
  split; [symmetry; exact E1|]. split; [exact E2|reflexivity].
Qed.

Lemma with_tables_agrees c l : agrees c -> owner l = owner (ledger c) -> agrees (with_ledger c l).
Proof. intros (o & Ho & H) E. exists o. cbn. by rewrite E. Qed.

Lemma carry_over_Ok now i c c' u :
  carry_over sha256 now i c = (c', Ok u) -> sound (ledger c) -> agrees c -> 1 <= ig_weight i ->
  weigh (fun _ => true) (grants (ledger c)) + ig_weight i <= ordinary_weight c ->
  event (ledger c) (ledger c') /\ only_tables c c' /\ agrees c' /\
  weigh (fun _ => true) (grants (ledger c')) = weigh (fun _ => true) (grants (ledger c)) + ig_weight i.
Proof.
  intros H Hs Ha Hw Hle.
  destruct (carry_over_shape _ _ _ _ _ H Ha) as (row & q & g & o & Hr & Hk & Hg & Eq & Ed & Hgr & Hd & Ek & Ew & Ep & Ho & Hgen & Eo & ->).
  split_and!; [|done|by apply with_tables_agrees|etrans; [apply weigh_snoc|by rewrite Ew]].
  eapply (ev_carry (ledger c) row q g now o); try done; [by rewrite Eq|by rewrite Ew, Eq|by rewrite Ew, Eo].
Qed.

Lemma carry_over_all_Ok now rows c c' u :
  carry_over_all sha256 now rows c = (c', Ok u) -> sound (ledger c) -> agrees c -> Forall (fun i => 1 <= ig_weight i) rows ->
  weigh (fun _ => true) (grants (ledger c)) + import_weight rows <= ordinary_weight c ->
  events (ledger c) (ledger c') /\ only_tables c c'.
Proof.
  revert c. induction rows as [|i rows IH]; intros c H Hs Ha Hw Hle; cbn [carry_over_all] in H.
  { injection H as <- _. split; [apply rtc_refl|]. unfold only_tables. by rewrite with_ledger_same. }
  apply jbind_Ok in H as (u1 & c1 & H1 & H). apply list.Forall_cons in Hw as [Hw Hws].
  unfold import_weight in Hle. cbn [fmap list_fmap] in Hle. rewrite sum_cons in Hle.
  assert (0 <= sum_of (ig_weight <$> rows)) as Hpos.
  { clear -Hws. induction rows as [|x rows IH]; [done|]. apply list.Forall_cons in Hws as [? ?]. cbn [fmap list_fmap]. rewrite sum_cons.
    specialize (IH ltac:(done)). lia. }
  destruct (carry_over_Ok _ _ _ _ _ H1 Hs Ha Hw ltac:(lia)) as (He & Ht & Ha1 & Hsum).
  destruct (IH c1 H (event_sound _ _ Hs He) Ha1 Hws) as [He' Ht'].
  { rewrite Hsum. rewrite Ht. cbn. unfold import_weight. lia. }
  split; [by eapply rtc_l|by eapply only_tables_trans].
Qed.

Lemma weight_positive e w : authoritative_rest_weight e = Ok w -> 1 <= w.
Proof.
  unfold authoritative_rest_weight. intros H.
  assert (forall k v, dict_get k INFO_ENDPOINT_WEIGHTS = Some v -> 1 <= v) as Hall.
  { intros k v Hk. apply dict_get_Some_in in Hk.
    assert (Forall (fun kv => 1 <= kv.2) INFO_ENDPOINT_WEIGHTS) as Hf by (repeat constructor; cbn; lia).
    apply (proj1 (list.Forall_forall _ _) Hf (k, v) Hk). }
  destruct (after_prefix "info:" e) as [k|]; [destruct (dict_get k _) eqn:E; [|done]; injection H as <-; by eapply Hall|].
  destruct (after_prefix "exchange:" e); (case_bool_decide; [|done]); injection H as <-; lia.
Qed.

Lemma import_row_weights source ce cm m acc ir acc' :
  import_row source ce cm m acc ir = Ok acc' -> Forall (fun i => 1 <= ig_weight i) acc.1 -> Forall (fun i => 1 <= ig_weight i) acc'.1.
Proof.
  unfold import_row. intros H Hall. destruct ir.2; try done. repeat (apply bind_Ok in H as (? & ? & H) || (destruct (_ || _); [done|])).
  injection H as <-. cbn. destruct (_ <=? _); [done|]. apply Forall_app. split; [done|]. constructor; [|constructor]. cbn.
  match goal with H : validate_sender_policy _ _ _ _ = _ |- _ => unfold validate_sender_policy in H; apply bind_Ok in H as (w & Hw & H);
    destruct (negb (_ =? w)) eqn:E in H; [done|] end.
  bool_prop. subst. by eapply weight_positive.
Qed.

Lemma import_rows_weights source ce cm m rows acc acc' :
  fold_res (import_row source ce cm m) rows acc = Ok acc' -> Forall (fun i => 1 <= ig_weight i) acc.1 ->
  Forall (fun i => 1 <= ig_weight i) acc'.1.
Proof.
  revert acc. induction rows as [|ir rows IH]; intros acc H Hall; cbn in H; [by injection H as <-|].
  destruct (import_row _ _ _ _ _ ir) as [acc1|] eqn:E; [|done]. eapply IH; [exact H|]. by eapply import_row_weights.
Qed.

Lemma check_import_Ok snapshot source m c ci :
  check_import sha256 snapshot source m c = Ok ci ->
  Forall (fun i => 1 <= ig_weight i) (ci_rows ci) /\ import_weight (ci_rows ci) <= ordinary_weight c.
Proof.
  unfold check_import. intros H. res_inv. bool_prop. cbn. split; [|done].
  match goal with H : fold_res _ _ _ = Ok _ |- _ => apply import_rows_weights in H; [exact H|constructor] end.
Qed.

(** An import changes nothing, or carries over the rows that it checked. *)
Lemma import_cases (P : Ledger -> Prop) snapshot source now m c :
  P (ledger c) ->
  (forall ci c1 u row, Forall (fun i => 1 <= ig_weight i) (ci_rows ci) -> import_weight (ci_rows ci) <= ordinary_weight c ->
    carry_over_all sha256 now (ci_rows ci) c = (c1, Ok u) -> P (add_import (ledger c1) row)) ->
  P (ledger (import_recent_grant_snapshot sha256 snapshot source now m c).1).
Proof.
  intros H0 Hp. unfold import_recent_grant_snapshot. unfold jbind at 1, jquery at 1.
  destruct (check_import _ _ _ _ c) as [ci|e] eqn:Ec; [|exact H0]. apply check_import_Ok in Ec as [Hw Hle].
  apply immediate_ledger; [exact H0|]. intros c' r H. unfold select in H. apply jbind_Ok in H as (prior & c1 & [= <- <-] & H).
  destruct (find_import _ _) as [i|]; [destruct (negb _); [done|]; injection H as <- _; exact H0|].
  apply jbind_Ok in H as (u & c1 & H1 & H). unfold self in H. apply jbind_Ok in H as (ce & c2 & [= <- <-] & H).
  apply jbind_Ok in H as (u2 & c2 & [_ ->]%insert_Ok & [= <- _]). by apply (Hp ci c1 u).
Qed.

(** Into a ledger that has granted nothing, by its owner. *)
Lemma import_events snapshot source now m c :
  sound (ledger c) -> agrees c -> grants (ledger c) = [] ->
  events (ledger c) (ledger (import_recent_grant_snapshot sha256 snapshot source now m c).1).
Proof.
  intros Hs Ha Hempty. apply import_cases; [apply rtc_refl|]. intros ci c1 u row Hw Hle H1.
  destruct (carry_over_all_Ok _ _ _ _ _ H1 Hs Ha Hw) as [He Ht]; [rewrite Hempty; cbn; lia|].
  eapply rtc_r; [exact He|]. apply ev_owner; try done. cbn. by destruct (owner (ledger c1)).
Qed.
End Coordinator.

(** An imported grant of a ledger that has granted may exceed the budget by its weight. *)
Lemma carry_over_late sha256 slack now i c c' u :
  carry_over sha256 now i c = (c', Ok u) -> sound_with slack (ledger c) -> agrees c -> 1 <= ig_weight i ->
  sound_with (slack + Z.to_N (ig_weight i)) (ledger c') /\ only_tables c c' /\ agrees c' /\
  weigh (fun _ => true) (grants (ledger c')) = weigh (fun _ => true) (grants (ledger c)) + ig_weight i.
Proof.
  intros H Hs Ha Hw.
  destruct (carry_over_shape _ _ _ _ _ _ H Ha) as (row & q & g & o & Hr & Hk & Hg & Eq & Ed & Hgr & Hd & Ek & Ew & Ep & Ho & Hgen & Eo & ->).
  split_and!; [|done|by apply with_tables_agrees|etrans; [apply weigh_snoc|by rewrite Ew]].
  assert (sound_with (slack + Z.to_N (ig_weight i)) (ledger c)) as Hs1 by (eapply sound_mono; [|exact Hs]; lia).
  eapply (sound_added (ledger c) _ q g now [row] Hs1); try done; [by rewrite Eq| |].
  - cbn. rewrite fmap_app, elem_of_app. split; [|done]. intros _. right. cbn. rewrite Ek. by left.
  - right. exists row. split_and!; [done|done|split; [lia|by left]|by rewrite Ek|]. exists o. split_and!; [done|done|].
    intros ce p t. rewrite spent_snoc. pose proof (sd_spent _ Hs o ce p t Ho) as Hsp. unfold slack_of in *.
    destruct (in_window ce p t row) eqn:E; [|case_bool_decide; lia].
    unfold in_window in E. bool_prop. subst p. rewrite Ep in *. rewrite bool_decide_true in * by done. lia.
Qed.

Lemma carry_over_all_late sha256 now rows slack c c' u :
  carry_over_all sha256 now rows c = (c', Ok u) -> sound_with slack (ledger c) -> agrees c -> Forall (fun i => 1 <= ig_weight i) rows ->
  sound_with (slack + Z.to_N (import_weight rows)) (ledger c') /\ 0 <= import_weight rows /\
  weigh (fun _ => true) (grants (ledger c')) = weigh (fun _ => true) (grants (ledger c)) + import_weight rows.
Proof.
  unfold import_weight. revert slack c. induction rows as [|i rows IH]; intros slack c H Hs Ha Hw; cbn [carry_over_all fmap list_fmap] in *.
  { injection H as <- _. change (sum_of []) with 0. rewrite N.add_0_r. split; [done|lia]. }
  apply jbind_Ok in H as (u1 & c1 & H1 & H). apply list.Forall_cons in Hw as [Hw Hws]. rewrite sum_cons.
  destruct (carry_over_late _ _ _ _ _ _ _ H1 Hs Ha Hw) as (Hs1 & _ & Ha1 & Hsum).
  destruct (IH _ c1 H Hs1 Ha1 Hws) as (Hs2 & H0 & Hsum2). split_and!; [|lia|lia].
  eapply sound_mono; [|exact Hs2]. lia.
Qed.

(** An import carries over nothing, or the weight that it adds to the grants, which the
    budget of the coordinator bounds. *)
Lemma import_late sha256 snapshot source now m slack c :
  sound_with slack (ledger c) -> agrees c ->
  let l' := ledger (import_recent_grant_snapshot sha256 snapshot source now m c).1 in
  let added := weigh (fun _ => true) (grants l') - weigh (fun _ => true) (grants (ledger c)) in
  0 <= added <= ordinary_weight c /\ sound_with (slack + Z.to_N added) l'.
Proof.
  intros Hs Ha. assert (0 <= ordinary_weight c) as Hpos.
  { destruct Ha as (o & Ho & _ & <- & _). pose proof (sd_owner _ Hs) as H. rewrite Ho in H. destruct H. lia. }
  cbv zeta. match goal with |- context [import_recent_grant_snapshot ?a ?b ?d ?e ?f c] => pattern (ledger (import_recent_grant_snapshot a b d e f c).1) end.
  apply import_cases; [rewrite Z.sub_diag; split; [lia|]; eapply sound_mono; [|exact Hs]; lia|]. intros ci c1 u row Hw Hle H1.
  destruct (carry_over_all_late _ _ _ _ _ _ _ H1 Hs Ha Hw) as (Hs1 & H0 & Hsum).
  change (grants (add_import (ledger c1) row)) with (grants (ledger c1)). rewrite Hsum, Z.add_simpl_l. split; [lia|].
  apply (event_sound (ledger c1)); [done|]. apply ev_owner; try done. cbn. by destruct (owner (ledger c1)).
Qed.

(** * What coordinators do with one ledger *)

Section Steps.
Context {slack : N}.
#[local] Abbreviation sound := (sound_with slack).
Variables (sha256 : string -> string) (loads : string -> option json).

(** Any coordinator may open the ledger, or act on it at any time, with any clock; the
    snapshot of a preview is only imported by the owner, before anything was granted. *)
Inductive ledger_step : Ledger -> Ledger -> Prop :=
  | step_open gen process o r e ms mp cr ro l c claim now m :
      make_coordinator gen process o r e ms mp cr ro l = Ok c -> ledger_step l (ledger (open_coordinator sha256 c claim now m).1)
  | step_submit c a now m : check_request a = Ok tt -> ledger_step (ledger c) (ledger (submit sha256 loads a now m c).1)
  | step_drain c : ledger_step (ledger c) (ledger (drain_pending_requests sha256 c).1)
  | step_takeover c e n p q proof now m : ledger_step (ledger c) (ledger (takeover sha256 e n p q proof now m c).1)
  | step_import c snapshot source now m : agrees c -> grants (ledger c) = [] ->
      ledger_step (ledger c) (ledger (import_recent_grant_snapshot sha256 snapshot source now m c).1)
  | step_freeze c preview snapshot now m : ledger_step (ledger c) (ledger (freeze_egress sha256 preview snapshot now m c).1)
  | step_release c preview : ledger_step (ledger c) (ledger (release_egress_fence preview c).1).

Definition ledger_steps : Ledger -> Ledger -> Prop := rtc ledger_step.

Lemma step_events l l' : sound l -> ledger_step l l' -> events l l'.
Proof.
  intros Hs H. revert Hs. destruct H as [gen process o r e ms mp cr ro l c claim now m Hm|c a now m Ha|c|c e n p q proof now m
    |c snapshot source now m Ha Hg|c preview snapshot now m|c preview]; intros Hs.
  - apply make_coordinator_within in Hm as [Hw <-]. by apply (open_events (slack := slack)).
  - apply (submit_events (slack := slack)); [done|by apply check_request_weight].
  - by apply (drain_events (slack := slack)).
  - by apply (takeover_events (slack := slack)).
  - by apply (import_events (slack := slack)).
  - apply freeze_events.
  - apply release_events.
Qed.

Lemma steps_events l l' : sound l -> ledger_steps l l' -> events l l'.
Proof.
  intros Hs H. revert Hs. induction H as [l|l l1 l2 H1 _ IH]; intros Hs; [apply rtc_refl|].
  apply step_events in H1; [|done]. etrans; [exact H1|]. apply IH. by eapply events_sound.
Qed.

Lemma steps_sound l l' : sound l -> ledger_steps l l' -> sound l'.
Proof. intros Hs H. eapply events_sound; [exact Hs|by apply steps_events]. Qed.

(** A whole request is such steps, when other threads take such steps while it waits. *)
Lemma request_grant_steps meanwhile1 meanwhile2 a now m c :
  (forall c, ledger_steps (ledger c) (ledger (meanwhile1 c))) -> (forall c, ledger_steps (ledger c) (ledger (meanwhile2 c))) ->
  ledger_steps (ledger c) (ledger (request_grant sha256 loads meanwhile1 meanwhile2 a now m c).1).
Proof.
  intros H1 H2. unfold request_grant. unfold jbind at 1, jlift at 1. destruct (check_request a) as [[]|e] eqn:Ea; [|apply rtc_refl].
  unfold jbind at 1. pose proof (step_submit c a now m Ea) as Hs. destruct (submit _ _ a now m c) as [c1 [[g|]|e]]; cbn [fst] in Hs.
  - by apply rtc_once.
  - unfold jbind at 1, jmodify at 1. unfold jbind at 1. pose proof (step_drain (meanwhile1 c1)) as Hd.
    destruct (drain_pending_requests _ _) as [c2 [u|e]]; cbn [fst] in Hd.
    + etrans; [by apply rtc_once|]. etrans; [apply H1|]. etrans; [by apply rtc_once|]. apply H2.
    + etrans; [by apply rtc_once|]. etrans; [apply H1|]. by apply rtc_once.
  - by apply rtc_once.
Qed.

Lemma weigh_split (f1 f2 f : GrantRow -> bool) (rows : list GrantRow) : (forall g, g ∈ rows -> (if f g then 1 else 0) = (if f1 g then 1 else 0) + (if f2 g then 1 else 0)) ->
  weigh f rows = weigh f1 rows + weigh f2 rows.
Proof.
  induction rows as [|g rows IH]; intros H; [done|]. rewrite !weigh_cons, IH by (intros; apply H; by right).
  specialize (H g ltac:(by left)). destruct (f g), (f1 g), (f2 g); lia.
Qed.

(** The weight granted in the minute up to [t]. *)
Definition granted_weight (ce t : Z) (l : Ledger) : Z :=
  weigh (fun g => (gr_clock_epoch g =? ce) && (t - REST_BUDGET_WINDOW_MS <? gr_mono g) && (gr_mono g <=? t)) (grants l).

Lemma granted_weight_pools ce t l : sound l -> granted_weight ce t l = spent ce "ordinary" t l + spent ce "reserve" t l.
Proof.
  intros Hs. apply weigh_split. intros g Hg. unfold in_window.
  set (b1 := gr_clock_epoch g =? ce). set (b2 := _ <? gr_mono g). set (b3 := gr_mono g <=? t). clearbody b1 b2 b3.
  pose proof (proj1 (list.Forall_forall _ _) (sd_payable _ Hs) g Hg) as [_ [->|[-> _]]].
  - rewrite bool_decide_true, bool_decide_false by done. by destruct b1, b2, b3.
  - rewrite bool_decide_false, bool_decide_true by done. by destruct b1, b2, b3.
Qed.

(** The histories of a ledger.  [late] is the weight that previews brought into it when it had
    already granted; an import into an unused ledger is a step like the others. *)
Inductive ledger_history : Z -> Ledger -> Prop :=
  | lh_empty : ledger_history 0 empty_ledger
  | lh_step late l l' : ledger_history late l -> ledger_step l l' -> ledger_history late l'
  | lh_import late c snapshot source now m : ledger_history late (ledger c) -> agrees c ->
      let l' := ledger (import_recent_grant_snapshot sha256 snapshot source now m c).1 in
      let added := weigh (fun _ => true) (grants l') - weigh (fun _ => true) (grants (ledger c)) in
      ledger_history (late + added) l'.
End Steps.

(** What histories keep. *)
Lemma history_sound sha256 loads late l : ledger_history sha256 loads late l -> 0 <= late /\ sound_with (Z.to_N late) l.
Proof.
  induction 1 as [|late l l' _ [H0 Hs] Hstep|late c snapshot source now m _ [H0 Hs] Ha l' added].
  - split; [done|apply sound_empty].
  - split; [done|]. eapply events_sound; [exact Hs|]. by eapply step_events.
  - destruct (import_late sha256 snapshot source now m _ c Hs Ha) as [Hadd Hs']. fold l' in Hadd, Hs'. fold added in Hadd, Hs'.
    split; [lia|]. eapply sound_mono; [|exact Hs']. lia.
Qed.

(** C14. The rolling budget is kept.  Whatever coordinators share a ledger from the time it
    was empty, in whatever order they open it, take it over, queue requests, decide batches,
    import the spend of a preview, freeze and release it, and whatever their clocks read:
    on each clock epoch and in every window of a minute the weight granted from the reserve
    is at most its budget, and only containment, gap repair and affected followers are paid
    from it.  The weight granted from the ordinary pool exceeds its budget at most by [late],
    what previews brought into the ledger after it had granted; the code compares an import
    with the whole budget, and not with what was already spent.  So while previews are only
    imported into an unused ledger, both pools are inside their budgets and their sum inside
    the 1200 that the venue allows an address.  The importing coordinator has opened the
    ledger. *)
Theorem rolling_budget_kept sha256 loads late l :
  ledger_history sha256 loads late l ->
  0 <= late /\
  match owner l with
  | None => grants l = []
  | Some o =>
      0 < ow_ordinary o /\ 0 < ow_reserve o /\
      (forall ce t, spent ce "ordinary" t l <= ow_ordinary o + late /\ spent ce "reserve" t l <= ow_reserve o /\
                    granted_weight ce t l <= 1200 + late) /\
      forall g, g ∈ grants l -> gr_pool g = "ordinary" \/ (gr_pool g = "reserve" /\ gr_priority g <= priority_value GAP_REPAIR)
  end.
Proof.
  intros Hl. destruct (history_sound _ _ _ _ Hl) as [H0 Hs]. split; [done|]. pose proof (sd_owner _ Hs) as Ho.
  destruct (owner l) as [o|] eqn:E; [|done]. destruct Ho as (H1 & H2 & H3). split_and!; [done|done| |].
  - intros ce t. pose proof (sd_spent _ Hs o ce "ordinary" t E) as A. pose proof (sd_spent _ Hs o ce "reserve" t E) as B.
    change (budget_of "ordinary" o) with (ow_ordinary o) in A. change (budget_of "reserve" o) with (ow_reserve o) in B.
    change (slack_of _ "ordinary") with (Z.of_N (Z.to_N late)) in A. change (slack_of _ "reserve") with 0 in B.
    rewrite (granted_weight_pools _ _ _ Hs). lia.
  - intros g Hg. apply (proj1 (list.Forall_forall _ _) (sd_payable _ Hs) g Hg).
Qed.

(** What the other files say of sound ledgers. *)
Abbreviation sound := (sound_with 0%N).
