(* ===== verification/DecisionFacts.v ===== *)
(** A REST message is decided once, and a batch after a change of the clock grants nothing. *)

From S2P Require Import Prelude PyText Models RestPolicy RestBudget RestFence BudgetFacts.

Open Scope Z_scope.

(** * A ledger in use *)

(** The digest and the reader of an example: texts stand for themselves, and the only text
    that is read is that of the example's grant. *)
Definition example_sha256 (text : string) : string := text.

Definition coordinator0 : Coordinator := MkCoordinator "run" 720 480 "process-1" 1 1 1024 64 64 empty_ledger.
Definition opened : Coordinator := (open_coordinator example_sha256 coordinator0 true 1000 500).1.
Definition example_request : Asked := MkAsked "fleet-runtime" 1 1 AFFECTED_FOLLOWER "info:clearinghouseState" 2.
Definition queued : Coordinator := (submit example_sha256 (fun _ => None) example_request 1100 600 opened).1.
Definition served : Coordinator := (drain_pending_requests example_sha256 queued).1.

Lemma opened_steps loads : ledger_steps example_sha256 loads empty_ledger (ledger opened).
Proof. apply rtc_once, (step_open example_sha256 loads "run" "process-1" 720 480 1 5 1024 64 64 _ coordinator0 true 1000 500). reflexivity. Qed.

Lemma queued_any_reader loads : ledger queued = ledger (submit example_sha256 loads example_request 1100 600 opened).1.
Proof. vm_cast_no_check (eq_refl (ledger queued)). Qed.

Lemma served_steps loads : ledger_steps example_sha256 loads empty_ledger (ledger served).
Proof.
  etrans; [apply opened_steps|]. apply (rtc_l _ _ (ledger queued)).
  - rewrite queued_any_reader with (loads := loads).
    apply (step_submit example_sha256 loads opened example_request 1100 600). by vm_compute.
  - apply rtc_once, step_drain.
Qed.

Lemma steps_history sha256 loads late l l' : ledger_history sha256 loads late l -> ledger_steps sha256 loads l l' -> ledger_history sha256 loads late l'.
Proof. intros Hl H. revert Hl. induction H as [|l l1 l2 H _ IH]; [done|]. intros Hl. apply IH. by eapply lh_step. Qed.

Lemma served_history : ledger_history example_sha256 (fun _ => None) 0 (ledger served).
Proof. eapply steps_history; [apply lh_empty|apply served_steps]. Qed.

Lemma served_owner : exists o, owner (ledger served) = Some o.
Proof. eexists. vm_compute. reflexivity. Qed.

Lemma rolling_budget_kept_witness :
  exists l, ledger_history example_sha256 (fun _ => None) 0 l /\ granted_weight 1 600 l = 2 /\
    (forall ce t, granted_weight ce t l <= 1200).
Proof.
  exists (ledger served). split; [apply served_history|]. split; [vm_compute; reflexivity|].
  destruct served_owner as [o Ho]. destruct (rolling_budget_kept _ _ _ _ served_history) as [_ Hb].
  rewrite Ho in Hb. intros ce t. apply Hb.
Defined.

(** * One answer for each message *)

(** The answer of a message that has one is never followed by a grant of it. *)
Lemma event_paid l l' k : k ∈ ak_key <$> acks l -> event l l' -> k ∈ gr_key <$> grants l' <-> k ∈ gr_key <$> grants l.
Proof.
  intros Hk H. revert Hk. destruct H as [l1 l2 -> _ _ _| | | |l1 q g row now _ _ Hf _ _ _ E _ _|l1 row q g now o _ Hf _ _ _ _ _ E _ _ _ _ _]; cbn; try done.
  all: intros Hk; rewrite fmap_app, elem_of_app; cbn; rewrite E, list_elem_of_singleton; split; [|by left].
  all: intros [?| ->]; [done|by destruct Hf].
Qed.

Lemma events_paid l l' k : k ∈ ak_key <$> acks l -> events l l' -> k ∈ gr_key <$> grants l' <-> k ∈ gr_key <$> grants l.
Proof.
  intros Hk H. revert Hk. induction H as [|l1 l2 l3 H _ IH]; [done|]. intros Hk. rewrite <- (event_paid l1 l2) by done. apply IH.
  apply list_elem_of_fmap in Hk as (x & -> & Hx). apply list_elem_of_fmap_2. by apply (event_keeps _ _ H).
Qed.

Lemma read_written_grant g : grant_of_json (sort_keys (grant_json g)) = Ok g.
Proof. destruct g as [? ? ? ? ? ? ? p ? ? ? ? ? ?]. by destruct p. Qed.

(** The number of the message and its sender's epoch fit the columns of the tables. *)
Definition storable (k : message_key) : Prop := - 2 ^ 63 <= key_epoch k < 2 ^ 63 /\ - 2 ^ 63 <= key_id k < 2 ^ 63.

(** * A batch *)

Section Batch.
Variable sha256 : string -> string.

(** The row is answered, and no other row is. *)
Lemma answered_waits q g now l c q' :
  waits (with_ledger c (answered q g now l)) q' ->
  q' ∈ requests l /\ rq_decided q' = None /\ key_generation (rq_key q') = generation c /\ rq_key q' <> rq_key q.
Proof.
  intros H. assert (q' ∈ decided (rq_key q) (grant_text g) now <$> requests l /\ rq_decided q' = None /\ key_generation (rq_key q') = generation c)
    as ((q0 & -> & Hq0)%list_elem_of_fmap & Hd & Hg) by (by destruct H).
  destruct (decide (rq_key q0 = rq_key q)) as [E|E].
  - unfold decided in Hd. rewrite E, bool_decide_true in Hd by done. by destruct (rq_decided q0) eqn:Ed; cbn in Hd; [rewrite Ed in Hd|].
  - rewrite decided_other in * by tauto. done.
Qed.

Lemma one_answer_left decide_one q a g now c c1 c2 u q' :
  decides (slack := 0%N) decide_one -> sound (ledger c) -> agrees c -> waits c q -> asked_of q = Ok a ->
  decide_one a c = (c1, Ok g) -> acknowledge q g now c1 = (c2, Ok u) -> waits c2 q' -> waits c q' /\ rq_key q' <> rq_key q.
Proof.
  intros Hd Hs Ha (Hq & _) Hasked H1 [_ ->]%acknowledge_Ok Hw.
  assert (0 <= as_weight a) as Hwa.
  { apply asked_of_Ok in Hasked as (_ & -> & _). pose proof (proj1 (list.Forall_forall _ _) (sd_weights _ Hs) q Hq). cbn in *. lia. }
  destruct (Hd a c c1 g Hs Ha Hwa H1) as (_ & [[_ ->]|(_ & row & -> & _)]).
  - destruct (answered_waits q g now (ledger c) c q' Hw) as (? & ? & ? & ?). by split_and!.
  - destruct (answered_waits q g now (add_grant (ledger c) row) c q' Hw) as (? & ? & ? & ?). by split_and!.
Qed.

(** The rows are answered, one after the other. *)
Lemma answer_rows_left decide_one rows now c c' u :
  decides (slack := 0%N) decide_one -> sound (ledger c) -> agrees c -> NoDup (rq_key <$> rows) -> (forall q, q ∈ rows -> waits c q) ->
  answer_rows decide_one rows now c = (c', Ok u) ->
  (forall q, waits c' q -> waits c q /\ rq_key q ∉ rq_key <$> rows) /\ (forall q, q ∈ rows -> rq_key q ∈ ak_key <$> acks (ledger c')).
Proof.
  intros Hd. revert c. induction rows as [|q rows IH]; intros c Hs Ha Hnd Hw H; cbn [answer_rows] in H.
  { injection H as <- _. split; [|set_solver]. intros q Hq. split; [done|]. cbn. set_solver. }
  apply jbind_Ok in H as (a & c0 & Hasked & H). injection Hasked as <- Hasked.
  apply jbind_Ok in H as (g & c1 & H1 & H). apply jbind_Ok in H as (u2 & c2 & H2 & H).
  cbn in Hnd. apply list.NoDup_cons in Hnd as [Hni Hnd].
  pose proof (Hw q ltac:(by left)) as Hwq.
  destruct (one_answer _ _ _ _ _ _ _ _ _ Hd Hs Ha Hwq Hasked H1 H2) as (He & _ & Ha2 & Hkeep).
  assert (forall q', q' ∈ rows -> waits c2 q') as Hw2.
  { intros q' Hq'. apply Hkeep; [apply Hw; by right|]. intros E. apply Hni. rewrite <- E. by apply list_elem_of_fmap_2. }
  pose proof (event_sound _ _ Hs He) as Hs2. destruct (IH c2 Hs2 Ha2 Hnd Hw2 H) as [Hleft Hacked].
  destruct (answer_rows_events _ _ _ _ _ _ Hd Hs2 Ha2 Hnd Hw2 H) as (He' & _). split.
  - intros q' [Hq' Hn]%Hleft. destruct (one_answer_left _ _ _ _ _ _ _ _ _ q' Hd Hs Ha Hwq Hasked H1 H2 Hq') as [? ?].
    split; [done|]. cbn. by intros [?|?]%elem_of_cons.
  - intros q' [->|Hq']%elem_of_cons; [|by apply Hacked]. apply acknowledge_Ok in H2 as [_ ->]. cbn in He'.
    apply (list_elem_of_fmap_2' _ _ (MkAck (rq_key q) (rq_sha256 q) (grant_text g) now)); [|done].
    apply (events_keep _ _ He'). cbn. apply elem_of_app. right. by left.
Qed.

(** Denials pay nothing, and leave the clock alone. *)
Lemma denied_rows now m why rows t c c' u :
  answer_rows (fun a => jquery (denial sha256 a now m why)) rows t c = (c', Ok u) ->
  grants (ledger c') = grants (ledger c) /\ epochs (ledger c') = epochs (ledger c) /\ clock_epoch c' = clock_epoch c /\ generation c' = generation c.
Proof.
  revert c. induction rows as [|q rows IH]; intros c H; cbn [answer_rows] in H; [by injection H as <- _|].
  apply jbind_Ok in H as (a & c0 & [= <- _] & H). apply jbind_Ok in H as (g & c1 & [= <- _] & H).
  apply jbind_Ok in H as (u2 & c2 & [_ ->]%acknowledge_Ok & H). by apply IH in H.
Qed.

(** A clock epoch that begins is quarantined. *)
Lemma begun_epoch o now m why c c' u :
  begin_new_clock_epoch o now m why c = (c', Ok u) ->
  clock_epoch c' = ow_clock_epoch o + 1 /\ exists e, epoch_row c' = Some e /\ ep_quarantine_until e = m + REST_CLOCK_EPOCH_QUARANTINE_MS.
Proof.
  unfold begin_new_clock_epoch, insert_clock_epoch, self. intros H. apply jbind_Ok in H as (u1 & c1 & H1 & H).
  apply jbind_Ok in H1 as (gen & c0 & [= <- <-] & [Hnew ->]%insert_Ok). apply jbind_Ok in H as (u2 & c2 & [= <- _] & [= <- _]).
  split; [done|]. unfold epoch_row. cbn [with_ledger with_clock_epoch ledger set_owner add_epoch epochs clock_epoch generation owner].
  induction (epochs (ledger c)) as [|e es IH]; cbn in *.
  - rewrite bool_decide_true, Z.eqb_refl by done. by eexists.
  - apply orb_false_iff in Hnew as [He Hes]. apply bool_decide_eq_false in He. cbn in He.
    destruct (_ && _) eqn:E; [|by apply IH]. bool_prop. congruence.
Qed.

(** The rows of the batch, with the clocks of its latest request. *)
Definition batch_wall (c : Coordinator) : Z := column_max (rq_wall <$> batch c).
Definition batch_mono (c : Coordinator) : Z := column_max (rq_mono <$> batch c).

(** The clocks jumped since the owner row was written, or the clock epoch is quarantined. *)
Definition untrusted (c : Coordinator) (o : OwnerRow) : Prop :=
  clock_jump o (batch_wall c) (batch_mono c) = true \/ exists e, epoch_row c = Some e /\ batch_mono c < ep_quarantine_until e.

(** A drain that finds requests to decide. *)
Lemma drain_inv c c' q :
  drain_pending_requests sha256 c = (c', Ok tt) -> q ∈ pending_rows c ->
  exists o c1 w c2,
    fenced_owner sha256 c = Ok o /\ quiet c c1 /\
    (if clock_jump o (batch_wall c) (batch_mono c)
     then begin_new_clock_epoch o (batch_wall c) (batch_mono c) "runtime_wall_monotonic_epoch_change" c = (c1, Ok tt) else c1 = c) /\
    clock_quarantine_wait (batch_mono c) c1 = Ok w /\
    decide_rows sha256 (batch c) (clock_jump o (batch_wall c) (batch_mono c) || (0 <? w)) (batch_wall c) (batch_mono c) c1 = (c2, Ok tt) /\
    touch_owner (batch_wall c) (batch_mono c) c2 = (c', Ok tt).
Proof.
  intros H Hq. unfold drain_pending_requests, immediate in H. destruct (jbind _ _ c) as [c3 [u|x]] eqn:E; [|done]. injection H as -> ->.
  apply jbind_Ok in E as (o & c0 & [= <- Ho] & H). unfold self in H. apply jbind_Ok in H as (rows & c0 & [= <- <-] & H).
  unfold batch_wall, batch_mono.
  assert (q ∈ batch c) as Hin by (unfold batch; by apply elem_of_py_sorted). destruct (batch c) as [|q0 rows] eqn:Erows; [by apply elem_of_nil in Hin|].
  cbv zeta in H. rewrite <- Erows in *. apply jbind_Ok in H as ([] & c1 & H1 & H). apply jbind_Ok in H as (w & c2 & [= <- Hw] & H).
  apply jbind_Ok in H as ([] & c3' & H3 & H4). exists o, c1, w, c3'. split_and!; try done.
  - destruct (clock_jump _ _ _); [by eapply quiet_begin|]. injection H1 as <-. apply quiet_refl.
  - destruct (clock_jump _ _ _); [done|]. by injection H1 as <-.
Qed.

Lemma drain_idle c c' : drain_pending_requests sha256 c = (c', Ok tt) -> pending_rows c = [] -> c' = c.
Proof.
  intros H Hp. unfold drain_pending_requests, immediate in H. destruct (jbind _ _ c) as [c3 [u|x]] eqn:E; [|done]. injection H as -> ->.
  apply jbind_Ok in E as (o & c0 & [= <- Ho] & H). unfold self in H. apply jbind_Ok in H as (rows & c0 & [= <- <-] & H).
  unfold batch in H. rewrite Hp in H. by injection H as <-.
Qed.

Lemma touch_keeps now m c c' u : touch_owner now m c = (c', Ok u) ->
  acks (ledger c') = acks (ledger c) /\ grants (ledger c') = grants (ledger c) /\ clock_epoch c' = clock_epoch c /\ epoch_row c' = epoch_row c.
Proof. by intros [= <- _]. Qed.

(** What the untrusted clocks leave. *)
Lemma untrusted_batch c c' o q :
  drain_pending_requests sha256 c = (c', Ok tt) -> owner (ledger c) = Some o -> q ∈ pending_rows c -> untrusted c o ->
  grants (ledger c') = grants (ledger c) /\
  (clock_jump o (batch_wall c) (batch_mono c) = true ->
     clock_epoch c' = ow_clock_epoch o + 1 /\
     exists e, epoch_row c' = Some e /\ ep_quarantine_until e = batch_mono c + REST_CLOCK_EPOCH_QUARANTINE_MS).
Proof.
  intros H Ho Hq Hu. destruct (drain_inv _ _ _ H Hq) as (o' & c1 & w & c2 & Hf & Hq1 & H1 & Hw & H2 & H3).
  apply fenced_owner_Ok in Hf as (_ & Ho' & _). assert (o' = o) as -> by congruence.
  apply touch_keeps in H3 as (_ & Hg3 & Hc3 & He3). unfold decide_rows in H2.
  assert (clock_jump o (batch_wall c) (batch_mono c) || (0 <? w) = true) as E.
  { destruct Hu as [->|(e & He & Hlt)]; [done|]. destruct (clock_jump _ _ _); [done|]. subst c1. unfold clock_quarantine_wait, clock_epoch_row in Hw.
    rewrite He in Hw. injection Hw as <-. apply Z.ltb_lt. lia. }
  rewrite E in H2. apply denied_rows in H2 as (Hg2 & He2 & Hc2 & Hgen). split.
  - rewrite Hg3, Hg2. apply Hq1.
  - intros Hj. rewrite Hj in H1. apply begun_epoch in H1 as (Hc1 & He1). rewrite Hc3, Hc2. split; [done|].
    rewrite He3. unfold epoch_row in *. by rewrite He2, Hc2, Hgen.
Qed.

Lemma drain_answers c c' q :
  sound (ledger c) -> drain_pending_requests sha256 c = (c', Ok tt) -> q ∈ pending_rows c ->
  rq_key q ∈ ak_key <$> acks (ledger c') /\ pending_rows c' = [].
Proof.
  intros Hs H Hq. destruct (drain_inv _ _ _ H Hq) as (o & c1 & w & c2 & Hf & Hq1 & _ & _ & H2 & H3).
  apply fenced_owner_Ok in Hf as (Ha & _). assert (batch c ≡ₚ pending_rows c1) as Hp by (rewrite (quiet_pending _ _ Hq1); apply py_sorted_perm).
  pose proof (event_sound _ _ Hs (quiet_event _ _ Hq1)) as Hs1. pose proof (quiet_agrees _ _ Hq1 Ha) as Ha1.
  assert (NoDup (rq_key <$> batch c)) as Hnd by (rewrite Hp; by apply pending_distinct, Hs1).
  assert (forall q', q' ∈ batch c -> waits c1 q') as Hws by (intros q' Hq'; apply waits_pending; by rewrite <- Hp).
  destruct (answer_rows_left _ _ _ _ _ _ (allocate_decides _ _ _ _ _) Hs1 Ha1 Hnd Hws H2) as [Hleft Hacked].
  pose proof (touch_keeps _ _ _ _ _ H3) as (Hak & _). split.
  - rewrite Hak. apply Hacked. rewrite Hp. by rewrite (quiet_pending _ _ Hq1).
  - pose proof (quiet_pending _ _ (quiet_touch _ _ _ _ _ H3)) as ->. destruct (pending_rows c2) as [|q' rest] eqn:E; [done|exfalso].
    assert (q' ∈ pending_rows c2) as [Hw Hn]%waits_pending%Hleft by (rewrite E; by left).
    apply Hn, list_elem_of_fmap_2. rewrite Hp. by apply waits_pending.
Qed.

(** C16. A batch decides everything.  When the coordinator of a ledger that began empty
    drains its queue, no request stays pending: each one that waited has its one
    acknowledgement, the text of a grant or a denial of that message, and is among the grants
    exactly when it was granted.  When the batch's clocks jumped since the owner row was
    written, or the clock epoch is still quarantined, nothing is granted; a jump begins
    the next clock epoch, quarantined until a minute after the batch. *)
Theorem batch_decides_all loads c c' o :
  ledger_steps sha256 loads empty_ledger (ledger c) -> drain_pending_requests sha256 c = (c', Ok tt) -> owner (ledger c) = Some o ->
  pending_rows c' = [] /\
  forall q, q ∈ pending_rows c ->
    (exists x g, find_ack (rq_key q) (ledger c') = Some x /\ ak_response x = grant_text g /\ describes g (rq_key q) /\
       (granted g = true <-> rq_key q ∈ gr_key <$> grants (ledger c')) /\ (untrusted c o -> granted g = false)) /\
    (untrusted c o -> grants (ledger c') = grants (ledger c)) /\
    (clock_jump o (batch_wall c) (batch_mono c) = true ->
       clock_epoch c' = ow_clock_epoch o + 1 /\
       exists e, epoch_row c' = Some e /\ ep_quarantine_until e = batch_mono c + REST_CLOCK_EPOCH_QUARANTINE_MS).
Proof.
  intros Hl H Ho. pose proof (steps_sound (slack := 0%N) _ _ _ _ sound_empty Hl) as Hs. pose proof (drain_events sha256 c Hs) as He. rewrite H in He. cbn [fst] in He.
  split.
  { destruct (pending_rows c) as [|q rest] eqn:E; [by rewrite (drain_idle c c')|]. eapply (drain_answers c c' q Hs H). rewrite E. by left. }
  intros q Hq. destruct (drain_answers c c' q Hs H Hq) as [(x & Ek & Hx)%list_elem_of_fmap _].
  pose proof (events_sound _ _ Hs He) as Hs'. pose proof (find_ack_in _ _ (sd_acks _ Hs') Hx) as Hfind.
  destruct (sd_answers _ Hs' x Hx) as (_ & g & t & _ & _ & _ & _ & Ht & Hd & Hg). rewrite <- Ek in *.
  assert (untrusted c o -> grants (ledger c') = grants (ledger c)) as Hu by (intros Hu; by apply (untrusted_batch c c' o q)).
  split; [|split; [done|intros Hj; apply (untrusted_batch c c' o q); try done; by left]].
  exists x, g. split_and!; try done. intros HU. apply not_true_iff_false. rewrite Hg, (Hu HU).
  apply waits_pending in Hq as (Hq & Hn & _). intros (r & E & Hr)%list_elem_of_fmap.
  apply (sd_paid _ Hs) in Hr. rewrite <- E in Hr. apply list_elem_of_fmap in Hr as (y & Ey & Hy).
  destruct (sd_answers _ Hs y Hy) as (q2 & g2 & t2 & Hq2 & Hk2 & _ & Hd2 & _).
  assert (q = q2) as -> by (apply (same_row rq_key (requests (ledger c))); [apply Hs|done|done|congruence]). congruence.
Qed.
End Batch.

Section Replay.
Variables (sha256 : string -> string) (loads : string -> option json).

(** What a message that was answered gets when it is sent again. *)
Lemma submit_again c a x now m :
  fence (ledger c) = None -> find_ack (asked_key (generation c) a) (ledger c) = Some x -> storable (asked_key (generation c) a) ->
  submit sha256 loads a now m c =
    if bool_decide (ak_sha256 x = request_sha256 sha256 (generation c) a) then (c, Some <$> read_grant loads (ak_response x))
    else (c, Raise (RuntimeError "REST IPC message ID was replayed with different content")).
Proof.
  intros Hf Hx [[H1 H2] [H3 H4]]. unfold key_epoch, key_id in *. cbn in H1, H2, H3, H4.
  unfold submit, immediate, self. unfold jbind at 1, jquery at 1. rewrite Hf.
  unfold jbind at 1, bound_ints. cbn [forallb]. rewrite (proj2 (Z.leb_le _ _) H1), (proj2 (Z.leb_le _ _) H3), (proj2 (Z.ltb_lt _ _) H2), (proj2 (Z.ltb_lt _ _) H4).
  cbn [andb]. unfold jret at 1. rewrite Hx. destruct (bool_decide _); cbn [negb].
  - unfold jbind, jlift. destruct (read_grant loads (ak_response x)); [done|]. by rewrite with_ledger_same.
  - unfold replayed_differently, jraise. by rewrite with_ledger_same.
Qed.

(** C15. A message is decided once.  Once a ledger that began empty acknowledges a message,
    then whatever coordinators do with it later, the acknowledgement holds the text of one
    grant or denial of that message and stays the only one; the message has a row among the
    grants if and only if it was granted, and the ledger pays for it at no later time.  When
    the same message is sent again, its sender gets the recorded decision as [json.loads]
    reads it, unless the ledger is frozen, and a message of that number with other content is refused, both with nothing
    changed. *)
Theorem request_decided_once l l' x :
  ledger_steps sha256 loads empty_ledger l -> x ∈ acks l -> ledger_steps sha256 loads l l' ->
  exists g,
    ak_response x = grant_text g /\ describes g (ak_key x) /\
    find_ack (ak_key x) l' = Some x /\ NoDup (ak_key <$> acks l') /\
    (granted g = true <-> ak_key x ∈ gr_key <$> grants l') /\
    (ak_key x ∈ gr_key <$> grants l' <-> ak_key x ∈ gr_key <$> grants l) /\ NoDup (gr_key <$> grants l') /\
    forall c a now m, ledger c = l' -> fence l' = None -> asked_key (generation c) a = ak_key x -> storable (ak_key x) ->
      (forall r, request_sha256 sha256 (generation c) a = ak_sha256 x -> loads (ak_response x) = Some (sort_keys (grant_json r)) ->
         submit sha256 loads a now m c = (c, Ok (Some r))) /\
      (request_sha256 sha256 (generation c) a <> ak_sha256 x ->
         submit sha256 loads a now m c = (c, Raise (RuntimeError "REST IPC message ID was replayed with different content"))).
Proof.
  intros Hl Hx Hl'. pose proof (steps_sound (slack := 0%N) _ _ _ _ sound_empty Hl) as Hs. apply (steps_events (slack := 0%N)) in Hl' as He; [|done].
  pose proof (events_sound _ _ Hs He) as Hs'. apply (events_keep _ _ He) in Hx as Hx'.
  destruct (sd_answers _ Hs' x Hx') as (q & g & t & _ & _ & _ & _ & Ht & Hd & Hg). exists g.
  apply find_ack_in in Hx' as Hfind; [|apply Hs']. split_and!; try done; [apply Hs'| |apply Hs'|].
  - apply events_paid; [by apply list_elem_of_fmap_2|done].
  - intros c a now m Hc Hf Hk Hst. rewrite <- Hk in Hfind, Hst. subst l'. rewrite (submit_again c a x) by done. split.
    + intros r Heq Hlo. rewrite bool_decide_true by done. unfold read_grant. by rewrite Hlo, read_written_grant.
    + intros Hne. rewrite bool_decide_false; [done|]. intros E. by apply Hne.
Qed.
End Replay.

Definition example_grant : RestGrant :=
  MkGrant "rest-grant-run|1|1|fleet-runtime|1|1|info:c" true "run" 1 "fleet-runtime" 1 1 AFFECTED_FOLLOWER "info:clearinghouseState" 2
    "ordinary" 1100 0 "granted".
Definition example_ack : AckRow :=
  MkAck ("run", "fleet-runtime", 1, 1) (request_sha256 example_sha256 "run" example_request) (grant_text example_grant) 1100.
Definition other_request : Asked := MkAsked "fleet-runtime" 1 1 AFFECTED_FOLLOWER "info:meta" 20.
Definition example_loads (text : string) : option json := Some (sort_keys (grant_json example_grant)).

Lemma served_acks : acks (ledger served) = [example_ack].
Proof. vm_compute. reflexivity. Qed.

Lemma example_storable : storable (ak_key example_ack).
Proof. unfold storable, example_ack. cbn [ak_key key_epoch key_id fst snd]. lia. Qed.

Lemma request_decided_once_witness :
  ledger_steps example_sha256 example_loads empty_ledger (ledger served) /\ find_ack (ak_key example_ack) (ledger served) = Some example_ack /\
  submit example_sha256 example_loads example_request 2000 900 served = (served, Ok (Some example_grant)) /\
  submit example_sha256 example_loads other_request 2000 900 served =
    (served, Raise (RuntimeError "REST IPC message ID was replayed with different content")).
Proof.
  pose proof (served_steps example_loads) as H. assert (example_ack ∈ acks (ledger served)) as Hx by (rewrite served_acks; by left).
  destruct (request_decided_once _ _ _ _ example_ack H Hx ltac:(apply rtc_refl)) as (g & _ & _ & Hfind & _ & _ & _ & _ & Hagain).
  assert (fence (ledger served) = None) as Hf by (vm_compute; reflexivity).
  assert (generation served = "run") as Hgen by (vm_compute; reflexivity).
  pose proof (fun a => Hagain served a 2000 900 eq_refl Hf) as Hs. clear Hagain. rewrite Hgen in Hs.
  split; [exact H|]. split; [exact Hfind|]. split.
  - apply (Hs example_request eq_refl example_storable); reflexivity.
  - apply (Hs other_request eq_refl example_storable). vm_compute. discriminate.
Defined.

(** The wall clock went on by 99 seconds while the monotonic clock did by a tenth of one. *)
Definition late : Coordinator := (submit example_sha256 (fun _ => None) example_request 100000 600 opened).1.
Definition late_request : RequestRow :=
  MkRequest ("run", "fleet-runtime", 1, 1) 1 "info:clearinghouseState" 2 (request_sha256 example_sha256 "run" example_request) 100000 600 None.
Definition late_owner : OwnerRow := MkOwner "run" 1 "process-1" 720 480 (rest_policy_sha256 example_sha256) 1 1000 500.

Lemma late_steps loads : ledger_steps example_sha256 loads empty_ledger (ledger late).
Proof.
  assert (ledger late = ledger (submit example_sha256 loads example_request 100000 600 opened).1) as ->
    by (vm_cast_no_check (eq_refl (ledger late))).
  etrans; [apply opened_steps|]. apply rtc_once, (step_submit example_sha256 loads opened example_request 100000 600). by vm_compute.
Qed.

Lemma late_drains : drain_pending_requests example_sha256 late = ((drain_pending_requests example_sha256 late).1, Ok tt).
Proof. vm_compute. reflexivity. Qed.

Lemma batch_decides_all_witness :
  pending_rows late = [late_request] /\ untrusted late late_owner /\
  let c' := (drain_pending_requests example_sha256 late).1 in
  pending_rows c' = [] /\ grants (ledger c') = [] /\ clock_epoch c' = 2 /\
  exists g, ak_response <$> find_ack (rq_key late_request) (ledger c') = Some (grant_text g) /\ granted g = false.
Proof.
  assert (pending_rows late = [late_request]) as Hp by (vm_compute; reflexivity).
  assert (clock_jump late_owner (batch_wall late) (batch_mono late) = true) as Hj by (vm_compute; reflexivity).
  split; [exact Hp|]. split; [left; exact Hj|].
  destruct (batch_decides_all example_sha256 (fun _ => None) late _ late_owner (late_steps _) late_drains) as [Hnone Hall];
    [vm_compute; reflexivity|].
  assert (late_request ∈ pending_rows late) as Hq by (rewrite Hp; by left).
  destruct (Hall late_request Hq) as ((x & g & Hx & Hg & _ & _ & Hd) & Hgr & Hce). split; [exact Hnone|].
  split; [rewrite Hgr; [vm_compute; reflexivity|left; exact Hj]|]. split; [apply (Hce Hj)|].
  exists g. rewrite Hx. cbn [fmap option_fmap option_map]. rewrite Hg. split; [reflexivity|]. apply Hd. left. exact Hj.
Defined.
