(* ===== verification/ContinuousConfig.v ===== *)
(** continuous_config.py: the plan of a run, its validation and the binding of
    slots to credential profiles.

    Reading the file and parsing its JSON text stay outside: [load_continuous_plan]
    takes the parsed payload.  The credential registry is a list of records, and
    [resolve] stands for [Path(...).resolve()]; [sha256] for the digest. *)

From S2P Require Import Prelude PyDecimal DecimalFacts PyText TextFacts Markets MarketFacts.
From Stdlib Require Import Ascii QArith.

Open Scope Z_scope.

Definition value_error {A} (msg : string) : res A := Raise (ValueError msg).

(** [0x[0-9a-f]{40}] *)
Definition ADDRESS_RE (s : string) : bool :=
  match to_chars s with
  | "0"%char :: "x"%char :: t =>
      (List.length t =? 40)%nat && forallb (fun c => is_digit c || in_range 97 102 c) t
  | _ => false
  end.

(** [[a-z0-9][a-z0-9_-]{0,63}] *)
Definition ID_RE (s : string) : bool :=
  match to_chars s with
  | c :: t => (is_lower c || is_digit c) && (List.length t <=? 63)%nat &&
              forallb (fun x => is_lower x || is_digit x || one_of "_-" x) t
  | [] => false
  end.

Definition CONTINUOUS_PLAN_VERSION : Z := 1.

Record ContinuousSlotConfig := MkSlot {
  slot : string;
  source_address : string;
  follower_account_address : string;
  credential_profile_id : string;
  multiplier : dec;
  max_order_notional_usd : dec;
  max_gross_exposure_usd : dec;
  max_open_positions : Z;
  max_leverage : Z;
  action_limit_per_minute : Z;
  allowed_markets : list string;
  slot_enabled : bool;
}.

Record ContinuousPlan := MkPlan {
  plan_version : Z;
  plan_network : string;
  runtime_id : string;
  startup_baseline_only : bool;
  max_combined_gross_usd : dec;
  slots : list ContinuousSlotConfig;
  plan_path : string;
  plan_sha256 : string;
}.

Definition enabled_slots (p : ContinuousPlan) : list ContinuousSlotConfig :=
  filter (fun s => slot_enabled s = true) (slots p).

Definition only_fields (payload : list (string * json)) (allowed : list string) : res unit :=
  if forallb (fun k => bool_decide (k ∈ allowed)) payload.*1 then Ok tt
  else value_error "unknown fields".

Definition positive_decimal (value : json) : res dec :=
  match decimal_of_string (py_str value) with
  | None => value_error "must be a decimal"
  | Some (Fin d) => if dleb d dzero then value_error "must be finite and positive" else Ok d
  | Some _ => value_error "must be finite and positive"
  end.

(** [int(value)] accepts more than the text of an integer; the comparison with
    [str(value)] then rejects it.  [int] of an infinite float raises
    OverflowError, which the function does not catch; the text of any other
    float differs from the text of an integer. *)
Definition positive_int (value : json) : res Z :=
  let err := value_error "must be a positive integer" in
  match value with
  | JInt z => if z <=? 0 then err else Ok z
  | JStr s =>
      match int_of_string s with
      | Some z => if (z <=? 0) || negb (bool_decide (str_of_Z z = s)) then err else Ok z
      | None => err
      end
  | JFloat r => if bool_decide (r = "inf" \/ r = "-inf") then Raise (ArithmeticError "OverflowError") else err
  | _ => err
  end.

Definition slot_fields : list string :=
  ["slot"; "source_address"; "follower_account_address"; "credential_profile_id"; "multiplier";
   "max_order_notional_usd"; "max_gross_exposure_usd"; "max_open_positions"; "max_leverage";
   "action_limit_per_minute"; "allowed_markets"; "enabled"].

Definition allowed_step (markets : list string) (value : json) : res (list string) :=
  market ← canonical_market_symbol (JStr (py_str value));
  if bool_decide (market ∈ markets) then value_error "duplicate allowed market"
  else Ok (markets ++ [market]).

Definition parse_slot (raw : json) : res ContinuousSlotConfig :=
  match raw with
  | JObj o =>
      only_fields o slot_fields ;;
      let slot_id := py_lower (str_or_empty (obj_field "slot" o)) in
      let profile_id := py_lower (str_or_empty (obj_field "credential_profile_id" o)) in
      if negb (ID_RE slot_id) || negb (ID_RE profile_id)
      then value_error "continuous slot/profile ID is invalid" else
      let source := py_lower (str_or_empty (obj_field "source_address" o)) in
      let follower := py_lower (str_or_empty (obj_field "follower_account_address" o)) in
      if negb (ADDRESS_RE source) || negb (ADDRESS_RE follower)
      then value_error "slot has an invalid account address" else
      if bool_decide (source = follower) then value_error "slot source and follower must differ" else
      multiplier ← positive_decimal (obj_field "multiplier" o);
      order_cap ← positive_decimal (obj_field "max_order_notional_usd" o);
      gross_cap ← positive_decimal (obj_field "max_gross_exposure_usd" o);
      if dltb gross_cap order_cap then value_error "slot order cap exceeds gross cap" else
      max_positions ← positive_int (obj_field "max_open_positions" o);
      max_leverage ← positive_int (obj_field "max_leverage" o);
      action_limit ← positive_int (obj_field "action_limit_per_minute" o);
      match default (JList []) (obj_get "allowed_markets" o) with
      | JList allowed_raw =>
          markets ← fold_res allowed_step allowed_raw [];
          match obj_field "enabled" o with
          | JBool enabled =>
              Ok (MkSlot slot_id source follower profile_id multiplier order_cap gross_cap
                    max_positions max_leverage action_limit markets enabled)
          | _ => value_error "slot enabled must be boolean"
          end
      | _ => value_error "slot allowed_markets must be a list"
      end
  | _ => value_error "continuous slot must be an object"
  end.

(** [len(values) != len(set(values))] is false. *)
Definition distinct (l : list string) : bool := bool_decide (NoDup l).

Definition validate_slots (ss : list ContinuousSlotConfig) (combined_cap : dec) : res unit :=
  let enabled := filter (fun s => slot_enabled s = true) ss in
  if bool_decide (enabled = []) then value_error "continuous plan has no enabled slots" else
  if negb (distinct (slot <$> ss)) then value_error "continuous plan has duplicate slot IDs" else
  if negb (distinct (source_address <$> enabled)) then value_error "continuous plan has duplicate source addresses" else
  if negb (distinct (follower_account_address <$> enabled)) then value_error "continuous plan has duplicate follower addresses" else
  if negb (distinct (credential_profile_id <$> enabled)) then value_error "continuous plan has duplicate credential profiles" else
  if existsb (fun a => bool_decide (a ∈ follower_account_address <$> ss)) (source_address <$> enabled)
  then value_error "enabled source address collides with owned follower account" else
  if dltb (dsum (max_gross_exposure_usd <$> enabled)) combined_cap
  then value_error "combined gross cap exceeds the sum of enabled slot caps"
  else Ok tt.

Definition slot_payload (s : ContinuousSlotConfig) : json :=
  JObj [("slot", JStr (slot s)); ("source_address", JStr (source_address s));
        ("follower_account_address", JStr (follower_account_address s));
        ("credential_profile_id", JStr (credential_profile_id s));
        ("multiplier", JStr (dec_str (multiplier s)));
        ("max_order_notional_usd", JStr (dec_str (max_order_notional_usd s)));
        ("max_gross_exposure_usd", JStr (dec_str (max_gross_exposure_usd s)));
        ("max_open_positions", JInt (max_open_positions s)); ("max_leverage", JInt (max_leverage s));
        ("action_limit_per_minute", JInt (action_limit_per_minute s));
        ("allowed_markets", JList (JStr <$> allowed_markets s)); ("enabled", JBool (slot_enabled s))].

Record BoundContinuousSlot := MkBound {
  config : ContinuousSlotConfig;
  api_wallet_address : string;
  api_private_key_file : string;
  global_account_address : string;
  expected_account_mode : string;
  dynamic_market_eligibility : bool;
  denied_markets : list string;
  external_writers_allowed : bool;
}.

Definition record := list (string * json).

(** [record[k]] *)
Definition record_get (k : string) (r : record) : res json :=
  match obj_get k r with Some v => Ok v | None => Raise (KeyError k) end.

Section Plan.
Variables (sha256 : string -> string) (resolve : string -> string).

Definition load_continuous_plan (path : string) (payload : json) : res ContinuousPlan :=
  match payload with
  | JObj o =>
      only_fields o ["version"; "network"; "runtime_id"; "startup_baseline_only";
                     "max_combined_gross_usd"; "slots"] ;;
      if negb (json_eq_int (obj_field "version" o) CONTINUOUS_PLAN_VERSION)
      then value_error "continuous plan version must be 1" else
      let network := py_lower (str_or_empty (obj_field "network" o)) in
      if negb (bool_decide (network ∈ ["mainnet"; "testnet"]))
      then value_error "continuous plan network must be mainnet or testnet" else
      let runtime_id := py_lower (str_or_empty (obj_field "runtime_id" o)) in
      if negb (ID_RE runtime_id) then value_error "continuous plan runtime_id is invalid" else
      match obj_field "startup_baseline_only" o with
      | JBool true =>
          combined_cap ← positive_decimal (obj_field "max_combined_gross_usd" o);
          match obj_field "slots" o with
          | JList raw_slots =>
              if negb ((1 <=? List.length raw_slots)%nat && (List.length raw_slots <=? 10)%nat)
              then value_error "continuous plan requires between one and ten slots" else
              slots ← map_res parse_slot raw_slots;
              validate_slots slots combined_cap ;;
              let canonical := JObj [("version", JInt CONTINUOUS_PLAN_VERSION); ("network", JStr network);
                ("runtime_id", JStr runtime_id); ("startup_baseline_only", JBool true);
                ("max_combined_gross_usd", JStr (dec_str combined_cap));
                ("slots", JList (slot_payload <$> slots))] in
              Ok (MkPlan CONTINUOUS_PLAN_VERSION network runtime_id true combined_cap slots path
                    (sha256 (of_chars (json_dumps canonical))))
          | _ => value_error "continuous plan requires between one and ten slots"
          end
      | _ => value_error "continuous runtime requires startup_baseline_only=true"
      end
  | _ => value_error "continuous plan must be a JSON object"
  end.

(** The addresses a credential record holds under [field]. *)
Definition record_address (field : string) (r : record) : string :=
  py_lower (py_strip (str_or_empty (obj_field field r))).

Definition principal_fields : list string :=
  ["follower_account_address"; "api_wallet_address"; "global_account_address"].

(** The registry only keeps records whose [denied_symbols], if any, is an array. *)
Definition bind_slot (by_id : dict record) (acc : list BoundContinuousSlot * list string)
    (s : ContinuousSlotConfig) : res (list BoundContinuousSlot * list string) :=
  let '(bound, api_wallets) := acc in
  match dict_get (credential_profile_id s) by_id with
  | None => value_error "slot credential profile is missing"
  | Some r =>
      source_wallet ← record_get "source_wallet" r;
      if negb (bool_decide (py_lower (py_str source_wallet) = source_address s))
      then value_error "slot source does not match its credential profile" else
      follower ← record_get "follower_account_address" r;
      if negb (bool_decide (py_lower (py_str follower) = follower_account_address s))
      then value_error "slot follower does not match its credential profile" else
      denied ← map_res (fun v => canonical_market_symbol (JStr (py_str v)))
                 (default [] (as_list (default (JList []) (obj_get "denied_symbols" r))));
      let dynamic := bool_decide (py_lower (py_strip (str_or_empty (obj_field "eligibility" r))) = "all_active_markets") in
      let conflicts := existsb (fun m => bool_decide (m ∈ denied)) (allowed_markets s) in
      if conflicts && negb dynamic then value_error "slot allows markets denied by its credential profile" else
      if negb dynamic && bool_decide (allowed_markets s = [])
      then value_error "slot requires either all-active profile eligibility or an explicit legacy market allowlist" else
      wallet ← record_get "api_wallet_address" r;
      let api_wallet := py_lower (py_str wallet) in
      if bool_decide (api_wallet ∈ api_wallets)
      then value_error "continuous slots require distinct API wallets" else
      key_file ← record_get "api_private_key_file" r;
      global ← record_get "global_account_address" r;
      mode ← record_get "expected_account_mode" r;
      Ok (bound ++ [MkBound s api_wallet (resolve (py_str key_file)) (py_lower (py_str global)) (py_str mode)
                      dynamic (py_sorted str_leb (remove_dups denied)) false],
          api_wallet :: api_wallets)
  end.

Definition bind_continuous_plan (direct_key : string) (records : list record) (invalid : list string)
    (plan : ContinuousPlan) : res (list BoundContinuousSlot) :=
  if negb (is_empty (py_strip direct_key))
  then value_error "direct private-key environment input is forbidden for continuous runtime" else
  if negb (bool_decide (invalid = [])) then value_error "invalid credential profiles" else
  let sources := source_address <$> enabled_slots plan in
  if existsb (fun field => existsb (fun r => bool_decide (record_address field r ∈ sources)) records) principal_fields
  then value_error "enabled source address collides with an owned account" else
  by_id ← fold_res (fun d r => id ← record_get "profile_id" r; Ok (dict_set (py_str id) r d)) records [];
  fst <$> fold_res (bind_slot by_id) (enabled_slots plan) ([], []).
End Plan.

(** * What a loaded plan and its binding guarantee *)

Record valid_slot (s : ContinuousSlotConfig) : Prop := {
  vs_multiplier : (0 < dval (multiplier s))%Q;
  vs_order_cap : (0 < dval (max_order_notional_usd s))%Q;
  vs_caps : (dval (max_order_notional_usd s) <= dval (max_gross_exposure_usd s))%Q;
  vs_positions : 0 < max_open_positions s;
  vs_leverage : 0 < max_leverage s;
  vs_limit : 0 < action_limit_per_minute s;
  vs_markets : NoDup (allowed_markets s) /\ Forall (fun m => is_canonical_market (JStr m) = true) (allowed_markets s);
  vs_accounts : source_address s <> follower_account_address s;
}.

Record valid_plan (p : ContinuousPlan) : Prop := {
  vp_slots : Forall valid_slot (slots p);
  vp_count : (1 <= List.length (slots p) <= 10)%nat;
  vp_enabled : enabled_slots p <> [];
  vp_ids : NoDup (slot <$> slots p);
  vp_sources : NoDup (source_address <$> enabled_slots p);
  vp_followers : NoDup (follower_account_address <$> enabled_slots p);
  vp_profiles : NoDup (credential_profile_id <$> enabled_slots p);
  vp_no_feedback : forall s t, s ∈ enabled_slots p -> t ∈ slots p ->
    source_address s <> follower_account_address t;
  vp_combined : (dval (max_combined_gross_usd p) <=
    dval (dsum (max_gross_exposure_usd <$> enabled_slots p)))%Q;
}.

Lemma positive_decimal_pos v d : positive_decimal v = Ok d -> (0 < dval d)%Q.
Proof.
  unfold positive_decimal. intros H. res_inv. by apply dleb_false in E1.
Qed.

Lemma positive_int_pos v z : positive_int v = Ok z -> 0 < z.
Proof.
  unfold positive_int. intros H. res_inv; bool_prop; lia.
Qed.

Lemma canonical_is_canonical v c : canonical_market v = Ok c -> is_canonical_market (JStr c) = true.
Proof.
  unfold canonical_market at 1. intros (m & Hm & ->)%fmap_Ok. apply is_canonical_of. by eapply parse_valid.
Qed.

Lemma allowed_fold l r :
  fold_res allowed_step l [] = Ok r ->
  NoDup r /\ Forall (fun m => is_canonical_market (JStr m) = true) r.
Proof.
  apply (fold_res_ind (fun r => NoDup r /\ Forall (fun m => is_canonical_market (JStr m) = true) r));
    [|by split; constructor].
  intros b x b' _ [Hn Hc] Hs. unfold allowed_step in Hs. apply bind_Ok in Hs as (m & Hm & Hs).
  case_bool_decide; [done|]. injection Hs as <-. split.
  - apply list.NoDup_app. split_and!; [done|set_solver|apply NoDup_singleton].
  - apply Forall_app. split; [done|]. constructor; [by eapply canonical_is_canonical|done].
Qed.

Lemma parse_slot_valid raw s : parse_slot raw = Ok s -> valid_slot s.
Proof.
  unfold parse_slot. intros H. destruct raw as [| | | | | |o]; try done.
  apply bind_Ok in H as ([] & _ & H). cbv zeta in H.
  destruct (negb (ID_RE _) || _); [done|]. destruct (negb (ADDRESS_RE _) || _); [done|].
  case_bool_decide as Hacc; [done|].
  apply bind_Ok in H as (mult & Hmult%positive_decimal_pos & H).
  apply bind_Ok in H as (oc & Hoc%positive_decimal_pos & H). apply bind_Ok in H as (gc & _ & H).
  destruct (dltb gc oc) eqn:Ecap; [done|]. apply dltb_false in Ecap.
  apply bind_Ok in H as (mp & Hmp%positive_int_pos & H).
  apply bind_Ok in H as (ml & Hml%positive_int_pos & H).
  apply bind_Ok in H as (al & Hal%positive_int_pos & H).
  destruct (default _ _) as [| | | | |allowed|]; try done.
  apply bind_Ok in H as (ms & Hms%allowed_fold & H).
  destruct (obj_field "enabled" o); try done. injection H as <-. by split.
Qed.

Lemma validate_slots_Ok ss cap :
  validate_slots ss cap = Ok tt ->
  let enabled := filter (fun s => slot_enabled s = true) ss in
  enabled <> [] /\ NoDup (slot <$> ss) /\ NoDup (source_address <$> enabled) /\
  NoDup (follower_account_address <$> enabled) /\ NoDup (credential_profile_id <$> enabled) /\
  (forall s t, s ∈ enabled -> t ∈ ss -> source_address s <> follower_account_address t) /\
  (dval cap <= dval (dsum (max_gross_exposure_usd <$> enabled)))%Q.
Proof.
  unfold validate_slots, distinct. intros H.
  destruct (bool_decide _) eqn:E0 in H; [done|].
  do 4 (destruct (negb _) eqn:?E in H; [done|]).
  destruct (existsb _ _) eqn:Ef in H; [done|]. destruct (dltb _ _) eqn:Ec in H; [done|].
  bool_prop. split_and!; try done; [|by apply dltb_false].
  intros s t Hs Ht Heq. assert (existsb (fun a => bool_decide (a ∈ follower_account_address <$> ss))
    (source_address <$> filter (fun s => slot_enabled s = true) ss) = true); [|congruence].
  apply existsb_exists. exists (source_address s). split.
  - by apply list_elem_of_In, list_elem_of_fmap_2.
  - apply bool_decide_eq_true. rewrite Heq. by apply list_elem_of_fmap_2.
Qed.

Section PlanFacts.
Variables (sha256 : string -> string) (resolve : string -> string).

Lemma loaded_plan_valid path payload p :
  load_continuous_plan sha256 path payload = Ok p -> valid_plan p.
Proof.
  unfold load_continuous_plan. intros H. destruct payload as [| | | | | |o]; try done.
  apply bind_Ok in H as ([] & _ & H). destruct (negb _); [done|]. cbv zeta in H.
  destruct (negb _); [done|]. destruct (negb _); [done|].
  destruct (obj_field "startup_baseline_only" o) as [|[]| | | | |]; try done.
  apply bind_Ok in H as (cap & _ & H). destruct (obj_field "slots" o) as [| | | | |raw|]; try done.
  destruct (negb _) eqn:Elen in H; [done|]. apply bind_Ok in H as (ss & Hss & H).
  apply bind_Ok in H as ([] & Hv%validate_slots_Ok & [= <-]).
  destruct Hv as (? & ? & ? & ? & ? & ? & ?). apply map_res_Forall2 in Hss.
  split; try done; cbn.
  - clear - Hss. induction Hss; constructor; [by eapply parse_slot_valid|done].
  - apply Forall2_length in Hss. apply negb_false_iff, andb_true_iff in Elen as [E1%Nat.leb_le E2%Nat.leb_le].
    lia.
Qed.

(** What the binding of one slot establishes. *)
Record bound_ok (b : BoundContinuousSlot) : Prop := {
  bo_denied : dynamic_market_eligibility b = false ->
    allowed_markets (config b) <> [] /\
    forall m, m ∈ allowed_markets (config b) -> m ∉ denied_markets b;
  bo_writers : external_writers_allowed b = false;
}.

Lemma bind_slot_Ok by_id acc s acc' :
  bind_slot resolve by_id acc s = Ok acc' ->
  exists b r, acc'.1 = acc.1 ++ [b] /\ acc'.2 = api_wallet_address b :: acc.2 /\ config b = s /\ bound_ok b /\
    (api_wallet_address b ∉ acc.2) /\
    dict_get (credential_profile_id s) by_id = Some r /\
    (exists v, record_get "source_wallet" r = Ok v /\ py_lower (py_str v) = source_address s) /\
    (exists v, record_get "follower_account_address" r = Ok v /\ py_lower (py_str v) = follower_account_address s) /\
    (exists v, record_get "api_wallet_address" r = Ok v /\ py_lower (py_str v) = api_wallet_address b).
Proof.
  destruct acc as [bound wallets]. unfold bind_slot. intros H.
  destruct (dict_get _ by_id) as [r|] eqn:Er; [|done].
  apply bind_Ok in H as (sw & Hsw & H). destruct (negb _) eqn:Es in H; [done|].
  apply bind_Ok in H as (fa & Hfa & H). destruct (negb _) eqn:Ef in H; [done|].
  apply bind_Ok in H as (denied & _ & H). cbv zeta in H.
  set (dynamic := bool_decide (_ = "all_active_markets")) in *.
  destruct (existsb _ _ && negb dynamic) eqn:Econf in H; [done|].
  destruct (negb dynamic && _) eqn:Eall in H; [done|].
  apply bind_Ok in H as (w & Hw & H). destruct (bool_decide (_ ∈ wallets)) eqn:Ew in H; [done|].
  apply bind_Ok in H as (kf & _ & H). apply bind_Ok in H as (gl & _ & H).
  apply bind_Ok in H as (md & _ & [= <-]). bool_prop.
  eexists _, r. cbn. split_and!; try done; [|by eexists..].
  split; cbn; [|done]. intros Hd. change (dynamic = false) in Hd. rewrite Hd in Econf, Eall.
  cbn [negb] in Econf, Eall. rewrite andb_true_r in Econf. cbn in Eall. bool_prop. split; [done|].
  intros m Hm Hin. rewrite elem_of_py_sorted, elem_of_remove_dups in Hin.
  assert (existsb (fun m => bool_decide (m ∈ denied)) (allowed_markets s) = true); [|congruence].
  apply existsb_exists. exists m. split; [by apply list_elem_of_In|by apply bool_decide_eq_true].
Qed.

Lemma bind_slots_Ok by_id l bound wallets :
  fold_res (bind_slot resolve by_id) l ([], []) = Ok (bound, wallets) ->
  config <$> bound = l /\ Forall bound_ok bound /\ NoDup (api_wallet_address <$> bound).
Proof.
  intros H. apply (fold_res_prefix (fun pre acc => config <$> acc.1 = pre /\ Forall bound_ok acc.1 /\
    NoDup acc.2 /\ acc.2 = reverse (api_wallet_address <$> acc.1))) in H.
  - destruct H as (? & ? & Hnd & E). split_and!; [done|done|]. rewrite E in Hnd. cbn [fst] in Hnd.
    by rewrite reverse_Permutation in Hnd.
  - intros pre s acc acc' _ (Hc & Hok & Hnd & Hrev) (b & r & E1 & E2 & Hb & Hbok & Hfresh & _)%bind_slot_Ok.
    rewrite E1, E2, !fmap_app, Hc. cbn. rewrite Hb. split_and!; [done| |by apply list.NoDup_cons|].
    + apply Forall_app. split; [done|]. by apply Forall_singleton.
    + by rewrite reverse_app, Hrev.
  - by split_and!; try constructor.
Qed.

(** A loaded plan is safe to run, and binding keeps it so: every slot has
    positive caps with the order cap within the gross cap and distinct canonical
    markets; ids, sources, followers, profiles and API wallets of enabled slots
    are distinct; no enabled source is an owned follower account, nor any
    account of a credential record, so no copy loop can form; the combined cap
    is covered by the slot caps; and a slot without dynamic eligibility has a
    nonempty allow list disjoint from what its profile denies. *)
Theorem continuous_plan_safe path payload p direct_key records invalid bound :
  load_continuous_plan sha256 path payload = Ok p ->
  bind_continuous_plan resolve direct_key records invalid p = Ok bound ->
  valid_plan p /\ config <$> bound = enabled_slots p /\ Forall bound_ok bound /\
  NoDup (api_wallet_address <$> bound) /\ invalid = [] /\
  (forall s r field, s ∈ enabled_slots p -> r ∈ records -> field ∈ principal_fields ->
     record_address field r <> source_address s).
Proof.
  intros Hp%loaded_plan_valid Hb. unfold bind_continuous_plan in Hb.
  destruct (negb (is_empty _)); [done|]. destruct (negb _) eqn:Einv in Hb; [done|].
  destruct (existsb _ _) eqn:Ecol in Hb; [done|]. apply bind_Ok in Hb as (by_id & _ & Hb).
  apply fmap_Ok in Hb as ([bs ws] & Hb & ->). apply bind_slots_Ok in Hb as (Hc & Hok & Hw).
  bool_prop. split_and!; [done..|]. intros s r field Hs Hr Hf Heq.
  match type of Ecol with ?e = false => assert (e = true); [|congruence] end.
  apply existsb_exists. exists field. split; [by apply list_elem_of_In|].
  apply existsb_exists. exists r. split; [by apply list_elem_of_In|].
  apply bool_decide_eq_true. rewrite Heq. by apply list_elem_of_fmap_2.
Qed.
End PlanFacts.

(** A one-slot plan, for the example. *)
Definition sample_address (c : string) : string :=
  "0x" +:+ String.concat "" (replicate 40 c).
Definition sample_slot : json :=
  JObj [("slot", JStr "S1"); ("source_address", JStr (sample_address "a"));
        ("follower_account_address", JStr (sample_address "b")); ("credential_profile_id", JStr "p1");
        ("multiplier", JStr "0.5"); ("max_order_notional_usd", JInt 100); ("max_gross_exposure_usd", JInt 500);
        ("max_open_positions", JInt 3); ("max_leverage", JInt 5); ("action_limit_per_minute", JInt 10);
        ("allowed_markets", JList [JStr "btc"; JStr "xyz:aapl"]); ("enabled", JBool true)].
Definition sample_plan_payload : json :=
  JObj [("version", JInt 1); ("network", JStr "testnet"); ("runtime_id", JStr "r1");
        ("startup_baseline_only", JBool true); ("max_combined_gross_usd", JInt 400); ("slots", JList [sample_slot])].
Definition sample_record : record :=
  [("profile_id", JStr "p1"); ("source_wallet", JStr (sample_address "a"));
   ("follower_account_address", JStr (sample_address "b")); ("api_wallet_address", JStr (sample_address "c"));
   ("api_private_key_file", JStr "key"); ("global_account_address", JStr (sample_address "b"));
   ("expected_account_mode", JStr "default")].

Lemma continuous_plan_safe_witness :
  exists p bound, load_continuous_plan id "plan.json" sample_plan_payload = Ok p /\
    bind_continuous_plan id "" [sample_record] [] p = Ok bound /\
    allowed_markets <$> enabled_slots p = [["BTC"; "xyz:AAPL"]] /\
    NoDup (api_wallet_address <$> bound).
Proof.
  destruct (load_continuous_plan id "plan.json" sample_plan_payload) as [p|] eqn:Ep; [|by vm_compute in Ep].
  destruct (bind_continuous_plan id "" [sample_record] [] p) as [bound|] eqn:Eb.
  2: { vm_compute in Ep. injection Ep as <-. by vm_compute in Eb. }
  exists p, bound. split; [done|]. split; [done|]. split.
  - vm_compute in Ep. injection Ep as <-. by vm_compute.
  - exact (proj1 (proj2 (proj2 (proj2 (continuous_plan_safe id id "plan.json" sample_plan_payload p "" [sample_record] []
      bound Ep Eb))))).
Defined.
