(* ===== verification/RoundingFacts.v ===== *)
(** Rounding to the 28 digits of the context is monotone, and depends on the value of a
    number only, not on the zeros it is padded with. *)

From S2P Require Import Prelude PyDecimal DecimalFacts.
From Stdlib Require Import QArith Qabs Qpower Lqa.

Open Scope Z_scope.

(** The two cases of an absolute value. *)
Lemma Qabs_cases (x : Q) : ((0 <= x /\ Qabs x == x) \/ (x <= 0 /\ Qabs x == - x))%Q.
Proof. destruct (Qlt_le_dec x 0); [right|left]; split; try lra; [apply Qabs_neg; lra|by apply Qabs_pos]. Qed.

(** * Values on a grid *)

Lemma on_grid_abs e x : on_grid e x -> on_grid e (Qabs x).
Proof.
  intros [[k Hk] Hlt]. destruct (Qabs_cases x) as [[? E]|[? E]]; rewrite E; split.
  - by exists k.
  - by rewrite Qabs_pos, <- E.
  - exists (- k). rewrite inject_Z_opp, Hk. ring.
  - rewrite Qabs_opp. by rewrite E in Hlt |- *.
Qed.

Lemma dabs_on_grid e d : on_grid e (dval d) -> (dval (dabs d) == Qabs (dval d))%Q.
Proof.
  intros H. unfold dabs. rewrite <- copy_abs_val. eapply dfix_exact. rewrite copy_abs_val. by apply on_grid_abs.
Qed.

Lemma multiple_opp e x : multiple_of e x -> multiple_of e (- x).
Proof. intros [k Hk]. exists (- k). rewrite inject_Z_opp, Hk. ring. Qed.

Lemma dopp_on_grid e d : on_grid e (dval d) -> (dval (dopp d) == - dval d)%Q.
Proof.
  intros [Hm Hlt]. unfold dopp.
  assert (dval (if dis_zero d then copy_abs d else copy_negate d) == - dval d)%Q as E.
  { destruct (dis_zero d) eqn:Ez; [|apply copy_negate_val]. apply dis_zero_spec in Ez. rewrite copy_abs_val, Ez. reflexivity. }
  rewrite <- E. apply (dfix_exact e). rewrite E. split; [by apply multiple_opp|by rewrite Qabs_opp].
Qed.

(** * Rounded division *)

Lemma round_div_mono s n1 n2 b :
  (0 < b)%N -> (n1 <= n2)%N -> (round_div ROUND_HALF_EVEN s n1 b <= round_div ROUND_HALF_EVEN s n2 b)%N.
Proof.
  intros Hb Hn. pose proof (round_div_half_even s n1 b Hb) as [H1 _]. pose proof (round_div_half_even s n2 b Hb) as [_ H2].
  destruct (N.eq_dec n1 n2) as [->|]; [done|]. nia.
Qed.

Lemma round_div_scale s n b t :
  (0 < b)%N -> (0 < t)%N -> round_div ROUND_HALF_EVEN s (n * t) (b * t) = round_div ROUND_HALF_EVEN s n b.
Proof.
  intros Hb Ht. unfold round_div, round_up. rewrite N.Div0.div_mul_cancel_r, N.Div0.mul_mod_distr_r by lia.
  assert ((b * t <? 2 * (n mod b * t))%N = (b <? 2 * (n mod b))%N) as ->.
  { apply eq_true_iff_eq. rewrite !N.ltb_lt. nia. }
  assert ((2 * (n mod b * t) =? b * t)%N = (2 * (n mod b) =? b)%N) as ->; [|done].
  apply eq_true_iff_eq. rewrite !N.eqb_eq. nia.
Qed.

Lemma ndigits_shift c j : (0 < c)%N -> ndigits (c * 10 ^ j) = (ndigits c + j)%N.
Proof.
  intros Hc. destruct (ndigits_bounds c Hc) as [H1 H2]. pose proof (ndigits_pos c).
  assert (0 < 10 ^ j)%N as Hj by (apply N.neq_0_lt_0, N.pow_nonzero; done).
  destruct (ndigits_bounds (c * 10 ^ j)) as [G1 G2]; [nia|].
  assert (10 ^ (ndigits c - 1 + j) <= c * 10 ^ j < 10 ^ (ndigits c + j))%N as [B1 B2] by (rewrite !N.pow_add_r; nia).
  assert (10 ^ (ndigits c - 1 + j) < 10 ^ ndigits (c * 10 ^ j))%N as E1 by lia.
  assert (10 ^ (ndigits (c * 10 ^ j) - 1) < 10 ^ (ndigits c + j))%N as E2 by lia.
  apply N.pow_lt_mono_r_iff in E1, E2; lia.
Qed.

Lemma ten28 : 10 ^ 28 = Z.of_N (10 ^ prec_default).
Proof. by vm_compute. Qed.
Lemma ten27 : 10 ^ 27 = Z.of_N (10 ^ 27).
Proof. by vm_compute. Qed.

(** Rounding depends on the value only: padding with zeros does not change it. *)
Lemma dfix_shift s c e j :
  (dval (dfix prec_default (Dec s (c * 10 ^ j) (e - Z.of_N j))) == dval (dfix prec_default (Dec s c e)))%Q.
Proof.
  assert (dval (Dec s (c * 10 ^ j) (e - Z.of_N j)) == dval (Dec s c e))%Q as Ev.
  { rewrite <- (N2Z.id j) at 1. rewrite <- dval_shift by lia. by replace (e - Z.of_N j + Z.of_N j) with e by lia. }
  destruct (N.eq_dec c 0%N) as [->|Hc]; [by rewrite N.mul_0_l, !dfix_same by done|].
  destruct (N.le_gt_cases (ndigits c) prec_default) as [Hle|Hgt].
  - rewrite (dfix_same _ (Dec s c e)) by done. rewrite (dfix_exact e); [done|]. rewrite Ev. split; [apply (multiple_of_dec (Dec s c e))|].
    rewrite Qabs_dval. cbn [dcoef dexp]. rewrite q10_add. apply Qmult_lt_compat_r; [apply q10_pos|].
    rewrite <- (q10_inject 28) by lia. rewrite <- Zlt_Qlt. destruct (ndigits_bounds c ltac:(lia)) as [_ H].
    assert (10 ^ ndigits c <= 10 ^ prec_default)%N by (apply N.pow_le_mono_r; done).
    rewrite ten28. lia.
  - pose proof (ndigits_shift c j ltac:(lia)) as Ed.
    rewrite !dfix_value by (cbn [dcoef]; rewrite ?Ed; unfold prec_default in *; lia). cbn [dcoef dexp]. rewrite Ed.
    unfold rescale; cbn [dexp dneg dcoef]. rewrite !(proj2 (Z.leb_gt _ _)) by (unfold prec_default in *; lia).
    replace (e - Z.of_N j + Z.of_N (ndigits c + j - prec_default)) with (e + Z.of_N (ndigits c - prec_default)) by (unfold prec_default in *; lia).
    replace (Z.to_N (e + Z.of_N (ndigits c - prec_default) - (e - Z.of_N j))) with (ndigits c - prec_default + j)%N by lia.
    replace (Z.to_N (e + Z.of_N (ndigits c - prec_default) - e)) with (ndigits c - prec_default)%N by lia.
    rewrite N.pow_add_r, round_div_scale; [done|apply N.neq_0_lt_0, N.pow_nonzero; done..].
Qed.

Lemma dfix_digits_range s c e :
  (0 < c)%N ->
  (q10 (e + Z.of_N (ndigits c) - 1) <= Qabs (dval (dfix prec_default (Dec s c e))) /\
   Qabs (dval (dfix prec_default (Dec s c e))) <= q10 (e + Z.of_N (ndigits c)))%Q.
Proof.
  intros Hc. destruct (ndigits_bounds c Hc) as [H1 H2]. pose proof (ndigits_pos c).
  destruct (N.le_gt_cases (ndigits c) prec_default) as [Hle|Hgt].
  - rewrite dfix_same, Qabs_dval by done. cbn [dcoef dexp].
    replace (e + Z.of_N (ndigits c) - 1) with (Z.of_N (ndigits c - 1) + e) by lia.
    replace (e + Z.of_N (ndigits c)) with (Z.of_N (ndigits c) + e) by lia.
    rewrite !q10_add, <- (q10_inject (Z.of_N (ndigits c - 1))), <- (q10_inject (Z.of_N (ndigits c))) by lia. change 10 with (Z.of_N 10). rewrite <- !N2Z.inj_pow.
    split; (apply Qmult_le_compat_r; [rewrite <- Zle_Qle; lia|apply Qlt_le_weak, q10_pos]).
  - rewrite dfix_value by done. rewrite Qabs_dval, rescale_exp. cbn [dexp dcoef dneg].
    unfold rescale; cbn [dexp dneg dcoef]. rewrite (proj2 (Z.leb_gt _ _)) by lia. cbn [dcoef].
    replace (Z.to_N (e + Z.of_N (ndigits c - prec_default) - e)) with (ndigits c - prec_default)%N by lia.
    set (k := (ndigits c - prec_default)%N). pose proof (fix_coef_le prec_default (Dec s c e) ltac:(done) Hgt) as Hup.
    cbn [dneg dcoef] in Hup. fold k in Hup.
    assert (10 ^ 27 <= c / 10 ^ k)%N as Hlow.
    { apply N.div_le_lower_bound; [apply N.pow_nonzero; done|]. rewrite <- N.pow_add_r.
      replace (k + 27)%N with (ndigits c - 1)%N by (unfold k, prec_default in *; lia). done. }
    assert (10 ^ 27 <= round_div ROUND_HALF_EVEN s c (10 ^ k))%N as Hlow'.
    { destruct (round_div_cases ROUND_HALF_EVEN s c (10 ^ k)) as [-> | ->]; lia. }
    replace (e + Z.of_N (ndigits c) - 1) with (27 + (e + Z.of_N k)) by (unfold k, prec_default in *; lia).
    replace (e + Z.of_N (ndigits c)) with (28 + (e + Z.of_N k)) by (unfold k, prec_default in *; lia).
    rewrite !(q10_add 27), !(q10_add 28), <- (q10_inject 27), <- (q10_inject 28) by lia.
    rewrite ten27, ten28.
    split; (apply Qmult_le_compat_r; [rewrite <- Zle_Qle; lia|apply Qlt_le_weak, q10_pos]).
Qed.

Lemma dfix_mono_coef s c1 c2 e :
  (c1 <= c2)%N -> (Qabs (dval (dfix prec_default (Dec s c1 e))) <= Qabs (dval (dfix prec_default (Dec s c2 e))))%Q.
Proof.
  intros Hc. destruct (N.eq_dec c1 0%N) as [->|H1].
  { rewrite dfix_same, Qabs_dval by done. change (inject_Z (Z.of_N (dcoef (Dec s 0 e)))) with 0%Q. rewrite Qmult_0_l. apply Qabs_nonneg. }
  destruct (ndigits_bounds c1 ltac:(lia)) as [L1 U1]. destruct (ndigits_bounds c2 ltac:(lia)) as [L2 U2].
  assert (ndigits c1 <= ndigits c2)%N as Hn.
  { assert (10 ^ (ndigits c1 - 1) < 10 ^ ndigits c2)%N as E by lia. apply N.pow_lt_mono_r_iff in E; lia. }
  destruct (N.eq_dec (ndigits c1) (ndigits c2)) as [En|Hne].
  - destruct (N.le_gt_cases (ndigits c2) prec_default) as [Hle|Hgt].
    + rewrite !dfix_same by (cbn [dcoef]; lia). rewrite !Qabs_dval. cbn [dcoef dexp].
      apply Qmult_le_compat_r; [rewrite <- Zle_Qle; lia|apply Qlt_le_weak, q10_pos].
    + rewrite !dfix_value by (cbn [dcoef]; unfold prec_default in *; lia). rewrite !Qabs_dval, !rescale_exp. cbn [dcoef dexp]. rewrite En.
      unfold rescale; cbn [dexp dneg dcoef]. rewrite !(proj2 (Z.leb_gt _ _)) by lia. cbn [dcoef].
      apply Qmult_le_compat_r; [|apply Qlt_le_weak, q10_pos]. rewrite <- Zle_Qle. apply N2Z.inj_le.
      apply round_div_mono; [apply N.neq_0_lt_0, N.pow_nonzero; done|done].
  - destruct (dfix_digits_range s c1 e ltac:(lia)) as [_ Hu]. destruct (dfix_digits_range s c2 e ltac:(lia)) as [Hl _].
    pose proof (q10_le (e + Z.of_N (ndigits c1)) (e + Z.of_N (ndigits c2) - 1) ltac:(lia)). lra.
Qed.

(** Rounding to the context never turns the order of two magnitudes around. *)
Lemma dfix_mono a b :
  (Qabs (dval a) <= Qabs (dval b) -> Qabs (dval (dfix prec_default a)) <= Qabs (dval (dfix prec_default b)))%Q.
Proof.
  intros H. set (e := Z.min (dexp a) (dexp b)).
  assert (forall s c x, (e <= x)%Z -> Qabs (dval (dfix prec_default (Dec s c x))) ==
    Qabs (dval (dfix prec_default (Dec false (c * 10 ^ Z.to_N (x - e)) e))))%Q as Hpad.
  { intros s c x Hx. rewrite <- (dfix_shift s c x (Z.to_N (x - e))).
    replace (x - Z.of_N (Z.to_N (x - e))) with e by lia.
    change (Dec false (c * 10 ^ Z.to_N (x - e)) e) with (copy_abs (Dec s (c * 10 ^ Z.to_N (x - e)) e)).
    rewrite dfix_abs, copy_abs_val. symmetry. apply Qabs_pos, Qabs_nonneg. }
  destruct a as [sa ca ea], b as [sb cb eb]; cbn [dexp] in *. rewrite (Hpad sa ca ea), (Hpad sb cb eb) by lia. apply dfix_mono_coef.
  rewrite !Qabs_dval in H. cbn [dcoef dexp] in H. rewrite (q10_split ea e), (q10_split eb e) in H.
  rewrite <- (q10_inject (ea - e)), <- (q10_inject (eb - e)) in H by lia. rewrite !(Qmult_assoc (inject_Z _) (inject_Z _)) in H. apply Qmult_lt_0_le_reg_r in H; [|apply q10_pos].
  rewrite <- !inject_Z_mult in H. rewrite <- Zle_Qle in H. rewrite <- (Z2N.id (ea - e)), <- (Z2N.id (eb - e)) in H by lia.
  change 10 with (Z.of_N 10) in H. rewrite <- !N2Z.inj_pow, <- !N2Z.inj_mul in H. lia.
Qed.
