(* ===== verification/DesiredEngine.v ===== *)
(** desired_engine.py: the scaled target portfolio and the next corrective action.

    Source positions may carry a non-finite size (the function tests it); the
    follower positions and the targets are finite.  [sha256] is the digest. *)

From S2P Require Import Prelude PyDecimal DecimalFacts PyText Models Markets ContinuousConfig Precision OrderPreflight.
From Stdlib Require Import QArith Qabs.

Open Scope Z_scope.

Record DesiredPortfolio := MkDesired {
  desired_id : string;
  positions : dict Position;
  source_equity : dec;
  follower_equity : dec;
  scale : dec;
  gross_scale : dec;
  gross_notional_usd : dec;
}.

Record NextAction := MkNextAction {
  na_desired_id : string;
  na_market : string;
  na_side : string;
  na_size : dec;
  na_reduce_only : bool;
  na_reason : string;
}.

Definition signed_size (a : NextAction) : dec :=
  if bool_decide (na_side a = "buy") then na_size a else dopp (na_size a).

Record ActionDecision := MkDecision {
  action : option NextAction;
  residual : dec;
  blocker : option string;
  skipped_blockers : list string;
}.

Abbreviation mids_map := (dict pydec).

(** [mid is not None and mid.is_finite() and mid > 0] *)
Definition positive_mid (mids : mids_map) (market : string) : option dec :=
  match dict_get market mids with
  | Some (Fin m) => if dleb m dzero then None else Some m
  | _ => None
  end.

Section Desired.
Variable sha256 : string -> string.
Variable cfg : ContinuousSlotConfig.

(** A row (market, scaled position, notional). *)
Definition row : Type := string * Position * dec.
Definition row_market (r : row) : string := r.1.1.
Definition row_position (r : row) : Position := r.1.2.
Definition row_notional (r : row) : dec := r.2.

Definition candidate_step (mids : mids_map) (scale : dec) (candidates : list row)
    (item : string * RawPosition) : res (list row) :=
  let '(raw_market, source) := item in
  market ← canonical_market_symbol (JStr raw_market);
  if negb (bool_decide (allowed_markets cfg = [])) && negb (bool_decide (market ∈ allowed_markets cfg))
  then Ok candidates else
  match positive_mid mids market with
  | None => Ok candidates
  | Some mid =>
      match pos_size source with
      | Fin source_size =>
          let size := dmul source_size scale in
          if deqb size dzero then Ok candidates else
          let leverage := (fun l => Z.min l (max_leverage cfg)) <$> pos_leverage source in
          let target := MkPosition market size (pos_entry_px source) leverage (pos_updated_ms source) in
          Ok (candidates ++ [(market, target, dmul (dabs size) mid)])
      | _ => value_error "source position is not finite"
      end
  end.

(** [key=lambda row: (-row[2], row[0])], compared by value. *)
Definition row_leb (a b : row) : bool :=
  let na := dopp (row_notional a) in
  let nb := dopp (row_notional b) in
  if deqb na nb then str_leb (row_market a) (row_market b) else dltb na nb.

(** [{market: Position(coin=market, ...) for market, position, _ in selected}] *)
Definition positions_of (k : dec) (selected : list row) : dict Position :=
  fold_left (fun d r =>
    dict_set (row_market r)
      (MkPosition (row_market r) (dmul (pos_size (row_position r)) k) (pos_entry_px (row_position r))
         (pos_leverage (row_position r)) (pos_updated_ms (row_position r))) d) selected [].

(** [mids[market]] *)
Definition mid_of (mids : mids_map) (market : string) : res dec :=
  match dict_get market mids with
  | Some (Fin m) => Ok m
  | Some _ => Raise (ArithmeticError "InvalidOperation")
  | None => Raise (KeyError market)
  end.

Definition portfolio_gross (mids : mids_map) (ps : dict Position) : res dec :=
  fold_res (fun acc mp => m ← mid_of mids mp.1; Ok (dadd acc (dmul (dabs (pos_size mp.2)) m))) ps dzero.

Definition build_desired_portfolio (source_positions : dict RawPosition)
    (source_equity follower_equity : pydec) (mids : mids_map) : res DesiredPortfolio :=
  match source_equity with
  | Fin se =>
      if dleb se dzero then value_error "source equity must be finite and positive" else
      match follower_equity with
      | Fin fe =>
          if dleb fe dzero then value_error "follower equity must be finite and positive" else
          ratio ← ddiv fe se;
          let scale := dmul ratio (multiplier cfg) in
          candidates ← fold_res (candidate_step mids scale) source_positions [];
          let selected := take (Z.to_nat (max_open_positions cfg)) (py_sorted row_leb candidates) in
          let gross := dsum (row_notional <$> selected) in
          gross_scale ←
            (if dltb (max_gross_exposure_usd cfg) gross
             then ddiv (max_gross_exposure_usd cfg) gross else Ok (dint 1));
          let positions := positions_of gross_scale selected in
          final_gross ← portfolio_gross mids positions;
          let identity := JObj [("slot", JStr (slot cfg)); ("scale", JStr (dec_str scale));
            ("positions", JObj ((fun mp => (mp.1, JStr (dec_str (pos_size mp.2)))) <$> positions))] in
          Ok (MkDesired (sha256 (of_chars (json_dumps identity))) positions se fe scale gross_scale final_gross)
      | _ => value_error "follower equity must be finite and positive"
      end
  | _ => value_error "source equity must be finite and positive"
  end.

(** * The next action *)

Section Choose.
Variables (desired : DesiredPortfolio) (follower_positions : dict Position)
  (unresolved_signed_remaining : dict dec) (mids : mids_map) (size_decimals : dict Z)
  (market_rules : option (dict HyperliquidPerpRules)).

Definition position_or_flat (ps : dict Position) (market : string) : Position :=
  default (flat_position market) (dict_get market ps).

Definition desired_size (market : string) : dec := pos_size (position_or_flat (positions desired) market).
Definition confirmed_size (market : string) : dec := pos_size (position_or_flat follower_positions market).
Definition unresolved_size (market : string) : dec := default dzero (dict_get market unresolved_signed_remaining).

(** [desired - (confirmed + unresolved)] *)
Definition market_residual (market : string) : dec :=
  dsub (desired_size market) (dadd (confirmed_size market) (unresolved_size market)).

Definition needs_reduction (market : string) : bool :=
  let d := desired_size market in
  let c := confirmed_size market in
  if deqb c dzero then false
  else deqb d dzero || negb (bool_decide (dpos c = dpos d)) || dltb (dabs d) (dabs c).

Definition action_markets : list string :=
  py_sorted (fun a b => tuple_leb bool_leb str_leb (negb (needs_reduction a), a) (negb (needs_reduction b), b))
    (py_sorted str_leb (remove_dups (dict_keys (positions desired) ++ dict_keys follower_positions))).

(** What one market contributes to the loop. *)
Inductive verdict :=
  | Continue
  | Defer (message : string) (residual : dec)
  | Block (message : string) (residual : dec)
  | Act (a : NextAction) (residual : dec).

(** Whether the correction closes a position on the wrong side of the target. *)
Definition reversing (d c : dec) : bool :=
  negb (deqb c dzero) && negb (deqb d dzero) && negb (bool_decide (dpos c = dpos d)).

Definition raw_action (d c : dec) : dec := if reversing d c then dopp c else dsub d c.

Definition reduces (d c : dec) : bool :=
  let raw := raw_action d c in
  reversing d c ||
  (negb (deqb c dzero) && negb (deqb raw dzero) && negb (bool_decide (dpos raw = dpos c)) &&
   dltb (dabs d) (dabs c)).

(** The size of the first attempt: the correction, cut to the order cap and to whole lots. *)
Definition attempt_size (d c max_size : dec) (decimals : Z) : res dec :=
  let raw := raw_action d c in
  let capped := if dltb max_size (dabs raw) then copy_sign max_size raw else raw in
  quantize_size (Fin capped) decimals.

(** The largest executable reduction of the confirmed position. *)
Definition full_chunk (c max_size : dec) (decimals : Z) : res dec :=
  quantize_size (Fin (copy_sign (dmin (dabs c) max_size) (dopp c))) decimals.

Definition side_of (signed : dec) : string := if dpos signed then "buy" else "sell".

Definition make_action (market : string) (signed : dec) (reduce_only : bool) (reason : string) : NextAction :=
  MkNextAction (desired_id desired) market (side_of signed) (dabs signed) reduce_only reason.

Definition rules_for (market : string) (decimals : Z) : option HyperliquidPerpRules :=
  match market_rules with
  | Some rules => dict_get market rules
  | None => Some (perp_rules market decimals (max_leverage cfg))
  end.

Definition order_preflight (rules : HyperliquidPerpRules) (market : string) (mid signed : dec) (reduce_only : bool)
    : res OrderPreflightResult :=
  preflight_hyperliquid_perp_order rules (Fin (dabs signed)) (Fin mid) reduce_only
    (Fin (confirmed_size market)) (pos_leverage (position_or_flat follower_positions market)) None
    (side_of signed) (Fin (max_order_notional_usd cfg)).

(** The fall-back of a reduction the venue would not take: the largest whole reduction. *)
Definition reduce_further (market : string) (rules : HyperliquidPerpRules) (mid max_size : dec) (decimals : Z)
    (residual : dec) : res verdict :=
  let d := desired_size market in
  let c := confirmed_size market in
  chunk ← full_chunk c max_size decimals;
  let after_chunk := dadd c chunk in
  let improves_target := dltb (dabs (dsub d after_chunk)) (dabs (dsub d c)) in
  close_preflight ← order_preflight rules market mid chunk true;
  if negb improves_target
  then Ok (Defer (market +:+ " reduction is below the venue minimum and a full close would move farther from the target") residual)
  else if negb (placeable close_preflight) then Ok (Defer (pf_reason close_preflight) residual)
  else Ok (Act (make_action market chunk true "move to the nearest executable lower-risk position") residual).

Definition market_verdict (market : string) : res verdict :=
  let d := desired_size market in
  let c := confirmed_size market in
  let unresolved := unresolved_size market in
  let residual := market_residual market in
  if deqb residual dzero then Ok Continue else
  if negb (deqb unresolved dzero)
  then Ok (Block (market +:+ " has an unresolved attempted action") residual) else
  match positive_mid mids market, dict_get market size_decimals with
  | Some mid, Some decimals =>
      max_size ← ddiv (max_order_notional_usd cfg) mid;
      signed ← attempt_size d c max_size decimals;
      if deqb signed dzero
      then Ok (Defer (market +:+ " residual is below one venue lot") residual) else
      let reduce_only := reduces d c in
      let reason := if reversing d c then "close reversal and replan"
                    else "move confirmed follower position toward current desired target" in
      match rules_for market decimals with
      | None => Ok (Block (market +:+ " lacks venue order rules") residual)
      | Some rules =>
          preflight ← order_preflight rules market mid signed reduce_only;
          if placeable preflight
          then Ok (Act (make_action market signed reduce_only reason) residual)
          else if negb reduce_only
          then Ok (Defer (market +:+ " residual is sub-minimum debt (" +:+
                 pydec_str (submitted_notional_usd preflight) +:+ " USD): " +:+ pf_reason preflight) residual)
          else reduce_further market rules mid max_size decimals residual
      end
  | _, _ => Ok (Block (market +:+ " lacks fresh market metadata") residual)
  end.

Fixpoint choose_loop (markets skipped : list string) (first_blocked_residual : dec) : res ActionDecision :=
  match markets with
  | [] =>
      match skipped with
      | [] => Ok (MkDecision None dzero None [])
      | first :: _ => Ok (MkDecision None first_blocked_residual (Some first) skipped)
      end
  | market :: rest =>
      v ← market_verdict market;
      match v with
      | Continue => choose_loop rest skipped first_blocked_residual
      | Defer message r =>
          choose_loop rest (skipped ++ [message])
            (match skipped with [] => r | _ => first_blocked_residual end)
      | Block message r => Ok (MkDecision None r (Some message) [])
      | Act a r => Ok (MkDecision (Some a) r None skipped)
      end
  end.

Definition choose_next_action : res ActionDecision := choose_loop action_markets [] dzero.
End Choose.
End Desired.
