(* ===== verification/DesiredFacts.v ===== *)
(** Properties of DesiredEngine.v: the portfolio stays inside its limits, and the
    next action is a safe step toward it. *)

From S2P Require Import Prelude PyDecimal DecimalFacts RoundingFacts PyText Models Markets ContinuousConfig Precision OrderPreflight DesiredEngine.
From Stdlib Require Import QArith Qabs Lqa.

Open Scope Z_scope.

(** * Sums of rounded terms *)

Fixpoint qpow (x : Q) (n : nat) : Q := match n with O => 1 | S n => x * qpow x n end%Q.

Fixpoint qsum {A} (f : A -> Q) (l : list A) : Q :=
  match l with [] => 0 | x :: t => f x + qsum f t end%Q.

Abbreviation up := (1 + ulp28)%Q.
Abbreviation down := (1 - ulp28)%Q.

Lemma up_down : (0 < down /\ down <= 1 /\ 1 <= up)%Q.
Proof. destruct ulp28_range. repeat split; lra. Qed.

Lemma qpow_pos x n : (0 < x -> 0 < qpow x n)%Q.
Proof. intros H. induction n; cbn [qpow]; [reflexivity|]. by apply Qmult_lt_0_compat. Qed.

Lemma qpow_up_mono m n : (m <= n)%nat -> (qpow up m <= qpow up n)%Q.
Proof.
  destruct up_down as (_ & _ & H). induction 1 as [|n _ IH]; [apply Qle_refl|]. cbn [qpow].
  pose proof (qpow_pos up m). eapply Qle_trans; [exact IH|].
  pose proof (qpow_pos up n ltac:(lra)). nra.
Qed.

Lemma qpow_down_mono m n : (m <= n)%nat -> (qpow down n <= qpow down m)%Q.
Proof.
  destruct up_down as (H0 & H1 & _). induction 1 as [|n _ IH]; [apply Qle_refl|]. cbn [qpow].
  eapply Qle_trans; [|exact IH]. pose proof (qpow_pos down n H0). nra.
Qed.

Lemma qsum_nonneg {A} (f : A -> Q) l : Forall (fun x => 0 <= f x)%Q l -> (0 <= qsum f l)%Q.
Proof. induction 1 as [|x l Hx _ IH]; cbn; [apply Qle_refl|lra]. Qed.

Lemma qsum_scale {A} (f g : A -> Q) (c : Q) l :
  Forall (fun x => f x <= c * g x)%Q l -> (qsum f l <= c * qsum g l)%Q.
Proof. induction 1 as [|x l Hx _ IH]; cbn; [lra|]. lra. Qed.

Lemma qsum_app {A} (f : A -> Q) l1 l2 : (qsum f (l1 ++ l2) == qsum f l1 + qsum f l2)%Q.
Proof. induction l1 as [|x l1 IH]; cbn; [ring|]. rewrite IH. ring. Qed.

Lemma qsum_fmap {A B} (f : B -> Q) (g : A -> B) l : (qsum f (g <$> l) == qsum (fun x => f (g x)) l)%Q.
Proof. induction l as [|x l IH]; cbn; [done|]. by rewrite IH. Qed.

Lemma qsum_mult {A} (f : A -> Q) c l : (qsum (fun x => c * f x) l == c * qsum f l)%Q.
Proof. induction l as [|x l IH]; cbn; [ring|]. rewrite IH. ring. Qed.

Lemma Qabs_diff_abs x y : (Qabs (Qabs y - Qabs x) <= Qabs (y - x))%Q.
Proof.
  apply Qabs_Qle_condition. pose proof (Qabs_triangle_reverse y x). pose proof (Qabs_triangle_reverse x y) as H'.
  rewrite (Qabs_Qminus x y) in H'. lra.
Qed.

Lemma near_abs r x y : near r x y -> near r (Qabs x) (Qabs y).
Proof.
  unfold near. intros H. rewrite (Qabs_pos (Qabs x)) by apply Qabs_nonneg.
  eapply Qle_trans; [apply Qabs_diff_abs|done].
Qed.

(** The arithmetic of [gross_bound]: [F] final sum, [T] exact sum of its terms,
    [R] of the terms of all rows, [N] of their notionals, [G] the rounded one. *)
Lemma chain_bound n F G T R N k cap :
  (0 <= k -> 0 <= N -> F <= qpow up n * T -> T <= R -> down * R <= up * up * k * N ->
   qpow down n * N <= G -> k * G <= up * cap ->
   F * qpow down (S n) <= qpow up (S (S (S n))) * cap)%Q.
Proof.
  intros Hk HN HF HT HR HG HC. destruct up_down as (Hd0 & Hd1 & Hu). cbn [qpow].
  pose proof (qpow_pos down n Hd0) as Hdn. pose proof (qpow_pos up n ltac:(lra)) as Hun.
  set (U := qpow up n) in *. set (D := qpow down n) in *.
  assert (F <= U * R)%Q as H1 by nra.
  assert (F * (down * D) <= U * R * (down * D))%Q as H2 by (apply Qmult_le_compat_r; nra).
  assert (U * D * (down * R) <= U * D * (up * up * k * N))%Q as H3 by (apply Qmult_le_l; [nra|done]).
  assert (U * (up * up) * k * (D * N) <= U * (up * up) * k * G)%Q as H4.
  { rewrite !(Qmult_comm (U * (up * up) * k)). apply Qmult_le_compat_r; [done|].
    apply Qmult_le_0_compat; [nra|done]. }
  assert (U * (up * up) * (k * G) <= U * (up * up) * (up * cap))%Q as H5 by (apply Qmult_le_l; [nra|done]).
  lra.
Qed.

(** A rounded sum of nonnegative terms, within one relative error per term. *)
Lemma dsum_bounds l acc :
  Forall (fun d => 0 <= dval d)%Q l -> (0 <= dval acc)%Q ->
  (qpow down (List.length l) * (dval acc + qsum dval l) <= dval (fold_left dadd l acc) /\
   dval (fold_left dadd l acc) <= qpow up (List.length l) * (dval acc + qsum dval l))%Q.
Proof.
  destruct up_down as (Hd0 & Hd1 & Hu). intros Hl. revert acc.
  induction Hl as [|d l Hd Hl IH]; intros acc Hacc; cbn [fold_left List.length qpow qsum].
  { lra. }
  pose proof (near_bounds _ _ _ (dadd_near acc d) ltac:(lra)) as [Hlo Hhi].
  assert (0 <= dval (dadd acc d))%Q as Hacc' by nra.
  destruct (IH _ Hacc') as [IH1 IH2].
  pose proof (qsum_nonneg dval l Hl) as Hs.
  pose proof (qpow_pos down (List.length l) Hd0). pose proof (qpow_pos up (List.length l) ltac:(lra)).
  split.
  - eapply Qle_trans; [|exact IH1]. rewrite (Qmult_comm down), <- Qmult_assoc. apply Qmult_le_l; [done|]. nra.
  - eapply Qle_trans; [exact IH2|]. rewrite (Qmult_comm up), <- Qmult_assoc. apply Qmult_le_l; [done|]. nra.
Qed.

Lemma dsum_nonneg l : Forall (fun d => 0 <= dval d)%Q l -> (0 <= dval (dsum l))%Q.
Proof.
  intros Hl. destruct (dsum_bounds l dzero Hl) as [H _]; [by rewrite dval_zero|].
  rewrite dval_zero, Qplus_0_l in H. eapply Qle_trans; [|exact H].
  apply Qmult_le_0_compat; [|by apply qsum_nonneg]. apply Qlt_le_weak, qpow_pos, up_down.
Qed.

(** * Candidates *)

Section Portfolio.
Variable sha256 : string -> string.
Variable cfg : ContinuousSlotConfig.
Variables (sources : dict RawPosition) (mids : mids_map).

(** Where a row comes from. *)
Definition row_of (scale : dec) (r : row) : Prop :=
  exists raw src ss mid, (raw, src) ∈ sources /\ canonical_market_symbol (JStr raw) = Ok (row_market r) /\
    (allowed_markets cfg = [] \/ row_market r ∈ allowed_markets cfg) /\
    positive_mid mids (row_market r) = Some mid /\ pos_size src = Fin ss /\
    pos_size (row_position r) = dmul ss scale /\ ~ (dval (pos_size (row_position r)) == 0)%Q /\
    pos_leverage (row_position r) = (fun l => Z.min l (max_leverage cfg)) <$> pos_leverage src /\
    row_notional r = dmul (dabs (pos_size (row_position r))) mid.

Lemma candidates_rows scale rows :
  fold_res (candidate_step cfg mids scale) sources [] = Ok rows -> Forall (row_of scale) rows.
Proof.
  apply (fold_res_ind (Forall (row_of scale))); [|constructor].
  intros acc [raw src] acc' Hin Hacc H. unfold candidate_step in H.
  apply bind_Ok in H as (m & Hm & H). destruct (negb _ && _) eqn:Eall; [by injection H as <-|].
  destruct (positive_mid mids m) as [mid|] eqn:Emid; [|by injection H as <-].
  destruct (pos_size src) as [ss| |] eqn:Ess; try done.
  destruct (deqb _ dzero) eqn:Ez; injection H as <-; [done|].
  apply Forall_app. split; [done|]. apply Forall_singleton.
  exists raw, src, ss, mid. cbn. split_and!; try done.
  - apply andb_false_iff in Eall as [E|E]; bool_prop; auto.
  - by apply deqb_false in Ez.
Qed.

Lemma positive_mid_pos m mid : positive_mid mids m = Some mid -> (0 < dval mid)%Q /\ mid_of mids m = Ok mid.
Proof.
  unfold positive_mid, mid_of. destruct (dict_get m mids) as [[d| |]|]; try done.
  destruct (dleb d dzero) eqn:E; [done|]. intros [= ->]. by apply dleb_false in E.
Qed.

(** ** The positions built from the selected rows *)

Definition scaled (k : dec) (r : row) : Position :=
  MkPosition (row_market r) (dmul (pos_size (row_position r)) k) (pos_entry_px (row_position r))
    (pos_leverage (row_position r)) (pos_updated_ms (row_position r)).

Lemma positions_of_spec k l :
  NoDup (dict_keys (positions_of k l)) /\ (List.length (positions_of k l) <= List.length l)%nat /\
  (forall m p, (m, p) ∈ positions_of k l -> exists r, r ∈ l /\ m = row_market r /\ p = scaled k r).
Proof.
  unfold positions_of. induction l as [|r l IH] using rev_ind.
  { split_and!; [constructor|done|]. intros m p H. by apply elem_of_nil in H. }
  rewrite fold_left_app. cbn [fold_left]. fold (scaled k r). destruct IH as (Hnd & Hlen & Hin).
  split_and!; [by apply dict_set_NoDup| |].
  - rewrite length_app. cbn [List.length]. eapply Nat.le_trans; [apply dict_set_length|lia].
  - intros m p [[= -> ->]|H]%dict_set_in.
    + exists r. split; [apply elem_of_app; right; by left|done].
    + destruct (Hin _ _ H) as (r' & Hr' & ?). exists r'. split; [apply elem_of_app; by left|done].
Qed.

(** Every row has a position, made from the last row of its market. *)
Lemma positions_of_rows k l :
  (forall m, m ∈ dict_keys (positions_of k l) <-> m ∈ row_market <$> l) /\
  (forall m p, (m, p) ∈ positions_of k l ->
     exists before r after, l = before ++ r :: after /\ row_market r = m /\ m ∉ row_market <$> after /\ p = scaled k r).
Proof.
  clear sha256. induction l as [|r l [IHk IHp]] using rev_ind; [split; [done|]; intros m p H; by apply elem_of_nil in H|].
  unfold positions_of. rewrite fold_left_app. cbn [fold_left]. fold (scaled k r) (positions_of k l). split.
  - intros m. rewrite dict_set_keys_elem, IHk, fmap_app, elem_of_app. cbn. rewrite list_elem_of_singleton. tauto.
  - intros m p Hin. destruct (decide (m = row_market r)) as [->|Hne].
    + pose proof (proj1 (positions_of_spec k (l ++ [r]))) as Hnd.
      unfold positions_of in Hnd. rewrite fold_left_app in Hnd. cbn [fold_left] in Hnd. fold (scaled k r) (positions_of k l) in Hnd.
      apply (dict_in_get _ _ _ Hnd) in Hin. rewrite dict_get_set_eq in Hin. injection Hin as <-.
      exists l, r, []. split_and!; try done. by apply not_elem_of_nil.
    + apply dict_set_in in Hin as [[= -> ->]|Hin]; [done|].
      destruct (IHp _ _ Hin) as (before & r' & after & -> & Hm & Hno & ->).
      exists before, r', (after ++ [r]). rewrite <- app_assoc. split_and!; try done.
      rewrite fmap_app. intros [?|H%list_elem_of_singleton]%elem_of_app; done.
Qed.

(** Later rows of one market replace earlier ones: the weight can only shrink. *)
Lemma positions_weight (w : string * Position -> Q) k l :
  (forall r, 0 <= w (row_market r, scaled k r))%Q ->
  (qsum w (positions_of k l) <= qsum (fun r => w (row_market r, scaled k r)) l)%Q.
Proof.
  intros Hw. unfold positions_of.
  assert (forall (d : dict Position) m p, (forall x, x ∈ d -> 0 <= w x)%Q ->
    (qsum w (dict_set m p d) <= qsum w d + w (m, p))%Q) as Hset.
  { induction d as [|[m' p'] d IH]; intros m p Hd; cbn; [lra|].
    pose proof (Hd (m', p') ltac:(by left)). case_decide; cbn; [subst; lra|].
    pose proof (IH m p (fun x Hx => Hd x ltac:(by right))) as H'. lra. }
  induction l as [|r l IH] using rev_ind; [apply Qle_refl|].
  rewrite fold_left_app. cbn [fold_left]. fold (scaled k r) (positions_of k l).
  eapply Qle_trans; [apply Hset|].
  - intros [m p] Hx. destruct (positions_of_spec k l) as (_ & _ & Hin).
    destruct (Hin _ _ Hx) as (r' & _ & -> & ->). apply Hw.
  - fold (positions_of k l) in IH. rewrite qsum_app. cbn. lra.
Qed.

(** The notional of a position, as the code computes it. *)
Definition term (mp : string * Position) : dec :=
  dmul (dabs (pos_size mp.2)) (default dzero (positive_mid mids mp.1)).

Lemma default_mid_nonneg m : (0 <= dval (default dzero (positive_mid mids m)))%Q.
Proof.
  destruct (positive_mid mids m) eqn:E; cbn; [|apply Qle_refl].
  apply positive_mid_pos in E as [H _]. lra.
Qed.

Lemma dabs_nonneg d : (0 <= dval (dabs d))%Q.
Proof.
  unfold dabs. rewrite dfix_abs. rewrite copy_abs_val. apply Qabs_nonneg.
Qed.

Lemma term_bounds mp : fits (pos_size mp.2) ->
  let x := (Qabs (dval (pos_size mp.2)) * dval (default dzero (positive_mid mids mp.1)))%Q in
  (0 <= x /\ down * x <= dval (term mp) /\ dval (term mp) <= up * x)%Q.
Proof.
  intros Hf x. unfold term. set (mid := default dzero _) in *.
  pose proof (dmul_near (dabs (pos_size mp.2)) mid) as Hn.
  assert (0 <= x)%Q as Hx by (apply Qmult_le_0_compat; [apply Qabs_nonneg|apply default_mid_nonneg]).
  assert (dval (dabs (pos_size mp.2)) * dval mid == x)%Q as Ex by (unfold x; by rewrite dabs_fits_val).
  apply near_bounds in Hn; [|by rewrite Ex]. rewrite Ex in Hn. split; [done|]. split; lra.
Qed.

Lemma term_nonneg mp : fits (pos_size mp.2) -> (0 <= dval (term mp))%Q.
Proof.
  intros Hf. destruct (term_bounds mp Hf) as (Hx & Hlo & _). destruct up_down as (? & ? & _). nra.
Qed.

Lemma portfolio_gross_eq ps :
  Forall (fun mp => is_Some (positive_mid mids mp.1)) ps ->
  portfolio_gross mids ps = Ok (dsum (term <$> ps)).
Proof.
  unfold portfolio_gross, dsum. intros H.
  enough (forall acc, fold_res (fun acc mp => m ← mid_of mids mp.1; Ok (dadd acc (dmul (dabs (pos_size mp.2)) m)))
    ps acc = Ok (fold_left dadd (term <$> ps) acc)) by done.
  induction H as [|[m p] ps [mid Hm] _ IH]; intros acc; cbn [fold_res fmap list_fmap fold_left]; [done|].
  destruct (positive_mid_pos _ _ Hm) as [_ Hof]. cbn [fst snd] in *. rewrite Hof. cbn [mbind res_bind].
  rewrite IH. do 2 f_equal. unfold term. cbn [fst snd]. by rewrite Hm.
Qed.

(** ** The gross limit *)

Lemma scaled_term_bound scale k r :
  row_of scale r -> (0 <= dval k)%Q ->
  (down * dval (term (row_market r, scaled k r)) <= (up * up * dval k) * dval (row_notional r))%Q.
Proof.
  intros (raw & src & ss & mid & _ & _ & _ & Hm & _ & Hsz & _ & _ & Hn) Hk.
  assert (fits (pos_size (row_position r))) as Hf by (rewrite Hsz; apply dmul_fits).
  destruct up_down as (Hd0 & Hd1 & Hu).
  destruct (term_bounds (row_market r, row_position r) Hf) as (Hx & Hlo & _).
  assert (term (row_market r, row_position r) = row_notional r) as Et.
  { unfold term. cbn [fst snd]. by rewrite Hm. }
  rewrite Et in Hlo. cbn [fst snd] in *.
  assert (fits (pos_size (scaled k r))) as Hf' by apply dmul_fits.
  destruct (term_bounds (row_market r, scaled k r) Hf') as (Hx' & _ & Hhi). cbn [fst snd] in *.
  set (mv := dval (default dzero (positive_mid mids (row_market r)))) in *.
  set (sv := Qabs (dval (pos_size (row_position r)))) in *.
  assert (Qabs (dval (pos_size (scaled k r))) <= up * (sv * dval k))%Q as Hs.
  { cbn [scaled pos_size]. pose proof (dmul_near (pos_size (row_position r)) k) as Hnear.
    apply near_abs, near_bounds in Hnear; [|apply Qabs_nonneg].
    rewrite Qabs_Qmult, (Qabs_pos (dval k)) in Hnear by done. fold sv in Hnear. lra. }
  assert (0 <= mv)%Q as Hmv by apply default_mid_nonneg.
  assert (Qabs (dval (pos_size (scaled k r))) * mv <= up * (sv * dval k) * mv)%Q as H1
    by by apply Qmult_le_compat_r.
  eapply Qle_trans; [apply Qmult_le_l; [exact Hd0|exact Hhi]|].
  eapply Qle_trans; [apply Qmult_le_l; [exact Hd0|apply Qmult_le_l; [lra|exact H1]]|].
  assert (down * (up * (up * (sv * dval k) * mv)) == up * up * dval k * (down * (sv * mv)))%Q as -> by ring.
  rewrite (Qmult_comm (up * up * dval k) (down * (sv * mv))),
    (Qmult_comm (up * up * dval k) (dval (row_notional r))).
  apply Qmult_le_compat_r; [exact Hlo|]. apply Qmult_le_0_compat; [nra|done].
Qed.

Lemma gross_bound scale k l cap :
  Forall (row_of scale) l -> (0 <= dval k)%Q ->
  (dval k * dval (dsum (row_notional <$> l)) <= up * cap)%Q -> (0 <= cap)%Q ->
  (dval (dsum (term <$> positions_of k l)) * qpow down (S (List.length l)) <=
   qpow up (S (S (S (List.length l)))) * cap)%Q.
Proof.
  intros Hl Hk HG Hcap. destruct up_down as (Hd0 & Hd1 & Hu).
  destruct (positions_of_spec k l) as (_ & Hlen & Hin).
  set (ps := positions_of k l) in *. set (n := List.length l).
  assert (Forall (fun d => 0 <= dval d)%Q (term <$> ps)) as Hterms.
  { apply list.Forall_fmap, list.Forall_forall. intros [m p] Hx. destruct (Hin _ _ Hx) as (r & _ & -> & ->).
    apply term_nonneg, dmul_fits. }
  assert (Forall (fun d => 0 <= dval d)%Q (row_notional <$> l)) as Hnot.
  { apply list.Forall_fmap. eapply list.Forall_impl; [exact Hl|].
    intros r (raw & src & ss & mid & _ & _ & _ & Hm & _ & Hsz & _ & _ & Hn). cbn.
    assert (term (row_market r, row_position r) = row_notional r) as <-.
    { unfold term. cbn [fst snd]. by rewrite Hm. }
    apply term_nonneg. cbn [snd]. rewrite Hsz. apply dmul_fits. }
  destruct (dsum_bounds (term <$> ps) dzero Hterms ltac:(by rewrite dval_zero)) as [_ Hfin].
  destruct (dsum_bounds (row_notional <$> l) dzero Hnot ltac:(by rewrite dval_zero)) as [Hsum _].
  rewrite dval_zero, Qplus_0_l in Hfin, Hsum. rewrite (length_fmap term) in Hfin. rewrite (length_fmap row_notional) in Hsum. fold n in Hsum.
  fold (dsum (term <$> ps)) in Hfin. fold (dsum (row_notional <$> l)) in Hsum.
  set (F := dval (dsum (term <$> ps))) in *. set (G := dval (dsum (row_notional <$> l))) in *.
  assert (qsum dval (term <$> ps) <= qsum (fun r => dval (term (row_market r, scaled k r))) l)%Q as Hw.
  { assert (qsum dval (term <$> ps) == qsum (fun mp => dval (term mp)) ps)%Q as -> by apply qsum_fmap.
    apply (positions_weight (fun mp => dval (term mp))). intros r. apply term_nonneg, dmul_fits. }
  assert (down * qsum (fun r => dval (term (row_market r, scaled k r))) l <=
          up * up * dval k * qsum dval (row_notional <$> l))%Q as Hrows.
  { rewrite <- qsum_mult. rewrite qsum_fmap. apply qsum_scale.
    eapply list.Forall_impl; [exact Hl|]. intros r Hr. by eapply scaled_term_bound. }
  assert (F <= qpow up n * qsum dval (term <$> ps))%Q as HF.
  { eapply Qle_trans; [exact Hfin|]. apply Qmult_le_compat_r; [by apply qpow_up_mono|].
    apply qsum_nonneg. done. }
  apply (chain_bound n F G (qsum dval (term <$> ps))
    (qsum (fun r => dval (term (row_market r, scaled k r))) l) (qsum dval (row_notional <$> l)) (dval k) cap);
    [done|by apply qsum_nonneg|exact HF|exact Hw|exact Hrows|exact Hsum|exact HG].
Qed.
(** ** What every source position asks for, in exact arithmetic *)

Record Wanted := MkWanted { w_market : string; w_size : Q; w_mid : Q; w_leverage : option Z }.

(** Nothing when the market is not allowed or has no positive mid, or when nothing is held. *)
Definition wanted (sc : Q) (item : string * RawPosition) : option Wanted :=
  match canonical_market_symbol (JStr item.1), pos_size item.2 with
  | Ok m, Fin held =>
      match positive_mid mids m with
      | Some mid =>
          if (bool_decide (allowed_markets cfg = []) || bool_decide (m ∈ allowed_markets cfg)) && negb (Qeq_bool (dval held) 0)
          then Some (MkWanted m (dval held * sc) (dval mid) ((fun l => Z.min l (max_leverage cfg)) <$> pos_leverage item.2))
          else None
      | None => None
      end
  | _, _ => None
  end.

(** The row of a wanted position: its size and its notional are rounded once each. *)
Definition copies (w : Wanted) (r : row) : Prop :=
  row_market r = w_market w /\ near ulp28 (w_size w) (dval (pos_size (row_position r))) /\
  near ulp28 (Qabs (dval (pos_size (row_position r))) * w_mid w) (dval (row_notional r)) /\
  pos_leverage (row_position r) = w_leverage w.

Lemma candidate_wanted sc acc item acc' :
  ~ (dval sc == 0)%Q -> candidate_step cfg mids sc acc item = Ok acc' ->
  exists rows, acc' = acc ++ rows /\ Forall2 copies (option_list (wanted (dval sc) item)) rows.
Proof.
  destruct item as [raw src]. intros Hsc H. unfold candidate_step in H. apply bind_Ok in H as (m & Hm & H).
  assert (forall o : option Wanted, o = None -> exists rows, acc = acc ++ rows /\ Forall2 copies (option_list o) rows) as Hnone
    by (intros ? ->; exists []; by rewrite app_nil_r).
  unfold wanted. cbn [fst snd]. rewrite Hm.
  assert (negb (bool_decide (allowed_markets cfg = [])) && negb (bool_decide (m ∈ allowed_markets cfg)) =
    negb (bool_decide (allowed_markets cfg = []) || bool_decide (m ∈ allowed_markets cfg))) as Eall by (by destruct (bool_decide _)).
  rewrite Eall in H. destruct (_ || _) eqn:E; cbn [negb andb] in H |- *.
  2: { injection H as <-. apply Hnone. by destruct (pos_size src), (positive_mid mids m). }
  destruct (positive_mid mids m) as [mid|] eqn:Emid; [|injection H as <-; apply Hnone; by destruct (pos_size src)].
  destruct (pos_size src) as [held| |]; [|done..]. destruct (dmul_sign held sc) as (_ & _ & Hz).
  assert (dval held * dval sc == 0 <-> dval held == 0)%Q as Hz'.
  { split; [|intros ->; ring]. intros [?|?]%Qmult_integral; [done|by destruct Hsc]. }
  rewrite Hz' in Hz. destruct (deqb (dmul held sc) dzero) eqn:Ez; injection H as <-.
  - apply deqb_spec in Ez. rewrite dval_zero, Hz in Ez. apply Qeq_bool_iff in Ez. rewrite Ez. by apply Hnone.
  - apply deqb_false in Ez. rewrite dval_zero, Hz in Ez.
    destruct (Qeq_bool (dval held) 0) eqn:Eq0; [by apply Qeq_bool_iff in Eq0|]. eexists [_]. split; [done|].
    constructor; [|constructor]. split_and!; [done|apply dmul_near| |done].
    cbn [row_notional row_position pos_size w_mid fst snd].
    pose proof (dmul_near (dabs (dmul held sc)) mid) as Hn. by rewrite dabs_fits_val in Hn by apply dmul_fits.
Qed.

Lemma candidates_wanted sc rows : ~ (dval sc == 0)%Q ->
  fold_res (candidate_step cfg mids sc) sources [] = Ok rows -> Forall2 copies (omap (wanted (dval sc)) sources) rows.
Proof.
  intros Hsc. apply (fold_res_prefix (fun items acc => Forall2 copies (omap (wanted (dval sc)) items) acc)); [|constructor].
  intros items item acc acc' _ Hacc (rows' & -> & Hrows)%candidate_wanted; [|done].
  rewrite omap_app. apply Forall2_app; [done|]. cbn. by destruct (wanted (dval sc) item).
Qed.

(** [k] brings the sum of the notionals of [l], which is rounded once per row, to the cap. *)
Definition limited (cap : Q) (l : list row) (k : Q) : Prop :=
  exists gross, (qpow down (List.length l) * qsum (fun r => dval (row_notional r)) l <= gross)%Q /\
    (gross <= qpow up (List.length l) * qsum (fun r => dval (row_notional r)) l)%Q /\
    (gross <= cap -> k == 1)%Q /\ (cap < gross -> near ulp28 (cap / gross) k)%Q.

End Portfolio.

(** ** The order of the rows *)

Lemma row_leb_spec a b :
  row_leb a b = true <->
  (dval (dopp (row_notional a)) < dval (dopp (row_notional b)))%Q \/
  ((dval (dopp (row_notional a)) == dval (dopp (row_notional b)))%Q /\ str_leb (row_market a) (row_market b) = true).
Proof.
  unfold row_leb. destruct (deqb _ _) eqn:E.
  - apply deqb_spec in E. split; [auto|]. intros [H|[_ H]]; [lra|done].
  - apply deqb_false in E. rewrite dltb_spec. split; [auto|]. intros [H|[H _]]; [done|lra].
Qed.

Lemma row_leb_total a b : row_leb a b = true \/ row_leb b a = true.
Proof.
  rewrite !row_leb_spec.
  destruct (Q_dec (dval (dopp (row_notional a))) (dval (dopp (row_notional b)))) as [[H|H]|H]; [auto|auto|].
  destruct (bo_total (leb := str_leb) (row_market a) (row_market b)); [left|right]; right; (split; [lra|done]).
Qed.

Lemma row_leb_trans a b c : row_leb a b = true -> row_leb b c = true -> row_leb a c = true.
Proof.
  rewrite !row_leb_spec. intros [H1|[H1 S1]] [H2|[H2 S2]]; [left; lra..|].
  right. split; [lra|]. by eapply bo_trans.
Qed.

(** The ranking lists the largest notionals first. *)
Lemma ranked_rows rows : Forall (fun r => fits (row_notional r)) rows ->
  StronglySorted (fun a b => dval (row_notional b) <= dval (row_notional a))%Q (py_sorted row_leb rows).
Proof.
  intros Hf.
  assert (Transitive (fun x y => row_leb x y = true)) by (intros x y z; apply row_leb_trans).
  pose proof (py_sorted_sorted row_leb row_leb_total rows) as Hs. apply Sorted_StronglySorted in Hs; [|done].
  assert (Forall (fun r => fits (row_notional r)) (py_sorted row_leb rows)) as Hf' by by rewrite py_sorted_perm.
  clear Hf. induction Hs as [|r l Hs IH Hr]; [constructor|]. apply list.Forall_cons in Hf' as [Hfr Hfl].
  constructor; [by apply IH|]. rewrite list.Forall_forall in *. intros x Hx. specialize (Hr x Hx).
  apply row_leb_spec in Hr. rewrite !dopp_fits in Hr by auto. destruct Hr as [?|[? _]]; lra.
Qed.

(** The gross of at most [n] scaled positions, against the cap. *)
Lemma portfolio_gross_capped cfg sources mids sc k l n cap :
  Forall (row_of cfg sources mids sc) l -> (0 <= dval k)%Q -> (0 <= dval cap)%Q -> (List.length l <= n)%nat ->
  (dval k * dval (dsum (row_notional <$> l)) <= up * dval cap)%Q ->
  (dval (dsum (term mids <$> positions_of k l)) * qpow down (S n) <= qpow up (S (S (S n))) * dval cap)%Q.
Proof.
  intros Hl Hk Hcap Hn HkG. destruct (positions_of_spec k l) as (_ & _ & Hfrom).
  pose proof (gross_bound cfg sources mids sc k l (dval cap) Hl Hk HkG Hcap) as Hg.
  eapply Qle_trans; [|eapply Qle_trans; [apply Hg|]].
  - rewrite !(Qmult_comm (dval _)). apply Qmult_le_compat_r; [apply qpow_down_mono; lia|].
    apply dsum_nonneg, list.Forall_fmap, list.Forall_forall. intros [m p] Hin.
    destruct (Hfrom _ _ Hin) as (r & _ & -> & ->). apply term_nonneg, dmul_fits.
  - apply Qmult_le_compat_r; [apply qpow_up_mono; lia|done].
Qed.

Section PortfolioTheorem.
Variable sha256 : string -> string.
Variables (cfg : ContinuousSlotConfig) (sources : dict RawPosition) (mids : mids_map) (se fe : dec).

Lemma candidates_total scale :
  Forall (fun ms => is_ok (canonical_market_symbol (JStr ms.1)) = true /\ is_finite (pos_size ms.2) = true) sources ->
  exists rows, fold_res (candidate_step cfg mids scale) sources [] = Ok rows.
Proof.
  generalize (@nil row). intros acc H. revert acc.
  induction H as [|[raw src] l [[m Hm]%is_ok_spec Hf] _ IH]; intros acc; cbn [fold_res]; [by eexists|].
  assert (exists acc', candidate_step cfg mids scale acc (raw, src) = Ok acc') as [acc' ->]; [|apply IH].
  cbn [fst snd] in *. unfold candidate_step. rewrite Hm. cbn [mbind res_bind].
  destruct (_ && _); [by eexists|]. destruct (positive_mid mids m); [|by eexists].
  destruct (pos_size src); [|done..]. by destruct (deqb _ _); eexists.
Qed.

Lemma ratio_pos a b r : (0 < dval a)%Q -> (0 < dval b)%Q -> ddiv a b = Ok r -> (0 < dval r)%Q.
Proof.
  intros Ha Hb Hr%ddiv_near. destruct ulp28_range. apply near_sign in Hr as [Hs _]; [|done|done].
  apply Hs, Qlt_shift_div_l; [done|]. lra.
Qed.

Lemma ddiv_pos_ok a b : (0 < dval b)%Q -> exists r, ddiv a b = Ok r.
Proof.
  intros Hb. apply ddiv_ok. destruct (dis_zero b) eqn:E; [|done]. apply dis_zero_spec in E. lra.
Qed.

(** The factor that brings the gross notional under the cap. *)
Lemma gross_factor cap gross :
  (0 < dval cap)%Q ->
  exists k, (if dltb cap gross then ddiv cap gross else Ok (dint 1)) = Ok k /\
    (0 < dval k)%Q /\ (dval k * dval gross <= up * dval cap)%Q /\
    (dval gross <= dval cap -> dval k == 1)%Q /\ (dval cap < dval gross -> near ulp28 (dval cap / dval gross) (dval k))%Q.
Proof.
  intros Hc. destruct up_down as (_ & _ & Hu). destruct (dltb cap gross) eqn:E.
  - apply dltb_spec in E. destruct (ddiv_pos_ok cap gross) as [k Hk]; [lra|].
    assert (0 < dval k)%Q as Hkpos by (eapply ratio_pos; [exact Hc| |exact Hk]; lra).
    exists k. split_and!; [done|done| |lra|by intros _; apply ddiv_near]. apply ddiv_near, near_bounds in Hk as [_ Hk].
    + assert (dval k * dval gross <= (dval cap / dval gross + ulp28 * (dval cap / dval gross)) * dval gross)%Q as H
        by (apply Qmult_le_compat_r; [done|lra]).
      assert ((dval cap / dval gross + ulp28 * (dval cap / dval gross)) * dval gross == up * dval cap)%Q as E'
        by (field; lra). by rewrite <- E'.
    + apply Qlt_le_weak, Qlt_shift_div_l; [lra|]. lra.
  - apply dltb_false in E. exists (dint 1). assert (dval (dint 1) == 1)%Q as E1 by apply dval_int.
    split_and!; [done|by rewrite E1|rewrite E1; nra|done|lra].
Qed.

(** A position copies its source: market, sign and capped leverage. *)
Lemma position_source sc k l m p :
  Forall (row_of cfg sources mids sc) l -> (0 < dval sc)%Q -> (0 < dval k)%Q -> (m, p) ∈ positions_of k l ->
  exists raw src ss mid, (raw, src) ∈ sources /\ canonical_market_symbol (JStr raw) = Ok m /\ pos_coin p = m /\
    (allowed_markets cfg = [] \/ m ∈ allowed_markets cfg) /\ positive_mid mids m = Some mid /\
    pos_size src = Fin ss /\ (0 < dval ss * dval (pos_size p))%Q /\
    (forall lv, pos_leverage p = Some lv -> lv <= max_leverage cfg).
Proof.
  intros Hl Hsc Hk Hin. destruct (positions_of_spec k l) as (_ & _ & Hp).
  destruct (Hp _ _ Hin) as (r & Hr & -> & ->). rewrite list.Forall_forall in Hl.
  destruct (Hl _ Hr) as (raw & src & ss & mid & Hsrc & Hm & Hall & Hmid & Hss & Hsz & Hnz & Hlev & _).
  exists raw, src, ss, mid. split_and!; try done.
  - cbn [scaled pos_size]. rewrite Hsz in *.
    destruct (dmul_sign ss sc) as (P1 & N1 & Z1), (dmul_sign (dmul ss sc) k) as (P2 & N2 & _).
    destruct (Q_dec (dval ss) 0) as [[Hneg|Hpos]|Hz].
    + assert (dval (dmul ss sc) < 0)%Q by (apply N1; nra).
      assert (dval (dmul (dmul ss sc) k) < 0)%Q by (apply N2; nra). nra.
    + assert (0 < dval (dmul ss sc))%Q by (apply P1; nra).
      assert (0 < dval (dmul (dmul ss sc) k))%Q by (apply P2; nra). nra.
    + destruct Hnz. apply Z1. rewrite Hz. ring.
  - cbn [scaled pos_leverage]. rewrite Hlev. intros lv H. destruct (pos_leverage src); [|done].
    injection H as <-. lia.
Qed.

Lemma near_ratio a b m r : ddiv a b = Ok r -> near (ulp28 + ulp28 + ulp28 * ulp28) (dval a / dval b * dval m) (dval (dmul r m)).
Proof.
  intros Hr%ddiv_near. eapply near_trans; [by destruct ulp28_range| |apply dmul_near]. unfold near in *.
  assert (dval r * dval m - dval a / dval b * dval m == (dval r - dval a / dval b) * dval m)%Q as -> by ring.
  rewrite !Qabs_Qmult, Qmult_assoc. by apply Qmult_le_compat_r; [|apply Qabs_nonneg].
Qed.

Lemma limited_sum cap l k :
  Forall (fun r => 0 <= dval (row_notional r))%Q l ->
  let gross := dsum (row_notional <$> l) in
  (dval gross <= dval cap -> dval k == 1)%Q -> (dval cap < dval gross -> near ulp28 (dval cap / dval gross) (dval k))%Q ->
  limited (dval cap) l (dval k).
Proof.
  intros Hl gross H1 H2. exists (dval gross).
  assert (Forall (fun d => 0 <= dval d)%Q (row_notional <$> l)) as Hl' by by apply list.Forall_fmap.
  destruct (dsum_bounds (row_notional <$> l) dzero Hl' ltac:(by rewrite dval_zero)) as [Hlo Hhi].
  rewrite dval_zero, Qplus_0_l, (length_fmap row_notional), qsum_fmap in Hlo, Hhi. by split_and!.
Qed.

Lemma row_notional_nonneg sc r : row_of cfg sources mids sc r -> fits (row_notional r) /\ (0 <= dval (row_notional r))%Q.
Proof.
  intros (raw & src & ss & mid & _ & _ & _ & Hm & _ & _ & _ & _ & ->). split; [apply dmul_fits|].
  pose proof (dabs_nonneg (pos_size (row_position r))) as H0. apply positive_mid_pos in Hm as [Hm _].
  destruct (Qlt_le_dec (dval (dmul (dabs (pos_size (row_position r))) mid)) 0) as [H|H]; [|done].
  apply dmul_sign in H. nra.
Qed.

(** C38. The target portfolio is the scaled copy of the largest source positions: for a
    validated slot, positive equities, canonical names and finite sizes the function
    returns a portfolio.  Its scale is the equity ratio times the multiplier; every source
    position of an allowed market with a positive mid becomes one candidate of the scaled
    size, the others none; the candidates are ranked by notional, the largest first, and
    the first [max_open_positions] are kept; every kept market, and no other, has one
    position: the candidate (the last one kept, if two names mean one market) times the
    factor that brings the gross of all that is kept to the cap, with the leverage of the
    source up to the limit.  The gross is then within the cap.  All of this up to the
    rounding of 28-digit arithmetic, which is bounded. *)
Theorem desired_portfolio_correct :
  valid_slot cfg -> (0 < dval se)%Q -> (0 < dval fe)%Q ->
  Forall (fun ms => is_ok (canonical_market_symbol (JStr ms.1)) = true /\ is_finite (pos_size ms.2) = true) sources ->
  exists d rows ranked, build_desired_portfolio sha256 cfg sources (Fin se) (Fin fe) mids = Ok d /\
    near (ulp28 + ulp28 + ulp28 * ulp28) (dval fe / dval se * dval (multiplier cfg)) (dval (scale d)) /\
    Forall2 copies (omap (wanted cfg mids (dval (scale d))) sources) rows /\
    rows ≡ₚ ranked /\
    StronglySorted (fun a b => dval (row_notional b) <= dval (row_notional a))%Q ranked /\
    (let n := Z.to_nat (max_open_positions cfg) in
     let kept := take n ranked in
     limited (dval (max_gross_exposure_usd cfg)) kept (dval (gross_scale d)) /\
     (forall m, m ∈ dict_keys (positions d) <-> m ∈ row_market <$> kept) /\
     NoDup (dict_keys (positions d)) /\ (List.length (positions d) <= n)%nat /\
     (forall m p, (m, p) ∈ positions d ->
        exists before r after, kept = before ++ r :: after /\ row_market r = m /\ m ∉ row_market <$> after /\
          pos_coin p = m /\ pos_leverage p = pos_leverage (row_position r) /\
          near ulp28 (dval (pos_size (row_position r)) * dval (gross_scale d)) (dval (pos_size p))) /\
     (forall m p, (m, p) ∈ positions d ->
        exists raw src ss mid, (raw, src) ∈ sources /\ canonical_market_symbol (JStr raw) = Ok m /\ pos_coin p = m /\
          (allowed_markets cfg = [] \/ m ∈ allowed_markets cfg) /\ positive_mid mids m = Some mid /\
          pos_size src = Fin ss /\ (0 < dval ss * dval (pos_size p))%Q /\
          (forall l, pos_leverage p = Some l -> l <= max_leverage cfg)) /\
     (dval (gross_notional_usd d) * qpow down (S n) <= qpow up (S (S (S n))) * dval (max_gross_exposure_usd cfg))%Q).
Proof.
  intros Hcfg Hse Hfe Hsrc. unfold build_desired_portfolio.
  rewrite !(proj2 (dleb_false _ _)) by (rewrite dval_zero; done).
  destruct (ddiv_pos_ok fe se Hse) as [ratio Hratio]. rewrite Hratio. cbn [mbind res_bind].
  set (sc := dmul ratio (multiplier cfg)).
  assert (0 < dval sc)%Q as Hsc.
  { apply dmul_sign. pose proof (ratio_pos _ _ _ Hfe Hse Hratio). pose proof (vs_multiplier _ Hcfg). nra. }
  destruct (candidates_total sc Hsrc) as [rows Hrows]. rewrite Hrows. cbn [mbind res_bind].
  set (n := Z.to_nat (max_open_positions cfg)). set (kept := take n (py_sorted row_leb rows)).
  pose proof (candidates_rows cfg sources mids sc rows Hrows) as Hall.
  assert (Forall (row_of cfg sources mids sc) kept) as Hkept by (apply Forall_take; by rewrite py_sorted_perm).
  pose proof (vs_order_cap _ Hcfg) as Hoc. pose proof (vs_caps _ Hcfg) as Hcaps.
  assert (0 < dval (max_gross_exposure_usd cfg))%Q as Hcap by lra.
  destruct (gross_factor (max_gross_exposure_usd cfg) (dsum (row_notional <$> kept)) Hcap) as (k & -> & Hk & HkG & Hk1 & Hk2).
  cbn [mbind res_bind].
  destruct (positions_of_spec k kept) as (Hnd & Hlen & _). destruct (positions_of_rows k kept) as [Hkeys Hlast].
  assert (List.length kept <= n)%nat as Hkn by (unfold kept; rewrite length_take; lia).
  rewrite (portfolio_gross_eq mids).
  2: { apply list.Forall_forall. intros [m p] Hin.
       destruct (position_source sc k kept m p Hkept Hsc Hk Hin) as (? & ? & ? & mid & _ & _ & _ & _ & Hm & _).
       by exists mid. }
  cbn [mbind res_bind]. eexists _, rows, (py_sorted row_leb rows). split; [reflexivity|].
  cbn [scale gross_scale positions gross_notional_usd]. split_and!.
  - by apply near_ratio.
  - apply candidates_wanted; [lra|done].
  - symmetry. apply py_sorted_perm.
  - apply ranked_rows. eapply list.Forall_impl; [exact Hall|]. intros r Hr. by eapply row_notional_nonneg.
  - apply limited_sum; [|done..]. eapply list.Forall_impl; [exact Hkept|]. intros r Hr. by eapply row_notional_nonneg.
  - exact Hkeys.
  - done.
  - lia.
  - intros m p Hin. destruct (Hlast m p Hin) as (before & r & after & E & Hm & Hno & ->).
    exists before, r, after. split_and!; try done. apply dmul_near.
  - intros m p. by apply (position_source sc k kept).
  - apply (portfolio_gross_capped cfg sources mids sc k kept n); [done|lra|lra|done|done].
Qed.
End PortfolioTheorem.

(** * The size of the next action *)

(** Signs of two rationals. *)
Lemma opposite_signs x y : (x * y < 0)%Q <-> (x < 0 /\ 0 < y)%Q \/ (0 < x /\ y < 0)%Q.
Proof.
  split; [|intros [[]|[]]; nra]. intros H.
  destruct (Q_dec x 0) as [[Hx|Hx]|Hx]; [left|right|rewrite Hx in H; lra]; (split; [done|]).
  - destruct (Qlt_le_dec 0 y); [done|nra].
  - destruct (Qlt_le_dec y 0); [done|nra].
Qed.

Lemma dpos_diff a b :
  ~ (dval a == 0)%Q -> ~ (dval b == 0)%Q ->
  bool_decide (dpos a = dpos b) = false <-> (dval a * dval b < 0)%Q.
Proof.
  intros Ha Hb. rewrite bool_decide_eq_false, opposite_signs.
  destruct (dpos a) eqn:Ea, (dpos b) eqn:Eb.
  - apply dpos_spec in Ea, Eb. split; [done|intros [[]|[]]; lra].
  - apply dpos_spec in Ea. assert (~ (0 < dval b)%Q) by (rewrite <- dpos_spec; congruence).
    split; [|done]. intros _. right. destruct (Q_dec (dval b) 0) as [[]|]; try done; lra.
  - apply dpos_spec in Eb. assert (~ (0 < dval a)%Q) by (rewrite <- dpos_spec; congruence).
    split; [|done]. intros _. left. destruct (Q_dec (dval a) 0) as [[]|]; try done; lra.
  - assert (~ (0 < dval a)%Q) by (rewrite <- dpos_spec; congruence).
    assert (~ (0 < dval b)%Q) by (rewrite <- dpos_spec; congruence).
    split; [done|intros [[]|[]]; lra].
Qed.

Lemma Qabs_nonzero x : ~ (x == 0)%Q -> (0 < Qabs x)%Q.
Proof.
  intros H. destruct (Q_dec x 0) as [[Hx|Hx]|Hx]; [rewrite Qabs_neg|rewrite Qabs_pos|done]; lra.
Qed.

(** [s] is a cut of [r] toward zero. *)
Definition cut (r s : Q) : Prop := ((0 <= r -> 0 <= s /\ s <= r) /\ (r <= 0 -> s <= 0 /\ r <= s))%Q.

#[export] Instance cut_proper : Proper (Qeq ==> Qeq ==> iff) cut.
Proof. intros r r' Hr s s' Hs. unfold cut. by rewrite Hr, Hs. Qed.

Lemma cut_abs r s : cut r s -> (Qabs s <= Qabs r)%Q.
Proof.
  intros [H1 H2]. destruct (Qlt_le_dec r 0) as [H|H].
  - destruct H2; [lra|]. rewrite !Qabs_neg by lra. lra.
  - destruct H1; [lra|]. rewrite !Qabs_pos by lra. lra.
Qed.

Lemma cut_trans a b c : cut a b -> cut b c -> cut a c.
Proof.
  intros [A1 A2] [B1 B2]. split; intros H.
  - destruct (A1 H). destruct B1; [done|]. lra.
  - destruct (A2 H). destruct B2; [done|]. lra.
Qed.

Lemma quantize_cut r k s : quantize_size (Fin r) k = Ok s -> cut (dval r) (dval s).
Proof. intros (_ & H1 & H2)%quantize_size_truncation. split; intros H; [destruct (H1 H)|destruct (H2 H)]; tauto. Qed.

(** Capping a nonzero correction by a positive size keeps its direction. *)
Lemma cap_cut raw m :
  fits raw -> (0 < dval m)%Q ->
  cut (dval raw) (dval (if dltb m (dabs raw) then copy_sign m raw else raw)).
Proof.
  intros Hf Hm. destruct (dltb m (dabs raw)) eqn:E; [|split; intros; lra].
  apply dltb_spec in E. rewrite dabs_fits_val in E by done. rewrite copy_sign_val by lra.
  destruct (dneg_spec raw) as [Hn Hp]. destruct (dneg raw).
  - specialize (Hn eq_refl). rewrite Qabs_neg in E by done. split; intros; lra.
  - specialize (Hp eq_refl). rewrite Qabs_pos in E by done. split; intros; lra.
Qed.

Lemma raw_fits d c : fits (raw_action d c).
Proof. unfold raw_action. destruct (reversing d c); auto with copytrader. Qed.

Lemma attempt_cut d c m k s :
  (0 < dval m)%Q -> attempt_size d c m k = Ok s -> cut (dval (raw_action d c)) (dval s).
Proof. intros Hm H%quantize_cut. eapply cut_trans; [apply cap_cut; [apply raw_fits|done]|done]. Qed.

Lemma copy_sign_abs m x : (0 <= dval m)%Q -> (Qabs (dval (copy_sign m x)) == dval m)%Q.
Proof.
  intros H. rewrite copy_sign_val by done. rewrite Qabs_Qmult, (Qabs_pos (dval m)) by done.
  destruct (dneg x); [change (Qabs (-1)) with 1%Q|change (Qabs 1) with 1%Q]; ring.
Qed.

(** A size that is cut to [m] and to whole lots. *)
Definition within (m : Q) (decimals : Z) (size : Q) : Prop := multiple_of (- decimals) size /\ (Qabs size <= m)%Q.

Lemma attempt_within d c m k s : (0 < dval m)%Q -> attempt_size d c m k = Ok s -> within (dval m) k (dval s).
Proof.
  intros Hm Hs. split; [by apply quantize_size_truncation in Hs as [? _]|].
  apply quantize_cut, cut_abs in Hs. eapply Qle_trans; [exact Hs|].
  destruct (dltb m (dabs (raw_action d c))) eqn:E; [rewrite copy_sign_abs; lra|].
  apply dltb_false in E. by rewrite dabs_fits_val in E by apply raw_fits.
Qed.

Lemma chunk_within c m k s : (0 < dval m)%Q -> full_chunk c m k = Ok s -> within (dval m) k (dval s).
Proof.
  intros Hm Hs. split; [by apply quantize_size_truncation in Hs as [? _]|].
  apply quantize_cut, cut_abs in Hs. eapply Qle_trans; [exact Hs|].
  assert (0 <= dval (dmin (dabs c) m) /\ dval (dmin (dabs c) m) <= dval m)%Q as [H0 H1].
  { pose proof (dabs_nonneg c). unfold dmin. destruct (dltb m (dabs c)) eqn:E; [lra|]. apply dltb_false in E. lra. }
  by rewrite copy_sign_abs.
Qed.

Lemma cap_per_unit cap mid max : (0 < dval cap)%Q -> (0 < dval mid)%Q -> ddiv cap mid = Ok max ->
  (dval max * dval mid <= up * dval cap)%Q.
Proof.
  intros Hc Hm [_ H]%ddiv_near%near_bounds; [|apply Qle_shift_div_l; lra].
  assert (dval max * dval mid <= (dval cap / dval mid + ulp28 * (dval cap / dval mid)) * dval mid)%Q as H'
    by (apply Qmult_le_compat_r; [done|lra]).
  assert ((dval cap / dval mid + ulp28 * (dval cap / dval mid)) * dval mid == up * dval cap)%Q as E by (field; lra).
  by rewrite <- E.
Qed.

Section Step.
Variables (d c : dec).
Hypotheses (Hd : fits d) (Hc : fits c).
Local Abbreviation dv := (dval d).
Local Abbreviation cv := (dval c).

Lemma reversing_spec : reversing d c = true <-> (dv * cv < 0)%Q.
Proof.
  unfold reversing. rewrite !andb_true_iff, !negb_true_iff, !deqb_false, dval_zero. split.
  - intros [[H1 H2] H3]. apply dpos_diff in H3; [|done..]. lra.
  - intros H. assert (~ cv == 0)%Q by (intros E; rewrite E in H; lra).
    assert (~ dv == 0)%Q by (intros E; rewrite E in H; lra).
    split; [done|]. apply dpos_diff; [done|done|lra].
Qed.

(** The direction of the correction. *)
Lemma raw_val :
  (reversing d c = true -> dval (raw_action d c) == - cv)%Q /\
  (reversing d c = false ->
     ((0 < dval (raw_action d c) <-> 0 < dv - cv) /\ (dval (raw_action d c) < 0 <-> dv - cv < 0))%Q).
Proof.
  unfold raw_action. split; intros ->.
  - by apply dopp_fits.
  - destruct (dsub_sign d c) as (H1 & H2 & _). by split.
Qed.

(** [reduces] says exactly that the position must shrink. *)
Lemma reduces_spec :
  reduces d c = true <->
  (~ (cv == 0) /\ (dv == 0 \/ dv * cv < 0 \/ Qabs dv < Qabs cv))%Q.
Proof.
  unfold reduces. destruct (reversing d c) eqn:Er; cbn [orb].
  - pose proof (proj1 reversing_spec Er) as H. split; [|done]. intros _.
    split; [intros E; rewrite E in H; lra|auto].
  - assert (~ (dv * cv < 0)%Q) as Hs by (rewrite <- reversing_spec; congruence).
    destruct (proj2 raw_val Er) as [Hpos Hneg].
    rewrite !andb_true_iff, !negb_true_iff, !deqb_false, dval_zero, dltb_spec, !dabs_fits_val by done.
    set (raw := dval (raw_action d c)) in *.
    split.
    + intros [[[H1 H2] _] H4]. auto.
    + intros [H1 H2]. assert (Qabs dv < Qabs cv)%Q as Hlt.
      { destruct H2 as [Hz|[?|?]]; [|done..]. rewrite Hz. change (Qabs 0) with 0%Q.
        by apply Qabs_nonzero. }
      assert (raw * cv < 0)%Q as Hopp.
      { apply opposite_signs. destruct (Q_dec cv 0) as [[Hn|Hp]|?]; [right|left|done].
        - split; [|done]. apply Hpos. rewrite (Qabs_neg cv) in Hlt by lra.
          apply Qabs_Qlt_condition in Hlt. lra.
        - split; [|done]. apply Hneg. rewrite (Qabs_pos cv) in Hlt by lra.
          apply Qabs_Qlt_condition in Hlt. lra. }
      assert (~ (raw == 0)%Q) by (intros E; rewrite E in Hopp; lra).
      split; [split; [done|apply dpos_diff; done]|done].
Qed.

(** A reduction takes part of the confirmed position: it never crosses zero. *)
Lemma reduce_step m k s :
  (0 < dval m)%Q -> reduces d c = true -> attempt_size d c m k = Ok s -> ~ (dval s == 0)%Q ->
  (dval s * cv < 0 /\ Qabs (dval s) <= Qabs cv)%Q.
Proof.
  intros Hm Hr Hs Hnz. apply attempt_cut in Hs; [|done]. pose proof (cut_abs _ _ Hs) as Habs.
  assert (dval (raw_action d c) * cv < 0 /\ Qabs (dval (raw_action d c)) <= Qabs cv)%Q as [Ho Hle].
  { destruct (reversing d c) eqn:Er.
    - pose proof (proj1 reversing_spec Er) as Hdc. pose proof (proj1 raw_val Er) as E.
      rewrite E, Qabs_opp. split; [|lra]. assert (~ cv == 0)%Q by (intros E'; rewrite E' in Hdc; lra).
      destruct (Q_dec cv 0) as [[]|]; [nra|nra|done].
    - pose proof Hr as [Hcz _]%reduces_spec.
      assert (~ (dv * cv < 0)%Q) as Hsame by (rewrite <- reversing_spec; congruence).
      apply reduces_spec in Hr as [_ Hr].
      assert (Qabs dv < Qabs cv)%Q as Hlt.
      { destruct Hr as [Hz|[?|?]]; [|done..]. rewrite Hz. change (Qabs 0) with 0%Q.
        by apply Qabs_nonzero. }
      destruct (proj2 raw_val Er) as [Hpos Hneg].
      split.
      + apply opposite_signs. destruct (Q_dec cv 0) as [[Hn|Hp]|?]; [right|left|done].
        * split; [|done]. apply Hpos. rewrite (Qabs_neg cv) in Hlt by lra. apply Qabs_Qlt_condition in Hlt. lra.
        * split; [|done]. apply Hneg. rewrite (Qabs_pos cv) in Hlt by lra. apply Qabs_Qlt_condition in Hlt. lra.
      + unfold raw_action. rewrite Er. apply dsub_shrinks; [done| |lra].
        destruct (Qlt_le_dec (dv * cv) 0); [done|lra]. }
  split; [|lra]. destruct Hs as [H1 H2]. apply opposite_signs in Ho. apply opposite_signs.
  destruct Ho as [[Ha Hb]|[Ha Hb]]; [left|right]; (split; [|done]).
  - destruct H2; [lra|]. destruct (Q_dec (dval s) 0) as [[]|]; [done|lra|done].
  - destruct H1; [lra|]. destruct (Q_dec (dval s) 0) as [[]|]; [lra|done|done].
Qed.

(** Any other action moves strictly toward the target and never shrinks the position. *)
Lemma increase_step m k s :
  (0 < dval m)%Q -> reduces d c = false -> attempt_size d c m k = Ok s -> ~ (dval s == 0)%Q ->
  (0 <= dval s * cv /\ Qabs (dv - cv - dval s) < Qabs (dv - cv))%Q.
Proof.
  intros Hm Hr Hs Hnz. apply attempt_cut in Hs; [|done].
  assert (~ (~ (cv == 0) /\ (dv == 0 \/ dv * cv < 0 \/ Qabs dv < Qabs cv)))%Q as Hno
    by (rewrite <- reduces_spec; congruence).
  assert (reversing d c = false) as Er.
  { destruct (reversing d c) eqn:E; [|done]. unfold reduces in Hr. by rewrite E in Hr. }
  destruct (proj2 raw_val Er) as [Hpos Hneg].
  pose proof (dsub_near d c) as Hnear. unfold raw_action in *. rewrite Er in *.
  set (raw := dval (dsub d c)) in *. set (x := (dv - cv)%Q) in *. destruct Hs as [H1 H2].
  destruct ulp28_range as [U0 U1]. unfold near in Hnear.
  destruct (Q_dec x 0) as [[Hx|Hx]|Hx].
  - assert (raw < 0)%Q as Hraw by by apply Hneg. destruct H2 as [H2 H3]; [lra|].
    assert (dval s < 0)%Q as Hs by (destruct (Q_dec (dval s) 0) as [[]|]; [done|lra|done]).
    rewrite (Qabs_neg x) in * by lra. apply Qabs_Qle_condition in Hnear. split.
    + destruct (Qlt_le_dec 0 cv) as [Hcv|]; [|nra]. exfalso. apply Hno. split; [lra|].
      destruct (Qlt_le_dec dv 0); [right; left; nra|]. right; right. rewrite !Qabs_pos by lra. unfold x in Hx. lra.
    + apply Qabs_Qlt_condition. nra.
  - assert (0 < raw)%Q as Hraw by by apply Hpos. destruct H1 as [H1 H3]; [lra|].
    assert (0 < dval s)%Q as Hs by (destruct (Q_dec (dval s) 0) as [[]|]; [lra|done|done]).
    rewrite (Qabs_pos x) in * by lra. apply Qabs_Qle_condition in Hnear. split.
    + destruct (Qlt_le_dec cv 0) as [Hcv|]; [|nra]. exfalso. apply Hno. split; [lra|].
      destruct (Qlt_le_dec 0 dv); [right; left; nra|]. right; right. rewrite !Qabs_neg by lra. unfold x in Hx. lra.
    + apply Qabs_Qlt_condition. nra.
  - exfalso. apply Hnz. assert (~ (0 < raw)%Q) by (rewrite Hpos; lra). assert (~ (raw < 0)%Q) by (rewrite Hneg; lra).
    destruct H1; [lra|]. destruct H2; lra.
Qed.

(** The fall-back reduction also takes part of the position. *)
Lemma chunk_step m k s :
  (0 < dval m)%Q -> ~ (cv == 0)%Q -> full_chunk c m k = Ok s -> ~ (dval s == 0)%Q ->
  (dval s * cv < 0 /\ Qabs (dval s) <= Qabs cv)%Q.
Proof.
  intros Hm Hcz Hs Hnz. apply quantize_cut in Hs.
  assert (dval (dabs c) == Qabs cv)%Q as Ea by by apply dabs_fits_val.
  assert (0 <= dval (dmin (dabs c) m) /\ dval (dmin (dabs c) m) <= Qabs cv)%Q as [Hmin0 Hmin].
  { pose proof (Qabs_nonneg cv). unfold dmin. destruct (dltb m (dabs c)) eqn:E; [apply dltb_spec in E|]; lra. }
  rewrite copy_sign_val in Hs by done.
  pose proof (dopp_fits c Hc) as Eo. destruct (dneg_spec (dopp c)) as [Hn Hp].
  destruct Hs as [H1 H2]. destruct (dneg (dopp c)).
  - specialize (Hn eq_refl). assert (0 < cv)%Q as Hcpos by (destruct (Q_dec cv 0) as [[]|]; [lra|done|done]).
    rewrite (Qabs_pos cv) in * by lra. destruct H2 as [H2 H3]; [lra|].
    assert (dval s < 0)%Q by (destruct (Q_dec (dval s) 0) as [[]|]; [done|lra|done]).
    split; [nra|]. rewrite Qabs_neg by lra. lra.
  - specialize (Hp eq_refl). assert (cv < 0)%Q as Hcneg by (destruct (Q_dec cv 0) as [[]|]; [done|lra|done]).
    rewrite (Qabs_neg cv) in * by lra. destruct H1 as [H1 H3]; [lra|].
    assert (0 < dval s)%Q by (destruct (Q_dec (dval s) 0) as [[]|]; [lra|done|done]).
    split; [nra|]. rewrite Qabs_pos by lra. lra.
Qed.
End Step.

(** * The choice of the next action *)

Section ChooseFacts.
Variable cfg : ContinuousSlotConfig.
Variables (desired : DesiredPortfolio) (follower_positions : dict Position)
  (unresolved : dict dec) (mids : mids_map) (size_decimals : dict Z)
  (market_rules : option (dict HyperliquidPerpRules)).
Local Abbreviation verdict_of := (market_verdict cfg desired follower_positions unresolved mids size_decimals market_rules).
Local Abbreviation dsize := (desired_size desired).
Local Abbreviation csize := (confirmed_size follower_positions).
Local Abbreviation markets := (action_markets desired follower_positions).
Local Abbreviation needs := (needs_reduction desired follower_positions).

(** The order in which the markets are considered. *)
Lemma elem_of_action_markets m :
  m ∈ markets <-> m ∈ dict_keys (positions desired) \/ m ∈ dict_keys follower_positions.
Proof. unfold action_markets. by rewrite !elem_of_py_sorted, elem_of_remove_dups, elem_of_app. Qed.

Lemma reductions_first pre m post :
  markets = pre ++ m :: post -> needs m = false -> forall m', m' ∈ markets -> needs m' = true -> m' ∈ pre.
Proof.
  intros E Hm m' Hin Hm'. rewrite E in Hin.
  assert (BoolOrder (fun a b => tuple_leb bool_leb str_leb (negb (needs a), a) (negb (needs b), b))) as Hb.
  { refine (order_on (fun a => (negb (needs a), a)) (tuple_leb bool_leb str_leb) _). intros x y H. congruence. }
  assert (Transitive (fun a b => tuple_leb bool_leb str_leb (negb (needs a), a) (negb (needs b), b) = true))
    as Ht by (intros x y z; apply (@bo_trans _ _ Hb)).
  assert (StronglySorted (fun a b => tuple_leb bool_leb str_leb (negb (needs a), a) (negb (needs b), b) = true)
    (pre ++ m :: post)) as Hs.
  { rewrite <- E. apply Sorted_StronglySorted; [done|]. apply py_sorted_sorted. apply (@bo_total _ _ Hb). }
  apply elem_of_app in Hin as [?|[->|Hpost]%elem_of_cons]; [done|congruence|]. exfalso.
  clear E. induction pre as [|x pre IH]; cbn in Hs.
  - apply StronglySorted_inv in Hs as [_ Hall]. rewrite list.Forall_forall in Hall.
    specialize (Hall _ Hpost). unfold tuple_leb in Hall. cbn in Hall. by rewrite Hm, Hm' in Hall.
  - apply StronglySorted_inv in Hs as [Hs _]. by apply IH.
Qed.

(** Markets the loop went past before it acted. *)
Definition passed (dec : ActionDecision) (m : string) : Prop :=
  verdict_of m = Ok Continue \/
  exists msg r, verdict_of m = Ok (Defer msg r) /\ msg ∈ skipped_blockers dec.

Inductive loop_result (ms skipped : list string) (dec : ActionDecision) : Prop :=
  | loop_act pre m post a r :
      ms = pre ++ m :: post -> verdict_of m = Ok (Act a r) -> action dec = Some a -> blocker dec = None ->
      residual dec = r -> (forall x, x ∈ skipped -> x ∈ skipped_blockers dec) ->
      (forall x, x ∈ pre -> passed dec x) -> loop_result ms skipped dec
  | loop_blocked :
      action dec = None -> blocker dec <> None ->
      skipped <> [] \/ (exists m, m ∈ ms /\ verdict_of m <> Ok Continue) -> loop_result ms skipped dec
  | loop_done :
      action dec = None -> blocker dec = None -> skipped = [] -> (forall m, m ∈ ms -> verdict_of m = Ok Continue) ->
      loop_result ms skipped dec.

Lemma choose_loop_spec ms skipped fb dec :
  choose_loop cfg desired follower_positions unresolved mids size_decimals market_rules ms skipped fb = Ok dec ->
  loop_result ms skipped dec.
Proof.
  revert skipped fb. induction ms as [|m ms IH]; intros skipped fb H; cbn [choose_loop] in H.
  - destruct skipped; injection H as <-; [|by apply loop_blocked; auto]. apply loop_done; try done. set_solver.
  - apply bind_Ok in H as (v & Hv & H). destruct v as [|msg r|msg r|a r].
    + apply IH in H as [pre m' post a r -> Hact Ha Hb Hr Hsk Hpre|? ? Hwhy|Ha Hb Hsk Hall].
      * eapply (loop_act _ _ _ (m :: pre)); try done. intros x [->|Hx]%elem_of_cons; [by left|by apply Hpre].
      * apply loop_blocked; [done..|]. destruct Hwhy as [?|(x & Hx & ?)]; [auto|right].
        exists x. split; [by right|done].
      * apply loop_done; try done. intros x [->|Hx]%elem_of_cons; [done|by apply Hall].
    + apply IH in H as [pre m' post a r' -> Hact Ha Hb Hr Hsk Hpre|? ? Hwhy|Ha Hb Hsk Hall].
      * eapply (loop_act _ _ _ (m :: pre)); try done.
        -- intros x Hx. apply Hsk, elem_of_app. by left.
        -- intros x [->|Hx]%elem_of_cons; [|by apply Hpre]. right. exists msg, r. split; [done|].
           apply Hsk, elem_of_app. right. by left.
      * apply loop_blocked; [done..|]. right. exists m. split; [by left|]. by rewrite Hv.
      * by destruct skipped.
    + injection H as <-. apply loop_blocked; [done..|]. right. exists m. split; [by left|]. by rewrite Hv.
    + injection H as <-. eapply (loop_act _ _ _ []); try done. intros x Hx. by apply elem_of_nil in Hx.
Qed.

Lemma verdict_continue m :
  (dval (market_residual desired follower_positions unresolved m) == 0)%Q <-> verdict_of m = Ok Continue.
Proof.
  unfold market_verdict. cbv zeta. destruct (deqb (market_residual _ _ _ m) dzero) eqn:E.
  { apply deqb_spec in E. rewrite dval_zero in E. done. }
  apply deqb_false in E. rewrite dval_zero in E. split; [done|]. intros H. exfalso.
  destruct (negb _); [done|]. destruct (positive_mid mids m); [|done]. destruct (dict_get m size_decimals); [|done].
  apply bind_Ok in H as (? & _ & H). apply bind_Ok in H as (? & _ & H). destruct (deqb _ _); [done|].
  destruct (rules_for _ _ _ _); [|done]. apply bind_Ok in H as (? & _ & H).
  destruct (placeable _); [done|]. destruct (negb _); [done|]. unfold reduce_further in H.
  apply bind_Ok in H as (? & _ & H). apply bind_Ok in H as (? & _ & H).
  destruct (negb _); [done|]. by destruct (negb _).
Qed.

(** How an action comes about. *)
Record act_facts (m : string) (a : NextAction) : Prop := {
  af_unresolved : (dval (unresolved_size unresolved m) == 0)%Q;
  af_residual : ~ (dval (market_residual desired follower_positions unresolved m) == 0)%Q;
  af_size : exists mid decimals max signed rules reason pf,
    positive_mid mids m = Some mid /\ dict_get m size_decimals = Some decimals /\
    ddiv (max_order_notional_usd cfg) mid = Ok max /\ rules_for cfg market_rules m decimals = Some rules /\
    a = make_action desired m signed (na_reduce_only a) reason /\
    na_reduce_only a = reduces (dsize m) (csize m) /\
    order_preflight cfg follower_positions rules m mid signed (na_reduce_only a) = Ok pf /\ placeable pf = true /\
    ((attempt_size (dsize m) (csize m) max decimals = Ok signed) \/
     (reduces (dsize m) (csize m) = true /\ full_chunk (csize m) max decimals = Ok signed));
}.

Lemma act_inv m a r : verdict_of m = Ok (Act a r) -> act_facts m a /\ na_market a = m.
Proof.
  unfold market_verdict. intros H. cbv zeta in H. destruct (deqb _ dzero) eqn:Eres; [done|].
  destruct (negb (deqb _ dzero)) eqn:Eun; [done|]. apply negb_false_iff, deqb_spec in Eun.
  apply deqb_false in Eres. rewrite dval_zero in Eun, Eres.
  destruct (positive_mid mids m) as [mid|] eqn:Emid; [|done].
  destruct (dict_get m size_decimals) as [k|] eqn:Ek; [|done].
  apply bind_Ok in H as (max & Hmax & H). apply bind_Ok in H as (s & Hs & H).
  destruct (deqb s dzero); [done|]. destruct (rules_for _ _ _ _) as [rules|] eqn:Er; [|done].
  apply bind_Ok in H as (pf & Hpf & H). destruct (placeable pf) eqn:Epl.
  - injection H as <- <-. split; [|done]. split; [done|done|]. cbn.
    exists mid, k, max, s, rules, (if reversing (dsize m) (csize m) then "close reversal and replan"
      else "move confirmed follower position toward current desired target"), pf. by split_and!; try left.
  - destruct (reduces (dsize m) (csize m)) eqn:Ered; cbn [negb] in H; [|done].
    unfold reduce_further in H. cbv zeta in H.
    apply bind_Ok in H as (chunk & Hchunk & H). apply bind_Ok in H as (pf2 & Hpf2 & H).
    destruct (negb (dltb _ _)); [done|]. destruct (negb (placeable pf2)) eqn:Epl2; [done|]. bool_prop.
    injection H as <- <-. split; [|done]. split; [done|done|]. cbn.
    exists mid, k, max, chunk, rules, "move to the nearest executable lower-risk position", pf2.
    split_and!; try done. by right.
Qed.

Lemma signed_size_val m s ro reason :
  fits s -> ~ (dval s == 0)%Q -> (dval (signed_size (make_action desired m s ro reason)) == dval s)%Q /\
  (0 < dval (dabs s))%Q.
Proof.
  intros Hf Hnz. unfold signed_size, make_action, side_of; cbn [na_side na_size].
  pose proof (dabs_fits_val s Hf) as Ea. pose proof (Qabs_nonzero _ Hnz) as Hp.
  split; [|lra]. destruct (dpos s) eqn:E.
  - apply dpos_spec in E. rewrite Qabs_pos in Ea by lra. done.
  - assert (~ (0 < dval s)%Q) by (rewrite <- dpos_spec; congruence).
    rewrite Qabs_neg in Ea by lra. rewrite bool_decide_false by done.
    rewrite dopp_fits by apply dabs_is_fits. lra.
Qed.

Lemma needs_reduction_eq m : fits (dsize m) -> fits (csize m) -> needs m = reduces (dsize m) (csize m).
Proof.
  intros Hd Hc. apply eq_true_iff_eq. rewrite reduces_spec by done. unfold needs_reduction.
  destruct (deqb (csize m) dzero) eqn:Ec.
  { apply deqb_spec in Ec. rewrite dval_zero in Ec. split; [done|tauto]. }
  apply deqb_false in Ec. rewrite dval_zero in Ec.
  rewrite !orb_true_iff, deqb_spec, negb_true_iff, dltb_spec, !dabs_fits_val, dval_zero by done.
  split.
  - intros [[H|H]|H]; [auto| |auto]. destruct (Qeq_dec (dval (dsize m)) 0) as [Hz|Hz]; [auto|].
    apply dpos_diff in H; [|done..]. split; [done|]. right; left. lra.
  - intros [_ [H|[H|H]]]; [auto| |auto]. destruct (Qeq_dec (dval (dsize m)) 0) as [Hz|Hz]; [auto|].
    left; right. apply dpos_diff; [done..|]. lra.
Qed.

(** The signed size an action was made from, with its direction. *)
Lemma act_signed m a :
  valid_slot cfg -> fits (dsize m) -> fits (csize m) -> act_facts m a ->
  (0 < dval (na_size a))%Q /\ na_reduce_only a = needs m /\
  (na_reduce_only a = true ->
     (dval (signed_size a) * dval (csize m) < 0 /\ Qabs (dval (signed_size a)) <= Qabs (dval (csize m)))%Q) /\
  (na_reduce_only a = false ->
     (0 <= dval (signed_size a) * dval (csize m) /\
      Qabs (dval (dsize m) - dval (csize m) - dval (signed_size a)) < Qabs (dval (dsize m) - dval (csize m)))%Q).
Proof.
  intros Hcfg Hd Hc [_ _ (mid & k & max & s & rules & reason & pf & Hmid & Hk & Hmax & Hr & Ea & Ero & Hpf & Hpl & Hs)].
  destruct (placeable_inv _ _ _ _ _ _ _ _ _ _ Hpf Hpl) as (q & capd & rounded & rp & [= <-] & _ & Hq & _).
  assert (fits s) as Hfs by by destruct Hs as [Hs|[_ Hs]]; eapply quantize_fits.
  assert (~ (dval s == 0)%Q) as Hnz.
  { intros E. rewrite dabs_fits_val, E in Hq by done. by apply Qlt_irrefl in Hq. }
  assert (0 < dval max)%Q as Hmaxpos.
  { eapply ratio_pos; [apply (vs_order_cap _ Hcfg)| |exact Hmax]. by apply positive_mid_pos in Hmid as []. }
  rewrite (needs_reduction_eq m) by done. rewrite Ea, Ero in *.
  destruct (signed_size_val m s (reduces (dsize m) (csize m)) reason Hfs Hnz) as [Ev Hpos].
  cbn [na_reduce_only make_action na_size]. split; [done|]. split; [done|].
  split; intros Hred; rewrite Ev; destruct Hs as [Hs|[Hs1 Hs]].
  - eapply (reduce_step _ _ Hd Hc max k); done.
  - eapply (chunk_step _ Hc max k); try done. by apply reduces_spec in Hs1 as [? _].
  - eapply (increase_step _ _ Hd Hc max k); done.
  - congruence.
Qed.

(** The size and the side of an action, against the rules of its market. *)
Definition lawful (m : string) (a : NextAction) : Prop :=
  exists mid decimals rules pf rounded rp,
    positive_mid mids m = Some mid /\ dict_get m size_decimals = Some decimals /\
    rules_for cfg market_rules m decimals = Some rules /\
    multiple_of (- decimals) (dval (na_size a)) /\
    (dval (na_size a) * dval mid <= up * dval (max_order_notional_usd cfg))%Q /\
    preflight_hyperliquid_perp_order rules (Fin (na_size a)) (Fin mid) (na_reduce_only a) (Fin (csize m))
      (pos_leverage (position_or_flat follower_positions m)) None (na_side a)
      (Fin (max_order_notional_usd cfg)) = Ok pf /\ placeable pf = true /\
    (dabs <$> quantize_size (Fin (na_size a)) (r_sz_decimals rules)) = Ok rounded /\
    quantize_price (Fin mid) (r_sz_decimals rules) (is_spot rules) = Ok rp /\
    (dval (notional rules rounded rp) <= dval (max_order_notional_usd cfg))%Q /\
    ((dval (r_minimum_notional_usd rules) <= dval (notional rules rounded rp))%Q \/
     (na_reduce_only a = true /\
      (dval (csize m) + (if bool_decide (na_side a = "buy") then 1 else -1) * dval rounded == 0)%Q)).

Lemma act_lawful m a : valid_slot cfg -> act_facts m a -> lawful m a.
Proof.
  intros Hcfg [_ _ (mid & k & max & s & rules & reason & pf & Hmid & Hk & Hmax & Hrules & Ea & _ & Hpf & Hpl & Hs)].
  destruct (placeable_inv _ _ _ _ _ _ _ _ _ _ Hpf Hpl) as (q & capd & rounded & rp & Eq & [= <-] & _ & Hrd & _ & Hrp & Hn).
  pose proof (placeable_minimum _ _ _ _ _ _ _ _ _ _ _ _ Hpf Hpl Hrd Hrp) as Hmin.
  destruct (positive_mid_pos mids m mid Hmid) as [Hmidpos _].
  pose proof (vs_order_cap _ Hcfg) as Hcap.
  pose proof (ratio_pos _ _ _ Hcap Hmidpos Hmax) as Hmaxpos.
  assert (within (dval max) k (dval s)) as [Hlot Hle]
    by (destruct Hs as [Hs|[_ Hs]]; [by eapply attempt_within|by eapply chunk_within]).
  assert (fits s) as Hf by (by destruct Hs as [Hs|[_ Hs]]; eapply quantize_fits).
  assert (dval (na_size a) == Qabs (dval s))%Q as Esz by (rewrite Ea; by apply dabs_fits_val).
  assert (py_lower (py_strip (na_side a)) = na_side a) as Eside.
  { rewrite Ea. cbn [make_action na_side]. unfold side_of. by destruct (dpos s). }
  exists mid, k, rules, pf, rounded, rp. rewrite Esz. rewrite Ea in Hmin, Eside |- *. cbn [na_size na_side na_reduce_only make_action] in *.
  rewrite Eside in Hmin. split_and!; try done.
  - destruct (Qabs_cases (dval s)) as [[_ ->]|[_ ->]]; [done|by apply multiple_opp].
  - eapply Qle_trans; [|by apply (cap_per_unit (max_order_notional_usd cfg) mid max)]. apply Qmult_le_compat_r; [done|lra].
Qed.

(** C3. The next action is one safe step: if the engine acts, it acts on one
    market with nothing unresolved there, with a positive size in whole lots of that
    market whose notional at the mid is within the order cap, and that the preflight
    admits under the rules of that market: within the cap and, unless it closes the
    position exactly, from the minimum of the venue on; a reduce-only action is exactly the
    case where the position must shrink, it goes against the position and never
    crosses zero; any other action never shrinks the position, ends strictly
    closer to the target, and is only taken after every market that must shrink
    was found on target or recorded as deferred.  The engine reports neither an
    action nor a blocker exactly when every market is on target. *)
Theorem next_action_safe dec :
  valid_slot cfg ->
  (forall m p, dict_get m (positions desired) = Some p -> fits (pos_size p)) ->
  (forall m p, dict_get m follower_positions = Some p -> fits (pos_size p)) ->
  choose_next_action cfg desired follower_positions unresolved mids size_decimals market_rules = Ok dec ->
  (forall a, action dec = Some a ->
     let m := na_market a in
     m ∈ markets /\ (dval (unresolved_size unresolved m) == 0)%Q /\ (0 < dval (na_size a))%Q /\
     na_reduce_only a = needs m /\
     lawful m a /\
     (na_reduce_only a = true ->
        (dval (signed_size a) * dval (csize m) < 0 /\ Qabs (dval (signed_size a)) <= Qabs (dval (csize m)))%Q) /\
     (na_reduce_only a = false ->
        (0 <= dval (signed_size a) * dval (csize m) /\
         Qabs (dval (dsize m) - dval (csize m) - dval (signed_size a)) < Qabs (dval (dsize m) - dval (csize m)))%Q /\
        forall m', m' ∈ markets -> needs m' = true -> passed dec m')) /\
  (action dec = None /\ blocker dec = None <->
     forall m, m ∈ markets -> (dval (market_residual desired follower_positions unresolved m) == 0)%Q).
Proof.
  intros Hcfg Hdf Hcf H. apply choose_loop_spec in H.
  assert (forall ps m, (forall m p, dict_get m ps = Some p -> fits (pos_size p)) ->
    fits (pos_size (position_or_flat ps m))) as Hfit.
  { intros ps m Hps. unfold position_or_flat. destruct (dict_get m ps) eqn:E; [by eapply Hps|done]. }
  split.
  - intros a Ha. destruct H as [pre m post a' r Ems Hv Ha' _ _ _ Hpre|? _|? _]; [|congruence..].
    assert (a' = a) as -> by congruence. apply act_inv in Hv as [Hact Hm]. cbv zeta. rewrite Hm.
    destruct (act_signed m a Hcfg (Hfit _ _ Hdf) (Hfit _ _ Hcf) Hact) as (Hpos & Hro & Hred & Hinc).
    pose proof (act_lawful m a Hcfg Hact) as Hlaw. destruct Hact as [Hun _ _].
    split_and!; try done.
    + rewrite Ems. apply elem_of_app. right. by left.
    + intros Hf. destruct (Hinc Hf). split_and!; [done|done|]. intros m' Hm' Hn'. apply Hpre.
      eapply reductions_first; [exact Ems|congruence|done|done].
  - split.
    + intros [Ha Hb] m Hm. apply verdict_continue.
      destruct H as [? ? ? ? ? ? ? ? ?|? ?|? ? ? Hall]; [congruence|done|by apply Hall].
    + intros Hall. destruct H as [pre m post a r Ems Hv|? ? [?|(m & Hm & Hne)]|? ? _ _]; [|done| |done].
      * assert (verdict_of m = Ok Continue) as Hc; [|congruence]. apply verdict_continue, Hall. rewrite Ems.
        apply elem_of_app. right. by left.
      * destruct Hne. by apply verdict_continue, Hall.
Qed.
End ChooseFacts.

(** * Examples *)

Definition example_slot : ContinuousSlotConfig :=
  MkSlot "s1" (sample_address "a") (sample_address "b") "p1" (Dec false 5 (-1)) (dint 100) (dint 500) 2 5 10
    ["BTC"; "ETH"; "SOL"] true.

Lemma example_slot_valid : valid_slot example_slot.
Proof.
  split; try done; try (by apply Qle_bool_iff).
  split; [|by repeat constructor]. apply (bool_decide_unpack _). by vm_compute.
Qed.

Definition example_sources : dict RawPosition :=
  [("btc", MkPosition "BTC" (Fin (Dec false 1 (-2))) None (Some 20) 1);
   ("ETH", MkPosition "ETH" (Fin (Dec true 3 (-1))) None (Some 3) 1);
   ("SOL", MkPosition "SOL" (Fin (dint 1)) None None 1)].
Definition example_mids : mids_map :=
  [("BTC", Fin (dint 50000)); ("ETH", Fin (dint 2000)); ("SOL", Fin (dint 100))].

Lemma desired_portfolio_correct_witness :
  exists d, build_desired_portfolio (fun _ => "id") example_slot example_sources (Fin (dint 1000)) (Fin (dint 2000))
      example_mids = Ok d /\
    (fun mp => (mp.1, pos_size mp.2)) <$> positions d =
      [("ETH", Dec true 1363636363636363636363636364 (-28));
       ("BTC", Dec false 4545454545454545454545454545 (-30))].
Proof.
  destruct (desired_portfolio_correct (fun _ => "id") example_slot example_sources example_mids (dint 1000) (dint 2000)
    example_slot_valid) as (d & rows & ranked & Hd & _).
  1-3: first [by vm_compute|by repeat constructor].
  exists d. split; [exact Hd|]. vm_compute in Hd. injection Hd as <-. by vm_compute.
Defined.

Definition example_desired : DesiredPortfolio :=
  MkDesired "id" [("BTC", MkPosition "BTC" (Dec false 1 (-2)) None None 1)] (dint 1000) (dint 1000) (dint 1) (dint 1) (dint 500).
Definition example_follower : dict Position :=
  [("ETH", MkPosition "ETH" (Dec true 2 (-2)) None (Some 3) 1)].

Lemma next_action_safe_witness :
  exists dec a, choose_next_action example_slot example_desired example_follower [] example_mids
      [("BTC", 5); ("ETH", 4)] None = Ok dec /\ action dec = Some a /\
    na_market a = "ETH" /\ na_reduce_only a = true /\ signed_size a = Dec false 200 (-4) /\
    (dval (signed_size a) * dval (confirmed_size example_follower (na_market a)) < 0)%Q.
Proof.
  destruct (choose_next_action example_slot example_desired example_follower [] example_mids
      [("BTC", 5); ("ETH", 4)] None) as [dec|] eqn:E; [|by vm_compute in E].
  destruct (action dec) as [a|] eqn:Ea; [|vm_compute in E; injection E as <-; by vm_compute in Ea].
  exists dec, a.
  destruct (next_action_safe example_slot example_desired example_follower [] example_mids
      [("BTC", 5); ("ETH", 4)] None dec example_slot_valid) as [Hact _].
  1-2: intros m p H; cbn in H; case_decide; [by injection H as <-|done].
  1: exact E.
  destruct (Hact a Ea) as (_ & _ & _ & _ & _ & Hred & _).
  vm_compute in E. injection E as <-. vm_compute in Ea. injection Ea as <-.
  by split_and!; try (by vm_compute); apply Hred.
Defined.
