(* ===== verification/ConvergenceFacts.v ===== *)
(** The copy engine comes to rest: against one target, every order that is filled, even
    in part, brings the account at least one lot closer, so that only finitely many
    orders are ever sent. *)

From S2P Require Import Prelude PyDecimal DecimalFacts RoundingFacts PyText Models Markets ContinuousConfig Precision OrderPreflight DesiredEngine DesiredFacts.
From Stdlib Require Import QArith Qabs Qround Lqa.

Open Scope Z_scope.

(** * Getting closer *)

Definition closer (x s : Q) : Prop := (Qabs (x - s) < Qabs x)%Q.

Lemma closer_cases x s : closer x s <-> ((0 < x /\ 0 < s /\ s < 2 * x) \/ (x < 0 /\ s < 0 /\ 2 * x < s))%Q.
Proof.
  unfold closer. split.
  - intros H. destruct (Q_dec x 0) as [[Hx|Hx]|Hx]; [right|left|exfalso].
    + rewrite (Qabs_neg x) in H by lra. apply Qabs_Qlt_condition in H. lra.
    + rewrite (Qabs_pos x) in H by lra. apply Qabs_Qlt_condition in H. lra.
    + rewrite Hx in H. change (Qabs 0) with 0%Q in H. pose proof (Qabs_nonneg (0 - s)). lra.
  - intros [H|H]; [rewrite (Qabs_pos x) by lra|rewrite (Qabs_neg x) by lra]; apply Qabs_Qlt_condition; lra.
Qed.

#[export] Instance closer_proper : Proper (Qeq ==> Qeq ==> iff) closer.
Proof. intros x x' Hx s s' Hs. unfold closer. by rewrite Hx, Hs. Qed.

(** Part of a step that gets closer gets closer too. *)
Lemma closer_part x s q :
  closer x s -> (0 < q)%Q -> (q <= Qabs s)%Q -> closer x (if Qlt_le_dec 0 s then q else - q)%Q.
Proof.
  rewrite !closer_cases. intros [(Hx & Hs & Hsx)|(Hx & Hs & Hsx)] Hq Hqs.
  - rewrite Qabs_pos in Hqs by lra. destruct (Qlt_le_dec 0 s); lra.
  - rewrite Qabs_neg in Hqs by lra. destruct (Qlt_le_dec 0 s); lra.
Qed.

(** Counted in half lots, the distance of whole lots to any point decreases. *)
Lemma floor_between (u w : Q) (n : Z) : (u < inject_Z n -> inject_Z n <= w -> (Qfloor u < Qfloor w)%Z)%Q.
Proof.
  intros Hu Hw. apply Qfloor_resp_le in Hw. rewrite Qfloor_Z in Hw. pose proof (Qfloor_le u) as Hf.
  assert (inject_Z (Qfloor u) < inject_Z n)%Q as Hlt by lra. rewrite <- Zlt_Qlt in Hlt. lia.
Qed.

Lemma floor_step (u w : Q) : (u + 1 <= w -> (Qfloor u < Qfloor w)%Z)%Q.
Proof.
  intros H. apply (floor_between _ _ (Qfloor u + 1)); [apply Qlt_floor|].
  rewrite inject_Z_plus. pose proof (Qfloor_le u). change (inject_Z 1) with 1%Q. lra.
Qed.

Lemma int_gap (a b : Z) : (inject_Z a < inject_Z b -> inject_Z a + 1 <= inject_Z b)%Q.
Proof.
  intros H. rewrite <- Zlt_Qlt in H. change 1%Q with (inject_Z 1). rewrite <- inject_Z_plus, <- Zle_Qle. lia.
Qed.

Lemma closer_floor x (a b : Z) :
  (Qabs (x - inject_Z b) < Qabs (x - inject_Z a) ->
   (Qfloor (2 * Qabs (x - inject_Z b)) < Qfloor (2 * Qabs (x - inject_Z a)))%Z)%Q.
Proof.
  intros H. destruct (Qlt_le_dec x (inject_Z a)) as [Ha|Ha], (Qlt_le_dec x (inject_Z b)) as [Hb|Hb].
  - rewrite !Qabs_neg in * by lra. apply floor_step. pose proof (int_gap b a ltac:(lra)). lra.
  - rewrite (Qabs_neg (x - inject_Z a)), (Qabs_pos (x - inject_Z b)) in * by lra.
    apply (floor_between _ _ (a - b)); unfold Z.sub; rewrite inject_Z_plus, inject_Z_opp; lra.
  - rewrite (Qabs_pos (x - inject_Z a)), (Qabs_neg (x - inject_Z b)) in * by lra.
    apply (floor_between _ _ (b - a)); unfold Z.sub; rewrite inject_Z_plus, inject_Z_opp; lra.
  - rewrite !Qabs_pos in * by lra. apply floor_step. pose proof (int_gap a b ltac:(lra)). lra.
Qed.

(** * One correction *)

(** The correction of one market, not reversed, gets closer even after its rounding. *)
Lemma forward_closer d c m k s :
  (0 < dval m)%Q -> reversing d c = false -> attempt_size d c m k = Ok s -> ~ (dval s == 0)%Q ->
  closer (dval d - dval c) (dval s).
Proof.
  intros Hm Er Hs Hnz. apply attempt_cut in Hs; [|done].
  pose proof (dsub_near d c) as Hnear. unfold raw_action in Hs. rewrite Er in Hs.
  destruct (dsub_sign d c) as (Hpos & Hneg & _). set (x := (dval d - dval c)%Q) in *.
  destruct Hs as [H1 H2]. destruct ulp28_range as [U0 U1]. unfold near in Hnear. apply closer_cases.
  destruct (Q_dec x 0) as [[Hx|Hx]|Hx].
  - right. rewrite (Qabs_neg x) in Hnear by lra. apply Qabs_Qle_condition in Hnear.
    apply Hneg in Hx as Hr. destruct H2; [lra|]. assert (dval s < 0)%Q by (destruct (Q_dec (dval s) 0) as [[]|]; [done|lra|done]).
    split_and!; [done|done|]. nra.
  - left. rewrite (Qabs_pos x) in Hnear by lra. apply Qabs_Qle_condition in Hnear.
    apply Hpos in Hx as Hr. destruct H1; [lra|]. assert (0 < dval s)%Q by (destruct (Q_dec (dval s) 0) as [[]|]; [lra|done|done]).
    split_and!; [done|done|]. nra.
  - exfalso. apply Hnz. assert (~ (0 < dval (dsub d c))%Q) by (rewrite Hpos; lra).
    assert (~ (dval (dsub d c) < 0)%Q) by (rewrite Hneg; lra). destruct H1; [lra|]. destruct H2; lra.
Qed.

Lemma attempt_closer d c m k s :
  fits d -> fits c -> (0 < dval m)%Q -> attempt_size d c m k = Ok s -> ~ (dval s == 0)%Q -> closer (dval d - dval c) (dval s).
Proof.
  intros Hd Hc Hm Hs Hnz. destruct (reversing d c) eqn:Er; [|by eapply forward_closer].
  pose proof (proj1 (reversing_spec d c) Er) as Hdc.
  assert (reduces d c = true) as Hr by (unfold reduces; by rewrite Er).
  destruct (reduce_step d c Hd Hc m k s Hm Hr Hs Hnz) as [Ho Hle]. apply opposite_signs in Hdc. apply opposite_signs in Ho.
  apply closer_cases. destruct Hdc as [[]|[]], Ho as [[]|[]]; try lra; [right|left].
  - rewrite (Qabs_neg (dval s)), (Qabs_pos (dval c)) in Hle by lra. lra.
  - rewrite (Qabs_pos (dval s)), (Qabs_neg (dval c)) in Hle by lra. lra.
Qed.

(** The comparison the fall-back makes on rounded distances decides the exact ones. *)
Lemma improves_exact d c c' :
  dltb (dabs (dsub d c')) (dabs (dsub d c)) = true -> (Qabs (dval d - dval c') < Qabs (dval d - dval c))%Q.
Proof.
  rewrite dltb_spec, !dabs_fits_val by apply dsub_fits. intros H.
  destruct (Qlt_le_dec (Qabs (dval d - dval c')) (Qabs (dval d - dval c))) as [|Hle]; [done|exfalso].
  pose proof (dfix_mono (dadd_exact d (copy_negate c)) (dadd_exact d (copy_negate c'))) as Hm.
  rewrite !dadd_exact_val, !copy_negate_val in Hm. specialize (Hm Hle). unfold dsub, dadd in H. lra.
Qed.

Lemma chunk_exact c m k s :
  (0 < dval m)%Q -> fits c -> on_grid (- k) (dval c) -> ~ (dval c == 0)%Q -> full_chunk c m k = Ok s -> ~ (dval s == 0)%Q ->
  (dval (dadd c s) == dval c + dval s)%Q.
Proof.
  intros Hm Hc [Hmul Hlt] Hcz Hs Hnz. destruct (chunk_step c Hc m k s Hm Hcz Hs Hnz) as [Ho Hle].
  apply quantize_size_truncation in Hs as [Hms _]. apply (dadd_on_grid (- k)). split; [by apply multiple_add|].
  eapply Qle_lt_trans; [|exact Hlt]. apply opposite_signs in Ho as [[]|[]].
  - rewrite (Qabs_neg (dval s)), (Qabs_pos (dval c)) in Hle by lra. rewrite !Qabs_pos by lra. lra.
  - rewrite (Qabs_pos (dval s)), (Qabs_neg (dval c)) in Hle by lra. rewrite !Qabs_neg by lra. lra.
Qed.

(** * Fills *)

Section Converge.
Variable cfg : ContinuousSlotConfig.
Variables (desired : DesiredPortfolio) (mids : mids_map) (size_decimals : dict Z)
  (market_rules : option (dict HyperliquidPerpRules)).
Local Abbreviation dsize m := (dval (desired_size desired m)).
Local Abbreviation csize ps m := (dval (confirmed_size ps m)).

(** The account holds whole lots, within the digits of the context. *)
Definition whole_lots (ps : dict Position) : Prop :=
  forall m, fits (confirmed_size ps m) /\ forall k, dict_get m size_decimals = Some k -> on_grid (- k) (csize ps m).

(** The venue filled a part of the action, in the market of the action and nowhere else. *)
Record filled (a : NextAction) (ps ps' : dict Position) : Prop := {
  fl_other : forall m, m <> na_market a -> (csize ps' m == csize ps m)%Q;
  fl_part : exists q, (0 < q /\ q <= dval (na_size a) /\
    csize ps' (na_market a) == csize ps (na_market a) + (if bool_decide (na_side a = "buy") then q else - q))%Q;
  fl_whole : whole_lots ps';
}.

(** One round: the engine chose an action while nothing was outstanding, and some of it was filled. *)
Definition round (ps ps' : dict Position) : Prop :=
  exists dec a, choose_next_action cfg desired ps [] mids size_decimals market_rules = Ok dec /\
    action dec = Some a /\ filled a ps ps'.

(** The distance to the target, in half lots of each market. *)
Definition distance (ps : dict Position) (mk : string * Z) : Z :=
  Qfloor (2 * Qabs (dsize mk.1 - csize ps mk.1) / q10 (- mk.2)).
Definition distances (ps : dict Position) : Z := zsum (distance ps) size_decimals.

Lemma distances_nonneg ps : 0 <= distances ps.
Proof.
  apply zsum_nonneg. intros mk. change 0 with (Qfloor 0). apply Qfloor_resp_le.
  apply Qle_shift_div_l; [apply q10_pos|]. pose proof (Qabs_nonneg (dsize mk.1 - csize ps mk.1)). lra.
Qed.

(** An action of the engine gets closer, and its direction is that of its side. *)
Lemma act_closer ps m a :
  valid_slot cfg -> fits (desired_size desired m) -> whole_lots ps ->
  (exists r, market_verdict cfg desired ps [] mids size_decimals market_rules m = Ok (Act a r)) ->
  na_market a = m /\ (exists k, dict_get m size_decimals = Some k) /\
  exists s, closer (dsize m - csize ps m) s /\ (Qabs s == dval (na_size a))%Q /\ (na_side a = "buy" <-> (0 < s)%Q).
Proof.
  intros Hcfg Hd Hw [r Hv]. destruct (Hw m) as [Hc Hgrid].
  assert (na_market a = m) as Hm by by eapply act_inv.
  split; [done|]. unfold market_verdict in Hv. cbv zeta in Hv.
  destruct (deqb _ dzero); [done|]. destruct (negb (deqb _ dzero)); [done|].
  destruct (positive_mid mids m) as [mid|] eqn:Emid; [|done].
  destruct (dict_get m size_decimals) as [k|] eqn:Ek; [|done]. specialize (Hgrid k eq_refl).
  apply bind_Ok in Hv as (max & Hmax & Hv). apply bind_Ok in Hv as (s & Hs & Hv).
  assert (0 < dval max)%Q as Hpos.
  { eapply ratio_pos; [apply (vs_order_cap _ Hcfg)| |exact Hmax]. by apply positive_mid_pos in Emid as []. }
  assert (forall s' ro why, fits s' -> ~ (dval s' == 0)%Q -> closer (dsize m - csize ps m) (dval s') ->
    a = make_action desired m s' ro why ->
    exists s, closer (dsize m - csize ps m) s /\ (Qabs s == dval (na_size a))%Q /\ (na_side a = "buy" <-> (0 < s)%Q)) as Hact.
  { intros s' ro why Hf Hnz Hcl ->. exists (dval s'). cbn [na_size na_side make_action]. split; [done|].
    split; [by rewrite dabs_fits_val|]. unfold side_of. rewrite <- dpos_spec. by destruct (dpos s'). }
  split; [by exists k|]. destruct (deqb s dzero) eqn:Es; [done|]. apply deqb_false in Es. rewrite dval_zero in Es.
  destruct (rules_for _ _ _ _) as [rules|]; [|done]. apply bind_Ok in Hv as (pf & _ & Hv). destruct (placeable pf).
  - injection Hv as <- _. eapply (Hact s); [by eapply quantize_fits|done|by eapply attempt_closer|reflexivity].
  - destruct (reduces _ _) eqn:Ered; cbn [negb] in Hv; [|done]. unfold reduce_further in Hv. cbv zeta in Hv.
    apply bind_Ok in Hv as (chunk & Hchunk & Hv). apply bind_Ok in Hv as (pf2 & Hpf2 & Hv).
    destruct (negb (dltb _ _)) eqn:Eimp; [done|]. destruct (negb (placeable pf2)) eqn:Epl; [done|]. bool_prop.
    injection Hv as <- _. apply improves_exact in Eimp. apply reduces_spec in Ered as [Hcz _]; [|done..].
    assert (~ (dval chunk == 0)%Q) as Hnz.
    { intros E. destruct (placeable_inv _ _ _ _ _ _ _ _ _ _ Hpf2 Epl) as (q & ? & ? & ? & [= <-] & _ & Hq & _).
      rewrite dabs_fits_val, E in Hq by by eapply quantize_fits. by apply Qlt_irrefl in Hq. }
    eapply (Hact chunk); [by eapply quantize_fits|done| |reflexivity].
    unfold closer. rewrite (chunk_exact _ max k) in Eimp by done.
    assert (dsize m - csize ps m - dval chunk == (dsize m - (csize ps m + dval chunk)))%Q as -> by ring. done.
Qed.

Lemma scale_abs x n k : (Qabs (x / q10 (- k) - inject_Z n) * q10 (- k) == Qabs (x - inject_Z n * q10 (- k)))%Q.
Proof.
  pose proof (q10_pos (- k)) as Hp. rewrite <- (Qabs_pos (q10 (- k))) at 2 by lra. rewrite <- Qabs_Qmult.
  apply Qabs_wd. field. lra.
Qed.

Lemma distance_lots ps m k n :
  (csize ps m == inject_Z n * q10 (- k))%Q ->
  distance ps (m, k) = Qfloor (2 * Qabs (dsize m / q10 (- k) - inject_Z n)).
Proof.
  intros E. unfold distance; cbn [fst snd]. pose proof (q10_pos (- k)) as Hp.
  apply Qfloor_comp. rewrite E, <- scale_abs. field. lra.
Qed.

Lemma zsum_less {A} (f g : A -> Z) l x :
  (forall y, y ∈ l -> f y <= g y) -> x ∈ l -> f x < g x -> zsum f l < zsum g l.
Proof.
  induction l as [|y l IH]; intros Hle Hx Hlt; [by apply elem_of_nil in Hx|]. unfold zsum in *. cbn [fold_right].
  pose proof (Hle y ltac:(by left)). apply elem_of_cons in Hx as [->|Hx].
  - enough (fold_right (fun x n => f x + n) 0 l <= fold_right (fun x n => g x + n) 0 l) by lia.
    clear IH. induction l as [|z l IH]; cbn [fold_right]; [done|]. pose proof (Hle z ltac:(right; by left)).
    enough (fold_right (fun x n => f x + n) 0 l <= fold_right (fun x n => g x + n) 0 l) by lia. apply IH.
    intros w [->|Hw]%elem_of_cons; apply Hle; [by left|right; by right].
  - specialize (IH ltac:(intros w Hw; apply Hle; by right) Hx Hlt). lia.
Qed.

(** A round brings the account at least half a lot closer. *)
Lemma round_closer ps ps' :
  valid_slot cfg -> (forall m, fits (desired_size desired m)) -> NoDup (dict_keys size_decimals) -> whole_lots ps ->
  round ps ps' -> whole_lots ps' /\ distances ps' < distances ps.
Proof.
  intros Hcfg Hd Hnd Hw (dec & a & Hc & Ha & [Hother (q & Hq0 & Hq & Hpart) Hw']). split; [done|].
  apply choose_loop_spec in Hc as [pre m post a' r Ems Hv Ha' _ _ _ _|? _|? _]; [|congruence..].
  assert (a' = a) as -> by congruence.
  destruct (act_closer ps m a Hcfg (Hd m) Hw ltac:(by eexists)) as (<- & (k & Hk) & s & Hcl & Hs & Hside).
  set (m := na_market a) in *.
  assert (closer (dsize m - csize ps m) (csize ps' m - csize ps m)) as Hstep.
  { rewrite Hpart. pose proof (closer_part _ s q Hcl Hq0 ltac:(by rewrite Hs)) as Hp.
    destruct (Qlt_le_dec 0 s) as [H0|H0].
    - rewrite bool_decide_true by by apply Hside.
      assert (csize ps m + q - csize ps m == q)%Q as -> by ring. done.
    - rewrite bool_decide_false by (rewrite Hside; lra).
      assert (csize ps m + - q - csize ps m == (- q))%Q as -> by ring. done. }
  assert (forall mk, mk.1 <> m -> distance ps' mk = distance ps mk) as Hsame.
  { intros mk Hne. unfold distance. by rewrite Hother. }
  assert (distance ps' (m, k) < distance ps (m, k)) as Hlt.
  { destruct (Hw m) as [_ [[n Hn] _]%(fun H => H k Hk)], (Hw' m) as [_ [[n' Hn'] _]%(fun H => H k Hk)].
    rewrite (distance_lots _ _ _ _ Hn), (distance_lots _ _ _ _ Hn'). apply closer_floor.
    apply (Qmult_lt_r _ _ (q10 (- k))); [apply q10_pos|]. rewrite !scale_abs, <- Hn, <- Hn'. unfold closer in Hstep.
    assert (dsize m - csize ps m - (csize ps' m - csize ps m) == dsize m - csize ps' m)%Q as Ex by ring. by rewrite Ex in Hstep. }
  apply (zsum_less _ _ _ (m, k)); [|by apply dict_get_Some_in|done].
  intros [m' k'] Hin. destruct (decide (m' = m)) as [->|Hne]; [|by rewrite Hsame].
  apply dict_in_get in Hin; [|done]. assert (k' = k) as -> by congruence. lia.
Qed.

(** At rest without a blocker, the account is the target. *)
Lemma fits_grid d : fits d -> on_grid (dexp d) (dval d).
Proof.
  intros Hf. split; [apply multiple_of_dec|]. rewrite Qabs_dval, q10_add. apply Qmult_lt_compat_r; [apply q10_pos|].
  rewrite <- (q10_inject 28) by lia. rewrite <- Zlt_Qlt. unfold fits in Hf.
  destruct (N.eq_dec (dcoef d) 0%N) as [->|]; [done|]. destruct (ndigits_bounds (dcoef d)) as [_ H]; [lia|].
  assert (10 ^ ndigits (dcoef d) <= 10 ^ prec_default)%N by (apply N.pow_le_mono_r; done). rewrite ten28. lia.
Qed.

Lemma residual_zero ps m :
  fits (confirmed_size ps m) -> (dval (market_residual desired ps [] m) == 0)%Q -> (csize ps m == dsize m)%Q.
Proof.
  intros Hf H. unfold market_residual in H.
  assert (dval (dadd (confirmed_size ps m) (unresolved_size [] m)) == csize ps m)%Q as Ec.
  { assert (csize ps m + dval (unresolved_size [] m) == csize ps m)%Q as E.
    { change (unresolved_size [] m) with dzero. rewrite dval_zero. ring. }
    rewrite (dadd_on_grid (dexp (confirmed_size ps m))); rewrite E; [done|by apply fits_grid]. }
  destruct (dsub_sign (desired_size desired m) (dadd (confirmed_size ps m) (unresolved_size [] m))) as (H1 & H2 & _).
  rewrite Ec in H1, H2. destruct (Q_dec (dsize m) (csize ps m)) as [[Hl|Hl]|Hl]; lra.
Qed.

Lemma at_rest ps dec :
  whole_lots ps -> choose_next_action cfg desired ps [] mids size_decimals market_rules = Ok dec ->
  action dec = None -> blocker dec = None -> forall m, (csize ps m == dsize m)%Q.
Proof.
  intros Hw Hc Ha Hb m. apply choose_loop_spec in Hc as [? ? ? ? ? ? ? ? ?|? ?|_ _ _ Hall]; [congruence|done|].
  destruct (decide (m ∈ action_markets desired ps)) as [Hin|Hout].
  - apply residual_zero; [apply Hw|]. eapply verdict_continue. by apply Hall.
  - rewrite elem_of_action_markets in Hout. unfold confirmed_size, desired_size, position_or_flat.
    rewrite !(proj2 (dict_get_None m _)) by tauto. done.
Qed.

(** C9. Copying terminates.  The target, the mids and the rules being given, and the sizes
    being whole lots that fit the 28 digits of the context, let the engine choose an action
    whenever nothing is outstanding, and let the venue fill any positive whole number of lots
    of it.  Every such round brings the account at least half a lot closer to the target, so
    that the number of rounds is at most the distance at the start, counted in half lots of
    each market, and no sequence of rounds goes on for ever; and when the engine then has
    nothing to do and reports no blocker, the account holds the target in every market. *)
Theorem copying_terminates n ps ps' :
  valid_slot cfg -> (forall m, fits (desired_size desired m)) -> NoDup (dict_keys size_decimals) -> whole_lots ps ->
  nsteps round n ps ps' ->
  whole_lots ps' /\ Z.of_nat n + distances ps' <= distances ps /\ 0 <= distances ps' /\ Acc (flip round) ps' /\
  forall dec, choose_next_action cfg desired ps' [] mids size_decimals market_rules = Ok dec ->
    action dec = None -> blocker dec = None -> forall m, (csize ps' m == dsize m)%Q.
Proof.
  intros Hcfg Hd Hnd Hw Hsteps.
  assert (whole_lots ps' /\ Z.of_nat n + distances ps' <= distances ps) as [Hw' Hn].
  { induction Hsteps as [ps|n ps ps1 ps2 Hr _ IH]; [split; [done|lia]|].
    destruct (round_closer _ _ Hcfg Hd Hnd Hw Hr) as [Hw1 Hlt]. destruct (IH Hw1). split; [done|lia]. }
  split_and!; [done|done|apply distances_nonneg| |by intros dec; apply at_rest].
  clear n ps Hw Hsteps Hn. remember (Z.to_nat (distances ps')) as fuel eqn:Hf.
  assert (distances ps' <= Z.of_nat fuel) as Hle by lia. clear Hf. revert ps' Hw' Hle.
  induction fuel as [|fuel IH]; intros ps Hw Hle; constructor; intros ps1 Hr;
    destruct (round_closer _ _ Hcfg Hd Hnd Hw Hr) as [Hw1 Hlt]; pose proof (distances_nonneg ps1); [lia|].
  apply IH; [done|lia].
Qed.
End Converge.

(** * Example *)

(** A short of 0.02 ETH is closed, then 0.002 of the 0.01 BTC the target asks for is bought. *)
Definition example_decimals : dict Z := [("BTC", 5); ("ETH", 4)].
Definition example_closed : dict Position := [].
Definition example_bought : dict Position := [("BTC", MkPosition "BTC" (Dec false 1 (-3)) None None 2)].


Lemma small_on_grid d k : (- k <= dexp d) -> (Qabs (dval d) < 1)%Q -> (0 <= 28 - k) -> on_grid (- k) (dval d).
Proof.
  intros He Hd Hk. split; [eapply multiple_of_mono; [done|apply multiple_of_dec]|].
  eapply Qlt_le_trans; [done|]. change 1%Q with (q10 0). apply q10_le. lia.
Qed.

Lemma example_whole ps :
  Forall (fun mp => fits (pos_size mp.2) /\ -4 <= dexp (pos_size mp.2) /\ (Qabs (dval (pos_size mp.2)) < 1)%Q) ps ->
  whole_lots example_decimals ps.
Proof.
  intros Hps m.
  assert (fits (confirmed_size ps m) /\ -4 <= dexp (confirmed_size ps m) /\ (Qabs (dval (confirmed_size ps m)) < 1)%Q) as (Hf & He & Hs).
  { unfold confirmed_size, position_or_flat. destruct (dict_get m ps) as [p|] eqn:E; [|by vm_compute].
    apply dict_get_Some_in in E. rewrite list.Forall_forall in Hps. by apply (Hps _ E). }
  split; [done|]. intros k Hk. cbn in Hk. repeat case_decide; simplify_eq; (apply small_on_grid; [lia|done|lia]).
Qed.

Lemma example_desired_fits m : fits (desired_size example_desired m).
Proof. unfold desired_size, position_or_flat. cbn [dict_get positions example_desired]. by case_decide. Qed.

Lemma example_round ps ps' size m :
  (match choose_next_action example_slot example_desired ps [] example_mids example_decimals None with
   | Ok dec => match action dec with
               | Some a => bool_decide (na_market a = m) && bool_decide (na_side a = "buy") && bool_decide (na_size a = size)
               | None => false end
   | Raise _ => false end = true) ->
  (forall m', m' <> m -> (dval (confirmed_size ps' m') == dval (confirmed_size ps m'))%Q) ->
  whole_lots example_decimals ps' ->
  (exists q, 0 < q /\ q <= dval size /\ dval (confirmed_size ps' m) == dval (confirmed_size ps m) + q)%Q ->
  round example_slot example_desired example_mids example_decimals None ps ps'.
Proof.
  intros H Ho Hw (q & Hq). destruct (choose_next_action _ _ _ _ _ _ _) as [dec|] eqn:E; [|done].
  destruct (action dec) as [a|] eqn:Ea; [|done]. apply andb_true_iff in H as [[H1 H2]%andb_true_iff H3].
  apply bool_decide_eq_true in H1, H2, H3. subst m size. exists dec, a. split_and!; [done|done|]. split; [done| |done].
  exists q. by rewrite bool_decide_true by done.
Qed.

Lemma copying_terminates_witness :
  distances example_desired example_decimals example_follower = 2400 /\
  distances example_desired example_decimals example_bought = 1800 /\
  Acc (flip (round example_slot example_desired example_mids example_decimals None)) example_bought.
Proof.
  split_and!; [by vm_compute|by vm_compute|].
  destruct (copying_terminates example_slot example_desired example_mids example_decimals None 2 example_follower example_bought
    example_slot_valid example_desired_fits) as (_ & _ & _ & Hacc & _); [| | |exact Hacc].
  - by apply (bool_decide_unpack _).
  - apply example_whole. by repeat constructor.
  - apply (nsteps_l _ 1 _ example_closed); [|apply (nsteps_l _ 0 _ example_bought); [|constructor]].
    + apply (example_round _ _ (Dec false 200 (-4)) "ETH"); [by vm_compute| |apply example_whole; constructor|by exists (1 # 50)%Q].
      intros m' Hm. unfold confirmed_size, position_or_flat. cbn [dict_get example_follower]. by rewrite decide_False by congruence.
    + apply (example_round _ _ (Dec false 200 (-5)) "BTC"); [by vm_compute| |apply example_whole; by repeat constructor|by exists (1 # 1000)%Q].
      intros m' Hm. unfold confirmed_size, position_or_flat. cbn [dict_get example_bought]. by rewrite decide_False by congruence.
Defined.
