(* ===== verification/CopyEngine.v ===== *)
(** copy_engine.py: the target portfolio of the older service and the orders that move a
    follower towards it, with the risk settings of config.py.

    The clock is an argument, and so is the BLAKE2 digest that names states and orders.
    Settings that the engine tests for finiteness are [pydec], the others finite, and so
    are products and quotients.  A blocker does not repeat the text of an exception. *)

From S2P Require Import Prelude PyDecimal PyText Models Precision Markets.

Open Scope Z_scope.

(** * Settings *)

Inductive MarketEligibility := ALLOWLIST | ALL_ACTIVE_MARKETS.

#[export] Instance MarketEligibility_eq_dec : EqDecision MarketEligibility.
Proof. solve_decision. Defined.

(** The settings that the engine reads. *)
Record RiskConfig := MkRisk {
  allowed_symbols : list string;
  market_eligibility : MarketEligibility;
  denied_symbols : list string;
  fixed_multiplier : pydec;
  equity_ratio : option pydec;
  balance_sizing_enabled : bool;
  sizing_equity_cap_usd : option pydec;
  max_initial_margin_utilization : option pydec;
  max_balance_scale : pydec;
  max_notional_usd : dec;
  max_gross_exposure_usd : dec;
  max_leverage : Z;
  min_order_size : dec;
  slippage_bps : dec;
  close_slippage_bps : dec;
  hip3_oracle_envelope_bps : dec;
}.

Record AssetMeta := MkMeta { am_coin : string; am_sz_decimals : Z; am_max_leverage : option Z }.

(** * Names of states and orders *)

Section Engine.
(** [hashlib.blake2s(text.encode("utf-8"), digest_size=16).hexdigest()] *)
Variable blake2s : string -> string.

(** The fields that the engine sets; the others keep their defaults. *)
Record FollowerIntent := MkIntent {
  intent_id : string;
  fi_cloid : string;
  fi_action : IntentAction;
  fi_coin : string;
  fi_side : string;
  fi_size : dec;
  fi_price : option dec;
  fi_reduce_only : bool;
  fi_mode : Mode;
  fi_source_event_key : string;
  fi_reason : string;
  fi_created_ms : Z;
  fi_status : IntentStatus;
}.

Record DesiredState := MkDesired {
  state_id : string;
  ds_source_event_key : string;
  ds_mode : Mode;
  ds_positions : dict Position;
  ds_reason : string;
  ds_created_ms : Z;
}.

(** What [sizing] reports beside the settings. *)
Record Sizing := MkSizing {
  sz_mode : string;
  effective_scale : option pydec;
  sizing_equity_usd : option dec;
  raw_balance_scale : option dec;
  balance_scale : option dec;
  blocker : option string;
  gross_before_cap : option dec;
  gross_cap_scale : option dec;
  gross_after_cap : option dec;
  initial_margin_budget_status : string;
  initial_margin_budget_usd : option dec;
  initial_margin_before_cap : option dec;
  initial_margin_cap_scale : option dec;
  initial_margin_after_cap : option dec;
  initial_margin_utilization_after_cap : option dec;
}.

Record CopyResult := MkResult {
  desired_state : DesiredState;
  intents : list FollowerIntent;
  blockers : list string;
  sizing : Sizing;
}.

(** [CopyEngine(risk, mode, follower_account, strategy_version)] *)
Variable risk : RiskConfig.
Variable mode : Mode.
Variable follower_account : string.
Variable strategy_version : string.

(** * The scale *)

(** A finite positive decimal. *)
Definition finite_positive (x : pydec) : option dec :=
  match x with Fin d => if dpos d then Some d else None | _ => None end.

Definition sized (mode_text : string) (scale : option pydec) (equity raw balance : option dec) (blocked : option string) : Sizing :=
  MkSizing mode_text scale equity raw balance blocked None None None "" None None None None None.

Definition blocked_sizing (why : string) : option dec * Sizing :=
  (None, sized "blocked_invalid_sizing" None None None None (Some why)).

(** The account values, both positive. *)
Definition both_values (source follower : option pydec) : option (dec * dec) :=
  s ← source ≫= finite_positive; f ← follower ≫= finite_positive; Some (s, f).

(** The scale from the balances of both accounts. *)
Definition balance_scaled (base : dec) (cap : option dec) (values : dec * dec) : res (option dec * Sizing) :=
  match finite_positive (max_balance_scale risk) with
  | None => Ok (blocked_sizing "max balance scale must be finite and positive")
  | Some limit =>
      let sizing_equity := match cap with Some c => dmin values.2 c | None => values.2 end in
      raw ← ddiv sizing_equity values.1;
      let balance := dmin raw limit in
      let scale := dmul base balance in
      if dpos scale
      then Ok (Some scale, sized "balance_scaled" (Some (Fin scale)) (Some sizing_equity) (Some raw) (Some balance) None)
      else Ok (None, sized "blocked_invalid_sizing" None None (Some raw) (Some balance)
                       (Some "effective account-value scale must be finite and positive"))
  end.

(** [_effective_scale] *)
Definition effective_scale_of (source_account_value follower_account_value : option pydec) : res (option dec * Sizing) :=
  match finite_positive (fixed_multiplier risk) with
  | None => Ok (blocked_sizing "fixed multiplier must be finite and positive")
  | Some base =>
      let cap := sizing_equity_cap_usd risk ≫= finite_positive in
      if match sizing_equity_cap_usd risk, cap with Some _, None => true | _, _ => false end
      then Ok (blocked_sizing "sizing equity cap must be finite and positive") else
      match equity_ratio risk with
      | Some ratio =>
          match finite_positive ratio with
          | None => Ok (blocked_sizing "explicit equity ratio must be finite and positive")
          | Some r => Ok (Some r, sized "explicit_equity_ratio" (Some ratio) None None None None)
          end
      | None =>
          if negb (balance_sizing_enabled risk) then Ok (Some base, sized "fixed_multiplier" (Some (Fin base)) None None None None) else
          match both_values source_account_value follower_account_value with
          | None =>
              if bool_decide (mode ∈ [TESTNET; LIVE])
              then Ok (None, sized "blocked_missing_balances" None None None None
                (Some "exchange mode balance sizing requires finite positive source and follower accountValue snapshots"))
              else Ok (Some base, sized "fixed_multiplier_waiting_for_balances" (Some (Fin base)) None None None None)
          | Some values => balance_scaled base cap values
          end
      end
  end.

(** * Targets *)

Variable asset_meta : dict AssetMeta.
Variable mids : dict pydec.

Definition positive_mid_of (market : string) : option dec := dict_get market mids ≫= finite_positive.

Definition is_finite_opt (x : option pydec) : bool := match x with Some d => is_finite d | None => true end.

(** The target of one source position that may be copied. *)
Definition capped_target (market : string) (mid size scale : dec) : res dec :=
  let target := dmul size scale in
  dex ← market_dex (JStr market);
  cap_price ← (if is_empty dex then Ok mid
               else ratio ← ddiv (hip3_oracle_envelope_bps risk) (dint 10000); Ok (dmul mid (dadd (dint 1) ratio)));
  if dltb (max_notional_usd risk) (dmul (dabs target) cap_price)
  then capped ← ddiv (max_notional_usd risk) cap_price; Ok (copy_sign capped target)
  else Ok target.

Definition Targets : Type := dict Position * list string.

Definition block (acc : Targets) (why : string) : res Targets := Ok (acc.1, acc.2 ++ [why]).

(** The leverage to copy with, or why it cannot be used. *)
Definition copied_leverage (market : string) (meta : AssetMeta) (leverage : option Z) : string + option Z :=
  match leverage with
  | None => inr None
  | Some l =>
      if l <=? 0 then inl (market +:+ " source leverage " +:+ str_of_Z l +:+ " is invalid") else
      let desired := Z.min l (max_leverage risk) in
      match am_max_leverage meta with
      | Some limit =>
          if limit <? desired
          then inl (market +:+ " source leverage " +:+ str_of_Z desired +:+ " exceeds exchange max " +:+ str_of_Z limit)
          else inr (Some desired)
      | None => inr (Some desired)
      end
  end.

(** One source position. *)
Definition source_step (allowlist denylist : list string) (scale : dec) (now : Z) (acc : Targets) (cp : string * RawPosition) : res Targets :=
  match canonical_market_symbol (JStr cp.1) with
  | Raise e => if is_value_error e then block acc ("invalid source market " +:+ cp.1) else Raise e
  | Ok market =>
      if bool_decide (market ∈ denylist) then Ok acc else
      if bool_decide (market_eligibility risk = ALLOWLIST) && negb (bool_decide (market ∈ allowlist)) then Ok acc else
      match dict_get market asset_meta with
      | None => block acc (market +:+ " missing exchange metadata")
      | Some meta =>
          match positive_mid_of market with
          | None => block acc (market +:+ " missing positive mid price")
          | Some mid =>
              match pos_size cp.2 with
              | Fin size =>
                  if negb (is_finite_opt (pos_entry_px cp.2)) then block acc (market +:+ " source entry price is not finite") else
                  match copied_leverage market meta (pos_leverage cp.2) with
                  | inl why => block acc why
                  | inr leverage =>
                      target ← capped_target market mid size scale;
                      Ok (dict_set market (MkPosition market target (pos_entry_px cp.2) leverage now) acc.1, acc.2)
                  end
              | _ => block acc (market +:+ " source size is not finite")
              end
          end
      end
  end.

(** [_gross_notional] *)
Definition gross_step (gross : dec) (cp : string * Position) : res dec :=
  if dis_zero (pos_size cp.2) then Ok gross else
  market ← canonical_market_symbol (JStr cp.1);
  match positive_mid_of market with
  | None => Ok gross
  | Some mid => Ok (dadd gross (dmul (dabs (pos_size cp.2)) mid))
  end.
Definition gross_notional (positions : dict Position) : res dec := fold_res gross_step positions dzero.

(** [_scale_targets] *)
Definition scale_step (scale : dec) (acc : dict Position) (cp : string * Position) : res (dict Position) :=
  market ← canonical_market_symbol (JStr cp.1);
  let p := cp.2 in
  let size := match dict_get market asset_meta, positive_mid_of market with
              | Some _, Some _ => if dis_zero (pos_size p) then pos_size p else dmul (pos_size p) scale
              | _, _ => pos_size p
              end in
  Ok (dict_set market (MkPosition market size (pos_entry_px p) (pos_leverage p) (pos_updated_ms p)) acc).
Definition scale_targets (scale : dec) (positions : dict Position) : res (dict Position) := fold_res (scale_step scale) positions [].

(** [_initial_margin_requirement]: an error, or the margin. *)
Definition margin_step (acc : string + dec) (cp : string * Position) : res (string + dec) :=
  match acc with
  | inl why => Ok (inl why)
  | inr margin =>
      if dis_zero (pos_size cp.2) then Ok (inr margin) else
      market ← canonical_market_symbol (JStr cp.1);
      match pos_leverage cp.2 with
      | None => Ok (inl (market +:+ " target leverage is required for initial-margin budgeting"))
      | Some l =>
          if l <=? 0 then Ok (inl (market +:+ " target leverage " +:+ str_of_Z l +:+ " is invalid for initial-margin budgeting")) else
          match positive_mid_of market with
          | None => Ok (inl (market +:+ " requires a finite positive mid for initial-margin budgeting"))
          | Some mid => m ← ddiv (dmul (dabs (pos_size cp.2)) mid) (dint l); Ok (inr (dadd margin m))
          end
      end
  end.
Definition initial_margin_requirement (positions : dict Position) : res (string + dec) := fold_res margin_step positions (inr dzero).

Definition set_gross (s : Sizing) (before scale after : option dec) : Sizing :=
  MkSizing (sz_mode s) (effective_scale s) (sizing_equity_usd s) (raw_balance_scale s) (balance_scale s) (blocker s) before scale after
    (initial_margin_budget_status s) (initial_margin_budget_usd s) (initial_margin_before_cap s) (initial_margin_cap_scale s)
    (initial_margin_after_cap s) (initial_margin_utilization_after_cap s).
Definition set_margin (s : Sizing) (status : string) (budget before scale after used : option dec) : Sizing :=
  MkSizing (sz_mode s) (effective_scale s) (sizing_equity_usd s) (raw_balance_scale s) (balance_scale s) (blocker s) (gross_before_cap s)
    (gross_cap_scale s) (gross_after_cap s) status budget before scale after used.

(** A utilization above zero and at most one. *)
Definition utilization_of (u : pydec) : option dec :=
  match finite_positive u with Some d => if dleb d (dint 1) then Some d else None | None => None end.

(** The part that a margin budget leaves of the targets. *)
Definition within_margin (positions : dict Position) (s : Sizing) (equity budget required : dec)
    : res (dict Position * option string * Sizing) :=
  used ← ddiv required equity;
  if dleb required budget
  then Ok (positions, None, set_margin s "within_budget" (Some budget) (Some required) None (Some required) (Some used)) else
  scale ← ddiv budget required;
  scaled ← scale_targets scale positions;
  final ← initial_margin_requirement scaled;
  match final with
  | inl why => Ok ([], Some why, set_margin s "blocked_invalid_leverage" (Some budget) (Some required) None (Some required) (Some used))
  | inr final =>
      used ← ddiv final equity;
      if dltb budget final
      then Ok ([], Some ("target initial margin " +:+ dec_str final +:+ " exceeds budget " +:+ dec_str budget +:+ " after scaling"),
               set_margin s "blocked_budget_exceeded" (Some budget) (Some required) (Some scale) (Some final) (Some used))
      else Ok (scaled, None, set_margin s "scaled" (Some budget) (Some required) (Some scale) (Some final) (Some used))
  end.

(** [_apply_initial_margin_budget] *)
Definition apply_initial_margin_budget (positions : dict Position) (follower_account_value : option pydec) (s : Sizing)
    : res (dict Position * option string * Sizing) :=
  match max_initial_margin_utilization risk with
  | None => Ok (positions, None, set_margin s "disabled" None None None None None)
  | Some u =>
      match utilization_of u with
      | None => Ok ([], Some "max initial margin utilization must be finite, above 0, and at or below 1",
                    set_margin s "blocked_invalid_policy" None None None None None)
      | Some utilization =>
          match follower_account_value ≫= finite_positive with
          | None => Ok ([], Some "initial-margin budget requires a finite positive follower accountValue snapshot",
                        set_margin s "blocked_invalid_equity" None None None None None)
          | Some equity =>
              required ← initial_margin_requirement positions;
              match required with
              | inl why => Ok ([], Some why, set_margin s "blocked_invalid_leverage" None None None None None)
              | inr required => within_margin positions s equity (dmul equity utilization) required
              end
          end
      end
  end.

(** The targets inside the gross cap, with their gross and the scale that was applied. *)
Definition within_gross (targets : dict Position) (gross : dec) : res (dict Position * dec * option dec) :=
  if negb (dltb (max_gross_exposure_usd risk) gross) then Ok (targets, gross, None) else
  if dleb gross dzero then Ok (targets, gross, Some (dint 1)) else
  scale ← ddiv (max_gross_exposure_usd risk) gross;
  scaled ← scale_targets scale targets;
  after ← gross_notional scaled;
  Ok (scaled, after, Some scale).

(** [build_target_state] *)
Definition build_target_state (source_positions : dict RawPosition) (source_account_value follower_account_value : option pydec) (now : Z)
    : res (dict Position * list string * Sizing) :=
  allowlist ← map_res (fun s => canonical_market_symbol (JStr s)) (allowed_symbols risk);
  denylist ← map_res (fun s => canonical_market_symbol (JStr s)) (denied_symbols risk);
  '(scale, s) ← effective_scale_of source_account_value follower_account_value;
  match scale with
  | None => Ok ([], [default "" (blocker s)], s)
  | Some scale =>
      '(targets, blockers) ← fold_res (source_step allowlist denylist scale now) source_positions ([], []);
      before ← gross_notional targets;
      '(targets, gross, gross_scale) ← within_gross targets before;
      let blockers := blockers ++ (if dltb (max_gross_exposure_usd risk) gross
        then ["target gross exposure " +:+ dec_str gross +:+ " exceeds cap " +:+ dec_str (max_gross_exposure_usd risk)] else []) in
      '(targets, margin_blocker, s) ← apply_initial_margin_budget targets follower_account_value s;
      after ← gross_notional targets;
      Ok (targets, blockers ++ match margin_blocker with Some why => [why] | None => [] end,
          set_gross s (Some before) gross_scale (Some after))
  end.

(** * Orders *)

Definition opt_dec_json (d : option dec) : json := match d with Some d => JStr (dec_str d) | None => JNull end.
Definition opt_pydec_json (d : option pydec) : json := match d with Some d => JStr (pydec_str d) | None => JNull end.
Definition opt_int_json (z : option Z) : json := match z with Some z => JInt z | None => JNull end.

(** [_stable_target_positions] *)
Definition stable_target_positions (positions : dict Position) : res json :=
  fields ← map_res (fun cp : string * Position =>
    key ← canonical_market_symbol (JStr cp.1);
    coin ← canonical_market_symbol (JStr (pos_coin cp.2));
    Ok (key, JObj [("coin", JStr coin); ("size", JStr (dec_str (pos_size cp.2))); ("entry_px", opt_pydec_json (pos_entry_px cp.2));
                   ("leverage", opt_int_json (pos_leverage cp.2))]))
    (py_sorted (fun a b => str_leb a.1 b.1) positions);
  Ok (JObj (fold_left (fun o kv => dict_set kv.1 kv.2 o) fields [])).

(** [_intent] *)
Definition intent (action : IntentAction) (coin side : string) (size : dec) (price : option dec) (reduce_only : bool) (event_key reason : string)
    (now : Z) (status : IntentStatus) : FollowerIntent :=
  let cloid := deterministic_cloid blake2s [JStr event_key; JStr (Mode_value mode); JStr follower_account; JStr coin; JStr (IntentAction_value action);
    JStr side; JStr (dec_str size); opt_dec_json price; JBool reduce_only; JStr strategy_version] in
  MkIntent (deterministic_cloid blake2s [JStr "intent"; JStr cloid]) cloid action coin side size price reduce_only mode event_key reason now status.

Definition skipped (coin event_key reason : string) (now : Z) : FollowerIntent :=
  intent NOOP coin "none" dzero None false event_key reason now SKIPPED.

Definition buy_or_sell (buy : bool) : string := if buy then "buy" else "sell".

(** Close what is held and open the other side. *)
Definition flip_intents (coin event_key : string) (meta : AssetMeta) (mid target current : dec) (now : Z) : res (list FollowerIntent) :=
  let close_buy := negb (dpos current) in
  close_price ← aggressive_ioc_price (Fin mid) close_buy (Fin (close_slippage_bps risk)) (am_sz_decimals meta);
  let open_buy := dpos target in
  open_price ← aggressive_ioc_price (Fin mid) open_buy (Fin (slippage_bps risk)) (am_sz_decimals meta);
  Ok [intent CLOSE coin (buy_or_sell close_buy) (dabs current) (Some close_price) true event_key
        ("close before source-side flip; reduce_only close_slippage_bps=" +:+ dec_str (close_slippage_bps risk)) now PENDING;
      intent OPEN coin (buy_or_sell open_buy) (dabs target) (Some open_price) false event_key
        ("open after source-side flip; entry_slippage_bps=" +:+ dec_str (slippage_bps risk)) now PENDING].

Definition too_small (coin event_key : string) (size notional : dec) (now : Z) : FollowerIntent :=
  skipped coin event_key ("delta below min size/notional: size=" +:+ dec_str size +:+ " notional=" +:+ dec_str notional) now.

(** One order towards the target, on the same side. *)
Definition delta_intents (coin event_key : string) (meta : AssetMeta) (mid target current : dec) (now : Z) : res (list FollowerIntent) :=
  let raw_delta := dsub target current in
  delta ← quantize_size (Fin raw_delta) (am_sz_decimals meta);
  if dis_zero delta then
    if dis_zero raw_delta then Ok [] else Ok [too_small coin event_key (dabs raw_delta) (dmul (dabs raw_delta) mid) now]
  else
  let buy := dpos delta in
  let reducing := negb (dis_zero current) && dltb (dabs target) (dabs current) in
  let exact_flatten := reducing && dis_zero target && deqb (dabs delta) (dabs current) in
  if dltb (dabs delta) (min_order_size risk) && negb exact_flatten
  then Ok [too_small coin event_key (dabs delta) (dmul (dabs delta) mid) now] else
  let slippage := if reducing then close_slippage_bps risk else slippage_bps risk in
  price ← aggressive_ioc_price (Fin mid) buy (Fin slippage) (am_sz_decimals meta);
  Ok [intent (if reducing then REDUCE else OPEN) coin (buy_or_sell buy) (dabs delta) (Some price) reducing event_key
        ("move follower toward desired target; " +:+ (if reducing then "reduce_only close_slippage_bps" else "entry_slippage_bps")
         +:+ "=" +:+ dec_str slippage) now PENDING].

(** The follower holds one side and shall hold the other. *)
Definition flips (target current : dec) : bool :=
  negb (dis_zero current) && negb (dis_zero target) && negb (Bool.eqb (dpos current) (dpos target)).

(** [_plan_coin] *)
Definition plan_coin (coin event_key : string) (target current : dec) (now : Z) : res (list FollowerIntent) :=
  if deqb target current then Ok [] else
  match dict_get coin asset_meta with
  | None => Ok [skipped coin event_key "missing metadata" now]
  | Some meta =>
      match positive_mid_of coin with
      | None => Ok [skipped coin event_key "missing mid price" now]
      | Some mid =>
          if flips target current then flip_intents coin event_key meta mid target current now
          else delta_intents coin event_key meta mid target current now
      end
  end.

(** What a skipped order adds to the blockers. *)
Definition skip_blocker (coin : string) (i : FollowerIntent) : list string :=
  if negb (bool_decide (fi_status i = SKIPPED)) then [] else
  if bool_decide (fi_reason i = "missing metadata") then [coin +:+ " missing exchange metadata for follower delta"] else
  if bool_decide (fi_reason i = "missing mid price") then [coin +:+ " missing positive mid price for follower delta"] else [].

Definition target_size (coin : string) (targets : dict Position) : dec := match dict_get coin targets with Some p => pos_size p | None => dzero end.
Definition current_size (coin : string) (positions : dict RawPosition) : pydec :=
  match dict_get coin positions with Some p => pos_size p | None => Fin dzero end.

Definition coin_step (event_key : string) (targets : dict Position) (follower : dict RawPosition) (now : Z)
    (acc : list FollowerIntent * list string) (coin : string) : res (list FollowerIntent * list string) :=
  match current_size coin follower with
  | Fin current =>
      l ← plan_coin coin event_key (target_size coin targets) current now;
      Ok (acc.1 ++ l, acc.2 ++ concat (skip_blocker coin <$> l))
  | _ => Ok (acc.1, acc.2 ++ [coin +:+ " follower size is not finite"])
  end.

(** [sorted(set(targets) | set(positions))] *)
Definition all_coins (targets : dict Position) (follower : dict RawPosition) : list string :=
  py_sorted str_leb (dict_keys targets ++ List.filter (fun c => negb (bool_decide (c ∈ dict_keys targets))) (dict_keys follower)).

(** [plan] *)
Definition plan (event_key : string) (source_positions follower_positions : dict RawPosition)
    (source_account_value follower_account_value : option pydec) (now : Z) : res CopyResult :=
  '(targets, blockers, s) ← build_target_state source_positions source_account_value follower_account_value now;
  stable ← stable_target_positions targets;
  let id := deterministic_cloid blake2s [JStr "desired"; JStr event_key; JStr (Mode_value mode); JStr follower_account; stable] in
  '(l, why) ← fold_res (coin_step event_key targets follower_positions now) (all_coins targets follower_positions) ([], []);
  Ok (MkResult (MkDesired id event_key mode targets ("scaled source exposure via " +:+ sz_mode s) now) l (blockers ++ why) s).
End Engine.
