(* ===== verification/CopyFacts.v ===== *)
(** Facts about the copy engine of the older service: the targets are permitted and inside
    their caps, and the orders towards them never cross zero. *)

From S2P Require Import Prelude PyDecimal DecimalFacts PyText Models Precision Markets MarketFacts DesiredEngine DesiredFacts RoundingFacts CopyEngine.
From Stdlib Require Import QArith Qabs Lqa.

Open Scope Z_scope.

(** * Orders of one market *)

(** A limit price on the permitted side of the slippage envelope around [mid]. *)
Definition inside_envelope (buy : bool) (mid bps px : dec) (sz : Z) : Prop :=
  let w := (dval bps / 10000)%Q in
  (0 < dval px)%Q /\ valid_price (PERP_MAX_DECIMALS - sz) (dval px) /\
  (if buy
   then dval px <= dval mid * ((1 + w * (1 + ulp28)) * (1 + ulp28)) * (1 + ulp28)
   else dval mid * ((1 - w * (1 + ulp28)) * (1 - ulp28)) * (1 - ulp28) <= dval px)%Q.

Lemma price_inside m buy s sz r : aggressive_ioc_price (Fin m) buy (Fin s) sz = Ok r -> inside_envelope buy m s r sz.
Proof. intros H%aggressive_ioc_price_inside. unfold inside_envelope. tauto. Qed.

(** What the position changes by when the order is filled. *)
Definition moves (i : FollowerIntent) : Q := (if bool_decide (fi_side i = "buy") then dval (fi_size i) else - dval (fi_size i))%Q.

Section Engine.
Variable blake2s : string -> string.
Variable risk : RiskConfig.
Variable mode : Mode.
Variables follower_account strategy_version : string.
Variable asset_meta : dict AssetMeta.
Variable mids : dict pydec.

Abbreviation plan_coin := (plan_coin blake2s risk mode follower_account strategy_version asset_meta mids).
Abbreviation plan := (plan blake2s risk mode follower_account strategy_version asset_meta mids).

(** An order that will be sent: of a positive size, on one side, at a price inside the
    envelope of its slippage. *)
Definition sendable (coin : string) (action : IntentAction) (reduce : bool) (bps : dec) (i : FollowerIntent) : Prop :=
  fi_coin i = coin /\ fi_action i = action /\ fi_reduce_only i = reduce /\ fi_status i = PENDING /\ (0 < dval (fi_size i))%Q /\
  exists buy meta mid px, fi_side i = buy_or_sell buy /\ dict_get coin asset_meta = Some meta /\ positive_mid_of mids coin = Some mid /\
    fi_price i = Some px /\ inside_envelope buy mid bps px (am_sz_decimals meta).

(** The orders that may be made for one market: none; a record why none was made; a reduction
    that stays on its side of zero; an order towards a target that is not nearer to zero; or a
    full close followed by the opening of the whole target on the other side. *)
Inductive coin_orders (coin : string) (target current : dec) : list FollowerIntent -> Prop :=
  | co_none : coin_orders coin target current []
  | co_skipped i : fi_coin i = coin -> fi_action i = NOOP -> fi_status i = SKIPPED -> fi_price i = None -> coin_orders coin target current [i]
  | co_reduce i : sendable coin REDUCE true (close_slippage_bps risk) i ->
      (moves i * dval current < 0)%Q -> (Qabs (moves i) <= Qabs (dval current))%Q -> cut (dval (dsub target current)) (moves i) ->
      coin_orders coin target current [i]
  | co_open i : sendable coin OPEN false (slippage_bps risk) i ->
      (0 <= moves i * dval current)%Q -> cut (dval (dsub target current)) (moves i) -> coin_orders coin target current [i]
  | co_flip c o : sendable coin CLOSE true (close_slippage_bps risk) c -> sendable coin OPEN false (slippage_bps risk) o ->
      (moves c == - dval current)%Q -> (moves o == dval target)%Q -> (dval current * dval target < 0)%Q ->
      coin_orders coin target current [c; o].

Lemma side_moves action coin buy size price reduce key why now status :
  moves (intent blake2s mode follower_account strategy_version action coin (buy_or_sell buy) size price reduce key why now status) =
  (if buy then dval size else - dval size)%Q.
Proof. by destruct buy. Qed.

Lemma dpos_false_neg d : ~ (dval d == 0)%Q -> dpos d = false -> (dval d < 0)%Q.
Proof. intros H E. unfold dpos in E. apply dltb_false in E. rewrite dval_zero in E. destruct (Qle_lt_or_eq _ _ E) as [?|?]; [done|]. contradiction. Qed.

Lemma not_zero d : dis_zero d = false -> ~ (dval d == 0)%Q.
Proof. intros E H%dis_zero_spec. congruence. Qed.

(** A size on the side of its sign. *)
Lemma signed_abs d : fits d -> dis_zero d = false -> ((if dpos d then dval (dabs d) else - dval (dabs d)) == dval d)%Q /\ (0 < dval (dabs d))%Q.
Proof.
  intros Hf Hz%not_zero. pose proof (dabs_fits_val d Hf) as Ha. destruct (dpos d) eqn:E.
  - apply dpos_spec in E. rewrite Qabs_pos in Ha by lra. split; lra.
  - apply dpos_false_neg in E; [|done]. rewrite Qabs_neg in Ha by lra. split; lra.
Qed.

Lemma flip_orders coin key meta mid target current now l : fits target -> fits current -> flips target current = true ->
  dict_get coin asset_meta = Some meta -> positive_mid_of mids coin = Some mid ->
  flip_intents blake2s risk mode follower_account strategy_version coin key meta mid target current now = Ok l -> coin_orders coin target current l.
Proof.
  intros Ht Hc Hf Hmeta Hmid. unfold flips in Hf. bool_prop. unfold flip_intents. intros (close_px & Hcp & Hrun)%bind_Ok. apply bind_Ok in Hrun as (open_px & Hop & [= <-]).
  match goal with H1 : dis_zero current = false, H2 : dis_zero target = false |- _ =>
    destruct (signed_abs _ Hc H1) as [Mc Pc]; destruct (signed_abs _ Ht H2) as [Mt Pt]; apply not_zero in H1, H2 end.
  apply price_inside in Hcp, Hop. apply co_flip.
  - repeat split; try done. by exists (negb (dpos current)), meta, mid, close_px.
  - repeat split; try done. by exists (dpos target), meta, mid, open_px.
  - rewrite side_moves. rewrite <- Mc. destruct (dpos current); cbn [negb]; lra.
  - rewrite side_moves. exact Mt.
  - destruct (dpos current) eqn:E1, (dpos target) eqn:E2; try done.
    + apply dpos_spec in E1. apply dpos_false_neg in E2; [|done]. nra.
    + apply dpos_spec in E2. apply dpos_false_neg in E1; [|done]. nra.
Qed.

Lemma same_side target current : flips target current = false -> (0 <= dval target * dval current)%Q.
Proof.
  unfold flips. intros H. destruct (dis_zero current) eqn:Ec; [apply dis_zero_spec in Ec; rewrite Ec; lra|].
  destruct (dis_zero target) eqn:Et; [apply dis_zero_spec in Et; rewrite Et; lra|]. cbn [negb andb] in H.
  apply not_zero in Ec, Et. destruct (dpos current) eqn:E1, (dpos target) eqn:E2; try done.
  - apply dpos_spec in E1, E2. nra.
  - apply dpos_false_neg in E1, E2; [|done..]. nra.
Qed.

(** Which way a target is from a position on the same side of zero. *)
Lemma nearer_zero (t c : Q) : (0 <= t * c -> Qabs t < Qabs c -> (0 < c /\ t < c) \/ (c < 0 /\ c < t))%Q.
Proof. intros H. destruct (Qabs_cases t) as [[? ->]|[? ->]], (Qabs_cases c) as [[? ->]|[? ->]]; intros; [left|right|left|right]; split; lra || nra. Qed.

Lemma farther_zero (t c : Q) : (0 <= t * c -> Qabs c <= Qabs t -> (0 <= c /\ (c == 0 \/ c <= t)) \/ (c <= 0 /\ (c == 0 \/ t <= c)))%Q.
Proof.
  intros H. destruct (Qabs_cases t) as [[? ->]|[? ->]], (Qabs_cases c) as [[? ->]|[? ->]]; intros.
  - left. split; [done|right; lra].
  - destruct (Qeq_dec c 0) as [E|E]; [right; split; [done|by left]|]. assert (c < 0)%Q by (destruct (Qle_lt_or_eq _ _ H1) as [?|?]; [done|lra]). nra.
  - destruct (Qeq_dec c 0) as [E|E]; [left; split; [done|by left]|]. assert (0 < c)%Q by (destruct (Qle_lt_or_eq _ _ H1) as [?|?]; [done|lra]). nra.
  - right. split; [done|right; lra].
Qed.

(** A rounded and truncated difference goes the same way. *)
Lemma cut_way a b d : cut (dval (dsub a b)) (dval d) -> ((dval a <= dval b -> dval d <= 0) /\ (dval b <= dval a -> 0 <= dval d))%Q.
Proof.
  intros [C1 C2]. destruct (dsub_sign a b) as (S1 & S2 & S3). split; intros H.
  - apply C2. destruct (Qlt_le_dec 0 (dval (dsub a b))) as [L|L]; [|done]. apply S1 in L. lra.
  - apply C1. destruct (Qlt_le_dec (dval (dsub a b)) 0) as [L|L]; [|done]. apply S2 in L. lra.
Qed.

Lemma delta_orders coin key meta mid target current now l : fits target -> fits current -> flips target current = false ->
  dict_get coin asset_meta = Some meta -> positive_mid_of mids coin = Some mid ->
  delta_intents blake2s risk mode follower_account strategy_version coin key meta mid target current now = Ok l -> coin_orders coin target current l.
Proof.
  intros Ht Hc Hf%same_side Hmeta Hmid. unfold delta_intents. intros (delta & Hq & H)%bind_Ok.
  pose proof (quantize_cut _ _ _ Hq) as Hcut. assert (fits delta) as Hd.
  { unfold quantize_size in Hq. by apply quantize_fits in Hq. }
  destruct (dis_zero delta) eqn:Ez; [destruct (dis_zero (dsub target current)); injection H as <-; by constructor|].
  destruct (dltb (dabs delta) _ && _); [injection H as <-; by constructor|].
  destruct (signed_abs _ Hd Ez) as [Md Pd]. pose proof (not_zero _ Ez) as Hne.
  destruct (negb (dis_zero current) && dltb (dabs target) (dabs current)) eqn:Er; apply bind_Ok in H as (px & Hpx & H); injection H as <-;
    apply price_inside in Hpx.
  - bool_prop. match goal with H : dltb _ _ = true |- _ => apply dltb_spec in H; rewrite !dabs_fits_val in H by done; rename H into Hlt end.
    pose proof (dsub_shrinks target current Hc Hf ltac:(lra)) as Hs. pose proof (cut_abs _ _ Hcut) as Ha.
    apply co_reduce.
    + repeat split; try done. by exists (dpos delta), meta, mid, px.
    + rewrite side_moves, Md. destruct (cut_way _ _ _ Hcut) as [W1 W2]. destruct (nearer_zero _ _ Hf Hlt) as [[? ?]|[? ?]].
      * assert (dval delta <= 0)%Q as Hle by (apply W1; lra). apply Qle_lteq in Hle as [Hlt0|?]; [nra|contradiction].
      * assert (0 <= dval delta)%Q as Hle by (apply W2; lra). apply Qle_lteq in Hle as [Hlt0|E]; [nra|symmetry in E; contradiction].
    + rewrite side_moves, Md. lra.
    + rewrite side_moves, Md. exact Hcut.
  - apply co_open.
    + repeat split; try done. by exists (dpos delta), meta, mid, px.
    + rewrite side_moves, Md. destruct (cut_way _ _ _ Hcut) as [W1 W2]. destruct (dis_zero current) eqn:Ec.
      * apply dis_zero_spec in Ec. rewrite Ec. lra.
      * cbn [negb andb] in Er. apply dltb_false in Er. rewrite !dabs_fits_val in Er by done.
        destruct (farther_zero _ _ Hf Er) as [[? [E|?]]|[? [E|?]]]; [rewrite E; lra|specialize (W2 H0); nra|rewrite E; lra|specialize (W1 H0); nra].
    + rewrite side_moves, Md. exact Hcut.
Qed.

Lemma plan_coin_orders coin key target current now l : fits target -> fits current -> plan_coin coin key target current now = Ok l ->
  coin_orders coin target current l.
Proof.
  intros Ht Hc. unfold CopyEngine.plan_coin. destruct (deqb target current); [intros [= <-]; constructor|].
  destruct (dict_get coin asset_meta) as [meta|] eqn:Em; [|intros [= <-]; by constructor].
  destruct (positive_mid_of mids coin) as [mid|] eqn:Ed; [|intros [= <-]; by constructor].
  destruct (flips target current) eqn:Ef; [by apply flip_orders|by apply delta_orders].
Qed.

(** The orders of one market of a plan: none where the follower's size is not finite. *)
Definition orders_of (targets : dict Position) (follower : dict RawPosition) (coin : string) (l : list FollowerIntent) : Prop :=
  match current_size coin follower with
  | Fin current => coin_orders coin (target_size coin targets) current l
  | _ => l = []
  end.

Lemma coins_orders key targets follower now coins l why :
  (forall coin, fits (target_size coin targets)) -> (forall coin current, current_size coin follower = Fin current -> fits current) ->
  fold_res (coin_step blake2s risk mode follower_account strategy_version asset_meta mids key targets follower now) coins ([], []) = Ok (l, why) ->
  exists groups, l = concat groups /\ Forall2 (orders_of targets follower) coins groups.
Proof.
  intros Ht Hf. apply (fold_res_prefix (fun pre acc => exists groups, acc.1 = concat groups /\ Forall2 (orders_of targets follower) pre groups)).
  - intros pre coin [l0 w0] [l1 w1] _ (groups & Hl & HF). cbn [fst] in Hl. subst l0. unfold coin_step.
    assert (forall g, orders_of targets follower coin g -> l1 = concat groups ++ g ->
      exists groups', l1 = concat groups' /\ Forall2 (orders_of targets follower) (pre ++ [coin]) groups') as K.
    { intros g Hg ->. exists (groups ++ [g]). split; [by rewrite concat_app; cbn; rewrite app_nil_r|]. apply Forall2_app; [done|]. by constructor. }
    destruct (current_size coin follower) as [current| |] eqn:E.
    + intros (g & Hg & [= <- <-])%bind_Ok. apply (K g); [|done]. unfold orders_of. rewrite E.
      eapply plan_coin_orders; [apply Ht|by apply (Hf coin)|exact Hg].
    + intros [= <- <-]. apply (K []); [unfold orders_of; by rewrite E|by rewrite app_nil_r].
    + intros [= <- <-]. apply (K []); [unfold orders_of; by rewrite E|by rewrite app_nil_r].
  - exists []. by split.
Qed.
End Engine.
