(* ===== verification/CopyTargets.v ===== *)
(** The targets of the copy engine: permitted, with the sign of what they copy and inside
    every cap; and the plan of the whole portfolio. *)

From S2P Require Import Prelude PyDecimal DecimalFacts PyText Models Precision Markets MarketFacts DesiredEngine DesiredFacts RoundingFacts CopyEngine CopyFacts.
From Stdlib Require Import QArith Qabs Lqa.

Open Scope Z_scope.

Lemma finite_positive_spec x d : finite_positive x = Some d -> x = Fin d /\ (0 < dval d)%Q.
Proof. unfold finite_positive. destruct x as [e| |]; try done. destruct (dpos e) eqn:E; [|done]. intros [= ->]. by apply dpos_spec in E. Qed.

Lemma positive_mid_spec mids m d : positive_mid_of mids m = Some d -> dict_get m mids = Some (Fin d) /\ (0 < dval d)%Q.
Proof. unfold positive_mid_of. intros (x & -> & H%finite_positive_spec)%bind_Some. by destruct H as [-> ?]. Qed.

(** A quotient of a part by its whole is at most one, but for the last digit. *)
Lemma part_of a b : (0 <= dval a)%Q -> (dval a < dval b)%Q -> exists k, ddiv a b = Ok k /\ (0 <= dval k <= up)%Q.
Proof.
  intros Ha Hab. destruct (ddiv_pos_ok a b) as [k Hk]; [lra|]. exists k. split; [done|]. destruct up_down as (_ & _ & Hu).
  assert (0 <= dval a / dval b)%Q as H0 by (apply Qle_shift_div_l; lra).
  assert (dval a / dval b <= 1)%Q as H1 by (apply Qle_shift_div_r; lra).
  apply ddiv_near, near_bounds in Hk as [Hlo Hhi]; [|done]. destruct ulp28_range. split; nra.
Qed.

Lemma down_pow n : (0 < qpow down n <= 1)%Q.
Proof. destruct up_down as (H & _). split; [by apply qpow_pos|]. apply (qpow_down_mono 0 n). lia. Qed.

(** A product shrinks or grows with its factor. *)
Lemma product_abs s k c : (0 <= dval k <= c)%Q -> (Qabs (dval (dmul s k)) <= up * (Qabs (dval s) * c))%Q.
Proof.
  intros [H0 H1]. pose proof (near_abs _ _ _ (dmul_near s k)) as H. apply near_bounds in H as [_ H]; [|apply Qabs_nonneg].
  rewrite Qabs_Qmult, (Qabs_pos (dval k)) in H by done. pose proof (Qabs_nonneg (dval s)). destruct ulp28_range.
  assert (Qabs (dval s) * dval k <= Qabs (dval s) * c)%Q by (rewrite !(Qmult_comm (Qabs _)); by apply Qmult_le_compat_r).
  nra.
Qed.

(** * Targets of one market *)

Section Targets.
Variable risk : RiskConfig.
Variable mode : Mode.
Variable asset_meta : dict AssetMeta.
Variable mids : dict pydec.
Variable sources : dict RawPosition.

(** Caps and an oracle envelope that are not negative. *)
Record sane : Prop := {
  sane_notional : (0 <= dval (max_notional_usd risk))%Q;
  sane_gross : (0 <= dval (max_gross_exposure_usd risk))%Q;
  sane_envelope : (0 <= dval (hip3_oracle_envelope_bps risk))%Q;
}.

(** A market may be copied. *)
Definition permitted (allow deny : list string) (market : string) : Prop :=
  market ∉ deny /\ (market_eligibility risk = ALLOWLIST -> market ∈ allow).

(** The size copies a source position of the market, and so does the leverage, within
    both limits. *)
Definition copies (market : string) (size : dec) (leverage : option Z) : Prop :=
  exists raw src ss meta, (raw, src) ∈ sources /\ canonical_market_symbol (JStr raw) = Ok market /\ pos_size src = Fin ss /\
    (0 <= dval ss * dval size)%Q /\ dict_get market asset_meta = Some meta /\
    (forall l, leverage = Some l -> l <= CopyEngine.max_leverage risk /\ forall limit, am_max_leverage meta = Some limit -> l <= limit).

(** The notional of the size is inside [c] times the cap for one position. *)
Definition capped (c : Q) (market : string) (size : dec) : Prop :=
  exists mid, positive_mid_of mids market = Some mid /\ (qpow down 3 * (Qabs (dval size) * dval mid) <= c * dval (max_notional_usd risk))%Q.

Definition target_ok (allow deny : list string) (c : Q) (cp : string * Position) : Prop :=
  pos_coin cp.2 = cp.1 /\ permitted allow deny cp.1 /\ copies cp.1 (pos_size cp.2) (pos_leverage cp.2) /\ capped c cp.1 (pos_size cp.2) /\
  fits (pos_size cp.2).

Lemma target_canonical allow deny c cp : target_ok allow deny c cp -> canonical_market_symbol (JStr cp.1) = Ok cp.1.
Proof. intros (_ & _ & (raw & src & ss & meta & _ & H & _) & _). by apply canonical_of_canonical in H as [H _]. Qed.

(** The price that a position is capped at is the mid, or above it for a builder DEX. *)
Lemma cap_price_ok dex mid : sane -> (0 < dval mid)%Q ->
  exists cp, (if is_empty dex then Ok mid else ratio ← ddiv (hip3_oracle_envelope_bps risk) (dint 10000); Ok (dmul mid (dadd (dint 1) ratio))) = Ok cp /\
    (qpow down 2 * dval mid <= dval cp)%Q.
Proof.
  intros Hs Hm. destruct up_down as (Hd0 & Hd1 & _), (down_pow 2) as [D0 D1]. destruct (is_empty dex); [exists mid; split; [done|nra]|].
  destruct (ddiv_pos_ok (hip3_oracle_envelope_bps risk) (dint 10000)) as [ratio Hr]; [by rewrite dval_int|]. rewrite Hr. cbn [mbind res_bind].
  eexists. split; [done|]. assert (0 <= dval ratio)%Q as H0.
  { apply ddiv_near, near_bounds in Hr as [H _].
    - pose proof (sane_envelope Hs). destruct ulp28_range. rewrite dval_int in H. unfold Qdiv in H.
      assert (0 <= dval (hip3_oracle_envelope_bps risk) * / inject_Z 10000)%Q by (apply Qmult_le_0_compat; [done|discriminate]). nra.
    - rewrite dval_int. apply Qmult_le_0_compat; [by apply sane_envelope|discriminate]. }
  pose proof (dadd_near (dint 1) ratio) as H1. assert (dval (dint 1) == 1)%Q as E1 by apply dval_int.
  apply near_bounds in H1 as [H1 _]; [|rewrite E1; lra]. pose proof (dmul_near mid (dadd (dint 1) ratio)) as H2.
  assert (down <= dval (dadd (dint 1) ratio))%Q as H3 by (rewrite E1 in H1; destruct ulp28_range; nra).
  set (a := dval (dadd (dint 1) ratio)) in *. set (m := dval mid) in *. apply near_bounds in H2 as [H2 _]; [|nra].
  assert (down * m <= a * m)%Q by (apply Qmult_le_compat_r; lra).
  assert (down * (down * m) <= down * (a * m))%Q by (apply Qmult_le_l; lra). cbn [qpow]. lra.
Qed.

Lemma product_sign ss scale : (0 < dval scale)%Q ->
  let t := dmul ss scale in (0 <= dval ss * dval t)%Q /\ ((dval t == 0)%Q -> (dval ss == 0)%Q) /\ ((0 < dval t)%Q -> (0 < dval ss)%Q) /\ ((dval t < 0)%Q -> (dval ss < 0)%Q).
Proof.
  intros Hs t. destruct (dmul_sign ss scale) as (S1 & S2 & S3). fold t in S1, S2, S3. destruct (Q_dec (dval ss) 0) as [[H|H]|H].
  - assert (dval t < 0)%Q by (apply S2; nra). repeat split; intros; nra || lra.
  - assert (0 < dval t)%Q by (apply S1; nra). repeat split; intros; nra || lra.
  - assert (dval t == 0)%Q as E by (apply S3; rewrite H; ring). repeat split; intros; rewrite ?E, ?H in *; lra.
Qed.

(** A magnitude with the sign of a scaled size. *)
Lemma signed_size size ss scale : (0 < dval scale)%Q -> (0 <= dval size)%Q ->
  let t := copy_sign size (dmul ss scale) in (Qabs (dval t) == dval size)%Q /\ (0 <= dval ss * dval t)%Q.
Proof.
  intros Hs H0 t. pose proof (copy_sign_val size (dmul ss scale) H0) as Ev. fold t in Ev. destruct (product_sign ss scale Hs) as (_ & Z & P & N).
  destruct (dneg_spec (dmul ss scale)) as [D1 D2]. destruct (dneg (dmul ss scale)).
  - split; [rewrite Ev, Qabs_neg; lra|]. rewrite Ev. specialize (D1 eq_refl). apply Qle_lteq in D1 as [D|D]; [specialize (N D); nra|specialize (Z D); rewrite Z; lra].
  - split; [rewrite Ev, Qabs_pos; lra|]. rewrite Ev. specialize (D2 eq_refl). apply Qle_lteq in D2 as [D|D]; [specialize (P D); nra|symmetry in D; specialize (Z D); rewrite Z; lra].
Qed.

(** The size that the cap lets in at its price. *)
Lemma cap_size max cp size : (0 <= dval max)%Q -> (0 < dval cp)%Q -> ddiv max cp = Ok size ->
  (0 <= dval size)%Q /\ (dval size * dval cp <= up * dval max)%Q.
Proof.
  intros Hm Hc Hd%ddiv_near. assert (0 <= dval max / dval cp)%Q as Hq by (apply Qle_shift_div_l; lra).
  apply near_bounds in Hd as [Hlo Hhi]; [|done]. destruct ulp28_range as [U0 U1]. split; [nra|].
  assert ((dval max / dval cp + ulp28 * (dval max / dval cp)) * dval cp == up * dval max)%Q as <- by (field; lra). apply Qmult_le_compat_r; lra.
Qed.

Lemma under_price a m cp c : (0 <= a -> 0 <= m -> qpow down 2 * m <= cp -> a * cp <= c -> qpow down 3 * (a * m) <= c)%Q.
Proof.
  intros Ha Hm Hc Hb. destruct up_down as (Hd0 & Hd1 & _), (down_pow 2) as [D0 D1]. change (qpow down 3) with (down * qpow down 2)%Q.
  assert (a * (qpow down 2 * m) <= a * cp)%Q as H by (rewrite !(Qmult_comm a); apply Qmult_le_compat_r; lra).
  assert (0 <= a * (qpow down 2 * m))%Q as H0 by (apply Qmult_le_0_compat; [done|nra]).
  assert (down * (a * (qpow down 2 * m)) <= 1 * (a * (qpow down 2 * m)))%Q by (apply Qmult_le_compat_r; lra). lra.
Qed.

(** A size whose notional, as computed, is inside the cap. *)
Lemma within_cap max cp t : fits t -> (0 < dval cp)%Q -> dltb max (dmul (dabs t) cp) = false -> (down * (Qabs (dval t) * dval cp) <= dval max)%Q.
Proof.
  intros Hf Hc E%dltb_false. pose proof (dmul_near (dabs t) cp) as Hn. rewrite dabs_fits_val in Hn by done.
  pose proof (Qabs_nonneg (dval t)). apply near_bounds in Hn as [Hn _]; [|nra]. lra.
Qed.

(** Either the size of the scaled source, which is inside the cap, or as much as the cap lets in. *)
Lemma capped_target_ok raw market mid ss scale : sane -> canonical_market_symbol (JStr raw) = Ok market ->
  positive_mid_of mids market = Some mid -> (0 < dval scale)%Q ->
  exists t, capped_target risk market mid ss scale = Ok t /\ fits t /\ (0 <= dval ss * dval t)%Q /\ capped up market t.
Proof.
  intros Hs Hraw Hmid Hsc. pose proof (positive_mid_spec _ _ _ Hmid) as [_ Hm]. destruct (canonical_of_canonical _ _ Hraw) as [_ [dex Hdex]].
  unfold capped_target. rewrite Hdex. cbn [mbind res_bind]. destruct (cap_price_ok dex mid Hs Hm) as (cp & Hcp & Hge).
  rewrite Hcp. cbn [mbind res_bind]. destruct up_down as (Hd0 & Hd1 & Hu), (down_pow 2) as [D0 D1]. assert (0 < dval cp)%Q as Hpos by nra.
  pose proof (sane_notional Hs) as Hmax.
  destruct (dltb (max_notional_usd risk) (dmul (dabs (dmul ss scale)) cp)) eqn:E.
  - destruct (ddiv_pos_ok (max_notional_usd risk) cp Hpos) as [size Hsize]. rewrite Hsize. cbn [mbind res_bind]. eexists. split; [done|].
    destruct (cap_size _ _ _ Hmax Hpos Hsize) as [H0 Hb]. destruct (signed_size size ss scale Hsc H0) as [Ea Hsg].
    split; [exact (ddiv_is_fits _ _ _ Hsize)|]. split; [exact Hsg|]. exists mid. split; [done|]. rewrite Ea. apply under_price with (dval cp); lra.
  - eexists. split; [done|]. split; [apply dmul_fits|]. split; [by apply product_sign|]. exists mid. split; [done|].
    pose proof (within_cap _ _ _ (dmul_fits _ _) Hpos E) as Hb. pose proof (Qabs_nonneg (dval (dmul ss scale))).
    change (qpow down 3) with (down * qpow down 2)%Q. set (a := Qabs (dval (dmul ss scale))) in *.
    assert (a * (qpow down 2 * dval mid) <= a * dval cp)%Q by (rewrite !(Qmult_comm a); apply Qmult_le_compat_r; lra).
    assert (down * (a * (qpow down 2 * dval mid)) <= down * (a * dval cp))%Q by (apply Qmult_le_l; lra). nra.
Qed.

(** * All targets *)

Definition all_targets (allow deny : list string) (c : Q) (targets : dict Position) : Prop :=
  NoDup (dict_keys targets) /\ Forall (target_ok allow deny c) targets.

Lemma dict_set_Forall {V} (P : string * V -> Prop) k v d : P (k, v) -> Forall P d -> Forall P (dict_set k v d).
Proof. rewrite !list.Forall_forall. intros Hk Hd [k' v'] [->|H]%dict_set_in; auto. Qed.

Lemma copied_leverage_spec market meta l r : copied_leverage risk market meta l = inr r ->
  forall lv, r = Some lv -> lv <= CopyEngine.max_leverage risk /\ forall limit, am_max_leverage meta = Some limit -> lv <= limit.
Proof.
  unfold copied_leverage. destruct l as [l|]; [|by intros [= <-]]. destruct (l <=? 0); [done|]. destruct (am_max_leverage meta) as [limit|].
  - destruct (Z.ltb_spec limit (Z.min l (CopyEngine.max_leverage risk))); [done|]. intros [= <-] lv [= <-]. split; [lia|]. intros limit' [= <-]. lia.
  - intros [= <-] lv [= <-]. split; [lia|done].
Qed.

Lemma source_step_ok allow deny scale now acc cp : sane -> (0 < dval scale)%Q -> cp ∈ sources -> all_targets allow deny up acc.1 ->
  exists acc', source_step risk asset_meta mids allow deny scale now acc cp = Ok acc' /\ all_targets allow deny up acc'.1.
Proof.
  intros Hs Hsc Hin Hacc. pose proof Hacc as [Hnd Hall]. destruct cp as [raw src]. unfold source_step, block. cbn [fst snd].
  destruct (canonical_market_symbol (JStr raw)) as [market|e] eqn:Em.
  2: { apply canonical_raises in Em. destruct e; try done. eexists. by split. }
  destruct (bool_decide (market ∈ deny)) eqn:Edeny; [eexists; by split|].
  destruct (bool_decide _ && negb _) eqn:Eallow; [eexists; by split|].
  destruct (dict_get market asset_meta) as [meta|] eqn:Emeta; [|eexists; by split].
  destruct (positive_mid_of mids market) as [mid|] eqn:Emid; [|eexists; by split].
  destruct (pos_size src) as [ss| |] eqn:Ess; [|eexists; by split..].
  destruct (negb (is_finite_opt _)); [by eexists|]. destruct (copied_leverage _ _ _ _) as [why|lv] eqn:Elv; [eexists; by split|].
  destruct (capped_target_ok raw market mid ss scale Hs Em Emid Hsc) as (t & -> & Hf & Hsign & Hcap). cbn [mbind res_bind].
  eexists. split; [done|]. cbn [fst]. split; [by apply dict_set_NoDup|]. apply dict_set_Forall; [|done].
  split; [done|]. split; [|split; [|by split]].
  - split; [by apply bool_decide_eq_false in Edeny|]. intros E. rewrite E in Eallow. by apply negb_false_iff, bool_decide_eq_true in Eallow.
  - exists raw, src, ss, meta. split_and!; try done. exact (copied_leverage_spec market meta (pos_leverage src) lv Elv).
Qed.

Lemma sources_ok allow deny scale now : sane -> (0 < dval scale)%Q ->
  exists targets blockers, fold_res (source_step risk asset_meta mids allow deny scale now) sources ([], []) = Ok (targets, blockers) /\
    all_targets allow deny up targets.
Proof.
  intros Hs Hsc. destruct (fold_res_good (fun acc => all_targets allow deny up acc.1) (source_step risk asset_meta mids allow deny scale now) sources ([], []))
    as ([targets blockers] & H1 & H2).
  - intros acc cp Hin Hacc. by apply source_step_ok.
  - split; constructor.
  - by exists targets, blockers.
Qed.

(** ** Gross, margin and scaling *)

Lemma gross_total allow deny c targets : Forall (target_ok allow deny c) targets -> exists g, gross_notional mids targets = Ok g.
Proof.
  intros Hall. destruct (fold_res_good (fun _ => True) (gross_step mids) targets dzero) as (g & H & _); [|done|by exists g].
  intros acc cp Hin _. unfold gross_step. destruct (dis_zero _); [by eexists|]. rewrite list.Forall_forall in Hall.
  rewrite (target_canonical _ _ _ _ (Hall _ Hin)). cbn [mbind res_bind]. destruct (positive_mid_of mids cp.1); by eexists.
Qed.

Lemma margin_total allow deny c targets : Forall (target_ok allow deny c) targets -> exists m, initial_margin_requirement mids targets = Ok m.
Proof.
  intros Hall. destruct (fold_res_good (fun _ => True) (margin_step mids) targets (inr dzero)) as (g & H & _); [|done|by exists g].
  intros acc cp Hin _. unfold margin_step. destruct acc as [why|margin]; [by eexists|]. destruct (dis_zero _); [by eexists|].
  rewrite list.Forall_forall in Hall. rewrite (target_canonical _ _ _ _ (Hall _ Hin)). cbn [mbind res_bind].
  destruct (pos_leverage cp.2) as [l|]; [|by eexists]. destruct (Z.leb_spec l 0) as [|Hl]; [by eexists|].
  destruct (positive_mid_of mids cp.1) as [mid|]; [|by eexists].
  destruct (ddiv_pos_ok (dmul (dabs (pos_size cp.2)) mid) (dint l)) as [m ->]; [|by eexists].
  rewrite dval_int. change 0%Q with (inject_Z 0). by rewrite <- Zlt_Qlt.
Qed.

(** A position of the same market that is at most larger by rounding. *)
Definition shrunk (before after : string * Position) : Prop :=
  after.1 = before.1 /\ (Qabs (dval (pos_size after.2)) <= up * (Qabs (dval (pos_size before.2)) * up))%Q.

Lemma scale_target_ok allow deny c k cp : (0 <= c)%Q -> sane -> (0 <= dval k <= up)%Q -> target_ok allow deny c cp ->
  exists size, (if dis_zero (pos_size cp.2) then pos_size cp.2 else dmul (pos_size cp.2) k) = size /\
    let cp' := (cp.1, MkPosition cp.1 size (pos_entry_px cp.2) (pos_leverage cp.2) (pos_updated_ms cp.2)) in
    shrunk cp cp' /\ target_ok allow deny (up * (up * c)) cp'.
Proof.
  intros Hc Hs Hk (Hcoin & Hperm & (raw & src & ss & meta & Hsrc & Hraw & Hss & Hsign & Hmeta & Hlev) & (mid & Hmid & Hcap) & Hf).
  set (size := if dis_zero _ then _ else _). exists size. split; [done|]. intros cp'.
  assert (Qabs (dval size) <= up * (Qabs (dval (pos_size cp.2)) * up))%Q as Hle.
  { unfold size. destruct (dis_zero _); [|by apply product_abs]. pose proof (Qabs_nonneg (dval (pos_size cp.2))). destruct up_down as (_ & _ & ?). nra. }
  assert (0 <= dval ss * dval size)%Q as Hsg.
  { unfold size. destruct (dis_zero _); [done|]. destruct (dmul_sign (pos_size cp.2) k) as (S1 & S2 & S3).
    destruct (Q_dec (dval ss) 0) as [[H|H]|H]; [| |rewrite H; lra].
    - destruct (Qlt_le_dec 0 (dval (dmul (pos_size cp.2) k))) as [P|P]; [|nra]. apply S1 in P. nra.
    - destruct (Qlt_le_dec (dval (dmul (pos_size cp.2) k)) 0) as [P|P]; [|nra]. apply S2 in P. nra. }
  split; [by split|]. split; [done|]. split; [done|]. split; [by exists raw, src, ss, meta|]. split.
  - exists mid. split; [done|]. cbn [snd pos_size cp']. apply positive_mid_spec in Hmid as [_ Hm]. destruct (down_pow 3) as [D0 D1].
    destruct up_down as (_ & _ & Hu). set (a := Qabs (dval (pos_size cp.2))) in *. 
    assert (qpow down 3 * (Qabs (dval size) * dval mid) <= qpow down 3 * (up * (a * up) * dval mid))%Q as H1
      by (apply Qmult_le_l; [done|]; apply Qmult_le_compat_r; lra).
    assert (up * up * (qpow down 3 * (a * dval mid)) <= up * up * (c * dval (max_notional_usd risk)))%Q as H2 by (apply Qmult_le_l; [nra|done]).
    eapply Qle_trans; [exact H1|]. lra.
  - cbn [snd pos_size cp']. unfold size. destruct (dis_zero _); [done|apply dmul_fits].
Qed.

Lemma target_weaken allow deny c c' cp : sane -> (c <= c')%Q -> target_ok allow deny c cp -> target_ok allow deny c' cp.
Proof.
  intros Hs Hc (H1 & H2 & H3 & (mid & Hmid & Hcap) & Hf). split_and!; try done. exists mid. split; [done|].
  eapply Qle_trans; [exact Hcap|]. apply Qmult_le_compat_r; [done|by apply sane_notional].
Qed.

(** Every target comes from one of [before], at most larger by rounding. *)
Definition all_shrunk (before after : dict Position) : Prop := forall cp, cp ∈ after -> exists cp0, cp0 ∈ before /\ shrunk cp0 cp.

Lemma shrunk_same cp : shrunk cp cp.
Proof. split; [done|]. destruct up_down as (_ & _ & H). pose proof (Qabs_nonneg (dval (pos_size cp.2))). nra. Qed.

Lemma all_shrunk_same t : all_shrunk t t.
Proof. intros cp H. exists cp. split; [done|apply shrunk_same]. Qed.

Lemma scale_targets_ok allow deny c k positions : (0 <= c)%Q -> sane -> (0 <= dval k <= up)%Q -> all_targets allow deny c positions ->
  exists scaled, scale_targets asset_meta mids k positions = Ok scaled /\ all_targets allow deny (up * (up * c)) scaled /\ all_shrunk positions scaled.
Proof.
  intros Hc Hs Hk [Hnd Hall]. destruct (fold_res_good (fun acc => all_targets allow deny (up * (up * c)) acc /\ all_shrunk positions acc)
    (scale_step asset_meta mids k) positions []) as (scaled & H1 & H2); [|split; [by split; constructor|by intros ? ?%elem_of_nil]|by exists scaled].
  intros acc cp Hin ([Hn Ha] & Hsh). rewrite list.Forall_forall in Hall. pose proof (Hall _ Hin) as Hok. unfold scale_step.
  rewrite (target_canonical _ _ _ _ Hok). cbn [mbind res_bind]. destruct (scale_target_ok allow deny c k cp Hc Hs Hk Hok) as (size & Hsize & Hsh' & Hok').
  pose proof Hok as (_ & _ & (_ & _ & _ & meta & _ & _ & _ & _ & Hmeta & _) & (mid & Hmid & _) & _). rewrite Hmeta, Hmid, Hsize.
  eexists. split; [done|]. split; [split; [by apply dict_set_NoDup|by apply dict_set_Forall]|].
  intros [m p] [[= -> ->]|H]%dict_set_in; [exists cp; split; [exact Hin|exact Hsh']|exact (Hsh _ H)].
Qed.

Lemma within_gross_ok allow deny targets g : sane -> all_targets allow deny up targets -> gross_notional mids targets = Ok g ->
  exists inside g' ks, within_gross risk asset_meta mids targets g = Ok (inside, g', ks) /\ all_targets allow deny (qpow up 3) inside /\
    gross_notional mids inside = Ok g'.
Proof.
  intros Hs Hall Hg. destruct up_down as (_ & _ & Hu). assert (up <= qpow up 3)%Q as H3 by (cbn [qpow]; nra).
  assert (all_targets allow deny (qpow up 3) targets) as Hall3.
  { destruct Hall as [Hn Ha]. split; [done|]. eapply list.Forall_impl; [exact Ha|]. intros cp. by apply target_weaken. }
  unfold within_gross. destruct (dltb _ g) eqn:E; cbn [negb]; [|by exists targets, g, None]. apply dltb_spec in E. pose proof (sane_gross Hs).
  destruct (dleb g dzero) eqn:E0; [by exists targets, g, (Some (dint 1))|].
  destruct (part_of (max_gross_exposure_usd risk) g) as (k & -> & Hk); [done|done|]. cbn [mbind res_bind].
  destruct (scale_targets_ok allow deny up k targets (Qle_trans 0 1 up ltac:(done) Hu) Hs Hk Hall) as (scaled & Hscaled & Hall' & _).
  rewrite Hscaled. cbn [mbind res_bind].
  destruct (gross_total allow deny _ scaled (proj2 Hall')) as [g' Hg']. rewrite Hg'. cbn [mbind res_bind]. exists scaled, g', (Some k).
  split; [done|]. split; [|done]. destruct Hall' as [Hn Ha]. split; [done|]. eapply list.Forall_impl; [exact Ha|]. intros cp. apply target_weaken; [done|].
  cbn [qpow]. lra.
Qed.

(** Where a margin budget is set, it holds for the targets. *)
Definition margin_kept (follower_account_value : option pydec) (targets : dict Position) : Prop :=
  forall u, max_initial_margin_utilization risk = Some u ->
    exists equity utilization m, follower_account_value = Some (Fin equity) /\ u = Fin utilization /\ (0 < dval equity)%Q /\
      (0 < dval utilization <= 1)%Q /\ initial_margin_requirement mids targets = Ok (inr m) /\ (dval m <= dval (dmul equity utilization))%Q.

(** What a step that may refuse everything leaves. *)
Definition budgeted (allow deny : list string) (fv : option pydec) (before : dict Position) (r : dict Position * option string * Sizing) : Prop :=
  let '(after, why, _) := r in
  all_targets allow deny (qpow up 5) after /\ all_shrunk before after /\ (why = None -> margin_kept fv after).

Lemma refused_ok allow deny fv before why s : budgeted allow deny fv before ([], Some why, s).
Proof. split; [split; constructor|]. split; [by intros ? ?%elem_of_nil|done]. Qed.

Lemma widen_targets allow deny positions : sane -> all_targets allow deny (qpow up 3) positions -> all_targets allow deny (qpow up 5) positions.
Proof.
  intros Hs [Hn Ha]. split; [done|]. eapply list.Forall_impl; [exact Ha|]. intros cp. apply target_weaken; [done|]. apply qpow_up_mono. lia.
Qed.

Lemma within_margin_ok allow deny positions s equity utilization required : sane -> all_targets allow deny (qpow up 3) positions ->
  (0 < dval equity)%Q -> (0 < dval utilization <= 1)%Q -> max_initial_margin_utilization risk = Some (Fin utilization) ->
  initial_margin_requirement mids positions = Ok (inr required) ->
  exists r, within_margin asset_meta mids positions s equity (dmul equity utilization) required = Ok r /\ budgeted allow deny (Some (Fin equity)) positions r.
Proof.
  intros Hs Hall He Hu Hset Hreq. set (budget := dmul equity utilization).
  assert (0 < dval budget)%Q as Hb by (apply dmul_sign; nra). unfold within_margin.
  destruct (ddiv_pos_ok required equity He) as [used ->]. cbn [mbind res_bind].
  destruct (dleb required budget) eqn:E.
  - eexists. split; [done|]. split; [by apply widen_targets|]. split; [apply all_shrunk_same|]. intros _ u Hu'. rewrite Hset in Hu'. injection Hu' as <-.
    apply dleb_spec in E. by exists equity, utilization, required.
  - apply dleb_false in E. destruct (part_of budget required) as (k & -> & Hk); [lra|done|]. cbn [mbind res_bind].
    assert (0 <= qpow up 3)%Q as H0 by (destruct up_down as (_ & _ & ?); apply Qlt_le_weak, qpow_pos; lra).
    destruct (scale_targets_ok allow deny (qpow up 3) k positions H0 Hs Hk Hall) as (scaled & Hscaled & Hall' & Hsh).
    rewrite Hscaled. cbn [mbind res_bind]. destruct (margin_total allow deny _ scaled (proj2 Hall')) as [[why|final] Hm]; rewrite Hm; cbn [mbind res_bind].
    + eexists. split; [done|apply refused_ok].
    + destruct (ddiv_pos_ok final equity He) as [used' ->]. cbn [mbind res_bind].
      destruct (dltb budget final) eqn:E'; [eexists; split; [done|apply refused_ok]|]. apply dltb_false in E'. eexists. split; [done|].
      split; [exact Hall'|]. split; [done|]. intros _ u Hu'. rewrite Hset in Hu'. injection Hu' as <-. by exists equity, utilization, final.
Qed.

Lemma margin_budget_ok allow deny positions fv s : sane -> all_targets allow deny (qpow up 3) positions ->
  exists r, apply_initial_margin_budget risk asset_meta mids positions fv s = Ok r /\ budgeted allow deny fv positions r.
Proof.
  intros Hs Hall. unfold apply_initial_margin_budget. destruct (max_initial_margin_utilization risk) as [u|] eqn:Eset.
  2: { eexists. split; [done|]. split; [by apply widen_targets|]. split; [apply all_shrunk_same|]. intros _ u Hu. congruence. }
  destruct (utilization_of u) as [utilization|] eqn:Eu; [|eexists; split; [done|apply refused_ok]].
  unfold utilization_of in Eu. destruct (finite_positive u) as [d|] eqn:Ef; [|done]. destruct (dleb d (dint 1)) eqn:E1; [|done]. injection Eu as ->.
  apply finite_positive_spec in Ef as [-> Hpos]. apply dleb_spec in E1. rewrite dval_int in E1.
  destruct (fv ≫= finite_positive) as [equity|] eqn:Ee; [|eexists; split; [done|apply refused_ok]].
  apply bind_Some in Ee as (x & -> & [-> He]%finite_positive_spec).
  destruct (margin_total allow deny _ positions (proj2 Hall)) as [[why|required] Hm]; rewrite Hm; cbn [mbind res_bind].
  - eexists. split; [done|apply refused_ok].
  - by apply within_margin_ok.
Qed.

(** ** The scale *)

Lemma effective_scale_ok sv fv : exists scale s, effective_scale_of risk mode sv fv = Ok (scale, s) /\
  match scale with Some d => (0 < dval d)%Q | None => is_Some (blocker s) end.
Proof.
  unfold effective_scale_of, blocked_sizing. destruct (finite_positive (fixed_multiplier risk)) as [base|] eqn:Eb; [|eexists _, _; split; [done|by eexists]].
  apply finite_positive_spec in Eb as [_ Hb].
  match goal with |- context [if ?b then Ok (None, _) else _] => destruct b end; [eexists _, _; split; [done|by eexists]|].
  destruct (equity_ratio risk) as [ratio|].
  { destruct (finite_positive ratio) eqn:Er; [|eexists _, _; split; [done|by eexists]]. apply finite_positive_spec in Er as [_ Hr]. by eexists _, _. }
  destruct (negb _); [by eexists _, _|]. unfold both_values.
  destruct (sv ≫= finite_positive) as [src|] eqn:Es; [apply bind_Some in Es as (x & -> & [-> Hs]%finite_positive_spec)|]; cbn [mbind option_bind].
  2: { destruct (bool_decide _); eexists _, _; (split; [done|]); [by eexists|done]. }
  destruct (fv ≫= finite_positive) as [fol|]; cbn [mbind option_bind].
  2: { destruct (bool_decide _); eexists _, _; (split; [done|]); [by eexists|done]. }
  unfold balance_scaled, blocked_sizing. destruct (finite_positive (max_balance_scale risk)) as [limit|]; [|eexists _, _; split; [done|by eexists]].
  cbn [fst snd]. match goal with |- context [ddiv ?a ?b] => destruct (ddiv_pos_ok a b) as [raw ->] end; [done|]. cbn [mbind res_bind].
  destruct (dpos (dmul base (dmin raw limit))) eqn:Ep; eexists _, _; (split; [done|]); [by apply dpos_spec|by eexists].
Qed.

(** ** The target state *)

Lemma build_ok sv fv now : sane ->
  Forall (fun s => is_ok (canonical_market_symbol (JStr s)) = true) (allowed_symbols risk ++ denied_symbols risk) ->
  exists allow deny targets blockers s,
    map_res (fun s => canonical_market_symbol (JStr s)) (allowed_symbols risk) = Ok allow /\
    map_res (fun s => canonical_market_symbol (JStr s)) (denied_symbols risk) = Ok deny /\
    build_target_state risk mode asset_meta mids sources sv fv now = Ok (targets, blockers, s) /\
    all_targets allow deny (qpow up 5) targets /\
    (blockers = [] -> margin_kept fv targets /\
       exists inside g, gross_notional mids inside = Ok g /\ (dval g <= dval (max_gross_exposure_usd risk))%Q /\
         NoDup (dict_keys inside) /\ all_shrunk inside targets).
Proof.
  intros Hs H. assert (forall l, (forall x, x ∈ l -> x ∈ allowed_symbols risk ++ denied_symbols risk) ->
    exists r, map_res (fun s => canonical_market_symbol (JStr s)) l = Ok r) as Hmap.
  { intros l Hl. apply map_res_total. intros x Hx. apply is_ok_spec. rewrite list.Forall_forall in H. by apply H, Hl. }
  destruct (Hmap (allowed_symbols risk)) as [allow Hallow]; [intros; apply elem_of_app; by left|].
  destruct (Hmap (denied_symbols risk)) as [deny Hdeny]; [intros; apply elem_of_app; by right|].
  exists allow, deny. unfold build_target_state. rewrite Hallow, Hdeny. cbn [mbind res_bind].
  destruct (effective_scale_ok sv fv) as (scale & s & -> & Hscale). cbn [mbind res_bind]. destruct scale as [scale|].
  2: { eexists _, _, _. split_and!; [done..|split; constructor|done]. }
  destruct (sources_ok allow deny scale now Hs Hscale) as (targets & blockers & -> & Hall). cbn [mbind res_bind].
  destruct (gross_total allow deny _ targets (proj2 Hall)) as [g Hg]. rewrite Hg. cbn [mbind res_bind].
  destruct (within_gross_ok allow deny targets g Hs Hall Hg) as (inside & g' & ks & -> & Hin & Hg'). cbn [mbind res_bind].
  destruct (margin_budget_ok allow deny inside fv s Hs Hin) as ([[final why] s'] & -> & Hfin & Hsh & Hkept). cbn [mbind res_bind].
  destruct (gross_total allow deny _ final (proj2 Hfin)) as [g'' ->]. cbn [mbind res_bind]. eexists _, _, _.
  split_and!; [done..|]. intros Hempty. apply app_eq_nil in Hempty as [Hb Hw]. apply app_eq_nil in Hb as [_ Hb].
  destruct why; [done|]. split; [by apply Hkept|]. exists inside, g'. split; [done|]. split; [|by destruct Hin].
  destruct (dltb (max_gross_exposure_usd risk) g') eqn:E; [done|]. by apply dltb_false in E.
Qed.
End Targets.

(** * The two properties of the engine *)

(** C33. The engine always answers with targets inside its policy.  With caps that are not
    negative and readable market names in the settings, [build_target_state] returns for any
    source book, prices and balances: one target per market, each of a permitted market, with
    the sign of a source position of that market, a leverage inside the own and the exchange's
    limit, and a notional inside the cap for one position but for the rounding of 28-digit
    arithmetic.  When it reports no blocker, the margin that the targets require is exactly
    inside the margin budget that is set, and the targets are at most those of a book whose
    gross is inside the gross cap. *)
Theorem copy_targets_bounded risk mode asset_meta mids sources sv fv now :
  sane risk ->
  Forall (fun s => is_ok (canonical_market_symbol (JStr s)) = true) (allowed_symbols risk ++ denied_symbols risk) ->
  exists allow deny targets blockers s,
    map_res (fun s => canonical_market_symbol (JStr s)) (allowed_symbols risk) = Ok allow /\
    map_res (fun s => canonical_market_symbol (JStr s)) (denied_symbols risk) = Ok deny /\
    build_target_state risk mode asset_meta mids sources sv fv now = Ok (targets, blockers, s) /\
    all_targets risk asset_meta mids sources allow deny (qpow up 5) targets /\
    (blockers = [] -> margin_kept risk mids fv targets /\
       exists inside g, gross_notional mids inside = Ok g /\ (dval g <= dval (max_gross_exposure_usd risk))%Q /\
         NoDup (dict_keys inside) /\ all_shrunk inside targets).
Proof. apply build_ok. Qed.

Lemma target_size_fits risk asset_meta mids sources allow deny c targets coin :
  all_targets risk asset_meta mids sources allow deny c targets -> fits (target_size coin targets).
Proof.
  intros [_ Hall]. unfold target_size. destruct (dict_get coin targets) as [p|] eqn:E; [|apply N.leb_le; reflexivity].
  apply dict_get_Some_in in E. rewrite list.Forall_forall in Hall. by destruct (Hall _ E) as (_ & _ & _ & _ & ?).
Qed.

(** C23. The orders of a plan move every market towards its target without overshooting.  They
    are those of the markets of both books in order, and in each market either none, a record
    why none was made, a reduction that does not cross zero, an order away from zero, or a
    full close followed by the opening of the whole target on the other side; every order that
    will be sent has a positive size and a valid limit price inside the slippage envelope
    around a positive mid. *)
Theorem copy_orders_safe blake2s risk mode account version asset_meta mids key sources follower sv fv now r :
  sane risk ->
  Forall (fun s => is_ok (canonical_market_symbol (JStr s)) = true) (allowed_symbols risk ++ denied_symbols risk) ->
  (forall coin current, current_size coin follower = Fin current -> fits current) ->
  plan blake2s risk mode account version asset_meta mids key sources follower sv fv now = Ok r ->
  exists targets blockers s why groups,
    build_target_state risk mode asset_meta mids sources sv fv now = Ok (targets, blockers, s) /\
    ds_positions (desired_state r) = targets /\ CopyEngine.blockers r = blockers ++ why /\
    intents r = concat groups /\
    Forall2 (orders_of risk asset_meta mids targets follower) (all_coins targets follower) groups.
Proof.
  intros Hs Hnames Hf. destruct (build_ok risk mode asset_meta mids sources sv fv now Hs Hnames) as (allow & deny & targets & bs & s & _ & _ & Hb & Hall & _).
  unfold plan. rewrite Hb. cbn [mbind res_bind]. intros (stable & _ & H)%bind_Ok. apply bind_Ok in H as ([l why] & Hl & [= <-]).
  apply coins_orders in Hl as (groups & Hg & HF); [| |exact Hf].
  - exists targets, bs, s, why, groups. split; [done|]. split; [done|]. split; [done|]. split; [exact Hg|exact HF].
  - intros coin. by apply (target_size_fits _ _ _ _ _ _ _ _ coin Hall).
Qed.
