(* ===== verification/CopyExample.v ===== *)
(** The copy engine of the older service on one book: a flip, a reduction, an entry on a
    builder DEX, a position that is left and a market that is denied. *)

From S2P Require Import Prelude PyDecimal DecimalFacts PyText Models Precision Markets DesiredFacts CopyEngine CopyFacts CopyTargets.
From Stdlib Require Import QArith.

Open Scope Z_scope.

Definition example_risk : RiskConfig :=
  MkRisk ["BTC"; "ETH"; "xyz:GOLD"] ALLOWLIST ["DOGE"] (Fin (dint 1)) (Some (Fin (Dec false 5 (-1)))) true None
    (Some (Fin (Dec false 4 (-1)))) (Fin (dint 5)) (dint 600) (dint 1000) 3 (Dec false 1 (-3)) (dint 20) (dint 50) (dint 100).

Definition example_meta : dict AssetMeta :=
  [("BTC", MkMeta "BTC" 5 (Some 40)); ("ETH", MkMeta "ETH" 4 (Some 25)); ("SOL", MkMeta "SOL" 2 (Some 20)); ("xyz:GOLD", MkMeta "xyz:GOLD" 3 (Some 5))].

Definition example_mids : dict pydec := [("BTC", Fin (dint 50000)); ("ETH", Fin (dint 2000)); ("SOL", Fin (dint 100)); ("xyz:GOLD", Fin (dint 80))].

Definition held (coin : string) (size : dec) (leverage : Z) : string * RawPosition := (coin, MkPosition coin (Fin size) None (Some leverage) 7).

Definition example_sources : dict RawPosition :=
  [held "btc" (Dec false 2 (-2)) 10; held "ETH" (Dec true 4 (-1)) 2; held "xyz:GOLD" (dint 100) 5; held "DOGE" (dint 1000) 1; held "a:b:c" (dint 1) 1].

Definition example_follower : dict RawPosition := [held "BTC" (Dec true 1 (-3)) 3; held "ETH" (Dec true 9 (-1)) 2; held "SOL" (dint 2) 2].

Definition example_value : option pydec := Some (Fin (dint 900)).

Definition example_plan : res CopyResult :=
  plan (fun _ => "00") example_risk TESTNET "0xf" "copy-v1" example_meta example_mids "event" example_sources example_follower None example_value 9.

Lemma example_sane : sane example_risk.
Proof. split; apply Qle_bool_iff; vm_compute; reflexivity. Qed.

Definition order_line (i : FollowerIntent) : IntentAction * string * string * string * string :=
  (fi_action i, fi_coin i, fi_side i, dec_str (fi_size i), match fi_price i with Some d => dec_str d | None => "" end).


Lemma example_names : Forall (fun s => is_ok (canonical_market_symbol (JStr s)) = true) (allowed_symbols example_risk ++ denied_symbols example_risk).
Proof. repeat constructor. Qed.

(** The book without the unreadable market: nothing blocks it, and its margin is scaled. *)
Definition clean_sources : dict RawPosition := take 4 example_sources.

Definition state_lines (r : dict Position * list string * Sizing) : list string * list string * string :=
  ((fun cp => dec_str (pos_size cp.2)) <$> r.1.1, r.1.2, initial_margin_budget_status r.2).

Definition example_targets : res (list string * list string * string) :=
  state_lines <$> build_target_state example_risk TESTNET example_meta example_mids clean_sources None example_value 9.

Lemma copy_targets_bounded_witness :
  example_targets = Ok (["0.006375219170075978959672706020"; "-0.1275043834015195791934541204"; "4.734073641145528930450029223"], [], "scaled") /\
  exists allow deny targets s,
    map_res (fun s => canonical_market_symbol (JStr s)) (allowed_symbols example_risk) = Ok allow /\
    map_res (fun s => canonical_market_symbol (JStr s)) (denied_symbols example_risk) = Ok deny /\
    build_target_state example_risk TESTNET example_meta example_mids clean_sources None example_value 9 = Ok (targets, [], s) /\
    all_targets example_risk example_meta example_mids clean_sources allow deny (qpow up 5) targets /\
    margin_kept example_risk example_mids example_value targets /\
    exists inside g, gross_notional example_mids inside = Ok g /\ (dval g <= dval (max_gross_exposure_usd example_risk))%Q /\
      NoDup (dict_keys inside) /\ all_shrunk inside targets.
Proof.
  split; [vm_compute; reflexivity|].
  destruct (copy_targets_bounded example_risk TESTNET example_meta example_mids clean_sources None example_value 9 example_sane example_names)
    as (allow & deny & targets & blockers & s & Ha & Hd & Hb & Hall & Hfree).
  assert (example_targets = Ok (state_lines (targets, blockers, s))) as H by (unfold example_targets; by rewrite Hb).
  assert (blockers = []) as E.
  { apply (f_equal (fun r => match r with Ok x => x.1.2 | Raise _ => [] end)) in H. symmetry. vm_cast_no_check H. }
  exists allow, deny, targets, s. rewrite E in Hb. destruct (Hfree E) as [Hm Hg].
  exact (conj Ha (conj Hd (conj Hb (conj Hall (conj Hm Hg))))).
Defined.

Lemma follower_fits coin current : current_size coin example_follower = Fin current -> fits current.
Proof.
  unfold current_size, example_follower, held. cbn [dict_get]. repeat (case_decide; [intros [= <-]; apply N.leb_le; reflexivity|]).
  intros [= <-]. apply N.leb_le; reflexivity.
Qed.

Definition plan_lines (r : CopyResult) : list (IntentAction * string * string * string * string) := order_line <$> intents r.

Lemma copy_orders_safe_witness :
  plan_lines <$> example_plan =
    Ok [(CLOSE, "BTC", "buy", "0.001", "50250"); (OPEN, "BTC", "buy", "0.006375219170075978959672706020", "50100");
        (REDUCE, "ETH", "buy", "0.7724", "2010.0"); (REDUCE, "SOL", "sell", "2.00", "99.500"); (OPEN, "xyz:GOLD", "buy", "4.734", "80.160")] /\
  exists r targets blockers s why groups,
    example_plan = Ok r /\
    build_target_state example_risk TESTNET example_meta example_mids example_sources None example_value 9 = Ok (targets, blockers, s) /\
    ds_positions (desired_state r) = targets /\ CopyEngine.blockers r = blockers ++ why /\ intents r = concat groups /\
    Forall2 (orders_of example_risk example_meta example_mids targets example_follower) (all_coins targets example_follower) groups.
Proof.
  split; [vm_compute; reflexivity|]. destruct example_plan as [r|] eqn:E; [|vm_compute in E; discriminate E].
  destruct (copy_orders_safe _ _ _ _ _ _ _ _ _ _ _ _ _ r example_sane example_names follower_fits E) as (targets & bs & s & why & groups & H).
  exists r, targets, bs, s, why, groups. exact (conj eq_refl H).
Defined.
