(* ===== verification/Liquidity.v ===== *)
(** liquidity.py: order-book snapshots of the older service and the quotes that admit an
    order by the depth it finds inside an envelope around the oracle price.

    The numbers of a snapshot are finite, as its parser leaves them; what a caller passes
    is [pydec] where the code tests [is_finite].  The payload dictionaries of the quotes
    are left out. *)

From S2P Require Import Prelude PyDecimal PyText Models Precision Markets.

Open Scope Z_scope.

Record BookLevel := MkLevel { lv_price : dec; lv_size : dec }.

Record MarketLiquiditySnapshot := MkSnapshot {
  sn_coin : string;
  sn_observed_ms : Z;
  sn_book_time_ms : Z;
  sn_oracle_px : dec;
  sn_mark_px : option dec;
  sn_mid_px : option dec;
  sn_bids : list BookLevel;
  sn_asks : list BookLevel;
}.

Record RoundTripQuote := MkRoundTrip {
  rt_coin : string;
  opening_side : string;
  rt_requested_size : dec;
  rt_observed_ms : Z;
  rt_book_time_ms : Z;
  rt_oracle_px : dec;
  rt_mark_px : option dec;
  entry_limit : dec;
  exit_limit : dec;
  entry_visible_size : dec;
  exit_visible_size : dec;
  entry_best_px : dec;
  entry_worst_px : dec;
  exit_worst_px : dec;
  entry_notional_bound_px : dec;
  rt_oracle_envelope_bps : dec;
}.

Record RoundTripAssessment := MkAssessment {
  quote : option RoundTripQuote;
  ra_blockers : list string;
  retryable_liquidity : bool;
  entry_depth_shortfall : bool;
  exit_depth_shortfall : bool;
  ra_entry_visible : option dec;
  ra_exit_visible : option dec;
}.

Record ReduceOnlyQuote := MkReduce {
  rq_coin : string;
  rq_side : string;
  rq_requested_size : dec;
  rq_observed_ms : Z;
  rq_book_time_ms : Z;
  rq_oracle_px : dec;
  rq_mark_px : option dec;
  limit_price : dec;
  rq_visible_size : dec;
  rq_worst_px : dec;
  rq_oracle_envelope_bps : dec;
}.

Record DepthExecutionQuote := MkDepthQuote {
  dq_coin : string;
  dq_side : string;
  dq_requested_size : dec;
  filled_size : dec;
  sufficient : bool;
  expected_vwap : option dec;
  dq_best_px : option dec;
  dq_worst_px : option dec;
  rounded_limit_px : option dec;
  dq_visible_size : dec;
  dq_book_time_ms : Z;
  dq_observed_ms : Z;
}.

(** * Reading a snapshot *)

Definition book_error {A} (msg : string) : res A := Raise (ValueError msg).

(** [_positive_decimal]: [parse_decimal] only returns finite numbers. *)
Definition positive_number (value : json) (label : string) : res dec :=
  parsed ← parse_decimal value;
  if dleb parsed dzero then book_error (label +:+ " must be finite and positive") else Ok parsed.

(** [_optional_positive_decimal]: a list or an object cannot be an element of a set. *)
Definition optional_positive_number (value : json) (label : string) : res (option dec) :=
  match value with
  | JNull | JStr "" => Ok None
  | JList _ | JObj _ => Raise (TypeError "unhashable type")
  | v => Some <$> positive_number v label
  end.

(** [_positive_int] *)
Definition positive_whole (value : json) (label : string) : res Z :=
  parsed ← catch (json_int value) (fun e => match e with TypeError _ => true | _ => is_value_error e end)
             (fun _ => book_error (label +:+ " must be a positive integer"));
  if parsed <=? 0 then book_error (label +:+ " must be a positive integer") else Ok parsed.

Definition parse_level (market side : string) (raw : json) : res BookLevel :=
  match raw with
  | JObj o =>
      price ← positive_number (obj_field "px" o) (market +:+ " " +:+ side +:+ " price");
      size ← positive_number (obj_field "sz" o) (market +:+ " " +:+ side +:+ " size");
      Ok (MkLevel price size)
  | _ => book_error (market +:+ " " +:+ side +:+ " level has an invalid shape")
  end.

(** [a == b] for two lists of decimals *)
Fixpoint same_numbers (a b : list dec) : bool :=
  match a, b with
  | [], [] => true
  | x :: a, y :: b => deqb x y && same_numbers a b
  | _, _ => false
  end.

(** [sorted(prices, reverse=reverse)] *)
Definition sorted_prices (descending : bool) (prices : list dec) : list dec :=
  py_sorted (fun a b => if descending then dleb b a else dleb a b) prices.

(** [_parse_levels] *)
Definition parse_levels (raw_levels : json) (market side : string) (descending : bool) : res (list BookLevel) :=
  match raw_levels with
  | JList l =>
      levels ← map_res (parse_level market side) l;
      if same_numbers (lv_price <$> levels) (sorted_prices descending (lv_price <$> levels)) then Ok levels
      else book_error (market +:+ " " +:+ side +:+ " levels are not price ordered")
  | _ => book_error (market +:+ " " +:+ side +:+ " levels have an invalid shape")
  end.

(** The context of the first listed item that is the market. *)
Fixpoint market_context (market dex : string) (universe contexts : list json) : res (option (list (string * json))) :=
  match universe, contexts with
  | item :: universe, context :: contexts =>
      let next := market_context market dex universe contexts in
      match item with
      | JObj o =>
          let raw_name := py_strip (str_or_empty (obj_field "name" o)) in
          if is_empty raw_name then next else
          match qualify_market_symbol (JStr dex) (JStr raw_name) with
          | Raise e => if is_value_error e then next else Raise e
          | Ok candidate =>
              match context with
              | JObj c => if bool_decide (candidate = market) then Ok (Some c) else next
              | _ => next
              end
          end
      | _ => next
      end
  | _, _ => Ok None
  end.

(** The two sides may not cross. *)
Definition crossed (bids asks : list BookLevel) : bool :=
  match bids, asks with b :: _, a :: _ => dleb (lv_price a) (lv_price b) | _, _ => false end.

(** The listed context of the market in an answer to [metaAndAssetCtxs]. *)
Definition context_of (market : string) (meta_and_contexts : json) : res (list (string * json)) :=
  match meta_and_contexts with
  | JList [JObj meta; JList contexts] =>
      match obj_field "universe" meta with
      | JList universe =>
          if negb (List.length universe =? List.length contexts)%nat
          then book_error (market +:+ " metadata and asset contexts are not aligned") else
          dex ← market_dex (JStr market);
          context ← market_context market dex universe contexts;
          match context with Some c => Ok c | None => book_error (market +:+ " is absent from metaAndAssetCtxs") end
      | _ => book_error (market +:+ " metadata and asset contexts are not aligned")
      end
  | _ => book_error (market +:+ " metaAndAssetCtxs response has an invalid shape")
  end.

(** The time and the two sides of an answer to [l2Book]. *)
Definition book_of (market : string) (l2_book : json) : res (Z * list BookLevel * list BookLevel) :=
  match l2_book with
  | JObj o =>
      book_market ← catch (canonical_market_symbol (obj_field "coin" o)) is_value_error
                      (fun _ => book_error (market +:+ " l2Book response has an invalid coin identity"));
      if negb (bool_decide (book_market = market))
      then book_error (market +:+ " l2Book response coin " +:+ book_market +:+ " does not match the requested market") else
      match obj_field "levels" o with
      | JList [raw_bids; raw_asks] =>
          time ← positive_whole (obj_field "time" o) (market +:+ " l2Book time");
          bids ← parse_levels raw_bids market "bid" true;
          asks ← parse_levels raw_asks market "ask" false;
          if crossed bids asks then book_error (market +:+ " l2Book is crossed or locked") else Ok (time, bids, asks)
      | _ => book_error (market +:+ " l2Book response must contain bid and ask levels")
      end
  | _ => book_error (market +:+ " l2Book response has an invalid shape")
  end.

Definition parse_market_liquidity_snapshot (coin : string) (meta_and_contexts l2_book : json) (observed_ms : Z) : res MarketLiquiditySnapshot :=
  market ← canonical_market_symbol (JStr coin);
  context ← context_of market meta_and_contexts;
  oracle_px ← positive_number (obj_field "oraclePx" context) (market +:+ " oraclePx");
  mark_px ← optional_positive_number (obj_field "markPx" context) (market +:+ " markPx");
  mid_px ← optional_positive_number (obj_field "midPx" context) (market +:+ " midPx");
  '(book_time_ms, bids, asks) ← book_of market l2_book;
  Ok (MkSnapshot market observed_ms book_time_ms oracle_px mark_px mid_px bids asks).

(** * Prices that cross *)

(** [_quantize_crossing_price] *)
Definition quantize_crossing_price (price : dec) (side : string) (sz_decimals : Z) : res dec :=
  if negb (bool_decide (side ∈ ["buy"; "sell"])) then book_error "price side must be buy or sell" else
  if dleb price dzero then book_error "price must be finite and positive" else
  let max_decimals := PERP_MAX_DECIMALS - sz_decimals in
  if max_decimals <? 0 then book_error "sz_decimals exceeds exchange price decimal budget" else
  let significant_decimals := Z.max 0 (4 - adjusted price) in
  let decimals := Z.min significant_decimals max_decimals in
  let buy := bool_decide (side = "buy") in
  candidate ← quantize prec_default (if buy then ROUND_CEILING else ROUND_FLOOR) price (dexp (dscale1 (- decimals)));
  normalized ← quantize_price (Fin candidate) sz_decimals false;
  if negb (if buy then dleb price normalized else dleb normalized price)
  then book_error (side +:+ " price cannot be quantized without losing book crossing") else Ok normalized.

(** [_walk_depth] *)
Fixpoint walk_from (visible : dec) (levels : list BookLevel) (requested_size : dec) : option dec * dec :=
  match levels with
  | [] => (None, visible)
  | l :: t =>
      let visible := dadd visible (lv_size l) in
      if dleb requested_size visible then (Some (lv_price l), visible) else walk_from visible t requested_size
  end.
Definition walk_depth : list BookLevel -> dec -> option dec * dec := walk_from dzero.

(** The levels that an order on [side] meets. *)
Definition meets (s : MarketLiquiditySnapshot) (buy : bool) : list BookLevel := if buy then sn_asks s else sn_bids s.

(** [oracle_px] with the envelope below and above it. *)
Definition envelope (s : MarketLiquiditySnapshot) (bps : dec) : res (dec * dec) :=
  distance ← ddiv (dmul (sn_oracle_px s) bps) (dint 10000);
  Ok (dsub (sn_oracle_px s) distance, dadd (sn_oracle_px s) distance).

(** The levels of a leg inside the envelope. *)
Definition inside (buy : bool) (bounds : dec * dec) (levels : list BookLevel) : list BookLevel :=
  List.filter (fun l => if buy then dleb (lv_price l) bounds.2 else dleb bounds.1 (lv_price l)) levels.

Definition within (bounds : dec * dec) (price : dec) : bool := dleb bounds.1 price && dleb price bounds.2.

(** What is wrong with a request, whatever the book. *)
Definition request_blockers (s : MarketLiquiditySnapshot) (side_text size_text side : string) (size bps : pydec) (max_age_ms current_ms : Z) : list string :=
  (if bool_decide (side ∈ ["buy"; "sell"]) then [] else [sn_coin s +:+ " " +:+ side_text +:+ " side must be buy or sell"]) ++
  (if match size with Fin d => dleb d dzero | _ => true end then [sn_coin s +:+ " " +:+ size_text +:+ " size must be finite and positive"] else []) ++
  (if match bps with Fin d => dltb dzero d && dleb d (dint 1000) | _ => false end then []
   else [sn_coin s +:+ " HIP-3 oracle envelope must be in the range (0, 1000] bps"]) ++
  let age_ms := current_ms - sn_book_time_ms s in
  if age_ms <? -1000 then [sn_coin s +:+ " l2Book timestamp is ahead of the local clock"]
  else if max_age_ms <? age_ms
  then [sn_coin s +:+ " l2Book is stale by " +:+ str_of_Z age_ms +:+ "ms (limit " +:+ str_of_Z max_age_ms +:+ "ms)"]
  else [].

Definition side_of (buy : bool) : string := if buy then "buy" else "sell".

(** Too little depth of one leg. *)
Definition shortfall_text (s : MarketLiquiditySnapshot) (visible : dec) (side leg : string) (size bps : dec) : string :=
  sn_coin s +:+ " has only " +:+ dec_str visible +:+ " visible " +:+ side +:+ " " +:+ leg +:+ " depth inside the " +:+ dec_str bps +:+
  "bps oracle envelope; " +:+ dec_str size +:+ " required".

Definition precision_text (s : MarketLiquiditySnapshot) (side leg : string) (bps : dec) : string :=
  sn_coin s +:+ " " +:+ side +:+ " " +:+ leg +:+ " depth cannot be represented at exchange price precision inside the " +:+ dec_str bps +:+
  "bps oracle envelope".

Definition refused (why : list string) : RoundTripAssessment := MkAssessment None why false false false None None.

(** A valid request against the book. *)
Definition assess_depth (s : MarketLiquiditySnapshot) (buy : bool) (size bps : dec) (sz_decimals : Z) : res RoundTripAssessment :=
  bounds ← envelope s bps;
  let entry_levels := inside buy bounds (meets s buy) in
  let exit_levels := inside (negb buy) bounds (meets s (negb buy)) in
  let '(entry_worst, entry_visible) := walk_depth entry_levels size in
  let '(exit_worst, exit_visible) := walk_depth exit_levels size in
  match entry_worst, exit_worst with
  | Some entry_worst, Some exit_worst =>
      best ← match entry_levels with l :: _ => Ok (lv_price l) | [] => Raise (OtherError "IndexError" "tuple index out of range") end;
      entry_limit ← quantize_crossing_price entry_worst (side_of buy) sz_decimals;
      exit_limit ← quantize_crossing_price exit_worst (side_of (negb buy)) sz_decimals;
      let why := (if within bounds entry_limit then [] else [precision_text s (side_of buy) "entry" bps]) ++
                 (if within bounds exit_limit then [] else [precision_text s (side_of (negb buy)) "exit" bps]) in
      if negb (bool_decide (why = [])) then Ok (MkAssessment None why false false false (Some entry_visible) (Some exit_visible)) else
      let bound := dmax (dmax bounds.2 best) entry_worst in
      Ok (MkAssessment
        (Some (MkRoundTrip (sn_coin s) (side_of buy) size (sn_observed_ms s) (sn_book_time_ms s) (sn_oracle_px s) (sn_mark_px s)
                 entry_limit exit_limit entry_visible exit_visible best entry_worst exit_worst bound bps))
        [] false false false (Some entry_visible) (Some exit_visible))
  | _, _ =>
      let entry_short := negb (bool_decide (is_Some entry_worst)) in
      let exit_short := negb (bool_decide (is_Some exit_worst)) in
      Ok (MkAssessment None
        ((if entry_short then [shortfall_text s entry_visible (side_of buy) "entry" size bps] else []) ++
         (if exit_short then [shortfall_text s exit_visible (side_of (negb buy)) "exit" size bps] else []))
        true entry_short exit_short (Some entry_visible) (Some exit_visible))
  end.

Definition assess_round_trip_quote (s : MarketLiquiditySnapshot) (side : string) (size bps : pydec) (max_age_ms sz_decimals current_ms : Z)
    : res RoundTripAssessment :=
  match request_blockers s "opening" "round-trip" side size bps max_age_ms current_ms, size, bps with
  | [], Fin size, Fin bps => assess_depth s (bool_decide (side = "buy")) size bps sz_decimals
  | why, _, _ => Ok (refused why)
  end.

Definition build_round_trip_quote (s : MarketLiquiditySnapshot) (side : string) (size bps : pydec) (max_age_ms sz_decimals current_ms : Z)
    : res (option RoundTripQuote * list string) :=
  assessment ← assess_round_trip_quote s side size bps max_age_ms sz_decimals current_ms;
  Ok (quote assessment, ra_blockers assessment).

Definition reduce_depth (s : MarketLiquiditySnapshot) (buy : bool) (size bps : dec) (sz_decimals : Z) : res (option ReduceOnlyQuote * list string) :=
  bounds ← envelope s bps;
  let '(worst_px, visible) := walk_depth (inside buy bounds (meets s buy)) size in
  match worst_px with
  | None => Ok (None, [shortfall_text s visible (side_of buy) "reduce-only" size bps])
  | Some worst_px =>
      limit_price ← quantize_crossing_price worst_px (side_of buy) sz_decimals;
      if negb (within bounds limit_price) then Ok (None, [precision_text s (side_of buy) "reduce-only" bps]) else
      Ok (Some (MkReduce (sn_coin s) (side_of buy) size (sn_observed_ms s) (sn_book_time_ms s) (sn_oracle_px s) (sn_mark_px s)
                  limit_price visible worst_px bps), [])
  end.

Definition build_reduce_only_quote (s : MarketLiquiditySnapshot) (side : string) (size bps : pydec) (max_age_ms sz_decimals current_ms : Z)
    : res (option ReduceOnlyQuote * list string) :=
  match request_blockers s "reduce-only" "reduce-only" side size bps max_age_ms current_ms, size, bps with
  | [], Fin size, Fin bps => reduce_depth s (bool_decide (side = "buy")) size bps sz_decimals
  | why, _, _ => Ok (None, why)
  end.

(** * The cached-book quote *)

Record DepthWalk := MkWalk { w_remaining : dec; w_filled : dec; w_notional : dec; w_visible : dec; w_worst : option dec }.

Definition depth_step (w : DepthWalk) (l : BookLevel) : DepthWalk :=
  let visible := dadd (w_visible w) (lv_size l) in
  let skip := MkWalk (w_remaining w) (w_filled w) (w_notional w) visible (w_worst w) in
  if dleb (w_remaining w) dzero then skip else
  let taken := dmin (lv_size l) (w_remaining w) in
  if dleb taken dzero then skip else
  MkWalk (dsub (w_remaining w) taken) (dadd (w_filled w) taken) (dadd (w_notional w) (dmul taken (lv_price l))) visible (Some (lv_price l)).

Definition build_depth_execution_quote (s : MarketLiquiditySnapshot) (side : string) (requested_size : pydec) (sz_decimals : Z) : res DepthExecutionQuote :=
  if negb (bool_decide (side ∈ ["buy"; "sell"])) then book_error "depth quote side must be buy or sell" else
  match requested_size with
  | Fin size =>
      if dleb size dzero then book_error "depth quote size must be finite and positive" else
      let levels := meets s (bool_decide (side = "buy")) in
      let w := fold_left depth_step levels (MkWalk size dzero dzero dzero None) in
      let sufficient := dleb size (w_filled w) in
      vwap ← (if dltb dzero (w_filled w) then Some <$> ddiv (w_notional w) (w_filled w) else Ok None);
      rounded ← match w_worst w with
                | Some worst => if sufficient then Some <$> quantize_crossing_price worst side sz_decimals else Ok None
                | None => Ok None
                end;
      Ok (MkDepthQuote (sn_coin s) side size (w_filled w) sufficient vwap (lv_price <$> head levels) (w_worst w) rounded (w_visible w)
            (sn_book_time_ms s) (sn_observed_ms s))
  | _ => book_error "depth quote size must be finite and positive"
  end.
