(* ===== verification/LiquidityFacts.v ===== *)
(** Facts about order-book quotes: a price that crosses is a valid price on the far side of
    the level it was made from, and a quote stands for depth that is really there.  A small
    builder-DEX book at the end shows both. *)

From S2P Require Import Prelude PyDecimal DecimalFacts PyText Models Precision Markets MarketFacts DesiredFacts Liquidity.
From Stdlib Require Import QArith Qabs Lqa.

Open Scope Z_scope.

(** * Prices that cross *)

Section Prices.
Variables (p : dec) (budget : Z).
Hypotheses (Hp : (0 < dval p)%Q) (Hb : 0 <= budget) (Hv : valid_price budget (dval p)).

Lemma nonzero_price : dis_zero p = false.
Proof. destruct (dis_zero p) eqn:E; [|done]. apply dis_zero_spec in E. lra. Qed.

(** A valid price is on the grid of its significant figures and on that of its budget. *)
Lemma valid_on_sig : multiple_of (- sig_decimals p) (dval p).
Proof.
  destruct Hv as [Hi|(j & Hj & Hm & Hle)]; [apply (multiple_of_mono _ 0); [unfold sig_decimals; lia|done]|].
  pose proof (adjusted_le p (5 - j) nonzero_price Hle) as Ha.
  destruct (Z.le_gt_cases (adjusted p) (4 - j)) as [Hlow|Hhigh].
  { apply (multiple_of_mono _ (- j)); [unfold sig_decimals; lia|done]. }
  destruct (adjusted_bounds p nonzero_price) as [Hlo _]. replace (adjusted p) with (5 - j) in Hlo by lia.
  rewrite Qabs_pos in Hlo, Hle by lra. assert (dval p == q10 (5 - j))%Q as -> by lra.
  replace (5 - j) with (5 - j + sig_decimals p + - sig_decimals p) by lia. apply multiple_q10. unfold sig_decimals. lia.
Qed.

Lemma valid_on_budget : multiple_of (- budget) (dval p).
Proof.
  destruct Hv as [Hi|(j & Hj & Hm & Hle)]; [apply (multiple_of_mono _ 0); [lia|done]|]. apply (multiple_of_mono _ (- j)); [lia|done].
Qed.

(** A valid price that is not whole has fewer than six digits before the point. *)
Lemma fractional_small r : (dval r == dval p)%Q -> ~ multiple_of 0 (dval r) -> adjusted r <= 4.
Proof.
  intros E Hn. destruct Hv as [Hi|(j & Hj & Hm & Hle)]; [rewrite <- E in Hi; contradiction|].
  assert (1 <= j) as Hj1. { destruct (Z.eq_dec j 0) as [->|]; [|lia]. rewrite <- E in Hm. contradiction. }
  apply adjusted_le.
  - destruct (dis_zero r) eqn:Ez; [|done]. apply dis_zero_spec in Ez. lra.
  - rewrite E. eapply Qle_trans; [exact Hle|]. apply q10_le. lia.
Qed.
End Prices.

(** [quantize_price] keeps the value of a valid price. *)
Lemma quantize_price_fix p sz : let budget := PERP_MAX_DECIMALS - sz in
  (0 < dval p)%Q -> adjusted p < 49 -> 0 <= sz -> 0 <= budget -> valid_price budget (dval p) ->
  exists r, quantize_price (Fin p) sz false = Ok r /\ (dval r == dval p)%Q.
Proof.
  intros budget Hp Ha Hsz Hb Hv. unfold quantize_price. rewrite (proj2 (dleb_false _ _)) by (by rewrite dval_zero). fold budget.
  rewrite (proj2 (Z.ltb_ge _ _) Hb). unfold five_sig. rewrite (proj2 (deqb_false _ _)) by (rewrite dval_zero; lra).
  fold (sig_decimals p). cbn [dexp dscale1].
  destruct (quantize_ok 50 ROUND_HALF_UP p (- sig_decimals p)) as [r Hr]; [done|unfold sig_decimals; lia|]. rewrite Hr. cbn [mbind res_bind].
  apply quantize_inv in Hr. assert (dval r == dval p)%Q as E.
  { destruct (valid_on_sig p budget Hp Hv) as [k Hk]. rewrite Hr. by apply (rescale_multiple _ _ _ k). }
  destruct (deqb r (to_integral r)) eqn:Ei; [by exists r|].
  assert (~ multiple_of 0 (dval r)) as Hni by (rewrite <- is_integral; congruence).
  pose proof (fractional_small p budget Hp Hv r E Hni) as Hadj.
  destruct (quantize_ok prec_default ROUND_HALF_UP r (- budget)) as [r' Hr']; [done|change (Z.of_N prec_default) with 28; unfold budget, PERP_MAX_DECIMALS; lia|].
  exists r'. split; [done|]. apply quantize_inv in Hr'. rewrite <- E, Hr'. destruct (valid_on_budget p budget Hb Hv) as [k Hk].
  apply (rescale_multiple _ _ _ k). by rewrite E.
Qed.

Definition crosses (buy : bool) (limit price : dec) : Prop := (if buy then dval price <= dval limit else dval limit <= dval price)%Q.

Definition tick_decimals (p : dec) (sz : Z) : Z := Z.min (sig_decimals p) (PERP_MAX_DECIMALS - sz).

(** The limit made from a level: a valid price on its far side, less than a tick away. *)
Lemma crossing_price_sound p buy sz r : 0 <= sz -> quantize_crossing_price p (side_of buy) sz = Ok r ->
  (0 < dval p)%Q /\ (0 < dval r)%Q /\ valid_price (PERP_MAX_DECIMALS - sz) (dval r) /\ crosses buy r p /\
  (Qabs (dval r - dval p) < q10 (tick_exp p sz))%Q.
Proof.
  intros Hsz. unfold quantize_crossing_price. replace (negb (bool_decide (side_of buy ∈ ["buy"; "sell"]))) with false by by destruct buy.
  replace (bool_decide (side_of buy = "buy")) with buy by by destruct buy. fold (sig_decimals p) (tick_decimals p sz).
  destruct (dleb p dzero) eqn:E0; [done|]. apply dleb_false in E0. rewrite dval_zero in E0.
  destruct (Z.ltb_spec (PERP_MAX_DECIMALS - sz) 0) as [|Hb]; [done|]. cbn [dexp dscale1]. change (- tick_decimals p sz) with (tick_exp p sz).
  intros (c & Hc & H)%bind_Ok. apply bind_Ok in H as (n & Hn & H). pose proof (quantize_fits _ _ _ _ Hc) as Hfit.
  apply quantize_exp in Hc as Hexp. destruct Hexp as [Hexp _]. apply quantize_inv in Hc.
  assert (0 < dval c)%Q as Hcp. { unfold quantize_price in Hn. destruct (dleb c dzero) eqn:E; [done|]. apply dleb_false in E. by rewrite dval_zero in E. }
  assert (if buy then dval p <= dval c /\ dval c < dval p + q10 (tick_exp p sz) else dval c <= dval p /\ dval p < dval c + q10 (tick_exp p sz))%Q as Hnear.
  { rewrite Hc. destruct buy; [apply rescale_ceiling|apply rescale_floor]. }
  assert (valid_price (PERP_MAX_DECIMALS - sz) (dval c)) as Hval.
  { apply (tick_valid p); [done..| |]; [rewrite Hc; apply rescale_multiple_of|]. pose proof (q10_pos (tick_exp p sz)). destruct buy; lra. }
  assert (adjusted c < 49) as Hadj.
  { unfold adjusted. rewrite Hexp. unfold fits in Hfit. change prec_default with 28%N in Hfit. unfold tick_exp, sig_decimals. lia. }
  destruct (quantize_price_fix c sz Hcp Hadj Hsz Hb Hval) as (r' & Hr' & Er). rewrite Hn in Hr'. injection Hr' as <-.
  destruct (negb _) eqn:Ecross; [done|]. injection H as <-. apply negb_false_iff in Ecross. split; [done|]. rewrite Er. split; [done|]. split; [done|]. split.
  - unfold crosses. destruct buy; by apply dleb_spec in Ecross.
  - apply Qabs_case; intros; destruct buy; lra.
Qed.

(** A price that the venue already accepts is kept, so that it is never refused. *)
Lemma crossing_price_exact p buy sz : 0 <= sz <= PERP_MAX_DECIMALS -> (0 < dval p)%Q -> adjusted p < 21 -> valid_price (PERP_MAX_DECIMALS - sz) (dval p) ->
  exists r, quantize_crossing_price p (side_of buy) sz = Ok r /\ (dval r == dval p)%Q.
Proof.
  intros Hsz Hp Ha Hv. unfold quantize_crossing_price. replace (negb (bool_decide (side_of buy ∈ ["buy"; "sell"]))) with false by by destruct buy.
  replace (bool_decide (side_of buy = "buy")) with buy by by destruct buy. fold (sig_decimals p) (tick_decimals p sz).
  rewrite (proj2 (dleb_false _ _)) by (by rewrite dval_zero). rewrite (proj2 (Z.ltb_ge _ _)) by lia. cbn [dexp dscale1].
  set (m := if buy then ROUND_CEILING else ROUND_FLOOR).
  destruct (quantize_ok prec_default m p (- tick_decimals p sz)) as [c Hc]; [done| |].
  { change (Z.of_N prec_default) with 28. unfold tick_decimals, PERP_MAX_DECIMALS in *. lia. }
  rewrite Hc. cbn [mbind res_bind]. pose proof (quantize_fits _ _ _ _ Hc) as Hfit. apply quantize_exp in Hc as Hexp. destruct Hexp as [Hexp _].
  apply quantize_inv in Hc. assert (dval c == dval p)%Q as E.
  { assert (multiple_of (- tick_decimals p sz) (dval p)) as [k Hk].
    { unfold tick_decimals. destruct (Z.min_spec (sig_decimals p) (PERP_MAX_DECIMALS - sz)) as [[_ ->]|[_ ->]];
        [by apply (valid_on_sig p (PERP_MAX_DECIMALS - sz))|apply valid_on_budget; [lia|done]]. }
    rewrite Hc. by apply (rescale_multiple _ _ _ k). }
  assert (adjusted c < 49) as Hadj.
  { unfold adjusted. rewrite Hexp. unfold fits in Hfit. change prec_default with 28%N in Hfit. unfold tick_decimals, sig_decimals, PERP_MAX_DECIMALS in *. lia. }
  destruct (quantize_price_fix c sz) as (r & -> & Er); [by rewrite E|done|lia|lia|by rewrite E|]. cbn [mbind res_bind].
  assert (negb (if buy then dleb p r else dleb r p) = false) as ->.
  { apply negb_false_iff. destruct buy; apply dleb_spec; rewrite Er, E; lra. }
  exists r. split; [done|]. by rewrite Er.
Qed.

(** * Snapshots *)

Definition level_ok (l : BookLevel) : Prop := (0 < dval (lv_price l) /\ 0 < dval (lv_size l))%Q.

Definition descending (a b : BookLevel) : Prop := (dval (lv_price b) <= dval (lv_price a))%Q.
Definition ascending (a b : BookLevel) : Prop := (dval (lv_price a) <= dval (lv_price b))%Q.

(** A book as an exchange keeps it: positive levels, best first, and not crossed. *)
Record book_ok (s : MarketLiquiditySnapshot) : Prop := {
  bk_oracle : (0 < dval (sn_oracle_px s))%Q;
  bk_time : 0 < sn_book_time_ms s;
  bk_bids : Forall level_ok (sn_bids s) /\ StronglySorted descending (sn_bids s);
  bk_asks : Forall level_ok (sn_asks s) /\ StronglySorted ascending (sn_asks s);
  bk_uncrossed b a : head (sn_bids s) = Some b -> head (sn_asks s) = Some a -> (dval (lv_price b) < dval (lv_price a))%Q;
}.

Lemma positive_number_spec v label d : positive_number v label = Ok d -> (0 < dval d)%Q.
Proof.
  unfold positive_number. intros (x & _ & H)%bind_Ok. destruct (dleb x dzero) eqn:E; [done|]. injection H as ->.
  apply dleb_false in E. by rewrite dval_zero in E.
Qed.

Lemma parse_level_spec m side j l : parse_level m side j = Ok l -> level_ok l.
Proof.
  destruct j; try done. cbn [parse_level]. intros (px & Hp & H)%bind_Ok. apply bind_Ok in H as (sz & Hs & [= <-]).
  apply positive_number_spec in Hp, Hs. by split.
Qed.

#[local] Instance ge_proper : Proper (Qeq ==> Qeq ==> iff) (fun x y : Q => y <= x)%Q.
Proof. intros x x' Hx y y' Hy. by rewrite Hx, Hy. Qed.

(** Lists that are equal number by number are ordered alike. *)
Lemma same_numbers_sorted (R : Q -> Q -> Prop) `{!Proper (Qeq ==> Qeq ==> iff) R} a b : same_numbers a b = true ->
  StronglySorted (fun x y => R (dval x) (dval y)) b -> StronglySorted (fun x y => R (dval x) (dval y)) a.
Proof.
  revert b. induction a as [|x a IH]; intros [|y b]; cbn; try done; intros H Hb.
  apply andb_true_iff in H as [Hxy H]. apply deqb_spec in Hxy. inversion_clear Hb as [|? ? Hs Hf]. constructor; [by apply (IH b)|].
  clear IH Hs. revert b H Hf. induction a as [|z a IH]; intros [|w b]; cbn; try done; intros H Hf.
  apply andb_true_iff in H as [Hzw H]. apply deqb_spec in Hzw. inversion_clear Hf as [|? ? Hw Hf']. constructor; [by rewrite Hxy, Hzw|by apply (IH b)].
Qed.

Lemma sorted_prices_sorted (desc : bool) l :
  StronglySorted (fun x y => if desc then dval y <= dval x else dval x <= dval y)%Q (sorted_prices desc l).
Proof.
  apply Sorted_StronglySorted; [intros x y z; destruct desc; intros; lra|]. unfold sorted_prices.
  assert (Sorted (fun a b => (if desc then dleb b a else dleb a b) = true) (py_sorted (fun a b => if desc then dleb b a else dleb a b) l)) as H.
  { apply py_sorted_sorted. intros x y. assert (dleb x y = true \/ dleb y x = true) as [H|H]; [|destruct desc; auto..].
    destruct (dleb x y) eqn:E; [by left|right]. apply dleb_spec. apply dleb_false in E. lra. }
  induction H as [|x l' _ IH Hd]; constructor; [exact IH|]. destruct Hd as [|y l'' Hd]; constructor. destruct desc; apply dleb_spec in Hd; exact Hd.
Qed.

Lemma sorted_levels (R : Q -> Q -> Prop) levels :
  StronglySorted (fun x y => R (dval x) (dval y)) (lv_price <$> levels) -> StronglySorted (fun a b => R (dval (lv_price a)) (dval (lv_price b))) levels.
Proof.
  induction levels as [|l levels IH]; [constructor|]. rewrite fmap_cons. intros H. inversion_clear H as [|? ? Hs Hf]. constructor; [by apply IH|].
  rewrite !list.Forall_fmap in Hf. exact Hf.
Qed.

Lemma parse_levels_spec raw m side (desc : bool) levels : parse_levels raw m side desc = Ok levels ->
  Forall level_ok levels /\ StronglySorted (if desc then descending else ascending) levels.
Proof.
  destruct raw as [| | | | |l|]; try done. cbn [parse_levels]. intros (ls & Hl & H)%bind_Ok. destruct (same_numbers _ _) eqn:E; [|done]. injection H as <-. split.
  - apply list.Forall_forall. intros x Hx. apply (map_res_elem _ _ _ _ Hl) in Hx as (j & _ & Hj). by apply parse_level_spec in Hj.
  - pose proof (sorted_prices_sorted desc (lv_price <$> ls)) as Hs. destruct desc.
    + apply (sorted_levels (fun x y => y <= x)%Q). exact (same_numbers_sorted (fun x y => y <= x)%Q _ _ E Hs).
    + apply (sorted_levels (fun x y => x <= y)%Q). exact (same_numbers_sorted (fun x y => x <= y)%Q _ _ E Hs).
Qed.

Lemma snapshot_ok coin meta l2 t s : parse_market_liquidity_snapshot coin meta l2 t = Ok s ->
  book_ok s /\ canonical_market_symbol (JStr coin) = Ok (sn_coin s) /\ sn_observed_ms s = t.
Proof.
  unfold parse_market_liquidity_snapshot. intros (market & Hm & H)%bind_Ok. apply bind_Ok in H as (c & _ & H).
  apply bind_Ok in H as (oracle & Ho%positive_number_spec & H). apply bind_Ok in H as (mark & _ & H). apply bind_Ok in H as (mid & _ & H).
  apply bind_Ok in H as ([[time bids] asks] & Hb & [= <-]). unfold book_of in Hb. destruct l2 as [| | | | | |o]; try done.
  apply bind_Ok in Hb as (bm & _ & Hb). destruct (negb _); [done|]. destruct (obj_field "levels" o) as [| | | | |l|]; try done.
  destruct l as [|rb [|ra [|]]]; try done. apply bind_Ok in Hb as (time' & Ht & Hb). apply bind_Ok in Hb as (bids' & Hbids & Hb).
  apply bind_Ok in Hb as (asks' & Hasks & Hb). destruct (crossed bids' asks') eqn:Ec; [done|]. injection Hb as -> -> ->.
  apply parse_levels_spec in Hbids, Hasks. split; [|by split]. split; cbn; try done.
  - unfold positive_whole in Ht. apply bind_Ok in Ht as (z & _ & Ht). destruct (Z.leb_spec z 0); [done|]. injection Ht as <-. lia.
  - intros b a Hb Ha. destruct bids, asks; try done. injection Hb as ->. injection Ha as ->. cbn in Ec. by apply dleb_false in Ec.
Qed.

(** * Depth *)

(** The levels that were walked reach the request, and all but the last do not. *)
Lemma walk_some v levels n p vis : walk_from v levels n = (Some p, vis) ->
  exists pre l post, levels = pre ++ l :: post /\ p = lv_price l /\ vis = fold_left dadd (lv_size <$> pre ++ [l]) v /\ (dval n <= dval vis)%Q.
Proof.
  revert v. induction levels as [|l levels IH]; intros v; cbn [walk_from]; [done|]. destruct (dleb n (dadd v (lv_size l))) eqn:E.
  - intros [= <- <-]. apply dleb_spec in E. by exists [], l, levels.
  - intros (pre & l' & post & -> & -> & -> & Hn)%IH. by exists (l :: pre), l', post.
Qed.

Lemma walk_none v levels n vis : walk_from v levels n = (None, vis) -> vis = fold_left dadd (lv_size <$> levels) v /\ (levels = [] \/ (dval vis < dval n)%Q).
Proof.
  revert v. induction levels as [|l levels IH]; intros v; cbn [walk_from]; [intros [= <-]; auto|]. destruct (dleb n (dadd v (lv_size l))) eqn:E; [done|].
  intros [Hv Hn]%IH. split; [exact Hv|]. right. destruct Hn as [->|Hn]; [|done]. cbn in Hv. rewrite Hv. by apply dleb_false in E.
Qed.

(** A limit that is executable for [size]: a valid price inside the bounds, and the best
    levels that it reaches, all inside the bounds, hold at least [size]. *)
Definition executable (s : MarketLiquiditySnapshot) (buy : bool) (bounds : dec * dec) (size limit visible worst : dec) (sz : Z) : Prop :=
  (0 < dval limit)%Q /\ valid_price (PERP_MAX_DECIMALS - sz) (dval limit) /\ (dval bounds.1 <= dval limit /\ dval limit <= dval bounds.2)%Q /\
  crosses buy limit worst /\ (Qabs (dval limit - dval worst) < q10 (tick_exp worst sz))%Q /\
  exists reached rest, inside buy bounds (meets s buy) = reached ++ rest /\ lv_price <$> list.last reached = Some worst /\
    Forall (fun l => crosses buy limit (lv_price l)) reached /\ visible = dsum (lv_size <$> reached) /\ (dval size <= dval visible)%Q.

Lemma filter_sorted {A} (R : A -> A -> Prop) f (l : list A) : StronglySorted R l -> StronglySorted R (List.filter f l).
Proof.
  induction 1 as [|x l _ IH Hf]; cbn; [constructor|]. destruct (f x); [|done]. constructor; [done|].
  rewrite list.Forall_forall in *. intros y Hy. apply Hf. apply list_elem_of_In in Hy. apply filter_In in Hy as [Hy _]. by apply list_elem_of_In.
Qed.

Lemma sorted_prefix {A} (R : A -> A -> Prop) pre x post : StronglySorted R (pre ++ x :: post) -> Forall (fun y => R y x) pre.
Proof.
  induction pre as [|y pre IH]; cbn; intros H; [constructor|]. inversion_clear H as [|? ? Hs Hf]. constructor; [|by apply IH].
  rewrite list.Forall_forall in Hf. apply Hf, elem_of_app. right. by left.
Qed.

Lemma walk_executable s buy bounds size worst visible limit sz : book_ok s -> 0 <= sz ->
  walk_depth (inside buy bounds (meets s buy)) size = (Some worst, visible) -> quantize_crossing_price worst (side_of buy) sz = Ok limit ->
  within bounds limit = true -> executable s buy bounds size limit visible worst sz.
Proof.
  intros Hs Hsz (pre & l & post & Hl & -> & Hv & Hn)%walk_some Hq Hw. apply (crossing_price_sound _ _ _ _ Hsz) in Hq as (_ & Hr & Hval & Hc & Hnear).
  apply andb_true_iff in Hw as [W1%dleb_spec W2%dleb_spec]. split_and!; try done. exists (pre ++ [l]), post.
  split; [rewrite Hl, <- app_assoc; done|]. split; [by rewrite list.last_snoc|]. split; [|by split].
  assert (StronglySorted (if buy then ascending else descending) (inside buy bounds (meets s buy))) as Hsort.
  { apply filter_sorted. unfold meets. destruct buy; [apply (bk_asks s Hs)|apply (bk_bids s Hs)]. }
  rewrite Hl in Hsort. apply sorted_prefix in Hsort. apply Forall_app. split; [|by constructor].
  eapply list.Forall_impl; [exact Hsort|]. intros y Hy. unfold crosses in *. destruct buy; unfold ascending, descending in Hy; lra.
Qed.

(** * Round trips *)

(** A request that can be assessed: a side, a positive size, an envelope of at most ten
    percent, and a book that is neither old nor ahead of the clock. *)
Record request_ok (s : MarketLiquiditySnapshot) (side : string) (size bps : pydec) (max_age now : Z) (buy : bool) (n b : dec) : Prop := {
  ro_side : side = side_of buy;
  ro_size : size = Fin n /\ (0 < dval n)%Q;
  ro_bps : bps = Fin b /\ (0 < dval b <= 1000)%Q;
  ro_age : -1000 <= now - sn_book_time_ms s <= max_age;
}.

Lemma request_blockers_nil s t1 t2 side size bps max_age now : request_blockers s t1 t2 side size bps max_age now = [] ->
  exists n b, request_ok s side size bps max_age now (bool_decide (side = "buy")) n b.
Proof.
  unfold request_blockers. intros H. apply app_eq_nil in H as [Hside H]. apply app_eq_nil in H as [Hsize H]. apply app_eq_nil in H as [Hbps Hage].
  destruct (bool_decide (side ∈ ["buy"; "sell"])) eqn:Es; [|done]. apply bool_decide_eq_true in Es.
  destruct size as [n| |]; try done. destruct (dleb n dzero) eqn:En; [done|]. apply dleb_false in En. rewrite dval_zero in En.
  destruct bps as [b| |]; try done. destruct (dltb dzero b && dleb b (dint 1000)) eqn:Eb; [|done]. apply andb_true_iff in Eb as [B1%dltb_spec B2%dleb_spec].
  rewrite dval_zero in B1. rewrite dval_int in B2. destruct (Z.ltb_spec (now - sn_book_time_ms s) (-1000)); [done|].
  destruct (Z.ltb_spec max_age (now - sn_book_time_ms s)); [done|]. exists n, b. split; [|by split|by split|lia].
  apply elem_of_cons in Es as [->|Es]; [done|]. by apply list_elem_of_singleton in Es as ->.
Qed.

Lemma envelope_total s b : exists bounds, envelope s b = Ok bounds.
Proof.
  unfold envelope. destruct (ddiv_pos_ok (dmul (sn_oracle_px s) b) (dint 10000)) as [d ->]; [by rewrite dval_int|]. by eexists.
Qed.

(** Every level that an entry can be filled from costs at most the bound of the quote. *)
Definition bounded_cost (s : MarketLiquiditySnapshot) (buy : bool) (bounds : dec * dec) (q : RoundTripQuote) : Prop :=
  Forall (fun l => (dval (lv_price l) <= dval (entry_notional_bound_px q))%Q) (inside buy bounds (meets s buy)).

Lemma dmax_le a b : (dval a <= dval (dmax a b) /\ dval b <= dval (dmax a b))%Q.
Proof. unfold dmax. destruct (dltb a b) eqn:E; [apply dltb_spec in E|apply dltb_false in E]; split; lra. Qed.

Lemma inside_bounded s buy bounds best rest x : book_ok s -> inside buy bounds (meets s buy) = best :: rest ->
  Forall (fun l => (dval (lv_price l) <= dval (dmax (dmax bounds.2 (lv_price best)) x))%Q) (inside buy bounds (meets s buy)).
Proof.
  intros Hs Hl. destruct (dmax_le (dmax bounds.2 (lv_price best)) x) as [M1 _]. destruct (dmax_le bounds.2 (lv_price best)) as [M2 M3].
  apply list.Forall_forall. intros l Hin. destruct buy.
  - unfold inside in Hin. apply list_elem_of_In, filter_In in Hin as [_ Hin]. apply dleb_spec in Hin. lra.
  - assert (StronglySorted descending (inside false bounds (meets s false))) as Hsort by (apply filter_sorted; apply (bk_bids s Hs)).
    rewrite Hl in Hsort, Hin. inversion_clear Hsort as [|? ? _ Hf]. apply elem_of_cons in Hin as [->|Hin]; [lra|].
    rewrite list.Forall_forall in Hf. pose proof (Hf _ Hin) as Hd. unfold descending in Hd. lra.
Qed.

(** What the depth of a valid request decides. *)
Definition assessed (s : MarketLiquiditySnapshot) (buy : bool) (n b : dec) (sz : Z) (a : RoundTripAssessment) : Prop :=
  (quote a = None <-> ra_blockers a <> []) /\
  (retryable_liquidity a = true <-> entry_depth_shortfall a = true \/ exit_depth_shortfall a = true) /\
  forall q, quote a = Some q -> exists bounds, envelope s b = Ok bounds /\
    executable s buy bounds n (entry_limit q) (entry_visible_size q) (entry_worst_px q) sz /\
    executable s (negb buy) bounds n (exit_limit q) (exit_visible_size q) (exit_worst_px q) sz /\ bounded_cost s buy bounds q.

Lemma assess_sound s buy n b sz a : book_ok s -> 0 <= sz -> assess_depth s buy n b sz = Ok a -> assessed s buy n b sz a.
Proof.
  intros Hs Hsz. unfold assess_depth. destruct (envelope_total s b) as [bounds Eb]. rewrite Eb. cbn [mbind res_bind].
  destruct (walk_depth (inside buy bounds (meets s buy)) n) as [ew ev] eqn:We. destruct (walk_depth (inside (negb buy) bounds (meets s (negb buy))) n) as [xw xv] eqn:Wx.
  destruct ew as [ew|], xw as [xw|]; cycle 1;
    [intros [= <-]; split; [done|split; [|done]]; cbn; tauto|intros [= <-]; split; [done|split; [|done]]; cbn; tauto|intros [= <-]; split; [done|split; [|done]]; cbn; tauto|].
  intros (best & Hbest & H)%bind_Ok. apply bind_Ok in H as (el & Hel & H). apply bind_Ok in H as (xl & Hxl & H).
  destruct (inside buy bounds (meets s buy)) as [|l0 rest] eqn:El; [done|]. injection Hbest as <-.
  destruct (within bounds el) eqn:W1; cbn [app] in H.
  2: { cbn in H. injection H as <-. split; [done|]. split; [cbn; split; [done|intros [?|?]; done]|done]. }
  destruct (within bounds xl) eqn:W2; cbn [app] in H; injection H as <-.
  - split; [done|]. split; [cbn; split; [done|intros [?|?]; done]|]. intros q [= <-]. exists bounds. split; [done|]. rewrite <- El in We.
    split; [by apply walk_executable|]. split; [by apply walk_executable|]. unfold bounded_cost. cbn [entry_notional_bound_px].
    by apply (inside_bounded _ _ _ _ rest).
  - split; [done|]. split; [cbn; split; [done|intros [?|?]; done]|done].
Qed.

(** A book whose prices the venue accepts as they are. *)
Definition venue_prices (sz : Z) (s : MarketLiquiditySnapshot) : Prop :=
  Forall (fun l => valid_price (PERP_MAX_DECIMALS - sz) (dval (lv_price l)) /\ adjusted (lv_price l) < 21) (sn_bids s ++ sn_asks s).

(** On such a book the limit is the price of the worst level. *)
Lemma venue_limit s buy bounds n worst visible sz : book_ok s -> 0 <= sz <= PERP_MAX_DECIMALS -> venue_prices sz s ->
  walk_depth (inside buy bounds (meets s buy)) n = (Some worst, visible) ->
  exists limit, quantize_crossing_price worst (side_of buy) sz = Ok limit /\ (dval limit == dval worst)%Q.
Proof.
  intros Hs Hsz Hv (pre & l & post & Hl & -> & _ & _)%walk_some.
  assert (l ∈ inside buy bounds (meets s buy)) as Hin by (rewrite Hl; apply elem_of_app; right; by left).
  unfold inside in Hin. apply list_elem_of_In, filter_In in Hin as [Hin _]. apply list_elem_of_In in Hin.
  assert (l ∈ sn_bids s ++ sn_asks s) as Hbook by (apply elem_of_app; unfold meets in Hin; destruct buy; auto).
  unfold venue_prices in Hv. rewrite list.Forall_forall in Hv. destruct (Hv _ Hbook) as [Hval Hadj].
  assert (level_ok l) as [Hp _].
  { destruct (bk_bids s Hs) as [Hb _], (bk_asks s Hs) as [Ha _]. rewrite list.Forall_forall in Hb, Ha. apply elem_of_app in Hbook as [?|?]; auto. }
  by apply crossing_price_exact.
Qed.

Lemma assess_total s buy n b sz : book_ok s -> 0 <= sz <= PERP_MAX_DECIMALS -> venue_prices sz s ->
  exists a, assess_depth s buy n b sz = Ok a /\
    forall q, quote a = Some q -> (dval (entry_limit q) == dval (entry_worst_px q) /\ dval (exit_limit q) == dval (exit_worst_px q))%Q.
Proof.
  intros Hs Hsz Hv. unfold assess_depth. destruct (envelope_total s b) as [bounds ->]. cbn [mbind res_bind].
  destruct (walk_depth (inside buy bounds (meets s buy)) n) as [ew ev] eqn:We. destruct (walk_depth (inside (negb buy) bounds (meets s (negb buy))) n) as [xw xv] eqn:Wx.
  destruct ew as [ew|], xw as [xw|]; cycle 1; [eexists; by split|eexists; by split|eexists; by split|].
  destruct (venue_limit _ _ _ _ _ _ _ Hs Hsz Hv We) as (el & -> & Ee). destruct (venue_limit _ _ _ _ _ _ _ Hs Hsz Hv Wx) as (xl & -> & Ex).
  destruct (inside buy bounds (meets s buy)) as [|l0 rest] eqn:El; [done|]. cbn [mbind res_bind].
  destruct (negb (bool_decide _)); eexists; (split; [done|]); [done|]. intros q [= <-]. by split.
Qed.

(** C32. A round-trip quote stands for depth that is there.  On any parsed snapshot an assessment
    has a quote exactly when it has no blocker, and asks to be retried exactly when a leg of a
    valid request lacks depth.  A quote is only made for a positive size, an envelope of at most
    ten percent and a book inside its age limit; then the limits of both legs are valid venue
    prices inside the envelope around the oracle price, less than one tick from the worst level
    they are meant to cross, the best levels that they reach hold the requested size, and no
    level of the entry costs more than the bound of the quote.  On a book of venue prices the
    assessment never fails, and the limits are the prices of those levels. *)
Theorem round_trip_executable coin meta l2 observed s side size bps max_age sz now :
  parse_market_liquidity_snapshot coin meta l2 observed = Ok s -> 0 <= sz <= PERP_MAX_DECIMALS ->
  (forall a, assess_round_trip_quote s side size bps max_age sz now = Ok a ->
     (quote a = None <-> ra_blockers a <> []) /\
     (retryable_liquidity a = true <-> entry_depth_shortfall a = true \/ exit_depth_shortfall a = true) /\
     forall q, quote a = Some q -> exists buy n b bounds, request_ok s side size bps max_age now buy n b /\ envelope s b = Ok bounds /\
       executable s buy bounds n (entry_limit q) (entry_visible_size q) (entry_worst_px q) sz /\
       executable s (negb buy) bounds n (exit_limit q) (exit_visible_size q) (exit_worst_px q) sz /\ bounded_cost s buy bounds q) /\
  (venue_prices sz s -> exists a, assess_round_trip_quote s side size bps max_age sz now = Ok a /\
     forall q, quote a = Some q -> (dval (entry_limit q) == dval (entry_worst_px q) /\ dval (exit_limit q) == dval (exit_worst_px q))%Q).
Proof.
  intros [Hs _]%snapshot_ok Hsz. unfold assess_round_trip_quote.
  destruct (request_blockers s "opening" "round-trip" side size bps max_age now) as [|why whys] eqn:Eb.
  - destruct (request_blockers_nil _ _ _ _ _ _ _ _ Eb) as (n & b & Hr). destruct (ro_size _ _ _ _ _ _ _ _ _ Hr) as [-> _].
    destruct (ro_bps _ _ _ _ _ _ _ _ _ Hr) as [-> _]. split.
    + intros a (H1 & H2 & H3)%assess_sound; [|done|lia]. split; [done|]. split; [done|]. intros q Hq. destruct (H3 q Hq) as (bounds & H).
      exists (bool_decide (side = "buy")), n, b, bounds. by split.
    + intros Hv. by apply assess_total.
  - split.
    + intros a [= <-]. cbn [refused quote ra_blockers retryable_liquidity entry_depth_shortfall exit_depth_shortfall].
      split; [by split|]. split; [split; [done|by intros [?|?]]|done].
    + intros _. exists (refused (why :: whys)). by split.
Qed.

(** ** Reductions *)

(** A reduce-only quote stands for depth that is there: it is made exactly when there is no
    blocker, and then its limit is a valid venue price inside the envelope, less than one tick
    from the worst level it is meant to cross, and the best levels that it reaches hold the
    requested size. *)
Theorem reduce_only_executable coin meta l2 observed s side size bps max_age sz now q why :
  parse_market_liquidity_snapshot coin meta l2 observed = Ok s -> 0 <= sz <= PERP_MAX_DECIMALS ->
  build_reduce_only_quote s side size bps max_age sz now = Ok (q, why) ->
  (q = None <-> why <> []) /\
  forall q', q = Some q' -> exists buy n b bounds, request_ok s side size bps max_age now buy n b /\ envelope s b = Ok bounds /\
    executable s buy bounds n (limit_price q') (rq_visible_size q') (rq_worst_px q') sz.
Proof.
  intros [Hs _]%snapshot_ok Hsz. unfold build_reduce_only_quote.
  destruct (request_blockers s "reduce-only" "reduce-only" side size bps max_age now) as [|w ws] eqn:Eb; [|by intros [= <- <-]].
  destruct (request_blockers_nil _ _ _ _ _ _ _ _ Eb) as (n & b & Hr). destruct (ro_size _ _ _ _ _ _ _ _ _ Hr) as [-> _].
  destruct (ro_bps _ _ _ _ _ _ _ _ _ Hr) as [-> _]. unfold reduce_depth. destruct (envelope_total s b) as [bounds Ev]. rewrite Ev. cbn [mbind res_bind].
  destruct (walk_depth _ n) as [[worst|] visible] eqn:Ew; [|by intros [= <- <-]]. intros (limit & Hl & H)%bind_Ok.
  destruct (within bounds limit) eqn:W; cbn [negb] in H; injection H as <- <-; [|done]. split; [done|]. intros q' [= <-].
  exists (bool_decide (side = "buy")), n, b, bounds. split; [done|]. split; [done|]. apply walk_executable; [done|lia|done..].
Qed.

(** * A small builder-DEX book: the quotes it admits, and an entry that lacks depth *)

Definition example_level (px sz : string) : json := JObj [("px", JStr px); ("sz", JStr sz)].

Definition example_context : json :=
  JList [JObj [("universe", JList [JObj [("name", JStr "xyz:SILVER")]; JObj [("name", JStr "xyz:GOLD")]])];
         JList [JObj []; JObj [("oraclePx", JStr "80"); ("markPx", JStr "80.1"); ("midPx", JNull)]]].

Definition example_book : json :=
  JObj [("coin", JStr "xyz:GOLD"); ("time", JInt 9900);
        ("levels", JList [JList [example_level "79.9" "3"; example_level "79.5" "5"; example_level "70" "100"];
                          JList [example_level "80.2" "2"; example_level "80.4" "4"; example_level "95" "100"]])].

Definition no_snapshot : MarketLiquiditySnapshot := MkSnapshot "" 0 0 dzero None None [] [].

Definition snapshot : MarketLiquiditySnapshot :=
  match parse_market_liquidity_snapshot "xyz:GOLD" example_context example_book 10000 with Ok s => s | Raise _ => no_snapshot end.

Lemma snapshot_parsed : parse_market_liquidity_snapshot "xyz:GOLD" example_context example_book 10000 = Ok snapshot.
Proof. vm_compute. reflexivity. Qed.

Definition quote_line (a : RoundTripAssessment) : option (string * string * string) * bool * list string :=
  ((fun q => (dec_str (entry_limit q), dec_str (exit_limit q), dec_str (entry_notional_bound_px q))) <$> quote a, retryable_liquidity a, ra_blockers a).

(** Five are there inside one percent; seven are not. *)
Definition assess_five : res RoundTripAssessment := assess_round_trip_quote snapshot "buy" (Fin (dint 5)) (Fin (dint 100)) 2000 3 10000.
Definition assess_seven : res RoundTripAssessment := assess_round_trip_quote snapshot "buy" (Fin (dint 7)) (Fin (dint 100)) 2000 3 10000.

Lemma example_lacks_depth : (fun a => (quote_line a).1) <$> assess_seven = Ok (None, true).
Proof. vm_compute. reflexivity. Qed.

Definition assessment_five : RoundTripAssessment := match assess_five with Ok a => a | Raise _ => refused [] end.
Definition no_quote : RoundTripQuote :=
  MkRoundTrip "" "" dzero 0 0 dzero None dzero dzero dzero dzero dzero dzero dzero dzero dzero.
Definition quote_five : RoundTripQuote := match quote assessment_five with Some q => q | None => no_quote end.

Lemma round_trip_executable_witness :
  quote_line <$> assess_five = Ok (Some ("80.400", "79.500", "80.8"), false, []) /\
  exists buy n b bounds, request_ok snapshot "buy" (Fin (dint 5)) (Fin (dint 100)) 2000 10000 buy n b /\ envelope snapshot b = Ok bounds /\
    executable snapshot buy bounds n (entry_limit quote_five) (entry_visible_size quote_five) (entry_worst_px quote_five) 3 /\
    executable snapshot (negb buy) bounds n (exit_limit quote_five) (exit_visible_size quote_five) (exit_worst_px quote_five) 3 /\
    bounded_cost snapshot buy bounds quote_five.
Proof.
  split; [vm_compute; reflexivity|].
  assert (assess_five = Ok assessment_five) as Ha by (vm_compute; reflexivity).
  assert (quote assessment_five = Some quote_five) as Hq by (vm_compute; reflexivity).
  assert (0 <= 3 <= PERP_MAX_DECIMALS) as Hsz by (unfold PERP_MAX_DECIMALS; lia).
  destruct (round_trip_executable _ _ _ _ _ "buy" (Fin (dint 5)) (Fin (dint 100)) 2000 3 10000 snapshot_parsed Hsz) as [H _].
  destruct (H _ Ha) as (_ & _ & H'). exact (H' _ Hq).
Defined.

Definition reduce_four : res (option ReduceOnlyQuote * list string) := build_reduce_only_quote snapshot "sell" (Fin (dint 4)) (Fin (dint 100)) 2000 3 10000.
Definition no_reduce : ReduceOnlyQuote := MkReduce "" "" dzero 0 0 dzero None dzero dzero dzero dzero.
Definition reduce_quote : ReduceOnlyQuote := match reduce_four with Ok (Some q, _) => q | _ => no_reduce end.

Lemma reduce_only_executable_witness :
  dec_str (limit_price reduce_quote) = "79.500" /\
  exists buy n b bounds, request_ok snapshot "sell" (Fin (dint 4)) (Fin (dint 100)) 2000 10000 buy n b /\ envelope snapshot b = Ok bounds /\
    executable snapshot buy bounds n (limit_price reduce_quote) (rq_visible_size reduce_quote) (rq_worst_px reduce_quote) 3.
Proof.
  split; [vm_compute; reflexivity|].
  assert (reduce_four = Ok (Some reduce_quote, [])) as Ha by (vm_compute; reflexivity).
  assert (0 <= 3 <= PERP_MAX_DECIMALS) as Hsz by (unfold PERP_MAX_DECIMALS; lia).
  destruct (reduce_only_executable _ _ _ _ _ "sell" (Fin (dint 4)) (Fin (dint 100)) 2000 3 10000 _ _ snapshot_parsed Hsz Ha) as [_ H].
  exact (H _ eq_refl).
Defined.
