(* ===== verification/Safety.v ===== *)
(** safety.py: the safe mode that several processes share through one append-only journal,
    and the shield that trips it.

    A controller is what one process knows; the journal is the table
    [safe_mode_transitions] of persistence.py.  Between two calls that one method makes on
    the store other processes may append: each [Moment] carries what its clock reads, its
    [uuid4] and what the others do before the journal is read again.  The moments that are
    left bound the recursion of a refresh, as Python's stack does. *)

From S2P Require Import Prelude PyDecimal PyText Models Markets.
From Stdlib Require Import Ascii.

Open Scope Z_scope.

(** * Reasons *)

Inductive SafeModeReason :=
  | NONE | ACCOUNT_NOT_CONFIGURED | CONFIG_INVALID | PREFLIGHT_FAILED | LIVE_BLOCKED | TESTNET_BLOCKED | STARTUP_RECONCILE
  | DUPLICATE_EVENT | OUT_OF_ORDER_EVENT | MISSED_EVENT_GAP | WEBSOCKET_DISCONNECT | REST_LAG | RESTART_MID_FILL | PARTIAL_FILL
  | CANCEL_REJECT | ORDER_TIMEOUT | RAPID_FLIP | UNSUPPORTED_SYMBOL | RATE_LIMIT | PRECISION_ERROR | MARGIN_ERROR | CLOCK_SKEW
  | STALE_SOURCE | STALE_FOLLOWER | MANUAL_INTERVENTION | AMBIGUOUS_EXCHANGE_RESPONSE | OPERATOR_KILL_SWITCH | RISK_LIMIT
  | DUPLICATE_INTENT | CIRCUIT_BREAKER | CONCURRENT_INSTANCE.

Definition reason_value (r : SafeModeReason) : string :=
  match r with
  | NONE => "none" | ACCOUNT_NOT_CONFIGURED => "account_not_configured" | CONFIG_INVALID => "config_invalid"
  | PREFLIGHT_FAILED => "preflight_failed" | LIVE_BLOCKED => "live_blocked" | TESTNET_BLOCKED => "testnet_blocked"
  | STARTUP_RECONCILE => "startup_reconcile" | DUPLICATE_EVENT => "duplicate_event" | OUT_OF_ORDER_EVENT => "out_of_order_event"
  | MISSED_EVENT_GAP => "missed_event_gap" | WEBSOCKET_DISCONNECT => "websocket_disconnect" | REST_LAG => "rest_lag"
  | RESTART_MID_FILL => "restart_mid_fill" | PARTIAL_FILL => "partial_fill" | CANCEL_REJECT => "cancel_reject"
  | ORDER_TIMEOUT => "order_timeout" | RAPID_FLIP => "rapid_flip" | UNSUPPORTED_SYMBOL => "unsupported_symbol"
  | RATE_LIMIT => "rate_limit" | PRECISION_ERROR => "precision_error" | MARGIN_ERROR => "margin_error" | CLOCK_SKEW => "clock_skew"
  | STALE_SOURCE => "stale_source" | STALE_FOLLOWER => "stale_follower" | MANUAL_INTERVENTION => "manual_intervention"
  | AMBIGUOUS_EXCHANGE_RESPONSE => "ambiguous_exchange_response" | OPERATOR_KILL_SWITCH => "operator_kill_switch"
  | RISK_LIMIT => "risk_limit" | DUPLICATE_INTENT => "duplicate_intent" | CIRCUIT_BREAKER => "circuit_breaker"
  | CONCURRENT_INSTANCE => "concurrent_instance"
  end.

Definition all_reasons : list SafeModeReason :=
  [NONE; ACCOUNT_NOT_CONFIGURED; CONFIG_INVALID; PREFLIGHT_FAILED; LIVE_BLOCKED; TESTNET_BLOCKED; STARTUP_RECONCILE;
   DUPLICATE_EVENT; OUT_OF_ORDER_EVENT; MISSED_EVENT_GAP; WEBSOCKET_DISCONNECT; REST_LAG; RESTART_MID_FILL; PARTIAL_FILL;
   CANCEL_REJECT; ORDER_TIMEOUT; RAPID_FLIP; UNSUPPORTED_SYMBOL; RATE_LIMIT; PRECISION_ERROR; MARGIN_ERROR; CLOCK_SKEW;
   STALE_SOURCE; STALE_FOLLOWER; MANUAL_INTERVENTION; AMBIGUOUS_EXCHANGE_RESPONSE; OPERATOR_KILL_SWITCH; RISK_LIMIT;
   DUPLICATE_INTENT; CIRCUIT_BREAKER; CONCURRENT_INSTANCE].

(** [SafeModeReason(text)]; [None] where it raises [ValueError]. *)
Definition reason_of (text : string) : option SafeModeReason := List.find (fun r => String.eqb (reason_value r) text) all_reasons.

(** * The journal *)

Record SafeModeTransition := MkTransition {
  tr_id : string;
  tr_enabled : bool;
  tr_reason : SafeModeReason;
  tr_detail : string;
  tr_created_ms : Z;
}.

(** A row of [safe_mode_transitions]; its reason is text, which a damaged file may hold. *)
Record SafeRow := MkSafeRow { sr_seq : Z; sr_id : string; sr_enabled : bool; sr_reason : string; sr_detail : string; sr_created_ms : Z }.

Definition Journal : Type := list SafeRow.

(** [latest_safe_mode]: the row with the greatest number, which is the last. *)
Definition latest_safe_mode (j : Journal) : option SafeRow := list.last j.

Definition latest_seq (j : Journal) : Z := match latest_safe_mode j with Some r => sr_seq r | None => 0 end.

Definition row_of (seq : Z) (t : SafeModeTransition) : SafeRow :=
  MkSafeRow seq (tr_id t) (tr_enabled t) (reason_value (tr_reason t)) (tr_detail t) (tr_created_ms t).

Definition insert_row (t : SafeModeTransition) (j : Journal) : Journal := j ++ [row_of (latest_seq j + 1) t].

(** [append_safe_mode]: a repeated identity is ignored. *)
Definition append_safe_mode (t : SafeModeTransition) (j : Journal) : Journal * bool :=
  if bool_decide (tr_id t ∈ sr_id <$> j) then (j, false) else (insert_row t j, true).

(** [append_safe_mode_if_revision], one transaction *)
Definition append_safe_mode_if_revision (t : SafeModeTransition) (expected_seq : Z) (j : Journal) : res (Journal * bool) :=
  if negb (latest_seq j =? expected_seq) then Ok (j, false)
  else if bool_decide (tr_id t ∈ sr_id <$> j) then Raise (IntegrityError "UNIQUE constraint failed: safe_mode_transitions.transition_id")
  else Ok (insert_row t j, true).

(** * One controller *)

Record SafeModeController := MkController { store : bool; revision : Z; enabled : bool; reason : SafeModeReason; detail : string }.

Record Moment := MkMoment { observed : Z; uuid : string; meanwhile : Journal -> Journal }.

Definition Safe : Type := SafeModeController * Journal.

Definition set_mode (on : bool) (why : SafeModeReason) (text : string) (c : SafeModeController) : SafeModeController :=
  MkController (store c) (revision c) on why text.

Definition recursion_error {A} : res A := Raise (OtherError "RecursionError" "maximum recursion depth exceeded").

Section Controller.
Variable blake2s : string -> string.

Definition trip_transition (m : Moment) (why : SafeModeReason) (text : string) : SafeModeTransition :=
  MkTransition (deterministic_cloid blake2s [JStr "safe"; JStr (reason_value why); JStr text; JInt (observed m); JStr (uuid m)]) true why text (observed m).

(** [append_safe_mode] as a method makes it, and what the others do until the journal is read again. *)
Definition append_then (m : Moment) (t : SafeModeTransition) (s : Safe) : Safe :=
  if store s.1 then (s.1, meanwhile m (append_safe_mode t s.2).1) else s.

(** The newest row that the controller does not know. *)
Definition news (s : Safe) : option SafeRow :=
  if negb (store s.1) then None else r ← latest_safe_mode s.2; if sr_seq r <=? revision s.1 then None else Some r.

Definition adopt (r : SafeRow) (why : SafeModeReason) (c : SafeModeController) : SafeModeController :=
  MkController (store c) (sr_seq r) (sr_enabled r) why (sr_detail r).

(** [refresh_from_store]; a row whose reason cannot be read trips the safe mode, which reads again. *)
Fixpoint refresh_from_store (ms : list Moment) (s : Safe) : res (Safe * bool) :=
  match news s with
  | None => Ok (s, false)
  | Some r =>
      match reason_of (if is_empty (sr_reason r) then "none" else sr_reason r) with
      | Some why => Ok (adopt r why s.1, s.2, true)
      | None =>
          match ms with
          | [] => recursion_error
          | m :: ms =>
              let text := "safe-mode journal reason is invalid: " +:+ sr_reason r in
              '(s, _) ← refresh_from_store ms (append_then m (trip_transition m CONFIG_INVALID text) (set_mode true CONFIG_INVALID text s.1, s.2));
              Ok (s, true)
          end
      end
  end.

(** What follows a write: only a controller with a store reads it again. *)
Definition reread (ms : list Moment) (s : Safe) : res Safe :=
  if store s.1 then fst <$> refresh_from_store ms s else Ok s.

Definition trip (m : Moment) (ms : list Moment) (why : SafeModeReason) (text : string) (s : Safe) : res (Safe * SafeModeTransition) :=
  let t := trip_transition m why text in
  s ← reread ms (append_then m t (set_mode true why text s.1, s.2)); Ok (s, t).

Definition clear (m : Moment) (ms : list Moment) (text : string) (s : Safe) : res (Safe * SafeModeTransition) :=
  let t := MkTransition (deterministic_cloid blake2s [JStr "safe-clear"; JStr text; JInt (observed m); JStr (uuid m)]) false NONE text (observed m) in
  s ← reread ms (append_then m t (set_mode false NONE text s.1, s.2)); Ok (s, t).

Definition clear_if_revision (m : Moment) (ms : list Moment) (expected_revision : Z) (text : string) (s : Safe)
    : res (Safe * option SafeModeTransition) :=
  if negb (store s.1) then (fun r => (r.1, Some r.2)) <$> clear m ms text s else
  let t := MkTransition (deterministic_cloid blake2s [JStr "safe-clear"; JStr text; JInt (observed m); JInt expected_revision; JStr (uuid m)])
             false NONE text (observed m) in
  written ← append_safe_mode_if_revision t expected_revision s.2;
  read ← refresh_from_store ms (s.1, meanwhile m written.1);
  Ok (read.1, if (written : Journal * bool).2 then Some t else None).

(** [SafeModeController(store)] *)
Definition new_controller (with_store : bool) (ms : list Moment) (j : Journal) : res Safe :=
  fst <$> refresh_from_store ms (MkController with_store 0 false NONE "", j).
End Controller.

(** * The shield *)

Inductive SourceEventType := ET_POSITION | ET_FILL | ET_OPEN_ORDER | ET_CANCEL | ET_LEVERAGE | ET_RECONCILE | ET_SNAPSHOT.

Definition event_type_value (t : SourceEventType) : string :=
  match t with
  | ET_POSITION => "position" | ET_FILL => "fill" | ET_OPEN_ORDER => "open_order" | ET_CANCEL => "cancel"
  | ET_LEVERAGE => "leverage" | ET_RECONCILE => "reconcile" | ET_SNAPSHOT => "snapshot"
  end.

(** The fields that the shield reads. *)
Record SourceEvent := MkSourceEvent { idempotency_key : string; event_type : SourceEventType; exchange_ts_ms : Z; payload : list (string * json) }.

Record ShieldResult := MkShieldResult { ok : bool; sh_action : string; sh_reason : SafeModeReason; sh_detail : string }.

Record ConsistencyShield := MkShield {
  safe_mode : Safe;
  rapid_flip_ms : Z;
  last_event_ts_by_key : dict Z;
  last_position_side_by_coin : dict (string * Z);
}.

Definition with_safe (s : Safe) (c : ConsistencyShield) : ConsistencyShield :=
  MkShield s (rapid_flip_ms c) (last_event_ts_by_key c) (last_position_side_by_coin c).
Definition with_ts (ts : dict Z) (c : ConsistencyShield) : ConsistencyShield :=
  MkShield (safe_mode c) (rapid_flip_ms c) ts (last_position_side_by_coin c).
Definition with_sides (sides : dict (string * Z)) (c : ConsistencyShield) : ConsistencyShield :=
  MkShield (safe_mode c) (rapid_flip_ms c) (last_event_ts_by_key c) sides.

Definition RECOVERABLE_TERMINAL_STATUSES : list string :=
  ["filled"; "canceled"; "rejected"; "marginCanceled"; "openInterestCapCanceled"; "selfTradeCanceled"; "reduceOnlyCanceled"; "scheduledCancel"].

(** [_source_event_ordering_key] *)
Definition ordering_key (e : SourceEvent) : string :=
  let source := py_lower (py_str (json_or (obj_field "timestamp_source" (payload e)) (JStr "exchange"))) in
  let source := if bool_decide (source ∈ ["exchange"; "observed"]) then source else "exchange" in
  let kind := event_type_value (event_type e) in
  let stream := py_str (json_or (obj_field "channel" (payload e)) (json_or (obj_field "event_subtype" (payload e)) (JStr kind))) in
  let stream := py_lower (py_strip stream) in
  let stream := if (0 <? py_count ":"%char stream)%nat then of_chars (split_at ":"%char (to_chars stream)).1 else stream in
  let stream := if is_empty stream then kind else stream in
  kind +:+ ":" +:+ source +:+ ":" +:+ stream.

Section Shield.
Variable blake2s : string -> string.

(** One call of the shield: its result, or an error of the journal. *)
Definition Outcome : Type := res (ConsistencyShield * ShieldResult).

Definition passed (action : string) (why : SafeModeReason) (text : string) (c : ConsistencyShield) : Outcome :=
  Ok (c, MkShieldResult true action why text).

Definition paused (m : Moment) (ms : list Moment) (why : SafeModeReason) (text : string) (c : ConsistencyShield) : Outcome :=
  r ← trip blake2s m ms why text (safe_mode c);
  Ok (with_safe r.1 c, MkShieldResult false "paused" why text).

Definition observe_source_event (m : Moment) (ms : list Moment) (e : SourceEvent) (already_seen : bool) (c : ConsistencyShield) : Outcome :=
  if already_seen then passed "deduped" DUPLICATE_EVENT (idempotency_key e) c else
  let key := ordering_key e in
  match dict_get key (last_event_ts_by_key c) with
  | Some previous =>
      if negb (exchange_ts_ms e =? 0) && (exchange_ts_ms e <? previous)
      then paused m ms OUT_OF_ORDER_EVENT (idempotency_key e +:+ " older than prior " +:+ str_of_Z previous +:+ " on " +:+ key) c
      else passed "accepted" NONE "" (if exchange_ts_ms e =? 0 then c else with_ts (dict_set key (exchange_ts_ms e) (last_event_ts_by_key c)) c)
  | None => passed "accepted" NONE "" (if exchange_ts_ms e =? 0 then c else with_ts (dict_set key (exchange_ts_ms e) (last_event_ts_by_key c)) c)
  end.

Definition check_startup_reconcile (m : Moment) (ms : list Moment) (mismatches : list string) (c : ConsistencyShield) : Outcome :=
  match mismatches with
  | [] => passed "recovered" STARTUP_RECONCILE "startup clean" c
  | _ => paused m ms STARTUP_RECONCILE (String.concat "; " mismatches) c
  end.

Definition websocket_disconnect (m : Moment) (ms : list Moment) (text : string) (c : ConsistencyShield) : Outcome :=
  paused m ms WEBSOCKET_DISCONNECT text c.

Definition missed_event_gap (m : Moment) (ms : list Moment) (text : string) (c : ConsistencyShield) : Outcome :=
  paused m ms MISSED_EVENT_GAP text c.

(** An age or a lag that may not exceed its threshold. *)
Definition bounded_age (m : Moment) (ms : list Moment) (action what : string) (why : SafeModeReason) (age threshold : Z) (c : ConsistencyShield) : Outcome :=
  if age <=? threshold then passed action NONE "" c
  else paused m ms why (what +:+ " " +:+ str_of_Z age +:+ "ms exceeds " +:+ str_of_Z threshold +:+ "ms") c.

Definition rest_lag (m : Moment) (ms : list Moment) : Z -> Z -> ConsistencyShield -> Outcome := bounded_age m ms "accepted" "REST lag" REST_LAG.
Definition stale_source (m : Moment) (ms : list Moment) : Z -> Z -> ConsistencyShield -> Outcome := bounded_age m ms "fresh" "source data age" STALE_SOURCE.
Definition stale_follower (m : Moment) (ms : list Moment) : Z -> Z -> ConsistencyShield -> Outcome :=
  bounded_age m ms "fresh" "follower data age" STALE_FOLLOWER.

Definition restart_mid_fill (m : Moment) (ms : list Moment) (pending_intents : nat) (c : ConsistencyShield) : Outcome :=
  if (pending_intents =? 0)%nat then passed "recovered" RESTART_MID_FILL "no pending intents" c
  else paused m ms RESTART_MID_FILL (str_of_Z (Z.of_nat pending_intents) +:+ " pending intents require exchange truth") c.

Definition partial_fill (m : Moment) (ms : list Moment) (expected filled : dec) (cloid : string) (c : ConsistencyShield) : Outcome :=
  if deqb filled expected then passed "filled" NONE "" c
  else paused m ms PARTIAL_FILL (cloid +:+ " filled " +:+ dec_str filled +:+ " of " +:+ dec_str expected) c.

Definition cancel_reject (m : Moment) (ms : list Moment) (cloid : string) (order_status : option string) (c : ConsistencyShield) : Outcome :=
  let failed := paused m ms CANCEL_REJECT ("cancel rejected for " +:+ cloid +:+ "; status=" +:+
                  match order_status with Some s => if is_empty s then "unknown" else s | None => "unknown" end) c in
  match order_status with
  | Some s => if bool_decide (s ∈ RECOVERABLE_TERMINAL_STATUSES) then passed "recovered" CANCEL_REJECT s c else failed
  | None => failed
  end.

Definition order_timeout (m : Moment) (ms : list Moment) (cloid : string) (c : ConsistencyShield) : Outcome :=
  paused m ms ORDER_TIMEOUT ("order activity timed out for " +:+ cloid) c.

Definition unsupported_symbol (m : Moment) (ms : list Moment) (coin : string) (c : ConsistencyShield) : Outcome :=
  paused m ms UNSUPPORTED_SYMBOL (coin +:+ " is not in allowlist or exchange metadata") c.

Definition side_text (size : dec) : string := if dpos size then "long" else if dnegative size then "short" else "flat".

(** [rapid_flip]; [now] is the argument, or the clock where that is absent or zero. *)
Definition rapid_flip (m : Moment) (ms : list Moment) (coin : string) (new_size : dec) (now : Z) (c : ConsistencyShield) : Outcome :=
  let side := side_text new_size in
  let previous := dict_get coin (last_position_side_by_coin c) in
  let c := with_sides (dict_set coin (side, now) (last_position_side_by_coin c)) c in
  match previous with
  | Some (old_side, old_ts) =>
      if bool_decide (old_side ∈ ["long"; "short"]) && bool_decide (side ∈ ["long"; "short"]) && negb (bool_decide (old_side = side))
         && (now - old_ts <=? rapid_flip_ms c)
      then paused m ms RAPID_FLIP (coin +:+ " flipped " +:+ old_side +:+ "->" +:+ side +:+ " in " +:+ str_of_Z (now - old_ts) +:+ "ms") c
      else passed "accepted" NONE "" c
  | None => passed "accepted" NONE "" c
  end.

(** ** Manual intervention *)

(** [f"{sorted(l)}"] of a set of texts *)
Definition sorted_text (l : list string) : string := py_str (JList (JStr <$> py_sorted str_leb l)).

(** The orders by their lower-case identity, the first of each, and the identities that occur again. *)
Definition index_orders (orders : list OpenOrder) : dict OpenOrder * list string :=
  fold_left (fun acc o =>
    match oo_cloid o with
    | None | Some "" => acc
    | Some cloid =>
        let cloid := py_lower cloid in
        match dict_get cloid acc.1 with
        | Some _ => (acc.1, if bool_decide (cloid ∈ acc.2) then acc.2 else acc.2 ++ [cloid])
        | None => (dict_set cloid o acc.1, acc.2)
        end
    end) orders ([], []).

Definition has_cloid (o : OpenOrder) : bool := match oo_cloid o with None | Some "" => false | Some _ => true end.

(** Whether a difference of sizes is forgiven: never a position where none is expected. *)
Definition tolerated (coin : string) (expected actual tolerance : dec) (notional_tolerance : option dec) (mids : dict pydec) : bool :=
  let size_delta := dabs (dsub actual expected) in
  if dis_zero expected && negb (dis_zero actual) then false else
  match notional_tolerance with
  | Some limit => match dict_get coin mids with Some (Fin px) => dpos px && dltb (dmul size_delta px) limit | _ => false end
  | None => dleb size_delta tolerance
  end.

Definition held_size (coin : string) (positions : dict Position) : dec := match dict_get coin positions with Some p => pos_size p | None => dzero end.
Definition held_leverage (coin : string) (positions : dict Position) : option Z := dict_get coin positions ≫= pos_leverage.

Definition leverage_differs (expected actual : dec) (expected_leverage actual_leverage : option Z) : option (Z * string) :=
  match expected_leverage with
  | Some l =>
      if negb (dis_zero expected) && negb (dis_zero actual) && negb (bool_decide (actual_leverage = Some l))
      then Some (l, match actual_leverage with Some a => str_of_Z a | None => "unknown" end) else None
  | None => None
  end.

(** What differs in one market. *)
Definition coin_mismatches (expected actual : dict Position) (tolerance : dec) (notional_tolerance : option dec) (mids : dict pydec) (coin : string) : list string :=
  let e := held_size coin expected in let a := held_size coin actual in
  (if tolerated coin e a tolerance notional_tolerance mids then [] else [coin +:+ " expected " +:+ dec_str e +:+ " actual " +:+ dec_str a]) ++
  match leverage_differs e a (held_leverage coin expected) (held_leverage coin actual) with
  | Some (l, text) => [coin +:+ " expected leverage " +:+ str_of_Z l +:+ " actual " +:+ text]
  | None => []
  end.

(** [_open_order_mismatches] *)
Definition open_order_mismatches (expected actual : OpenOrder) : res (list string) :=
  a ← canonical_market_symbol (JStr (oo_coin actual));
  e ← canonical_market_symbol (JStr (oo_coin expected));
  let price_text (p : option dec) := match p with Some d => dec_str d | None => "None" end in
  let bool_text (b : bool) := if b then "True" else "False" in
  let same_price := match oo_price actual, oo_price expected with Some x, Some y => deqb x y | None, None => true | _, _ => false end in
  Ok ((if bool_decide (a = e) then [] else ["coin expected " +:+ e +:+ " actual " +:+ a]) ++
      (if bool_decide (py_lower (oo_side actual) = py_lower (oo_side expected)) then []
       else ["side expected " +:+ py_lower (oo_side expected) +:+ " actual " +:+ py_lower (oo_side actual)]) ++
      (if deqb (oo_size actual) (oo_size expected) then [] else ["size expected " +:+ dec_str (oo_size expected) +:+ " actual " +:+ dec_str (oo_size actual)]) ++
      (if same_price then [] else ["price expected " +:+ price_text (oo_price expected) +:+ " actual " +:+ price_text (oo_price actual)]) ++
      (if Bool.eqb (oo_reduce_only actual) (oo_reduce_only expected) then []
       else ["reduce_only expected " +:+ bool_text (oo_reduce_only expected) +:+ " actual " +:+ bool_text (oo_reduce_only actual)])).

(** The orders of both books, one identity after the other. *)
Definition order_mismatches (expected_orders by_cloid : dict OpenOrder) (cloid : string) : res (list string) :=
  match dict_get cloid expected_orders, dict_get cloid by_cloid with
  | Some expected, Some actual =>
      l ← open_order_mismatches expected actual;
      Ok (match l with [] => [] | _ => [cloid +:+ " open order mismatch: " +:+ String.concat ", " l] end)
  | _, _ => Ok []
  end.

Definition sorted_coins (a b : dict Position) : list string := py_sorted str_leb (remove_dups (dict_keys a ++ dict_keys b)).

(** All that differs between the expected and the actual account. *)
Definition mismatches (expected actual : dict Position) (expected_cloids : list string) (orders : list OpenOrder) (expected_orders : dict OpenOrder)
    (tolerance : dec) (notional_tolerance : option dec) (mids : dict pydec) : res (list string) :=
  let '(by_cloid, duplicates) := index_orders orders in
  let actual_cloids := dict_keys by_cloid in
  let uncloided := List.filter (fun o => negb (has_cloid o)) orders in
  let missing := set_difference expected_cloids actual_cloids in
  let extra := set_difference actual_cloids expected_cloids in
  per_order ← map_res (order_mismatches expected_orders by_cloid)
                (py_sorted str_leb (List.filter (fun c => bool_decide (c ∈ actual_cloids)) (remove_dups expected_cloids)));
  Ok (concat (coin_mismatches expected actual tolerance notional_tolerance mids <$> sorted_coins expected actual) ++
      (match uncloided with [] => [] | _ => ["unexpected open orders without cloid on " +:+ sorted_text (remove_dups (oo_coin <$> uncloided))] end) ++
      (match missing with [] => [] | _ => ["missing open cloids " +:+ sorted_text missing] end) ++
      (match extra with [] => [] | _ => ["unexpected open cloids " +:+ sorted_text extra] end) ++
      (match duplicates with [] => [] | _ => ["duplicate open cloids " +:+ sorted_text duplicates] end) ++ concat per_order).

Definition manual_intervention (m : Moment) (ms : list Moment) (expected actual : dict Position) (expected_cloids : list string) (orders : list OpenOrder)
    (expected_orders : dict OpenOrder) (tolerance : dec) (notional_tolerance : option dec) (mids : dict pydec) (c : ConsistencyShield) : Outcome :=
  l ← mismatches expected actual expected_cloids orders expected_orders tolerance notional_tolerance mids;
  match l with
  | [] => passed "matched" NONE "" c
  | _ => paused m ms MANUAL_INTERVENTION (String.concat "; " l) c
  end.

(** ** Errors of the exchange *)

Definition is_hex (x : ascii) : bool := is_digit x || in_range 97 102 x.

(** [re.search(r"(?<![0-9a-f])429(?![0-9a-f])", text)]; [before] is the character before. *)
Fixpoint status_429 (before : option ascii) (l : chars) : bool :=
  match l with
  | [] => false
  | x :: t =>
      (match l with
       | "4"%char :: "2"%char :: "9"%char :: rest =>
           match before with Some b => negb (is_hex b) | None => true end && match rest with y :: _ => negb (is_hex y) | [] => true end
       | _ => false
       end) || status_429 (Some x) t
  end.

Definition any_of (needles : list string) (text : string) : bool := existsb (fun n => contains n text) needles.

Definition error_reason (message : string) : SafeModeReason :=
  let lowered := py_lower message in
  if any_of ["rate limit"; "too many request"] lowered || status_429 None (to_chars lowered) then RATE_LIMIT
  else if any_of ["tick"; "precision"; "divisible"; "invalid size"] lowered then PRECISION_ERROR
  else if any_of ["margin"; "insufficient"; "max position"] lowered then MARGIN_ERROR
  else if any_of ["could not immediately match"] lowered then RISK_LIMIT
  else if any_of ["nonce"; "clock"; "timestamp"] lowered then CLOCK_SKEW
  else AMBIGUOUS_EXCHANGE_RESPONSE.

Definition exchange_error (m : Moment) (ms : list Moment) (message : string) (c : ConsistencyShield) : Outcome :=
  paused m ms (error_reason message) message c.
End Shield.
