(* ===== verification/SafetyFacts.v ===== *)
(** Facts about the shared safe mode: a controller that reads the journal again is in step
    with it, an incident is only cleared while it is the newest, and the shield lets an
    account pass exactly when both books agree. *)

From S2P Require Import Prelude PyDecimal DecimalFacts PyText Models Markets MarketFacts Safety.
From stdpp Require sorting.
From Stdlib Require Import QArith.

Open Scope Z_scope.

(** * Journals *)

(** Rows are numbered upwards from one. *)
Definition seq_ordered (j : Journal) : Prop := StronglySorted (fun a b => sr_seq a < sr_seq b) j /\ Forall (fun r => 0 < sr_seq r) j.

Definition extends (j j' : Journal) : Prop := seq_ordered j' /\ exists more, j' = j ++ more.

(** What other processes do only appends. *)
Definition appending (m : Moment) : Prop := forall j, seq_ordered j -> extends j (meanwhile m j).

Lemma latest_snoc j r : latest_safe_mode (j ++ [r]) = Some r /\ latest_seq (j ++ [r]) = sr_seq r.
Proof. unfold latest_seq, latest_safe_mode. by rewrite list.last_snoc. Qed.

Lemma seq_ordered_bound j r : seq_ordered j -> r ∈ j -> sr_seq r <= latest_seq j.
Proof.
  intros [Hs _] Hr. destruct j as [|x j _] using rev_ind; [by apply elem_of_nil in Hr|]. rewrite (proj2 (latest_snoc j x)).
  apply sorting.StronglySorted_app in Hs as (Hlt & _ & _). apply elem_of_app in Hr as [Hr|Hr%list_elem_of_singleton]; [|by subst].
  specialize (Hlt r x Hr ltac:(by left)). lia.
Qed.

Lemma seq_ordered_snoc j r : seq_ordered j -> latest_seq j < sr_seq r -> 0 <= latest_seq j -> seq_ordered (j ++ [r]).
Proof.
  intros Hn Hr H0. pose proof Hn as [Hs Hp]. split.
  - apply sorting.StronglySorted_app. split; [|by split; [|repeat constructor]]. intros x y Hx ->%list_elem_of_singleton.
    pose proof (seq_ordered_bound j x Hn Hx). lia.
  - apply Forall_app. split; [done|]. repeat constructor. lia.
Qed.

Lemma latest_nonneg j : seq_ordered j -> 0 <= latest_seq j.
Proof.
  intros [_ Hp]. destruct j as [|x j _] using rev_ind; [done|]. rewrite (proj2 (latest_snoc j x)). apply Forall_app in Hp as [_ Hp].
  inversion_clear Hp. lia.
Qed.

Lemma extends_refl j : seq_ordered j -> extends j j.
Proof. intros H. split; [done|]. exists []. by rewrite app_nil_r. Qed.

Lemma extends_trans j1 j2 j3 : extends j1 j2 -> extends j2 j3 -> extends j1 j3.
Proof. intros [_ (a & ->)] [H (b & ->)]. split; [done|]. exists (a ++ b). by rewrite app_assoc. Qed.

(** A longer journal has a newer row. *)
Lemma extends_latest j j' : extends j j' -> latest_seq j < latest_seq j' \/ j' = j.
Proof.
  intros [Hn (more & ->)]. destruct more as [|x more _] using rev_ind; [right; by rewrite app_nil_r|]. left.
  rewrite app_assoc in Hn |- *. rewrite (proj2 (latest_snoc _ x)). destruct Hn as [Hs Hp]. apply sorting.StronglySorted_app in Hs as (Hlt & _ & _).
  destruct j as [|y j _] using rev_ind.
  - cbn. apply Forall_app in Hp as [_ Hp]. by inversion_clear Hp.
  - rewrite (proj2 (latest_snoc j y)). apply Hlt; [|by left]. apply elem_of_app. left. apply elem_of_app. right. by left.
Qed.

Lemma insert_extends t j : seq_ordered j -> extends j (insert_row t j).
Proof.
  intros H. split; [|by eexists]. pose proof (latest_nonneg j H). apply seq_ordered_snoc; [done| |done]. cbn [row_of sr_seq]. lia.
Qed.

Lemma append_extends t j : seq_ordered j -> extends j (append_safe_mode t j).1.
Proof. intros H. unfold append_safe_mode. destruct (bool_decide _); [by apply extends_refl|by apply insert_extends]. Qed.

(** * Controllers *)

(** What the controller says is what the newest row says. *)
Definition in_step (s : Safe) : Prop :=
  match latest_safe_mode s.2 with
  | Some r => revision s.1 = sr_seq r /\ enabled s.1 = sr_enabled r /\ detail s.1 = sr_detail r /\
              reason_of (if is_empty (sr_reason r) then "none" else sr_reason r) = Some (reason s.1)
  | None => revision s.1 = 0 /\ enabled s.1 = false
  end.

(** It is in step, or there are rows it has not read. *)
Definition tracks (s : Safe) : Prop := 0 <= revision s.1 /\ (revision s.1 < latest_seq s.2 \/ in_step s).

Lemma in_step_revision s : in_step s -> revision s.1 = latest_seq s.2.
Proof. unfold in_step, latest_seq. by destruct (latest_safe_mode s.2); intros [-> _]. Qed.

Lemma tracks_later c j j' : extends j j' -> tracks (c, j) -> tracks (c, j').
Proof.
  intros He [H0 H]; split; [done|]; cbn [fst snd] in *. apply extends_latest in He as [He| ->]; [|done]. left.
  destruct H as [H|H%in_step_revision]; cbn [fst snd] in *; lia.
Qed.

Lemma news_cases s : store s.1 = true -> tracks s ->
  (exists r, news s = Some r /\ latest_safe_mode s.2 = Some r /\ revision s.1 < sr_seq r) \/ news s = None /\ in_step s.
Proof.
  intros Hst [H0 Ht]. unfold news. rewrite Hst. cbn [negb]. unfold latest_seq in Ht. destruct (latest_safe_mode s.2) as [r|] eqn:E; cbn [mbind option_bind].
  - destruct (Z.leb_spec (sr_seq r) (revision s.1)); [|left; by exists r]. right. destruct Ht as [Ht|Ht]; [lia|done].
  - right. destruct Ht as [Ht|Ht]; [lia|done].
Qed.

Lemma adopt_in_step s r why : latest_safe_mode s.2 = Some r -> reason_of (if is_empty (sr_reason r) then "none" else sr_reason r) = Some why ->
  in_step (adopt r why s.1, s.2).
Proof. intros Hr Hw. unfold in_step. cbn [snd fst]. rewrite Hr. by split. Qed.

Section Controllers.
Variable blake2s : string -> string.

(** Reading the journal again brings a controller in step with it, even over rows that
    cannot be read: they trip the safe mode. *)
Lemma refresh_in_step ms s s' b : store s.1 = true -> tracks s -> seq_ordered s.2 -> Forall appending ms ->
  refresh_from_store blake2s ms s = Ok (s', b) -> in_step s' /\ extends s.2 s'.2.
Proof.
  revert s s' b. induction ms as [|m ms IH]; intros s s' b Hst Ht Hn Hms; cbn [refresh_from_store];
    destruct (news_cases s Hst Ht) as [(r & -> & Hr & Hlt)|[-> Hin]]; try (intros [= <- _]; split; [done|by apply extends_refl]).
  - destruct (reason_of _) as [why|] eqn:E; [|done]. intros [= <- _]. split; [by apply adopt_in_step|by apply extends_refl].
  - destruct (reason_of _) as [why|] eqn:E; [intros [= <- _]; split; [by apply adopt_in_step|by apply extends_refl]|].
    intros ([s1 b1] & H & [= <- _])%bind_Ok. inversion_clear Hms as [|? ? Hm Hms'].
    set (text := "safe-mode journal reason is invalid: " +:+ sr_reason r) in *. set (t := trip_transition blake2s m CONFIG_INVALID text) in *.
    unfold append_then in H. cbn [fst snd set_mode store] in H. rewrite Hst in H.
    assert (extends s.2 (meanwhile m (append_safe_mode t s.2).1)) as He.
    { eapply extends_trans; [by apply (append_extends t)|]. apply Hm. by apply append_extends. }
    apply IH in H as [Hin He']; [|done| |by destruct He|done].
    + split; [done|]. by eapply extends_trans.
    + split; [by apply Ht|]. left. cbn [fst snd]. change (revision (set_mode true CONFIG_INVALID text s.1)) with (revision s.1).
      assert (latest_seq s.2 = sr_seq r) as El by (unfold latest_seq; by rewrite Hr). apply extends_latest in He as [He| ->]; lia.
Qed.

Lemma reread_in_step ms s s' : store s.1 = true -> tracks s -> seq_ordered s.2 -> Forall appending ms -> reread blake2s ms s = Ok s' ->
  in_step s' /\ extends s.2 s'.2.
Proof.
  intros Hst Ht Hn Hms. unfold reread. rewrite Hst. intros ([s1 b] & H & ->)%fmap_Ok. by apply (refresh_in_step ms s s1 b).
Qed.

(** A write of a new identity that is followed by reading the journal. *)
Lemma written_in_step m ms t c j s' : store c = true -> 0 <= revision c <= latest_seq j -> seq_ordered j -> appending m -> Forall appending ms ->
  tr_id t ∉ sr_id <$> j -> reread blake2s ms (append_then m t (c, j)) = Ok s' -> in_step s' /\ extends (insert_row t j) s'.2.
Proof.
  intros Hst Hr Hn Hm Hms Hid. unfold append_then, append_safe_mode. cbn [fst snd]. rewrite Hst. rewrite bool_decide_eq_false_2 by done. cbn [fst].
  destruct (insert_extends t j Hn) as [Hn' _]. destruct (Hm _ Hn') as [Hn'' Hmore]. intros H.
  apply reread_in_step in H as [Hin He]; [|done| |done|done].
  - split; [done|]. eapply extends_trans; [|exact He]. by split.
  - split; [cbn; lia|]. left. cbn [fst snd]. assert (latest_seq (insert_row t j) = latest_seq j + 1) as El by apply latest_snoc.
    destruct (extends_latest (insert_row t j) (meanwhile m (insert_row t j)) (conj Hn'' Hmore)) as [H'| ->]; lia.
Qed.

Lemma tracks_bound s : tracks s -> 0 <= revision s.1 <= latest_seq s.2.
Proof. intros [H0 [H|H%in_step_revision]]; lia. Qed.
End Controllers.

(** C24. The safe mode that processes share is the newest row of the journal.  For a controller that
    has only read rows of the journal, and whatever other processes append in between:
    tripping and clearing write their row after all rows there were and leave the controller
    in step with the newest row; a clear on condition of a revision writes its row exactly if
    that revision still is the newest, so that an incident nobody inspected is never hidden,
    and writes nothing otherwise; and after each of them the controller is in step with the
    newest row, an incident that came in between included. *)
Theorem safe_mode_shared blake2s m ms c j : store c = true -> tracks (c, j) -> seq_ordered j -> appending m -> Forall appending ms ->
  (forall why text s' t, tr_id (trip_transition blake2s m why text) ∉ sr_id <$> j -> trip blake2s m ms why text (c, j) = Ok (s', t) ->
     in_step s' /\ tr_enabled t = true /\ tr_reason t = why /\ extends (insert_row t j) s'.2) /\
  (forall text s' t, tr_id t ∉ sr_id <$> j -> clear blake2s m ms text (c, j) = Ok (s', t) ->
     in_step s' /\ tr_enabled t = false /\ extends (insert_row t j) s'.2) /\
  (forall expected text s' t, clear_if_revision blake2s m ms expected text (c, j) = Ok (s', t) ->
     in_step s' /\
     match t with
     | Some t => latest_seq j = expected /\ tr_enabled t = false /\ extends (insert_row t j) s'.2
     | None => latest_seq j <> expected /\ extends (meanwhile m j) s'.2
     end).
Proof.
  intros Hst Ht Hn Hm Hms. pose proof (tracks_bound _ Ht) as Hb. cbn [fst snd] in Hb. split; [|split].
  - intros why text s' t Hid (s1 & H & [= -> <-])%bind_Ok. cbn [fst snd] in H.
    apply (written_in_step blake2s m ms _ (set_mode true why text c)) in H as [Hin He]; try done.
  - intros text s' t Hid (s1 & H & [= -> <-])%bind_Ok. cbn [fst snd] in H.
    apply (written_in_step blake2s m ms _ (set_mode false NONE text c)) in H as [Hin He]; try done.
  - intros expected text s' t H. unfold clear_if_revision in H. cbn [fst snd] in H. rewrite Hst in H. cbn [negb] in H.
    apply bind_Ok in H as ([j1 ins] & Hw & H). apply bind_Ok in H as ([s1 b] & Hr & [= -> <-]). cbn [fst snd] in *.
    unfold append_safe_mode_if_revision in Hw. destruct (Z.eqb_spec (latest_seq j) expected) as [El|El]; cbn [negb] in Hw.
    + destruct (bool_decide _); [done|]. injection Hw as <- <-. set (t := MkTransition _ _ _ _ _) in *.
      pose proof (insert_extends t j Hn) as He1. pose proof (Hm _ (proj1 He1)) as He2. pose proof (extends_trans _ _ _ He1 He2) as He.
      apply refresh_in_step in Hr as [Hin Hx]; [|done|by apply (tracks_later c j)|by destruct He|done]. split; [done|]. split; [done|]. split; [done|].
      by apply (extends_trans _ (meanwhile m (insert_row t j))).
    + injection Hw as <- <-. pose proof (Hm _ Hn) as He. apply refresh_in_step in Hr as [Hin Hx]; [|done|by apply (tracks_later c j)|by destruct He|done].
      by split.
Qed.

(** * Both books *)

(** The lower-case identity of an order that has one. *)
Definition order_id (o : OpenOrder) : option string :=
  match oo_cloid o with None | Some "" => None | Some c => Some (py_lower c) end.

Lemma order_id_spec o : (order_id o = None <-> has_cloid o = false) /\ forall c, order_id o = Some c -> exists raw, oo_cloid o = Some raw /\ c = py_lower raw /\ raw <> "".
Proof. unfold order_id, has_cloid. destruct (oo_cloid o) as [[|a t]|]; (split; [done|]); intros c [= <-]; by eexists. Qed.

(** The index holds the first order of each identity, and what occurs again. *)
Definition index_of (orders : list OpenOrder) (acc : dict OpenOrder * list string) : Prop :=
  (forall c o, dict_get c acc.1 = Some o -> o ∈ orders /\ order_id o = Some c) /\
  (forall o c, o ∈ orders -> order_id o = Some c -> is_Some (dict_get c acc.1)) /\
  (acc.2 = [] -> NoDup (omap order_id orders)) /\ (acc.2 <> [] -> ~ NoDup (omap order_id orders)).

Lemma omap_snoc {A B} (f : A -> option B) l x : omap f (l ++ [x]) = omap f l ++ match f x with Some y => [y] | None => [] end.
Proof. rewrite omap_app. cbn. by destruct (f x). Qed.

Lemma index_step orders o acc acc' : index_of orders acc ->
  (match oo_cloid o with
   | None | Some "" => acc
   | Some cloid =>
       match dict_get (py_lower cloid) acc.1 with
       | Some _ => (acc.1, if bool_decide (py_lower cloid ∈ acc.2) then acc.2 else acc.2 ++ [py_lower cloid])
       | None => (dict_set (py_lower cloid) o acc.1, acc.2)
       end
   end) = acc' -> index_of (orders ++ [o]) acc'.
Proof.
  intros (H1 & H2 & H3 & H4) <-. unfold index_of. rewrite omap_snoc.
  destruct (order_id o) as [c|] eqn:Eid.
  2: { assert (match oo_cloid o with None | Some "" => True | _ => False end) as Hn by (unfold order_id in Eid; destruct (oo_cloid o) as [[|]|]; done).
       replace (match oo_cloid o with None | Some "" => acc | Some cloid => _ end) with acc by by destruct (oo_cloid o) as [[|]|].
       rewrite app_nil_r. split_and!; [|intros o' c [Hin| ->%list_elem_of_singleton]%elem_of_app; [by apply H2|congruence]|done|done].
       intros c o' Hg. destruct (H1 _ _ Hg) as [Hin Hid]. split; [apply elem_of_app; by left|done]. }
  destruct (proj2 (order_id_spec o) c Eid) as (raw & Hraw & -> & Hne). rewrite Hraw. destruct raw as [|ch raw]; [done|].
  set (c := py_lower (String ch raw)) in *. destruct (dict_get c acc.1) as [o0|] eqn:Eg; cbn [fst snd].
  - assert (~ NoDup (omap order_id orders ++ [c])) as Hdup.
    { intros (_ & Hd & _)%list.NoDup_app. apply (Hd c); [|by left]. destruct (H1 _ _ Eg) as [Hin Hid]. apply list_elem_of_omap. by exists o0. }
    split_and!.
    + intros c' o' Hg. destruct (H1 _ _ Hg) as [Hin Hid]. split; [apply elem_of_app; by left|done].
    + intros o' c' [Hin| ->%list_elem_of_singleton]%elem_of_app Hid; [by apply (H2 o')|]. rewrite Eid in Hid. injection Hid as <-. by rewrite Eg.
    + destruct (bool_decide _) eqn:Ed; [|by destruct acc.2]. intros E. rewrite E in Ed. apply bool_decide_eq_true in Ed. by apply elem_of_nil in Ed.
    + done.
  - assert (c ∉ omap order_id orders) as Hnew.
    { intros (o' & Hin & Hid)%list_elem_of_omap. destruct (H2 _ _ Hin Hid) as [x Hx]. congruence. }
    split_and!.
    + intros c' o' Hg. destruct (decide (c' = c)) as [->|Hc].
      * rewrite dict_get_set_eq in Hg. injection Hg as <-. split; [apply elem_of_app; right; by left|done].
      * rewrite dict_get_set_ne in Hg by done. destruct (H1 _ _ Hg) as [Hin Hid]. split; [apply elem_of_app; by left|done].
    + intros o' c' Hin Hid. destruct (decide (c' = c)) as [->|Hc]; [by rewrite dict_get_set_eq|]. rewrite dict_get_set_ne by done.
      apply elem_of_app in Hin as [Hin| ->%list_elem_of_singleton]; [by apply (H2 o')|congruence].
    + intros E. apply list.NoDup_app. split; [by apply H3|]. split; [intros x Hx ->%list_elem_of_singleton; contradiction|apply NoDup_singleton].
    + intros E Hnd. apply (H4 E). by apply list.NoDup_app in Hnd as (? & _).
Qed.

Lemma index_spec orders : index_of orders (index_orders orders).
Proof.
  unfold index_orders. induction orders as [|o orders IH] using rev_ind.
  - split_and!; [done|by intros ? ? ?%elem_of_nil|intros _; constructor|done].
  - rewrite fold_left_app. cbn [fold_left]. eapply index_step; [exact IH|]. reflexivity.
Qed.

(** Two records of one order. *)
Record same_order (expected actual : OpenOrder) : Prop := {
  so_coin : exists m, canonical_market_symbol (JStr (oo_coin actual)) = Ok m /\ canonical_market_symbol (JStr (oo_coin expected)) = Ok m;
  so_side : py_lower (oo_side actual) = py_lower (oo_side expected);
  so_size : (dval (oo_size actual) == dval (oo_size expected))%Q;
  so_price : match oo_price actual, oo_price expected with Some a, Some e => (dval a == dval e)%Q | None, None => True | _, _ => False end;
  so_reduce : oo_reduce_only actual = oo_reduce_only expected;
}.

Lemma if_nil {A} (b : bool) (l : list A) : l <> [] -> (if b then [] else l) = [] <-> b = true.
Proof. intros H. destruct b; [done|]. split; [intros ->; done|done]. Qed.

Lemma open_order_mismatches_nil e o l : open_order_mismatches e o = Ok l -> l = [] <-> same_order e o.
Proof.
  unfold open_order_mismatches. intros (a & Ha & H)%bind_Ok. apply bind_Ok in H as (x & Hx & [= <-]).
  rewrite !app_nil, !if_nil, !bool_decide_eq_true, deqb_spec, Bool.eqb_true_iff by done. split.
  - intros (-> & Hs & Hz & Hp & Hr). split; [by exists x|done|done| |done]. destruct (oo_price o), (oo_price e); try done. by apply deqb_spec.
  - intros [(m & Hm & Hm') Hs Hz Hp Hr]. split; [congruence|]. split; [done|]. split; [done|]. split; [|done].
    destruct (oo_price o), (oo_price e); try done. by apply deqb_spec.
Qed.

Lemma open_order_mismatches_total e o : same_order e o -> exists l, open_order_mismatches e o = Ok l.
Proof. intros [(m & Hm & Hm') _ _ _ _]. unfold open_order_mismatches. rewrite Hm, Hm'. by eexists. Qed.

(** Sizes that are close: nothing where nothing is expected, and a difference of at most the
    tolerance, or, when one is set for the value, worth less than that at a positive price. *)
Definition close (coin : string) (expected actual tolerance : dec) (notional_tolerance : option dec) (mids : dict pydec) : Prop :=
  ((dval expected == 0)%Q -> (dval actual == 0)%Q) /\
  match notional_tolerance with
  | None => (dval (dabs (dsub actual expected)) <= dval tolerance)%Q
  | Some limit => exists px, dict_get coin mids = Some (Fin px) /\ (0 < dval px)%Q /\
      (dval (dmul (dabs (dsub actual expected)) px) < dval limit)%Q
  end.

Lemma tolerated_close coin e a t n mids : tolerated coin e a t n mids = true <-> close coin e a t n mids.
Proof.
  unfold tolerated, close. cbv zeta. rewrite <- !dis_zero_spec. destruct (dis_zero e) eqn:Ez, (dis_zero a) eqn:Ea; cbn [negb andb].
  2: { split; [done|]. intros [H _]. by apply H. }
  all: destruct n as [limit|]; [|rewrite dleb_spec; by intuition].
  all: destruct (dict_get coin mids) as [[px| |]|]; try by (split; [done|intros (_ & px' & [=] & _)]).
  all: rewrite andb_true_iff, dpos_spec, dltb_spec; split;
    [intros [? ?]; split; [done|]; by exists px|intros (_ & px' & [= <-] & ? & ?); by split].
Qed.

(** The expected account and the one that the exchange reports agree. *)
Record books_agree (expected actual : dict Position) (expected_cloids : list string) (orders : list OpenOrder) (expected_orders : dict OpenOrder)
    (tolerance : dec) (notional_tolerance : option dec) (mids : dict pydec) : Prop := {
  ba_sizes coin : coin ∈ dict_keys expected ++ dict_keys actual ->
    close coin (held_size coin expected) (held_size coin actual) tolerance notional_tolerance mids;
  ba_leverage coin l : held_leverage coin expected = Some l -> dis_zero (held_size coin expected) = false -> dis_zero (held_size coin actual) = false ->
    held_leverage coin actual = Some l;
  ba_identified : Forall (fun o => has_cloid o = true) orders /\ NoDup (omap order_id orders);
  ba_open c : c ∈ expected_cloids <-> c ∈ omap order_id orders;
  ba_orders o c e : o ∈ orders -> order_id o = Some c -> dict_get c expected_orders = Some e -> same_order e o;
}.

Section Mismatches.
Context (expected actual : dict Position) (expected_cloids : list string) (orders : list OpenOrder) (expected_orders : dict OpenOrder).
Context (tolerance : dec) (notional_tolerance : option dec) (mids : dict pydec).

Lemma coin_mismatches_nil coin : coin_mismatches expected actual tolerance notional_tolerance mids coin = [] <->
  close coin (held_size coin expected) (held_size coin actual) tolerance notional_tolerance mids /\
  forall l, held_leverage coin expected = Some l -> dis_zero (held_size coin expected) = false -> dis_zero (held_size coin actual) = false ->
    held_leverage coin actual = Some l.
Proof.
  unfold coin_mismatches. rewrite app_nil, if_nil, tolerated_close by done. apply and_iff_compat_l. unfold leverage_differs.
  destruct (held_leverage coin expected) as [l|]; [|split; [by intros|done]].
  destruct (dis_zero (held_size coin expected)); [split; [by intros|done]|]. destruct (dis_zero (held_size coin actual)); [split; [by intros|done]|]. cbn [negb andb].
  destruct (bool_decide (held_leverage coin actual = Some l)) eqn:E; cbn [negb].
  - apply bool_decide_eq_true in E. split; [|done]. intros _ l' [= <-] _ _. done.
  - apply bool_decide_eq_false in E. split; [done|]. intros H. destruct E. by apply H.
Qed.

Lemma concat_nil {A B} (f : A -> list B) l : concat (f <$> l) = [] <-> forall x, x ∈ l -> f x = [].
Proof.
  induction l as [|x l IH]; cbn [fmap list_fmap concat]; [split; [by intros _ ? ?%elem_of_nil|done]|]. rewrite app_nil. split.
  - intros [Hx Hl] y [->|Hy]%elem_of_cons; [done|]. by apply IH.
  - intros H. split; [apply H; by left|]. apply IH. intros y Hy. apply H. by right.
Qed.

Lemma list_case_nil {A} (l : list A) (t : list string) : t <> [] -> match l with [] => [] | _ => t end = [] <-> l = [].
Proof. by destruct l. Qed.

Lemma leverage_default coin : coin ∉ dict_keys expected ++ dict_keys actual -> held_leverage coin expected = None.
Proof. intros H. unfold held_leverage. replace (dict_get coin expected) with (@None Position); [done|]. symmetry. apply dict_get_None. intros Hin. apply H, elem_of_app. by left. Qed.

Lemma order_mismatches_Ok by_cloid c l : order_mismatches expected_orders by_cloid c = Ok l ->
  l = [] <-> forall e o, dict_get c expected_orders = Some e -> dict_get c by_cloid = Some o -> same_order e o.
Proof.
  unfold order_mismatches. destruct (dict_get c expected_orders) as [e|]; [|intros [= <-]; split; [by intros|done]].
  destruct (dict_get c by_cloid) as [o|]; [|intros [= <-]; split; [by intros|done]]. intros (k & Hk & [= <-])%bind_Ok.
  rewrite list_case_nil by done. rewrite (open_order_mismatches_nil _ _ _ Hk). split; [by intros H ? ? [= <-] [= <-]|intros H; by apply H].
Qed.

Lemma map_res_concat_nil {A B} (f : A -> res (list B)) l r : map_res f l = Ok r -> concat r = [] <-> forall x y, x ∈ l -> f x = Ok y -> y = [].
Proof.
  intros H%map_res_Forall2. induction H as [|x y l r Hx _ IH]; cbn [concat]; [split; [by intros _ ? ? ?%elem_of_nil|done]|]. rewrite app_nil. split.
  - intros [-> Hr] z w [->|Hz]%elem_of_cons Hw; [congruence|]. by apply (proj1 IH Hr z).
  - intros Ha. split; [by apply (Ha x); [left|]|]. apply IH. intros z w Hz. apply Ha. by right.
Qed.

Lemma omap_inj {A B} (f : A -> option B) l x y c : NoDup (omap f l) -> x ∈ l -> y ∈ l -> f x = Some c -> f y = Some c -> x = y.
Proof.
  induction l as [|z l IH]; [by intros _ ?%elem_of_nil|]. cbn. intros Hnd Hx Hy Ex Ey.
  assert (forall w, w ∈ l -> f w = Some c -> c ∈ omap f l) as Hin by (intros w Hw Ew; apply list_elem_of_omap; by exists w).
  apply elem_of_cons in Hx as [->|Hx], Hy as [->|Hy]; [done| | |].
  - rewrite Ex in Hnd. apply list.NoDup_cons in Hnd as [Hn _]. destruct Hn. by apply (Hin y).
  - rewrite Ey in Hnd. apply list.NoDup_cons in Hnd as [Hn _]. destruct Hn. by apply (Hin x).
  - apply IH; [|done..]. destruct (f z); [by apply list.NoDup_cons in Hnd as [_ ?]|done].
Qed.

(** The keys of the index are the identities of the orders. *)
Lemma index_of_keys acc c : index_of orders acc -> c ∈ dict_keys acc.1 <-> c ∈ omap order_id orders.
Proof.
  intros (H1 & H2 & _). rewrite list_elem_of_omap. split.
  - intros Hc. destruct (dict_get c acc.1) as [o|] eqn:E; [|by apply dict_get_None in E]. exists o. by apply H1.
  - intros (o & Hin & Hid). destruct (H2 _ _ Hin Hid) as [o' E]. destruct (decide (c ∈ dict_keys acc.1)) as [|Hn]; [done|]. apply dict_get_None in Hn. congruence.
Qed.

Lemma difference_nil (a b : list string) : set_difference a b = [] <-> forall c, c ∈ a -> c ∈ b.
Proof.
  split.
  - intros H c Hc. destruct (decide (c ∈ b)) as [|Hn]; [done|]. exfalso. apply (elem_of_nil c). rewrite <- H. by apply elem_of_set_difference.
  - intros H. destruct (set_difference a b) as [|c l] eqn:E; [done|]. exfalso. assert (c ∈ set_difference a b) as Hc by (rewrite E; by left).
    apply elem_of_set_difference in Hc as [Hc Hn]. by apply Hn, H.
Qed.

Lemma uncloided_nil : List.filter (fun o => negb (has_cloid o)) orders = [] <-> Forall (fun o => has_cloid o = true) orders.
Proof.
  induction orders as [|o l IH]; cbn; [split; [constructor|done]|]. destruct (has_cloid o) eqn:E; cbn [negb].
  - rewrite IH, list.Forall_cons. tauto.
  - split; [done|]. intros H. inversion_clear H. congruence.
Qed.

Lemma sorted_coins_spec coin : coin ∈ sorted_coins expected actual <-> coin ∈ dict_keys expected ++ dict_keys actual.
Proof. unfold sorted_coins. by rewrite elem_of_py_sorted, elem_of_remove_dups. Qed.

Lemma map_res_each {A B} (f : A -> res B) l r x : map_res f l = Ok r -> x ∈ l -> exists y, f x = Ok y.
Proof.
  intros H%map_res_Forall2 Hx. induction H as [|z y l r Hz _ IH]; [by apply elem_of_nil in Hx|]. apply elem_of_cons in Hx as [->|Hx]; [by exists y|by apply IH].
Qed.

Section IndexOf.
Context (by_cloid : dict OpenOrder) (dups : list string).
Hypothesis Hi : index_of orders (by_cloid, dups).

Definition shared_cloids : list string := py_sorted str_leb (List.filter (fun c => bool_decide (c ∈ dict_keys by_cloid)) (remove_dups expected_cloids)).

Lemma shared_spec c : c ∈ shared_cloids <-> c ∈ expected_cloids /\ c ∈ dict_keys by_cloid.
Proof.
  unfold shared_cloids. rewrite elem_of_py_sorted, list_elem_of_In, filter_In, <- list_elem_of_In, elem_of_remove_dups. by rewrite bool_decide_eq_true.
Qed.

(** What is shown when nothing differs. *)
Lemma nothing_differs per : map_res (order_mismatches expected_orders by_cloid) shared_cloids = Ok per ->
  (forall coin, coin ∈ sorted_coins expected actual -> coin_mismatches expected actual tolerance notional_tolerance mids coin = []) ->
  Forall (fun o => has_cloid o = true) orders -> (forall c, c ∈ expected_cloids -> c ∈ dict_keys by_cloid) ->
  (forall c, c ∈ dict_keys by_cloid -> c ∈ expected_cloids) -> dups = [] ->
  (forall c y, c ∈ shared_cloids -> order_mismatches expected_orders by_cloid c = Ok y -> y = []) ->
  books_agree expected actual expected_cloids orders expected_orders tolerance notional_tolerance mids.
Proof.
  intros Hper Hcoins Hun Hmiss Hext Hd Hord. pose proof (fun c => index_of_keys (by_cloid, dups) c Hi) as Hkeys. destruct Hi as (H1 & H2 & H3 & _). cbn [fst snd] in *.
  specialize (H3 Hd). split; [| |done| |].
  - intros coin Hin. by apply coin_mismatches_nil, Hcoins, sorted_coins_spec.
  - intros coin lv Hlv. destruct (decide (coin ∈ dict_keys expected ++ dict_keys actual)) as [Hin|Hout]; [|by rewrite leverage_default in Hlv].
    apply sorted_coins_spec, Hcoins, coin_mismatches_nil in Hin as [_ Hl]. by apply Hl.
  - intros c. rewrite <- Hkeys. split; auto.
  - intros o c e Ho Hid He. destruct (H2 _ _ Ho Hid) as [o' Eo']. destruct (H1 _ _ Eo') as [Ho' Hid'].
    rewrite (omap_inj order_id orders o o' c H3 Ho Ho' Hid Hid').
    assert (c ∈ dict_keys by_cloid) as Hc by (apply Hkeys, list_elem_of_omap; by exists o).
    assert (c ∈ shared_cloids) as Hs by (apply shared_spec; auto). destruct (map_res_each _ _ _ _ Hper Hs) as [y Hy].
    apply (proj1 (order_mismatches_Ok by_cloid c y Hy) (Hord c y Hs Hy)); done.
Qed.

(** And nothing differs where the books agree. *)
Lemma agreement_shown : books_agree expected actual expected_cloids orders expected_orders tolerance notional_tolerance mids ->
  (forall coin, coin ∈ sorted_coins expected actual -> coin_mismatches expected actual tolerance notional_tolerance mids coin = []) /\
  (forall c, c ∈ expected_cloids -> c ∈ dict_keys by_cloid) /\ (forall c, c ∈ dict_keys by_cloid -> c ∈ expected_cloids) /\ dups = [] /\
  (forall c, c ∈ shared_cloids -> order_mismatches expected_orders by_cloid c = Ok []).
Proof.
  intros [Hsz Hlev [_ Hnd] Hopen Hord]. pose proof (fun c => index_of_keys (by_cloid, dups) c Hi) as Hkeys. destruct Hi as (H1 & H2 & _ & H4). cbn [fst snd] in *. split_and!.
  - intros coin Hin%sorted_coins_spec. apply coin_mismatches_nil. split; [by apply Hsz|]. intros l. by apply Hlev.
  - intros c Hc. by apply Hkeys, Hopen.
  - intros c Hc. by apply Hopen, Hkeys.
  - destruct dups as [|d ds]; [done|]. by destruct (H4 ltac:(done)).
  - intros c _. unfold order_mismatches. destruct (dict_get c expected_orders) as [e|] eqn:Ee; [|done]. destruct (dict_get c by_cloid) as [o|] eqn:Eo; [|done].
    destruct (H1 _ _ Eo) as [Ho Hid]. pose proof (Hord o c e Ho Hid Ee) as Hs. destruct (open_order_mismatches_total _ _ Hs) as [y Hy].
    rewrite Hy. cbn [mbind res_bind]. by rewrite (proj2 (open_order_mismatches_nil _ _ _ Hy) Hs).
Qed.
End IndexOf.

(** Nothing differs exactly when the books agree. *)
Lemma mismatches_nil l : mismatches expected actual expected_cloids orders expected_orders tolerance notional_tolerance mids = Ok l ->
  l = [] <-> books_agree expected actual expected_cloids orders expected_orders tolerance notional_tolerance mids.
Proof.
  unfold mismatches. pose proof (index_spec orders) as Hi. destruct (index_orders orders) as [by_cloid dups]. fold (shared_cloids by_cloid).
  intros (per & Hper & [= <-])%bind_Ok. rewrite !app_nil, !list_case_nil by done. rewrite concat_nil, (map_res_concat_nil _ _ _ Hper), uncloided_nil, !difference_nil. split.
  - intros (Hcoins & Hun & Hmiss & Hext & Hd & Hord). by apply (nothing_differs by_cloid dups Hi per).
  - intros H. destruct (agreement_shown by_cloid dups Hi H) as (Hc & Hm & He & Hd & Ho). split_and!; [done|apply (ba_identified _ _ _ _ _ _ _ _ H)|done..|].
    intros c y Hcs Hy. rewrite (Ho c Hcs) in Hy. by injection Hy as <-.
Qed.
End Mismatches.

(** C25. Manual intervention is seen exactly.  The shield reports a match, and changes nothing,
    exactly when the expected account and the one that the exchange reports agree: every size
    is within tolerance, an equal leverage is held wherever one is expected, every open order
    has its own identity, the identities are exactly the expected ones, and each order whose
    terms are known has them.  Otherwise the safe mode is tripped with the reason.  Whatever the
    tolerance, a position in a market where none is expected is never a match. *)
Theorem manual_intervention_exact blake2s m ms expected actual expected_cloids orders expected_orders tolerance notional_tolerance mids c c' r :
  manual_intervention blake2s m ms expected actual expected_cloids orders expected_orders tolerance notional_tolerance mids c = Ok (c', r) ->
  (ok r = true <-> books_agree expected actual expected_cloids orders expected_orders tolerance notional_tolerance mids) /\
  (if ok r then c' = c
   else sh_reason r = MANUAL_INTERVENTION /\
        exists t, trip blake2s m ms MANUAL_INTERVENTION (sh_detail r) (safe_mode c) = Ok (safe_mode c', t)) /\
  (ok r = true -> forall coin, (dval (held_size coin expected) == 0)%Q -> (dval (held_size coin actual) == 0)%Q).
Proof.
  intros (l & Hl & H)%bind_Ok. pose proof (mismatches_nil _ _ _ _ _ _ _ _ l Hl) as Hn.
  assert (ok r = true <-> l = []) as Hok.
  { destruct l; [by injection H as _ <-|]. apply bind_Ok in H as (x & _ & [= _ <-]). by split. }
  rewrite Hok. split; [exact Hn|]. split.
  - destruct l; [by injection H as <- <-|]. apply bind_Ok in H as ([s2 t2] & Ht & [= <- <-]). split; [done|]. by exists t2.
  - intros E coin Hz. apply Hn in E. destruct (decide (coin ∈ dict_keys expected ++ dict_keys actual)) as [Hin|Hout].
    + pose proof (ba_sizes _ _ _ _ _ _ _ _ E coin Hin) as Ht. by apply (proj1 Ht).
    + unfold held_size at 1. destruct (dict_get coin actual) as [p|] eqn:Eg; [|apply dval_zero]. destruct Hout. apply elem_of_app. right.
      destruct (decide (coin ∈ dict_keys actual)) as [|Hn']; [done|]. apply dict_get_None in Hn'. congruence.
Qed.
