(* ===== verification/SafetyExample.v ===== *)
(** Two processes on one journal, and an account that agrees with its record. *)

From S2P Require Import Prelude PyDecimal DecimalFacts PyText Models Markets MarketFacts Safety SafetyFacts.
From stdpp Require sorting.
From Stdlib Require Import QArith.

Open Scope Z_scope.

(** The digest of the examples names a transition by its own text. *)
Definition digest (text : string) : string := text.

Definition quiet (at_ms : Z) (id : string) : Moment := MkMoment at_ms id (fun j => j).

(** The other process trips the safe mode while the first one is writing. *)
Definition intruder (j : Journal) : Journal := insert_row (MkTransition ("other:" +:+ str_of_Z (latest_seq j)) true REST_LAG "slow" 50) j.
Definition busy (at_ms : Z) (id : string) : Moment := MkMoment at_ms id intruder.

Lemma quiet_appending t id : appending (quiet t id).
Proof. intros j Hj. by apply extends_refl. Qed.

Lemma busy_appending t id : appending (busy t id).
Proof. intros j Hj. by apply insert_extends. Qed.

Definition first_row : SafeRow := MkSafeRow 1 "a" true "order_timeout" "late" 10.
Definition one_incident : Journal := [first_row].
Definition knows_it : SafeModeController := MkController true 1 true ORDER_TIMEOUT "late".

Lemma one_ordered : seq_ordered one_incident.
Proof. split; repeat constructor. Qed.

Lemma knows_tracks : tracks (knows_it, one_incident).
Proof. split; [done|]. right. by split. Qed.

Lemma knows_tracks_two : tracks (knows_it, intruder one_incident).
Proof. split; [done|]. left. reflexivity. Qed.

Definition mode_of (r : res (Safe * option SafeModeTransition)) : option (bool * Z * bool * SafeModeReason) :=
  match r with Ok (s, t) => Some (bool_decide (is_Some t), revision s.1, enabled s.1, reason s.1) | Raise _ => None end.

(** Cleared while it is the newest, refused after another incident, and overtaken by one. *)
Definition cleared := clear_if_revision digest (quiet 20 "u") [] 1 "resume" (knows_it, one_incident).
Definition refused_clear := clear_if_revision digest (quiet 20 "u") [] 1 "resume" (knows_it, intruder one_incident).
Definition overtaken := clear_if_revision digest (busy 20 "u") [] 1 "resume" (knows_it, one_incident).

Lemma safe_mode_shared_witness :
  mode_of cleared = Some (true, 2, false, NONE) /\ mode_of refused_clear = Some (false, 2, true, REST_LAG) /\
  mode_of overtaken = Some (true, 3, true, REST_LAG) /\
  (exists s t, cleared = Ok (s, Some t) /\ in_step s /\ latest_seq one_incident = 1 /\ extends (insert_row t one_incident) s.2) /\
  (exists s, refused_clear = Ok (s, None) /\ in_step s /\ latest_seq (intruder one_incident) <> 1 /\ extends (intruder one_incident) s.2).
Proof.
  split; [vm_compute; reflexivity|]. split; [vm_compute; reflexivity|]. split; [vm_compute; reflexivity|]. split.
  - destruct (safe_mode_shared digest (quiet 20 "u") [] knows_it one_incident eq_refl knows_tracks one_ordered (quiet_appending _ _) (List.Forall_nil _)) as (_ & _ & H).
    set (s := match cleared with Ok (s, _) => s | Raise _ => (knows_it, one_incident) end).
    set (t := match cleared with Ok (_, Some t) => t | _ => MkTransition "" true NONE "" 0 end).
    assert (cleared = Ok (s, Some t)) as E by (vm_compute; reflexivity).
    destruct (H 1 "resume" s (Some t) E) as (Hin & Hl & _ & He). exact (ex_intro _ s (ex_intro _ t (conj E (conj Hin (conj Hl He))))).
  - assert (seq_ordered (intruder one_incident)) as Hn by (apply insert_extends, one_ordered).
    destruct (safe_mode_shared digest (quiet 20 "u") [] knows_it _ eq_refl knows_tracks_two Hn (quiet_appending _ _) (List.Forall_nil _)) as (_ & _ & H).
    set (s := match refused_clear with Ok (s, _) => s | Raise _ => (knows_it, one_incident) end).
    assert (refused_clear = Ok (s, None)) as E by (vm_compute; reflexivity).
    destruct (H 1 "resume" s None E) as (Hin & Hl & He). exact (ex_intro _ s (conj E (conj Hin (conj Hl He)))).
Defined.

(** * An account *)

Definition booked (coin : string) (size : dec) : string * Position := (coin, MkPosition coin size None (Some 3) 0).
Definition order (raw : string) (side : string) (px : dec) : OpenOrder := MkOpenOrder "BTC" side (dint 2) (Some px) (Some 7) (Some raw) false 0.

Definition booked_positions : dict Position := [booked "BTC" (dint 2); booked "ETH" (dint 1)].
Definition found_positions : dict Position := [booked "BTC" (dint 2); booked "ETH" (Dec false 1001 (-3))].
Definition booked_orders : dict OpenOrder := [("0xab", order "0xab" "buy" (dint 100))].
Definition example_shield : ConsistencyShield := MkShield (knows_it, one_incident) 1500 [] [].

Definition look (actual : dict Position) : Outcome :=
  manual_intervention digest (quiet 30 "v") [] booked_positions actual ["0xab"] [order "0xAB" "BUY" (Dec false 1000 (-1))] booked_orders
    (Dec false 1 (-2)) None [] example_shield.

(** The same account with a position that nobody booked. *)
Definition stranger : dict Position := booked "SOL" (Dec false 1 (-6)) :: found_positions.

Definition verdict (r : Outcome) : option (bool * string) := match r with Ok (_, x) => Some (ok x, sh_detail x) | Raise _ => None end.

Lemma manual_intervention_exact_witness :
  verdict (look stranger) = Some (false, "SOL expected 0 actual 0.000001") /\
  look found_positions = Ok (example_shield, MkShieldResult true "matched" NONE "") /\
  books_agree booked_positions found_positions ["0xab"] [order "0xAB" "BUY" (Dec false 1000 (-1))] booked_orders (Dec false 1 (-2)) None [].
Proof.
  split; [vm_compute; reflexivity|]. assert (look found_positions = Ok (example_shield, MkShieldResult true "matched" NONE "")) as E by (vm_compute; reflexivity).
  split; [exact E|]. destruct (manual_intervention_exact _ _ _ _ _ _ _ _ _ _ _ _ _ _ E) as (H & _). exact (proj1 H eq_refl).
Defined.
