(* ===== verification/RestThrottle.v ===== *)
(** rest_throttle.py: the spacing of the older service's REST requests, shared by all
    processes of a machine through one state file.

    The file is its JSON value, [None] when it is missing or cannot be read; the lock
    directory that serialises the processes is what makes [reserve_weight] one step.  The
    environment and the clocks are arguments. *)

From S2P Require Import Prelude PyDecimal PyText.
From Stdlib Require Import Ascii.

Open Scope Z_scope.

Definition DEFAULT_WEIGHT_INTERVAL_MS : Z := 60.
Definition DEFAULT_MAX_WAIT_MS : Z := 60000.
Definition STATE_VALIDITY_MS : Z := 5 * 60000.

Definition weight_two_types : list string :=
  ["allmids"; "clearinghousestate"; "exchangestatus"; "l2book"; "orderstatus"; "spotclearinghousestate"; "userstate"].
Definition weight_sixty_types : list string := ["user_role"; "userrole"].
Definition response_weighted_types : list string :=
  ["fundinghistory"; "historicalorders"; "nonuserfundingupdates"; "recenttrades"; "twaphistory"; "userfills"; "userfillsbytime"; "userfunding";
   "usertwaphistory"; "usertwapslicefills"; "usertwapslicefillsbytime"].

(** [os.getenv(name, "")] *)
Definition Environment : Type := string -> string.

(** * Settings *)

Definition int_value (raw : string) (otherwise : Z) : Z := if is_empty raw then otherwise else default otherwise (int_of_string raw).
Definition int_env (env : Environment) (name : string) (otherwise : Z) : Z := int_value (py_strip (env name)) otherwise.

Definition weight_interval_ms (env : Environment) : Z :=
  let explicit := py_strip (env "HLCT_REST_WEIGHT_INTERVAL_MS") in
  if negb (is_empty explicit) then int_value explicit DEFAULT_WEIGHT_INTERVAL_MS else
  let legacy := py_strip (env "HLCT_REST_THROTTLE_INTERVAL_MS") in
  if negb (is_empty legacy) then int_value legacy DEFAULT_WEIGHT_INTERVAL_MS else DEFAULT_WEIGHT_INTERVAL_MS.

Definition max_wait_ms (env : Environment) : Z := Z.max (int_env env "HLCT_REST_THROTTLE_MAX_WAIT_MS" DEFAULT_MAX_WAIT_MS) 0.

Definition known_hosts : list string := ["api.hyperliquid.xyz"; "api.hyperliquid-testnet.xyz"].
Definition switched_on (text : string) : bool := bool_decide (text ∈ ["1"; "true"; "yes"; "on"]).
Definition switched_off (text : string) : bool := bool_decide (text ∈ ["0"; "false"; "no"; "off"]).

(** [s.split(",")] *)
Fixpoint split_commas (l current : chars) : list string :=
  match l with
  | [] => [of_chars (reverse current)]
  | c :: t => if decide (c = ","%char) then of_chars (reverse current) :: split_commas t [] else split_commas t (c :: current)
  end.

Definition host_alias (name : string) : string :=
  if String.eqb name "mainnet" then "api.hyperliquid.xyz" else if String.eqb name "testnet" then "api.hyperliquid-testnet.xyz" else name.

(** [rest_throttle_enabled_for_base_url]; [host] is the lower-case host of the URL. *)
Definition rest_throttle_enabled (env : Environment) (host : string) : bool :=
  let forced := py_lower (py_strip (env "HLCT_REST_THROTTLE_ALL")) in
  if switched_on forced then bool_decide (host ∈ known_hosts)
  else if switched_off forced then false else
  let configured := py_strip (env "HLCT_REST_THROTTLE_HOSTS") in
  if is_empty configured then bool_decide (host ∈ known_hosts)
  else bool_decide (host ∈ (fun item => host_alias (py_lower (py_strip item))) <$>
                             List.filter (fun item => negb (is_empty (py_strip item))) (split_commas (to_chars configured) [])).

Definition info_rest_throttle_enabled (env : Environment) (host : string) : bool :=
  if switched_off (py_lower (py_strip (env "HLCT_REST_THROTTLE_INFO"))) then false else rest_throttle_enabled env host.

(** * Weights *)

(** What follows the last colon. *)
Fixpoint after_colon (l : chars) (rest : chars) : chars :=
  match l with [] => rest | c :: t => after_colon t (if decide (c = ":"%char) then t else rest) end.

(** [_normalized_request_type] *)
Definition normalized_request_type (label : string) : string :=
  let value := py_lower (py_strip (of_chars (after_colon (to_chars label) (to_chars label)))) in
  of_chars (List.filter (fun c => negb (bool_decide (c ∈ ["-"%char; " "%char; "_"%char]))) (to_chars value)).

Definition rest_request_weight (label : string) : Z :=
  let normalized := normalized_request_type label in
  if starts_with "exchange:" (py_lower label) then 1
  else if bool_decide (normalized ∈ weight_two_types) then 2
  else if bool_decide (normalized ∈ weight_sixty_types) then 60 else 20.

(** [_response_item_count] *)
Definition response_item_count (result : json) : Z :=
  match result with
  | JList l => Z.of_nat (List.length l)
  | JObj o =>
      match list.head (omap (fun key => match obj_field key o with JList l => Some (Z.of_nat (List.length l)) | _ => None end) ["fills"; "orders"; "rows"; "data"]) with
      | Some n => n
      | None => 0
      end
  | _ => 0
  end.

(** * Reservations *)

(** [_read_state] *)
Definition read_state (file : option json) : list (string * json) := match file with Some (JObj o) => o | _ => [] end.

(** [int(state.get(key) or 0)] *)
Definition state_int (state : list (string * json)) (key : string) : res Z := json_int (json_or (obj_field key state) (JInt 0)).

(** [_valid_next_available_ms] *)
Definition valid_next_available_ms (state : list (string * json)) (now_monotonic now_wall max_wait : Z) : res Z :=
  catch
    (next_available ← state_int state "next_request_monotonic_ms";
     updated_monotonic ← state_int state "updated_monotonic_ms";
     updated_wall ← state_int state "updated_wall_ms";
     let wall_age := now_wall - updated_wall in
     Ok (if (updated_wall <=? 0) || (wall_age <? 0) || (STATE_VALIDITY_MS <? wall_age) then now_monotonic
         else if now_monotonic <? updated_monotonic then now_monotonic
         else if (next_available <? 0) || (now_monotonic + max_wait + STATE_VALIDITY_MS <? next_available) then now_monotonic
         else next_available))
    (fun e => match e with TypeError _ => true | _ => is_value_error e end) (fun _ => Ok now_monotonic).

(** [_write_state] *)
Definition state_json (label : string) (next_request updated_monotonic updated_wall weight : Z) : json :=
  JObj [("label", JStr label); ("next_request_monotonic_ms", JInt next_request); ("updated_monotonic_ms", JInt updated_monotonic);
        ("updated_wall_ms", JInt updated_wall); ("weight", JInt weight)].

(** [_reserve_weight], under the lock: the milliseconds to wait, and the file it leaves. *)
Definition reserve_weight (max_wait : Z) (label : string) (weight interval : Z) (wait : bool) (now_monotonic now_wall : Z) (file : option json)
    : res (Z * option json) :=
  next_available ← valid_next_available_ms (read_state file) now_monotonic now_wall max_wait;
  let scheduled := Z.max now_monotonic next_available in
  let wait_ms := scheduled - now_monotonic in
  if wait && (max_wait <? wait_ms)
  then Raise (RestThrottleBacklogError (label +:+ " shared REST throttle backlog is " +:+ str_of_Z wait_ms +:+ "ms; limit is " +:+ str_of_Z max_wait +:+ "ms"))
  else Ok (if wait then wait_ms else 0, Some (state_json label (scheduled + Z.max weight 1 * interval) now_monotonic now_wall weight)).

(** [apply_rest_throttle]: the milliseconds that it sleeps. *)
Definition apply_rest_throttle (env : Environment) (label : string) (is_enabled : bool) (weight : option Z) (now_monotonic now_wall : Z) (file : option json)
    : res (Z * option json) :=
  let interval := weight_interval_ms env in
  if negb is_enabled || (interval <=? 0) then Ok (0, file) else
  reserve_weight (max_wait_ms env) label (Z.max (default (rest_request_weight label) weight) 1) interval true now_monotonic now_wall file.

(** [_record_response_weight] *)
Definition record_response_weight (env : Environment) (label : string) (result : json) (is_enabled : bool) (now_monotonic now_wall : Z) (file : option json)
    : res (option json) :=
  let items := response_item_count result in
  if negb is_enabled || negb (bool_decide (normalized_request_type label ∈ response_weighted_types)) || (items <=? 0) then Ok file else
  snd <$> reserve_weight (max_wait_ms env) (label +:+ ":response") (- (- items / 20)) (weight_interval_ms env) false now_monotonic now_wall file.

(** * Retries *)

(** An exception of a request, by what the code asks of it. *)
Record RestError := MkRestError {
  status_code : option Z;        (* of the exception, or of its response *)
  http_code : option Z;          (* of an [HTTPError] *)
  is_network : bool;             (* [URLError], [TimeoutError] or [ConnectionError] *)
  type_name : string;            (* module and class, lower case *)
  error_text : string;
  retry_after : option string;   (* the header of an [HTTPError] *)
}.

Definition retryable_codes : list Z := [408; 429; 500; 502; 503; 504].

(** [_retryable_rest_error] *)
Definition retryable_rest_error (e : RestError) : bool :=
  if match status_code e with Some z => bool_decide (z ∈ retryable_codes) | None => false end then true else
  match http_code e with
  | Some code => bool_decide (code ∈ retryable_codes)
  | None =>
      if is_network e then true else
      if existsb (fun p => starts_with p (type_name e)) ["requests."; "httpx."; "httpcore."]
         && existsb (fun m => contains m (type_name e)) ["timeout"; "connection"; "network"] then true else
      let text := py_lower (error_text e) in
      existsb (fun m => contains m text)
        ["too many requests"; "http error 429"; "(429,"; "http error 408"; "http error 500"; "http error 502"; "http error 503"; "http error 504"]
  end.

(** How one call of the request ends. *)
Definition RestAnswer : Type := json + RestError.

(** What an attempt of [call_with_rest_backoff] meets: the clocks of its two reservations,
    the answer, and how long it sleeps before the next. *)
Record Attempt := MkAttempt { at_mono : Z; at_wall : Z; answer : RestAnswer; after_mono : Z; after_wall : Z }.

Inductive CallEnd :=
  | Returned (result : json)
  | Failed (e : RestError)
  | Exhausted.

(** The loop of [call_with_rest_backoff]: the end, the number of requests made, and the file. *)
Fixpoint call_attempts (env : Environment) (label : string) (is_enabled : bool) (weight : option Z) (remaining : list Attempt) (made : nat) (file : option json)
    : res (CallEnd * nat * option json) :=
  match remaining with
  | [] => Ok (Exhausted, made, file)
  | a :: rest =>
      '(_, file) ← apply_rest_throttle env label is_enabled weight (at_mono a) (at_wall a) file;
      match answer a with
      | inr e => if bool_decide (rest = []) || negb (retryable_rest_error e) then Ok (Failed e, S made, file)
                 else call_attempts env label is_enabled weight rest (S made) file
      | inl result =>
          file ← record_response_weight env label result is_enabled (after_mono a) (after_wall a) file;
          Ok (Returned result, S made, file)
      end
  end.

(** [call_with_rest_backoff]; [script n] is what the attempt [n] meets. *)
Definition call_with_rest_backoff (env : Environment) (label : string) (is_enabled : bool) (weight attempts : option Z) (script : nat -> Attempt) (file : option json)
    : res (CallEnd * nat * option json) :=
  let limit := Z.max (default (int_env env "HLCT_REST_RETRY_ATTEMPTS" 1) attempts) 1 in
  call_attempts env label is_enabled weight (script <$> seq 0 (Z.to_nat limit)) 0 file.
