(* ===== verification/ThrottleFacts.v ===== *)
(** Facts about the shared throttle of REST requests: whatever processes reserve, the
    weight that may start in any minute is bounded. *)

From S2P Require Import Prelude PyDecimal PyText RestThrottle.

Open Scope Z_scope.

Lemma state_int_int o key z : obj_field key o = JInt z -> state_int o key = Ok z.
Proof. unfold state_int. intros ->. unfold json_or. cbn [json_truthy]. destruct (Z.eqb_spec z 0) as [->|]; done. Qed.

(** What one caller reserved: a request that waits for its turn, or the extra weight of a
    response that was received. *)
Record Turn := MkTurn { is_request : bool; made : Z; start : Z; weight : Z }.

Section Pacing.
Variables (max_wait interval offset : Z).
Hypothesis Hinterval : 0 < interval.

(** The process runs with these settings. *)
Definition configured (env : Environment) : Prop := weight_interval_ms env = interval /\ max_wait_ms env = max_wait.

(** The weight that a request reserves. *)
Definition asked (label : string) (explicit : option Z) : Z := Z.max (default (rest_request_weight label) explicit) 1.

(** What a response adds: nothing, or the slot that ends where the file says the next starts. *)
Definition response_slots (label : string) (result : json) (mono : Z) (file : option json) : list Turn :=
  let items := response_item_count result in
  let weight := - (- items / 20) in
  if bool_decide (normalized_request_type label ∈ response_weighted_types) && (0 <? items) then
    match obj_field "next_request_monotonic_ms" (read_state file) with
    | JInt next => [MkTurn false mono (next - weight * interval) weight]
    | _ => []
    end
  else [].

(** The callers of any processes of one machine, at one state file.  A request starts when
    [apply_rest_throttle], called at the clock [mono'], has slept as long as it asks for; the
    clocks do not go back from one call to the next. *)
Inductive throttled : list Turn -> option json -> Z -> Prop :=
  | th_start file mono : 0 <= mono -> 0 < mono + offset -> throttled [] file mono
  | th_refused log file mono mono' env label explicit e : throttled log file mono -> mono <= mono' -> configured env ->
      apply_rest_throttle env label true explicit mono' (mono' + offset) file = Raise e -> throttled log file mono'
  | th_request log file mono mono' env label explicit slept file' : throttled log file mono -> mono <= mono' -> configured env ->
      apply_rest_throttle env label true explicit mono' (mono' + offset) file = Ok (slept, file') ->
      throttled (log ++ [MkTurn true mono' (mono' + slept) (asked label explicit)]) file' mono'
  | th_unrecorded log file mono mono' env label result e : throttled log file mono -> mono <= mono' -> configured env ->
      record_response_weight env label result true mono' (mono' + offset) file = Raise e -> throttled log file mono'
  | th_response log file mono mono' env label result file' : throttled log file mono -> mono <= mono' -> configured env ->
      record_response_weight env label result true mono' (mono' + offset) file = Ok file' ->
      throttled (log ++ response_slots label result mono' file') file' mono'.

(** The slot ends while the state that it leaves is still believed. *)
Definition believed (s : Turn) : Prop := start s + weight s * interval <= made s + STATE_VALIDITY_MS.

(** A reservation starts after the last slot is used up, and waits no longer than it may. *)
Lemma reserve_shape label weight wait mono wait_ms file file' :
  reserve_weight max_wait label weight interval wait mono (mono + offset) file = Ok (wait_ms, file') ->
  exists start', mono <= start' /\ file' = Some (state_json label (start' + Z.max weight 1 * interval) mono (mono + offset) weight) /\
    (wait = true -> start' = mono + wait_ms /\ wait_ms <= max_wait) /\
    forall label' next updated w, file = Some (state_json label' next updated (updated + offset) w) -> 0 <= mono -> updated <= mono ->
      0 < updated + offset -> next <= updated + STATE_VALIDITY_MS -> 0 <= max_wait -> next <= start'.
Proof.
  unfold reserve_weight. intros H. apply bind_Ok in H as (avail & Hav & H).
  destruct (wait && _) eqn:E; [done|]. injection H as <- <-. exists (Z.max mono avail). split; [lia|]. split; [done|]. split.
  { intros ->. cbn [andb] in E. apply Z.ltb_ge in E. lia. }
  intros label' next updated w -> H0 Hu Hw Hn Hmw. unfold valid_next_available_ms in Hav. cbn [read_state state_json] in Hav.
  rewrite (state_int_int _ "next_request_monotonic_ms" next), (state_int_int _ "updated_monotonic_ms" updated), (state_int_int _ "updated_wall_ms" (updated + offset)) in Hav by reflexivity.
  cbn [mbind res_bind catch] in Hav. injection Hav as <-. unfold STATE_VALIDITY_MS in *.
  repeat match goal with |- context [?x <=? ?y] => destruct (Z.leb_spec x y) | |- context [?x <? ?y] => destruct (Z.ltb_spec x y) end; cbn [orb]; lia.
Qed.

(** Requests are believed by the wait that is allowed. *)
Lemma throttled_believed log file mono W : throttled log file mono -> Forall (fun s => weight s <= W) log ->
  max_wait + interval * W <= STATE_VALIDITY_MS -> Forall (fun s => is_request s = false -> believed s) log -> Forall believed log.
Proof.
  intros Ht HW Hv. induction Ht as [|log file mono mono' env label explicit e _ IH|
    log file mono mono' env label explicit slept file' _ IH Hle [Hi Hm] Ha|log file mono mono' env label result e _ IH|
    log file mono mono' env label result file' _ IH Hle Henv Ha]; intros Hr; try (by auto).
  - apply Forall_app in HW as [HW HW1], Hr as [Hr _]. apply Forall_app. split; [by apply IH|]. constructor; [|constructor].
    inversion_clear HW1 as [|? ? Hw _]. unfold apply_rest_throttle in Ha. rewrite Hi, Hm in Ha.
    rewrite (proj2 (Z.leb_gt interval 0) Hinterval) in Ha. cbn [negb orb] in Ha.
    destruct (reserve_shape _ _ _ _ _ _ _ Ha) as (start' & _ & _ & Hs & _). destruct (Hs eq_refl) as [_ Hs']. unfold believed. cbn in *. nia.
  - apply Forall_app in HW as [HW HW1], Hr as [Hr Hr1]. apply Forall_app. split; [by apply IH|].
    unfold response_slots in *. destruct (_ && _); [|constructor]. destruct (obj_field _ _); try constructor; [|constructor].
    inversion_clear Hr1 as [|? ? Hb _]. by apply Hb.
Qed.

(** What the file remembers of the last slot. *)
Definition remembers (log : list Turn) (file : option json) (mono : Z) : Prop :=
  0 <= mono /\ 0 < mono + offset /\
  match list.last log with
  | Some s => exists label w, file = Some (state_json label (start s + weight s * interval) (made s) (made s + offset) w) /\
      made s <= mono /\ 0 < made s + offset
  | None => True
  end.

(** After the last slot of the log. *)
Definition follows (log : list Turn) (s : Turn) : Prop :=
  match list.last log with Some t => start t + weight t * interval <= start s | None => True end.

(** What a reservation makes of a file that remembers the log. *)
Lemma reserve_remembered log file mono mono' label w wait wait_ms file' :
  0 <= max_wait -> Forall believed log -> remembers log file mono -> mono <= mono' ->
  reserve_weight max_wait label w interval wait mono' (mono' + offset) file = Ok (wait_ms, file') ->
  exists start', mono' <= start' /\ (wait = true -> start' = mono' + wait_ms /\ wait_ms <= max_wait) /\
    obj_field "next_request_monotonic_ms" (read_state file') = JInt (start' + Z.max w 1 * interval) /\
    forall kind, follows log (MkTurn kind mono' start' (Z.max w 1)) /\
      remembers (log ++ [MkTurn kind mono' start' (Z.max w 1)]) file' mono'.
Proof.
  intros Hmw Hb (H0 & Hpos & Hlast) Hle Hr. destruct (reserve_shape _ _ _ _ _ _ _ Hr) as (start' & Hs & -> & Hw & Hnext).
  exists start'. split; [done|]. split; [done|]. split; [done|]. intros kind. split.
  - unfold follows. destruct (list.last log) as [t|] eqn:El; [|done]. destruct Hlast as (label' & w' & -> & Hm & Ht). cbn.
    apply (Hnext label' _ (made t) w'); try done; try lia. apply list.last_Some in El as (l & ->).
    apply Forall_app in Hb as [_ Hb]. inversion_clear Hb as [|? ? Hbt _]. exact Hbt.
  - split; [lia|]. split; [lia|]. rewrite list.last_snoc. exists label, w. cbn. split; [done|]. split; lia.
Qed.

Lemma asked_max label explicit : Z.max (asked label explicit) 1 = asked label explicit.
Proof. unfold asked. lia. Qed.

Lemma ceil_positive items : 0 < items -> 1 <= - (- items / 20).
Proof. intros H. assert (- items / 20 < 0) by (apply Z.div_lt_upper_bound; lia). lia. Qed.

(** One more call keeps the file in step with the log. *)
Lemma request_remembered log file mono mono' env label explicit slept file' :
  0 <= max_wait -> configured env -> Forall believed log -> remembers log file mono -> mono <= mono' ->
  apply_rest_throttle env label true explicit mono' (mono' + offset) file = Ok (slept, file') ->
  let s := MkTurn true mono' (mono' + slept) (asked label explicit) in
  0 <= slept <= max_wait /\ follows log s /\ remembers (log ++ [s]) file' mono'.
Proof.
  intros Hmw [Hi Hm] Hb Hr Hle H. unfold apply_rest_throttle in H. rewrite Hi, Hm in H.
  rewrite (proj2 (Z.leb_gt interval 0) Hinterval) in H. cbn [negb orb] in H. fold (asked label explicit) in H.
  destruct (reserve_remembered _ _ _ _ _ _ _ _ _ Hmw Hb Hr Hle H) as (start' & Hs & Hw & _ & Hk).
  destruct (Hw eq_refl) as [-> Hmax]. rewrite asked_max in Hk. destruct (Hk true). cbv zeta. split; [lia|done].
Qed.

Lemma response_remembered log file mono mono' env label result file' :
  0 <= max_wait -> configured env -> Forall believed log -> remembers log file mono -> mono <= mono' ->
  record_response_weight env label result true mono' (mono' + offset) file = Ok file' ->
  remembers (log ++ response_slots label result mono' file') file' mono' /\
  (response_slots label result mono' file' = [] \/
   exists s, response_slots label result mono' file' = [s] /\ is_request s = false /\ 1 <= weight s /\ follows log s).
Proof.
  intros Hmw [Hi Hm] Hb Hr Hle H. unfold record_response_weight in H. unfold response_slots. rewrite Hi, Hm in H. cbv zeta in H |- *. cbn [negb orb] in H.
  destruct (bool_decide _) eqn:Et; cbn [negb orb andb] in *.
  2: { injection H as <-. rewrite app_nil_r. split; [|by left]. destruct Hr as (H0 & Hpos & Hl). split; [lia|]. split; [lia|].
       destruct (list.last log); [|done]. destruct Hl as (? & ? & ? & ? & ?). eexists _, _. split; [done|]. split; [lia|done]. }
  destruct (Z.leb_spec (response_item_count result) 0) as [Hz|Hz].
  { injection H as <-. destruct (Z.ltb_spec 0 (response_item_count result)); [lia|]. rewrite app_nil_r. split; [|by left].
    destruct Hr as (H0 & Hpos & Hl). split; [lia|]. split; [lia|].
    destruct (list.last log); [|done]. destruct Hl as (? & ? & ? & ? & ?). eexists _, _. split; [done|]. split; [lia|done]. }
  destruct (Z.ltb_spec 0 (response_item_count result)); [|lia]. pose proof (ceil_positive _ Hz) as Hc.
  destruct (reserve_weight _ _ _ _ _ _ _ _) as [[wms f]|e] eqn:Er; [|done]. injection H as <-.
  destruct (reserve_remembered _ _ _ _ _ _ _ _ _ Hmw Hb Hr Hle Er) as (start' & Hs & _ & -> & Hk). rewrite Z.max_l in * by lia.
  rewrite Z.add_simpl_r. destruct (Hk false) as [Hf Hrem]. split; [exact Hrem|]. right. eexists. split; [done|]. done.
Qed.

(** Starts follow each other at the distance that the weights ask for. *)
Fixpoint spaced (log : list Turn) : Prop :=
  match log with
  | [] => True
  | s :: t => match t with [] => True | next :: _ => start s + weight s * interval <= start next end /\ spaced t
  end.

Lemma spaced_snoc log s : spaced log -> follows log s -> spaced (log ++ [s]).
Proof.
  unfold follows. induction log as [|t log IH]; [done|]. intros [H1 H2] Hl. destruct log as [|t' log]; [done|].
  split; [exact H1|]. apply IH; [exact H2|exact Hl].
Qed.

(** A slot weighs something; a request starts when it asked or within the allowed wait. *)
Definition prompt (s : Turn) : Prop := 1 <= weight s /\ (is_request s = true -> made s <= start s <= made s + max_wait).

Lemma throttled_spaced log file mono : 0 <= max_wait -> throttled log file mono -> Forall believed log ->
  spaced log /\ remembers log file mono /\ Forall prompt log.
Proof.
  intros Hmw. induction 1 as [file mono Hm0 H0|log file mono mono' env label explicit e _ IH Hle _ _|
    log file mono mono' env label explicit slept file' _ IH Hle Henv Ha|log file mono mono' env label result e _ IH Hle _ _|
    log file mono mono' env label result file' _ IH Hle Henv Ha]; intros Hb.
  - split; [done|]. split; [by split_and!|constructor].
  - destruct (IH Hb) as (IH1 & (Hm0 & H0 & H) & IH3). split; [done|]. split; [|done]. split; [lia|]. split; [lia|].
    destruct (list.last log); [|done]. destruct H as (l & w & ? & ? & ?). exists l, w. split; [done|]. split; [lia|done].
  - apply Forall_app in Hb as [Hb _]. destruct (IH Hb) as (IH1 & IH2 & IH3).
    destruct (request_remembered _ _ _ _ _ _ _ _ _ Hmw Henv Hb IH2 Hle Ha) as (Hs & Hf & Hr).
    split; [by apply spaced_snoc|]. split; [done|]. apply Forall_app. split; [done|].
    constructor; [|constructor]. split; cbn; [unfold asked; lia|intros _; lia].
  - destruct (IH Hb) as (IH1 & (Hm0 & H0 & H) & IH3). split; [done|]. split; [|done]. split; [lia|]. split; [lia|].
    destruct (list.last log); [|done]. destruct H as (l & w & ? & ? & ?). exists l, w. split; [done|]. split; [lia|done].
  - apply Forall_app in Hb as [Hb _]. destruct (IH Hb) as (IH1 & IH2 & IH3).
    destruct (response_remembered _ _ _ _ _ _ _ _ Hmw Henv Hb IH2 Hle Ha) as (Hr & [E|(s & E & Hs & Hw & Hf)]); rewrite E in *; [by rewrite app_nil_r in *|].
    split; [by apply spaced_snoc|]. split; [done|]. apply Forall_app. split; [done|]. constructor; [|constructor]. split; [done|congruence].
Qed.

(** The weight of the slots that start in a window. *)
Definition weight_between (a b : Z) (log : list Turn) : Z :=
  foldr Z.add 0 (weight <$> List.filter (fun s => (a <=? start s) && (start s <? b)) log).

Lemma weight_between_cons a b s log :
  weight_between a b (s :: log) = (if (a <=? start s) && (start s <? b) then weight s else 0) + weight_between a b log.
Proof. unfold weight_between. cbn [List.filter]. by destruct (_ && _). Qed.

Lemma none_between a b log s : spaced (s :: log) -> Forall (fun s => 1 <= weight s) (s :: log) -> b <= start s -> weight_between a b (s :: log) = 0.
Proof.
  revert s. induction log as [|s' log IH]; intros s [H1 H2] Hp Hb; inversion_clear Hp as [|? ? Hw Hp'];
    rewrite weight_between_cons; (destruct (Z.ltb_spec (start s) b); [lia|]); rewrite andb_false_r.
  - done.
  - apply (IH s'); [done|done|nia].
Qed.

Lemma between_bound a b W log : a <= b -> spaced log -> Forall (fun s => 1 <= weight s <= W) log -> 0 <= W ->
  interval * weight_between a b log <= match log with [] => 0 | s :: _ => Z.max 0 (b - Z.max a (start s)) + interval * W end.
Proof.
  intros Hab. induction log as [|s log IH]; intros Hs Hp HW; [cbn; lia|]. inversion_clear Hp as [|? ? Hw Hp'].
  assert (Forall (fun s => 1 <= weight s) log) as Hp1 by (eapply list.Forall_impl; [exact Hp'|]; cbn; lia).
  assert (0 <= interval * W) as HiW by nia. assert (interval * weight s <= interval * W) as Hiw by nia.
  destruct (Z.le_gt_cases b (start s)) as [Hbs|Hbs]; [rewrite none_between; [lia|done|by constructor; [lia|]|done]|].
  destruct Hs as [Hnext Hs]. specialize (IH Hs Hp' HW). rewrite weight_between_cons, Z.mul_add_distr_l.
  destruct log as [|s' log].
  - change (weight_between a b []) with 0. destruct (_ && _); lia.
  - destruct (Z.le_gt_cases b (start s')) as [Hbs'|Hbs'].
    + pose proof (none_between a b log s' Hs Hp1 Hbs') as Hz. rewrite Hz. destruct (_ && _); lia.
    + destruct (Z.leb_spec a (start s)), (Z.ltb_spec (start s) b); cbn [andb]; lia.
Qed.
End Pacing.

(** C28. The shared throttle keeps its pace.  Let any processes with the same settings call
    [apply_rest_throttle] and [_record_response_weight] on one state file, with clocks that do
    not go back from one call to the next, and let a request start when its call has slept as
    long as it asks for.  Then a request starts within the allowed wait, and no request starts
    before all weight that was reserved before it is used up, by requests and by responses, so
    that the weight of a window is at most what the interval allows plus one reservation.  At
    the default interval that is below the 1200 units of the exchange in every minute.
    Two conditions limit it: an allowed wait with one request fits into the time that a state
    is believed, and no response pushes the next start beyond that time. *)
Theorem throttle_paces max_wait interval offset log file mono W a b :
  0 < interval -> 0 <= max_wait -> 0 <= W -> throttled max_wait interval offset log file mono ->
  Forall (fun s => weight s <= W) log -> max_wait + interval * W <= STATE_VALIDITY_MS ->
  Forall (fun s => is_request s = false -> start s + weight s * interval <= made s + STATE_VALIDITY_MS) log -> a <= b ->
  Forall (fun s => is_request s = true -> made s <= start s <= made s + max_wait) log /\
  spaced interval log /\ interval * weight_between a b log <= (b - a) + interval * W /\
  (interval = DEFAULT_WEIGHT_INTERVAL_MS -> b = a + 60000 -> W < 200 -> weight_between a b log < 1200).
Proof.
  intros Hi Hm HW0 Ht HW Hv Hresp Hab. pose proof (throttled_believed _ _ _ Hi _ _ _ W Ht HW Hv Hresp) as Hb.
  destruct (throttled_spaced max_wait interval offset Hi log file mono Hm Ht Hb) as (Hs & _ & Hp).
  assert (Forall (fun s => 1 <= weight s <= W) log) as Hp'.
  { rewrite !list.Forall_forall in *. intros x Hx. split; [apply (Hp x Hx)|by apply HW]. }
  split; [eapply list.Forall_impl; [exact Hp|]; by intros x [_ ?]|]. split; [done|].
  assert (interval * weight_between a b log <= (b - a) + interval * W) as Hbound.
  { assert (0 <= interval) as Hi' by lia. pose proof (between_bound interval Hi a b W log Hab Hs Hp' HW0) as H. destruct log as [|s log]; [|lia]. cbn in *. nia. }
  split; [done|]. unfold DEFAULT_WEIGHT_INTERVAL_MS. intros -> -> HW60. lia.
Qed.

(** * A machine with three requests *)

Definition example_env : Environment := fun _ => "".

Definition example_file (label : string) (start weight mono : Z) : option json :=
  Some (state_json label (start + weight * 60) mono (mono + 1000000) weight).

(** The answer of 41 fills weighs three units more. *)
Definition example_fills : json := JList (repeat JNull 41).

Definition example_log : list Turn :=
  [MkTurn true 1000 1000 20; MkTurn true 1100 2200 2; MkTurn false 1150 2320 3; MkTurn true 1200 2500 60].

Lemma example_throttled : throttled 60000 60 1000000 example_log (example_file "info:userRole" 2500 60 1200) 1200.
Proof.
  change example_log with ((([] ++ [MkTurn true 1000 (1000 + 0) (asked "info:meta" None)]) ++ [MkTurn true 1100 (1100 + 1100) (asked "info:l2Book" None)]) ++
    [MkTurn false 1150 2320 3] ++ [MkTurn true 1200 (1200 + 1300) (asked "info:userRole" None)]).
  rewrite app_assoc.
  refine (th_request _ _ _ _ (example_file "info:userFills:response" 2320 3 1150) 1150 1200 example_env "info:userRole" None 1300 _ _ _ _ _); [|lia|by split|reflexivity].
  change [MkTurn false 1150 2320 3] with (response_slots 60 "info:userFills" example_fills 1150 (example_file "info:userFills:response" 2320 3 1150)).
  refine (th_response _ _ _ _ (example_file "info:l2Book" 2200 2 1100) 1100 1150 example_env "info:userFills" example_fills _ _ _ _ _); [|lia|by split|reflexivity].
  refine (th_request _ _ _ _ (example_file "info:meta" 1000 20 1000) 1000 1100 example_env "info:l2Book" None 1100 _ _ _ _ _); [|lia|by split|reflexivity].
  refine (th_request _ _ _ _ None 900 1000 example_env "info:meta" None 0 _ _ _ _ _); [by constructor|lia|by split|reflexivity].
Qed.

Lemma throttle_paces_witness :
  apply_rest_throttle example_env "info:meta" true None 1000 1001000 None = Ok (0, example_file "info:meta" 1000 20 1000) /\
  apply_rest_throttle example_env "info:l2Book" true None 1100 1001100 (example_file "info:meta" 1000 20 1000) = Ok (1100, example_file "info:l2Book" 2200 2 1100) /\
  weight_between 1000 61000 example_log = 85 /\ spaced 60 example_log /\ weight_between 1000 61000 example_log < 1200.
Proof.
  split; [vm_compute; reflexivity|]. split; [vm_compute; reflexivity|]. split; [vm_compute; reflexivity|].
  destruct (throttle_paces 60000 60 1000000 example_log _ _ 60 1000 61000 ltac:(lia) ltac:(lia) ltac:(lia) example_throttled) as (_ & Hs & _ & H);
    [repeat constructor; cbn; lia|unfold STATE_VALIDITY_MS; lia|repeat constructor; cbn; unfold STATE_VALIDITY_MS; intros; (lia || congruence)|lia|].
  split; [exact Hs|]. apply H; [reflexivity|reflexivity|lia].
Defined.

(** The clocks are read before the file is locked.  A process that is overtaken in between finds
    a state that is newer than its clock, takes it for the one of an earlier boot, and starts
    at once. *)
Lemma overtaken_reservation_ignored :
  fst <$> reserve_weight 60000 "info:meta" 20 60 true 1001 1001001 (example_file "info:userRole" 1000 60 1000) = Ok 3599 /\
  fst <$> reserve_weight 60000 "info:meta" 20 60 true 999 1000999 (example_file "info:userRole" 1000 60 1000) = Ok 0.
Proof. split; vm_compute; reflexivity. Qed.
