(* ===== verification/AccountState.v ===== *)
(** account_state.py: immutable revisions of the source, of the follower and of a book,
    the book of all of them, and the fence that names the revisions an order was planned on.

    A revision is a record; [__post_init__] is a function that gives the record back or
    raises, and every [replace] of the code goes through it.  Sizes and account values are
    [pydec], because their finiteness is what [__post_init__] tests.  The lock of
    [AccountStateBook] makes each of its methods one step. *)

From S2P Require Import Prelude PyDecimal PyText Models Markets.

Open Scope Z_scope.

(** * Numbers that may not be finite

    A quiet NaN passes through arithmetic; an order comparison with it raises, and so does
    the difference of two equal infinities. *)

Definition pyneg (a : pydec) : pydec :=
  match a with Fin d => Fin (dopp d) | Inf n => Inf (negb n) | NaN => NaN end.

Definition pyabs (a : pydec) : pydec :=
  match a with Fin d => Fin (dabs d) | Inf _ => Inf false | NaN => NaN end.

Definition pyadd (a b : pydec) : res pydec :=
  match a, b with
  | NaN, _ | _, NaN => Ok NaN
  | Fin x, Fin y => Ok (Fin (dadd x y))
  | Inf m, Inf n => if Bool.eqb m n then Ok (Inf m) else Raise (ArithmeticError "InvalidOperation")
  | Inf m, Fin _ | Fin _, Inf m => Ok (Inf m)
  end.

Definition pycopy_negate (a : pydec) : pydec :=
  match a with Fin d => Fin (copy_negate d) | Inf n => Inf (negb n) | NaN => NaN end.

Definition pysub (a b : pydec) : res pydec := pyadd a (pycopy_negate b).

(** [a < b] *)
Definition pyltb (a b : pydec) : res bool :=
  match a, b with
  | NaN, _ | _, NaN => Raise (ArithmeticError "InvalidOperation")
  | Fin x, Fin y => Ok (dltb x y)
  | Inf m, Inf n => Ok (m && negb n)
  | Inf m, Fin _ => Ok m
  | Fin _, Inf m => Ok (negb m)
  end.

(** Truth value. *)
Definition pytruthy (a : pydec) : bool := match a with Fin d => negb (dis_zero d) | _ => true end.

(** [Decimal(str(value))] *)
Definition decimal_of_json (value : json) : res pydec :=
  match decimal_of_string (py_str value) with
  | Some d => Ok d
  | None => Raise (ArithmeticError "InvalidOperation")
  end.

(** * The snapshot of all DEXes *)

(** [fetch_all_dex_clearinghouse_states(info, user=user, dexes=dexes)]; [info dex] is the
    answer to the request for one DEX. *)
Definition fetch_all_dex_clearinghouse_states (info : string -> res json) (user : string) (dexes : list string)
    : res (string * list (string * list (string * json))) :=
  let account := py_lower (py_strip user) in
  if is_empty account then Raise (ValueError "clearinghouse snapshot user is required") else
  if bool_decide (dexes = []) || negb (bool_decide ("" ∈ dexes))
  then Raise (ValueError "clearinghouse snapshot requires the default DEX") else
  if negb (bool_decide (NoDup dexes))
  then Raise (ValueError "clearinghouse snapshot DEXes must be unique") else
  states ← map_res (fun dex =>
    state ← info dex;
    match state with
    | JObj o => Ok (dex, o)
    | _ => Raise (ValueError "clearinghouseState is malformed")
    end) dexes;
  Ok (account, states).

(** * Enumerations *)

Inductive StreamState :=
  | SS_CONNECTING | SS_SNAPSHOT | SS_LIVE | SS_STALE | SS_REPLAYING | SS_GAP | SS_RECONCILING | SS_STOPPED.

Definition permits_increase (s : StreamState) : bool := match s with SS_LIVE => true | _ => false end.

Inductive StateProvenance := WEBSOCKET | COMMITTED_ACTION | TARGETED_REST | FULL_AUDIT | REPLAY.

Definition StateProvenance_value (p : StateProvenance) : string :=
  match p with
  | WEBSOCKET => "ws" | COMMITTED_ACTION => "committed_action_response" | TARGETED_REST => "targeted_rest"
  | FULL_AUDIT => "full_audit" | REPLAY => "replay"
  end.

(** * Positions of a revision *)

Definition check (ok : bool) (msg : string) : res unit := if ok then Ok tt else Raise (ValueError msg).

Definition _validate_positions (positions : dict RawPosition) : res unit :=
  fold_res (fun _ kp =>
    own ← canonical_market_symbol (JStr kp.1);
    _ ← check (bool_decide (own = kp.1)) "position maps must use canonical market keys";
    of_coin ← canonical_market_symbol (JStr (pos_coin kp.2));
    _ ← check (bool_decide (of_coin = kp.1)) "position maps must use canonical market keys";
    check (is_finite (pos_size kp.2)) "position size must be finite") positions tt.

(** [positions.get(market, Position(coin=market, size=Decimal("0")))] *)
Definition position_at (market : string) (positions : dict RawPosition) : RawPosition :=
  default (MkPosition market (Fin dzero) None None 0) (dict_get market positions).

(** * Revisions of a source *)

Record SourceAccountRevision := MkSourceRevision {
  sr_slot : string;
  sr_source_address : string;
  sr_revision : Z;
  sr_source_event_key : string;
  sr_event_class : string;
  sr_exchange_ts_ms : Z;
  sr_receive_wall_ms : Z;
  sr_receive_monotonic_ns : Z;
  sr_positions : dict RawPosition;
  sr_account_value : pydec;
  sr_denominator_confidence : string;
  sr_catalog_revision : string;
  sr_stream_state : StreamState;
  sr_durable_partition : string;
  sr_applied_cursor : Z;
  sr_fresh_until_ms : Z;
  sr_provenance : StateProvenance;
  sr_relevant_context : dict json;
}.

Definition positive_finite (d : pydec) : bool := match d with Fin x => dpos x | _ => false end.
Definition nonnegative_finite (d : pydec) : bool := match d with Fin x => negb (dnegative x) | _ => false end.

(** [SourceAccountRevision.__post_init__] *)
Definition new_source_revision (r : SourceAccountRevision) : res SourceAccountRevision :=
  _ ← check (1 <=? sr_revision r) "source revision must be positive";
  _ ← check (0 <=? sr_applied_cursor r) "source applied cursor must be non-negative";
  _ ← check (positive_finite (sr_account_value r)) "source account value must be finite and positive";
  _ ← _validate_positions (sr_positions r);
  Ok r.

Definition source_is_fresh (r : SourceAccountRevision) (now_ms : Z) : bool := now_ms <=? sr_fresh_until_ms r.

(** [int(value or 0)] *)
Definition int_or_zero (value : json) : res Z := json_int (json_or value (JInt 0)).

Definition is_market_fresh (r : SourceAccountRevision) (market : string) (now_ms : Z) : res bool :=
  canonical ← canonical_market_symbol (JStr market);
  let context := sr_relevant_context r in
  denominator_until ← int_or_zero (obj_field "denominator_fresh_until_ms" context);
  position_until ← match obj_field "position_fresh_until_ms" context with
                   | JObj raw_positions => int_or_zero (obj_field canonical raw_positions)
                   | _ => Ok 0
                   end;
  position_until ← (if position_until <=? 0 then int_or_zero (obj_field "portfolio_fresh_until_ms" context)
                    else Ok position_until);
  portfolio_until ← int_or_zero (obj_field "portfolio_fresh_until_ms" context);
  Ok ((now_ms <=? denominator_until) && (now_ms <=? portfolio_until) && (now_ms <=? position_until)).

(** * Revisions of a follower *)

Record FollowerAccountRevision := MkFollowerRevision {
  fr_follower_address : string;
  fr_revision : Z;
  fr_confirmed_positions : dict RawPosition;
  fr_projected_positions : dict RawPosition;
  fr_open_orders : list OpenOrder;
  fr_inflight_by_cloid : dict (dict json);
  fr_account_value : pydec;
  fr_available_margin : pydec;
  fr_account_mode : string;
  fr_exchange_ts_ms : Z;
  fr_receive_wall_ms : Z;
  fr_reconcile_wall_ms : Z;
  fr_fresh_until_ms : Z;
  fr_confidence : string;
  fr_provenance : StateProvenance;
  fr_catalog_revision : string;
  fr_durable_checkpoint : Z;
  fr_leverage_blocks : dict (dict json);
  fr_nonfunding_ledger_checkpoint : dict json;
}.

(** [isinstance(value, int)]: a Boolean is one. *)
Definition int_instance (value : json) : option Z :=
  match value with JInt z => Some z | JBool b => Some (Z.b2z b) | _ => None end.

Definition ledger_checkpoint_ok (o : dict json) : res unit :=
  match o with
  | [] => Ok tt
  | _ =>
      _ ← check (match int_instance (obj_field "cursor_ms" o) with Some z => 0 <=? z | None => false end)
            "follower ledger cursor must be a non-negative integer";
      check (match obj_field "seen_identities" o with
             | JList l => forallb (fun i => match i with JStr s => negb (is_empty s) | _ => false end) l
             | _ => false
             end) "follower ledger identities must be non-empty strings"
  end.

(** [FollowerAccountRevision.__post_init__] *)
Definition new_follower_revision (r : FollowerAccountRevision) : res FollowerAccountRevision :=
  _ ← check (1 <=? fr_revision r) "follower revision must be positive";
  _ ← check (nonnegative_finite (fr_account_value r)) "follower account_value must be finite and non-negative";
  _ ← check (nonnegative_finite (fr_available_margin r)) "follower available_margin must be finite and non-negative";
  _ ← _validate_positions (fr_confirmed_positions r);
  _ ← _validate_positions (fr_projected_positions r);
  _ ← ledger_checkpoint_ok (fr_nonfunding_ledger_checkpoint r);
  Ok r.

Definition follower_is_fresh (r : FollowerAccountRevision) (now_ms : Z) : bool := now_ms <=? fr_fresh_until_ms r.

(** What every change of a follower revision replaces: the revision, the projection, the
    actions in flight, the leverage blocks, the receive time and the provenance. *)
Definition advance (r : FollowerAccountRevision) (projected : dict RawPosition)
    (inflight blocks : dict (dict json)) (receive_wall_ms : Z) : res FollowerAccountRevision :=
  new_follower_revision
    (MkFollowerRevision (fr_follower_address r) (fr_revision r + 1) (fr_confirmed_positions r) projected
       (fr_open_orders r) inflight (fr_account_value r) (fr_available_margin r) (fr_account_mode r)
       (fr_exchange_ts_ms r) receive_wall_ms (fr_reconcile_wall_ms r) (fr_fresh_until_ms r) (fr_confidence r)
       COMMITTED_ACTION (fr_catalog_revision r) (fr_durable_checkpoint r) blocks
       (fr_nonfunding_ledger_checkpoint r)).

(** [replace(prior, size=size, updated_ms=now)] *)
Definition resized (p : RawPosition) (size : pydec) (now : Z) : RawPosition :=
  MkPosition (pos_coin p) size (pos_entry_px p) (pos_leverage p) now.

(** [replace(prior, leverage=leverage, updated_ms=now)] *)
Definition releveraged (p : RawPosition) (leverage : Z) (now : Z) : RawPosition :=
  MkPosition (pos_coin p) (pos_size p) (pos_entry_px p) (Some leverage) now.

Definition with_committed_fill (r : FollowerAccountRevision) (coin : string) (signed_delta : pydec)
    (cloid : string) (receive_wall_ms : Z) (terminal : bool) : res FollowerAccountRevision :=
  market ← canonical_market_symbol (JStr coin);
  let projected := fr_projected_positions r in
  let prior := position_at market projected in
  size ← pyadd (pos_size prior) signed_delta;
  advance r (dict_set market (resized prior size receive_wall_ms) projected)
    (if terminal then dict_del (py_lower cloid) (fr_inflight_by_cloid r) else fr_inflight_by_cloid r)
    (fr_leverage_blocks r) receive_wall_ms.

Definition json_opt {A} (f : A -> json) (o : option A) : json := match o with Some a => f a | None => JNull end.

(** The optional arguments of [with_inflight_action]. *)
Record InflightOptions := MkInflightOptions {
  io_planned_follower_revision : option Z;
  io_action_kind : string;
  io_target_leverage : option Z;
  io_is_cross : option bool;
  io_reduce_only : bool;
}.

Definition default_options : InflightOptions := MkInflightOptions None "order" None None false.

(** The payload that stands for an action in flight. *)
Definition inflight_payload (r : FollowerAccountRevision) (cloid canonical : string) (signed_qty : pydec)
    (intent_id state : string) (receive_wall_ms : Z) (o : InflightOptions) : dict json :=
  [("cloid", JStr (py_lower cloid)); ("intent_id", JStr intent_id); ("market", JStr canonical);
   ("original_signed_qty", JStr (pydec_str signed_qty)); ("cumulative_filled_qty", JStr "0");
   ("remaining_signed_qty", JStr (pydec_str signed_qty)); ("signed_qty", JStr (pydec_str signed_qty));
   ("state", JStr state); ("action_kind", JStr (io_action_kind o));
   ("target_leverage", json_opt JInt (io_target_leverage o)); ("is_cross", json_opt JBool (io_is_cross o));
   ("reduce_only", JBool (io_reduce_only o));
   ("planned_follower_revision", JInt (default (fr_revision r) (io_planned_follower_revision o)));
   ("truth_checkpoint", JInt (fr_durable_checkpoint r)); ("updated_ms", JInt receive_wall_ms)].

Definition with_inflight_action (r : FollowerAccountRevision) (cloid market : string) (signed_qty : pydec)
    (intent_id state : string) (receive_wall_ms : Z) (o : InflightOptions) : res FollowerAccountRevision :=
  canonical ← canonical_market_symbol (JStr market);
  advance r (fr_projected_positions r)
    (dict_set (py_lower cloid) (inflight_payload r cloid canonical signed_qty intent_id state receive_wall_ms o)
       (fr_inflight_by_cloid r))
    (fr_leverage_blocks r) receive_wall_ms.

(** [{**prior, **changes}] *)
Definition updated (prior changes : dict json) : dict json :=
  fold_left (fun d kv => dict_set kv.1 kv.2 d) changes prior.

(** [payload["key"]] *)
Definition item (key : string) (o : dict json) : res json :=
  match obj_get key o with Some v => Ok v | None => Raise (KeyError key) end.

Definition apply_leverage_observation (r : FollowerAccountRevision) (cloid : string) (accepted terminal : bool)
    (state : string) (receive_wall_ms : Z) (leverage_block : option (dict json)) (clear_block : bool)
    : res FollowerAccountRevision :=
  let key := py_lower cloid in
  match dict_get key (fr_inflight_by_cloid r) with
  | Some prior_payload =>
      if negb (json_is_str "updateLeverage" (obj_field "action_kind" prior_payload))
      then Raise (ValueError "leverage observation requires a durable leverage action") else
      raw_market ← item "market" prior_payload;
      market ← canonical_market_symbol (JStr (py_str raw_market));
      let projected := fr_projected_positions r in
      projected' ← (if accepted then
          raw_leverage ← item "target_leverage" prior_payload;
          target_leverage ← json_int raw_leverage;
          Ok (dict_set market (releveraged (position_at market projected) target_leverage receive_wall_ms) projected)
        else Ok projected);
      let inflight :=
        if terminal then dict_del key (fr_inflight_by_cloid r)
        else dict_set key (updated prior_payload [("state", JStr state); ("updated_ms", JInt receive_wall_ms)])
               (fr_inflight_by_cloid r) in
      let blocks :=
        if clear_block then dict_del market (fr_leverage_blocks r)
        else match leverage_block with
             | Some b => dict_set market b (fr_leverage_blocks r)
             | None => fr_leverage_blocks r
             end in
      advance r projected' inflight blocks receive_wall_ms
  | None => Raise (ValueError "leverage observation requires a durable leverage action")
  end.

(** The changes of the payload of an action that goes on. *)
Definition observed_fields (cumulative remaining : pydec) (state : string) (order_oid : option Z)
    (receive_wall_ms : Z) : dict json :=
  [("cumulative_filled_qty", JStr (pydec_str cumulative)); ("remaining_signed_qty", JStr (pydec_str remaining));
   ("state", JStr state); ("order_oid", json_opt JInt order_oid);
   ("last_reconcile_wall_ms", JInt receive_wall_ms); ("updated_ms", JInt receive_wall_ms)].

(** [payload.get("original_signed_qty", payload.get("signed_qty", "0"))] *)
Definition original_qty (payload : dict json) : json :=
  match obj_get "original_signed_qty" payload with
  | Some v => v
  | None => default (JStr "0") (obj_get "signed_qty" payload)
  end.

Definition apply_action_observation (r : FollowerAccountRevision) (cloid : string) (cumulative_filled_abs : pydec)
    (state : string) (terminal : bool) (receive_wall_ms : Z) (order_oid : option Z)
    : res FollowerAccountRevision :=
  let key := py_lower cloid in
  match dict_get key (fr_inflight_by_cloid r) with
  | None => Raise (ValueError "action observation requires a durable in-flight action")
  | Some prior_payload =>
      if negb (nonnegative_finite cumulative_filled_abs)
      then Raise (ValueError "cumulative action fill must be finite and non-negative") else
      original ← decimal_of_json (original_qty prior_payload);
      prior_filled ← decimal_of_json (default (JStr "0") (obj_get "cumulative_filled_qty" prior_payload));
      regressed ← pyltb cumulative_filled_abs prior_filled;
      bad ← (if regressed : bool then Ok true else pyltb (pyabs original) cumulative_filled_abs);
      if bad : bool
      then Raise (ValueError "cumulative action fill regressed or exceeded the order size") else
      incremental_abs ← pysub cumulative_filled_abs prior_filled;
      negative ← pyltb original (Fin dzero);
      let signed_increment := if negative : bool then pyneg incremental_abs else incremental_abs in
      raw_market ← item "market" prior_payload;
      market ← canonical_market_symbol (JStr (py_str raw_market));
      let projected := fr_projected_positions r in
      projected' ← (if pytruthy signed_increment then
          let prior_position := position_at market projected in
          size ← pyadd (pos_size prior_position) signed_increment;
          Ok (dict_set market (resized prior_position size receive_wall_ms) projected)
        else Ok projected);
      inflight ← (if terminal then Ok (dict_del key (fr_inflight_by_cloid r))
        else
          remaining_abs ← pysub (pyabs original) cumulative_filled_abs;
          let remaining := if negative then pyneg remaining_abs else remaining_abs in
          Ok (dict_set key
                (updated prior_payload
                   (observed_fields cumulative_filled_abs remaining state order_oid receive_wall_ms))
                (fr_inflight_by_cloid r)));
      advance r projected' inflight (fr_leverage_blocks r) receive_wall_ms
  end.

Definition without_inflight_action (r : FollowerAccountRevision) (cloid : string) (receive_wall_ms : Z)
    : res FollowerAccountRevision :=
  advance r (fr_projected_positions r) (dict_del (py_lower cloid) (fr_inflight_by_cloid r))
    (fr_leverage_blocks r) receive_wall_ms.

(** * Revisions of a book *)

Record BookRevision := MkBookRevision {
  br_market : string;
  br_revision : Z;
  br_catalog_revision : string;
  br_book_time_ms : Z;
  br_receive_wall_ms : Z;
  br_receive_monotonic_ns : Z;
  br_bids : list (pydec * pydec);
  br_asks : list (pydec * pydec);
  br_oracle_px : option pydec;
  br_mark_px : option pydec;
  br_connection_epoch : Z;
}.

(** [BookRevision.__post_init__] *)
Definition new_book_revision (r : BookRevision) : res BookRevision :=
  own ← canonical_market_symbol (JStr (br_market r));
  _ ← check (bool_decide (own = br_market r)) "book market must be canonical";
  _ ← check ((1 <=? br_revision r) && negb (is_empty (br_catalog_revision r)))
        "book revision and catalog identity must be present";
  _ ← check ((0 <? br_book_time_ms r) && (0 <? br_receive_wall_ms r)) "book timestamps must be positive";
  _ ← check (0 <=? br_connection_epoch r) "book connection epoch cannot be negative";
  _ ← check (forallb (fun lv => positive_finite lv.1 && positive_finite lv.2) (br_bids r ++ br_asks r))
        "book levels must be finite and positive";
  Ok r.

Definition book_is_fresh (r : BookRevision) (now_ms max_age_ms : Z) : bool :=
  (0 <=? now_ms - br_receive_wall_ms r) && (now_ms - br_receive_wall_ms r <=? max_age_ms).

(** * The fence and the book of revisions *)

Record RevisionFence := MkRevisionFence {
  rf_source_revision : Z;
  rf_follower_revision : Z;
  rf_catalog_revision : string;
  rf_book_revision : Z;
}.

Definition fence_matches (f : RevisionFence) (source : SourceAccountRevision) (follower : FollowerAccountRevision)
    (catalog_revision : string) (book : BookRevision) : bool :=
  (rf_source_revision f =? sr_revision source) && (rf_follower_revision f =? fr_revision follower) &&
  bool_decide (rf_catalog_revision f = catalog_revision) && (rf_book_revision f =? br_revision book).

Record AccountStateBook := MkAccountStateBook {
  _sources : gmap string SourceAccountRevision;
  _followers : gmap string FollowerAccountRevision;
  _books : gmap string BookRevision;
}.

Definition empty_book : AccountStateBook := MkAccountStateBook ∅ ∅ ∅.

(** [previous is not None and revision != previous.revision + 1] *)
Definition follows (previous : option Z) (revision : Z) : bool :=
  match previous with Some p => revision =? p + 1 | None => true end.

Definition publish_source (revision : SourceAccountRevision) : ST AccountStateBook unit := fun b =>
  if follows (sr_revision <$> _sources b !! sr_slot revision) (sr_revision revision)
  then (MkAccountStateBook (<[sr_slot revision := revision]> (_sources b)) (_followers b) (_books b), Ok tt)
  else (b, Raise (ValueError "source revision must advance by exactly one")).

Definition publish_follower (revision : FollowerAccountRevision) : ST AccountStateBook unit := fun b =>
  let key := py_lower (fr_follower_address revision) in
  if follows (fr_revision <$> _followers b !! key) (fr_revision revision)
  then (MkAccountStateBook (_sources b) (<[key := revision]> (_followers b)) (_books b), Ok tt)
  else (b, Raise (ValueError "follower revision must advance by exactly one")).

Definition publish_book (revision : BookRevision) : ST AccountStateBook unit := fun b =>
  if follows (br_revision <$> _books b !! br_market revision) (br_revision revision)
  then (MkAccountStateBook (_sources b) (_followers b) (<[br_market revision := revision]> (_books b)), Ok tt)
  else (b, Raise (ValueError "book revision must advance by exactly one")).

Definition retire_book (market : string) : ST AccountStateBook unit := fun b =>
  match canonical_market_symbol (JStr market) with
  | Ok m => (MkAccountStateBook (_sources b) (_followers b) (delete m (_books b)), Ok tt)
  | Raise e => (b, Raise e)
  end.

Definition source (b : AccountStateBook) (slot : string) : option SourceAccountRevision := _sources b !! slot.

Definition follower (b : AccountStateBook) (address : string) : option FollowerAccountRevision :=
  _followers b !! py_lower address.

Definition book (b : AccountStateBook) (market : string) : res (option BookRevision) :=
  m ← canonical_market_symbol (JStr market); Ok (_books b !! m).

Definition fence (b : AccountStateBook) (slot follower_address market : string) : res (option RevisionFence) :=
  m ← canonical_market_symbol (JStr market);
  match _sources b !! slot, _followers b !! py_lower follower_address, _books b !! m with
  | Some s, Some f, Some k =>
      Ok (Some (MkRevisionFence (sr_revision s) (fr_revision f) (sr_catalog_revision s) (br_revision k)))
  | _, _, _ => Ok None
  end.
