(* ===== verification/AccountStateFacts.v ===== *)
(** What the revisions of account_state.py promise: a fence recognises exactly the revisions
    it was taken on, and the fills of an action in flight are projected once. *)

From S2P Require Import Prelude PyDecimal DecimalFacts RoundingFacts PyText TextFacts Models Markets MarketFacts AccountState.
From Stdlib Require Import QArith Qabs Lqa.

Open Scope Z_scope.

(** * The book of revisions *)

Inductive BookOp :=
  | PublishSource (r : SourceAccountRevision)
  | PublishFollower (r : FollowerAccountRevision)
  | PublishBook (r : BookRevision)
  | RetireBook (market : string).

Definition run_op (op : BookOp) : ST AccountStateBook unit :=
  match op with
  | PublishSource r => publish_source r
  | PublishFollower r => publish_follower r
  | PublishBook r => publish_book r
  | RetireBook market => retire_book market
  end.

(** A caller that goes on after an exception. *)
Definition run_ops (ops : list BookOp) (b : AccountStateBook) : AccountStateBook :=
  fold_left (fun b op => (run_op op b).1) ops b.

(** The operation retires the book of the canonical market [m]. *)
Definition retires (m : string) (op : BookOp) : Prop :=
  match op with RetireBook market => canonical_market_symbol (JStr market) = Ok m | _ => False end.

(** A keyed revision stays, or is replaced by a later one. *)
Definition later {V} (rev : V -> Z) (a b : option V) : Prop :=
  match a with
  | None => True
  | Some v => exists v', b = Some v' /\ (v' = v \/ rev v < rev v')
  end.

#[export] Instance later_preorder {V} (rev : V -> Z) : PreOrder (later rev).
Proof.
  split; [intros [v|]; cbn; [by exists v; split; [|left]|done]|].
  intros [a|] y z; cbn; [|done]. intros (b & -> & Hb). cbn. intros (c & -> & Hc). exists c. split; [done|].
  destruct Hb as [->|Hb]; [done|]. destruct Hc as [->|Hc]; right; [done|lia].
Qed.

Lemma later_insert {V} (rev : V -> Z) (m : gmap string V) (key k : string) (v : V) :
  follows (rev <$> m !! key) (rev v) = true -> later rev (m !! k) (<[key := v]> m !! k).
Proof.
  intros Hf. destruct (decide (key = k)) as [->|Hne]; [|by rewrite lookup_insert_ne].
  rewrite lookup_insert_eq. destruct (m !! k) as [p|]; cbn in *; [|done].
  apply Z.eqb_eq in Hf. exists v. split; [done|]. right. lia.
Qed.

(** Revisions with equal numbers are the same revision. *)
Lemma later_same {V} (rev : V -> Z) a v w : later rev (Some a) (Some v) -> w = rev a -> w = rev v <-> a = v.
Proof. intros (? & [= <-] & [->|H]) ->; [done|]. split; [lia|intros ->; lia]. Qed.

Section Frame.
Context (slot f m : string) (b : AccountStateBook).

Definition op_kept (b' : AccountStateBook) : Prop :=
  later sr_revision (_sources b !! slot) (_sources b' !! slot) /\
  later fr_revision (_followers b !! f) (_followers b' !! f) /\
  later br_revision (_books b !! m) (_books b' !! m).

Lemma run_op_later op : ~ retires m op -> op_kept (run_op op b).1.
Proof.
  unfold op_kept. destruct op as [r|r|r|market]; cbn; intros Hr.
  - unfold publish_source. destruct (follows _ _) eqn:E; cbn; (split; [|done]); [by apply later_insert|done].
  - unfold publish_follower. destruct (follows _ _) eqn:E; cbn; (split; [done|split; [|done]]); [by apply later_insert|done].
  - unfold publish_book. destruct (follows _ _) eqn:E; cbn; (split; [done|split; [done|]]); [by apply later_insert|done].
  - unfold retire_book. destruct (canonical_market_symbol (JStr market)) as [m'|] eqn:E; cbn; (split; [done|split; [done|]]); [|done].
    rewrite lookup_delete_ne; [done|]. intros ->. by apply Hr.
Qed.
End Frame.

Lemma run_ops_later slot f m ops b : Forall (fun op => ~ retires m op) ops -> op_kept slot f m b (run_ops ops b).
Proof.
  unfold run_ops. revert b. induction ops as [|op ops IH]; intros b H; cbn; [by repeat split|].
  apply list.Forall_cons in H as [Hop Hops]. destruct (run_op_later slot f m b op Hop) as (H1 & H2 & H3).
  destruct (IH (run_op op b).1 Hops) as (H1' & H2' & H3').
  split; [|split]; by etransitivity.
Qed.

(** C27. A fence recognises exactly the revisions it was taken on.  Take a fence of a source, a
    follower and a book, then let the book of revisions go through any sequence of
    publications, accepted or refused, and of retirements of other markets.  All three are
    still published, and the fence matches what is published now (and a catalog revision)
    if and only if neither of the three was replaced and the catalog revision is the one of
    the source: a revision that went away never matches again. *)
Theorem fence_recognises b slot address market m ops fc :
  canonical_market_symbol (JStr market) = Ok m -> fence b slot address market = Ok (Some fc) ->
  Forall (fun op => ~ retires m op) ops ->
  let b' := run_ops ops b in
  exists s f k, source b' slot = Some s /\ follower b' address = Some f /\ book b' market = Ok (Some k) /\
    forall catalog, fence_matches fc s f catalog k = true <->
      source b slot = Some s /\ follower b address = Some f /\ book b market = Ok (Some k) /\ catalog = sr_catalog_revision s.
Proof.
  intros Hm Hf Hops b'. unfold fence in Hf. rewrite Hm in Hf. cbn in Hf.
  destruct (_sources b !! slot) as [s|] eqn:Es; [|done].
  destruct (_followers b !! py_lower address) as [f|] eqn:Ef; [|done].
  destruct (_books b !! m) as [k|] eqn:Ek; [|done]. injection Hf as <-.
  destruct (run_ops_later slot (py_lower address) m ops b Hops) as (H1 & H2 & H3).
  rewrite Es in H1. rewrite Ef in H2. rewrite Ek in H3. fold b' in H1, H2, H3.
  destruct H1 as (s' & Es' & H1), H2 as (f' & Ef' & H2), H3 as (k' & Ek' & H3).
  exists s', f', k'. unfold source, follower, book. rewrite Hm. cbn. rewrite Es, Ef, Ek, Es', Ef', Ek'.
  split; [done|]. split; [done|]. split; [done|]. intros catalog. unfold fence_matches. cbn.
  rewrite !andb_true_iff, !Z.eqb_eq, bool_decide_eq_true.
  rewrite (later_same sr_revision s s') by (by first [exists s'|reflexivity]).
  rewrite (later_same fr_revision f f') by (by first [exists f'|reflexivity]).
  rewrite (later_same br_revision k k') by (by first [exists k'|reflexivity]).
  split; [intros [[[-> ->] <-] ->]; done|]. intros ([= ->] & [= ->] & [= ->] & ->). done.
Qed.

(** * Valid revisions *)

Lemma check_Ok ok msg u : check ok msg = Ok u <-> ok = true.
Proof. unfold check. destruct ok, u; split; done. Qed.

Definition position_ok (kp : string * RawPosition) : Prop :=
  canonical_market_symbol (JStr kp.1) = Ok kp.1 /\ canonical_market_symbol (JStr (pos_coin kp.2)) = Ok kp.1 /\
  is_finite (pos_size kp.2) = true.

Lemma validate_position kp : (own ← canonical_market_symbol (JStr kp.1);
    _ ← check (bool_decide (own = kp.1)) "position maps must use canonical market keys";
    of_coin ← canonical_market_symbol (JStr (pos_coin kp.2));
    _ ← check (bool_decide (of_coin = kp.1)) "position maps must use canonical market keys";
    check (is_finite (pos_size kp.2)) "position size must be finite") = Ok tt <-> position_ok kp.
Proof.
  unfold position_ok. rewrite bind_Ok. split.
  - intros (own & -> & H). apply bind_Ok in H as (? & ->%check_Ok%bool_decide_eq_true & H).
    apply bind_Ok in H as (oc & -> & H). apply bind_Ok in H as (? & ->%check_Ok%bool_decide_eq_true & H).
    by apply check_Ok in H.
  - intros (-> & -> & ->). exists kp.1. split; [done|]. cbn. by rewrite bool_decide_eq_true_2.
Qed.

Lemma validate_positions d : _validate_positions d = Ok tt <-> Forall position_ok d.
Proof.
  unfold _validate_positions. induction d as [|kp d IH]; cbn [fold_res]; [by split; [constructor|]|].
  rewrite list.Forall_cons, <- IH, <- validate_position.
  destruct (canonical_market_symbol (JStr kp.1) ≫= _) as [[]|e]; split; [done| |done|]; by intros [].
Qed.

(** A record that [__post_init__] accepts. *)
Definition valid_follower (r : FollowerAccountRevision) : Prop := new_follower_revision r = Ok r.

Lemma valid_follower_parts r : valid_follower r <->
  1 <= fr_revision r /\ nonnegative_finite (fr_account_value r) = true /\ nonnegative_finite (fr_available_margin r) = true /\
  Forall position_ok (fr_confirmed_positions r) /\ Forall position_ok (fr_projected_positions r) /\
  ledger_checkpoint_ok (fr_nonfunding_ledger_checkpoint r) = Ok tt.
Proof.
  unfold valid_follower, new_follower_revision. rewrite <- !validate_positions, <- Z.leb_le. unfold check.
  destruct (1 <=? fr_revision r); cbn; [|by split; [|intros (? & _)]].
  destruct (nonnegative_finite (fr_account_value r)); cbn; [|by split; [|intros (_ & ? & _)]].
  destruct (nonnegative_finite (fr_available_margin r)); cbn; [|by split; [|intros (_ & _ & ? & _)]].
  destruct (_validate_positions (fr_confirmed_positions r)) as [[]|]; cbn; [|by split; [|intros (_ & _ & _ & ? & _)]].
  destruct (_validate_positions (fr_projected_positions r)) as [[]|]; cbn; [|by split; [|intros (_ & _ & _ & _ & ? & _)]].
  destruct (ledger_checkpoint_ok _) as [[]|]; cbn; split; [done|done|done|]. by intros (_ & _ & _ & _ & _ & ?).
Qed.

(** An accepted record is the one that was given. *)
Lemma new_follower_same r r' : new_follower_revision r = Ok r' -> r' = r /\ valid_follower r.
Proof.
  intros H. assert (r' = r) as ->; [|done]. unfold new_follower_revision in H.
  repeat (apply bind_Ok in H as (? & _ & H)). by injection H.
Qed.

Lemma position_at_ok m d : canonical_market_symbol (JStr m) = Ok m -> Forall position_ok d -> position_ok (m, position_at m d).
Proof.
  intros Hm Hd. unfold position_at. destruct (dict_get m d) as [p|] eqn:E; cbn; [|done].
  apply dict_get_Some_in in E. rewrite list.Forall_forall in Hd. by apply Hd.
Qed.

Lemma set_position_ok m p d : position_ok (m, p) -> Forall position_ok d -> Forall position_ok (dict_set m p d).
Proof.
  rewrite !list.Forall_forall. intros Hp Hd [k v] Hin. apply dict_set_in in Hin as [[= -> ->]|Hin]; [done|by apply Hd].
Qed.

Lemma position_at_set_eq m p d : position_at m (dict_set m p d) = p.
Proof. unfold position_at. by rewrite dict_get_set_eq. Qed.

Lemma position_at_set_ne m n p d : m <> n -> position_at n (dict_set m p d) = position_at n d.
Proof. intros H. unfold position_at. by rewrite dict_get_set_ne. Qed.

(** A change that keeps the positions acceptable is accepted. *)
Lemma advance_Ok r projected inflight blocks now :
  valid_follower r -> Forall position_ok projected ->
  exists r', advance r projected inflight blocks now = Ok r' /\ valid_follower r' /\ fr_revision r' = fr_revision r + 1 /\
    fr_projected_positions r' = projected /\ fr_inflight_by_cloid r' = inflight /\
    fr_confirmed_positions r' = fr_confirmed_positions r.
Proof.
  intros Hv Hp. apply valid_follower_parts in Hv as (H1 & H2 & H3 & H4 & _ & H6). unfold advance.
  match goal with |- context [new_follower_revision ?x] => assert (valid_follower x) as Hx end.
  { apply valid_follower_parts. cbn. repeat split; [lia|done|done|done|done|done]. }
  eexists. split; [exact Hx|]. by split.
Qed.

(** * The fills of an action in flight *)

Record Observation := MkObservation {
  ob_cumulative : dec;
  ob_state : string;
  ob_terminal : bool;
  ob_now : Z;
  ob_oid : option Z;
}.

Definition observe (cloid : string) (r : FollowerAccountRevision) (o : Observation) : res FollowerAccountRevision :=
  apply_action_observation r cloid (Fin (ob_cumulative o)) (ob_state o) (ob_terminal o) (ob_now o) (ob_oid o).

(** The signed value of an absolute amount of an order for [q]. *)
Definition signed_amount (q : dec) (c : Q) : Q := if dnegative q then (- c)%Q else c.

(** Cumulative amounts that start at [c], never fall and never exceed the order. *)
Fixpoint climbs (q : dec) (c : Q) (l : list dec) : Prop :=
  match l with
  | [] => True
  | d :: t => (c <= dval d <= Qabs (dval q))%Q /\ climbs q (dval d) t
  end.

Fixpoint end_amount (c : Q) (l : list dec) : Q := match l with [] => c | d :: t => end_amount (dval d) t end.

Lemma climbs_snoc q c l d : climbs q c (l ++ [d]) <-> climbs q c l /\ (end_amount c l <= dval d <= Qabs (dval q))%Q.
Proof. revert c. induction l as [|x l IH]; intros c; cbn; [tauto|]. rewrite IH. tauto. Qed.

(** Nothing but the market [m] and the action [key] differs. *)
Definition elsewhere (m key : string) (r r' : FollowerAccountRevision) : Prop :=
  (forall n, n <> m -> position_at n (fr_projected_positions r') = position_at n (fr_projected_positions r)) /\
  (forall k, k <> key -> dict_get k (fr_inflight_by_cloid r') = dict_get k (fr_inflight_by_cloid r)) /\
  fr_confirmed_positions r' = fr_confirmed_positions r.

#[export] Instance elsewhere_preorder m key : PreOrder (elsewhere m key).
Proof.
  split; [by split|]. intros a b c (H1 & H2 & H3) (H1' & H2' & H3').
  split; [|split]; [intros n Hn; by rewrite H1', H1|intros k Hk; by rewrite H2', H2|congruence].
Qed.

(** What the payload of the action says is left. *)
Definition remaining_is (key : string) (r : FollowerAccountRevision) (x : Q) : Prop :=
  exists p t, dict_get key (fr_inflight_by_cloid r) = Some p /\
    obj_get "remaining_signed_qty" p = Some (JStr (dec_str t)) /\ (dval t == x)%Q.

Section Action.
Context (cloid m : string) (q : dec) (e : Z) (base : Q).
Hypothesis Hm : canonical_market_symbol (JStr m) = Ok m.
Hypothesis Hbase : multiple_of e base.
Hypothesis Hq : multiple_of e (dval q).
Hypothesis Hroom : (Qabs base + Qabs (dval q) < q10 (28 + e))%Q.

(** The action is in flight with [c] filled, and what it filled is in the projection. *)
Record in_flight (r : FollowerAccountRevision) (c : Q) : Prop := {
  if_valid : valid_follower r;
  if_payload : exists p d, dict_get (py_lower cloid) (fr_inflight_by_cloid r) = Some p /\
    obj_get "market" p = Some (JStr m) /\ obj_get "original_signed_qty" p = Some (JStr (dec_str q)) /\
    decimal_of_json (default (JStr "0") (obj_get "cumulative_filled_qty" p)) = Ok (Fin d) /\ (dval d == c)%Q;
  if_size : exists s, pos_size (position_at m (fr_projected_positions r)) = Fin s /\ (dval s == base + signed_amount q c)%Q;
  if_grid : multiple_of e c /\ (0 <= c <= Qabs (dval q))%Q;
}.

Lemma signed_grid x : multiple_of e x -> multiple_of e (signed_amount q x).
Proof. unfold signed_amount. destruct (dnegative q); [apply multiple_opp|done]. Qed.

Lemma signed_bound x : (0 <= x)%Q -> (- x <= signed_amount q x <= x)%Q.
Proof. unfold signed_amount. destruct (dnegative q); intros; lra. Qed.

#[local] Instance signed_proper : Proper (Qeq ==> Qeq) (signed_amount q).
Proof. intros x y H. unfold signed_amount. by destruct (dnegative q); rewrite H. Qed.

(** Amounts below the order are on the grid, and so is the position they give. *)
Lemma amount_grid x : multiple_of e x -> (0 <= x <= Qabs (dval q))%Q -> on_grid e x.
Proof. intros Hx Hr. split; [done|]. rewrite Qabs_pos by lra. pose proof (Qabs_nonneg base). lra. Qed.

Lemma size_grid x : multiple_of e x -> (0 <= x <= Qabs (dval q))%Q -> on_grid e (base + signed_amount q x).
Proof.
  intros Hx Hr. split; [by apply multiple_add, signed_grid|]. pose proof (Qabs_triangle base (signed_amount q x)) as Ht.
  pose proof (signed_bound x) as Hs. assert (Qabs (signed_amount q x) <= x)%Q by (apply Qabs_Qle_condition, Hs; lra). lra.
Qed.

Lemma order_abs : (dval (dabs q) == Qabs (dval q))%Q.
Proof. apply (dabs_on_grid e). split; [done|]. pose proof (Qabs_nonneg base). lra. Qed.

(** The amount an observation adds, exactly. *)
Lemma increment_exact d c : multiple_of e (dval c) -> multiple_of e (dval d) -> (0 <= dval d <= dval c)%Q -> (dval c <= Qabs (dval q))%Q ->
  let incremental := dsub c d in
  (dval incremental == dval c - dval d)%Q /\
  (dval (if dnegative q then dopp incremental else incremental) == signed_amount q (dval c) - signed_amount q (dval d))%Q.
Proof.
  intros Hc Hd Hdc Hcq incremental. assert (dval incremental == dval c - dval d)%Q as E.
  { apply (dsub_on_grid e), amount_grid; [by apply multiple_sub|lra]. }
  split; [done|]. unfold signed_amount. destruct (dnegative q); [|done]. rewrite dopp_fits by apply dsub_fits. rewrite E. ring.
Qed.

#[local] Arguments canonical_market_symbol : simpl never.

(** The decision and the effect of one observation, once the payload has been read. *)
Lemma observe_eval r o p d s :
  dict_get (py_lower cloid) (fr_inflight_by_cloid r) = Some p ->
  obj_get "market" p = Some (JStr m) -> obj_get "original_signed_qty" p = Some (JStr (dec_str q)) ->
  decimal_of_json (default (JStr "0") (obj_get "cumulative_filled_qty" p)) = Ok (Fin d) ->
  pos_size (position_at m (fr_projected_positions r)) = Fin s ->
  let c := ob_cumulative o in
  let increment := if dnegative q then dopp (dsub c d) else dsub c d in
  let remaining := if dnegative q then dopp (dsub (dabs q) c) else dsub (dabs q) c in
  let positions := fr_projected_positions r in
  let inflight := fr_inflight_by_cloid r in
  observe cloid r o =
    if dnegative c then Raise (ValueError "cumulative action fill must be finite and non-negative")
    else if dltb c d || dltb (dabs q) c then Raise (ValueError "cumulative action fill regressed or exceeded the order size")
    else advance r
      (if dis_zero increment then positions
       else dict_set m (resized (position_at m positions) (Fin (dadd s increment)) (ob_now o)) positions)
      (if ob_terminal o then dict_del (py_lower cloid) inflight
       else dict_set (py_lower cloid) (updated p (observed_fields (Fin c) (Fin remaining) (ob_state o) (ob_oid o) (ob_now o))) inflight)
      (fr_leverage_blocks r) (ob_now o).
Proof.
  intros Hp Hmk Hor Hcu Hs c increment remaining positions inflight.
  unfold observe, apply_action_observation. rewrite Hp. fold c. cbn [nonnegative_finite]. rewrite negb_involutive.
  destruct (dnegative c); [done|]. unfold original_qty. rewrite Hor.
  assert (decimal_of_json (JStr (dec_str q)) = Ok (Fin q)) as -> by (unfold decimal_of_json; cbn [py_str]; by rewrite decimal_str_roundtrip).
  rewrite Hcu. cbn. destruct (dltb c d); [done|]. cbn. destruct (dltb (dabs q) c); [done|]. cbn.
  unfold item. rewrite Hmk. cbn. rewrite Hm. cbn. fold (dsub c d). fold (dsub (dabs q) c).
  unfold increment, remaining. change (dltb q dzero) with (dnegative q).
  destruct (dnegative q); cbn; (destruct (dis_zero _); cbn; [by destruct (ob_terminal o)|]); rewrite Hs; cbn; by destruct (ob_terminal o).
Qed.

(** The payload after an observation: the identity of the order stays, its amounts follow. *)
Lemma observed_payload p c t state oid now : let p' := updated p (observed_fields (Fin c) (Fin t) state oid now) in
  obj_get "market" p' = obj_get "market" p /\ obj_get "original_signed_qty" p' = obj_get "original_signed_qty" p /\
  obj_get "cumulative_filled_qty" p' = Some (JStr (dec_str c)) /\ obj_get "remaining_signed_qty" p' = Some (JStr (dec_str t)).
Proof.
  cbv zeta. unfold updated, observed_fields. cbn [fold_left fst snd pydec_str].
  split; [|split; [|split]]; rewrite ?obj_get_dict; by repeat first [rewrite dict_get_set_eq|rewrite dict_get_set_ne by done].
Qed.

(** What an accepted observation does. *)
Definition observed (r : FollowerAccountRevision) (o : Observation) (r' : FollowerAccountRevision) : Prop :=
  let c := dval (ob_cumulative o) in
  fr_revision r' = fr_revision r + 1 /\ elsewhere m (py_lower cloid) r r' /\
  (exists s, pos_size (position_at m (fr_projected_positions r')) = Fin s /\ (dval s == base + signed_amount q c)%Q) /\
  if ob_terminal o then dict_get (py_lower cloid) (fr_inflight_by_cloid r') = None
  else in_flight r' c /\ remaining_is (py_lower cloid) r' (dval q - signed_amount q c).

Lemma remaining_exact c : multiple_of e (dval c) -> (0 <= dval c <= Qabs (dval q))%Q ->
  (dval (if dnegative q then dopp (dsub (dabs q) c) else dsub (dabs q) c) == dval q - signed_amount q (dval c))%Q.
Proof.
  intros Hc Hr. pose proof order_abs as Ha.
  assert (dval (dsub (dabs q) c) == Qabs (dval q) - dval c)%Q as E.
  { rewrite (dsub_on_grid e); rewrite Ha; [done|]. apply amount_grid; [|lra].
    apply multiple_sub; [|done]. apply on_grid_abs. split; [done|]. pose proof (Qabs_nonneg base). lra. }
  unfold signed_amount. destruct (dnegative q) eqn:En.
  - rewrite dopp_fits by apply dsub_fits. rewrite E. apply dltb_spec in En. rewrite dval_zero in En. rewrite Qabs_neg by lra. ring.
  - rewrite E. apply dltb_false in En. rewrite dval_zero in En. rewrite Qabs_pos by lra. ring.
Qed.

Lemma observe_accepted r c0 o : in_flight r c0 -> multiple_of e (dval (ob_cumulative o)) ->
  (c0 <= dval (ob_cumulative o) <= Qabs (dval q))%Q -> exists r', observe cloid r o = Ok r' /\ observed r o r'.
Proof.
  intros [Hv (p & d & Hp & Hmk & Hor & Hcu & Hd) (s & Hs & Hsv) [Hg0 Hr0]] Hc Hle.
  rewrite (observe_eval _ _ _ _ _ Hp Hmk Hor Hcu Hs). set (c := ob_cumulative o) in *.
  assert (multiple_of e (dval d)) as Hdg by (by rewrite Hd).
  destruct (increment_exact d c Hc Hdg) as [_ Hinc]; [rewrite Hd; lra|lra|]. cbv zeta in Hinc.
  set (increment := if dnegative q then dopp (dsub c d) else dsub c d) in *.
  assert (dnegative c = false) as -> by (apply dltb_false; rewrite dval_zero; lra).
  assert (dltb c d = false) as -> by (apply dltb_false; rewrite Hd; lra).
  assert (dltb (dabs q) c = false) as -> by (apply dltb_false; rewrite order_abs; lra). cbn [orb].
  pose proof (proj1 (valid_follower_parts r) Hv) as (_ & _ & _ & _ & Hpos & _).
  destruct (position_at_ok m _ Hm Hpos) as (_ & Hcoin & _). cbn in Hcoin.
  set (positions' := if dis_zero increment then _ else _).
  assert (Forall position_ok positions' /\ (forall n, n <> m -> position_at n positions' = position_at n (fr_projected_positions r)) /\
    exists s', pos_size (position_at m positions') = Fin s' /\ (dval s' == base + signed_amount q (dval c))%Q) as (Hok & Hoth & Hsz).
  { unfold positions'. destruct (dis_zero increment) eqn:Ez.
    - apply dis_zero_spec in Ez. split; [done|]. split; [done|]. exists s. split; [done|]. rewrite Hd in Hinc. lra.
    - split; [by apply set_position_ok|]. split; [intros n Hn; by rewrite position_at_set_ne|].
      rewrite position_at_set_eq. exists (dadd s increment). split; [done|].
      assert (dval s + dval increment == base + signed_amount q (dval c))%Q as Es by (rewrite Hinc, Hsv, Hd; ring).
      rewrite (dadd_on_grid e); [done|]. rewrite Es. apply size_grid; [done|lra]. }
  set (inflight' := if ob_terminal o then _ else _).
  destruct (advance_Ok r positions' inflight' (fr_leverage_blocks r) (ob_now o) Hv Hok) as (r' & -> & Hv' & Hrev & Hpr & Hin & Hcf).
  exists r'. split; [done|]. unfold observed. fold c. rewrite Hpr, Hin.
  split; [done|]. split; [split; [by rewrite Hpr|split; [|done]]; rewrite Hin; intros k Hk; unfold inflight'|].
  { destruct (ob_terminal o); [by rewrite dict_get_del_ne|by rewrite dict_get_set_ne]. }
  split; [done|]. unfold inflight'. destruct (ob_terminal o) eqn:Et; [by rewrite dict_get_del_eq|].
  set (t := if dnegative q then dopp (dsub (dabs q) c) else dsub (dabs q) c) in *.
  destruct (observed_payload p c t (ob_state o) (ob_oid o) (ob_now o)) as (P1 & P2 & P3 & P4).
  set (p' := updated p _) in *.
  assert (dict_get (py_lower cloid) (fr_inflight_by_cloid r') = Some p') as Hp'.
  { rewrite Hin. unfold inflight'. rewrite ?Et. apply dict_get_set_eq. }
  split; [split; [done| |by rewrite Hpr|split; [done|lra]]|].
  - exists p', c. rewrite P1, P2, P3. unfold decimal_of_json. cbn. by rewrite decimal_str_roundtrip.
  - exists p', t. split; [done|]. split; [done|]. apply remaining_exact; [done|lra].
Qed.

Lemma observation_refused r c0 o : in_flight r c0 ->
  ~ (c0 <= dval (ob_cumulative o) <= Qabs (dval q))%Q -> exists e, observe cloid r o = Raise e.
Proof.
  intros [Hv (p & d & Hp & Hmk & Hor & Hcu & Hd) (s & Hs & _) _] Hn.
  rewrite (observe_eval _ _ _ _ _ Hp Hmk Hor Hcu Hs). destruct (dnegative _); [by eexists|].
  destruct (dltb (ob_cumulative o) d || _) eqn:E; [by eexists|]. apply orb_false_iff in E as [E1 E2].
  apply dltb_false in E1, E2. rewrite order_abs in E2. rewrite Hd in E1. by destruct Hn.
Qed.

(** A run of observations that leave the action in flight. *)
Lemma observe_all obs r c : in_flight r c ->
  Forall (fun o => multiple_of e (dval (ob_cumulative o)) /\ ob_terminal o = false) obs ->
  let l := ob_cumulative <$> obs in
  (climbs q c l /\ exists r', fold_res (observe cloid) obs r = Ok r' /\ in_flight r' (end_amount c l) /\
     elsewhere m (py_lower cloid) r r' /\ fr_revision r' = fr_revision r + Z.of_nat (List.length obs)) \/
  (~ climbs q c l /\ exists x, fold_res (observe cloid) obs r = Raise x).
Proof.
  revert r c. induction obs as [|o obs IH]; intros r c Hin Hobs; cbn.
  { left. split; [done|]. exists r. split; [done|]. split; [done|]. split; [done|]. lia. }
  apply list.Forall_cons in Hobs as [[Hg Ht] Hobs].
  assert ((c <= dval (ob_cumulative o) <= Qabs (dval q))%Q \/ ~ (c <= dval (ob_cumulative o) <= Qabs (dval q))%Q) as [Hle|Hn].
  { destruct (Qlt_le_dec (dval (ob_cumulative o)) c); [right; lra|].
    destruct (Qlt_le_dec (Qabs (dval q)) (dval (ob_cumulative o))); [right|left]; lra. }
  2:{ right. destruct (observation_refused r c o Hin Hn) as [x ->]. split; [tauto|]. by exists x. }
  destruct (observe_accepted r c o Hin Hg Hle) as (r1 & -> & Hrev & Hel & _ & H). rewrite Ht in H. destruct H as [Hin1 _].
  destruct (IH r1 _ Hin1 Hobs) as [(Hcl & r' & -> & Hin' & Hel' & Hrev')|(Hcl & x & ->)]; [left|right].
  - split; [done|]. exists r'. split; [done|]. split; [done|]. split; [by transitivity r1|]. lia.
  - split; [tauto|]. by exists x.
Qed.
End Action.

(** An action is put in flight, observed [obs] times while it goes on, and then [final]ly. *)
Definition lifecycle (r : FollowerAccountRevision) (cloid market : string) (q : dec) (intent_id state : string) (now : Z)
    (o : InflightOptions) (obs : list Observation) (final : Observation) : res FollowerAccountRevision :=
  r1 ← with_inflight_action r cloid market (Fin q) intent_id state now o;
  r2 ← fold_res (observe cloid) obs r1;
  observe cloid r2 final.

Lemma started r cloid market m q e s intent_id state now o :
  valid_follower r -> canonical_market_symbol (JStr market) = Ok m ->
  pos_size (position_at m (fr_projected_positions r)) = Fin s ->
  exists r1, with_inflight_action r cloid market (Fin q) intent_id state now o = Ok r1 /\
    in_flight cloid m q e (dval s) r1 0 /\ elsewhere m (py_lower cloid) r r1 /\ fr_revision r1 = fr_revision r + 1.
Proof.
  intros Hv Hm Hs. unfold with_inflight_action. rewrite Hm. cbn [mbind res_bind].
  pose proof (proj1 (valid_follower_parts r) Hv) as (_ & _ & _ & _ & Hpos & _).
  set (inflight' := dict_set _ _ _).
  destruct (advance_Ok r (fr_projected_positions r) inflight' (fr_leverage_blocks r) now Hv Hpos) as (r1 & -> & Hv1 & Hrev & Hpr & Hin & Hcf).
  exists r1. split; [done|]. split; [|split; [|done]].
  - split; [done| |rewrite Hpr; exists s; split; [done|]; unfold signed_amount; destruct (dnegative q); ring|].
    + rewrite Hin. unfold inflight'. rewrite dict_get_set_eq. eexists _, dzero. split; [done|]. by repeat split.
    + split; [apply multiple_zero|]. pose proof (Qabs_nonneg (dval q)). lra.
  - split; [by rewrite Hpr|split; [|done]]. rewrite Hin. intros k Hk. unfold inflight'. by rewrite dict_get_set_ne.
Qed.

(** C26. The fills of an action are projected once.  Put an action for [q] of a market in flight
    and observe it any number of times by the cumulative amount it filled, the last time
    possibly as terminal.  The whole run is accepted if and only if the amounts start at or
    above zero, never fall and never exceed the order.  Then the projected position has
    moved by exactly the last amount, with the sign of the order, however often it was
    reported; no other market and no other action changed; the revision advanced by one per
    call; a terminal action is no longer in flight, and another one has exactly the rest
    of the order left. *)
Theorem fills_projected_once r cloid market m q e s intent_id state now o obs final :
  valid_follower r -> canonical_market_symbol (JStr market) = Ok m ->
  pos_size (position_at m (fr_projected_positions r)) = Fin s ->
  multiple_of e (dval s) -> multiple_of e (dval q) -> (Qabs (dval s) + Qabs (dval q) < q10 (28 + e))%Q ->
  Forall (fun o => multiple_of e (dval (ob_cumulative o)) /\ ob_terminal o = false) obs ->
  multiple_of e (dval (ob_cumulative final)) ->
  let run := lifecycle r cloid market q intent_id state now o obs final in
  let key := py_lower cloid in
  let filled := signed_amount q (dval (ob_cumulative final)) in
  (is_ok run = true <-> climbs q 0 ((ob_cumulative <$> obs) ++ [ob_cumulative final])) /\
  forall r', run = Ok r' ->
    (exists s', pos_size (position_at m (fr_projected_positions r')) = Fin s' /\ (dval s' == dval s + filled)%Q) /\
    elsewhere m key r r' /\ fr_revision r' = fr_revision r + 2 + Z.of_nat (List.length obs) /\
    if ob_terminal final then dict_get key (fr_inflight_by_cloid r') = None
    else remaining_is key r' (dval q - filled).
Proof.
  intros Hv Hm Hs Hsg Hqg Hroom Hobs Hfg run key filled.
  assert (canonical_market_symbol (JStr m) = Ok m) as Hmm by (by destruct (canonical_of_canonical _ _ Hm)).
  destruct (started r cloid market m q e s intent_id state now o Hv Hm Hs) as (r1 & E1 & Hin1 & Hel1 & Hrev1).
  unfold run, lifecycle. rewrite E1, climbs_snoc. cbn [mbind res_bind].
  destruct (observe_all cloid m q e (dval s) Hmm Hsg Hqg Hroom obs r1 _ Hin1 Hobs)
    as [(Hcl & r2 & -> & Hin2 & Hel2 & Hrev2)|(Hcl & x & ->)]; cbn [mbind res_bind]; [|by split; [split; [|intros []]|]].
  set (c := ob_cumulative final) in *.
  destruct (observe cloid r2 final) as [r'|x] eqn:E3; cbn [is_ok].
  - assert (end_amount 0 (ob_cumulative <$> obs) <= dval c <= Qabs (dval q))%Q as Hle.
    { destruct (Qlt_le_dec (dval c) (end_amount 0 (ob_cumulative <$> obs)));
        [|destruct (Qlt_le_dec (Qabs (dval q)) (dval c)); [|by split]].
      all: destruct (observation_refused cloid m q e (dval s) Hmm Hqg Hroom r2 _ final Hin2) as [x Hx];
        [fold c; lra|congruence]. }
    destruct (observe_accepted cloid m q e (dval s) Hmm Hsg Hqg Hroom r2 _ final Hin2 Hfg Hle) as (r3 & E & Hrev & Hel & Hsz & Hfin).
    assert (r3 = r') as -> by congruence. split; [by split|]. intros ? [= <-].
    split; [done|]. split; [by etransitivity; [|etransitivity]|]. split; [lia|].
    destruct (ob_terminal final); [done|]. by destruct Hfin.
  - split; [|done]. split; [done|]. intros [_ Hle].
    destruct (observe_accepted cloid m q e (dval s) Hmm Hsg Hqg Hroom r2 _ final Hin2 Hfg Hle) as (r3 & E & _). congruence.
Qed.

(** * An account *)

Module Example.

Definition follower0 : FollowerAccountRevision :=
  MkFollowerRevision "0xAb" 1 [] [("BTC", MkPosition "BTC" (Fin (Dec false 5 (-1))) None (Some 10) 1000)] [] []
    (Fin (dint 1000)) (Fin (dint 900)) "unified" 1000 1000 1000 61000 "full_audit" FULL_AUDIT "c1" 0 [] [].

Definition source0 : SourceAccountRevision :=
  MkSourceRevision "s1" "0xcd" 7 "k" "fill" 1000 1000 1 [] (Fin (dint 5000)) "confirmed" "c1" SS_LIVE "p" 3 61000 WEBSOCKET [].

Definition book0 : BookRevision := MkBookRevision "BTC" 4 "c1" 1000 1000 1 [(Fin (dint 100), Fin (dint 1))] [] None None 0.

Definition state0 : AccountStateBook :=
  run_ops [PublishSource source0; PublishFollower follower0; PublishBook book0] empty_book.

(** The book of the market after it was retired: its numbers start anywhere again. *)
Definition book1 : BookRevision := MkBookRevision "BTC" 4 "c1" 2000 2000 2 [(Fin (dint 90), Fin (dint 1))] [] None None 1.

Definition partial (c : dec) (terminal : bool) : Observation := MkObservation c "partially_filled" terminal 2000 (Some 9).

End Example.

(** Retiring a market forgets its number: after it, a fence may match a book it was not taken on. *)
Lemma fence_needs_the_book :
  let b' := run_ops [RetireBook "BTC"; PublishBook Example.book1] Example.state0 in
  exists fc, fence Example.state0 "s1" "0xab" "BTC" = Ok (Some fc) /\ book b' "BTC" = Ok (Some Example.book1) /\
    fence_matches fc Example.source0 Example.follower0 "c1" Example.book1 = true /\ Example.book1 <> Example.book0.
Proof. eexists. split; [vm_compute; reflexivity|]. split; [vm_compute; reflexivity|]. split; [vm_compute; reflexivity|discriminate]. Qed.

Lemma fence_recognises_witness : exists s f k,
  source (run_ops [PublishBook Example.book1] Example.state0) "s1" = Some s /\
  follower (run_ops [PublishBook Example.book1] Example.state0) "0xab" = Some f /\
  book (run_ops [PublishBook Example.book1] Example.state0) "BTC" = Ok (Some k).
Proof.
  destruct (fence_recognises Example.state0 "s1" "0xab" "BTC" "BTC" [PublishBook Example.book1] (MkRevisionFence 7 1 "c1" 4))
    as (s & f & k & Hs & Hf & Hk & _).
  - vm_compute. reflexivity.
  - vm_compute. reflexivity.
  - constructor; [intros []|constructor].
  - exists s, f, k. split; [exact Hs|]. split; [exact Hf|exact Hk].
Defined.

Lemma fills_projected_once_witness :
  exists r', lifecycle Example.follower0 "0xC1" "BTC" (Dec true 3 (-1)) "i" "sent" 1500 default_options
    [Example.partial (Dec false 1 (-1)) false; Example.partial (Dec false 1 (-1)) false] (Example.partial (Dec false 3 (-1)) true) = Ok r' /\
    exists s', pos_size (position_at "BTC" (fr_projected_positions r')) = Fin s' /\ (dval s' == 2 # 10)%Q.
Proof.
  destruct (fills_projected_once Example.follower0 "0xC1" "BTC" "BTC" (Dec true 3 (-1)) (-1) (Dec false 5 (-1)) "i" "sent" 1500 default_options
    [Example.partial (Dec false 1 (-1)) false; Example.partial (Dec false 1 (-1)) false] (Example.partial (Dec false 3 (-1)) true)) as [[_ Hok] Hrun].
  - vm_compute. reflexivity.
  - vm_compute. reflexivity.
  - reflexivity.
  - exact (multiple_of_dec (Dec false 5 (-1))).
  - exact (multiple_of_dec (Dec true 3 (-1))).
  - vm_compute. reflexivity.
  - repeat constructor; exact (multiple_of_dec (Dec false 1 (-1))).
  - exact (multiple_of_dec (Dec false 3 (-1))).
  - assert (climbs (Dec true 3 (-1)) 0 [Dec false 1 (-1); Dec false 1 (-1); Dec false 3 (-1)]) as Hc
      by (cbn [climbs]; repeat split; vm_compute; discriminate).
    apply Hok, is_ok_spec in Hc as [r' Hr]. exists r'. split; [exact Hr|].
    destruct (Hrun r' Hr) as [(s' & Hs & Hv) _]. exists s'. split; [exact Hs|]. rewrite Hv. vm_compute. reflexivity.
Defined.
