(* ===== verification/InfoClient.v ===== *)
(** reconciliation.py: the client that obtains a durable grant before every info request,
    and the session that keeps one observation on one denied request.

    Threads share one client.  Each of its locked blocks is one step, a call of [info] is a
    record that moves through its phases, and the steps of all calls interleave freely with
    [close_ordinary_admission] and with the runtime changing the waiting policy.  The grants,
    the answers of the exchange, the clocks and what [priority_admission] says at the moment
    are inputs of the steps.  Times of [monotonic()] are rationals, in seconds. *)

From S2P Require Import Prelude PyDecimal PyText RestPolicy RestBudget.
From Stdlib Require Import QArith Qminmax.

Open Scope Z_scope.

(** [a > b] *)
Definition qgtb (a b : Q) : bool := negb (Qle_bool a b).

(** * Policy of the requests *)

Definition info_weight (request_type : string) : res Z := authoritative_rest_weight ("info:" +:+ request_type).

Definition CATALOG_REQUESTS : list string := ["perpDexs"; "allPerpMetas"; "meta"; "metaAndAssetCtxs"].

Definition info_priority (request_type : string) : RestPriority :=
  if bool_decide (request_type ∈ ["orderStatus"; "historicalOrders"]) then AMBIGUITY_CONTAINMENT
  else if bool_decide (request_type ∈ ["clearinghouseState"; "spotClearinghouseState"]) then AFFECTED_FOLLOWER
  else if bool_decide (request_type ∈ ["userFillsByTime"; "userTwapSliceFillsByTime"]) then GAP_REPAIR
  else if bool_decide (request_type ∈ CATALOG_REQUESTS) then CATALOG
  else BROAD_AUDIT.

Definition launch_info_priority (request_type : string) : RestPriority :=
  if bool_decide (request_type ∈ CATALOG_REQUESTS) then CATALOG else BROAD_AUDIT.

Definition session_expired (msg : string) : exn := OtherError "RestRetrySessionExpired" msg.
Definition admission_closed (p : RestPriority) : exn := RuntimeError "REST priority is closed during containment".
Definition budget_denied (g : RestGrant) : exn := RuntimeError "REST budget denied".

(** * Retry sessions *)

Record RestRetrySession := MkSession {
  wait_deadline_mono : Q;
  response_window_s : Q;
  first_response_mono : option Q;
  first_response_wall_ms : Z;
  last_response_wall_ms : Z;
}.

Definition deadline_mono (s : RestRetrySession) : Q :=
  match first_response_mono s with
  | None => wait_deadline_mono s
  | Some first => (first + response_window_s s)%Q
  end.

Definition observe_response (s : RestRetrySession) (observed_mono : Q) (observed_wall_ms : Z) : res RestRetrySession :=
  if qgtb observed_mono (deadline_mono s) then Raise (session_expired "terminal REST response window expired") else
  let '(first, first_wall) := match first_response_mono s with
                              | None => (Some observed_mono, observed_wall_ms)
                              | Some f => (Some f, first_response_wall_ms s)
                              end in
  Ok (MkSession (wait_deadline_mono s) (response_window_s s) first first_wall observed_wall_ms).

(** * The client *)

Record InfoClient := MkInfoClient {
  client_sender : string;
  client_sender_epoch : Z;
  wait_for_budget : bool;
  budget_deadline_mono : option Q;
  last_message_id : Z;
  inflight_by_priority : gmap Z Z;      (* a priority is its integer *)
  ordinary_admission_closed : bool;
}.

(** [BudgetedInfoClient.__init__] *)
Definition new_info_client (sender : string) (sender_epoch : Z) (wait : bool) (deadline : option Q) (initial_message_id : Z)
    : res InfoClient :=
  if initial_message_id <? 0 then Raise (ValueError "initial REST message ID must be nonnegative")
  else Ok (MkInfoClient sender sender_epoch wait deadline initial_message_id ∅ false).

Definition with_inflight (c : InfoClient) (m : gmap Z Z) : InfoClient :=
  MkInfoClient (client_sender c) (client_sender_epoch c) (wait_for_budget c) (budget_deadline_mono c) (last_message_id c) m
    (ordinary_admission_closed c).

Definition is_ordinary (p : RestPriority) : bool := negb (bool_decide (p = AMBIGUITY_CONTAINMENT)).

Definition inflight_of (c : InfoClient) (p : RestPriority) : Z := default 0 (inflight_by_priority c !! priority_value p).

Definition ordinary_inflight_count (c : InfoClient) : Z :=
  zsum (inflight_of c) (List.filter is_ordinary ALL_PRIORITIES).

Definition close_ordinary_admission : ST InfoClient Z := fun c =>
  (MkInfoClient (client_sender c) (client_sender_epoch c) (wait_for_budget c) (budget_deadline_mono c) (last_message_id c)
     (inflight_by_priority c) true, Ok (ordinary_inflight_count c)).

(** [_admitted_locked]; [allowed] is what [priority_admission] says, if there is one. *)
Definition admitted_locked (c : InfoClient) (p : RestPriority) (allowed : bool) : bool :=
  negb ((ordinary_admission_closed c && is_ordinary p) || negb allowed).

(** [_begin_request] *)
Definition begin_request (p : RestPriority) (allowed : bool) : ST InfoClient unit := fun c =>
  if admitted_locked c p allowed
  then (with_inflight c (<[priority_value p := inflight_of c p + 1]> (inflight_by_priority c)), Ok tt)
  else (c, Raise (admission_closed p)).

(** The [finally] block after the request. *)
Definition end_request (p : RestPriority) : ST InfoClient unit := fun c =>
  match inflight_by_priority c !! priority_value p with
  | None => (c, Raise (KeyError "priority"))
  | Some n =>
      let remaining := n - 1 in
      (with_inflight c (if negb (remaining =? 0) then <[priority_value p := remaining]> (inflight_by_priority c)
                        else delete (priority_value p) (inflight_by_priority c)), Ok tt)
  end.

Definition next_message (c : InfoClient) : InfoClient :=
  MkInfoClient (client_sender c) (client_sender_epoch c) (wait_for_budget c) (budget_deadline_mono c) (last_message_id c + 1)
    (inflight_by_priority c) (ordinary_admission_closed c).

(** * One call of [info] *)

(** What the call asks the coordinator for. *)
Record GrantRequest := MkGrantRequest {
  gr_sender : string;
  gr_sender_epoch : Z;
  gr_message_id : Z;
  gr_priority : RestPriority;
  gr_endpoint : string;
  gr_weight : Z;
}.

Inductive Phase :=
  | Polling                                        (* at the head of the loop *)
  | Asking (rq : GrantRequest)                     (* inside [request_grant] *)
  | Granted (rq : GrantRequest) (g : RestGrant)    (* after the loop *)
  | Requesting (rq : GrantRequest) (g : RestGrant) (* inside [raw.info] *)
  | Returned (rq : GrantRequest) (g : RestGrant)   (* the response was handed to the caller *)
  | Failed (e : exn).

(** The local variables of the call; [call_session] is the index of its session. *)
Record InfoCall := MkInfoCall {
  request_type : string;
  call_weight : Z;
  selected_priority : RestPriority;
  call_waits : bool;
  call_deadline : option Q;
  call_session : option nat;
  phase : Phase;
}.

Definition set_phase (k : InfoCall) (ph : Phase) : InfoCall :=
  MkInfoCall (request_type k) (call_weight k) (selected_priority k) (call_waits k) (call_deadline k) (call_session k) ph.

(** The lines before the loop. *)
Definition start_call (c : InfoClient) (payload : list (string * json)) (resolver : string -> RestPriority)
    (priority : option RestPriority) (session : option nat) : res InfoCall :=
  let request_type := py_str (json_or (obj_field "type" payload) (JStr "unknown")) in
  weight ← info_weight request_type;
  Ok (MkInfoCall request_type weight (default (resolver request_type) priority) (wait_for_budget c) (budget_deadline_mono c) session Polling).

Definition retry_deadline (k : InfoCall) (session : option RestRetrySession) : option Q :=
  match session with Some s => Some (deadline_mono s) | None => call_deadline k end.

(** The head of the loop: the admission, the deadline, and the number of the message. *)
Definition poll (k : InfoCall) (session : option RestRetrySession) (allowed : bool) (now : Q) : ST InfoClient GrantRequest := fun c =>
  if negb (admitted_locked c (selected_priority k) allowed) then (c, Raise (admission_closed (selected_priority k))) else
  let waiting := call_waits k || (if session then true else false) in
  if match retry_deadline k session with Some d => waiting && Qle_bool d now | None => false end
  then (c, Raise (match session with
                  | Some _ => session_expired "terminal REST retry session expired"
                  | None => OtherError "TimeoutError" "REST discovery exceeded its shared startup deadline"
                  end))
  else
    let c' := next_message c in
    (c', Ok (MkGrantRequest (client_sender c') (client_sender_epoch c') (last_message_id c') (selected_priority k)
               ("info:" +:+ request_type k) (call_weight k))).

Definition RETRYABLE_REASONS : list string := ["rolling_weight_budget_exhausted"; "monotonic_clock_epoch_quarantine"].

(** [max(0.001, grant.retry_after_ms / 1_000)] *)
Definition wait_of (g : RestGrant) : Q := Qmax (1 # 1000) (inject_Z (retry_after_ms g) / 1000).

(** The rest of the loop body: [None] leaves the loop, [Some s] sleeps and polls again. *)
Definition weigh_grant (k : InfoCall) (session : option RestRetrySession) (g : RestGrant) (now : Q) : res (option Q) :=
  if granted g then Ok None else
  let retryable := bool_decide (g_reason g ∈ RETRYABLE_REASONS) in
  let waiting := call_waits k || (if session then true else false) in
  match retry_deadline k session with
  | Some d =>
      if negb waiting || negb retryable then Raise (budget_denied g)
      else if qgtb (now + wait_of g) d
      then Raise (match session with Some _ => session_expired "terminal REST retry session expired" | None => budget_denied g end)
      else Ok (Some (wait_of g))
  | None => Raise (budget_denied g)
  end.

(** From the loop to the request. *)
Definition enter (k : InfoCall) (session : option RestRetrySession) (allowed : bool) (now : Q) : ST InfoClient unit := fun c =>
  if match session with Some s => qgtb now (deadline_mono s) | None => false end
  then (c, Raise (session_expired "terminal REST retry session expired after grant"))
  else begin_request (selected_priority k) allowed c.

(** The request came back, with a response or an exception. *)
Definition leave (k : InfoCall) (session : option RestRetrySession) (response : res unit) (now : Q) (wall_ms : Z)
    : ST InfoClient (option RestRetrySession) := fun c =>
  match end_request (selected_priority k) c with
  | (c', Raise e) => (c', Raise e)
  | (c', Ok _) =>
      match response, session with
      | Raise e, _ => (c', Raise e)
      | Ok _, None => (c', Ok None)
      | Ok _, Some s => (c', Some <$> observe_response s now wall_ms)
      end
  end.

(** * All calls *)

Record InfoState := MkInfoState {
  client : InfoClient;
  sessions : list RestRetrySession;
  calls : list InfoCall;
}.

Definition session_of (st : InfoState) (k : InfoCall) : option RestRetrySession := i ← call_session k; sessions st !! i.

Definition put_call (st : InfoState) (i : nat) (k : InfoCall) (ph : Phase) (c : InfoClient) : InfoState :=
  MkInfoState c (sessions st) (<[i := set_phase k ph]> (calls st)).

(** The step of the call [i] that runs [m] and goes on with [k]. *)
Definition run_step {A} (st : InfoState) (i : nat) (k : InfoCall) (m : ST InfoClient A) (next : A -> Phase) : InfoState :=
  match m (client st) with
  | (c, Ok a) => put_call st i k (next a) c
  | (c, Raise e) => put_call st i k (Failed e) c
  end.

Definition poll_step (st : InfoState) (i : nat) (allowed : bool) (now : Q) : InfoState :=
  match calls st !! i with
  | Some k => match phase k with
              | Polling => run_step st i k (poll k (session_of st k) allowed now) Asking
              | _ => st
              end
  | None => st
  end.

Definition grant_step (st : InfoState) (i : nat) (answer : res RestGrant) (now : Q) : InfoState :=
  match calls st !! i with
  | Some k => match phase k, answer with
              | Asking rq, Ok g => run_step st i k (jlift (weigh_grant k (session_of st k) g now))
                                     (fun w => match w with None => Granted rq g | Some _ => Polling end)
              | Asking rq, Raise e => put_call st i k (Failed e) (client st)
              | _, _ => st
              end
  | None => st
  end.

Definition enter_step (st : InfoState) (i : nat) (allowed : bool) (now : Q) : InfoState :=
  match calls st !! i with
  | Some k => match phase k with
              | Granted rq g => run_step st i k (enter k (session_of st k) allowed now) (fun _ => Requesting rq g)
              | _ => st
              end
  | None => st
  end.

Definition leave_step (st : InfoState) (i : nat) (response : res unit) (now : Q) (wall_ms : Z) : InfoState :=
  match calls st !! i with
  | Some k => match phase k with
              | Requesting rq g =>
                  let m := leave k (session_of st k) response now wall_ms in
                  let st' := run_step st i k m (fun _ => Returned rq g) in
                  match (m (client st)).2, call_session k with
                  | Ok (Some s), Some j => MkInfoState (client st') (<[j := s]> (sessions st')) (calls st')
                  | _, _ => st'
                  end
              | _ => st
              end
  | None => st
  end.

(** A step of the system. *)
Inductive info_step (resolver : string -> RestPriority) : InfoState -> InfoState -> Prop :=
  | st_session st s : info_step resolver st (MkInfoState (client st) (sessions st ++ [s]) (calls st))
  | st_policy st wait deadline : info_step resolver st
      (MkInfoState (MkInfoClient (client_sender (client st)) (client_sender_epoch (client st)) wait deadline
         (last_message_id (client st)) (inflight_by_priority (client st)) (ordinary_admission_closed (client st))) (sessions st) (calls st))
  | st_start st payload priority session k : start_call (client st) payload resolver priority session = Ok k ->
      info_step resolver st (MkInfoState (client st) (sessions st) (calls st ++ [k]))
  | st_poll st i allowed now : info_step resolver st (poll_step st i allowed now)
  | st_grant st i answer now : info_step resolver st (grant_step st i answer now)
  | st_enter st i allowed now : info_step resolver st (enter_step st i allowed now)
  | st_leave st i response now wall_ms : info_step resolver st (leave_step st i response now wall_ms)
  | st_close st : info_step resolver st (MkInfoState (close_ordinary_admission (client st)).1 (sessions st) (calls st)).
