(* ===== verification/InfoFacts.v ===== *)
(** What the budgeted client of reconciliation.py promises: a request is sent only with a
    granted answer, the counts of requests are exact, and closed admission stays closed. *)

From S2P Require Import Prelude PyDecimal PyText RestPolicy RestBudget InfoClient.
From Stdlib Require Import QArith.

Open Scope Z_scope.

Definition sending (k : InfoCall) : bool := match phase k with Requesting _ _ => true | _ => false end.
Definition in_request (p : RestPriority) (k : InfoCall) : bool := sending k && bool_decide (selected_priority k = p).
Definition ordinary_sending (k : InfoCall) : bool := sending k && is_ordinary (selected_priority k).

(** The request for a grant is the one of the call, at the weight of its endpoint. *)
Definition asks (k : InfoCall) (rq : GrantRequest) : Prop :=
  gr_priority rq = selected_priority k /\ gr_endpoint rq = ("info:" +:+ request_type k)%string /\
  authoritative_rest_weight (gr_endpoint rq) = Ok (gr_weight rq).

(** What a call has in its hands. *)
Definition holds (k : InfoCall) : Prop :=
  info_weight (request_type k) = Ok (call_weight k) /\
  match phase k with
  | Asking rq => asks k rq
  | Granted rq g | Requesting rq g | Returned rq g => asks k rq /\ granted g = true
  | Polling | Failed _ => True
  end.

(** The table of the client counts the calls that are in a request. *)
Definition counted (st : InfoState) : Prop := forall p,
  let n := count (in_request p) (calls st) in
  inflight_by_priority (client st) !! priority_value p = if n =? 0 then None else Some n.

Definition good (st : InfoState) : Prop := Forall holds (calls st) /\ counted st.

Lemma priority_value_inj p q : priority_value p = priority_value q -> p = q.
Proof. destruct p, q; cbn; done. Qed.

(** * One step *)

Lemma sending_phase k ph : sending (set_phase k ph) = match ph with Requesting _ _ => true | _ => false end.
Proof. done. Qed.

Lemma put_holds st i k ph c : Forall holds (calls st) -> calls st !! i = Some k -> holds (set_phase k ph) -> Forall holds (calls (put_call st i k ph c)).
Proof. intros H Hi Hk. by apply Forall_insert. Qed.

(** A step that keeps the table and does not start or end a request. *)
Lemma put_counted st i k ph c : counted st -> calls st !! i = Some k ->
  inflight_by_priority c = inflight_by_priority (client st) -> sending (set_phase k ph) = sending k -> counted (put_call st i k ph c).
Proof.
  intros H Hi Hc Hs p. specialize (H p). unfold put_call. cbn [client sessions calls]. cbv zeta in H |- *. rewrite Hc, H, (count_insert _ _ _ _ _ Hi).
  unfold in_request. rewrite Hs. cbn [set_phase selected_priority]. by rewrite Z.sub_add.
Qed.

Lemma poll_inflight k s allowed now c : inflight_by_priority (poll k s allowed now c).1 = inflight_by_priority c.
Proof. unfold poll. destruct (negb _); [done|]. by destruct (match retry_deadline k s with Some _ => _ | None => _ end). Qed.

Lemma poll_asks k s allowed now c rq : info_weight (request_type k) = Ok (call_weight k) ->
  (poll k s allowed now c).2 = Ok rq -> asks k rq.
Proof.
  intros Hw. unfold poll. destruct (negb _); [done|]. destruct (match retry_deadline k s with Some _ => _ | None => _ end); [done|].
  intros [= <-]. by split.
Qed.

Lemma good_poll st i allowed now : good st -> good (poll_step st i allowed now).
Proof.
  intros [Hh Hc]. unfold poll_step. destruct (calls st !! i) as [k|] eqn:Ei; [|done].
  destruct (phase k) eqn:Ep; try done. unfold run_step.
  pose proof (poll_inflight k (session_of st k) allowed now (client st)) as Hi.
  assert (holds k) as [Hw _] by (eapply Forall_lookup_1; eauto).
  pose proof (poll_asks k (session_of st k) allowed now (client st)) as Ha.
  destruct (poll _ _ _ _ _) as [c [rq|e]]; cbn in Hi, Ha; (split; [apply put_holds; [done|done|]|apply put_counted; [done|done|done|]]).
  - split; [done|]. by apply Ha.
  - unfold sending. by rewrite Ep.
  - by split.
  - unfold sending. by rewrite Ep.
Qed.

Lemma good_grant st i answer now : good st -> good (grant_step st i answer now).
Proof.
  intros [Hh Hc]. unfold grant_step. destruct (calls st !! i) as [k|] eqn:Ei; [|done].
  destruct (phase k) as [|rq|rq g|rq g|rq g|e] eqn:Ep; try done.
  assert (holds k) as [Hw Hk] by (eapply Forall_lookup_1; eauto). rewrite Ep in Hk.
  assert (forall ph, sending (set_phase k ph) = false -> sending (set_phase k ph) = sending k) as Hs by (intros ph ->; unfold sending; by rewrite Ep).
  destruct answer as [g|e]; [|split; [by apply put_holds|apply put_counted; [done|done|done|by apply Hs]]].
  unfold run_step, jlift. destruct (weigh_grant k (session_of st k) g now) as [[w|]|e] eqn:Eg;
    (split; [apply put_holds; [done|done|]|apply put_counted; [done|done|done|by apply Hs]]); try done.
  split; [done|]. split; [exact Hk|]. unfold weigh_grant in Eg. destruct (granted g); [done|].
  repeat (match goal with H : context [match ?x with _ => _ end] |- _ => destruct x end; try done).
Qed.

Lemma good_enter st i allowed now : good st -> good (enter_step st i allowed now).
Proof.
  intros [Hh Hc]. unfold enter_step. destruct (calls st !! i) as [k|] eqn:Ei; [|done].
  destruct (phase k) as [|rq|rq g|rq g|rq g|e] eqn:Ep; try done.
  assert (holds k) as [Hw Hk] by (eapply Forall_lookup_1; eauto). rewrite Ep in Hk.
  assert (sending k = false) as Hs by (unfold sending; by rewrite Ep).
  unfold run_step, enter. destruct (match session_of st k with Some _ => _ | None => _ end).
  { split; [by apply put_holds|by apply put_counted]. }
  unfold begin_request. destruct (admitted_locked _ _ _); [|split; [by apply put_holds|by apply put_counted]].
  split; [by apply put_holds|]. intros p. unfold put_call. cbn [client sessions calls]. cbv zeta. rewrite (count_insert _ _ _ _ _ Ei).
  assert (in_request p k = false) as -> by (unfold in_request; by rewrite Hs).
  change (in_request p (set_phase k (Requesting rq g))) with (bool_decide (selected_priority k = p)). cbn [andb Z.b2z set_phase selected_priority inflight_by_priority with_inflight]. pose proof (Hc p) as Hp. cbn zeta in Hp.
  pose proof (count_nonneg (in_request p) (calls st)) as Hn.
  case_bool_decide as E; cbn [Z.b2z].
  - subst p. rewrite lookup_insert_eq. unfold inflight_of. rewrite Hp.
    destruct (Z.eqb_spec (count (in_request (selected_priority k)) (calls st)) 0) as [->|]; [done|].
    destruct (Z.eqb_spec (count (in_request (selected_priority k)) (calls st) - 0 + 1) 0); [lia|]. cbn. f_equal. lia.
  - rewrite lookup_insert_ne by (intros H%priority_value_inj; done). by rewrite Hp, Z.sub_0_r, Z.add_0_r.
Qed.

Lemma leave_client k s response now wall c n : inflight_by_priority c !! priority_value (selected_priority k) = Some n ->
  (leave k s response now wall c).1 = with_inflight c (if n - 1 =? 0 then delete (priority_value (selected_priority k)) (inflight_by_priority c)
                                                       else <[priority_value (selected_priority k) := n - 1]> (inflight_by_priority c)).
Proof. intros H. unfold leave, end_request. rewrite H. destruct (n - 1 =? 0); cbn; by destruct response, s. Qed.

Lemma good_leave st i response now wall : good st -> good (leave_step st i response now wall).
Proof.
  intros [Hh Hc]. unfold leave_step. destruct (calls st !! i) as [k|] eqn:Ei; [|done].
  destruct (phase k) as [|rq|rq g|rq g|rq g|e] eqn:Ep; try done. cbv zeta.
  assert (holds k) as [Hw Hk] by (eapply Forall_lookup_1; eauto). rewrite Ep in Hk.
  assert (sending k = true) as Hs by (unfold sending; by rewrite Ep).
  pose proof (Hc (selected_priority k)) as Hn. cbn zeta in Hn.
  assert (1 <= count (in_request (selected_priority k)) (calls st)) as H1.
  { eapply count_pos; [exact Ei|]. unfold in_request. by rewrite Hs, bool_decide_eq_true_2. }
  destruct (Z.eqb_spec (count (in_request (selected_priority k)) (calls st)) 0) as [|_]; [lia|].
  pose proof (leave_client k (session_of st k) response now wall (client st) _ Hn) as Hcl.
  assert (forall ph, sending (set_phase k ph) = false -> holds (set_phase k ph) ->
    good (put_call st i k ph (leave k (session_of st k) response now wall (client st)).1)) as Hput.
  { intros ph Hph Hho. split; [by apply put_holds|]. intros p. unfold put_call. cbn [client sessions calls]. cbv zeta. rewrite (count_insert _ _ _ _ _ Ei).
    assert (in_request p k = bool_decide (selected_priority k = p)) as -> by (unfold in_request; by rewrite Hs).
    assert (in_request p (set_phase k ph) = false) as -> by (unfold in_request; by rewrite Hph). rewrite Hcl. cbn [inflight_by_priority with_inflight]. pose proof (Hc p) as Hp. cbn zeta in Hp. case_bool_decide as E; cbn [Z.b2z].
    - subst p. rewrite Z.add_0_r. destruct (Z.eqb_spec (count (in_request (selected_priority k)) (calls st) - 1) 0); [by rewrite lookup_delete_eq|by rewrite lookup_insert_eq].
    - rewrite Z.sub_0_r, Z.add_0_r, <- Hp. destruct (_ =? 0); [rewrite lookup_delete_ne|rewrite lookup_insert_ne]; try done; by intros H%priority_value_inj. }
  assert (good (run_step st i k (leave k (session_of st k) response now wall) (fun _ => Returned rq g))) as Hg.
  { unfold run_step. destruct (leave k (session_of st k) response now wall (client st)) as [c [s|e]]; by apply Hput. }
  destruct ((leave k (session_of st k) response now wall (client st)).2) as [[s|]|]; [|done|done]. destruct (call_session k); [|done]. exact Hg.
Qed.

Lemma start_holds c payload resolver priority session k : start_call c payload resolver priority session = Ok k -> holds k /\ sending k = false.
Proof. unfold start_call. intros (w & Hw & [= <-])%bind_Ok. by split. Qed.

Lemma good_step resolver st st' : info_step resolver st st' -> good st -> good st'.
Proof.
  destruct 1 as [| | ? ? ? ? ? Hk| | | | |]; try done; [|apply good_poll|apply good_grant|apply good_enter|apply good_leave].
  intros [Hh Hc]. destruct (start_holds _ _ _ _ _ _ Hk) as [Ho Hs]. split.
  - apply Forall_app. split; [done|by constructor].
  - intros p. cbn [client calls]. cbv zeta. rewrite count_app.
    assert (count (in_request p) [k] = 0) as -> by (unfold count, zsum, in_request; cbn; by rewrite Hs).
    rewrite Z.add_0_r. apply Hc.
Qed.

(** * Closed admission *)

(** Ordinary admission is closed, and every ordinary request of [st'] was already running in [st]. *)
Definition only_old (st st' : InfoState) : Prop :=
  ordinary_admission_closed (client st') = true /\
  forall i k', calls st' !! i = Some k' -> ordinary_sending k' = true -> exists k, calls st !! i = Some k /\ ordinary_sending k = true.

Lemma put_only_old st st' i k ph c : only_old st st' -> ordinary_admission_closed c = true -> calls st' !! i = Some k ->
  (ordinary_sending (set_phase k ph) = true -> ordinary_sending k = true) -> only_old st (put_call st' i k ph c).
Proof.
  intros [_ H] Hc Hi Hk. split; [done|]. intros j k' Hj Ho. unfold put_call in Hj. cbn [calls] in Hj.
  destruct (decide (i = j)) as [<-|Hne].
  - rewrite list_lookup_insert_eq in Hj by (by eapply lookup_lt_Some). injection Hj as <-. eapply H; eauto.
  - rewrite list_lookup_insert_ne in Hj by done. by apply (H j k').
Qed.

(** A step that cannot start an ordinary request. *)
Lemma run_only_old {A} st st' i k (m : ST InfoClient A) next : only_old st st' -> calls st' !! i = Some k ->
  (forall c, ordinary_admission_closed c = true -> ordinary_admission_closed (m c).1 = true) ->
  (forall a, (m (client st')).2 = Ok a -> ordinary_sending (set_phase k (next a)) = true -> ordinary_sending k = true) ->
  only_old st (run_step st' i k m next).
Proof.
  intros H Hi Hm Hn. pose proof (Hm _ (proj1 H)) as Hc. unfold run_step. destruct (m (client st')) as [c [a|e]]; cbn in Hc, Hn.
  - apply put_only_old; [done|done|done|]. by apply Hn.
  - by apply put_only_old.
Qed.

Lemma poll_closed k s allowed now c : ordinary_admission_closed c = true -> ordinary_admission_closed (poll k s allowed now c).1 = true.
Proof. unfold poll. intros H. destruct (negb _); [done|]. by destruct (match retry_deadline k s with Some _ => _ | None => _ end). Qed.

Lemma enter_closed k s allowed now c : ordinary_admission_closed c = true -> ordinary_admission_closed (enter k s allowed now c).1 = true.
Proof. unfold enter, begin_request. intros H. destruct (match s with Some _ => _ | None => _ end); [done|]. by destruct (admitted_locked _ _ _). Qed.

Lemma leave_closed k s response now wall c : ordinary_admission_closed c = true -> ordinary_admission_closed (leave k s response now wall c).1 = true.
Proof. unfold leave, end_request. intros H. destruct (_ !! _); [|done]. by destruct response, s. Qed.

Lemma enter_not_ordinary k s allowed now c : ordinary_admission_closed c = true -> (enter k s allowed now c).2 = Ok tt -> is_ordinary (selected_priority k) = false.
Proof.
  intros H. unfold enter, begin_request, admitted_locked. destruct (match s with Some _ => _ | None => _ end); [done|].
  rewrite H. by destruct (is_ordinary _).
Qed.

Lemma only_old_step resolver st0 st st' : info_step resolver st st' -> only_old st0 st -> only_old st0 st'.
Proof.
  destruct 1 as [| |st payload priority session k Hk|st i allowed now|st i answer now|st i allowed now|st i response now wall|]; intros H.
  - done.
  - done.
  - split; [apply H|]. intros i k' [Hi|[Hi E]]%lookup_app_Some Ho; [by apply (proj2 H i k')|].
    apply list_lookup_singleton_Some in E as [_ <-]. apply start_holds in Hk as [_ Hs]. unfold ordinary_sending in Ho. by rewrite Hs in Ho.
  - unfold poll_step. destruct (calls st !! i) as [k|] eqn:Ei; [|done]. destruct (phase k) eqn:Ep; try done.
    apply run_only_old; [done|done|intros c; apply poll_closed|done].
  - unfold grant_step. destruct (calls st !! i) as [k|] eqn:Ei; [|done]. destruct (phase k) eqn:Ep; try done.
    destruct answer as [g|e]; [|by apply put_only_old; [|apply H| |]]. apply run_only_old; [done|done|done|by intros [w|]].
  - unfold enter_step. destruct (calls st !! i) as [k|] eqn:Ei; [|done]. destruct (phase k) eqn:Ep; try done.
    apply run_only_old; [done|done|intros c; apply enter_closed|]. intros [] Ha%enter_not_ordinary; [|apply H].
    unfold ordinary_sending. cbn [set_phase selected_priority]. rewrite Ha. by rewrite andb_false_r.
  - unfold leave_step. destruct (calls st !! i) as [k|] eqn:Ei; [|done]. destruct (phase k) as [| | |rq g| |] eqn:Ep; try done. cbv zeta.
    assert (only_old st0 (run_step st i k (leave k (session_of st k) response now wall) (fun _ => Returned rq g))) as Hr.
    { apply run_only_old; [done|done|intros c; apply leave_closed|done]. }
    destruct ((leave k (session_of st k) response now wall (client st)).2) as [[s|]|]; [|done|done]. by destruct (call_session k).
  - by split; [|apply H].
Qed.

(** * Counting *)

Lemma count_cons {A} (f : A -> bool) x l : count f (x :: l) = Z.b2z (f x) + count f l.
Proof. done. Qed.

Lemma count_ordinary l : zsum (fun p => count (in_request p) l) (List.filter is_ordinary ALL_PRIORITIES) = count ordinary_sending l.
Proof.
  change (zsum (fun p => count (in_request p) l) (List.filter is_ordinary ALL_PRIORITIES)) with
    (count (in_request AFFECTED_FOLLOWER) l + (count (in_request GAP_REPAIR) l + (count (in_request CATALOG) l +
     (count (in_request BROAD_AUDIT) l + (count (in_request ANALYTICS) l + 0))))).
  induction l as [|k l IH]; [done|]. rewrite !count_cons, <- IH.
  unfold in_request, ordinary_sending, is_ordinary. destruct (sending k), (selected_priority k); cbn [andb bool_decide Z.b2z negb];
    repeat case_bool_decide; try done; cbn [negb Z.b2z]; lia.
Qed.

Lemma ordinary_count st : counted st -> ordinary_inflight_count (client st) = count ordinary_sending (calls st).
Proof.
  intros H. rewrite <- count_ordinary. unfold ordinary_inflight_count, zsum. induction (List.filter is_ordinary ALL_PRIORITIES) as [|p l IH]; [done|].
  cbn [fold_right]. rewrite IH. f_equal. unfold inflight_of. rewrite (H p). cbv zeta beta. by destruct (Z.eqb_spec (count (in_request p) (calls st)) 0) as [->|].
Qed.

(** A list whose marked places are marked in another list has no more marks. *)
Lemma count_le {A} (f : A -> bool) (l l' : list A) :
  (forall i x, l' !! i = Some x -> f x = true -> exists y, l !! i = Some y /\ f y = true) -> count f l' <= count f l.
Proof.
  revert l. induction l' as [|x l' IH]; intros l H; [apply count_nonneg|].
  destruct l as [|y l].
  - assert (f x = false) as Hx. { destruct (f x) eqn:E; [|done]. by destruct (H O x eq_refl E) as (? & ? & _). }
    rewrite count_cons, Hx. apply (IH []). intros i z Hi Hz. by apply (H (S i) z).
  - rewrite !count_cons.
    assert (count f l' <= count f l) by (apply IH; intros i z Hi Hz; by apply (H (S i) z)).
    assert (f x = true -> f y = true) as Hxy. { intros E. destruct (H O x eq_refl E) as (z & Hz & Hf). cbn in Hz. congruence. }
    destruct (f x), (f y); cbn; lia || by specialize (Hxy eq_refl).
Qed.

(** A system that starts with a client nobody has used. *)
Inductive reachable (resolver : string -> RestPriority) : InfoState -> Prop :=
  | re_new sender epoch wait deadline n c : new_info_client sender epoch wait deadline n = Ok c -> reachable resolver (MkInfoState c [] [])
  | re_step st st' : reachable resolver st -> info_step resolver st st' -> reachable resolver st'.

Lemma reachable_good resolver st : reachable resolver st -> good st.
Proof.
  induction 1 as [sender epoch wait deadline n c Hc|st st' _ IH Hs]; [|by eapply good_step].
  split; [constructor|]. unfold new_info_client in Hc. destruct (n <? 0); [done|]. injection Hc as <-. intros p. cbn. by rewrite lookup_empty.
Qed.

(** C30. Whatever threads share a client, a request for information is sent only by a call whose
    request for a grant, at the priority of the call and at the frozen weight of its
    endpoint, was granted; the table of the client counts exactly the requests that are
    running.  Closing the ordinary admission reports how many ordinary requests run, and from
    then on, through every interleaving, no other one starts: those that run later were
    running then, so that their number only falls. *)
Theorem info_requests_admitted resolver st st' :
  reachable resolver st -> let closed := MkInfoState (close_ordinary_admission (client st)).1 (sessions st) (calls st) in
  rtc (info_step resolver) closed st' ->
  (forall i k rq g, calls st' !! i = Some k -> phase k = Requesting rq g \/ phase k = Returned rq g ->
     granted g = true /\ gr_priority rq = selected_priority k /\ gr_endpoint rq = ("info:" +:+ request_type k)%string /\
     authoritative_rest_weight (gr_endpoint rq) = Ok (gr_weight rq)) /\
  (close_ordinary_admission (client st)).2 = Ok (count ordinary_sending (calls st)) /\
  ordinary_inflight_count (client st') = count ordinary_sending (calls st') /\
  (forall i k', calls st' !! i = Some k' -> ordinary_sending k' = true -> exists k, calls st !! i = Some k /\ ordinary_sending k = true) /\
  ordinary_inflight_count (client st') <= ordinary_inflight_count (client st).
Proof.
  intros Hr closed Hrtc. assert (reachable resolver closed) as Hc by (eapply re_step; [exact Hr|constructor]).
  assert (only_old st closed) as Ho by (split; [done|]; intros i k' Hi Hk; by exists k').
  pose proof (reachable_good _ _ Hr) as [_ Hcount].
  assert (good st' /\ only_old st st') as [[Hholds Hcount'] [_ Hold]].
  { pose proof (reachable_good _ _ Hc) as Hg. clear Hc Hcount. clearbody closed. induction Hrtc as [|x y z Hs _ IH]; [done|].
    apply IH; [by eapply only_old_step|by eapply good_step]. }
  split; [|split; [|split; [|split]]].
  - intros i k rq g Hi Hph. pose proof (Forall_lookup_1 _ _ _ _ Hholds Hi) as [_ Hk].
    assert (asks k rq /\ granted g = true) as [(H1 & H2 & H3) Hgr] by (by destruct Hph as [E|E]; rewrite E in Hk). done.
  - unfold close_ordinary_admission. cbn [snd]. by rewrite ordinary_count.
  - by apply ordinary_count.
  - exact Hold.
  - rewrite !ordinary_count by done. by apply count_le.
Qed.

(** * A client with one request *)

Module Example.

Definition client0 : InfoClient := MkInfoClient "fleet-runtime" 1 false None 0 ∅ false.
Definition call0 : InfoCall := MkInfoCall "meta" 20 CATALOG false None None Polling.
Definition grant0 : RestGrant := MkGrant "g" true "gen" 1 "fleet-runtime" 1 1 CATALOG "info:meta" 20 "ordinary" 1000 0 "granted".
Definition payload0 : list (string * json) := [("type", JStr "meta")].

Definition polled : InfoState := poll_step (MkInfoState client0 [] [call0]) 0 true 0.
Definition answered : InfoState := grant_step polled 0 (Ok grant0) 0.
Definition running : InfoState := enter_step answered 0 true 0.
Definition closed : InfoState := MkInfoState (close_ordinary_admission (client running)).1 (sessions running) (calls running).
(** Afterwards another call is refused, and the request comes back. *)
Definition second : InfoState := poll_step (MkInfoState (client closed) (sessions closed) (calls closed ++ [call0])) 1 true 0.
Definition finished : InfoState := leave_step second 0 (Ok tt) 1 2000.

End Example.

Lemma info_example_reachable : reachable info_priority Example.running.
Proof.
  apply (re_step _ Example.answered); [|apply (st_enter info_priority Example.answered 0 true 0)].
  apply (re_step _ Example.polled); [|apply (st_grant info_priority Example.polled 0 (Ok Example.grant0) 0)].
  apply (re_step _ (MkInfoState Example.client0 [] [Example.call0])); [|apply st_poll].
  apply (re_step _ (MkInfoState Example.client0 [] [])); [by apply (re_new _ "fleet-runtime" 1 false None 0)|].
  apply (st_start info_priority (MkInfoState Example.client0 [] []) Example.payload0 None None Example.call0). vm_compute. reflexivity.
Qed.

Lemma example_finishes : rtc (info_step info_priority) Example.closed Example.finished.
Proof.
  apply (rtc_l _ _ (MkInfoState (client Example.closed) (sessions Example.closed) (calls Example.closed ++ [Example.call0]))).
  { apply (st_start info_priority Example.closed Example.payload0 None None Example.call0). vm_compute. reflexivity. }
  apply (rtc_l _ _ Example.second); [apply st_poll|]. apply rtc_once. apply st_leave.
Qed.

Lemma info_requests_admitted_witness :
  phase <$> (calls Example.finished !! 1%nat) = Some (Failed (admission_closed CATALOG)) /\
  (close_ordinary_admission (client Example.running)).2 = Ok 1 /\
  ordinary_inflight_count (client Example.finished) <= ordinary_inflight_count (client Example.running).
Proof.
  split; [vm_compute; reflexivity|].
  destruct (info_requests_admitted info_priority Example.running Example.finished info_example_reachable example_finishes) as (_ & Hc & _ & _ & Hle).
  split; [rewrite Hc; vm_compute; reflexivity|exact Hle].
Defined.
