(* ===== verification/Guard.v ===== *)
(** guard.py: the last local risk checks of the older service before an order is sent.

    The store is a record of the three questions the guard asks it; the kill switch, the
    decoded payload of a pending row and the clock are inputs.  The [detail] of a decision
    is the constant part of its text. *)

From S2P Require Import Prelude PyDecimal PyText Models Precision Markets OrderPreflight CopyEngine Safety AccountState.

Open Scope Z_scope.

Record GuardDecision := MkDecision {
  gd_ok : bool;
  gd_reason : SafeModeReason;
  gd_detail : string;
  terminal_skip : bool;
}.

Definition passes : GuardDecision := MkDecision true NONE "" false.
Definition refused (reason : SafeModeReason) (detail : string) : GuardDecision := MkDecision false reason detail false.

(** * Checks that may end early *)

(** A part of a check goes on with a value, or ends the check with its decision. *)
Definition Checked (A : Type) : Type := res (A + GuardDecision).

Definition goes_on {A} (a : A) : Checked A := Ok (inl a).
Definition ends {A} (d : GuardDecision) : Checked A := Ok (inr d).
Definition reject {A} (reason : SafeModeReason) (detail : string) : Checked A := ends (refused reason detail).
Definition lifted {A} (r : res A) : Checked A := match r with Ok a => goes_on a | Raise e => Raise e end.
Definition cbind {A B} (m : Checked A) (k : A -> Checked B) : Checked B :=
  match m with Ok (inl a) => k a | Ok (inr d) => ends d | Raise e => Raise e end.

(** [if not condition: return decision] *)
Definition requires (condition : bool) (d : GuardDecision) : Checked unit := if condition then goes_on tt else ends d.

Declare Scope guard_scope.
Notation "'let?' x := m 'in' k" := (cbind m (fun x => k))
  (at level 200, x pattern, m at level 100, k at level 200) : guard_scope.
Local Open Scope guard_scope.

Definition decision_of (m : Checked unit) : res GuardDecision :=
  match m with Ok (inl _) => Ok passes | Ok (inr d) => Ok d | Raise e => Raise e end.

(** * The inputs *)

(** A [FollowerIntent], whose numbers may not be finite. *)
Record GuardIntent := MkGuardIntent {
  gi_intent_id : string;
  gi_cloid : string;
  gi_action : IntentAction;
  gi_coin : string;
  gi_side : string;
  gi_size : pydec;
  gi_price : option pydec;
  gi_reduce_only : bool;
  gi_reason : string;
  gi_status : IntentStatus;
  gi_execution_proof : json;
}.

(** A row of an unresolved intent: its action, and its payload, if the text can be read. *)
Record PendingRow := MkPendingRow { pr_action : string; pr_payload : option json }.

Record GuardStore := MkGuardStore {
  pending_intents : option Mode -> list PendingRow;
  intent_by_cloid : string -> option string;             (* the [intent_id] of the newest row *)
  has_dispatch_evidence_for_cloid : string -> bool;
}.

(** The settings of [OpsConfig] and those of [RiskConfig] that only the guard reads. *)
Record GuardLimits := MkGuardLimits {
  max_new_intents_per_cycle : Z;
  max_open_intents : Z;
  max_open_positions : Z;
  stale_source_ms : Z;
}.

Record ExecutionGuard := MkGuard {
  g_risk : RiskConfig;
  g_limits : GuardLimits;
  g_store : GuardStore;
  g_asset_meta : dict AssetMeta;
  g_mids : dict pydec;
  g_mode : option Mode;
  allowlist : list string;
}.

(** [ExecutionGuard.__init__] *)
Definition new_guard (risk : RiskConfig) (limits : GuardLimits) (store : GuardStore) (meta : dict AssetMeta) (mids : dict pydec)
    (mode : option Mode) : res ExecutionGuard :=
  allowed ← map_res (fun s => canonical_market_symbol (JStr s)) (allowed_symbols risk);
  Ok (MkGuard risk limits store meta mids mode allowed).

Definition positive (d : pydec) : bool := match d with Fin x => dpos x | _ => false end.

(** * The cycle *)

Definition increases_exposure (i : GuardIntent) : bool :=
  bool_decide (gi_action i = OPEN) && negb (gi_reduce_only i) && positive (gi_size i).

(** One row of [pending_exposure_increasing_count].  [parse_decimal] of a malformed text raises
    [InvalidOperation], which is not among the exceptions that are caught. *)
Definition row_counts (row : PendingRow) : res bool :=
  if negb (String.eqb (pr_action row) "open") then Ok false else
  match pr_payload row with
  | Some (JObj payload) =>
      catch (size ← parse_decimal (obj_field "size" payload);
             Ok (negb (json_truthy (obj_field "reduce_only" payload)) && dpos size))
        (fun e => match e with TypeError _ => true | _ => is_value_error e end) (fun _ => Ok true)
  | _ => Ok true
  end.

Definition pending_exposure_increasing_count (store : GuardStore) (mode : option Mode) : res Z :=
  fold_res (fun n row => c ← row_counts row; Ok (if c : bool then n + 1 else n)) (pending_intents store mode) 0.

(** The intent is not the one its row belongs to. *)
Definition not_recorded (store : GuardStore) (i : GuardIntent) : bool :=
  match intent_by_cloid store (gi_cloid i) with None => true | Some id => negb (String.eqb id (gi_intent_id i)) end.

Definition check_cycle (g : ExecutionGuard) (kill_switch : bool) (intents : list GuardIntent) : res GuardDecision :=
  decision_of (
    let? _ := requires (negb kill_switch) (refused OPERATOR_KILL_SWITCH "kill switch file exists") in
    let? _ := requires (forallb (fun i => is_finite (gi_size i)) intents) (refused CONFIG_INVALID "intent sizes must be finite") in
    let exposure_increasing := List.filter increases_exposure intents in
    let n := Z.of_nat (List.length exposure_increasing) in
    let? _ := requires (n <=? max_new_intents_per_cycle (g_limits g)) (refused RISK_LIMIT "exposure-increasing intents exceed the cycle limit") in
    let? pending_count := lifted (pending_exposure_increasing_count (g_store g) (g_mode g)) in
    let additional := Z.of_nat (List.length (List.filter (not_recorded (g_store g)) exposure_increasing)) in
    requires (pending_count + additional <=? max_open_intents (g_limits g)) (refused RESTART_MID_FILL "pending exposure-increasing intents exceed the limit")).

(** * One intent *)

(** The first block of [check_intent]: what a NOOP says. *)
Definition check_noop (i : GuardIntent) : res GuardDecision :=
  if bool_decide (gi_status i = SKIPPED) then
    let reason := py_lower (gi_reason i) in
    if contains "metadata" reason
    then _ ← canonical_market_symbol (JStr (gi_coin i)); Ok (refused UNSUPPORTED_SYMBOL "metadata missing for skipped intent")
    else if contains "mid" reason || contains "price" reason
    then _ ← canonical_market_symbol (JStr (gi_coin i)); Ok (refused STALE_SOURCE "mid price missing for skipped intent")
    else Ok passes
  else Ok passes.

(** [self.mids.get(coin)], when it is positive and finite. *)
Definition mid_of (g : ExecutionGuard) (coin : string) : option dec :=
  match dict_get coin (g_mids g) with Some (Fin m) => if dpos m then Some m else None | _ => None end.

Definition signed_delta (side : string) (size : dec) : dec := if String.eqb side "buy" then size else dopp size.

Definition reducing_action (i : GuardIntent) : bool := bool_decide (gi_action i ∈ [REDUCE; CLOSE]).

(** The change takes the position towards zero and not past it. *)
Definition genuinely_reducing (i : GuardIntent) (current delta next : dec) : bool :=
  gi_reduce_only i && reducing_action i && negb (dis_zero current) && negb (Bool.eqb (dpos delta) (dpos current)) &&
  (dis_zero next || Bool.eqb (dpos next) (dpos current)) && dltb (dabs next) (dabs current).

(** [mid * (1 +- bps / 10000)] on the tick grid. *)
Definition slippage_bound (up : bool) (mid bps : dec) (sz_decimals : Z) : res dec :=
  q ← ddiv bps (dint 10000);
  quantize_price (Fin (dmul mid (if up then dadd (dint 1) q else dsub (dint 1) q))) sz_decimals false.

Definition check_slippage (i : GuardIntent) (price mid bps : dec) (sz_decimals : Z) (what : string) : Checked unit :=
  let? max_buy := lifted (slippage_bound true mid bps sz_decimals) in
  let? min_sell := lifted (slippage_bound false mid bps sz_decimals) in
  let? _ := requires (negb (String.eqb (gi_side i) "buy" && dltb max_buy price)) (refused RISK_LIMIT what) in
  requires (negb (String.eqb (gi_side i) "sell" && dltb price min_sell)) (refused RISK_LIMIT what).

Definition exchange_mode (g : ExecutionGuard) : bool := bool_decide (g_mode g ∈ [Some TESTNET; Some LIVE]).

(** The numbers of a HIP-3 proof. *)
Record Proof := MkProof {
  p_coin : string; p_side : string; p_size : dec; p_oracle : dec; p_entry_limit : dec; p_exit_limit : dec;
  p_entry_visible : dec; p_exit_visible : dec; p_entry_best : dec; p_entry_worst : dec; p_exit_worst : dec;
  p_entry_bound : dec; p_envelope : dec; p_observed_ms : Z; p_book_time_ms : Z;
}.

(** [parse_decimal(proof.get(key))] *)
Definition proof_decimal (proof : list (string * json)) (key : string) : res dec := parse_decimal (obj_field key proof).

Definition read_proof (proof : list (string * json)) : res Proof :=
  coin ← canonical_market_symbol (JStr (str_or_empty (obj_field "coin" proof)));
  let side := str_or_empty (obj_field "opening_side" proof) in
  size ← proof_decimal proof "requested_size";
  oracle ← proof_decimal proof "oracle_px";
  entry_limit ← proof_decimal proof "entry_limit";
  exit_limit ← proof_decimal proof "exit_limit";
  entry_visible ← proof_decimal proof "entry_visible_size";
  exit_visible ← proof_decimal proof "exit_visible_size";
  entry_best ← proof_decimal proof "entry_best_px";
  entry_worst ← proof_decimal proof "entry_worst_px";
  exit_worst ← proof_decimal proof "exit_worst_px";
  bound ← proof_decimal proof "entry_notional_bound_px";
  envelope ← proof_decimal proof "oracle_envelope_bps";
  observed ← json_int (json_or (obj_field "observed_ms" proof) (JInt 0));
  book_time ← json_int (json_or (obj_field "book_time_ms" proof) (JInt 0));
  Ok (MkProof coin side size oracle entry_limit exit_limit entry_visible exit_visible entry_best entry_worst exit_worst bound envelope observed book_time).

Definition proof_numbers (p : Proof) : list dec :=
  [p_size p; p_oracle p; p_entry_limit p; p_exit_limit p; p_entry_visible p; p_exit_visible p; p_entry_best p; p_entry_worst p; p_exit_worst p;
   p_entry_bound p; p_envelope p].

Definition proof_stale (limit current_ms : Z) (p : Proof) : bool :=
  let book_age := current_ms - p_book_time_ms p in
  let observed_age := current_ms - p_observed_ms p in
  (p_observed_ms p <=? 0) || (p_book_time_ms p <=? 0) || (p_observed_ms p + 1000 <? p_book_time_ms p) || (observed_age <? -1000) ||
  (book_age <? -1000) || (limit <? observed_age) || (limit <? book_age).

Definition inside (lower upper d : dec) : bool := dleb lower d && dleb d upper.

(** The checks of a proof that was read, from [decimals] on. *)
Definition check_proof (g : ExecutionGuard) (i : GuardIntent) (coin : string) (size price : dec) (now_ms : Z) (p : Proof) : Checked unit :=
  let buy := String.eqb (gi_side i) "buy" in
  let? _ := requires (forallb dpos (proof_numbers p)) (refused RISK_LIMIT "HIP-3 round-trip proof has invalid numeric fields") in
  let? _ := requires (String.eqb (p_coin p) coin && String.eqb (p_side p) (gi_side i) && deqb (p_size p) size)
              (refused RISK_LIMIT "HIP-3 round-trip proof does not match the opening intent") in
  let? _ := requires (deqb (p_entry_limit p) price && deqb (p_envelope p) (hip3_oracle_envelope_bps (g_risk g)))
              (refused RISK_LIMIT "HIP-3 round-trip proof does not match the configured price envelope") in
  let? _ := requires (dleb size (p_entry_visible p) && dleb size (p_exit_visible p))
              (refused RISK_LIMIT "HIP-3 round-trip proof lacks full entry and exit depth") in
  let? _ := requires (negb (proof_stale (stale_source_ms (g_limits g)) now_ms p))
              (refused STALE_SOURCE "HIP-3 round-trip proof is stale or time-inconsistent") in
  let? distance := lifted (ddiv (dmul (p_oracle p) (p_envelope p)) (dint 10000)) in
  let lower := dsub (p_oracle p) distance in
  let upper := dadd (p_oracle p) distance in
  let expected_bound := dmax (dmax upper (p_entry_best p)) (p_entry_worst p) in
  let ordered := if buy then dleb (p_entry_best p) (p_entry_worst p) else dleb (p_entry_worst p) (p_entry_best p) in
  let? _ := requires (ordered && deqb (p_entry_bound p) expected_bound)
              (refused RISK_LIMIT "HIP-3 entry notional proof is inconsistent with visible depth") in
  let? _ := requires (dleb (dmul (p_size p) (p_entry_bound p)) (max_notional_usd (g_risk g)))
              (refused RISK_LIMIT "HIP-3 bounded opening notional exceeds cap") in
  let? _ := requires (inside lower upper (p_entry_limit p) && inside lower upper (p_entry_worst p))
              (refused RISK_LIMIT "HIP-3 entry price is outside the application oracle envelope") in
  let? _ := requires (inside lower upper (p_exit_limit p) && inside lower upper (p_exit_worst p))
              (refused RISK_LIMIT "HIP-3 exit price is outside the application oracle envelope") in
  let entry_crosses := if buy then dleb (p_entry_worst p) (p_entry_limit p) else dleb (p_entry_limit p) (p_entry_worst p) in
  let exit_crosses := if buy then dleb (p_exit_limit p) (p_exit_worst p) else dleb (p_exit_worst p) (p_exit_limit p) in
  requires (entry_crosses && exit_crosses) (refused RISK_LIMIT "HIP-3 proof limits do not cross the proven entry and exit depth").

(** [exchange mode and market_dex(coin)] *)
Definition proof_needed (g : ExecutionGuard) (coin : string) : res bool :=
  if exchange_mode g then d ← market_dex (JStr coin); Ok (negb (is_empty d)) else Ok false.

(** [_hip3_round_trip_proof_decision]; an [InvalidOperation] is not caught. *)
Definition hip3_round_trip_proof_decision (g : ExecutionGuard) (i : GuardIntent) (coin : string) (size price : dec) (now_ms : Z) : Checked unit :=
  let? needed := lifted (proof_needed g coin) in
  if negb needed then goes_on tt else
  match gi_execution_proof i with
  | JObj proof =>
      if negb (json_is_str "hip3_round_trip" (obj_field "kind" proof))
      then reject RISK_LIMIT "exchange-mode opening requires a fresh HIP-3 round-trip depth proof" else
      let? p := catch (lifted (read_proof proof)) (fun e => match e with TypeError _ => true | _ => is_value_error e end)
                  (fun _ => reject RISK_LIMIT "HIP-3 round-trip proof is malformed") in
      check_proof g i coin size price now_ms p
  | _ => reject RISK_LIMIT "exchange-mode opening requires a fresh HIP-3 round-trip depth proof"
  end.

(** * Gross exposure *)

Definition invalid_market : GuardDecision := refused CONFIG_INVALID "invalid projected market".

(** [canonical_market_symbol(position.coin or key)] *)
Definition projected_symbol (kp : string * RawPosition) : Checked string :=
  match canonical_market_symbol (JStr (if is_empty (pos_coin kp.2) then kp.1 else pos_coin kp.2)) with
  | Ok s => goes_on s
  | Raise e => if is_value_error e then ends invalid_market else Raise e
  end.

(** A loop whose body may return. *)
Definition fold_checked {A B} (f : B -> A -> Checked B) : list A -> B -> Checked B :=
  fix go l acc := match l with [] => goes_on acc | x :: t => let? acc' := f acc x in go t acc' end.

Definition projected_sizes (positions : dict RawPosition) : Checked (dict dec) :=
  fold_checked (fun sizes kp =>
    let? symbol := projected_symbol kp in
    match pos_size kp.2 with
    | Fin size => goes_on (dict_set symbol (dadd (default dzero (dict_get symbol sizes)) size) sizes)
    | _ => reject AMBIGUOUS_EXCHANGE_RESPONSE "current projected size is not finite"
    end) positions [].

Definition add_gross (g : ExecutionGuard) (allowed_only : bool) (gross : dec) (symbol : string) (size : dec) : Checked dec :=
  if dis_zero size then goes_on gross else
  let? _ := requires (negb allowed_only || bool_decide (symbol ∈ allowlist g))
              (refused UNSUPPORTED_SYMBOL "existing projected exposure is not allowed") in
  match mid_of g symbol with
  | None => reject STALE_SOURCE (if allowed_only then "mid price missing for gross exposure check" else "mid price missing for current gross exposure check")
  | Some mid => goes_on (dadd gross (dmul (dabs size) mid))
  end.

Definition projected_gross (g : ExecutionGuard) (sizes : dict dec) : Checked dec :=
  fold_checked (fun gross kv => add_gross g true gross kv.1 kv.2) sizes dzero.

Definition current_gross_of (g : ExecutionGuard) (positions : dict RawPosition) : Checked dec :=
  fold_checked (fun gross kp =>
    let? symbol := projected_symbol kp in
    match pos_size kp.2 with
    | Fin size => add_gross g false gross symbol size
    | _ => goes_on gross
    end) positions dzero.

(** [_projected_gross_decision] *)
Definition projected_gross_decision (g : ExecutionGuard) (coin : string) (next_size : dec) (positions : dict RawPosition)
    (allow_above_cap_reduction : bool) : Checked unit :=
  let? sizes := projected_sizes positions in
  let sizes := if dis_zero next_size then dict_del coin sizes else dict_set coin next_size sizes in
  let? gross := projected_gross g sizes in
  let? current_gross := (if allow_above_cap_reduction then current_gross_of g positions else goes_on dzero) in
  requires (negb (dltb (max_gross_exposure_usd (g_risk g)) gross && negb (allow_above_cap_reduction && dltb gross current_gross)))
    (refused RISK_LIMIT "projected gross exposure exceeds cap").

(** * The checks of one intent *)

(** The canonical coin, its metadata and its price. *)
Definition resolve_market (g : ExecutionGuard) (i : GuardIntent) : Checked (string * AssetMeta * dec) :=
  let? coin := (match canonical_market_symbol (JStr (gi_coin i)) with
                | Ok c => goes_on c
                | Raise e => if is_value_error e then reject CONFIG_INVALID "invalid intent market" else Raise e
                end) in
  let? _ := requires (bool_decide (coin ∈ allowlist g)) (refused UNSUPPORTED_SYMBOL "is not allowed") in
  match dict_get coin (g_asset_meta g) with
  | None => reject UNSUPPORTED_SYMBOL "metadata missing"
  | Some meta =>
      match mid_of g coin with
      | None => reject STALE_SOURCE "mid price missing"
      | Some mid => goes_on (coin, meta, mid)
      end
  end.

(** The size and the price of an order. *)
Definition order_numbers (i : GuardIntent) : Checked (dec * dec) :=
  let? _ := requires (String.eqb (gi_side i) "buy" || String.eqb (gi_side i) "sell") (refused CONFIG_INVALID "invalid side") in
  match gi_size i with
  | Fin size =>
      let? _ := requires (dpos size) (refused CONFIG_INVALID "intent size must be positive") in
      match gi_price i with
      | Some (Fin price) =>
          let? _ := requires (dpos price) (refused CONFIG_INVALID "intent price must be positive") in
          goes_on (size, price)
      | _ => reject CONFIG_INVALID "intent price must be positive"
      end
  | _ => reject CONFIG_INVALID "intent size must be positive"
  end.

(** The direction of the change against the position. *)
Definition check_direction (i : GuardIntent) (current delta next : dec) : Checked unit :=
  if gi_reduce_only i || reducing_action i then
    let? _ := requires (genuinely_reducing i current delta next)
                (refused RISK_LIMIT "reduce-only intent must strictly reduce exposure without crossing zero") in
    requires (negb (bool_decide (gi_action i = CLOSE) && negb (dis_zero next))) (refused RISK_LIMIT "close intent must flatten exposure")
  else
    requires (negb (bool_decide (gi_action i = OPEN) && negb (dis_zero current) && negb (Bool.eqb (dpos delta) (dpos current))))
      (refused RAPID_FLIP "open intent cannot reduce or cross existing exposure").

(** [position.size != 0] *)
Definition nonzero_size (p : RawPosition) : bool := match pos_size p with Fin d => negb (dis_zero d) | _ => true end.

Definition active_coins (positions : dict RawPosition) : res (gset string) :=
  coins ← map_res (fun kp : string * RawPosition => canonical_market_symbol (JStr kp.1)) (List.filter (fun kp => nonzero_size kp.2) positions);
  Ok (list_to_set coins).

Definition check_new_position (g : ExecutionGuard) (i : GuardIntent) (coin : string) (reducing : bool) (next : dec) (positions : dict RawPosition)
    : Checked unit :=
  let? active := lifted (active_coins positions) in
  let opens_new_position := bool_decide (gi_action i = OPEN) && negb (gi_reduce_only i) && negb reducing && negb (dis_zero next) &&
                            negb (bool_decide (coin ∈ active)) in
  requires (negb (opens_new_position && (max_open_positions (g_limits g) <=? Z.of_nat (size active))))
    (refused RISK_LIMIT "would open one position too many").

Definition check_notional (g : ExecutionGuard) (reducing : bool) (next size mid : dec) : Checked unit :=
  let notional := dmul size mid in
  let exact_full_close := reducing && dis_zero next in
  let? _ := requires (negb (dltb notional HYPERLIQUID_PERP_MIN_NOTIONAL_USD && negb exact_full_close))
              (MkDecision false RISK_LIMIT "notional below Hyperliquid perp minimum" true) in
  requires (negb (dltb (max_notional_usd (g_risk g)) notional && negb reducing)) (refused RISK_LIMIT "notional exceeds cap").

(** The price against the bounds around the mid price, or against the HIP-3 proof. *)
Definition check_order_price (g : ExecutionGuard) (i : GuardIntent) (coin : string) (meta : AssetMeta) (size price mid : dec) (now_ms : Z) : Checked unit :=
  let? _ := (if gi_reduce_only i || reducing_action i
             then check_slippage i price mid (close_slippage_bps (g_risk g)) (am_sz_decimals meta) "reduce-only price outside close slippage bound"
             else goes_on tt) in
  if negb (gi_reduce_only i) && bool_decide (gi_action i = OPEN) then
    let? _ := hip3_round_trip_proof_decision g i coin size price now_ms in
    let? controlled := lifted (proof_needed g coin) in
    if negb controlled
    then check_slippage i price mid (slippage_bps (g_risk g)) (am_sz_decimals meta) "price outside slippage bound"
    else goes_on tt
  else goes_on tt.

Definition check_projected_notional (g : ExecutionGuard) (reducing : bool) (current next mid : dec) : Checked unit :=
  let projected := dmul (dabs next) mid in
  requires (negb (dltb (max_notional_usd (g_risk g)) projected && negb (reducing && dltb projected (dmul (dabs current) mid))))
    (refused RISK_LIMIT "projected notional exceeds cap").

(** [check_intent] *)
Definition check_intent (g : ExecutionGuard) (i : GuardIntent) (positions : dict RawPosition) (now_ms : Z) : res GuardDecision :=
  if bool_decide (gi_action i = NOOP) then check_noop i else
  decision_of (
    let? _ := requires (negb (has_dispatch_evidence_for_cloid (g_store g) (gi_cloid i)))
                (MkDecision false DUPLICATE_INTENT "already has execution evidence" true) in
    let? _ := requires (match intent_by_cloid (g_store g) (gi_cloid i) with None => true | Some id => String.eqb id (gi_intent_id i) end)
                (refused DUPLICATE_INTENT "already belongs to another intent") in
    let? (coin, meta, mid) := resolve_market g i in
    let? (size, price) := order_numbers i in
    match pos_size (position_at coin positions) with
    | Fin current =>
        let delta := signed_delta (gi_side i) size in
        let next := dadd current delta in
        let reducing := genuinely_reducing i current delta next in
        let? _ := check_direction i current delta next in
        let? _ := check_new_position g i coin reducing next positions in
        let? _ := check_notional g reducing next size mid in
        let? _ := check_order_price g i coin meta size price mid now_ms in
        let? _ := check_projected_notional g reducing current next mid in
        projected_gross_decision g coin next positions reducing
    | _ => reject AMBIGUOUS_EXCHANGE_RESPONSE "current projected size is not finite"
    end).

(** [apply_projection]; a size or a position that is not finite makes Python's [Decimal] raise or
    give a number that is not finite. *)
Definition apply_projection (i : GuardIntent) (positions : dict RawPosition) : res (dict RawPosition) :=
  if bool_decide (gi_action i = NOOP) then Ok positions else
  positive_size ← pyltb (Fin dzero) (gi_size i);
  if negb positive_size then Ok positions else
  let current := position_at (gi_coin i) positions in
  let delta := if String.eqb (gi_side i) "buy" then gi_size i else pyneg (gi_size i) in
  next_size ← pyadd (pos_size current) delta;
  if negb (pytruthy next_size) then Ok (dict_del (gi_coin i) positions) else
  let price := match gi_price i with Some p => if pytruthy p then Some p else pos_entry_px current | None => pos_entry_px current end in
  Ok (dict_set (gi_coin i) (MkPosition (gi_coin i) next_size price (pos_leverage current) 0) positions).
