(* ===== verification/GuardFacts.v ===== *)
(** What the guard of the older service lets through: a cycle of orders that it passes keeps
    every limit of the follower's portfolio. *)

From S2P Require Import Prelude PyDecimal DecimalFacts RoundingFacts PyText TextFacts Models Precision Markets MarketFacts OrderPreflight CopyEngine Safety AccountState AccountStateFacts Guard.
From Stdlib Require Import QArith Qabs Lqa.

Open Scope Z_scope.
Local Open Scope guard_scope.

(** * Rounded results depend on the values only *)

(** Two numbers of the same value, however many zeros they are padded with. *)
Definition same (a b : dec) : Prop := (dval a == dval b)%Q.

#[export] Instance same_equivalence : Equivalence same.
Proof. unfold same. split; [intros a; apply Qeq_refl|intros a b; apply Qeq_sym|intros a b c; apply Qeq_trans]. Qed.

Lemma dfix_same_value a b : same a b -> same (dfix prec_default a) (dfix prec_default b).
Proof.
  unfold same. intros H.
  assert (Qabs (dval (dfix prec_default a)) == Qabs (dval (dfix prec_default b)))%Q as Hm.
  { apply Qle_antisym; apply dfix_mono; rewrite H; apply Qle_refl. }
  pose proof (dval_sign (dfix prec_default a)) as Ha. pose proof (dval_sign (dfix prec_default b)) as Hb. rewrite !dfix_neg in Ha, Hb.
  pose proof (dval_sign a) as Ha'. pose proof (dval_sign b) as Hb'.
  destruct (Qabs_cases (dval (dfix prec_default a))) as [[? E1]|[? E1]], (Qabs_cases (dval (dfix prec_default b))) as [[? E2]|[? E2]]; rewrite E1, E2 in Hm; try lra.
  all: destruct (dneg a), (dneg b); try lra.
  all: assert (dval a == 0)%Q as Hz by lra; assert (dval b == 0)%Q as Hz' by lra.
  all: apply dis_zero_spec, N.eqb_eq in Hz, Hz'.
  all: rewrite !dfix_same by (rewrite ?Hz, ?Hz'; done); lra.
Qed.

#[export] Instance dadd_same : Proper (same ==> same ==> same) dadd.
Proof. intros a a' Ha b b' Hb. apply dfix_same_value. unfold same in *. by rewrite !dadd_exact_val, Ha, Hb. Qed.

#[export] Instance dmul_same : Proper (same ==> same ==> same) dmul.
Proof. intros a a' Ha b b' Hb. apply dfix_same_value. unfold same in *. by rewrite !dmul_exact_val, Ha, Hb. Qed.

#[export] Instance dabs_same : Proper (same ==> same) dabs.
Proof. intros a a' Ha. apply dfix_same_value. unfold same in *. by rewrite !copy_abs_val, Ha. Qed.

#[export] Instance dis_zero_same : Proper (same ==> eq) dis_zero.
Proof. intros a b H. apply eq_true_iff_eq. rewrite !dis_zero_spec. unfold same in H. by rewrite H. Qed.

Lemma dadd_zero_same d : fits d -> same (dadd dzero d) d.
Proof.
  intros H. assert (same (dadd dzero d) (dfix prec_default d)) as -> by (apply dfix_same_value; unfold same; rewrite dadd_exact_val, dval_zero; ring).
  by rewrite dfix_same.
Qed.

(** * Checks that end only by refusing *)

Definition rejecting {A} (m : Checked A) : Prop := forall d, m = Ok (inr d) -> gd_ok d = false.

Lemma rejecting_goes_on {A} (a : A) : rejecting (goes_on a).
Proof. done. Qed.
Lemma rejecting_reject {A} reason detail : rejecting (@reject A reason detail).
Proof. by intros d [= <-]. Qed.
Lemma rejecting_ends {A} d : gd_ok d = false -> rejecting (@ends A d).
Proof. by intros H d' [= <-]. Qed.
Lemma rejecting_raise {A} e : rejecting (Raise e : Checked A).
Proof. done. Qed.
Lemma rejecting_lifted {A} (r : res A) : rejecting (lifted r).
Proof. by destruct r. Qed.
Lemma rejecting_requires c d : gd_ok d = false -> rejecting (requires c d).
Proof. intros H. by destruct c; [|apply rejecting_ends]. Qed.
Lemma rejecting_bind {A B} (m : Checked A) (k : A -> Checked B) : rejecting m -> (forall a, rejecting (k a)) -> rejecting (cbind m k).
Proof. intros Hm Hk d. unfold cbind. destruct m as [[a|d']|e]; [apply Hk|intros [= <-]; by apply Hm|done]. Qed.
Lemma rejecting_catch {A} (m : Checked A) p h : rejecting m -> (forall e, rejecting (h e)) -> rejecting (catch m p h).
Proof. intros Hm Hh d. unfold catch. destruct m as [x|e]; [apply Hm|]. destruct (p e); [apply Hh|done]. Qed.
Lemma rejecting_fold {A B} (f : B -> A -> Checked B) l acc : (forall b a, rejecting (f b a)) -> rejecting (fold_checked f l acc).
Proof. intros Hf. revert acc. induction l as [|x l IH]; intros acc; [done|]. apply rejecting_bind; [apply Hf|done]. Qed.

Create HintDb rejecting.
#[export] Hint Resolve rejecting_goes_on rejecting_reject rejecting_raise rejecting_lifted rejecting_fold : rejecting.
#[export] Hint Extern 1 (rejecting (requires _ _)) => apply rejecting_requires; reflexivity : rejecting.
#[export] Hint Extern 1 (rejecting (ends _)) => apply rejecting_ends; reflexivity : rejecting.
#[export] Hint Extern 1 (rejecting (cbind _ _)) => apply rejecting_bind; [|intros ?] : rejecting.
#[export] Hint Extern 2 (rejecting (match ?x with _ => _ end)) => destruct x : rejecting.

Lemma rejecting_symbol kp : rejecting (projected_symbol kp).
Proof. unfold projected_symbol. auto with rejecting. Qed.
#[export] Hint Resolve rejecting_symbol : rejecting.

Lemma rejecting_proof g i coin size price now p : rejecting (check_proof g i coin size price now p).
Proof. unfold check_proof. auto 40 with rejecting. Qed.

Lemma rejecting_hip3 g i coin size price now : rejecting (hip3_round_trip_proof_decision g i coin size price now).
Proof.
  unfold hip3_round_trip_proof_decision. apply rejecting_bind; [apply rejecting_lifted|]. intros needed. destruct (negb needed); [done|].
  destruct (gi_execution_proof i); try apply rejecting_reject. destruct (negb _); [apply rejecting_reject|].
  apply rejecting_bind; [apply rejecting_catch; [apply rejecting_lifted|intros e; apply rejecting_reject]|intros p; apply rejecting_proof].
Qed.

Lemma rejecting_slippage i price mid bps sz what : rejecting (check_slippage i price mid bps sz what).
Proof. unfold check_slippage. auto 10 with rejecting. Qed.
#[export] Hint Resolve rejecting_hip3 rejecting_slippage : rejecting.

Lemma rejecting_gross g coin next positions allow : rejecting (projected_gross_decision g coin next positions allow).
Proof.
  assert (forall b gross s d, rejecting (add_gross g b gross s d)) by (intros; unfold add_gross; auto with rejecting).
  unfold projected_gross_decision, projected_gross, current_gross_of, projected_sizes. auto 20 with rejecting.
Qed.

Lemma rejecting_price g i coin meta size price mid now : rejecting (check_order_price g i coin meta size price mid now).
Proof. unfold check_order_price. auto 20 with rejecting. Qed.

Lemma rejecting_direction i current delta next : rejecting (check_direction i current delta next).
Proof. unfold check_direction. auto 10 with rejecting. Qed.

Lemma rejecting_market g i : rejecting (resolve_market g i).
Proof. unfold resolve_market. auto 20 with rejecting. Qed.

Lemma rejecting_numbers i : rejecting (order_numbers i).
Proof. unfold order_numbers. auto 20 with rejecting. Qed.
#[export] Hint Resolve rejecting_gross rejecting_price rejecting_direction rejecting_market rejecting_numbers : rejecting.

(** * Reading off a check that passed *)

Lemma cbind_passed {A B} (m : Checked A) (k : A -> Checked B) b : cbind m k = Ok (inl b) -> exists a, m = Ok (inl a) /\ k a = Ok (inl b).
Proof. unfold cbind. destruct m as [[a|d]|e]; try done. eauto. Qed.

Lemma requires_passed c d u : requires c d = Ok (inl u) -> c = true.
Proof. by destruct c. Qed.

Lemma lifted_passed {A} (r : res A) a : lifted r = Ok (inl a) -> r = Ok a.
Proof. destruct r; [by intros [= ->]|done]. Qed.

Lemma decision_passed m d : rejecting m -> decision_of m = Ok d -> gd_ok d = true -> m = Ok (inl tt).
Proof. intros Hm. unfold decision_of. destruct m as [[[]|d']|e]; [done| |done]. intros [= ->] H. by rewrite (Hm d) in H. Qed.

(** What a passed order went through. *)
Record passed (g : ExecutionGuard) (i : GuardIntent) (positions : dict RawPosition) (coin : string) (mid size current : dec) : Prop := {
  pa_fresh : has_dispatch_evidence_for_cloid (g_store g) (gi_cloid i) = false;
  pa_owner : forall id, intent_by_cloid (g_store g) (gi_cloid i) = Some id -> id = gi_intent_id i;
  pa_coin : canonical_market_symbol (JStr (gi_coin i)) = Ok coin /\ coin ∈ allowlist g;
  pa_mid : mid_of g coin = Some mid;
  pa_side : gi_side i = "buy" \/ gi_side i = "sell";
  pa_size : gi_size i = Fin size /\ dpos size = true;
  pa_current : pos_size (position_at coin positions) = Fin current;
  pa_checks : let delta := signed_delta (gi_side i) size in let next := dadd current delta in
    let reducing := genuinely_reducing i current delta next in
    check_direction i current delta next = Ok (inl tt) /\ check_new_position g i coin reducing next positions = Ok (inl tt) /\
    check_notional g reducing next size mid = Ok (inl tt) /\ check_projected_notional g reducing current next mid = Ok (inl tt) /\
    projected_gross_decision g coin next positions reducing = Ok (inl tt);
}.

Lemma market_passed g i coin meta mid : resolve_market g i = Ok (inl (coin, meta, mid)) ->
  canonical_market_symbol (JStr (gi_coin i)) = Ok coin /\ coin ∈ allowlist g /\ mid_of g coin = Some mid.
Proof.
  unfold resolve_market. intros (c & Hc & H)%cbind_passed. apply cbind_passed in H as ([] & Ha%requires_passed%bool_decide_eq_true & H).
  destruct (dict_get c (g_asset_meta g)); [|done]. destruct (mid_of g c) eqn:Em; [|done]. injection H as -> -> ->.
  split; [|done]. destruct (canonical_market_symbol (JStr (gi_coin i))) as [c'|e]; [by injection Hc as ->|]. by destruct (is_value_error e).
Qed.

Lemma numbers_passed i size price : order_numbers i = Ok (inl (size, price)) ->
  (gi_side i = "buy" \/ gi_side i = "sell") /\ gi_size i = Fin size /\ dpos size = true.
Proof.
  unfold order_numbers. intros ([] & Hs%requires_passed & H)%cbind_passed. apply orb_true_iff in Hs. rewrite !String.eqb_eq in Hs.
  destruct (gi_size i) as [z| |]; try done. apply cbind_passed in H as ([] & Hz%requires_passed & H).
  destruct (gi_price i) as [[p| |]|]; try done. apply cbind_passed in H as ([] & _ & H). by injection H as -> ->.
Qed.

Lemma check_intent_passed g i positions now d : gi_action i <> NOOP ->
  check_intent g i positions now = Ok d -> gd_ok d = true -> exists coin mid size current, passed g i positions coin mid size current.
Proof.
  intros Hno. unfold check_intent. rewrite bool_decide_eq_false_2 by done. intros Hd Hok. apply decision_passed in Hd; [clear Hok|..|done].
  2:{ apply rejecting_bind; [by apply rejecting_requires|intros _]. apply rejecting_bind; [by apply rejecting_requires|intros _].
      apply rejecting_bind; [auto with rejecting|intros [[coin meta] mid]]. apply rejecting_bind; [auto with rejecting|intros [size price]].
      destruct (pos_size _) as [current| |]; try apply rejecting_reject. unfold check_new_position, check_notional, check_projected_notional.
      auto 20 with rejecting. }
  apply cbind_passed in Hd as ([] & Hfresh%requires_passed & Hd). apply cbind_passed in Hd as ([] & Hown%requires_passed & Hd).
  apply cbind_passed in Hd as ([[coin meta] mid] & (Hc & Ha & Hm)%market_passed & Hd).
  apply cbind_passed in Hd as ([size price] & (Hs & Hz & Hp)%numbers_passed & Hd).
  destruct (pos_size (position_at coin positions)) as [current| |] eqn:Ec; try done.
  apply cbind_passed in Hd as ([] & H1 & Hd). apply cbind_passed in Hd as ([] & H2 & Hd). apply cbind_passed in Hd as ([] & H3 & Hd).
  apply cbind_passed in Hd as ([] & _ & Hd). apply cbind_passed in Hd as ([] & H4 & H5).
  exists coin, mid, size, current. split; try done.
  - by apply negb_true_iff.
  - intros id Hi. rewrite Hi in Hown. by apply String.eqb_eq.
Qed.

(** * Dicts of positions *)

Lemma dict_set_absent {V} k (v : V) d : dict_get k d = None -> dict_set k v d = d ++ [(k, v)].
Proof.
  induction d as [|[k' v'] d IH]; cbn; [done|]. destruct (decide (k = k')); [done|]. intros H. by rewrite IH.
Qed.

Lemma dict_set_present {V} k (v w : V) d : dict_get k d = Some w -> dict_keys (dict_set k v d) = dict_keys d.
Proof.
  induction d as [|[k' v'] d IH]; cbn; [done|]. destruct (decide (k = k')) as [->|]; [done|]. intros H. cbn. f_equal. by apply IH.
Qed.

Lemma dict_del_in {V} k (d : dict V) kv : kv ∈ dict_del k d <-> kv ∈ d /\ kv.1 <> k.
Proof.
  unfold dict_del. rewrite !list_elem_of_In, List.filter_In. split; intros [H1 H2]; (split; [done|]).
  - apply negb_true_iff, bool_decide_eq_false in H2. done.
  - apply negb_true_iff. by apply bool_decide_eq_false.
Qed.

Lemma dict_del_NoDup {V} k (d : dict V) : NoDup (dict_keys d) -> NoDup (dict_keys (dict_del k d)).
Proof.
  unfold dict_keys, dict_del. induction d as [|[k' v'] d IH]; [done|]. rewrite fmap_cons. intros [Hn Hd]%list.NoDup_cons.
  cbn [List.filter fst]. destruct (negb _); [|by apply IH]. rewrite fmap_cons. apply list.NoDup_cons. split; [|by apply IH].
  intros (kv & E & H)%list_elem_of_fmap. apply Hn. rewrite E. apply list_elem_of_fmap_2. by apply dict_del_in in H as [].
Qed.

Lemma dict_del_length {V} k (d : dict V) : (List.length (dict_del k d) <= List.length d)%nat.
Proof. unfold dict_del. induction d as [|kv d IH]; cbn; [lia|]. destruct (negb _); cbn; lia. Qed.

(** * A portfolio inside its limits *)

Definition size_or_zero (d : pydec) : dec := match d with Fin x => x | _ => dzero end.

(** [sizes] of the gross check for a portfolio with one entry per coin. *)
Definition position_sizes (positions : dict RawPosition) : dict dec := (fun kp => (kp.1, dadd dzero (size_or_zero (pos_size kp.2)))) <$> positions.

(** One position: an open one in an allowed and priced market, inside the cap of a position. *)
Definition entry_ok (g : ExecutionGuard) (kp : string * RawPosition) : Prop :=
  canonical_market_symbol (JStr kp.1) = Ok kp.1 /\ pos_coin kp.2 = kp.1 /\ kp.1 ∈ allowlist g /\
  exists size mid, pos_size kp.2 = Fin size /\ fits size /\ dis_zero size = false /\ mid_of g kp.1 = Some mid /\
    (dval (dmul (dabs size) mid) <= dval (max_notional_usd (g_risk g)))%Q.

Record within (g : ExecutionGuard) (positions : dict RawPosition) : Prop := {
  wi_keys : NoDup (dict_keys positions);
  wi_entries : Forall (entry_ok g) positions;
  wi_count : Z.of_nat (List.length positions) <= max_open_positions (g_limits g);
  wi_gross : exists gross, projected_gross g (position_sizes positions) = Ok (inl gross) /\ (dval gross <= dval (max_gross_exposure_usd (g_risk g)))%Q;
}.

Section Limits.
Context (g : ExecutionGuard).

Lemma entry_symbol kp : entry_ok g kp -> projected_symbol kp = goes_on kp.1.
Proof. intros (Hc & Hp & _). unfold projected_symbol. rewrite Hp. destruct (is_empty kp.1); by rewrite Hc. Qed.

Lemma projected_sizes_eq positions : NoDup (dict_keys positions) -> Forall (entry_ok g) positions ->
  projected_sizes positions = goes_on (position_sizes positions).
Proof.
  intros Hn He. unfold projected_sizes.
  match goal with |- fold_checked ?f _ _ = _ => set (body := f) end.
  assert (forall acc, (forall k, k ∈ dict_keys positions -> dict_get k acc = None) ->
    fold_checked body positions acc = goes_on (acc ++ position_sizes positions)) as H; [|by apply (H [])].
  induction positions as [|kp positions IH]; intros acc Hacc; [by rewrite app_nil_r|].
  apply list.Forall_cons in He as [Hk He]. unfold dict_keys in Hn. rewrite fmap_cons in Hn. apply list.NoDup_cons in Hn as [Hni Hn].
  change (fold_checked body (kp :: positions) acc) with (cbind (body acc kp) (fold_checked body positions)).
  pose proof Hk as (Hc & Hp & Ha & size & mid & Hs & _). unfold body at 1. rewrite (entry_symbol kp Hk).
  cbn [cbind goes_on]. rewrite Hs, (Hacc kp.1) by (by left). cbn [default cbind goes_on]. rewrite dict_set_absent by (apply Hacc; by left).
  rewrite IH; [|done|done|].
  - unfold position_sizes. rewrite fmap_cons, Hs. cbn [size_or_zero]. by rewrite <- app_assoc.
  - intros k Hk'. assert (kp.1 <> k) as Hne by (intros E; apply Hni; by rewrite E). rewrite <- dict_set_absent by (apply Hacc; by left).
    rewrite dict_get_set_ne by done. apply Hacc. by right.
Qed.

(** Equal entries give equal sums. *)
Lemma add_gross_same b b' gross gross' s d d' r : same gross gross' -> same d d' -> s ∈ allowlist g ->
  add_gross g b gross s d = Ok (inl r) -> exists r', add_gross g b' gross' s d' = Ok (inl r') /\ same r r'.
Proof.
  intros Hg Hd Hs. unfold add_gross. rewrite <- (dis_zero_same _ _ Hd). destruct (dis_zero d); [intros [= <-]; by exists gross'|].
  rewrite !bool_decide_eq_true_2, !orb_true_r by done. cbn [requires cbind goes_on]. destruct (mid_of g s) as [mid|]; [|done].
  intros [= <-]. eexists. split; [done|]. by apply dadd_same, dmul_same; [|apply dabs_same|].
Qed.

Lemma add_gross_allowed gross s d r : dis_zero d = false -> add_gross g true gross s d = Ok (inl r) -> s ∈ allowlist g.
Proof. unfold add_gross. intros ->. intros ([] & H%requires_passed & _)%cbind_passed. by apply bool_decide_eq_true in H. Qed.

Lemma add_gross_zero b gross s d : dis_zero d = true -> add_gross g b gross s d = Ok (inl gross).
Proof. unfold add_gross. by intros ->. Qed.

Lemma gross_same l l' : Forall2 (fun a b => a.1 = b.1 /\ same a.2 b.2) l l' -> forall acc acc' r, same acc acc' ->
  fold_checked (fun gross kv => add_gross g true gross kv.1 kv.2) l acc = Ok (inl r) ->
  exists r', fold_checked (fun gross kv => add_gross g true gross kv.1 kv.2) l' acc' = Ok (inl r') /\ same r r'.
Proof.
  induction 1 as [|[k d] [k' d'] l l' [Hk Hd] _ IH]; intros acc acc' r Hacc; [intros [= <-]; by exists acc'|]. cbn [fst snd] in Hk, Hd. subst k'.
  cbn [fold_checked]. intros (a & Ha & H)%cbind_passed. cbn [fst snd] in *.
  assert (exists a', add_gross g true acc' k d' = Ok (inl a') /\ same a a') as (a' & Ha' & Haa).
  { destruct (dis_zero d) eqn:Ez.
    - rewrite add_gross_zero in Ha by done. rewrite add_gross_zero by (by rewrite <- (dis_zero_same _ _ Hd)). injection Ha as <-. by exists acc'.
    - eapply add_gross_same; [done|done|by eapply add_gross_allowed|done]. }
  rewrite Ha'. by apply (IH _ _ _ Haa).
Qed.

(** The gross of the positions as they are is the one the invariant speaks about. *)
Lemma current_gross_same positions : Forall (entry_ok g) positions -> forall acc acc' r r', same acc acc' ->
  fold_checked (fun gross kv => add_gross g true gross kv.1 kv.2) (position_sizes positions) acc = Ok (inl r) ->
  fold_checked (fun gross (kp : string * RawPosition) => let? symbol := projected_symbol kp in
    match pos_size kp.2 with Fin size => add_gross g false gross symbol size | _ => goes_on gross end) positions acc' = Ok (inl r') -> same r r'.
Proof.
  induction 1 as [|kp positions Hk _ IH]; intros acc acc' r r' Hacc.
  - by intros [= <-] [= <-].
  - unfold position_sizes. rewrite fmap_cons. cbn [fold_checked fst snd]. intros (a & Ha & H)%cbind_passed (a' & Ha' & H')%cbind_passed.
    rewrite (entry_symbol kp Hk) in Ha'. cbn [cbind goes_on] in Ha'. destruct Hk as (_ & _ & Hal & size & mid & Hs & Hf & _). rewrite Hs in Ha, Ha'. cbn [size_or_zero] in Ha.
    apply (IH a a'); [|done|done].
    destruct (add_gross_same true false acc acc' kp.1 _ size a Hacc (dadd_zero_same size Hf) Hal Ha) as (a'' & E & Haa). congruence.
Qed.

(** What the positions are worth together, whatever their side. *)
Definition book_worth (positions : dict RawPosition) : dec :=
  fold_left (fun total kp => dadd total (dmul (dabs (size_or_zero (pos_size kp.2))) (default dzero (mid_of g kp.1)))) positions dzero.

Lemma gross_is_exposure positions : Forall (entry_ok g) positions -> forall acc total r, same acc total ->
  fold_checked (fun gross kv => add_gross g true gross kv.1 kv.2) (position_sizes positions) acc = Ok (inl r) ->
  same r (fold_left (fun total kp => dadd total (dmul (dabs (size_or_zero (pos_size kp.2))) (default dzero (mid_of g kp.1)))) positions total).
Proof.
  induction 1 as [|kp positions Hk _ IH]; intros acc total r Hacc; [by intros [= <-]|].
  unfold position_sizes. rewrite fmap_cons. cbn [fold_checked fst snd fold_left]. intros (a & Ha & H)%cbind_passed. apply (IH a); [|done].
  destruct Hk as (_ & _ & Hal & size & mid & Hs & Hf & Hz & Hm & _). rewrite Hs in *. cbn [size_or_zero] in *. rewrite Hm. cbn [default].
  unfold add_gross in Ha. rewrite (dis_zero_same _ _ (dadd_zero_same size Hf)), Hz in Ha.
  rewrite bool_decide_eq_true_2, orb_true_r in Ha by done. cbn [requires cbind goes_on] in Ha. rewrite Hm in Ha. injection Ha as <-.
  apply dadd_same; [done|]. apply dmul_same; [|done]. by apply dabs_same, dadd_zero_same.
Qed.

Lemma within_exposure positions : within g positions -> (dval (book_worth positions) <= dval (max_gross_exposure_usd (g_risk g)))%Q.
Proof.
  intros [_ He _ (gross & Hg & Hcap)]. assert (same gross (book_worth positions)) as Hs by (eapply gross_is_exposure; [exact He|reflexivity|exact Hg]).
  unfold same in Hs. lra.
Qed.

(** * One order that passes *)

Lemma position_in positions coin current : NoDup (dict_keys positions) -> Forall (entry_ok g) positions ->
  pos_size (position_at coin positions) = Fin current -> dis_zero current = false ->
  exists p mid, dict_get coin positions = Some p /\ mid_of g coin = Some mid /\
    (dval (dmul (dabs current) mid) <= dval (max_notional_usd (g_risk g)))%Q.
Proof.
  intros _ He Hc Hz. unfold position_at in Hc. destruct (dict_get coin positions) as [p|] eqn:Ep; cbn in Hc; [|by injection Hc as <-].
  pose proof (dict_get_Some_in _ _ _ Ep) as Hin. rewrite list.Forall_forall in He.
  destruct (He _ Hin) as (_ & _ & _ & size & mid & Hs & _ & _ & Hm & Hn). cbn [fst snd] in *. rewrite Hc in Hs. injection Hs as ->.
  by exists p, mid.
Qed.

Lemma absent_is_flat positions coin : dict_get coin positions = None -> pos_size (position_at coin positions) = Fin dzero.
Proof. unfold position_at. by intros ->. Qed.

Lemma active_coins_all positions : Forall (entry_ok g) positions -> active_coins positions = Ok (list_to_set (dict_keys positions)).
Proof.
  intros He. unfold active_coins. assert (List.filter (fun kp : string * RawPosition => nonzero_size kp.2) positions = positions) as ->.
  { induction He as [|kp l (_ & _ & _ & size & mid & Hs & _ & Hz & _) _ IH]; [done|]. cbn [List.filter]. unfold nonzero_size at 1. rewrite Hs, Hz. cbn [negb]. by rewrite IH. }
  assert (map_res (fun kp : string * RawPosition => canonical_market_symbol (JStr kp.1)) positions = Ok (dict_keys positions)) as ->; [|done].
  apply map_res_Forall2. unfold dict_keys. rewrite Forall2_fmap_r. apply list.Forall_Forall2_diag. eapply list.Forall_impl; [exact He|].
  by intros kp (Hc & _).
Qed.

Lemma reducing_parts i current delta next : genuinely_reducing i current delta next = true ->
  dis_zero current = false /\ (dis_zero next = true \/ dpos next = dpos current) /\ (dval (dabs next) < dval (dabs current))%Q.
Proof.
  unfold genuinely_reducing. rewrite !andb_true_iff, orb_true_iff, negb_true_iff, dltb_spec. intros [[[[_ Hz] _] Hs] Hl].
  split; [done|]. split; [|done]. destruct Hs as [?|Hs%eqb_prop]; [by left|by right].
Qed.

(** An order that starts from no position is an opening one, and there is room for it. *)
Lemma new_position_room i coin delta next positions : gi_action i <> CANCEL -> gi_action i <> NOOP -> NoDup (dict_keys positions) ->
  Forall (entry_ok g) positions -> dict_get coin positions = None -> dis_zero next = false ->
  let reducing := genuinely_reducing i dzero delta next in
  check_direction i dzero delta next = Ok (inl tt) -> check_new_position g i coin reducing next positions = Ok (inl tt) ->
  Z.of_nat (List.length positions) + 1 <= max_open_positions (g_limits g).
Proof.
  intros Hca Hno Hn He Hg Hz reducing Hd Hc. assert (reducing = false) as Hr.
  { destruct reducing eqn:E; [|done]. by apply reducing_parts in E as (? & _). }
  unfold check_direction in Hd. fold reducing in Hd. destruct (gi_reduce_only i || reducing_action i) eqn:Eo.
  { rewrite Hr in Hd. by apply cbind_passed in Hd as ([] & ? & _). }
  apply orb_false_iff in Eo as [Ero Era]. unfold reducing_action in Era. apply bool_decide_eq_false in Era.
  assert (gi_action i = OPEN) as Ea by (destruct (gi_action i); set_solver).
  unfold check_new_position in Hc. rewrite (active_coins_all _ He) in Hc. cbn [lifted cbind goes_on] in Hc.
  rewrite Ea, Ero, Hr, Hz in Hc. rewrite bool_decide_eq_true_2 in Hc by done.
  rewrite bool_decide_eq_false_2 in Hc by (rewrite elem_of_list_to_set; by apply dict_get_None).
  apply requires_passed, negb_true_iff in Hc. cbn [negb andb] in Hc. apply Z.leb_gt in Hc.
  rewrite size_list_to_set in Hc by done. unfold dict_keys in Hc. rewrite length_fmap in Hc. lia.
Qed.

(** What the projection makes of a passed order. *)
Lemma apply_passed i positions coin mid size current : passed g i positions coin mid size current -> gi_action i <> NOOP -> gi_coin i = coin ->
  let next := dadd current (signed_delta (gi_side i) size) in
  exists p, pos_coin p = coin /\ pos_size p = Fin next /\
    apply_projection i positions = Ok (if dis_zero next then dict_del coin positions else dict_set coin p positions).
Proof.
  intros [_ _ _ _ Hside [Hsz Hpos] Hcur _] Hno Hcoin next. unfold apply_projection. rewrite bool_decide_eq_false_2 by done.
  rewrite Hsz, Hcoin, Hcur. cbn [pyltb mbind res_bind]. change (dltb dzero size) with (dpos size). rewrite Hpos. cbn [negb].
  assert ((if String.eqb (gi_side i) "buy" then Fin size else pyneg (Fin size)) = Fin (signed_delta (gi_side i) size)) as ->
    by (unfold signed_delta; by destruct (String.eqb _ _)).
  cbn [pyadd mbind res_bind pytruthy]. fold next. rewrite negb_involutive.
  eexists (MkPosition coin (Fin next) _ _ _). split; [done|]. split; [done|]. by destruct (dis_zero next).
Qed.

Lemma position_sizes_del coin positions : position_sizes (dict_del coin positions) = dict_del coin (position_sizes positions).
Proof.
  unfold position_sizes, dict_del. induction positions as [|kp l IH]; [done|]. rewrite fmap_cons. cbn [List.filter fst].
  destruct (negb (bool_decide (kp.1 = coin))); [rewrite fmap_cons|]; by rewrite IH.
Qed.

Lemma position_sizes_set coin p next positions : pos_size p = Fin next -> fits next ->
  Forall2 (fun a b => a.1 = b.1 /\ same a.2 b.2) (dict_set coin next (position_sizes positions)) (position_sizes (dict_set coin p positions)).
Proof.
  intros Hp Hf. assert (forall l : dict dec, Forall2 (fun a b => a.1 = b.1 /\ same a.2 b.2) l l) as Hrefl.
  { intros l. apply list.Forall_Forall2_diag. apply list.Forall_true. intros kv. split; [done|reflexivity]. }
  induction positions as [|[k q] l IH]; unfold position_sizes in *; cbn [dict_set].
  - rewrite list_fmap_singleton. constructor; [|constructor]. cbn [fst snd]. rewrite Hp. split; [done|]. symmetry. by apply dadd_zero_same.
  - rewrite fmap_cons. cbn [dict_set fst snd]. destruct (decide (coin = k)) as [<-|Hne]; rewrite fmap_cons.
    + constructor; [|apply Hrefl]. cbn [fst snd]. rewrite Hp. split; [done|]. symmetry. by apply dadd_zero_same.
    + constructor; [split; [done|reflexivity]|]. exact IH.
Qed.

(** The gross exposure after a passed order is inside its cap. *)
Lemma gross_after positions coin next reducing gross : NoDup (dict_keys positions) -> Forall (entry_ok g) positions ->
  projected_gross g (position_sizes positions) = Ok (inl gross) -> (dval gross <= dval (max_gross_exposure_usd (g_risk g)))%Q ->
  projected_gross_decision g coin next positions reducing = Ok (inl tt) ->
  exists gross', projected_gross g (if dis_zero next then dict_del coin (position_sizes positions) else dict_set coin next (position_sizes positions)) = Ok (inl gross') /\
    (dval gross' <= dval (max_gross_exposure_usd (g_risk g)))%Q.
Proof.
  intros Hn He Hg Hcap. unfold projected_gross_decision. rewrite projected_sizes_eq by done. cbn [cbind goes_on].
  intros (gross' & Hg' & H)%cbind_passed. apply cbind_passed in H as (cur & Hcur & H%requires_passed). exists gross'. split; [done|].
  apply negb_true_iff, andb_false_iff in H as [H|H]; [by apply dltb_false in H|]. apply negb_false_iff, andb_true_iff in H as [-> Hlt].
  apply dltb_spec in Hlt. assert (same gross cur) as Hs by (eapply (current_gross_same _ He dzero dzero); [reflexivity|exact Hg|exact Hcur]).
  unfold same in Hs. lra.
Qed.

(** A passed order leaves the portfolio inside its limits. *)
Lemma passed_within i positions coin mid size current : passed g i positions coin mid size current ->
  gi_action i <> NOOP -> gi_action i <> CANCEL -> gi_coin i = coin -> within g positions ->
  exists positions', apply_projection i positions = Ok positions' /\ within g positions'.
Proof.
  intros Hp Hno Hca Hcoin [Hn He Hcnt (gross & Hg & Hcap)].
  destruct (apply_passed _ _ _ _ _ _ Hp Hno Hcoin) as (p & Hpc & Hps & ->). pose proof Hp as [_ _ [Hc Hal] Hmid _ [_ _] Hcur Hchecks].
  cbv zeta in Hchecks. set (delta := signed_delta (gi_side i) size) in *. set (next := dadd current delta) in *. rewrite Hcoin in Hc.
  set (reducing := genuinely_reducing i current delta next) in *. destruct Hchecks as (Hdir & Hnew & _ & Hpn & Hgr).
  destruct (gross_after _ _ _ _ _ Hn He Hg Hcap Hgr) as (gross' & Hg' & Hcap'). eexists. split; [done|].
  assert (fits next) as Hfit by apply dadd_fits.
  destruct (dis_zero next) eqn:Ez.
  - split; [by apply dict_del_NoDup| | |rewrite position_sizes_del; by exists gross'].
    + rewrite list.Forall_forall in He |- *. intros kp [Hkp _]%dict_del_in. by apply He.
    + pose proof (dict_del_length coin positions). lia.
  - split; [by apply dict_set_NoDup| | |].
    + rewrite list.Forall_forall in He |- *. intros [k v] [E|Hkp]%dict_set_in; [injection E as -> ->|by apply He].
      split; [done|]. split; [done|]. split; [done|]. exists next, mid. split; [done|]. split; [done|]. split; [done|]. split; [done|].
      unfold check_projected_notional in Hpn. apply requires_passed, negb_true_iff, andb_false_iff in Hpn as [H|H]; [by apply dltb_false in H|].
      apply negb_false_iff, andb_true_iff in H as [Hr Hlt]. apply reducing_parts in Hr as (Hz & _). apply dltb_spec in Hlt.
      destruct (position_in positions coin current Hn ltac:(by apply list.Forall_forall) Hcur Hz) as (q & mid' & _ & Hm & Hle).
      rewrite Hmid in Hm. injection Hm as <-. lra.
    + destruct (dict_get coin positions) as [q|] eqn:Eq.
      * pose proof (f_equal (@List.length string) (dict_set_present coin p q positions Eq)) as Hl. unfold dict_keys in Hl. rewrite !length_fmap in Hl. lia.
      * rewrite dict_set_absent, length_app by done. cbn [List.length].
        assert (current = dzero) as -> by (apply absent_is_flat in Eq; congruence).
        pose proof (new_position_room i coin delta next positions Hca Hno Hn He Eq Ez Hdir Hnew). lia.
    + destruct (gross_same _ _ (position_sizes_set coin p next positions Hps Hfit) dzero dzero gross' ltac:(reflexivity) Hg') as (gr & Hgr' & Hs).
      exists gr. split; [exact Hgr'|]. unfold same in Hs. lra.
Qed.
End Limits.

(** * A cycle *)

(** The orders of a cycle in turn: each is checked against the projection, and projected when
    it was sent and filled. *)
Fixpoint run_cycle (g : ExecutionGuard) (orders : list (GuardIntent * bool * Z)) (positions : dict RawPosition) : res (dict RawPosition) :=
  match orders with
  | [] => Ok positions
  | (i, filled, now) :: rest =>
      d ← check_intent g i positions now;
      positions' ← (if gd_ok d && (filled : bool) then apply_projection i positions else Ok positions);
      run_cycle g rest positions'
  end.

(** What the guard promises of an order that it passes. *)
Definition order_safe (g : ExecutionGuard) (i : GuardIntent) (positions : dict RawPosition) : Prop :=
  exists coin mid size current, let delta := signed_delta (gi_side i) size in let next := dadd current delta in
    has_dispatch_evidence_for_cloid (g_store g) (gi_cloid i) = false /\
    (forall id, intent_by_cloid (g_store g) (gi_cloid i) = Some id -> id = gi_intent_id i) /\
    canonical_market_symbol (JStr (gi_coin i)) = Ok coin /\ coin ∈ allowlist g /\ mid_of g coin = Some mid /\
    gi_size i = Fin size /\ (0 < dval size)%Q /\ pos_size (position_at coin positions) = Fin current /\
    (gi_reduce_only i = true \/ gi_action i = REDUCE \/ gi_action i = CLOSE ->
       dis_zero current = false /\ (dval (dabs next) < dval (dabs current))%Q /\ (dis_zero next = true \/ dpos next = dpos current) /\
       (gi_action i = CLOSE -> dis_zero next = true)) /\
    (gi_reduce_only i = false -> gi_action i = OPEN -> dis_zero current = true \/ dpos delta = dpos current) /\
    ((10 <= dval (dmul size mid))%Q \/ dis_zero next = true) /\
    ((dval (dmul size mid) <= dval (max_notional_usd (g_risk g)))%Q \/ (dval (dabs next) < dval (dabs current))%Q).

Lemma passed_safe g i positions coin mid size current : passed g i positions coin mid size current -> order_safe g i positions.
Proof.
  intros [Hf Ho [Hc Ha] Hm _ [Hs Hp] Hcur Hchecks]. exists coin, mid, size, current. cbv zeta in Hchecks |- *.
  destruct Hchecks as (Hdir & _ & Hnot & _). apply dpos_spec in Hp. split_and!; try done.
  - intros Hr. assert (gi_reduce_only i || reducing_action i = true) as E.
    { apply orb_true_iff. destruct Hr as [->|Hr]; [by left|right]. apply bool_decide_eq_true. destruct Hr as [->| ->]; set_solver. }
    unfold check_direction in Hdir. rewrite E in Hdir. apply cbind_passed in Hdir as ([] & Hg%requires_passed & Hcl%requires_passed).
    apply reducing_parts in Hg as (H1 & H2 & H3). split; [done|]. split; [done|]. split; [done|]. intros Hac. rewrite bool_decide_eq_true_2 in Hcl by done.
    by apply negb_true_iff, negb_false_iff in Hcl.
  - intros Hr Hac. unfold check_direction in Hdir. assert (reducing_action i = false) as E by (unfold reducing_action; apply bool_decide_eq_false; rewrite Hac; set_solver).
    rewrite Hr, E in Hdir. apply requires_passed, negb_true_iff in Hdir. rewrite bool_decide_eq_true_2 in Hdir by done. cbn [andb] in Hdir.
    apply andb_false_iff in Hdir as [H|H]; apply negb_false_iff in H; [by left|right; by apply eqb_prop].
  - unfold check_notional in Hnot. apply cbind_passed in Hnot as ([] & H%requires_passed & _). apply negb_true_iff, andb_false_iff in H as [H|H].
    + left. by apply dltb_false in H.
    + right. by apply negb_false_iff, andb_true_iff in H as [_ H].
  - unfold check_notional in Hnot. apply cbind_passed in Hnot as ([] & _ & H%requires_passed). apply negb_true_iff, andb_false_iff in H as [H|H].
    + left. by apply dltb_false in H.
    + right. by apply negb_false_iff, reducing_parts in H as (_ & _ & H).
Qed.

(** C29. What the guard passes keeps every limit.  Start from a portfolio inside its limits: one
    open position per allowed and priced market, none above the cap of a position, no more
    of them than permitted, and their gross inside its cap.  Then whatever orders a cycle
    checks, whichever of those that pass are filled, the projected portfolio is inside the
    same limits at the end, the absolute values of its positions together too, and the
    projection itself never fails.  And every single order
    that passes was not sent before and is not another's, is at least the exchange's minimum
    unless it closes exactly, is no larger than the cap unless it reduces, takes a position
    strictly towards zero and not past it when it is meant to reduce, and never against it
    when it opens. *)
Theorem guarded_cycle_keeps_limits g positions orders :
  within g positions ->
  Forall (fun x => canonical_market_symbol (JStr (gi_coin x.1.1)) = Ok (gi_coin x.1.1) /\ gi_action x.1.1 <> CANCEL) orders ->
  (forall positions', run_cycle g orders positions = Ok positions' ->
     within g positions' /\ (dval (book_worth g positions') <= dval (max_gross_exposure_usd (g_risk g)))%Q) /\
  (forall i now d, gi_action i <> NOOP -> check_intent g i positions now = Ok d -> gd_ok d = true -> order_safe g i positions) /\
  (forall i filled now d rest, orders = (i, filled, now) :: rest -> check_intent g i positions now = Ok d -> gd_ok d = true ->
     exists positions', apply_projection i positions = Ok positions').
Proof.
  intros Hw Ho.
  assert (forall i positions now d, canonical_market_symbol (JStr (gi_coin i)) = Ok (gi_coin i) -> gi_action i <> CANCEL -> within g positions ->
    check_intent g i positions now = Ok d -> gd_ok d = true -> exists positions', apply_projection i positions = Ok positions' /\ within g positions') as Hstep.
  { intros i P now d Hcan Hca Hp Hd Hok. destruct (decide (gi_action i = NOOP)) as [Hn|Hn].
    - exists P. split; [|done]. unfold apply_projection. by rewrite bool_decide_eq_true_2.
    - destruct (check_intent_passed _ _ _ _ _ Hn Hd Hok) as (coin & mid & size & current & Hpa).
      apply (passed_within g i P coin mid size current); try done. pose proof (pa_coin _ _ _ _ _ _ _ Hpa) as [Hc _]. congruence. }
  split; [|split].
  - enough (forall positions', run_cycle g orders positions = Ok positions' -> within g positions') as Hall.
    { intros positions' H. pose proof (Hall _ H) as Hw'. split; [done|by apply within_exposure]. }
    revert positions Hw. induction Ho as [|[[i filled] now] rest [Hcan Hca] _ IH]; intros positions Hw positions'; [by intros [= <-]|].
    cbn [run_cycle]. intros (d & Hd & H)%bind_Ok. apply bind_Ok in H as (P1 & HP1 & H). apply (IH P1); [|done].
    destruct (gd_ok d && filled) eqn:E; [|by injection HP1 as <-]. apply andb_true_iff in E as [Hok _].
    destruct (Hstep i positions now d Hcan Hca Hw Hd Hok) as (P2 & HP2 & Hw2). congruence.
  - intros i now d Hn Hd Hok. destruct (check_intent_passed _ _ _ _ _ Hn Hd Hok) as (coin & mid & size & current & Hpa). by eapply passed_safe.
  - intros i filled now d rest -> Hd Hok. apply list.Forall_cons in Ho as [[Hcan Hca] _].
    destruct (Hstep i positions now d Hcan Hca Hw Hd Hok) as (P2 & HP2 & _). by exists P2.
Qed.

(** * A follower with one position *)

Module Example.

Definition risk : RiskConfig :=
  MkRisk ["BTC"; "ETH"] ALLOWLIST [] (Fin (Dec false 1 (-1))) None false None None (Fin (dint 1)) (dint 250) (dint 400) 3 (Dec false 1 (-4))
    (dint 20) (dint 300) (dint 100).
Definition limits : GuardLimits := MkGuardLimits 10 20 2 10000.
Definition store (rows : list PendingRow) : GuardStore := MkGuardStore (fun _ => rows) (fun _ => None) (fun _ => false).
Definition guard : ExecutionGuard :=
  MkGuard risk limits (store []) [("BTC", MkMeta "BTC" 2 (Some 40)); ("ETH", MkMeta "ETH" 2 (Some 25))] [("BTC", Fin (dint 100)); ("ETH", Fin (dint 50))]
    (Some TESTNET) ["BTC"; "ETH"].

Definition portfolio : dict RawPosition := [("BTC", MkPosition "BTC" (Fin (dint 2)) None (Some 3) 1000)].

Definition order (cloid : string) (action : IntentAction) (coin side : string) (size price : Z) (reduce_only : bool) : GuardIntent :=
  MkGuardIntent cloid cloid action coin side (Fin (dint size)) (Some (Fin (dint price))) reduce_only "copy" PENDING (JObj []).

Definition orders : list (GuardIntent * bool * Z) :=
  [(order "a" OPEN "ETH" "sell" 3 50 false, true, 1000); (order "b" OPEN "BTC" "buy" 1 100 false, true, 1000); (order "c" REDUCE "BTC" "sell" 1 100 true, true, 1000)].

End Example.

Lemma example_within : within Example.guard Example.portfolio.
Proof.
  split.
  - apply NoDup_singleton.
  - constructor; [|constructor]. split; [vm_compute; reflexivity|]. split; [done|]. split; [by left|].
    exists (dint 2), (dint 100). split; [done|]. split; [vm_compute; discriminate|]. split; [done|]. split; [vm_compute; reflexivity|vm_compute; discriminate].
  - vm_compute. discriminate.
  - eexists. split; [vm_compute; reflexivity|vm_compute; discriminate].
Qed.

(** The short position is opened, the addition exceeds the cap of a position, the reduction passes. *)
Lemma guarded_cycle_keeps_limits_witness : exists positions',
  run_cycle Example.guard Example.orders Example.portfolio = Ok positions' /\ within Example.guard positions' /\
  (pos_size <$> dict_get "BTC" positions') = Some (Fin (dint 1)) /\ (pos_size <$> dict_get "ETH" positions') = Some (Fin (dint (-3))).
Proof.
  destruct (guarded_cycle_keeps_limits Example.guard Example.portfolio Example.orders example_within) as (Hw & _ & _).
  { repeat (constructor; [split; [vm_compute; reflexivity|discriminate]|]). constructor. }
  assert (exists r, run_cycle Example.guard Example.orders Example.portfolio = Ok r /\ (pos_size <$> dict_get "BTC" r) = Some (Fin (dint 1)) /\
    (pos_size <$> dict_get "ETH" r) = Some (Fin (dint (-3)))) as (r & Hr & H1 & H2).
  { eexists. split; [vm_compute; reflexivity|]. split; vm_compute; reflexivity. }
  exists r. split; [exact Hr|]. split; [exact (proj1 (Hw r Hr))|]. split; [exact H1|exact H2].
Defined.

(** An unresolved opening whose size cannot be read does not consume capacity: the exception of
    [parse_decimal] is not one of those the count catches, and the cycle is not decided at all. *)
Lemma unreadable_size_raises :
  check_cycle (MkGuard Example.risk Example.limits (Example.store [MkPendingRow "open" (Some (JObj [("size", JStr "1,5")]))]) [] [] None []) false [] =
    Raise (ArithmeticError "InvalidOperation") /\
  check_cycle (MkGuard Example.risk Example.limits (Example.store [MkPendingRow "open" None]) [] [] None []) false [] = Ok passes.
Proof. split; vm_compute; reflexivity. Qed.
