(* ===== verification/ActionJournal.v ===== *)
(** action_journal.py: the durable nonce and action journal.

    The database is a record of its two tables: [signer_nonce], keyed by lane
    (follower account, API wallet), and [actions], keyed by client order id.  A
    row holds sizes as the text the code stores.  [transaction] is
    BEGIN IMMEDIATE ... COMMIT / ROLLBACK: a body that raises leaves the tables
    as they were; the process-wide lock and SQLite's write lock serialise the
    transactions, so a run is a sequence of operations.  The wall clock is the
    argument [now].  Opening, closing and creating the file are not modelled. *)

From S2P Require Import Prelude PyDecimal DecimalFacts PyText TextFacts JsonSyntax Models.
From Stdlib Require Import QArith.

Open Scope Z_scope.

(** * Data *)

Inductive ActionState :=
  | PREPARED | SEND_ATTEMPTED | NOT_SENT | UNKNOWN | AS_REJECTED | RESTING
  | PARTIALLY_FILLED | FILLED | CANCELED.

#[export] Instance ActionState_eq_dec : EqDecision ActionState.
Proof. solve_decision. Defined.

Definition TERMINAL_STATES : list ActionState :=
  [NOT_SENT; AS_REJECTED; PARTIALLY_FILLED; FILLED; CANCELED].
Definition RECOVERY_STATES : list ActionState := [PREPARED; SEND_ATTEMPTED; UNKNOWN; RESTING].
Definition AMBIGUOUS_STATES : list ActionState := [SEND_ATTEMPTED; UNKNOWN].

(** A row of [actions], with the sizes in type [D]: text in the table, a number
    in an [ActionRecord]. *)
Record action_of (D : Type) := MkAction {
  cloid : string;
  follower_account : string;
  api_wallet : string;
  desired_id : string;
  market : string;
  attempt_no : Z;
  nonce : Z;
  requested_size : D;
  cumulative_filled_size : D;
  action_json : string;
  signed_payload_json : string;
  expires_after_ms : Z;
  request_id : string;
  state : ActionState;
  outcome_detail : option string;
  created_ms : Z;
  updated_ms : Z;
  send_attempted_ms : option Z;
  terminal_ms : option Z;
}.
Arguments MkAction {D}.
Arguments cloid {D}.
Arguments follower_account {D}.
Arguments api_wallet {D}.
Arguments desired_id {D}.
Arguments market {D}.
Arguments attempt_no {D}.
Arguments nonce {D}.
Arguments requested_size {D}.
Arguments cumulative_filled_size {D}.
Arguments action_json {D}.
Arguments signed_payload_json {D}.
Arguments expires_after_ms {D}.
Arguments request_id {D}.
Arguments state {D}.
Arguments outcome_detail {D}.
Arguments created_ms {D}.
Arguments updated_ms {D}.
Arguments send_attempted_ms {D}.
Arguments terminal_ms {D}.

Abbreviation ActionRow := (action_of string).
Abbreviation ActionRecord := (action_of dec).

#[export] Instance action_eq_dec {D} `{EqDecision D} : EqDecision (action_of D).
Proof. solve_decision. Defined.

Definition terminal (a : ActionRecord) : bool := bool_decide (state a ∈ TERMINAL_STATES).
Definition recovery_required (a : ActionRecord) : bool := bool_decide (state a ∈ RECOVERY_STATES).
Definition ambiguous (a : ActionRecord) : bool := bool_decide (state a ∈ AMBIGUOUS_STATES).
Definition provably_not_sent (a : ActionRecord) : bool := bool_decide (state a ∈ [PREPARED; NOT_SENT]).
Definition remaining_size (a : ActionRecord) : dec := dsub (requested_size a) (cumulative_filled_size a).

Abbreviation lane := (string * string)%type.

Record db := MkDb {
  signer_nonce : gmap lane (Z * Z);
  actions : gmap string ActionRow;
}.

Definition empty_db : db := MkDb ∅ ∅.

(** * Validation of arguments *)

Definition nonempty (value : string) : res string :=
  let s := py_strip value in
  if is_empty s then Raise (ValueError "must be a non-empty string") else Ok s.

Definition identity (value : string) : res string := py_lower <$> nonempty value.

Definition positive_int (value : Z) : res Z :=
  if value <=? 0 then Raise (ValueError "must be a positive integer") else Ok value.

(** A [Decimal | str | int] argument; [Decimal(str(d))] is [d]. *)
Inductive decimal_arg := ArgDecimal (d : pydec) | ArgText (s : string) | ArgInt (z : Z).

Definition nonnegative_decimal (value : decimal_arg) : res dec :=
  let parsed :=
    match value with
    | ArgDecimal d => Some d
    | ArgText s => decimal_of_string s
    | ArgInt z => Some (Fin (dint z))
    end in
  match parsed with
  | None => Raise (ValueError "must be a decimal")
  | Some (Fin d) => if dnegative d then Raise (ValueError "must be finite and non-negative") else Ok d
  | Some _ => Raise (ValueError "must be finite and non-negative")
  end.

Definition positive_decimal (value : decimal_arg) : res dec :=
  parsed ← nonnegative_decimal value;
  if deqb parsed dzero then Raise (ValueError "must be positive") else Ok parsed.

Definition decimal_wire (value : dec) : string := dec_to_fixed value.

Definition json_object (value : string) : res string :=
  if is_empty value then Raise (ValueError "must be a non-empty JSON string")
  else if negb (json_valid value) then Raise (ValueError "must contain valid JSON")
  else if negb (json_is_object value) then Raise (ValueError "must contain a JSON object")
  else Ok value.

(** * Rows and records *)

(** [Decimal(str(text))] *)
Definition stored_decimal (text : string) : res dec :=
  match decimal_of_string text with
  | Some (Fin d) => Ok d
  | _ => Raise (ArithmeticError "InvalidOperation")
  end.

Definition with_sizes {D E} (r : action_of D) (requested cumulative : E) : action_of E :=
  MkAction (cloid r) (follower_account r) (api_wallet r) (desired_id r) (market r) (attempt_no r)
    (nonce r) requested cumulative (action_json r) (signed_payload_json r) (expires_after_ms r)
    (request_id r) (state r) (outcome_detail r) (created_ms r) (updated_ms r)
    (send_attempted_ms r) (terminal_ms r).

(** [_record(row)] *)
Definition record_of (row : ActionRow) : res ActionRecord :=
  q ← stored_decimal (requested_size row);
  c ← stored_decimal (cumulative_filled_size row);
  Ok (with_sizes row q c).

(** [UPDATE actions SET state, cumulative, outcome_detail, request_id, updated_ms, send_attempted_ms, terminal_ms]
    on one row: a statement that leaves a column out passes the row's own value. *)
Definition update_row (row : ActionRow) (state' : ActionState) (cumulative : string)
    (detail : option string) (request : string) (updated : Z) (sent terminal : option Z) : ActionRow :=
  MkAction (cloid row) (follower_account row) (api_wallet row) (desired_id row) (market row)
    (attempt_no row) (nonce row) (requested_size row) cumulative (action_json row)
    (signed_payload_json row) (expires_after_ms row) request state' detail
    (created_ms row) updated sent terminal.

(** An integer bound as a parameter of a statement must fit 64 bits. *)
Definition sql_int (z : Z) : res Z :=
  if (- 2 ^ 63 <=? z) && (z <? 2 ^ 63) then Ok z else Raise (ArithmeticError "OverflowError").

Definition transaction {A} (body : db -> res (db * A)) (s : db) : db * res A :=
  match body s with
  | Ok (s', a) => (s', Ok a)
  | Raise e => (s, Raise e)
  end.

(** Run [k] when the arguments are valid. *)
Definition checked {A B} (v : res A) (k : A -> db -> db * res B) (s : db) : db * res B :=
  match v with Ok a => k a s | Raise e => (s, Raise e) end.

(** The row of [cloid], with its record. *)
Definition require_action (s : db) (id : string) : res (ActionRow * ActionRecord) :=
  match actions s !! id with
  | None => Raise (KeyError "unknown action CLOID")
  | Some row => r ← record_of row; Ok (row, r)
  end.

Definition put_action (s : db) (id : string) (row : ActionRow) : db :=
  MkDb (signer_nonce s) (<[id := row]> (actions s)).

(** Execute an UPDATE and read the row back. *)
Definition update_action (s : db) (id : string) (row : ActionRow) : res (db * ActionRecord) :=
  let s' := put_action s id row in
  rr ← require_action s' id; Ok (s', rr.2).

(** * Nonces *)

Definition reserve_nonce (follower wallet : string) (wall_ms : option Z) (now : Z) : db -> db * res Z :=
  checked (f ← identity follower; w ← identity wallet;
           c ← positive_int (default now wall_ms); Ok (f, w, c)) (fun '(f, w, candidate) =>
  transaction (fun s =>
    let n := match signer_nonce s !! (f, w) with
             | Some (last_nonce, _) => Z.max candidate (last_nonce + 1)
             | None => candidate
             end in
    n' ← sql_int n;
    updated ← sql_int now;
    if updated <=? 0 then Raise (IntegrityError "CHECK constraint failed") else
    Ok (MkDb (<[(f, w) := (n', updated)]> (signer_nonce s)) (actions s), n'))).

Definition last_nonce (follower wallet : string) (s : db) : res (option Z) :=
  f ← identity follower; w ← identity wallet;
  Ok (fst <$> signer_nonce s !! (f, w)).

(** * Attempts *)

(** The rows a [SELECT] over the table ranges over, in the order of the key. *)
Definition rows (s : db) : list ActionRow := (map_to_list (actions s)).*2.

Definition same_attempt (f w desired mkt : string) (r : ActionRow) : bool :=
  bool_decide (follower_account r = f) && bool_decide (api_wallet r = w) &&
  bool_decide (desired_id r = desired) && bool_decide (market r = mkt).

(** [COALESCE(MAX(attempt_no), 0)] *)
Definition last_attempt (f w desired mkt : string) (s : db) : Z :=
  fold_right Z.max 0 (attempt_no <$> filter (fun r => same_attempt f w desired mkt r = true) (rows s)).

Definition next_attempt_no (follower wallet desired mkt : string) (s : db) : res Z :=
  f ← identity follower; w ← identity wallet; d ← nonempty desired; m ← nonempty mkt;
  Ok (last_attempt f w d m s + 1).

Record prepare_args := MkPrepare {
  p_follower_account : string;
  p_api_wallet : string;
  p_desired_id : string;
  p_market : string;
  p_attempt_no : Z;
  p_cloid : string;
  p_nonce : Z;
  p_requested_size : decimal_arg;
  p_action_json : string;
  p_signed_payload_json : string;
  p_expires_after_ms : Z;
  p_request_id : string;
  p_created_ms : option Z;
}.

(** The row to insert, or the first argument error. *)
Definition prepared_row (a : prepare_args) (now : Z) : res ActionRow :=
  follower ← identity (p_follower_account a);
  wallet ← identity (p_api_wallet a);
  desired ← nonempty (p_desired_id a);
  canonical_market ← nonempty (p_market a);
  normalized_cloid ← validate_cloid (p_cloid a);
  attempt ← positive_int (p_attempt_no a);
  reserved_nonce ← positive_int (p_nonce a);
  size ← positive_decimal (p_requested_size a);
  exact_action ← json_object (p_action_json a);
  exact_payload ← json_object (p_signed_payload_json a);
  request ← nonempty (p_request_id a);
  created ← positive_int (default now (p_created_ms a));
  expires ← positive_int (p_expires_after_ms a);
  if expires <=? created then Raise (ValueError "expires_after_ms must be later than created_ms")
  else Ok (MkAction normalized_cloid follower wallet desired canonical_market attempt reserved_nonce
             (decimal_wire size) "0" exact_action exact_payload expires request PREPARED None
             created created None None).

(** The constraints of the table that an INSERT can violate. *)
Definition conflicts (s : db) (row : ActionRow) : bool :=
  bool_decide (is_Some (actions s !! cloid row)) ||
  existsb (fun r =>
    bool_decide (follower_account r = follower_account row) && bool_decide (api_wallet r = api_wallet row) &&
    (bool_decide (nonce r = nonce row) ||
     (bool_decide (desired_id r = desired_id row) && bool_decide (market r = market row) &&
      bool_decide (attempt_no r = attempt_no row)))) (rows s).

Definition prepare_action (a : prepare_args) (now : Z) : db -> db * res ActionRecord :=
  checked (prepared_row a now) (fun row =>
  transaction (fun s =>
    match signer_nonce s !! (follower_account row, api_wallet row) with
    | Some (last, _) =>
        if negb (nonce row =? last)
        then Raise (ValueError "nonce is not the latest durable reservation for this signer lane") else
        let expected := last_attempt (follower_account row) (api_wallet row) (desired_id row) (market row) s + 1 in
        if negb (attempt_no row =? expected)
        then Raise (ValueError "attempt_no must be the next durable attempt") else
        _ ← map_res sql_int [attempt_no row; nonce row; expires_after_ms row; created_ms row];
        if conflicts s row
        then Raise (ValueError "CLOID, signer nonce, or durable attempt is already journaled")
        else update_action s (cloid row) row
    | None => Raise (ValueError "nonce is not the latest durable reservation for this signer lane")
    end)).

(** * Queries *)

Definition get_action (id : string) (s : db) : res (option ActionRecord) :=
  c ← validate_cloid id;
  match actions s !! c with
  | None => Ok None
  | Some row => Some <$> record_of row
  end.

Definition get_owned_action (id follower wallet : string) (s : db) : res (option ActionRecord) :=
  c ← validate_cloid id; f ← identity follower; w ← identity wallet;
  match actions s !! c with
  | Some row =>
      if bool_decide (follower_account row = f) && bool_decide (api_wallet row = w)
      then Some <$> record_of row else Ok None
  | None => Ok None
  end.

Definition owns_cloid (id follower wallet : string) (s : db) : res bool :=
  o ← get_owned_action id follower wallet s; Ok (bool_decide (o <> None)).

(** * Transitions of one action *)

Definition mark_send_attempted (id : string) (request : option string) (observed_ms : option Z) (now : Z)
    : db -> db * res ActionRecord :=
  checked (c ← validate_cloid id; o ← positive_int (default now observed_ms);
           r ← match request with None => Ok None | Some r => Some <$> nonempty r end;
           Ok (c, o, r)) (fun '(c, observed, correlated_request_id) =>
  transaction (fun s =>
    '(row, current) ← require_action s c;
    if negb (bool_decide (state current = PREPARED))
    then Raise (ValueError "send may be attempted only from PREPARED") else
    o ← sql_int observed;
    update_action s c
      (update_row row SEND_ATTEMPTED (cumulative_filled_size row) (outcome_detail row)
         (default (request_id row) correlated_request_id) o (Some o) (terminal_ms row)))).

Definition mark_not_sent (id : string) (observed_ms : option Z) (now : Z) : db -> db * res ActionRecord :=
  checked (c ← validate_cloid id; o ← positive_int (default now observed_ms); Ok (c, o)) (fun '(c, observed) =>
  transaction (fun s =>
    '(row, current) ← require_action s c;
    if bool_decide (state current = NOT_SENT) then Ok (s, current) else
    if negb (bool_decide (state current = PREPARED))
    then Raise (ValueError "NOT_SENT is valid only from PREPARED") else
    o ← sql_int observed;
    update_action s c
      (update_row row NOT_SENT (cumulative_filled_size row) (outcome_detail row) (request_id row)
         o (send_attempted_ms row) (Some o)))).

Definition validate_cumulative (current : ActionRecord) (cumulative : dec) : res unit :=
  if dltb cumulative (cumulative_filled_size current)
  then Raise (ValueError "cumulative fill cannot decrease") else
  if dltb (requested_size current) cumulative
  then Raise (ValueError "cumulative fill cannot exceed requested size") else Ok tt.

(** The table [allowed] of [_validate_outcome]. *)
Definition allowed_targets (current : ActionState) : list ActionState :=
  match current with
  | SEND_ATTEMPTED | UNKNOWN => [UNKNOWN; AS_REJECTED; RESTING; PARTIALLY_FILLED; FILLED; CANCELED]
  | RESTING => [UNKNOWN; RESTING; PARTIALLY_FILLED; FILLED; CANCELED]
  | PARTIALLY_FILLED => [PARTIALLY_FILLED; FILLED]
  | AS_REJECTED => [AS_REJECTED]
  | FILLED => [FILLED]
  | CANCELED => [CANCELED]
  | PREPARED | NOT_SENT => []
  end.

Definition validate_outcome (current : ActionRecord) (target : ActionState) (cumulative : dec) : res unit :=
  let complete := deqb cumulative (requested_size current) in
  if negb (bool_decide (target ∈ allowed_targets (state current)))
  then Raise (ValueError "invalid action transition") else
  if bool_decide (target = FILLED) && negb complete
  then Raise (ValueError "FILLED requires cumulative fill equal to requested size") else
  if bool_decide (target = PARTIALLY_FILLED) &&
     negb (dltb dzero cumulative && dltb cumulative (requested_size current))
  then Raise (ValueError "PARTIALLY_FILLED requires a positive incomplete cumulative fill") else
  if bool_decide (target ∈ [AS_REJECTED; CANCELED]) && negb (deqb cumulative dzero)
  then Raise (ValueError "outcome with a fill must be PARTIALLY_FILLED") else
  if bool_decide (target ∈ [UNKNOWN; RESTING]) && complete
  then Raise (ValueError "outcome cannot retain a complete fill") else Ok tt.

(** [detail.strip() or None] *)
Definition normalize_detail (detail : option string) : option string :=
  d ← detail; let s := py_strip d in if is_empty s then None else Some s.

Definition record_outcome (id : string) (target : ActionState) (cumulative_arg : option decimal_arg)
    (detail : option string) (observed_ms : option Z) (now : Z) : db -> db * res ActionRecord :=
  checked (c ← validate_cloid id;
           if negb (bool_decide (target ∈ [UNKNOWN; AS_REJECTED; RESTING; PARTIALLY_FILLED; FILLED; CANCELED]))
           then Raise (ValueError "not a venue outcome") else
           o ← positive_int (default now observed_ms); Ok (c, o)) (fun '(c, observed) =>
  let normalized_detail := normalize_detail detail in
  transaction (fun s =>
    '(row, current) ← require_action s c;
    cumulative ← match cumulative_arg with
                 | None => Ok (cumulative_filled_size current)
                 | Some a => nonnegative_decimal a
                 end;
    validate_cumulative current cumulative ;;
    validate_outcome current target cumulative ;;
    if bool_decide (target = state current) && deqb cumulative (cumulative_filled_size current) &&
       bool_decide (normalized_detail = outcome_detail current)
    then Ok (s, current)
    else
      let terminal' :=
        if bool_decide (target ∈ TERMINAL_STATES) then
          match terminal_ms current with None => Some observed | t => t end
        else terminal_ms current in
      o ← sql_int observed;
      update_action s c
        (update_row row target (decimal_wire cumulative) normalized_detail (request_id row)
           o (send_attempted_ms row) terminal'))).

Definition mark_unknown (id : string) (detail : option string) (observed_ms : option Z) (now : Z)
    : db -> db * res ActionRecord :=
  record_outcome id UNKNOWN None detail observed_ms now.

Definition record_cumulative_fill (id : string) (cumulative_arg : decimal_arg) (observed_ms : option Z) (now : Z)
    : db -> db * res ActionRecord :=
  checked (c ← validate_cloid id; q ← nonnegative_decimal cumulative_arg;
           o ← positive_int (default now observed_ms); Ok (c, q, o)) (fun '(c, cumulative, observed) =>
  transaction (fun s =>
    '(row, current) ← require_action s c;
    validate_cumulative current cumulative ;;
    if deqb cumulative (cumulative_filled_size current) then Ok (s, current) else
    match send_attempted_ms current with
    | None => Raise (ValueError "a provably unsent action cannot have a fill")
    | Some _ =>
        let finish := match terminal_ms current with
                      | Some t => if t =? 0 then Some observed else Some t
                      | None => Some observed
                      end in
        let '(target, terminal') :=
          if deqb cumulative (requested_size current) then (FILLED, finish)
          else if bool_decide (state current ∈ [AS_REJECTED; CANCELED; PARTIALLY_FILLED])
          then (PARTIALLY_FILLED, finish)
          else (state current, terminal_ms current) in
        o ← sql_int observed;
        update_action s c
          (update_row row target (decimal_wire cumulative) (outcome_detail row) (request_id row)
             o (send_attempted_ms row) terminal')
    end)).

(** * Recovery *)

Definition created_cloid_leb (a b : ActionRow) : bool :=
  tuple_leb Z.leb str_leb (created_ms a, cloid a) (created_ms b, cloid b).

Definition in_lane (l : option lane) (r : ActionRow) : bool :=
  match l with
  | None => true
  | Some (f, w) => bool_decide (follower_account r = f) && bool_decide (api_wallet r = w)
  end.

Definition recovery_actions (follower wallet : option string) (s : db) : res (list ActionRecord) :=
  l ← match follower, wallet with
      | None, None => Ok None
      | Some f, Some w => f' ← identity f; w' ← identity w; Ok (Some (f', w'))
      | _, _ => Raise (ValueError "follower_account and api_wallet must be filtered together")
      end;
  map_res record_of
    (py_sorted created_cloid_leb
       (filter (fun r => bool_decide (state r ∈ RECOVERY_STATES) && in_lane l r = true) (rows s))).

Definition recent_send_attempts (follower wallet : string) (after_ms : Z) (s : db) : res (list Z) :=
  f ← identity follower; w ← identity wallet;
  if after_ms <? 0 then Raise (ValueError "after_ms must be a non-negative integer") else
  after ← sql_int after_ms;
  let sent := omap (fun r =>
    if in_lane (Some (f, w)) r then
      match send_attempted_ms r with
      | Some t => if after <? t then Some (t, cloid r) else None
      | None => None
      end
    else None) (rows s) in
  Ok (py_sorted (tuple_leb Z.leb str_leb) sent).*1.
