(* ===== verification/JournalFacts.v ===== *)
(** Properties of ActionJournal.v: runs of operations, the invariant of the
    tables, what an action's row may go through, nonces, and recovery. *)

From S2P Require Import Prelude PyDecimal DecimalFacts PyText TextFacts JsonSyntax Models ActionJournal.
From Stdlib Require Import QArith Lqa.

Open Scope Z_scope.

(** * Runs *)

Inductive op :=
  | OpReserve (follower wallet : string) (wall_ms : option Z) (now : Z)
  | OpPrepare (a : prepare_args) (now : Z)
  | OpSendAttempted (id : string) (request : option string) (observed_ms : option Z) (now : Z)
  | OpNotSent (id : string) (observed_ms : option Z) (now : Z)
  | OpOutcome (id : string) (target : ActionState) (cumulative : option decimal_arg) (detail : option string)
      (observed_ms : option Z) (now : Z)
  | OpFill (id : string) (cumulative : decimal_arg) (observed_ms : option Z) (now : Z).

(** The tables after an operation, whether it returned or raised. *)
Definition apply_op (o : op) (s : db) : db :=
  match o with
  | OpReserve f w wall now => (reserve_nonce f w wall now s).1
  | OpPrepare a now => (prepare_action a now s).1
  | OpSendAttempted id r obs now => (mark_send_attempted id r obs now s).1
  | OpNotSent id obs now => (mark_not_sent id obs now s).1
  | OpOutcome id t c d obs now => (record_outcome id t c d obs now s).1
  | OpFill id c obs now => (record_cumulative_fill id c obs now s).1
  end.

Definition run (ops : list op) (s : db) : db := fold_left (fun s o => apply_op o s) ops s.

Definition reachable (s : db) : Prop := exists ops, s = run ops empty_db.

Lemma run_ind (P : db -> Prop) ops s :
  (forall o s, P s -> P (apply_op o s)) -> P s -> P (run ops s).
Proof. intros H. revert s. induction ops as [|o ops IH]; intros s Hs; [done|]. apply IH. auto. Qed.

(** * One operation *)

Lemma checked_cases {A B} (v : res A) (k : A -> db -> db * res B) s s' r :
  checked v k s = (s', r) ->
  (s' = s /\ exists e, r = Raise e) \/ exists a, v = Ok a /\ k a s = (s', r).
Proof. unfold checked. destruct v; [eauto|intros [= <- <-]; eauto]. Qed.

Lemma transaction_cases {A} (body : db -> res (db * A)) s s' r :
  transaction body s = (s', r) ->
  (s' = s /\ exists e, r = Raise e) \/ exists x, body s = Ok (s', x) /\ r = Ok x.
Proof. unfold transaction. destruct (body s) as [[s2 x]|e]; intros [= <- <-]; eauto. Qed.

Lemma require_action_Ok s id row r :
  require_action s id = Ok (row, r) <-> actions s !! id = Some row /\ record_of row = Ok r.
Proof.
  unfold require_action. destruct (actions s !! id) as [row'|]; [|split; [done|by intros [? _]]]. split.
  - intros (r' & Hr & [= <- <-])%bind_Ok. done.
  - intros [[= ->] Hr]. by rewrite Hr.
Qed.

Lemma update_action_Ok s id row s' r :
  update_action s id row = Ok (s', r) <-> s' = put_action s id row /\ record_of row = Ok r.
Proof.
  unfold update_action, require_action. cbn [put_action actions]. rewrite lookup_insert_eq. split.
  - intros ([row' r'] & (r2 & Hr & [= <- <-])%bind_Ok & [= <- <-])%bind_Ok. done.
  - intros [-> Hr]. by rewrite Hr.
Qed.

(** * The invariant *)

Definition sizes (row : ActionRow) (q c : dec) : Prop :=
  stored_decimal (requested_size row) = Ok q /\ stored_decimal (cumulative_filled_size row) = Ok c.

Definition state_ok (st : ActionState) (sent term : option Z) (q c : Q) : Prop :=
  match st with
  | PREPARED => sent = None /\ term = None /\ c == 0
  | NOT_SENT => sent = None /\ is_Some term /\ c == 0
  | SEND_ATTEMPTED | UNKNOWN | RESTING => is_Some sent /\ term = None /\ c < q
  | PARTIALLY_FILLED => is_Some sent /\ is_Some term /\ 0 < c /\ c < q
  | FILLED => is_Some sent /\ is_Some term /\ c == q
  | AS_REJECTED | CANCELED => is_Some sent /\ is_Some term /\ c == 0
  end%Q.

Record row_ok (row : ActionRow) : Prop := {
  ro_sizes : exists q c, sizes row q c /\ (0 < dval q)%Q /\ (0 <= dval c <= dval q)%Q /\
    state_ok (state row) (send_attempted_ms row) (terminal_ms row) (dval q) (dval c);
  ro_terminal : forall t, terminal_ms row = Some t -> 0 < t;
}.

(** What may change in a row. *)
Record evolves (row row' : ActionRow) : Prop := {
  ev_identity : cloid row' = cloid row /\ follower_account row' = follower_account row /\
    api_wallet row' = api_wallet row /\ desired_id row' = desired_id row /\ market row' = market row /\
    attempt_no row' = attempt_no row /\ nonce row' = nonce row;
  ev_payload : requested_size row' = requested_size row /\ action_json row' = action_json row /\
    signed_payload_json row' = signed_payload_json row /\ expires_after_ms row' = expires_after_ms row /\
    created_ms row' = created_ms row;
  ev_fill : forall c, stored_decimal (cumulative_filled_size row) = Ok c ->
    exists c', stored_decimal (cumulative_filled_size row') = Ok c' /\ (dval c <= dval c')%Q;
  ev_terminal : state row ∈ TERMINAL_STATES -> state row' ∈ TERMINAL_STATES;
  ev_sent : forall t, send_attempted_ms row = Some t -> send_attempted_ms row' = Some t;
  ev_prepared : state row <> PREPARED -> state row' <> PREPARED;
  ev_not_sent : state row = NOT_SENT -> state row' = NOT_SENT;
}.

Lemma evolves_refl row : evolves row row.
Proof. split; try done. intros c Hc. exists c. split; [done|apply Qle_refl]. Qed.

Lemma evolves_trans a b c : evolves a b -> evolves b c -> evolves a c.
Proof.
  intros [I1 P1 F1 T1 S1 R1 N1] [I2 P2 F2 T2 S2 R2 N2]. split.
  - destruct I1 as (?&?&?&?&?&?&?), I2 as (?&?&?&?&?&?&?). split_and!; congruence.
  - destruct P1 as (?&?&?&?&?), P2 as (?&?&?&?&?). split_and!; congruence.
  - intros x Hx. destruct (F1 _ Hx) as (y & Hy & Hxy), (F2 y Hy) as (z & Hz & Hyz).
    exists z. split; [done|]. by eapply Qle_trans.
  - auto.
  - auto.
  - auto.
  - auto.
Qed.

Lemma stored_wire d : stored_decimal (decimal_wire d) = Ok (fixed_form d).
Proof. unfold stored_decimal, decimal_wire. by rewrite decimal_fixed_roundtrip. Qed.

Lemma nonnegative_decimal_pos a d : nonnegative_decimal a = Ok d -> (0 <= dval d)%Q.
Proof.
  unfold nonnegative_decimal. destruct (match a with ArgDecimal d => _ | _ => _ end) as [[x| |]|]; try done.
  destruct (dnegative x) eqn:E; [done|]. intros [= <-]. unfold dnegative in E. by apply dltb_false in E.
Qed.

Lemma positive_int_Ok z z' : positive_int z = Ok z' -> z' = z /\ 0 < z.
Proof. unfold positive_int. destruct (z <=? 0) eqn:E; [done|]. intros [= <-]. bool_prop. done. Qed.

Lemma sql_int_Ok z z' : sql_int z = Ok z' -> z' = z.
Proof. unfold sql_int. destruct (_ && _); [by intros [= <-]|done]. Qed.

Lemma record_of_sizes row q c : sizes row q c <-> record_of row = Ok (with_sizes row q c).
Proof.
  unfold sizes, record_of. split.
  - intros [H1 H2]. by rewrite H1, H2.
  - intros (q' & Hq & (c' & Hc & H)%bind_Ok)%bind_Ok. injection H as <- <-. done.
Qed.

Lemma record_of_Ok row r : record_of row = Ok r -> exists q c, sizes row q c /\ r = with_sizes row q c.
Proof.
  intros H. pose proof H as (q & Hq & (c & Hc & [= <-])%bind_Ok)%bind_Ok. by exists q, c.
Qed.

Lemma validate_cumulative_Ok r c :
  validate_cumulative r c = Ok tt ->
  (dval (cumulative_filled_size r) <= dval c <= dval (requested_size r))%Q.
Proof.
  unfold validate_cumulative. destruct (dltb c _) eqn:E1; [done|]. destruct (dltb _ c) eqn:E2; [done|].
  apply dltb_false in E1, E2. done.
Qed.

Lemma validate_outcome_Ok r t c sent term q :
  validate_outcome r t c = Ok tt -> q = requested_size r -> (0 <= dval c <= dval q)%Q ->
  is_Some sent -> (is_Some term <-> t ∈ TERMINAL_STATES) ->
  state_ok t sent term (dval q) (dval c) /\ t ∈ allowed_targets (state r).
Proof.
  intros H -> Hc Hsent Hterm. unfold validate_outcome in H. cbv zeta in H.
  destruct (bool_decide (t ∈ _)) eqn:Et; cbn [negb] in H; [|done].
  apply bool_decide_eq_true in Et. split; [|done].
  assert (t ∉ TERMINAL_STATES -> term = None) as Hnt.
  { intros Ht. destruct term; [|done]. destruct Ht. apply Hterm. eauto. }
  destruct t; cbn in H; try (destruct (state r); set_solver).
  - destruct (deqb c (requested_size r)) eqn:E; [done|]. apply deqb_false in E.
    split_and!; [done|apply Hnt; set_solver|]. destruct (Qle_lt_or_eq _ _ (proj2 Hc)); [done|]. by destruct E.
  - destruct (deqb c dzero) eqn:E; [|done]. apply deqb_spec in E.
    split_and!; [done|apply Hterm; set_solver|]. by rewrite E.
  - destruct (deqb c (requested_size r)) eqn:E; [done|]. apply deqb_false in E.
    split_and!; [done|apply Hnt; set_solver|]. destruct (Qle_lt_or_eq _ _ (proj2 Hc)); [done|]. by destruct E.
  - destruct (dltb dzero c) eqn:E1; [|done]. destruct (dltb c _) eqn:E2; [|done].
    apply dltb_spec in E1, E2. split_and!; [done|apply Hterm; set_solver|done|done].
  - destruct (deqb c (requested_size r)) eqn:E; [|done]. apply deqb_spec in E.
    split_and!; [done|apply Hterm; set_solver|done].
  - destruct (deqb c dzero) eqn:E; [|done]. apply deqb_spec in E.
    split_and!; [done|apply Hterm; set_solver|]. by rewrite E.
Qed.

(** * Every operation is one of four kinds of step *)

Inductive jstep (s : db) : db -> Prop :=
  | js_same : jstep s s
  | js_nonce l n u :
      (forall last v, signer_nonce s !! l = Some (last, v) -> last < n) ->
      jstep s (MkDb (<[l := (n, u)]> (signer_nonce s)) (actions s))
  | js_insert row u :
      signer_nonce s !! (follower_account row, api_wallet row) = Some (nonce row, u) ->
      attempt_no row = last_attempt (follower_account row) (api_wallet row) (desired_id row) (market row) s + 1 ->
      conflicts s row = false -> row_ok row -> state row = PREPARED ->
      jstep s (put_action s (cloid row) row)
  | js_update id row row' :
      actions s !! id = Some row -> (row_ok row -> evolves row row' /\ row_ok row') ->
      jstep s (put_action s id row').

Lemma reserve_inv f w wall now s s' r :
  reserve_nonce f w wall now s = (s', r) ->
  (s' = s /\ exists e, r = Raise e) \/
  exists f' w' n u, identity f = Ok f' /\ identity w = Ok w' /\ r = Ok n /\
    (forall last v, signer_nonce s !! (f', w') = Some (last, v) -> last < n) /\
    s' = MkDb (<[(f', w') := (n, u)]> (signer_nonce s)) (actions s).
Proof.
  unfold reserve_nonce. intros H.
  apply checked_cases in H as [?|([[f' w'] c] & Ev & H)]; [by left|].
  apply bind_Ok in Ev as (f2 & Hf & Ev). apply bind_Ok in Ev as (w2 & Hw & Ev).
  apply bind_Ok in Ev as (c2 & Hc & [= -> -> ->]).
  apply transaction_cases in H as [?|(n & Eb & ->)]; [by left|right].
  apply bind_Ok in Eb as (n' & Hn%sql_int_Ok & Eb). apply bind_Ok in Eb as (u & _ & Eb).
  destruct (u <=? 0); [done|]. injection Eb as <- <-. exists f', w', n', u. split_and!; try done.
  intros last v Hl. rewrite Hl in Hn. lia.
Qed.

Lemma prepared_row_Ok a now row :
  prepared_row a now = Ok row ->
  row_ok row /\ state row = PREPARED /\ send_attempted_ms row = None /\
  validate_cloid (p_cloid a) = Ok (cloid row) /\
  action_json row = p_action_json a /\ signed_payload_json row = p_signed_payload_json a /\
  exists size, positive_decimal (p_requested_size a) = Ok size /\ requested_size row = decimal_wire size /\
    cumulative_filled_size row = "0".
Proof.
  unfold prepared_row. intros H.
  apply bind_Ok in H as (f & _ & H). apply bind_Ok in H as (w & _ & H). apply bind_Ok in H as (d & _ & H).
  apply bind_Ok in H as (m & _ & H). apply bind_Ok in H as (c & Hc & H). apply bind_Ok in H as (at' & _ & H).
  apply bind_Ok in H as (n & _ & H). apply bind_Ok in H as (size & Hsize & H).
  apply bind_Ok in H as (ex & Hex & H). apply bind_Ok in H as (pay & Hpay & H).
  apply bind_Ok in H as (rq & _ & H). apply bind_Ok in H as (cr & _ & H). apply bind_Ok in H as (xp & _ & H).
  destruct (xp <=? cr); [done|]. injection H as <-. cbn.
  assert (forall j j', json_object j = Ok j' -> j' = j) as Hj.
  { intros j j'. unfold json_object. destruct (is_empty j), (negb (json_valid j)), (negb (json_is_object j));
      try done. by intros [= <-]. }
  apply Hj in Hex, Hpay. subst. split_and!; try done; [|by exists size].
  split; cbn; [|done]. exists (fixed_form size), dzero.
  assert (0 < dval (fixed_form size))%Q as Hpos.
  { rewrite fixed_form_val. unfold positive_decimal in Hsize. apply bind_Ok in Hsize as (x & Hx & Hs).
    destruct (deqb x dzero) eqn:E; [done|]. injection Hs as <-. apply nonnegative_decimal_pos in Hx.
    apply deqb_false in E. rewrite dval_zero in E. destruct (Qle_lt_or_eq _ _ Hx); [done|].
    destruct E. lra. }
  split; [split; [cbn; apply stored_wire|reflexivity]|]. split; [done|]. rewrite dval_zero. cbn.
  split_and!; try done; try lra.
Qed.

Lemma prepare_inv a now s s' r :
  prepare_action a now s = (s', r) ->
  (s' = s /\ exists e, r = Raise e) \/
  exists row rec u, prepared_row a now = Ok row /\ r = Ok rec /\ record_of row = Ok rec /\
    s' = put_action s (cloid row) row /\
    signer_nonce s !! (follower_account row, api_wallet row) = Some (nonce row, u) /\
    attempt_no row = last_attempt (follower_account row) (api_wallet row) (desired_id row) (market row) s + 1 /\
    conflicts s row = false.
Proof.
  unfold prepare_action. intros H. apply checked_cases in H as [?|(row & Hrow & H)]; [by left|].
  apply transaction_cases in H as [?|(rec & Hb & ->)]; [by left|right].
  destruct (signer_nonce s !! _) as [[last u]|] eqn:En; [|done].
  destruct (negb (nonce row =? last)) eqn:E1; [done|]. cbv zeta in Hb.
  destruct (negb (attempt_no row =? _)) eqn:E2; [done|].
  apply bind_Ok in Hb as (_ & _ & Hb). destruct (conflicts s row) eqn:Ec; [done|].
  apply update_action_Ok in Hb as [-> Hrec]. bool_prop. subst last.
  by exists row, rec, u.
Qed.

(** An update through [update_row] keeps identity and payload. *)
Lemma update_row_evolves row st c detail rq upd sent term q c0 c1 :
  sizes row q c0 -> stored_decimal c = Ok c1 -> (dval c0 <= dval c1)%Q ->
  (state row ∈ TERMINAL_STATES -> st ∈ TERMINAL_STATES) ->
  (forall t, send_attempted_ms row = Some t -> sent = Some t) ->
  (state row <> PREPARED -> st <> PREPARED) -> (state row = NOT_SENT -> st = NOT_SENT) ->
  evolves row (update_row row st c detail rq upd sent term).
Proof.
  intros [_ Hc0] Hc1 Hle HT HS HP HN. split; cbn; try done.
  intros c' Hc'. rewrite Hc0 in Hc'. injection Hc' as <-. by exists c1.
Qed.

Lemma update_row_ok row st c detail rq upd sent term q c1 :
  stored_decimal (requested_size row) = Ok q -> stored_decimal c = Ok c1 ->
  (0 < dval q)%Q -> (0 <= dval c1 <= dval q)%Q -> state_ok st sent term (dval q) (dval c1) ->
  (forall t, term = Some t -> 0 < t) ->
  row_ok (update_row row st c detail rq upd sent term).
Proof. intros Hq Hc Hq0 Hc0 Hst Ht. split; cbn; [|done]. by exists q, c1. Qed.

(** The record of a sound row, and its sizes. *)
Lemma row_ok_sizes row q c : row_ok row -> sizes row q c ->
  (0 < dval q)%Q /\ (0 <= dval c <= dval q)%Q /\
  state_ok (state row) (send_attempted_ms row) (terminal_ms row) (dval q) (dval c).
Proof.
  intros [(q' & c' & [Hq Hc] & H) _] [Hq' Hc']. rewrite Hq in Hq'. rewrite Hc in Hc'. by simplify_eq.
Qed.

(** ** The four updates *)

Lemma send_inv id rq obs now s s' r :
  mark_send_attempted id rq obs now s = (s', r) ->
  (s' = s /\ exists e, r = Raise e) \/
  exists c rec row cur o rq', validate_cloid id = Ok c /\ r = Ok rec /\
    actions s !! c = Some row /\ record_of row = Ok cur /\ state row = PREPARED /\ 0 < o /\
    s' = put_action s c (update_row row SEND_ATTEMPTED (cumulative_filled_size row) (outcome_detail row) rq' o (Some o)
                           (terminal_ms row)) /\ record_of (update_row row SEND_ATTEMPTED (cumulative_filled_size row) (outcome_detail row) rq' o (Some o)
                           (terminal_ms row)) = Ok rec.
Proof.
  unfold mark_send_attempted. intros H. apply checked_cases in H as [?|([[c o] rq'] & Hv & H)]; [by left|].
  apply bind_Ok in Hv as (c1 & Hc & Hv). apply bind_Ok in Hv as (o1 & Ho & Hv).
  apply bind_Ok in Hv as (rq1 & _ & [= -> -> ->]). apply positive_int_Ok in Ho as [-> Ho].
  apply transaction_cases in H as [?|(rec & H & ->)]; [by left|right].
  apply bind_Ok in H as ([row cur] & Hreq & H). apply require_action_Ok in Hreq as [Hrow Hcur].
  destruct (negb _) eqn:Est; [done|]. bool_prop. apply bind_Ok in H as (o' & ->%sql_int_Ok & H).
  apply update_action_Ok in H as [-> Hrec].
  assert (state row = PREPARED) by (by apply record_of_Ok in Hcur as (? & ? & _ & ->)).
  by exists c, rec, row, cur, (default now obs), (default (request_id row) rq').
Qed.

Lemma not_sent_inv id obs now s s' r :
  mark_not_sent id obs now s = (s', r) ->
  (s' = s /\ exists e, r = Raise e) \/
  exists c rec row cur, validate_cloid id = Ok c /\ r = Ok rec /\
    actions s !! c = Some row /\ record_of row = Ok cur /\
    ((s' = s /\ rec = cur /\ state row = NOT_SENT) \/
     exists o, state row = PREPARED /\ 0 < o /\
       s' = put_action s c (update_row row NOT_SENT (cumulative_filled_size row) (outcome_detail row) (request_id row) o
                              (send_attempted_ms row) (Some o))).
Proof.
  unfold mark_not_sent. intros H. apply checked_cases in H as [?|([c o] & Hv & H)]; [by left|].
  apply bind_Ok in Hv as (c1 & Hc & Hv). apply bind_Ok in Hv as (o1 & Ho & [= -> ->]).
  apply positive_int_Ok in Ho as [-> Ho].
  apply transaction_cases in H as [?|(rec & H & ->)]; [by left|right].
  apply bind_Ok in H as ([row cur] & Hreq & H). apply require_action_Ok in Hreq as [Hrow Hcur].
  assert (state row = state cur) as Est by (by apply record_of_Ok in Hcur as (? & ? & _ & ->)).
  exists c, rec, row, cur. split_and!; try done.
  destruct (bool_decide (state cur = NOT_SENT)) eqn:E1.
  - injection H as <- <-. left. bool_prop. by rewrite Est.
  - destruct (negb _) eqn:E2; [done|]. bool_prop. apply bind_Ok in H as (o' & ->%sql_int_Ok & H).
    apply update_action_Ok in H as [-> _]. right. exists (default now obs). by rewrite Est.
Qed.

Lemma outcome_inv id t ca detail obs now s s' r :
  record_outcome id t ca detail obs now s = (s', r) ->
  (s' = s /\ exists e, r = Raise e) \/
  exists c rec row cur cum, validate_cloid id = Ok c /\ r = Ok rec /\
    actions s !! c = Some row /\ record_of row = Ok cur /\
    validate_cumulative cur cum = Ok tt /\ validate_outcome cur t cum = Ok tt /\
    match ca with None => cum = cumulative_filled_size cur | Some a => nonnegative_decimal a = Ok cum end /\
    ((s' = s /\ rec = cur /\ t = state row /\ (dval cum == dval (cumulative_filled_size cur))%Q) \/
     exists o, 0 < o /\ s' = put_action s c
       (update_row row t (decimal_wire cum) (normalize_detail detail) (request_id row) o (send_attempted_ms row)
          (if bool_decide (t ∈ TERMINAL_STATES)
           then match terminal_ms row with None => Some o | x => x end else terminal_ms row)) /\
       record_of (update_row row t (decimal_wire cum) (normalize_detail detail) (request_id row) o (send_attempted_ms row)
          (if bool_decide (t ∈ TERMINAL_STATES)
           then match terminal_ms row with None => Some o | x => x end else terminal_ms row)) = Ok rec).
Proof.
  unfold record_outcome. intros H. apply checked_cases in H as [?|([c o] & Hv & H)]; [by left|].
  apply bind_Ok in Hv as (c1 & Hc & Hv). destruct (negb _); [done|].
  apply bind_Ok in Hv as (o1 & Ho & [= -> ->]). apply positive_int_Ok in Ho as [-> Ho].
  apply transaction_cases in H as [?|(rec & H & ->)]; [by left|right].
  apply bind_Ok in H as ([row cur] & Hreq & H). apply require_action_Ok in Hreq as [Hrow Hcur].
  apply bind_Ok in H as (cum & Hcum & H). apply bind_Ok in H as ([] & Hvc & H).
  apply bind_Ok in H as ([] & Hvo & H).
  pose proof Hcur as (q & c0 & _ & Ecur)%record_of_Ok.
  exists c, rec, row, cur, cum. split_and!; try done; [destruct ca; [done|by injection Hcum as ->]|].
  destruct (bool_decide _ && _ && _) eqn:Esame.
  - injection H as <- <-. left.
    apply andb_true_iff in Esame as [[E1%bool_decide_eq_true E2%deqb_spec]%andb_true_iff _].
    split_and!; try done. by rewrite E1, Ecur.
  - right. apply bind_Ok in H as (o' & ->%sql_int_Ok & H). apply update_action_Ok in H as [-> Hrec].
    exists (default now obs). assert (terminal_ms cur = terminal_ms row) as Et by by rewrite Ecur.
    rewrite Et in Hrec |- *. done.
Qed.

Lemma fill_inv id ca obs now s s' r :
  record_cumulative_fill id ca obs now s = (s', r) ->
  (s' = s /\ exists e, r = Raise e) \/
  exists c rec row cur cum, validate_cloid id = Ok c /\ r = Ok rec /\ nonnegative_decimal ca = Ok cum /\
    actions s !! c = Some row /\ record_of row = Ok cur /\ validate_cumulative cur cum = Ok tt /\
    ((s' = s /\ rec = cur /\ (dval cum == dval (cumulative_filled_size cur))%Q) \/
     exists o st term, 0 < o /\ is_Some (send_attempted_ms row) /\
       ~ (dval cum == dval (cumulative_filled_size cur))%Q /\
       s' = put_action s c (update_row row st (decimal_wire cum) (outcome_detail row) (request_id row) o
                              (send_attempted_ms row) term) /\
       record_of (update_row row st (decimal_wire cum) (outcome_detail row) (request_id row) o
                              (send_attempted_ms row) term) = Ok rec /\
       ((dval cum == dval (requested_size cur) /\ st = FILLED /\ is_Some term)%Q \/
        (~ (dval cum == dval (requested_size cur))%Q /\
         ((state row ∈ [AS_REJECTED; CANCELED; PARTIALLY_FILLED] /\ st = PARTIALLY_FILLED /\ is_Some term) \/
          (state row ∉ [AS_REJECTED; CANCELED; PARTIALLY_FILLED] /\ st = state row /\ term = terminal_ms row)))) /\
       (forall x, term = Some x -> x = o \/ terminal_ms row = Some x)).
Proof.
  unfold record_cumulative_fill. intros H. apply checked_cases in H as [?|([[c q] o] & Hv & H)]; [by left|].
  apply bind_Ok in Hv as (c1 & Hc & Hv). apply bind_Ok in Hv as (q1 & Hq & Hv).
  apply bind_Ok in Hv as (o1 & Ho & [= -> -> ->]). apply positive_int_Ok in Ho as [-> Ho].
  apply transaction_cases in H as [?|(rec & H & ->)]; [by left|right].
  apply bind_Ok in H as ([row cur] & Hreq & H). apply require_action_Ok in Hreq as [Hrow Hcur].
  apply bind_Ok in H as ([] & Hvc & H). exists c, rec, row, cur, q. split_and!; try done.
  pose proof Hcur as (q0 & c0 & _ & Ecur)%record_of_Ok.
  assert (terminal_ms cur = terminal_ms row /\ state cur = state row /\
    send_attempted_ms cur = send_attempted_ms row) as (Et & Es & Esent) by by rewrite Ecur.
  rewrite Et, Es, Esent in H. destruct (deqb q _) eqn:Esame.
  { injection H as <- <-. left. by apply deqb_spec in Esame. }
  apply deqb_false in Esame. destruct (send_attempted_ms row) as [t|] eqn:Ent; [|done]. right.
  cbv zeta in H. set (o' := default now obs) in *.
  set (finish := match terminal_ms row with Some t => if t =? 0 then Some o' else Some t | None => Some o' end) in *.
  assert (is_Some finish /\ forall x, finish = Some x -> x = o' \/ terminal_ms row = Some x) as [Hf1 Hf2].
  { unfold finish. destruct (terminal_ms row) as [t'|]; [destruct (t' =? 0)|];
      (split; [eauto|intros x [= <-]; auto]). }
  destruct (deqb q (requested_size cur)) eqn:Eq.
  - apply bind_Ok in H as (o2 & ->%sql_int_Ok & H). apply update_action_Ok in H as [-> Hrec].
    apply deqb_spec in Eq. exists o', FILLED, finish. rewrite ?Ent in Hrec |- *. split_and!; eauto.
  - apply deqb_false in Eq. destruct (bool_decide _) eqn:Ein; bool_prop;
      apply bind_Ok in H as (o2 & ->%sql_int_Ok & H); apply update_action_Ok in H as [-> Hrec];
      rewrite ?Ent in Hrec |- *.
    + exists o', PARTIALLY_FILLED, finish. split_and!; eauto. right. split; [done|]. left. done.
    + exists o', (state row), (terminal_ms row). split_and!; eauto. right. split; [done|]. right. done.
Qed.

(** ** Each update keeps a sound row sound *)

Lemma send_row row o rq :
  state row = PREPARED -> 0 < o -> row_ok row ->
  let row' := update_row row SEND_ATTEMPTED (cumulative_filled_size row) (outcome_detail row) rq o (Some o) (terminal_ms row) in
  evolves row row' /\ row_ok row'.
Proof.
  intros Hst Ho [(q & c & [Hq Hc] & Hq0 & Hc0 & Hs) Ht] row'. rewrite Hst in Hs. destruct Hs as (Hs1 & Hs2 & Hs3).
  split.
  - eapply update_row_evolves; [by split|exact Hc|apply Qle_refl|rewrite Hst; set_solver|rewrite Hs1; done|done|].
    by rewrite Hst.
  - eapply update_row_ok; [exact Hq|exact Hc|done|done| |done]. cbn. split_and!; [eauto|done|]. lra.
Qed.

Lemma not_sent_row row o :
  state row = PREPARED -> 0 < o -> row_ok row ->
  let row' := update_row row NOT_SENT (cumulative_filled_size row) (outcome_detail row) (request_id row) o
                (send_attempted_ms row) (Some o) in
  evolves row row' /\ row_ok row'.
Proof.
  intros Hst Ho [(q & c & [Hq Hc] & Hq0 & Hc0 & Hs) Ht] row'. rewrite Hst in Hs. destruct Hs as (Hs1 & Hs2 & Hs3).
  split.
  - eapply update_row_evolves; [by split|exact Hc|apply Qle_refl|intros _; by left|done|done|done].
  - eapply update_row_ok; [exact Hq|exact Hc|done|done| |].
    + cbn. split_and!; [done|eauto|done].
    + intros t [= <-]. done.
Qed.

(** The transition table, checked by evaluation. *)
Lemma allowed_facts st t :
  t ∈ allowed_targets st ->
  (st ∈ TERMINAL_STATES -> t ∈ TERMINAL_STATES) /\ t <> PREPARED /\ st <> NOT_SENT /\ st <> PREPARED.
Proof.
  intros H. assert (bool_decide (t ∈ allowed_targets st) = true) as Hb by by apply bool_decide_eq_true.
  clear H. split.
  - intros H. assert (bool_decide (st ∈ TERMINAL_STATES) = true) as Ht by by apply bool_decide_eq_true.
    apply (bool_decide_eq_true (t ∈ TERMINAL_STATES)). by destruct st, t; vm_compute in Hb, Ht |- *.
  - by destruct st, t; vm_compute in Hb.
Qed.

Lemma state_ok_open st sent term q c : state_ok st sent term q c -> st ∉ TERMINAL_STATES -> term = None.
Proof.
  intros H Ht. assert (bool_decide (st ∈ TERMINAL_STATES) = false) as Hb by by apply bool_decide_eq_false.
  destruct st; vm_compute in Hb; try done; apply H.
Qed.

Lemma outcome_row row cur t cum detail o :
  record_of row = Ok cur -> (0 <= dval cum)%Q -> 0 < o ->
  validate_cumulative cur cum = Ok tt -> validate_outcome cur t cum = Ok tt -> row_ok row ->
  let row' := update_row row t (decimal_wire cum) detail (request_id row) o (send_attempted_ms row)
    (if bool_decide (t ∈ TERMINAL_STATES)
     then match terminal_ms row with None => Some o | x => x end else terminal_ms row) in
  evolves row row' /\ row_ok row'.
Proof.
  intros Hcur Hcum Ho Hvc%validate_cumulative_Ok Hvo Hok row'.
  apply record_of_Ok in Hcur as (q & c & Hsz & ->). cbn [with_sizes requested_size cumulative_filled_size] in Hvc.
  destruct (row_ok_sizes row q c Hok Hsz) as (Hq0 & Hc0 & Hst).
  set (term := if bool_decide (t ∈ TERMINAL_STATES) then _ else _) in row'.
  assert (t ∈ allowed_targets (state row)) as Hall.
  { unfold validate_outcome in Hvo. cbn [with_sizes state] in Hvo. cbv zeta in Hvo.
    destruct (bool_decide (t ∈ allowed_targets (state row))) eqn:E; [by bool_prop|done]. }
  destruct (allowed_facts _ _ Hall) as (Htt & Hnp & Hns & Hsp).
  assert (is_Some (send_attempted_ms row)) as Hsent by (destruct (state row); cbn in Hst; tauto || done).
  assert (is_Some term <-> t ∈ TERMINAL_STATES) as Hterm.
  { unfold term. case_bool_decide as Ht.
    - split; [done|]. destruct (terminal_ms row); eauto.
    - split; [|done]. intros Hsome. exfalso.
      rewrite (state_ok_open _ _ _ _ _ Hst) in Hsome; [by destruct Hsome|]. by intros ?%Htt. }
  destruct (validate_outcome_Ok _ _ _ (send_attempted_ms row) term q Hvo eq_refl ltac:(lra) Hsent Hterm) as [Hst' _].
  split.
  - eapply update_row_evolves; [exact Hsz|apply stored_wire|rewrite fixed_form_val; lra| | |done|done].
    + done.
    + done.
  - eapply (update_row_ok _ _ _ _ _ _ _ _ q (fixed_form cum)); [apply Hsz|apply stored_wire|done| | |].
    + rewrite fixed_form_val. lra.
    + clear - Hst'. destruct t; cbn in *; by rewrite fixed_form_val.
    + unfold term. intros x Hx. destruct (bool_decide _); [|by apply (ro_terminal _ Hok)].
      destruct (terminal_ms row) eqn:E; [by apply (ro_terminal _ Hok); rewrite E|by injection Hx as <-].
Qed.

Lemma partial_fill_state st sent term q c cum :
  st ∉ [AS_REJECTED; CANCELED; PARTIALLY_FILLED] -> st <> NOT_SENT -> st <> PREPARED ->
  state_ok st sent term q c -> (c < cum -> cum < q -> state_ok st sent term q cum)%Q.
Proof.
  intros Hin HN HP H H1 H2.
  assert (bool_decide (st ∈ [AS_REJECTED; CANCELED; PARTIALLY_FILLED]) = false) as Hb by by apply bool_decide_eq_false.
  clear Hin. destruct st; vm_compute in Hb; try done; destruct H as (Ha & Hc & Hx); cbn; split_and!; try done; lra.
Qed.

Lemma fill_row row cur cum o st term :
  record_of row = Ok cur -> (0 <= dval cum)%Q -> 0 < o -> validate_cumulative cur cum = Ok tt ->
  is_Some (send_attempted_ms row) -> ~ (dval cum == dval (cumulative_filled_size cur))%Q ->
  ((dval cum == dval (requested_size cur) /\ st = FILLED /\ is_Some term)%Q \/
   (~ (dval cum == dval (requested_size cur))%Q /\
    ((state row ∈ [AS_REJECTED; CANCELED; PARTIALLY_FILLED] /\ st = PARTIALLY_FILLED /\ is_Some term) \/
     (state row ∉ [AS_REJECTED; CANCELED; PARTIALLY_FILLED] /\ st = state row /\ term = terminal_ms row)))) ->
  (forall x, term = Some x -> x = o \/ terminal_ms row = Some x) -> row_ok row ->
  let row' := update_row row st (decimal_wire cum) (outcome_detail row) (request_id row) o (send_attempted_ms row) term in
  evolves row row' /\ row_ok row'.
Proof.
  intros Hcur Hcum Ho Hvc%validate_cumulative_Ok Hsent Hne Hcase Hterm Hok row'.
  apply record_of_Ok in Hcur as (q & c & Hsz & ->).
  cbn [with_sizes requested_size cumulative_filled_size] in Hvc, Hne, Hcase.
  destruct (row_ok_sizes row q c Hok Hsz) as (Hq0 & Hc0 & Hst).
  assert (dval c < dval cum)%Q as Hlt.
  { destruct (Qle_lt_or_eq _ _ (proj1 Hvc)) as [?|E]; [done|]. destruct Hne. by rewrite E. }
  assert (state_ok st (send_attempted_ms row) term (dval q) (dval cum) /\
    (state row ∈ TERMINAL_STATES -> st ∈ TERMINAL_STATES) /\ state row <> NOT_SENT /\ st <> PREPARED)
    as (Hst' & HT & HN & HP).
  { assert (state row <> NOT_SENT /\ state row <> PREPARED) as [HN HP].
    { split; intros E; rewrite E in Hst; cbn in Hst; destruct Hst as (E1 & _); rewrite E1 in Hsent; by destruct Hsent. }
    destruct Hcase as [(E & -> & Ht)|[Hnq [(Hin & -> & Ht)|(Hnin & -> & ->)]]].
    - split_and!; [done|set_solver|done|done].
    - assert (dval cum < dval q)%Q by (destruct (Qle_lt_or_eq _ _ (proj2 Hvc)); [done|by destruct Hnq]).
      split_and!; [|set_solver|done|done]. cbn. split_and!; try done. lra.
    - assert (dval cum < dval q)%Q by (destruct (Qle_lt_or_eq _ _ (proj2 Hvc)); [done|by destruct Hnq]).
      split_and!; [|done|done|done]. by eapply partial_fill_state. }
  split.
  - eapply update_row_evolves; [exact Hsz|apply stored_wire|rewrite fixed_form_val; lra|done|done|done|done].
  - eapply (update_row_ok _ _ _ _ _ _ _ _ q (fixed_form cum)); [apply Hsz|apply stored_wire|done| | |].
    + rewrite fixed_form_val. lra.
    + clear - Hst'. destruct st; cbn in *; by rewrite fixed_form_val.
    + intros x [->|Hx]%Hterm; [done|]. by apply (ro_terminal _ Hok).
Qed.

Lemma apply_op_step o s : jstep s (apply_op o s).
Proof.
  destruct o as [f w wall now|a now|id rq obs now|id obs now|id t ca d obs now|id ca obs now]; cbn [apply_op].
  - destruct (reserve_nonce f w wall now s) as [s' r] eqn:E.
    apply reserve_inv in E as [[-> _]|(f' & w' & n & u & _ & _ & _ & Hlt & ->)]; [constructor|]. by apply js_nonce.
  - destruct (prepare_action a now s) as [s' r] eqn:E.
    apply prepare_inv in E as [[-> _]|(row & rec & u & Hrow & _ & _ & -> & Hn & Hat & Hc)]; [constructor|].
    apply prepared_row_Ok in Hrow as (Hok & Hst & _). by eapply js_insert.
  - destruct (mark_send_attempted id rq obs now s) as [s' r] eqn:E.
    apply send_inv in E as [[-> _]|(c & rec & row & cur & o & rq' & _ & _ & Hrow & _ & Hst & Ho & -> & _)]; [constructor|].
    eapply js_update; [done|]. intros Hok. by apply send_row.
  - destruct (mark_not_sent id obs now s) as [s' r] eqn:E.
    apply not_sent_inv in E as [[-> _]|(c & rec & row & cur & _ & _ & Hrow & _ & [(-> & _)|(o & Hst & Ho & ->)])];
      [constructor..|].
    eapply js_update; [done|]. intros Hok. by apply not_sent_row.
  - destruct (record_outcome id t ca d obs now s) as [s' r] eqn:E.
    apply outcome_inv in E as [[-> _]|(c & rec & row & cur & cum & _ & _ & Hrow & Hcur & Hvc & Hvo & Hca & [(-> & _)|(o & Ho & -> & _)])];
      [constructor..|].
    eapply js_update; [done|]. intros Hok. apply (outcome_row row cur t cum); try done.
    destruct ca as [a|]; [by eapply nonnegative_decimal_pos|]. subst cum.
    apply record_of_Ok in Hcur as (q & c0 & Hsz & ->). by apply (row_ok_sizes row q c0 Hok) in Hsz as (_ & [? _] & _).
  - destruct (record_cumulative_fill id ca obs now s) as [s' r] eqn:E.
    apply fill_inv in E as [[-> _]|(c & rec & row & cur & cum & _ & _ & Hcum & Hrow & Hcur & Hvc &
      [(-> & _)|(o & st & term & Ho & Hsent & Hne & -> & _ & Hcase & Hterm)])]; [constructor..|].
    eapply js_update; [done|]. intros Hok. apply (fill_row row cur cum); try done.
    by eapply nonnegative_decimal_pos.
Qed.

(** * The invariant of the journal *)

Record db_ok (s : db) : Prop := {
  do_row : forall id row, actions s !! id = Some row -> cloid row = id /\ row_ok row;
  do_nonce : forall id row, actions s !! id = Some row ->
    exists last u, signer_nonce s !! (follower_account row, api_wallet row) = Some (last, u) /\ nonce row <= last;
  do_unique_nonce : forall id1 id2 r1 r2, actions s !! id1 = Some r1 -> actions s !! id2 = Some r2 ->
    follower_account r1 = follower_account r2 -> api_wallet r1 = api_wallet r2 -> nonce r1 = nonce r2 -> id1 = id2;
  do_unique_attempt : forall id1 id2 r1 r2, actions s !! id1 = Some r1 -> actions s !! id2 = Some r2 ->
    follower_account r1 = follower_account r2 -> api_wallet r1 = api_wallet r2 ->
    desired_id r1 = desired_id r2 -> market r1 = market r2 -> attempt_no r1 = attempt_no r2 -> id1 = id2;
}.

Lemma elem_of_rows s row : row ∈ rows s <-> exists id, actions s !! id = Some row.
Proof.
  unfold rows. rewrite list_elem_of_fmap. split.
  - intros ([id r] & -> & H). apply elem_of_map_to_list in H. by exists id.
  - intros [id H]. exists (id, row). split; [done|]. by apply elem_of_map_to_list.
Qed.

Lemma conflicts_false s row :
  conflicts s row = false ->
  actions s !! cloid row = None /\
  forall id r, actions s !! id = Some r -> follower_account r = follower_account row -> api_wallet r = api_wallet row ->
    nonce r <> nonce row /\
    ~ (desired_id r = desired_id row /\ market r = market row /\ attempt_no r = attempt_no row).
Proof.
  unfold conflicts. intros [H1%bool_decide_eq_false H2]%orb_false_iff.
  split; [by apply eq_None_not_Some|]. intros id r Hr Hf Hw.
  assert (~ (nonce r = nonce row \/ (desired_id r = desired_id row /\ market r = market row /\ attempt_no r = attempt_no row)))
    as Hno; [|tauto].
  intros Hc. assert (existsb (fun r => bool_decide (follower_account r = follower_account row) &&
    bool_decide (api_wallet r = api_wallet row) && (bool_decide (nonce r = nonce row) ||
     (bool_decide (desired_id r = desired_id row) && bool_decide (market r = market row) &&
      bool_decide (attempt_no r = attempt_no row)))) (rows s) = true); [|congruence].
  apply existsb_exists. exists r. split; [apply list_elem_of_In, elem_of_rows; by exists id|].
  rewrite !andb_true_iff, orb_true_iff, !andb_true_iff, !bool_decide_eq_true. tauto.
Qed.

Lemma jstep_ok s s' : jstep s s' -> db_ok s -> db_ok s'.
Proof.
  intros Hstep [Hrow Hnonce Hun Hua]. destruct Hstep as [|l n u Hlt|row u Hn Hat Hc Hok Hst|id row row' Hl Hev].
  - done.
  - split; cbn; try done. intros id row Hr. destruct (Hnonce _ _ Hr) as (last & v & Hl & Hle).
    destruct (decide (l = (follower_account row, api_wallet row))) as [->|Hne].
    + rewrite lookup_insert_eq. exists n, u. split; [done|]. specialize (Hlt _ _ Hl). lia.
    + rewrite lookup_insert_ne by done. by exists last, v.
  - apply conflicts_false in Hc as [Hnone Hc].
    assert (forall id r, actions (put_action s (cloid row) row) !! id = Some r ->
      (id = cloid row /\ r = row) \/ (id <> cloid row /\ actions s !! id = Some r)) as Hput.
    { intros id r H. cbn in H. destruct (decide (cloid row = id)) as [<-|Hne].
      - rewrite lookup_insert_eq in H. left. by injection H.
      - rewrite lookup_insert_ne in H by done. auto. }
    split.
    + intros id r [[-> ->]|[_ H]]%Hput; [done|by apply Hrow].
    + intros id r [[-> ->]|[_ H]]%Hput; [exists (nonce row), u; split; [done|lia]|by eapply Hnonce].
    + intros i1 i2 r1 r2 [[-> ->]|[N1 H1]]%Hput [[-> ->]|[N2 H2]]%Hput Hf Hw Hnn; [done| | |by eapply Hun].
      * by destruct (Hc _ _ H2) as [[] _].
      * by destruct (Hc _ _ H1) as [[] _].
    + intros i1 i2 r1 r2 [[-> ->]|[N1 H1]]%Hput [[-> ->]|[N2 H2]]%Hput Hf Hw Hd Hm Ha; [done| | |by eapply Hua].
      * destruct (Hc _ _ H2) as [_ []]; done.
      * destruct (Hc _ _ H1) as [_ []]; done.
  - destruct (Hrow _ _ Hl) as [Hid Hok]. destruct (Hev Hok) as [[(I1 & I2 & I3 & I4 & I5 & I6 & I7) _ _ _ _ _ _] Hok'].
    assert (forall i r, actions (put_action s id row') !! i = Some r -> exists r0, actions s !! i = Some r0 /\
      follower_account r = follower_account r0 /\ api_wallet r = api_wallet r0 /\ nonce r = nonce r0 /\
      desired_id r = desired_id r0 /\ market r = market r0 /\ attempt_no r = attempt_no r0 /\
      (r = row' \/ r = r0) /\ cloid r = cloid r0) as Hput.
    { intros i r H. cbn in H. destruct (decide (id = i)) as [<-|Hne].
      - rewrite lookup_insert_eq in H. injection H as <-. exists row. split_and!; try done. by left.
      - rewrite lookup_insert_ne in H by done. exists r. split_and!; try done. by right. }
    split.
    + intros i r (r0 & H0 & _ & _ & _ & _ & _ & _ & [->| ->] & Hcl)%Hput; destruct (Hrow _ _ H0); split; congruence || done.
    + intros i r (r0 & H0 & Hf & Hw & Hn & _)%Hput. rewrite Hf, Hw, Hn. by eapply Hnonce.
    + intros i1 i2 r1 r2 (p1 & H1 & F1 & W1 & N1 & _)%Hput (p2 & H2 & F2 & W2 & N2 & _)%Hput Hf Hw Hn.
      eapply (Hun i1 i2 p1 p2); congruence.
    + intros i1 i2 r1 r2 (p1 & H1 & F1 & W1 & _ & D1 & M1 & A1 & _)%Hput
        (p2 & H2 & F2 & W2 & _ & D2 & M2 & A2 & _)%Hput Hf Hw Hd Hm Ha.
      eapply (Hua i1 i2 p1 p2); congruence.
Qed.

Lemma empty_db_ok : db_ok empty_db.
Proof. split; cbn; intros *; rewrite ?lookup_empty; done. Qed.

Lemma reachable_ok s : reachable s -> db_ok s.
Proof.
  intros [ops ->]. apply run_ind; [|apply empty_db_ok]. intros o s Hs. eapply jstep_ok; [apply apply_op_step|done].
Qed.

(** * History of a row *)

Lemma jstep_evolves s s' id row :
  db_ok s -> jstep s s' -> actions s !! id = Some row ->
  exists row', actions s' !! id = Some row' /\ evolves row row'.
Proof.
  intros Hs Hstep Hrow. destruct Hstep as [|l n u Hlt|row0 u Hn Hat Hc Hok Hst|id0 row0 row' Hl Hev].
  - exists row. split; [done|apply evolves_refl].
  - exists row. split; [done|apply evolves_refl].
  - apply conflicts_false in Hc as [Hnone _]. cbn. rewrite lookup_insert_ne by congruence.
    exists row. split; [done|apply evolves_refl].
  - cbn. destruct (decide (id0 = id)) as [->|Hne].
    + rewrite lookup_insert_eq. exists row'. rewrite Hrow in Hl. injection Hl as ->.
      split; [done|]. apply Hev. by apply (do_row _ Hs) in Hrow as [].
    + rewrite lookup_insert_ne by done. exists row. split; [done|apply evolves_refl].
Qed.

Lemma run_evolves ops s id row :
  db_ok s -> actions s !! id = Some row ->
  exists row', actions (run ops s) !! id = Some row' /\ evolves row row'.
Proof.
  revert s row. induction ops as [|o ops IH]; intros s row Hs Hrow.
  - exists row. split; [done|apply evolves_refl].
  - destruct (jstep_evolves _ _ _ _ Hs (apply_op_step o s) Hrow) as (row1 & H1 & E1).
    destruct (IH (apply_op o s) row1) as (row2 & H2 & E2); [|done|].
    + eapply jstep_ok; [apply apply_op_step|done].
    + exists row2. split; [done|]. by eapply evolves_trans.
Qed.

Lemma run_nonce ops s l n u :
  signer_nonce s !! l = Some (n, u) -> exists n' u', signer_nonce (run ops s) !! l = Some (n', u') /\ n <= n'.
Proof.
  revert s n u. induction ops as [|o ops IH]; intros s n u H; [by exists n, u|].
  assert (exists n1 u1, signer_nonce (apply_op o s) !! l = Some (n1, u1) /\ n <= n1) as (n1 & u1 & H1 & Hle).
  { destruct (apply_op_step o s) as [|l' n' u' Hlt|row v _ _ _ _ _|id row row' _ _]; cbn; [by exists n, u| |by exists n, u..].
    destruct (decide (l' = l)) as [->|Hne].
    - rewrite lookup_insert_eq. exists n', u'. split; [done|]. specialize (Hlt _ _ H). lia.
    - rewrite lookup_insert_ne by done. by exists n, u. }
  destruct (IH _ _ _ H1) as (n2 & u2 & H2 & Hle2). exists n2, u2. split; [done|lia].
Qed.

Lemma state_facts st sent term q c :
  state_ok st sent term q c -> (0 < q)%Q ->
  (st = FILLED <-> (c == q)%Q) /\ (st ∈ [PREPARED; NOT_SENT] <-> sent = None) /\
  (st ∈ TERMINAL_STATES <-> is_Some term) /\ (st ∈ [PREPARED; NOT_SENT] -> (c == 0)%Q).
Proof.
  intros H Hq.
  assert (bool_decide (st ∈ [PREPARED; NOT_SENT]) = true <-> sent = None) as H1.
  { destruct st; destruct H as (H1 & _); vm_compute bool_decide; split; try done; intros ->; by destruct H1. }
  assert (bool_decide (st ∈ TERMINAL_STATES) = true <-> is_Some term) as H2.
  { destruct st; destruct H as (_ & H2 & _); vm_compute bool_decide; split; try done; intros [? E]; congruence. }
  rewrite bool_decide_eq_true in H1, H2. split_and!; [|done|done|].
  - destruct st; destruct H as (_ & _ & H3); (split; [done|]); intros E; try done; exfalso; try (apply proj2 in H3); lra.
  - intros Hin%H1. destruct st; destruct H as (Hs & _ & H3); try done; rewrite Hin in Hs; by destruct Hs.
Qed.

(** ** A fill observation, evaluated *)

Lemma nonneg_arg x : (0 <= dval x)%Q -> nonnegative_decimal (ArgDecimal (Fin x)) = Ok x.
Proof.
  intros H. unfold nonnegative_decimal, dnegative. by rewrite (proj2 (dltb_false x dzero)) by (by rewrite dval_zero).
Qed.

Lemma sql_int_ok z : - 2 ^ 63 <= z < 2 ^ 63 -> sql_int z = Ok z.
Proof. intros H. unfold sql_int. by rewrite (proj2 (andb_true_iff _ _)) by (split; [apply Z.leb_le|apply Z.ltb_lt]; lia). Qed.

Section Fill.
Variables (id c : string) (x : dec) (obs : option Z) (now : Z) (s : db) (row : ActionRow) (cur : ActionRecord).
Hypotheses (Hid : validate_cloid id = Ok c) (Hrow : actions s !! c = Some row) (Hcur : record_of row = Ok cur)
  (Hx : (0 <= dval x)%Q) (Ho : 0 < default now obs < 2 ^ 63).

Lemma fill_same :
  (dval x == dval (cumulative_filled_size cur))%Q -> (dval x <= dval (requested_size cur))%Q ->
  record_cumulative_fill id (ArgDecimal (Fin x)) obs now s = (s, Ok cur).
Proof.
  intros Hsame Hle. unfold record_cumulative_fill, checked. rewrite Hid, nonneg_arg by done.
  unfold positive_int. rewrite (proj2 (Z.leb_gt _ _)) by lia. cbn [mbind res_bind].
  unfold transaction. rewrite (proj2 (require_action_Ok s c row cur) (conj Hrow Hcur)). cbn [mbind res_bind].
  unfold validate_cumulative. rewrite !(proj2 (dltb_false _ _)) by lra. cbn [mbind res_bind].
  by rewrite (proj2 (deqb_spec _ _)) by done.
Qed.

Lemma fill_accepts :
  (dval (cumulative_filled_size cur) <= dval x <= dval (requested_size cur))%Q ->
  ~ (dval x == dval (cumulative_filled_size cur))%Q -> is_Some (send_attempted_ms cur) ->
  is_ok (record_cumulative_fill id (ArgDecimal (Fin x)) obs now s).2 = true.
Proof.
  intros [H1 H2] Hne [t Ht]. unfold record_cumulative_fill, checked. rewrite Hid, nonneg_arg by done.
  unfold positive_int. rewrite (proj2 (Z.leb_gt _ _)) by lia. cbn [mbind res_bind].
  unfold transaction. rewrite (proj2 (require_action_Ok s c row cur) (conj Hrow Hcur)). cbn [mbind res_bind].
  unfold validate_cumulative. rewrite !(proj2 (dltb_false _ _)) by lra. cbn [mbind res_bind].
  rewrite (proj2 (deqb_false _ _)) by done. rewrite Ht.
  pose proof Hcur as (q & c0 & [Hq _] & _)%record_of_Ok.
  assert (forall st term, is_ok (update_action s c (update_row row st (decimal_wire x) (outcome_detail row)
    (request_id row) (default now obs) (send_attempted_ms row) term)) = true) as Hupd.
  { intros st term. unfold update_action, require_action. cbn [put_action actions]. rewrite lookup_insert_eq.
    unfold record_of. cbn [update_row requested_size cumulative_filled_size]. by rewrite Hq, stored_wire. }
  repeat match goal with |- context [if ?b then (?u, ?v) else _] => destruct b end;
    rewrite sql_int_ok by lia; cbn [mbind res_bind];
    match goal with |- context [update_action s c (update_row row ?st _ _ _ _ _ ?term)] =>
      pose proof (Hupd st term) as Hu end; by destruct (update_action _ _ _) as [[]|].
Qed.
End Fill.

Section FillResult.
Variables (id c : string) (x : dec) (obs : option Z) (now : Z) (s : db) (row : ActionRow) (cur : ActionRecord).
Hypotheses (Hid : validate_cloid id = Ok c) (Hrow : actions s !! c = Some row) (Hcur : record_of row = Ok cur)
  (Hx : (0 <= dval x)%Q) (Ho : 0 < default now obs < 2 ^ 63).

(** What an accepted observation leaves behind. *)
Definition fill_outcome (s' : db) (rec : ActionRecord) : Prop :=
  (dval (cumulative_filled_size rec) == dval x)%Q /\
  (forall c', c' <> c -> actions s' !! c' = actions s !! c') /\
  (state rec = FILLED <-> (dval x == dval (requested_size cur))%Q) /\
  (state cur ∈ [AS_REJECTED; CANCELED] -> (0 < dval x < dval (requested_size cur))%Q -> state rec = PARTIALLY_FILLED) /\
  record_cumulative_fill id (ArgDecimal (Fin x)) obs now s' = (s', Ok rec).

Lemma fill_unchanged :
  row_ok row -> (dval x == dval (cumulative_filled_size cur))%Q -> (dval x <= dval (requested_size cur))%Q ->
  fill_outcome s cur.
Proof.
  intros Hok Heq Hle. pose proof Hcur as (q & c0 & Hsz & Ecur)%record_of_Ok.
  destruct (row_ok_sizes row q c0 Hok Hsz) as (Hq & Hc0 & Hst).
  destruct (state_facts _ _ _ _ _ Hst Hq) as (Hfilled & _).
  assert (state cur = state row /\ cumulative_filled_size cur = c0 /\ requested_size cur = q) as (E1 & E2 & E3)
    by by rewrite Ecur.
  unfold fill_outcome. rewrite E1, E2, E3 in *. split_and!; [by symmetry|done| | |].
  - by rewrite Hfilled, Heq.
  - intros Hin Hlt. assert (dval c0 == 0)%Q as Hz; [|lra].
    assert (bool_decide (state row ∈ [AS_REJECTED; CANCELED]) = true) as Hb by by apply bool_decide_eq_true.
    destruct (state row); vm_compute in Hb; try done; apply Hst.
  - apply (fill_same id c x obs now s row cur); try done; [by rewrite E2|by rewrite E3].
Qed.

Lemma fill_updated o st term rec :
  row_ok row -> 0 < o -> is_Some (send_attempted_ms row) -> validate_cumulative cur x = Ok tt ->
  ~ (dval x == dval (cumulative_filled_size cur))%Q ->
  ((dval x == dval (requested_size cur) /\ st = FILLED /\ is_Some term)%Q \/
   (~ (dval x == dval (requested_size cur))%Q /\
    ((state row ∈ [AS_REJECTED; CANCELED; PARTIALLY_FILLED] /\ st = PARTIALLY_FILLED /\ is_Some term) \/
     (state row ∉ [AS_REJECTED; CANCELED; PARTIALLY_FILLED] /\ st = state row /\ term = terminal_ms row)))) ->
  (forall y, term = Some y -> y = o \/ terminal_ms row = Some y) ->
  let row' := update_row row st (decimal_wire x) (outcome_detail row) (request_id row) o (send_attempted_ms row) term in
  record_of row' = Ok rec -> fill_outcome (put_action s c row') rec.
Proof.
  intros Hok Hpos Hsent Hvc Hne Hcase Hterm row' Hrec.
  destruct (fill_row row cur x o st term Hcur Hx Hpos Hvc Hsent Hne Hcase Hterm Hok) as [_ Hok'].
  fold row' in Hok'. pose proof Hcur as (q & c0 & Hsz & Ecur)%record_of_Ok.
  assert (sizes row' q (fixed_form x)) as Hsz' by (split; [apply Hsz|apply stored_wire]).
  destruct (row_ok_sizes row' _ _ Hok' Hsz') as (Hq & Hc1 & Hst').
  destruct (state_facts _ _ _ _ _ Hst' Hq) as (Hfilled & _).
  assert (rec = with_sizes row' q (fixed_form x)) as -> by (apply record_of_sizes in Hsz'; congruence).
  assert (state cur = state row /\ requested_size cur = q) as (E1 & E3) by by rewrite Ecur.
  unfold fill_outcome. cbn [with_sizes cumulative_filled_size state]. rewrite E1, E3 in *.
  split_and!; [apply fixed_form_val|..].
  - intros c' Hc'. cbn. by rewrite lookup_insert_ne.
  - by rewrite Hfilled, fixed_form_val.
  - intros Hin Hlt. cbn. destruct Hcase as [(E & _)|(_ & [(_ & -> & _)|(Hnin & _)])]; [lra|done|].
    destruct Hnin. set_solver.
  - apply (fill_same id c x obs now _ row' _ Hid); try done; cbn [with_sizes cumulative_filled_size requested_size];
      rewrite ?fixed_form_val in *; [|done|apply Hc1]. cbn. by rewrite lookup_insert_eq.
Qed.
End FillResult.

(** ** The recovery query *)

Lemma row_ok_record s id row : db_ok s -> actions s !! id = Some row -> exists r, record_of row = Ok r.
Proof.
  intros Hs Hrow. destruct (do_row _ Hs _ _ Hrow) as [_ [(q & c & Hsz & _) _]].
  exists (with_sizes row q c). by apply record_of_sizes.
Qed.

Lemma not_terminal st : bool_decide (st ∈ TERMINAL_STATES) = false -> st ∈ RECOVERY_STATES.
Proof.
  intros H. assert (bool_decide (st ∈ RECOVERY_STATES) = true) as Hb; [|by apply bool_decide_eq_true in Hb].
  by destruct st; vm_compute in H |- *.
Qed.

Lemma created_cloid_total a b : created_cloid_leb a b = true \/ created_cloid_leb b a = true.
Proof. unfold created_cloid_leb. apply bo_total. Qed.

Lemma created_cloid_le a b : created_cloid_leb a b = true -> created_ms a <= created_ms b.
Proof.
  unfold created_cloid_leb, tuple_leb. cbn [fst snd]. case_decide as E; [lia|]. by intros ?%Z.leb_le.
Qed.

Lemma recovery_sorted sel l :
  map_res record_of (py_sorted created_cloid_leb sel) = Ok l -> Sorted (fun a b => created_ms a <= created_ms b) l.
Proof.
  intros H%map_res_Forall2. pose proof (py_sorted_sorted created_cloid_leb created_cloid_total sel) as Hs.
  revert Hs. induction H as [|row r rs l Hrec Hl IH]; [constructor|].
  intros Hs. inversion_clear Hs as [|? ? Hs' Hhd]. constructor; [by apply IH|].
  destruct Hl as [|row2 r2 rs2 l2 Hrec2 Hl]; [constructor|]. inversion_clear Hhd as [|? ? Hle].
  constructor. apply created_cloid_le in Hle.
  apply record_of_Ok in Hrec as (? & ? & _ & ->), Hrec2 as (? & ? & _ & ->). done.
Qed.

Lemma record_cloid row r : record_of row = Ok r -> cloid r = cloid row.
Proof. intros (? & ? & _ & ->)%record_of_Ok. done. Qed.

Lemma rows_nodup s : db_ok s -> NoDup (cloid <$> rows s).
Proof.
  intros Hs. unfold rows. rewrite <- list_fmap_compose.
  assert ((cloid ∘ snd) <$> map_to_list (actions s) = (map_to_list (actions s)).*1) as ->.
  { apply list_fmap_ext. intros i [id row] Hi. cbn. apply list_elem_of_lookup_2, elem_of_map_to_list in Hi.
    by destruct (do_row _ Hs _ _ Hi). }
  apply NoDup_fst_map_to_list.
Qed.

Lemma recovery_nodup s (f : ActionRow -> bool) l :
  db_ok s -> map_res record_of (py_sorted created_cloid_leb (filter (fun r => f r = true) (rows s))) = Ok l ->
  NoDup (cloid <$> l).
Proof.
  intros Hs H%map_res_Forall2.
  assert (cloid <$> l = cloid <$> py_sorted created_cloid_leb (filter (fun r => f r = true) (rows s))) as ->.
  { induction H as [|row r rs l Hrec _ IH]; [done|]. cbn. by rewrite IH, (record_cloid _ _ Hrec). }
  rewrite py_sorted_perm. generalize (rows_nodup s Hs). generalize (rows s). clear. intros rs.
  induction rs as [|r rs IH]; [done|]. rewrite filter_cons. cbn [fmap list_fmap]. intros [Hr Hrs]%list.NoDup_cons.
  destruct (decide (f r = true)); [|by apply IH]. cbn [fmap list_fmap]. apply list.NoDup_cons. split; [|by apply IH].
  intros Hin. apply Hr. apply list_elem_of_fmap in Hin as (x & -> & [_ Hx]%list_elem_of_filter).
  by apply list_elem_of_fmap_2.
Qed.

Lemma recovery_query f w f' w' s :
  reachable s -> identity f = Ok f' -> identity w = Ok w' ->
  exists l, recovery_actions (Some f) (Some w) s = Ok l /\ NoDup (cloid <$> l) /\
    (forall r, r ∈ l <-> recovery_required r = true /\ follower_account r = f' /\ api_wallet r = w' /\
       exists row, actions s !! cloid r = Some row /\ record_of row = Ok r) /\
    Sorted (fun a b => created_ms a <= created_ms b) l /\
    (forall id row r, actions s !! id = Some row -> record_of row = Ok r ->
       follower_account r = f' -> api_wallet r = w' -> terminal r = true \/ r ∈ l).
Proof.
  intros Hs%reachable_ok Hf Hw. unfold recovery_actions. rewrite Hf, Hw. cbn [mbind res_bind].
  set (sel := filter _ (rows s)).
  assert (forall row, row ∈ sel <-> state row ∈ RECOVERY_STATES /\ follower_account row = f' /\ api_wallet row = w' /\
    exists id, actions s !! id = Some row) as Hsel.
  { intros row. unfold sel. rewrite list_elem_of_filter, elem_of_rows. cbn [in_lane].
    rewrite !andb_true_iff, !bool_decide_eq_true. tauto. }
  destruct (map_res_total record_of (py_sorted created_cloid_leb sel)) as [l Hl].
  { intros row (_ & _ & _ & id & Hid)%elem_of_py_sorted%Hsel. by apply (row_ok_record s id row). }
  rewrite Hl. exists l. split; [done|]. split; [by eapply (recovery_nodup s (fun r => bool_decide (state r ∈ RECOVERY_STATES) && in_lane (Some (f', w')) r))|].
  assert (forall r, r ∈ l <-> exists row, (state row ∈ RECOVERY_STATES /\ follower_account row = f' /\
    api_wallet row = w' /\ exists id, actions s !! id = Some row) /\ record_of row = Ok r) as Hin.
  { intros r. rewrite (map_res_elem _ _ _ _ Hl). setoid_rewrite elem_of_py_sorted. by setoid_rewrite Hsel. }
  split_and!.
  - intros r. rewrite Hin. unfold recovery_required. rewrite bool_decide_eq_true. split.
    + intros (row & (Hst & Hfr & Hwr & id & Hid) & Hrec).
      destruct (do_row _ Hs _ _ Hid) as [Hcl _]. pose proof Hrec as (q & c & _ & ->)%record_of_Ok.
      cbn [with_sizes state follower_account api_wallet cloid]. split_and!; try done. exists row. by rewrite Hcl.
    + intros (Hst & Hfr & Hwr & row & Hrow & Hrec). exists row. split; [|done].
      pose proof Hrec as (q & c & _ & ->)%record_of_Ok. by eauto.
  - by eapply recovery_sorted.
  - intros id row r Hid Hrec Hfr Hwr. destruct (terminal r) eqn:Et; [by left|right]. apply Hin. exists row.
    split; [|done]. pose proof Hrec as (q & c & _ & ->)%record_of_Ok. split_and!; eauto.
    by apply not_terminal.
Qed.

(** * Properties *)

(** C36. A nonce is never handed out twice in a signer lane: whatever operations
    run in between, with whatever clock readings (also backwards), a later
    reservation for the same lane is strictly greater; and no journaled action
    of the lane carries a nonce above the last reservation. *)
Theorem nonce_never_reused f1 w1 f2 w2 wall1 wall2 now1 now2 s s1 s3 n1 n2 ops :
  identity f1 = identity f2 -> identity w1 = identity w2 ->
  reserve_nonce f1 w1 wall1 now1 s = (s1, Ok n1) ->
  reserve_nonce f2 w2 wall2 now2 (run ops s1) = (s3, Ok n2) ->
  n1 < n2 /\
  (reachable s -> forall id row, actions s3 !! id = Some row ->
     identity f2 = Ok (follower_account row) -> identity w2 = Ok (api_wallet row) -> nonce row < n2).
Proof.
  intros Ef Ew H1 H2. pose proof H1 as H1'.
  apply reserve_inv in H1 as [[_ [e He]]|(f & w & n & u & Hf & Hw & [= <-] & _ & ->)]; [done|].
  apply reserve_inv in H2 as [[_ [e He]]|(f' & w' & n' & u' & Hf' & Hw' & [= <-] & Hlt & ->)]; [done|].
  assert (f' = f /\ w' = w) as [-> ->] by (split; congruence).
  destruct (run_nonce ops (MkDb (<[(f, w):=(n1, u)]> (signer_nonce s)) (actions s)) (f, w) n1 u)
    as (last & v & Hl & Hle); [cbn; by rewrite lookup_insert_eq|].
  specialize (Hlt _ _ Hl) as Hlt'. split; [lia|].
  intros Hs id row Hrow Hff Hww. cbn [actions] in Hrow.
  assert (db_ok (run ops (apply_op (OpReserve f1 w1 wall1 now1) s))) as Hok.
  { apply run_ind; [intros; eapply jstep_ok; [apply apply_op_step|done]|].
    eapply jstep_ok; [apply apply_op_step|by apply reachable_ok]. }
  cbn [apply_op] in Hok. rewrite H1' in Hok. cbn [fst] in Hok.
  destruct (do_nonce _ Hok _ _ Hrow) as (l1 & v1 & Hl1 & Hle1).
  assert ((follower_account row, api_wallet row) = (f, w)) as E by congruence.
  rewrite E, Hl in Hl1. injection Hl1 as <- <-. lia.
Qed.

(** Every reachable journal is consistent: each row parses back to a record
    filed under its own client order id, with a positive requested size and a
    cumulative fill between zero and it; the state agrees with the history (a
    fill or a venue state implies a send, FILLED means exactly complete, terminal
    states are exactly those with a terminal time); and nonces and attempt
    numbers are unique in their lane. *)
Theorem journal_consistent s :
  reachable s ->
  (forall id row, actions s !! id = Some row -> exists r, record_of row = Ok r /\ cloid r = id /\
     (0 < dval (requested_size r))%Q /\
     (0 <= dval (cumulative_filled_size r) <= dval (requested_size r))%Q /\
     (state r = FILLED <-> (dval (cumulative_filled_size r) == dval (requested_size r))%Q) /\
     (provably_not_sent r = true <-> send_attempted_ms r = None) /\
     (terminal r = true <-> is_Some (terminal_ms r)) /\
     (provably_not_sent r = true -> (dval (cumulative_filled_size r) == 0)%Q)) /\
  (forall id1 id2 r1 r2, actions s !! id1 = Some r1 -> actions s !! id2 = Some r2 ->
     follower_account r1 = follower_account r2 -> api_wallet r1 = api_wallet r2 ->
     nonce r1 = nonce r2 \/
     (desired_id r1 = desired_id r2 /\ market r1 = market r2 /\ attempt_no r1 = attempt_no r2) -> id1 = id2).
Proof.
  intros Hs%reachable_ok. split.
  - intros id row Hrow. destruct (do_row _ Hs _ _ Hrow) as [Hid [(q & c & Hsz & Hq & Hc & Hst) _]].
    exists (with_sizes row q c). split; [by apply record_of_sizes|]. cbn [with_sizes requested_size cumulative_filled_size
      cloid state send_attempted_ms terminal_ms]. split_and!; [done|done|apply Hc|apply Hc|..];
      unfold provably_not_sent, terminal; cbn [with_sizes state];
      [|rewrite bool_decide_eq_true..]; clear - Hst Hq; apply (state_facts _ _ _ _ _ Hst Hq).
  - intros id1 id2 r1 r2 H1 H2 Hf Hw [Hn|(Hd & Hm & Ha)].
    + by eapply (do_unique_nonce _ Hs id1 id2 r1 r2).
    + by eapply (do_unique_attempt _ Hs id1 id2 r1 r2).
Qed.

(** C4. An action is sent at most once and its payload never changes: once
    [mark_send_attempted] succeeded for a client order id, whatever runs
    afterwards, a second call for it raises and leaves the tables unchanged; the
    row keeps the exact signed payload, nonce and requested size and its send
    time, its cumulative fill never decreases, and a terminal state stays
    terminal.  An action marked NOT_SENT can never be sent. *)
Theorem send_at_most_once id rq obs now s s1 r1 ops :
  reachable s -> mark_send_attempted id rq obs now s = (s1, Ok r1) ->
  (exists row row', actions s1 !! cloid r1 = Some row /\ actions (run ops s1) !! cloid r1 = Some row' /\
     state row = SEND_ATTEMPTED /\ evolves row row') /\
  (forall rq' obs' now', exists e, mark_send_attempted id rq' obs' now' (run ops s1) = (run ops s1, Raise e)) /\
  (forall obs' now', exists e, mark_not_sent id obs' now' (run ops s1) = (run ops s1, Raise e)).
Proof.
  intros Hs H. assert (db_ok s1) as Hok1.
  { pose proof (jstep_ok _ _ (apply_op_step (OpSendAttempted id rq obs now) s) (reachable_ok _ Hs)) as Hok.
    cbn [apply_op] in Hok. by rewrite H in Hok. }
  apply send_inv in H as [[_ [e He]]|(c & rec & row & cur & o & rq1 & Hid & [= ->] & Hrow & _ & Hst & Ho & Es & Hrec)];
    [done|].
  set (row1 := update_row row SEND_ATTEMPTED _ _ _ _ _ _) in *.
  assert (actions s1 !! c = Some row1) as Hrow1 by (rewrite Es; cbn; by rewrite lookup_insert_eq).
  destruct (do_row _ Hok1 _ _ Hrow1) as [Hc _].
  assert (cloid rec = c) as Ec by (apply record_of_Ok in Hrec as (? & ? & _ & ->); done).
  destruct (run_evolves ops s1 c row1 Hok1 Hrow1) as (row2 & Hrow2 & Hev).
  assert (state row2 <> PREPARED) as Hnp by by apply (ev_prepared _ _ Hev).
  assert (forall P (v : res P), ~ (exists e, v = Raise e) -> exists a, v = Ok a) as Hcase.
  { intros P v Hv. destruct v as [a|e]; [eauto|]. destruct Hv. eauto. }
  split; [exists row1, row2; by rewrite Ec|]. split.
  - intros rq' obs' now'. destruct (mark_send_attempted id rq' obs' now' (run ops s1)) as [s' r] eqn:E.
    apply send_inv in E as [[-> [e ->]]|(c2 & rec2 & row3 & cur2 & o2 & rq2 & Hid2 & _ & Hrow3 & _ & Hst3 & _)]; [eauto|].
    assert (c2 = c) as -> by congruence. exfalso. apply Hnp. congruence.
  - intros obs' now'. destruct (mark_not_sent id obs' now' (run ops s1)) as [s' r] eqn:E.
    apply not_sent_inv in E as [[-> [e ->]]|(c2 & rec2 & row3 & cur2 & Hid2 & _ & Hrow3 & _ & Hor)]; [eauto|].
    assert (c2 = c) as -> by congruence. assert (row3 = row2) as -> by congruence. exfalso.
    destruct Hor as [(_ & _ & Hns)|(o2 & Hst3 & _)]; [|done].
    assert (exists t, send_attempted_ms row2 = Some t) as [t Ht] by (exists o; by apply (ev_sent _ _ Hev)).
    assert (db_ok (run ops s1)) as Hok2.
    { apply run_ind; [intros; eapply jstep_ok; [apply apply_op_step|done]|done]. }
    destruct (do_row _ Hok2 _ _ Hrow2) as [_ [(q & cc & _ & _ & _ & Hso) _]]. rewrite Hns in Hso.
    destruct Hso as (Hso & _). congruence.
Qed.

(** C39. Fill truth wins: when a cumulative fill observation is accepted in a
    reachable journal, the record holds exactly the observed quantity, no other
    action changes, the action is FILLED exactly when that quantity is complete,
    an incomplete fill of a rejected or cancelled action makes it PARTIALLY_FILLED,
    and repeating the observation changes nothing.  It is refused only when
    the quantity decreases, exceeds the request or contradicts a proof of not
    sending (or a time does not fit the table); a refusal leaves the journal unchanged. *)
Theorem fill_truth id c x obs now s s' r row cur :
  reachable s -> validate_cloid id = Ok c -> actions s !! c = Some row -> record_of row = Ok cur ->
  (0 <= dval x)%Q -> 0 < default now obs < 2 ^ 63 ->
  record_cumulative_fill id (ArgDecimal (Fin x)) obs now s = (s', r) ->
  (is_ok r = true <->
     (dval (cumulative_filled_size cur) <= dval x <= dval (requested_size cur))%Q /\
     ((dval x == dval (cumulative_filled_size cur))%Q \/ provably_not_sent cur = false)) /\
  (is_ok r = false -> s' = s) /\
  forall rec, r = Ok rec ->
    (dval (cumulative_filled_size rec) == dval x)%Q /\
    (forall c', c' <> c -> actions s' !! c' = actions s !! c') /\
    (state rec = FILLED <-> (dval x == dval (requested_size cur))%Q) /\
    (state cur ∈ [AS_REJECTED; CANCELED] -> (0 < dval x < dval (requested_size cur))%Q -> state rec = PARTIALLY_FILLED) /\
    record_cumulative_fill id (ArgDecimal (Fin x)) obs now s' = (s', Ok rec).
Proof.
  intros Hs%reachable_ok Hid Hrow Hcur Hx Ho H. pose proof H as Hrun.
  destruct (do_row _ Hs _ _ Hrow) as [_ Hok].
  pose proof Hcur as (q & c0 & Hsz & Ecur)%record_of_Ok.
  destruct (row_ok_sizes row q c0 Hok Hsz) as (Hq & Hc0 & Hst).
  assert (provably_not_sent cur = false <-> is_Some (send_attempted_ms cur)) as Hsent.
  { destruct (state_facts _ _ _ _ _ Hst Hq) as (_ & H1 & _). unfold provably_not_sent.
    rewrite bool_decide_eq_false, Ecur. cbn [with_sizes state send_attempted_ms]. rewrite H1.
    destruct (send_attempted_ms row); split; try done; try (by eauto); by intros []. }
  apply fill_inv in H as [[-> [e ->]]|(c1 & rec & row1 & cur1 & cum & Hid1 & -> & Hcum & Hrow1 & Hcur1 & Hvc & Hor)].
  - split; [|split; [done|intros rec; done]]. split; [done|]. intros [[H1 H2] H3]. exfalso.
    assert (is_ok (record_cumulative_fill id (ArgDecimal (Fin x)) obs now s).2 = true) as Hacc.
    { destruct (Qeq_dec (dval x) (dval (cumulative_filled_size cur))) as [E|E].
      - by rewrite (fill_same id c x obs now s row cur Hid Hrow Hcur Hx Ho E H2).
      - apply (fill_accepts id c x obs now s row cur Hid Hrow Hcur Hx Ho (conj H1 H2) E). apply Hsent.
        by destruct H3. }
    by rewrite Hrun in Hacc.
  - rewrite nonneg_arg in Hcum by done. injection Hcum as <-.
    assert (c1 = c) as -> by congruence. assert (row1 = row) as -> by congruence.
    assert (cur1 = cur) as -> by congruence. pose proof (validate_cumulative_Ok _ _ Hvc) as Hrange.
    destruct Hor as [(-> & -> & E)|(o & st & term & Hpos & Hse & Hne & -> & Hrec & Hcase & Hterm)].
    + split; [split; [intros _; split; [done|by left]|done]|]. split; [done|]. intros rec [= <-].
      apply (fill_unchanged id c x obs now s row cur); try done. apply Hrange.
    + split; [split; [intros _; split; [done|right]|done]|].
      { apply Hsent. by rewrite Ecur. }
      split; [done|]. intros rec0 [= <-]. by eapply (fill_updated id c x obs now s row cur).
Qed.

(** Recovery misses nothing: in a reachable journal the recovery query of a
    lane never raises and returns, sorted by creation time, exactly the records
    of that lane in a recovery state; every other journaled action is terminal. *)
Theorem recovery_complete f w f' w' s :
  reachable s -> identity f = Ok f' -> identity w = Ok w' ->
  exists l, recovery_actions (Some f) (Some w) s = Ok l /\
    (forall r, r ∈ l <-> recovery_required r = true /\ follower_account r = f' /\ api_wallet r = w' /\
       exists row, actions s !! cloid r = Some row /\ record_of row = Ok r) /\
    Sorted (fun a b => created_ms a <= created_ms b) l /\
    (forall id row r, actions s !! id = Some row -> record_of row = Ok r ->
       follower_account r = f' -> api_wallet r = w' -> terminal r = true \/ r ∈ l).
Proof.
  intros Hs Hf Hw. destruct (recovery_query f w f' w' s Hs Hf Hw) as (l & Hl & _ & H). by exists l.
Qed.

(** What is journaled is what was signed: a successful [prepare_action] on
    a reachable journal stores the exact action and payload texts, a requested
    size equal to the argument, and a zero fill in state PREPARED; the lookup
    by client order id returns precisely this record; and the action was not
    journaled before. *)
Theorem prepare_is_exact a now s s' rec :
  prepare_action a now s = (s', Ok rec) ->
  get_action (p_cloid a) s' = Ok (Some rec) /\ get_action (p_cloid a) s = Ok None /\
  action_json rec = p_action_json a /\ signed_payload_json rec = p_signed_payload_json a /\
  state rec = PREPARED /\ (dval (cumulative_filled_size rec) == 0)%Q /\
  exists size, positive_decimal (p_requested_size a) = Ok size /\ (dval (requested_size rec) == dval size)%Q.
Proof.
  intros H. apply prepare_inv in H as [[_ [e He]]|(row & rec0 & u & Hrow & [= <-] & Hrec & -> & _ & _ & Hc)]; [done|].
  apply conflicts_false in Hc as [Hnone _].
  apply prepared_row_Ok in Hrow as (_ & Hst & _ & Hcl & Ha & Hp & size & Hsize & Hrq & Hcum).
  unfold get_action. rewrite Hcl. cbn [mbind res_bind put_action actions]. rewrite lookup_insert_eq, Hnone, Hrec.
  pose proof Hrec as (q & c & [Hq Hc] & ->)%record_of_Ok.
  cbn [with_sizes action_json signed_payload_json state cumulative_filled_size requested_size].
  rewrite Hrq, stored_wire in Hq. injection Hq as <-. rewrite Hcum in Hc.
  change (stored_decimal "0") with (Ok dzero) in Hc. injection Hc as <-.
  split_and!; try done. exists size. split; [done|]. apply fixed_form_val.
Qed.

(** * Witnesses *)

Definition sample_prepare : prepare_args :=
  MkPrepare "0xAA" "0xbb" "desired-1" "BTC" 1 "0x00000000000000000000000000000001" 1000 (ArgText "2.50")
    "{}" "{}" 9000 "req-1" (Some 1000).

Definition sample_history : list op :=
  [OpReserve "0xAA" "0xbb" (Some 1000) 1000; OpPrepare sample_prepare 1000].

Definition sample_db : db := run sample_history empty_db.

Definition sample_sent : db :=
  (mark_send_attempted "0x00000000000000000000000000000001" None (Some 1100) 1100 sample_db).1.

Definition sample_row (s : db) : ActionRow :=
  default (MkAction "" "" "" "" "" 0 0 "" "" "" "" 0 "" UNKNOWN None 0 0 None None)
    (actions s !! "0x00000000000000000000000000000001").

Definition sample_record (s : db) : ActionRecord :=
  match record_of (sample_row s) with
  | Ok r => r
  | Raise _ => with_sizes (sample_row s) dzero dzero
  end.

Lemma sample_reachable : reachable sample_db.
Proof. by exists sample_history. Qed.

Lemma sample_sent_reachable : reachable sample_sent.
Proof.
  exists (sample_history ++ [OpSendAttempted "0x00000000000000000000000000000001" None (Some 1100) 1100]).
  vm_compute. reflexivity.
Qed.

Lemma nonce_never_reused_witness :
  exists s1 s3, reserve_nonce "0xAA" "0xbb" (Some 1000) 1000 empty_db = (s1, Ok 1000) /\
    reserve_nonce "0xaa" "0xBB" (Some 7) 7 (run [OpPrepare sample_prepare 1000] s1) = (s3, Ok 1001) /\
    1000 < 1001.
Proof.
  eexists _, _. split; [vm_compute; reflexivity|]. split; [vm_compute; reflexivity|].
  refine (proj1 (nonce_never_reused "0xAA" "0xbb" "0xaa" "0xBB" (Some 1000) (Some 7) 1000 7 empty_db
    (reserve_nonce "0xAA" "0xbb" (Some 1000) 1000 empty_db).1 _ 1000 1001 [OpPrepare sample_prepare 1000]
    _ _ _ _)); vm_compute; reflexivity.
Defined.

Lemma journal_consistent_witness :
  actions sample_db !! "0x00000000000000000000000000000001" = Some (sample_row sample_db) /\
  exists r, record_of (sample_row sample_db) = Ok r /\ (0 < dval (requested_size r))%Q.
Proof.
  split; [vm_compute; reflexivity|].
  destruct (proj1 (journal_consistent sample_db sample_reachable) "0x00000000000000000000000000000001"
    (sample_row sample_db)) as (r & Hr & _ & Hq & _); [vm_compute; reflexivity|].
  exists r. split; assumption.
Defined.

Lemma send_at_most_once_witness :
  exists e, mark_send_attempted "0x00000000000000000000000000000001" None None 1200 sample_sent
            = (sample_sent, Raise e).
Proof.
  refine (proj1 (proj2 (send_at_most_once "0x00000000000000000000000000000001" None (Some 1100) 1100 sample_db
    sample_sent (sample_record sample_sent) [] sample_reachable _)) None None 1200).
  vm_compute. reflexivity.
Defined.

Lemma fill_truth_witness :
  is_ok (record_cumulative_fill "0x00000000000000000000000000000001" (ArgDecimal (Fin (dint 1))) (Some 1200) 1200
           sample_sent).2 = true.
Proof.
  refine (proj2 (proj1 (fill_truth "0x00000000000000000000000000000001" "0x00000000000000000000000000000001"
    (dint 1) (Some 1200) 1200 sample_sent _ _ (sample_row sample_sent) (sample_record sample_sent)
    sample_sent_reachable _ _ _ _ _ (surjective_pairing _))) _).
  all: try (vm_compute; reflexivity).
  - vm_compute. discriminate.
  - vm_compute. split; reflexivity.
  - split; [split; vm_compute; discriminate|right; vm_compute; reflexivity].
Defined.

Lemma recovery_complete_witness :
  exists l, recovery_actions (Some "0xAA") (Some "0xBB") sample_db = Ok l /\
    (terminal (sample_record sample_db) = true \/ sample_record sample_db ∈ l).
Proof.
  destruct (recovery_complete "0xAA" "0xBB" "0xaa" "0xbb" sample_db sample_reachable) as (l & Hl & _ & _ & H);
    [vm_compute; reflexivity..|].
  exists l. split; [assumption|].
  apply (H "0x00000000000000000000000000000001" (sample_row sample_db)); vm_compute; reflexivity.
Defined.

Lemma prepare_is_exact_witness :
  exists s' rec, prepare_action sample_prepare 1000 (run [OpReserve "0xAA" "0xbb" (Some 1000) 1000] empty_db)
                 = (s', Ok rec) /\ get_action (p_cloid sample_prepare) s' = Ok (Some rec).
Proof.
  exists sample_db, (sample_record sample_db). split; [vm_compute; reflexivity|].
  apply (prepare_is_exact sample_prepare 1000 (run [OpReserve "0xAA" "0xbb" (Some 1000) 1000] empty_db)
    sample_db (sample_record sample_db)).
  vm_compute. reflexivity.
Defined.
