(* ===== verification/OrderStatus.v ===== *)
(** reconciliation.py: what an [orderStatus] answer proves about one order.

    [visit] collects the evidence of the whole payload (statuses, executed,
    original and remaining sizes, the first order id), [classify_order_status]
    decides from it.  The rest of reconciliation.py (REST admission, the
    follower refresh) is not modelled here. *)

From S2P Require Import Prelude PyDecimal DecimalFacts PyText.
From Stdlib Require Import QArith Lqa.

Open Scope Z_scope.

(** * Evidence *)

Record OrderStatusResolution := MkResolution {
  resolved : bool;
  os_terminal : bool;
  os_state : string;
  cumulative_filled_abs : dec;
  os_oid : option Z;
  raw : json;
}.

Record evidence := MkEvidence {
  statuses : list string;
  quantities : list dec;
  oid : option Z;
  original_sizes : list dec;
  remaining_sizes : list dec;
}.

Definition no_evidence : evidence := MkEvidence [] [] None [] [].

(** [decimal_value] *)
Definition decimal_value (value : json) : option dec :=
  match decimal_of_string (py_str value) with
  | Some (Fin d) => if dnegative d then None else Some (dabs d)
  | _ => None
  end.

(** The numbers among the values of [keys], in this order. *)
Definition decimals_at (keys : list string) (o : list (string * json)) : list dec :=
  omap (fun k => match obj_field k o with JNull => None | v => decimal_value v end) keys.

(** What [visit] reads of one object before it goes into its values. *)
Definition visit_fields (o : list (string * json)) (e : evidence) : evidence :=
  MkEvidence
    (match obj_field "status" o with JStr s => statuses e ++ [s] | _ => statuses e end)
    (quantities e ++ decimals_at ["totalSz"; "filledSz"; "filledSize"; "executedSz"] o)
    (match obj_field "oid" o, oid e with
     | JNull, _ | _, Some _ => oid e
     | v, None => match json_int v with Ok z => Some z | Raise _ => None end
     end)
    (original_sizes e ++ decimals_at ["origSz"; "originalSz"] o)
    (remaining_sizes e ++ decimals_at ["sz"] o).

Fixpoint visit (value : json) (e : evidence) : evidence :=
  match value with
  | JObj o =>
      (fix fields (o : list (string * json)) (e : evidence) : evidence :=
         match o with
         | [] => e
         | (_, nested) :: rest => fields rest (visit nested e)
         end) o (visit_fields o e)
  | JList l =>
      (fix items (l : list json) (e : evidence) : evidence :=
         match l with
         | [] => e
         | nested :: rest => items rest (visit nested e)
         end) l e
  | _ => e
  end.

(** * The decision *)

Definition normalize_status (status : string) : string :=
  of_chars (filter (fun c => is_alnum c = true) (to_chars (py_lower status))).

(** [max(l)] and [min(l)] of a list with first element [x]: the first extreme one. *)
Definition dmax_list (x : dec) (l : list dec) : dec := fold_left dmax l x.
Definition dmin_list (x : dec) (l : list dec) : dec := fold_left dmin l x.

Definition cumulative_of (e : evidence) : dec :=
  let executed := match quantities e with [] => dzero | x :: l => dmax_list x l end in
  match original_sizes e, remaining_sizes e with
  | x :: l, y :: m => dmax executed (dmax dzero (dsub (dmax_list x l) (dmin_list y m)))
  | _, _ => executed
  end.

Definition terminal_states : list (string * string) :=
  [("filled", "filled"); ("canceled", "cancelled"); ("cancelled", "cancelled"); ("rejected", "rejected");
   ("expired", "expired"); ("margincanceled", "cancelled"); ("margincancelled", "cancelled");
   ("openinterestcapcanceled", "cancelled"); ("openinterestcapcancelled", "cancelled");
   ("selftradecanceled", "cancelled"); ("selftradecancelled", "cancelled")].

Definition terminal_state (status : string) : option string :=
  match dict_get status terminal_states with
  | Some state => Some state
  | None =>
      if bool_decide (status = "scheduledcancel") || ends_with "canceled" status || ends_with "cancelled" status
      then Some "cancelled"
      else if ends_with "rejected" status then Some "rejected" else None
  end.

Definition open_state (status : string) : option string :=
  if bool_decide (status ∈ ["partiallyfilled"; "partialfill"]) then Some "partially_filled"
  else if bool_decide (status ∈ ["open"; "resting"; "triggered"; "pending"]) then Some "resting"
  else None.

(** The first status for which [f] answers. *)
Fixpoint first_of (f : string -> option string) (l : list string) : option string :=
  match l with
  | [] => None
  | s :: rest => match f s with Some x => Some x | None => first_of f rest end
  end.

Definition classify_order_status (payload : json) (expected_size : pydec) : res OrderStatusResolution :=
  match expected_size with
  | Fin expected =>
      if dleb expected dzero then Raise (ValueError "expected order size must be finite and positive") else
      let e := visit payload no_evidence in
      let normalized := normalize_status <$> statuses e in
      let cumulative := cumulative_of e in
      if dltb expected cumulative
      then Ok (MkResolution false false "reported_fill_exceeds_submitted_size" cumulative (oid e) payload) else
      match first_of terminal_state normalized with
      | Some state =>
          let cumulative := if bool_decide (state = "filled") && deqb cumulative dzero then expected else cumulative in
          Ok (MkResolution true true state cumulative (oid e) payload)
      | None =>
          match first_of open_state normalized with
          | Some state => Ok (MkResolution true false state cumulative (oid e) payload)
          | None => Ok (MkResolution false false "unknown_transport_outcome" cumulative (oid e) payload)
          end
      end
  | _ => Raise (ValueError "expected order size must be finite and positive")
  end.

(** * What the decision means *)

Lemma visit_preserves (P : evidence -> Prop) :
  (forall o e, P e -> P (visit_fields o e)) -> forall v e, P e -> P (visit v e).
Proof.
  intros H. fix IH 1. intros v e He. destruct v as [| | | | |l|o]; cbn; try exact He.
  - revert e He. induction l as [|v l IHl]; intros e He; [exact He|]. apply IHl, IH, He.
  - assert (P (visit_fields o e)) as He' by by apply H. revert He'. generalize (visit_fields o e). clear e He.
    induction o as [|[k v] o IHo]; intros e He; [exact He|]. apply IHo, IH, He.
Qed.

Definition nonneg (d : dec) : Prop := (0 <= dval d)%Q.

Lemma decimal_value_nonneg v d : decimal_value v = Some d -> nonneg d.
Proof.
  unfold decimal_value. destruct (decimal_of_string _) as [[x| |]|]; try done.
  destruct (dnegative x); [done|]. intros [= <-]. unfold nonneg.
  pose proof (near_sign ulp28 _ _ (proj1 ulp28_range) (proj2 ulp28_range) (dabs_near x)) as [_ Hz].
  pose proof (Qabs.Qabs_nonneg (dval x)) as Ha. apply Qnot_lt_le. intros ?%Hz. lra.
Qed.

Lemma quantities_nonneg payload : Forall nonneg (quantities (visit payload no_evidence)).
Proof.
  apply (visit_preserves (fun e => Forall nonneg (quantities e))); [|constructor].
  intros o e He. cbn [visit_fields quantities]. apply Forall_app. split; [done|].
  apply list.Forall_forall. intros d Hd. unfold decimals_at in Hd. apply list_elem_of_omap in Hd as (k & _ & Hk).
  destruct (obj_field k o); try done; by apply decimal_value_nonneg in Hk.
Qed.

Lemma dmax_spec a b : (dval a <= dval (dmax a b) /\ dval b <= dval (dmax a b))%Q /\ (dmax a b = a \/ dmax a b = b).
Proof.
  unfold dmax. destruct (dltb a b) eqn:E; [apply dltb_spec in E|apply dltb_false in E];
    (split; [split; lra|auto]).
Qed.

Lemma dmax_list_ge x l d : d ∈ x :: l -> (dval d <= dval (dmax_list x l))%Q.
Proof.
  unfold dmax_list. revert x d. induction l as [|y l IH]; intros x d Hd; cbn.
  - apply list_elem_of_singleton in Hd as ->. apply Qle_refl.
  - destruct (dmax_spec x y) as [[Hx Hy] _].
    pose proof (IH (dmax x y) (dmax x y) ltac:(by left)) as Hm.
    apply elem_of_cons in Hd as [->|Hd]; [lra|]. apply elem_of_cons in Hd as [->|Hd]; [lra|].
    apply IH. by right.
Qed.

Lemma cumulative_ge payload d :
  d ∈ quantities (visit payload no_evidence) -> (dval d <= dval (cumulative_of (visit payload no_evidence)))%Q.
Proof.
  set (e := visit payload no_evidence). intros Hd. unfold cumulative_of.
  destruct (quantities e) as [|x l] eqn:Eq; [by apply not_elem_of_nil in Hd|].
  pose proof (dmax_list_ge x l d Hd) as H. destruct (original_sizes e) as [|a la]; [done|].
  destruct (remaining_sizes e) as [|b lb]; [done|].
  match goal with |- (_ <= dval (dmax ?u ?v))%Q => destruct (dmax_spec u v) as [[Hu _] _] end. lra.
Qed.

Lemma cumulative_nonneg payload : nonneg (cumulative_of (visit payload no_evidence)).
Proof.
  pose proof (quantities_nonneg payload) as Hq. pose proof (cumulative_ge payload) as Hge.
  unfold nonneg in |- *.
  set (e := visit payload no_evidence) in *.
  destruct (quantities e) as [|x l] eqn:Eq.
  - unfold cumulative_of. rewrite Eq. destruct (original_sizes e) as [|a la]; [apply Qle_refl|].
    destruct (remaining_sizes e) as [|b lb]; [apply Qle_refl|].
    match goal with |- (_ <= dval (dmax ?u (dmax dzero ?w)))%Q =>
      destruct (dmax_spec u (dmax dzero w)) as [[_ Hv] _], (dmax_spec dzero w) as [[Hw _] _] end.
    rewrite dval_zero in Hw. by eapply Qle_trans.
  - apply Forall_cons_1 in Hq as [Hx _]. unfold nonneg in Hx. specialize (Hge x ltac:(by left)). lra.
Qed.

Lemma first_of_None f l : first_of f l = None <-> Forall (fun s => f s = None) l.
Proof.
  induction l as [|s l IH]; cbn; [by split; constructor|]. rewrite list.Forall_cons.
  destruct (f s); [split; [done|by intros []]|]. rewrite IH. tauto.
Qed.

Lemma first_of_Some f l x : first_of f l = Some x ->
  exists l1 s l2, l = l1 ++ s :: l2 /\ f s = Some x /\ Forall (fun s => f s = None) l1.
Proof.
  induction l as [|s l IH]; cbn; [done|]. destruct (f s) as [y|] eqn:E.
  - intros [= ->]. by exists [], s, l.
  - intros (l1 & s' & l2 & -> & Hs & Hl)%IH. exists (s :: l1), s', l2. split_and!; [done..|]. by constructor.
Qed.

Lemma open_state_not_filled s x : open_state s = Some x -> x <> "filled".
Proof. unfold open_state. repeat case_bool_decide; intros [= <-]; done. Qed.

Section Resolution.
Variables (payload : json) (expected : dec).
Hypothesis Hpos : (0 < dval expected)%Q.

Let e := visit payload no_evidence.
Let names := normalize_status <$> statuses e.

Definition resolution_ok (r : OrderStatusResolution) : Prop :=
  raw r = payload /\ os_oid r = oid e /\
  (0 <= dval (cumulative_filled_abs r))%Q /\
  (forall d, d ∈ quantities e -> (dval d <= dval (cumulative_filled_abs r))%Q) /\
  (resolved r = true -> (dval (cumulative_filled_abs r) <= dval expected)%Q) /\
  (os_terminal r = true <->
     (dval (cumulative_of e) <= dval expected)%Q /\ exists s, s ∈ names /\ is_Some (terminal_state s)) /\
  (os_terminal r = true -> resolved r = true /\
     exists l1 s l2, names = l1 ++ s :: l2 /\ Forall (fun n => terminal_state n = None) l1 /\
       terminal_state s = Some (os_state r)) /\
  (os_state r = "filled" -> (0 < dval (cumulative_filled_abs r))%Q) /\
  (resolved r = false <->
     (dval expected < dval (cumulative_of e))%Q \/
     Forall (fun n => terminal_state n = None /\ open_state n = None) names).

Let Hnn : (0 <= dval (cumulative_of e))%Q.
Proof. apply cumulative_nonneg. Qed.

Lemma overfill_ok :
  (dval expected < dval (cumulative_of e))%Q ->
  resolution_ok (MkResolution false false "reported_fill_exceeds_submitted_size" (cumulative_of e) (oid e) payload).
Proof.
  intros Eo. unfold resolution_ok. cbn. split_and!; try done.
  - apply cumulative_ge.
  - split; [done|]. intros [H _]. lra.
  - split; [auto|done].
Qed.

Lemma terminal_ok state :
  (dval (cumulative_of e) <= dval expected)%Q -> first_of terminal_state names = Some state ->
  resolution_ok (MkResolution true true state
    (if bool_decide (state = "filled") && deqb (cumulative_of e) dzero then expected else cumulative_of e)
    (oid e) payload).
Proof.
  intros Eo (l1 & s & l2 & En & Hs & Hl)%first_of_Some. set (c := if _ && _ then _ else _).
  assert (dval (cumulative_of e) <= dval c <= dval expected /\ (state = "filled" -> 0 < dval c))%Q as [[Hc1 Hc2] Hc3].
  { unfold c. destruct (bool_decide (state = "filled")) eqn:Ef; cbn [andb];
      [destruct (deqb (cumulative_of e) dzero) eqn:Ez|]; bool_prop.
    - split; [lra|done].
    - apply deqb_false in Ez. rewrite dval_zero in Ez. split; [lra|]. intros _.
      destruct (Qle_lt_or_eq _ _ Hnn) as [?|Hq]; [done|]. by destruct Ez.
    - split; [lra|done]. }
  assert (s ∈ names) as Hin by (rewrite En; set_solver).
  unfold resolution_ok. cbn. split_and!; try done.
  - lra.
  - intros d Hd. pose proof (cumulative_ge payload d Hd). unfold e in Hc1. lra.
  - split; [|done]. intros _. split; [done|]. exists s. rewrite Hs. eauto.
  - intros _. split; [done|]. by exists l1, s, l2.
  - split; [done|]. intros [H|H]; [lra|]. rewrite list.Forall_forall in H. destruct (H s Hin). congruence.
Qed.

Lemma no_terminal : first_of terminal_state names = None -> ~ exists s, s ∈ names /\ is_Some (terminal_state s).
Proof.
  intros Et%first_of_None (s & Hs & [x Hx]). rewrite list.Forall_forall in Et. specialize (Et s Hs). congruence.
Qed.

Lemma open_ok state :
  (dval (cumulative_of e) <= dval expected)%Q -> first_of terminal_state names = None ->
  first_of open_state names = Some state ->
  resolution_ok (MkResolution true false state (cumulative_of e) (oid e) payload).
Proof.
  intros Eo Et%no_terminal (l1 & s & l2 & En & Hs & Hl)%first_of_Some.
  assert (s ∈ names) as Hin by (rewrite En; set_solver).
  unfold resolution_ok. cbn. split_and!; try done.
  - apply cumulative_ge.
  - split; [done|]. by intros [_ H].
  - intros ->. by apply open_state_not_filled in Hs.
  - split; [done|]. intros [H|H]; [lra|]. rewrite list.Forall_forall in H. destruct (H s Hin). congruence.
Qed.

Lemma unknown_ok :
  (dval (cumulative_of e) <= dval expected)%Q -> first_of terminal_state names = None ->
  first_of open_state names = None ->
  resolution_ok (MkResolution false false "unknown_transport_outcome" (cumulative_of e) (oid e) payload).
Proof.
  intros Eo Et Ep%first_of_None. pose proof (no_terminal Et) as Hno. apply first_of_None in Et.
  unfold resolution_ok. cbn. split_and!; try done.
  - apply cumulative_ge.
  - split; [done|]. by intros [_ H].
  - split; [|done]. intros _. right. rewrite !list.Forall_forall in *. auto.
Qed.
End Resolution.

(** An order-status answer is read without loss and without overclaiming: for
    a positive submitted size the classifier always answers; the cumulative fill
    is never negative, is at least every executed size found anywhere in the
    payload, and exceeds the submitted size only in an unresolved answer; the
    answer is terminal exactly when the fill is within the size and some status
    of the payload is terminal, and then it is the first such status that counts,
    whatever open statuses stand next to it; FILLED always has a positive
    quantity; and an answer without any recognised status is unresolved. *)
Theorem order_status_sound payload expected :
  (0 < dval expected)%Q ->
  let e := visit payload no_evidence in
  let names := normalize_status <$> statuses e in
  exists r, classify_order_status payload (Fin expected) = Ok r /\
  raw r = payload /\ os_oid r = oid e /\
  (0 <= dval (cumulative_filled_abs r))%Q /\
  (forall d, d ∈ quantities e -> (dval d <= dval (cumulative_filled_abs r))%Q) /\
  (resolved r = true -> (dval (cumulative_filled_abs r) <= dval expected)%Q) /\
  (os_terminal r = true <->
     (dval (cumulative_of e) <= dval expected)%Q /\ exists s, s ∈ names /\ is_Some (terminal_state s)) /\
  (os_terminal r = true -> resolved r = true /\
     exists l1 s l2, names = l1 ++ s :: l2 /\ Forall (fun n => terminal_state n = None) l1 /\
       terminal_state s = Some (os_state r)) /\
  (os_state r = "filled" -> (0 < dval (cumulative_filled_abs r))%Q) /\
  (resolved r = false <->
     (dval expected < dval (cumulative_of e))%Q \/
     Forall (fun n => terminal_state n = None /\ open_state n = None) names).
Proof.
  intros Hpos e names. unfold classify_order_status.
  rewrite (proj2 (dleb_false expected dzero)) by (by rewrite dval_zero). fold e. fold names. cbv zeta.
  destruct (dltb expected (cumulative_of e)) eqn:Eo.
  { apply dltb_spec in Eo. eexists. split; [reflexivity|]. by apply overfill_ok. }
  apply dltb_false in Eo. destruct (first_of terminal_state names) as [state|] eqn:Et.
  { eexists. split; [reflexivity|]. by apply terminal_ok. }
  destruct (first_of open_state names) as [state|] eqn:Ep; eexists; (split; [reflexivity|]).
  - by apply open_ok.
  - by apply unknown_ok.
Qed.

Definition sample_status : json :=
  JObj [("status", JStr "order");
        ("order", JObj [("order", JObj [("oid", JInt 77); ("origSz", JStr "2.0"); ("sz", JStr "0.5")]);
                        ("status", JStr "marginCanceled")])].

Lemma order_status_sound_witness :
  exists r, classify_order_status sample_status (Fin (dint 2)) = Ok r /\ os_terminal r = true /\
    os_state r = "cancelled" /\ deqb (cumulative_filled_abs r) (Dec false 15 (-1)) = true.
Proof.
  destruct (order_status_sound sample_status (dint 2)) as (r & Hr & _ & _ & _ & _ & _ & Ht & _);
    [vm_compute; reflexivity|].
  exists r. split; [assumption|]. split.
  - apply Ht. split; [vm_compute; discriminate|]. exists "margincanceled".
    split; [apply list_elem_of_In; vm_compute; right; left; reflexivity|vm_compute; eauto].
  - vm_compute in Hr. injection Hr as <-. split; vm_compute; reflexivity.
Defined.
