(* ===== verification/WsActions.v ===== *)
(** ws_actions.py: immediate-or-cancel actions, the classification of their
    responses, and the WebSocket POST multiplexer.

    The multiplexer is a state ([mux]: attached socket, epoch, request counter,
    send gate, table of pending futures) with one function per method.  A call of
    [_post] runs from one [await] to the next; [step] advances the system by one
    such segment or by one event of its environment (attach, close, message).
    The event loop interleaves segments in any order; the condition variable of
    the gate is never held across an [await], so entering and leaving the gate
    are atomic.  Sockets, futures' callbacks and timers are not modelled beyond
    the event that ends each [await].  [sign_l1_action] of the exchange SDK and
    [json.loads] of received frames are parameters. *)

From S2P Require Import Prelude PyDecimal PyText Models.
From Stdlib Require Import Ascii.

Open Scope Z_scope.

(** * Results *)

Inductive PostOutcome :=
  | PO_NOT_SENT | PO_UNKNOWN | PO_REJECTED | PO_FILLED | PO_PARTIALLY_FILLED | PO_CANCELLED | PO_INFO.

#[export] Instance PostOutcome_eq_dec : EqDecision PostOutcome.
Proof. solve_decision. Defined.

Record PostResult := MkPost {
  post_request_id : Z;
  post_outcome : PostOutcome;
  post_response : json;
  post_reason : string;
  post_filled_size : dec;
  average_fill_price : option dec;
  order_id : option Z;
}.

Definition post_terminal (r : PostResult) : bool := negb (bool_decide (post_outcome r = PO_UNKNOWN)).

(** A result without fill details. *)
Definition bare_result (id : Z) (o : PostOutcome) (response : json) (reason : string) : PostResult :=
  MkPost id o response reason dzero None None.

(** * Immediate-or-cancel actions *)

(** Characters after the first point, if any. *)
Definition decimals_after_point (l : chars) : nat := List.length (split_at "."%char l).2.

Definition wire_decimal (value : pydec) : res string :=
  match value with
  | Fin d =>
      if dleb d dzero then Raise (ValueError "wire decimal must be finite and positive") else
      let normalized := dec_to_fixed (normalize d) in
      if (8 <? decimals_after_point (to_chars normalized))%nat
      then Raise (ValueError "wire decimal exceeds eight decimal places") else Ok normalized
  | _ => Raise (ValueError "wire decimal must be finite and positive")
  end.

Record IocAction := MkIoc { ioc_cloid : string; ioc_expected_size : dec; ioc_action : list (string * json) }.

Definition validate_ioc_wire (action : list (string * json)) (outer_cloid : string) : res unit :=
  if negb (json_is_str "order" (obj_field "type" action)) || negb (json_is_str "na" (obj_field "grouping" action))
  then Raise (ValueError "IOC action envelope is invalid") else
  match obj_field "orders" action with
  | JList [JObj order] =>
      match obj_field "c" order with
      | JStr wire_cloid =>
          normalized ← validate_cloid wire_cloid;
          if negb (bool_decide (normalized = wire_cloid)) || negb (bool_decide (wire_cloid = outer_cloid))
          then Raise (ValueError "outer CLOID does not match IOC wire order CLOID") else
          match obj_field "t" order with
          | JObj t =>
              match obj_field "limit" t with
              | JObj limit =>
                  if json_is_str "Ioc" (obj_field "tif" limit) then Ok tt
                  else Raise (ValueError "wire order is not IOC")
              | _ => Raise (ValueError "wire order is not IOC")
              end
          | _ => Raise (ValueError "wire order is not IOC")
          end
      | _ => Raise (ValueError "outer CLOID does not match IOC wire order CLOID")
      end
  | JList [_] => Raise (ValueError "IOC wire order is invalid")
  | _ => Raise (ValueError "IOC action must contain exactly one order")
  end.

(** [IocAction.__post_init__] *)
Definition make_ioc (cloid : string) (expected_size : pydec) (action : list (string * json)) : res IocAction :=
  normalized ← validate_cloid cloid;
  if negb (bool_decide (normalized = cloid)) then Raise (ValueError "IOC CLOID must be lowercase") else
  match expected_size with
  | Fin d =>
      if dleb d dzero then Raise (ValueError "IOC expected size must be finite and positive") else
      validate_ioc_wire action cloid ;; Ok (MkIoc cloid d action)
  | _ => Raise (ValueError "IOC expected size must be finite and positive")
  end.

Definition pydec_abs (d : pydec) : pydec :=
  match d with Fin d => Fin (dabs d) | Inf _ => Inf false | NaN => NaN end.

Definition build_ioc_action (asset_id : Z) (is_buy : bool) (size limit_px : pydec) (reduce_only : bool)
    (cloid : string) : res IocAction :=
  normalized_cloid ← validate_cloid cloid;
  if asset_id <? 0 then Raise (ValueError "asset ID must be a non-negative integer") else
  let expected_size := pydec_abs size in
  p ← wire_decimal limit_px;
  s ← wire_decimal expected_size;
  make_ioc normalized_cloid expected_size
    [("type", JStr "order");
     ("orders", JList [JObj [("a", JInt asset_id); ("b", JBool is_buy); ("p", JStr p); ("s", JStr s);
        ("r", JBool reduce_only); ("t", JObj [("limit", JObj [("tif", JStr "Ioc")])]);
        ("c", JStr normalized_cloid)]]);
     ("grouping", JStr "na")].

Record SignedIocAction := MkSigned {
  signed_ioc : IocAction;
  signed_nonce : Z;
  signed_expires_after_ms : Z;
  signed_payload : list (string * json);
}.

Definition check_signing_numbers (nonce expires_after_ms : Z) : res unit :=
  if nonce <? 0 then Raise (ValueError "nonce must be a non-negative integer") else
  if expires_after_ms <=? 0 then Raise (ValueError "expiresAfter must be a positive millisecond timestamp") else
  Ok tt.

(** [SignedIocAction.__post_init__] *)
Definition make_signed (ioc : IocAction) (nonce expires_after_ms : Z) (payload : list (string * json))
    : res SignedIocAction :=
  validate_ioc_wire (ioc_action ioc) (ioc_cloid ioc) ;;
  check_signing_numbers nonce expires_after_ms ;;
  if negb (json_eqb (obj_field "action" payload) (JObj (ioc_action ioc)))
  then Raise (ValueError "signed payload action does not match IOC action") else
  if negb (json_eq_int (obj_field "nonce" payload) nonce)
  then Raise (ValueError "signed payload nonce does not match assigned nonce") else
  if negb (json_eq_int (obj_field "expiresAfter" payload) expires_after_ms)
  then Raise (ValueError "signed payload expiresAfter does not match assigned expiry") else
  Ok (MkSigned ioc nonce expires_after_ms payload).

Section Signing.
(** [sign_l1_action(wallet, action, vault_address, nonce, expires_after_ms, is_mainnet)] of the SDK. *)
Variable sign_l1_action : list (string * json) -> option string -> Z -> Z -> bool -> res json.

Definition sign_ioc_action (ioc : IocAction) (nonce expires_after_ms : Z) (is_mainnet : bool)
    (vault_address : option string) : res SignedIocAction :=
  check_signing_numbers nonce expires_after_ms ;;
  validate_ioc_wire (ioc_action ioc) (ioc_cloid ioc) ;;
  signature ← sign_l1_action (ioc_action ioc) vault_address nonce expires_after_ms is_mainnet;
  make_signed ioc nonce expires_after_ms
    [("action", JObj (ioc_action ioc)); ("nonce", JInt nonce); ("signature", signature);
     ("vaultAddress", match vault_address with Some v => JStr v | None => JNull end);
     ("expiresAfter", JInt expires_after_ms)].
End Signing.

(** * Classification of a response *)

Definition objects_of (l : list json) : list (list (string * json)) := omap as_obj l.

Fixpoint item_statuses (payload : json) : list (list (string * json)) :=
  match payload with
  | JObj o =>
      let nested :=
        (fix go (o : list (string * json)) : list (list (string * json)) :=
           match o with
           | [] => []
           | (_, value) :: rest => match item_statuses value with [] => go rest | found => found end
           end) o in
      match obj_field "data" o with
      | JObj data =>
          match obj_field "statuses" data with
          | JList l => objects_of l
          | _ => match obj_field "statuses" o with JList l => objects_of l | _ => nested end
          end
      | _ => match obj_field "statuses" o with JList l => objects_of l | _ => nested end
      end
  | _ => []
  end.

(** The first of [keys] that is present. *)
Fixpoint first_field (keys : list string) (o : list (string * json)) : option json :=
  match keys with
  | [] => None
  | k :: rest => match obj_field k o with JNull => first_field rest o | v => Some v end
  end.

Definition filled_size (status : list (string * json)) : option dec :=
  match obj_field "filled" status with
  | JObj filled =>
      v ← first_field ["totalSz"; "sz"; "size"] filled;
      match decimal_of_string (py_str v) with
      | Some (Fin d) => Some (dabs d)
      | _ => None
      end
  | _ => None
  end.

Definition filled_price_and_oid (status : list (string * json)) : option dec * option Z :=
  match obj_field "filled" status with
  | JObj filled =>
      let average :=
        v ← first_field ["avgPx"; "averagePx"; "averagePrice"] filled;
        match decimal_of_string (py_str v) with
        | Some (Fin d) => if dpos d then Some d else None
        | _ => None
        end in
      let oid :=
        match obj_field "oid" filled with
        | JNull => None
        | v => match json_int v with Ok z => if 0 <=? z then Some z else None | Raise _ => None end
        end in
      (average, oid)
  | _ => (None, None)
  end.

(** ** The request id in the text of a server error *)

Definition is_word (c : ascii) : bool := is_alnum c || bool_decide (c = "_"%char).

Definition at_boundary (l : chars) : bool := match l with [] => true | c :: _ => negb (is_word c) end.

(** The first match of [\bid=(\d+)\b]; [before] tells whether the previous character is a word character. *)
Fixpoint search_id (before : bool) (l : chars) : option Z :=
  match l with
  | [] => None
  | c :: t =>
      let here :=
        if negb before && starts_with "id=" (of_chars l) then
          match read_digits (drop 3 l) 0 with
          | (v, S _, rest) => if at_boundary rest then Some (Z.of_N v) else None
          | _ => None
          end
        else None in
      match here with Some v => Some v | None => search_id (is_word c) t end
  end.

Definition server_error_identity (data : json) : option Z * string :=
  match data with
  | JObj o =>
      (match obj_field "id" o with JInt z => Some z | _ => None end,
       py_str (json_or (obj_field "error" o) (json_or (obj_field "message" o) data)))
  | _ =>
      let detail := py_str data in (search_id false (to_chars detail), detail)
  end.

Definition bounded_exchange_error (data : json) : string :=
  let normalized := squeeze 240 (server_error_identity data).2 in
  if bool_decide (normalized ∈ [""; "{}"]) then "" else normalized.

Definition with_detail (reason detail : string) : string :=
  if is_empty detail then reason else reason +:+ ": " +:+ detail.

(** The value of the first field whose name, in lower case, is one of [names]. *)
Fixpoint find_field (names : list string) (o : list (string * json)) : option json :=
  match o with
  | [] => None
  | (k, v) :: rest => if bool_decide (py_lower k ∈ names) then Some v else find_field names rest
  end.

Definition classify_item (item : list (string * json)) (response : json) (expected : dec) : PostResult :=
  match find_field ["error"; "err"] item with
  | Some value => bare_result 0 PO_REJECTED response (with_detail "item_error" (squeeze 240 (py_str value)))
  | None =>
      match filled_size item with
      | Some filled =>
          let '(average, oid) := filled_price_and_oid item in
          if dleb filled dzero then bare_result 0 PO_UNKNOWN response "invalid_filled_size"
          else if dltb expected filled then bare_result 0 PO_UNKNOWN response "reported_fill_exceeds_submitted_size"
          else if dltb filled expected
          then MkPost 0 PO_PARTIALLY_FILLED response "ioc_partial_fill_terminal" filled average oid
          else MkPost 0 PO_FILLED response "filled" filled average oid
      | None =>
          if bool_decide (is_Some (obj_get "resting" item))
          then bare_result 0 PO_UNKNOWN response "ioc_resting_protocol_error"
          else if bool_decide (is_Some (find_field ["cancel"; "cancelled"; "canceled"] item))
          then bare_result 0 PO_CANCELLED response "ioc_cancelled"
          else bare_result 0 PO_UNKNOWN response "unclassified_item_status"
      end
  end.

(** The payload of an action response, out of its envelope. *)
Definition action_payload (response : json) : json :=
  match response with
  | JObj o => if json_is_str "action" (obj_field "type" o) then obj_field "payload" o else response
  | _ => response
  end.

(** [_item_statuses(payload.get("response", payload))] *)
Definition response_items (o : list (string * json)) : list (list (string * json)) :=
  item_statuses (default (JObj o) (obj_get "response" o)).

Definition classify_ioc_response (response : json) (expected_size : pydec) : res PostResult :=
  match expected_size with
  | Fin expected =>
      if dleb expected dzero then Raise (ValueError "expected size must be finite and positive") else
      let payload := action_payload response in
      Ok match payload with
         | JObj o =>
             if json_is_str "error" (obj_field "type" o)
             then bare_result 0 PO_REJECTED response (with_detail "server_error_response" (bounded_exchange_error payload))
             else if bool_decide (py_lower (str_or_empty (obj_field "status" o)) ∈ ["err"; "error"; "failed"; "rejected"])
             then bare_result 0 PO_REJECTED response (with_detail "top_level_error" (bounded_exchange_error payload))
             else
               match response_items o with
               | [item] => classify_item item response expected
               | _ => bare_result 0 PO_UNKNOWN response "missing_or_ambiguous_item_status"
               end
         | _ => bare_result 0 PO_UNKNOWN response "malformed_action_response"
         end
  | _ => Raise (ValueError "expected size must be finite and positive")
  end.

(** * The multiplexer *)

Inductive WireOutcome := W_NOT_SENT | W_RESPONSE | W_REJECTED | W_UNKNOWN.

Record WireResult := MkWire {
  wire_request_id : Z;
  wire_outcome : WireOutcome;
  wire_response : json;
  wire_reason : string;
}.

(** A future: pending, a result, or an exception with its text. *)
Inductive future := Waiting | Result (response : json) | Failed (error : string).

Definition fdone (f : future) : bool := match f with Waiting => false | _ => true end.

Record Pending := MkPending { pending_epoch : Z; pending_future : future }.

Record mux := MkMux {
  attached : bool;
  epoch : Z;
  request_id : Z;
  held : bool;
  action_waiters : Z;
  pendings : gmap Z Pending;
}.

Definition new_mux : mux := MkMux false 0 0 false 0 ∅.

Definition connection_epoch (m : mux) : option Z := if attached m then Some (epoch m) else None.

Definition capture_epoch (m : mux) : res Z :=
  match connection_epoch m with
  | Some e => Ok e
  | None => Raise (ConnectionError "WebSocket POST transport is disconnected")
  end.

Definition attach (m : mux) : res mux :=
  if attached m then Raise (RuntimeError "a WebSocket POST connection is already attached")
  else Ok (MkMux true (epoch m + 1) (request_id m) (held m) (action_waiters m) (pendings m)).

Definition set_pendings (f : gmap Z Pending -> gmap Z Pending) (m : mux) : mux :=
  MkMux (attached m) (epoch m) (request_id m) (held m) (action_waiters m) (f (pendings m)).

(** Complete a pending future of epoch [e] that is not done. *)
Definition complete (e : Z) (f : future) (p : Pending) : Pending :=
  if (pending_epoch p =? e) && negb (fdone (pending_future p)) then MkPending e f else p.

(** [_close_epoch], which [detach] and the end of [receive_loop] call. *)
Definition close_epoch (e : Z) (error : string) (m : mux) : mux :=
  let m' := MkMux (attached m && negb (epoch m =? e)) (epoch m) (request_id m) (held m) (action_waiters m) (pendings m) in
  set_pendings (fmap (complete e (Failed error))) m'.

Definition settle (e id : Z) (f : future) (m : mux) : mux := set_pendings (alter (complete e f) id) m.

(** [handle_message] for a decoded frame; a frame that is not JSON is dropped before. *)
Definition handle_message (e : Z) (message : json) (m : mux) : mux :=
  match message with
  | JObj o =>
      if json_is_str "post" (obj_field "channel" o) then
        match obj_field "data" o with
        | JObj data =>
            match obj_field "id" data with
            | JInt id => settle e id (Result (obj_field "response" data)) m
            | _ => m
            end
        | _ => m
        end
      else if json_is_str "error" (obj_field "channel" o) then
        match server_error_identity (obj_field "data" o) with
        | (Some id, detail) => settle e id (Failed ("_ConnectionLost:" +:+ detail)) m
        | (None, _) => m
        end
      else m
  | _ => m
  end.

Section Frames.
Variable loads : string -> option json.

(** A raw frame is text or an already decoded value. *)
Definition receive (e : Z) (raw : string + json) (m : mux) : mux :=
  match raw with
  | inl text => match loads text with Some message => handle_message e message m | None => m end
  | inr message => handle_message e message m
  end.
End Frames.

(** ** The send gate *)

Definition gate_enter (action : bool) (m : mux) : mux :=
  MkMux (attached m) (epoch m) (request_id m) (held m) (if action then action_waiters m + 1 else action_waiters m) (pendings m).

Definition gate_free (action : bool) (m : mux) : bool := negb (held m) && (action || (action_waiters m =? 0)).

Definition gate_admit (action : bool) (m : mux) : mux :=
  MkMux (attached m) (epoch m) (request_id m) true (if action then action_waiters m - 1 else action_waiters m) (pendings m).

Definition gate_release (m : mux) : mux :=
  MkMux (attached m) (epoch m) (request_id m) false (action_waiters m) (pendings m).

Definition gate_leave (action : bool) (m : mux) : mux :=
  MkMux (attached m) (epoch m) (request_id m) (held m) (if action then action_waiters m - 1 else action_waiters m) (pendings m).

(** ** One call of [_post] *)

Record call := MkCall {
  c_action : bool;
  c_payload : list (string * json);
  c_required_epoch : Z;
  c_before_send : bool;
  c_timeout_positive : bool;
}.

(** Where a call stands: at the gate, inside [before_send], inside the socket
    write, waiting for its future, or finished.  A socket is named by the epoch that
    [attach] stored it under; the local variable [socket] of a call is read at the
    gate and is the one the frame is written to, whatever is attached by then. *)
Inductive pc :=
  | AtGate
  | InHook (id socket : Z)
  | Writing (id : Z)
  | Awaiting (id : Z)
  | Returned (w : WireResult)
  | Cancelled.

(** What the outside sees: [before_send(id)] returned, a frame was handed to the
    socket of an epoch, a response was delivered to a pending future. *)
Inductive obs :=
  | Hooked (i : nat) (id : Z)
  | Wrote (i : nat) (e id : Z) (frame : string)
  | Replied (e id : Z) (response : json).

Record sys := MkSys { net : mux; calls : list (call * pc); trace : list obs }.

Definition new_sys : sys := MkSys new_mux [] [].

Definition frame_of (c : call) (id : Z) : string :=
  of_chars (json_text false (JObj [("method", JStr "post"); ("id", JInt id);
    ("request", JObj [("type", JStr (if c_action c then "action" else "info")); ("payload", JObj (c_payload c))])])).

Inductive event :=
  | Attach
  | Close (e : Z) (error : string)
  | Message (e : Z) (message : json)
  | Post (c : call)
  | Admit (i : nat)
  | HookReturns (i : nat)
  | HookRaises (i : nat) (error : string)
  | WriteReturns (i : nat)
  | WriteRaises (i : nat) (error : string)
  | Wake (i : nat)
  | TimeOut (i : nat)
  | Cancel (i : nat).

Definition set_call (i : nat) (c : call) (p : pc) (s : sys) (m : mux) (t : list obs) : sys :=
  MkSys m (<[i := (c, p)]> (calls s)) (trace s ++ t).

(** The [finally] block: the future is dropped. *)
Definition forget (id : Z) (m : mux) : mux := set_pendings (delete id) m.

Definition not_sent (id : Z) (error : string) : pc := Returned (MkWire id W_NOT_SENT JNull ("not_sent:" +:+ error)).
Definition unknown (id : Z) (error : string) : pc :=
  Returned (MkWire id W_UNKNOWN JNull ("send_outcome_unknown:" +:+ error)).

(** Inside the gate: the epoch check, the new request id, the new future, then
    [before_send] if there is one, else the write. *)
Definition admitted (i : nat) (c : call) (s : sys) : sys :=
  let m := gate_admit (c_action c) (net s) in
  if negb (attached m) || negb (c_required_epoch c =? epoch m)
  then set_call i c (Returned (MkWire 0 W_NOT_SENT JNull "connection_epoch_changed_before_send")) s (gate_release m) []
  else
    let socket := epoch m in
    let id := request_id m + 1 in
    let m' := MkMux (attached m) (epoch m) id (held m) (action_waiters m)
                (<[id := MkPending (c_required_epoch c) Waiting]> (pendings m)) in
    if c_before_send c then set_call i c (InHook id socket) s m' []
    else set_call i c (Writing id) s m' [Wrote i socket id (frame_of c id)].

(** The replies a message delivers. *)
Definition replies (e : Z) (message : json) (m : mux) : list obs :=
  match message with
  | JObj o =>
      if json_is_str "post" (obj_field "channel" o) then
        match obj_field "data" o with
        | JObj data =>
            match obj_field "id" data with
            | JInt id =>
                match pendings m !! id with
                | Some p => if (pending_epoch p =? e) && negb (fdone (pending_future p))
                            then [Replied e id (obj_field "response" data)] else []
                | None => []
                end
            | _ => []
            end
        | _ => []
        end
      else []
  | _ => []
  end.

Definition step (ev : event) (s : sys) : option sys :=
  let at_call i k := match calls s !! i with Some (c, p) => k c p | None => None end in
  match ev with
  | Attach => match attach (net s) with Ok m => Some (MkSys m (calls s) (trace s)) | Raise _ => None end
  | Close e error => Some (MkSys (close_epoch e error (net s)) (calls s) (trace s))
  | Message e message =>
      Some (MkSys (handle_message e message (net s)) (calls s) (trace s ++ replies e message (net s)))
  | Post c =>
      if c_timeout_positive c
      then Some (MkSys (gate_enter (c_action c) (net s)) (calls s ++ [(c, AtGate)]) (trace s))
      else None
  | Admit i => at_call i (fun c p =>
      match p with
      | AtGate => if gate_free (c_action c) (net s) then Some (admitted i c s) else None
      | _ => None
      end)
  | HookReturns i => at_call i (fun c p =>
      match p with
      | InHook id socket => Some (set_call i c (Writing id) s (net s)
                                    [Hooked i id; Wrote i socket id (frame_of c id)])
      | _ => None
      end)
  | HookRaises i error => at_call i (fun c p =>
      match p with
      | InHook id _ => Some (set_call i c (not_sent id error) s (forget id (gate_release (net s))) [])
      | _ => None
      end)
  | WriteReturns i => at_call i (fun c p =>
      match p with
      | Writing id => Some (set_call i c (Awaiting id) s (gate_release (net s)) [])
      | _ => None
      end)
  | WriteRaises i error => at_call i (fun c p =>
      match p with
      | Writing id => Some (set_call i c (unknown id error) s (forget id (gate_release (net s))) [])
      | _ => None
      end)
  | Wake i => at_call i (fun c p =>
      match p with
      | Awaiting id =>
          match pendings (net s) !! id with
          | Some (MkPending _ (Result response)) =>
              Some (set_call i c (Returned (MkWire id W_RESPONSE response "response")) s (forget id (net s)) [])
          | Some (MkPending _ (Failed error)) =>
              Some (set_call i c (unknown id error) s (forget id (net s)) [])
          | _ => None
          end
      | _ => None
      end)
  | TimeOut i => at_call i (fun c p =>
      match p with
      | Awaiting id => Some (set_call i c (unknown id "TimeoutError:") s (forget id (net s)) [])
      | _ => None
      end)
  | Cancel i => at_call i (fun c p =>
      match p with
      | AtGate => Some (set_call i c Cancelled s (gate_leave (c_action c) (net s)) [])
      | InHook id _ | Writing id => Some (set_call i c Cancelled s (forget id (gate_release (net s))) [])
      | Awaiting id => Some (set_call i c Cancelled s (forget id (net s)) [])
      | Returned _ | Cancelled => None
      end)
  end.

(** A run of events; an event that is not enabled is skipped. *)
Definition run_events (evs : list event) (s : sys) : sys :=
  fold_left (fun s ev => default s (step ev s)) evs s.

Definition reachable_sys (s : sys) : Prop := exists evs, s = run_events evs new_sys.

(** ** The public methods, from the wire result *)

Definition public_wire_result (w : WireResult) : PostResult :=
  bare_result (wire_request_id w)
    (match wire_outcome w with W_NOT_SENT => PO_NOT_SENT | W_REJECTED => PO_REJECTED | _ => PO_UNKNOWN end)
    (wire_response w) (wire_reason w).

(** [post_info] after its wire call; the payload needs a request type. *)
Definition post_info_result (w : WireResult) : PostResult :=
  match wire_outcome w with
  | W_RESPONSE =>
      match wire_response w with
      | JObj o =>
          if json_is_str "error" (obj_field "type" o)
          then bare_result (wire_request_id w) PO_REJECTED (wire_response w) "server_error_response"
          else bare_result (wire_request_id w) PO_INFO (wire_response w) "info_response"
      | _ => bare_result (wire_request_id w) PO_INFO (wire_response w) "info_response"
      end
  | _ => public_wire_result w
  end.

Definition info_call (payload : list (string * json)) (required_epoch : Z) (timeout_positive : bool) : res call :=
  match obj_field "type" payload with
  | JStr s => if is_empty s then Raise (ValueError "info payload requires a request type")
              else Ok (MkCall false payload required_epoch false timeout_positive)
  | _ => Raise (ValueError "info payload requires a request type")
  end.

Definition action_call (signed : SignedIocAction) (required_epoch : Z) (before_send timeout_positive : bool) : res call :=
  validate_ioc_wire (ioc_action (signed_ioc signed)) (ioc_cloid (signed_ioc signed)) ;;
  Ok (MkCall true (signed_payload signed) required_epoch before_send timeout_positive).

(** [post_action] after its wire call. *)
Definition post_action_result (signed : SignedIocAction) (w : WireResult) : res PostResult :=
  match wire_outcome w with
  | W_RESPONSE =>
      r ← classify_ioc_response (wire_response w) (Fin (ioc_expected_size (signed_ioc signed)));
      Ok (MkPost (wire_request_id w) (post_outcome r) (post_response r) (post_reason r) (post_filled_size r)
            (average_fill_price r) (order_id r))
  | _ => Ok (public_wire_result w)
  end.
