(* ===== verification/WsFacts.v ===== *)
(** Properties of WsActions.v: the multiplexer as a transition system, its
    invariant, and the meaning of wire results; the classification of responses;
    the integrity of signed actions. *)

From S2P Require Import Prelude PyDecimal DecimalFacts PyText TextFacts Models WsActions.
From Stdlib Require Import QArith Lqa.

Open Scope Z_scope.

(** * Transitions *)

Definition register (c : call) (m : mux) : mux :=
  MkMux (attached m) (epoch m) (request_id m + 1) true (action_waiters (gate_admit (c_action c) m))
    (<[request_id m + 1 := MkPending (c_required_epoch c) Waiting]> (pendings m)).

(** One call [i] goes from one place to another. *)
Inductive advance (m : mux) (i : nat) (c : call) : pc -> pc -> mux -> list obs -> Prop :=
  | ad_stale reason :
      gate_free (c_action c) m = true -> attached m = false \/ c_required_epoch c <> epoch m ->
      advance m i c AtGate (Returned (MkWire 0 W_NOT_SENT JNull reason)) (gate_release (gate_admit (c_action c) m)) []
  | ad_hook :
      gate_free (c_action c) m = true -> attached m = true -> c_required_epoch c = epoch m -> c_before_send c = true ->
      advance m i c AtGate (InHook (request_id m + 1) (epoch m)) (register c m) []
  | ad_write :
      gate_free (c_action c) m = true -> attached m = true -> c_required_epoch c = epoch m -> c_before_send c = false ->
      advance m i c AtGate (Writing (request_id m + 1)) (register c m)
        [Wrote i (epoch m) (request_id m + 1) (frame_of c (request_id m + 1))]
  | ad_hooked id socket :
      advance m i c (InHook id socket) (Writing id) m [Hooked i id; Wrote i socket id (frame_of c id)]
  | ad_hook_raises id socket error : advance m i c (InHook id socket) (not_sent id error) (forget id (gate_release m)) []
  | ad_written id : advance m i c (Writing id) (Awaiting id) (gate_release m) []
  | ad_write_raises id error : advance m i c (Writing id) (unknown id error) (forget id (gate_release m)) []
  | ad_response id e r reason :
      pendings m !! id = Some (MkPending e (Result r)) ->
      advance m i c (Awaiting id) (Returned (MkWire id W_RESPONSE r reason)) (forget id m) []
  | ad_failed id error : advance m i c (Awaiting id) (unknown id error) (forget id m) []
  | ad_cancel_gate : advance m i c AtGate Cancelled (gate_leave (c_action c) m) []
  | ad_cancel_hook id socket : advance m i c (InHook id socket) Cancelled (forget id (gate_release m)) []
  | ad_cancel_write id : advance m i c (Writing id) Cancelled (forget id (gate_release m)) []
  | ad_cancel_wait id : advance m i c (Awaiting id) Cancelled (forget id m) [].

(** A message or a close completes futures and touches nothing else. *)
Record settles (m m' : mux) (t : list obs) : Prop := {
  st_gate : held m' = held m /\ action_waiters m' = action_waiters m /\ request_id m' = request_id m;
  st_epoch : epoch m <= epoch m' /\ (epoch m' = epoch m -> attached m' = true -> attached m = true);
  st_pendings : forall id, match pendings m' !! id, pendings m !! id with
    | Some p', Some p => pending_epoch p' = pending_epoch p /\
        (p' = p \/ pending_future p = Waiting /\
           forall r, pending_future p' = Result r -> Replied (pending_epoch p) id r ∈ t)
    | None, None => True
    | _, _ => False
    end;
  st_trace : forall o, o ∈ t -> exists e id r, o = Replied e id r;
}.

Inductive moves (s : sys) : sys -> Prop :=
  | mv_net m t : settles (net s) m t -> moves s (MkSys m (calls s) (trace s ++ t))
  | mv_post c : moves s (MkSys (gate_enter (c_action c) (net s)) (calls s ++ [(c, AtGate)]) (trace s))
  | mv_call i c p p' m t :
      calls s !! i = Some (c, p) -> advance (net s) i c p p' m t -> moves s (set_call i c p' s m t).

Lemma complete_settles e f p :
  pending_epoch (complete e f p) = pending_epoch p /\
  (complete e f p = p \/ pending_future p = Waiting /\ pending_epoch p = e /\ pending_future (complete e f p) = f).
Proof.
  unfold complete. destruct p as [pe pf]. cbn. destruct (pe =? e) eqn:E; cbn; [|auto].
  destruct (fdone pf) eqn:Ef; cbn; [auto|]. bool_prop. subst. split; [done|]. right. by destruct pf.
Qed.

Lemma close_settles e err m : settles m (close_epoch e err m) [].
Proof.
  split; [done|split; cbn; [lia|by intros _ [? _]%andb_true_iff]| |by intros o ?%not_elem_of_nil].
  intros id. cbn. rewrite lookup_fmap. destruct (pendings m !! id) as [p|]; cbn; [|done].
  destruct (complete_settles e (Failed err) p) as [He [->|(Hw & _ & Hf)]]; (split; [done|]); [by left|right].
  split; [done|]. intros r. rewrite Hf. done.
Qed.

Lemma attach_settles m m' : attach m = Ok m' -> settles m m' [].
Proof.
  unfold attach. destruct (attached m); [done|]. intros [= <-]. split; cbn; [done|lia| |by intros o ?%not_elem_of_nil].
  intros id. destruct (pendings m !! id); auto.
Qed.

Lemma settle_settles e id f m t :
  (forall p r, pendings m !! id = Some p -> pending_future p = Waiting -> pending_epoch p = e -> f = Result r ->
     Replied e id r ∈ t) ->
  (forall o, o ∈ t -> exists e id r, o = Replied e id r) -> settles m (settle e id f m) t.
Proof.
  intros Ht Ho. split; [done|done| |done]. intros k. cbn. destruct (decide (k = id)) as [->|Hne].
  - rewrite lookup_alter_eq. destruct (pendings m !! id) as [p|] eqn:Ep; cbn; [|done].
    destruct (complete_settles e f p) as [He [->|(Hw & <- & Hf)]]; (split; [done|]); [by left|right].
    split; [done|]. intros r Hr. rewrite Hf in Hr. by eapply Ht.
  - rewrite lookup_alter_ne by done. destruct (pendings m !! k); auto.
Qed.

Lemma settles_refl m : settles m m [].
Proof.
  split; [done|done| |by intros o ?%not_elem_of_nil]. intros id. destruct (pendings m !! id); auto.
Qed.

Lemma message_settles e j m : settles m (handle_message e j m) (replies e j m).
Proof.
  unfold handle_message, replies. destruct j as [| | | | | |o]; try apply settles_refl.
  destruct (json_is_str "post" _).
  - destruct (obj_field "data" o) as [| | | | | |data]; try apply settles_refl.
    destruct (obj_field "id" data) as [| |id| | | |]; try apply settles_refl.
    apply settle_settles.
    + intros p r Hp Hw He [= <-]. rewrite Hp, Hw, He, Z.eqb_refl. cbn. by left.
    + intros ob Hob. destruct (pendings m !! id) as [p|]; [|by apply not_elem_of_nil in Hob].
      destruct (_ && _); [|by apply not_elem_of_nil in Hob]. apply list_elem_of_singleton in Hob as ->. eauto.
  - destruct (json_is_str "error" _); [|apply settles_refl].
    destruct (server_error_identity _) as [[id|] detail]; [|apply settles_refl].
    apply settle_settles; [done|by intros ob ?%not_elem_of_nil].
Qed.

Lemma admitted_moves s i c :
  calls s !! i = Some (c, AtGate) -> gate_free (c_action c) (net s) = true -> moves s (admitted i c s).
Proof.
  intros Hi Hg. unfold admitted. cbv zeta.
  assert (attached (gate_admit (c_action c) (net s)) = attached (net s) /\
    epoch (gate_admit (c_action c) (net s)) = epoch (net s)) as [-> ->] by done.
  destruct (negb (attached (net s)) || negb (c_required_epoch c =? epoch (net s))) eqn:E.
  - eapply mv_call; [done|]. apply ad_stale; [done|]. apply orb_true_iff in E as [E|E]; bool_prop.
    + left. by destruct (attached (net s)).
    + by right.
  - apply orb_false_iff in E as [Ea Ee]. apply negb_false_iff in Ea, Ee. apply Z.eqb_eq in Ee.
    destruct (c_before_send c) eqn:Eb; (eapply mv_call; [exact Hi|]).
    + exact (ad_hook _ _ _ Hg Ea Ee Eb).
    + exact (ad_write _ _ _ Hg Ea Ee Eb).
Qed.

Lemma step_moves ev s s' : step ev s = Some s' -> moves s s'.
Proof.
  assert (forall m, settles (net s) m [] -> moves s (MkSys m (calls s) (trace s))) as Hnet.
  { intros m Hm. pose proof (mv_net s m [] Hm) as H. by rewrite app_nil_r in H. }
  destruct ev as [|e err|e j|c|i|i|i err|i|i err|i|i|i]; cbn [step];
    try (destruct (calls s !! i) as [[c p]|] eqn:Hi; [|done]).
  - destruct (attach (net s)) eqn:E; [|done]. intros [= <-]. by eapply Hnet, attach_settles.
  - intros [= <-]. apply Hnet, close_settles.
  - intros [= <-]. apply mv_net, message_settles.
  - destruct (c_timeout_positive c); [|done]. intros [= <-]. constructor.
  - destruct p; try done. destruct (gate_free _ _) eqn:Eg; [|done]. intros [= <-]. by apply admitted_moves.
  - destruct p; try done. intros [= <-]. eapply mv_call; [done|constructor].
  - destruct p; try done. intros [= <-]. eapply mv_call; [done|constructor].
  - destruct p; try done. intros [= <-]. eapply mv_call; [done|constructor].
  - destruct p; try done. intros [= <-]. eapply mv_call; [done|constructor].
  - destruct p; try done. destruct (pendings (net s) !! id) as [[e [|r|err]]|] eqn:Ep; try done;
      intros [= <-]; (eapply mv_call; [done|]); [by eapply ad_response|constructor].
  - destruct p; try done. intros [= <-]. eapply mv_call; [done|constructor].
  - destruct p; try done; intros [= <-]; (eapply mv_call; [done|constructor]).
Qed.

Lemma run_events_ind (P : sys -> Prop) evs s :
  (forall s s', P s -> moves s s' -> P s') -> P s -> P (run_events evs s).
Proof.
  intros H. unfold run_events. revert s. induction evs as [|ev evs IH]; intros s Hs; [done|]. cbn [fold_left].
  apply IH. destruct (step ev s) as [s'|] eqn:E; [|done]. eapply H; [done|by eapply step_moves].
Qed.

(** * The send gate *)

Definition waiting_action (cp : call * pc) : bool :=
  match cp with (c, AtGate) => c_action c | _ => false end.
Definition in_gate (cp : call * pc) : bool :=
  match cp with (_, InHook _ _) | (_, Writing _) => true | _ => false end.

Record gate_ok (s : sys) : Prop := {
  go_waiters : action_waiters (net s) = count waiting_action (calls s);
  go_held : Z.b2z (held (net s)) = count in_gate (calls s);
}.

Lemma gate_preserved s s' : gate_ok s -> moves s s' -> gate_ok s'.
Proof.
  intros [Hw Hh] [m t Hset|c|i c p p' m t Hi Had].
  - destruct (st_gate _ _ _ Hset) as (E1 & E2 & _). split; cbn [net calls]; by rewrite ?E1, ?E2.
  - assert (forall f : call * pc -> bool, count f [(c, AtGate)] = Z.b2z (f (c, AtGate))) as E
      by (intros f; unfold count, zsum; cbn [fold_right]; lia).
    split; cbn [net calls gate_enter action_waiters held]; rewrite count_app, E; cbn [waiting_action in_gate];
      destruct (c_action c); cbn [Z.b2z]; lia.
  - pose proof (count_insert waiting_action _ i _ (c, p') Hi) as Cw.
    pose proof (count_insert in_gate _ i _ (c, p') Hi) as Ch.
    pose proof (count_nonneg waiting_action (calls s)) as Nw.
    pose proof (count_nonneg in_gate (<[i := (c, p')]> (calls s))) as Nh.
    assert (forall b, gate_free b (net s) = true -> held (net s) = false) as Hfree.
    { unfold gate_free. intros b [H _]%andb_true_iff. by apply negb_true_iff in H. }
    destruct Had; cbn [waiting_action in_gate not_sent unknown Z.b2z] in Cw, Ch; split;
      cbn [net calls set_call action_waiters held gate_release gate_admit gate_leave forget set_pendings register];
      try (match goal with H : gate_free _ _ = true |- _ => apply Hfree in H as Hfr; rewrite Hfr in Hh end);
      cbn [Z.b2z] in *; destruct (c_action c); cbn [Z.b2z] in *; destruct (held (net s)); cbn [Z.b2z] in *; lia.
Qed.

(** * Identifiers, futures and the trace *)

Definition live_id (p : pc) : option Z :=
  match p with InHook id _ | Writing id | Awaiting id => Some id | _ => None end.

Definition of_call (i : nat) (o : obs) : bool :=
  match o with Hooked j _ | Wrote j _ _ _ => Nat.eqb i j | Replied _ _ _ => false end.

(** What call [i] has shown to the outside. *)
Definition call_obs (i : nat) (t : list obs) : list obs := filter (fun o => of_call i o = true) t.

(** A call that reached the socket: the hook, if there is one, then one write. *)
Definition sent_obs (i : nat) (c : call) (id : Z) : list obs :=
  (if c_before_send c then [Hooked i id] else []) ++ [Wrote i (c_required_epoch c) id (frame_of c id)].

Definition obs_ok (i : nat) (c : call) (p : pc) (t : list obs) : Prop :=
  match p with
  | AtGate => call_obs i t = []
  | InHook id socket => call_obs i t = [] /\ c_before_send c = true /\ socket = c_required_epoch c
  | Writing id | Awaiting id => call_obs i t = sent_obs i c id
  | Returned w =>
      match wire_outcome w with
      | W_NOT_SENT => call_obs i t = []
      | W_RESPONSE => call_obs i t = sent_obs i c (wire_request_id w) /\
          Replied (c_required_epoch c) (wire_request_id w) (wire_response w) ∈ t
      | W_UNKNOWN => call_obs i t = sent_obs i c (wire_request_id w)
      | W_REJECTED => False
      end
  | Cancelled => call_obs i t = [] \/ exists id, call_obs i t = sent_obs i c id
  end.

Record ids_ok (s : sys) : Prop := {
  io_pending : forall id pd, pendings (net s) !! id = Some pd -> 0 < id <= request_id (net s) /\
    exists i c p, calls s !! i = Some (c, p) /\ live_id p = Some id /\ pending_epoch pd = c_required_epoch c;
  io_live : forall i c p id, calls s !! i = Some (c, p) -> live_id p = Some id ->
    is_Some (pendings (net s) !! id) /\ c_required_epoch c <= epoch (net s);
  io_unique : forall i j c d p q id, calls s !! i = Some (c, p) -> calls s !! j = Some (d, q) ->
    live_id p = Some id -> live_id q = Some id -> i = j;
  io_counter : 0 <= request_id (net s);
}.

(** What a transition does to the identifiers: it takes the next one, keeps its
    own, or gives it up. *)
Inductive id_effect (m : mux) (c : call) (p p' : pc) (m' : mux) : Prop :=
  | ie_new :
      live_id p = None -> live_id p' = Some (request_id m + 1) -> c_required_epoch c = epoch m ->
      pendings m' = <[request_id m + 1 := MkPending (c_required_epoch c) Waiting]> (pendings m) ->
      request_id m' = request_id m + 1 -> epoch m' = epoch m -> id_effect m c p p' m'
  | ie_keep :
      live_id p' = live_id p -> pendings m' = pendings m -> request_id m' = request_id m -> epoch m' = epoch m ->
      id_effect m c p p' m'
  | ie_drop id :
      live_id p = Some id -> live_id p' = None -> pendings m' = delete id (pendings m) ->
      request_id m' = request_id m -> epoch m' = epoch m -> id_effect m c p p' m'.

Lemma advance_ids m i c p p' m' t : advance m i c p p' m' t -> id_effect m c p p' m'.
Proof. intros H. destruct H; try (by apply ie_new); try (by apply ie_keep); by eapply ie_drop. Qed.

Lemma lookup_set (l : list (call * pc)) i j c p c' p' :
  l !! i = Some (c, p) -> <[i := (c, p')]> l !! j = Some c' ->
  (j = i /\ c' = (c, p')) \/ (j <> i /\ l !! j = Some c').
Proof.
  intros Hi Hj. destruct (decide (i = j)) as [<-|Hne].
  - rewrite list_lookup_insert_eq in Hj by (by eapply lookup_lt_Some). left. by injection Hj.
  - rewrite list_lookup_insert_ne in Hj by done. by right.
Qed.

Lemma ids_net s m t : ids_ok s -> settles (net s) m t -> ids_ok (MkSys m (calls s) (trace s ++ t)).
Proof.
  intros [Hp Hl Hu Hc] [(_ & _ & Er) [He _] Hs _]. split; cbn [net calls]; try done.
  - intros id pd Hpd. specialize (Hs id). rewrite Hpd in Hs. destruct (pendings (net s) !! id) as [pd0|] eqn:E; [|done].
    rewrite Er. destruct (Hp _ _ E) as [Hid (i & c & p & Hi & Hlive & Hep)]. split; [done|].
    exists i, c, p. split_and!; [done..|]. by rewrite (proj1 Hs).
  - intros i c p id Hi Hlive. destruct (Hl _ _ _ _ Hi Hlive) as [[pd Hpd] Hle]. split; [|lia].
    specialize (Hs id). rewrite Hpd in Hs. destruct (pendings m !! id); [eauto|done].
  - by rewrite Er.
Qed.

Lemma ids_call s i c p p' m t :
  ids_ok s -> calls s !! i = Some (c, p) -> id_effect (net s) c p p' m -> ids_ok (set_call i c p' s m t).
Proof.
  intros [Hp Hl Hu Hc] Hi He.
  assert (forall id pd, pendings (net s) !! id = Some pd -> id <> request_id (net s) + 1) as Hfresh.
  { intros id pd H. destruct (Hp _ _ H). lia. }
  assert (forall j d q, <[i := (c, p')]> (calls s) !! j = Some (d, q) ->
    (j = i /\ d = c /\ q = p') \/ (j <> i /\ calls s !! j = Some (d, q))) as Hset.
  { intros j d q [[-> [= -> ->]]|H]%(lookup_set _ _ _ _ _ _ _ Hi); auto. }
  assert (<[i := (c, p')]> (calls s) !! i = Some (c, p')) as Hii
    by (apply list_lookup_insert_eq; by eapply lookup_lt_Some).
  assert (forall j d q, j <> i -> calls s !! j = Some (d, q) -> <[i := (c, p')]> (calls s) !! j = Some (d, q)) as Hij.
  { intros j d q Hne Hj. by rewrite list_lookup_insert_ne. }
  destruct He as [Ep Ep' Eq Epd Er Ee|Ep' Epd Er Ee|id0 Ep Ep' Epd Er Ee]; split;
    cbn [net calls set_call]; rewrite ?Er, ?Ee, ?Epd; try lia.
  - intros id pd Hpd. destruct (decide (id = request_id (net s) + 1)) as [->|Hne].
    + rewrite lookup_insert_eq in Hpd. injection Hpd as <-. split; [lia|]. by exists i, c, p'.
    + rewrite lookup_insert_ne in Hpd by done. destruct (Hp _ _ Hpd) as [Hid (j & d & q & Hj & Hlive & Hep)].
      split; [lia|]. exists j, d, q. split_and!; try done. apply Hij; [|done]. intros ->. congruence.
  - intros j d q id [(-> & -> & ->)|[Hne Hj]]%Hset Hlive.
    + rewrite Ep' in Hlive. injection Hlive as <-. rewrite lookup_insert_eq. split; [eauto|lia].
    + destruct (Hl _ _ _ _ Hj Hlive) as [[pd Hpd] Hle]. split; [|done].
      rewrite lookup_insert_ne; [eauto|]. apply not_eq_sym. by eapply Hfresh.
  - intros j k d d' q q' id [(-> & -> & ->)|[Hne Hj]]%Hset [(-> & -> & ->)|[Hne' Hk]]%Hset Lj Lk; [done| | |by eauto].
    + rewrite Ep' in Lj. injection Lj as <-. destruct (Hl _ _ _ _ Hk Lk) as [[pd Hpd] _]. by apply Hfresh in Hpd.
    + rewrite Ep' in Lk. injection Lk as <-. destruct (Hl _ _ _ _ Hj Lj) as [[pd Hpd] _]. by apply Hfresh in Hpd.
  - intros id pd Hpd. destruct (Hp _ _ Hpd) as [Hid (j & d & q & Hj & Hlive & Hep)]. split; [done|].
    destruct (decide (j = i)) as [->|Hne]; [|exists j, d, q; split_and!; [by apply Hij|done..]].
    exists i, c, p'. assert (d = c /\ q = p) as [-> ->] by (split; congruence). split_and!; congruence.
  - intros j d q id [(-> & -> & ->)|[Hne Hj]]%Hset Hlive; [rewrite Ep' in Hlive|]; by eapply Hl.
  - intros j k d d' q q' id [(-> & -> & ->)|[Hne Hj]]%Hset [(-> & -> & ->)|[Hne' Hk]]%Hset Lj Lk;
      rewrite ?Ep' in *; by eauto.
  - intros id pd Hpd. apply lookup_delete_Some in Hpd as [Hne Hpd].
    destruct (Hp _ _ Hpd) as [Hid (j & d & q & Hj & Hlive & Hep)]. split; [done|]. exists j, d, q.
    split_and!; try done. apply Hij; [|done]. intros ->. congruence.
  - intros j d q id [(-> & -> & ->)|[Hne Hj]]%Hset Hlive; [congruence|].
    destruct (Hl _ _ _ _ Hj Hlive) as [[pd Hpd] Hle]. split; [|done].
    rewrite lookup_delete_ne; [eauto|]. intros ->. apply Hne. by eapply Hu.
  - intros j k d d' q q' id [(-> & -> & ->)|[Hne Hj]]%Hset [(-> & -> & ->)|[Hne' Hk]]%Hset Lj Lk;
      rewrite ?Ep' in *; try done. by eauto.
Qed.

Lemma ids_preserved s s' : ids_ok s -> moves s s' -> ids_ok s'.
Proof.
  intros Hs [m t Hset|c|i c p p' m t Hi Had].
  - by apply ids_net.
  - destruct Hs as [Hp Hl Hu Hc]. split; cbn [net calls gate_enter pendings request_id epoch].
    + intros id pd Hpd. destruct (Hp _ _ Hpd) as [Hid (i & d & p & Hi & H)]. split; [done|].
      exists i, d, p. split; [|done]. apply lookup_app_l_Some, Hi.
    + intros i d p id [Hi|[_ Hi]]%lookup_app_Some Hlive; [by eapply Hl|].
      apply list_lookup_singleton_Some in Hi as [_ [= <- <-]]. done.
    + intros i j d d' p q id [Hi|[_ Hi]]%lookup_app_Some [Hj|[_ Hj]]%lookup_app_Some Li Lj;
        try (apply list_lookup_singleton_Some in Hi as [_ [= <- <-]]; done);
        try (apply list_lookup_singleton_Some in Hj as [_ [= <- <-]]; done). by eauto.
    + done.
  - eapply ids_call; [done|done|]. by eapply advance_ids.
Qed.

(** * The trace *)

Record trace_ok (s : sys) : Prop := {
  to_obs : forall i c p, calls s !! i = Some (c, p) -> obs_ok i c p (trace s);
  to_new : forall i, calls s !! i = None -> call_obs i (trace s) = [];
  to_written : forall i e id f, Wrote i e id f ∈ trace s -> 0 < id <= request_id (net s) /\
    exists c p, calls s !! i = Some (c, p) /\ e = c_required_epoch c /\ e <= epoch (net s);
  to_one_writer : forall i j e e' id f f', Wrote i e id f ∈ trace s -> Wrote j e' id f' ∈ trace s -> i = j;
  to_writer_live : forall i e id f j c p, Wrote i e id f ∈ trace s -> calls s !! j = Some (c, p) ->
    live_id p = Some id -> i = j;
  to_reply : forall id pd r, pendings (net s) !! id = Some pd -> pending_future pd = Result r ->
    Replied (pending_epoch pd) id r ∈ trace s;
}.

Lemma call_obs_app i t1 t2 : call_obs i (t1 ++ t2) = call_obs i t1 ++ call_obs i t2.
Proof. apply list.filter_app. Qed.

Lemma call_obs_nil i t : (forall o, o ∈ t -> of_call i o = false) -> call_obs i t = [].
Proof.
  unfold call_obs. induction t as [|o t IH]; intros H; [done|]. rewrite filter_cons.
  rewrite decide_False by (rewrite (H o) by (by left); done). apply IH. intros o' Ho'. apply H. by right.
Qed.

Lemma elem_of_call_obs i t o : o ∈ call_obs i t <-> of_call i o = true /\ o ∈ t.
Proof. unfold call_obs. by rewrite list_elem_of_filter. Qed.

(** What a call has shown depends on its own observations and on replies only. *)
Lemma obs_ok_app i c p t t' : obs_ok i c p t -> call_obs i t' = [] -> obs_ok i c p (t ++ t').
Proof.
  intros H Ht'. assert (call_obs i (t ++ t') = call_obs i t) as E by (by rewrite call_obs_app, Ht', app_nil_r).
  destruct p as [| | | |w|]; cbn [obs_ok] in *; rewrite ?E; try done.
  destruct (wire_outcome w); try done. split; [apply H|]. apply elem_of_app. left. apply H.
Qed.

Lemma trace_net s m t : trace_ok s -> settles (net s) m t -> trace_ok (MkSys m (calls s) (trace s ++ t)).
Proof.
  intros [Ho Hn Hw H1 Hl Hr] [(_ & _ & Er) [He _] Hs Ht].
  assert (forall i, call_obs i t = []) as Hnone.
  { intros i. apply call_obs_nil. intros o (e & id & r & ->)%Ht. done. }
  assert (forall i e id f, Wrote i e id f ∈ trace s ++ t -> Wrote i e id f ∈ trace s) as Hold.
  { intros i e id f [H|H]%elem_of_app; [done|]. apply Ht in H as (? & ? & ? & ?). done. }
  split; cbn [net calls trace].
  - intros i c p Hi. apply obs_ok_app; auto.
  - intros i Hi. by rewrite call_obs_app, Hnone, app_nil_r, Hn.
  - intros i e id f H%Hold. destruct (Hw _ _ _ _ H) as [Hid (c & p & Hi & -> & Hle)]. rewrite Er. split; [done|].
    exists c, p. split_and!; [done..|lia].
  - intros i j e e' id f f' H%Hold H'%Hold. by eapply H1.
  - intros i e id f j c p H%Hold. by eapply Hl.
  - intros id pd r Hpd Hres. specialize (Hs id). rewrite Hpd in Hs.
    destruct (pendings (net s) !! id) as [pd0|] eqn:E; [|done]. destruct Hs as [Hep [->|(_ & Hnew)]].
    + apply elem_of_app. left. by apply Hr.
    + apply elem_of_app. right. rewrite Hep. by apply Hnew.
Qed.

Lemma trace_post s c : trace_ok s -> trace_ok (MkSys (gate_enter (c_action c) (net s)) (calls s ++ [(c, AtGate)]) (trace s)).
Proof.
  intros [Ho Hn Hw H1 Hl Hr]. split; cbn [net calls trace gate_enter request_id epoch pendings].
  - intros i d p [Hi|[Hi Hs]]%lookup_app_Some; [by apply Ho|].
    apply list_lookup_singleton_Some in Hs as [_ [= <- <-]]. cbn. apply Hn. by apply lookup_ge_None_2.
  - intros i Hi. apply Hn, lookup_ge_None. apply lookup_ge_None in Hi. rewrite length_app in Hi. lia.
  - intros i e id f H. destruct (Hw _ _ _ _ H) as [Hid (d & p & Hi & H')]. split; [done|].
    exists d, p. split; [by apply lookup_app_l_Some|done].
  - done.
  - intros i e id f j d p H [Hj|[_ Hj]]%lookup_app_Some Hlive; [by eapply Hl|].
    by apply list_lookup_singleton_Some in Hj as [_ [= <- <-]].
  - done.
Qed.

(** What a transition shows: nothing, or what brings the call to its write. *)
Inductive shows (m : mux) (i : nat) (c : call) (p p' : pc) : list obs -> Prop :=
  | sh_nothing : shows m i c p p' []
  | sh_write id :
      live_id p' = Some id -> live_id p = Some id \/ live_id p = None /\ id = request_id m + 1 ->
      shows m i c p p' (sent_obs i c id).

Lemma advance_shows m i c p p' m' t : advance m i c p p' m' t ->
  match p with InHook _ socket => c_before_send c = true /\ socket = c_required_epoch c | _ => True end -> shows m i c p p' t.
Proof.
  intros H Hb. destruct H; try constructor.
  - pose proof (sh_write m i c AtGate (Writing (request_id m + 1)) (request_id m + 1) eq_refl) as H'.
    unfold sent_obs in H'. rewrite H2, H1 in H'. apply H'. by right.
  - pose proof (sh_write m i c (InHook id socket) (Writing id) id eq_refl) as H'.
    destruct Hb as [Hb ->]. unfold sent_obs in H'. rewrite Hb in H'. apply H'. by left.
Qed.

Lemma of_sent j i c id o : o ∈ sent_obs i c id -> of_call j o = Nat.eqb j i.
Proof.
  unfold sent_obs. intros [H|H]%elem_of_app.
  - destruct (c_before_send c); [|by apply not_elem_of_nil in H]. by apply list_elem_of_singleton in H as ->.
  - by apply list_elem_of_singleton in H as ->.
Qed.

Lemma call_obs_sent i c id : call_obs i (sent_obs i c id) = sent_obs i c id.
Proof. unfold call_obs, sent_obs. destruct (c_before_send c); cbn; by rewrite Nat.eqb_refl. Qed.

Lemma wrote_sent k e id' f i c id :
  Wrote k e id' f ∈ sent_obs i c id -> k = i /\ e = c_required_epoch c /\ id' = id.
Proof.
  unfold sent_obs. intros [H|H]%elem_of_app.
  - destruct (c_before_send c); [|by apply not_elem_of_nil in H]. by apply list_elem_of_singleton in H.
  - apply list_elem_of_singleton in H. by injection H as -> -> -> ->.
Qed.

Section CallTransition.
Variables (s : sys) (i : nat) (c : call) (p p' : pc) (m : mux) (t : list obs).
Hypotheses (Hids : ids_ok s) (Htr : trace_ok s) (Hi : calls s !! i = Some (c, p)) (Had : advance (net s) i c p p' m t).

Let s' := set_call i c p' s m t.

Let Hids' : ids_ok s'.
Proof. eapply ids_call; [done|done|]. by eapply advance_ids. Qed.

Let Hsh : shows (net s) i c p p' t.
Proof.
  eapply advance_shows; [done|]. pose proof (to_obs _ Htr _ _ _ Hi) as H. destruct p; try done. apply H.
Qed.

Let Hgrow : request_id (net s) <= request_id m /\ epoch m = epoch (net s).
Proof. destruct (advance_ids _ _ _ _ _ _ _ Had); split; lia. Qed.

Let Hii : calls s' !! i = Some (c, p').
Proof. apply list_lookup_insert_eq. by eapply lookup_lt_Some. Qed.

Let Hij j : j <> i -> calls s' !! j = calls s !! j.
Proof. intros H. by apply list_lookup_insert_ne. Qed.

Lemma others_silent j : j <> i -> call_obs j t = [].
Proof.
  intros Hne. apply call_obs_nil. intros o Ho. destruct Hsh as [|id _ _]; [by apply not_elem_of_nil in Ho|].
  rewrite (of_sent _ _ _ _ _ Ho). by apply Nat.eqb_neq.
Qed.

(** A write of this transition carries the identifier the call now holds. *)
Lemma new_write k e id f : Wrote k e id f ∈ t ->
  k = i /\ e = c_required_epoch c /\ live_id p' = Some id /\
  (live_id p = Some id \/ live_id p = None /\ id = request_id (net s) + 1).
Proof.
  intros H. destruct Hsh as [|id' Hl' Hl]; [by apply not_elem_of_nil in H|].
  apply wrote_sent in H as (-> & -> & ->). done.
Qed.

Lemma live_bound d q j id : calls s' !! j = Some (d, q) -> live_id q = Some id ->
  0 < id <= request_id m /\ c_required_epoch d <= epoch m.
Proof.
  intros Hj Hl. destruct (io_live _ Hids' _ _ _ _ Hj Hl) as [[pd Hpd] He].
  by destruct (io_pending _ Hids' _ _ Hpd) as [Hid _].
Qed.

Lemma own_obs : obs_ok i c p' (trace s ++ t).
Proof.
  pose proof (to_obs _ Htr _ _ _ Hi) as H.
  assert (forall l, call_obs i (trace s ++ l) = call_obs i (trace s) ++ call_obs i l) as Happ
    by (intros l; apply call_obs_app).
  destruct Had as [|? ? Heq Hb|? ? Heq Hb|id sk|id sk err|id|id err|id e r reason Hpd|id err| |id sk|id|id];
    cbn [obs_ok not_sent unknown wire_outcome wire_request_id wire_response] in H |- *;
    rewrite ?app_nil_r in *; try done; try (by left); try (by destruct H); try (by left; apply H); try (by right; eexists).
  - rewrite Happ, H. unfold sent_obs. rewrite Hb, Heq. cbn. by rewrite Nat.eqb_refl.
  - destruct H as (H & Hb & ->). rewrite Happ, H. unfold sent_obs. rewrite Hb. cbn. by rewrite Nat.eqb_refl.
  - split; [done|]. pose proof (to_reply _ Htr _ _ r Hpd eq_refl) as Hr. cbn in Hr.
    destruct (io_pending _ Hids _ _ Hpd) as [_ (j & d & q & Hj & Hl & He)]. cbn in He.
    assert (j = i) as -> by (by eapply (io_unique _ Hids)).
    assert (d = c) as -> by congruence. by rewrite <- He.
Qed.

Lemma writers_unique k l e e' id f f' :
  Wrote k e id f ∈ trace s -> Wrote l e' id f' ∈ t -> k = l.
Proof.
  intros Hk (-> & -> & _ & [Hl|[_ ->]])%new_write; [by eapply (to_writer_live _ Htr)|].
  destruct (to_written _ Htr _ _ _ _ Hk). lia.
Qed.

Lemma writer_of_live k e id f j d q :
  Wrote k e id f ∈ trace s ++ t -> calls s' !! j = Some (d, q) -> live_id q = Some id -> k = j.
Proof.
  intros [Hk|Hk]%elem_of_app Hj Hl.
  - destruct (decide (j = i)) as [->|Hne]; [|rewrite Hij in Hj by done; by eapply (to_writer_live _ Htr)].
    assert (q = p') as -> by congruence.
    destruct (advance_ids _ _ _ _ _ _ _ Had) as [Ep Ep' _ _ _ _|Ep' _ _ _|id0 Ep Ep' _ _ _]; try congruence.
    + rewrite Ep' in Hl. injection Hl as <-. destruct (to_written _ Htr _ _ _ _ Hk). lia.
    + rewrite Ep' in Hl. by eapply (to_writer_live _ Htr).
  - apply new_write in Hk as (-> & -> & Hl' & _). by eapply (io_unique _ Hids').
Qed.

Lemma trace_call : trace_ok s'.
Proof.
  split; unfold s'; cbn [net calls trace set_call]; fold s'.
  - intros j d q Hj. destruct (decide (j = i)) as [->|Hne].
    + change (calls s' !! i = Some (d, q)) in Hj. rewrite Hii in Hj. injection Hj as <- <-. apply own_obs.
    + change (calls s' !! j = Some (d, q)) in Hj. rewrite Hij in Hj by done.
      apply obs_ok_app; [by apply (to_obs _ Htr)|by apply others_silent].
  - intros j Hj. change (calls s' !! j = None) in Hj. destruct (decide (j = i)) as [->|Hne]; [congruence|].
    rewrite Hij in Hj by done. by rewrite call_obs_app, others_silent, app_nil_r, (to_new _ Htr).
  - intros k e id f [Hk|Hk]%elem_of_app.
    + destruct (to_written _ Htr _ _ _ _ Hk) as [Hid (d & q & Hd & -> & Hle)]. destruct Hgrow as [Hg ->]. split; [lia|].
      destruct (decide (k = i)) as [->|Hne].
      * exists c, p'. assert (d = c) as -> by congruence. done.
      * exists d, q. by rewrite <- (Hij k Hne) in Hd.
    + apply new_write in Hk as (-> & -> & Hl & _). destruct (live_bound _ _ _ _ Hii Hl) as [Hid He].
      split; [done|]. by exists c, p'.
  - intros k l e e' id f f' [Hk|Hk]%elem_of_app [Hl|Hl]%elem_of_app.
    + by eapply (to_one_writer _ Htr).
    + by eapply writers_unique.
    + symmetry. by eapply writers_unique.
    + apply new_write in Hk as (-> & _), Hl as (-> & _). done.
  - intros k e id f j d q. apply writer_of_live.
  - intros id pd r Hpd Hr. apply elem_of_app. left.
    destruct (advance_ids _ _ _ _ _ _ _ Had) as [_ _ _ Ed _ _|_ Ed _ _|id0 _ _ Ed _ _]; rewrite Ed in Hpd.
    + apply lookup_insert_Some in Hpd as [[_ <-]|[_ Hpd]]; [done|by apply (to_reply _ Htr)].
    + by apply (to_reply _ Htr).
    + apply lookup_delete_Some in Hpd as [_ Hpd]. by apply (to_reply _ Htr).
Qed.
End CallTransition.

Record sys_ok (s : sys) : Prop := { sy_gate : gate_ok s; sy_ids : ids_ok s; sy_trace : trace_ok s }.

Lemma sys_preserved s s' : sys_ok s -> moves s s' -> sys_ok s'.
Proof.
  intros [Hg Hi Ht] Hm. split; [by eapply gate_preserved|by eapply ids_preserved|].
  destruct Hm as [m t Hset|c|i c p p' m t Hc Had]; [by apply trace_net|by apply trace_post|by eapply trace_call].
Qed.

Lemma new_sys_ok : sys_ok new_sys.
Proof.
  split; split; cbn; try done; intros *; rewrite ?lookup_empty, ?lookup_nil; try done;
    try (by intros ?%not_elem_of_nil).
Qed.

Lemma reachable_sys_ok s : reachable_sys s -> sys_ok s.
Proof. intros [evs ->]. apply run_events_ind; [apply sys_preserved|apply new_sys_ok]. Qed.

(** * A dead connection stays dead *)

(** Epoch [e] is over: it was current once and is not attached any more. *)
Definition dead (e : Z) (m : mux) : Prop := e < epoch m \/ e = epoch m /\ attached m = false.

Lemma advance_connection m i c p p' m' t :
  advance m i c p p' m' t -> epoch m' = epoch m /\ attached m' = attached m.
Proof. intros H. by destruct H. Qed.

Lemma dead_preserved e s s' : dead e (net s) -> moves s s' -> dead e (net s').
Proof.
  unfold dead. intros Hd [m t Hset|c|i c p p' m t Hi Had]; cbn [net set_call gate_enter epoch attached].
  - destruct (st_epoch _ _ _ Hset) as [Hle Hat]. destruct Hd as [?|[-> Hna]]; [lia|].
    destruct (Z.eq_dec (epoch m) (epoch (net s))) as [E|E]; [|lia]. right. split; [done|].
    destruct (attached m) eqn:Em; [|done]. rewrite Hat in Hna; done.
  - done.
  - by destruct (advance_connection _ _ _ _ _ _ _ Had) as [-> ->].
Qed.

Lemma advance_silent m j c p p' m' t i : advance m j c p p' m' t -> j <> i -> call_obs i t = [].
Proof.
  intros H Hne. apply not_eq_sym, Nat.eqb_neq in Hne.
  destruct H; apply call_obs_nil; intros o Ho;
    repeat (apply elem_of_cons in Ho as [->|Ho]; [exact Hne|]); by apply not_elem_of_nil in Ho.
Qed.

(** A call of a dead epoch that did not get past the gate shows nothing. *)
Definition barred (i : nat) (e : Z) (s : sys) : Prop :=
  match calls s !! i with
  | None => call_obs i (trace s) = []
  | Some (c, p) => c_required_epoch c = e -> call_obs i (trace s) = [] /\ live_id p = None
  end.

Lemma barred_advance m i c p p' m' t e :
  advance m i c p p' m' t -> dead e m -> c_required_epoch c = e -> live_id p = None -> t = [] /\ live_id p' = None.
Proof.
  intros H Hd He Hl. destruct H as [|? Hat Heq _|? Hat Heq _| | | | | | | | | |]; cbn in Hl |- *; try done;
    destruct Hd as [?|[? ?]]; lia || congruence.
Qed.

Lemma barred_preserved i e s s' : dead e (net s) -> barred i e s -> moves s s' -> barred i e s'.
Proof.
  unfold barred. intros Hd Hb [m t Hset|c|j c p p' m t Hj Had]; cbn [trace calls set_call].
  - assert (call_obs i t = []) as Ht.
    { apply call_obs_nil. intros o (? & ? & ? & ->)%(st_trace _ _ _ Hset). done. }
    by rewrite call_obs_app, Ht, app_nil_r.
  - destruct (calls s !! i) as [[d q]|] eqn:Hi; [by rewrite (lookup_app_l_Some _ _ _ _ Hi)|].
    apply lookup_ge_None in Hi. rewrite lookup_app_r by done. by destruct (i - List.length (calls s))%nat.
  - rewrite call_obs_app. destruct (decide (j = i)) as [->|Hne].
    + rewrite Hj in Hb. rewrite list_lookup_insert_eq by (by eapply lookup_lt_Some). intros He.
      destruct (Hb He) as [Hobs Hl]. destruct (barred_advance _ _ _ _ _ _ _ _ Had Hd He Hl) as [-> Hl'].
      by rewrite Hobs.
    + rewrite list_lookup_insert_ne by done. by rewrite (advance_silent _ _ _ _ _ _ _ _ Had Hne), app_nil_r.
Qed.

(** * Every call finishes *)

Definition finished (p : pc) : bool := match p with Returned _ | Cancelled => true | _ => false end.

Definition work (cp : call * pc) : Z :=
  match cp.2 with AtGate => 4 | InHook _ _ => 3 | Writing _ => 2 | Awaiting _ => 1 | Returned _ | Cancelled => 0 end.

Definition work_left (s : sys) : Z := zsum work (calls s).

(** Events that need nothing from the network: the hook and the write end, the
    gate opens, the response timeout fires. *)
Definition local_event (ev : event) : bool :=
  match ev with Admit _ | HookReturns _ | WriteReturns _ | TimeOut _ => true | _ => false end.

Lemma work_nonneg cp : 0 <= work cp.
Proof. unfold work. destruct cp.2; lia. Qed.

Lemma call_work s i c p p' m t : calls s !! i = Some (c, p) ->
  work_left (set_call i c p' s m t) = work_left s - work (c, p) + work (c, p').
Proof. intros Hi. unfold work_left, set_call. cbn [calls]. by apply zsum_insert. Qed.

Lemma local_step s i c p :
  gate_ok s -> calls s !! i = Some (c, p) -> finished p = false ->
  exists ev s', local_event ev = true /\ step ev s = Some s' /\ work_left s' < work_left s.
Proof.
  intros Hg Hi Hf. assert (forall j d q, calls s !! j = Some (d, q) ->
    match q with InHook _ _ | Writing _ | Awaiting _ => True | _ => False end ->
    exists ev s', local_event ev = true /\ step ev s = Some s' /\ work_left s' < work_left s) as Hbusy.
  { intros j d q Hj Hq. destruct q as [|id socket|id|id| |]; try done.
    - eexists (HookReturns j), _. split; [done|]. cbn [step]. rewrite Hj. split; [reflexivity|].
      rewrite (call_work s j d (InHook id socket)) by done. cbn. lia.
    - eexists (WriteReturns j), _. split; [done|]. cbn [step]. rewrite Hj. split; [reflexivity|].
      rewrite (call_work s j d (Writing id)) by done. cbn. lia.
    - eexists (TimeOut j), _. split; [done|]. cbn [step]. rewrite Hj. split; [reflexivity|].
      rewrite (call_work s j d (Awaiting id)) by done. cbn. lia. }
  assert (forall j d, calls s !! j = Some (d, AtGate) -> gate_free (c_action d) (net s) = true ->
    exists ev s', local_event ev = true /\ step ev s = Some s' /\ work_left s' < work_left s) as Hadmit.
  { intros j d Hj Hfree. eexists (Admit j), _. split; [done|]. cbn [step]. rewrite Hj, Hfree. split; [reflexivity|].
    unfold admitted. cbv zeta. repeat case_match; rewrite (call_work s j d AtGate) by done; cbn; lia. }
  destruct p as [|id socket|id|id| |]; try done; try (by eapply Hbusy).
  destruct (held (net s)) eqn:Eh.
  { destruct (count_witness in_gate (calls s)) as (j & [d q] & Hj & Hq).
    - rewrite <- (go_held _ Hg), Eh. done.
    - eapply Hbusy; [done|]. by destruct q. }
  destruct (Z.eq_dec (action_waiters (net s)) 0) as [Ez|Ez].
  - apply (Hadmit i c Hi). unfold gate_free. rewrite Eh, Ez. cbn. apply orb_true_r.
  - pose proof (count_nonneg waiting_action (calls s)) as Hn. pose proof (go_waiters _ Hg) as Hw.
    destruct (count_witness waiting_action (calls s)) as (j & [d q] & Hj & Hq); [lia|].
    destruct q; try done. apply (Hadmit j d Hj). unfold gate_free. cbn in Hq. by rewrite Eh, Hq.
Qed.

Lemma all_finished_dec s :
  (forall i c p, calls s !! i = Some (c, p) -> finished p = true) \/
  exists i c p, calls s !! i = Some (c, p) /\ finished p = false.
Proof.
  destruct (decide (Exists (fun cp => finished cp.2 = false) (calls s))) as [H|H].
  - right. apply list.Exists_exists in H as ([c p] & Hin & Hp). apply list_elem_of_lookup in Hin as [i Hi].
    by exists i, c, p.
  - left. intros i c p Hi. destruct (finished p) eqn:E; [done|]. destruct H. apply list.Exists_exists.
    exists (c, p). split; [by eapply list_elem_of_lookup_2|done].
Qed.

Lemma drain s : sys_ok s ->
  exists evs, Forall (fun ev => local_event ev = true) evs /\ (Z.of_nat (List.length evs) <= work_left s) /\
    forall i c p, calls (run_events evs s) !! i = Some (c, p) -> finished p = true.
Proof.
  intros Hs. assert (0 <= work_left s) as Hnn by (apply zsum_nonneg, work_nonneg).
  remember (Z.to_nat (work_left s)) as n eqn:En. assert (work_left s <= Z.of_nat n) as Hn by lia. clear En.
  revert s Hs Hnn Hn. induction n as [|n IH]; intros s Hs Hnn Hn;
    (destruct (all_finished_dec s) as [Hall|(i & c & p & Hi & Hf)]; [by exists []; split_and!; try done; cbn; lia|]).
  - pose proof (zsum_lookup work _ _ _ work_nonneg Hi) as Hle. unfold work_left in Hn.
    destruct p; try done; cbn in Hle; lia.
  - destruct (local_step s i c p (sy_gate _ Hs) Hi Hf) as (ev & s1 & Hev & Hstep & Hlt).
    destruct (IH s1) as (evs & Hevs & Hlen & Hdone).
    + eapply sys_preserved; [done|by eapply step_moves].
    + apply zsum_nonneg, work_nonneg.
    + lia.
    + exists (ev :: evs). split_and!; [by constructor|cbn [List.length]; lia|].
      unfold run_events. cbn [fold_left]. rewrite Hstep. done.
Qed.

(** * Properties of the multiplexer *)

Lemma call_obs_cases i c p t : obs_ok i c p t -> call_obs i t = [] \/ exists id, call_obs i t = sent_obs i c id.
Proof.
  destruct p as [|id socket|id|id|w|]; cbn; try (by eauto); [by intros [? _]; left|].
  destruct (wire_outcome w); [by left|intros [? _]; eauto|done|eauto].
Qed.

(** C1. The result of a POST tells the truth about the wire.  In every reachable
    state, whatever the interleaving of calls, messages, closes and
    cancellations: each call hands at most one frame to the socket, its own, on
    the connection epoch it required, and only after its [before_send] returned;
    no two frames carry the same request id; NOT_SENT means no frame was handed
    over and the hook did not complete; UNKNOWN means one was; and RESPONSE means
    one was and the returned value is a response delivered for exactly this
    request id on exactly this epoch. *)
Theorem wire_result_means s :
  reachable_sys s ->
  (forall i c p, calls s !! i = Some (c, p) ->
     call_obs i (trace s) = [] \/ exists id, call_obs i (trace s) = sent_obs i c id) /\
  (forall i e id f, Wrote i e id f ∈ trace s -> is_Some (calls s !! i) /\ 0 < id <= request_id (net s)) /\
  (forall i j e e' id f f', Wrote i e id f ∈ trace s -> Wrote j e' id f' ∈ trace s -> i = j) /\
  (forall i c w, calls s !! i = Some (c, Returned w) ->
     match wire_outcome w with
     | W_NOT_SENT => call_obs i (trace s) = []
     | W_UNKNOWN => call_obs i (trace s) = sent_obs i c (wire_request_id w)
     | W_RESPONSE => call_obs i (trace s) = sent_obs i c (wire_request_id w) /\
         Replied (c_required_epoch c) (wire_request_id w) (wire_response w) ∈ trace s
     | W_REJECTED => False
     end).
Proof.
  intros [_ _ Ht]%reachable_sys_ok. split_and!.
  - intros i c p Hi. eapply call_obs_cases, (to_obs _ Ht), Hi.
  - intros i e id f H. destruct (to_written _ Ht _ _ _ _ H) as [Hid (c & p & -> & _)]. eauto.
  - apply (to_one_writer _ Ht).
  - intros i c w Hi. apply (to_obs _ Ht _ _ _ Hi).
Qed.

(** The send gate serialises writes and lets actions overtake: in every
    reachable state at most one call is between the gate and the end of its
    write; a call is admitted only when none is; and an info request is admitted
    only when no action is waiting at the gate. *)
Theorem send_gate_exclusive_and_prioritised s :
  reachable_sys s ->
  (forall i j cp cq, calls s !! i = Some cp -> calls s !! j = Some cq -> in_gate cp = true -> in_gate cq = true -> i = j) /\
  (forall i s', step (Admit i) s = Some s' -> forall j cp, calls s !! j = Some cp -> in_gate cp = false) /\
  (forall i c s', step (Admit i) s = Some s' -> calls s !! i = Some (c, AtGate) -> c_action c = false ->
     forall j d, calls s !! j = Some (d, AtGate) -> c_action d = false).
Proof.
  intros [Hg _ _]%reachable_sys_ok. pose proof (go_held _ Hg) as Hh. pose proof (go_waiters _ Hg) as Hw.
  assert (forall i s', step (Admit i) s = Some s' -> exists c, calls s !! i = Some (c, AtGate) /\
    gate_free (c_action c) (net s) = true) as Hadm.
  { intros i s' H. cbn [step] in H. destruct (calls s !! i) as [[c p]|] eqn:Hi; [|done]. destruct p; try done.
    destruct (gate_free _ _) eqn:E; [|done]. by exists c. }
  split_and!.
  - intros i j [c p] cq Hi Hj Hp Hq. destruct (decide (i = j)) as [|Hne]; [done|]. exfalso.
    pose proof (count_insert in_gate _ i _ (c, Cancelled) Hi) as Hc. rewrite Hp in Hc. cbn [Z.b2z in_gate] in Hc.
    assert (<[i := (c, Cancelled)]> (calls s) !! j = Some cq) as Hj' by by rewrite list_lookup_insert_ne.
    pose proof (count_pos in_gate _ _ _ Hj' Hq). destruct (held (net s)); cbn [Z.b2z] in Hh; lia.
  - intros i s' (c & _ & [Hf _]%andb_true_iff)%Hadm j cp Hj. destruct (in_gate cp) eqn:E; [|done].
    pose proof (count_pos in_gate _ _ _ Hj E). destruct (held (net s)); [done|]. cbn [Z.b2z] in Hh. lia.
  - intros i c s' (c' & Hi' & [_ Hf]%andb_true_iff)%Hadm Hi Ha j d Hj. assert (c' = c) as -> by congruence.
    rewrite Ha in Hf. cbn [orb] in Hf. bool_prop. destruct (c_action d) eqn:E; [|done].
    pose proof (count_pos waiting_action _ _ (d, AtGate) Hj E). lia.
Qed.

(** A closed connection never carries a late frame: once epoch [e] is over (a
    newer epoch is attached or nothing is), no call that requires it and was
    still at the gate, or is made later, ever shows a hook or a frame, whatever
    happens next. *)
Theorem dead_epoch_never_sends s e evs :
  reachable_sys s -> dead e (net s) ->
  forall i c p, calls (run_events evs s) !! i = Some (c, p) -> c_required_epoch c = e ->
    match calls s !! i with Some (_, AtGate) | None => True | Some _ => False end ->
    call_obs i (trace (run_events evs s)) = [] /\
    match p with AtGate | Cancelled => True | Returned w => wire_outcome w = W_NOT_SENT | _ => False end.
Proof.
  intros Hs Hd i c p Hi He Hold. pose proof (reachable_sys_ok _ Hs) as Hok.
  assert (sys_ok (run_events evs s) /\ dead e (net (run_events evs s)) /\ barred i e (run_events evs s)) as (Hok' & _ & Hb).
  { apply run_events_ind; [|split; [done|split; [done|]]].
    - intros s1 s2 (H1 & H2 & H3) Hm. split_and!; [by eapply sys_preserved|by eapply dead_preserved|].
      by eapply barred_preserved.
    - unfold barred. destruct (calls s !! i) as [[d q]|] eqn:E; [|by apply (to_new _ (sy_trace _ Hok))].
      intros _. destruct q; try done. split; [|done]. apply (to_obs _ (sy_trace _ Hok) _ _ _ E). }
  unfold barred in Hb. rewrite Hi in Hb. destruct (Hb He) as [Hobs Hl]. split; [done|].
  pose proof (to_obs _ (sy_trace _ Hok') _ _ _ Hi) as Hp. destruct p as [| | | |w|]; try done. cbn [obs_ok] in Hp.
  assert (sent_obs i c (wire_request_id w) <> []) as Hne by (unfold sent_obs; by destruct (c_before_send c)).
  destruct (wire_outcome w); try done; [destruct Hp as [Hp _]|]; congruence.
Qed.

(** C40. No call hangs: from every reachable state, without any help from the
    network, finitely many local events (the hook and the write end, the gate
    opens, the response timeout fires) finish every call; and when a connection
    is closed every call that waits for a response on it can be woken at once. *)
Theorem every_call_finishes s :
  reachable_sys s ->
  (exists evs, Forall (fun ev => local_event ev = true) evs /\ (Z.of_nat (List.length evs) <= work_left s) /\
     forall i c p, calls (run_events evs s) !! i = Some (c, p) -> finished p = true) /\
  (forall e error i c id s1, step (Close e error) s = Some s1 ->
     calls s !! i = Some (c, Awaiting id) -> c_required_epoch c = e ->
     exists s2 w, step (Wake i) s1 = Some s2 /\ calls s2 !! i = Some (c, Returned w) /\ wire_request_id w = id).
Proof.
  intros Hs%reachable_sys_ok. split; [by apply drain|].
  intros e error i c id s1 [= <-] Hi He. destruct (io_live _ (sy_ids _ Hs) _ _ _ _ Hi eq_refl) as [[pd Hpd] _].
  destruct (io_pending _ (sy_ids _ Hs) _ _ Hpd) as [_ (j & d & q & Hj & Hl & Hep)].
  assert (j = i) as -> by (by eapply (io_unique _ (sy_ids _ Hs))). assert (d = c) as -> by congruence.
  cbn [step calls]. rewrite Hi. cbn [net close_epoch set_pendings pendings]. rewrite lookup_fmap, Hpd. cbn [fmap option_fmap option_map].
  assert (i < List.length (calls s))%nat by by eapply lookup_lt_Some.
  destruct (complete_settles e (Failed error) pd) as [_ [Hsame|(_ & _ & Hf)]].
  - rewrite Hsame. destruct pd as [pe pf]. cbn in Hep. unfold complete in Hsame. cbn in Hsame.
    rewrite Hep, He, Z.eqb_refl in Hsame. destruct pf as [|r|err]; cbn in Hsame; [by injection Hsame|..];
      (eexists _, _; split; [reflexivity|]; cbn [calls set_call]; by rewrite list_lookup_insert_eq by done).
  - destruct (complete e (Failed error) pd) as [pe pf]. cbn in Hf. subst pf.
    eexists _, _. split; [reflexivity|]. cbn [calls set_call]. by rewrite list_lookup_insert_eq by done.
Qed.

(** * Classification of responses *)

Definition is_fill (o : PostOutcome) : bool := bool_decide (o = PO_FILLED \/ o = PO_PARTIALLY_FILLED).

(** What holds of every classified result. *)
Definition classified_ok (response : json) (expected : dec) (r : PostResult) : Prop :=
  post_response r = response /\ post_outcome r <> PO_NOT_SENT /\ post_outcome r <> PO_INFO /\
  (post_outcome r = PO_FILLED -> (dval (post_filled_size r) == dval expected)%Q) /\
  (post_outcome r = PO_PARTIALLY_FILLED -> (0 < dval (post_filled_size r) < dval expected)%Q) /\
  (is_fill (post_outcome r) = false ->
     post_filled_size r = dzero /\ average_fill_price r = None /\ order_id r = None) /\
  (forall px, average_fill_price r = Some px -> (0 < dval px)%Q) /\
  (forall o, order_id r = Some o -> 0 <= o).

Lemma bare_ok response expected o reason :
  o <> PO_NOT_SENT -> o <> PO_INFO -> is_fill o = false ->
  classified_ok response expected (bare_result 0 o response reason).
Proof.
  intros H1 H2 H3. unfold classified_ok, bare_result. cbn. split_and!; try done; by intros ->.
Qed.

Lemma price_and_oid item average oid :
  filled_price_and_oid item = (average, oid) ->
  (forall px, average = Some px -> (0 < dval px)%Q) /\ (forall o, oid = Some o -> 0 <= o).
Proof.
  unfold filled_price_and_oid. destruct (obj_field "filled" item) as [| | | | | |f]; intros [<- <-]%pair_equal_spec; try done.
  split.
  - intros px (v & _ & H)%bind_Some.
    destruct (decimal_of_string _) as [[d| |]|]; try done. destruct (dpos d) eqn:E; [|done].
    injection H as <-. by apply dpos_spec.
  - intros o H.
    assert (forall v, match json_int v with Ok z => if 0 <=? z then Some z else None | Raise _ => None end = Some o ->
      0 <= o) as Hv.
    { intros v Hv. destruct (json_int v) as [n|]; [|done]. destruct (0 <=? n) eqn:En; [|done].
      injection Hv as <-. by apply Z.leb_le. }
    destruct (obj_field "oid" f); [done|..]; by eapply Hv.
Qed.

Lemma classify_item_ok item response expected : classified_ok response expected (classify_item item response expected).
Proof.
  unfold classify_item. destruct (find_field _ item); [by apply bare_ok|].
  destruct (filled_size item) as [filled|].
  - destruct (filled_price_and_oid item) as [average oid] eqn:Ep. apply price_and_oid in Ep as [Hpx Hoid].
    destruct (dleb filled dzero) eqn:E0; [by apply bare_ok|]. apply dleb_false in E0. rewrite dval_zero in E0.
    destruct (dltb expected filled) eqn:E1; [by apply bare_ok|]. apply dltb_false in E1.
    destruct (dltb filled expected) eqn:E2; unfold classified_ok; cbn.
    + apply dltb_spec in E2. by split_and!.
    + apply dltb_false in E2. split_and!; try done. intros _. lra.
  - repeat case_bool_decide; by apply bare_ok.
Qed.

(** A venue response is never read as more than it proves: for a positive
    submitted size the classifier always answers, never with NOT_SENT; FILLED
    means exactly the submitted size, PARTIALLY_FILLED strictly between zero and
    it, every other outcome carries no fill, price or order id; a fill or a
    cancellation is only read from the single item status of a payload that
    reports no error; and a rejection only from an explicit error. *)
Theorem ioc_classification_sound response expected :
  (0 < dval expected)%Q ->
  exists r, classify_ioc_response response (Fin expected) = Ok r /\ classified_ok response expected r /\
    (is_fill (post_outcome r) = true \/ post_outcome r = PO_CANCELLED ->
       exists o item, action_payload response = JObj o /\ json_is_str "error" (obj_field "type" o) = false /\
         response_items o = [item] /\ find_field ["error"; "err"] item = None) /\
    (post_outcome r = PO_REJECTED ->
       exists o, action_payload response = JObj o /\
         (json_is_str "error" (obj_field "type" o) = true \/
          py_lower (str_or_empty (obj_field "status" o)) ∈ ["err"; "error"; "failed"; "rejected"] \/
          exists item, response_items o = [item] /\ is_Some (find_field ["error"; "err"] item))).
Proof.
  intros Hpos. unfold classify_ioc_response. rewrite (proj2 (dleb_false expected dzero)) by (by rewrite dval_zero).
  eexists. split; [reflexivity|].
  destruct (action_payload response) as [| | | | | |o]; try (split; [by apply bare_ok|split; [intros [?|?]; done|done]]).
  destruct (json_is_str "error" (obj_field "type" o)) eqn:E1.
  { split; [by apply bare_ok|]. split; [intros [?|?]; done|]. intros _. exists o. auto. }
  destruct (bool_decide (py_lower _ ∈ _)) eqn:E2.
  { bool_prop. split; [by apply bare_ok|]. split; [intros [?|?]; done|]. intros _. exists o. auto. }
  destruct (response_items o) as [|item [|]] eqn:E3; try (split; [by apply bare_ok|split; [intros [?|?]; done|done]]).
  split; [apply classify_item_ok|]. unfold classify_item. destruct (find_field ["error"; "err"] item) as [v|] eqn:E4.
  - split; [intros [?|?]; done|]. intros _. exists o. split; [done|]. right. right. exists item. rewrite E4. eauto.
  - split; [intros _; by exists o, item|]. intros H. exfalso. revert H.
    destruct (filled_size item); [destruct (filled_price_and_oid item)|]; repeat case_match; done.
Qed.

(** * Signed actions *)

Lemma normalize_val d : (dval (normalize d) == dval (dfix prec_default d))%Q.
Proof.
  unfold normalize. cbv zeta. set (f := dfix prec_default d). destruct (dis_zero f) eqn:Ez.
  - apply dis_zero_spec in Ez. rewrite Ez. by apply dis_zero_spec.
  - set (fuel := N.to_nat _). set (top := dexp f + _).
    pose proof (strip_to_val fuel (dcoef f) (dexp f) top (dneg f)) as H.
    destruct (strip_to fuel (dcoef f) (dexp f) top) as [c e]. cbn [fst snd] in H. rewrite H. by rewrite <- dval_eta.
Qed.

(** The text of a size or a price reads back as the number. *)
Lemma wire_decimal_reads d s :
  wire_decimal (Fin d) = Ok s -> fits d ->
  exists d', decimal_of_string s = Some (Fin d') /\ (dval d' == dval d)%Q /\ (decimals_after_point (to_chars s) <= 8)%nat.
Proof.
  unfold wire_decimal. intros H Hf. destruct (dleb d dzero); [done|]. cbv zeta in H.
  destruct (8 <? _)%nat eqn:E; [done|]. injection H as <-. apply Nat.ltb_ge in E.
  exists (fixed_form (normalize d)). split; [apply decimal_fixed_roundtrip|]. split; [|done].
  rewrite fixed_form_val, normalize_val. by rewrite dfix_same.
Qed.

Lemma validate_cloid_idem c c' : validate_cloid c = Ok c' -> validate_cloid c' = Ok c'.
Proof.
  unfold validate_cloid. cbv zeta. destruct (cloid_re (py_lower c)) eqn:E; [|done]. intros [= <-].
  by rewrite py_lower_idem, E.
Qed.

(** The action [build_ioc_action] builds. *)
Definition ioc_wire (asset_id : Z) (is_buy reduce_only : bool) (p s cloid : string) : list (string * json) :=
  [("type", JStr "order");
   ("orders", JList [JObj [("a", JInt asset_id); ("b", JBool is_buy); ("p", JStr p); ("s", JStr s);
      ("r", JBool reduce_only); ("t", JObj [("limit", JObj [("tif", JStr "Ioc")])]); ("c", JStr cloid)]]);
   ("grouping", JStr "na")].

Lemma ioc_wire_valid a b r p s c : validate_cloid c = Ok c -> validate_ioc_wire (ioc_wire a b r p s c) c = Ok tt.
Proof.
  intros Hc.
  assert (validate_ioc_wire (ioc_wire a b r p s c) c =
    (normalized ← validate_cloid c;
     if negb (bool_decide (normalized = c)) || negb (bool_decide (c = c))
     then Raise (ValueError "outer CLOID does not match IOC wire order CLOID") else Ok tt)) as -> by reflexivity.
  rewrite Hc. cbn [mbind res_bind]. by rewrite bool_decide_eq_true_2.
Qed.

Lemma ioc_wire_eqb a b r p s c : json_eqb (JObj (ioc_wire a b r p s c)) (JObj (ioc_wire a b r p s c)) = true.
Proof.
  assert (json_eqb (JObj (ioc_wire a b r p s c)) (JObj (ioc_wire a b r p s c)) =
    ((deqb (dint a) (dint a) && (deqb (dint (Z.b2z b)) (dint (Z.b2z b)) && (bool_decide (p = p) &&
      (bool_decide (s = s) && (deqb (dint (Z.b2z r)) (dint (Z.b2z r)) && (bool_decide (c = c) && true)))))) && true) && true)
    as -> by reflexivity.
  by rewrite !deqb_refl, !bool_decide_eq_true_2.
Qed.

Lemma build_ioc_inv asset_id is_buy size limit_px reduce_only cloid ioc :
  build_ioc_action asset_id is_buy size limit_px reduce_only cloid = Ok ioc ->
  exists c p s d, validate_cloid cloid = Ok c /\ 0 <= asset_id /\ wire_decimal limit_px = Ok p /\
    wire_decimal (pydec_abs size) = Ok s /\ pydec_abs size = Fin d /\ (0 < dval d)%Q /\
    ioc = MkIoc c d (ioc_wire asset_id is_buy reduce_only p s c).
Proof.
  unfold build_ioc_action. intros (c & Hc & H)%bind_Ok. destruct (asset_id <? 0) eqn:Ea; [done|]. cbv zeta in H.
  apply bind_Ok in H as (p & Hp & H). apply bind_Ok in H as (s & Hs & H). unfold make_ioc in H.
  rewrite (validate_cloid_idem _ _ Hc) in H. cbn [mbind res_bind] in H. rewrite bool_decide_eq_true_2 in H by done.
  cbn [negb] in H. destruct (pydec_abs size) as [d| |] eqn:Ed; try done.
  destruct (dleb d dzero) eqn:E0; [done|]. apply dleb_false in E0. rewrite dval_zero in E0.
  apply bind_Ok in H as ([] & _ & [= <-]). exists c, p, s, d. split_and!; try done. lia.
Qed.

(** What is signed is what was built: for every size and price of at most 28
    digits, a built action carries them as texts of at most eight decimals that
    read back as exactly the size and the price, next to the given asset, side,
    reduce-only flag and normalised client order id; signing it returns a value
    exactly when the nonce and expiry are in range and the SDK signs, and then
    the payload holds this very action, nonce, expiry and vault, and passes its own
    revalidation. *)
Theorem signed_ioc_exact sdk asset_id is_buy size px reduce_only cloid ioc nonce expires main vault :
  build_ioc_action asset_id is_buy (Fin size) (Fin px) reduce_only cloid = Ok ioc -> fits size -> fits px ->
  (exists c p s dp ds, validate_cloid cloid = Ok c /\ ioc_cloid ioc = c /\
     ioc_action ioc = ioc_wire asset_id is_buy reduce_only p s c /\
     decimal_of_string p = Some (Fin dp) /\ (dval dp == dval px)%Q /\
     decimal_of_string s = Some (Fin ds) /\ (dval ds == Qabs.Qabs (dval size))%Q /\
     (dval (ioc_expected_size ioc) == Qabs.Qabs (dval size))%Q /\
     (decimals_after_point (to_chars p) <= 8)%nat /\ (decimals_after_point (to_chars s) <= 8)%nat) /\
  (is_ok (sign_ioc_action sdk ioc nonce expires main vault) = true <->
     0 <= nonce /\ 0 < expires /\ is_ok (sdk (ioc_action ioc) vault nonce expires main) = true) /\
  (forall signed, sign_ioc_action sdk ioc nonce expires main vault = Ok signed ->
     signed_ioc signed = ioc /\ signed_nonce signed = nonce /\ signed_expires_after_ms signed = expires /\
     obj_field "action" (signed_payload signed) = JObj (ioc_action ioc) /\
     obj_field "nonce" (signed_payload signed) = JInt nonce /\
     obj_field "expiresAfter" (signed_payload signed) = JInt expires /\
     Ok (obj_field "signature" (signed_payload signed)) = sdk (ioc_action ioc) vault nonce expires main).
Proof.
  intros (c & p & s & d & Hc & Ha & Hp & Hs & Hd & Hpos & ->)%build_ioc_inv Fs Fp.
  injection Hd as <-. cbn [ioc_cloid ioc_action ioc_expected_size].
  pose proof (validate_cloid_idem _ _ Hc) as Hc'.
  assert (sign_ioc_action sdk (MkIoc c (dabs size) (ioc_wire asset_id is_buy reduce_only p s c)) nonce expires main vault =
    (check_signing_numbers nonce expires ;;
     signature ← sdk (ioc_wire asset_id is_buy reduce_only p s c) vault nonce expires main;
     Ok (MkSigned (MkIoc c (dabs size) (ioc_wire asset_id is_buy reduce_only p s c)) nonce expires
       [("action", JObj (ioc_wire asset_id is_buy reduce_only p s c)); ("nonce", JInt nonce); ("signature", signature);
        ("vaultAddress", match vault with Some v => JStr v | None => JNull end); ("expiresAfter", JInt expires)]))) as ->.
  { unfold sign_ioc_action, make_signed. cbn [ioc_action ioc_cloid]. rewrite ioc_wire_valid by done.
    destruct (check_signing_numbers nonce expires) as [[]|] eqn:En; [|done]. cbn [mbind res_bind].
    destruct (sdk _ vault nonce expires main) as [sig|]; [|done].
    change (obj_field "action" _) with (JObj (ioc_wire asset_id is_buy reduce_only p s c)). rewrite ioc_wire_eqb.
    change (json_eq_int (obj_field "nonce" _) nonce) with (nonce =? nonce).
    change (json_eq_int (obj_field "expiresAfter" _) expires) with (expires =? expires). by rewrite !Z.eqb_refl. }
  split; [|split].
  - destruct (wire_decimal_reads px p Hp Fp) as (dp & Hdp & Vp & Lp).
    destruct (wire_decimal_reads (dabs size) s Hs (dabs_is_fits size)) as (ds & Hds & Vs & Ls).
    exists c, p, s, dp, ds. rewrite Vs. split_and!; try done; by apply dabs_fits_val.
  - unfold check_signing_numbers. destruct (nonce <? 0) eqn:E1; [split; [done|intros (? & _); lia]|].
    destruct (expires <=? 0) eqn:E2; [split; [done|intros (_ & ? & _); lia]|]. cbn [mbind res_bind].
    destruct (sdk _ vault nonce expires main); cbn; split; try done; [|by intros (_ & _ & ?)].
    intros _. split_and!; try done; lia.
  - intros signed ([] & _ & (sig & Hsig & [= <-])%bind_Ok)%bind_Ok. by rewrite Hsig.
Qed.

(** * Witnesses *)

Definition sample_call : call := MkCall true [("nonce", JInt 1)] 1 true true.
Definition sample_reply : json :=
  JObj [("channel", JStr "post"); ("data", JObj [("id", JInt 1); ("response", JStr "done")])].
Definition sample_events : list event :=
  [Attach; Post sample_call; Admit 0; HookReturns 0; WriteReturns 0; Message 1 sample_reply; Wake 0].
Definition sample_sys : sys := run_events sample_events new_sys.

(** An action and an info request at the gate. *)
Definition waiting_sys : sys :=
  run_events [Attach; Post (MkCall false [] 1 false true); Post sample_call] new_sys.

Lemma wire_result_means_witness :
  exists w, calls sample_sys !! 0%nat = Some (sample_call, Returned w) /\ wire_outcome w = W_RESPONSE /\
    call_obs 0 (trace sample_sys) = sent_obs 0 sample_call (wire_request_id w).
Proof.
  exists (MkWire 1 W_RESPONSE (JStr "done") "response"). split; [vm_compute; reflexivity|]. split; [reflexivity|].
  refine (proj1 (proj2 (proj2 (proj2 (wire_result_means sample_sys _))) 0%nat sample_call
    (MkWire 1 W_RESPONSE (JStr "done") "response") _)).
  - exists sample_events. reflexivity.
  - vm_compute. reflexivity.
Defined.

Lemma send_gate_exclusive_and_prioritised_witness :
  step (Admit 0) waiting_sys = None /\ exists s', step (Admit 1) waiting_sys = Some s' /\
    forall j cp, calls waiting_sys !! j = Some cp -> in_gate cp = false.
Proof.
  split; [vm_compute; reflexivity|]. eexists. split; [vm_compute; reflexivity|].
  refine (proj1 (proj2 (send_gate_exclusive_and_prioritised waiting_sys _)) 1%nat _ _).
  - eexists. reflexivity.
  - vm_compute. reflexivity.
Defined.

Lemma dead_epoch_never_sends_witness :
  call_obs 0 (trace (run_events [Attach; Admit 1; WriteReturns 1; Admit 0]
    (run_events [Attach; Post sample_call; Post (MkCall false [] 2 false true); Close 1 "EOF"] new_sys))) = [].
Proof.
  refine (proj1 (dead_epoch_never_sends
    (run_events [Attach; Post sample_call; Post (MkCall false [] 2 false true); Close 1 "EOF"] new_sys) 1
    [Attach; Admit 1; WriteReturns 1; Admit 0] _ _ 0%nat sample_call
    (Returned (MkWire 0 W_NOT_SENT JNull "connection_epoch_changed_before_send")) _ _ _)).
  - eexists. reflexivity.
  - right. vm_compute. split; reflexivity.
  - vm_compute. reflexivity.
  - reflexivity.
  - vm_compute. exact I.
Defined.

Lemma every_call_finishes_witness :
  exists evs, Forall (fun ev => local_event ev = true) evs /\
    forall i c p, calls (run_events evs waiting_sys) !! i = Some (c, p) -> finished p = true.
Proof.
  destruct (proj1 (every_call_finishes waiting_sys (ex_intro _ _ eq_refl))) as (evs & H1 & _ & H2).
  exists evs. split; assumption.
Defined.

Definition sample_fill : json :=
  JObj [("type", JStr "action"); ("payload", JObj [("status", JStr "ok"); ("response", JObj [("data",
    JObj [("statuses", JList [JObj [("filled", JObj [("totalSz", JStr "0.5"); ("avgPx", JStr "101.5"); ("oid", JInt 7)])]])])])])].

Lemma ioc_classification_sound_witness :
  exists r, classify_ioc_response sample_fill (Fin (dint 1)) = Ok r /\ post_outcome r = PO_PARTIALLY_FILLED /\
    (0 < dval (post_filled_size r) < dval (dint 1))%Q.
Proof.
  destruct (ioc_classification_sound sample_fill (dint 1)) as (r & Hr & (_ & _ & _ & _ & Hp & _) & _);
    [vm_compute; reflexivity|].
  assert (post_outcome r = PO_PARTIALLY_FILLED) as Ho by (vm_compute in Hr; injection Hr as <-; reflexivity).
  exists r. split; [assumption|]. split; [assumption|]. exact (Hp Ho).
Defined.

Definition sample_ioc : IocAction :=
  MkIoc "0x00000000000000000000000000000001" (Dec false 250 (-2))
    (ioc_wire 4 true false "101.5" "2.5" "0x00000000000000000000000000000001").

Lemma signed_ioc_exact_witness :
  is_ok (sign_ioc_action (fun _ _ _ _ _ => Ok (JStr "sig")) sample_ioc 7 9 true None) = true.
Proof.
  refine (proj2 (proj1 (proj2 (signed_ioc_exact (fun _ _ _ _ _ => Ok (JStr "sig")) 4 true (Dec false 250 (-2))
    (Dec false 1015 (-1)) false "0x00000000000000000000000000000001" sample_ioc 7 9 true None _ _ _))) _).
  - vm_compute. reflexivity.
  - vm_compute. discriminate.
  - vm_compute. discriminate.
  - split; [discriminate|]. split; [reflexivity|]. vm_compute. reflexivity.
Defined.
