(* ===== verification/Executor.v ===== *)
(** continuous_executor.py: one signer lane over the action journal and the POST
    multiplexer.

    A computation over the journal is a state transformer: the tables change
    by transactions, and a raise keeps what earlier transactions committed.  The
    lane's lock keeps two calls of a lane apart; the transport [post] is an
    argument that may run any other journal operations before and after the
    hook, which is where the other tasks of the event loop interleave.  The
    digest of [deterministic_cloid], the SDK signature and [json.loads] are
    parameters; each reading of a clock is an argument.  Reading the key file
    and the two latency figures of an attempt are not modelled. *)

From S2P Require Import Prelude PyDecimal DecimalFacts PyText Models ActionJournal WsActions OrderStatus.
From S2P Require DesiredEngine.
From Stdlib Require Import QArith.

Open Scope Z_scope.

(** A computation over the journal. *)
Abbreviation J := (ST db).

(** * The lane *)

Record SignerLane := MkLane {
  sl_follower_account : string;
  sl_api_wallet_address : string;
  sl_vault_address : option string;
  sl_is_mainnet : bool;
  sl_expires_window_ms : Z;
  sl_signing_enabled : bool;
}.

(** [_initialize] *)
Definition init_lane (follower wallet : string) (vault : option string) (main : bool) (window : Z) (signing : bool)
    : SignerLane :=
  MkLane (py_lower follower) (py_lower wallet) (py_lower <$> vault) main window signing.

(** [__init__], with the address the key derives to. *)
Definition make_lane (follower wallet derived : string) (vault : option string) (main : bool) (window : Z)
    : res SignerLane :=
  if window <=? 0 then Raise (ValueError "expires window must be positive") else
  let derived := py_lower derived in
  if negb (bool_decide (derived = py_lower wallet))
  then Raise (ValueError "API-wallet key does not match the bound credential profile")
  else Ok (init_lane follower derived vault main window true).

Definition monitor_only (follower wallet : string) (vault : option string) (main : bool) : SignerLane :=
  init_lane follower wallet vault main 5000 false.

Section Lane.
Variables (blake2s : string -> string)
  (sign_l1_action : list (string * json) -> option string -> Z -> Z -> bool -> res json)
  (loads : string -> option json).
Variable l : SignerLane.

Definition lane_recovery_actions (s : db) : res (list ActionRecord) :=
  recovery_actions (Some (sl_follower_account l)) (Some (sl_api_wallet_address l)) s.

(** Mark the provably unsent actions of [records]. *)
Fixpoint mark_unsent (records : list ActionRecord) (now : Z) : J (list ActionRecord) :=
  match records with
  | [] => jret []
  | record :: rest =>
      if bool_decide (state record = PREPARED)
      then let! r := mark_not_sent (cloid record) None now in
           let! rs := mark_unsent rest now in jret (r :: rs)
      else mark_unsent rest now
  end.

Definition recover_provably_unsent (now : Z) : J (list ActionRecord) :=
  let! records := jquery lane_recovery_actions in mark_unsent records now.

(** [bool(json.loads(record.action_json)["orders"][0]["b"])] *)
Definition recorded_side (record : ActionRecord) : res bool :=
  match loads (action_json record) with
  | Some (JObj o) =>
      match obj_get "orders" o with
      | Some (JList (JObj order :: _)) =>
          match obj_get "b" order with Some b => Ok (json_truthy b) | None => Raise (KeyError "b") end
      | Some (JList []) => Raise (KeyError "list index out of range")
      | Some _ => Raise (TypeError "orders is not a list of objects")
      | None => Raise (KeyError "orders")
      end
  | Some _ => Raise (TypeError "action is not an object")
  | None => Raise (ValueError "JSONDecodeError")
  end.

Definition signed_remaining (record : ActionRecord) (buy : bool) : dec :=
  if buy then remaining_size record else dopp (remaining_size record).

Definition add_remaining (result : dict dec) (record : ActionRecord) : res (dict dec) :=
  if bool_decide (state record = PREPARED) then Ok result else
  buy ← recorded_side record;
  Ok (dict_set (market record)
        (dadd (default dzero (dict_get (market record) result)) (signed_remaining record buy)) result).

Definition unresolved_signed_remaining (s : db) : res (dict dec) :=
  records ← lane_recovery_actions s;
  fold_res add_remaining records [].

(** * Execution *)

Definition cloid_parts (action : DesiredEngine.NextAction) (attempt_no : Z) (limit_px : pydec) : list json :=
  [JStr "continuous-v1"; JStr (sl_follower_account l); JStr (DesiredEngine.na_market action);
   JStr (DesiredEngine.na_desired_id action); JInt attempt_no; JStr (DesiredEngine.na_side action);
   JStr (dec_str (DesiredEngine.na_size action)); JStr (pydec_str limit_px);
   JBool (DesiredEngine.na_reduce_only action)].

(** [_exact_json] *)
Definition exact_json (value : list (string * json)) : string := of_chars (json_dumps (JObj value)).

(** [execute_ioc] up to the durable PREPARED record. *)
Definition begin_ioc (action : DesiredEngine.NextAction) (asset_id : Z) (limit_px : pydec) (now_ms reserved_ms : Z)
    : J (SignedIocAction * ActionRecord) :=
  if negb (sl_signing_enabled l)
  then jraise (RuntimeError "monitor-only signer lane cannot execute an action") else
  let! unresolved := jquery lane_recovery_actions in
  if negb (bool_decide (unresolved = []))
  then jraise (RuntimeError "signer lane has unresolved durable actions") else
  let! attempt_no := jquery (next_attempt_no (sl_follower_account l) (sl_api_wallet_address l)
    (DesiredEngine.na_desired_id action) (DesiredEngine.na_market action)) in
  let cloid := deterministic_cloid blake2s (cloid_parts action attempt_no limit_px) in
  let! ioc := jlift (build_ioc_action asset_id (bool_decide (DesiredEngine.na_side action = "buy"))
    (Fin (DesiredEngine.na_size action)) limit_px (DesiredEngine.na_reduce_only action) cloid) in
  let! nonce := reserve_nonce (sl_follower_account l) (sl_api_wallet_address l) (Some now_ms) reserved_ms in
  let! signed := jlift (sign_ioc_action sign_l1_action ioc nonce (now_ms + sl_expires_window_ms l)
    (sl_is_mainnet l) (sl_vault_address l)) in
  let! prepared := prepare_action
    (MkPrepare (sl_follower_account l) (sl_api_wallet_address l) (DesiredEngine.na_desired_id action)
       (DesiredEngine.na_market action) attempt_no cloid nonce (ArgDecimal (Fin (DesiredEngine.na_size action)))
       (exact_json (ioc_action ioc)) (exact_json (signed_payload signed)) (signed_expires_after_ms signed)
       ("pending:" +:+ cloid) (Some now_ms)) now_ms in
  jret (signed, prepared).

(** [before_send] *)
Definition send_hook (id_cloid : string) (now : Z) (request_id : Z) : J unit :=
  let! _ := mark_send_attempted id_cloid (Some (str_of_Z request_id)) None now in jret tt.

Definition outcome_state (o : PostOutcome) : option ActionState :=
  match o with
  | PO_UNKNOWN => Some UNKNOWN
  | PO_REJECTED => Some AS_REJECTED
  | PO_FILLED => Some FILLED
  | PO_PARTIALLY_FILLED => Some PARTIALLY_FILLED
  | PO_CANCELLED => Some CANCELED
  | PO_NOT_SENT | PO_INFO => None
  end.

Definition record_result (id_cloid : string) (result : PostResult) (now : Z) : J ActionRecord :=
  let! current := jquery (get_action id_cloid) in
  match current with
  | None => jraise (RuntimeError "prepared action disappeared from its journal")
  | Some current =>
      if bool_decide (post_outcome result = PO_NOT_SENT) then
        if negb (bool_decide (state current = PREPARED))
        then mark_unknown id_cloid (Some "transport_not_sent_after_boundary") None now
        else mark_not_sent id_cloid None now
      else
        match outcome_state (post_outcome result) with
        | None => mark_unknown id_cloid (Some "unexpected:info") None now
        | Some st =>
            record_outcome id_cloid st (Some (ArgDecimal (Fin (post_filled_size result))))
              (Some (post_reason result)) None now
        end
  end.

(** The clock readings of one execution. *)
Record clocks := MkClocks { ck_now : Z; ck_reserved : Z; ck_sent : Z; ck_recorded : Z }.

Definition execute_ioc (post : call -> (Z -> J unit) -> J WireResult) (action : DesiredEngine.NextAction)
    (asset_id : Z) (limit_px : pydec) (required_epoch : Z) (on_prepared : ActionRecord -> res unit) (t : clocks)
    : J (ActionRecord * PostResult) :=
  let! begun := begin_ioc action asset_id limit_px (ck_now t) (ck_reserved t) in
  let '(signed, prepared) := begun in
  let! _ := jlift (on_prepared prepared) in
  let! c := jlift (action_call signed required_epoch true true) in
  let! wire := post c (send_hook (cloid prepared) (ck_sent t)) in
  let! result := jlift (post_action_result signed wire) in
  let! record := record_result (cloid prepared) result (ck_recorded t) in
  jret (record, result).

(** * Resolution of one action *)

Definition resolution_state (r : OrderStatusResolution) : option ActionState :=
  if bool_decide (os_state r ∈ ["cancelled"; "expired"])
  then Some (if dpos (cumulative_filled_abs r) then PARTIALLY_FILLED else CANCELED)
  else if bool_decide (os_state r = "filled") then Some FILLED
  else if bool_decide (os_state r = "partially_filled") then Some PARTIALLY_FILLED
  else if bool_decide (os_state r = "rejected") then Some AS_REJECTED
  else if bool_decide (os_state r = "resting") then Some RESTING
  else None.

Definition order_status_query (id_cloid : string) : list (string * json) :=
  [("type", JStr "orderStatus"); ("user", JStr (sl_follower_account l)); ("oid", JStr id_cloid)].

(** [resolve_by_cloid] once the info request has answered. *)
Definition settle_by_status (record : ActionRecord) (result : PostResult) (now : Z) : J ActionRecord :=
  if negb (bool_decide (post_outcome result = PO_INFO))
  then mark_unknown (cloid record) (Some (post_reason result)) None now else
  let payload := match post_response result with
                 | JObj o => if json_is_str "info" (obj_field "type" o) then obj_field "payload" o else post_response result
                 | r => r
                 end in
  let! resolution := jlift (classify_order_status payload (Fin (requested_size record))) in
  if negb (resolved resolution)
  then mark_unknown (cloid record) (Some (os_state resolution)) None now else
  match resolution_state resolution with
  | None => mark_unknown (cloid record) (Some (os_state resolution)) None now
  | Some st =>
      record_outcome (cloid record) st (Some (ArgDecimal (Fin (cumulative_filled_abs resolution))))
        (Some ("ws_order_status:" +:+ os_state resolution)) None now
  end.

Definition resolve_by_cloid (info : call -> J WireResult) (id_cloid : string) (required_epoch now : Z) : J ActionRecord :=
  let! record := jquery (get_owned_action id_cloid (sl_follower_account l) (sl_api_wallet_address l)) in
  match record with
  | None => jraise (ValueError "cannot resolve a CLOID not owned by this signer lane")
  | Some record =>
      if terminal record then jret record else
      let! c := jlift (info_call (order_status_query (cloid record)) required_epoch true) in
      let! wire := info c in
      settle_by_status record (post_info_result wire) now
  end.
End Lane.
