(* ===== verification/ExecutorFacts.v ===== *)
(** Properties of Executor.v: a written frame is always known to the journal,
    recovery never un-sends, one unresolved action per lane, and the recording of
    results. *)

From S2P Require Import Prelude PyDecimal DecimalFacts PyText TextFacts Models ActionJournal JournalFacts WsActions WsFacts OrderStatus Executor.
From S2P Require DesiredEngine.
From Stdlib Require Import QArith Lqa.

Open Scope Z_scope.

(** * Computations as runs of journal operations *)

(** [m] changes the tables only by operations that satisfy [P]. *)
Class Journaled {A} (P : op -> Prop) (m : J A) : Prop :=
  journaled s : exists ops, Forall P ops /\ (m s).1 = run ops s.

Lemma run_app ops1 ops2 s : run (ops1 ++ ops2) s = run ops2 (run ops1 s).
Proof. apply fold_left_app. Qed.

Lemma reachable_run ops s : reachable s -> reachable (run ops s).
Proof. intros [ops0 ->]. exists (ops0 ++ ops). by rewrite run_app. Qed.

Section JournaledInstances.
Context {P : op -> Prop}.

Lemma journaled_pure {A} (m : J A) : (forall s, (m s).1 = s) -> Journaled P m.
Proof. intros H s. exists []. split; [constructor|apply H]. Qed.

#[export] Instance journaled_ret {A} (a : A) : Journaled P (jret a).
Proof. by apply journaled_pure. Qed.
#[export] Instance journaled_raise {A} e : Journaled P (jraise (A := A) e).
Proof. by apply journaled_pure. Qed.
#[export] Instance journaled_lift {A} (r : res A) : Journaled P (jlift r).
Proof. by apply journaled_pure. Qed.
#[export] Instance journaled_query {A} (q : db -> res A) : Journaled P (jquery q).
Proof. by apply journaled_pure. Qed.

#[export] Instance journaled_bind {A B} (m : J A) (k : A -> J B) :
  Journaled P m -> (forall a, Journaled P (k a)) -> Journaled P (jbind m k).
Proof.
  intros Hm Hk s. destruct (Hm s) as (ops1 & H1 & E1). unfold jbind. destruct (m s) as [s1 [a|e]]; cbn in E1.
  - destruct (Hk a s1) as (ops2 & H2 & E2). exists (ops1 ++ ops2). split; [by apply Forall_app|].
    by rewrite E2, E1, run_app.
  - by exists ops1.
Qed.

Lemma journaled_op {A} (m : J A) o : (forall s, (m s).1 = apply_op o s) -> P o -> Journaled P m.
Proof. intros H Ho s. exists [o]. split; [by constructor|apply H]. Qed.
End JournaledInstances.

Lemma journaled_reachable {A} P (m : J A) `{!Journaled P m} s s' r : reachable s -> m s = (s', r) -> reachable s'.
Proof.
  intros Hs H. destruct (journaled s) as (ops & _ & E). rewrite H in E. cbn in E. subst. by apply reachable_run.
Qed.

(** What an operation does to the rows of a lane: only [OpPrepare] adds one. *)
Definition no_prepare (o : op) : Prop := match o with OpPrepare _ _ => False | _ => True end.

#[export] Instance journaled_mark_not_sent id obs now : Journaled no_prepare (mark_not_sent id obs now).
Proof. by apply (journaled_op _ (OpNotSent id obs now)). Qed.
#[export] Instance journaled_mark_unknown id d obs now : Journaled no_prepare (mark_unknown id d obs now).
Proof. by apply (journaled_op _ (OpOutcome id UNKNOWN None d obs now)). Qed.
#[export] Instance journaled_record_outcome id t c d obs now : Journaled no_prepare (record_outcome id t c d obs now).
Proof. by apply (journaled_op _ (OpOutcome id t c d obs now)). Qed.
#[export] Instance journaled_mark_sent id r obs now : Journaled no_prepare (mark_send_attempted id r obs now).
Proof. by apply (journaled_op _ (OpSendAttempted id r obs now)). Qed.
#[export] Instance journaled_reserve f w wall now : Journaled no_prepare (reserve_nonce f w wall now).
Proof. by apply (journaled_op _ (OpReserve f w wall now)). Qed.

#[export] Instance journaled_hook id now r : Journaled no_prepare (send_hook id now r).
Proof. unfold send_hook. apply _. Qed.

#[export] Instance journaled_record_result id r now : Journaled no_prepare (record_result id r now).
Proof.
  unfold record_result. apply journaled_bind; [apply _|]. intros [current|]; [|apply _].
  repeat case_match; apply _.
Qed.

#[export] Instance journaled_mark_unsent records now : Journaled no_prepare (mark_unsent records now).
Proof. induction records as [|r records IH]; cbn [mark_unsent]; [apply _|]. case_match; apply _. Qed.

#[export] Instance journaled_recover l now : Journaled no_prepare (recover_provably_unsent l now).
Proof. unfold recover_provably_unsent. apply _. Qed.

#[export] Instance journaled_settle record result now : Journaled no_prepare (settle_by_status record result now).
Proof.
  unfold settle_by_status. case_match; [apply _|]. apply journaled_bind; [apply _|]. intros resolution.
  repeat case_match; apply _.
Qed.

(** * A send is never forgotten *)

(** The row of an action whose send was attempted. *)
Definition sent_row (row : ActionRow) : Prop :=
  is_Some (send_attempted_ms row) /\ state row ∉ [PREPARED; NOT_SENT].

Lemma row_sent_state row : row_ok row -> is_Some (send_attempted_ms row) -> state row ∉ [PREPARED; NOT_SENT].
Proof.
  intros [(q & c & _ & Hq & _ & Hst) _] [t Ht] Hin.
  destruct (state_facts _ _ _ _ _ Hst Hq) as (_ & [Hs _] & _). specialize (Hs Hin). congruence.
Qed.

Lemma sent_forever id rq obs now s s1 rec ops :
  reachable s -> mark_send_attempted id rq obs now s = (s1, Ok rec) ->
  exists c row row', validate_cloid id = Ok c /\ actions s !! c = Some row /\ state row = PREPARED /\
    actions (run ops s1) !! c = Some row' /\ evolves row row' /\ sent_row row'.
Proof.
  intros Hs H. assert (db_ok s1) as Hok1.
  { pose proof (jstep_ok _ _ (apply_op_step (OpSendAttempted id rq obs now) s) (reachable_ok _ Hs)) as Hok.
    cbn [apply_op] in Hok. by rewrite H in Hok. }
  apply send_inv in H as [[_ [e He]]|(c & rec' & row & cur & o & rq1 & Hid & _ & Hrow & _ & Hst & Ho & Es & _)]; [done|].
  set (row1 := update_row row SEND_ATTEMPTED _ _ _ _ _ _) in *.
  assert (actions s1 !! c = Some row1) as Hrow1 by (rewrite Es; cbn; by rewrite lookup_insert_eq).
  destruct (run_evolves ops s1 c row1 Hok1 Hrow1) as (row2 & Hrow2 & Hev).
  assert (db_ok (run ops s1)) as Hok2.
  { apply run_ind; [intros; eapply jstep_ok; [apply apply_op_step|done]|done]. }
  destruct (do_row _ Hok2 _ _ Hrow2) as [_ Hr2].
  assert (is_Some (send_attempted_ms row2)) as Hsent by (exists o; by apply (ev_sent _ _ Hev)).
  exists c, row, row2. split_and!; try done.
  - eapply evolves_trans; [|done]. apply send_row; try done. by apply (do_row _ (reachable_ok _ Hs) _ _ Hrow).
  - split; [done|by apply row_sent_state].
Qed.

(** * Driving a call while the rest of the program runs *)

(** One thing that happens while call [i] is in flight: an operation on the
    journal by another task, an event of the multiplexer, or the call's own
    [before_send] running to its end. *)
Inductive item := Table (o : op) | Net (ev : event) | RunHook (error : string).

Definition own_hook (i : nat) (ev : event) : bool :=
  match ev with HookReturns j | HookRaises j _ => Nat.eqb i j | _ => false end.

Definition drive1 (i : nat) (hook : Z -> J unit) (it : item) (sn : db * sys) : db * sys :=
  let '(s, n) := sn in
  match it with
  | Table o => (apply_op o s, n)
  | Net ev => if own_hook i ev then (s, n) else (s, default n (step ev n))
  | RunHook error =>
      match calls n !! i with
      | Some (_, InHook id _) =>
          match hook id s with
          | (s', Ok _) => (s', default n (step (HookReturns i) n))
          | (s', Raise _) => (s', default n (step (HookRaises i error) n))
          end
      | _ => (s, n)
      end
  end.

Definition drive (i : nat) (hook : Z -> J unit) (items : list item) (sn : db * sys) : db * sys :=
  fold_left (fun sn it => drive1 i hook it sn) items sn.

(** The multiplexer as the transport of [execute_ioc]: the call is posted and
    driven through [items]. *)
Definition mux_post (items : list item) (n : sys) (c : call) (hook : Z -> J unit) : J WireResult := fun s =>
  let i := List.length (calls n) in
  let '(s', n') := drive i hook items (s, default n (step (Post c) n)) in
  match calls n' !! i with
  | Some (_, Returned w) => (s', Ok w)
  | _ => (s', Raise (RuntimeError "cancelled"))
  end.

(** An event other than the end of its own hook shows nothing of a call that
    has a hook. *)
Lemma event_silent i c p ev n n' :
  calls n !! i = Some (c, p) -> c_before_send c = true -> own_hook i ev = false -> step ev n = Some n' ->
  call_obs i (trace n') = call_obs i (trace n).
Proof.
  intros Hi Hb Hown Hstep.
  cut (exists t, trace n' = trace n ++ t /\ call_obs i t = []).
  { intros (t & -> & Ht). by rewrite call_obs_app, Ht, app_nil_r. }
  assert (forall m l, exists t, trace (MkSys m l (trace n ++ [])) = trace n ++ t /\ call_obs i t = []) as Hnil
    by (intros m l; by exists []).
  assert (forall m l, exists t, trace (MkSys m l (trace n)) = trace n ++ t /\ call_obs i t = []) as Hsame
    by (intros m l; exists []; by rewrite app_nil_r).
  destruct ev as [|e err|e m|d|j|j|j err|j|j err|j|j|j]; cbn [step own_hook] in Hstep, Hown;
    try (destruct (calls n !! j) as [[d q]|] eqn:Hj; [|done]).
  - destruct (attach (net n)); [|done]. injection Hstep as <-. apply Hsame.
  - injection Hstep as <-. apply Hsame.
  - injection Hstep as <-. eexists. split; [done|]. apply call_obs_nil. intros o Ho.
    apply (st_trace _ _ _ (message_settles e m (net n))) in Ho as (? & ? & ? & ->). done.
  - destruct (c_timeout_positive d); [|done]. injection Hstep as <-. apply Hsame.
  - destruct q; try done. destruct (gate_free _ _); [|done]. injection Hstep as <-. unfold admitted. cbv zeta.
    destruct (negb _ || _); [apply Hnil|]. destruct (c_before_send d) eqn:Ed; [apply Hnil|].
    eexists. split; [done|]. apply call_obs_nil. intros o ->%list_elem_of_singleton. cbn.
    apply Nat.eqb_neq. intros ->. rewrite Hi in Hj. congruence.
  - destruct q; try done. injection Hstep as <-. eexists. split; [done|]. apply call_obs_nil.
    intros o [->| ->%list_elem_of_singleton]%elem_of_cons; apply Hown.
  - destruct q; try done. injection Hstep as <-. apply Hnil.
  - destruct q; try done. injection Hstep as <-. apply Hnil.
  - destruct q; try done. injection Hstep as <-. apply Hnil.
  - destruct q; try done. destruct (pendings _ !! _) as [[? []]|]; try done; injection Hstep as <-; apply Hnil.
  - destruct q; try done. injection Hstep as <-. apply Hnil.
  - destruct q; try done; injection Hstep as <-; apply Hnil.
Qed.

(** What holds while call [i] carries the action of [id]. *)
Record carried (id payload : string) (i : nat) (c : call) (s : db) (n : sys) : Prop := {
  ca_journal : reachable s;
  ca_net : reachable_sys n;
  ca_call : exists p, calls n !! i = Some (c, p);
  ca_row : exists row, actions s !! id = Some row /\ signed_payload_json row = payload /\
    (call_obs i (trace n) = [] \/ sent_row row);
}.

Lemma reachable_step ev n n' : reachable_sys n -> step ev n = Some n' -> reachable_sys n'.
Proof.
  intros [evs ->] H. exists (evs ++ [ev]). unfold run_events in *. rewrite fold_left_app. cbn. by rewrite H.
Qed.

Lemma same_call ev n n' i c p : calls n !! i = Some (c, p) -> step ev n = Some n' ->
  exists p', calls n' !! i = Some (c, p').
Proof.
  intros Hi [m t _|d|j d q q' m t Hj _]%step_moves; cbn [calls set_call].
  - eauto.
  - exists p. by apply lookup_app_l_Some.
  - destruct (decide (j = i)) as [->|Hne].
    + rewrite Hi in Hj. injection Hj as <- <-. exists q'. apply list_lookup_insert_eq. by eapply lookup_lt_Some.
    + exists p. by rewrite list_lookup_insert_ne.
Qed.

Lemma sent_evolves row row' : row_ok row' -> evolves row row' -> sent_row row -> sent_row row'.
Proof.
  intros Hok Hev [[t Ht] _]. assert (is_Some (send_attempted_ms row')) as Hs by (exists t; by apply (ev_sent _ _ Hev)).
  split; [done|by apply row_sent_state].
Qed.

Lemma carried_ops id payload i c ops s n : carried id payload i c s n -> carried id payload i c (run ops s) n.
Proof.
  intros [Hs Hn Hc (row & Hrow & Hpay & Hsent)].
  destruct (run_evolves ops s id row (reachable_ok _ Hs) Hrow) as (row' & Hrow' & Hev).
  pose proof (reachable_run ops _ Hs) as Hs'. split; [done..|]. exists row'. split; [done|]. split.
  - destruct (ev_payload _ _ Hev) as (_ & _ & E & _). by rewrite E.
  - destruct Hsent as [|Hsent]; [by left|right]. eapply sent_evolves; [|done..].
    by apply (do_row _ (reachable_ok _ Hs') _ _ Hrow').
Qed.

Lemma carried_event id payload i c ev s n :
  carried id payload i c s n -> c_before_send c = true -> own_hook i ev = false ->
  carried id payload i c s (default n (step ev n)).
Proof.
  intros H Hb Hown. destruct (step ev n) as [n'|] eqn:E; [|done]. cbn. destruct H as [Hs Hn [p Hi] (row & Hrow & Hpay & Ho)].
  split; [done|by eapply reachable_step|by eapply same_call|]. exists row. split_and!; [done..|].
  by rewrite (event_silent i c p ev n n').
Qed.

Lemma carried_hook id payload i c now error s n :
  carried id payload i c s n -> validate_cloid id = Ok id -> c_before_send c = true ->
  carried id payload i c (drive1 i (send_hook id now) (RunHook error) (s, n)).1
    (drive1 i (send_hook id now) (RunHook error) (s, n)).2.
Proof.
  intros H Hid Hb. cbn [drive1]. destruct H as [Hs Hn [p Hi] (row & Hrow & Hpay & Ho)].
  rewrite Hi. assert (carried id payload i c s n) as Hsame by (split; eauto).
  destruct p as [|rid|rid|rid|w|]; try done.
  unfold send_hook, jbind, jret.
  destruct (mark_send_attempted id (Some (str_of_Z rid)) None now s) as [s1 [rec|e]] eqn:E; cbn [fst snd].
  - destruct (sent_forever _ _ _ _ _ _ _ [] Hs E) as (c0 & row0 & row1 & Hc0 & Hrow0 & _ & Hrow1 & Hev & Hsent).
    rewrite Hid in Hc0. injection Hc0 as <-. rewrite Hrow in Hrow0. injection Hrow0 as <-.
    assert (reachable s1) as Hs1.
    { pose proof (reachable_run [OpSendAttempted id (Some (str_of_Z rid)) None now] s Hs) as R.
      unfold run in R. cbn [fold_left apply_op] in R. by rewrite E in R. }
    cbn [step]. rewrite Hi. cbn [default].
    split; [done|eapply (reachable_step (HookReturns i)); [exact Hn|]; cbn [step]; by rewrite Hi| |].
    + exists (Writing rid). apply list_lookup_insert_eq. by eapply lookup_lt_Some.
    + exists row1. split_and!; [done| |by right]. destruct (ev_payload _ _ Hev) as (_ & _ & P & _). by rewrite P.
  - apply send_inv in E as [[-> _]|(? & ? & ? & ? & ? & ? & _ & [=] & _)].
    cbn [step]. rewrite Hi. cbn [default].
    split; [done|eapply (reachable_step (HookRaises i error)); [exact Hn|]; cbn [step]; by rewrite Hi| |].
    + eexists. apply list_lookup_insert_eq. by eapply lookup_lt_Some.
    + exists row. split; [done|]. split; [done|]. unfold set_call. cbn [trace]. by rewrite app_nil_r.
Qed.

Lemma carried_drive id payload i c now items s n :
  carried id payload i c s n -> validate_cloid id = Ok id -> c_before_send c = true ->
  forall s' n', drive i (send_hook id now) items (s, n) = (s', n') -> carried id payload i c s' n'.
Proof.
  intros H Hid Hb. revert s n H. induction items as [|it items IH]; intros s n H s' n'.
  - by intros [= <- <-].
  - unfold drive. cbn [fold_left]. fold (drive i (send_hook id now) items (drive1 i (send_hook id now) it (s, n))).
    destruct (drive1 i (send_hook id now) it (s, n)) as [s1 n1] eqn:E. intros H'. apply (IH s1 n1); [|done].
    destruct it as [o|ev|error].
    + injection E as <- <-. by apply (carried_ops _ _ _ _ [o]).
    + cbn [drive1] in E. destruct (own_hook i ev) eqn:Eo; injection E as <- <-; [done|]. by apply carried_event.
    + pose proof (carried_hook id payload i c now error s n H Hid Hb) as Hc. by rewrite E in Hc.
Qed.

(** * The durable record of a new action *)

(** What [begin_ioc] leaves behind when it returns. *)
Record begun (l : SignerLane) (s s1 : db) (signed : SignedIocAction) (rec : ActionRecord) (row : ActionRow) : Prop := {
  bg_clear : lane_recovery_actions l s = Ok [];
  bg_row : actions s1 !! cloid rec = Some row;
  bg_record : record_of row = Ok rec;
  bg_state : state row = PREPARED;
  bg_unsent : send_attempted_ms row = None;
  bg_fresh : actions s !! cloid rec = None;
  bg_others : forall id, id <> cloid rec -> actions s1 !! id = actions s !! id;
  bg_cloid : validate_cloid (cloid rec) = Ok (cloid rec);
  bg_payload : signed_payload_json row = exact_json (signed_payload signed);
  bg_lane : identity (sl_follower_account l) = Ok (follower_account row) /\
    identity (sl_api_wallet_address l) = Ok (api_wallet row);
}.

Lemma prepared_row_lane a now row : prepared_row a now = Ok row ->
  identity (p_follower_account a) = Ok (follower_account row) /\ identity (p_api_wallet a) = Ok (api_wallet row).
Proof.
  unfold prepared_row. intros (f & Hf & (w & Hw & H)%bind_Ok)%bind_Ok.
  repeat (apply bind_Ok in H as (? & _ & H)). destruct (_ <=? _); [done|]. injection H as <-. done.
Qed.

Lemma begin_ioc_inv blake2s sdk l action asset px now rsv s s1 signed rec :
  begin_ioc blake2s sdk l action asset px now rsv s = (s1, Ok (signed, rec)) ->
  exists row, begun l s s1 signed rec row.
Proof.
  unfold begin_ioc. destruct (negb (sl_signing_enabled l)); [done|].
  intros (un & s' & [-> Hun]%jquery_Ok & H)%jbind_Ok.
  destruct (bool_decide (un = [])) eqn:En; cbn [negb] in H; [|done]. apply bool_decide_eq_true in En as ->.
  apply jbind_Ok in H as (no & s' & [-> _]%jquery_Ok & H).
  apply jbind_Ok in H as (ioc & s' & [-> _]%jlift_Ok & H).
  apply jbind_Ok in H as (nonce & s2 & Hres & H).
  apply jbind_Ok in H as (sg & s' & [-> _]%jlift_Ok & H).
  apply jbind_Ok in H as (rec' & s3 & Hprep & H). injection H as <- <- <-.
  apply reserve_inv in Hres as [[_ [e He]]|(f & w & n & u & _ & _ & _ & _ & ->)]; [done|].
  apply prepare_inv in Hprep as [[_ [e He]]|(row & rec0 & u' & Hrow & [= <-] & Hrec & -> & _ & _ & Hc)]; [done|].
  apply conflicts_false in Hc as [Hnone _]. cbn [actions] in Hnone.
  pose proof (record_cloid _ _ Hrec) as Ecl. pose proof (prepared_row_lane _ _ _ Hrow) as Hlane.
  apply prepared_row_Ok in Hrow as (_ & Hst & Hsent & Hcl & _ & Hp & _).
  cbn [p_cloid p_signed_payload_json p_follower_account p_api_wallet] in *.
  exists row. split; rewrite ?Ecl; try done.
  - cbn. apply lookup_insert_eq.
  - intros id Hne. cbn. by rewrite lookup_insert_ne.
  - by eapply validate_cloid_idem.
Qed.

#[export] Instance journaled_begin blake2s sdk l action asset px now rsv :
  Journaled (fun _ => True) (begin_ioc blake2s sdk l action asset px now rsv).
Proof.
  unfold begin_ioc. case_match; [apply _|]. apply journaled_bind; [apply _|]. intros un. case_match; [apply _|].
  repeat (apply journaled_bind; [|intros ?]); try apply _.
  - by eapply (journaled_op _ (OpReserve _ _ _ _)).
  - by eapply (journaled_op _ (OpPrepare _ _)).
Qed.

(** * Marking the unsent actions *)

(** What one operation does to the table of actions. *)
Inductive op_effect (o : op) (s : db) : Prop :=
  | oe_same : actions (apply_op o s) = actions s -> op_effect o s
  | oe_update c row row' :
      actions s !! c = Some row -> actions (apply_op o s) = <[c := row']> (actions s) -> op_effect o s
  | oe_insert a now row :
      o = OpPrepare a now -> prepared_row a now = Ok row ->
      actions (apply_op o s) = <[cloid row := row]> (actions s) -> op_effect o s.

Lemma op_effects o s : op_effect o s.
Proof.
  destruct o as [f w wall now|a now|c rq obs now|c obs now|c t ca d obs now|c ca obs now].
  - destruct (reserve_nonce f w wall now s) as [s1 r] eqn:E. pose proof E as H.
    apply oe_same. cbn [apply_op]. rewrite E.
    apply reserve_inv in H as [[-> _]|(? & ? & ? & ? & _ & _ & _ & _ & ->)]; done.
  - destruct (prepare_action a now s) as [s1 r] eqn:E. pose proof E as H.
    apply prepare_inv in H as [[-> _]|(row & rec & u & Hrow & _ & _ & -> & _)].
    + apply oe_same. cbn [apply_op]. by rewrite E.
    + eapply oe_insert; [done..|]. cbn [apply_op]. by rewrite E.
  - destruct (mark_send_attempted c rq obs now s) as [s1 r] eqn:E. pose proof E as H.
    apply send_inv in H as [[-> _]|(? & ? & ? & ? & ? & ? & _ & _ & Hrow & _ & _ & _ & -> & _)];
      [apply oe_same|eapply oe_update; [done|]]; cbn [apply_op]; by rewrite E.
  - destruct (mark_not_sent c obs now s) as [s1 r] eqn:E. pose proof E as H.
    apply not_sent_inv in H as [[-> _]|(? & ? & ? & ? & _ & _ & Hrow & _ & [(-> & _)|(? & _ & _ & ->)])];
      [apply oe_same|apply oe_same|eapply oe_update; [done|]]; cbn [apply_op]; by rewrite E.
  - destruct (record_outcome c t ca d obs now s) as [s1 r] eqn:E. pose proof E as H.
    apply outcome_inv in H as [[-> _]|(? & ? & ? & ? & ? & _ & _ & Hrow & _ & _ & _ & _ & [(-> & _)|(? & _ & -> & _)])];
      [apply oe_same|apply oe_same|eapply oe_update; [done|]]; cbn [apply_op]; by rewrite E.
  - destruct (record_cumulative_fill c ca obs now s) as [s1 r] eqn:E. pose proof E as H.
    apply fill_inv in H as [[-> _]|(? & ? & ? & ? & ? & _ & _ & _ & Hrow & _ & _ & [(-> & _)|(? & ? & ? & _ & _ & _ & -> & _)])];
      [apply oe_same|apply oe_same|eapply oe_update; [done|]]; cbn [apply_op]; by rewrite E.
Qed.

(** The keys of the table are normalized CLOIDs. *)
Lemma reachable_cloid s id row : reachable s -> actions s !! id = Some row -> validate_cloid id = Ok id.
Proof.
  intros [ops ->]. revert id row.
  apply run_ind; [|by intros id row Hrow; unfold empty_db in Hrow; cbn [actions] in Hrow; rewrite lookup_empty in Hrow].
  intros o s0 IH id row.
  destruct (op_effects o s0) as [->|c row0 row1 Hc ->|a now row1 _ Hrow1 ->]; [by apply IH| |];
    intros [[<- _]|[_ H]]%lookup_insert_Some; try (by eapply IH).
  apply prepared_row_Ok in Hrow1 as (_ & _ & _ & Hcl & _). by eapply validate_cloid_idem.
Qed.

Definition unsent_row (row : ActionRow) (now : Z) : ActionRow :=
  update_row row NOT_SENT (cumulative_filled_size row) (outcome_detail row) (ActionJournal.request_id row) now
    (send_attempted_ms row) (Some now).

Definition as_unsent (r : ActionRecord) (now : Z) : ActionRecord :=
  MkAction (cloid r) (follower_account r) (api_wallet r) (desired_id r) (market r) (attempt_no r) (nonce r)
    (requested_size r) (cumulative_filled_size r) (action_json r) (signed_payload_json r) (expires_after_ms r)
    (ActionJournal.request_id r) NOT_SENT (outcome_detail r) (created_ms r) now (send_attempted_ms r) (Some now).

Lemma unsent_record row r now : record_of row = Ok r -> record_of (unsent_row row now) = Ok (as_unsent r now).
Proof. intros (q & c & [Hq Hc] & ->)%record_of_Ok. unfold record_of, unsent_row. cbn. by rewrite Hq, Hc. Qed.

Lemma not_sent_accepts id row r now s :
  validate_cloid id = Ok id -> actions s !! id = Some row -> record_of row = Ok r -> state row = PREPARED ->
  0 < now < 2 ^ 63 -> mark_not_sent id None now s = (put_action s id (unsent_row row now), Ok (as_unsent r now)).
Proof.
  intros Hid Hrow Hr Hst Hnow. unfold mark_not_sent, checked. rewrite Hid. cbn [default mbind res_bind].
  unfold positive_int. rewrite (proj2 (Z.leb_gt _ _)) by lia. cbn [mbind res_bind].
  unfold transaction. rewrite (proj2 (require_action_Ok s id row r) (conj Hrow Hr)). cbn [mbind res_bind].
  assert (state r = PREPARED) as -> by (by apply record_of_Ok in Hr as (? & ? & _ & ->)).
  rewrite !bool_decide_false by done. rewrite bool_decide_true by done. cbn [negb]. rewrite sql_int_ok by lia. cbn [mbind res_bind].
  assert (update_action s id (unsent_row row now) = Ok (put_action s id (unsent_row row now), as_unsent r now)) as E
    by (apply update_action_Ok; split; [done|by apply unsent_record]).
  unfold unsent_row in E at 1. by rewrite E.
Qed.

Definition prepared (r : ActionRecord) : bool := bool_decide (state r = PREPARED).

(** The table after the PREPARED actions of [recs] were marked. *)
Lemma mark_unsent_exact recs now s :
  0 < now < 2 ^ 63 -> NoDup (cloid <$> recs) ->
  (forall r, r ∈ recs -> validate_cloid (cloid r) = Ok (cloid r) /\
     exists row, actions s !! cloid r = Some row /\ record_of row = Ok r) ->
  exists s', mark_unsent recs now s = (s', Ok ((fun r => as_unsent r now) <$> filter (fun r => prepared r = true) recs)) /\
    signer_nonce s' = signer_nonce s /\
    (forall id, (forall r, r ∈ recs -> prepared r = true -> cloid r <> id) -> actions s' !! id = actions s !! id) /\
    (forall r row, r ∈ recs -> prepared r = true -> actions s !! cloid r = Some row ->
       actions s' !! cloid r = Some (unsent_row row now)).
Proof.
  intros Hnow. revert s. induction recs as [|r recs IH]; intros s Hnd Hrecs.
  - exists s. split_and!; try done. by intros r row ?%not_elem_of_nil.
  - cbn [fmap list_fmap] in Hnd. apply list.NoDup_cons in Hnd as [Hr Hnd].
    destruct (Hrecs r) as [Hcl (row & Hrow & Hrec)]; [by left|].
    cbn [mark_unsent]. rewrite filter_cons. fold (prepared r). destruct (prepared r) eqn:Ep.
    + rewrite decide_True by done. assert (state row = PREPARED) as Hst.
      { apply bool_decide_eq_true in Ep. by apply record_of_Ok in Hrec as (? & ? & _ & ->). }
      destruct (IH (put_action s (cloid r) (unsent_row row now)) Hnd) as (s' & Hs' & Hn & Hother & Hmarked).
      { intros r' Hr'. destruct (Hrecs r') as [Hcl' (row' & Hrow' & Hrec')]; [by right|]. split; [done|]. exists row'.
        split; [|done]. cbn. rewrite lookup_insert_ne; [done|]. intros E. apply Hr. rewrite E. by apply list_elem_of_fmap_2. }
      exists s'. split; [|split; [done|split]].
      * unfold jbind. rewrite (not_sent_accepts _ row r) by done. by rewrite Hs'.
      * intros id Hid. rewrite Hother by (intros r' Hr'; apply Hid; by right). cbn.
        apply lookup_insert_ne, Hid; [by left|done].
      * intros r' row' [->|Hr']%elem_of_cons Ep' Hrow'.
        -- rewrite Hrow in Hrow'. injection Hrow' as <-. rewrite Hother; [cbn; apply lookup_insert_eq|].
           intros r2 Hr2 _ E. apply Hr. rewrite <- E. by apply list_elem_of_fmap_2.
        -- apply Hmarked; [done..|]. cbn. rewrite lookup_insert_ne; [done|]. intros E. apply Hr. rewrite E.
           by apply list_elem_of_fmap_2.
    + rewrite decide_False by done. destruct (IH s Hnd) as (s' & Hs' & Hn & Hother & Hmarked).
      { intros r' Hr'. apply Hrecs. by right. }
      exists s'. split; [done|split; [done|split]].
      * intros id Hid. apply Hother. intros r' Hr'. apply Hid. by right.
      * intros r' row' [->|Hr']%elem_of_cons Ep' Hrow'; [congruence|by apply Hmarked].
Qed.

Lemma filter_none {A} (f : A -> bool) l : (forall a, a ∈ l -> f a = false) -> filter (fun a => f a = true) l = [].
Proof.
  intros H. induction l as [|a l IH]; [done|]. rewrite filter_cons, decide_False by (rewrite (H a) by (by left); done).
  apply IH. intros b Hb. apply H. by right.
Qed.

Lemma recovery_marks l f w s now :
  reachable s -> identity (sl_follower_account l) = Ok f -> identity (sl_api_wallet_address l) = Ok w ->
  0 < now < 2 ^ 63 ->
  exists s' recs, recover_provably_unsent l now s = (s', Ok recs) /\
    (forall r, r ∈ recs -> state r = NOT_SENT /\ send_attempted_ms r = None) /\
    (forall id row, actions s !! id = Some row ->
       if bool_decide (state row = PREPARED /\ follower_account row = f /\ api_wallet row = w)
       then actions s' !! id = Some (unsent_row row now) /\ send_attempted_ms row = None
       else actions s' !! id = Some row) /\
    (forall id, actions s !! id = None -> actions s' !! id = None) /\
    ((forall id row, actions s !! id = Some row -> state row = PREPARED -> follower_account row = f ->
        api_wallet row = w -> False) -> s' = s /\ recs = []).
Proof.
  intros Hs Hf Hw Hnow. pose proof (reachable_ok _ Hs) as Hok.
  destruct (recovery_query _ _ _ _ _ Hs Hf Hw) as (recs & Hq & Hnd & Hin & _ & Hall).
  assert (forall id row, actions s !! id = Some row -> state row = PREPARED -> send_attempted_ms row = None) as Hunsent.
  { intros id row Hrow Hst. destruct (do_row _ Hok _ _ Hrow) as [_ [(q & c & _ & _ & _ & H) _]].
    rewrite Hst in H. apply H. }
  assert (forall r row, actions s !! cloid r = Some row -> record_of row = Ok r -> state r = state row /\
    follower_account r = follower_account row /\ api_wallet r = api_wallet row /\
    send_attempted_ms r = send_attempted_ms row) as Hsame.
  { intros r row _ Hr. by apply record_of_Ok in Hr as (? & ? & _ & ->). }
  destruct (mark_unsent_exact recs now s Hnow Hnd) as (s' & Hm & Hnonce & Hother & Hmarked).
  { intros r Hr. apply Hin in Hr as (_ & _ & _ & row & Hrow & Hrec).
    split; [by eapply reachable_cloid|]. by exists row. }
  assert (forall r, r ∈ recs -> prepared r = true -> exists row, actions s !! cloid r = Some row /\
    state row = PREPARED /\ follower_account row = f /\ api_wallet row = w /\ send_attempted_ms r = None) as Hprep.
  { intros r Hr Hp. apply bool_decide_eq_true in Hp. apply Hin in Hr as (_ & Hfr & Hwr & row & Hrow & Hrec).
    destruct (Hsame _ _ Hrow Hrec) as (E1 & E2 & E3 & E4). exists row. split_and!; try congruence.
    rewrite E4. eapply Hunsent; [done|congruence]. }
  exists s', ((fun r => as_unsent r now) <$> filter (fun r => prepared r = true) recs). split_and!.
  - unfold recover_provably_unsent, jbind, jquery, lane_recovery_actions. by rewrite Hq.
  - intros r (r0 & -> & [Hp Hr]%list_elem_of_filter)%list_elem_of_fmap. split; [done|]. cbn.
    by destruct (Hprep _ Hr Hp) as (? & _ & _ & _ & _ & E).
  - intros id row Hrow. destruct (row_ok_record s id row Hok Hrow) as [r Hr].
    pose proof (record_cloid _ _ Hr) as Ecl. rewrite (proj1 (do_row _ Hok _ _ Hrow)) in Ecl. rewrite <- Ecl in Hrow.
    destruct (Hsame _ _ Hrow Hr) as (E1 & E2 & E3 & _). case_bool_decide as Hcond.
    + destruct Hcond as (Hst & Hfr & Hwr). rewrite <- Ecl. split; [|by eapply Hunsent].
      destruct (Hall _ _ _ Hrow Hr) as [Ht|Ht]; [congruence..| |].
      * unfold terminal in Ht. rewrite E1, Hst in Ht. by vm_compute in Ht.
      * apply Hmarked; [done| |done]. apply bool_decide_eq_true. congruence.
    + rewrite <- Ecl. rewrite Hother; [done|]. intros r' Hr' Hp' E.
      destruct (Hprep _ Hr' Hp') as (row' & Hrow' & ? & ? & ? & _). rewrite E, Hrow in Hrow'. injection Hrow' as <-. by apply Hcond.
  - intros id Hid. rewrite Hother; [done|]. intros r Hr Hp E.
    destruct (Hprep _ Hr Hp) as (row & Hrow & _). congruence.
  - intros Hnone. assert (forall r, r ∈ recs -> prepared r = false) as Hno.
    { intros r Hr. destruct (prepared r) eqn:Ep; [|done]. destruct (Hprep _ Hr Ep) as (row & Hrow & ? & ? & ? & _).
      by destruct (Hnone _ _ Hrow). }
    rewrite filter_none by done. split; [|done]. destruct s as [sn acts], s' as [sn' acts']. cbn in *. f_equal; [done|].
    apply map_eq. intros id. apply Hother. intros r Hr Hp. rewrite Hno in Hp; done.
Qed.

Lemma marked_none_prepared l f w s now s' recs id row :
  reachable s -> identity (sl_follower_account l) = Ok f -> identity (sl_api_wallet_address l) = Ok w ->
  0 < now < 2 ^ 63 -> recover_provably_unsent l now s = (s', Ok recs) ->
  actions s' !! id = Some row -> follower_account row = f -> api_wallet row = w -> state row <> PREPARED.
Proof.
  intros Hs Hf Hw Hnow H Hrow Hfr Hwr Hst.
  destruct (recovery_marks l f w s now Hs Hf Hw Hnow) as (s2 & recs2 & H2 & _ & Hrows & Hnone & _).
  rewrite H in H2. injection H2 as <- _.
  destruct (actions s !! id) as [row0|] eqn:E; [|by rewrite Hnone in Hrow].
  specialize (Hrows _ _ E). case_bool_decide as Hc; [destruct Hrows as [Hrows _]|]; rewrite Hrow in Hrows; injection Hrows as ->.
  - done.
  - by apply Hc.
Qed.

(** * Recording an outcome *)

Lemma allowed_venue st t : t ∈ allowed_targets st ->
  t ∈ [UNKNOWN; AS_REJECTED; RESTING; PARTIALLY_FILLED; FILLED; CANCELED].
Proof. destruct st; cbn; set_solver. Qed.

(** A size that an outcome [t] may bring to a record. *)
Definition outcome_sizes (cur : ActionRecord) (t : ActionState) (x : dec) : Prop :=
  (dval (cumulative_filled_size cur) <= dval x <= dval (requested_size cur))%Q /\
  match t with
  | FILLED => dval x == dval (requested_size cur)
  | PARTIALLY_FILLED => 0 < dval x < dval (requested_size cur)
  | AS_REJECTED | CANCELED => dval x == 0
  | _ => dval x < dval (requested_size cur)
  end%Q.

Section Outcome.
Variables (id : string) (s : db) (row : ActionRow) (cur : ActionRecord).
Hypotheses (Hs : reachable s) (Hrow : actions s !! id = Some row) (Hcur : record_of row = Ok cur).

Let Hid : validate_cloid id = Ok id := reachable_cloid s id row Hs Hrow.

(** The size an outcome brings: the argument's, or the recorded one. *)
Definition brings (ca : option decimal_arg) (x : dec) : Prop :=
  match ca with None => x = cumulative_filled_size cur | Some a => nonnegative_decimal a = Ok x end.

Lemma outcome_accepts t ca x detail now :
  0 < now < 2 ^ 63 -> brings ca x -> t ∈ [UNKNOWN; AS_REJECTED; RESTING; PARTIALLY_FILLED; FILLED; CANCELED] ->
  validate_cumulative cur x = Ok tt -> validate_outcome cur t x = Ok tt ->
  exists s' rec, record_outcome id t ca detail None now s = (s', Ok rec).
Proof.
  intros Hnow Hx Ht Hvc Hvo. unfold record_outcome, checked. rewrite Hid. cbn [default mbind res_bind].
  rewrite bool_decide_true by done. cbn [negb]. unfold positive_int. rewrite (proj2 (Z.leb_gt _ _)) by lia.
  cbn [mbind res_bind]. unfold transaction.
  rewrite (proj2 (require_action_Ok s id row cur) (conj Hrow Hcur)). cbn [mbind res_bind].
  assert (match ca with None => Ok (cumulative_filled_size cur) | Some a => nonnegative_decimal a end = Ok x) as ->.
  { destruct ca; cbn in Hx; [done|by subst]. }
  cbn [mbind res_bind]. rewrite Hvc. cbn [mbind res_bind]. rewrite Hvo. cbn [mbind res_bind].
  destruct (_ && _); [by eexists _, _|]. rewrite sql_int_ok by lia. cbn [mbind res_bind].
  unfold update_action, require_action. cbn [put_action actions]. rewrite lookup_insert_eq.
  apply record_of_Ok in Hcur as (q & c & [Hq _] & _). unfold record_of. cbn. rewrite Hq, stored_wire. cbn. by eexists _, _.
Qed.

(** What an outcome that was recorded did. *)
Definition recorded (t : ActionState) (x : dec) (s' : db) (rec : ActionRecord) : Prop :=
  state rec = t /\ (dval (cumulative_filled_size rec) == dval x)%Q /\
  (forall id', id' <> id -> actions s' !! id' = actions s !! id') /\ get_action id s' = Ok (Some rec).

Lemma get_stored s' row' rec : actions s' !! id = Some row' -> record_of row' = Ok rec -> get_action id s' = Ok (Some rec).
Proof. intros H1 H2. unfold get_action. rewrite Hid. cbn. by rewrite H1, H2. Qed.

Lemma outcome_recorded t ca x detail obs now s' rec :
  brings ca x -> record_outcome id t ca detail obs now s = (s', Ok rec) -> recorded t x s' rec.
Proof.
  intros Hx H. pose proof H as Hinv.
  apply outcome_inv in Hinv as [[_ [e He]]|(c & rec' & row0 & cur0 & cum & Hc & [= <-] & Hrow0 & Hcur0 & _ & _ & Hcum & Hcase)];
    [done|]. rewrite Hid in Hc. injection Hc as <-. rewrite Hrow in Hrow0. injection Hrow0 as <-.
  rewrite Hcur in Hcur0. injection Hcur0 as <-.
  assert (cum = x) as -> by (destruct ca; cbn in Hx; congruence).
  destruct Hcase as [(-> & -> & -> & Heq)|(o & _ & -> & Hrec)].
  - split_and!; [by apply record_of_Ok in Hcur as (? & ? & _ & ->)|by symmetry|done|by eapply get_stored].
  - pose proof Hrec as (q & c & [_ Hc] & ->)%record_of_Ok. cbn in Hc. rewrite stored_wire in Hc. injection Hc as <-.
    unfold recorded. cbn [with_sizes state cumulative_filled_size update_row]. split_and!; [done|apply fixed_form_val| |].
    + intros id' Hne. cbn. by rewrite lookup_insert_ne.
    + eapply get_stored; [cbn; apply lookup_insert_eq|done].
Qed.

(** An outcome that the transition table allows and that fits the recorded and the
    requested size. *)
Lemma sent_outcome t ca x detail now :
  0 < now < 2 ^ 63 -> brings ca x -> t ∈ allowed_targets (state cur) -> outcome_sizes cur t x ->
  exists s' rec, record_outcome id t ca detail None now s = (s', Ok rec) /\ recorded t x s' rec.
Proof.
  intros Hnow Hx Hall [Hle Hsize].
  assert (t ∈ [UNKNOWN; AS_REJECTED; RESTING; PARTIALLY_FILLED; FILLED; CANCELED]) as Ht by by eapply allowed_venue.
  destruct (outcome_accepts t ca x detail now) as (s' & rec & H); try done.
  - unfold validate_cumulative. by rewrite !(proj2 (dltb_false _ _)) by lra.
  - unfold validate_outcome. rewrite bool_decide_true by done. cbn [negb]. cbv zeta. destruct t; cbn; try (exfalso; clear - Ht; set_solver);
      try rewrite (proj2 (deqb_false x (requested_size cur))) by (intros ?; lra);
      try rewrite (proj2 (deqb_spec x (requested_size cur))) by lra;
      try rewrite (proj2 (deqb_spec x dzero)) by (rewrite dval_zero; lra);
      try rewrite (proj2 (dltb_spec dzero x)) by (rewrite dval_zero; lra);
      try rewrite (proj2 (dltb_spec x (requested_size cur))) by lra; done.
  - exists s', rec. split; [done|]. by eapply outcome_recorded.
Qed.
End Outcome.

(** An outcome was recorded only if the table allows it and the size fits. *)
Lemma outcome_only id s row cur t ca x detail obs now s' rec :
  actions s !! id = Some row -> record_of row = Ok cur -> brings cur ca x -> validate_cloid id = Ok id ->
  (0 <= dval (cumulative_filled_size cur))%Q ->
  record_outcome id t ca detail obs now s = (s', Ok rec) -> t ∈ allowed_targets (state cur) /\ outcome_sizes cur t x.
Proof.
  intros Hrow Hcur Hx Hid Hpos H.
  apply outcome_inv in H as [[_ [e He]]|(c & rec' & row0 & cur0 & cum & Hc & _ & Hrow0 & Hcur0 & Hvc & Hvo & Hcum & _)]; [done|].
  rewrite Hid in Hc. injection Hc as <-. rewrite Hrow in Hrow0. injection Hrow0 as <-.
  rewrite Hcur in Hcur0. injection Hcur0 as <-. assert (cum = x) as -> by (destruct ca; cbn in Hx; congruence).
  apply validate_cumulative_Ok in Hvc as Hle.
  pose proof (validate_outcome_Ok cur t x (Some 0) (if bool_decide (t ∈ TERMINAL_STATES) then Some 0 else None)
    (requested_size cur) Hvo eq_refl ltac:(lra) ltac:(eauto)) as [Hst Hin].
  { case_bool_decide; (split; [|try done]); eauto. by intros [? [=]]. }
  split; [done|]. split; [done|]. clear - Hst Hin Hle Hpos.
  destruct t; cbn in Hst; try (by apply allowed_venue in Hin; exfalso; clear - Hin; set_solver); apply Hst.
Qed.

(** The durable state an exchange answer stands for. *)
Definition journal_state (sent : bool) (o : PostOutcome) : ActionState :=
  match o with
  | PO_FILLED => FILLED
  | PO_PARTIALLY_FILLED => PARTIALLY_FILLED
  | PO_REJECTED => AS_REJECTED
  | PO_CANCELLED => CANCELED
  | PO_NOT_SENT => if sent then UNKNOWN else NOT_SENT
  | PO_UNKNOWN | PO_INFO => UNKNOWN
  end.

Lemma answer_sizes result response expected cur :
  classified_ok response expected result ->
  (dval expected == dval (requested_size cur))%Q -> (dval (cumulative_filled_size cur) == 0)%Q ->
  (0 < dval (requested_size cur))%Q ->
  outcome_sizes cur (journal_state true (post_outcome result)) (post_filled_size result) /\
  (dval (post_filled_size result) == if is_fill (post_outcome result) then dval (post_filled_size result) else 0)%Q /\
  outcome_state (post_outcome result) = Some (journal_state true (post_outcome result)) /\
  journal_state true (post_outcome result) ∈ [UNKNOWN; AS_REJECTED; RESTING; PARTIALLY_FILLED; FILLED; CANCELED].
Proof.
  intros (_ & Hns & Hni & Hf & Hp & Hz & _) Hexp Hcum Hpos.
  assert (is_fill (post_outcome result) = false -> (dval (post_filled_size result) == 0)%Q) as Hz'.
  { intros H. destruct (Hz H) as [-> _]. by rewrite dval_zero. }
  assert (dval (post_filled_size result) == if is_fill (post_outcome result) then dval (post_filled_size result) else 0)%Q
    as Hval by (destruct (is_fill (post_outcome result)); [reflexivity|by apply Hz']).
  cut (outcome_sizes cur (journal_state true (post_outcome result)) (post_filled_size result) /\
       outcome_state (post_outcome result) = Some (journal_state true (post_outcome result)) /\
       journal_state true (post_outcome result) ∈ [UNKNOWN; AS_REJECTED; RESTING; PARTIALLY_FILLED; FILLED; CANCELED]).
  { intros (? & ? & ?). by split_and!. }
  clear Hval. unfold outcome_sizes. destruct (post_outcome result); try done; cbn [journal_state];
    try specialize (Hz' eq_refl); try specialize (Hf eq_refl); try specialize (Hp eq_refl); 
    (split; [split; lra|]); (split; [done|set_solver]).
Qed.

Section SentResult.
Variables (id : string) (s : db) (row : ActionRow) (cur : ActionRecord) (result : PostResult) (now : Z).
Hypotheses (Hs : reachable s) (Hrow : actions s !! id = Some row) (Hcur : record_of row = Ok cur)
  (Hnow : 0 < now < 2 ^ 63).

Lemma current_record : get_action id s = Ok (Some cur).
Proof. unfold get_action. rewrite (reachable_cloid _ _ _ Hs Hrow). cbn. by rewrite Hrow, Hcur. Qed.

Lemma requested_positive : (0 < dval (requested_size cur))%Q /\
  (state cur = PREPARED -> (dval (cumulative_filled_size cur) == 0)%Q).
Proof.
  destruct (do_row _ (reachable_ok _ Hs) _ _ Hrow) as [_ Hok]. pose proof Hcur as (q & c & Hsz & ->)%record_of_Ok.
  destruct (row_ok_sizes row q c Hok Hsz) as (Hq & _ & H). split; [done|]. cbn. intros Hst. rewrite Hst in H. apply H.
Qed.

Lemma sent_result response expected :
  classified_ok response expected result \/ post_outcome result = PO_NOT_SENT ->
  (dval expected == dval (requested_size cur))%Q -> state cur = SEND_ATTEMPTED ->
  (dval (cumulative_filled_size cur) == 0)%Q ->
  exists s' rec x, record_result id result now s = (s', Ok rec) /\
    recorded id s (journal_state true (post_outcome result)) x s' rec /\
    (dval x == if is_fill (post_outcome result) then dval (post_filled_size result) else 0)%Q.
Proof.
  intros Hres Hexp Hst Hcum. destruct requested_positive as [Hpos _].
  assert (allowed_targets (state cur) = [UNKNOWN; AS_REJECTED; RESTING; PARTIALLY_FILLED; FILLED; CANCELED]) as Hopen
    by (by rewrite Hst).
  unfold record_result, jbind, jquery. rewrite current_record, Hst.
  destruct (decide (post_outcome result = PO_NOT_SENT)) as [E|E].
  - rewrite E, bool_decide_true, bool_decide_false by done. cbn [negb].
    destruct (sent_outcome id s row cur Hs Hrow Hcur UNKNOWN None (cumulative_filled_size cur)
      (Some "transport_not_sent_after_boundary") now) as (s' & rec & H & Hr); try done; [rewrite Hopen; set_solver|split; lra|].
    by exists s', rec, (cumulative_filled_size cur).
  - destruct Hres as [Hres|]; [|done].
    destruct (answer_sizes _ _ _ _ Hres Hexp Hcum Hpos) as (Hsz & Hval & -> & Hin).
    rewrite bool_decide_false by done.
    destruct (sent_outcome id s row cur Hs Hrow Hcur (journal_state true (post_outcome result))
      (Some (ArgDecimal (Fin (post_filled_size result)))) (post_filled_size result) (Some (post_reason result)) now)
      as (s' & rec & H & Hr); try done.
    { cbn. apply nonneg_arg. destruct Hsz as [[Hle _] _]. lra. }
    { by rewrite Hopen. }
    by exists s', rec, (post_filled_size result).
Qed.
End SentResult.

(** * What an order-status answer asks to record *)

Definition settlement (cur : ActionRecord) (result : PostResult) : ActionState * dec :=
  let keep := (UNKNOWN, cumulative_filled_size cur) in
  if negb (bool_decide (post_outcome result = PO_INFO)) then keep else
  let payload := match post_response result with
                 | JObj o => if json_is_str "info" (obj_field "type" o) then obj_field "payload" o else post_response result
                 | r => r
                 end in
  match classify_order_status payload (Fin (requested_size cur)) with
  | Ok r =>
      if resolved r then
        match resolution_state r with Some st => (st, cumulative_filled_abs r) | None => keep end
      else keep
  | Raise _ => keep
  end.

Lemma classify_total payload q : (0 < dval q)%Q ->
  exists r, classify_order_status payload (Fin q) = Ok r /\ (0 <= dval (cumulative_filled_abs r))%Q.
Proof.
  intros Hq. unfold classify_order_status. rewrite (proj2 (dleb_false q dzero)) by (by rewrite dval_zero). cbv zeta.
  assert (0 <= dval (cumulative_of (visit payload no_evidence)))%Q as Hc by apply cumulative_nonneg.
  destruct (dltb q _); [by eexists|]. destruct (first_of terminal_state _) as [st|].
  - eexists. split; [done|]. cbn. destruct (_ && _); [lra|done].
  - destruct (first_of open_state _); by eexists.
Qed.

(** The same requested size gives the same decision. *)
Lemma settle_is_outcome record cur result now s :
  requested_size cur = requested_size record -> (0 < dval (requested_size cur))%Q ->
  exists ca detail, brings cur ca (settlement cur result).2 /\
    settle_by_status record result now s = record_outcome (cloid record) (settlement cur result).1 ca detail None now s.
Proof.
  intros Hreq Hpos. unfold settle_by_status, settlement, mark_unknown.
  destruct (negb _); [by exists None, (Some (post_reason result))|]. rewrite <- Hreq. cbv zeta.
  set (payload := match post_response result with JObj _ => _ | _ => _ end).
  destruct (classify_total payload _ Hpos) as (r & Hr & Hnn). unfold jbind, jlift. rewrite Hr.
  destruct (resolved r); cbn [negb]; [|by exists None, (Some (os_state r))].
  destruct (resolution_state r) as [st|]; [|by exists None, (Some (os_state r))].
  exists (Some (ArgDecimal (Fin (cumulative_filled_abs r)))), (Some ("ws_order_status:" +:+ os_state r)).
  split; [|done]. cbn. by apply nonneg_arg.
Qed.

Lemma owned_row id f w s record : reachable s -> get_owned_action id f w s = Ok (Some record) ->
  exists row, actions s !! cloid record = Some row /\ record_of row = Ok record.
Proof.
  intros Hs. unfold get_owned_action. intros (c & _ & (f' & _ & (w' & _ & H)%bind_Ok)%bind_Ok)%bind_Ok.
  destruct (actions s !! c) as [row|] eqn:Hrow; [|done]. destruct (_ && _); [|done].
  destruct (record_of row) as [r|] eqn:Hr; [|done]. injection H as <-.
  exists row. rewrite (record_cloid _ _ Hr). by rewrite (proj1 (do_row _ (reachable_ok _ Hs) _ _ Hrow)).
Qed.

Lemma settle_exact s row cur record result now s' r :
  reachable s -> actions s !! cloid record = Some row -> record_of row = Ok cur -> 0 < now < 2 ^ 63 ->
  requested_size cur = requested_size record -> settle_by_status record result now s = (s', r) ->
  let '(t, x) := settlement cur result in
  (is_ok r = true <-> t ∈ allowed_targets (state cur) /\ outcome_sizes cur t x) /\
  (is_ok r = false -> s' = s) /\ (forall rec, r = Ok rec -> recorded (cloid record) s t x s' rec).
Proof.
  intros Hs Hrow Hcur Hnow Hreq H. pose proof (reachable_cloid _ _ _ Hs Hrow) as Hid.
  destruct (requested_positive _ _ _ _ Hs Hrow Hcur) as [Hpos _].
  destruct (settle_is_outcome record cur result now s Hreq Hpos) as (ca & detail & Hbr & E). rewrite E in H. clear E.
  destruct (settlement cur result) as [t x]. cbn [fst snd] in *.
  assert (0 <= dval (cumulative_filled_size cur))%Q as Hnn.
  { destruct (do_row _ (reachable_ok _ Hs) _ _ Hrow) as [_ Hok]. pose proof Hcur as (q & c & Hsz & ->)%record_of_Ok.
    apply (row_ok_sizes row q c Hok Hsz). }
  split; [split|split].
  - intros Hr. destruct r as [rec|]; [|done]. by eapply (outcome_only _ _ _ _ t ca x).
  - intros [Hall Hsz].
    destruct (sent_outcome _ s row cur Hs Hrow Hcur t ca x detail now Hnow Hbr Hall Hsz) as (s2 & rec & E & _).
    rewrite H in E. by injection E as -> ->.
  - intros Hr. apply outcome_inv in H as [[-> _]|(? & ? & ? & ? & ? & _ & -> & _)]; done.
  - intros rec ->. by eapply (outcome_recorded _ s row cur Hs Hrow Hcur).
Qed.

(** * One unresolved action per lane *)

Definition open_row (f w : string) (row : ActionRow) : Prop :=
  state row ∈ RECOVERY_STATES /\ follower_account row = f /\ api_wallet row = w.

Definition single (f w : string) (s : db) : Prop :=
  forall id1 id2 r1 r2, actions s !! id1 = Some r1 -> actions s !! id2 = Some r2 ->
    open_row f w r1 -> open_row f w r2 -> id1 = id2.

(** The lane itself prepares only through [begin_ioc]. *)
Definition foreign (f w : string) (o : op) : Prop :=
  match o with
  | OpPrepare a _ => ~ (identity (p_follower_account a) = Ok f /\ identity (p_api_wallet a) = Ok w)
  | _ => True
  end.

Inductive lane_step (blake2s : string -> string)
    (sdk : list (string * json) -> option string -> Z -> Z -> bool -> res json) (l : SignerLane) (f w : string) (s : db)
    : db -> Prop :=
  | ls_op o : foreign f w o -> lane_step blake2s sdk l f w s (apply_op o s)
  | ls_begin action asset px now rsv s1 r :
      begin_ioc blake2s sdk l action asset px now rsv s = (s1, r) -> lane_step blake2s sdk l f w s s1.

Lemma open_back row row' f w : evolves row row' -> open_row f w row' -> open_row f w row.
Proof.
  intros Hev (Hst & Hf & Hw). destruct (ev_identity _ _ Hev) as (_ & Ef & Ew & _).
  split; [|split; congruence]. apply not_terminal. apply bool_decide_eq_false. intros Ht%(ev_terminal _ _ Hev).
  clear - Hst Ht. revert Hst Ht. destruct (state row'); cbn; set_solver.
Qed.

Lemma single_op o s f w : db_ok s -> foreign f w o -> single f w s -> single f w (apply_op o s).
Proof.
  intros Hok Ho Hs.
  assert (forall id row, actions (apply_op o s) !! id = Some row -> open_row f w row ->
    exists row0, actions s !! id = Some row0 /\ open_row f w row0) as Hback.
  { intros id row Hrow Hopen. destruct (actions s !! id) as [row0|] eqn:E.
    - exists row0. split; [done|]. destruct (jstep_evolves _ _ _ _ Hok (apply_op_step o s) E) as (row' & Hrow' & Hev).
      rewrite Hrow in Hrow'. injection Hrow' as <-. by eapply open_back.
    - destruct (op_effects o s) as [E1|c row0 row1 Hc E1|a now row1 -> Hrow1 E1]; rewrite E1 in Hrow; [congruence| |].
      + apply lookup_insert_Some in Hrow as [[<- _]|[_ H]]; congruence.
      + apply lookup_insert_Some in Hrow as [[_ ->]|[_ H]]; [|congruence].
        destruct Ho. apply prepared_row_lane in Hrow1 as [Hf Hw]. destruct Hopen as (_ & <- & <-). done. }
  intros id1 id2 r1 r2 H1 H2 O1 O2. apply Hback in H1 as (r1' & H1 & O1'); [|done]. apply Hback in H2 as (r2' & H2 & O2'); [|done].
  by eapply Hs.
Qed.

(** A preparation that raises leaves the table of actions. *)
Lemma begin_raises blake2s sdk l action asset px now rsv s s1 e :
  begin_ioc blake2s sdk l action asset px now rsv s = (s1, Raise e) -> actions s1 = actions s.
Proof.
  unfold begin_ioc. destruct (negb _); [by intros [-> _]%pair_equal_spec|].
  intros [[-> _]%pair_equal_spec|(un & s' & [-> _]%jquery_Ok & H)]%jbind_Raise; [done|].
  destruct (negb _); [by apply pair_equal_spec in H as [-> _]|].
  apply jbind_Raise in H as [[-> _]%pair_equal_spec|(no & s' & [-> _]%jquery_Ok & H)]; [done|].
  apply jbind_Raise in H as [[-> _]%pair_equal_spec|(ioc & s' & [-> _]%jlift_Ok & H)]; [done|].
  apply jbind_Raise in H as [H|(nonce & s2 & Hres & H)].
  { by apply reserve_inv in H as [[-> _]|(? & ? & ? & ? & _ & _ & [=] & _)]. }
  apply reserve_inv in Hres as [[_ [e' He]]|(f & w & n & u & _ & _ & _ & _ & ->)]; [done|].
  apply jbind_Raise in H as [[<- _]%pair_equal_spec|(sg & s' & [-> _]%jlift_Ok & H)]; [done|].
  apply jbind_Raise in H as [H|(rec & s3 & _ & H)]; [|done].
  by apply prepare_inv in H as [[-> _]|(? & ? & ? & _ & [=] & _)].
Qed.

Lemma single_begin blake2s sdk l f w action asset px now rsv s s1 r :
  reachable s -> identity (sl_follower_account l) = Ok f -> identity (sl_api_wallet_address l) = Ok w ->
  begin_ioc blake2s sdk l action asset px now rsv s = (s1, r) -> single f w s -> single f w s1.
Proof.
  intros Hs Hf Hw H Hone. destruct r as [[signed rec]|e].
  - apply begin_ioc_inv in H as [row Hb]. pose proof (bg_clear _ _ _ _ _ _ Hb) as Hclear.
    destruct (recovery_query _ _ _ _ _ Hs Hf Hw) as (recs & Hq & _ & _ & _ & Hall).
    unfold lane_recovery_actions in Hclear. rewrite Hq in Hclear. injection Hclear as ->.
    assert (forall id r, actions s1 !! id = Some r -> open_row f w r -> id = cloid rec) as Honly.
    { intros id r0 Hr (Hst & Hfr & Hwr). destruct (decide (id = cloid rec)) as [|Hne]; [done|].
      rewrite (bg_others _ _ _ _ _ _ Hb id Hne) in Hr. destruct (row_ok_record _ _ _ (reachable_ok _ Hs) Hr) as [r' Hr'].
      pose proof Hr' as (q & c & _ & ->)%record_of_Ok.
      destruct (Hall _ _ _ Hr Hr' Hfr Hwr) as [Ht|Hin]; [|by apply not_elem_of_nil in Hin].
      exfalso. revert Ht. unfold terminal. cbn. clear - Hst. revert Hst. destruct (state r0); cbn; set_solver. }
    intros id1 id2 r1 r2 H1 H2 O1 O2. by rewrite (Honly id1 r1), (Honly id2 r2).
  - apply begin_raises in H. unfold single. by rewrite H.
Qed.

(** * Properties *)

(** C2. A frame that reached the socket is always known to the journal.  Let a
    lane prepare an action on any reachable journal, post it on any reachable
    multiplexer, and let the rest of the program run in any way: other tasks'
    journal operations, messages, closes, cancellations, the hook succeeding or
    raising, in any order and cut at any point.  At every such point at most one
    frame of the call has been written; if one was, it is the frame of the
    payload that was signed, and the journal holds the action with exactly that
    payload, marked as sent and not reported as unsent.  The writes happen on
    the epoch the action was decided on. *)
Theorem written_frame_is_journaled blake2s sdk l action asset px now rsv s s1 signed rec n ep c t items s' n' :
  reachable s -> reachable_sys n ->
  begin_ioc blake2s sdk l action asset px now rsv s = (s1, Ok (signed, rec)) ->
  action_call signed ep true true = Ok c ->
  drive (List.length (calls n)) (send_hook (cloid rec) t) items (s1, default n (step (Post c) n)) = (s', n') ->
  (call_obs (List.length (calls n)) (trace n') = [] \/
   exists id, call_obs (List.length (calls n)) (trace n') = sent_obs (List.length (calls n)) c id) /\
  forall e id f, Wrote (List.length (calls n)) e id f ∈ trace n' ->
    e = ep /\ f = frame_of c id /\ c_payload c = signed_payload signed /\
    exists row, actions s' !! cloid rec = Some row /\ sent_row row /\
      signed_payload_json row = exact_json (signed_payload signed).
Proof.
  intros Hs Hn Hbegin Hcall Hdrive. set (i := List.length (calls n)) in *.
  destruct (begin_ioc_inv _ _ _ _ _ _ _ _ _ _ _ _ Hbegin) as [row Hb].
  apply bind_Ok in Hcall as ([] & _ & [= <-]). set (c := MkCall _ _ _ _ _) in *.
  assert (carried (cloid rec) (exact_json (signed_payload signed)) i c s1 (default n (step (Post c) n))) as Hc.
  { split.
    - by eapply (journaled_reachable _ _ _ _ _ Hs Hbegin).
    - by eapply (reachable_step (Post c)).
    - exists AtGate. cbn. rewrite lookup_app_r by done. by rewrite Nat.sub_diag.
    - exists row. split; [apply (bg_row _ _ _ _ _ _ Hb)|]. split; [apply (bg_payload _ _ _ _ _ _ Hb)|]. left.
      apply (to_new _ (sy_trace _ (reachable_sys_ok _ Hn))). by apply lookup_ge_None. }
  apply (carried_drive _ _ _ _ _ _ _ _ Hc (bg_cloid _ _ _ _ _ _ Hb) eq_refl) in Hdrive as [_ Hn' [p Hp] (row' & Hrow' & Hpay & Ho)].
  pose proof (call_obs_cases _ _ _ _ (to_obs _ (sy_trace _ (reachable_sys_ok _ Hn')) _ _ _ Hp)) as Hcases.
  split; [done|]. intros e id f Hw.
  assert (Wrote i e id f ∈ call_obs i (trace n')) as Hin by (apply elem_of_call_obs; cbn; by rewrite Nat.eqb_refl).
  destruct Ho as [Ho|Ho]; [rewrite Ho in Hin; by apply not_elem_of_nil in Hin|].
  destruct Hcases as [H0|[id' H0]]; rewrite H0 in Hin; [by apply not_elem_of_nil in Hin|].
  cbn in Hin. apply elem_of_cons in Hin as [|Hin]; [done|]. apply list_elem_of_singleton in Hin.
  injection Hin as -> -> ->. split_and!; try done. by exists row'.
Qed.

(** Recovery abandons exactly the actions that were provably never sent.  On
    any reachable journal it succeeds; every PREPARED action of the lane becomes
    NOT_SENT, still without a send attempt; every other row of the table, sent
    ones and other lanes' included, is left exactly as it was; afterwards no
    action of the lane is PREPARED; and a second recovery changes nothing. *)
Theorem recovery_abandons_only_unsent l f w s now :
  reachable s -> identity (sl_follower_account l) = Ok f -> identity (sl_api_wallet_address l) = Ok w ->
  0 < now < 2 ^ 63 ->
  exists s' recs, recover_provably_unsent l now s = (s', Ok recs) /\ reachable s' /\
    (forall r, r ∈ recs -> state r = NOT_SENT /\ send_attempted_ms r = None) /\
    (forall id row, actions s !! id = Some row ->
       if bool_decide (state row = PREPARED /\ follower_account row = f /\ api_wallet row = w)
       then actions s' !! id = Some (unsent_row row now) /\ send_attempted_ms row = None
       else actions s' !! id = Some row) /\
    (forall id row, actions s' !! id = Some row -> follower_account row = f -> api_wallet row = w ->
       state row <> PREPARED) /\
    recover_provably_unsent l now s' = (s', Ok []).
Proof.
  intros Hs Hf Hw Hnow.
  destruct (recovery_marks l f w s now Hs Hf Hw Hnow) as (s' & recs & Hrun & Hall & Hrows & _).
  assert (reachable s') as Hs' by exact (journaled_reachable _ _ _ _ _ Hs Hrun).
  assert (forall id row, actions s' !! id = Some row -> follower_account row = f -> api_wallet row = w ->
    state row <> PREPARED) as Hnone.
  { intros id row. exact (marked_none_prepared l f w s now s' recs id row Hs Hf Hw Hnow Hrun). }
  exists s', recs. split_and!; try done.
  destruct (recovery_marks l f w s' now Hs' Hf Hw Hnow) as (s2 & recs2 & Hrun2 & _ & _ & _ & Hid).
  destruct Hid as [-> ->]; [|done]. intros id row Hrow Hst Hfl Hwl. by eapply Hnone.
Qed.

(** The answer of the exchange is what the journal ends up with.  For an action
    just sent and without a recorded fill, recording any classified answer
    succeeds: FILLED with the whole size, PARTIALLY_FILLED with exactly the
    filled size of the answer, REJECTED and CANCELLED without a fill, and every
    doubtful answer, a NOT_SENT after the send was attempted included, as
    UNKNOWN, which recovery takes up again; a NOT_SENT of an action still
    PREPARED proves it was never sent.  No other row changes. *)
Theorem result_recorded id s row cur response expected result now :
  reachable s -> actions s !! id = Some row -> record_of row = Ok cur -> 0 < now < 2 ^ 63 ->
  (dval expected == dval (requested_size cur))%Q ->
  classified_ok response expected result \/ post_outcome result = PO_NOT_SENT ->
  (state cur = SEND_ATTEMPTED /\ (dval (cumulative_filled_size cur) == 0)%Q) \/
  (state cur = PREPARED /\ post_outcome result = PO_NOT_SENT) ->
  exists s' rec, record_result id result now s = (s', Ok rec) /\
    get_action id s' = Ok (Some rec) /\ (forall id', id' <> id -> actions s' !! id' = actions s !! id') /\
    state rec = journal_state (negb (prepared cur)) (post_outcome result) /\
    (dval (cumulative_filled_size rec) == if is_fill (post_outcome result) then dval (post_filled_size result) else 0)%Q /\
    (recovery_required rec = true <-> state rec = UNKNOWN).
Proof.
  intros Hs Hrow Hcur Hnow Hexp Hres [[Hst Hcum]|[Hst Hns]].
  - assert (prepared cur = false) as -> by (unfold prepared; by rewrite Hst).
    destruct (sent_result id s row cur result now Hs Hrow Hcur Hnow response expected Hres Hexp Hst Hcum)
      as (s' & rec & x & H & (Hst' & Hc & Hoth & Hget) & Hx).
    exists s', rec. split_and!; try done; [by rewrite Hc|].
    unfold recovery_required. rewrite Hst'. by destruct (post_outcome result).
  - unfold record_result, jbind, jquery. rewrite (current_record _ _ _ _ Hs Hrow Hcur), Hns, Hst.
    rewrite !bool_decide_true by done. cbn [negb].
    assert (state row = PREPARED) as Hst' by (apply record_of_Ok in Hcur as (? & ? & _ & ->); done).
    rewrite (not_sent_accepts id row cur) by (try done; by eapply reachable_cloid).
    eexists _, _. split; [done|]. split.
    { unfold get_action. rewrite (reachable_cloid _ _ _ Hs Hrow). cbn. rewrite lookup_insert_eq.
      by rewrite (unsent_record row cur). }
    split; [intros id' Hne; cbn; by rewrite lookup_insert_ne|].
    split; [unfold prepared; by rewrite Hst|]. split; [|done].
    cbn. by apply (requested_positive id s row cur Hs Hrow Hcur).
Qed.

(** Resolving an action by its CLOID writes down exactly what the exchange
    reported, or nothing.  A terminal action is returned untouched and without a
    request.  Otherwise, once the request has answered, whatever else ran on the
    journal meanwhile: the outcome the answer stands for is recorded, with its
    cumulative fill, exactly when the transition table allows it and the fill
    lies between what is recorded and what was requested (a failed request or an
    unresolved answer asks for UNKNOWN and leaves the fill); else the call raises
    and the journal is unchanged.  No other action changes. *)
Theorem resolution_exact l info id ep now s s' r record :
  reachable s -> (forall c, Journaled (fun _ => True) (info c)) -> 0 < now < 2 ^ 63 ->
  get_owned_action id (sl_follower_account l) (sl_api_wallet_address l) s = Ok (Some record) ->
  resolve_by_cloid l info id ep now s = (s', r) ->
  if terminal record then s' = s /\ r = Ok record
  else exists c, info_call (order_status_query l (cloid record)) ep true = Ok c /\
    match info c s with
    | (s1, Raise e) => s' = s1 /\ r = Raise e
    | (s1, Ok wire) => exists cur, get_action (cloid record) s1 = Ok (Some cur) /\
        let '(t, x) := settlement cur (post_info_result wire) in
        (is_ok r = true <-> t ∈ allowed_targets (state cur) /\ outcome_sizes cur t x) /\
        (is_ok r = false -> s' = s1) /\
        (forall rec, r = Ok rec -> recorded (cloid record) s1 t x s' rec)
    end.
Proof.
  intros Hs Hinfo Hnow Hget. unfold resolve_by_cloid, jbind, jquery at 1. rewrite Hget.
  destruct (terminal record); [by intros [-> ->]%pair_equal_spec|]. unfold jlift.
  change (info_call (order_status_query l (cloid record)) ep true)
    with (Ok (MkCall false (order_status_query l (cloid record)) ep false true)).
  set (c := MkCall _ _ _ _ _). intros H. exists c. split; [done|].
  cbn [mbind] in H. destruct (info c s) as [s1 [wire|e]] eqn:E; [|by injection H as -> ->].
  apply owned_row in Hget as (row0 & Hrow0 & Hrec0); [|done].
  destruct (Hinfo c s) as (ops & _ & E1). rewrite E in E1. cbn [fst] in E1. subst s1.
  destruct (run_evolves ops s _ _ (reachable_ok _ Hs) Hrow0) as (row & Hrow & Hev).
  pose proof (reachable_run ops _ Hs) as Hs1.
  destruct (row_ok_record _ _ _ (reachable_ok _ Hs1) Hrow) as [cur Hcur]. exists cur.
  split; [by eapply current_record|]. eapply settle_exact; try done.
  apply record_of_Ok in Hcur as (q & ? & [Hq _] & ->), Hrec0 as (q0 & ? & [Hq0 _] & ->). cbn.
  destruct (ev_payload _ _ Hev) as (Eq & _). rewrite Eq in Hq. congruence.
Qed.

(** C20. A signer lane never has two actions in flight.  Whatever operations other
    tasks and other lanes run on the journal, and whatever the lane itself
    starts through [execute_ioc], in any order from an empty journal: at every
    point at most one action of the lane is not terminal, that is, prepared,
    sent, unknown or resting. *)
Theorem one_unresolved_action blake2s sdk l f w s id1 id2 r1 r2 :
  identity (sl_follower_account l) = Ok f -> identity (sl_api_wallet_address l) = Ok w ->
  rtc (lane_step blake2s sdk l f w) empty_db s ->
  actions s !! id1 = Some r1 -> actions s !! id2 = Some r2 -> open_row f w r1 -> open_row f w r2 -> id1 = id2.
Proof.
  intros Hf Hw Hrun. cut (reachable s /\ single f w s); [intros [_ H]; apply H|].
  revert Hrun. apply (rtc_ind_r (fun s => reachable s /\ single f w s)).
  - split; [by exists []|]. intros ? ? ? ? H. unfold empty_db in H. cbn [actions] in H. by rewrite lookup_empty in H.
  - intros s0 s1 _ [o Ho|action asset px now rsv s2 r H] [Hr Hone].
    + split; [by apply (reachable_run [o])|]. by apply single_op; [apply reachable_ok|..].
    + split; [by eapply (journaled_reachable _ _ _ _ _ Hr H)|]. by eapply single_begin.
Qed.

(** * Witnesses *)

Definition sample_lane : SignerLane := init_lane "0xAA" "0xbb" None true 5000 true.
Definition sample_hash (s : string) : string := "0000000000000000000000000000000a".
Definition sample_sdk (a : list (string * json)) (v : option string) (n e : Z) (m : bool) : res json := Ok (JStr "sig").
Definition sample_next : DesiredEngine.NextAction :=
  DesiredEngine.MkNextAction "desired-2" "ETH" "buy" (Dec false 15 (-1)) false "open".
Definition sample_begin : db * res (SignedIocAction * ActionRecord) :=
  begin_ioc sample_hash sample_sdk sample_lane sample_next 4 (Fin (Dec false 1015 (-1))) 2000 2000 empty_db.
Definition sample_signed : SignedIocAction :=
  match sample_begin.2 with Ok (signed, _) => signed | Raise _ => MkSigned (MkIoc "" dzero []) 0 0 [] end.
Definition sample_begun : ActionRecord :=
  match sample_begin.2 with Ok (_, rec) => rec | Raise _ => sample_record empty_db end.
Definition sample_items : list item :=
  [Net (Admit 0); Table (OpReserve "0xAA" "0xbb" None 2050); RunHook "error"; Net (WriteReturns 0);
   Table (OpNotSent "0x0000000000000000000000000000000a" None 2200)].
Definition sample_net : sys := run_events [Attach] new_sys.
Definition sample_drive : db * sys :=
  drive 0 (send_hook (cloid sample_begun) 2100) sample_items
    (sample_begin.1, default sample_net (step (Post (MkCall true (signed_payload sample_signed) 1 true true)) sample_net)).

Lemma written_frame_is_journaled_witness :
  exists id f row, Wrote 0 1 id f ∈ trace sample_drive.2 /\ actions sample_drive.1 !! cloid sample_begun = Some row /\
    sent_row row /\ signed_payload_json row = exact_json (signed_payload sample_signed).
Proof.
  assert (Wrote 0 1 1 (frame_of (MkCall true (signed_payload sample_signed) 1 true true) 1) ∈ trace sample_drive.2) as Hw.
  { apply list_elem_of_lookup. exists 1%nat. vm_compute. reflexivity. }
  destruct (proj2 (written_frame_is_journaled sample_hash sample_sdk sample_lane sample_next 4
    (Fin (Dec false 1015 (-1))) 2000 2000 empty_db sample_begin.1 sample_signed sample_begun sample_net 1
    (MkCall true (signed_payload sample_signed) 1 true true) 2100 sample_items sample_drive.1 sample_drive.2
    (ex_intro _ [] eq_refl) (ex_intro _ [Attach] eq_refl) ltac:(vm_compute; reflexivity)
    ltac:(vm_compute; reflexivity) ltac:(vm_compute; reflexivity)) 1 1 _ Hw) as (_ & _ & _ & row & H1 & H2 & H3).
  eexists _, _, row. split; [exact Hw|]. split; [exact H1|]. split; [exact H2|exact H3].
Defined.

Lemma recovery_abandons_only_unsent_witness :
  exists s', recover_provably_unsent sample_lane 3000 sample_db = (s', Ok [as_unsent (sample_record sample_db) 3000]) /\
    recover_provably_unsent sample_lane 3000 s' = (s', Ok []).
Proof.
  destruct (recovery_abandons_only_unsent sample_lane "0xaa" "0xbb" sample_db 3000 sample_reachable)
    as (s' & recs & H & _ & _ & _ & _ & H2); [vm_compute; reflexivity..|lia|].
  assert (recover_provably_unsent sample_lane 3000 sample_db =
    ((recover_provably_unsent sample_lane 3000 sample_db).1, Ok [as_unsent (sample_record sample_db) 3000])) as E
    by (vm_compute; reflexivity).
  exists s'. split; [|exact H2]. rewrite H in E. rewrite H. injection E as ->. reflexivity.
Defined.

Lemma result_recorded_witness :
  exists s' rec, record_result "0x00000000000000000000000000000001" (bare_result 7 PO_REJECTED JNull "bad") 3000 sample_sent
    = (s', Ok rec) /\ state rec = AS_REJECTED.
Proof.
  destruct (result_recorded "0x00000000000000000000000000000001" sample_sent (sample_row sample_sent)
    (sample_record sample_sent) JNull (requested_size (sample_record sample_sent))
    (bare_result 7 PO_REJECTED JNull "bad") 3000 sample_sent_reachable) as (s' & rec & H & _ & _ & Hst & _);
    [vm_compute; reflexivity|vm_compute; reflexivity|lia|reflexivity| | |].
  - left. by apply (bare_ok _ _ _ "bad").
  - left. split; vm_compute; reflexivity.
  - exists s', rec. split; [exact H|exact Hst].
Defined.

Definition sample_answer : json :=
  JObj [("type", JStr "info"); ("payload", JObj [("status", JStr "order");
    ("order", JObj [("order", JObj [("oid", JInt 77); ("origSz", JStr "2.5"); ("sz", JStr "0.5")]);
                    ("status", JStr "canceled")])])].

Lemma resolution_exact_witness :
  exists s' rec, resolve_by_cloid sample_lane (fun _ => jret (MkWire 5 W_RESPONSE sample_answer "response"))
      "0x00000000000000000000000000000001" 1 3000 sample_sent = (s', Ok rec) /\
    recorded "0x00000000000000000000000000000001" sample_sent PARTIALLY_FILLED (Dec false 20 (-1)) s' rec.
Proof.
  set (out := resolve_by_cloid sample_lane (fun _ => jret (MkWire 5 W_RESPONSE sample_answer "response"))
      "0x00000000000000000000000000000001" 1 3000 sample_sent).
  pose proof (resolution_exact sample_lane (fun _ => jret (MkWire 5 W_RESPONSE sample_answer "response"))
    "0x00000000000000000000000000000001" 1 3000 sample_sent out.1 out.2 (sample_record sample_sent)
    sample_sent_reachable (fun c => journaled_ret _) ltac:(lia) ltac:(vm_compute; reflexivity)
    ltac:(vm_compute; reflexivity)) as H.
  change (terminal (sample_record sample_sent)) with false in H. cbv iota in H.
  destruct H as (c & _ & H). unfold jret in H. cbv beta iota in H. destruct H as (cur & Hcur & H).
  assert (get_action (cloid (sample_record sample_sent)) sample_sent = Ok (Some (sample_record sample_sent))) as E
    by (vm_compute; reflexivity). rewrite E in Hcur. injection Hcur as <-.
  assert (settlement (sample_record sample_sent) (post_info_result (MkWire 5 W_RESPONSE sample_answer "response"))
    = (PARTIALLY_FILLED, Dec false 20 (-1))) as E2 by (vm_compute; reflexivity). rewrite E2 in H.
  destruct H as (_ & _ & H). exists out.1, (sample_record out.1). split; [vm_compute; reflexivity|].
  apply H. vm_compute. reflexivity.
Defined.

Definition begun_row : ActionRow := default (sample_row empty_db) (actions sample_begin.1 !! cloid sample_begun).

Lemma one_unresolved_action_witness :
  open_row "0xaa" "0xbb" begun_row /\ "0x0000000000000000000000000000000a" = cloid sample_begun.
Proof.
  assert (open_row "0xaa" "0xbb" begun_row) as Ho by (vm_compute; split; [left|split; reflexivity]).
  split; [exact Ho|].
  eapply (one_unresolved_action sample_hash sample_sdk sample_lane "0xaa" "0xbb" sample_begin.1 _ _ begun_row begun_row);
    [vm_compute; reflexivity..| | | |exact Ho|exact Ho]; [|vm_compute; reflexivity..].
  apply rtc_once. by eapply (ls_begin _ _ _ _ _ _ sample_next 4 (Fin (Dec false 1015 (-1))) 2000 2000 _ sample_begin.2), surjective_pairing.
Defined.
