(* ===== verification/AccountParsing.v ===== *)
(** observer.py and unified_account.py: reading positions, open orders and the
    aggregate state of all perp DEXs from the exchange's JSON. *)

From S2P Require Import Prelude PyDecimal PyText Models Markets.
From Stdlib Require Import Ascii.

Open Scope Z_scope.

(** [value in (None, "")] *)
Definition json_blank (v : json) : bool := match v with JNull | JStr "" => true | _ => false end.

(** [int(str(value))] *)
Definition int_text (v : json) : option Z := int_of_string (py_str v).

(** [int(d)] for a finite number. *)
Definition dec_int (d : dec) : Z :=
  let n := Z.of_N (if 0 <=? dexp d then dcoef d * 10 ^ Z.to_N (dexp d) else dcoef d / 10 ^ Z.to_N (- dexp d)) in
  if dneg d then - n else n.

(** [except (InvalidOperation, ValueError)] *)
Definition is_number_error (e : exn) : bool :=
  match e with ArithmeticError _ => true | _ => is_value_error e end.

(** * Positions *)

Definition parse_position_leverage (raw : json) : res (option Z) :=
  let value := match raw with JObj o => obj_field "value" o | _ => raw end in
  if json_blank value then Ok None else
  match value with
  | JBool _ => Raise (ValueError "leverage must be a positive integer")
  | _ =>
      parsed ← catch (parse_decimal value) is_number_error
        (fun _ => Raise (ValueError "leverage must be a positive integer"));
      if dleb parsed dzero || negb (deqb parsed (to_integral parsed))
      then Raise (ValueError "leverage must be a positive integer")
      else Ok (Some (dec_int parsed))
  end.

(** A coin field: a text that is not blank. *)
Definition coin_field (o : list (string * json)) : res json :=
  match obj_field "coin" o with
  | JStr s => if is_empty (py_strip s) then Raise (ValueError "missing a valid coin") else Ok (JStr s)
  | _ => Raise (ValueError "missing a valid coin")
  end.

(** An optional price: absent, null or blank, else positive. *)
Definition optional_price (raw : json) : res (option dec) :=
  if json_blank raw then Ok None else
  px ← parse_decimal raw;
  if dleb px dzero then Raise (ValueError "price must be positive") else Ok (Some px).

(** One row of [assetPositions]: the positions and the coins seen so far. *)
Definition position_step (updated_ms : Z) (dexs : string) (acc : dict Position * list string) (item : json)
    : res (dict Position * list string) :=
  let '(positions, seen_coins) := acc in
  match item with
  | JObj it =>
      match default item (obj_get "position" it) with
      | JObj position =>
          raw_coin ← coin_field position;
          coin ← qualify_market_symbol (JStr dexs) raw_coin;
          if bool_decide (coin ∈ seen_coins)
          then Raise (ValueError "clearinghouse state contains duplicate position coin") else
          let seen := coin :: seen_coins in
          match obj_get "szi" position with
          | None => Raise (ValueError "assetPositions row is missing szi")
          | Some szi =>
              size ← parse_decimal szi;
              leverage ← parse_position_leverage (obj_field "leverage" position);
              if deqb size dzero then Ok (positions, seen) else
              entry_px ← optional_price (obj_field "entryPx" position);
              Ok (dict_set coin (MkPosition coin size (Fin <$> entry_px) leverage updated_ms) positions, seen)
          end
      | _ => Raise (ValueError "assetPositions position must be an object")
      end
  | _ => Raise (ValueError "assetPositions row must be an object")
  end.

(** [parse_clearinghouse_positions(payload, observed_ms, dex=dex)] of an object. *)
Definition parse_clearinghouse_positions (payload : list (string * json)) (observed_ms : Z) (dexs : string)
    : res (dict Position) :=
  match obj_get "assetPositions" payload with
  | None => Raise (ValueError "clearinghouse state is missing assetPositions")
  | Some (JList raw_positions) =>
      acc ← fold_res (position_step observed_ms dexs) raw_positions ([], []);
      Ok acc.1
  | Some _ => Raise (ValueError "clearinghouse state assetPositions must be a list")
  end.

(** * Open orders *)

Definition normalize_order_side (side_raw : json) : string :=
  let side := py_lower (py_strip (str_or_empty side_raw)) in
  if bool_decide (side ∈ ["b"; "bid"; "buy"; "open long"; "close short"]) then "buy"
  else if bool_decide (side ∈ ["a"; "ask"; "sell"; "open short"; "close long"]) then "sell"
  else side.

Definition side_signal (order : list (string * json)) (field : string) : res (list string) :=
  let raw_side := obj_field field order in
  if json_blank raw_side then Ok [] else
  let normalized := normalize_order_side raw_side in
  if bool_decide (normalized ∈ ["buy"; "sell"]) then Ok [normalized]
  else Raise (ValueError "open order has an invalid side").

Definition order_side (order : list (string * json)) : res string :=
  sides ← side_signal order "side";
  dirs ← side_signal order "dir";
  flags ← match obj_get "isBuy" order with
          | None => Ok []
          | Some (JBool b) => Ok [if b then "buy" else "sell"]
          | Some _ => Raise (ValueError "open order isBuy must be boolean")
          end;
  match sides ++ dirs ++ flags with
  | [] => Raise (ValueError "open order has invalid side")
  | side :: rest =>
      if forallb (fun s => bool_decide (s = side)) rest then Ok side
      else Raise (ValueError "open order has conflicting side signals")
  end.

Definition order_size (order : list (string * json)) : res dec :=
  raw_size ← match obj_get "sz" order with
             | Some v => Ok v
             | None => match obj_get "origSz" order with
                       | Some v => Ok v
                       | None => Raise (ValueError "open order is missing sz/origSz")
                       end
             end;
  size ← parse_decimal raw_size;
  if dleb size dzero then Raise (ValueError "open order size must be positive") else Ok size.

Definition order_oid (raw_oid : json) (seen_oids : list Z) : res (option Z) :=
  if json_blank raw_oid then Ok None else
  match raw_oid with
  | JBool _ => Raise (ValueError "open order has invalid oid")
  | _ =>
      match int_text raw_oid with
      | None => Raise (ValueError "open order has invalid oid")
      | Some oid =>
          if oid <=? 0 then Raise (ValueError "open order oid must be positive") else
          if bool_decide (oid ∈ seen_oids)
          then Raise (ValueError "open-orders response contains duplicate oid") else Ok (Some oid)
      end
  end.

Definition order_cloid (raw_cloid : json) (seen_cloids : list string) : res (option string) :=
  if json_blank raw_cloid then Ok None else
  match raw_cloid with
  | JStr s =>
      c ← validate_cloid s;
      if bool_decide (c ∈ seen_cloids)
      then Raise (ValueError "open-orders response contains duplicate cloid") else Ok (Some c)
  | _ => Raise (ValueError "open order has invalid cloid")
  end.

Record orders_acc := MkOrdersAcc { oa_orders : list OpenOrder; seen_oids : list Z; seen_cloids : list string }.

(** [if x is not None: seen.add(x)] *)
Definition seen_add {A} (x : option A) (seen : list A) : list A :=
  match x with Some a => a :: seen | None => seen end.

Definition open_order_step (updated_ms : Z) (dexs : string) (acc : orders_acc) (item : json) : res orders_acc :=
  match item with
  | JObj order =>
      raw_coin ← coin_field order;
      coin ← qualify_market_symbol (JStr dexs) raw_coin;
      side ← order_side order;
      size ← order_size order;
      price ← optional_price (default (obj_field "px" order) (obj_get "limitPx" order));
      oid ← order_oid (obj_field "oid" order) (seen_oids acc);
      cloid ← order_cloid (obj_field "cloid" order) (seen_cloids acc);
      if bool_decide (oid = None) && bool_decide (cloid = None)
      then Raise (ValueError "open order is missing oid and cloid") else
      match default (JBool false) (obj_get "reduceOnly" order) with
      | JBool reduce_only =>
          Ok (MkOrdersAcc (oa_orders acc ++ [MkOpenOrder coin side size price oid cloid reduce_only updated_ms])
                (seen_add oid (seen_oids acc)) (seen_add cloid (seen_cloids acc)))
      | _ => Raise (ValueError "open order reduceOnly must be boolean")
      end
  | _ => Raise (ValueError "open order must be an object")
  end.

Definition parse_open_orders (payload : json) (observed_ms : Z) (dexs : string) : res (list OpenOrder) :=
  raw_orders ← match payload with
               | JObj o => match obj_get "orders" o with
                           | Some v => Ok v
                           | None => Raise (ValueError "open-orders response is missing orders")
                           end
               | JList _ => Ok payload
               | _ => Raise (ValueError "open-orders response must be a list or an orders wrapper")
               end;
  match raw_orders with
  | JList l =>
      acc ← fold_res (open_order_step observed_ms dexs) l (MkOrdersAcc [] [] []);
      Ok (oa_orders acc)
  | _ => Raise (ValueError "open-orders orders must be a list")
  end.

(** * The aggregate state of an account *)

Record UnifiedAccountSnapshot := MkUnified {
  ua_account : string;
  clearinghouse_states : dict (list (string * json));
  ua_observed_ms : Z;
  ua_received_ms : Z;
}.

Definition dex_entry (raw_dex raw_state : json) (states : dict (list (string * json)))
    : res (dict (list (string * json))) :=
  match raw_dex, raw_state with
  | JStr d, JObj st =>
      dex ← (if is_empty d then Ok "" else
             catch (q ← qualify_market_symbol raw_dex (JStr "X"); market_dex (JStr q)) is_value_error
               (fun _ => Raise (UnifiedAccountStateError "DEX is invalid")));
      if dict_mem dex states then Raise (UnifiedAccountStateError "DEX is duplicated")
      else Ok (dict_set dex st states)
  | _, _ => Raise (UnifiedAccountStateError "DEX entries must be string/object pairs")
  end.

Definition dex_pair (item : json) : res (json * json) :=
  match item with
  | JList [d; st] => Ok (d, st)
  | _ => Raise (UnifiedAccountStateError "clearinghouseStates must contain [dex, state] pairs")
  end.

(** [_clearinghouse_states] *)
Definition read_states (value : json) : res (dict (list (string * json))) :=
  entries ← match value with
            | JObj o => Ok ((fun kv => (JStr kv.1, kv.2)) <$> o)
            | JList l => map_res dex_pair l
            | _ => Raise (UnifiedAccountStateError "clearinghouseStates must be an object or pair list")
            end;
  states ← fold_res (fun acc e => dex_entry e.1 e.2 acc) entries [];
  match states with
  | [] => Raise (UnifiedAccountStateError "clearinghouseStates is empty")
  | _ => Ok states
  end.

(** The time of one DEX state, which must also list its positions. *)
Definition state_time (st : list (string * json)) : res Z :=
  match obj_field "assetPositions" st with
  | JList _ =>
      match int_text (obj_field "time" st) with
      | None => Raise (UnifiedAccountStateError "DEX has invalid time")
      | Some observed =>
          if observed <=? 0 then Raise (UnifiedAccountStateError "DEX has non-positive time") else Ok observed
      end
  | _ => Raise (UnifiedAccountStateError "DEX is missing assetPositions")
  end.

Definition min_list (x : Z) (l : list Z) : Z := fold_left Z.min l x.

(** [parse_all_dexs_message] of a decoded object. *)
Definition parse_all_dexs_message (payload : list (string * json)) (expected_account : string) (received_ms : Z)
    : res UnifiedAccountSnapshot :=
  if negb (json_is_str "allDexsClearinghouseState" (obj_field "channel" payload))
  then Raise (UnifiedAccountStateError "unexpected aggregate follower channel") else
  match obj_field "data" payload with
  | JObj data =>
      let account := py_lower (py_strip (str_or_empty (obj_field "user" data))) in
      if negb (bool_decide (account = py_lower (py_strip expected_account)))
      then Raise (UnifiedAccountStateError "aggregate follower account mismatch") else
      states ← read_states (obj_field "clearinghouseStates" data);
      if negb (dict_mem "" states)
      then Raise (UnifiedAccountStateError "missing the default perp DEX") else
      times ← map_res (fun kv => state_time kv.2) states;
      match times with
      | [] => Raise (ValueError "min() arg is an empty sequence")
      | t :: rest => Ok (MkUnified account states (min_list t rest) received_ms)
      end
  | _ => Raise (UnifiedAccountStateError "payload data must be an object")
  end.

Definition default_state (u : UnifiedAccountSnapshot) : res (list (string * json)) :=
  match dict_get "" (clearinghouse_states u) with Some st => Ok st | None => Raise (KeyError "") end.

Definition dex_count (u : UnifiedAccountSnapshot) : Z := Z.of_nat (List.length (clearinghouse_states u)).

(** [except (ArithmeticError, TypeError, ValueError)] *)
Definition is_parse_error (e : exn) : bool :=
  match e with TypeError _ => true | _ => is_number_error e end.

Definition summary_value (state : list (string * json)) (summary_key value_key : string) : res json :=
  match obj_field summary_key state with
  | JObj summary =>
      match obj_field value_key summary with
      | JNull => Raise (UnifiedAccountStateError "aggregate follower state is missing a summary value")
      | v => Ok v
      end
  | _ => Raise (UnifiedAccountStateError "aggregate follower state is missing a summary value")
  end.

(** [parse_decimal(raw) != 0], with the error of this module. *)
Definition nonzero (raw : json) (msg : string) : res bool :=
  catch (d ← parse_decimal raw; Ok (negb (deqb d dzero))) is_parse_error (fun _ => Raise (UnifiedAccountStateError msg)).

(** A loop that returns at the first [true]. *)
Fixpoint any_res {A} (f : A -> res bool) (l : list A) : res bool :=
  match l with
  | [] => Ok false
  | x :: t => b ← f x; if b : bool then Ok true else any_res f t
  end.

Definition position_active (item : json) : res bool :=
  match item with
  | JObj it =>
      match obj_field "position" it with
      | JObj position => nonzero (obj_field "szi" position) "aggregate follower position size is invalid"
      | _ => Raise (UnifiedAccountStateError "aggregate follower position is malformed")
      end
  | _ => Raise (UnifiedAccountStateError "aggregate follower position is malformed")
  end.

(** [_state_has_activity] *)
Definition state_has_activity (state : list (string * json)) : res bool :=
  match obj_field "assetPositions" state with
  | JList positions =>
      active ← any_res position_active positions;
      if active : bool then Ok true else
      a ← summary_value state "marginSummary" "totalMarginUsed";
      b ← summary_value state "marginSummary" "totalNtlPos";
      c ← summary_value state "crossMarginSummary" "totalMarginUsed";
      d ← summary_value state "crossMarginSummary" "totalNtlPos";
      any_res (fun raw => nonzero raw "aggregate follower risk summary is invalid")
        [obj_field "crossMaintenanceMarginUsed" state; a; b; c; d]
  | _ => Raise (UnifiedAccountStateError "aggregate follower positions are malformed")
  end.

Definition activity_step (active : list string) (ds : string * list (string * json)) : res (list string) :=
  if is_empty ds.1 then Ok active else
  b ← state_has_activity ds.2; Ok (if b : bool then active ++ [ds.1] else active).

Definition non_default_dex_activity (u : UnifiedAccountSnapshot) : res (list string) :=
  active ← fold_res activity_step (clearinghouse_states u) []; Ok (py_sorted str_leb active).

(** ** The account mode *)

Inductive UserAbstraction := ABS_STANDARD | ABS_UNIFIED | ABS_PORTFOLIO_MARGIN | ABS_DEX_ABSTRACTION.

#[export] Instance UserAbstraction_eq_dec : EqDecision UserAbstraction.
Proof. solve_decision. Defined.

Definition abstraction_keys : list string :=
  ["userAbstraction"; "userDexAbstraction"; "accountAbstraction"; "abstraction"; "mode"; "state"; "type"; "enabled";
   "isEnabled"; "value"].

(** [str(value[key])] of the first key whose value is not [None]. *)
Fixpoint first_present (keys : list string) (o : list (string * json)) : string :=
  match keys with
  | [] => ""
  | k :: rest => match obj_field k o with JNull => first_present rest o | v => py_str v end
  end.

Definition remove_chars (cs : string) (s : string) : string :=
  of_chars (filter (fun c => c ∉ to_chars cs) (to_chars s)).

Definition normalized_abstraction_mode (value : json) : option string :=
  let mode raw := py_lower (remove_chars "_-" (py_strip raw)) in
  match value with
  | JBool _ => Some (mode (py_str value))
  | JStr raw => Some (mode raw)
  | JObj o => let raw := first_present abstraction_keys o in if is_empty raw then None else Some (mode raw)
  | _ => None
  end.

Definition classify_user_abstraction (value : json) : option UserAbstraction :=
  mode ← normalized_abstraction_mode value;
  if bool_decide (mode ∈ ["disabled"; "standard"]) then Some ABS_STANDARD
  else if bool_decide (mode ∈ ["default"; "unified"; "unifiedaccount"]) then Some ABS_UNIFIED
  else if bool_decide (mode = "portfoliomargin") then Some ABS_PORTFOLIO_MARGIN
  else if bool_decide (mode = "dexabstraction") then Some ABS_DEX_ABSTRACTION
  else None.

(** [rest_url.rstrip("/")] *)
Definition websocket_url (rest_url : string) : res string :=
  let base := rstrip_char "/" rest_url in
  let rest n := of_chars (drop n (to_chars base)) in
  if starts_with "https://" base then Ok ("wss://" +:+ rest 8%nat +:+ "/ws")
  else if starts_with "http://" base then Ok ("ws://" +:+ rest 7%nat +:+ "/ws")
  else Raise (UnifiedAccountStateError "unsupported Hyperliquid REST URL").
