(* ===== verification/FrameErrors.v ===== *)
(** Which errors the parsers of frames raise: only those that [apply] catches.  The
    hint database [fails] and [solve_fails] do the case analysis for the clients. *)

From S2P Require Import Prelude PyDecimal DecimalFacts PyText TextFacts Models Markets AccountParsing.
From Stdlib Require Import Ascii.

Open Scope Z_scope.

(** The errors the [apply] methods turn into one of their own; [unified] says whether
    a [UnifiedAccountStateError] is among them. *)
Definition frame_exn (unified : bool) (e : exn) : Prop :=
  match e with
  | UnifiedAccountStateError _ => unified = true
  | _ => is_parse_error e = true
  end.

Definition fails_in (unified : bool) {A} (m : res A) : Prop :=
  match m with Ok _ => True | Raise e => frame_exn unified e end.

Create HintDb fails discriminated.

Section Fails.
Context (unified : bool).
Abbreviation fails := (fails_in unified).

Lemma fails_bind {A B} (m : res A) (f : A -> res B) :
  fails m -> (forall a, m = Ok a -> fails (f a)) -> fails (m ≫= f).
Proof. destruct m; cbn; auto. Qed.

Lemma fails_fmap {A B} (m : res A) (f : A -> B) : fails m -> fails (f <$> m).
Proof. by destruct m. Qed.

Lemma fails_fold {A B} (f : B -> A -> res B) l acc :
  (forall b a, a ∈ l -> fails (f b a)) -> fails (fold_res f l acc).
Proof.
  revert acc. induction l as [|x l IH]; intros acc H; cbn; [done|].
  pose proof (H acc x ltac:(by left)) as Hx. destruct (f acc x) as [b|e]; [|done]. apply IH. intros c a Ha. apply H. by right.
Qed.

Lemma fails_map {A B} (f : A -> res B) l : (forall a, a ∈ l -> fails (f a)) -> fails (map_res f l).
Proof.
  induction l as [|x l IH]; intros H; cbn; [done|].
  pose proof (H x ltac:(by left)) as Hx. destruct (f x) as [b|e]; [|done].
  assert (fails (map_res f l)) as Hl by (apply IH; intros a Ha; apply H; by right). by destruct (map_res f l).
Qed.

Lemma fails_catch {A} (m : res A) p h : fails m -> (forall e, fails (h e)) -> fails (catch m p h).
Proof. destruct m as [a|e]; cbn; [done|]. intros H Hh. destruct (p e); auto. Qed.

End Fails.

#[export] Hint Resolve fails_fmap : fails.

(** Case analysis of a computation down to its calls. *)
Ltac fails_step :=
  match goal with
  | |- fails_in _ (Ok _) => first [exact I | reflexivity]
  | |- fails_in _ (Raise _) => first [exact I | reflexivity]
  | |- fails_in _ (mret _) => first [exact I | reflexivity]
  | |- fails_in _ (identity_error _) => first [exact I | reflexivity]
  | |- fails_in _ (mbind _ _) => apply fails_bind; [|intros ? ?]
  | |- fails_in _ (fmap _ _) => apply fails_fmap
  | |- fails_in _ (catch _ _ _) => apply fails_catch; [|intros ?]
  | |- fails_in _ (fold_res _ _ _) => apply fails_fold; intros ? ? _
  | |- fails_in _ (map_res _ _) => apply fails_map; intros ? _
  | |- fails_in _ (match ?x with _ => _ end) => destruct x
  | |- fails_in _ (if ?x then _ else _) => destruct x
  end.
Ltac solve_fails := repeat (cbv zeta; first [solve [eauto with fails nocore] | fails_step]).

Lemma fails_decimal u v : fails_in u (parse_decimal v).
Proof. unfold parse_decimal. destruct (match v with JNull => _ | _ => _ end) as [[]|]; done. Qed.
#[export] Hint Resolve fails_decimal : fails.

Lemma fails_component u s c : fails_in u (validate_component s c).
Proof. unfold validate_component. destruct c; cbn; repeat case_match; done. Qed.
#[export] Hint Resolve fails_component : fails.

Lemma fails_identity u a d : fails_in u (make_identity a d).
Proof. unfold make_identity. solve_fails. Qed.
#[export] Hint Resolve fails_identity : fails.

Lemma fails_parse_market u v : fails_in u (parse_market v).
Proof. unfold parse_market. solve_fails. Qed.
#[export] Hint Resolve fails_parse_market : fails.

Lemma fails_canonical u v : fails_in u (canonical_market_symbol v).
Proof. unfold canonical_market_symbol, canonical_market. solve_fails. Qed.

Lemma fails_market_dex u v : fails_in u (market_dex v).
Proof. unfold market_dex. solve_fails. Qed.

Lemma fails_qualify u d c : fails_in u (qualify_market_symbol d c).
Proof. unfold qualify_market_symbol. solve_fails. Qed.

Lemma fails_cloid u s : fails_in u (validate_cloid s).
Proof. unfold validate_cloid. solve_fails. Qed.

#[export] Hint Resolve fails_canonical fails_market_dex fails_qualify fails_cloid : fails.

Lemma fails_price u v : fails_in u (optional_price v).
Proof. unfold optional_price. solve_fails. Qed.

Lemma fails_coin u o : fails_in u (coin_field o).
Proof. unfold coin_field. solve_fails. Qed.

Lemma fails_leverage u v : fails_in u (parse_position_leverage v).
Proof. unfold parse_position_leverage. solve_fails. Qed.

#[export] Hint Resolve fails_price fails_coin fails_leverage : fails.

Lemma fails_positions u p t d : fails_in u (parse_clearinghouse_positions p t d).
Proof. unfold parse_clearinghouse_positions, position_step. solve_fails. Qed.

Lemma fails_side u o : fails_in u (order_side o).
Proof. unfold order_side, side_signal. solve_fails. Qed.

Lemma fails_size u o : fails_in u (order_size o).
Proof. unfold order_size. solve_fails. Qed.

Lemma fails_oid u v l : fails_in u (order_oid v l).
Proof. unfold order_oid. solve_fails. Qed.

Lemma fails_order_cloid u v l : fails_in u (order_cloid v l).
Proof. unfold order_cloid. solve_fails. Qed.

#[export] Hint Resolve fails_positions fails_side fails_size fails_oid fails_order_cloid : fails.

Lemma fails_order_step u t d acc v : fails_in u (open_order_step t d acc v).
Proof. unfold open_order_step. solve_fails. Qed.
#[export] Hint Resolve fails_order_step : fails.

Lemma fails_orders u p t d : fails_in u (parse_open_orders p t d).
Proof. unfold parse_open_orders. solve_fails. Qed.
#[export] Hint Resolve fails_orders : fails.
