(* ===== verification/AccountStream.v ===== *)
(** account_stream.py: the reducer of one source/follower WebSocket connection.

    The stream object is a record and every method that assigns to it a
    computation over that record: an exception keeps the assignments made before
    it.  A frame is decoded JSON.  A frozenset is a [gset]; Python does not fix
    its order of iteration, and no property depends on the order [elements]
    gives. *)

From S2P Require Import Prelude PyDecimal PyText Models Markets AccountParsing.
From Stdlib Require Import Ascii.

Open Scope Z_scope.

Definition stream_error {A} (msg : string) : res A := Raise (AccountStreamError msg).

(** [^0x[0-9a-f]{40}$] matched in full. *)
Definition address_re (s : string) : bool :=
  match to_chars s with
  | "0"%char :: "x"%char :: t => (List.length t =? 40)%nat && forallb is_lower_hex t
  | _ => false
  end.

(** [_account] *)
Definition account_of (value : string) : res string :=
  let account := py_lower (py_strip value) in
  if address_re account then Ok account else stream_error "invalid account address".

(** [_positive_int] *)
Definition positive_int (value : json) : res Z :=
  match value with
  | JBool _ => stream_error "must be a positive integer"
  | _ =>
      match int_text value with
      | Some parsed => if parsed <=? 0 then stream_error "must be a positive integer" else Ok parsed
      | None => stream_error "must be a positive integer"
      end
  end.

(** * Subscriptions *)

Definition subscription (kind user : string) (extra : list (string * json)) : json :=
  JObj ([("type", JStr kind); ("user", JStr user)] ++ extra).

Definition fills_subscription (user : string) : json := subscription "userFills" user [("aggregateByTime", JBool false)].

Definition source_subscription_specs (source account_mode : string) : res (list json) :=
  user ← account_of source;
  let mode := py_lower (py_strip account_mode) in
  if negb (bool_decide (mode ∈ ["standard"; "unified"]))
  then stream_error "source account mode must be standard or unified" else
  Ok ([subscription "allDexsClearinghouseState" user []] ++
      (if bool_decide (mode = "unified") then [subscription "spotState" user []] else []) ++
      [fills_subscription user; subscription "userTwapSliceFills" user []]).

Definition follower_subscription_specs (follower : string) : res (list json) :=
  user ← account_of follower;
  Ok [subscription "allDexsClearinghouseState" user []; subscription "spotState" user [];
      subscription "openOrders" user []; subscription "orderUpdates" user []; fills_subscription user].

(** * Data *)

Record UsdcCollateral := MkCollateral {
  total : dec;
  hold : dec;
  available : dec;
  col_observed_ms : Z;
  col_received_ms : Z;
}.

Record FillRecord := MkFill {
  f_account : string;
  f_market : string;
  tx_hash : string;
  tid : string;
  time_ms : Z;
  f_side : string;
  f_size : dec;
  f_price : dec;
  start_position : option dec;
  f_oid : option Z;
  f_received_ms : Z;
  f_epoch : Z;
  is_snapshot : bool;
}.

Definition fill_id : Type := string * string * string.

Definition identity (f : FillRecord) : fill_id := (f_account f, tx_hash f, tid f).

Definition fill_signed_size (f : FillRecord) : dec :=
  if bool_decide (f_side f = "buy") then f_size f else dopp (f_size f).

Record fingerprint := MkFingerprint {
  fp_market : string;
  fp_time_ms : Z;
  fp_side : string;
  fp_size : dec;
  fp_price : dec;
  fp_start : option dec;
  fp_oid : option Z;
}.

Definition fill_fingerprint (r : FillRecord) : fingerprint :=
  MkFingerprint (f_market r) (time_ms r) (f_side r) (f_size r) (f_price r) (start_position r) (f_oid r).

Definition opt_deqb (a b : option dec) : bool :=
  match a, b with
  | Some x, Some y => deqb x y
  | None, None => true
  | _, _ => false
  end.

(** Equality of the tuples: numbers by value. *)
Definition fp_eqb (a b : fingerprint) : bool :=
  bool_decide (fp_market a = fp_market b) && (fp_time_ms a =? fp_time_ms b) && bool_decide (fp_side a = fp_side b) &&
  deqb (fp_size a) (fp_size b) && deqb (fp_price a) (fp_price b) && opt_deqb (fp_start a) (fp_start b) &&
  bool_decide (fp_oid a = fp_oid b).

Inductive component := POSITIONS | COLLATERAL | PERP_EQUITY | OPEN_ORDERS | FILLS | TWAP_FILLS.

#[export] Instance component_eq_dec : EqDecision component.
Proof. solve_decision. Defined.

Definition component_name (c : component) : string :=
  match c with
  | POSITIONS => "positions" | COLLATERAL => "collateral" | PERP_EQUITY => "perp_equity"
  | OPEN_ORDERS => "open_orders" | FILLS => "fills" | TWAP_FILLS => "twap_fills"
  end.

Definition UNIFIED_SOURCE_COMPONENTS : list component := [POSITIONS; COLLATERAL; FILLS; TWAP_FILLS].
Definition STANDARD_SOURCE_COMPONENTS : list component := [POSITIONS; PERP_EQUITY; FILLS; TWAP_FILLS].
Definition FOLLOWER_COMPONENTS : list component := [POSITIONS; COLLATERAL; OPEN_ORDERS; FILLS].

Record MutableAccount := MkAccount {
  positions : dict Position;
  collateral : option UsdcCollateral;
  perp_equity_by_dex : dict dec;
  open_orders : list OpenOrder;
  fills : list FillRecord;
  component_received_ms : dict Z;
  component_observed_ms : dict Z;
  position_observed_ms_by_dex : dict Z;
}.

Definition empty_account : MutableAccount := MkAccount [] None [] [] [] [] [] [].

Inductive role := SOURCE | FOLLOWER.

#[export] Instance role_eq_dec : EqDecision role.
Proof. solve_decision. Defined.

Record AccountStream := MkStream {
  source_address : string;
  follower_address : string;
  fill_dedupe_capacity : nat;
  source_account_mode : string;
  source_scope : option (gset string);
  follower_scope : option (gset string);
  accept_source_markets_outside_scope : bool;
  source_dexes : gset string;
  connection_epoch : Z;
  last_connection_activity_ms : Z;
  source_state : MutableAccount;
  follower_state : MutableAccount;
  fill_fingerprints : list (fill_id * fingerprint);
}.

(** ** Field updates *)

Section Updates.
Variable a : MutableAccount.

Definition set_positions v := MkAccount v (collateral a) (perp_equity_by_dex a) (open_orders a) (fills a)
  (component_received_ms a) (component_observed_ms a) (position_observed_ms_by_dex a).
Definition set_collateral v := MkAccount (positions a) v (perp_equity_by_dex a) (open_orders a) (fills a)
  (component_received_ms a) (component_observed_ms a) (position_observed_ms_by_dex a).
Definition set_perp_equity v := MkAccount (positions a) (collateral a) v (open_orders a) (fills a)
  (component_received_ms a) (component_observed_ms a) (position_observed_ms_by_dex a).
Definition set_open_orders v := MkAccount (positions a) (collateral a) (perp_equity_by_dex a) v (fills a)
  (component_received_ms a) (component_observed_ms a) (position_observed_ms_by_dex a).
Definition set_fills v := MkAccount (positions a) (collateral a) (perp_equity_by_dex a) (open_orders a) v
  (component_received_ms a) (component_observed_ms a) (position_observed_ms_by_dex a).
Definition set_received v := MkAccount (positions a) (collateral a) (perp_equity_by_dex a) (open_orders a) (fills a)
  v (component_observed_ms a) (position_observed_ms_by_dex a).
Definition set_observed v := MkAccount (positions a) (collateral a) (perp_equity_by_dex a) (open_orders a) (fills a)
  (component_received_ms a) v (position_observed_ms_by_dex a).
Definition set_observed_by_dex v := MkAccount (positions a) (collateral a) (perp_equity_by_dex a) (open_orders a)
  (fills a) (component_received_ms a) (component_observed_ms a) v.
End Updates.

(** [component_received_ms[c] = received; component_observed_ms[c] = observed] *)
Definition stamp (c : component) (received observed : Z) (a : MutableAccount) : MutableAccount :=
  set_observed (set_received a (dict_set (component_name c) received (component_received_ms a)))
    (dict_set (component_name c) observed (component_observed_ms a)).

Definition has_component (c : component) (a : MutableAccount) : bool :=
  dict_mem (component_name c) (component_received_ms a).

Definition account_state (r : role) (s : AccountStream) : MutableAccount :=
  match r with SOURCE => source_state s | FOLLOWER => follower_state s end.

Definition on_account (r : role) (f : MutableAccount -> MutableAccount) (s : AccountStream) : AccountStream :=
  MkStream (source_address s) (follower_address s) (fill_dedupe_capacity s) (source_account_mode s) (source_scope s)
    (follower_scope s) (accept_source_markets_outside_scope s) (source_dexes s) (connection_epoch s)
    (last_connection_activity_ms s)
    (match r with SOURCE => f (source_state s) | FOLLOWER => source_state s end)
    (match r with SOURCE => follower_state s | FOLLOWER => f (follower_state s) end)
    (fill_fingerprints s).

Definition set_fingerprints (v : list (fill_id * fingerprint)) (s : AccountStream) : AccountStream :=
  MkStream (source_address s) (follower_address s) (fill_dedupe_capacity s) (source_account_mode s) (source_scope s)
    (follower_scope s) (accept_source_markets_outside_scope s) (source_dexes s) (connection_epoch s)
    (last_connection_activity_ms s) (source_state s) (follower_state s) v.

Definition set_activity (v : Z) (s : AccountStream) : AccountStream :=
  MkStream (source_address s) (follower_address s) (fill_dedupe_capacity s) (source_account_mode s) (source_scope s)
    (follower_scope s) (accept_source_markets_outside_scope s) (source_dexes s) (connection_epoch s) v
    (source_state s) (follower_state s) (fill_fingerprints s).

(** * Construction and scope *)

(** [_market_scope] *)
Definition market_scope (markets : option (list string)) : res (option (gset string)) :=
  match markets with
  | None => Ok None
  | Some l => c ← map_res (fun m => canonical_market_symbol (JStr m)) l; Ok (Some (list_to_set c))
  end.

Definition dex_of (market : string) : res string := market_dex (JStr market).

Definition scope_dexes (scope : option (gset string)) : res (gset string) :=
  d ← map_res dex_of (elements (default ∅ scope)); Ok (list_to_set d).

Definition scope_missing (mode : string) (scope : option (gset string)) : bool :=
  bool_decide (mode = "standard") && bool_decide (default ∅ scope = ∅).

Definition make_stream (source follower source_account_mode : string) (source_markets follower_markets : option (list string))
    (accept : bool) (capacity : Z) : res AccountStream :=
  src ← account_of source;
  fol ← account_of follower;
  if bool_decide (src = fol) then stream_error "source and follower accounts must be different" else
  if capacity <? 1 then stream_error "fill dedupe capacity must be positive" else
  let mode := py_lower (py_strip source_account_mode) in
  if negb (bool_decide (mode ∈ ["standard"; "unified"]))
  then stream_error "source account mode must be standard or unified" else
  ss ← market_scope source_markets;
  fs ← market_scope follower_markets;
  if scope_missing mode ss then stream_error "standard source requires explicit perp markets" else
  dexes ← scope_dexes ss;
  Ok (MkStream src fol (Z.to_nat capacity) mode ss fs accept dexes 0 0 empty_account empty_account []).

Definition forget_perp_equity (a : MutableAccount) : MutableAccount :=
  MkAccount (positions a) (collateral a) [] (open_orders a) (fills a)
    (filter (fun kv => kv.1 <> "perp_equity") (component_received_ms a))
    (filter (fun kv => kv.1 <> "perp_equity") (component_observed_ms a)) (position_observed_ms_by_dex a).

Definition set_scope (ss fs : option (gset string)) (dexes : gset string) (s : AccountStream) : AccountStream :=
  MkStream (source_address s) (follower_address s) (fill_dedupe_capacity s) (source_account_mode s) ss fs
    (accept_source_markets_outside_scope s) dexes (connection_epoch s) (last_connection_activity_ms s)
    (source_state s) (follower_state s) (fill_fingerprints s).

Definition set_market_scope (source_markets follower_markets : option (list string)) : ST AccountStream unit :=
  let! ss := jlift (market_scope source_markets) in
  let! mode := jquery (fun s => Ok (source_account_mode s)) in
  if scope_missing mode ss then jraise (AccountStreamError "standard source requires explicit perp markets") else
  let! dexes := jlift (scope_dexes ss) in
  let! old := jquery (fun s => Ok (source_dexes s)) in
  let! fs := jlift (market_scope follower_markets) in
  let! _ := jmodify (set_scope ss fs dexes) in
  if bool_decide (mode = "standard") && negb (bool_decide (dexes = old))
  then jmodify (on_account SOURCE forget_perp_equity) else jret tt.

(** * What a reader sees *)

Record AccountSnapshot := MkSnapshot {
  sn_account : string;
  sn_epoch : Z;
  sn_state : MutableAccount;
  required_components : list component;
  sn_activity_ms : Z;
}.

Definition baseline_complete (v : AccountSnapshot) : bool :=
  forallb (fun c => has_component c (sn_state v)) (required_components v).

Definition perp_equity_total (v : AccountSnapshot) : dec := dsum (dict_values (perp_equity_by_dex (sn_state v))).

Definition snapshot (r : role) (s : AccountStream) : AccountSnapshot :=
  match r with
  | SOURCE => MkSnapshot (source_address s) (connection_epoch s) (source_state s)
      (if bool_decide (source_account_mode s = "standard") then STANDARD_SOURCE_COMPONENTS else UNIFIED_SOURCE_COMPONENTS)
      (last_connection_activity_ms s)
  | FOLLOWER => MkSnapshot (follower_address s) (connection_epoch s) (follower_state s) FOLLOWER_COMPONENTS
      (last_connection_activity_ms s)
  end.

Definition baseline_ready (s : AccountStream) : bool :=
  baseline_complete (snapshot SOURCE s) && baseline_complete (snapshot FOLLOWER s).

Definition fresh_age (ready : bool) (activity now_ms max_age_ms : Z) : res bool :=
  if max_age_ms <=? 0 then Raise (ValueError "freshness max age must be positive") else
  let age_ms := now_ms - activity in
  Ok (ready && (0 <=? age_ms) && (age_ms <=? max_age_ms)).

Definition snapshot_is_fresh (v : AccountSnapshot) (now_ms max_age_ms : Z) : res bool :=
  fresh_age (baseline_complete v) (sn_activity_ms v) now_ms max_age_ms.

Definition is_fresh (now_ms max_age_ms : Z) (s : AccountStream) : res bool :=
  fresh_age (baseline_ready s) (last_connection_activity_ms s) now_ms max_age_ms.

Record AccountStreamUpdate := MkUpdate {
  up_channel : string;
  up_account : string;
  up_role : role;
  up_epoch : Z;
  initial_snapshot : bool;
  up_baseline_ready : bool;
  new_fills : list FillRecord;
  duplicate_fills : Z;
}.

(** * Connections *)

Definition begin_connection (received_ms : Z) : ST AccountStream Z := fun s =>
  if received_ms <? 0 then (s, stream_error "connection timestamp cannot be negative") else
  (MkStream (source_address s) (follower_address s) (fill_dedupe_capacity s) (source_account_mode s) (source_scope s)
     (follower_scope s) (accept_source_markets_outside_scope s) (source_dexes s) (connection_epoch s + 1) received_ms
     empty_account empty_account (fill_fingerprints s), Ok (connection_epoch s + 1)).

Definition validate_frame (epoch received_ms : Z) (s : AccountStream) : res unit :=
  if connection_epoch s =? 0 then stream_error "begin_connection must be called before applying frames" else
  if negb (epoch =? connection_epoch s) then stream_error "stale connection epoch" else
  if received_ms <=? 0 then stream_error "frame receive timestamp must be positive" else Ok tt.

Definition note_activity (received_ms : Z) : ST AccountStream unit :=
  jmodify (fun s => set_activity (Z.max (last_connection_activity_ms s) received_ms) s).

Definition note_connection_activity (epoch received_ms : Z) : ST AccountStream unit :=
  let! _ := jquery (validate_frame epoch received_ms) in note_activity received_ms.

(** [_role_for_data] *)
Definition role_for_data (data : json) (s : AccountStream) : res (string * role * list (string * json)) :=
  match data with
  | JObj o =>
      account ← account_of (py_str (json_or (json_or (obj_field "user" o) (obj_field "userAddress" o)) (JStr "")));
      if bool_decide (account = source_address s) then Ok (account, SOURCE, o) else
      if bool_decide (account = follower_address s) then Ok (account, FOLLOWER, o) else
      stream_error "frame belongs to unconfigured account"
  | _ => stream_error "account frame data must be an object"
  end.

(** [_base_update] *)
Definition base_update (channel account : string) (r : role) (initial : bool) (new : list FillRecord) (dups : Z)
    : ST AccountStream AccountStreamUpdate :=
  jquery (fun s => Ok (MkUpdate channel account r (connection_epoch s) initial (baseline_ready s) new dups)).

(** * Position frames *)

Definition zmax (l : list Z) : res Z :=
  match l with [] => Raise (ValueError "max() arg is an empty sequence") | x :: t => Ok (fold_left Z.max t x) end.
Definition zmin (l : list Z) : res Z :=
  match l with [] => Raise (ValueError "min() arg is an empty sequence") | x :: t => Ok (fold_left Z.min t x) end.

(** [d[k]] *)
Definition dict_at {V} (k : string) (d : dict V) : res V :=
  match dict_get k d with Some v => Ok v | None => Raise (KeyError k) end.

Record frame_positions := MkFramePositions {
  fp_all : dict Position;
  fp_by_dex : dict (dict Position);
  fp_observed : dict Z;
}.

Definition add_position (acc : dict Position) (mp : string * Position) : res (dict Position) :=
  if dict_mem mp.1 acc then stream_error "duplicate canonical position across DEX states"
  else Ok (dict_set mp.1 mp.2 acc).

Definition dex_positions_step (states : dict (list (string * json))) (acc : frame_positions) (dexs : string)
    : res frame_positions :=
  dex_state ← dict_at dexs states;
  observed_ms ← positive_int (obj_field "time" dex_state);
  dex_positions ← parse_clearinghouse_positions dex_state observed_ms dexs;
  all ← fold_res add_position dex_positions (fp_all acc);
  Ok (MkFramePositions all (dict_set dexs dex_positions (fp_by_dex acc)) (dict_set dexs observed_ms (fp_observed acc))).

Definition frame_positions_of (states : dict (list (string * json))) : res frame_positions :=
  fold_res (dex_positions_step states) (dex_sorted (dict_keys states)) (MkFramePositions [] [] []).

(** The sizes that are not zero of the positions [p] accepts. *)
Definition sizes_step (p : string -> res bool) (acc : dict dec) (mp : string * Position) : res (dict dec) :=
  on_dex ← p mp.1;
  Ok (if on_dex && negb (deqb (pos_size mp.2) dzero) then dict_set mp.1 (pos_size mp.2) acc else acc).

Definition sizes_of (p : string -> res bool) (l : dict Position) : res (dict dec) := fold_res (sizes_step p) l [].

Definition on_dex (dexs market : string) : res bool := d ← dex_of market; Ok (bool_decide (d = dexs)).

(** Equality of two dicts of numbers. *)
Definition sizes_eqb (a b : dict dec) : bool :=
  (List.length a =? List.length b)%nat &&
  forallb (fun kv => match dict_get kv.1 b with Some v => deqb kv.2 v | None => false end) a.

(** One DEX of the frame against what the stream knows of it. *)
Definition check_dex (state : MutableAccount) (f : frame_positions) (dp : string * dict Position) : res unit :=
  let '(dexs, dex_positions) := dp in
  observed_ms ← dict_at dexs (fp_observed f);
  let prior_observed := default 0 (dict_get dexs (position_observed_ms_by_dex state)) in
  if observed_ms <? prior_observed then stream_error "positions snapshot moved backwards in exchange time" else
  prior_sizes ← sizes_of (on_dex dexs) (positions state);
  next_sizes ← sizes_of (fun _ => Ok true) dex_positions;
  if negb (prior_observed =? 0) && (observed_ms =? prior_observed) && negb (sizes_eqb next_sizes prior_sizes)
  then stream_error "same-time positions snapshot contradicts current fill truth" else Ok tt.

Definition check_dexes (state : MutableAccount) (f : frame_positions) : res unit :=
  fold_res (fun _ dp => check_dex state f dp) (fp_by_dex f) tt.

Definition nonflat_step (dexs : string) (acc : bool) (mp : string * Position) : res bool :=
  if acc then Ok true else on ← on_dex dexs mp.1; Ok (on && negb (deqb (pos_size mp.2) dzero)).

(** The account value of one DEX of a Standard source. *)
Definition equity_step (states : dict (list (string * json))) (f : frame_positions) (acc : dict dec) (dexs : string)
    : res (dict dec) :=
  match dict_get dexs states with
  | None => stream_error "standard source is missing a relevant DEX"
  | Some raw_state =>
      match obj_field "marginSummary" raw_state with
      | JObj summary =>
          match obj_field "accountValue" summary with
          | JNull => stream_error "standard source DEX is missing accountValue"
          | v =>
              equity ← parse_decimal v;
              if dnegative equity then stream_error "standard source DEX has negative accountValue" else
              dex_nonflat ← fold_res (nonflat_step dexs) (fp_all f) false;
              if dex_nonflat && dleb equity dzero then stream_error "standard source DEX is nonflat with no equity" else
              Ok (dict_set dexs equity acc)
          end
      | _ => stream_error "standard source DEX is missing accountValue"
      end
  end.

Definition standard_source (r : role) (s : AccountStream) : bool :=
  bool_decide (r = SOURCE) && bool_decide (source_account_mode s = "standard").

Definition perp_equity_of (r : role) (states : dict (list (string * json))) (f : frame_positions) (s : AccountStream)
    : res (dict dec) :=
  if standard_source r s then
    equity ← fold_res (equity_step states f) (elements (source_dexes s)) [];
    if dleb (dsum (dict_values equity)) dzero then stream_error "standard source relevant DEX equity is not positive"
    else Ok equity
  else Ok [].

Definition dict_update {V} (d new : dict V) : dict V := fold_left (fun d kv => dict_set kv.1 kv.2 d) new d.

(** [_apply_positions] *)
Definition apply_positions (message : list (string * json)) (received_ms : Z) : ST AccountStream AccountStreamUpdate :=
  let! who := jquery (role_for_data (obj_field "data" message)) in
  let '(account, r, _) := who in
  let! parsed := jlift (parse_all_dexs_message message account received_ms) in
  let! f := jlift (frame_positions_of (clearinghouse_states parsed)) in
  let! _ := jquery (fun s => check_dexes (account_state r s) f) in
  let! equity := jquery (perp_equity_of r (clearinghouse_states parsed) f) in
  let! initial := jquery (fun s => Ok (negb (has_component POSITIONS (account_state r s)))) in
  let! standard := jquery (fun s => Ok (standard_source r s)) in
  let! dexes := jquery (fun s => Ok (elements (source_dexes s))) in
  let! _ := jmodify (on_account r (fun a => set_positions a (fp_all f))) in
  let! _ := (if standard then
    let! _ := jmodify (on_account r (fun a => set_perp_equity a equity)) in
    let! relevant := jlift (map_res (fun d => dict_at d (fp_observed f)) dexes) in
    let! oldest := jlift (zmin relevant) in
    jmodify (on_account r (stamp PERP_EQUITY received_ms oldest))
  else jret tt) in
  let! newest := jlift (zmax (dict_values (fp_observed f))) in
  let! _ := jmodify (on_account r (stamp POSITIONS received_ms newest)) in
  let! _ := jmodify (on_account r (fun a =>
    set_observed_by_dex a (dict_update (position_observed_ms_by_dex a) (fp_observed f)))) in
  base_update "allDexsClearinghouseState" account r initial [] 0.

(** * Spot frames *)

Definition token_zero_step (acc : list (list (string * json))) (row : json) : res (list (list (string * json))) :=
  match row with
  | JObj o =>
      match obj_field "token" o with
      | JNull => Ok acc
      | JBool _ => stream_error "spotState balance has invalid token"
      | raw_token =>
          match int_text raw_token with
          | Some token => Ok (if token =? 0 then acc ++ [o] else acc)
          | None => stream_error "spotState balance has invalid token"
          end
      end
  | _ => stream_error "spotState balance must be an object"
  end.

(** The total and the hold of the one USDC balance. *)
Definition usdc_balance (balances : list json) : res (dec * dec) :=
  token_zero ← fold_res token_zero_step balances [];
  match token_zero with
  | [usdc] =>
      if negb (bool_decide (py_upper (py_strip (str_or_empty (obj_field "coin" usdc))) = "USDC"))
      then stream_error "spot token 0 is not identified as USDC" else
      match obj_get "total" usdc with
      | None => stream_error "spot token-0 USDC balance is missing total"
      | Some raw =>
          total ← parse_decimal raw;
          hold ← parse_decimal (default (JStr "0") (obj_get "hold" usdc));
          if dnegative total || dnegative hold || dltb total hold
          then stream_error "spot token-0 USDC total/hold values are inconsistent" else
          Ok (total, hold)
      end
  | _ => stream_error "spotState must contain exactly one token-0 balance"
  end.

(** [_apply_spot] *)
Definition apply_spot (message : list (string * json)) (received_ms : Z) : ST AccountStream AccountStreamUpdate :=
  let! who := jquery (role_for_data (obj_field "data" message)) in
  let '(account, r, data) := who in
  match default (JObj data) (obj_get "spotState" data) with
  | JObj payload =>
      match obj_field "balances" payload with
      | JList balances =>
          let! usdc := jlift (usdc_balance balances) in
          let '(total, hold) := usdc in
          let! observed_ms := jlift (positive_int
            (default (default (JInt received_ms) (obj_get "time" data)) (obj_get "time" payload))) in
          let! prior := jquery (fun s => Ok (default 0 (dict_get (component_name COLLATERAL)
            (component_observed_ms (account_state r s))))) in
          if observed_ms <? prior
          then jraise (AccountStreamError "collateral snapshot moved backwards in exchange time") else
          let! initial := jquery (fun s => Ok (negb (has_component COLLATERAL (account_state r s)))) in
          let! _ := jmodify (on_account r (fun a => set_collateral a
            (Some (MkCollateral total hold (dsub total hold) observed_ms received_ms)))) in
          let! _ := jmodify (on_account r (stamp COLLATERAL received_ms observed_ms)) in
          base_update "spotState" account r initial [] 0
      | _ => jraise (AccountStreamError "spotState balances must be a list")
      end
  | _ => jraise (AccountStreamError "spotState payload must be an object")
  end.

(** * Orders *)

(** [_assert_order_identity_available] *)
Definition order_available (orders : list OpenOrder) (candidate : OpenOrder) : res unit :=
  if existsb (fun p => bool_decide (is_Some (oo_oid candidate)) && bool_decide (oo_oid candidate = oo_oid p) ||
                       bool_decide (is_Some (oo_cloid candidate)) && bool_decide (oo_cloid candidate = oo_cloid p)) orders
  then stream_error "duplicate open-order oid or cloid" else Ok tt.

(** [""] for [None] *)
Definition blank_null (v : json) : json := match v with JNull => JStr "" | _ => v end.

(** One row of [_parse_order_rows]. *)
Definition parse_order_row (outer : list (string * json)) (observed_ms : Z) (result : list OpenOrder) (raw : json)
    : res (list OpenOrder) :=
  match raw with
  | JObj row =>
      let explicit_dex := blank_null (default (default (JStr "") (obj_get "dex" outer)) (obj_get "dex" row)) in
      match explicit_dex with
      | JStr _ =>
          coin ← qualify_market_symbol explicit_dex (obj_field "coin" row);
          parsed ← parse_open_orders (JList [JObj (dict_set "coin" (JStr coin) row)]) observed_ms "";
          match parsed with
          | order :: _ => order_available result order ;; Ok (result ++ [order])
          | [] => Raise (KeyError "list index out of range")
          end
      | _ => stream_error "open order DEX must be a string"
      end
  | _ => stream_error "open order must be an object"
  end.

Definition parse_order_rows (rows : list json) (outer : list (string * json)) (observed_ms : Z) : res (list OpenOrder) :=
  fold_res (parse_order_row outer observed_ms) rows [].

(** [_apply_open_orders] *)
Definition apply_open_orders (message : list (string * json)) (received_ms : Z) : ST AccountStream AccountStreamUpdate :=
  let! who := jquery (role_for_data (obj_field "data" message)) in
  let '(account, r, data) := who in
  if negb (bool_decide (r = FOLLOWER))
  then jraise (AccountStreamError "openOrders is only subscribed for the follower") else
  match obj_field "orders" data with
  | JList rows =>
      let! orders := jlift (parse_order_rows rows data received_ms) in
      let! initial := jquery (fun s => Ok (negb (has_component OPEN_ORDERS (account_state r s)))) in
      let! _ := jmodify (on_account r (fun a => set_open_orders a orders)) in
      let! _ := jmodify (on_account r (stamp OPEN_ORDERS received_ms received_ms)) in
      base_update "openOrders" account r initial [] 0
  | _ => jraise (AccountStreamError "openOrders payload must contain an orders list")
  end.

Definition is_hex_cloid (s : string) : bool := cloid_re s.

(** [_order_identity] *)
Definition order_identity (order : list (string * json)) : res (option Z * option string) :=
  let raw_oid := obj_field "oid" order in
  oid ← (if json_blank raw_oid then Ok None else Some <$> positive_int raw_oid);
  let raw_cloid := obj_field "cloid" order in
  cloid ← (if json_blank raw_cloid then Ok None else
           match raw_cloid with
           | JStr s =>
               let c := py_lower (py_strip s) in
               if is_hex_cloid c then Ok (Some c) else stream_error "orderUpdates row has invalid cloid"
           | _ => stream_error "orderUpdates cloid must be a string"
           end);
  if bool_decide (oid = None) && bool_decide (cloid = None)
  then stream_error "orderUpdates row is missing oid and cloid" else Ok (oid, cloid).

Definition terminal_order_status (status : string) : bool :=
  bool_decide (status ∈ ["filled"; "canceled"; "cancelled"; "triggered"; "scheduledcancel"]) ||
  (ends_with "canceled" status || ends_with "cancelled" status || ends_with "rejected" status).

(** The row is about this order. *)
Definition same_identity (oid : option Z) (cloid : option string) (o : OpenOrder) : bool :=
  bool_decide (is_Some oid) && bool_decide (oo_oid o = oid) || bool_decide (is_Some cloid) && bool_decide (oo_cloid o = cloid).

(** [==] of two orders: numbers by value. *)
Definition order_eqb (a b : OpenOrder) : bool :=
  bool_decide (oo_coin a = oo_coin b) && bool_decide (oo_side a = oo_side b) && deqb (oo_size a) (oo_size b) &&
  opt_deqb (oo_price a) (oo_price b) && bool_decide (oo_oid a = oo_oid b) && bool_decide (oo_cloid a = oo_cloid b) &&
  Bool.eqb (oo_reduce_only a) (oo_reduce_only b) && (oo_updated_ms a =? oo_updated_ms b).

(** [raw_user and _account(str(raw_user)) != follower] *)
Definition check_follower (o : list (string * json)) (follower : string) : res unit :=
  let raw_user := json_or (obj_field "user" o) (obj_field "userAddress" o) in
  if json_truthy raw_user then
    a ← account_of (py_str raw_user);
    if bool_decide (a = follower) then Ok tt else stream_error "orderUpdates belongs to a non-follower account"
  else Ok tt.

Definition order_update_step (follower : string) (acc : list OpenOrder * Z) (update : json) : res (list OpenOrder * Z) :=
  let '(next_orders, latest) := acc in
  match update with
  | JObj up =>
      check_follower up follower ;;
      match obj_field "order" up with
      | JObj order =>
          let status := py_lower (py_strip (str_or_empty (obj_field "status" up))) in
          if is_empty status then stream_error "orderUpdates row is missing status" else
          status_ms ← positive_int (obj_field "statusTimestamp" up);
          let latest' := Z.max latest status_ms in
          '(oid, cloid) ← order_identity order;
          let matching := filter (fun o => same_identity oid cloid o = true) next_orders in
          if (1 <? List.length matching)%nat
          then stream_error "orderUpdates oid/cloid identify different open orders" else
          let rest := filter (fun o => existsb (order_eqb o) matching = false) next_orders in
          if bool_decide (status = "open") then
            parsed ← parse_order_rows [JObj order] up status_ms;
            match parsed with
            | p :: _ => order_available rest p ;; Ok (rest ++ [p], latest')
            | [] => Raise (KeyError "list index out of range")
            end
          else if terminal_order_status status then Ok (rest, latest')
          else stream_error "orderUpdates row has unknown lifecycle status"
      | _ => stream_error "orderUpdates row is missing order"
      end
  | _ => stream_error "orderUpdates row must be an object"
  end.

(** [_apply_order_updates] *)
Definition apply_order_updates (message : list (string * json)) (received_ms : Z)
    : ST AccountStream AccountStreamUpdate :=
  let! follower := jquery (fun s => Ok (follower_address s)) in
  let! updates := jlift (match obj_field "data" message with
                         | JObj o => check_follower o follower ;; Ok (default (obj_field "orders" o) (obj_get "updates" o))
                         | raw_data => Ok raw_data
                         end) in
  match updates with
  | JList rows =>
      let! orders := jquery (fun s => Ok (open_orders (follower_state s))) in
      let! next := jlift (fold_res (order_update_step follower) rows (orders, received_ms)) in
      let! _ := jmodify (on_account FOLLOWER (fun a => set_open_orders a next.1)) in
      let! has := jquery (fun s => Ok (has_component OPEN_ORDERS (follower_state s))) in
      let! _ := (if has then jmodify (on_account FOLLOWER (stamp OPEN_ORDERS received_ms next.2)) else jret tt) in
      base_update "orderUpdates" follower FOLLOWER false [] 0
  | _ => jraise (AccountStreamError "orderUpdates data must be a list")
  end.

(** * Fills *)

(** [_parse_fill] *)
Definition parse_fill (row : list (string * json)) (account : string) (received_ms epoch : Z) (snapshot : bool)
    : res FillRecord :=
  market ← canonical_market_symbol (obj_field "coin" row);
  match obj_field "hash" row with
  | JStr raw_hash =>
      if is_empty (py_strip raw_hash) then stream_error "userFills row is missing transaction hash" else
      let tx_hash := py_lower (py_strip raw_hash) in
      let raw_tid := obj_field "tid" row in
      if json_blank raw_tid || (match raw_tid with JBool _ => true | _ => false end)
      then stream_error "userFills row is missing trade id" else
      let tid := py_strip (py_str raw_tid) in
      if is_empty tid then stream_error "userFills row is missing trade id" else
      let raw_side := py_lower (py_strip (str_or_empty (obj_field "side" row))) in
      side ← (if bool_decide (raw_side ∈ ["b"; "buy"]) then Ok "buy"
              else if bool_decide (raw_side ∈ ["a"; "s"; "sell"]) then Ok "sell"
              else stream_error "userFills row has invalid side");
      match obj_get "sz" row, obj_get "px" row with
      | Some sz, Some px =>
          size ← parse_decimal sz;
          price ← parse_decimal px;
          if dleb size dzero || dleb price dzero
          then stream_error "userFills size and price must be positive" else
          let start_raw := obj_field "startPosition" row in
          start ← (if json_blank start_raw then Ok None else Some <$> parse_decimal start_raw);
          let raw_oid := obj_field "oid" row in
          oid ← (if json_blank raw_oid then Ok None else Some <$> positive_int raw_oid);
          time ← positive_int (obj_field "time" row);
          Ok (MkFill account market tx_hash tid time side size price start oid received_ms epoch snapshot)
      | _, _ => stream_error "userFills row is missing size or price"
      end
  | _ => stream_error "userFills row is missing transaction hash"
  end.

(** A Spot coin of the account-wide feed. *)
Definition spot_coin (raw_coin : json) : bool :=
  match raw_coin with JStr s => starts_with "@" (py_strip s) | _ => false end.

Definition out_of_scope (r : role) (scope : option (gset string)) (accept : bool) (market : string) : bool :=
  match scope with
  | None => false
  | Some sc => negb (bool_decide (market ∈ sc)) && negb (bool_decide (r = SOURCE) && accept)
  end.

Definition fill_step (r : role) (account : string) (received_ms : Z) (snapshot : bool) (s : AccountStream)
    (records : list FillRecord) (row : json) : res (list FillRecord) :=
  match row with
  | JObj o =>
      if spot_coin (obj_field "coin" o) then Ok records else
      market ← canonical_market_symbol (obj_field "coin" o);
      if out_of_scope r (match r with SOURCE => source_scope s | FOLLOWER => follower_scope s end)
           (accept_source_markets_outside_scope s) market then Ok records else
      record ← parse_fill o account received_ms (connection_epoch s) snapshot;
      Ok (records ++ [record])
  | _ => stream_error "userFills row must be an object"
  end.

(** Dicts keyed by the identity of a fill, in the order of insertion. *)
Section Identified.
Context {V : Type}.

Fixpoint id_get (k : fill_id) (d : list (fill_id * V)) : option V :=
  match d with
  | [] => None
  | (k', v) :: t => if decide (k = k') then Some v else id_get k t
  end.

Fixpoint id_set (k : fill_id) (v : V) (d : list (fill_id * V)) : list (fill_id * V) :=
  match d with
  | [] => [(k, v)]
  | (k', v') :: t => if decide (k = k') then (k, v) :: t else (k', v') :: id_set k v t
  end.

(** [move_to_end] *)
Definition move_to_end (k : fill_id) (d : list (fill_id * V)) : list (fill_id * V) :=
  match id_get k d with
  | Some v => filter (fun kv => kv.1 <> k) d ++ [(k, v)]
  | None => d
  end.
End Identified.

Definition unique_step (unique : list (fill_id * FillRecord)) (record : FillRecord) : res (list (fill_id * FillRecord)) :=
  match id_get (identity record) unique with
  | Some prior =>
      if negb (fp_eqb (fill_fingerprint prior) (fill_fingerprint record))
      then stream_error "conflicting duplicate fill identity in frame" else Ok unique
  | None => Ok (unique ++ [(identity record, record)])
  end.

(** The records of the frame that the stream has not seen, and how many it has. *)
Definition new_step (seen : list (fill_id * fingerprint)) (acc : list FillRecord * Z) (ir : fill_id * FillRecord)
    : res (list FillRecord * Z) :=
  let '(new, dups) := acc in
  match id_get ir.1 seen with
  | Some prior =>
      if negb (fp_eqb prior (fill_fingerprint ir.2)) then stream_error "fill identity changed payload"
      else Ok (new, dups + 1)
  | None => Ok (new ++ [ir.2], dups)
  end.

(** One fill of [_validated_fill_positions]. *)
Definition fill_position_step (next : dict Position) (f : FillRecord) : res (dict Position) :=
  match start_position f with
  | None => stream_error "live fill is missing startPosition continuity"
  | Some start =>
      let end_position := dadd start (fill_signed_size f) in
      let prior := dict_get (f_market f) next in
      let current_size := match prior with None => dzero | Some p => pos_size p end in
      if deqb current_size end_position then Ok next else
      if negb (deqb current_size start) then stream_error "live fill startPosition does not match current" else
      Ok (dict_set (f_market f)
            (MkPosition (f_market f) end_position
               (match prior with None => Some (Fin (f_price f)) | Some p => pos_entry_px p end)
               (match prior with None => None | Some p => pos_leverage p end) (time_ms f)) next)
  end.

Definition validated_fill_positions (positions : dict Position) (fills : list FillRecord) : res (dict Position) :=
  fold_res fill_position_step fills positions.

(** The dedupe state after a frame: new identities enter at the end, seen ones move
    there, and the oldest leave above the capacity. *)
Definition remember (new : list FillRecord) (ids : list fill_id) (capacity : nat) (seen : list (fill_id * fingerprint))
    : list (fill_id * fingerprint) :=
  let seen := fold_left (fun d r => move_to_end (identity r) (id_set (identity r) (fill_fingerprint r) d)) new seen in
  let seen := fold_left (fun d k => move_to_end k d) ids seen in
  drop (List.length seen - capacity) seen.

(** [l[-n:]] for a positive [n]. *)
Definition last_n {A} (n : nat) (l : list A) : list A := drop (List.length l - n) l.

Definition bump_dex (observed : dict Z) (df : string * FillRecord) : dict Z :=
  dict_set df.1 (Z.max (default 0 (dict_get df.1 observed)) (time_ms df.2)) observed.

(** The positions a live frame leads to become current. *)
Definition commit_positions (r : role) (next : dict Position) (new : list FillRecord) (received_ms : Z)
    : ST AccountStream unit :=
  let! _ := jmodify (on_account r (fun a => set_positions a next)) in
  match new with
  | [] => jret tt
  | _ =>
      let! _ := jmodify (on_account r (fun a =>
        stamp POSITIONS received_ms
          (fold_left Z.max (time_ms <$> new) (default 0 (dict_get (component_name POSITIONS) (component_observed_ms a)))) a)) in
      let! dexes := jlift (map_res (fun f => dex_of (f_market f)) new) in
      jmodify (on_account r (fun a =>
        set_observed_by_dex a (fold_left bump_dex (zip dexes new) (position_observed_ms_by_dex a))))
  end.

Definition merge_fills (snapshot : bool) (unique : list (fill_id * FillRecord)) (new : list FillRecord) (capacity : nat)
    (a : MutableAccount) : MutableAccount :=
  if snapshot && negb (has_component FILLS a || has_component TWAP_FILLS a)
  then set_fills a (last_n capacity unique.*2)
  else set_fills a (last_n capacity (fills a ++ new)).

(** [data.get("isSnapshot")] against what the connection already has. *)
Definition snapshot_flag (raw : json) (has_baseline : bool) : res bool :=
  match raw with
  | JBool b => if negb b && negb has_baseline
               then stream_error "live fills arrived before the initial fill snapshot" else Ok b
  | JNull => if has_baseline then Ok false
             else stream_error "userFills must declare boolean isSnapshot before the initial snapshot"
  | _ => stream_error "userFills must declare boolean isSnapshot before the initial snapshot"
  end.

(** [_apply_fills] *)
Definition apply_fills (data : json) (received_ms : Z) (c : component) (channel : string)
    : ST AccountStream AccountStreamUpdate :=
  let! who := jquery (role_for_data data) in
  let '(account, r, data) := who in
  let! snapshot := jquery (fun s => snapshot_flag (obj_field "isSnapshot" data) (has_component c (account_state r s))) in
  match obj_field "fills" data with
  | JList rows =>
      let! records := jquery (fun s => fold_res (fill_step r account received_ms snapshot s) rows []) in
      let! unique := jlift (fold_res unique_step records []) in
      let duplicates := Z.of_nat (List.length records) - Z.of_nat (List.length unique) in
      let! fresh := jquery (fun s => fold_res (new_step (fill_fingerprints s)) unique ([], duplicates)) in
      let '(new, dups) := fresh in
      let! next := jquery (fun s => if snapshot then Ok None
        else Some <$> validated_fill_positions (positions (account_state r s)) new) in
      let! _ := jmodify (fun s => set_fingerprints (remember new unique.*1 (fill_dedupe_capacity s) (fill_fingerprints s)) s) in
      let! _ := (match next with Some p => commit_positions r p new received_ms | None => jret tt end) in
      let! _ := jmodify (fun s => on_account r (merge_fills snapshot unique new (fill_dedupe_capacity s)) s) in
      let! _ := jmodify (on_account r (stamp c received_ms
        (match zmax (time_ms <$> records) with Ok t => t | Raise _ => received_ms end))) in
      base_update channel account r snapshot (if snapshot then [] else new) dups
  | _ => jraise (AccountStreamError "userFills fills must be a list")
  end.

Definition twap_row (wrapper : json) : res json :=
  match wrapper with
  | JObj o => match obj_field "fill" o with
              | JObj f => Ok (JObj f)
              | _ => stream_error "userTwapSliceFills row must wrap one fill object"
              end
  | _ => stream_error "userTwapSliceFills row must wrap one fill object"
  end.

(** [_apply_twap_fills] *)
Definition apply_twap_fills (message : list (string * json)) (received_ms : Z) : ST AccountStream AccountStreamUpdate :=
  match obj_field "data" message with
  | JObj data =>
      match obj_field "twapSliceFills" data with
      | JList rows =>
          let! fills := jlift (map_res twap_row rows) in
          apply_fills (JObj [("user", obj_field "user" data); ("isSnapshot", obj_field "isSnapshot" data);
                             ("fills", JList fills)]) received_ms TWAP_FILLS "userTwapSliceFills"
      | _ => jraise (AccountStreamError "userTwapSliceFills payload must be a list")
      end
  | _ => jraise (AccountStreamError "userTwapSliceFills data must be an object")
  end.

(** * One frame *)

Definition dispatch (channel : string) (message : list (string * json)) (received_ms : Z)
    : ST AccountStream AccountStreamUpdate :=
  if bool_decide (channel = "allDexsClearinghouseState") then apply_positions message received_ms
  else if bool_decide (channel = "spotState") then apply_spot message received_ms
  else if bool_decide (channel = "openOrders") then apply_open_orders message received_ms
  else if bool_decide (channel = "orderUpdates") then apply_order_updates message received_ms
  else if bool_decide (channel = "userFills") then apply_fills (obj_field "data" message) received_ms FILLS "userFills"
  else if bool_decide (channel = "userTwapSliceFills") then apply_twap_fills message received_ms
  else jraise (AccountStreamError "unsupported account stream channel").

(** [except AccountStreamError: raise] and the conversion of the other errors. *)
Definition frame_error (e : exn) : exn :=
  match e with
  | AccountStreamError _ => e
  | ArithmeticError _ | TypeError _ | UnifiedAccountStateError _ | ValueError _ | MarketIdentityError _
  | MarketStreamError _ =>
      AccountStreamError "invalid frame"
  | _ => e
  end.

Definition guarded {A} (m : ST AccountStream A) : ST AccountStream A := fun s =>
  match m s with
  | (s', Ok a) => (s', Ok a)
  | (s', Raise e) => (s', Raise (frame_error e))
  end.

(** [apply] *)
Definition apply_frame (message : json) (epoch received_ms : Z) : ST AccountStream AccountStreamUpdate :=
  let! _ := jquery (validate_frame epoch received_ms) in
  match message with
  | JObj o =>
      let! update := guarded (dispatch (str_or_empty (obj_field "channel" o)) o received_ms) in
      let! _ := note_activity received_ms in
      jret update
  | _ => jraise (AccountStreamError "account stream message must be an object")
  end.
