(* ===== verification/AccountFacts.v ===== *)
(** Properties of AccountStream.v: a refused frame changes nothing, the account
    state stays consistent, fills are delivered once, and positions follow the
    fills of the venue. *)

From S2P Require Import Prelude PyDecimal DecimalFacts RoundingFacts PyText TextFacts Models Markets MarketFacts AccountParsing FrameErrors AccountStream.
From Stdlib Require Import QArith Qabs Lqa Ascii.

Open Scope Z_scope.

(** * Which errors a frame can raise *)

Abbreviation fails := (fails_in true).

Lemma fails_stream_error {A} msg : fails (@stream_error A msg).
Proof. done. Qed.
#[export] Hint Resolve fails_stream_error : fails.

Lemma fails_account s : fails (account_of s).
Proof. unfold account_of. solve_fails. Qed.

Lemma fails_positive v : fails (positive_int v).
Proof. unfold positive_int. solve_fails. Qed.

#[export] Hint Resolve fails_account fails_positive : fails.

Lemma fails_all_dexs p a t : fails (parse_all_dexs_message p a t).
Proof. unfold parse_all_dexs_message, read_states, dex_entry, dex_pair, state_time. solve_fails. Qed.

Lemma fails_role d s : fails (role_for_data d s).
Proof. unfold role_for_data. solve_fails. Qed.

#[export] Hint Resolve fails_all_dexs fails_role : fails.

(** * The parts of the handlers *)

Lemma parse_open_orders_singleton row t d l :
  parse_open_orders (JList [row]) t d = Ok l -> exists o, l = [o].
Proof.
  unfold parse_open_orders. cbn [mbind res_bind]. intros (acc & H & [= <-])%bind_Ok. cbn [fold_res] in H.
  destruct (open_order_step t d _ row) as [acc'|] eqn:E; [|done]. injection H as <-.
  unfold open_order_step in E. destruct row as [| | | | | |order]; try done.
  repeat (apply bind_Ok in E as (? & _ & E)). destruct (_ && _); [done|].
  destruct (default _ _); try done. injection E as <-. cbn. eauto.
Qed.

Lemma fails_order_row outer t acc v : fails (parse_order_row outer t acc v).
Proof.
  unfold parse_order_row. destruct v as [| | | | | |row]; try done. cbv zeta.
  destruct (blank_null _); try done.
  apply fails_bind; [auto with fails|]. intros coin _. apply fails_bind; [auto with fails|]. intros l Hl.
  apply parse_open_orders_singleton in Hl as [o ->]. unfold order_available. solve_fails.
Qed.
#[export] Hint Resolve fails_order_row : fails.

Lemma fails_order_rows rows outer t : fails (parse_order_rows rows outer t).
Proof. unfold parse_order_rows. solve_fails. Qed.
#[export] Hint Resolve fails_order_rows : fails.

Lemma parse_order_rows_singleton row outer t l : parse_order_rows [row] outer t = Ok l -> exists o, l = [o].
Proof.
  unfold parse_order_rows. cbn [fold_res]. destruct (parse_order_row outer t [] row) as [l'|] eqn:E; [|done].
  intros [= <-]. unfold parse_order_row in E. destruct row as [| | | | | |r]; try done. cbv zeta in E.
  destruct (blank_null _); try done.
  apply bind_Ok in E as (coin & _ & E). apply bind_Ok in E as (p & Hp & E).
  apply parse_open_orders_singleton in Hp as [o ->]. apply bind_Ok in E as (_ & _ & [= <-]). eauto.
Qed.

Lemma fails_order_update follower acc v : fails (order_update_step follower acc v).
Proof.
  unfold order_update_step, check_follower. destruct acc as [next latest]. destruct v as [| | | | | |up]; try done.
  apply fails_bind; [solve_fails|]. intros [] _. destruct (obj_field "order" up) as [| | | | | |order]; try done.
  cbv zeta. destruct (is_empty _); [done|]. apply fails_bind; [auto with fails|]. intros t _.
  apply fails_bind; [unfold order_identity; solve_fails|]. intros [oid cloid] _.
  destruct (_ <? _)%nat; [done|]. destruct (bool_decide _); [|destruct (terminal_order_status _); done].
  apply fails_bind; [auto with fails|]. intros l Hl. apply parse_order_rows_singleton in Hl as [o ->].
  unfold order_available. solve_fails.
Qed.

Lemma fails_fill row a t e b : fails (parse_fill row a t e b).
Proof. unfold parse_fill. solve_fails. Qed.

Lemma fails_fill_step r a t b s acc row : fails (fill_step r a t b s acc row).
Proof. unfold fill_step. pose proof fails_fill. solve_fails. Qed.

Lemma fails_unique acc r : fails (unique_step acc r).
Proof. unfold unique_step. solve_fails. Qed.

Lemma fails_new seen acc r : fails (new_step seen acc r).
Proof. unfold new_step. destruct acc. solve_fails. Qed.

Lemma fails_fill_position next f : fails (fill_position_step next f).
Proof. unfold fill_position_step. solve_fails. Qed.

Lemma fails_usdc l : fails (usdc_balance l).
Proof. unfold usdc_balance, token_zero_step. solve_fails. Qed.

Lemma fails_snapshot_flag v b : fails (snapshot_flag v b).
Proof. unfold snapshot_flag. solve_fails. Qed.

#[export] Hint Resolve fails_order_update fails_fill fails_fill_step fails_unique fails_new fails_fill_position fails_usdc
  fails_snapshot_flag : fails.

(** The DEXs of a frame: [dict_at] finds what the loops look up. *)

Lemma dict_at_Some {V} k (d : dict V) v : dict_get k d = Some v -> dict_at k d = Ok v.
Proof. unfold dict_at. by intros ->. Qed.

Lemma dict_get_key {V} k (d : dict V) : k ∈ dict_keys d -> exists v, dict_get k d = Some v.
Proof. intros H. destruct (dict_get k d) eqn:E; [eauto|]. by apply dict_get_None in E. Qed.

Lemma dex_sorted_elem l d : d ∈ dex_sorted l <-> d ∈ l.
Proof. apply elem_of_py_sorted. Qed.

Lemma fails_frame states : fails (frame_positions_of states).
Proof.
  apply fails_fold. intros acc d Hd. apply (proj1 (dex_sorted_elem _ _)), dict_get_key in Hd as [st Hst].
  unfold dex_positions_step. rewrite (dict_at_Some _ _ _ Hst). cbn [mbind res_bind].
  unfold add_position. solve_fails.
Qed.

Lemma frame_step_inv states acc d acc' :
  dex_positions_step states acc d = Ok acc' ->
  exists st t ps all, dict_get d states = Some st /\ positive_int (obj_field "time" st) = Ok t /\
    parse_clearinghouse_positions st t d = Ok ps /\ fold_res add_position ps (fp_all acc) = Ok all /\
    acc' = MkFramePositions all (dict_set d ps (fp_by_dex acc)) (dict_set d t (fp_observed acc)).
Proof.
  unfold dex_positions_step, dict_at. destruct (dict_get d states) as [st|] eqn:E; [|done]. cbn [mbind res_bind].
  intros (t & Ht & (ps & Hps & (all & Hall & [= <-])%bind_Ok)%bind_Ok)%bind_Ok. by exists st, t, ps, all.
Qed.

(** A frame observes exactly the DEXs it lists. *)
Lemma frame_keys states f : frame_positions_of states = Ok f ->
  (forall d, d ∈ dict_keys (fp_observed f) <-> d ∈ dict_keys states) /\
  (forall d, d ∈ dict_keys (fp_by_dex f) <-> d ∈ dict_keys states).
Proof.
  intros H. unfold frame_positions_of in H.
  apply (fold_res_prefix (fun pre acc => (forall d, d ∈ dict_keys (fp_observed acc) <-> d ∈ pre) /\
    (forall d, d ∈ dict_keys (fp_by_dex acc) <-> d ∈ pre))) in H.
  - setoid_rewrite dex_sorted_elem in H. done.
  - intros pre d acc acc' _ [H1 H2] (st & t & ps & all & _ & _ & _ & _ & ->)%frame_step_inv. cbn [fp_observed fp_by_dex].
    split; intros d'; rewrite dict_set_keys_elem, elem_of_app, list_elem_of_singleton; [rewrite H1|rewrite H2]; tauto.
  - split; intros d; cbn; split; intros H0; by apply not_elem_of_nil in H0.
Qed.

Lemma fails_sizes p l : (forall m, fails (p m)) -> fails (sizes_of p l).
Proof. intros H. unfold sizes_of, sizes_step. solve_fails. Qed.

Lemma fails_on_dex d m : fails (on_dex d m).
Proof. unfold on_dex, dex_of. solve_fails. Qed.
#[export] Hint Resolve fails_sizes fails_on_dex : fails.

Lemma fails_check a states f : frame_positions_of states = Ok f -> fails (check_dexes a f).
Proof.
  intros [Ho Hb]%frame_keys. apply fails_fold. intros _ [d ps] Hin. unfold check_dex.
  assert (d ∈ dict_keys (fp_observed f)) as Hd.
  { apply Ho, Hb. apply list_elem_of_fmap. by exists (d, ps). }
  apply dict_get_key in Hd as [t Ht]. rewrite (dict_at_Some _ _ _ Ht). cbn [mbind res_bind]. cbv zeta.
  destruct (_ <? _); [done|]. apply fails_bind; [auto with fails|]. intros prior _.
  apply fails_bind; [apply fails_sizes; intros; done|]. intros next _. destruct (_ && _); done.
Qed.

Lemma fails_equity states f acc d : fails (equity_step states f acc d).
Proof.
  unfold equity_step, nonflat_step. destruct (dict_get d states) as [st|]; [|done].
  destruct (obj_field "marginSummary" st) as [| | | | | |summary]; try done.
  destruct (obj_field "accountValue" summary); solve_fails.
Qed.
#[export] Hint Resolve fails_equity : fails.

Lemma fails_perp_equity r states f s : fails (perp_equity_of r states f s).
Proof. unfold perp_equity_of. solve_fails. Qed.
#[export] Hint Resolve fails_frame fails_perp_equity : fails.

(** * A refused frame changes nothing *)

(** From [s], a raise of [m] leaves [s] and is an error [apply] converts. *)
Definition atomic_at {A} (s : AccountStream) (m : ST AccountStream A) : Prop :=
  match m s with (s', Raise e) => s' = s /\ frame_exn true e | _ => True end.

(** From [s], [m] returns. *)
Definition returns_at {A} (s : AccountStream) (m : ST AccountStream A) : Prop :=
  match m s with (_, Ok _) => True | _ => False end.

Lemma atomic_query {A B} s (q : AccountStream -> res A) (k : A -> ST AccountStream B) :
  fails (q s) -> (forall a, q s = Ok a -> atomic_at s (k a)) -> atomic_at s (jbind (jquery q) k).
Proof. unfold atomic_at, jbind, jquery. destruct (q s) as [a|e]; [intros _ H; by apply (H a)|auto]. Qed.

Lemma atomic_lift {A B} s (r : res A) (k : A -> ST AccountStream B) :
  fails r -> (forall a, r = Ok a -> atomic_at s (k a)) -> atomic_at s (jbind (jlift r) k).
Proof. unfold atomic_at, jbind, jlift. destruct r as [a|e]; [intros _ H; by apply (H a)|auto]. Qed.

Lemma atomic_returns {A} s (m : ST AccountStream A) : returns_at s m -> atomic_at s m.
Proof. unfold atomic_at, returns_at. by destruct (m s) as [s' []]. Qed.

Lemma atomic_raise {A} s msg : atomic_at s (@jraise _ A (AccountStreamError msg)).
Proof. done. Qed.

Lemma returns_bind {A B} s (m : ST AccountStream A) (k : A -> ST AccountStream B) :
  returns_at s m -> (forall s' a, m s = (s', Ok a) -> returns_at s' (k a)) -> returns_at s (jbind m k).
Proof. unfold returns_at, jbind. destruct (m s) as [s' [a|e]]; [|done]. intros _ H. by apply H. Qed.

Lemma returns_modify s f : returns_at s (jmodify f).
Proof. done. Qed.

Lemma returns_ret {A} s (a : A) : returns_at s (jret a).
Proof. done. Qed.

Lemma returns_base s c a r i n d : returns_at s (base_update c a r i n d).
Proof. done. Qed.

Lemma returns_lift {A} s (r : res A) a : r = Ok a -> returns_at s (jlift r).
Proof. by intros ->. Qed.

#[export] Hint Resolve atomic_raise returns_modify returns_ret returns_base : fails.

Ltac atomic_step :=
  match goal with
  | |- atomic_at _ (jbind (jquery _) _) => apply atomic_query; [|intros ? ?]
  | |- atomic_at _ (jbind (jlift _) _) => apply atomic_lift; [|intros ? ?]
  | |- atomic_at _ (jbind (jmodify _) _) => apply atomic_returns
  | |- returns_at _ (jbind _ _) => apply returns_bind; [|intros ? ? ?]
  | |- atomic_at _ (let '(_, _) := ?p in _) => destruct p
  | |- atomic_at _ (match ?x with _ => _ end) => destruct x
  | |- atomic_at _ (if ?x then _ else _) => destruct x
  | |- fails_in _ (match ?x with _ => _ end) => destruct x
  | |- fails_in _ (Ok _) => done
  end.
Ltac solve_atomic := repeat first [solve [eauto with fails nocore] | atomic_step].

Lemma zmax_elem l x : x ∈ l -> exists m, zmax l = Ok m.
Proof. destruct l; [by intros ?%not_elem_of_nil|eauto]. Qed.

Lemma zmin_elem l x : x ∈ l -> exists m, zmin l = Ok m.
Proof. destruct l; [by intros ?%not_elem_of_nil|eauto]. Qed.

(** The aggregate state always has the default DEX. *)
Lemma parsed_default message account t u :
  parse_all_dexs_message message account t = Ok u -> "" ∈ dict_keys (clearinghouse_states u).
Proof.
  unfold parse_all_dexs_message. destruct (negb _); [done|]. destruct (obj_field "data" message); try done.
  cbv zeta. destruct (negb _); [done|]. intros (states & _ & H)%bind_Ok.
  destruct (dict_mem "" states) eqn:E; cbn [negb] in H; [|done]. apply bool_decide_eq_true in E.
  apply bind_Ok in H as (times & _ & H). destruct times; [done|]. by injection H as <-.
Qed.

(** A Standard source has a relevant DEX, and every relevant DEX is in the frame. *)
Lemma perp_equity_dexes r states f s equity :
  standard_source r s = true -> perp_equity_of r states f s = Ok equity ->
  elements (source_dexes s) <> [] /\ forall d, d ∈ elements (source_dexes s) -> d ∈ dict_keys states.
Proof.
  unfold perp_equity_of. intros -> (eq & Hfold & H)%bind_Ok.
  destruct (dleb _ dzero) eqn:E; [done|]. clear H.
  split.
  - intros Hnil. rewrite Hnil in Hfold. injection Hfold as <-. by vm_compute in E.
  - pattern (elements (source_dexes s)).
    refine (fold_res_prefix (fun pre _ => forall d, d ∈ pre -> d ∈ dict_keys states) _ _ _ _ _ _ Hfold).
    + intros pre d acc acc' _ IH Hstep d' [Hd|Hd]%elem_of_app; [exact (IH d' Hd)|]. apply list_elem_of_singleton in Hd as ->.
      unfold equity_step in Hstep. destruct (dict_get d states) eqn:Ed; [|done].
      apply dict_get_Some_in in Ed. apply list_elem_of_fmap. by exists (d, l).
    + by intros d ?%not_elem_of_nil.
Qed.

Lemma relevant_times (states : dict (list (string * json))) f (dexes : list string) :
  frame_positions_of states = Ok f -> dexes <> [] -> (forall d, d ∈ dexes -> d ∈ dict_keys states) ->
  exists times oldest, map_res (fun d => dict_at d (fp_observed f)) dexes = Ok times /\ zmin times = Ok oldest.
Proof.
  intros [Ho _]%frame_keys Hne Hin. destruct (map_res_total (fun d => dict_at d (fp_observed f)) dexes) as [times Ht].
  { intros d Hd%Hin%Ho. apply dict_get_key in Hd as [t Ht]. exists t. by apply dict_at_Some. }
  destruct dexes as [|d dexes]; [done|]. pose proof Ht as Ht'. apply map_res_Forall2 in Ht. destruct times as [|t times]; [by inversion Ht|].
  destruct (zmin_elem (t :: times) t) as [m Hm]; [by left|]. by exists (t :: times), m.
Qed.

Lemma newest_time states f : frame_positions_of states = Ok f -> "" ∈ dict_keys states ->
  exists t, zmax (dict_values (fp_observed f)) = Ok t.
Proof.
  intros [Ho _]%frame_keys Hd%Ho. apply dict_get_key in Hd as [t Ht]. apply (zmax_elem _ t).
  apply list_elem_of_fmap. exists ("", t). split; [done|]. by apply dict_get_Some_in.
Qed.

Lemma positions_atomic message t s : atomic_at s (apply_positions message t).
Proof.
  unfold apply_positions. apply atomic_query; [auto with fails|]. intros [[account r] data] Hwho.
  apply atomic_lift; [auto with fails|]. intros parsed Hparsed. apply atomic_lift; [auto with fails|]. intros f Hf.
  apply atomic_query; [by eapply fails_check|]. intros [] _.
  apply atomic_query; [auto with fails|]. intros equity Heq.
  do 3 (apply atomic_query; [done|]; intros ? [= <-]).
  apply atomic_returns. apply returns_bind; [done|]. intros s1 [] _.
  apply returns_bind.
  - destruct (standard_source r s) eqn:Es; [|done].
    destruct (perp_equity_dexes _ _ _ _ _ Es Heq) as [Hne Hin].
    destruct (relevant_times _ f (elements (source_dexes s)) Hf Hne Hin) as (times & oldest & Ht & Hm).
    apply returns_bind; [done|]. intros s2 [] _. apply returns_bind; [by eapply returns_lift|].
    intros s3 times' [-> Ht']%jlift_Ok. rewrite Ht in Ht'. injection Ht' as <-.
    apply returns_bind; [by eapply returns_lift|]. done.
  - intros s2 [] _. destruct (newest_time _ _ Hf (parsed_default _ _ _ _ Hparsed)) as [newest Hn].
    apply returns_bind; [by eapply returns_lift|]. done.
Qed.

Lemma spot_atomic message t s : atomic_at s (apply_spot message t).
Proof. unfold apply_spot. solve_atomic. Qed.

Lemma open_orders_atomic message t s : atomic_at s (apply_open_orders message t).
Proof. unfold apply_open_orders. solve_atomic. Qed.

Lemma order_updates_atomic message t s : atomic_at s (apply_order_updates message t).
Proof.
  unfold apply_order_updates. apply atomic_query; [done|]. intros follower [= <-].
  apply atomic_lift.
  { destruct (obj_field "data" message); try done. unfold check_follower. solve_fails. }
  intros updates _. destruct updates; auto with fails.
  apply atomic_query; [done|]. intros orders [= <-]. apply atomic_lift; [solve_fails|]. intros next _.
  apply atomic_returns. apply returns_bind; [done|]. intros s1 [] _. apply returns_bind; [done|]. intros s2 has _.
  apply returns_bind; [by destruct has|]. done.
Qed.

(** * The fills of a frame *)

Record fill_ok (account : string) (received_ms epoch : Z) (snapshot : bool) (f : FillRecord) : Prop := {
  fo_account : f_account f = account;
  fo_market : exists m, valid_identity m /\ f_market f = canonical m;
  fo_size : (0 < dval (f_size f))%Q /\ (0 < dval (f_price f))%Q;
  fo_time : 0 < time_ms f;
  fo_frame : f_received_ms f = received_ms /\ f_epoch f = epoch /\ is_snapshot f = snapshot;
}.

Lemma positive_pos v z : positive_int v = Ok z -> 0 < z.
Proof.
  unfold positive_int. destruct v; try done; (destruct (int_text _) as [n|]; [|done]);
    (destruct (n <=? 0) eqn:E; [done|]); intros [= <-]; by apply Z.leb_gt in E.
Qed.

Lemma parse_fill_ok row a t e b f : parse_fill row a t e b = Ok f -> fill_ok a t e b f.
Proof.
  unfold parse_fill. intros (market & Hm & H)%bind_Ok. apply canonical_inv in Hm.
  destruct (obj_field "hash" row); try done. destruct (is_empty _); [done|]. cbv zeta in H.
  destruct (_ || _); [done|]. destruct (is_empty _); [done|]. apply bind_Ok in H as (side & _ & H).
  destruct (obj_get "sz" row) as [sz|]; [|done]. destruct (obj_get "px" row) as [px|]; [|done].
  apply bind_Ok in H as (size & _ & H). apply bind_Ok in H as (price & _ & H).
  destruct (dleb size dzero) eqn:E1; [done|]. destruct (dleb price dzero) eqn:E2; [done|]. cbn [orb] in H.
  apply bind_Ok in H as (start & _ & H). apply bind_Ok in H as (oid & _ & H). apply bind_Ok in H as (time & Ht & H).
  injection H as <-. apply dleb_false in E1, E2. rewrite dval_zero in E1, E2. split; cbn; try done.
  by eapply positive_pos.
Qed.

Lemma records_ok r a t b s rows records :
  fold_res (fill_step r a t b s) rows [] = Ok records -> Forall (fill_ok a t (connection_epoch s) b) records.
Proof.
  apply (fold_res_ind (Forall (fill_ok a t (connection_epoch s) b))); [|constructor].
  intros acc row acc' _ Hacc H. unfold fill_step in H. destruct row as [| | | | | |o]; try done.
  destruct (spot_coin _); [by injection H as <-|]. apply bind_Ok in H as (market & _ & H).
  destruct (out_of_scope _ _ _ _); [by injection H as <-|]. apply bind_Ok in H as (f & Hf & [= <-]).
  apply Forall_app. split; [done|]. constructor; [by eapply parse_fill_ok|constructor].
Qed.

(** The distinct records of a frame, in order. *)
Record unique_ok (records : list FillRecord) (unique : list (fill_id * FillRecord)) : Prop := {
  uo_key : forall k f, (k, f) ∈ unique -> k = identity f /\ f ∈ records;
  uo_nodup : NoDup unique.*1;
  uo_all : forall f, f ∈ records -> identity f ∈ unique.*1;
}.

Lemma id_get_None {V} k (d : list (fill_id * V)) : id_get k d = None <-> k ∉ d.*1.
Proof.
  induction d as [|[k' v] d IH]; cbn; [split; [intros _ ?%not_elem_of_nil; done|done]|].
  rewrite not_elem_of_cons. case_decide as E; [split; [done|by intros [? _]]|]. rewrite IH. tauto.
Qed.

Lemma id_get_Some {V} k (d : list (fill_id * V)) v : id_get k d = Some v -> (k, v) ∈ d.
Proof.
  induction d as [|[k' v'] d IH]; cbn; [done|]. case_decide as E; [intros [= <-]; subst; by left|]. intros H. right. auto.
Qed.

Lemma unique_spec records unique : fold_res unique_step records [] = Ok unique -> unique_ok records unique.
Proof.
  apply (fold_res_prefix unique_ok); [|split; [by intros ? ? ?%not_elem_of_nil|constructor|by intros ? ?%not_elem_of_nil]].
  intros pre f acc acc' _ [Hk Hn Ha] H. unfold unique_step in H.
  destruct (id_get (identity f) acc) as [prior|] eqn:E.
  - destruct (negb _); [done|]. injection H as <-. split; [|done|].
    + intros k g [-> Hg]%Hk. split; [done|]. apply elem_of_app. by left.
    + intros g [Hg|Hg]%elem_of_app; [by apply Ha|]. apply list_elem_of_singleton in Hg as ->.
      apply id_get_Some in E. apply list_elem_of_fmap. by exists (identity f, prior).
  - injection H as <-. apply id_get_None in E. split.
    + intros k g [Hg|Hg]%elem_of_app.
      * destruct (Hk _ _ Hg) as [-> Hin]. split; [done|]. apply elem_of_app. by left.
      * apply list_elem_of_singleton in Hg. injection Hg as -> ->. split; [done|]. apply elem_of_app. right. by left.
    + rewrite fmap_app. apply list.NoDup_app. split_and!; [done| |apply list.NoDup_singleton].
      intros x Hx ->%list_elem_of_singleton. by apply E.
    + intros g [Hg|Hg]%elem_of_app; rewrite fmap_app, elem_of_app; [left; by apply Ha|].
      apply list_elem_of_singleton in Hg as ->. right. by left.
Qed.

(** The records the stream had not seen. *)
Lemma new_spec seen unique dups new n :
  fold_res (new_step seen) unique ([], dups) = Ok (new, n) ->
  new = filter (fun f => id_get (identity f) seen = None) unique.*2 \/ exists k f, (k, f) ∈ unique /\ k <> identity f.
Proof.
  intros H.
  apply (fold_res_prefix (fun pre acc => acc.1 = filter (fun f => id_get (identity f) seen = None) pre.*2 \/
    exists k f, (k, f) ∈ pre /\ k <> identity f)) in H; [done| |by left].
  intros pre [k f] [acc m] acc' _ [IH|(k' & f' & Hin & Hne)] Hstep.
  - destruct (decide (k = identity f)) as [->|Hne]; [|right; exists k, f; split; [apply elem_of_app; right; by left|done]].
    left. cbn in IH. unfold new_step in Hstep. cbn [fst snd] in Hstep. rewrite fmap_app, list.filter_app, <- IH. cbn.
    destruct (id_get (identity f) seen) as [prior|] eqn:E.
    + destruct (negb _); [done|]. injection Hstep as <-. cbn. by rewrite app_nil_r.
    + by injection Hstep as <-.
  - right. exists k', f'. split; [|done]. apply elem_of_app. by left.
Qed.

(** What the reading part of a fill frame found. *)
Record fills_read (r : role) (account : string) (received_ms : Z) (snapshot : bool) (s : AccountStream)
    (records : list FillRecord) (unique : list (fill_id * FillRecord)) (new : list FillRecord) : Prop := {
  fr_records : Forall (fill_ok account received_ms (connection_epoch s) snapshot) records;
  fr_unique : unique_ok records unique;
  fr_new : new = filter (fun f => id_get (identity f) (fill_fingerprints s) = None) unique.*2;
}.

Lemma read_fills r account t b s rows records unique dups new n :
  fold_res (fill_step r account t b s) rows [] = Ok records -> fold_res unique_step records [] = Ok unique ->
  fold_res (new_step (fill_fingerprints s)) unique ([], dups) = Ok (new, n) ->
  fills_read r account t b s records unique new.
Proof.
  intros Hrec Huni%unique_spec Hnew. split; [by eapply records_ok|done|].
  apply new_spec in Hnew as [->|(k & f & Hin & Hne)]; [done|]. by destruct (uo_key _ _ Huni _ _ Hin).
Qed.

Lemma new_in_records r account t b s records unique new f :
  fills_read r account t b s records unique new -> f ∈ new ->
  f ∈ records /\ fill_ok account t (connection_epoch s) b f /\ id_get (identity f) (fill_fingerprints s) = None.
Proof.
  intros [Hrec Huni ->] [Hseen Hf]%list_elem_of_filter. apply list_elem_of_fmap in Hf as ([k g] & -> & Hin).
  destruct (uo_key _ _ Huni _ _ Hin) as [_ Hg]. split; [done|]. split; [|done].
  by eapply (proj1 (list.Forall_forall _ _) Hrec).
Qed.

Lemma new_dexes r account t b s records unique new :
  fills_read r account t b s records unique new -> exists dexes, map_res (fun f => dex_of (f_market f)) new = Ok dexes.
Proof.
  intros H. apply map_res_total. intros f Hf. destruct (new_in_records _ _ _ _ _ _ _ _ _ H Hf) as (_ & Hok & _).
  destruct (fo_market _ _ _ _ _ Hok) as (m & Hm & ->). eexists. by apply market_dex_of.
Qed.

Lemma fills_atomic data t c channel s : atomic_at s (apply_fills data t c channel).
Proof.
  unfold apply_fills. apply atomic_query; [auto with fails|]. intros [[account r] o] _.
  apply atomic_query; [auto with fails|]. intros snapshot _. destruct (obj_field "fills" o); auto with fails.
  apply atomic_query; [solve_fails|]. intros records Hrec. apply atomic_lift; [solve_fails|]. intros unique Huni.
  cbv zeta. apply atomic_query; [solve_fails|]. intros [new dups] Hnew.
  pose proof (read_fills _ _ _ _ _ _ _ _ _ _ _ Hrec Huni Hnew) as Hread.
  apply atomic_query; [unfold validated_fill_positions; solve_fails|]. intros next _.
  apply atomic_returns. apply returns_bind; [done|]. intros s1 [] _. apply returns_bind; [|done].
  destruct next as [next|]; [|done]. unfold commit_positions. apply returns_bind; [done|]. intros s2 [] _.
  destruct (new_dexes _ _ _ _ _ _ _ _ Hread) as [dexes Hd].
  destruct new as [|f new]; [done|]. apply returns_bind; [done|]. intros s3 [] _.
  apply returns_bind; [by eapply returns_lift|]. done.
Qed.

Lemma twap_atomic message t s : atomic_at s (apply_twap_fills message t).
Proof.
  unfold apply_twap_fills. destruct (obj_field "data" message); auto with fails.
  destruct (obj_field "twapSliceFills" o); auto with fails.
  apply atomic_lift; [unfold twap_row; solve_fails|]. intros fills _. apply fills_atomic.
Qed.

Lemma dispatch_atomic channel message t s : atomic_at s (dispatch channel message t).
Proof.
  unfold dispatch. repeat case_bool_decide; auto using positions_atomic, spot_atomic, open_orders_atomic,
    order_updates_atomic, fills_atomic, twap_atomic with fails.
Qed.

Lemma frame_atomic message epoch t s s' e :
  apply_frame message epoch t s = (s', Raise e) -> s' = s /\ exists msg, e = AccountStreamError msg.
Proof.
  unfold apply_frame. intros [H|([] & s1 & [-> _]%jquery_Ok & H)]%jbind_Raise.
  - unfold jquery in H. injection H as <- H. split; [done|]. revert H. unfold validate_frame, stream_error.
    destruct (_ =? 0); [intros [= <-]; eauto|]. destruct (negb _); [intros [= <-]; eauto|].
    destruct (_ <=? 0); [intros [= <-]; eauto|done].
  - destruct message as [| | | | | |o]; try (injection H as <- <-; eauto).
    apply jbind_Raise in H as [H|(u & s1 & _ & H)]; [|done]. unfold guarded in H.
    pose proof (dispatch_atomic (str_or_empty (obj_field "channel" o)) o t s) as Ha. unfold atomic_at in Ha.
    destruct (dispatch _ o t s) as [s2 [u|e2]]; [done|]. injection H as <- <-. destruct Ha as [-> Ha].
    split; [done|]. destruct e2; try done; cbn; eauto.
Qed.

(** * What an accepted frame does *)

Record order_ok (o : OpenOrder) : Prop := {
  or_size : (0 < dval (oo_size o))%Q;
  or_identified : is_Some (oo_oid o) \/ is_Some (oo_cloid o);
}.

(** Every order is identified, and no two share an identifier. *)
Record orders_ok (l : list OpenOrder) : Prop := {
  os_each : Forall order_ok l;
  os_oids : NoDup (omap oo_oid l);
  os_cloids : NoDup (omap oo_cloid l);
}.

(** What the account becomes after a frame of positions. *)
Definition with_positions (t newest : Z) (standard : option (dict dec * Z)) (f : frame_positions) (a : MutableAccount)
    : MutableAccount :=
  let b := set_positions a (fp_all f) in
  let b := match standard with Some (equity, oldest) => stamp PERP_EQUITY t oldest (set_perp_equity b equity) | None => b end in
  set_observed_by_dex (stamp POSITIONS t newest b) (dict_update (position_observed_ms_by_dex a) (fp_observed f)).

Definition with_fill_positions (t : Z) (next : option (dict Position)) (dexes : list string) (new : list FillRecord)
    (a : MutableAccount) : MutableAccount :=
  match next with
  | None => a
  | Some p =>
      let b := set_positions a p in
      match new with
      | [] => b
      | _ =>
          let b := stamp POSITIONS t (fold_left Z.max (time_ms <$> new)
                     (default 0 (dict_get (component_name POSITIONS) (component_observed_ms b)))) b in
          set_observed_by_dex b (fold_left bump_dex (zip dexes new) (position_observed_ms_by_dex b))
      end
  end.

Inductive account_moves (s : AccountStream) (r : role) (a : MutableAccount) : MutableAccount -> Prop :=
  | am_positions states f t newest standard :
      frame_positions_of states = Ok f -> check_dexes a f = Ok tt ->
      (forall equity oldest, standard = Some (equity, oldest) -> forall d e, (d, e) ∈ equity -> (0 <= dval e)%Q) ->
      account_moves s r a (with_positions t newest standard f a)
  | am_collateral total hold observed t :
      (0 <= dval hold <= dval total)%Q ->
      default 0 (dict_get (component_name COLLATERAL) (component_observed_ms a)) <= observed ->
      account_moves s r a (stamp COLLATERAL t observed (set_collateral a
        (Some (MkCollateral total hold (dsub total hold) observed t))))
  | am_orders orders t stamped :
      (orders_ok (open_orders a) -> orders_ok orders) ->
      account_moves s r a (match stamped with
        | Some observed => stamp OPEN_ORDERS t observed (set_open_orders a orders)
        | None => set_open_orders a orders
        end)
  | am_fills account t c snapshot records unique new next dexes observed :
      fills_read r account t snapshot s records unique new ->
      (if snapshot then next = None else exists p, next = Some p /\ validated_fill_positions (positions a) new = Ok p) ->
      map_res (fun f => dex_of (f_market f)) new = Ok dexes ->
      account_moves s r a (stamp c t observed
        (merge_fills snapshot unique new (fill_dedupe_capacity s) (with_fill_positions t next dexes new a))).

(** What an accepted frame delivers, and what the stream remembers. *)
Inductive delivers (s : AccountStream) (r : role) : list (fill_id * fingerprint) -> list FillRecord -> Prop :=
  | de_nothing : delivers s r (fill_fingerprints s) []
  | de_fills account t snapshot records unique new :
      fills_read r account t snapshot s records unique new ->
      delivers s r (remember new unique.*1 (fill_dedupe_capacity s) (fill_fingerprints s)) (if snapshot then [] else new).

Definition moved (s s' : AccountStream) (u : AccountStreamUpdate) : Prop :=
  exists r a' fp, account_moves s r (account_state r s) a' /\ delivers s r fp (new_fills u) /\
    s' = on_account r (fun _ => a') (set_fingerprints fp s).

Lemma on_account_state r f s : account_state r (on_account r f s) = f (account_state r s).
Proof. by destruct r. Qed.

Lemma on_account_const r f s : on_account r f s = on_account r (fun _ => f (account_state r s)) s.
Proof. by destruct r. Qed.

Lemma on_account_compose r f g s : on_account r g (on_account r f s) = on_account r (fun a => g (f a)) s.
Proof. by destruct r. Qed.

Lemma on_account_fp r f fp s : set_fingerprints fp (on_account r f s) = on_account r f (set_fingerprints fp s).
Proof. by destruct r. Qed.

Lemma set_fp_id s : set_fingerprints (fill_fingerprints s) s = s.
Proof. by destruct s. Qed.

(** A handler that touches one account only. *)
Lemma moved_account s r a' u : account_moves s r (account_state r s) a' -> new_fills u = [] ->
  moved s (on_account r (fun _ => a') s) u.
Proof.
  intros H Hu. exists r, a', (fill_fingerprints s). rewrite Hu. split; [done|]. split; [constructor|]. by rewrite set_fp_id.
Qed.

Lemma jmodify_Ok {S} (f : S -> S) s s' u : jmodify f s = (s', Ok u) -> s' = f s.
Proof. unfold jmodify. by intros [-> _]%pair_equal_spec. Qed.

Lemma base_Ok c a r i n d s s' u : base_update c a r i n d s = (s', Ok u) -> s' = s /\ new_fills u = n.
Proof. unfold base_update. intros [-> [= <-]]%jquery_Ok. done. Qed.

(** Run one step of a handler that returned. *)
Ltac run_step H :=
  let H1 := fresh in
  first
    [ apply jbind_Ok in H as (? & ? & H1 & H); first
        [ apply jquery_Ok in H1 as [-> H1] | apply jlift_Ok in H1 as [-> H1] | apply jmodify_Ok in H1 as -> | idtac ]
    | apply base_Ok in H as [-> H] ].

Lemma equity_nonneg states f dexes equity : fold_res (equity_step states f) dexes [] = Ok equity ->
  forall d e, (d, e) ∈ equity -> (0 <= dval e)%Q.
Proof.
  apply (fold_res_ind (fun acc => forall d e, (d, e) ∈ acc -> (0 <= dval e)%Q)); [|by intros ? ? ?%not_elem_of_nil].
  intros acc d acc' _ IH H d' e'. unfold equity_step in H. destruct (dict_get d states); [|done].
  destruct (obj_field "marginSummary" _); try done.
  assert (forall v, (equity ← parse_decimal v;
    if dnegative equity then stream_error "standard source DEX has negative accountValue" else
    dex_nonflat ← fold_res (nonflat_step d) (fp_all f) false;
    if dex_nonflat && dleb equity dzero then stream_error "standard source DEX is nonflat with no equity" else
    Ok (dict_set d equity acc)) = Ok acc' -> (d', e') ∈ acc' -> (0 <= dval e')%Q) as Hgo.
  { intros v (x & _ & Hx)%bind_Ok. destruct (dnegative x) eqn:En; [done|]. apply bind_Ok in Hx as (b & _ & Hx).
    destruct (b && _); [done|]. injection Hx as <-. intros [[= -> ->]|Hin]%dict_set_in; [|by eapply IH].
    unfold dnegative in En. apply dltb_false in En. by rewrite dval_zero in En. }
  destruct (obj_field "accountValue" _); try done; by eapply Hgo.
Qed.

Lemma positions_moved message t s s' u : apply_positions message t s = (s', Ok u) -> moved s s' u.
Proof.
  unfold apply_positions. intros H. apply jbind_Ok in H as ([[account r] data] & s0 & [-> _]%jquery_Ok & H).
  apply jbind_Ok in H as (parsed & s0 & [-> _]%jlift_Ok & H). apply jbind_Ok in H as (f & s0 & [-> Hf]%jlift_Ok & H).
  apply jbind_Ok in H as ([] & s0 & [-> Hchk]%jquery_Ok & H). apply jbind_Ok in H as (equity & s0 & [-> Heq]%jquery_Ok & H).
  do 3 (apply jbind_Ok in H as (? & s0 & [-> [= <-]]%jquery_Ok & H)).
  apply jbind_Ok in H as ([] & s1 & ->%jmodify_Ok & H). apply jbind_Ok in H as ([] & s2 & Hstd & H).
  apply jbind_Ok in H as (newest & s3 & [-> _]%jlift_Ok & H). apply jbind_Ok in H as ([] & s4 & ->%jmodify_Ok & H).
  apply jbind_Ok in H as ([] & s5 & ->%jmodify_Ok & H). apply base_Ok in H as [-> Hu].
  assert (exists standard, s2 = on_account r (fun a => match standard with
      | Some (equity, oldest) => stamp PERP_EQUITY t oldest (set_perp_equity (set_positions a (fp_all f)) equity)
      | None => set_positions a (fp_all f) end) s /\
    forall e o, standard = Some (e, o) -> forall d x, (d, x) ∈ e -> (0 <= dval x)%Q) as (standard & -> & Hnn).
  { destruct (standard_source r s) eqn:Es.
    - apply jbind_Ok in Hstd as ([] & s3 & ->%jmodify_Ok & Hstd). apply jbind_Ok in Hstd as (times & s4 & [-> _]%jlift_Ok & Hstd).
      apply jbind_Ok in Hstd as (oldest & s5 & [-> _]%jlift_Ok & ->%jmodify_Ok).
      exists (Some (equity, oldest)). split; [by rewrite !on_account_compose|].
      intros e o [= <- <-]. unfold perp_equity_of in Heq. rewrite Es in Heq.
      apply bind_Ok in Heq as (e & He & Heq). destruct (dleb _ _); [done|]. injection Heq as <-. by eapply equity_nonneg.
    - exists None. split; [by apply pair_equal_spec in Hstd as [-> _]|done]. }
  rewrite !on_account_compose, on_account_const. apply moved_account; [|done].
  assert (forall a, set_observed_by_dex (stamp POSITIONS t newest (match standard with
      | Some (equity, oldest) => stamp PERP_EQUITY t oldest (set_perp_equity (set_positions a (fp_all f)) equity)
      | None => set_positions a (fp_all f) end)) (dict_update (position_observed_ms_by_dex (stamp POSITIONS t newest (match standard with
      | Some (equity, oldest) => stamp PERP_EQUITY t oldest (set_perp_equity (set_positions a (fp_all f)) equity)
      | None => set_positions a (fp_all f) end))) (fp_observed f)) = with_positions t newest standard f a) as ->
    by (intros a; by destruct standard as [[]|]).
  by eapply am_positions.
Qed.

(** ** Orders *)

Lemma omap_filter_nodup {A B} (f : A -> option B) (P : A -> Prop) `{forall x, Decision (P x)} l :
  NoDup (omap f l) -> NoDup (omap f (filter P l)).
Proof.
  induction l as [|x l IH]; [done|]. rewrite filter_cons. cbn. intros Hn.
  assert (NoDup (omap f l)) as Hl by (destruct (f x); [by apply list.NoDup_cons in Hn as [_ Hn]|done]).
  destruct (decide (P x)); [|by apply IH]. cbn. destruct (f x) as [y|]; [|by apply IH].
  apply list.NoDup_cons in Hn as [Hy _]. apply list.NoDup_cons. split; [|by apply IH].
  intros (z & Hz & Hf)%list_elem_of_omap. apply list_elem_of_filter in Hz as [_ Hz]. apply Hy, list_elem_of_omap. by exists z.
Qed.

Lemma orders_ok_filter (P : OpenOrder -> Prop) `{forall x, Decision (P x)} l : orders_ok l -> orders_ok (filter P l).
Proof.
  intros [He Ho Hc]. split; [|by apply omap_filter_nodup..].
  apply list.Forall_forall. intros o [_ Hin]%list_elem_of_filter. by apply (proj1 (list.Forall_forall _ _) He).
Qed.

Lemma available_spec l o : order_available l o = Ok tt ->
  (forall x, oo_oid o = Some x -> x ∉ omap oo_oid l) /\ (forall x, oo_cloid o = Some x -> x ∉ omap oo_cloid l).
Proof.
  unfold order_available. destruct (existsb _ l) eqn:E; [done|]. intros _.
  assert (forall p, p ∈ l -> ~ (oo_oid o = oo_oid p /\ is_Some (oo_oid o)) /\ ~ (oo_cloid o = oo_cloid p /\ is_Some (oo_cloid o))) as Hno.
  { intros p Hp. rewrite <- not_true_iff_false, existsb_exists in E. split; intros [Heq Hs]; apply E; exists p;
      (split; [by apply list_elem_of_In|]); apply orb_true_iff; [left|right]; by rewrite !bool_decide_true. }
  split; intros x Hx (p & Hp & Hpx)%list_elem_of_omap; destruct (Hno p Hp) as [H1 H2]; [apply H1|apply H2];
    (split; [congruence|by rewrite Hx]).
Qed.

Lemma nodup_snoc {A} (l : list A) (x : option A) :
  NoDup l -> (forall y, x = Some y -> y ∉ l) -> NoDup (l ++ match x with Some y => [y] | None => [] end).
Proof.
  intros Hl Hx. destruct x as [y|]; [|by rewrite app_nil_r]. apply list.NoDup_app. split_and!; [done| |apply list.NoDup_singleton].
  intros z Hz ->%list_elem_of_singleton. by eapply Hx.
Qed.

Lemma orders_ok_snoc l o : orders_ok l -> order_ok o -> order_available l o = Ok tt -> orders_ok (l ++ [o]).
Proof.
  intros [He Ho Hc] Hok [H1 H2]%available_spec. split.
  - apply Forall_app. split; [done|by constructor].
  - rewrite omap_app. cbn. pose proof (nodup_snoc _ (oo_oid o) Ho H1) as H. by destruct (oo_oid o).
  - rewrite omap_app. cbn. pose proof (nodup_snoc _ (oo_cloid o) Hc H2) as H. by destruct (oo_cloid o).
Qed.

Lemma parsed_order_ok row t d o : parse_open_orders (JList [row]) t d = Ok [o] -> order_ok o.
Proof.
  unfold parse_open_orders. cbn [mbind res_bind]. intros (acc & H & Hacc)%bind_Ok. cbn [fold_res] in H.
  destruct (open_order_step t d _ row) as [acc'|] eqn:E; [|done]. injection H as <-. unfold open_order_step in E.
  destruct row as [| | | | | |order]; try done. apply bind_Ok in E as (rc & _ & E). apply bind_Ok in E as (coin & _ & E).
  apply bind_Ok in E as (side & _ & E). apply bind_Ok in E as (size & Hsize & E).
  apply bind_Ok in E as (price & _ & E). apply bind_Ok in E as (oid & _ & E). apply bind_Ok in E as (cl & _ & E).
  destruct (_ && _) eqn:Eid; [done|]. destruct (default _ _); try done. injection E as <-. cbn in Hacc. injection Hacc as <-.
  split; cbn.
  - unfold order_size in Hsize. apply bind_Ok in Hsize as (v & _ & Hsize). apply bind_Ok in Hsize as (x & _ & Hsize).
    destruct (dleb x dzero) eqn:Ex; [done|]. injection Hsize as <-. apply dleb_false in Ex. by rewrite dval_zero in Ex.
  - destruct oid; [by left|]. destruct cl; [by right|]. by vm_compute in Eid.
Qed.

Lemma order_row_ok outer t acc row acc' : parse_order_row outer t acc row = Ok acc' -> orders_ok acc -> orders_ok acc'.
Proof.
  unfold parse_order_row. destruct row as [| | | | | |r]; try done. cbv zeta. destruct (blank_null _); try done.
  intros (coin & _ & (l & Hl & H)%bind_Ok)%bind_Ok Hacc. destruct (parse_open_orders_singleton _ _ _ _ Hl) as [o ->].
  apply bind_Ok in H as ([] & Hav & [= <-]). apply orders_ok_snoc; [done| |done]. by eapply parsed_order_ok.
Qed.

Lemma orders_ok_nil : orders_ok [].
Proof. split; constructor. Qed.

Lemma order_rows_ok rows outer t l : parse_order_rows rows outer t = Ok l -> orders_ok l.
Proof. apply (fold_res_ind orders_ok); [|apply orders_ok_nil]. intros acc row acc' _ Hacc H. by eapply order_row_ok. Qed.

Lemma order_update_ok follower acc row acc' :
  order_update_step follower acc row = Ok acc' -> orders_ok acc.1 -> orders_ok acc'.1.
Proof.
  unfold order_update_step. destruct acc as [next latest]. destruct row as [| | | | | |up]; try done.
  intros ([] & _ & H)%bind_Ok Hok. cbn [fst] in Hok. destruct (obj_field "order" up) as [| | | | | |order]; try done.
  cbv zeta in H. destruct (is_empty _); [done|]. apply bind_Ok in H as (t & _ & H). apply bind_Ok in H as ([oid cl] & _ & H).
  destruct (_ <? _)%nat; [done|].
  pose proof (orders_ok_filter (fun o => existsb (order_eqb o)
    (filter (fun o => same_identity oid cl o = true) next) = false) next Hok) as Hrest.
  destruct (bool_decide _).
  - apply bind_Ok in H as (l & Hl & H). pose proof (order_rows_ok _ _ _ _ Hl) as Hl'.
    destruct (parse_order_rows_singleton _ _ _ _ Hl) as [o ->]. apply bind_Ok in H as ([] & Hav & [= <-]). cbn [fst].
    apply orders_ok_snoc; [done| |done]. apply (proj1 (list.Forall_forall _ _) (os_each _ Hl')). by left.
  - destruct (terminal_order_status _); [|done]. by injection H as <-.
Qed.

Lemma open_orders_moved message t s s' u : apply_open_orders message t s = (s', Ok u) -> moved s s' u.
Proof.
  unfold apply_open_orders. intros H. apply jbind_Ok in H as ([[account r] data] & s0 & [-> _]%jquery_Ok & H).
  destruct (negb _); [done|]. destruct (obj_field "orders" data) as [| | | | |rows|]; try done.
  apply jbind_Ok in H as (orders & s0 & [-> Ho]%jlift_Ok & H). apply jbind_Ok in H as (i & s0 & [-> _]%jquery_Ok & H).
  apply jbind_Ok in H as ([] & s1 & ->%jmodify_Ok & H). apply jbind_Ok in H as ([] & s2 & ->%jmodify_Ok & H).
  apply base_Ok in H as [-> Hu]. rewrite on_account_compose, on_account_const. apply moved_account; [|done].
  apply (am_orders s r (account_state r s) orders t (Some t)). intros _. by eapply order_rows_ok.
Qed.

Lemma order_updates_moved message t s s' u : apply_order_updates message t s = (s', Ok u) -> moved s s' u.
Proof.
  unfold apply_order_updates. intros H. apply jbind_Ok in H as (fo & s0 & [-> _]%jquery_Ok & H).
  apply jbind_Ok in H as (updates & s0 & [-> _]%jlift_Ok & H). destruct updates as [| | | | |rows|]; try done.
  apply jbind_Ok in H as (orders & s0 & [-> [= <-]]%jquery_Ok & H). apply jbind_Ok in H as (next & s0 & [-> Hn]%jlift_Ok & H).
  apply jbind_Ok in H as ([] & s1 & ->%jmodify_Ok & H). apply jbind_Ok in H as (has & s2 & [-> _]%jquery_Ok & H).
  apply jbind_Ok in H as ([] & s3 & Hst & H). apply base_Ok in H as [-> Hu].
  assert (orders_ok (open_orders (follower_state s)) -> orders_ok next.1) as Hok.
  { intros Hok. revert Hn. apply (fold_res_ind (fun acc => orders_ok acc.1)); [|done].
    intros acc row acc' _ Hacc Hstep. by eapply order_update_ok. }
  destruct has.
  - apply jmodify_Ok in Hst as ->. rewrite on_account_compose, on_account_const. apply moved_account; [|done].
    by apply (am_orders s FOLLOWER (account_state FOLLOWER s) next.1 t (Some next.2)).
  - apply pair_equal_spec in Hst as [<- _]. rewrite on_account_const. apply moved_account; [|done].
    by apply (am_orders s FOLLOWER (account_state FOLLOWER s) next.1 t None).
Qed.

(** ** Collateral *)

Lemma usdc_ok l total hold : usdc_balance l = Ok (total, hold) -> (0 <= dval hold <= dval total)%Q.
Proof.
  unfold usdc_balance. intros (z & _ & H)%bind_Ok. destruct z as [|o [|]]; try done. destruct (negb _); [done|].
  destruct (obj_get "total" o); [|done]. apply bind_Ok in H as (t & _ & H). apply bind_Ok in H as (h & _ & H).
  destruct (_ || _) eqn:E; [done|]. injection H as <- <-. apply orb_false_iff in E as [[_ E1]%orb_false_iff E2].
  unfold dnegative in E1. apply dltb_false in E1, E2. by rewrite dval_zero in E1.
Qed.

Lemma spot_moved message t s s' u : apply_spot message t s = (s', Ok u) -> moved s s' u.
Proof.
  unfold apply_spot. intros H. apply jbind_Ok in H as ([[account r] data] & s0 & [-> _]%jquery_Ok & H).
  destruct (default _ _) as [| | | | | |payload]; try done. destruct (obj_field "balances" payload) as [| | | | |l|]; try done.
  apply jbind_Ok in H as ([total hold] & s0 & [-> Hu]%jlift_Ok & H). apply jbind_Ok in H as (observed & s0 & [-> _]%jlift_Ok & H).
  apply jbind_Ok in H as (prior & s0 & [-> Hp]%jquery_Ok & H). injection Hp as <-.
  destruct (observed <? _) eqn:E; [done|]. apply Z.ltb_ge in E.
  apply jbind_Ok in H as (i & s0 & [-> _]%jquery_Ok & H). apply jbind_Ok in H as ([] & s1 & ->%jmodify_Ok & H).
  apply jbind_Ok in H as ([] & s2 & ->%jmodify_Ok & H). apply base_Ok in H as [-> Hn].
  rewrite on_account_compose, on_account_const. apply moved_account; [|done].
  apply am_collateral; [by eapply usdc_ok|done].
Qed.

(** ** Fills *)

Lemma commit_effect r next new t s s' u : commit_positions r next new t s = (s', Ok u) ->
  exists dexes, map_res (fun f => dex_of (f_market f)) new = Ok dexes /\
    s' = on_account r (with_fill_positions t (Some next) dexes new) s.
Proof.
  unfold commit_positions, with_fill_positions. intros H. apply jbind_Ok in H as ([] & s1 & ->%jmodify_Ok & H).
  destruct new as [|f new]; [exists []; split; [done|by apply pair_equal_spec in H as [<- _]]|].
  apply jbind_Ok in H as ([] & s2 & ->%jmodify_Ok & H).
  apply jbind_Ok in H as (dexes & s3 & [-> Hd]%jlift_Ok & ->%jmodify_Ok). exists dexes. split; [done|].
  by rewrite !on_account_compose.
Qed.

Lemma fills_moved data t c channel s s' u : apply_fills data t c channel s = (s', Ok u) -> moved s s' u.
Proof.
  unfold apply_fills. intros H. apply jbind_Ok in H as ([[account r] o] & s0 & [-> _]%jquery_Ok & H).
  apply jbind_Ok in H as (snapshot & s0 & [-> _]%jquery_Ok & H). destruct (obj_field "fills" o) as [| | | | |rows|]; try done.
  apply jbind_Ok in H as (records & s0 & [-> Hrec]%jquery_Ok & H). apply jbind_Ok in H as (unique & s0 & [-> Huni]%jlift_Ok & H).
  cbv zeta in H. apply jbind_Ok in H as ([new dups] & s0 & [-> Hnew]%jquery_Ok & H).
  pose proof (read_fills _ _ _ _ _ _ _ _ _ _ _ Hrec Huni Hnew) as Hread.
  apply jbind_Ok in H as (next & s0 & [-> Hnext]%jquery_Ok & H). apply jbind_Ok in H as ([] & s1 & ->%jmodify_Ok & H).
  apply jbind_Ok in H as ([] & s2 & Hcommit & H). apply jbind_Ok in H as ([] & s3 & ->%jmodify_Ok & H).
  apply jbind_Ok in H as ([] & s4 & ->%jmodify_Ok & H). apply base_Ok in H as [-> Hu].
  set (fp := remember new unique.*1 (fill_dedupe_capacity s) (fill_fingerprints s)) in *.
  assert (exists dexes, map_res (fun f => dex_of (f_market f)) new = Ok dexes /\
    s2 = on_account r (with_fill_positions t next dexes new) (set_fingerprints fp s)) as (dexes & Hd & ->).
  { destruct next as [next|].
    - by apply commit_effect in Hcommit.
    - apply pair_equal_spec in Hcommit as [<- _]. destruct (new_dexes _ _ _ _ _ _ _ _ Hread) as [dexes Hd].
      exists dexes. split; [done|]. by destruct r, s. }
  exists r, (stamp c t (match zmax (time_ms <$> records) with Ok t => t | Raise _ => t end)
    (merge_fills snapshot unique new (fill_dedupe_capacity s) (with_fill_positions t next dexes new (account_state r s)))), fp.
  split_and!.
  - eapply am_fills; [done| |done]. destruct snapshot; [by injection Hnext|].
    apply fmap_Ok in Hnext as (p & -> & Hp). by exists p.
  - rewrite Hu. by eapply de_fills.
  - rewrite !on_account_compose, on_account_const. by destruct r.
Qed.

Lemma frame_moved message epoch t s s' u : apply_frame message epoch t s = (s', Ok u) ->
  epoch = connection_epoch s /\ 0 < t /\ exists s1, moved s s1 u /\
    s' = set_activity (Z.max (last_connection_activity_ms s1) t) s1.
Proof.
  unfold apply_frame. intros H. apply jbind_Ok in H as ([] & s0 & [-> Hv]%jquery_Ok & H).
  unfold validate_frame in Hv. destruct (_ =? 0); [done|]. destruct (epoch =? _) eqn:Ee; [|done].
  destruct (t <=? 0) eqn:Et; [done|]. apply Z.eqb_eq in Ee. apply Z.leb_gt in Et. split; [done|]. split; [done|].
  destruct message as [| | | | | |o]; try done. apply jbind_Ok in H as (u1 & s1 & Hg & H).
  apply jbind_Ok in H as ([] & s2 & ->%jmodify_Ok & H). apply pair_equal_spec in H as [<- [= <-]].
  exists s1. split; [|done]. unfold guarded in Hg. destruct (dispatch _ o t s) as [s3 [u2|]] eqn:Ed; [|done].
  injection Hg as <- <-. revert Ed. unfold dispatch. repeat case_bool_decide; intros Ed.
  - by eapply positions_moved.
  - by eapply spot_moved.
  - by eapply open_orders_moved.
  - by eapply order_updates_moved.
  - by eapply fills_moved.
  - unfold apply_twap_fills in Ed. destruct (obj_field "data" o); try done. destruct (obj_field "twapSliceFills" o0); try done.
    apply jbind_Ok in Ed as (fs & s4 & [-> _]%jlift_Ok & Ed). by eapply fills_moved.
  - done.
Qed.

(** * Histories of a stream *)

Inductive stream_op :=
  | OpConnect (received_ms : Z)
  | OpActivity (epoch received_ms : Z)
  | OpFrame (message : json) (epoch received_ms : Z)
  | OpScope (source_markets follower_markets : option (list string)).

(** The stream after an operation, whether it returned or raised, and the live
    fills it delivered. *)
Definition stream_step (o : stream_op) (s : AccountStream) : AccountStream * list FillRecord :=
  match o with
  | OpConnect t => ((begin_connection t s).1, [])
  | OpActivity e t => ((note_connection_activity e t s).1, [])
  | OpFrame m e t => match apply_frame m e t s with (s', Ok u) => (s', new_fills u) | (s', Raise _) => (s', []) end
  | OpScope a b => ((set_market_scope a b s).1, [])
  end.

Definition stream_run (ops : list stream_op) (s : AccountStream) : AccountStream * list FillRecord :=
  fold_left (fun acc o => let '(s', new) := stream_step o acc.1 in (s', acc.2 ++ new)) ops (s, []).

Lemma stream_run_snoc ops o s :
  stream_run (ops ++ [o]) s = ((stream_step o (stream_run ops s).1).1, (stream_run ops s).2 ++ (stream_step o (stream_run ops s).1).2).
Proof. unfold stream_run. rewrite fold_left_app. cbn. by destruct (stream_step _ _). Qed.

Lemma stream_run_ind (P : AccountStream -> list FillRecord -> Prop) s :
  P s [] -> (forall o s1 l, P s1 l -> P (stream_step o s1).1 (l ++ (stream_step o s1).2)) ->
  forall ops, P (stream_run ops s).1 (stream_run ops s).2.
Proof.
  intros H0 Hstep ops. induction ops as [|o ops IH] using rev_ind; [done|]. rewrite stream_run_snoc. by apply Hstep.
Qed.

(** What one operation of any kind does. *)
Inductive stream_moves (s : AccountStream) : AccountStream -> list FillRecord -> Prop :=
  | sm_same : stream_moves s s []
  | sm_connect t e : 0 <= t -> stream_moves s (MkStream (source_address s) (follower_address s) (fill_dedupe_capacity s)
      (source_account_mode s) (source_scope s) (follower_scope s) (accept_source_markets_outside_scope s) (source_dexes s)
      e t empty_account empty_account (fill_fingerprints s)) []
  | sm_activity t : stream_moves s (set_activity (Z.max (last_connection_activity_ms s) t) s) []
  | sm_frame r a' fp new t : account_moves s r (account_state r s) a' -> delivers s r fp new -> 0 < t ->
      stream_moves s (set_activity (Z.max (last_connection_activity_ms s) t)
        (on_account r (fun _ => a') (set_fingerprints fp s))) new
  | sm_scope ss fs dexes forget : stream_moves s ((if forget : bool then on_account SOURCE forget_perp_equity else id)
      (set_scope ss fs dexes s)) [].

Lemma stream_step_moves o s : stream_moves s (stream_step o s).1 (stream_step o s).2.
Proof.
  destruct o as [t|e t|m e t|a b]; cbn [stream_step fst snd].
  - unfold begin_connection. destruct (t <? 0) eqn:E; [constructor|]. apply Z.ltb_ge in E. by apply sm_connect.
  - unfold note_connection_activity, jbind, jquery. destruct (validate_frame e t s); [apply sm_activity|constructor].
  - destruct (apply_frame m e t s) as [s' [u|x]] eqn:E; cbn [fst snd].
    + apply frame_moved in E as (-> & Ht & s1 & (r & a' & fp & Hm & Hd & ->) & ->).
      assert (last_connection_activity_ms (on_account r (fun _ => a') (set_fingerprints fp s)) = last_connection_activity_ms s)
        as -> by (by destruct r). by apply sm_frame.
    + apply frame_atomic in E as [-> _]. constructor.
  - unfold set_market_scope, jbind, jlift, jquery, jmodify. destruct (market_scope a) as [ss|]; [|constructor].
    destruct (scope_missing _ ss); [constructor|]. destruct (scope_dexes ss) as [dexes|]; [|constructor].
    destruct (market_scope b) as [fs|]; [|constructor].
    destruct (_ && _); [apply (sm_scope s ss fs dexes true)|apply (sm_scope s ss fs dexes false)].
Qed.

(** * The dedupe state *)

Section Dedupe.
Context {V : Type}.
Implicit Types d : list (fill_id * V).

Lemma move_to_end_perm k d : NoDup d.*1 -> move_to_end k d ≡ₚ d.
Proof.
  intros Hn. unfold move_to_end. destruct (id_get k d) as [v|] eqn:E; [|done].
  revert E. induction d as [|[k' v'] d IH]; [done|]. apply list.NoDup_cons in Hn as [Hk Hn].
  rewrite filter_cons. cbn [id_get fst]. case_decide as Ek.
  - intros [= <-]. subst k'. rewrite decide_False by (by intros []). rewrite (comm (++)). cbn. f_equiv.
    assert (filter (fun kv => kv.1 <> k) d = d) as ->; [|done].
    clear IH Hn. induction d as [|[k2 v2] d IHd]; [done|]. apply not_elem_of_cons in Hk as [Hne Hk].
    rewrite filter_cons, decide_True by (intros E2; by apply Hne). f_equal. by apply IHd.
  - intros E. rewrite decide_True by (intros E2; by apply Ek). cbn. f_equiv. by apply IH.
Qed.

Lemma id_set_fresh k v d : k ∉ d.*1 -> id_set k v d = d ++ [(k, v)].
Proof.
  induction d as [|[k' v'] d IH]; cbn; [done|]. intros [Hne Hk]%not_elem_of_cons.
  rewrite decide_False by done. by rewrite IH.
Qed.

Lemma keys_perm d d' : d ≡ₚ d' -> d.*1 ≡ₚ d'.*1.
Proof. by intros ->. Qed.
End Dedupe.

Lemma remember_full new ids seen : NoDup (identity <$> new) -> NoDup seen.*1 ->
  (forall f, f ∈ new -> identity f ∉ seen.*1) ->
  exists full, remember new ids 0 seen = drop (List.length full) full /\
    (forall cap, remember new ids cap seen = drop (List.length full - cap) full) /\
    full ≡ₚ seen ++ ((fun f => (identity f, fill_fingerprint f)) <$> new).
Proof.
  intros Hnew Hseen Hfresh. unfold remember. cbv zeta.
  set (d1 := fold_left _ new seen). set (d2 := fold_left _ ids d1). exists d2.
  split; [by rewrite Nat.sub_0_r|]. split; [done|].
  assert (d1 ≡ₚ seen ++ ((fun f => (identity f, fill_fingerprint f)) <$> new)) as H1.
  { subst d1 d2. clear ids. revert seen Hseen Hfresh. induction new as [|f new IH]; intros seen Hseen Hfresh; cbn.
    - by rewrite app_nil_r.
    - cbn in Hnew. apply list.NoDup_cons in Hnew as [Hf Hnew].
      assert (identity f ∉ seen.*1) as Hfs by (apply Hfresh; by left). rewrite id_set_fresh by done.
      assert (NoDup (seen ++ [(identity f, fill_fingerprint f)]).*1) as Hn.
      { rewrite fmap_app. apply list.NoDup_app. split_and!; [done| |apply list.NoDup_singleton].
        intros x Hx ->%list_elem_of_singleton. done. }
      pose proof (move_to_end_perm (identity f) _ Hn) as Hp. rewrite IH.
      + rewrite Hp. by rewrite <- (assoc (++)).
      + done.
      + by rewrite (keys_perm _ _ Hp).
      + intros g Hg. rewrite (keys_perm _ _ Hp), fmap_app, not_elem_of_app. split; [apply Hfresh; by right|].
        intros E%list_elem_of_singleton. apply Hf. cbn in E. rewrite <- E. by apply list_elem_of_fmap_2. }
  assert (NoDup d1.*1) as Hd1.
  { rewrite (keys_perm _ _ H1), fmap_app. apply list.NoDup_app. rewrite <- list_fmap_compose. split_and!; [done| |done].
    intros x Hx (f & -> & Hf)%list_elem_of_fmap. by apply (Hfresh f). }
  rewrite <- H1. subst d2. clear H1. clearbody d1. revert d1 Hd1. induction ids as [|k ids IH]; intros d1 Hd1; cbn; [done|].
  pose proof (move_to_end_perm k _ Hd1) as Hp. rewrite IH; [done|]. by rewrite (keys_perm _ _ Hp).
Qed.

(** What the records of a frame bring to the dedupe state. *)
Lemma new_ids r account t b s records unique new : fills_read r account t b s records unique new ->
  NoDup (identity <$> new) /\ (forall f, f ∈ new -> identity f ∉ (fill_fingerprints s).*1).
Proof.
  intros H. split.
  - destruct H as [_ Huni ->].
    assert (identity <$> unique.*2 = unique.*1) as E.
    { pose proof (uo_key _ _ Huni) as Hk. clear - Hk. induction unique as [|[k f] unique IH]; [done|]. cbn.
      rewrite (proj1 (Hk k f ltac:(by left))). f_equal. apply IH. intros k' g Hin.
      destruct (Hk k' g) as [? ?]; [by right|]. done. }
    pose proof (uo_nodup _ _ Huni) as Hn. rewrite <- E in Hn. generalize dependent (unique.*2). intros l _ Hn.
    clear - Hn. induction l as [|f l IH]; [done|]. cbn in Hn. apply list.NoDup_cons in Hn as [Hf Hn].
    rewrite filter_cons. case_decide; [|by apply IH]. cbn. apply list.NoDup_cons. split; [|by apply IH].
    intros (g & E & [_ Hg]%list_elem_of_filter)%list_elem_of_fmap. apply Hf. rewrite E. by apply list_elem_of_fmap_2.
  - intros f Hf. destruct (new_in_records _ _ _ _ _ _ _ _ _ H Hf) as (_ & _ & Hn). by apply id_get_None.
Qed.

Definition dedupe_ok (s : AccountStream) : Prop :=
  NoDup (fill_fingerprints s).*1 /\ (List.length (fill_fingerprints s) <= fill_dedupe_capacity s)%nat.

Lemma drop_keys_nodup {V} n (d : list (fill_id * V)) : NoDup d.*1 -> NoDup (drop n d).*1.
Proof. rewrite fmap_drop. intros H. rewrite <- (take_drop n d.*1) in H. by apply list.NoDup_app in H as (_ & _ & H). Qed.

(** The dedupe state after one frame. *)
Lemma delivers_spec s r fp new : dedupe_ok s -> delivers s r fp new ->
  NoDup fp.*1 /\ (List.length fp <= fill_dedupe_capacity s)%nat /\ NoDup (identity <$> new) /\
  (forall f, f ∈ new -> identity f ∉ (fill_fingerprints s).*1) /\
  (List.length (fill_fingerprints s) <= List.length fp)%nat /\
  ((List.length fp < fill_dedupe_capacity s)%nat ->
     forall k, k ∈ (fill_fingerprints s).*1 \/ k ∈ identity <$> new -> k ∈ fp.*1).
Proof.
  intros [Hn Hl] [|account t b records unique new' Hread].
  - split_and!; try done; [constructor|by intros ? ?%not_elem_of_nil|by intros _ k [?|?%not_elem_of_nil]].
  - destruct (new_ids _ _ _ _ _ _ _ _ Hread) as [Hnd Hfresh].
    destruct (remember_full new' unique.*1 (fill_fingerprints s) Hnd Hn Hfresh) as (full & _ & -> & Hp).
    assert (NoDup full.*1) as Hfull.
    { rewrite (keys_perm _ _ Hp), fmap_app, <- list_fmap_compose. apply list.NoDup_app. split_and!; [done| |done].
      intros x Hx (f & -> & Hf)%list_elem_of_fmap. by apply (Hfresh f). }
    assert (List.length full = (List.length (fill_fingerprints s) + List.length new')%nat) as Hlen
      by (by rewrite (Permutation_length Hp), length_app, length_fmap).
    rewrite length_drop. split_and!.
    + by apply drop_keys_nodup.
    + lia.
    + destruct b; [constructor|done].
    + destruct b; [by intros f ?%not_elem_of_nil|done].
    + lia.
    + intros Hlt k Hk. assert (List.length full - fill_dedupe_capacity s = 0)%nat as -> by lia. rewrite drop_0.
      rewrite (keys_perm _ _ Hp), fmap_app, <- list_fmap_compose, elem_of_app. destruct Hk as [Hk|Hk]; [by left|right].
      destruct b; [by apply not_elem_of_nil in Hk|done].
Qed.

Lemma moves_dedupe s s' new : dedupe_ok s -> stream_moves s s' new ->
  dedupe_ok s' /\ fill_dedupe_capacity s' = fill_dedupe_capacity s /\ NoDup (identity <$> new) /\
  (forall f, f ∈ new -> identity f ∉ (fill_fingerprints s).*1) /\
  (List.length (fill_fingerprints s) <= List.length (fill_fingerprints s'))%nat /\
  ((List.length (fill_fingerprints s') < fill_dedupe_capacity s)%nat ->
     forall k, k ∈ (fill_fingerprints s).*1 \/ k ∈ identity <$> new -> k ∈ (fill_fingerprints s').*1).
Proof.
  intros Hs H.
  assert (forall s2, fill_fingerprints s2 = fill_fingerprints s -> fill_dedupe_capacity s2 = fill_dedupe_capacity s ->
    dedupe_ok s2 /\ fill_dedupe_capacity s2 = fill_dedupe_capacity s /\ NoDup (identity <$> []) /\
    (forall f, f ∈ [] -> identity f ∉ (fill_fingerprints s).*1) /\
    (List.length (fill_fingerprints s) <= List.length (fill_fingerprints s2))%nat /\
    ((List.length (fill_fingerprints s2) < fill_dedupe_capacity s)%nat ->
       forall k, k ∈ (fill_fingerprints s).*1 \/ k ∈ identity <$> [] -> k ∈ (fill_fingerprints s2).*1)) as Hsame.
  { intros s2 E1 E2. unfold dedupe_ok. rewrite E1, E2. split_and!; try done; try apply Hs; [constructor|by intros f ?%not_elem_of_nil|].
    by intros _ k [?|?%not_elem_of_nil]. }
  destruct H as [|t e _|t|r a' fp new t _ Hd _|ss fs dexes forget]; try (by apply Hsame); [|by destruct forget; apply Hsame].
  destruct (delivers_spec _ _ _ _ Hs Hd) as (H1 & H2 & H3 & H4 & H5 & H6). unfold dedupe_ok. by destruct r.
Qed.

(** * The state of an account *)

Definition market_named (mp : string * Position) : Prop :=
  exists m, valid_identity m /\ mp.1 = canonical m /\ pos_coin mp.2 = mp.1.

Record positions_ok (l : dict Position) : Prop := {
  ps_keys : NoDup (dict_keys l);
  ps_named : Forall market_named l;
}.

Record account_ok (cap : nat) (a : MutableAccount) : Prop := {
  ao_positions : positions_ok (positions a);
  ao_collateral : forall c, collateral a = Some c ->
    (0 <= dval (hold c) <= dval (total c))%Q /\ available c = dsub (total c) (hold c);
  ao_equity : forall d e, (d, e) ∈ perp_equity_by_dex a -> (0 <= dval e)%Q;
  ao_orders : orders_ok (open_orders a);
  ao_fills : (List.length (fills a) <= cap)%nat /\ Forall (fun f => (0 < dval (f_size f))%Q) (fills a);
  ao_times : forall d t, (d, t) ∈ position_observed_ms_by_dex a -> 0 < t;
}.

Lemma positions_ok_nil : positions_ok [].
Proof. split; constructor. Qed.

Lemma positions_ok_set l k p : positions_ok l -> market_named (k, p) -> positions_ok (dict_set k p l).
Proof.
  intros [Hk Hn] Hp. split; [by apply dict_set_NoDup|]. apply list.Forall_forall. intros [k' p'] [[= -> ->]|Hin]%dict_set_in; [done|].
  by apply (proj1 (list.Forall_forall _ _) Hn).
Qed.

Lemma position_step_ok t d acc item acc' : position_step t d acc item = Ok acc' -> positions_ok acc.1 -> positions_ok acc'.1.
Proof.
  unfold position_step. destruct acc as [ps seen]. destruct item as [| | | | | |it]; try done.
  destruct (default _ _) as [| | | | | |position]; try done.
  intros (rc & _ & (coin & Hq & H)%bind_Ok)%bind_Ok Hok. cbn [fst] in Hok. destruct (bool_decide _); [done|]. cbv zeta in H.
  destruct (obj_get "szi" position); [|done]. apply bind_Ok in H as (size & _ & H). apply bind_Ok in H as (lev & _ & H).
  destruct (deqb size dzero); [by injection H as <-|]. apply bind_Ok in H as (px & _ & [= <-]). cbn [fst].
  apply positions_ok_set; [done|]. apply qualify_inv in Hq as (mc & m & _ & Hm & -> & _). by exists m.
Qed.

Lemma parsed_positions_ok p t d l : parse_clearinghouse_positions p t d = Ok l -> positions_ok l.
Proof.
  unfold parse_clearinghouse_positions. destruct (obj_get _ p) as [[| | | | |raw|]|]; try done.
  intros (acc & H & [= <-])%bind_Ok. revert H. apply (fold_res_ind (fun acc => positions_ok acc.1)); [|apply positions_ok_nil].
  intros b x b' _ Hb H. by eapply position_step_ok.
Qed.

(** A frame of positions is well-formed. *)
Lemma frame_ok states f : frame_positions_of states = Ok f ->
  positions_ok (fp_all f) /\ (forall d t, (d, t) ∈ fp_observed f -> 0 < t).
Proof.
  apply (fold_res_ind (fun acc => positions_ok (fp_all acc) /\ (forall d t, (d, t) ∈ fp_observed acc -> 0 < t))).
  - intros acc d acc' _ [Hall Hobs] (st & t & ps & all & _ & Ht & Hps%parsed_positions_ok & Hadd & ->)%frame_step_inv.
    cbn [fp_all fp_observed]. split.
    + revert Hadd. apply (fold_res_ind positions_ok); [|done]. intros b [k p] b' Hin Hb H. unfold add_position in H.
      destruct (dict_mem _ b); [done|]. injection H as <-. apply positions_ok_set; [done|].
      by apply (proj1 (list.Forall_forall _ _) (ps_named _ Hps)).
    + intros d' t' [[= -> ->]|Hin]%dict_set_in; [by eapply positive_pos|by eapply Hobs].
  - split; [apply positions_ok_nil|by intros d t ?%not_elem_of_nil].
Qed.

Lemma dict_update_in {V} (new d : dict V) k v : (k, v) ∈ dict_update d new -> (k, v) ∈ d \/ (k, v) ∈ new.
Proof.
  unfold dict_update. revert d. induction new as [|[k' v'] new IH]; intros d; cbn; [by left|].
  intros [H|H]%IH; [|right; by right]. apply dict_set_in in H as [[= -> ->]|H]; [right; by left|by left].
Qed.

Lemma fill_positions_ok l fs l' : validated_fill_positions l fs = Ok l' -> positions_ok l ->
  (forall f, f ∈ fs -> exists m, valid_identity m /\ f_market f = canonical m) -> positions_ok l'.
Proof.
  intros H Hl Hfs. revert H. apply (fold_res_ind positions_ok); [|done]. intros b f b' Hin Hb H.
  unfold fill_position_step in H. destruct (start_position f); [|done]. cbv zeta in H. destruct (deqb _ _); [by injection H as <-|].
  destruct (negb _); [done|]. injection H as <-. apply positions_ok_set; [done|]. destruct (Hfs _ Hin) as (m & Hm & E).
  by exists m.
Qed.

Lemma bump_in dexes fs d t obs : (d, t) ∈ fold_left bump_dex (zip dexes fs) obs ->
  (forall f, f ∈ fs -> 0 < time_ms f) -> (forall d t, (d, t) ∈ obs -> 0 < t) -> 0 < t.
Proof.
  revert dexes obs. induction fs as [|f fs IH]; intros [|x dexes] obs; cbn; eauto. intros Hin Hf Hobs. apply (IH dexes _ Hin).
  - intros g Hg. apply Hf. by right.
  - intros d' t'. unfold bump_dex. cbn. intros [[= -> ->]|H]%dict_set_in; [|by eapply Hobs]. specialize (Hf f ltac:(by left)). lia.
Qed.

Lemma last_n_length {A} n (l : list A) : (List.length (last_n n l) <= n)%nat.
Proof. unfold last_n. rewrite length_drop. lia. Qed.

Lemma last_n_elem {A} n (l : list A) x : x ∈ last_n n l -> x ∈ l.
Proof. unfold last_n. intros H. rewrite <- (take_drop (List.length l - n) l). apply elem_of_app. by right. Qed.

Lemma account_ok_stamp cap c t o a : account_ok cap a -> account_ok cap (stamp c t o a).
Proof. by intros [H1 H2 H3 H4 H5 H6]. Qed.

Lemma merge_ok cap r account t b s records unique new a :
  fills_read r account t b s records unique new -> account_ok cap a -> account_ok cap (merge_fills b unique new cap a).
Proof.
  intros Hread Ha. destruct Ha as [H1 H2 H3 H4 [Hl Hf] H6].
  assert (forall l, Forall (fun f => (0 < dval (f_size f))%Q) l ->
    account_ok cap (set_fills a (last_n cap l))) as Hset.
  { intros l Hlf. split; try done. cbn. split; [apply last_n_length|].
    apply list.Forall_forall. intros f Hin%last_n_elem. by apply (proj1 (list.Forall_forall _ _) Hlf). }
  assert (forall f, f ∈ records -> (0 < dval (f_size f))%Q) as Hrec.
  { intros f Hin. apply (fo_size account t (connection_epoch s) b).
    by apply (proj1 (list.Forall_forall _ _) (fr_records _ _ _ _ _ _ _ _ Hread)). }
  unfold merge_fills. destruct (b && _); apply Hset.
  - apply list.Forall_forall. intros f ([k g] & -> & Hin)%list_elem_of_fmap. apply Hrec.
    by apply (uo_key _ _ (fr_unique _ _ _ _ _ _ _ _ Hread) k g).
  - apply Forall_app. split; [done|]. apply list.Forall_forall. intros f Hin.
    by apply Hrec, (new_in_records _ _ _ _ _ _ _ _ _ Hread Hin).
Qed.

Lemma fill_positions_account_ok cap r account t b s records unique new next dexes a :
  fills_read r account t b s records unique new ->
  (if b then next = None else exists p, next = Some p /\ validated_fill_positions (positions a) new = Ok p) ->
  account_ok cap a -> account_ok cap (with_fill_positions t next dexes new a).
Proof.
  intros Hread Hnext Ha. unfold with_fill_positions. destruct next as [p|]; [|done].
  assert (validated_fill_positions (positions a) new = Ok p) as Hp.
  { destruct b; [done|]. by destruct Hnext as (p' & [= <-] & H). }
  assert (forall f, f ∈ new -> 0 < time_ms f /\ exists m, valid_identity m /\ f_market f = canonical m) as Hnew.
  { intros f Hf. destruct (new_in_records _ _ _ _ _ _ _ _ _ Hread Hf) as (_ & Hok & _). split; apply Hok. }
  destruct Ha as [H1 H2 H3 H4 H5 H6].
  assert (account_ok cap (set_positions a p)) as Hset.
  { split; try done. cbn. eapply fill_positions_ok; [done..|]. intros f Hf. by apply Hnew. }
  destruct new as [|f new]; [done|]. destruct Hset as [S1 S2 S3 S4 S5 S6]. split; try done. cbn [set_observed_by_dex position_observed_ms_by_dex].
  intros d x Hin. eapply bump_in; [exact Hin| |exact H6]. intros g Hg. by apply Hnew.
Qed.

Lemma moves_ok s r a a' : account_ok (fill_dedupe_capacity s) a -> account_moves s r a a' ->
  account_ok (fill_dedupe_capacity s) a'.
Proof.
  intros Ha [states f t newest standard Hf Hchk Hstd|total hold observed t Hcol _|orders t stamped Hord|account t c b records unique new next dexes observed Hread Hnext Hd].
  - destruct Ha as [H1 H2 H3 H4 H5 H6]. apply frame_ok in Hf as [Hps Htimes].
    destruct standard as [[equity oldest]|]; (split; [done|done| |done|done|]).
    + cbn. intros d e. by eapply Hstd.
    + cbn. intros d x [Hin|Hin]%dict_update_in; [by eapply H6|by eapply Htimes].
    + done.
    + cbn. intros d x [Hin|Hin]%dict_update_in; [by eapply H6|by eapply Htimes].
  - apply account_ok_stamp. destruct Ha as [H1 H2 H3 H4 H5 H6]. split; try done. by intros c [= <-].
  - destruct Ha as [H1 H2 H3 H4 H5 H6]. destruct stamped; [apply account_ok_stamp|]; split; try done; by apply Hord.
  - apply account_ok_stamp. eapply merge_ok; [done|]. by eapply fill_positions_account_ok.
Qed.

Lemma empty_account_ok cap : account_ok cap empty_account.
Proof.
  split; cbn; try done; [apply positions_ok_nil|by intros ? ? ?%not_elem_of_nil|apply orders_ok_nil| |by intros ? ? ?%not_elem_of_nil].
  split; [lia|constructor].
Qed.

Record stream_ok (s : AccountStream) : Prop := {
  so_accounts : forall r, account_ok (fill_dedupe_capacity s) (account_state r s);
  so_dedupe : dedupe_ok s;
}.

Lemma stream_moves_ok s s' new : stream_ok s -> stream_moves s s' new -> stream_ok s'.
Proof.
  intros [Ha Hd] H. split; [|by eapply moves_dedupe].
  destruct H as [|t e _|t|r a' fp new t Hm _ _|ss fs dexes forget]; try done.
  - intros []; apply empty_account_ok.
  - assert (account_ok (fill_dedupe_capacity s) a') as Ha' by (by eapply moves_ok).
    intros r'. pose proof (Ha r') as Hr. by destruct r, r'.
  - intros r. pose proof (Ha r) as Hr. destruct forget, r; try done. destruct Hr as [H1 H2 H3 H4 H5 H6]. split; try done.
    by intros ? ? ?%not_elem_of_nil.
Qed.

Lemma made_ok src fol mode sm fm accept cap s : make_stream src fol mode sm fm accept cap = Ok s -> stream_ok s.
Proof.
  unfold make_stream. intros (a & _ & (b & _ & H)%bind_Ok)%bind_Ok. destruct (bool_decide _); [done|].
  destruct (cap <? 1); [done|]. cbv zeta in H. destruct (negb _); [done|]. apply bind_Ok in H as (ss & _ & H).
  apply bind_Ok in H as (fs & _ & H). destruct (scope_missing _ _); [done|]. apply bind_Ok in H as (dexes & _ & [= <-]).
  split; [intros []; apply empty_account_ok|]. split; [constructor|cbn; lia].
Qed.

Lemma run_ok ops s : stream_ok s -> stream_ok (stream_run ops s).1.
Proof.
  intros Hs. apply (stream_run_ind (fun s1 _ => stream_ok s1)); [done|]. intros o s1 _ H1.
  eapply stream_moves_ok; [done|apply stream_step_moves].
Qed.

(** * Positions and fills *)

(** The size of a market, zero without a position. *)
Definition size_of (m : string) (l : dict Position) : dec :=
  match dict_get m l with None => dzero | Some p => pos_size p end.

(** What a fill adds to the position. *)
Definition fill_change (f : FillRecord) : Q := if bool_decide (f_side f = "buy") then dval (f_size f) else (- dval (f_size f))%Q.

(** The fill takes a position of [start] to [stop]: by what it adds, exactly when the size and
    the sum fit the context and up to its rounding otherwise. *)
Definition takes (f : FillRecord) (start stop : Q) : Prop :=
  (Qabs (stop - (start + fill_change f)) <= 3 * ulp28 * (Qabs start + Qabs (dval (f_size f))))%Q /\
  (forall e e', on_grid e (dval (f_size f)) -> on_grid e' (start + fill_change f) -> stop == start + fill_change f)%Q.

(** The book of the venue: a fill of its chain names the position it starts from.  It is either
    applied, and then the book of its market, and no other, moves; or the book shows its end
    already. *)
Inductive chain : (string -> Q) -> list FillRecord -> (string -> Q) -> Prop :=
  | ch_done b b' : (forall m, b m == b' m)%Q -> chain b [] b'
  | ch_applied b b1 b' f fs start stop :
      start_position f = Some start -> takes f (dval start) stop -> (b (f_market f) == dval start)%Q ->
      (b1 (f_market f) == stop)%Q -> (forall m, m <> f_market f -> b1 m == b m)%Q ->
      chain b1 fs b' -> chain b (f :: fs) b'
  | ch_known b b' f fs start stop :
      start_position f = Some start -> takes f (dval start) stop -> (b (f_market f) == stop)%Q ->
      chain b fs b' -> chain b (f :: fs) b'.

Definition book_of (l : dict Position) (m : string) : Q := dval (size_of m l).

Lemma fill_takes f start : takes f (dval start) (dval (dadd start (fill_signed_size f))).
Proof.
  destruct ulp28_range as [U0 U1]. unfold takes, fill_change, fill_signed_size.
  pose proof (Qabs_nonneg (dval (f_size f))) as Hs0. pose proof (Qabs_nonneg (dval start)) as Hs1.
  assert (forall sg x, (Qabs (dval sg - x) <= ulp28 * Qabs (dval (f_size f)))%Q -> (Qabs x == Qabs (dval (f_size f)))%Q ->
    (Qabs (dval (dadd start sg) - (dval start + x)) <= 3 * ulp28 * (Qabs (dval start) + Qabs (dval (f_size f))))%Q) as Hsum.
  { intros sg x Hd Hx. pose proof (dadd_near start sg) as Hn. unfold near in Hn.
    rewrite Qabs_wd with (y := ((dval (dadd start sg) - (dval start + dval sg)) + (dval sg - x))%Q) by ring.
    eapply Qle_trans; [apply Qabs_triangle|].
    assert (Qabs (dval start + dval sg) <= Qabs (dval start) + (1 + ulp28) * Qabs (dval (f_size f)))%Q as Hb.
    { rewrite Qabs_wd with (y := ((dval start + x) + (dval sg - x))%Q) by ring.
      eapply Qle_trans; [apply Qabs_triangle|]. pose proof (Qabs_triangle (dval start) x). rewrite Hx in H. lra. }
    assert (forall y z, y <= z -> ulp28 * y <= ulp28 * z)%Q as Hmono by (clear -U0; intros y z Hyz; nra).
    pose proof (Hmono _ _ Hb) as H1. set (A := Qabs (dval start)) in *. set (B := Qabs (dval (f_size f))) in *.
    assert (0 <= ulp28 * A /\ 0 <= ulp28 * B /\ ulp28 * (ulp28 * B) <= ulp28 * B)%Q as (HA & HB & HBB).
    { assert (0 <= ulp28 * A /\ 0 <= ulp28 * B)%Q as [HA HB] by (split; apply Qmult_le_0_compat; lra).
      split_and!; [done..|]. apply Hmono. clear -HB Hs0 U0 U1. nra. }
    lra. }
  destruct (bool_decide _).
  - split; [apply Hsum; [|reflexivity]|intros e e' _ He; by eapply dadd_on_grid].
    rewrite Qabs_wd with (y := 0%Q) by ring. change (Qabs 0) with 0%Q. apply Qmult_le_0_compat; lra.
  - split.
    + apply Hsum; [|apply Qabs_opp]. pose proof (dopp_near (f_size f)) as Hn. unfold near in Hn. by rewrite Qabs_opp in Hn.
    + intros e e' He He'. assert (dval (dopp (f_size f)) == - dval (f_size f))%Q as E by by eapply dopp_on_grid.
      rewrite <- E in He' |- *. by eapply dadd_on_grid.
Qed.

Lemma fill_step_size l f l' : fill_position_step l f = Ok l' ->
  exists start, start_position f = Some start /\
    ((dval (size_of (f_market f) l) == dval start)%Q \/
     (dval (size_of (f_market f) l) == dval (dadd start (fill_signed_size f)))%Q) /\
    (dval (size_of (f_market f) l') == dval (dadd start (fill_signed_size f)))%Q /\
    (forall m, m <> f_market f -> dict_get m l' = dict_get m l).
Proof.
  unfold fill_position_step. destruct (start_position f) as [start|]; [|done]. cbv zeta.
  fold (size_of (f_market f) l). intros H. exists start. split; [done|].
  destruct (deqb (size_of _ l) (dadd _ _)) eqn:E1.
  - injection H as <-. apply deqb_spec in E1. split; [by right|done].
  - destruct (deqb (size_of _ l) start) eqn:E2; [|done]. apply deqb_spec in E2. injection H as <-. split; [by left|]. split.
    + unfold size_of at 1. rewrite dict_get_set_eq. cbn. reflexivity.
    + intros m Hm. by rewrite dict_get_set_ne by congruence.
Qed.

(** A fill whose end the position shows changes nothing. *)
Lemma fill_step_known l f l' start : start_position f = Some start -> fill_position_step l f = Ok l' ->
  (dval (size_of (f_market f) l) == dval (dadd start (fill_signed_size f)))%Q -> l' = l.
Proof.
  unfold fill_position_step. intros ->. cbv zeta. fold (size_of (f_market f) l). intros H E%deqb_spec. rewrite E in H. congruence.
Qed.

(** The positions refine the book of the venue. *)
Lemma chain_followed fs : forall l l', validated_fill_positions l fs = Ok l' ->
  chain (book_of l) fs (book_of l') /\
  (forall m, (forall f, f ∈ fs -> f_market f <> m) -> dict_get m l' = dict_get m l).
Proof.
  induction fs as [|f fs IH]; intros l l' H.
  { injection H as <-. split; [by constructor|done]. }
  unfold validated_fill_positions in H. cbn [fold_res] in H.
  destruct (fill_position_step l f) as [l1|] eqn:E; [|done]. destruct (IH l1 l' H) as [Hc Hm].
  pose proof E as (start & Hstart & Hcont & Hend & Hother)%fill_step_size.
  pose proof (fill_takes f start) as Ht. split.
  - destruct Hcont as [Hs|Hs].
    + eapply (ch_applied _ (book_of l1)); [exact Hstart|exact Ht|exact Hs|exact Hend| |exact Hc].
      intros m Hne. unfold book_of, size_of. by rewrite Hother.
    + assert (l1 = l) as -> by by eapply fill_step_known. by eapply ch_known.
  - intros m Hno. rewrite Hm by (intros g Hg; apply Hno; by right). apply Hother, not_eq_sym, Hno. by left.
Qed.

(** What [apply_fills] does to the positions. *)
Lemma fills_positions data t c channel s s' u : apply_fills data t c channel s = (s', Ok u) ->
  (forall r, r <> up_role u -> account_state r s' = account_state r s) /\
  validated_fill_positions (positions (account_state (up_role u) s)) (new_fills u) =
    Ok (positions (account_state (up_role u) s')) /\
  (initial_snapshot u = true -> new_fills u = []).
Proof.
  unfold apply_fills. intros H. apply jbind_Ok in H as ([[account r] o] & s0 & [-> _]%jquery_Ok & H).
  apply jbind_Ok in H as (snapshot & s0 & [-> _]%jquery_Ok & H). destruct (obj_field "fills" o) as [| | | | |rows|]; try done.
  apply jbind_Ok in H as (records & s0 & [-> _]%jquery_Ok & H). apply jbind_Ok in H as (unique & s0 & [-> _]%jlift_Ok & H).
  cbv zeta in H. apply jbind_Ok in H as ([new dups] & s0 & [-> _]%jquery_Ok & H).
  apply jbind_Ok in H as (next & s0 & [-> Hnext]%jquery_Ok & H). apply jbind_Ok in H as ([] & s1 & ->%jmodify_Ok & H).
  apply jbind_Ok in H as ([] & s2 & Hcommit & H). apply jbind_Ok in H as ([] & s3 & ->%jmodify_Ok & H).
  apply jbind_Ok in H as ([] & s4 & ->%jmodify_Ok & H). unfold base_update in H. apply jquery_Ok in H as [-> [= <-]].
  cbn [up_role new_fills initial_snapshot].
  assert (exists a2, s2 = on_account r (fun _ => a2) (set_fingerprints
      (remember new unique.*1 (fill_dedupe_capacity s) (fill_fingerprints s)) s) /\
    validated_fill_positions (positions (account_state r s)) (if snapshot then [] else new) = Ok (positions a2)) as (a2 & -> & Hp).
  { destruct snapshot.
    - injection Hnext as <-. apply pair_equal_spec in Hcommit as [<- _]. exists (account_state r s). split; [by destruct r, s|done].
    - apply fmap_Ok in Hnext as (p & Hp & ->). apply commit_effect in Hcommit as (dexes & _ & ->).
      rewrite on_account_const. eexists. split; [done|]. rewrite Hp. f_equal. by destruct r, new. }
  rewrite !on_account_compose. split; [by intros [] Hr; destruct r|]. split; [|by intros ->].
  rewrite on_account_state. rewrite Hp. f_equal. unfold merge_fills. by destruct (_ && _).
Qed.

(** * Time *)

Lemma dict_get_update {V} (new d : dict V) k : NoDup (dict_keys new) ->
  dict_get k (dict_update d new) = match dict_get k new with Some v => Some v | None => dict_get k d end.
Proof.
  unfold dict_update. revert d. induction new as [|[k' v'] new IH]; intros d; cbn; [done|].
  intros [Hk Hn]%list.NoDup_cons. rewrite IH by done. case_decide as E.
  - subst k'. assert (dict_get k new = None) as -> by (by apply dict_get_None). by rewrite dict_get_set_eq.
  - destruct (dict_get k new); [done|]. by rewrite dict_get_set_ne.
Qed.

Lemma frame_observed_nodup states f : frame_positions_of states = Ok f -> NoDup (dict_keys (fp_observed f)).
Proof.
  apply (fold_res_ind (fun acc => NoDup (dict_keys (fp_observed acc)))); [|constructor].
  intros acc d acc' _ H (? & ? & ? & ? & _ & _ & _ & _ & ->)%frame_step_inv. by apply dict_set_NoDup.
Qed.

Lemma checked_times a f : check_dexes a f = Ok tt -> forall d ps t, (d, ps) ∈ fp_by_dex f -> dict_get d (fp_observed f) = Some t ->
  default 0 (dict_get d (position_observed_ms_by_dex a)) <= t.
Proof.
  unfold check_dexes. intros H. assert (forall l acc, fold_res (fun _ dp => check_dex a f dp) l acc = Ok tt ->
    forall d ps, (d, ps) ∈ l -> check_dex a f (d, ps) = Ok tt) as Hall.
  { induction l as [|dp l IH]; intros acc Hl d ps; [by intros ?%not_elem_of_nil|]. cbn in Hl.
    destruct (check_dex a f dp) as [[]|] eqn:E; [|done]. intros [->|Hin]%elem_of_cons; [done|by eapply IH]. }
  intros d ps t Hin Ht. specialize (Hall _ _ H _ _ Hin). unfold check_dex in Hall. rewrite (dict_at_Some _ _ _ Ht) in Hall.
  cbn [mbind res_bind] in Hall. cbv zeta in Hall. destruct (t <? _) eqn:E; [done|]. by apply Z.ltb_ge in E.
Qed.

(** The account grew: no component is lost and no exchange time goes back. *)
Record grows (a a' : MutableAccount) : Prop := {
  gr_components : forall c, has_component c a = true -> has_component c a' = true;
  gr_times : forall d t, dict_get d (position_observed_ms_by_dex a) = Some t ->
    exists t', dict_get d (position_observed_ms_by_dex a') = Some t' /\ t <= t';
}.

Lemma grows_refl a : grows a a.
Proof. split; [done|]. intros d t H. exists t. split; [done|lia]. Qed.

Lemma grows_trans a b c : grows a b -> grows b c -> grows a c.
Proof.
  intros [C1 T1] [C2 T2]. split; [auto|]. intros d t H. destruct (T1 _ _ H) as (t1 & H1 & L1).
  destruct (T2 _ _ H1) as (t2 & H2 & L2). exists t2. split; [done|lia].
Qed.

Lemma has_component_stamp c c' t o a : has_component c a = true -> has_component c (stamp c' t o a) = true.
Proof.
  unfold has_component, dict_mem. rewrite !bool_decide_eq_true. intros H. unfold stamp. cbn [set_observed set_received component_received_ms].
  apply dict_set_keys_elem. by right.
Qed.

Lemma grows_stamp a c t o b : grows a b -> grows a (stamp c t o b).
Proof. intros [C T]. split; [|done]. intros c' H. by apply has_component_stamp, C. Qed.

Lemma grows_same a b : component_received_ms b = component_received_ms a ->
  position_observed_ms_by_dex b = position_observed_ms_by_dex a -> grows a b.
Proof. intros E1 E2. split; [unfold has_component; by rewrite E1|]. rewrite E2. intros d t H. exists t. split; [done|lia]. Qed.

Lemma bump_grows dexes fs obs d t : dict_get d obs = Some t ->
  exists t', dict_get d (fold_left bump_dex (zip dexes fs) obs) = Some t' /\ t <= t'.
Proof.
  revert dexes obs t. induction fs as [|f fs IH]; intros [|x dexes] obs t H; cbn; try (exists t; split; [done|lia]).
  assert (exists t1, dict_get d (bump_dex obs (x, f)) = Some t1 /\ t <= t1) as (t1 & H1 & L1).
  { unfold bump_dex. cbn. destruct (decide (x = d)) as [->|Hne].
    - rewrite dict_get_set_eq, H. eexists. split; [done|]. cbn. lia.
    - rewrite dict_get_set_ne by done. exists t. split; [done|lia]. }
  destruct (IH dexes _ _ H1) as (t2 & H2 & L2). exists t2. split; [done|lia].
Qed.

Lemma moves_grows s r a a' : account_moves s r a a' -> grows a a'.
Proof.
  intros [states f t newest standard Hf Hchk _|total hold observed t _ _|orders t stamped _|account t c b records unique new next dexes observed _ _ _].
  - split.
    + intros c H. unfold with_positions. cbv zeta.
      match goal with |- has_component c (set_observed_by_dex (stamp _ _ _ ?b) _) = true =>
        change (has_component c (stamp POSITIONS t newest b) = true) end.
      apply has_component_stamp. destruct standard as [[]|]; [by apply has_component_stamp|done].
    + intros d x H. assert (position_observed_ms_by_dex (with_positions t newest standard f a) =
        dict_update (position_observed_ms_by_dex a) (fp_observed f)) as -> by (by destruct standard as [[]|]).
      rewrite dict_get_update by (by eapply frame_observed_nodup).
      destruct (dict_get d (fp_observed f)) as [t'|] eqn:E; [|exists x; split; [done|lia]]. exists t'. split; [done|].
      destruct (frame_keys _ _ Hf) as [Ho Hb]. assert (d ∈ dict_keys (fp_by_dex f)) as Hd.
      { apply Hb, Ho. apply dict_get_Some_in in E. apply list_elem_of_fmap. by exists (d, t'). }
      apply list_elem_of_fmap in Hd as ([d' ps] & -> & Hin). pose proof (checked_times _ _ Hchk _ _ _ Hin E) as Hle.
      cbn in H. by rewrite H in Hle.
  - by apply grows_stamp, grows_same.
  - destruct stamped; [apply grows_stamp|]; by apply grows_same.
  - apply grows_stamp. apply (grows_trans _ (with_fill_positions t next dexes new a)).
    + unfold with_fill_positions. destruct next as [p|]; [|apply grows_refl]. destruct new as [|f new]; [by apply grows_same|].
      split; [intros c' H; by apply has_component_stamp|]. intros d x H. by apply bump_grows.
    + unfold merge_fills. destruct (_ && _); by apply grows_same.
Qed.

Lemma quiet_step o s : match o with OpConnect _ | OpScope _ _ => False | _ => True end ->
  let s' := (stream_step o s).1 in
  (forall r, grows (account_state r s) (account_state r s')) /\ source_account_mode s' = source_account_mode s /\
  last_connection_activity_ms s <= last_connection_activity_ms s' /\ connection_epoch s' = connection_epoch s.
Proof.
  intros Ho. destruct o as [|e t|m e t|]; try done; cbn [stream_step fst].
  - unfold note_connection_activity, jbind, jquery. destruct (validate_frame e t s);
      (split; [intros r; by apply grows_same|split; [done|split; [cbn; lia|done]]]).
  - destruct (apply_frame m e t s) as [s' [u|x]] eqn:E; cbn [fst].
    + apply frame_moved in E as (_ & _ & s1 & (r & a' & fp & Hm & _ & ->) & ->). apply moves_grows in Hm.
      split; [|destruct r; (split; [done|split; [cbn; lia|done]])].
      intros r'. destruct r, r'; try apply Hm; apply grows_refl.
    + apply frame_atomic in E as [-> _]. split; [intros r; apply grows_refl|split; [done|split; [lia|done]]].
Qed.

(** * Properties *)

(** A frame that is refused leaves no trace.  Whatever the message, its epoch and
    its timestamp: when [apply] raises, it raises [AccountStreamError] and nothing
    else, and the stream is exactly as before, its freshness included; so a bad
    row cannot half-apply the frame it came in. *)
Theorem refused_frame_changes_nothing message epoch t s s' e :
  apply_frame message epoch t s = (s', Raise e) -> s' = s /\ exists msg, e = AccountStreamError msg.
Proof. apply frame_atomic. Qed.

(** C5. Live fills are delivered once.  Over any history of connections, frames,
    refused frames and scope changes, while the dedupe state has not reached its
    capacity: no trade of an account is delivered twice, and none is delivered
    that the stream had already seen, in a snapshot, on either fill feed or on an
    earlier connection. *)
Theorem live_fills_delivered_once s ops s' delivered :
  stream_ok s -> stream_run ops s = (s', delivered) ->
  (List.length (fill_fingerprints s') < fill_dedupe_capacity s)%nat ->
  NoDup (identity <$> delivered) /\
  (forall f, f ∈ delivered -> identity f ∉ (fill_fingerprints s).*1 /\ identity f ∈ (fill_fingerprints s').*1).
Proof.
  intros Hs Hrun.
  pose proof (stream_run_ind (fun s1 l => dedupe_ok s1 /\ fill_dedupe_capacity s1 = fill_dedupe_capacity s /\
    ((List.length (fill_fingerprints s1) < fill_dedupe_capacity s)%nat ->
     NoDup (identity <$> l) /\ (forall k, k ∈ (fill_fingerprints s).*1 -> k ∈ (fill_fingerprints s1).*1) /\
     (forall f, f ∈ l -> identity f ∉ (fill_fingerprints s).*1 /\ identity f ∈ (fill_fingerprints s1).*1))) s) as Hind.
  destruct (Hind) with (ops := ops) as (_ & _ & H).
  - split; [apply Hs|]. split; [done|]. intros _. split; [constructor|]. split; [done|by intros f ?%not_elem_of_nil].
  - intros o s1 l (Hd1 & Hc1 & H1).
    destruct (moves_dedupe _ _ _ Hd1 (stream_step_moves o s1)) as (Hd2 & Hc2 & Hn & Hf & Hle & Hin).
    split; [done|]. split; [congruence|]. rewrite Hc1 in Hin. intros Hlt. specialize (Hin Hlt).
    destruct H1 as (N1 & I1 & F1); [lia|]. split_and!.
    + rewrite fmap_app. apply list.NoDup_app. split_and!; [done| |done].
      intros x (f & -> & Hfl)%list_elem_of_fmap (g & E & Hg)%list_elem_of_fmap. apply (Hf g Hg). rewrite <- E. by apply F1.
    + intros k Hk. apply Hin. left. by apply I1.
    + intros f [Hfl|Hfl]%elem_of_app.
      * split; [by apply F1|]. apply Hin. left. by apply F1.
      * split; [|apply Hin; right; by apply list_elem_of_fmap_2]. intros Hk. by apply (Hf f Hfl), I1.
  - rewrite Hrun in H. cbn [fst snd] in H. intros Hlt. destruct (H Hlt) as (N & _ & F). by split.
Qed.

(** C37. The account state is always well-formed.  Whatever frames arrive, valid or
    not, on any number of connections: positions are keyed by distinct canonical
    markets and carry their market; the collateral hold lies between zero and the
    total and the available amount is their difference; no DEX equity is
    negative; every open order has a positive size and an identifier and no two
    share one; exchange times are positive; and neither the fill history nor the
    dedupe state outgrows the capacity. *)
Theorem account_state_well_formed src fol mode sm fm accept cap s ops r :
  make_stream src fol mode sm fm accept cap = Ok s ->
  account_ok (fill_dedupe_capacity s) (account_state r (stream_run ops s).1) /\
  NoDup (fill_fingerprints (stream_run ops s).1).*1 /\
  (Z.of_nat (List.length (fill_fingerprints (stream_run ops s).1)) <= cap).
Proof.
  intros Hmake. assert (Z.of_nat (fill_dedupe_capacity s) = cap) as Hcap.
  { unfold make_stream in Hmake. apply bind_Ok in Hmake as (a & _ & H). apply bind_Ok in H as (b & _ & H). destruct (bool_decide _); [done|].
    destruct (cap <? 1) eqn:E; [done|]. apply Z.ltb_ge in E. cbv zeta in H. destruct (negb _); [done|]. apply bind_Ok in H as (ss & _ & H).
    apply bind_Ok in H as (fs & _ & H). destruct (scope_missing _ _); [done|]. apply bind_Ok in H as (dexes & _ & [= <-]). cbn. lia. }
  apply made_ok in Hmake. pose proof (stream_run_ind (fun s1 _ => stream_ok s1 /\ fill_dedupe_capacity s1 = fill_dedupe_capacity s) s) as Hind.
  destruct (Hind) with (ops := ops) as [[Ha [Hn Hl]] Hc].
  - done.
  - intros o s1 _ [H1 Hc1]. split; [by eapply stream_moves_ok, stream_step_moves|].
    destruct (moves_dedupe _ _ _ (so_dedupe _ H1) (stream_step_moves o s1)) as (_ & E & _). congruence.
  - rewrite Hc in Hl. split; [|split; [done|lia]]. rewrite <- Hc. apply Ha.
Qed.

(** C6. Positions follow the fills of the venue.  An accepted frame of fills moves the
    positions along the venue's own chain: each live fill names its start position, and the
    position of its market is that start, and then moves by the size of the fill, up for a
    buy and down for a sell, or is already where the fill ends.  The move is exact when the
    numbers fit 28 digits and within the rounding of the context otherwise.  Markets without
    a fill and the other account are untouched, and a snapshot moves nothing. *)
Theorem positions_follow_fills data t c channel s s' u :
  apply_fills data t c channel s = (s', Ok u) ->
  let before := positions (account_state (up_role u) s) in
  let after := positions (account_state (up_role u) s') in
  chain (book_of before) (new_fills u) (book_of after) /\
  (forall m, (forall f, f ∈ new_fills u -> f_market f <> m) -> dict_get m after = dict_get m before) /\
  (initial_snapshot u = true -> after = before) /\
  (forall r, r <> up_role u -> account_state r s' = account_state r s).
Proof.
  intros H before after. destruct (fills_positions _ _ _ _ _ _ _ H) as (Hother & Hp & Hsnap).
  destruct (chain_followed _ _ _ Hp) as (H1 & H2). split_and!; try done.
  intros Hs. rewrite Hsnap in Hp by done. by injection Hp.
Qed.

(** Within a connection nothing known is lost and time does not run backwards.
    As long as no new connection is begun and the scope is kept, whatever frames
    and activity arrive: every component that was received stays received, so a
    baseline that is complete stays complete; the exchange time of each DEX never
    decreases; and neither does the last activity. *)
Theorem baseline_never_lost s ops :
  Forall (fun o => match o with OpConnect _ | OpScope _ _ => False | _ => True end) ops ->
  let s' := (stream_run ops s).1 in
  (baseline_ready s = true -> baseline_ready s' = true) /\
  (forall r d x, dict_get d (position_observed_ms_by_dex (account_state r s)) = Some x ->
     exists x', dict_get d (position_observed_ms_by_dex (account_state r s')) = Some x' /\ x <= x') /\
  last_connection_activity_ms s <= last_connection_activity_ms s' /\ connection_epoch s' = connection_epoch s.
Proof.
  intros Hops. cbv zeta.
  assert ((forall r, grows (account_state r s) (account_state r (stream_run ops s).1)) /\
    source_account_mode (stream_run ops s).1 = source_account_mode s /\
    last_connection_activity_ms s <= last_connection_activity_ms (stream_run ops s).1 /\
    connection_epoch (stream_run ops s).1 = connection_epoch s) as (Hg & Hmode & Hact & Hep).
  { induction ops as [|o ops IH] using rev_ind.
    - split_and!; [intros r; apply grows_refl|done|cbn; lia|done].
    - apply Forall_app in Hops as [Hops Ho]. apply list.Forall_cons in Ho as [Ho _]. destruct (IH Hops) as (G & M & A & E).
      rewrite stream_run_snoc. cbn [fst]. destruct (quiet_step o (stream_run ops s).1 Ho) as (G' & M' & A' & E').
      split_and!; [intros r; eapply grows_trans; [apply G|apply G']|congruence|lia|congruence]. }
  split_and!; try done; [|intros r d x; apply (Hg r)].
  unfold baseline_ready, baseline_complete. rewrite !andb_true_iff, !forallb_forall. cbn [snapshot required_components sn_state].
  rewrite Hmode. intros [H1 H2]. split; intros c Hc; [by apply (Hg SOURCE), H1|by apply (Hg FOLLOWER), H2].
Qed.

(** * Witnesses *)

Definition source_address_text : string := "0x1111111111111111111111111111111111111111".
Definition follower_address_text : string := "0x2222222222222222222222222222222222222222".

Definition sample_stream : AccountStream :=
  match make_stream source_address_text follower_address_text "unified" None None false 100 with
  | Ok s => s
  | Raise _ => MkStream "" "" 0 "" None None false ∅ 0 0 empty_account empty_account []
  end.

Definition sample_fill_row (tid : Z) (start size : string) : json :=
  JObj [("coin", JStr "BTC"); ("hash", JStr "0xAb"); ("tid", JInt tid); ("side", JStr "B"); ("sz", JStr size);
        ("px", JStr "100"); ("startPosition", JStr start); ("time", JInt (1000 + tid))].

Definition sample_fills (snapshot : bool) (rows : list json) : json :=
  JObj [("channel", JStr "userFills"); ("data", JObj [("user", JStr source_address_text);
    ("isSnapshot", JBool snapshot); ("fills", JList rows)])].

(** A snapshot with trade 1, then trades 1 and 2 live, then trade 2 again after a
    reconnect, and a refused frame. *)
Definition sample_stream_ops : list stream_op :=
  [OpConnect 1000; OpFrame (sample_fills true [sample_fill_row 1 "0" "1"]) 1 1001;
   OpFrame (sample_fills false [sample_fill_row 1 "0" "1"; sample_fill_row 2 "0" "2"]) 1 1002;
   OpConnect 1010; OpFrame (sample_fills true [sample_fill_row 2 "0" "2"]) 2 1011;
   OpFrame (sample_fills false [sample_fill_row 3 "7" "1"]) 2 1012].

Definition live_stream : AccountStream := (stream_run (take 2 sample_stream_ops) sample_stream).1.

Lemma sample_stream_ok : stream_ok sample_stream.
Proof. by apply (made_ok source_address_text follower_address_text "unified" None None false 100). Qed.

Lemma refused_frame_changes_nothing_witness :
  exists e, apply_frame (sample_fills false [sample_fill_row 3 "0" "1"; sample_fill_row 4 "7" "1"]) 1 1002 live_stream
    = (live_stream, Raise e) /\ exists msg, e = AccountStreamError msg.
Proof.
  destruct (apply_frame (sample_fills false [sample_fill_row 3 "0" "1"; sample_fill_row 4 "7" "1"]) 1 1002 live_stream)
    as [s' [u|e]] eqn:E; [vm_compute in E; discriminate|].
  destruct (refused_frame_changes_nothing _ 1 1002 live_stream s' e E) as [-> H]. exists e. split; [reflexivity|exact H].
Defined.

Lemma live_fills_delivered_once_witness :
  (fun f => tid f) <$> (stream_run sample_stream_ops sample_stream).2 = ["2"] /\
  NoDup (identity <$> (stream_run sample_stream_ops sample_stream).2).
Proof.
  split; [vm_compute; reflexivity|].
  refine (proj1 (live_fills_delivered_once sample_stream sample_stream_ops _ _ sample_stream_ok
    (surjective_pairing (stream_run sample_stream_ops sample_stream)) _)).
  apply Nat.ltb_lt. vm_compute. reflexivity.
Defined.

Lemma account_state_well_formed_witness :
  account_ok 100 (account_state SOURCE (stream_run sample_stream_ops sample_stream).1).
Proof.
  refine (proj1 (account_state_well_formed source_address_text follower_address_text "unified" None None false 100
    sample_stream sample_stream_ops SOURCE _)).
  vm_compute. reflexivity.
Defined.

Definition live_result : AccountStream * res AccountStreamUpdate :=
  apply_fills (match sample_fills false [sample_fill_row 1 "0" "1"; sample_fill_row 2 "0" "2"] with
               | JObj o => obj_field "data" o | _ => JNull end) 1002 FILLS "userFills" live_stream.

Definition live_update : AccountStreamUpdate :=
  match live_result.2 with Ok u => u | Raise _ => MkUpdate "" "" SOURCE 0 false false [] 0 end.

Lemma positions_follow_fills_witness :
  chain (book_of (positions (source_state live_stream))) (new_fills live_update) (book_of (positions (source_state live_result.1))) /\
  deqb (size_of "BTC" (positions (source_state live_result.1))) (dint 2) = true.
Proof.
  split; [|vm_compute; reflexivity].
  assert (live_result = (live_result.1, Ok live_update)) as E by (vm_compute; reflexivity).
  exact (proj1 (positions_follow_fills _ 1002 FILLS "userFills" live_stream live_result.1 live_update E)).
Defined.

Lemma baseline_never_lost_witness :
  connection_epoch (stream_run [OpActivity 1 1005; OpFrame JNull 1 1006] live_stream).1 = connection_epoch live_stream.
Proof.
  refine (proj2 (proj2 (proj2 (baseline_never_lost live_stream [OpActivity 1 1005; OpFrame JNull 1 1006] _)))).
  repeat constructor.
Defined.
