(* ===== verification/FollowerRefresh.v ===== *)
(** reconciliation.py: the follower truth of the older service.  [refresh_follower] asks the
    exchange for positions, balance, orders and ledger rows, and publishes one revision.

    [info] is the exchange during one refresh: the answer to a request, or the exception of
    the client.  The lock per follower makes the refreshes of one follower sequential; what
    other tasks publish until the revision is published is the book of that moment.  The text
    of the journal row is left out, its outcome is an input. *)

From S2P Require Import Prelude PyDecimal PyText Models Markets OrderStatus AccountParsing AccountState.

Open Scope Z_scope.

Definition obj : Type := list (string * json).

(** * The balance *)

Definition token0_usdc (row : json) : bool :=
  match row with
  | JObj o => String.eqb (py_upper (str_or_empty (obj_field "coin" o))) "USDC" &&
              String.eqb (py_str (match obj_field "token" o with JNull => JStr "0" | v => v end)) "0"
  | _ => false
  end.

(** [_unified_spot_usdc_collateral]: the account value and the available margin. *)
Definition unified_spot_usdc_collateral (spot_state : obj) : res (dec * dec) :=
  match obj_field "balances" spot_state with
  | JList balances =>
      match List.filter token0_usdc balances with
      | [JObj row] =>
          '(total, hold) ← catch (total ← parse_decimal (obj_field "total" row);
                                   hold ← parse_decimal (obj_field "hold" row);
                                   Ok (total, hold)) is_parse_error
                             (fun _ => Raise (ValueError "unified follower token-0 USDC total/hold is malformed"));
          if dnegative total then Raise (ValueError "unified follower token-0 USDC total must be finite and non-negative")
          else if dnegative hold || dltb total hold then Raise (ValueError "unified follower token-0 USDC hold is invalid")
          else Ok (total, dsub total hold)
      | _ => Raise (ValueError "unified follower requires exactly one token-0 USDC balance")
      end
  | _ => Raise (ValueError "unified follower spot balances are missing")
  end.

(** * Divergence *)

(** [a != b] *)
Definition pyeqb (a b : pydec) : bool :=
  match a, b with Fin x, Fin y => deqb x y | Inf m, Inf n => Bool.eqb m n | _, _ => false end.

Definition differs (projected confirmed : dict RawPosition) (symbol : string) : bool :=
  let p := position_at symbol projected in
  let c := position_at symbol confirmed in
  negb (pyeqb (pos_size p) (pos_size c)) ||
  (negb (pyeqb (pos_size p) (Fin dzero)) && negb (pyeqb (pos_size c) (Fin dzero)) &&
   negb (bool_decide (pos_leverage p = pos_leverage c))).

(** [_position_divergence] *)
Definition position_divergence (projected confirmed : dict RawPosition) : list string :=
  py_sorted str_leb (List.filter (differs projected confirmed)
    (elements (list_to_set (dict_keys projected) ∪ list_to_set (dict_keys confirmed) : gset string))).

(** * The non-funding ledger *)

Section Digest.
Context (sha256 : string -> string).

(** The time and the identity of one row. *)
Definition ledger_row (row : json) : res (Z * string) :=
  match row with
  | JObj o =>
      match int_instance (obj_field "time" o), obj_field "delta" o with
      | Some raw_time, JObj _ => Ok (raw_time, sha256 (of_chars (json_dumps row)))
      | _, _ => Raise (ValueError "follower non-funding ledger identity is malformed")
      end
  | _ => Raise (ValueError "follower non-funding ledger row is malformed")
  end.

Record LedgerScan := MkLedgerScan {
  ls_seen : gset string;
  ls_retained : gset string;
  ls_new : list json;
}.

Definition ledger_step (first_baseline : bool) (received : Z) (acc : LedgerScan) (row : json) : res LedgerScan :=
  '(raw_time, identity) ← ledger_row row;
  let retained := if received - 60000 <=? raw_time then {[identity]} ∪ ls_retained acc else ls_retained acc in
  Ok (if bool_decide (identity ∈ ls_seen acc) then MkLedgerScan (ls_seen acc) retained (ls_new acc)
      else MkLedgerScan ({[identity]} ∪ ls_seen acc) retained (if first_baseline then ls_new acc else ls_new acc ++ [row])).

(** The cursor the audit continues from. *)
Definition prior_cursor (checkpoint : obj) (received : Z) : Z :=
  match int_instance (obj_field "cursor_ms" checkpoint) with Some z => z | None => Z.max 0 (received - 60000) end.

Definition ledger_request (account : string) (checkpoint : obj) (received : Z) : obj :=
  [("type", JStr "userNonFundingLedgerUpdates"); ("user", JStr account);
   ("startTime", JInt (Z.max 0 (prior_cursor checkpoint received - 60000))); ("endTime", JInt received)].

(** What one answer makes of the checkpoint, and the rows that are new. *)
Definition scan_ledger (checkpoint : obj) (received : Z) (raw_ledger : json) : res (obj * list json) :=
  match raw_ledger with
  | JList rows =>
      let seen := match obj_field "seen_identities" checkpoint with
                  | JList l => list_to_set (py_str <$> l)
                  | _ => ∅
                  end in
      scan ← fold_res (ledger_step (bool_decide (checkpoint = [])) received) rows (MkLedgerScan seen ∅ []);
      Ok ([("cursor_ms", JInt received);
           ("seen_identities", JList (JStr <$> py_sorted str_leb (elements (ls_retained scan))))], ls_new scan)
  | _ => Raise (ValueError "follower non-funding ledger response is malformed")
  end.

(** * The reconciler *)

Record Reconciler := MkReconciler {
  state_book : AccountStateBook;
  freshness_ms : Z;
  all_dexes : list string;
  follower_dexes : dict (gset string);
  monitor_nonfunding_ledger : bool;
}.

(** [Reconciler.__init__] *)
Definition new_reconciler (book : AccountStateBook) (freshness : Z) (dexes : list string) (monitor : bool) : res Reconciler :=
  if freshness <=? 0 then Raise (ValueError "reconciler freshness must be positive")
  else Ok (MkReconciler book freshness dexes [] monitor).

Definition sorted_set (s : gset string) : list string := py_sorted str_leb (elements s).

Definition update_all_dexes (dexes : list string) : ST Reconciler unit := jmodify (fun r =>
  let normalized := sorted_set (list_to_set dexes ∪ list_to_set (all_dexes r) ∪ {[""]}) in
  MkReconciler (state_book r) (freshness_ms r) normalized
    ((fun kv => (kv.1, kv.2 ∪ list_to_set normalized)) <$> follower_dexes r) (monitor_nonfunding_ledger r)).

Definition set_known (account : string) (known : gset string) : ST Reconciler unit := jmodify (fun r =>
  MkReconciler (state_book r) (freshness_ms r) (all_dexes r) (dict_set account known (follower_dexes r)) (monitor_nonfunding_ledger r)).

(** [known = self._follower_dexes.setdefault(account, ...)]; [known.update(self.all_dexes)] *)
Definition known_of (r : Reconciler) (account : string) : gset string :=
  default (list_to_set (all_dexes r) ∪ {[""]}) (dict_get account (follower_dexes r)) ∪ list_to_set (all_dexes r).

Definition add_dex (request : obj) (dex : string) : obj := if is_empty dex then request else request ++ [("dex", JStr dex)].
Definition dex_payload (kind account dex : string) : obj := add_dex [("type", JStr kind); ("user", JStr account)] dex.

Section Refresh.
Context (info : obj -> res json).

(** The aggregate of a full audit, in the shape the parser of the stream reads. *)
Definition aggregate_states (account : string) (dexes : list string) (received : Z) : res (dict obj) :=
  '(user, states) ← fetch_all_dex_clearinghouse_states (fun dex => info (dex_payload "clearinghouseState" account dex)) account dexes;
  parsed ← parse_all_dexs_message
    [("channel", JStr "allDexsClearinghouseState");
     ("data", JObj [("user", JStr user); ("clearinghouseStates", JList ((fun ds => JList [JStr ds.1; JObj ds.2]) <$> states))])]
    account received;
  Ok (clearinghouse_states parsed).

(** The DEXes where a position is found are added one after the other. *)
Fixpoint held_dexes (received : Z) (states : dict obj) (known : gset string) : gset string * res unit :=
  match states with
  | [] => (known, Ok tt)
  | (dex, state) :: rest =>
      match parse_clearinghouse_positions state received dex with
      | Raise e => (known, Raise e)
      | Ok positions => held_dexes received rest (if bool_decide (positions = []) then known else {[dex]} ∪ known)
      end
  end.

(** One more [clearinghouseState]. *)
Definition fetch_state (account : string) (full_audit : bool) (states : dict obj) (dex : string) : res (dict obj) :=
  if dict_mem dex states && full_audit then Ok states else
  state ← info (dex_payload "clearinghouseState" account dex);
  match state with
  | JObj o => Ok (dict_set dex o states)
  | _ => Raise (ValueError "follower clearinghouseState is malformed")
  end.

Definition raw_of (p : Position) : RawPosition :=
  MkPosition (pos_coin p) (Fin (pos_size p)) (pos_entry_px p) (pos_leverage p) (pos_updated_ms p).

(** [positions.update(more)] *)
Definition update_positions (positions : dict RawPosition) (more : dict Position) : dict RawPosition :=
  fold_left (fun d kp => dict_set kp.1 (raw_of kp.2) d) more positions.

Definition collect_positions (received : Z) (states : dict obj) : res (dict RawPosition) :=
  fold_res (fun positions ds =>
    more ← parse_clearinghouse_positions ds.2 received ds.1;
    Ok (update_positions positions more)) states [].

Definition exchange_times (states : list obj) : list Z :=
  omap (fun st => match obj_field "time" st with JNull => None | v => int_text v end) states.

Definition collect_orders (account : string) (received : Z) (dexes : list string) : res (list OpenOrder) :=
  fold_res (fun orders dex =>
    raw ← info (dex_payload "openOrders" account dex);
    more ← parse_open_orders raw received dex;
    Ok (orders ++ more)) dexes [].

Record RefreshOptions := MkRefreshOptions {
  full_audit : bool;
  ro_catalog_revision : string;
  affected_dexes : option (list string);
  include_nonfunding_ledger : option bool;
  publish : bool;
}.

Record ReconcileResult := MkReconcileResult {
  rr_follower : string;
  rr_revision : FollowerAccountRevision;
  rr_divergence : list string;
  rr_external_activity : list json;
}.

(** The states of all requested DEXes, and what is known of the DEXes afterwards. *)
Definition gather_states (account : string) (o : RefreshOptions) (received : Z) : ST Reconciler (dict obj * gset string) := fun r =>
  let known := known_of r account in
  let r1 := (set_known account known r).1 in
  if full_audit o then
    match aggregate_states account (sorted_set known) received with
    | Raise e => (r1, Raise e)
    | Ok states =>
        let '(known', walked) := held_dexes received states known in
        ((set_known account known' r1).1,
         _ ← walked; (fun states => (states, known')) <$> fold_res (fetch_state account true) (sorted_set known') states)
    end
  else
    let requested := match affected_dexes o with None => known | Some l => list_to_set l ∪ {[""]} end in
    (r1, (fun states => (states, known)) <$> fold_res (fetch_state account false) (sorted_set requested) []).

(** The revision that the answers make of the prior one. *)
Definition next_revision (account : string) (prior : option FollowerAccountRevision) (o : RefreshOptions) (freshness : Z)
    (positions : dict RawPosition) (open_orders : list OpenOrder) (times : list Z) (collateral : dec * dec)
    (ledger_checkpoint : obj) (received reconciled : Z) : res (FollowerAccountRevision * list string) :=
  let projected := match prior with None => positions | Some p => fr_projected_positions p end in
  let inflight := match prior with None => [] | Some p => fr_inflight_by_cloid p end in
  let divergence := position_divergence projected positions in
  let projected := if negb (bool_decide (divergence = [])) && bool_decide (inflight = []) then positions else projected in
  revision ← new_follower_revision (MkFollowerRevision account
    (match prior with None => 1 | Some p => fr_revision p + 1 end) positions projected
    (if full_audit o then open_orders else match prior with None => [] | Some p => fr_open_orders p end)
    inflight (Fin collateral.1) (Fin collateral.2) "unified"
    (match times with [] => received | t :: rest => min_list t rest end) received reconciled (received + freshness)
    (if full_audit o then "full_audit" else "affected_follower") (if full_audit o then FULL_AUDIT else TARGETED_REST)
    (ro_catalog_revision o) (match prior with None => 0 | Some p => fr_durable_checkpoint p end)
    (match prior with None => [] | Some p => fr_leverage_blocks p end) ledger_checkpoint);
  Ok (revision, divergence).

(** The answers after the states: positions, balance, orders and ledger rows. *)
Definition observe_follower (account : string) (prior : option FollowerAccountRevision) (o : RefreshOptions) (ledger_requested : bool)
    (freshness : Z) (states : dict obj) (known : gset string) (received reconciled : Z) : res ReconcileResult :=
  raw_spot ← info [("type", JStr "spotClearinghouseState"); ("user", JStr account)];
  match raw_spot with
  | JObj spot_state =>
      positions ← collect_positions received states;
      let times := exchange_times (dict_values states ++ [spot_state]) in
      open_orders ← (if full_audit o then collect_orders account received (sorted_set known) else Ok []);
      let checkpoint := match prior with None => [] | Some p => fr_nonfunding_ledger_checkpoint p end in
      '(checkpoint, external) ← (if ledger_requested : bool then
          raw_ledger ← info (ledger_request account checkpoint received);
          scan_ledger checkpoint received raw_ledger
        else Ok (checkpoint, []));
      collateral ← unified_spot_usdc_collateral spot_state;
      '(revision, divergence) ← next_revision account prior o freshness positions open_orders times collateral checkpoint received reconciled;
      Ok (MkReconcileResult account revision divergence external)
  | _ => Raise (ValueError "follower spotClearinghouseState is malformed")
  end.

(** [refresh_follower].  [at_start] and [received] are the clock before the requests and when the
    balance has arrived; [journal] is the outcome of the journal, if there is one, and [others] what
    other tasks make of the book until the revision is published. *)
Definition refresh_follower (follower_address : string) (o : RefreshOptions) (at_start received reconciled : Z)
    (journal : option (res unit)) (others : AccountStateBook -> AccountStateBook) : ST Reconciler ReconcileResult := fun r =>
  let account := py_lower follower_address in
  if monitor_nonfunding_ledger r && publish o
  then (r, Raise (ValueError "monitored ledger reconciliation must be classified before publication")) else
  let monitored := full_audit o && monitor_nonfunding_ledger r in
  let ledger_requested := monitored && negb (bool_decide (include_nonfunding_ledger o = Some false)) in
  if bool_decide (include_nonfunding_ledger o = Some true) && negb monitored
  then (r, Raise (ValueError "non-funding ledger refresh requires a monitored full audit")) else
  let prior := follower (state_book r) account in
  match gather_states account o at_start r with
  | (r1, Raise e) => (r1, Raise e)
  | (r1, Ok (states, known)) =>
      match observe_follower account prior o ledger_requested (freshness_ms r) states known received reconciled with
      | Raise e => (r1, Raise e)
      | Ok result =>
          let at_publish := others (state_book r1) in
          let with_book b := MkReconciler b (freshness_ms r1) (all_dexes r1) (follower_dexes r1) (monitor_nonfunding_ledger r1) in
          if publish o then
            match journal with
            | Some (Raise e) => (with_book at_publish, Raise e)
            | _ => match publish_follower (rr_revision result) at_publish with
                   | (b, Ok _) => (with_book b, Ok result)
                   | (b, Raise e) => (with_book b, Raise e)
                   end
            end
          else (with_book at_publish, Ok result)
      end
  end.

(** [reconcile_order_identity], and [reconcile_cloid] with a client order id. *)
Definition reconcile_order_identity (follower_address : string) (order_identity : json) (expected_size : pydec) : res OrderStatusResolution :=
  raw ← info [("type", JStr "orderStatus"); ("user", JStr (py_lower follower_address)); ("oid", order_identity)];
  classify_order_status raw expected_size.

Definition reconcile_cloid (follower_address cloid : string) (expected_size : pydec) : res OrderStatusResolution :=
  reconcile_order_identity follower_address (JStr cloid) expected_size.
End Refresh.
End Digest.
