(* ===== verification/RefreshFacts.v ===== *)
(** The follower truth of reconciliation.py: a ledger row is reported exactly once, and a
    refresh publishes what the answers say without overwriting a newer revision. *)

From S2P Require Import Prelude PyDecimal DecimalFacts PyText TextFacts Models Markets AccountParsing AccountState AccountStateFacts FollowerRefresh.

Open Scope Z_scope.

(** * The ledger *)

Section Ledger.
Context (sha256 : string -> string).

Definition ident (row : json) : string := sha256 (of_chars (json_dumps row)).
Definition row_time (row : json) : Z := match ledger_row sha256 row with Ok (t, _) => t | Raise _ => 0 end.

(** A row as the exchange writes them. *)
Definition proper (row : json) : Prop := ledger_row sha256 row = Ok (row_time row, ident row) /\ 0 <= row_time row.

(** The answer to a request of the client: the rows between the two times, in order. *)
Definition answered (request : obj) (ledger : list json) : list json :=
  match obj_field "startTime" request, obj_field "endTime" request with
  | JInt a, JInt b => List.filter (fun row => (a <=? row_time row) && (row_time row <=? b)) ledger
  | _, _ => []
  end.

(** Audits of one follower, while the exchange appends to the ledger: the ledger, the
    checkpoint, the rows of the first answer, and the rows reported since. *)
Inductive audited (account : string) : list json -> obj -> list json -> list json -> Prop :=
  | au_start : audited account [] [] [] []
  | au_append ledger more checkpoint base reported : audited account ledger checkpoint base reported ->
      Forall proper more -> audited account (ledger ++ more) checkpoint base reported
  | au_first ledger base reported t checkpoint' new : audited account ledger [] base reported ->
      scan_ledger sha256 [] t (JList (answered (ledger_request account [] t) ledger)) = Ok (checkpoint', new) ->
      audited account ledger checkpoint' (answered (ledger_request account [] t) ledger) new
  | au_next ledger checkpoint base reported t checkpoint' new : audited account ledger checkpoint base reported ->
      checkpoint <> [] -> prior_cursor checkpoint t <= t ->
      scan_ledger sha256 checkpoint t (JList (answered (ledger_request account checkpoint t) ledger)) = Ok (checkpoint', new) ->
      audited account ledger checkpoint' base (reported ++ new).

Lemma ledger_step_eval first received acc row : proper row ->
  ledger_step sha256 first received acc row =
    let retained := if received - 60000 <=? row_time row then {[ident row]} ∪ ls_retained acc else ls_retained acc in
    Ok (if bool_decide (ident row ∈ ls_seen acc) then MkLedgerScan (ls_seen acc) retained (ls_new acc)
        else MkLedgerScan ({[ident row]} ∪ ls_seen acc) retained (if first then ls_new acc else ls_new acc ++ [row])).
Proof. intros [H _]. unfold ledger_step. rewrite H. done. Qed.

(** What the scan of the rows adds. *)
Lemma scan_rows first received rows acc : Forall proper rows -> NoDup (ident <$> rows) ->
  exists scan news, fold_res (ledger_step sha256 first received) rows acc = Ok scan /\
    ls_new scan = (if first : bool then ls_new acc else ls_new acc ++ news) /\
    (forall i, i ∈ ls_retained scan <-> i ∈ ls_retained acc \/ exists x, x ∈ rows /\ i = ident x /\ received - 60000 <= row_time x) /\
    NoDup (ident <$> news) /\ (forall x, x ∈ news <-> x ∈ rows /\ ident x ∉ ls_seen acc).
Proof.
  revert acc. induction rows as [|row rows IH]; intros acc Hp Hnd; cbn [fold_res].
  { exists acc, []. split; [done|]. split; [by destruct first; rewrite ?app_nil_r|].
    split; [intros i; split; [by left|intros [H|(x & H & _)]; [done|by apply not_elem_of_nil in H]]|].
    split; [constructor|]. intros x. split; [intros H|intros [H _]]; by apply not_elem_of_nil in H. }
  apply list.Forall_cons in Hp as [Hrow Hp]. rewrite fmap_cons in Hnd. apply list.NoDup_cons in Hnd as [Hni Hnd].
  rewrite ledger_step_eval by done. cbv zeta.
  set (retained := if received - 60000 <=? row_time row then _ else _).
  set (acc' := if bool_decide (ident row ∈ ls_seen acc) then _ else _).
  destruct (IH acc' Hp Hnd) as (scan & news & -> & Hnew & Hret & Hndn & Hin).
  assert (forall i, i ∈ ls_retained acc' <-> i ∈ ls_retained acc \/ (i = ident row /\ received - 60000 <= row_time row)) as Hr'.
  { intros i. assert (ls_retained acc' = retained) as -> by (unfold acc'; by destruct (bool_decide _)).
    unfold retained. destruct (Z.leb_spec (received - 60000) (row_time row)); set_solver by lia. }
  assert (forall x, x ∈ rows -> ident x ∈ ls_seen acc' <-> ident x ∈ ls_seen acc) as Hs'.
  { intros x Hx. assert (ident x <> ident row) by (intros E; apply Hni; rewrite <- E; by apply list_elem_of_fmap_2).
    unfold acc'. case_bool_decide; cbn [ls_seen]; set_solver. }
  exists scan, (if bool_decide (ident row ∈ ls_seen acc) then news else row :: news). split; [done|]. split; [|split; [|split]].
  - rewrite Hnew. unfold acc'. destruct (bool_decide _), first; cbn [ls_new]; try done. by rewrite <- app_assoc.
  - intros i. rewrite Hret, Hr'. split.
    + intros [[H|[-> H]]|(x & Hx & -> & Ht)]; [by left|right; exists row; split; [by left|done]|right; exists x; split; [by right|done]].
    + intros [H|(x & [->|Hx]%elem_of_cons & -> & Ht)]; [by left; left|by left; right|right; by exists x].
  - case_bool_decide as Hs; [done|]. rewrite fmap_cons. apply list.NoDup_cons. split; [|done].
    intros (x & E & Hx)%list_elem_of_fmap. apply Hin in Hx as [Hx _]. apply Hni. rewrite E. by apply list_elem_of_fmap_2.
  - intros x. case_bool_decide as Hs; rewrite ?elem_of_cons, Hin.
    + split; [intros [Hx Hn]; rewrite <- Hs' by done; auto|]. intros [[->|Hx] Hn]; [done|]. by rewrite Hs'.
    + split; [intros [->|[Hx Hn]]; [auto|rewrite <- Hs' by done; auto]|]. intros [[->|Hx] Hn]; [by left|right; by rewrite Hs'].
Qed.

(** The identities a checkpoint remembers. *)
Definition seen_of (checkpoint : obj) : gset string :=
  match obj_field "seen_identities" checkpoint with JList l => list_to_set (py_str <$> l) | _ => ∅ end.

Lemma scan_ledger_spec checkpoint t rows checkpoint' new : Forall proper rows -> NoDup (ident <$> rows) ->
  scan_ledger sha256 checkpoint t (JList rows) = Ok (checkpoint', new) ->
  checkpoint' <> [] /\ obj_field "cursor_ms" checkpoint' = JInt t /\
  (forall i, i ∈ seen_of checkpoint' <-> exists x, x ∈ rows /\ i = ident x /\ t - 60000 <= row_time x) /\
  (checkpoint = [] -> new = []) /\
  (checkpoint <> [] -> NoDup (ident <$> new) /\ forall x, x ∈ new <-> x ∈ rows /\ ident x ∉ seen_of checkpoint).
Proof.
  intros Hp Hnd. unfold scan_ledger.
  change (match obj_field "seen_identities" checkpoint with JList l => list_to_set (py_str <$> l) | _ => ∅ end) with (seen_of checkpoint).
  destruct (scan_rows (bool_decide (checkpoint = [])) t rows (MkLedgerScan (seen_of checkpoint) ∅ []) Hp Hnd)
    as (scan & news & Hs & Hnew & Hret & Hndn & Hin).
  rewrite Hs. cbn [mbind res_bind]. intros [= <- <-]. split; [done|]. split; [done|]. split; [|split].
  - intros i. change (seen_of _) with (list_to_set (C := gset string) (py_str <$> (JStr <$> py_sorted str_leb (elements (ls_retained scan))))).
    rewrite <- list_fmap_compose, (list_fmap_ext (py_str ∘ JStr) id) by done. rewrite list_fmap_id, elem_of_list_to_set, elem_of_py_sorted, elem_of_elements, Hret.
    cbn [ls_retained]. split; [by intros [H|H]; [apply not_elem_of_empty in H|]|by right].
  - intros ->. by rewrite Hnew.
  - intros Hc. rewrite Hnew. rewrite bool_decide_eq_false_2 by done. cbn [ls_new app]. done.
Qed.

Lemma filter_idents f (l : list json) : NoDup (ident <$> l) -> NoDup (ident <$> List.filter f l).
Proof.
  induction l as [|x l IH]; [done|]. rewrite fmap_cons. intros [Hx Hl]%list.NoDup_cons. cbn [List.filter]. destruct (f x); [|by apply IH].
  rewrite fmap_cons. apply list.NoDup_cons. split; [|by apply IH]. intros (y & E & Hy)%list_elem_of_fmap. apply Hx. rewrite E.
  apply list_elem_of_fmap_2, list_elem_of_In. apply list_elem_of_In in Hy. by apply List.filter_In in Hy as [].
Qed.

Lemma answered_spec account checkpoint t ledger x : x ∈ answered (ledger_request account checkpoint t) ledger <->
  x ∈ ledger /\ Z.max 0 (prior_cursor checkpoint t - 60000) <= row_time x <= t.
Proof.
  change (answered (ledger_request account checkpoint t) ledger) with
    (List.filter (fun row => (Z.max 0 (prior_cursor checkpoint t - 60000) <=? row_time row) && (row_time row <=? t)) ledger).
  rewrite !list_elem_of_In, List.filter_In, andb_true_iff, !Z.leb_le. done.
Qed.

Lemma answered_proper account checkpoint t ledger : Forall proper ledger -> Forall proper (answered (ledger_request account checkpoint t) ledger).
Proof. rewrite !list.Forall_forall. intros H x [Hx _]%answered_spec. by apply H. Qed.

Lemma answered_idents account checkpoint t ledger : NoDup (ident <$> ledger) -> NoDup (ident <$> answered (ledger_request account checkpoint t) ledger).
Proof. apply filter_idents. Qed.

Lemma ident_unique ledger x y : NoDup (ident <$> ledger) -> x ∈ ledger -> y ∈ ledger -> ident x = ident y -> x = y.
Proof.
  intros Hnd [i Hi]%list_elem_of_lookup [j Hj]%list_elem_of_lookup E.
  assert (i = j) as <-; [|congruence]. eapply (NoDup_lookup (ident <$> ledger)); [done| |]; rewrite list_lookup_fmap; [by rewrite Hi|by rewrite Hj, E].
Qed.

(** What holds between two audits. *)
Record audit_ok (ledger : list json) (checkpoint : obj) (base reported : list json) : Prop := {
  ao_proper : Forall proper ledger;
  ao_known : forall x, x ∈ base ++ reported -> x ∈ ledger;
  ao_once : NoDup (ident <$> base ++ reported);
  ao_start : checkpoint = [] -> base ++ reported = [];
  ao_cursor : checkpoint <> [] -> exists c, obj_field "cursor_ms" checkpoint = JInt c /\
    forall x, x ∈ base ++ reported -> row_time x <= c /\ (c - 60000 <= row_time x -> ident x ∈ seen_of checkpoint);
  ao_seen : forall i, i ∈ seen_of checkpoint -> exists x, x ∈ base ++ reported /\ i = ident x;
}.

Lemma audit_first account ledger t checkpoint' new base reported : NoDup (ident <$> ledger) -> audit_ok ledger [] base reported ->
  scan_ledger sha256 [] t (JList (answered (ledger_request account [] t) ledger)) = Ok (checkpoint', new) ->
  audit_ok ledger checkpoint' (answered (ledger_request account [] t) ledger) new.
Proof.
  intros Hnd [Hp _ _ _ _ _] Hs. pose proof (answered_proper account [] t _ Hp) as Hap. pose proof (answered_idents account [] t _ Hnd) as Hai.
  destruct (scan_ledger_spec _ _ _ _ _ Hap Hai Hs) as (Hne & Hc & Hseen & Hnew & _). rewrite Hnew by done.
  split; rewrite ?app_nil_r; [done| |done|done| |].
  - by intros x [Hx _]%answered_spec.
  - intros _. exists t. split; [done|]. intros x Hx. split; [apply answered_spec in Hx as [_ Hx]; lia|]. intros Ht. apply Hseen. by exists x.
  - intros i (x & Hx & -> & _)%Hseen. by exists x.
Qed.

Lemma audit_next account ledger checkpoint t checkpoint' new base reported : NoDup (ident <$> ledger) ->
  audit_ok ledger checkpoint base reported -> checkpoint <> [] -> prior_cursor checkpoint t <= t ->
  scan_ledger sha256 checkpoint t (JList (answered (ledger_request account checkpoint t) ledger)) = Ok (checkpoint', new) ->
  audit_ok ledger checkpoint' base (reported ++ new).
Proof.
  intros Hnd [Hp Hk Ho _ Hcur Hsn] Hne Hle Hs. pose proof (answered_proper account checkpoint t _ Hp) as Hap.
  pose proof (answered_idents account checkpoint t _ Hnd) as Hai. destruct (Hcur Hne) as (c & Hcc & Hc).
  assert (prior_cursor checkpoint t = c) as Epc by (unfold prior_cursor; by rewrite Hcc). rewrite Epc in Hle.
  destruct (scan_ledger_spec _ _ _ _ _ Hap Hai Hs) as (Hne' & Hc' & Hseen & _ & Hnew). destruct (Hnew Hne) as [Hndn Hin].
  assert (forall x, x ∈ new -> x ∈ ledger /\ c - 60000 <= row_time x <= t /\ ident x ∉ seen_of checkpoint) as Hx.
  { intros x [[Hl Hr]%answered_spec Hn]%Hin. rewrite Epc in Hr. split; [done|]. split; [lia|done]. }
  split; [done| | |done| |]; rewrite ?app_assoc.
  - intros x [H|H]%elem_of_app; [by apply Hk|by apply Hx].
  - rewrite fmap_app. apply list.NoDup_app. split; [done|]. split; [|done].
    intros i (x & -> & Hxo)%list_elem_of_fmap (y & E & Hy)%list_elem_of_fmap. destruct (Hx y Hy) as (Hyl & Hyt & Hyn).
    apply Hyn. rewrite <- E. apply (Hc x Hxo). rewrite (ident_unique ledger x y Hnd (Hk x Hxo) Hyl E). lia.
  - intros _. exists t. split; [done|]. intros x [H|H]%elem_of_app.
    + destruct (Hc x H) as [Ht Hsx]. split; [lia|]. intros Hr. apply Hseen. exists x. split; [|done].
      apply answered_spec. pose proof (Hk x H) as Hl. rewrite list.Forall_forall in Hp. destruct (Hp x Hl) as [_ H0]. rewrite Epc. split; [done|lia].
    + destruct (Hx x H) as (Hl & Ht & _). split; [lia|]. intros Hr. apply Hseen. exists x. split; [|done]. by apply Hin in H as [].
  - intros i (x & Hxa & -> & _)%Hseen. destruct (decide (ident x ∈ seen_of checkpoint)) as [Hi|Hi].
    + destruct (Hsn _ Hi) as (y & Hy & E). exists y. split; [apply elem_of_app; by left|done].
    + exists x. split; [apply elem_of_app; right; by apply Hin|done].
Qed.

Lemma audited_ok account ledger checkpoint base reported : audited account ledger checkpoint base reported ->
  NoDup (ident <$> ledger) -> audit_ok ledger checkpoint base reported.
Proof.
  induction 1 as [|ledger more checkpoint base reported _ IH Hm|ledger base reported t checkpoint' new _ IH Hs|
    ledger checkpoint base reported t checkpoint' new _ IH Hne Hle Hs]; intros Hnd.
  - split; [constructor|intros x H|constructor|done|done|intros i H]; [by apply not_elem_of_nil in H|by apply not_elem_of_empty in H].
  - rewrite fmap_app in Hnd. apply list.NoDup_app in Hnd as (Hnd & _ & _). destruct (IH Hnd) as [H1 H2 H3 H4 H5 H6].
    split; [by apply Forall_app|intros x Hx; apply elem_of_app; left; by apply H2|done|done|done|done].
  - by eapply audit_first; [|apply IH|].
  - by eapply audit_next; [|apply IH| | |].
Qed.

(** C31. A ledger row is reported exactly once.  Let the exchange append rows to the ledger of a
    follower and let any number of audits run, the clock not going back between them, with a
    digest that tells the rows apart.  The rows of the first answer and the rows reported
    later are all of the ledger and none occurs twice; and whatever row the next audit is
    answered with, it is one of them or is reported now. *)
Theorem ledger_rows_reported_once account ledger checkpoint base reported :
  audited account ledger checkpoint base reported -> NoDup (ident <$> ledger) ->
  NoDup (base ++ reported) /\ (forall x, x ∈ base ++ reported -> x ∈ ledger) /\
  forall t, checkpoint <> [] -> prior_cursor checkpoint t <= t ->
    let answer := answered (ledger_request account checkpoint t) ledger in
    exists checkpoint' new, scan_ledger sha256 checkpoint t (JList answer) = Ok (checkpoint', new) /\
      forall x, x ∈ answer -> (x ∈ base ++ reported /\ x ∉ new) \/ (x ∉ base ++ reported /\ x ∈ new).
Proof.
  intros Ha Hnd. pose proof (audited_ok _ _ _ _ _ Ha Hnd) as [Hp Hk Ho Hst Hcur Hsn].
  split; [by eapply NoDup_fmap_1|]. split; [done|]. intros t Hne Hle answer.
  pose proof (answered_proper account checkpoint t _ Hp) as Hap. pose proof (answered_idents account checkpoint t _ Hnd) as Hai.
  assert (exists r, scan_ledger sha256 checkpoint t (JList answer) = Ok r) as [[checkpoint' new] Hs].
  { unfold scan_ledger. destruct (scan_rows (bool_decide (checkpoint = [])) t answer
      (MkLedgerScan (seen_of checkpoint) ∅ []) Hap Hai) as (scan & news & Hs & _).
    unfold seen_of in Hs. rewrite Hs. by eexists. }
  exists checkpoint', new. split; [done|]. intros x Hx. destruct (scan_ledger_spec _ _ _ _ _ Hap Hai Hs) as (_ & _ & _ & _ & Hnew).
  destruct (Hnew Hne) as [_ Hin]. destruct (Hcur Hne) as (c & Hcc & Hc).
  pose proof Hx as [Hl Hr]%answered_spec. unfold prior_cursor in Hr, Hle. rewrite Hcc in Hr, Hle. cbn [int_instance] in Hr, Hle.
  destruct (decide (ident x ∈ seen_of checkpoint)) as [Hs'|Hs']; [left|right].
  - destruct (Hsn _ Hs') as (y & Hy & E). rewrite (ident_unique ledger x y Hnd Hl (Hk y Hy) E).
    split; [done|]. intros [_ Hn]%Hin. apply Hn. by rewrite <- E.
  - split; [|by apply Hin]. intros Hb. apply Hs', (Hc x Hb). lia.
Qed.
End Ledger.

(** * An account with two transfers *)

Module Example.

Definition row (time amount : Z) : json := JObj [("time", JInt time); ("delta", JObj [("usdc", JInt amount)])].
Definition sha (s : string) : string := s.

Definition first_rows : list json := [row 950000 5].
Definition ledger : list json := first_rows ++ [row 1000000 7].

Definition checkpoint0 : obj := [("cursor_ms", JInt 1000000); ("seen_identities", JList [JStr (ident sha (row 950000 5))])].

Lemma proper_row time amount : 0 <= time -> proper sha (row time amount).
Proof. intros H. split; [reflexivity|exact H]. Qed.

Lemma audits : audited sha "0xab" ledger checkpoint0 first_rows [].
Proof.
  apply (au_append sha "0xab" first_rows [row 1000000 7] checkpoint0 first_rows []); [|repeat constructor; vm_compute; discriminate].
  apply (au_first sha "0xab" first_rows [] [] 1000000 checkpoint0 []); [|vm_compute; reflexivity].
  apply (au_append sha "0xab" [] first_rows [] [] []); [apply au_start|repeat constructor; vm_compute; discriminate].
Qed.

End Example.

Lemma ledger_rows_reported_once_witness :
  exists checkpoint' new, scan_ledger Example.sha Example.checkpoint0 1030000 (JList Example.ledger) = Ok (checkpoint', new) /\
    new = [Example.row 1000000 7] /\ NoDup (Example.first_rows ++ []).
Proof.
  destruct (ledger_rows_reported_once Example.sha "0xab" Example.ledger Example.checkpoint0 Example.first_rows [] Example.audits
    ltac:(apply (bool_decide_unpack _); vm_compute; exact I)) as (Hn & _ & H).
  destruct (H 1030000 ltac:(discriminate) ltac:(vm_compute; discriminate)) as (cp & new & Hs & _). exists cp, new. split; [exact Hs|].
  split; [|exact Hn]. vm_compute in Hs. injection Hs as _ Hs. symmetry. exact Hs.
Defined.

(** * One refresh *)

(** What other tasks publish are revisions that [__post_init__] accepted. *)
Definition publishes_valid (op : BookOp) : Prop := match op with PublishFollower f => valid_follower f | _ => True end.

Lemma run_op_followers k op b : later fr_revision (_followers b !! k) (_followers (run_op op b).1 !! k).
Proof.
  destruct op as [r|r|r|market]; cbn.
  - unfold publish_source. by destruct (follows _ _).
  - unfold publish_follower. destruct (follows _ _) eqn:E; cbn; [by apply later_insert|done].
  - unfold publish_book. by destruct (follows _ _).
  - unfold retire_book. by destruct (canonical_market_symbol _).
Qed.

Lemma run_ops_followers k ops b : later fr_revision (_followers b !! k) (_followers (run_ops ops b) !! k).
Proof.
  revert b. induction ops as [|op ops IH]; intros b; [by cbn|]. etransitivity; [apply (run_op_followers k op)|]. apply IH.
Qed.

(** A follower of the book was there before or was published, hence valid. *)
Lemma run_ops_valid k ops b f : Forall publishes_valid ops -> _followers (run_ops ops b) !! k = Some f ->
  _followers b !! k = Some f \/ valid_follower f.
Proof.
  revert b. induction ops as [|op ops IH]; intros b; [by left|]. intros [Hop Hops]%list.Forall_cons Hf.
  destruct (IH _ Hops Hf) as [H|H]; [|by right]. destruct op as [r|r|r|market]; cbn in H, Hop.
  - left. unfold publish_source in H. by destruct (follows _ _).
  - unfold publish_follower in H. destruct (follows _ _); [|by left]. cbn in H.
    destruct (decide (py_lower (fr_follower_address r) = k)) as [<-|Hne]; [rewrite lookup_insert_eq in H; injection H as <-; by right|].
    left. by rewrite lookup_insert_ne in H.
  - left. unfold publish_book in H. by destruct (follows _ _).
  - left. unfold retire_book in H. by destruct (canonical_market_symbol _).
Qed.

Lemma pyeqb_refl d : is_finite d = true -> pyeqb d d = true.
Proof. destruct d; try done. intros _. apply deqb_refl. Qed.

(** A book of positions does not diverge from itself. *)
Lemma no_divergence d : Forall position_ok d -> position_divergence d d = [].
Proof.
  intros H. unfold position_divergence. assert (forall l, List.filter (differs d d) l = []) as ->; [|done].
  intros l. induction l as [|s l IH]; [done|]. cbn [List.filter]. rewrite IH.
  assert (is_finite (pos_size (position_at s d)) = true) as Hf.
  { unfold position_at. destruct (dict_get s d) as [p|] eqn:E; [|done]. apply dict_get_Some_in in E.
    rewrite list.Forall_forall in H. by destruct (H _ E) as (_ & _ & ?). }
  unfold differs. by rewrite pyeqb_refl, bool_decide_eq_true_2, !andb_false_r.
Qed.

Section Refresh.
Context (sha256 : string -> string) (info : obj -> res json).

Lemma gather_book account o received r : state_book (gather_states info account o received r).1 = state_book r.
Proof.
  unfold gather_states. destruct (full_audit o); [|done]. destruct (aggregate_states _ _ _ _); [|done]. by destruct (held_dexes _ _ _).
Qed.

(** The revision that was made of the prior one. *)
Lemma next_revision_spec account prior o freshness positions orders times collateral checkpoint received reconciled v divergence :
  next_revision account prior o freshness positions orders times collateral checkpoint received reconciled = Ok (v, divergence) ->
  valid_follower v /\ fr_follower_address v = account /\ fr_confirmed_positions v = positions /\
  fr_revision v = match prior with None => 1 | Some p => fr_revision p + 1 end /\
  fr_inflight_by_cloid v = match prior with None => [] | Some p => fr_inflight_by_cloid p end /\
  fr_leverage_blocks v = match prior with None => [] | Some p => fr_leverage_blocks p end /\
  fr_fresh_until_ms v = received + freshness /\
  (fr_inflight_by_cloid v = [] -> position_divergence (fr_projected_positions v) positions = []) /\
  (fr_inflight_by_cloid v <> [] -> forall p, prior = Some p -> fr_projected_positions v = fr_projected_positions p).
Proof.
  unfold next_revision. set (projected0 := match prior with None => positions | Some p => fr_projected_positions p end).
  set (inflight := match prior with None => [] | Some p => fr_inflight_by_cloid p end). intros H.
  apply bind_Ok in H as (v' & [-> Hv]%new_follower_same & [= <- <-]).
  pose proof (proj1 (valid_follower_parts _) Hv) as (_ & _ & _ & Hc & _ & _). cbn [fr_confirmed_positions] in Hc.
  split; [exact Hv|]. split; [done|]. split; [done|]. split; [done|]. split; [done|]. split; [done|]. split; [done|].
  cbn [fr_inflight_by_cloid fr_projected_positions]. split.
  - intros Hi. rewrite (bool_decide_eq_true_2 (inflight = [])) by done. rewrite andb_true_r.
    case_bool_decide as Hd; cbn [negb]; [exact Hd|by apply no_divergence].
  - intros Hi p ->. rewrite (bool_decide_eq_false_2 (inflight = [])) by done. by rewrite andb_false_r.
Qed.

Lemma observed_follower_spec account prior o ledger freshness states known received reconciled result :
  observe_follower sha256 info account prior o ledger freshness states known received reconciled = Ok result ->
  exists positions orders times collateral checkpoint, collect_positions received states = Ok positions /\
    next_revision account prior o freshness positions orders times collateral checkpoint received reconciled = Ok (rr_revision result, rr_divergence result).
Proof.
  unfold observe_follower. intros (raw & _ & H)%bind_Ok. destruct raw as [| | | | | |spot]; try done.
  apply bind_Ok in H as (positions & Hp & H). apply bind_Ok in H as (orders & _ & H). apply bind_Ok in H as ([checkpoint external] & _ & H).
  apply bind_Ok in H as (collateral & _ & H). apply bind_Ok in H as ([v divergence] & Hn & [= <-]).
  by exists positions, orders, (exchange_times (dict_values states ++ [spot])), collateral, checkpoint.
Qed.

(** A refresh publishes what the exchange answered, and never overwrites a newer revision.
    Whatever other tasks publish while a refresh waits for its answers, if it returns then
    nobody replaced the revision it started from, and the book holds its result: one valid
    revision later, with the positions of the DEXes that were asked, fresh from the arrival
    of the balance, the actions in flight and the leverage blocks kept.  With an action in
    flight the projection stays; otherwise projection and confirmed positions agree. *)
Theorem refresh_publishes_truth address o at_start received reconciled journal ops r r' result :
  publish o = true -> Forall publishes_valid ops ->
  refresh_follower sha256 info address o at_start received reconciled journal (run_ops ops) r = (r', Ok result) ->
  let prior := follower (state_book r) address in
  let v := rr_revision result in
  follower (state_book r') address = Some v /\ follower (run_ops ops (state_book r)) address = prior /\
  valid_follower v /\ fr_revision v = match prior with None => 1 | Some p => fr_revision p + 1 end /\
  (exists r1 states known, gather_states info (py_lower address) o at_start r = (r1, Ok (states, known)) /\
     collect_positions received states = Ok (fr_confirmed_positions v)) /\
  fr_fresh_until_ms v = received + freshness_ms r /\
  fr_inflight_by_cloid v = match prior with None => [] | Some p => fr_inflight_by_cloid p end /\
  fr_leverage_blocks v = match prior with None => [] | Some p => fr_leverage_blocks p end /\
  (fr_inflight_by_cloid v = [] -> position_divergence (fr_projected_positions v) (fr_confirmed_positions v) = []) /\
  (fr_inflight_by_cloid v <> [] -> forall p, prior = Some p -> fr_projected_positions v = fr_projected_positions p).
Proof.
  intros Hpub Hops. unfold refresh_follower. destruct (monitor_nonfunding_ledger r && publish o); [done|].
  destruct (bool_decide (include_nonfunding_ledger o = Some true) && _); [done|].
  assert (follower (state_book r) (py_lower address) = follower (state_book r) address) as -> by (unfold follower; by rewrite py_lower_idem).
  set (prior := follower (state_book r) address). pose proof (gather_book (py_lower address) o at_start r) as Hbook.
  destruct (gather_states info (py_lower address) o at_start r) as [r1 [[states known]|e]] eqn:Eg; [|done]. cbn in Hbook.
  destruct (observe_follower _ _ _ _ _ _ _ _ _ _ _) as [res|e] eqn:Eo; [|done]. rewrite Hpub, Hbook.
  apply observed_follower_spec in Eo as (positions & orders & times & collateral & checkpoint & Hpos & Hn).
  apply next_revision_spec in Hn as (Hv & Ha & Hc & Hrev & Hin & Hlev & Hfresh & Hdiv & Hkeep). fold prior in Hrev, Hin, Hlev, Hkeep.
  set (b := run_ops ops (state_book r)). intros H.
  assert (follows (fr_revision <$> _followers b !! py_lower address) (fr_revision (rr_revision res)) = true /\ result = res /\
    state_book r' = MkAccountStateBook (_sources b) (<[py_lower address := rr_revision res]> (_followers b)) (_books b)) as (Hf & -> & Hb).
  { unfold publish_follower in H. rewrite Ha, py_lower_idem in H.
    destruct journal as [[|]|]; destruct (follows _ _); try done; injection H as <- <-; done. }
  assert (_followers b !! py_lower address = prior) as Hsame.
  { pose proof (run_ops_followers (py_lower address) ops (state_book r)) as Hl. fold b in Hl. change (_followers (state_book r) !! py_lower address) with prior in Hl.
    destruct (_followers b !! py_lower address) as [p'|] eqn:Ep; cbn in Hf.
    - apply Z.eqb_eq in Hf. destruct prior as [p|] eqn:Epr.
      + destruct Hl as (? & [= <-] & [->|Hlt]); [done|]. rewrite Hrev in Hf. lia.
      + destruct (run_ops_valid _ _ _ _ Hops Ep) as [E|Hvp]; [unfold prior, follower in Epr; congruence|].
        apply valid_follower_parts in Hvp as [Hp _]. rewrite Hrev in Hf. lia.
    - destruct prior as [p|]; [|done]. by destruct Hl as (? & ? & _). }
  assert (follower (state_book r') address = Some (rr_revision res)) as Hpubd.
  { rewrite Hb. unfold follower. cbn [_followers]. apply lookup_insert_eq. }
  split; [done|]. split; [done|]. split; [done|]. split; [done|]. split; [by exists r1, states, known; rewrite Hc|].
  rewrite Hc. done.
Qed.
End Refresh.

(** * A reading of one DEX *)

Module Reading.

Definition position_row : json :=
  JObj [("position", JObj [("coin", JStr "BTC"); ("szi", JStr "0.5"); ("entryPx", JStr "100"); ("leverage", JObj [("value", JInt 5)])])].

Definition answers (request : obj) : res json :=
  match obj_field "type" request with
  | JStr "spotClearinghouseState" => Ok (JObj [("balances", JList [JObj [("coin", JStr "USDC"); ("token", JInt 0); ("total", JStr "100"); ("hold", JStr "40")]])])
  | JStr "clearinghouseState" => Ok (JObj [("assetPositions", JList [position_row]); ("time", JInt 999)])
  | _ => Raise (ConnectionError "refused")
  end.

Definition reconciler : Reconciler := MkReconciler AccountStateFacts.Example.state0 60000 [""] [] false.
Definition options : RefreshOptions := MkRefreshOptions false "c1" (Some []) None true.

End Reading.

Lemma refresh_publishes_truth_witness : exists r' result,
  refresh_follower Example.sha Reading.answers "0xAB" Reading.options 900 1000 1001 None
    (run_ops [PublishBook (AccountStateFacts.Example.book1)]) Reading.reconciler = (r', Ok result) /\
  follower (state_book r') "0xAB" = Some (rr_revision result) /\ fr_revision (rr_revision result) = 2 /\ rr_divergence result = ["BTC"] /\
  position_divergence (fr_projected_positions (rr_revision result)) (fr_confirmed_positions (rr_revision result)) = [].
Proof.
  eexists _, _. assert (refresh_follower Example.sha Reading.answers "0xAB" Reading.options 900 1000 1001 None
    (run_ops [PublishBook (AccountStateFacts.Example.book1)]) Reading.reconciler = _) as H by (vm_compute; reflexivity).
  split; [exact H|].
  destruct (refresh_publishes_truth Example.sha Reading.answers "0xAB" Reading.options 900 1000 1001 None
    [PublishBook (AccountStateFacts.Example.book1)] Reading.reconciler _ _ eq_refl ltac:(repeat constructor) H)
    as (Hp & _ & _ & Hrev & _ & _ & _ & _ & Hdiv & _).
  split; [exact Hp|]. split; [rewrite Hrev; vm_compute; reflexivity|]. split; [vm_compute; reflexivity|]. apply Hdiv. vm_compute. reflexivity.
Defined.
