(* ===== verification/MarketCatalog.v ===== *)
(** market_catalog.py: the markets of the exchange as the runtime knows them.

    A catalog market carries the identity the exchange gave it (DEX, asset id,
    precision, leverage), its readiness, and, when that identity changed while a
    position depends on it, the pending identity.  [make_market] and
    [make_revision] are the two [__post_init__] checks. *)

From S2P Require Import Prelude PyDecimal PyText Markets.
From Stdlib Require Import Ascii.

Open Scope Z_scope.

Inductive MarketReadiness := READY | NO_CONTEXT | HALTED | DELISTED | UNTRUSTED.

#[export] Instance MarketReadiness_eq_dec : EqDecision MarketReadiness.
Proof. solve_decision. Defined.

(** The fields of a pending identity, all absent while none is pending. *)
Record PendingIdentity := MkPending {
  pending_asset_id : option Z;
  pending_universe_index : option Z;
  pending_sz_decimals : option Z;
  pending_max_leverage : option Z;
  pending_margin_mode : option string;
  pending_collateral_token : option Z;
  pending_margin_table_id : option Z;
  pending_identity_revision : string;
}.

Definition no_pending : PendingIdentity := MkPending None None None None None None None "".

Record CatalogMarket := MkCatalogMarket {
  cm_symbol : string;
  cm_dex : string;
  asset_id : Z;
  dex_index : Z;
  universe_index : Z;
  cm_sz_decimals : Z;
  cm_max_leverage : Z;
  readiness : MarketReadiness;
  margin_mode : string;
  collateral_token : Z;
  margin_table_id : option Z;
  is_delisted : bool;
  context_observed_ms : Z;
  cm_oracle_px : option pydec;
  cm_mark_px : option pydec;
  book_revision : Z;
  book_observed_ms : Z;
  tombstoned_from_revision : string;
  removal_tombstone : bool;
  pending : PendingIdentity;
}.

Definition MARGIN_MODES : list string := ["cross"; "noCross"; "strictIsolated"].

Definition check_that (b : bool) (msg : string) : res unit := if b then Ok tt else identity_error msg.

Definition opt_nonneg (x : option Z) : bool := match x with Some n => 0 <=? n | None => true end.

(** The pending values of a market with a pending identity. *)
Definition check_pending_identity (p : PendingIdentity) : res unit :=
  match pending_asset_id p, pending_universe_index p, pending_sz_decimals p, pending_max_leverage p with
  | Some a, Some u, Some s, Some l =>
      check_that (0 <=? Z.min (Z.min a u) (Z.min s l)) "pending catalog identity is invalid" ;;
      check_that ((0 <=? s) && (s <=? 18)) "pending catalog precision is invalid" ;;
      check_that (1 <=? l) "pending catalog leverage is invalid" ;;
      check_that (match pending_margin_mode p with Some m => bool_decide (m ∈ MARGIN_MODES) | None => false end)
        "pending catalog marginMode is unsupported" ;;
      check_that (match pending_collateral_token p with Some c => 0 <=? c | None => false end)
        "pending catalog collateralToken is invalid" ;;
      check_that (opt_nonneg (pending_margin_table_id p)) "pending catalog marginTableId is invalid"
  | _, _, _, _ => identity_error "pending catalog identity is incomplete"
  end.

Definition absent {A} (x : option A) : bool := match x with None => true | Some _ => false end.

Definition check_pending (p : PendingIdentity) : res unit :=
  if negb (is_empty (pending_identity_revision p)) then check_pending_identity p else
  check_that (absent (pending_asset_id p) && absent (pending_universe_index p) && absent (pending_sz_decimals p)
              && absent (pending_max_leverage p) && absent (pending_margin_mode p)
              && absent (pending_collateral_token p) && absent (pending_margin_table_id p))
    "pending catalog identity has no revision".

Definition check_price (p : option pydec) : res unit :=
  match p with
  | None => Ok tt
  | Some (Fin d) => check_that (dpos d) "catalog context price must be finite and positive"
  | Some _ => identity_error "catalog context price must be finite and positive"
  end.

(** [CatalogMarket(...)] with its [__post_init__]. *)
Definition make_market (m : CatalogMarket) : res CatalogMarket :=
  c ← canonical_market (JStr (cm_symbol m));
  check_that (bool_decide (c = cm_symbol m)) "catalog market identity is not canonical" ;;
  d ← market_dex (JStr (cm_symbol m));
  check_that (bool_decide (d = cm_dex m)) "catalog market identity is not canonical" ;;
  check_that ((0 <=? asset_id m) && (0 <=? dex_index m) && (0 <=? universe_index m))
    "catalog market indices must be non-negative" ;;
  check_that ((0 <=? cm_sz_decimals m) && (cm_sz_decimals m <=? 18)) "catalog szDecimals must be between 0 and 18" ;;
  check_that (1 <=? cm_max_leverage m) "catalog maxLeverage must be positive" ;;
  check_that (bool_decide (margin_mode m ∈ MARGIN_MODES)) "catalog marginMode is unsupported" ;;
  check_that (0 <=? collateral_token m) "catalog collateralToken must be non-negative" ;;
  check_that (opt_nonneg (margin_table_id m)) "catalog marginTableId must be non-negative" ;;
  check_pending (pending m) ;;
  check_price (cm_oracle_px m) ;;
  check_price (cm_mark_px m) ;;
  Ok m.

Record CatalogRevision := MkRevision {
  sequence : Z;
  revision_id : string;
  policy_version : string;
  cr_network : string;
  cr_observed_ms : Z;
  wire_dexes : list string;
  cr_markets : list CatalogMarket;
  snapshot_sha256 : string;
  dex_bracket_before_sha256 : string;
  dex_bracket_after_sha256 : string;
}.

(** The markets whose asset id is trusted to be theirs. *)
Definition owns_asset_id (m : CatalogMarket) : bool :=
  negb (is_delisted m) && negb (bool_decide (readiness m = UNTRUSTED)).

(** [CatalogRevision(...)] with its [__post_init__]. *)
Definition make_revision (r : CatalogRevision) : res CatalogRevision :=
  check_that ((1 <=? sequence r) && negb (is_empty (revision_id r)) && negb (is_empty (policy_version r)))
    "catalog revision identity is invalid" ;;
  check_that (bool_decide (NoDup (cm_symbol <$> cr_markets r))) "catalog revision contains duplicate symbols" ;;
  check_that (bool_decide (NoDup (asset_id <$> List.filter owns_asset_id (cr_markets r))))
    "catalog revision contains duplicate active asset IDs" ;;
  Ok r.

(** [CatalogRevision.market] *)
Definition revision_market (symbol : string) (r : CatalogRevision) : res (option CatalogMarket) :=
  canonical ← canonical_market (JStr symbol);
  Ok (List.find (fun m => bool_decide (cm_symbol m = canonical)) (cr_markets r)).

(** Hyperliquid indexes the perpetual DEXes with the default one at zero. *)
Definition hip3_asset_id (dex_index universe_index : Z) : Z :=
  if dex_index =? 0 then universe_index else 100000 + dex_index * 10000 + universe_index.
