(* ===== verification/CatalogRevisions.v ===== *)
(** market_catalog.py: catalog revisions as payloads, their identity, and how one is built
    from three answers of the exchange.

    The digest is an argument.  Payloads are read with the types [to_payload] writes. *)

From S2P Require Import Prelude PyDecimal PyText Markets MarketCatalog.
From Stdlib Require Import Ascii.

Open Scope Z_scope.

(** * Payloads *)

Definition readiness_text (r : MarketReadiness) : string :=
  match r with
  | READY => "READY"
  | NO_CONTEXT => "NO_CONTEXT"
  | HALTED => "HALTED"
  | DELISTED => "DELISTED"
  | UNTRUSTED => "UNTRUSTED"
  end.

Definition ALL_READINESS : list MarketReadiness := [READY; NO_CONTEXT; HALTED; DELISTED; UNTRUSTED].

(** [MarketReadiness(text)] *)
Definition readiness_of (text : string) : res MarketReadiness :=
  match List.find (fun r => bool_decide (readiness_text r = text)) ALL_READINESS with
  | Some r => Ok r
  | None => Raise (ValueError "not a valid MarketReadiness")
  end.

(** [_decimal_text]; a market holds finite prices only. *)
Definition decimal_text (value : option pydec) : json :=
  match value with
  | None => JNull
  | Some (Fin d) => JStr (dec_to_fixed (normalize d))
  | Some d => JStr (pydec_str d)
  end.

Definition opt_int (x : option Z) : json := match x with Some z => JInt z | None => JNull end.
Definition opt_str (x : option string) : json := match x with Some s => JStr s | None => JNull end.

(** [CatalogMarket.to_payload] *)
Definition market_payload (m : CatalogMarket) : list (string * json) := [
  ("symbol", JStr (cm_symbol m)); ("dex", JStr (cm_dex m)); ("asset_id", JInt (asset_id m)); ("dex_index", JInt (dex_index m));
  ("universe_index", JInt (universe_index m)); ("sz_decimals", JInt (cm_sz_decimals m)); ("max_leverage", JInt (cm_max_leverage m));
  ("readiness", JStr (readiness_text (readiness m))); ("margin_mode", JStr (margin_mode m));
  ("collateral_token", JInt (collateral_token m)); ("margin_table_id", opt_int (margin_table_id m));
  ("is_delisted", JBool (is_delisted m)); ("context_observed_ms", JInt (context_observed_ms m));
  ("oracle_px", decimal_text (cm_oracle_px m)); ("mark_px", decimal_text (cm_mark_px m)); ("book_revision", JInt (book_revision m));
  ("book_observed_ms", JInt (book_observed_ms m)); ("tombstoned_from_revision", JStr (tombstoned_from_revision m));
  ("removal_tombstone", JBool (removal_tombstone m)); ("pending_asset_id", opt_int (pending_asset_id (pending m)));
  ("pending_universe_index", opt_int (pending_universe_index (pending m))); ("pending_sz_decimals", opt_int (pending_sz_decimals (pending m)));
  ("pending_max_leverage", opt_int (pending_max_leverage (pending m))); ("pending_margin_mode", opt_str (pending_margin_mode (pending m)));
  ("pending_collateral_token", opt_int (pending_collateral_token (pending m)));
  ("pending_margin_table_id", opt_int (pending_margin_table_id (pending m)));
  ("pending_identity_revision", JStr (pending_identity_revision (pending m)))].

(** [CatalogRevision.to_payload] *)
Definition revision_payload (r : CatalogRevision) : list (string * json) := [
  ("sequence", JInt (sequence r)); ("revision_id", JStr (revision_id r)); ("policy_version", JStr (policy_version r));
  ("network", JStr (cr_network r)); ("observed_ms", JInt (cr_observed_ms r)); ("wire_dexes", JList (JStr <$> wire_dexes r));
  ("markets", JList ((fun m => JObj (market_payload m)) <$> cr_markets r)); ("snapshot_sha256", JStr (snapshot_sha256 r));
  ("dex_bracket_before_sha256", JStr (dex_bracket_before_sha256 r)); ("dex_bracket_after_sha256", JStr (dex_bracket_after_sha256 r))].

(** ** Reading one back *)

Definition payload_key {A} (read : json -> res A) (key : string) (o : list (string * json)) : res A :=
  match obj_get key o with Some v => read v | None => Raise (KeyError key) end.

(** A keyword argument of [CatalogMarket]: its default, or a value of its type. *)
Definition argument {A} (read : json -> option A) (default : option A) (key : string) (o : list (string * json)) : res A :=
  match obj_get key o with
  | Some v => match read v with Some a => Ok a | None => Raise (TypeError "unexpected type") end
  | None => match default with Some a => Ok a | None => Raise (TypeError "missing required argument") end
  end.

Definition is_str (j : json) : option string := match j with JStr s => Some s | _ => None end.
Definition is_int (j : json) : option Z := match j with JInt z => Some z | _ => None end.
Definition is_bool (j : json) : option bool := match j with JBool b => Some b | _ => None end.
Definition or_null {A} (read : json -> option A) (j : json) : option (option A) :=
  match j with JNull => Some None | _ => Some <$> read j end.

(** [value in {None, ""}] *)
Definition null_or_empty (j : json) : res bool :=
  match j with
  | JNull => Ok true
  | JStr s => Ok (is_empty s)
  | JList _ | JObj _ => Raise (TypeError "unhashable type")
  | _ => Ok false
  end.

(** [None if value in {None, ""} else read(value)] *)
Definition optional {A} (read : json -> res A) (j : json) : res (option A) :=
  absent ← null_or_empty j; if absent : bool then Ok None else Some <$> read j.

(** [int(str(value))] *)
Definition int_of_text (j : json) : res Z :=
  match int_of_string (py_str j) with Some z => Ok z | None => Raise (ValueError "invalid literal for int()") end.

(** [Decimal(str(value))] *)
Definition context_price (j : json) : res pydec :=
  match decimal_of_string (py_str j) with Some d => Ok d | None => Raise (ArithmeticError "InvalidOperation") end.

(** [values.get(key)] where the key gets a default when there is a pending identity. *)
Definition with_default (set : bool) (key : string) (value : json) (o : list (string * json)) : json :=
  match obj_get key o with Some v => v | None => if set then value else JNull end.

(** One element of [markets]. *)
Definition market_from_payload (raw : json) : res CatalogMarket :=
  match raw with
  | JObj o =>
      ready ← payload_key (fun v => readiness_of (py_str v)) "readiness" o;
      collateral ← json_int (json_or (obj_field "collateral_token" o) (JInt 0));
      table ← optional json_int (obj_field "margin_table_id" o);
      let changed := json_truthy (obj_field "pending_identity_revision" o) in
      pending_collateral ← optional int_of_text (with_default changed "pending_collateral_token" (JInt collateral) o);
      pending_table ← optional int_of_text (with_default changed "pending_margin_table_id" (opt_int table) o);
      oracle ← optional context_price (obj_field "oracle_px" o);
      mark ← optional context_price (obj_field "mark_px" o);
      symbol ← argument is_str None "symbol" o; dex ← argument is_str None "dex" o; asset ← argument is_int None "asset_id" o;
      dexi ← argument is_int None "dex_index" o; universe ← argument is_int None "universe_index" o;
      sz ← argument is_int None "sz_decimals" o; leverage ← argument is_int None "max_leverage" o;
      mode ← argument is_str (Some "cross") "margin_mode" o; delisted ← argument is_bool (Some false) "is_delisted" o;
      context_ms ← argument is_int (Some 0) "context_observed_ms" o; book ← argument is_int (Some 0) "book_revision" o;
      book_ms ← argument is_int (Some 0) "book_observed_ms" o; tomb ← argument is_str (Some "") "tombstoned_from_revision" o;
      removal ← argument is_bool (Some false) "removal_tombstone" o;
      p_asset ← argument (or_null is_int) (Some None) "pending_asset_id" o;
      p_universe ← argument (or_null is_int) (Some None) "pending_universe_index" o;
      p_sz ← argument (or_null is_int) (Some None) "pending_sz_decimals" o;
      p_leverage ← argument (or_null is_int) (Some None) "pending_max_leverage" o;
      p_mode ← match or_null is_str (with_default changed "pending_margin_mode" (JStr mode) o) with
               | Some m => Ok m
               | None => Raise (TypeError "unexpected type")
               end;
      p_revision ← argument is_str (Some "") "pending_identity_revision" o;
      make_market (MkCatalogMarket symbol dex asset dexi universe sz leverage ready mode collateral table delisted context_ms oracle mark
        book book_ms tomb removal
        (MkPending p_asset p_universe p_sz p_leverage p_mode pending_collateral pending_table p_revision))
  | _ => identity_error "persisted catalog market is malformed"
  end.

Definition text_list (j : json) : res (list string) :=
  match j with JList l => Ok (py_str <$> l) | _ => Raise (TypeError "object is not iterable") end.

(** [f"{n:06d}"] of a number that is not negative *)
Definition six_digits (n : Z) : string :=
  let s := to_chars (str_of_Z n) in of_chars (zeros (6 - List.length s) ++ s).

Definition revision_id_of (n : Z) (snapshot : string) : string :=
  "catalog-" +:+ six_digits n +:+ "-" +:+ String.substring 0 16 snapshot.

Definition is_sha256_hex (s : string) : bool :=
  (String.length s =? 64)%nat && forallb (fun c => is_digit c || in_range 97 102 c) (to_chars s).

(** * Identity *)

(** The values that an order depends on. *)
Definition identity : Type := string * Z * Z * Z * string * Z * option Z.

Definition execution_identity (m : CatalogMarket) : identity :=
  (cm_dex m, asset_id m, cm_sz_decimals m, cm_max_leverage m, margin_mode m, collateral_token m, margin_table_id m).

(** The identity the exchange listed last: the pending one, if there is one. *)
Definition listed_identity (m : CatalogMarket) : identity :=
  let p := pending m in
  (cm_dex m, default (asset_id m) (pending_asset_id p), default (cm_sz_decimals m) (pending_sz_decimals p),
   default (cm_max_leverage m) (pending_max_leverage p), default (margin_mode m) (pending_margin_mode p),
   default (collateral_token m) (pending_collateral_token p),
   if is_empty (pending_identity_revision p) then margin_table_id m else pending_margin_table_id p).

Definition listed_universe_index (m : CatalogMarket) : Z := default (universe_index m) (pending_universe_index (pending m)).

Definition identity_json (symbol : string) (i : identity) (dexi universe : Z) (delisted : bool) : json :=
  let '(dex, asset, sz, leverage, mode, collateral, table) := i in
  JObj [("symbol", JStr symbol); ("dex", JStr dex); ("asset_id", JInt asset); ("dex_index", JInt dexi);
        ("universe_index", JInt universe); ("sz_decimals", JInt sz); ("max_leverage", JInt leverage);
        ("margin_mode", JStr mode); ("collateral_token", JInt collateral); ("margin_table_id", opt_int table);
        ("is_delisted", JBool delisted)].

Section Digest.
Variable sha256 : string -> string.

(** [_canonical_payload_sha256] *)
Definition canonical_payload_sha256 (payload : json) : string := sha256 (of_chars (json_dumps payload)).

Definition snapshot_of (network policy : string) (dexes : list string) (identities : list json) : string :=
  canonical_payload_sha256 (JObj [("network", JStr network); ("policy_version", JStr policy);
    ("wire_dexes", JList (JStr <$> dexes)); ("markets", JList identities)]).

(** The DEX index that an asset id encodes. *)
Definition dex_index_of (asset : Z) : Z := if asset <? 100000 then 0 else (asset - 100000) / 10000.

(** A market with the position it has in its DEX. *)
Definition positioned (r : CatalogRevision) (m : CatalogMarket) : res (list (Z * Z * CatalogMarket)) :=
  if removal_tombstone m then Ok [] else
  let dexi := dex_index_of (listed_identity m).1.1.1.1.1.2 in
  if Z.of_nat (List.length (wire_dexes r)) <=? dexi then identity_error "persisted catalog asset ID has no DEX owner" else
  if negb (bool_decide (wire_dexes r !! Z.to_nat dexi = Some (cm_dex m)))
  then identity_error "persisted catalog DEX/index mapping is invalid" else
  Ok [(dexi, listed_universe_index m, m)].

Definition position_leb (a b : Z * Z * CatalogMarket) : bool :=
  tuple_leb Z.leb Z.leb (a.1.1, a.1.2) (b.1.1, b.1.2).

(** [_revision_identity_snapshot_sha256] *)
Definition revision_identity_snapshot_sha256 (r : CatalogRevision) : res string :=
  sortable ← map_res (positioned r) (cr_markets r);
  let identities := (fun p => identity_json (cm_symbol p.2) (listed_identity p.2) p.1.1 p.1.2 (is_delisted p.2))
                      <$> py_sorted position_leb (concat sortable) in
  Ok (snapshot_of (cr_network r) (policy_version r) (wire_dexes r) identities).

(** [CatalogRevision.from_payload] *)
Definition revision_from_payload (o : list (string * json)) : res CatalogRevision :=
  match obj_field "markets" o with
  | JList raw_markets =>
      ms ← map_res market_from_payload raw_markets;
      n ← payload_key json_int "sequence" o; id ← payload_key (fun v => Ok (py_str v)) "revision_id" o;
      policy ← payload_key (fun v => Ok (py_str v)) "policy_version" o; net ← payload_key (fun v => Ok (py_str v)) "network" o;
      t ← payload_key json_int "observed_ms" o; dexes ← payload_key text_list "wire_dexes" o;
      snapshot ← payload_key (fun v => Ok (py_str v)) "snapshot_sha256" o;
      before ← payload_key (fun v => Ok (py_str v)) "dex_bracket_before_sha256" o;
      after ← payload_key (fun v => Ok (py_str v)) "dex_bracket_after_sha256" o;
      r ← make_revision (MkRevision n id policy net t dexes ms snapshot before after);
      expected ← revision_identity_snapshot_sha256 r;
      check_that (bool_decide (snapshot = expected)) "persisted catalog identity payload does not match snapshot hash" ;;
      check_that (bool_decide (id = revision_id_of n expected)) "persisted catalog revision ID does not match identity snapshot" ;;
      check_that (is_sha256_hex before && is_sha256_hex after) "persisted catalog dex bracket hash is invalid" ;;
      Ok r
  | _ => identity_error "persisted catalog markets are malformed"
  end.

(** * A revision from three answers *)

(** [raw.get(key)] of an integer that is not a boolean *)
Definition listed_int (msg key : string) (o : list (string * json)) : res Z :=
  match obj_field key o with JInt z => Ok z | _ => identity_error msg end.

Definition listed_margin_mode (o : list (string * json)) : res string :=
  mode ← match obj_field "marginMode" o with
         | JNull => Ok match obj_field "onlyIsolated" o with JBool true => "strictIsolated" | _ => "cross" end
         | JStr m => Ok m
         | _ => identity_error "market has invalid marginMode"
         end;
  if bool_decide (mode ∈ MARGIN_MODES) then Ok mode else identity_error "market has unsupported marginMode".

Definition listed_margin_table (o : list (string * json)) : res (option Z) :=
  match obj_field "marginTableId" o with
  | JNull => Ok None
  | JInt z => Ok (Some z)
  | _ => identity_error "market has invalid marginTableId"
  end.

(** One entry of a universe. *)
Definition listed_market (dexi : Z) (dex : string) (collateral universe : Z) (seen : list CatalogMarket) (raw : json) : res CatalogMarket :=
  match raw with
  | JObj o =>
      match exact_name (obj_field "name" o) with
      | None => identity_error "catalog market name must be an exact non-empty string"
      | Some name =>
          symbol ← qualify_market_symbol (JStr dex) (JStr name);
          if bool_decide (symbol ∈ cm_symbol <$> seen) then identity_error "duplicate canonical catalog symbol" else
          sz ← listed_int "market has invalid szDecimals" "szDecimals" o;
          leverage ← listed_int "market has invalid maxLeverage" "maxLeverage" o;
          match default (JBool false) (obj_get "isDelisted" o) with
          | JBool delisted =>
              mode ← listed_margin_mode o;
              table ← listed_margin_table o;
              let asset := hip3_asset_id dexi universe in
              if bool_decide (asset ∈ asset_id <$> seen) then identity_error "duplicate catalog asset ID" else
              make_market (MkCatalogMarket symbol dex asset dexi universe sz leverage (if delisted then DELISTED else NO_CONTEXT)
                mode collateral table delisted 0 None None 0 0 "" false no_pending)
          | _ => identity_error "market has invalid isDelisted"
          end
      end
  | _ => identity_error "catalog universe entries must be objects"
  end.

(** The universe of one DEX. *)
Fixpoint listed_universe (dexi : Z) (dex : string) (collateral universe : Z) (seen : list CatalogMarket) (raws : list json)
    : res (list CatalogMarket) :=
  match raws with
  | [] => Ok seen
  | raw :: rest =>
      m ← listed_market dexi dex collateral universe seen raw;
      listed_universe dexi dex collateral (universe + 1) (seen ++ [m]) rest
  end.

(** One DEX after the other. *)
Fixpoint listed_dexes (dexi : Z) (seen : list CatalogMarket) (entries : list (string * json)) : res (list CatalogMarket) :=
  match entries with
  | [] => Ok seen
  | (dex, JObj meta) :: rest =>
      match obj_field "universe" meta with
      | JList universe =>
          match default (JInt 0) (obj_get "collateralToken" meta) with
          | JInt collateral =>
              seen ← listed_universe dexi dex collateral 0 seen universe;
              listed_dexes (dexi + 1) seen rest
          | _ => identity_error "DEX has invalid collateralToken"
          end
      | _ => identity_error "DEX universe must be an array"
      end
  | _ => identity_error "allPerpMetas entry must be an object"
  end.

(** Three coherent answers as a revision. *)
Definition listed_revision (network policy : string) (n observed : Z) (before metas after : json) : res CatalogRevision :=
  wire_before ← perp_dex_names before;
  wire_after ← perp_dex_names after;
  if negb (bool_decide (wire_before = wire_after)) then identity_error "perp DEX catalog changed during dynamic snapshot" else
  match metas with
  | JList entries =>
      if negb (List.length entries =? List.length wire_before)%nat then identity_error "allPerpMetas is not aligned with perpDexs" else
      if (n <? 1) || (observed <=? 0) then identity_error "catalog sequence and observation time must be positive" else
      ms ← listed_dexes 0 [] (zip wire_before entries);
      let net := py_lower (py_strip network) in
      let snapshot := snapshot_of net policy wire_before
                        ((fun m => identity_json (cm_symbol m) (execution_identity m) (dex_index m) (universe_index m) (is_delisted m)) <$> ms) in
      make_revision (MkRevision n (revision_id_of n snapshot) policy net observed wire_before ms snapshot
                       (canonical_payload_sha256 before) (canonical_payload_sha256 after))
  | _ => identity_error "allPerpMetas is not aligned with perpDexs"
  end.

(** * Keeping what is in use *)

Definition named (symbol : string) (ms : list CatalogMarket) : option CatalogMarket :=
  List.find (fun m => bool_decide (cm_symbol m = symbol)) ms.

(** The accepted identity stays, and the listed one waits to be reconciled. *)
Definition keep_identity (old m : CatalogMarket) (from_revision revision : string) : CatalogMarket :=
  MkCatalogMarket (cm_symbol old) (cm_dex old) (asset_id old) (dex_index old) (universe_index old) (cm_sz_decimals old)
    (cm_max_leverage old) UNTRUSTED (margin_mode old) (collateral_token old) (margin_table_id old) (is_delisted old)
    (context_observed_ms old) (cm_oracle_px old) (cm_mark_px old) (book_revision old) (book_observed_ms old) from_revision
    (removal_tombstone old)
    (MkPending (Some (asset_id m)) (Some (universe_index m)) (Some (cm_sz_decimals m)) (Some (cm_max_leverage m))
       (Some (margin_mode m)) (Some (collateral_token m)) (margin_table_id m) revision).

(** The exchange does not list the market any more. *)
Definition tombstone (old : CatalogMarket) (from_revision : string) : CatalogMarket :=
  MkCatalogMarket (cm_symbol old) (cm_dex old) (asset_id old) (dex_index old) (universe_index old) (cm_sz_decimals old)
    (cm_max_leverage old) DELISTED (margin_mode old) (collateral_token old) (margin_table_id old) true
    (context_observed_ms old) (cm_oracle_px old) (cm_mark_px old) (book_revision old) (book_observed_ms old) from_revision
    true (pending old).

(** [replace(revision, markets=...)] *)
Definition with_markets (r : CatalogRevision) (ms : list CatalogMarket) : CatalogRevision :=
  MkRevision (sequence r) (revision_id r) (policy_version r) (cr_network r) (cr_observed_ms r) (wire_dexes r) ms
    (snapshot_sha256 r) (dex_bracket_before_sha256 r) (dex_bracket_after_sha256 r).

(** The order of markets: the default DEX first, then by DEX and symbol. *)
Definition catalog_order (ms : list CatalogMarket) : list CatalogMarket :=
  py_sorted (fun a b => symbol_key_leb (negb (is_empty (cm_dex a)), (cm_dex a, cm_symbol a))
                                       (negb (is_empty (cm_dex b)), (cm_dex b, cm_symbol b))) ms.

Definition identity_mutated (old m : CatalogMarket) : bool := negb (bool_decide (execution_identity old = execution_identity m)).

(** The listed market, or the accepted one when its identity is in use and changed. *)
Definition retain_identity (retained : list string) (previous r : CatalogRevision) (m : CatalogMarket) : res CatalogMarket :=
  match named (cm_symbol m) (cr_markets previous) with
  | Some old =>
      if identity_mutated old m && bool_decide (cm_symbol m ∈ retained)
      then make_market (keep_identity old m (revision_id previous) (revision_id r)) else Ok m
  | None => Ok m
  end.

(** The markets in use that are not listed any more. *)
Definition removed_markets (retained : list string) (previous : CatalogRevision) (listed : list string) : list CatalogMarket :=
  List.filter (fun old => negb (bool_decide (cm_symbol old ∈ listed)) && bool_decide (cm_symbol old ∈ retained)) (cr_markets previous).

(** [build_dynamic_catalog_revision] *)
Definition build_dynamic_catalog_revision (network policy : string) (n observed : Z) (before metas after : json)
    (previous : option CatalogRevision) (retain_symbols : list string) : res CatalogRevision :=
  r ← listed_revision network policy n observed before metas after;
  match previous with
  | None => Ok r
  | Some p =>
      retained ← map_res (fun s => canonical_market (JStr s)) retain_symbols;
      updated ← map_res (retain_identity retained p r) (cr_markets r);
      removed ← map_res (fun old => make_market (tombstone old (revision_id p)))
                  (removed_markets retained p (cm_symbol <$> cr_markets r));
      make_revision (with_markets r (catalog_order (updated ++ removed)))
  end.

(** [resolve_public_market_universe]: the three answers of the client, or what it raises. *)
Definition resolve_public_market_universe (network : string) (observed : Z) (before metas after : res json)
    : res FrozenMarketUniverseManifest :=
  before ← before; metas ← metas; after ← after;
  wire_before ← perp_dex_names before;
  wire_after ← perp_dex_names after;
  if negb (bool_decide (wire_before = wire_after)) then identity_error "perp DEX catalog changed during unsigned snapshot" else
  build_frozen_market_universe_manifest sha256 (JStr network) observed before metas.

(** * Differences *)

Record CatalogDiff := MkDiff {
  diff_id : string;
  from_revision_id : string;
  to_revision_id : string;
  change_class : string;
  df_market : string;
  df_before : option json;
  df_after : option json;
}.

Definition sorted_names (l : list string) : list string := py_sorted str_leb l.

(** What changed about a market both revisions have. *)
Definition market_changes (before after : CatalogMarket) : list string :=
  (if removal_tombstone after && negb (removal_tombstone before) then ["removed"]
   else if negb (Bool.eqb (is_delisted before) (is_delisted after)) then [if is_delisted after then "delisted" else "relisted"] else [])
  ++ (if bool_decide (execution_identity before = listed_identity after) then [] else ["identity_mutation"]).

Definition symbol_changes (old new : list CatalogMarket) (symbol : string) : list (string * string * option json * option json) :=
  match named symbol old, named symbol new with
  | None, Some m => [("added", symbol, None, Some (JObj (market_payload m)))]
  | Some m, None => [(if removal_tombstone m then "archived_removed_tombstone" else "removed", symbol, Some (JObj (market_payload m)), None)]
  | Some b, Some a => (fun cls => (cls, symbol, Some (JObj (market_payload b)), Some (JObj (market_payload a)))) <$> market_changes b a
  | None, None => []
  end.

(** [_catalog_diffs]: the added, the removed, and then the changed markets. *)
Definition catalog_diffs (previous : option CatalogRevision) (current : CatalogRevision) : list CatalogDiff :=
  let old := match previous with Some p => cr_markets p | None => [] end in
  let new := cr_markets current in
  let olds := cm_symbol <$> old in
  let news := cm_symbol <$> new in
  let only l l' := sorted_names (List.filter (fun s => negb (bool_decide (s ∈ l'))) l) in
  let both := sorted_names (List.filter (fun s => bool_decide (s ∈ news)) olds) in
  let from := match previous with Some p => revision_id p | None => "" end in
  (fun c => let '(cls, symbol, b, a) := c in
     MkDiff ("catalog-diff-" +:+ String.substring 0 32 (sha256 (from +:+ "|" +:+ revision_id current +:+ "|" +:+ cls +:+ "|" +:+ symbol)))
       from (revision_id current) cls symbol b a)
  <$> concat (symbol_changes old new <$> only news olds ++ only olds news ++ both).

(** * continuous_runner.py: the catalog file of the engine *)

(** [build_startup_catalog]: what the client answers to the three calls. *)
Definition build_startup_catalog (network : string) (observed : Z) (previous : option CatalogRevision) (retain_symbols : list string)
    (before metas after : res json) : res CatalogRevision :=
  before ← before; metas ← metas; after ← after;
  build_dynamic_catalog_revision network "continuous-ws-v1" match previous with Some p => sequence p + 1 | None => 1 end
    observed before metas after previous retain_symbols.

(** [load_durable_catalog]: no file, a file that is not JSON, or a value. *)
Definition load_durable_catalog (file : option (res json)) (network : string) : res (option CatalogRevision) :=
  match file with
  | None => Ok None
  | Some text =>
      catalog ← match (payload ← text; match payload with
                                       | JObj o => revision_from_payload o
                                       | _ => Raise (ValueError "catalog payload is not an object")
                                       end) with
                | Ok c => Ok c
                | Raise _ => Raise (RuntimeError "durable engine catalog is unreadable or invalid")
                end;
      if negb (bool_decide (cr_network catalog = network)) || negb (bool_decide (policy_version catalog = "continuous-ws-v1"))
      then Raise (RuntimeError "durable engine catalog belongs to a different runtime policy")
      else Ok (Some catalog)
  end.

(** [atomic_json_write(path, catalog.to_payload())], read again *)
Definition catalog_file (r : CatalogRevision) : json := sort_keys (JObj (revision_payload r)).

(** The catalog a run starts with: every market of the file is retained. *)
Definition startup_catalog (file : option (res json)) (network : string) (observed : Z) (before metas after : res json) : res CatalogRevision :=
  previous ← load_durable_catalog file network;
  build_startup_catalog network observed previous match previous with Some p => cm_symbol <$> cr_markets p | None => [] end
    before metas after.
End Digest.
