(* ===== verification/CatalogActor.v ===== *)
(** market_catalog.py: [MarketCatalogActor], the owner of the identities and contexts of all
    markets.

    The methods that change the revision hold one lock, so that each is a computation over
    the record [Actor].  While one waits for the journal, methods without the lock may
    run: [journal] is what the journal answers and what they do. *)

From S2P Require Import Prelude PyDecimal PyText Markets MarketCatalog CatalogRevisions.

Open Scope Z_scope.

(** * The actor *)

(** An [asyncio.Queue] of revisions. *)
Record Subscriber := MkSubscriber { sb_id : nat; capacity : Z; published : list CatalogRevision }.

Record Actor := MkActor {
  ac_network : string;
  ac_policy : string;
  context_max_age_ms : Z;
  identity_max_age_ms : Z;
  current : option CatalogRevision;
  historical_asset_ids : gmap Z string;
  subscribers : list Subscriber;
  refresh_reasons : option string;
  refresh_count : Z;
  immediate_refresh_count : Z;
  refresh_coalesced : Z;
  last_refresh_reason : string;
  publication_coalesced : Z;
  last_refresh_error : string;
  last_identity_success_ms : Z;
  context_frame_count : Z;
  aligned_context_frame_count : Z;
  last_context_alignment_healthy : bool;
  context_anomaly_count : Z;
  last_context_anomalies : list string;
}.

(** [__init__] *)
Definition make_actor (network policy : string) (context_age identity_age : Z) : res Actor :=
  if is_empty policy then Raise (ValueError "catalog policy version is required") else
  if context_age <=? 0 then Raise (ValueError "catalog context maximum age must be positive") else
  if identity_age <? 60000 then Raise (ValueError "catalog identity maximum age must cover one refresh cadence") else
  Ok (MkActor network policy context_age identity_age None ∅ [] None 0 0 0 "" 0 "" 0 0 0 false 0 []).

Abbreviation Acting := (ST Actor).

Section Updates.
Variable a : Actor.
Definition set_current r := MkActor (ac_network a) (ac_policy a) (context_max_age_ms a) (identity_max_age_ms a) (Some r)
  (historical_asset_ids a) (subscribers a) (refresh_reasons a) (refresh_count a) (immediate_refresh_count a) (refresh_coalesced a)
  (last_refresh_reason a) (publication_coalesced a) (last_refresh_error a) (last_identity_success_ms a) (context_frame_count a)
  (aligned_context_frame_count a) (last_context_alignment_healthy a) (context_anomaly_count a) (last_context_anomalies a).
Definition set_history h := MkActor (ac_network a) (ac_policy a) (context_max_age_ms a) (identity_max_age_ms a) (current a)
  h (subscribers a) (refresh_reasons a) (refresh_count a) (immediate_refresh_count a) (refresh_coalesced a)
  (last_refresh_reason a) (publication_coalesced a) (last_refresh_error a) (last_identity_success_ms a) (context_frame_count a)
  (aligned_context_frame_count a) (last_context_alignment_healthy a) (context_anomaly_count a) (last_context_anomalies a).
Definition set_subscribers l coalesced := MkActor (ac_network a) (ac_policy a) (context_max_age_ms a) (identity_max_age_ms a) (current a)
  (historical_asset_ids a) l (refresh_reasons a) (refresh_count a) (immediate_refresh_count a) (refresh_coalesced a)
  (last_refresh_reason a) coalesced (last_refresh_error a) (last_identity_success_ms a) (context_frame_count a)
  (aligned_context_frame_count a) (last_context_alignment_healthy a) (context_anomaly_count a) (last_context_anomalies a).
Definition set_reasons queued immediate coalesced last := MkActor (ac_network a) (ac_policy a) (context_max_age_ms a)
  (identity_max_age_ms a) (current a) (historical_asset_ids a) (subscribers a) queued (refresh_count a) immediate coalesced last
  (publication_coalesced a) (last_refresh_error a) (last_identity_success_ms a) (context_frame_count a)
  (aligned_context_frame_count a) (last_context_alignment_healthy a) (context_anomaly_count a) (last_context_anomalies a).
Definition set_refreshed count error success := MkActor (ac_network a) (ac_policy a) (context_max_age_ms a)
  (identity_max_age_ms a) (current a) (historical_asset_ids a) (subscribers a) (refresh_reasons a) count (immediate_refresh_count a)
  (refresh_coalesced a) (last_refresh_reason a) (publication_coalesced a) error success (context_frame_count a)
  (aligned_context_frame_count a) (last_context_alignment_healthy a) (context_anomaly_count a) (last_context_anomalies a).
Definition set_frames frames aligned healthy anomaly_count anomalies := MkActor (ac_network a) (ac_policy a) (context_max_age_ms a)
  (identity_max_age_ms a) (current a) (historical_asset_ids a) (subscribers a) (refresh_reasons a) (refresh_count a)
  (immediate_refresh_count a) (refresh_coalesced a) (last_refresh_reason a) (publication_coalesced a) (last_refresh_error a)
  (last_identity_success_ms a) frames aligned healthy anomaly_count anomalies.
End Updates.

(** ** Methods without the lock *)

(** [record_refresh_error] *)
Definition record_refresh_error (error : string) (a : Actor) : Actor :=
  set_refreshed a (refresh_count a) error (last_identity_success_ms a).

(** [identity_healthy] *)
Definition identity_healthy (now_ms : Z) (a : Actor) : bool :=
  let age := now_ms - last_identity_success_ms a in
  match current a with None => false | Some _ => true end && is_empty (last_refresh_error a) && (0 <? last_identity_success_ms a)
  && (0 <=? age) && (age <=? identity_max_age_ms a).

Definition is_full (s : Subscriber) : bool := (0 <? capacity s) && (capacity s <=? Z.of_nat (List.length (published s))).

Definition put (r : CatalogRevision) (s : Subscriber) : Subscriber := MkSubscriber (sb_id s) (capacity s) (published s ++ [r]).

(** [subscribe], of a queue with a fresh name *)
Definition subscribe (id : nat) (cap : Z) (a : Actor) : Actor :=
  let s := MkSubscriber id cap match current a with Some r => [r] | None => [] end in
  set_subscribers a (subscribers a ++ [s]) (publication_coalesced a).

(** [unsubscribe] *)
Definition unsubscribe (id : nat) (a : Actor) : Actor :=
  set_subscribers a (List.filter (fun s => negb (sb_id s =? id)%nat) (subscribers a)) (publication_coalesced a).

(** [request_immediate_refresh]: the queue of reasons holds one. *)
Definition request_immediate_refresh (reason : string) : Acting bool :=
  if is_empty reason then jraise (ValueError "catalog refresh reason must be non-empty") else
  let! a := jquery (fun a => Ok a) in
  match refresh_reasons a with
  | Some _ => let! _ := jmodify (fun a => set_reasons a (refresh_reasons a) (immediate_refresh_count a) (refresh_coalesced a + 1) reason) in jret false
  | None => let! _ := jmodify (fun a => set_reasons a (Some reason) (immediate_refresh_count a + 1) (refresh_coalesced a) reason) in jret true
  end.

(** [next_refresh_reason], when there is one *)
Definition next_refresh_reason (a : Actor) : Actor * option string :=
  (set_reasons a None (immediate_refresh_count a) (refresh_coalesced a) (last_refresh_reason a), refresh_reasons a).

(** [_publish]: a full queue stops the publication. *)
Fixpoint put_all (r : CatalogRevision) (l : list Subscriber) : list Subscriber * bool :=
  match l with
  | [] => ([], false)
  | s :: rest => if is_full s then (s :: rest, true) else let '(rest', overflow) := put_all r rest in (put r s :: rest', overflow)
  end.

Definition publish (r : CatalogRevision) : Acting unit :=
  let! a := jquery (fun a => Ok a) in
  let '(l, overflow) := put_all r (subscribers a) in
  let! _ := jmodify (fun a => set_subscribers a l (publication_coalesced a + if overflow : bool then 1 else 0)) in
  if overflow : bool then jraise (RuntimeError "catalog publication queue overflow would lose a lifecycle transition") else jret tt.

(** ** What the journal gets *)

Record Transition := MkTransition {
  transition_id : string;
  tr_revision_id : string;
  tr_market : string;
  transition_class : string;
  from_readiness : MarketReadiness;
  to_readiness : MarketReadiness;
  tr_observed_ms : Z;
  frame_sha256 : string;
  tr_asset_id : Z;
  tr_dex : string;
  tr_context_observed_ms : Z;
  tr_book_revision : Z;
}.

Inductive JournalEntry :=
  | append_catalog_revision (r : CatalogRevision) (diffs : list CatalogDiff)
  | append_catalog_market_transitions (transitions : list Transition)
  | append_control_audit (revision frame : string) (anomalies : list string) (created_ms : Z).

Section Actor.
Variable sha256 : string -> string.
Variable journal : JournalEntry -> Acting unit.

(** [_readiness_transitions] *)
Definition readiness_transition (before after : CatalogRevision) (cls : string) (observed : Z) (frame : string) (m : CatalogMarket) : list Transition :=
  match named (cm_symbol m) (cr_markets before) with
  | None => []
  | Some old =>
      if bool_decide (readiness old = readiness m) then [] else
      let identity := revision_id after +:+ "|" +:+ cm_symbol m +:+ "|" +:+ cls +:+ "|" +:+ readiness_text (readiness old) +:+ "|" +:+
                      readiness_text (readiness m) +:+ "|" +:+ str_of_Z observed +:+ "|" +:+ frame in
      [MkTransition ("catalog-market-" +:+ String.substring 0 32 (sha256 identity)) (revision_id after) (cm_symbol m) cls (readiness old)
         (readiness m) observed frame (asset_id m) (cm_dex m) (context_observed_ms m) (book_revision m)]
  end.

Definition readiness_transitions (before after : CatalogRevision) (cls : string) (observed : Z) (frame : string) : list Transition :=
  concat (readiness_transition before after cls observed frame <$> cr_markets after).

(** Journal what changed, count, accept the revision and publish it when a readiness changed. *)
Definition accept (before after : CatalogRevision) (cls : string) (observed : Z) (frame : string) (meanwhile : Acting unit) (count : Actor -> Actor)
    : Acting CatalogRevision :=
  let transitions := readiness_transitions before after cls observed frame in
  let! _ := journal (append_catalog_market_transitions transitions) in
  let! _ := meanwhile in
  let! _ := jmodify count in
  let! _ := jmodify (fun a => set_current a after) in
  let! _ := match transitions with [] => jret tt | _ => publish after end in
  jret after.

(** ** Refresh *)

(** The market with readiness, context and book of another one. *)
Definition carry_context (m old : CatalogMarket) : CatalogMarket :=
  MkCatalogMarket (cm_symbol m) (cm_dex m) (asset_id m) (dex_index m) (universe_index m) (cm_sz_decimals m) (cm_max_leverage m)
    (readiness old) (margin_mode m) (collateral_token m) (margin_table_id m) (is_delisted m) (context_observed_ms old)
    (cm_oracle_px old) (cm_mark_px old) (book_revision old) (book_observed_ms old) (tombstoned_from_revision m) (removal_tombstone m) (pending m).

(** Another market had the asset id first. *)
Definition distrust (m : CatalogMarket) (revision : string) : CatalogMarket :=
  MkCatalogMarket (cm_symbol m) (cm_dex m) (asset_id m) (dex_index m) (universe_index m) (cm_sz_decimals m) (cm_max_leverage m)
    UNTRUSTED (margin_mode m) (collateral_token m) (margin_table_id m) (is_delisted m) (context_observed_ms m) (cm_oracle_px m)
    (cm_mark_px m) (book_revision m) (book_observed_ms m) (tombstoned_from_revision m) (removal_tombstone m)
    (MkPending (Some (asset_id m)) (Some (universe_index m)) (Some (cm_sz_decimals m)) (Some (cm_max_leverage m))
       (Some (margin_mode m)) (Some (collateral_token m)) (margin_table_id m) revision).

(** The fate of one listed market. *)
Definition admit_market (prior : option CatalogRevision) (history : gmap Z string) (active : list string) (candidate : CatalogRevision)
    (m : CatalogMarket) : res CatalogMarket :=
  let previous := match prior with Some p => named (cm_symbol m) (cr_markets p) | None => None end in
  let reused := match history !! asset_id m with Some owner => negb (bool_decide (owner = cm_symbol m)) | None => false end in
  let distrusted := make_market (distrust m (revision_id candidate)) in
  match previous with
  | Some old =>
      if identity_mutated old m && bool_decide (cm_symbol m ∈ active)
      then make_market (keep_identity old m match prior with Some p => revision_id p | None => "" end (revision_id candidate)) else
      if reused then distrusted else
      if negb (is_delisted m) && is_empty (pending_identity_revision (pending old)) then make_market (carry_context m old) else Ok m
  | None => if reused then distrusted else Ok m
  end.

(** [_apply_tombstones_and_mutation_blocks] *)
Definition apply_tombstones_and_mutation_blocks (prior : option CatalogRevision) (history : gmap Z string) (candidate : CatalogRevision)
    (active : list string) : res CatalogRevision :=
  updated ← map_res (admit_market prior history active candidate) (cr_markets candidate);
  removed ← match prior with
            | None => Ok []
            | Some p => map_res (fun old => make_market (tombstone old (revision_id p)))
                          (removed_markets active p (cm_symbol <$> cr_markets candidate))
            end;
  make_revision (with_markets candidate (catalog_order (updated ++ removed))).

(** The first owner of an asset id stays. *)
Definition own (symbol : string) (history : gmap Z string) (asset : Z) : gmap Z string :=
  match history !! asset with Some _ => history | None => <[asset := symbol]> history end.
Definition record_owner (history : gmap Z string) (m : CatalogMarket) : gmap Z string :=
  let history := own (cm_symbol m) history (asset_id m) in
  match pending_asset_id (pending m) with Some asset => own (cm_symbol m) history asset | None => history end.

(** A candidate that lists what is already accepted, with nothing left to retire. *)
Definition nothing_new (a : Actor) (candidate : CatalogRevision) (active : list string) : bool :=
  match current a with
  | None => false
  | Some r =>
      bool_decide (snapshot_sha256 candidate = snapshot_sha256 r)
      && negb (existsb (fun m => (negb (is_empty (pending_identity_revision (pending m))) || removal_tombstone m)
                                 && negb (bool_decide (cm_symbol m ∈ active))) (cr_markets r))
  end.

Definition refreshed (observed : Z) (a : Actor) : Actor := set_refreshed a (refresh_count a + 1) "" observed.

(** [refresh], once the three answers are there *)
Definition refresh (active_markets : list string) (observed : Z) (before metas after : json) : Acting CatalogRevision :=
  let! active := jlift (map_res (fun s => canonical_market (JStr s)) active_markets) in
  let! a := jquery (fun a => Ok a) in
  let! candidate := jlift (build_dynamic_catalog_revision sha256 (ac_network a) (ac_policy a)
    match current a with Some r => sequence r + 1 | None => 1 end observed before metas after None []) in
  if nothing_new a candidate active
  then let! _ := jmodify (refreshed observed) in jret match current a with Some r => r | None => candidate end
  else
    let! candidate := jlift (apply_tombstones_and_mutation_blocks (current a) (historical_asset_ids a) candidate active) in
    let! _ := journal (append_catalog_revision candidate (catalog_diffs sha256 (current a) candidate)) in
    let! _ := jmodify (fun a => set_history a (fold_left record_owner (cr_markets candidate) (historical_asset_ids a))) in
    let! _ := jmodify (fun a => set_current a candidate) in
    let! _ := jmodify (refreshed observed) in
    let! _ := publish candidate in
    jret candidate.

(** ** Contexts *)

Definition set_readiness (m : CatalogMarket) (r : MarketReadiness) (context_ms : Z) (oracle mark : option pydec) : res CatalogMarket :=
  make_market (MkCatalogMarket (cm_symbol m) (cm_dex m) (asset_id m) (dex_index m) (universe_index m) (cm_sz_decimals m) (cm_max_leverage m)
    r (margin_mode m) (collateral_token m) (margin_table_id m) (is_delisted m) context_ms oracle mark (book_revision m)
    (book_observed_ms m) (tombstoned_from_revision m) (removal_tombstone m) (pending m)).

Definition one_of_readiness (l : list MarketReadiness) (m : CatalogMarket) : bool := bool_decide (readiness m ∈ l).

(** No context any more: the readiness falls back, unless it is worse. *)
Definition without_context (m : CatalogMarket) : res CatalogMarket :=
  set_readiness m (if one_of_readiness [DELISTED; UNTRUSTED] m then readiness m else NO_CONTEXT) 0 (cm_oracle_px m) (cm_mark_px m).

(** The same, where a halted market is left alone as well. *)
Definition fence_context (m : CatalogMarket) : res CatalogMarket :=
  if one_of_readiness [DELISTED; UNTRUSTED; HALTED] m then Ok m
  else set_readiness m NO_CONTEXT 0 (cm_oracle_px m) (cm_mark_px m).

(** [_optional_positive_decimal] *)
Definition optional_positive_decimal (value : json) : option pydec :=
  match value with
  | JNull => None
  | _ => match decimal_of_string (py_str value) with
         | Some (Fin d) => if dpos d then Some (Fin d) else None
         | _ => None
         end
  end.

Definition is_halted (context : list (string * json)) : bool :=
  match obj_field "isHalted" context with JBool true => true | _ => false end
  || match obj_field "isMarketOpen" context with JBool false => true | _ => false end.

Definition context_readiness (m : CatalogMarket) (halted : bool) (oracle mark : option pydec) : MarketReadiness :=
  if is_delisted m then DELISTED else
  if one_of_readiness [UNTRUSTED] m then UNTRUSTED else
  if halted then HALTED else
  if (negb (is_empty (cm_dex m)) && absent oracle) || (absent oracle && absent mark) then NO_CONTEXT else
  if 0 <? book_revision m then READY else NO_CONTEXT.

(** The market with a context of its own. *)
Definition with_context (m : CatalogMarket) (context : list (string * json)) (observed : Z) : res CatalogMarket :=
  let oracle := optional_positive_decimal (obj_field "oraclePx" context) in
  let mark := optional_positive_decimal (obj_field "markPx" context) in
  set_readiness m (context_readiness m (is_halted context) oracle mark) observed oracle mark.

(** ** The aggregate frame *)

Definition dex_label (dex : string) : string := if is_empty dex then "<default>" else dex.

Definition context_list (contexts : json) : res (list json) :=
  match contexts with JList l => Ok l | _ => identity_error "aggregate DEX contexts must be arrays" end.

Definition keyed_step (acc : dict (list json)) (kv : string * json) : res (dict (list json)) :=
  l ← context_list kv.2;
  Ok (dict_set (if bool_decide (kv.1 ∈ [""; "default"]) then "" else kv.1) l acc).

(** [raw_dex in {None, "", "default"}] *)
Definition context_dex (raw : json) : res string :=
  match raw with
  | JNull => Ok ""
  | JStr s => Ok (if bool_decide (s ∈ [""; "default"]) then "" else s)
  | JList _ | JObj _ => Raise (TypeError "unhashable type")
  | _ => Ok (py_str raw)
  end.

Definition listed_step (acc : dict (list json)) (item : json) : res (dict (list json)) :=
  '(raw_dex, contexts) ← match item with
    | JObj o => Ok (default (JStr "") (obj_get "dex" o), default (obj_field "ctxs" o) (obj_get "contexts" o))
    | JList [d; c] => Ok (d, c)
    | _ => identity_error "aggregate context entries must be DEX objects or pairs"
    end;
  dex ← context_dex raw_dex;
  match contexts with
  | JList l => if dict_mem dex acc then identity_error "aggregate context DEX entry is malformed" else Ok (dict_set dex l acc)
  | _ => identity_error "aggregate context DEX entry is malformed"
  end.

(** [_parse_all_dex_contexts]: an object may wrap the contexts in [ctxs]. *)
Fixpoint parse_all_dex_contexts (payload : json) : res (dict (list json)) :=
  match payload with
  | JObj o =>
      (fix unwrap (rest : list (string * json)) : res (dict (list json)) :=
         match rest with
         | [] => fold_res keyed_step o []
         | (k, v) :: rest => if decide ("ctxs" = k) then parse_all_dex_contexts v else unwrap rest
         end) o
  | JList l => fold_res listed_step l []
  | _ => identity_error "aggregate contexts must be an object or array"
  end.

(** The place of a market in the frames of its DEX. *)
Definition context_index (m : CatalogMarket) : Z :=
  if is_empty (pending_identity_revision (pending m)) then universe_index m else default (universe_index m) (pending_universe_index (pending m)).

(** The markets by place; a later one takes the place, and the collision is reported. *)
Definition align_step (dex : string) (acc : gmap Z CatalogMarket * list string) (m : CatalogMarket) : gmap Z CatalogMarket * list string :=
  let i := context_index m in
  (<[i := m]> acc.1, acc.2 ++ match acc.1 !! i with
                              | Some _ => ["identity_collision:" +:+ dex_label dex +:+ ":" +:+ str_of_Z i]
                              | None => []
                              end).
Definition align (dex : string) (ms : list CatalogMarket) : gmap Z CatalogMarket * list string := fold_left (align_step dex) ms (∅, []).

(** Replacements by symbol, and anomalies. *)
Definition Replaced : Type := list CatalogMarket * list string.

Definition fall_back (ms : list CatalogMarket) (anomaly : string) (acc : Replaced) : res Replaced :=
  l ← map_res without_context ms; Ok (acc.1 ++ l, acc.2 ++ [anomaly]).

(** One context at its place. *)
Definition context_step (dex : string) (aligned : gmap Z CatalogMarket) (observed : Z) (acc : Replaced) (ic : Z * json) : res Replaced :=
  match aligned !! ic.1 with
  | None => Raise (KeyError (str_of_Z ic.1))
  | Some m =>
      if negb (is_empty (pending_identity_revision (pending m))) then Ok (acc.1 ++ [m], acc.2) else
      match ic.2 with
      | JObj context => m' ← with_context m context observed; Ok (acc.1 ++ [m'], acc.2)
      | _ => m' ← set_readiness m NO_CONTEXT 0 (cm_oracle_px m) (cm_mark_px m);
             Ok (acc.1 ++ [m'], acc.2 ++ ["invalid_context:" +:+ dex_label dex +:+ ":" +:+ str_of_Z ic.1])
      end
  end.

Fixpoint indexed {A} (i : Z) (l : list A) : list (Z * A) :=
  match l with [] => [] | x :: rest => (i, x) :: indexed (i + 1) rest end.

(** One DEX of the frame. *)
Definition dex_contexts (contexts_by_dex : dict (list json)) (r : CatalogRevision) (observed : Z) (acc : Replaced) (dex : string) : res Replaced :=
  let ms := List.filter (fun m => negb (removal_tombstone m) && bool_decide (cm_dex m = dex)) (cr_markets r) in
  match dict_get dex contexts_by_dex with
  | None => fall_back ms ("missing_dex:" +:+ dex_label dex) acc
  | Some contexts =>
      let '(aligned, collisions) := align dex ms in
      let acc := (acc.1, acc.2 ++ collisions) in
      if negb (bool_decide (dom aligned = list_to_set (seqZ 0 (Z.of_nat (List.length contexts))) :> gset Z))
      then fall_back ms ("length_mismatch:" +:+ dex_label dex) acc
      else fold_res (context_step dex aligned observed) (indexed 0 contexts) acc
  end.

(** [replacements.get(market.symbol, market)]: the last replacement of a market counts. *)
Definition replaced (l : list CatalogMarket) (m : CatalogMarket) : CatalogMarket := default m (named (cm_symbol m) (reverse l)).

Definition comma_separated (l : list string) : string := String.concat "," l.

(** Every market of the revision has a DEX of the revision. *)
Definition check_market_dexes (r : CatalogRevision) : res unit :=
  match List.find (fun m => negb (removal_tombstone m) && negb (bool_decide (cm_dex m ∈ wire_dexes r))) (cr_markets r) with
  | Some m => Raise (KeyError (cm_dex m))
  | None => Ok tt
  end.

Definition accepted_revision (msg : string) : Acting CatalogRevision :=
  jquery (fun a => match current a with Some r => Ok r | None => identity_error msg end).

(** [observe_all_dex_contexts] *)
Definition observe_all_dex_contexts (payload : json) (observed : Z) : Acting CatalogRevision :=
  let! r := accepted_revision "catalog context arrived before an identity revision" in
  let! contexts_by_dex := jlift (parse_all_dex_contexts payload) in
  let unexpected := (fun dex => "unexpected_dex:" +:+ dex)
                      <$> sorted_names (List.filter (fun dex => negb (bool_decide (dex ∈ wire_dexes r))) (dict_keys contexts_by_dex)) in
  let! _ := jlift (check_market_dexes r) in
  let! done := jlift (fold_res (dex_contexts contexts_by_dex r observed) (wire_dexes r) ([], unexpected)) in
  let '(replacements, anomalies) := done in
  let! revised := jlift (make_revision (with_markets r (replaced replacements <$> cr_markets r))) in
  let frame := canonical_payload_sha256 sha256 payload in
  accept r revised "aggregate_context_readiness" observed frame
    match anomalies with
    | [] => jret tt
    | _ =>
        let! _ := request_immediate_refresh ("aggregate_context_anomaly:" +:+ comma_separated (take 8 anomalies)) in
        journal (append_control_audit (revision_id r) frame anomalies observed)
    end
    (fun a => set_frames a (context_frame_count a + 1) (aligned_context_frame_count a + match anomalies with [] => 1 | _ => 0 end)
                match anomalies with [] => true | _ => false end (context_anomaly_count a + Z.of_nat (List.length anomalies)) anomalies).

(** ** Frames and fences of one market *)

Definition put_market (symbol : string) (m : CatalogMarket) (r : CatalogRevision) : res CatalogRevision :=
  make_revision (with_markets r ((fun item => if bool_decide (cm_symbol item = symbol) then m else item) <$> cr_markets r)).

(** A market of the revision, or a request to look for it. *)
Definition known_market (r : CatalogRevision) (symbol why msg : string) : Acting CatalogMarket :=
  let! m := jlift (revision_market symbol r) in
  match m with
  | Some m => jret m
  | None => let! _ := request_immediate_refresh (why +:+ ":" +:+ symbol) in jlift (identity_error msg)
  end.

(** [observe_active_context] *)
Definition observe_active_context (payload : json) (observed : Z) : Acting CatalogRevision :=
  let! r := accepted_revision "active market context arrived before an identity revision" in
  match payload with
  | JObj o =>
      let! symbol := jlift (catch (canonical_market (JStr (str_or_empty (obj_field "coin" o)))) is_value_error
                              (fun _ => identity_error "active market context has no market")) in
      let! m := known_market r symbol "unknown_active_context_market" "unknown active context market" in
      let frame := canonical_payload_sha256 sha256 payload in
      match obj_field "ctx" o with
      | JObj context =>
          let! updated := jlift (with_context m context observed) in
          let! revised := jlift (put_market symbol updated r) in
          accept r revised "active_context_readiness" observed frame (jret tt)
            (fun a => set_frames a (context_frame_count a + 1) (aligned_context_frame_count a + 1) true (context_anomaly_count a) [])
      | _ =>
          let! updated := jlift (fence_context m) in
          let! revised := jlift (put_market symbol updated r) in
          let why := "malformed_active_context:" +:+ symbol in
          accept r revised "active_context_malformed" observed frame (let! _ := request_immediate_refresh why in jret tt)
            (fun a => set_frames a (context_frame_count a + 1) (aligned_context_frame_count a) false (context_anomaly_count a + 1) [why])
      end
  | _ => jlift (identity_error "active market context frame is malformed")
  end.

(** [invalidate_market_context] *)
Definition invalidate_market_context (symbol : string) (observed : Z) (reason : string) : Acting CatalogRevision :=
  let! r := accepted_revision "market context invalidation has no catalog" in
  let! canonical := jlift (canonical_market (JStr symbol)) in
  let! m := known_market r canonical "unknown_context_invalidation_market" "unknown catalog market" in
  if one_of_readiness [DELISTED; UNTRUSTED; HALTED] m then jret r else
  let! updated := jlift (set_readiness m NO_CONTEXT 0 (cm_oracle_px m) (cm_mark_px m)) in
  let! revised := jlift (put_market canonical updated r) in
  accept r revised "active_context_unsubscribed" observed
    (canonical_payload_sha256 sha256 (JObj [("market", JStr canonical); ("reason", JStr reason); ("observed_ms", JInt observed)]))
    (jret tt) (fun a => a).

(** [invalidate_all_contexts] *)
Definition invalidate_all_contexts (observed : Z) (reason : string) (frame_payload : json) : Acting CatalogRevision :=
  let! r := accepted_revision "catalog context arrived before an identity revision" in
  let! ms := jlift (map_res fence_context (cr_markets r)) in
  let! revised := jlift (make_revision (with_markets r ms)) in
  accept r revised "aggregate_context_unclassified" observed (canonical_payload_sha256 sha256 frame_payload) (jret tt)
    (fun a => set_frames a (context_frame_count a) (aligned_context_frame_count a) false (context_anomaly_count a + 1) [reason]).

Definition book_readiness (m : CatalogMarket) (context_fresh : bool) : MarketReadiness :=
  if one_of_readiness [HALTED; DELISTED; UNTRUSTED] m then readiness m else
  if context_fresh && negb (absent (cm_oracle_px m) && absent (cm_mark_px m)) then READY else NO_CONTEXT.

(** [observe_book] *)
Definition observe_book (symbol : string) (book observed now_ms : Z) : Acting CatalogMarket :=
  let! r := accepted_revision "book arrived before catalog identity" in
  let! canonical := jlift (canonical_market (JStr symbol)) in
  let! m := known_market r canonical "unknown_book_market" "unknown catalog market" in
  let! a := jquery (fun a => Ok a) in
  if book <=? book_revision m then jlift (identity_error "book revision must advance") else
  let age := now_ms - context_observed_ms m in
  let fresh := (0 <? context_observed_ms m) && ((0 <=? age) && (age <=? context_max_age_ms a)) in
  let! updated := jlift (make_market (MkCatalogMarket (cm_symbol m) (cm_dex m) (asset_id m) (dex_index m) (universe_index m)
    (cm_sz_decimals m) (cm_max_leverage m) (book_readiness m fresh) (margin_mode m) (collateral_token m) (margin_table_id m)
    (is_delisted m) (context_observed_ms m) (cm_oracle_px m) (cm_mark_px m) book observed (tombstoned_from_revision m)
    (removal_tombstone m) (pending m))) in
  let! revised := jlift (put_market canonical updated r) in
  let frame := canonical_payload_sha256 sha256 (JObj [("symbol", JStr canonical); ("book_revision", JInt book); ("observed_ms", JInt observed)]) in
  let! _ := journal (append_catalog_market_transitions (readiness_transitions r revised "book_readiness" observed frame)) in
  let! _ := jmodify (fun a => set_current a revised) in
  let! _ := (if bool_decide (readiness updated = readiness m) then jret tt else publish revised) in
  jret updated.

(** [entry_market]: the market that a new position may be opened in *)
Definition entry_market (symbol : string) (denied_symbols : list string) : Acting CatalogMarket :=
  let! canonical := jlift (canonical_market (JStr symbol)) in
  let! r := accepted_revision "catalog has no accepted revision" in
  let! m := known_market r canonical "unknown_source_market" "unknown catalog market" in
  let! denied := jlift (map_res (fun s => canonical_market (JStr s)) denied_symbols) in
  if bool_decide (canonical ∈ denied) then jlift (identity_error "market is denied by frozen policy") else
  if negb (bool_decide (readiness m = READY)) then jlift (identity_error "market is not entry-ready") else jret m.

(** ** After a restart *)

Definition history_step (history : gmap Z string) (row : list (string * json)) : res (gmap Z string) :=
  asset ← payload_key json_int "asset_id" row;
  symbol ← payload_key (fun v => canonical_market (JStr (py_str v))) "canonical_market" row;
  match history !! asset with
  | Some prior => if bool_decide (prior = symbol) then Ok (<[asset := symbol]> history) else identity_error "persisted asset ID history contains reuse"
  | None => Ok (<[asset := symbol]> history)
  end.

(** A restored market waits for a context and a book. *)
Definition restored_market (m : CatalogMarket) : res CatalogMarket :=
  make_market (MkCatalogMarket (cm_symbol m) (cm_dex m) (asset_id m) (dex_index m) (universe_index m) (cm_sz_decimals m) (cm_max_leverage m)
    (if one_of_readiness [DELISTED; UNTRUSTED] m then readiness m else NO_CONTEXT) (margin_mode m) (collateral_token m)
    (margin_table_id m) (is_delisted m) 0 (cm_oracle_px m) (cm_mark_px m) 0 0 (tombstoned_from_revision m) (removal_tombstone m) (pending m)).

(** The owners of the restored asset ids. *)
Fixpoint restore_owners (ms : list CatalogMarket) : Acting unit :=
  match ms with
  | [] => jret tt
  | m :: rest =>
      let! history := jquery (fun a => Ok (historical_asset_ids a)) in
      let! _ := match history !! asset_id m with
                | Some prior =>
                    if bool_decide (prior = cm_symbol m) then jret tt else
                    if one_of_readiness [UNTRUSTED] m then jret tt else jlift (identity_error "persisted catalog revision reuses an asset ID")
                | None => jmodify (fun a => set_history a (<[asset_id m := cm_symbol m]> (historical_asset_ids a)))
                end in
      restore_owners rest
  end.

(** [restore] *)
Definition restore (payload : option (list (string * json))) (asset_history : list (list (string * json))) : Acting unit :=
  let! a := jquery (fun a => Ok a) in
  match current a with
  | Some _ => jlift (identity_error "catalog actor can only restore before refresh")
  | None =>
      let! history := jlift (fold_res history_step asset_history ∅) in
      let! _ := jmodify (fun a => set_history a history) in
      match payload with
      | None => jret tt
      | Some o =>
          let! r := jlift (revision_from_payload sha256 o) in
          if negb (bool_decide (cr_network r = ac_network a)) || negb (bool_decide (policy_version r = ac_policy a))
          then jlift (identity_error "persisted catalog policy/network fence failed") else
          let! ms := jlift (map_res restored_market (cr_markets r)) in
          let! r := jlift (make_revision (with_markets r ms)) in
          let! _ := jmodify (fun a => set_current a r) in
          restore_owners (cr_markets r)
      end
  end.

(** [health]: what it computes *)
Record Health := MkHealth { healthy : bool; pending_refresh_reasons : Z; identity_age_ms : option Z; market_states : list (MarketReadiness * Z) }.

Definition health (now_ms : Z) (a : Actor) : Health :=
  MkHealth (identity_healthy now_ms a) match refresh_reasons a with Some _ => 1 | None => 0 end
    (if last_identity_success_ms a <=? 0 then None else Some (Z.max 0 (now_ms - last_identity_success_ms a)))
    match current a with
    | None => []
    | Some r => (fun s => (s, Z.of_nat (List.length (List.filter (fun m => bool_decide (readiness m = s)) (cr_markets r))))) <$> ALL_READINESS
    end.
End Actor.
