(* ===== verification/PriceContext.v ===== *)
(** market_catalog.py: [FrozenMarketContextProvider], the last good prices of the markets of
    one launch manifest, and the price a risk reduction may use.

    The cache is a map by canonical symbol; its prices are finite decimals. *)

From S2P Require Import Prelude PyDecimal PyText Markets MarketCatalog CatalogRevisions.

Open Scope Z_scope.

(** [_positive_decimal] *)
Definition positive_price (value : json) : res dec :=
  match value with
  | JBool _ => identity_error "price must be a positive finite decimal"
  | _ => match decimal_of_string (py_str value) with
         | Some (Fin d) => if dpos d then Ok d else identity_error "price must be a positive finite decimal"
         | _ => identity_error "price must be a positive finite decimal"
         end
  end.

(** [_validate_observed_ms] of an integer *)
Definition validate_observed_ms (t : Z) : res unit := check_that (0 <? t) "observed_ms must be a positive integer".

(** [_validate_price_pair] *)
Definition validate_price_pair (price : option dec) (observed : option Z) : res unit :=
  match price, observed with
  | None, None => Ok tt
  | Some p, Some t => check_that (dpos p) "price must be a positive finite Decimal" ;; validate_observed_ms t
  | _, _ => identity_error "price and observed_ms must be present together"
  end.

(** [_merge_observation]: a price with its time, or nothing. *)
Definition merge_observation (previous : option dec) (previous_ms : option Z) (observed : option dec) (at_ms : Z)
    : res (option dec * option Z) :=
  match observed with
  | None => Ok (previous, previous_ms)
  | Some price =>
      if match previous_ms with Some t => at_ms <? t | None => false end then identity_error "observation moved backwards" else
      if bool_decide (previous_ms = Some at_ms) && match previous with Some p => negb (deqb price p) | None => false end
      then identity_error "observation conflicts at the same timestamp"
      else Ok (Some price, Some at_ms)
  end.

Record LastGoodMarketContext := MkContext {
  lg_symbol : string;
  lg_mark_px : option dec;
  lg_mark_ms : option Z;
  lg_mid_px : option dec;
  lg_mid_ms : option Z;
}.

(** [LastGoodMarketContext(...)] with its [__post_init__] *)
Definition make_context (c : LastGoodMarketContext) : res LastGoodMarketContext :=
  symbol ← canonical_market (JStr (lg_symbol c));
  check_that (bool_decide (symbol = lg_symbol c)) "last-good market symbol must be canonical" ;;
  validate_price_pair (lg_mark_px c) (lg_mark_ms c) ;;
  validate_price_pair (lg_mid_px c) (lg_mid_ms c) ;;
  check_that (negb (absent (lg_mark_px c) && absent (lg_mid_px c))) "last-good market context must contain a mark or mid" ;;
  Ok c.

Definition context_payload (c : LastGoodMarketContext) : json :=
  JObj [("symbol", JStr (lg_symbol c)); ("mark_px", decimal_text (Fin <$> lg_mark_px c)); ("mark_observed_ms", opt_int (lg_mark_ms c));
        ("mid_px", decimal_text (Fin <$> lg_mid_px c)); ("mid_observed_ms", opt_int (lg_mid_ms c))].

Record FrozenReductionMarketContext := MkReduction {
  rd_symbol : string;
  rd_sz_decimals : Z;
  reference_px : dec;
  price_source : string;
  price_observed_ms : Z;
}.

(** [FrozenReductionMarketContext(...)] with its [__post_init__] *)
Definition make_reduction (c : FrozenReductionMarketContext) : res FrozenReductionMarketContext :=
  make_spec (rd_symbol c) (rd_sz_decimals c) ;;
  check_that (bool_decide (price_source c ∈ ["mark"; "mid"])) "reduction price_source must be mark or mid" ;;
  validate_price_pair (Some (reference_px c)) (Some (price_observed_ms c)) ;;
  Ok c.

Definition reduction_payload (c : FrozenReductionMarketContext) : json :=
  JObj [("symbol", JStr (rd_symbol c)); ("sz_decimals", JInt (rd_sz_decimals c)); ("reference_px", decimal_text (Some (Fin (reference_px c))));
        ("price_source", JStr (price_source c)); ("price_observed_ms", JInt (price_observed_ms c))].

(** * The provider *)

Record Provider := MkProvider {
  pv_manifest : FrozenMarketUniverseManifest;
  contexts : gmap string LastGoodMarketContext;
}.

Definition make_provider (m : FrozenMarketUniverseManifest) : Provider := MkProvider m ∅.

Definition given_price (value : json) : res (option dec) :=
  match value with JNull => Ok None | _ => Some <$> positive_price value end.

(** The context of a market with an observation merged into what was known. *)
Definition merged (symbol : string) (previous : option LastGoodMarketContext) (at_ms : Z) (mark mid : option dec) : res LastGoodMarketContext :=
  '(mark, mark_ms) ← merge_observation (previous ≫= lg_mark_px) (previous ≫= lg_mark_ms) mark at_ms;
  '(mid, mid_ms) ← merge_observation (previous ≫= lg_mid_px) (previous ≫= lg_mid_ms) mid at_ms;
  make_context (MkContext symbol mark mark_ms mid mid_ms).

(** [observe] *)
Definition observe (symbolv : json) (at_ms : Z) (mark_px mid_px : json) : ST Provider LastGoodMarketContext :=
  let! p := jquery (fun p => Ok p) in
  let! m := jlift (manifest_market (pv_manifest p) symbolv) in
  match mark_px, mid_px with
  | JNull, JNull => jlift (identity_error "market context observation must contain a mark or mid")
  | _, _ =>
      let! _ := jlift (validate_observed_ms at_ms) in
      let! mark := jlift (given_price mark_px) in
      let! mid := jlift (given_price mid_px) in
      let! c := jlift (merged (symbol m) (contexts p !! symbol m) at_ms mark mid) in
      let! _ := jmodify (fun p => MkProvider (pv_manifest p) (<[symbol m := c]> (contexts p))) in
      jret c
  end.

(** [context] *)
Definition context (symbolv : json) (p : Provider) : res (option LastGoodMarketContext) :=
  m ← manifest_market (pv_manifest p) symbolv; Ok (contexts p !! symbol m).

(** A price that is not from the future and not too old, with its rank among equally new ones. *)
Definition fresh_price (now_ms max_age_ms rank : Z) (source : string) (price : option dec) (observed : option Z)
    : list (Z * Z * string * dec) :=
  match price, observed with
  | Some p, Some t => if (0 <=? now_ms - t) && (now_ms - t <=? max_age_ms) then [(t, rank, source, p)] else []
  | _, _ => []
  end.

(** [max(candidates)]: times, then ranks, which are never equal, decide. *)
Definition newer (a b : Z * Z * string * dec) : bool :=
  let '(t, rank, _, _) := a in let '(t', rank', _, _) := b in (t' <? t) || ((t =? t') && (rank' <? rank)).
Definition newest (x : Z * Z * string * dec) (l : list (Z * Z * string * dec)) : Z * Z * string * dec :=
  fold_left (fun best c => if newer c best then c else best) l x.

(** [reduction_context] *)
Definition reduction_context (symbolv : json) (now_ms max_age_ms : Z) (p : Provider) : res FrozenReductionMarketContext :=
  m ← manifest_market (pv_manifest p) symbolv;
  validate_observed_ms now_ms ;;
  check_that (0 <=? max_age_ms) "reduction max_age_ms must be a non-negative integer" ;;
  match contexts p !! symbol m with
  | None => identity_error "market has no last-good price context"
  | Some c =>
      match fresh_price now_ms max_age_ms 1 "mark" (lg_mark_px c) (lg_mark_ms c)
            ++ fresh_price now_ms max_age_ms 0 "mid" (lg_mid_px c) (lg_mid_ms c) with
      | [] => identity_error "market has no price within reduction max_age_ms"
      | x :: rest =>
          let '(observed, _, source, price) := newest x rest in
          make_reduction (MkReduction (symbol m) (sz_decimals m) price source observed)
      end
  end.

(** [to_payload]: the markets with a context, in the order of the manifest. *)
Definition provider_payload (p : Provider) : json :=
  JObj [("manifest_sha256", JStr (sha256_of (pv_manifest p)));
        ("contexts", JList (context_payload <$> omap (fun s => contexts p !! s) (symbols (pv_manifest p))))].
