(* ===== verification/CatalogFacts.v ===== *)
(** Facts about catalog revisions: what the exchange lists is what a revision contains,
    markets in use keep the identity they had, and the catalog file of the engine is
    read back as it was written. *)

From S2P Require Import Prelude PyDecimal PyText TextFacts Markets MarketFacts MarketCatalog CatalogRevisions.
From Stdlib Require Import Lia.

Open Scope Z_scope.

(** * The two checks *)

Ltac checks := res_inv; repeat match goal with H : check_that ?b _ = Ok _ |- _ => destruct b eqn:?; [clear H|discriminate H] end; bool_prop.

Lemma make_market_Ok m m' : make_market m = Ok m' -> m' = m /\ make_market m = Ok m.
Proof. intros H. assert (m' = m) as -> by (unfold make_market in H; res_inv; congruence). done. Qed.

Lemma make_market_dex m : make_market m = Ok m -> market_dex (JStr (cm_symbol m)) = Ok (cm_dex m).
Proof. intros H. unfold make_market in H. checks. by subst. Qed.

Lemma make_market_indices m : make_market m = Ok m -> 0 <= asset_id m /\ 0 <= dex_index m /\ 0 <= universe_index m.
Proof. intros H. unfold make_market in H. checks. lia. Qed.

Lemma make_revision_Ok r r' : make_revision r = Ok r' ->
  r' = r /\ 1 <= sequence r /\ revision_id r <> "" /\ policy_version r <> "" /\ NoDup (cm_symbol <$> cr_markets r).
Proof.
  unfold make_revision. intros H. checks.
  repeat split; try done; intros E; by rewrite E in *.
Qed.

(** * Lookup by symbol *)

Lemma named_Some s ms m : named s ms = Some m -> m ∈ ms /\ cm_symbol m = s.
Proof. unfold named. intros [H1 H2]%List.find_some. split; [by apply list_elem_of_In|by apply bool_decide_eq_true in H2]. Qed.

Lemma named_None s ms : named s ms = None <-> s ∉ cm_symbol <$> ms.
Proof.
  unfold named. split.
  - intros H (m & -> & Hm)%list_elem_of_fmap. apply list_elem_of_In in Hm.
    pose proof (List.find_none _ _ H m Hm) as E. cbn in E. by rewrite bool_decide_true in E.
  - intros H. destruct (List.find _ ms) as [m|] eqn:E; [|done]. destruct (named_Some s ms m E) as [Hm <-].
    exfalso. apply H. by apply list_elem_of_fmap_2.
Qed.

Lemma named_elem ms m : NoDup (cm_symbol <$> ms) -> m ∈ ms -> named (cm_symbol m) ms = Some m.
Proof.
  intros Hnd Hm. destruct (named (cm_symbol m) ms) as [m'|] eqn:E.
  - apply named_Some in E as [Hm' Hs]. f_equal. by apply (same_row cm_symbol ms).
  - apply named_None in E. exfalso. apply E. by apply list_elem_of_fmap_2.
Qed.

(** * What the exchange lists *)

(** A market as it is listed, before any context or book. *)
Record fresh (m : CatalogMarket) : Prop := {
  fr_made : make_market m = Ok m;
  fr_pending : pending m = no_pending;
  fr_asset : asset_id m = hip3_asset_id (dex_index m) (universe_index m);
  fr_readiness : readiness m = if is_delisted m then DELISTED else NO_CONTEXT;
  fr_context : context_observed_ms m = 0;
  fr_oracle : cm_oracle_px m = None;
  fr_mark : cm_mark_px m = None;
  fr_book : book_revision m = 0;
  fr_tomb : removal_tombstone m = false;
}.

(** Distinct symbols and distinct asset ids. *)
Definition told_apart (ms : list CatalogMarket) : Prop := NoDup (cm_symbol <$> ms) /\ NoDup (asset_id <$> ms).

Lemma told_apart_snoc ms m : told_apart ms -> cm_symbol m ∉ cm_symbol <$> ms -> asset_id m ∉ asset_id <$> ms -> told_apart (ms ++ [m]).
Proof.
  intros [H1 H2] H3 H4. split; rewrite fmap_app; apply list.NoDup_app; (split; [done|split; [|apply NoDup_singleton]]);
    intros x Hx Hx'%list_elem_of_singleton; cbn in Hx'; by subst.
Qed.

Lemma listed_market_spec dexi dex collateral u seen raw m : listed_market dexi dex collateral u seen raw = Ok m ->
  fresh m /\ cm_dex m = dex /\ dex_index m = dexi /\ universe_index m = u /\
  cm_symbol m ∉ cm_symbol <$> seen /\ asset_id m ∉ asset_id <$> seen.
Proof.
  unfold listed_market. destruct raw as [| | | | | |o]; try done. destruct (exact_name _) as [name|]; [|done].
  intros H. res_inv. apply make_market_Ok in H as [-> H]. bool_prop. cbn. split; [|done]. by split.
Qed.

(** A place before another. *)
Definition before_place (a b : CatalogMarket) : Prop :=
  dex_index a < dex_index b \/ (dex_index a = dex_index b /\ universe_index a < universe_index b).

(** The markets of one DEX, in the order of its universe. *)
Lemma listed_universe_spec dexi dex collateral u seen raws ms : listed_universe dexi dex collateral u seen raws = Ok ms ->
  told_apart seen ->
  told_apart ms /\ exists new, ms = seen ++ new /\ Forall (fun m => fresh m /\ cm_dex m = dex /\ dex_index m = dexi /\ u <= universe_index m) new /\
  StronglySorted before_place new.
Proof.
  revert u seen. induction raws as [|raw raws IH]; intros u seen; cbn [listed_universe].
  - intros [= <-] Hs. split; [done|]. exists []. rewrite app_nil_r. by repeat split; constructor.
  - intros H Hs. res_inv. apply listed_market_spec in E as (Hf & Hd & Hi & Hu & Hsym & Has).
    apply IH in H as (Ht & new & -> & Hnew & Hso); [|by apply told_apart_snoc].
    split; [done|]. exists (a :: new). rewrite <- app_assoc. split; [done|]. split.
    + apply list.Forall_cons. split; [do 3 (split; [done|]); lia|]. eapply list.Forall_impl; [exact Hnew|]. cbn. intros m (? & ? & ? & ?).
      do 3 (split; [done|]). lia.
    + apply SSorted_cons; [done|]. eapply list.Forall_impl; [exact Hnew|]. cbn. intros m (_ & _ & ? & ?). right. lia.
Qed.

(** All markets, DEX by DEX. *)
Lemma listed_dexes_spec dexi seen entries ms : listed_dexes dexi seen entries = Ok ms -> told_apart seen ->
  told_apart ms /\ exists new, ms = seen ++ new /\
  Forall (fun m => fresh m /\ dexi <= dex_index m /\ entries.*1 !! Z.to_nat (dex_index m - dexi) = Some (cm_dex m)) new /\
  StronglySorted before_place new.
Proof.
  revert dexi seen. induction entries as [|[dex meta] rest IH]; intros dexi seen; cbn [listed_dexes].
  - intros [= <-] Hs. split; [done|]. exists []. rewrite app_nil_r. by repeat split; constructor.
  - destruct meta as [| | | | | |meta]; try done. intros H Hs. res_inv.
    apply listed_universe_spec in E1 as (Ht & new & -> & Hnew & Hso); [|done].
    apply IH in H as (Ht' & new' & -> & Hnew' & Hso'); [|done]. split; [done|]. exists (new ++ new').
    rewrite <- app_assoc. split; [done|]. split.
    + apply Forall_app. split; (eapply list.Forall_impl; [eassumption|]); cbn.
      * intros m (? & <- & <- & ?). rewrite Z.sub_diag. done.
      * intros m (? & ? & Hl). split; [done|]. split; [lia|]. rewrite <- Hl.
        replace (Z.to_nat (dex_index m - dexi)) with (S (Z.to_nat (dex_index m - (dexi + 1)))) by lia. done.
    + apply sorting.StronglySorted_app_2; [|done|done]. intros x y Hx Hy.
      pose proof (proj1 (list.Forall_forall _ _) Hnew x Hx) as (_ & _ & ? & _).
      pose proof (proj1 (list.Forall_forall _ _) Hnew' y Hy) as (_ & ? & _). left. lia.
Qed.

(** The revision of three answers. *)
Record listing (r : CatalogRevision) : Prop := {
  li_made : make_revision r = Ok r;
  li_apart : told_apart (cr_markets r);
  li_fresh : Forall (fun m => fresh m /\ wire_dexes r !! Z.to_nat (dex_index m) = Some (cm_dex m)) (cr_markets r);
  li_sorted : StronglySorted before_place (cr_markets r);
}.

Section Digest.
Variable sha256 : string -> string.

Lemma listed_revision_spec net pol n t before metas after r :
  listed_revision sha256 net pol n t before metas after = Ok r ->
  listing r /\ policy_version r = pol /\ cr_network r = py_lower (py_strip net) /\ sequence r = n /\
  revision_id r = revision_id_of n (snapshot_sha256 r) /\
  snapshot_sha256 r = snapshot_of sha256 (cr_network r) pol (wire_dexes r)
    ((fun m => identity_json (cm_symbol m) (execution_identity m) (dex_index m) (universe_index m) (is_delisted m)) <$> cr_markets r) /\
  dex_bracket_before_sha256 r = canonical_payload_sha256 sha256 before /\ dex_bracket_after_sha256 r = canonical_payload_sha256 sha256 after.
Proof.
  unfold listed_revision. intros H. res_inv. destruct metas as [| | | | |entries|]; try done. res_inv.
  pose proof (make_revision_Ok _ _ H) as (-> & _). split; [|done].
  match goal with H : listed_dexes _ _ _ = Ok _ |- _ => rename H into Hd end. bool_prop.
  match goal with H : (_ =? _)%nat = true |- _ => apply Nat.eqb_eq in H; rename H into Hlen end.
  apply listed_dexes_spec in Hd as (Ht & new & -> & Hnew & Hso); [|by split; constructor].
  split; [done|done| |done]. cbn [cr_markets wire_dexes app]. eapply list.Forall_impl; [exact Hnew|]. cbn. intros m (Hf & ? & Hl).
  split; [done|]. rewrite Z.sub_0_r in Hl. rewrite <- Hl. rewrite fst_zip; [done|]. by rewrite Hlen.
Qed.

(** * Keeping what is in use *)

(** A listed market stays as it is, or its accepted identity stays. *)
Lemma retain_cases retained p l m m' : retain_identity retained p l m = Ok m' ->
  (m' = m /\ forall old, named (cm_symbol m) (cr_markets p) = Some old -> cm_symbol m ∈ retained -> execution_identity old = execution_identity m) \/
  (exists old, named (cm_symbol m) (cr_markets p) = Some old /\ cm_symbol m ∈ retained /\ execution_identity old <> execution_identity m /\
     m' = keep_identity old m (revision_id p) (revision_id l) /\ make_market m' = Ok m').
Proof.
  unfold retain_identity, identity_mutated. destruct (named _ _) as [old|]; [|intros [= <-]; by left].
  destruct (decide (execution_identity old = execution_identity m)) as [He|He].
  - rewrite (bool_decide_eq_true_2 _ He). intros [= <-]. left. split; [done|]. by intros ? [= <-] _.
  - rewrite (bool_decide_eq_false_2 _ He). cbn [negb andb]. destruct (decide (cm_symbol m ∈ retained)) as [Hr|Hr].
    + rewrite (bool_decide_eq_true_2 _ Hr). intros [-> H]%make_market_Ok. right. by exists old.
    + rewrite (bool_decide_eq_false_2 _ Hr). intros [= <-]. left. by split.
Qed.

Lemma retain_symbol retained p l m m' : retain_identity retained p l m = Ok m' -> cm_symbol m' = cm_symbol m.
Proof. intros [[-> _]|(old & [_ H]%named_Some & _ & _ & -> & _)]%retain_cases; done. Qed.

Definition tombstones (retained : list string) (p l : CatalogRevision) : list CatalogMarket :=
  (fun old => tombstone old (revision_id p)) <$> removed_markets retained p (cm_symbol <$> cr_markets l).

(** A revision built upon another one, in any order of its markets. *)
Record built_on (retained : list string) (p l r : CatalogRevision) (updated : list CatalogMarket) : Prop := {
  bo_made : make_revision r = Ok r;
  bo_same : r = with_markets l (cr_markets r);
  bo_kept : Forall2 (fun m m' => retain_identity retained p l m = Ok m') (cr_markets l) updated;
  bo_tombs : Forall (fun m => make_market m = Ok m) (tombstones retained p l);
  bo_markets : cr_markets r ≡ₚ updated ++ tombstones retained p l;
}.

Lemma made_markets {A} (f : A -> CatalogMarket) l r : map_res (fun x => make_market (f x)) l = Ok r -> r = f <$> l /\ Forall (fun m => make_market m = Ok m) r.
Proof.
  intros H%map_res_Forall2. induction H as [|x y l r [-> H]%make_market_Ok _ [-> IH]]; [by split|]. split; [done|]. by constructor.
Qed.

Lemma built_spec net pol n t before metas after p retain r :
  build_dynamic_catalog_revision sha256 net pol n t before metas after (Some p) retain = Ok r ->
  exists l retained updated, listed_revision sha256 net pol n t before metas after = Ok l /\
    map_res (fun s => canonical_market (JStr s)) retain = Ok retained /\ built_on retained p l r updated.
Proof.
  unfold build_dynamic_catalog_revision. intros (l & Hl & H)%bind_Ok. res_inv.
  exists l, a, a0. split; [done|]. split; [done|]. pose proof (make_revision_Ok _ _ H) as (-> & _).
  apply made_markets in E1 as [-> Hm]. split; [done|done|by apply map_res_Forall2|done|]. cbn [cr_markets with_markets]. apply py_sorted_perm.
Qed.

Lemma built_NoDup retained p l r updated : built_on retained p l r updated -> NoDup (cm_symbol <$> cr_markets r).
Proof. intros H. by destruct (make_revision_Ok _ _ (bo_made _ _ _ _ _ H)) as (_ & _ & _ & _ & ?). Qed.

Lemma removed_elem retained p listed old :
  old ∈ removed_markets retained p listed <-> old ∈ cr_markets p /\ cm_symbol old ∉ listed /\ cm_symbol old ∈ retained.
Proof.
  unfold removed_markets. rewrite list_elem_of_In, List.filter_In, <- list_elem_of_In, andb_true_iff, negb_true_iff, bool_decide_eq_true, bool_decide_eq_false.
  done.
Qed.

(** The market of a symbol that is listed. *)
Lemma built_listed retained p l r updated s m : built_on retained p l r updated -> named s (cr_markets l) = Some m ->
  exists m', named s (cr_markets r) = Some m' /\ retain_identity retained p l m = Ok m'.
Proof.
  intros Hb [Hm <-]%named_Some. apply list_elem_of_lookup in Hm as [i Hi].
  destruct (Forall2_lookup_l _ _ _ _ _ (bo_kept _ _ _ _ _ Hb) Hi) as (m' & Hi' & Hk). exists m'. split; [|done].
  rewrite <- (retain_symbol _ _ _ _ _ Hk). apply named_elem; [by eapply built_NoDup|]. rewrite (bo_markets _ _ _ _ _ Hb).
  apply elem_of_app. left. by eapply list_elem_of_lookup_2.
Qed.

(** The market of a symbol that is not listed. *)
Lemma built_unlisted retained p l r updated s m : built_on retained p l r updated -> named s (cr_markets l) = None ->
  named s (cr_markets r) = Some m <-> exists old, old ∈ cr_markets p /\ cm_symbol old = s /\ s ∈ retained /\ m = tombstone old (revision_id p).
Proof.
  intros Hb Hn%named_None. split.
  - intros [Hm <-]%named_Some. rewrite (bo_markets _ _ _ _ _ Hb) in Hm. apply elem_of_app in Hm as [Hm|Hm].
    + apply list_elem_of_lookup in Hm as [i Hi]. destruct (Forall2_lookup_r _ _ _ _ _ (bo_kept _ _ _ _ _ Hb) Hi) as (x & Hx & Hk).
      destruct Hn. rewrite (retain_symbol _ _ _ _ _ Hk). by eapply list_elem_of_fmap_2, list_elem_of_lookup_2.
    + apply list_elem_of_fmap in Hm as (old & -> & (Ho & _ & Hr)%removed_elem). by exists old.
  - intros (old & Ho & <- & Hr & ->). change (cm_symbol old) with (cm_symbol (tombstone old (revision_id p))).
    apply named_elem; [by eapply built_NoDup|]. rewrite (bo_markets _ _ _ _ _ Hb). apply elem_of_app. right.
    apply list_elem_of_fmap. exists old. split; [done|]. by apply removed_elem.
Qed.

(** What waits is what is listed. *)
Lemma keep_listed old m from revision : make_market (keep_identity old m from revision) = Ok (keep_identity old m from revision) ->
  make_market m = Ok m -> cm_symbol old = cm_symbol m -> revision <> "" ->
  cm_dex old = cm_dex m /\ listed_identity (keep_identity old m from revision) = execution_identity m.
Proof.
  intros H1%make_market_dex H2%make_market_dex Hs Hr. cbn [cm_symbol cm_dex keep_identity] in H1. rewrite Hs, H2 in H1. injection H1 as H1. split; [done|].
  unfold listed_identity, execution_identity. cbn. rewrite H1. by destruct revision.
Qed.

Lemma listing_elem l m : listing l -> m ∈ cr_markets l -> fresh m /\ wire_dexes l !! Z.to_nat (dex_index m) = Some (cm_dex m).
Proof. intros H Hm. exact (proj1 (list.Forall_forall _ _) (li_fresh _ H) m Hm). Qed.

(** C17. A market in use never changes its identity silently.  In a revision that
    [build_dynamic_catalog_revision] builds upon a previous one, every retained market of the
    previous revision is there with its execution identity (DEX, asset id, precision,
    leverage, margin mode, collateral and margin table): as it is listed now when the
    listing agrees with it, untrusted with the listed identity pending when the exchange
    lists another one, and as a delisted tombstone when the exchange does not list it any
    more.  A market that is not retained is exactly what is listed. *)
Theorem retained_identity_kept net pol n t before metas after p retain retained l r :
  build_dynamic_catalog_revision sha256 net pol n t before metas after (Some p) retain = Ok r ->
  listed_revision sha256 net pol n t before metas after = Ok l ->
  map_res (fun s => canonical_market (JStr s)) retain = Ok retained ->
  NoDup (cm_symbol <$> cr_markets p) ->
  (forall old, old ∈ cr_markets p -> cm_symbol old ∈ retained ->
    exists m, named (cm_symbol old) (cr_markets r) = Some m /\ execution_identity m = execution_identity old /\
    match named (cm_symbol old) (cr_markets l) with
    | Some listed =>
        if decide (execution_identity listed = execution_identity old) then m = listed
        else m = keep_identity old listed (revision_id p) (revision_id r) /\ readiness m = UNTRUSTED /\ listed_identity m = execution_identity listed
    | None => m = tombstone old (revision_id p) /\ readiness m = DELISTED
    end) /\
  (forall s, s ∉ retained -> named s (cr_markets r) = named s (cr_markets l)).
Proof.
  intros (l' & rs & updated & El & Er & Hb)%built_spec El' Er' Hnd.
  rewrite El in El'. injection El' as <-. rewrite Er in Er'. injection Er' as <-. split.
  - intros old Ho Hr. destruct (named (cm_symbol old) (cr_markets l')) as [m|] eqn:E.
    + destruct (built_listed _ _ _ _ _ _ _ Hb E) as (m' & Em' & Hk). exists m'. split; [done|].
      pose proof (named_elem _ _ Hnd Ho) as Hold. destruct (named_Some _ _ _ E) as [Hm Hs].
      apply retain_cases in Hk. rewrite Hs, Hold in Hk. destruct Hk as [[-> He]|(? & [= <-] & _ & He & -> & Hmk)].
      * rewrite (He old eq_refl Hr), decide_True by done. done.
      * split; [done|]. rewrite decide_False by congruence. apply listed_revision_spec in El as (Hl & _).
        assert (revision_id r = revision_id l') as -> by (by rewrite (bo_same _ _ _ _ _ Hb)). split; [done|]. split; [done|].
        eapply keep_listed; [done|by apply fr_made, (listing_elem l')|done|]. by destruct (make_revision_Ok _ _ (li_made _ Hl)) as (_ & _ & ? & _).
    + exists (tombstone old (revision_id p)). split; [|done]. apply (built_unlisted _ _ _ _ _ _ _ Hb E). by exists old.
  - intros s Hs. destruct (named s (cr_markets l')) as [m|] eqn:E.
    + destruct (built_listed _ _ _ _ _ _ _ Hb E) as (m' & -> & Hk). apply retain_cases in Hk.
      destruct (named_Some _ _ _ E) as [_ <-]. by destruct Hk as [[-> _]|(? & _ & ? & _)].
    + destruct (named s (cr_markets r)) as [m|] eqn:Em; [|done]. apply (built_unlisted _ _ _ _ _ _ _ Hb E) in Em.
      by destruct Em as (? & _ & _ & ? & _).
Qed.
End Digest.
