(* ===== verification/CatalogReload.v ===== *)
(** The catalog file of the engine: a revision that was built, written and read again is
    the same revision. *)

From S2P Require Import Prelude PyDecimal PyText TextFacts Markets MarketCatalog CatalogRevisions CatalogFacts.
From Stdlib Require Import Lia Ascii.

Open Scope Z_scope.

(** * Integers as text *)

Lemma read_int_digits l a seen : Forall (fun c => is_digit c = true) l -> l <> [] \/ seen = true ->
  read_int l a seen = Some (read_digits l a).1.1.
Proof.
  intros H. revert a seen. induction H as [|c l Hc Hl IH]; intros a seen Hs; cbn [read_int read_digits].
  - by destruct Hs as [?| ->].
  - rewrite Hc, IH by (by right). by destruct (read_digits l _) as [[? ?] ?].
Qed.

Lemma int_of_str z : int_of_string (str_of_Z z) = Some z.
Proof.
  unfold int_of_string, str_of_Z. rewrite to_of_chars. destruct (digits_of_spec (Z.abs_N z)) as (Hd & Hne & _).
  rewrite no_space_strip.
  - rewrite (read_sign_digits (z <? 0)).
    + rewrite read_int_digits by (try done; by left). rewrite digits_read. cbn. f_equal. destruct (Z.ltb_spec z 0); lia.
    + destruct Hd; [done|done].
  - apply Forall_app. split; [by destruct (z <? 0); repeat constructor|]. eapply list.Forall_impl; [exact Hd|]. apply digit_not_space.
Qed.

Lemma int_of_text_int z : int_of_text (JInt z) = Ok z.
Proof. unfold int_of_text. cbn [py_str json_repr]. by rewrite of_to_chars, int_of_str. Qed.

(** * Markets *)

Definition unpriced (m : CatalogMarket) : Prop := cm_oracle_px m = None /\ cm_mark_px m = None.

Lemma sort_opt_int x : sort_keys (opt_int x) = opt_int x.
Proof. by destruct x. Qed.
Lemma sort_opt_str x : sort_keys (opt_str x) = opt_str x.
Proof. by destruct x. Qed.
Lemma sort_decimal x : sort_keys (decimal_text x) = decimal_text x.
Proof. by destruct x as [[]|]. Qed.

Lemma market_fields m : (fun kv => (kv.1, sort_keys kv.2)) <$> market_payload m = market_payload m.
Proof. unfold market_payload. cbn [fmap list_fmap fst snd]. by rewrite !sort_opt_int, !sort_opt_str, !sort_decimal. Qed.

Lemma market_keys m : NoDup (dict_keys (market_payload m)).
Proof. apply (bool_decide_unpack (NoDup (dict_keys (market_payload m)))). vm_compute. exact I. Qed.

(** The fields of a market that was written, whatever their order. *)
Lemma market_file m : exists o, sort_keys (JObj (market_payload m)) = JObj o /\ forall k, obj_get k o = obj_get k (market_payload m).
Proof.
  exists ((fun kv => (kv.1, sort_keys kv.2)) <$> py_sorted field_leb (market_payload m)). split; [apply sort_keys_obj|].
  intros k. rewrite sorted_field by apply market_keys. rewrite !obj_get_dict, <- (dict_get_fmap sort_keys). by rewrite market_fields.
Qed.

Lemma readiness_read r : readiness_of (readiness_text r) = Ok r.
Proof. by destruct r. Qed.

Lemma optional_int x : optional json_int (opt_int x) = Ok x.
Proof. by destruct x. Qed.
Lemma optional_text x : optional int_of_text (opt_int x) = Ok x.
Proof. destruct x as [z|]; [|done]. unfold optional. cbn [opt_int null_or_empty mbind res_bind]. by rewrite int_of_text_int. Qed.
Lemma null_int x : or_null is_int (opt_int x) = Some x.
Proof. by destruct x. Qed.
Lemma null_str x : or_null is_str (opt_str x) = Some x.
Proof. by destruct x. Qed.

Ltac read_fields :=
  repeat match goal with
  | |- context [obj_get ?k ?o] => let v := eval hnf in (obj_get k o) in change (obj_get k o) with v
  end.

Lemma market_reads m : make_market m = Ok m -> unpriced m -> market_from_payload (sort_keys (JObj (market_payload m))) = Ok m.
Proof.
  intros Hm [Ho Hk]. destruct (market_file m) as (o & -> & H). cbn [market_from_payload].
  unfold payload_key, argument, obj_field, with_default. rewrite !H. clear H. read_fields. rewrite Ho, Hk.
  cbn [id default option.default py_str decimal_text is_str is_int is_bool].
  change (optional context_price JNull) with (Ok (A := option pydec) None). rewrite readiness_read, !optional_int, !optional_text, !null_int, !null_str.
  assert (json_int (json_or (JInt (collateral_token m)) (JInt 0)) = Ok (collateral_token m)) as ->
    by (unfold json_or; cbn [json_truthy]; by destruct (Z.eqb_spec (collateral_token m) 0) as [->|]).
  cbn [mbind res_bind]. rewrite <- Hm. f_equal. destruct m as [? ? ? ? ? ? ? ? ? ? ? ? ? ? ? ? ? ? ? []]. cbn in *. by subst.
Qed.

(** * Places *)

Lemma dex_index_of_asset d u : 0 <= d -> 0 <= u < 10000 -> dex_index_of (hip3_asset_id d u) = d.
Proof.
  intros Hd Hu. unfold dex_index_of, hip3_asset_id. destruct (Z.eqb_spec d 0) as [->|]; [by destruct (Z.ltb_spec u 100000); [|lia]|].
  destruct (Z.ltb_spec (100000 + d * 10000 + u) 100000); [lia|].
  replace (100000 + d * 10000 + u - 100000) with (u + d * 10000) by lia. rewrite Z.div_add, Z.div_small; lia.
Qed.

Definition place (m : CatalogMarket) : Z * Z := (dex_index m, universe_index m).

(** A market whose listing is [m]: the identity it was listed with is the one that is written. *)
Definition lists (m m' : CatalogMarket) : Prop :=
  removal_tombstone m' = false /\ cm_symbol m' = cm_symbol m /\ cm_dex m' = cm_dex m /\ is_delisted m' = is_delisted m /\
  listed_identity m' = execution_identity m /\ listed_universe_index m' = universe_index m.

Lemma lists_itself m : fresh m -> lists m m.
Proof.
  intros H. unfold lists, listed_identity, listed_universe_index, execution_identity. rewrite (fr_pending _ H). cbn.
  by rewrite (fr_tomb _ H).
Qed.

Lemma positioned_listed r m m' : fresh m -> wire_dexes r !! Z.to_nat (dex_index m) = Some (cm_dex m) -> universe_index m < 10000 ->
  lists m m' -> positioned r m' = Ok [(place m, m')].
Proof.
  intros Hf Hw Hu (Ht & _ & Hd & _ & Hi & Hx). unfold positioned. rewrite Ht, Hi. cbn [execution_identity fst snd].
  destruct (make_market_indices _ (fr_made _ Hf)) as (_ & H1 & H2). rewrite (fr_asset _ Hf), dex_index_of_asset by lia.
  pose proof (lookup_lt_Some _ _ _ Hw). destruct (Z.leb_spec (Z.of_nat (List.length (wire_dexes r))) (dex_index m)); [lia|].
  rewrite Hd, bool_decide_eq_true_2 by done. cbn [negb]. by rewrite Hx.
Qed.

Lemma positioned_tombstone r old from : positioned r (tombstone old from) = Ok [].
Proof. done. Qed.

(** Sorting by place. *)
Lemma place_sorted l : StronglySorted before_place l -> forall l', Forall2 lists l l' ->
  Sorted (fun a b => position_leb a b = true) (zip_with (fun m m' => (place m, m')) l l').
Proof.
  intros Hs l' H2. revert Hs. induction H2 as [|m m' l l' Hm H2 IH]; intros Hs; cbn; [constructor|].
  apply StronglySorted_inv in Hs as [Hs Hf]. constructor; [by apply IH|].
  destruct H2 as [|x x' l l' Hx H2]; cbn; [constructor|]. constructor. apply list.Forall_cons in Hf as [Hb _].
  unfold position_leb, tuple_leb. cbn. destruct (decide _) as [E|E]; apply Z.leb_le; destruct Hb; lia.
Qed.

Lemma places_NoDup l : StronglySorted before_place l -> NoDup (place <$> l).
Proof.
  induction 1 as [|m l Hs IH Hf]; cbn; [constructor|]. apply list.NoDup_cons. split; [|done].
  intros (x & E & Hx)%list_elem_of_fmap. pose proof (proj1 (list.Forall_forall _ _) Hf x Hx) as Hb. unfold place in E.
  injection E as E1 E2. destruct Hb; lia.
Qed.

Definition with_place (l l' : list CatalogMarket) : list (Z * Z * CatalogMarket) := zip_with (fun m m' => (place m, m')) l l'.

Lemma with_place_fst l l' : Forall2 lists l l' -> (with_place l l').*1 = place <$> l.
Proof. induction 1 as [|m m' l l' _ _ IH]; [done|]. cbn. by f_equal. Qed.

Lemma listed_identities l l' : Forall2 lists l l' -> StronglySorted before_place l ->
  (fun p => identity_json (cm_symbol p.2) (listed_identity p.2) p.1.1 p.1.2 (is_delisted p.2)) <$> with_place l l' =
  (fun m => identity_json (cm_symbol m) (execution_identity m) (dex_index m) (universe_index m) (is_delisted m)) <$> l.
Proof.
  induction 1 as [|m m' l l' (_ & Hs & _ & Hd & Hi & _) _ IH]; [done|]. intros [Hss _]%StronglySorted_inv.
  change (with_place (m :: l) (m' :: l')) with ((place m, m') :: with_place l l'). rewrite !fmap_cons, IH by done. cbn [fst snd place]. by rewrite Hs, Hd, Hi.
Qed.

Lemma concat_perm {A B} (f : A -> list B) l l' : l ≡ₚ l' -> concat (f <$> l) ≡ₚ concat (f <$> l').
Proof.
  induction 1 as [|x l l' _ IH|x y l|l1 l2 l3 _ IH1 _ IH2]; cbn; [done|by rewrite IH| |by rewrite IH1].
  rewrite !app_assoc. f_equiv. apply Permutation_app_comm.
Qed.

(** The places of a revision, sorted, are those of its listing. *)
Lemma sorted_places r l updated tombs : listing l -> wire_dexes r = wire_dexes l ->
  Forall (fun m => universe_index m < 10000) (cr_markets l) -> Forall2 lists (cr_markets l) updated ->
  cr_markets r ≡ₚ updated ++ tombs -> Forall (fun m => removal_tombstone m = true) tombs ->
  exists sortable, map_res (positioned r) (cr_markets r) = Ok sortable /\
    py_sorted position_leb (concat sortable) = with_place (cr_markets l) updated.
Proof.
  intros Hl Hw Hu H2 Hp Ht. set (pos m := match positioned r m with Ok x => x | Raise _ => [] end).
  assert (Forall2 (fun m m' => positioned r m' = Ok [(place m, m')]) (cr_markets l) updated) as Hpos.
  { apply Forall2_same_length_lookup. split; [by eapply Forall2_length|]. intros i m m' Hi Hi'.
    pose proof (list_elem_of_lookup_2 _ _ _ Hi) as Hm. pose proof (Forall2_lookup_lr _ _ _ _ _ _ H2 Hi Hi') as Hlm. destruct (listing_elem _ _ Hl Hm) as [Hf Hd].
    apply positioned_listed; [done|by rewrite Hw|by apply (proj1 (list.Forall_forall _ _) Hu)|done]. }
  assert (forall m, m ∈ cr_markets r -> positioned r m = Ok (pos m)) as Hall.
  { intros m Hm. rewrite Hp in Hm. unfold pos. apply elem_of_app in Hm as [Hm|Hm].
    - apply list_elem_of_lookup in Hm as [i Hi]. destruct (Forall2_lookup_r _ _ _ _ _ Hpos Hi) as (x & _ & ->). done.
    - unfold positioned. by rewrite (proj1 (list.Forall_forall _ _) Ht m Hm). }
  exists (pos <$> cr_markets r). split.
  { apply map_res_Forall2. apply Forall2_fmap_r. apply Forall2_same_length_lookup. split; [done|]. intros i x y Hx Hy. rewrite Hx in Hy.
    injection Hy as <-. apply Hall. by eapply list_elem_of_lookup_2. }
  assert (concat (pos <$> cr_markets r) ≡ₚ with_place (cr_markets l) updated) as Hc.
  { rewrite (concat_perm pos _ _ Hp), fmap_app, concat_app.
    assert (concat (pos <$> tombs) = []) as ->.
    { clear - Ht. induction Ht as [|m t Hm _ IH]; [done|]. cbn. rewrite IH. unfold pos, positioned. by rewrite Hm. }
    rewrite app_nil_r. assert (concat (pos <$> updated) = with_place (cr_markets l) updated) as ->; [|done].
    clear - Hpos. induction Hpos as [|m m' t t' Hm _ IH]; [done|]. cbn. rewrite IH. unfold pos. by rewrite Hm. }
  symmetry. apply (key_sorted_unique (tuple_leb Z.leb Z.leb) (fun p => Ok (p.1.1, p.1.2))).
  - by apply place_sorted; [apply li_sorted|].
  - apply (py_sorted_sorted position_leb). intros a b. apply (bo_total (leb := tuple_leb Z.leb Z.leb)).
  - intros x y Hx Hy [= E1 E2]. apply (same_row fst (with_place (cr_markets l) updated)); [|done|done|].
    + rewrite with_place_fst by done. by apply places_NoDup, li_sorted.
    + destruct x as [[? ?] ?], y as [[? ?] ?]. cbn in *. by subst.
  - by rewrite py_sorted_perm.
Qed.

(** * Revisions *)

Lemma revision_keys r : NoDup (dict_keys (revision_payload r)).
Proof. apply (bool_decide_unpack (NoDup (dict_keys (revision_payload r)))). vm_compute. exact I. Qed.

Lemma text_list_strings l : text_list (sort_keys (JList (JStr <$> l))) = Ok l.
Proof. cbn. f_equal. induction l as [|s l IH]; [done|]. cbn in *. by f_equal. Qed.

Lemma markets_read ms : Forall (fun m => make_market m = Ok m /\ unpriced m) ms ->
  exists raw, sort_keys (JList ((fun m => JObj (market_payload m)) <$> ms)) = JList raw /\ map_res market_from_payload raw = Ok ms.
Proof.
  intros H. cbn [sort_keys]. eexists. split; [done|]. induction H as [|m ms [Hm Hu] _ IH]; [done|].
  rewrite !fmap_cons. cbn [map_res]. rewrite market_reads by done. by rewrite IH.
Qed.

Section Digest.
Variable sha256 : string -> string.

(** A revision whose snapshot and name fit its markets is read as it was written. *)
Lemma revision_reads r : make_revision r = Ok r -> Forall (fun m => make_market m = Ok m /\ unpriced m) (cr_markets r) ->
  revision_identity_snapshot_sha256 sha256 r = Ok (snapshot_sha256 r) -> revision_id r = revision_id_of (sequence r) (snapshot_sha256 r) ->
  is_sha256_hex (dex_bracket_before_sha256 r) = true -> is_sha256_hex (dex_bracket_after_sha256 r) = true ->
  exists o, catalog_file r = JObj o /\ revision_from_payload sha256 o = Ok r.
Proof.
  intros Hr Hm Hs Hi Hb Ha. unfold catalog_file. eexists. split; [apply sort_keys_obj|]. set (o := _ <$> py_sorted _ _).
  assert (forall k, obj_get k o = sort_keys <$> obj_get k (revision_payload r)) as H by (intros k; apply sorted_field, revision_keys).
  clearbody o. unfold revision_from_payload, payload_key, obj_field. rewrite !H. clear H. read_fields.
  destruct (markets_read _ Hm) as (raw & Eraw & Emap). cbn [fmap option_fmap option_map default option.default id]. rewrite Eraw, Emap, text_list_strings.
  cbn [sort_keys json_int py_str mbind res_bind]. 
  assert (MkRevision (sequence r) (revision_id r) (policy_version r) (cr_network r) (cr_observed_ms r) (wire_dexes r) (cr_markets r)
    (snapshot_sha256 r) (dex_bracket_before_sha256 r) (dex_bracket_after_sha256 r) = r) as -> by (by destruct r).
  rewrite Hr. cbn [mbind res_bind]. rewrite Hs. cbn [mbind res_bind]. rewrite bool_decide_true by done. rewrite bool_decide_true by done.
  by rewrite Hb, Ha.
Qed.

(** A market in use that changes its identity keeps its listing status. *)
Definition status_kept (retained : list string) (p l : CatalogRevision) : Prop :=
  forall old m, named (cm_symbol m) (cr_markets p) = Some old -> m ∈ cr_markets l -> cm_symbol m ∈ retained ->
    execution_identity old <> execution_identity m -> removal_tombstone old = false /\ is_delisted old = is_delisted m.

(** A revision and the listing it was made from. *)
Record written (l r : CatalogRevision) (updated tombs : list CatalogMarket) : Prop := {
  wr_made : make_revision r = Ok r;
  wr_same : r = with_markets l (cr_markets r);
  wr_lists : Forall2 lists (cr_markets l) updated;
  wr_tombs : Forall (fun m => removal_tombstone m = true) tombs;
  wr_markets : cr_markets r ≡ₚ updated ++ tombs;
  wr_valid : Forall (fun m => make_market m = Ok m /\ unpriced m) (cr_markets r);
}.

Lemma fresh_valid m : fresh m -> make_market m = Ok m /\ unpriced m.
Proof. intros H. split; [apply (fr_made _ H)|]. split; [apply (fr_oracle _ H)|apply (fr_mark _ H)]. Qed.

Lemma kept_lists retained p l m m' : listing l -> status_kept retained p l -> Forall unpriced (cr_markets p) -> m ∈ cr_markets l ->
  retain_identity retained p l m = Ok m' -> lists m m' /\ make_market m' = Ok m' /\ unpriced m'.
Proof.
  intros Hl Hs Hu Hm Hk. destruct (listing_elem _ _ Hl Hm) as [Hf _].
  apply retain_cases in Hk as [[-> _]|(old & Eo & Hr & He & -> & Hmk)]; [split; [by apply lists_itself|by apply fresh_valid]|].
  destruct (Hs old m Eo Hm Hr He) as [Ht Hd]. destruct (named_Some _ _ _ Eo) as [Ho Es].
  destruct (keep_listed _ _ _ _ Hmk (fr_made _ Hf) Es) as [Ed Ei].
  { by destruct (make_revision_Ok _ _ (li_made _ Hl)) as (_ & _ & ? & _). }
  split; [|split; [done|]].
  - done.
  - exact (proj1 (list.Forall_forall _ _) Hu old Ho).
Qed.

(** A first revision is its listing. *)
Lemma listing_written l : listing l -> written l l (cr_markets l) [].
Proof.
  intros Hl. split.
  - apply (li_made _ Hl).
  - by destruct l.
  - apply Forall2_same_length_lookup. split; [done|]. intros i x y Hx Hy. rewrite Hx in Hy. injection Hy as <-.
    by apply lists_itself, (listing_elem l), list_elem_of_lookup_2 with i.
  - constructor.
  - by rewrite app_nil_r.
  - apply list.Forall_forall. intros m Hm. by apply fresh_valid, (listing_elem l).
Qed.

Lemma built_written retained p l r updated : listing l -> status_kept retained p l -> Forall unpriced (cr_markets p) ->
  built_on retained p l r updated -> written l r updated (tombstones retained p l).
Proof.
  intros Hl Hs Hu Hb.
  assert (forall i m m', cr_markets l !! i = Some m -> updated !! i = Some m' -> lists m m' /\ make_market m' = Ok m' /\ unpriced m') as H.
  { intros i m m' Hi Hi'. apply (kept_lists retained p l); [done|done|done|by eapply list_elem_of_lookup_2|].
    exact (Forall2_lookup_lr _ _ _ _ _ _ (bo_kept _ _ _ _ _ Hb) Hi Hi'). }
  pose proof (Forall2_length (bo_kept _ _ _ _ _ Hb)) as Hlen. split.
  - apply (bo_made _ _ _ _ _ Hb).
  - apply (bo_same _ _ _ _ _ Hb).
  - apply Forall2_same_length_lookup. split; [done|]. intros i m m' Hi Hi'. by apply (H i).
  - apply list.Forall_fmap, list.Forall_forall. done.
  - apply (bo_markets _ _ _ _ _ Hb).
  - rewrite (bo_markets _ _ _ _ _ Hb). apply Forall_app. split.
    + apply list.Forall_forall. intros m' (i & Hi')%list_elem_of_lookup. destruct (lookup_lt_is_Some_2 (cr_markets l) i) as [m Hi].
      { rewrite Hlen. by eapply lookup_lt_Some. }
      by apply (H i m).
    + apply list.Forall_forall. intros m Hm. split; [exact (proj1 (list.Forall_forall _ _) (bo_tombs _ _ _ _ _ Hb) m Hm)|].
      apply list_elem_of_fmap in Hm as (old & -> & (Ho & _)%removed_elem). exact (proj1 (list.Forall_forall _ _) Hu old Ho).
Qed.

Lemma written_snapshot l r updated tombs : listing l -> Forall (fun m => universe_index m < 10000) (cr_markets l) ->
  snapshot_sha256 l = snapshot_of sha256 (cr_network l) (policy_version l) (wire_dexes l)
    ((fun m => identity_json (cm_symbol m) (execution_identity m) (dex_index m) (universe_index m) (is_delisted m)) <$> cr_markets l) ->
  written l r updated tombs -> revision_identity_snapshot_sha256 sha256 r = Ok (snapshot_sha256 r).
Proof.
  intros Hl Hu Hs Hw. unfold revision_identity_snapshot_sha256.
  destruct (sorted_places r l updated tombs) as (sortable & -> & Hp); try (by destruct Hw); [by rewrite (wr_same _ _ _ _ Hw)|].
  cbn [mbind res_bind]. rewrite Hp, listed_identities; [|by apply (wr_lists _ _ _ _ Hw)|by apply li_sorted].
  rewrite (wr_same _ _ _ _ Hw). cbn [cr_network policy_version wire_dexes snapshot_sha256 with_markets]. by rewrite Hs.
Qed.

(** C18. The engine finds the catalog it wrote.  When the catalog of a run was built (from
    nothing, or upon a catalog of which it retains markets) and written to [catalog.json],
    [load_durable_catalog] reads exactly that catalog: no market, price, pending identity or
    tombstone is lost and no check of the file refuses it.  It is enough that no universe has
    more than 10,000 markets (an asset id could not tell the DEX otherwise), that the
    previous catalog carries no context prices (those are not written exactly), and that no
    retained market changes its identity together with its listing status. *)
Theorem durable_catalog_reloads net t previous retain before metas after l r :
  (forall s, is_sha256_hex (sha256 s) = true) -> py_lower (py_strip net) = net ->
  build_startup_catalog sha256 net t previous retain (Ok before) (Ok metas) (Ok after) = Ok r ->
  listed_revision sha256 net "continuous-ws-v1" (sequence r) t before metas after = Ok l ->
  Forall (fun m => universe_index m < 10000) (cr_markets l) ->
  match previous with
  | None => True
  | Some p => Forall unpriced (cr_markets p) /\
      forall retained, map_res (fun s => canonical_market (JStr s)) retain = Ok retained -> status_kept retained p l
  end ->
  load_durable_catalog sha256 (Some (Ok (catalog_file r))) net = Ok (Some r).
Proof.
  intros Hsha Hnet Hr Hlr Hu Hp. unfold build_startup_catalog in Hr. cbn [mbind res_bind] in Hr.
  assert (exists updated tombs, listing l /\ written l r updated tombs) as (updated & tombs & Hl & Hw).
  { pose proof (listed_revision_spec _ _ _ _ _ _ _ _ _ Hlr) as (Hl & _). destruct previous as [p|].
    - apply built_spec in Hr as (l' & retained & updated & Hl' & Er & Hb). destruct Hp as [Hu' Hp].
      assert (l' = l) as ->.
      { pose proof (listed_revision_spec _ _ _ _ _ _ _ _ _ Hl') as (_ & _ & _ & Es & _).
        rewrite (bo_same _ _ _ _ _ Hb) in Hlr. cbn [sequence with_markets] in Hlr. rewrite Es, Hl' in Hlr. by injection Hlr. }
      exists updated, (tombstones retained p l). split; [done|]. apply built_written; auto.
    - unfold build_dynamic_catalog_revision in Hr. apply bind_Ok in Hr as (l' & Hl' & [= ->]).
      pose proof (listed_revision_spec _ _ _ _ _ _ _ _ _ Hl') as (_ & _ & _ & Es & _). rewrite Es, Hl' in Hlr. injection Hlr as ->.
      exists (cr_markets l), []. split; [done|]. by apply listing_written. }
  apply listed_revision_spec in Hlr as (_ & Hpol & Hn & Hseq & Hid & Hsnap & Hb & Ha). rewrite Hnet in Hn.
  assert (r = with_markets l (cr_markets r)) as Hsame by apply (wr_same _ _ _ _ Hw).
  destruct (revision_reads r) as (o & Eo & Hread).
  - apply (wr_made _ _ _ _ Hw).
  - apply (wr_valid _ _ _ _ Hw).
  - apply (written_snapshot l r updated tombs); [done|done|by rewrite Hpol|done].
  - rewrite Hsame. cbn [revision_id snapshot_sha256 sequence with_markets]. by rewrite Hid, Hseq.
  - rewrite Hsame. cbn [dex_bracket_before_sha256 with_markets]. rewrite Hb. apply Hsha.
  - rewrite Hsame. cbn [dex_bracket_after_sha256 with_markets]. rewrite Ha. apply Hsha.
  - unfold load_durable_catalog. rewrite Eo. cbn [mbind res_bind]. rewrite Hread. cbn [mbind res_bind].
    assert (cr_network r = net) as -> by (by rewrite Hsame). assert (policy_version r = "continuous-ws-v1") as -> by (by rewrite Hsame).
    by rewrite !bool_decide_true.
Qed.
End Digest.
