(* ===== verification/ActorFacts.v ===== *)
(** Facts about the catalog actor: an asset id has one owner for as long as the actor
    lives, and a market is ready only with a book and a price. *)

From S2P Require Import Prelude PyDecimal PyText Markets MarketCatalog CatalogRevisions CatalogActor CatalogFacts.
From Stdlib Require Import Lia.

Open Scope Z_scope.

(** * The owners of asset ids *)

Lemma own_mono s h a : h ⊆ own s h a.
Proof. unfold own. destruct (h !! a) eqn:E; [done|by apply insert_subseteq]. Qed.

Lemma own_known s h a : is_Some (own s h a !! a).
Proof. unfold own. destruct (h !! a) eqn:E; [by rewrite E|rewrite lookup_insert_eq; by eexists]. Qed.

Lemma own_lookup s h a b : own s h a !! b = h !! b \/ (b = a /\ own s h a !! b = Some s).
Proof. unfold own. destruct (h !! a) eqn:E; [by left|]. destruct (decide (a = b)) as [->|]; [right; by rewrite lookup_insert_eq|left; by rewrite lookup_insert_ne]. Qed.

Lemma record_mono h m : h ⊆ record_owner h m.
Proof. unfold record_owner. destruct (pending_asset_id _); [etrans; [|apply own_mono]|]; apply own_mono. Qed.

Lemma is_Some_mono (h h' : gmap Z string) a : h ⊆ h' -> is_Some (h !! a) -> is_Some (h' !! a).
Proof. intros Hs [x Hx]. exists x. by eapply lookup_weaken. Qed.

Lemma record_known h m : is_Some (record_owner h m !! asset_id m) /\
  forall a, pending_asset_id (pending m) = Some a -> is_Some (record_owner h m !! a).
Proof.
  unfold record_owner. destruct (pending_asset_id (pending m)) as [p|]; split.
  - eapply is_Some_mono; [apply own_mono|apply own_known].
  - intros a [= <-]. apply own_known.
  - apply own_known.
  - done.
Qed.

Lemma record_lookup h m a : record_owner h m !! a = h !! a \/
  ((asset_id m = a \/ pending_asset_id (pending m) = Some a) /\ record_owner h m !! a = Some (cm_symbol m)).
Proof.
  unfold record_owner. destruct (pending_asset_id (pending m)) as [p|].
  - destruct (own_lookup (cm_symbol m) (own (cm_symbol m) h (asset_id m)) p a) as [->|[-> ->]]; [|right; auto].
    destruct (own_lookup (cm_symbol m) h (asset_id m) a) as [->|[-> ->]]; [by left|right; auto].
  - destruct (own_lookup (cm_symbol m) h (asset_id m) a) as [->|[-> ->]]; [by left|right; auto].
Qed.

Definition recorded (l : list CatalogMarket) (h : gmap Z string) : gmap Z string := fold_left record_owner l h.

Lemma recorded_mono l h : h ⊆ recorded l h.
Proof. revert h. induction l as [|m l IH]; intros h; [done|]. cbn. etrans; [apply record_mono|apply IH]. Qed.

Lemma recorded_known l h m : m ∈ l -> is_Some (recorded l h !! asset_id m) /\
  forall a, pending_asset_id (pending m) = Some a -> is_Some (recorded l h !! a).
Proof.
  revert h. induction l as [|x l IH]; intros h; [by intros ?%not_elem_of_nil|]. intros [<-|Hm]%elem_of_cons; [|by apply IH].
  destruct (record_known h m) as [H1 H2]. cbn. split.
  - by eapply is_Some_mono; [apply recorded_mono|].
  - intros a Ha. eapply is_Some_mono; [apply recorded_mono|by apply H2].
Qed.

(** An id that only the markets of one symbol have becomes that symbol's. *)
Lemma recorded_owner l h a s : (forall m, m ∈ l -> asset_id m = a \/ pending_asset_id (pending m) = Some a -> cm_symbol m = s) ->
  h !! a = None -> (exists m, m ∈ l /\ asset_id m = a) -> recorded l h !! a = Some s.
Proof.
  intros Hall Hn (m & Hm & <-). destruct (recorded_known l h m Hm) as [[s' Hs'] _]. rewrite Hs'. f_equal.
  assert (forall l h, (forall x, x ∈ l -> asset_id x = asset_id m \/ pending_asset_id (pending x) = Some (asset_id m) -> cm_symbol x = s) ->
    h !! asset_id m = None \/ h !! asset_id m = Some s -> recorded l h !! asset_id m = None \/ recorded l h !! asset_id m = Some s) as H.
  { clear. induction l as [|x l IH]; intros h Hall Hh; [done|]. cbn. apply IH; [intros y Hy; apply Hall; by right|].
    destruct (record_lookup h x (asset_id m)) as [->|[Ho ->]]; [done|]. right. f_equal. apply Hall; [by left|done]. }
  destruct (H l h Hall) as [E|E]; [by left|congruence|congruence].
Qed.

(** * What holds of every accepted market *)

Record good (h : gmap Z string) (m : CatalogMarket) : Prop := {
  gd_ready : readiness m = READY -> is_delisted m = false /\ 0 < book_revision m /\ (cm_oracle_px m <> None \/ cm_mark_px m <> None);
  gd_delisted : is_delisted m = true -> readiness m = DELISTED \/ readiness m = UNTRUSTED \/ (readiness m = NO_CONTEXT /\ context_observed_ms m = 0);
  gd_untrusted : readiness m = UNTRUSTED -> pending_identity_revision (pending m) <> "";
  gd_book : 0 <= book_revision m;
  gd_owner : is_delisted m = false -> readiness m <> UNTRUSTED -> h !! asset_id m = Some (cm_symbol m);
  gd_known : is_Some (h !! asset_id m);
  gd_pending : forall a, pending_asset_id (pending m) = Some a -> is_Some (h !! a);
}.

(** A market that got another readiness, context or book. *)
Lemma good_update h m r ctx oracle mark book book_ms : good h m ->
  (r = READY -> is_delisted m = false /\ 0 < book /\ (oracle <> None \/ mark <> None)) ->
  (is_delisted m = true -> r = DELISTED \/ r = UNTRUSTED \/ (r = NO_CONTEXT /\ ctx = 0)) ->
  (r = UNTRUSTED -> readiness m = UNTRUSTED) -> (readiness m = UNTRUSTED -> is_delisted m = true \/ r = UNTRUSTED) -> 0 <= book ->
  good h (MkCatalogMarket (cm_symbol m) (cm_dex m) (asset_id m) (dex_index m) (universe_index m) (cm_sz_decimals m) (cm_max_leverage m)
    r (margin_mode m) (collateral_token m) (margin_table_id m) (is_delisted m) ctx oracle mark book book_ms
    (tombstoned_from_revision m) (removal_tombstone m) (pending m)).
Proof.
  intros [] H1 H2 H3 H4 H5. split; cbn; try done; [intros Hr; by apply gd_untrusted0, H3|].
  intros Hd Hr. apply gd_owner0; [done|]. intros Hu. destruct (H4 Hu); congruence.
Qed.

Lemma set_good h m r ctx oracle mark m' : good h m -> set_readiness m r ctx oracle mark = Ok m' ->
  (r = READY -> is_delisted m = false /\ 0 < book_revision m /\ (oracle <> None \/ mark <> None)) ->
  (is_delisted m = true -> r = DELISTED \/ r = UNTRUSTED \/ (r = NO_CONTEXT /\ ctx = 0)) ->
  (r = UNTRUSTED -> readiness m = UNTRUSTED) -> (readiness m = UNTRUSTED -> is_delisted m = true \/ r = UNTRUSTED) -> good h m'.
Proof. intros Hg [-> _]%make_market_Ok **. apply good_update; try done. apply (gd_book _ _ Hg). Qed.

Lemma one_of l m : one_of_readiness l m = true <-> readiness m ∈ l.
Proof. apply bool_decide_eq_true. Qed.

(** No context any more, of a market that is not waiting for its identity. *)
Lemma unset_good h m oracle mark m' : good h m -> readiness m <> UNTRUSTED -> set_readiness m NO_CONTEXT 0 oracle mark = Ok m' -> good h m'.
Proof. intros Hg Hr H. eapply set_good; [done|done|done|auto|done|done]. Qed.

Lemma without_context_good h m m' : good h m -> without_context m = Ok m' -> good h m'.
Proof.
  intros Hg. unfold without_context. destruct (one_of_readiness _ m) eqn:E; intros H.
  - apply one_of in E. eapply set_good; [done|done| | |done|by right].
    + intros Hr. rewrite Hr in E. rewrite !elem_of_cons in E. by destruct E as [E|[E|E%not_elem_of_nil]].
    + intros Hd. rewrite !elem_of_cons in E. destruct E as [E|[E|E%not_elem_of_nil]]; auto. done.
  - apply (unset_good h m (cm_oracle_px m) (cm_mark_px m)); [done| |done]. intros Hr.
    assert (one_of_readiness [DELISTED; UNTRUSTED] m = true) by (apply one_of; rewrite Hr; right; left). congruence.
Qed.

Lemma fence_context_good h m m' : good h m -> fence_context m = Ok m' -> good h m'.
Proof.
  intros Hg. unfold fence_context. destruct (one_of_readiness _ m) eqn:E; intros H; [by injection H as <-|].
  apply (unset_good h m (cm_oracle_px m) (cm_mark_px m)); [done| |done]. intros Hr.
  assert (one_of_readiness [DELISTED; UNTRUSTED; HALTED] m = true) by (apply one_of; rewrite Hr; right; left). congruence.
Qed.

Lemma with_context_good h m o t m' : good h m -> with_context m o t = Ok m' -> good h m'.
Proof.
  intros Hg. unfold with_context. set (oracle := optional_positive_decimal _). set (mark := optional_positive_decimal (obj_field "markPx" o)).
  intros H. assert (one_of_readiness [UNTRUSTED] m = bool_decide (readiness m = UNTRUSTED)) as E.
  { apply bool_decide_ext. rewrite list_elem_of_singleton. done. }
  eapply set_good; [done|exact H|unfold context_readiness; rewrite E..]; clear H.
  - destruct (is_delisted m), (bool_decide (readiness m = UNTRUSTED)), (is_halted o); try done.
    destruct (_ || _) eqn:Ep; [done|]. destruct (Z.ltb_spec 0 (book_revision m)); [|done]. intros _. split; [done|]. split; [done|].
    bool_prop. destruct oracle, mark; try (by left); try (by right); done.
  - intros ->. by left.
  - destruct (is_delisted m); [done|]. destruct (bool_decide_reflect (readiness m = UNTRUSTED)); [done|].
    destruct (is_halted o); [done|]. destruct (_ || _); [done|]. by destruct (0 <? book_revision m).
  - intros Hr. rewrite bool_decide_true by done. destruct (is_delisted m); auto.
Qed.

(** * Admission of a listing *)

(** What is admitted for a listed market. *)
Record admitted (h : gmap Z string) (m m' : CatalogMarket) : Prop := {
  ad_symbol : cm_symbol m' = cm_symbol m;
  ad_asset : asset_id m' = asset_id m \/ is_Some (h !! asset_id m');
  ad_pending : forall a, pending_asset_id (pending m') = Some a -> a = asset_id m;
  ad_owner : is_delisted m' = false -> readiness m' <> UNTRUSTED ->
    asset_id m' = asset_id m /\ (h !! asset_id m = None \/ h !! asset_id m = Some (cm_symbol m));
  ad_ready : readiness m' = READY -> is_delisted m' = false /\ 0 < book_revision m' /\ (cm_oracle_px m' <> None \/ cm_mark_px m' <> None);
  ad_delisted : is_delisted m' = true -> readiness m' = DELISTED \/ readiness m' = UNTRUSTED \/ (readiness m' = NO_CONTEXT /\ context_observed_ms m' = 0);
  ad_untrusted : readiness m' = UNTRUSTED -> pending_identity_revision (pending m') <> "";
  ad_book : 0 <= book_revision m';
}.

(** Ids that are free or belong to the market already. *)
Definition unused (h : gmap Z string) (m : CatalogMarket) : Prop := h !! asset_id m = None \/ h !! asset_id m = Some (cm_symbol m).

Lemma admitted_fresh h m : fresh m -> unused h m -> admitted h m m.
Proof.
  intros Hf Hu. pose proof (fr_readiness _ Hf) as Hr. split; rewrite ?(fr_pending _ Hf); try done.
  - by left.
  - intros E. rewrite Hr in E. by destruct (is_delisted m).
  - intros E. rewrite Hr, E. by left.
  - intros E. rewrite Hr in E. by destruct (is_delisted m).
  - by rewrite (fr_book _ Hf).
Qed.

Lemma admitted_kept h old m from revision : good h old -> cm_symbol old = cm_symbol m -> revision <> "" ->
  admitted h m (keep_identity old m from revision).
Proof.
  intros [] Hs Hr. split; cbn; try done.
  - by right.
  - by intros a [= <-].
  - intros _. right. by left.
Qed.

Lemma admitted_distrusted h m revision : fresh m -> revision <> "" -> admitted h m (distrust m revision).
Proof.
  intros Hf Hr. split; cbn; try done.
  - by left.
  - by intros a [= <-].
  - intros _. right. by left.
  - by rewrite (fr_book _ Hf).
Qed.

Lemma admitted_carried h old m : good h old -> fresh m -> unused h m -> is_delisted m = false -> pending_identity_revision (pending old) = "" ->
  admitted h m (carry_context m old).
Proof.
  intros [] Hf Hu Hd Hp. split; cbn; rewrite ?(fr_pending _ Hf), ?Hd; try done.
  - by left.
  - intros Hr. split; [done|]. by destruct (gd_ready0 Hr) as (_ & ? & ?).
  - intros Hr. by apply gd_untrusted0 in Hr.
Qed.

Lemma admit_admitted prior h active c m m' : listing c -> (forall p, prior = Some p -> Forall (good h) (cr_markets p)) -> m ∈ cr_markets c ->
  admit_market prior h active c m = Ok m' -> admitted h m m'.
Proof.
  intros Hc Hp Hm. destruct (listing_elem _ _ Hc Hm) as [Hf _].
  assert (revision_id c <> "") as Hid by (by destruct (make_revision_Ok _ _ (li_made _ Hc)) as (_ & _ & ? & _)).
  unfold admit_market. set (reused := match h !! asset_id m with Some _ => _ | None => false end).
  assert (reused = false -> unused h m) as Hun.
  { unfold reused, unused. destruct (h !! asset_id m) as [s|]; [|by left]. intros E. bool_prop. right. by f_equal. }
  clearbody reused. destruct prior as [p|].
  - destruct (named (cm_symbol m) (cr_markets p)) as [old|] eqn:En.
    + apply named_Some in En as [Ho Hs]. pose proof (proj1 (list.Forall_forall _ _) (Hp p eq_refl) old Ho) as Hg.
      destruct (identity_mutated old m && _); [intros [-> _]%make_market_Ok; by apply admitted_kept|].
      destruct reused; [intros [-> _]%make_market_Ok; by apply admitted_distrusted|].
      destruct (negb (is_delisted m) && _) eqn:E.
      * bool_prop. intros [-> _]%make_market_Ok. apply admitted_carried; auto. by destruct (pending_identity_revision _).
      * intros [= <-]. apply admitted_fresh; auto.
    + destruct reused; [intros [-> _]%make_market_Ok; by apply admitted_distrusted|]. intros [= <-]. apply admitted_fresh; auto.
  - destruct reused; [intros [-> _]%make_market_Ok; by apply admitted_distrusted|]. intros [= <-]. apply admitted_fresh; auto.
Qed.

(** A market that is gone. *)
Lemma tombstone_good h old from : good h old -> good h (tombstone old from).
Proof. intros []. split; cbn; try done. intros _. by left. Qed.

Lemma good_mono h h' m : h ⊆ h' -> good h m -> good h' m.
Proof.
  intros Hs []. split; try done.
  - intros Hd Hr. eapply lookup_weaken; [by apply gd_owner0|done].
  - by eapply is_Some_mono.
  - intros a Ha. by eapply is_Some_mono, gd_pending0.
Qed.

(** The id that a market is admitted with is recorded for its symbol. *)
Lemma admitted_owner h c updated tombs ms m m' : listing c -> Forall2 (admitted h) (cr_markets c) updated -> Forall (good h) tombs ->
  ms ≡ₚ updated ++ tombs -> m ∈ cr_markets c -> m' ∈ ms -> asset_id m' = asset_id m -> unused h m ->
  recorded ms h !! asset_id m = Some (cm_symbol m).
Proof.
  intros Hc H2 Ht Hp Hm Hm' Ea [Hn|Ho]; [|by eapply lookup_weaken; [exact Ho|apply recorded_mono]].
  apply recorded_owner; [|done|by exists m']. intros x Hx Hxa. rewrite Hp in Hx. apply elem_of_app in Hx as [Hx|Hx].
  - apply list_elem_of_lookup in Hx as [i Hi]. destruct (Forall2_lookup_r _ _ _ _ _ H2 Hi) as (y & Hy & Hxy).
    apply list_elem_of_lookup_2 in Hy. rewrite (ad_symbol _ _ _ Hxy).
    assert (asset_id y = asset_id m) as Ey.
    { destruct Hxa as [Hxa|Hxa]; [|by rewrite (ad_pending _ _ _ Hxy _ Hxa)].
      destruct (ad_asset _ _ _ Hxy) as [<-|[s Hs]]; [done|]. rewrite Hxa in Hs. congruence. }
    f_equal. destruct (li_apart _ Hc) as [_ Hnd]. by apply (same_row asset_id (cr_markets c)).
  - pose proof (proj1 (list.Forall_forall _ _) Ht x Hx) as Hg. exfalso. destruct Hxa as [Hxa|Hxa].
    + destruct (gd_known _ _ Hg) as [s Hs]. congruence.
    + destruct (gd_pending _ _ Hg _ Hxa) as [s Hs]. congruence.
Qed.

(** Every accepted market of a new revision is good for the owners recorded with it. *)
Lemma accepted_good h c updated tombs ms : listing c -> Forall2 (admitted h) (cr_markets c) updated -> Forall (good h) tombs ->
  ms ≡ₚ updated ++ tombs -> Forall (good (recorded ms h)) ms.
Proof.
  intros Hc H2 Ht Hp. apply list.Forall_forall. intros m' Hm'. pose proof Hm' as Hin. rewrite Hp in Hin. apply elem_of_app in Hin as [Hin|Hin].
  - apply list_elem_of_lookup in Hin as [i Hi]. destruct (Forall2_lookup_r _ _ _ _ _ H2 Hi) as (m & Hm & Ha).
    apply list_elem_of_lookup_2 in Hm. destruct (recorded_known ms h m' Hm') as [Hk Hpk]. destruct Ha. split; try done.
    intros Hd Hr. destruct (ad_owner0 Hd Hr) as [Ea Hu]. rewrite Ea, ad_symbol0. by eapply admitted_owner.
  - eapply good_mono; [apply recorded_mono|]. exact (proj1 (list.Forall_forall _ _) Ht m' Hin).
Qed.

Lemma applied_good prior h c active r : listing c -> (forall p, prior = Some p -> Forall (good h) (cr_markets p)) ->
  apply_tombstones_and_mutation_blocks prior h c active = Ok r -> Forall (good (recorded (cr_markets r) h)) (cr_markets r).
Proof.
  intros Hc Hp. unfold apply_tombstones_and_mutation_blocks. intros H. apply bind_Ok in H as (updated & Hu & H). apply bind_Ok in H as (tombs & Ht & H).
  apply make_revision_Ok in H as (-> & _). cbn [cr_markets with_markets]. apply (accepted_good h c updated tombs); [done| | |apply py_sorted_perm].
  - apply map_res_Forall2 in Hu. apply Forall2_same_length_lookup. split; [by eapply Forall2_length|]. intros i m m' Hi Hi'.
    eapply admit_admitted; [done|done|by eapply list_elem_of_lookup_2|]. exact (Forall2_lookup_lr _ _ _ _ _ _ Hu Hi Hi').
  - destruct prior as [p|]; [|injection Ht as <-; constructor]. apply made_markets in Ht as [-> _]. apply list.Forall_fmap, list.Forall_forall.
    intros old (Ho & _)%removed_elem. cbn. apply tombstone_good. exact (proj1 (list.Forall_forall _ _) (Hp p eq_refl) old Ho).
Qed.

(** * The actor *)

Definition owns_all (a : Actor) : Prop := forall r, current a = Some r -> Forall (good (historical_asset_ids a)) (cr_markets r).

(** The owners are only added to, and the accepted markets stay good. *)
Definition advances (a a' : Actor) : Prop := historical_asset_ids a ⊆ historical_asset_ids a' /\ (owns_all a -> owns_all a').

(** The owners are the same and the revision is one of two. *)
Definition between (h : gmap Z string) (c : option CatalogRevision) (r : CatalogRevision) (a : Actor) : Prop :=
  historical_asset_ids a = h /\ (current a = c \/ current a = Some r).

Definition quiet (m : Acting unit) : Prop := forall a, historical_asset_ids (fst (m a)) = historical_asset_ids a /\ current (fst (m a)) = current a.

Lemma quiet_between m h c r a : quiet m -> between h c r a -> between h c r (fst (m a)).
Proof. intros Hm [H1 H2]. destruct (Hm a) as [E1 E2]. unfold between. by rewrite E1, E2. Qed.

Lemma publish_quiet r : quiet (publish r).
Proof. intros a. unfold publish, jbind, jquery, jmodify. destruct (put_all r (subscribers a)) as [l [|]]; done. Qed.

Lemma request_quiet reason : forall a, historical_asset_ids (fst (request_immediate_refresh reason a)) = historical_asset_ids a /\
  current (fst (request_immediate_refresh reason a)) = current a.
Proof. intros a. unfold request_immediate_refresh. destruct (is_empty reason); [done|]. unfold jbind, jquery, jmodify. by destruct (refresh_reasons a). Qed.

Lemma quiet_then {A} (m : Acting A) (k : A -> Acting unit) : (forall a, historical_asset_ids (fst (m a)) = historical_asset_ids a /\ current (fst (m a)) = current a) ->
  (forall x, quiet (k x)) -> quiet (jbind m k).
Proof.
  intros Hm Hk a. unfold jbind. specialize (Hm a). destruct (m a) as [a1 [x|e]]; [|done]. cbn in Hm. destruct Hm as [<- <-]. apply Hk.
Qed.

Section Journal.
Variable sha256 : string -> string.
Variable journal : JournalEntry -> Acting unit.
(** What runs while the lock holder waits does not change the revision or the owners. *)
Hypothesis journal_quiet : forall j, quiet (journal j).

(** A computation that ends between two revisions. *)
Lemma between_bind {A} (m : Acting A) (k : A -> Acting CatalogRevision) h c r a : between h c r (fst (m a)) ->
  (forall x a', m a = (a', Ok x) -> between h c r (fst (k x a'))) -> between h c r (fst (jbind m k a)).
Proof. intros Hm Hk. unfold jbind. destruct (m a) as [a1 [x|e]] eqn:E; [by apply Hk|done]. Qed.

Lemma accept_between before after cls t frame meanwhile count a : quiet meanwhile ->
  (forall a, historical_asset_ids (count a) = historical_asset_ids a /\ current (count a) = current a) ->
  between (historical_asset_ids a) (current a) after (fst (accept sha256 journal before after cls t frame meanwhile count a)).
Proof.
  intros Hm Hc. unfold accept. set (h := historical_asset_ids a). set (c := current a).
  assert (between h c after a) as H by (split; [done|by left]). clearbody h c.
  apply between_bind; [by apply quiet_between|]. intros x1 a1 E1. assert (between h c after a1) as H1.
  { pose proof (quiet_between _ _ _ _ _ (journal_quiet (append_catalog_market_transitions (readiness_transitions sha256 before after cls t frame))) H) as H1.
    by rewrite E1 in H1. }
  apply between_bind; [by apply quiet_between|]. intros x2 a2 E2. assert (between h c after a2) as H2.
  { pose proof (quiet_between _ _ _ _ _ Hm H1) as H2. by rewrite E2 in H2. }
  unfold jbind, jmodify. destruct (Hc a2) as [Hc1 Hc2]. destruct H2 as [H2 _].
  assert (between h c after (set_current (count a2) after)) as H3 by (split; cbn; [congruence|by right]).
  destruct (readiness_transitions _ _ _ _ _ _); [done|].
  pose proof (quiet_between _ _ _ _ _ (publish_quiet after) H3) as H4. by destruct (publish after _) as [? [|]].
Qed.

Lemma between_advances r a a' : between (historical_asset_ids a) (current a) r a' ->
  (owns_all a -> Forall (good (historical_asset_ids a)) (cr_markets r)) -> advances a a'.
Proof.
  intros [Hh Hc] Hg. split; [by rewrite Hh|]. intros Ho r' Hr'. rewrite Hh. destruct Hc as [Hc|Hc]; rewrite Hc in Hr'.
  - by apply Ho.
  - injection Hr' as <-. by apply Hg.
Qed.

Lemma same_advances a a' : historical_asset_ids a' = historical_asset_ids a -> current a' = current a -> advances a a'.
Proof. intros Hh Hc. split; [by rewrite Hh|]. unfold owns_all. by rewrite Hh, Hc. Qed.

Lemma advances_refl a : advances a a.
Proof. by apply same_advances. Qed.

Lemma good_all h r m : Forall (good h) (cr_markets r) -> m ∈ cr_markets r -> good h m.
Proof. intros H Hm. exact (proj1 (list.Forall_forall _ _) H m Hm). Qed.

(** One market of a revision is replaced. *)
Lemma put_market_good h s m r r' : Forall (good h) (cr_markets r) -> good h m -> put_market s m r = Ok r' -> Forall (good h) (cr_markets r').
Proof.
  intros Hr Hm. unfold put_market. intros [-> _]%make_revision_Ok. cbn [cr_markets with_markets]. apply list.Forall_fmap.
  eapply list.Forall_impl; [exact Hr|]. intros x Hx. cbn. by destruct (bool_decide _).
Qed.

(** ** Frames of all DEXes *)

Lemma align_in dex ms i m : (align dex ms).1 !! i = Some m -> m ∈ ms.
Proof.
  unfold align. assert (forall l acc, (forall i x, acc.1 !! i = Some x -> x ∈ ms) -> (forall x, x ∈ l -> x ∈ ms) ->
    forall i x, (fold_left (align_step dex) l acc).1 !! i = Some x -> x ∈ ms) as H.
  { induction l as [|x l IH]; intros acc Ha Hl j y; cbn [fold_left]; [apply Ha|]. apply IH; [|intros z Hz; apply Hl; by right].
    intros k z. cbn. rewrite lookup_insert_Some. intros [[_ <-]|[_ Hk]]; [apply Hl; by left|by eapply Ha]. }
  apply H; [|done]. by intros ? ?.
Qed.

Lemma map_good h (f : CatalogMarket -> res CatalogMarket) l l' : (forall m m', good h m -> f m = Ok m' -> good h m') ->
  Forall (good h) l -> map_res f l = Ok l' -> Forall (good h) l'.
Proof. intros Hf Hl H%map_res_Forall2. induction H as [|x y l l' Hx _ IH]; [constructor|]. inversion Hl; subst. constructor; [by eapply Hf|by apply IH]. Qed.

Lemma fall_back_good h ms anomaly acc acc' : Forall (good h) ms -> Forall (good h) acc.1 -> fall_back ms anomaly acc = Ok acc' -> Forall (good h) acc'.1.
Proof.
  intros Hm Ha. unfold fall_back. intros H. res_inv. cbn. apply Forall_app. split; [done|].
  eapply map_good; [|exact Hm|done]. intros ? ?. apply without_context_good.
Qed.

Lemma context_step_good h dex aligned t acc ic acc' : (forall i m, aligned !! i = Some m -> good h m) -> Forall (good h) acc.1 ->
  context_step dex aligned t acc ic = Ok acc' -> Forall (good h) acc'.1.
Proof.
  intros Hg Ha. unfold context_step. destruct (aligned !! ic.1) as [m|] eqn:Em; [|done]. apply Hg in Em.
  destruct (negb _) eqn:Ep; [intros [= <-]; apply Forall_app; split; [done|by apply list.Forall_singleton]|]. bool_prop.
  assert (readiness m <> UNTRUSTED) as Hu by (intros Hr; apply (gd_untrusted _ _ Em) in Hr; by destruct (pending_identity_revision _)).
  assert (forall m' l, good h m' -> Forall (good h) (acc.1 ++ m' :: l) <-> Forall (good h) l) as Hadd.
  { intros m' l Hg'. rewrite Forall_app, list.Forall_cons. tauto. }
  destruct ic.2 as [| | | | | |o]; intros (m' & Hm' & [= <-])%bind_Ok; cbn [fst]; (apply Hadd; [|by constructor]).
  7: exact (with_context_good _ _ _ _ _ Em Hm').
  all: exact (unset_good _ _ _ _ _ Em Hu Hm').
Qed.

Lemma dex_contexts_good h d r t acc dex acc' : Forall (good h) (cr_markets r) -> Forall (good h) acc.1 ->
  dex_contexts d r t acc dex = Ok acc' -> Forall (good h) acc'.1.
Proof.
  intros Hr Ha. unfold dex_contexts. set (ms := List.filter _ _).
  assert (Forall (good h) ms) as Hms.
  { apply list.Forall_forall. intros m Hm%list_elem_of_In%List.filter_In. destruct Hm as [Hm _]. by eapply good_all, list_elem_of_In. }
  destruct (dict_get dex d) as [ctxs|]; [|by apply fall_back_good]. destruct (align dex ms) as [aligned collisions] eqn:Ea.
  destruct (negb _); [by apply fall_back_good|]. apply (fold_res_ind (fun b : Replaced => Forall (good h) b.1)); [|done]. intros b x b' _ Hb. apply context_step_good; [|done].
  intros i m Hi. apply (proj1 (list.Forall_forall _ _) Hms), (align_in dex ms i). by rewrite Ea.
Qed.

Lemma replaced_good h l m : Forall (good h) l -> good h m -> good h (replaced l m).
Proof.
  intros Hl Hm. unfold replaced. destruct (named _ _) as [x|] eqn:E; [|done]. apply named_Some in E as [Hx _]. cbn.
  apply (proj1 (list.Forall_forall _ _) Hl). by rewrite elem_of_reverse in Hx.
Qed.

(** ** Each operation *)

Ltac op_cases :=
  repeat (cbn [fst]; first [apply advances_refl | match goal with
    | |- advances _ (fst (match ?x with _ => _ end _)) => destruct x eqn:?
    | |- advances _ (fst (match ?x with _ => _ end)) => destruct x eqn:?
    end]).

Lemma observe_all_advances payload t a : advances a (fst (observe_all_dex_contexts sha256 journal payload t a)).
Proof.
  unfold observe_all_dex_contexts, accepted_revision, jlift. unfold jbind at 1, jquery at 1. destruct (current a) as [r|] eqn:Ec; [|apply advances_refl].
  unfold jbind at 1. destruct (parse_all_dex_contexts payload) as [d|]; [|apply advances_refl].
  unfold jbind at 1. destruct (check_market_dexes r); [|apply advances_refl].
  unfold jbind at 1. destruct (fold_res _ _ _) as [[replacements anomalies]|] eqn:Ed; [|apply advances_refl].
  unfold jbind at 1. destruct (make_revision _) as [r'|] eqn:Er; [|apply advances_refl]. apply make_revision_Ok in Er as (-> & _).
  eapply between_advances; [apply accept_between|].
  - destruct anomalies; [done|]. apply quiet_then; [apply request_quiet|]. intros _. apply journal_quiet.
  - done.
  - intros Ho. cbn [cr_markets with_markets]. apply list.Forall_fmap. eapply list.Forall_impl; [exact (Ho r Ec)|]. intros m Hm. cbn.
    apply replaced_good; [|done]. change replacements with ((replacements, anomalies).1). revert Ed. apply (fold_res_ind (fun b : Replaced => Forall (good (historical_asset_ids a)) b.1)); [|constructor].
    intros b x b' _ Hb. apply dex_contexts_good; [by apply Ho|done].
Qed.

Lemma revision_market_in s r m : revision_market s r = Ok (Some m) -> m ∈ cr_markets r.
Proof. unfold revision_market. intros H. res_inv. apply List.find_some in H as [H _]. by apply list_elem_of_In. Qed.

(** The market, or a request to look for it. *)
Lemma known_market_cases r s why msg a : exists a', historical_asset_ids a' = historical_asset_ids a /\ current a' = current a /\
  ((exists m, m ∈ cr_markets r /\ a' = a /\ known_market r s why msg a = (a', Ok m)) \/ (exists e, known_market r s why msg a = (a', Raise e))).
Proof.
  unfold known_market, jlift. unfold jbind at 1 2. destruct (revision_market s r) as [[m|]|e] eqn:E.
  - exists a. split; [done|]. split; [done|]. left. exists m. split; [by eapply revision_market_in|done].
  - destruct (request_quiet (why +:+ ":" +:+ s) a) as [H1 H2]. exists (fst (request_immediate_refresh (why +:+ ":" +:+ s) a)).
    split; [done|]. split; [done|]. right. unfold jbind. destruct (request_immediate_refresh _ a) as [a1 [x|e]]; by eexists.
  - exists a. split; [done|]. split; [done|]. right. by eexists.
Qed.

(** What follows the lookup of a market. *)
Lemma known_market_advances {A} r s why msg (k : CatalogMarket -> Acting A) a :
  (forall m, m ∈ cr_markets r -> advances a (fst (k m a))) -> advances a (fst (jbind (known_market r s why msg) k a)).
Proof.
  intros Hk. unfold jbind. destruct (known_market_cases r s why msg a) as (a' & Hh & Hc & [(m & Hm & -> & ->)|[e ->]]); [by apply Hk|].
  by apply same_advances.
Qed.

Lemma observe_active_advances payload t a : advances a (fst (observe_active_context sha256 journal payload t a)).
Proof.
  unfold observe_active_context, accepted_revision, jlift. unfold jbind at 1, jquery at 1. destruct (current a) as [r|] eqn:Ec; [|apply advances_refl].
  destruct payload as [| | | | | |o]; try apply advances_refl. unfold jbind at 1. destruct (catch _ _ _) as [s|]; [|apply advances_refl].
  apply known_market_advances. intros m Hm.
  destruct (obj_field "ctx" o) as [| | | | | |ctx].
  7: { unfold jbind at 1. destruct (with_context m ctx t) as [m'|] eqn:Em; [|apply advances_refl].
       unfold jbind at 1. destruct (put_market s m' r) as [r'|] eqn:Er; [|apply advances_refl].
       eapply between_advances; [apply accept_between; done|]. intros Ho. eapply put_market_good; [by apply Ho| |exact Er].
       eapply with_context_good; [|exact Em]. eapply good_all; [by apply Ho|done]. }
  all: unfold jbind at 1; destruct (fence_context m) as [m'|] eqn:Em; [|apply advances_refl];
    unfold jbind at 1; destruct (put_market s m' r) as [r'|] eqn:Er; [|apply advances_refl];
    (eapply between_advances; [apply accept_between; [apply quiet_then; [apply request_quiet|done]|done]|]);
    intros Ho; (eapply put_market_good; [by apply Ho| |exact Er]); (eapply fence_context_good; [|exact Em]);
    (eapply good_all; [by apply Ho|done]).
Qed.

Lemma invalidate_market_advances s t why a : advances a (fst (invalidate_market_context sha256 journal s t why a)).
Proof.
  unfold invalidate_market_context, accepted_revision, jlift. unfold jbind at 1, jquery at 1. destruct (current a) as [r|] eqn:Ec; [|apply advances_refl].
  unfold jbind at 1. destruct (canonical_market _) as [c|]; [|apply advances_refl].
  apply known_market_advances. intros m Hm. destruct (one_of_readiness _ m) eqn:Eu; [apply advances_refl|].
  unfold jbind at 1. destruct (set_readiness _ _ _ _ _) as [m'|] eqn:Em; [|apply advances_refl].
  unfold jbind at 1. destruct (put_market c m' r) as [r'|] eqn:Er; [|apply advances_refl].
  eapply between_advances; [apply accept_between; done|]. intros Ho. eapply put_market_good; [by apply Ho| |exact Er].
  eapply unset_good; [eapply good_all; [by apply Ho|done]| |exact Em]. intros Hr.
  assert (one_of_readiness [DELISTED; UNTRUSTED; HALTED] m = true) by (apply one_of; rewrite Hr; right; left). congruence.
Qed.

Lemma invalidate_all_advances t why frame a : advances a (fst (invalidate_all_contexts sha256 journal t why frame a)).
Proof.
  unfold invalidate_all_contexts, accepted_revision, jlift. unfold jbind at 1, jquery at 1. destruct (current a) as [r|] eqn:Ec; [|apply advances_refl].
  unfold jbind at 1. destruct (map_res _ _) as [ms|] eqn:Em; [|apply advances_refl].
  unfold jbind at 1. destruct (make_revision _) as [r'|] eqn:Er; [|apply advances_refl]. apply make_revision_Ok in Er as (-> & _).
  eapply between_advances; [apply accept_between; done|]. intros Ho. cbn [cr_markets with_markets].
  eapply map_good; [|by apply Ho|exact Em]. intros ? ?. apply fence_context_good.
Qed.

Lemma book_good h m fresh book t m' : good h m -> book_revision m < book -> (fresh = true -> 0 < context_observed_ms m) ->
  make_market (MkCatalogMarket (cm_symbol m) (cm_dex m) (asset_id m) (dex_index m) (universe_index m)
    (cm_sz_decimals m) (cm_max_leverage m) (book_readiness m fresh) (margin_mode m) (collateral_token m) (margin_table_id m)
    (is_delisted m) (context_observed_ms m) (cm_oracle_px m) (cm_mark_px m) book t (tombstoned_from_revision m)
    (removal_tombstone m) (pending m)) = Ok m' -> good h m'.
Proof.
  intros Hg Hb Hf [-> _]%make_market_Ok. pose proof (gd_book _ _ Hg).
  assert (readiness m = READY \/ readiness m = NO_CONTEXT -> one_of_readiness [HALTED; DELISTED; UNTRUSTED] m = false) as E1.
  { intros Hr. apply not_true_is_false. intros E%one_of. rewrite !elem_of_cons in E.
    destruct Hr as [Hr|Hr]; rewrite Hr in E; by destruct E as [E|[E|[E|E%not_elem_of_nil]]]. }
  apply good_update; [done|unfold book_readiness..|lia].
  - destruct (one_of_readiness _ m) eqn:E; [intros Hr; pose proof (E1 (or_introl Hr)) as E2; congruence|].
    destruct fresh; [|done]. destruct (negb _) eqn:Ep; [|done]. intros _. specialize (Hf eq_refl). split; [|split; [lia|]].
    + apply not_true_is_false. intros Hd. destruct (gd_delisted _ _ Hg Hd) as [Hr|[Hr|[_ Hc]]]; [| |lia];
        (assert (one_of_readiness [HALTED; DELISTED; UNTRUSTED] m = true) by (apply one_of; rewrite Hr; set_solver)); congruence.
    + destruct (cm_oracle_px m), (cm_mark_px m); try (by left); try (by right); done.
  - intros Hd. destruct (gd_delisted _ _ Hg Hd) as [Hr|[Hr|[Hr Hc]]].
    + assert (one_of_readiness [HALTED; DELISTED; UNTRUSTED] m = true) as -> by (apply one_of; rewrite Hr; set_solver). by left.
    + assert (one_of_readiness [HALTED; DELISTED; UNTRUSTED] m = true) as -> by (apply one_of; rewrite Hr; set_solver). by right; left.
    + rewrite (E1 (or_intror Hr)). destruct fresh; [specialize (Hf eq_refl); lia|]. right. right. done.
  - destruct (one_of_readiness _ m); [done|]. by destruct (fresh && _).
  - intros Hr. assert (one_of_readiness [HALTED; DELISTED; UNTRUSTED] m = true) as -> by (apply one_of; rewrite Hr; set_solver). by right.
Qed.

Lemma observe_book_advances s book t now a : advances a (fst (observe_book sha256 journal s book t now a)).
Proof.
  unfold observe_book, accepted_revision, jlift. unfold jbind at 1, jquery at 1. destruct (current a) as [r|] eqn:Ec; [|apply advances_refl].
  unfold jbind at 1. destruct (canonical_market _) as [c|]; [|apply advances_refl].
  apply known_market_advances. intros m Hm. unfold jbind at 1, jquery at 1. destruct (Z.leb_spec book (book_revision m)); [apply advances_refl|].
  unfold jbind at 1. destruct (make_market _) as [m'|] eqn:Em; [|apply advances_refl].
  unfold jbind at 1. destruct (put_market c m' r) as [r'|] eqn:Er; [|apply advances_refl].
  apply (between_advances r').
  - unfold jbind at 1.
    match goal with |- context [journal ?j] => pose proof (journal_quiet j a) as [H1 H2]; destruct (journal j a) as [a1 [x1|]] end;
      cbn [fst] in *; [|split; [done|by left]].
    unfold jbind, jmodify. assert (between (historical_asset_ids a) (current a) r' (set_current a1 r')) as Hb by (split; [done|by right]).
    destruct (bool_decide _); [done|]. pose proof (quiet_between _ _ _ _ _ (publish_quiet r') Hb) as Hp. by destruct (publish r' _) as [? [|]].
  - intros Ho. eapply put_market_good; [by apply Ho| |exact Er]. refine (book_good _ m _ book t m' _ _ _ Em); [eapply good_all; [by apply Ho|done]|lia|].
    intros Hf. apply andb_true_iff in Hf as [Hf _]. by apply Z.ltb_lt in Hf.
Qed.

Lemma built_listing net pol n t before metas after r : build_dynamic_catalog_revision sha256 net pol n t before metas after None [] = Ok r -> listing r.
Proof. unfold build_dynamic_catalog_revision. intros (l & Hl & [= <-])%bind_Ok. by apply listed_revision_spec in Hl as [? _]. Qed.

Lemma refresh_advances active t before metas after a : advances a (fst (refresh sha256 journal active t before metas after a)).
Proof.
  unfold refresh, jlift. unfold jbind at 1. destruct (map_res _ active) as [act|]; [|apply advances_refl].
  unfold jbind at 1, jquery at 1. unfold jbind at 1. destruct (build_dynamic_catalog_revision _ _ _ _ _ _ _ _ _ _) as [c|] eqn:Eb; [|apply advances_refl].
  apply built_listing in Eb. destruct (nothing_new a c act); [by apply same_advances|].
  unfold jbind at 1. destruct (apply_tombstones_and_mutation_blocks _ _ _ _) as [r|] eqn:Er; [|apply advances_refl].
  unfold jbind at 1.
  match goal with |- context [journal ?j] => pose proof (journal_quiet j a) as [H1 H2]; destruct (journal j a) as [a1 [x1|]] end;
    cbn [fst] in *; [|by apply same_advances].
  unfold jbind, jmodify. set (a2 := refreshed t _).
  assert (historical_asset_ids (fst (publish r a2)) = recorded (cr_markets r) (historical_asset_ids a) /\ current (fst (publish r a2)) = Some r) as [E1 E2].
  { destruct (publish_quiet r a2) as [-> ->]. cbn. by rewrite H1. }
  assert (advances a (fst (publish r a2))) as H; [|by destruct (publish r a2) as [? [|]]].
  split; [rewrite E1; apply recorded_mono|]. intros Ho r'. rewrite E1, E2. intros [= <-].
  eapply applied_good; [exact Eb| |exact Er]. intros p Hp. by apply Ho.
Qed.

(** ** After a restart *)

(** What the journal kept: a market that waits for its identity names it, and every id that
    waits is in the history of ids. *)
Definition persisted (h : gmap Z string) (m : CatalogMarket) : Prop :=
  (readiness m = UNTRUSTED -> pending_identity_revision (pending m) <> "") /\
  (forall a, pending_asset_id (pending m) = Some a -> is_Some (h !! a)).

Lemma owners_restored ms a a' : restore_owners ms a = (a', Ok tt) ->
  current a' = current a /\ historical_asset_ids a ⊆ historical_asset_ids a' /\
  Forall (fun m => is_Some (historical_asset_ids a' !! asset_id m) /\
                   (readiness m <> UNTRUSTED -> historical_asset_ids a' !! asset_id m = Some (cm_symbol m))) ms.
Proof.
  revert a. induction ms as [|m ms IH]; intros a; cbn [restore_owners]; [intros [= <-]; by repeat split|].
  unfold jbind at 1, jquery at 1. intros (x & a1 & E & H)%jbind_Ok. apply IH in H as (Hc & Hh & Hf).
  destruct (historical_asset_ids a !! asset_id m) as [s|] eqn:El.
  - assert (a1 = a /\ (readiness m <> UNTRUSTED -> s = cm_symbol m)) as [-> Hs].
    { destruct (bool_decide_reflect (s = cm_symbol m)); [by injection E as <-|]. unfold one_of_readiness in E.
      destruct (bool_decide_reflect (readiness m ∈ [UNTRUSTED])) as [Hu|Hu]; [|done]. injection E as <-. split; [done|].
      apply list_elem_of_singleton in Hu. congruence. }
    split; [done|]. split; [done|]. constructor; [|done]. pose proof (lookup_weaken _ _ _ _ El Hh) as El'. split; [by eexists|].
    intros Hr. by rewrite El', Hs.
  - injection E as <- _. cbn in Hc, Hh. split; [done|]. split.
    + etrans; [|exact Hh]. by apply insert_subseteq.
    + constructor; [|done]. assert (historical_asset_ids a' !! asset_id m = Some (cm_symbol m)) as Em.
      { eapply lookup_weaken; [|exact Hh]. apply lookup_insert_eq. }
      split; [by eexists|done].
Qed.

Lemma restored_good h m : persisted h m -> is_Some (h !! asset_id m) -> (readiness m <> UNTRUSTED -> h !! asset_id m = Some (cm_symbol m)) ->
  readiness m = DELISTED \/ readiness m = UNTRUSTED \/ (readiness m = NO_CONTEXT /\ context_observed_ms m = 0) -> book_revision m = 0 -> good h m.
Proof.
  intros [Hu Hp] Hk Ho Hr Hb. split; try done.
  - intros E. rewrite E in Hr. by destruct Hr as [?|[?|[? _]]].
  - lia.
Qed.

Lemma restore_owned payload rows a a' : owns_all a -> restore sha256 payload rows a = (a', Ok tt) ->
  (forall r, current a' = Some r -> Forall (persisted (historical_asset_ids a')) (cr_markets r)) -> owns_all a'.
Proof.
  intros Ho. unfold restore. unfold jbind at 1, jquery at 1. destruct (current a) eqn:Ec; [done|].
  intros (h & a1 & [-> Eh]%jlift_Ok & H)%jbind_Ok. apply jbind_Ok in H as (x & a2 & [= <- _] & H).
  destruct payload as [o|]; [|by injection H as <-; intros _ r; cbn; rewrite Ec].
  apply jbind_Ok in H as (r & a3 & [-> Er]%jlift_Ok & H). destruct (_ || _); [done|].
  apply jbind_Ok in H as (ms & a4 & [-> Em]%jlift_Ok & H). apply jbind_Ok in H as (r' & a5 & [-> Er']%jlift_Ok & H).
  apply make_revision_Ok in Er' as (-> & _). apply jbind_Ok in H as (y & a6 & [= <- _] & H).
  apply owners_restored in H as (Hc & _ & Hf). cbn [cr_markets with_markets] in Hf. intros Hp r' Hr'. rewrite Hc in Hr'. cbn in Hr'. injection Hr' as <-.
  specialize (Hp _ Hc). cbn [cr_markets with_markets] in *. apply list.Forall_forall. intros m Hm.
  destruct (proj1 (list.Forall_forall _ _) Hf m Hm) as [Hk Hown].
  apply restored_good; [exact (proj1 (list.Forall_forall _ _) Hp m Hm)|done|done|..].
  all: apply (map_res_elem _ _ _ _ Em) in Hm as (x0 & _ & [-> _]%make_market_Ok); cbn; try done.
  destruct (one_of_readiness [DELISTED; UNTRUSTED] x0) eqn:E; [|right; right; done]. apply one_of in E. rewrite !elem_of_cons in E.
  destruct E as [E|[E|E%not_elem_of_nil]]; auto. done.
Qed.

(** * The life of an actor *)

(** One call of the actor, whatever it answers. *)
Inductive actor_call (a : Actor) : Actor -> Prop :=
  | call_refresh active t before metas after : actor_call a (fst (refresh sha256 journal active t before metas after a))
  | call_refresh_error e : actor_call a (record_refresh_error e a)
  | call_all_contexts payload t : actor_call a (fst (observe_all_dex_contexts sha256 journal payload t a))
  | call_active_context payload t : actor_call a (fst (observe_active_context sha256 journal payload t a))
  | call_invalidate s t why : actor_call a (fst (invalidate_market_context sha256 journal s t why a))
  | call_invalidate_all t why frame : actor_call a (fst (invalidate_all_contexts sha256 journal t why frame a))
  | call_book s book t now : actor_call a (fst (observe_book sha256 journal s book t now a))
  | call_entry s denied : actor_call a (fst (entry_market s denied a))
  | call_request reason : actor_call a (fst (request_immediate_refresh reason a))
  | call_next_reason : actor_call a (fst (next_refresh_reason a))
  | call_subscribe id cap : actor_call a (subscribe id cap a)
  | call_unsubscribe id : actor_call a (unsubscribe id a).

(** An actor after any calls, new or restored. *)
Inductive live : Actor -> Prop :=
  | live_new net pol context_age identity_age a : make_actor net pol context_age identity_age = Ok a -> live a
  | live_restored net pol context_age identity_age a0 payload rows a : make_actor net pol context_age identity_age = Ok a0 ->
      restore sha256 payload rows a0 = (a, Ok tt) ->
      (forall r, current a = Some r -> Forall (persisted (historical_asset_ids a)) (cr_markets r)) -> live a
  | live_call a a' : live a -> actor_call a a' -> live a'.

Lemma entry_same s denied a : historical_asset_ids (fst (entry_market s denied a)) = historical_asset_ids a /\
  current (fst (entry_market s denied a)) = current a.
Proof.
  destruct (entry_market s denied a) as [a' x] eqn:E. cbn [fst]. unfold entry_market, accepted_revision, jlift in E.
  unfold jbind at 1 in E. destruct (canonical_market _) as [c|]; [|by injection E as <- _].
  unfold jbind at 1, jquery at 1 in E. destruct (current a) as [r|] eqn:Ec; [|by injection E as <- _].
  unfold jbind at 1 in E.
  destruct (known_market_cases r c "unknown_source_market" "unknown catalog market" a) as (a1 & Hh & Hc & [(m & Hm & -> & Em)|[e Em]]);
    rewrite Em in E; [|injection E as <- _; by rewrite Hc].
  unfold jbind in E. destruct (map_res _ denied) as [d|]; [|by injection E as <- _].
  destruct (bool_decide _); [by injection E as <- _|]. destruct (negb _); by injection E as <- _.
Qed.

Lemma call_advances a a' : actor_call a a' -> advances a a'.
Proof.
  destruct 1.
  - apply refresh_advances.
  - by apply same_advances.
  - apply observe_all_advances.
  - apply observe_active_advances.
  - apply invalidate_market_advances.
  - apply invalidate_all_advances.
  - apply observe_book_advances.
  - apply same_advances; apply entry_same.
  - apply same_advances; apply request_quiet.
  - by apply same_advances.
  - by apply same_advances.
  - by apply same_advances.
Qed.

Lemma live_owned a : live a -> owns_all a.
Proof.
  induction 1 as [net pol ca ia a H|net pol ca ia a0 payload rows a H Hr Hp|a a' _ IH Hc].
  - unfold make_actor in H. by res_inv.
  - eapply restore_owned; [|exact Hr|exact Hp]. unfold make_actor in H. by res_inv.
  - by apply (call_advances a a').
Qed.

Lemma calls_keep a a' : rtc actor_call a a' -> historical_asset_ids a ⊆ historical_asset_ids a' /\ (owns_all a -> owns_all a').
Proof.
  induction 1 as [a|a a1 a' Hc _ [IH1 IH2]]; [done|]. destruct (call_advances _ _ Hc) as [H1 H2]. split; [by etrans|auto].
Qed.

Lemma entry_spec s denied a a' m : entry_market s denied a = (a', Ok m) ->
  exists r, current a = Some r /\ m ∈ cr_markets r /\ readiness m = READY.
Proof.
  unfold entry_market, accepted_revision, jlift. intros (c & a1 & [= <- _] & H)%jbind_Ok.
  apply jbind_Ok in H as (r & a2 & [-> Hr]%jquery_Ok & H). destruct (current a) as [r'|]; [|done]. injection Hr as ->.
  apply jbind_Ok in H as (m' & a3 & E & H).
  destruct (known_market_cases r c "unknown_source_market" "unknown catalog market" a) as (a4 & _ & _ & [(x & Hx & -> & Ex)|[e Ex]]);
    rewrite Ex in E; [|done]. injection E as <- <-. apply jbind_Ok in H as (d & a5 & [= <- _] & H).
  destruct (bool_decide (c ∈ d)); [done|]. destruct (negb (bool_decide (readiness x = READY))) eqn:Eb; [done|]. bool_prop.
  injection H as _ <-. by exists r.
Qed.

(** C19. An asset id never opens positions in two markets.  From its start (or its restoration
    from the journal), whatever listings, context frames, books, fences, refused calls and
    publications a catalog actor sees, a market that [entry_market] admits is not delisted,
    has a book and a positive oracle or mark price; and when a market admitted later carries
    the same asset id, it is the market of the same symbol, however the exchange reassigned
    the ids in between. *)
Theorem asset_id_one_owner a s denied a1 m a2 s' denied' a3 m' :
  live a -> entry_market s denied a = (a1, Ok m) -> rtc actor_call a1 a2 -> entry_market s' denied' a2 = (a3, Ok m') ->
  (is_delisted m = false /\ 0 < book_revision m /\ (cm_oracle_px m <> None \/ cm_mark_px m <> None)) /\
  (asset_id m' = asset_id m -> cm_symbol m' = cm_symbol m).
Proof.
  intros Hl He Hr He'. pose proof (live_owned _ Hl) as Ho. pose proof (call_advances _ _ (call_entry a s denied)) as [H1 H2].
  rewrite He in H1, H2. cbn [fst] in H1, H2. destruct (calls_keep _ _ Hr) as [H3 H4].
  apply entry_spec in He as (r & Hc & Hm & Hready). pose proof (good_all _ _ _ (Ho _ Hc) Hm) as Hg.
  destruct (gd_ready _ _ Hg Hready) as (Hd & Hb & Hp). split; [done|]. intros Ea.
  apply entry_spec in He' as (r' & Hc' & Hm' & Hready'). pose proof (good_all _ _ _ (H4 (H2 Ho) _ Hc') Hm') as Hg'.
  destruct (gd_ready _ _ Hg' Hready') as (Hd' & _ & _).
  assert (historical_asset_ids a !! asset_id m = Some (cm_symbol m)) as E1 by (apply (gd_owner _ _ Hg); [done|congruence]).
  assert (historical_asset_ids a2 !! asset_id m' = Some (cm_symbol m')) as E2 by (apply (gd_owner _ _ Hg'); [done|congruence]).
  assert (historical_asset_ids a2 !! asset_id m = Some (cm_symbol m)) as E3 by (eapply lookup_weaken; [exact E1|by etrans]).
  rewrite Ea in E2. congruence.
Qed.
End Journal.
