(* ===== verification/CatalogExample.v ===== *)
(** A small exchange: two DEXes whose listing changes, what becomes of a catalog of it, and a
    catalog actor at work on it. *)

From S2P Require Import Prelude PyDecimal PyText TextFacts Markets MarketCatalog CatalogRevisions CatalogActor CatalogFacts CatalogReload ActorFacts.
From Stdlib Require Import Lia Ascii.

Open Scope Z_scope.

(** A digest of 64 hexadecimal digits. *)
Fixpoint hex_text (n : nat) (h : N) : chars := match n with O => [] | S n => hex_digit (h mod 16) :: hex_text n (h / 16) end.
Definition example_digest (s : string) : string :=
  of_chars (hex_text 64 (fold_left (fun h c => ((h * 131 + code c) mod 2 ^ 256)%N) (to_chars s) 7%N)).

Lemma hex_digit_hex n : (n < 16)%N -> (is_digit (hex_digit n) || in_range 97 102 (hex_digit n)) = true.
Proof.
  intros Hn. assert (forallb (fun k => let c := hex_digit (N.of_nat k) in is_digit c || in_range 97 102 c) (seq 0 16) = true) as H by done.
  rewrite forallb_forall in H. rewrite <- (N2Nat.id n). apply (H (N.to_nat n)), in_seq. lia.
Qed.

Lemma hex_text_hex n h : forallb (fun c => is_digit c || in_range 97 102 c) (hex_text n h) = true.
Proof.
  revert h. induction n as [|n IH]; intros h; [done|]. cbn [hex_text forallb]. apply andb_true_iff. split; [|apply IH].
  apply hex_digit_hex, N.mod_lt. done.
Qed.

Lemma length_hex_text n h : String.length (of_chars (hex_text n h)) = n.
Proof. revert h. induction n as [|n IH]; intros h; [done|]. cbn. by f_equal. Qed.

Lemma example_digest_hex s : is_sha256_hex (example_digest s) = true.
Proof. unfold is_sha256_hex, example_digest. by rewrite to_of_chars, hex_text_hex, length_hex_text. Qed.

Definition listed_entry (name : string) (sz leverage : Z) (delisted : bool) : json :=
  JObj (("name", JStr name) :: ("szDecimals", JInt sz) :: ("maxLeverage", JInt leverage) :: if delisted then [("isDelisted", JBool true)] else []).
Definition example_dexes : json := JList [JNull; JObj [("name", JStr "xyz")]].
Definition metas_of (default_dex xyz : list json) : json :=
  JList [JObj [("universe", JList default_dex)]; JObj [("universe", JList xyz); ("collateralToken", JInt 7)]].

(** The first listing; one where BTC has another leverage, ETH is gone and OIL is new; and
    one where BTC has another leverage and is delisted. *)
Definition first_metas : json :=
  metas_of [listed_entry "BTC" 5 50 false; listed_entry "ETH" 4 25 false] [listed_entry "xyz:GOLD" 2 20 false].
Definition second_metas : json :=
  metas_of [listed_entry "BTC" 5 40 false] [listed_entry "xyz:GOLD" 2 20 false; listed_entry "xyz:OIL" 2 10 false].
Definition delisted_metas : json :=
  metas_of [listed_entry "BTC" 5 40 true; listed_entry "ETH" 4 25 false] [listed_entry "xyz:GOLD" 2 20 false].

Definition no_revision : CatalogRevision := MkRevision 0 "" "" "" 0 [] [] "" "" "".
Definition started (previous : option CatalogRevision) (retain : list string) (metas : json) : CatalogRevision :=
  match build_startup_catalog example_digest "mainnet" 1000 previous retain (Ok example_dexes) (Ok metas) (Ok example_dexes) with
  | Ok r => r
  | Raise _ => no_revision
  end.
Definition listed (n : Z) (metas : json) : CatalogRevision :=
  match listed_revision example_digest "mainnet" "continuous-ws-v1" n 1000 example_dexes metas example_dexes with Ok r => r | Raise _ => no_revision end.
Definition first_catalog : CatalogRevision := started None [] first_metas.
Definition second_catalog : CatalogRevision := started (Some first_catalog) ["BTC"; "ETH"] second_metas.

Example second_markets :
  (fun m => (cm_symbol m, cm_max_leverage m, readiness m, removal_tombstone m, pending_max_leverage (pending m))) <$> cr_markets second_catalog =
  [("BTC", 50, UNTRUSTED, false, Some 40); ("ETH", 25, DELISTED, true, None);
   ("xyz:GOLD", 20, NO_CONTEXT, false, None); ("xyz:OIL", 10, NO_CONTEXT, false, None)].
Proof. vm_compute. reflexivity. Qed.

Lemma first_has s : bool_decide (s ∈ cm_symbol <$> cr_markets first_catalog) = true -> exists old, old ∈ cr_markets first_catalog /\ cm_symbol old = s.
Proof. intros (old & -> & H)%bool_decide_eq_true%list_elem_of_fmap. by exists old. Qed.

Lemma first_symbols : NoDup (cm_symbol <$> cr_markets first_catalog).
Proof. apply (bool_decide_unpack _). vm_compute. exact I. Qed.

Lemma retained_identity_kept_witness :
  (exists old m, named "BTC" (cr_markets second_catalog) = Some m /\ cm_symbol old = "BTC" /\ execution_identity m = execution_identity old) /\
  (exists old m, named "ETH" (cr_markets second_catalog) = Some m /\ cm_symbol old = "ETH" /\ execution_identity m = execution_identity old) /\
  named "xyz:OIL" (cr_markets second_catalog) = named "xyz:OIL" (cr_markets (listed 2 second_metas)).
Proof.
  destruct (retained_identity_kept example_digest "mainnet" "continuous-ws-v1" 2 1000 example_dexes second_metas example_dexes first_catalog
    ["BTC"; "ETH"] ["BTC"; "ETH"] (listed 2 second_metas) second_catalog) as [H1 H2].
  - vm_compute. reflexivity.
  - vm_compute. reflexivity.
  - vm_compute. reflexivity.
  - exact first_symbols.
  - destruct (first_has "BTC") as (btc & Hb & Eb); [vm_compute; reflexivity|].
    destruct (first_has "ETH") as (eth & He & Ee); [vm_compute; reflexivity|].
    destruct (H1 btc Hb) as (m & Em & Im & _); [rewrite Eb; left|]. destruct (H1 eth He) as (m' & Em' & Im' & _); [rewrite Ee; right; left|].
    rewrite Eb in Em. rewrite Ee in Em'. split; [exact (ex_intro _ btc (ex_intro _ m (conj Em (conj Eb Im))))|].
    split; [exact (ex_intro _ eth (ex_intro _ m' (conj Em' (conj Ee Im'))))|].
    apply H2. apply (bool_decide_unpack _). vm_compute. exact I.
Defined.

Lemma example_status_kept : forall retained, map_res (fun s => canonical_market (JStr s)) ["BTC"; "ETH"] = Ok retained ->
  status_kept retained first_catalog (listed 2 second_metas).
Proof.
  intros retained Er old m Eo Hm Hr _. assert (Forall (fun m => match named (cm_symbol m) (cr_markets first_catalog) with
    | Some old => removal_tombstone old = false /\ is_delisted old = is_delisted m | None => True end) (cr_markets (listed 2 second_metas))) as H.
  { vm_compute. repeat constructor. }
  apply (proj1 (list.Forall_forall _ _) H m) in Hm. by rewrite Eo in Hm.
Qed.

Lemma durable_catalog_reloads_witness :
  load_durable_catalog example_digest (Some (Ok (catalog_file second_catalog))) "mainnet" = Ok (Some second_catalog).
Proof.
  apply (durable_catalog_reloads example_digest "mainnet" 1000 (Some first_catalog) ["BTC"; "ETH"] example_dexes second_metas example_dexes
    (listed 2 second_metas)).
  - apply example_digest_hex.
  - vm_compute. reflexivity.
  - vm_compute. reflexivity.
  - vm_compute. reflexivity.
  - vm_compute. repeat constructor.
  - split; [vm_compute; repeat constructor|apply example_status_kept].
Defined.

(** When a retained market is delisted and its leverage changes at once, the catalog is built
    and its file is refused at the next start: the market keeps the status it had, while the
    snapshot hash is that of the listing. *)
Example changed_status_refused :
  let r := started (Some first_catalog) ["BTC"; "ETH"] delisted_metas in
  is_ok (make_revision r) = true /\
  (exists m, named "BTC" (cr_markets r) = Some m /\ is_delisted m = false /\ pending_max_leverage (pending m) = Some 40) /\
  load_durable_catalog example_digest (Some (Ok (catalog_file r))) "mainnet" =
    Raise (RuntimeError "durable engine catalog is unreadable or invalid").
Proof. vm_compute. split; [reflexivity|]. split; [|reflexivity]. eexists. split; [reflexivity|]. split; reflexivity. Qed.

(** * The actor: BTC becomes ready and is admitted, before and after a refresh; a listing that
    swaps two asset ids is not trusted *)

Definition example_journal : JournalEntry -> Acting unit := fun _ => jmodify (record_refresh_error "while the journal writes").

Lemma example_journal_quiet j : quiet (example_journal j).
Proof. done. Qed.

Definition new_actor : Actor := match make_actor "mainnet" "test" 5000 120000 with Ok a => a | Raise _ => MkActor "" "" 0 0 None ∅ [] None 0 0 0 "" 0 "" 0 0 0 false 0 [] end.
Definition refreshed_at (t : Z) (metas : json) (a : Actor) : Actor :=
  fst (refresh example_digest example_journal [] t example_dexes metas example_dexes a).
Definition btc_context : json := JObj [("coin", JStr "BTC"); ("ctx", JObj [("oraclePx", JStr "60000"); ("markPx", JStr "60001")])].

Definition listed_actor : Actor := refreshed_at 1000 first_metas new_actor.
Definition priced_actor : Actor := fst (observe_active_context example_digest example_journal btc_context 2000 listed_actor).
Definition ready_actor : Actor := fst (observe_book example_digest example_journal "BTC" 1 2100 2100 priced_actor).
Definition later_actor : Actor := refreshed_at 61000 second_metas (fst (entry_market "BTC" [] ready_actor)).

(** The same ids, the other way round. *)
Definition swapped_metas : json :=
  metas_of [listed_entry "ETH" 4 25 false; listed_entry "BTC" 5 50 false] [listed_entry "xyz:GOLD" 2 20 false].

Definition states (a : Actor) : list (string * Z * MarketReadiness) :=
  match current a with Some r => (fun m => (cm_symbol m, asset_id m, readiness m)) <$> cr_markets r | None => [] end.

Example ready_states : states ready_actor = [("BTC", 0, READY); ("ETH", 1, NO_CONTEXT); ("xyz:GOLD", 110000, NO_CONTEXT)].
Proof. vm_compute. reflexivity. Qed.
Example later_states : states later_actor = [("BTC", 0, READY); ("xyz:GOLD", 110000, NO_CONTEXT); ("xyz:OIL", 110001, NO_CONTEXT)].
Proof. vm_compute. reflexivity. Qed.
Example swapped_states : states (refreshed_at 61000 swapped_metas ready_actor) = [("BTC", 1, UNTRUSTED); ("ETH", 0, UNTRUSTED); ("xyz:GOLD", 110000, NO_CONTEXT)].
Proof. vm_compute. reflexivity. Qed.

Lemma ready_live : live example_digest example_journal ready_actor.
Proof.
  eapply live_call; [|apply call_book]. eapply live_call; [|apply call_active_context]. eapply live_call; [|apply call_refresh].
  eapply (live_new _ _ "mainnet" "test" 5000 120000). reflexivity.
Qed.

Lemma later_call : rtc (actor_call example_digest example_journal) (fst (entry_market "BTC" [] ready_actor)) later_actor.
Proof. unfold later_actor, refreshed_at. generalize (fst (entry_market "BTC" [] ready_actor)). intros a. apply rtc_once, call_refresh. Qed.

Definition admitted_in (a : Actor) : CatalogMarket :=
  match snd (entry_market "BTC" [] a) with Ok m => m | Raise _ => MkCatalogMarket "" "" 0 0 0 0 0 UNTRUSTED "" 0 None false 0 None None 0 0 "" false no_pending end.

Lemma asset_id_one_owner_witness : 0 < book_revision (admitted_in ready_actor) /\ cm_symbol (admitted_in later_actor) = cm_symbol (admitted_in ready_actor).
Proof.
  destruct (asset_id_one_owner example_digest example_journal example_journal_quiet ready_actor "BTC" [] (fst (entry_market "BTC" [] ready_actor))
    (admitted_in ready_actor) later_actor "BTC" [] (fst (entry_market "BTC" [] later_actor)) (admitted_in later_actor)) as [(_ & Hb & _) Hs].
  - exact ready_live.
  - vm_cast_no_check (eq_refl (entry_market "BTC" [] ready_actor)).
  - exact later_call.
  - vm_cast_no_check (eq_refl (entry_market "BTC" [] later_actor)).
  - split; [exact Hb|]. apply Hs. vm_compute. reflexivity.
Defined.
