(* ===== verification/PriceFacts.v ===== *)
(** Facts about the last good prices: what a risk reduction gets is the newest price that
    was observed, and never one that is too old. *)

From S2P Require Import Prelude PyDecimal DecimalFacts PyText Markets MarketCatalog CatalogRevisions CatalogFacts PriceContext.
From Stdlib Require Import Lia.

Open Scope Z_scope.

(** * What was observed *)

Record Observation := MkObservation { ob_symbol : string; ob_ms : Z; ob_mark : option dec; ob_mid : option dec }.

(** The prices of one kind that were accepted for a market, oldest first. *)
Definition prices (kind : Observation -> option dec) (s : string) (log : list Observation) : list (Z * dec) :=
  omap (fun o => if bool_decide (ob_symbol o = s) then (fun p => (ob_ms o, p)) <$> kind o else None) log.

(** A provider and the observations it accepted. *)
Inductive observed : list Observation -> Provider -> Prop :=
  | observed_new m : observed [] (make_provider m)
  | observed_accepted log p symbolv t markv midv p' c m mark mid : observed log p -> observe symbolv t markv midv p = (p', Ok c) ->
      manifest_market (pv_manifest p) symbolv = Ok m -> given_price markv = Ok mark -> given_price midv = Ok mid ->
      observed (log ++ [MkObservation (symbol m) t mark mid]) p'
  | observed_refused log p symbolv t markv midv p' e : observed log p -> observe symbolv t markv midv p = (p', Raise e) -> observed log p'.

Definition seen (price : option dec) (at_ms : option Z) : option (Z * dec) :=
  match price, at_ms with Some p, Some t => Some (t, p) | _, _ => None end.

(** A cached price is the last one that was observed, and the newest. *)
Record cached (price : option dec) (at_ms : option Z) (l : list (Z * dec)) : Prop := {
  ca_last : seen price at_ms = list.last l;
  ca_pair : price = None <-> at_ms = None;
  ca_valid : Forall (fun x => 0 < x.1 /\ dpos x.2 = true) l;
  ca_newest : forall x t, x ∈ l -> at_ms = Some t -> x.1 <= t;
}.

Lemma cached_nil : cached None None [].
Proof. by split. Qed.

Lemma prices_snoc kind s log o : prices kind s (log ++ [o]) =
  prices kind s log ++ (if bool_decide (ob_symbol o = s) then match kind o with Some p => [(ob_ms o, p)] | None => [] end else []).
Proof. unfold prices. rewrite omap_app. f_equal. cbn. destruct (bool_decide _); [|done]. by destruct (kind o). Qed.

Lemma given_positive v p : given_price v = Ok (Some p) -> dpos p = true.
Proof.
  assert (forall w q, positive_price w = Ok q -> dpos q = true) as H.
  { intros w q. unfold positive_price. destruct w; [|done|..]; destruct (decimal_of_string _) as [[d| |]|]; try done;
      (destruct (dpos d) eqn:E; [|done]); by intros [= <-]. }
  unfold given_price. destruct v; try done; intros (q & Hq & [= ->])%fmap_Ok; by eapply H.
Qed.

Lemma merge_cached price at_ms l new t price' at_ms' : cached price at_ms l -> 0 < t -> (forall p, new = Some p -> dpos p = true) ->
  merge_observation price at_ms new t = Ok (price', at_ms') ->
  cached price' at_ms' (l ++ match new with Some p => [(t, p)] | None => [] end).
Proof.
  intros [] Ht Hp. unfold merge_observation. destruct new as [p|]; [|intros [= <- <-]; by rewrite app_nil_r].
  destruct (match at_ms with Some t0 => t <? t0 | None => false end) eqn:Eb; [done|]. destruct (_ && _); [done|]. intros [= <- <-]. split.
  - by rewrite list.last_snoc.
  - done.
  - apply Forall_app. split; [done|]. apply list.Forall_singleton. by split; [|apply Hp].
  - intros x t' [Hx|Hx%list_elem_of_singleton]%elem_of_app [= <-]; [|by subst].
    destruct at_ms as [t0|]; [specialize (ca_newest0 x t0 Hx eq_refl); apply Z.ltb_ge in Eb; lia|].
    rewrite (proj2 ca_pair0 eq_refl) in ca_last0. symmetry in ca_last0. apply list.last_None in ca_last0 as ->. by apply not_elem_of_nil in Hx.
Qed.

(** * The provider *)

(** The cache of one market. *)
Definition entry_ok (c : option LastGoodMarketContext) (marks mids : list (Z * dec)) : Prop :=
  cached (c ≫= lg_mark_px) (c ≫= lg_mark_ms) marks /\ cached (c ≫= lg_mid_px) (c ≫= lg_mid_ms) mids.

Definition provider_ok (log : list Observation) (p : Provider) : Prop :=
  forall s, entry_ok (contexts p !! s) (prices ob_mark s log) (prices ob_mid s log).

Lemma observe_spec symbolv t markv midv p p' c : observe symbolv t markv midv p = (p', Ok c) ->
  exists m mark mid, manifest_market (pv_manifest p) symbolv = Ok m /\ 0 < t /\ given_price markv = Ok mark /\ given_price midv = Ok mid /\
    merged (symbol m) (contexts p !! symbol m) t mark mid = Ok c /\ p' = MkProvider (pv_manifest p) (<[symbol m := c]> (contexts p)).
Proof.
  unfold observe. intros (p0 & p1 & [= <- <-] & H)%jbind_Ok. apply jbind_Ok in H as (m & p2 & [-> Hm]%jlift_Ok & H). exists m.
  assert ((let! _ := jlift (validate_observed_ms t) in let! mark := jlift (given_price markv) in let! mid := jlift (given_price midv) in
    let! c := jlift (merged (symbol m) (contexts p !! symbol m) t mark mid) in
    let! _ := jmodify (fun p => MkProvider (pv_manifest p) (<[symbol m := c]> (contexts p))) in jret c) p = (p', Ok c)) as H'.
  { destruct markv, midv; try exact H. done. }
  clear H. apply jbind_Ok in H' as (u & p3 & [-> Ht]%jlift_Ok & H). apply jbind_Ok in H as (mark & p4 & [-> Hmark]%jlift_Ok & H).
  apply jbind_Ok in H as (mid & p5 & [-> Hmid]%jlift_Ok & H). apply jbind_Ok in H as (c' & p6 & [-> Hc]%jlift_Ok & H).
  injection H as <- <-. exists mark, mid. unfold validate_observed_ms, check_that in Ht. destruct (Z.ltb_spec 0 t); [|done]. done.
Qed.

Lemma observe_refused symbolv t markv midv p p' e : observe symbolv t markv midv p = (p', Raise e) -> p' = p.
Proof.
  unfold observe. unfold jbind at 1, jquery. unfold jbind at 1, jlift at 1. destruct (manifest_market _ _) as [m|]; [|by intros [= <- _]].
  intros H. assert (forall A (r : res A) (k : A -> ST Provider LastGoodMarketContext), (forall x, k x p = (p', Raise e) -> p' = p) -> jbind (jlift r) k p = (p', Raise e) -> p' = p) as Hb.
  { intros A r k Hk. unfold jbind, jlift. destruct r as [x|]; [apply Hk|by intros [= <- _]]. }
  destruct markv, midv; first [by injection H as <- _ | revert H; repeat (apply Hb; intros ?); discriminate].
Qed.

Lemma merged_ok s c t mark mid c' marks mids : entry_ok c marks mids -> 0 < t -> (forall p, mark = Some p -> dpos p = true) ->
  (forall p, mid = Some p -> dpos p = true) -> merged s c t mark mid = Ok c' ->
  entry_ok (Some c') (marks ++ match mark with Some p => [(t, p)] | None => [] end) (mids ++ match mid with Some p => [(t, p)] | None => [] end).
Proof.
  intros [H1 H2] Ht Hp1 Hp2. unfold merged. intros ([mark' mark_ms] & E1 & H)%bind_Ok. apply bind_Ok in H as ([mid' mid_ms] & E2 & H).
  assert (c' = MkContext s mark' mark_ms mid' mid_ms) as ->.
  { unfold make_context in H. res_inv. done. }
  split; cbn; by eapply merge_cached.
Qed.

Lemma observed_ok log p : observed log p -> provider_ok log p.
Proof.
  induction 1 as [m|log p symbolv t markv midv p' c m mark mid _ IH Ho Hm Hmark Hmid|log p symbolv t markv midv p' e _ IH Ho].
  - intros s. cbn. rewrite lookup_empty. split; apply cached_nil.
  - apply observe_spec in Ho as (m' & mark' & mid' & Hm' & Ht & Hmark' & Hmid' & Hc & ->). rewrite Hm in Hm'. injection Hm' as <-.
    rewrite Hmark in Hmark'. injection Hmark' as <-. rewrite Hmid in Hmid'. injection Hmid' as <-.
    intros s. rewrite !prices_snoc. cbn [contexts ob_symbol ob_mark ob_mid ob_ms]. destruct (decide (symbol m = s)) as [<-|Hne].
    + rewrite lookup_insert_eq, bool_decide_true by done. eapply merged_ok; [apply IH|done|..|exact Hc].
      * intros q ->. by eapply given_positive.
      * intros q ->. by eapply given_positive.
    + rewrite lookup_insert_ne, bool_decide_false, !app_nil_r by done. apply IH.
  - apply observe_refused in Ho as ->. exact IH.
Qed.

(** Of two candidates the newer one is taken, the mark when they are equally new. *)
Lemma newest_pair t1 p1 t2 p2 : newest (t1, 1, "mark", p1) [(t2, 0, "mid", p2)] = if t1 <? t2 then (t2, 0, "mid", p2) else (t1, 1, "mark", p1).
Proof. unfold newest. cbn. rewrite andb_false_r, orb_false_r. done. Qed.

Lemma cached_seen price at_ms l t p : cached price at_ms l -> seen price at_ms = Some (t, p) ->
  (t, p) ∈ l /\ 0 < t /\ dpos p = true /\ forall x, x ∈ l -> x.1 <= t.
Proof.
  intros [] E. rewrite E in ca_last0. symmetry in ca_last0. apply list.last_Some in ca_last0 as [l' ->].
  assert ((t, p) ∈ l' ++ [(t, p)]) as Hin by (apply elem_of_app; right; by left).
  destruct (proj1 (list.Forall_forall _ _) ca_valid0 _ Hin) as [? ?]. repeat split; try done.
  intros x Hx. apply ca_newest0; [done|]. destruct price, at_ms; try done. by injection E as -> ->.
Qed.

(** Nothing is cached only when nothing was observed. *)
Lemma cached_unseen price at_ms l : cached price at_ms l -> seen price at_ms = None -> l = [].
Proof. intros [] E. rewrite E in ca_last0. by apply list.last_None. Qed.

(** A candidate is the newest price of its kind, if that is still fresh. *)
Lemma candidate_cases now max_age rank source price at_ms l : cached price at_ms l -> (forall x, x ∈ l -> x.1 <= now) ->
  (fresh_price now max_age rank source price at_ms = [] /\ forall x, x ∈ l -> max_age < now - x.1) \/
  (exists t p, fresh_price now max_age rank source price at_ms = [(t, rank, source, p)] /\ t <= now <= t + max_age /\
     (t, p) ∈ l /\ 0 < t /\ dpos p = true /\ forall x, x ∈ l -> x.1 <= t).
Proof.
  intros Hc Hp. destruct (seen price at_ms) as [[t p]|] eqn:Es.
  - pose proof (cached_seen _ _ _ _ _ Hc Es) as (Hin & Ht & Hd & Hn). pose proof (Hp _ Hin) as Hle. cbn in Hle.
    assert (fresh_price now max_age rank source price at_ms = if (0 <=? now - t) && (now - t <=? max_age) then [(t, rank, source, p)] else []) as ->.
    { unfold seen in Es. destruct price, at_ms; try done. by injection Es as -> ->. }
    rewrite (proj2 (Z.leb_le 0 (now - t))) by lia. cbn [andb]. destruct (Z.leb_spec (now - t) max_age).
    + right. exists t, p. repeat split; (done || lia).
    + left. split; [done|]. intros x Hx. specialize (Hn x Hx). lia.
  - left. rewrite (cached_unseen _ _ _ Hc Es). split; [|by intros x Hx%not_elem_of_nil]. unfold seen in Es. by destruct price, at_ms.
Qed.

Lemma reduction_made m price source t : make_spec (symbol m) (sz_decimals m) = Ok m -> source ∈ ["mark"; "mid"] -> dpos price = true -> 0 < t ->
  make_reduction (MkReduction (symbol m) (sz_decimals m) price source t) = Ok (MkReduction (symbol m) (sz_decimals m) price source t).
Proof.
  intros Hm Hs Hp Ht. unfold make_reduction. cbn [rd_symbol rd_sz_decimals price_source reference_px price_observed_ms]. rewrite Hm.
  cbn [mbind res_bind]. rewrite bool_decide_true by done. unfold validate_price_pair, validate_observed_ms. rewrite Hp.
  rewrite (proj2 (Z.ltb_lt 0 t)) by done. done.
Qed.

(** What a reduction gets, or why it gets nothing. *)
Definition newest_fresh (log : list Observation) (s : string) (now max_age : Z) (source : string) (t : Z) (price : dec) : Prop :=
  t <= now <= t + max_age /\ (t, price) ∈ prices (if bool_decide (source = "mark") then ob_mark else ob_mid) s log /\
  forall x, x ∈ prices ob_mark s log ++ prices ob_mid s log -> x.1 <= t.

(** A risk reduction is priced with the newest price that was observed.  Over any sequence
    of observations (accepted or refused), as long as none is from the future,
    [reduction_context] gives the frozen precision of the market and the price of its latest
    accepted mark or mid observation, no older than [max_age_ms]; and it refuses exactly when
    every observed price of the market is older than that. *)
Theorem reduction_price_newest log p symbolv m now max_age :
  observed log p -> manifest_market (pv_manifest p) symbolv = Ok m -> make_spec (symbol m) (sz_decimals m) = Ok m ->
  0 < now -> 0 <= max_age -> Forall (fun o => ob_ms o <= now) log ->
  match reduction_context symbolv now max_age p with
  | Ok c => rd_symbol c = symbol m /\ rd_sz_decimals c = sz_decimals m /\ 
      newest_fresh log (symbol m) now max_age (price_source c) (price_observed_ms c) (reference_px c)
  | Raise _ => forall x, x ∈ prices ob_mark (symbol m) log ++ prices ob_mid (symbol m) log -> max_age < now - x.1
  end.
Proof.
  intros Ho Hm Hs Hnow Hage Hf. pose proof (observed_ok _ _ Ho (symbol m)) as [H1 H2].
  assert (forall kind x, x ∈ prices kind (symbol m) log -> x.1 <= now) as Hpast.
  { intros kind x (o & Hin & Hx)%list_elem_of_omap. pose proof (proj1 (list.Forall_forall _ _) Hf o Hin).
    destruct (bool_decide _); [|done]. destruct (kind o); [|done]. by injection Hx as <-. }
  unfold reduction_context. rewrite Hm. cbn [mbind res_bind]. unfold validate_observed_ms, check_that.
  rewrite (proj2 (Z.ltb_lt 0 now)), (proj2 (Z.leb_le 0 max_age)) by done. cbn [mbind res_bind].
  destruct (contexts p !! symbol m) as [c|]; cbn [mbind option_bind] in H1, H2.
  - assert (forall t q source kind, source ∈ ["mark"; "mid"] -> kind = (if bool_decide (source = "mark") then ob_mark else ob_mid) ->
      dpos q = true -> 0 < t -> t <= now <= t + max_age -> (t, q) ∈ prices kind (symbol m) log ->
      (forall x, x ∈ prices ob_mark (symbol m) log -> x.1 <= t) -> (forall x, x ∈ prices ob_mid (symbol m) log -> x.1 <= t) ->
      match make_reduction (MkReduction (symbol m) (sz_decimals m) q source t) with
      | Ok c => rd_symbol c = symbol m /\ rd_sz_decimals c = sz_decimals m /\
          newest_fresh log (symbol m) now max_age (price_source c) (price_observed_ms c) (reference_px c)
      | Raise _ => forall x, x ∈ prices ob_mark (symbol m) log ++ prices ob_mid (symbol m) log -> max_age < now - x.1
      end) as Hmade.
    { intros t q source kind Hsrc -> Hq Ht Hfr Hin Hn1 Hn2. rewrite reduction_made by done. cbn. split; [done|]. split; [done|].
      split; [done|]. split; [done|]. intros x [Hx|Hx]%elem_of_app; auto. }
    destruct (candidate_cases now max_age 1 "mark" _ _ _ H1 (Hpast ob_mark)) as [[-> Ha1]|(t1 & q1 & -> & Hf1 & Hi1 & Hp1 & Hd1 & Hn1)],
      (candidate_cases now max_age 0 "mid" _ _ _ H2 (Hpast ob_mid)) as [[-> Ha2]|(t2 & q2 & -> & Hf2 & Hi2 & Hp2 & Hd2 & Hn2)]; cbn [app].
    + intros x [Hx|Hx]%elem_of_app; auto.
    + apply (Hmade t2 q2 "mid" ob_mid); auto; [set_solver|]. intros x Hx. specialize (Ha1 x Hx). lia.
    + apply (Hmade t1 q1 "mark" ob_mark); auto; [set_solver|]. intros x Hx. specialize (Ha2 x Hx). lia.
    + rewrite newest_pair. destruct (Z.ltb_spec t1 t2).
      * apply (Hmade t2 q2 "mid" ob_mid); auto; [set_solver|]. intros x Hx. specialize (Hn1 x Hx). lia.
      * apply (Hmade t1 q1 "mark" ob_mark); auto; [set_solver|]. intros x Hx. specialize (Hn2 x Hx). lia.
  - intros x. rewrite (cached_unseen _ _ _ H1), (cached_unseen _ _ _ H2) by done. by intros ?%not_elem_of_nil.
Qed.

(** * Example *)

Definition example_provider : Provider := make_provider (MkManifest 1 "mainnet" 1 [""] [MkSpec "BTC" 5] "").
Definition marked_provider : Provider := fst (observe (JStr "BTC") 100 (JStr "60000.5") (JStr "60000") example_provider).
Definition both_provider : Provider := fst (observe (JStr "BTC") 200 JNull (JStr "60001") marked_provider).
Definition example_log : list Observation :=
  [MkObservation "BTC" 100 (Some (Dec false 600005 (-1))) (Some (Dec false 60000 0)); MkObservation "BTC" 200 None (Some (Dec false 60001 0))].

Lemma example_observed : observed example_log both_provider.
Proof.
  eapply (observed_accepted [MkObservation "BTC" 100 (Some (Dec false 600005 (-1))) (Some (Dec false 60000 0))] marked_provider
    (JStr "BTC") 200 JNull (JStr "60001") both_provider _ (MkSpec "BTC" 5)); [|vm_compute; reflexivity..].
  eapply (observed_accepted [] example_provider (JStr "BTC") 100 (JStr "60000.5") (JStr "60000") marked_provider _ (MkSpec "BTC" 5));
    [apply observed_new|vm_compute; reflexivity..].
Qed.

(** After 250 milliseconds the mid is the newest price; after a minute none is fresh. *)
Lemma reduction_price_newest_witness :
  (exists c, reduction_context (JStr "BTC") 250 1000 both_provider = Ok c /\ price_observed_ms c = 200 /\
     newest_fresh example_log "BTC" 250 1000 (price_source c) (price_observed_ms c) (reference_px c)) /\
  (exists e, reduction_context (JStr "BTC") 60000 1000 both_provider = Raise e).
Proof.
  pose proof (reduction_price_newest example_log both_provider (JStr "BTC") (MkSpec "BTC" 5) 250 1000 example_observed) as H.
  destruct (reduction_context (JStr "BTC") 250 1000 both_provider) as [c|e] eqn:E; [|vm_compute in E; discriminate E].
  split; [|vm_compute; eexists; reflexivity].
  exists c. split; [reflexivity|]. split; [clear H; vm_compute in E; injection E as <-; reflexivity|].
  apply H; [vm_compute; reflexivity|vm_compute; reflexivity|lia|lia|vm_compute; repeat constructor; discriminate].
Defined.
