(* ===== verification/MarketStream.v ===== *)
(** market_stream.py: depth and context of the active markets, and the plan of one
    immediate-or-cancel order against a snapshot.

    The stream is a record; methods that assign to it are computations over it
    which keep the assignments made before an exception.  The maps are never
    iterated, so they are finite maps without an order. *)

From S2P Require Import Prelude PyDecimal PyText Models Markets Precision AccountParsing MarketCatalog.
From Stdlib Require Import Ascii.

Open Scope Z_scope.

Definition market_error {A} (msg : string) : res A := Raise (MarketStreamError msg).

(** * Subscriptions *)

Definition feed_spec (kind market : string) : json := JObj [("type", JStr kind); ("coin", JStr market)].

(** [_subscription_specs] *)
Definition subscription_specs (markets : list string) : list json :=
  concat ((fun m => [feed_spec "activeAssetCtx" m; feed_spec "l2Book" m; feed_spec "bbo" m])
            <$> py_sorted str_leb markets).

Record MarketSubscriptionChange := MkChange { added : list string; removed : list string }.

Definition subscribe (c : MarketSubscriptionChange) : list json := subscription_specs (added c).
Definition unsubscribe (c : MarketSubscriptionChange) : list json := subscription_specs (removed c).

(** * Snapshots *)

Record DepthLevel := MkLevel { level_price : dec; level_size : dec; order_count : option Z }.

Record MarketSnapshot := MkMarketSnapshot {
  sn_market : string;
  sn_catalog_revision : string;
  sn_asset_id : Z;
  sn_sz_decimals : Z;
  sn_max_leverage : Z;
  sn_oracle_px : dec;
  sn_mark_px : dec;
  sn_bids : list DepthLevel;
  sn_asks : list DepthLevel;
  book_time_ms : Z;
  context_received_ms : Z;
  book_received_ms : Z;
  bbo_time_ms : Z;
  bbo_received_ms : Z;
  sn_epoch : Z;
}.

Definition best_or_none (levels : list DepthLevel) : option dec := level_price <$> head levels.

Definition best_bid (v : MarketSnapshot) : res dec :=
  match best_or_none (sn_bids v) with Some p => Ok p | None => market_error "no executable bid" end.
Definition best_ask (v : MarketSnapshot) : res dec :=
  match best_or_none (sn_asks v) with Some p => Ok p | None => market_error "no executable ask" end.

Definition size_quantum (v : MarketSnapshot) : dec := dscale1 (- sn_sz_decimals v).

(** [0 <= now - t <= max_age] *)
Definition recent (now_ms max_age_ms t : Z) : bool := (0 <=? now_ms - t) && (now_ms - t <=? max_age_ms).

(** [MarketSnapshot.is_fresh] *)
Definition market_is_fresh (now_ms max_age_ms epoch : Z) (activity : option Z) (v : MarketSnapshot) : res bool :=
  if max_age_ms <=? 0 then Raise (ValueError "freshness max age must be positive") else
  if negb (epoch =? sn_epoch v) then Ok false else
  let received := recent now_ms max_age_ms (context_received_ms v) && recent now_ms max_age_ms (book_received_ms v)
                  && recent now_ms max_age_ms (bbo_received_ms v) in
  match activity with
  | None => Ok (received && recent now_ms max_age_ms (book_time_ms v) && recent now_ms max_age_ms (bbo_time_ms v))
  | Some activity_ms =>
      Ok (recent now_ms max_age_ms activity_ms && received
          && (book_time_ms v <=? now_ms) && (bbo_time_ms v <=? now_ms)
          && (Z.abs (book_received_ms v - book_time_ms v) <=? max_age_ms)
          && (Z.abs (bbo_received_ms v - bbo_time_ms v) <=? max_age_ms))
  end.

(** * The plan of an order *)

Record ExecutableIoc := MkExecutable {
  ioc_size : dec;
  visible_size : dec;
  limit_px : dec;
  estimated_vwap : dec;
  estimated_notional : dec;
}.

(** [x is not None and (not x.is_finite() or bad(x))] *)
Definition bad_optional (bad : dec -> bool) (x : option pydec) : bool :=
  match x with None => false | Some (Fin d) => bad d | Some _ => true end.

Definition side_levels (is_buy : bool) (v : MarketSnapshot) : list DepthLevel := if is_buy then sn_asks v else sn_bids v.

(** The limit, or nothing where the side has no quote to anchor it. *)
Definition ioc_limit (v : MarketSnapshot) (is_buy : bool) (max_slippage_bps hard_limit : option pydec)
    : res (option dec) :=
  match max_slippage_bps with
  | None =>
      match hard_limit with
      | Some (Fin h) => Ok (Some h)
      | _ => Raise (ValueError "IOC requires a BBO buffer or a hard economic limit")
      end
  | Some slippage =>
      match side_levels is_buy v with
      | [] => Ok None
      | best :: _ =>
          limit ← aggressive_ioc_price (Fin (level_price best)) is_buy slippage (sn_sz_decimals v);
          Ok (Some match hard_limit with
                   | Some (Fin h) => if is_buy then dmin limit h else dmax limit h
                   | _ => limit
                   end)
      end
  end.

Definition inside_limit (is_buy : bool) (limit : dec) (l : DepthLevel) : bool :=
  if is_buy then dleb (level_price l) limit else dleb limit (level_price l).

(** Walk the levels until the visible size is consumed: notional and remainder. *)
Fixpoint walk_depth (levels : list DepthLevel) (notional remaining : dec) : dec * dec :=
  match levels with
  | [] => (notional, remaining)
  | l :: t =>
      let consumed := dmin remaining (level_size l) in
      let notional := dadd notional (dmul consumed (level_price l)) in
      let remaining := dsub remaining consumed in
      if deqb remaining dzero then (notional, remaining) else walk_depth t notional remaining
  end.

Definition executable_ioc (v : MarketSnapshot) (is_buy : bool) (requested_size : pydec)
    (max_slippage_bps hard_limit : option pydec) : res (option ExecutableIoc) :=
  match requested_size with
  | Fin req =>
      if dleb req dzero then Raise (ValueError "requested IOC size must be finite and positive") else
      if bad_optional (fun s => dltb s dzero || dleb (dint 10000) s) max_slippage_bps
      then Raise (ValueError "IOC slippage must be finite and between 0 and 10000 bps") else
      if bad_optional (fun h => dleb h dzero) hard_limit
      then Raise (ValueError "IOC hard limit must be finite and positive") else
      lim ← ioc_limit v is_buy max_slippage_bps hard_limit;
      match lim with
      | None => Ok None
      | Some limit =>
          let eligible := List.filter (inside_limit is_buy limit) (side_levels is_buy v) in
          let available := dsum (level_size <$> eligible) in
          submitted ← quantize_size (Fin req) (sn_sz_decimals v);
          visible ← quantize_size (Fin (dmin submitted available)) (sn_sz_decimals v);
          if dleb submitted dzero || dleb visible dzero then Ok None else
          let '(notional, remaining) := walk_depth eligible dzero visible in
          if negb (deqb remaining dzero)
          then market_error "eligible depth changed during pure IOC calculation" else
          vwap ← ddiv notional visible;
          Ok (Some (MkExecutable submitted visible limit vwap notional))
      end
  | _ => Raise (ValueError "requested IOC size must be finite and positive")
  end.

(** * Frames *)

Record Context_ := MkContext { oracle_px : dec; mark_px : dec; ctx_received_ms : Z }.
Record Book := MkBook { bids : list DepthLevel; asks : list DepthLevel; book_exchange_ms : Z; bk_received_ms : Z }.
Record Bbo := MkBbo { bid : option DepthLevel; ask : option DepthLevel; bbo_exchange_ms : Z; bo_received_ms : Z }.

(** [_positive_int] *)
Definition positive_time (value : json) : res Z :=
  match value with
  | JBool _ => market_error "must be a positive integer"
  | _ =>
      match int_text value with
      | Some parsed => if parsed <=? 0 then market_error "must be a positive integer" else Ok parsed
      | None => market_error "must be a positive integer"
      end
  end.

(** One row of a side. *)
Definition parse_level (row : json) : res DepthLevel :=
  match row with
  | JObj o =>
      match obj_get "px" o, obj_get "sz" o with
      | Some px, Some sz =>
          price ← parse_decimal px;
          size ← parse_decimal sz;
          if dleb price dzero || dleb size dzero then market_error "l2Book level must be finite and positive" else
          count ← match obj_field "n" o with
                  | JNull => Ok None
                  | n => Some <$> positive_time n
                  end;
          Ok (MkLevel price size count)
      | _, _ => market_error "l2Book level is missing px or sz"
      end
  | _ => market_error "l2Book level must be an object"
  end.

(** Each price beats the next one: from the best quote outwards. *)
Definition outward (is_bid : bool) (a b : dec) : bool := if is_bid then dltb b a else dltb a b.

Fixpoint all_outward (is_bid : bool) (prices : list dec) : bool :=
  match prices with
  | a :: (b :: _) as t => outward is_bid a b && all_outward is_bid t
  | _ => true
  end.

Definition parse_levels (value : json) (is_bid : bool) : res (list DepthLevel) :=
  match value with
  | JList rows =>
      levels ← map_res parse_level rows;
      if all_outward is_bid (level_price <$> levels) then Ok levels
      else market_error "l2Book side is not strictly ordered"
  | _ => market_error "l2Book side must be a list"
  end.

(** [left and right and left[0].price >= right[0].price] *)
Definition locked (best_bid best_ask : option dec) : bool :=
  match best_bid, best_ask with Some b, Some a => dleb a b | _, _ => false end.

Definition parse_context (data : list (string * json)) (received_ms : Z) : res Context_ :=
  match default (JObj data) (obj_get "ctx" data) with
  | JObj raw =>
      match obj_get "oraclePx" raw, obj_get "markPx" raw with
      | Some o, Some m =>
          oracle ← parse_decimal o;
          mark ← parse_decimal m;
          if dleb oracle dzero || dleb mark dzero then market_error "context prices must be positive" else
          Ok (MkContext oracle mark received_ms)
      | _, _ => market_error "activeAssetCtx is missing oraclePx or markPx"
      end
  | _ => market_error "activeAssetCtx ctx must be an object"
  end.

Definition parse_book (data : list (string * json)) (received_ms : Z) : res Book :=
  match obj_field "levels" data with
  | JList [raw_bids; raw_asks] =>
      bids ← parse_levels raw_bids true;
      asks ← parse_levels raw_asks false;
      if locked (best_or_none bids) (best_or_none asks) then market_error "l2Book is locked or crossed" else
      time ← positive_time (obj_field "time" data);
      Ok (MkBook bids asks time received_ms)
  | _ => market_error "l2Book levels must contain exactly bid and ask arrays"
  end.

Definition parse_bbo_level (value : json) (is_bid : bool) : res (option DepthLevel) :=
  match value with
  | JNull => Ok None
  | _ =>
      levels ← parse_levels (JList [value]) is_bid;
      match levels with l :: _ => Ok (Some l) | [] => Raise (ValueError "list index out of range") end
  end.

Definition parse_bbo (data : list (string * json)) (received_ms : Z) : res Bbo :=
  match obj_field "bbo" data with
  | JList [raw_bid; raw_ask] =>
      bid ← parse_bbo_level raw_bid true;
      ask ← parse_bbo_level raw_ask false;
      if locked (level_price <$> bid) (level_price <$> ask) then market_error "BBO is locked or crossed" else
      time ← positive_time (obj_field "time" data);
      Ok (MkBbo bid ask time received_ms)
  | _ => market_error "bbo must contain exactly bid and ask levels"
  end.

(** The latest quote in front of the levels behind it. *)
Definition merge_bbo (levels : list DepthLevel) (bbo : option DepthLevel) (is_bid : bool) : list DepthLevel :=
  match bbo with
  | None => []
  | Some b => b :: List.filter (fun l => outward is_bid (level_price b) (level_price l)) levels
  end.

(** * The stream *)

Record MarketStream := MkMarketStream {
  catalog : CatalogRevision;
  ms_epoch : Z;
  ms_activity : Z;
  active : gset string;
  contexts : gmap string Context_;
  books : gmap string Book;
  bbos : gmap string Bbo;
}.

Definition set_feeds (a : gset string) (c : gmap string Context_) (b : gmap string Book) (q : gmap string Bbo)
    (s : MarketStream) : MarketStream := MkMarketStream (catalog s) (ms_epoch s) (ms_activity s) a c b q.

Definition sorted_set (s : gset string) : list string := py_sorted str_leb (elements s).

Definition active_markets (s : MarketStream) : list string := sorted_set (active s).

Definition stream_subscriptions (s : MarketStream) : list json := subscription_specs (active_markets s).

(** [catalog_market]: the entry of a market that may be traded. *)
Definition catalog_market (market : string) (c : CatalogRevision) : res CatalogMarket :=
  canonical ← canonical_market_symbol (JStr market);
  spec ← revision_market canonical c;
  match spec with
  | None => market_error "market is absent from the pinned catalog"
  | Some spec =>
      if is_delisted spec || bool_decide (readiness spec = DELISTED) then market_error "market is delisted" else
      if bool_decide (readiness spec = UNTRUSTED) then market_error "market has untrusted catalog identity"
      else Ok spec
  end.

(** [{market for market in before if ...}] of [replace_catalog]. *)
Definition executable_step (c : CatalogRevision) (acc : gset string) (market : string) : res (gset string) :=
  spec ← revision_market market c;
  Ok match spec with
     | Some m =>
         if is_delisted m || bool_decide (readiness m ∈ [DELISTED; UNTRUSTED]) then acc else {[market]} ∪ acc
     | None => acc
     end.

Definition drop_feeds {V} (l : list string) (m : gmap string V) : gmap string V := foldr delete m l.

(** Leave [requested] active and drop the feeds of what is removed. *)
Definition adopt_active (requested : gset string) (removed : list string) (s : MarketStream) : MarketStream :=
  set_feeds requested (drop_feeds removed (contexts s)) (drop_feeds removed (books s)) (drop_feeds removed (bbos s)) s.

Definition set_catalog (c : CatalogRevision) (s : MarketStream) : MarketStream :=
  MkMarketStream c (ms_epoch s) (ms_activity s) (active s) (contexts s) (books s) (bbos s).

Definition replace_catalog (c : CatalogRevision) : ST MarketStream MarketSubscriptionChange :=
  let! _ := jmodify (set_catalog c) in
  let! executable := jquery (fun s => fold_res (executable_step c) (elements (active s)) ∅) in
  let! gone := jquery (fun s => Ok (sorted_set (active s ∖ executable))) in
  let! _ := jmodify (adopt_active executable gone) in
  jret (MkChange [] gone).

Definition request_step (c : CatalogRevision) (acc : gset string) (market : string) : res (gset string) :=
  canonical ← canonical_market_symbol (JStr market);
  _ ← catalog_market canonical c;
  Ok ({[canonical]} ∪ acc).

Definition set_active_markets (markets : list string) : ST MarketStream MarketSubscriptionChange :=
  let! requested := jquery (fun s => fold_res (request_step (catalog s)) markets ∅) in
  let! change := jquery (fun s => Ok (MkChange (sorted_set (requested ∖ active s)) (sorted_set (active s ∖ requested)))) in
  let! _ := jmodify (adopt_active requested (removed change)) in
  jret change.

(** [MarketStream(catalog=..., active_markets=...)] *)
Definition make_market_stream (c : CatalogRevision) (markets : list string) : res MarketStream :=
  let '(s, r) := set_active_markets markets (MkMarketStream c 0 0 ∅ ∅ ∅ ∅) in
  _ ← r; Ok s.

Definition ms_begin_connection (received_ms : Z) : ST MarketStream Z :=
  let! _ := jlift (if received_ms <? 0 then market_error "connection timestamp cannot be negative" else Ok tt) in
  let! _ := jmodify (fun s => MkMarketStream (catalog s) (ms_epoch s + 1) received_ms (active s) ∅ ∅ ∅) in
  jquery (fun s => Ok (ms_epoch s)).

(** [_validate_frame] *)
Definition ms_validate_frame (epoch received_ms : Z) (s : MarketStream) : res unit :=
  if ms_epoch s =? 0 then market_error "begin_connection must be called before applying frames" else
  if negb (epoch =? ms_epoch s) then market_error "stale connection epoch" else
  if received_ms <=? 0 then market_error "frame receive timestamp must be positive" else
  if received_ms <? ms_activity s then market_error "frame receive timestamp moved backwards" else Ok tt.

Definition set_ms_activity (received_ms : Z) (s : MarketStream) : MarketStream :=
  MkMarketStream (catalog s) (ms_epoch s) received_ms (active s) (contexts s) (books s) (bbos s).

Definition ms_note_activity (epoch received_ms : Z) : ST MarketStream unit :=
  let! _ := jquery (ms_validate_frame epoch received_ms) in jmodify (set_ms_activity received_ms).

(** [snapshot] of an active market: nothing until every feed has spoken. *)
Definition market_snapshot (market : string) (s : MarketStream) : res (option MarketSnapshot) :=
  canonical ← canonical_market_symbol (JStr market);
  if negb (bool_decide (canonical ∈ active s)) then market_error "market is not active" else
  spec ← catalog_market canonical (catalog s);
  match contexts s !! canonical, books s !! canonical, bbos s !! canonical with
  | Some context, Some book, Some bbo =>
      let bs := merge_bbo (bids book) (bid bbo) true in
      let aks := merge_bbo (asks book) (ask bbo) false in
      if locked (best_or_none bs) (best_or_none aks) then market_error "latest BBO is locked or crossed" else
      Ok (Some (MkMarketSnapshot canonical (revision_id (catalog s)) (asset_id spec) (cm_sz_decimals spec)
                  (cm_max_leverage spec) (oracle_px context) (mark_px context) bs aks
                  (book_exchange_ms book) (ctx_received_ms context) (bk_received_ms book)
                  (bbo_exchange_ms bbo) (bo_received_ms bbo) (ms_epoch s)))
  | _, _, _ => Ok None
  end.

Definition fresh_snapshot (market : string) (now_ms max_age_ms : Z) (s : MarketStream) : res (option MarketSnapshot) :=
  v ← market_snapshot market s;
  match v with
  | None => Ok None
  | Some v =>
      fresh ← market_is_fresh now_ms max_age_ms (ms_epoch s) (Some (ms_activity s)) v;
      Ok (if fresh : bool then Some v else None)
  end.

(** [book.time < prior.time] for the entry a new one replaces. *)
Definition backwards {V} (time : V -> Z) (new : Z) (prior : option V) : bool :=
  match prior with Some p => new <? time p | None => false end.

Definition put_context (m : string) (c : Context_) (s : MarketStream) : MarketStream :=
  set_feeds (active s) (<[m := c]> (contexts s)) (books s) (bbos s) s.
Definition put_book (m : string) (b : Book) (s : MarketStream) : MarketStream :=
  set_feeds (active s) (contexts s) (<[m := b]> (books s)) (bbos s) s.
Definition put_bbo (m : string) (q : Bbo) (s : MarketStream) : MarketStream :=
  set_feeds (active s) (contexts s) (books s) (<[m := q]> (bbos s)) s.

(** The quote at the top of a book. *)
Definition top_of_book (b : Book) (received_ms : Z) : Bbo :=
  MkBbo (head (bids b)) (head (asks b)) (book_exchange_ms b) received_ms.

Definition apply_l2_book (market : string) (data : list (string * json)) (received_ms : Z) : ST MarketStream unit :=
  let! book := jlift (parse_book data received_ms) in
  let! _ := jquery (fun s => if backwards book_exchange_ms (book_exchange_ms book) (books s !! market)
                             then market_error "L2 book moved backwards in exchange time" else Ok tt) in
  let! _ := jmodify (put_book market book) in
  jmodify (fun s => if backwards bbo_exchange_ms (book_exchange_ms book) (bbos s !! market) then s
                    else put_bbo market (top_of_book book received_ms) s).

Definition apply_bbo (market : string) (data : list (string * json)) (received_ms : Z) : ST MarketStream unit :=
  let! bbo := jlift (parse_bbo data received_ms) in
  let! _ := jquery (fun s => if backwards bbo_exchange_ms (bbo_exchange_ms bbo) (bbos s !! market)
                             then market_error "BBO moved backwards in exchange time" else Ok tt) in
  jmodify (put_bbo market bbo).

Definition market_dispatch (channel market : string) (data : list (string * json)) (received_ms : Z)
    : ST MarketStream unit :=
  if bool_decide (channel = "activeAssetCtx")
  then let! context := jlift (parse_context data received_ms) in jmodify (put_context market context)
  else if bool_decide (channel = "l2Book") then apply_l2_book market data received_ms
  else if bool_decide (channel = "bbo") then apply_bbo market data received_ms
  else jraise (MarketStreamError "unsupported market stream channel").

(** The [except] clauses of [apply]. *)
Definition market_frame_error (e : exn) : exn :=
  match e with
  | MarketStreamError _ => e
  | _ => if is_parse_error e then MarketStreamError "invalid frame" else e
  end.

Definition market_guarded {A} (m : ST MarketStream A) : ST MarketStream A := fun s =>
  match m s with
  | (s', Raise e) => (s', Raise (market_frame_error e))
  | r => r
  end.

Definition apply_market_frame (message : json) (epoch received_ms : Z) : ST MarketStream (option MarketSnapshot) :=
  let! _ := jquery (ms_validate_frame epoch received_ms) in
  match message with
  | JObj m =>
      let channel := str_or_empty (obj_field "channel" m) in
      match obj_field "data" m with
      | JObj data =>
          let! market := jlift (catch (canonical_market_symbol (obj_field "coin" data))
                                  (fun e => match e with TypeError _ => true | _ => is_value_error e end)
                                  (fun _ => market_error "market frame has invalid coin")) in
          let! _ := jquery (fun s => if bool_decide (market ∈ active s) then Ok tt
                                     else market_error "received frame for inactive market") in
          let! _ := jquery (fun s => catalog_market market (catalog s)) in
          let! _ := market_guarded (market_dispatch channel market data received_ms) in
          let! _ := jmodify (set_ms_activity received_ms) in
          jquery (market_snapshot market)
      | _ => jraise (MarketStreamError "market stream data must be an object")
      end
  | _ => jraise (MarketStreamError "market stream message must be an object")
  end.
