(* ===== verification/DepthFacts.v ===== *)
(** The plan of an immediate-or-cancel order: the 28-digit walk over the levels is
    the exact walk over the depth, as long as the digits of the book fit. *)

From S2P Require Import Prelude PyDecimal DecimalFacts PyText Models Markets Precision MarketCatalog MarketStream.
From Stdlib Require Import QArith Qabs Qminmax Lqa.

Open Scope Z_scope.

(** * The reference: depth and cost as rational functions *)

Fixpoint depth_size (levels : list DepthLevel) : Q :=
  match levels with [] => 0%Q | l :: t => (dval (level_size l) + depth_size t)%Q end.

Fixpoint depth_notional (levels : list DepthLevel) : Q :=
  match levels with [] => 0%Q | l :: t => (dval (level_size l) * dval (level_price l) + depth_notional t)%Q end.

(** What [want] costs when the best levels are taken first. *)
Fixpoint depth_cost (want : Q) (levels : list DepthLevel) : Q :=
  match levels with
  | [] => 0%Q
  | l :: t =>
      let taken := Qmin want (dval (level_size l)) in
      (taken * dval (level_price l) + depth_cost (want - taken) t)%Q
  end.

#[export] Instance depth_cost_proper : Proper (Qeq ==> eq ==> Qeq) depth_cost.
Proof.
  intros x y Hxy levels l' <-. revert x y Hxy. induction levels as [|l t IH]; intros x y Hxy; cbn [depth_cost]; cbv zeta; [done|].
  set (s := dval (level_size l)).
  assert (Qmin x s == Qmin y s)%Q as Hm by by rewrite Hxy.
  rewrite (IH (x - Qmin x s) (y - Qmin y s))%Q by (by rewrite Hxy). by rewrite Hm.
Qed.

Definition level_positive (l : DepthLevel) : Prop := (0 < dval (level_price l) /\ 0 < dval (level_size l))%Q.

(** The digits of a side: sizes are multiples of [10 ^ -k], prices of [10 ^ -j], and
    the totals need at most 28 digits. *)
Record exact_depth (k j : Z) (levels : list DepthLevel) : Prop := {
  ed_positive : Forall level_positive levels;
  ed_sizes : Forall (fun l => multiple_of (- k) (dval (level_size l))) levels;
  ed_prices : Forall (fun l => multiple_of (- j) (dval (level_price l))) levels;
  ed_size : (depth_size levels < q10 (28 + - k))%Q;
  ed_notional : (depth_notional levels < q10 (28 + (- k + - j)))%Q;
}.

Lemma depth_nonneg levels : Forall level_positive levels -> (0 <= depth_size levels /\ 0 <= depth_notional levels)%Q.
Proof.
  induction 1 as [|l t [Hp Hs] _ [IH1 IH2]]; cbn; [split; lra|].
  assert (0 < dval (level_size l) * dval (level_price l))%Q by nra. split; lra.
Qed.

Lemma exact_depth_cons k j l t : exact_depth k j (l :: t) -> exact_depth k j t.
Proof.
  intros [Hp Hs Hr H1 H2]. inversion_clear Hs. inversion_clear Hr.
  inversion_clear Hp as [|? ? [Hl1 Hl2] Ht]. cbn in H1, H2.
  assert (0 < dval (level_size l) * dval (level_price l))%Q by nra. split; try done; lra.
Qed.

Lemma depth_filter p levels : Forall level_positive levels ->
  (depth_size (List.filter p levels) <= depth_size levels /\
   depth_notional (List.filter p levels) <= depth_notional levels)%Q.
Proof.
  induction 1 as [|l t [Hp Hs] _ [IH1 IH2]]; cbn [List.filter depth_size depth_notional]; [split; lra|].
  assert (0 < dval (level_size l) * dval (level_price l))%Q by nra.
  destruct (p l); cbn [depth_size depth_notional]; split; lra.
Qed.

Lemma Forall_lfilter {A} (P : A -> Prop) p (l : list A) : Forall P l -> Forall P (List.filter p l).
Proof. induction 1; cbn; [done|]. destruct (p x); auto. Qed.

Lemma exact_depth_filter p k j levels : exact_depth k j levels -> exact_depth k j (List.filter p levels).
Proof.
  intros [Hp Hs Hr H1 H2]. destruct (depth_filter p levels Hp) as [L1 L2].
  split; try by apply Forall_lfilter. all: lra.
Qed.

(** * Sums *)

(** The running sum stays exact. *)
Lemma dsum_exact_acc k j levels acc :
  exact_depth k j levels -> multiple_of (- k) (dval acc) -> (0 <= dval acc)%Q ->
  (dval acc + depth_size levels < q10 (28 + - k))%Q ->
  (dval (fold_left dadd (level_size <$> levels) acc) == dval acc + depth_size levels)%Q.
Proof.
  intros Hd. revert acc. induction levels as [|l t IH]; intros acc Hm H0 Hlt; cbn; [ring|].
  cbn in Hlt. pose proof (ed_sizes _ _ _ Hd) as Hs. pose proof (ed_positive _ _ _ Hd) as Hp.
  inversion_clear Hs as [|? ? Hl _]. inversion_clear Hp as [|? ? [_ Hpos] Ht].
  destruct (depth_nonneg t Ht) as [Hsz _].
  assert (dval (dadd acc (level_size l)) == dval acc + dval (level_size l))%Q as E.
  { eapply dadd_on_grid, (on_grid_nonneg (- k)); [by apply multiple_add|lra|apply Qle_refl|lra]. }
  rewrite IH; [by rewrite E; ring|by eapply exact_depth_cons| | |]; rewrite E; [by apply multiple_add|lra|lra].
Qed.

Lemma dsum_exact k j levels : exact_depth k j levels -> (dval (dsum (level_size <$> levels)) == depth_size levels)%Q.
Proof.
  intros H. unfold dsum. rewrite (dsum_exact_acc k j), dval_zero; try done; rewrite ?dval_zero; try lra.
  - apply multiple_zero.
  - pose proof (ed_size _ _ _ H). lra.
Qed.

(** * The walk *)

Lemma depth_cost_zero levels : Forall level_positive levels -> (depth_cost 0 levels == 0)%Q.
Proof.
  induction 1 as [|l t [_ Hs] _ IH]; cbn; [done|].
  assert (Qmin 0 (dval (level_size l)) == 0)%Q as E by (apply Q.min_l; lra).
  rewrite E. assert (0 - 0 == 0)%Q as Ez by ring. rewrite Ez, IH. ring.
Qed.

Lemma walk_exact k j levels n r :
  exact_depth k j levels -> multiple_of (- k) (dval r) -> (0 < dval r)%Q -> (dval r <= depth_size levels)%Q ->
  multiple_of (- k + - j) (dval n) -> (0 <= dval n)%Q ->
  (dval n + depth_notional levels < q10 (28 + (- k + - j)))%Q ->
  let '(n', r') := walk_depth levels n r in
  (dval r' == 0)%Q /\ (dval n' == dval n + depth_cost (dval r) levels)%Q.
Proof.
  intros Hd. revert n r. induction levels as [|l t IH]; intros n r Hr H0 Hle Hn Hn0 Hlt; [cbn in Hle; lra|].
  pose proof (exact_depth_cons _ _ _ _ Hd) as Hdt. destruct Hd as [Hp Hs Hq Hsz _].
  inversion_clear Hp as [|? ? [Hprice Hsize] Ht]. inversion_clear Hs as [|? ? Hms _].
  inversion_clear Hq as [|? ? Hmp _]. destruct (depth_nonneg t Ht) as [Hts Htn].
  cbn [walk_depth depth_cost]; cbv zeta. cbn in Hle, Hlt, Hsz.
  set (s := level_size l) in *. set (p := level_price l) in *.
  set (c := dmin r s).
  assert (dval c == Qmin (dval r) (dval s) /\ multiple_of (- k) (dval c))%Q as [Hc Hmc].
  { unfold c. destruct (dmin_cases r s) as [[-> ?]|[-> ?]]; (split; [|done]); symmetry;
      [by apply Q.min_l|apply Q.min_r; lra]. }
  assert (0 < dval c /\ dval c <= dval r /\ dval c <= dval s)%Q as (Hc0 & Hcr & Hcs).
  { unfold c. destruct (dmin_cases r s) as [[-> ?]|[-> ?]]; repeat split; lra. }
  assert (0 < dval c * dval p /\ dval c * dval p <= dval s * dval p)%Q as [Hcp Hcp'] by (split; nra).
  assert (dval (dmul c p) == dval c * dval p)%Q as Em.
  { apply (dmul_on_grid (- k + - j)), (on_grid_nonneg _ _ (dval s * dval p)); [by apply multiple_mul|lra|lra|lra]. }
  assert (dval (dadd n (dmul c p)) == dval n + dval c * dval p)%Q as En.
  { rewrite <- Em. apply (dadd_on_grid (- k + - j)). rewrite Em.
    apply (on_grid_nonneg _ _ (dval n + dval s * dval p)); [|lra|lra|lra].
    apply multiple_add; [done|by apply multiple_mul]. }
  assert (dval (dsub r c) == dval r - dval c)%Q as Er.
  { apply (dsub_on_grid (- k)), (on_grid_nonneg _ _ (dval r)); [by apply multiple_sub|lra|lra|lra]. }
  destruct (deqb (dsub r c) dzero) eqn:E.
  - apply deqb_spec in E. rewrite dval_zero in E. split; [done|].
    rewrite Er in E. rewrite En, <- Hc, E, depth_cost_zero by done. ring.
  - apply deqb_false in E. rewrite dval_zero, Er in E.
    assert (c = s) as Hcs'.
    { unfold c in *. destruct (dmin_cases r s) as [[Ec ?]|[Ec ?]]; [|done]. rewrite Ec in E. exfalso. apply E. ring. }
    assert (0 < dval r - dval c)%Q as Hpos.
    { destruct (Qlt_le_dec 0 (dval r - dval c)) as [|Hz]; [done|]. exfalso. apply E. lra. }
    assert (dval c == dval s)%Q as Ecs by (by rewrite Hcs'). clear Hcs'.
    specialize (IH Hdt (dadd n (dmul c p)) (dsub r c)).
    destruct (walk_depth t _ _) as [n' r'].
    destruct IH as [IH1 IH2]; try done; rewrite ?En, ?Er; try lra.
    + by apply multiple_sub.
    + apply multiple_add; [done|by apply multiple_mul].
    + split; [done|]. rewrite IH2, En, Er, <- Hc. ring.
Qed.

(** No fill of the walk is worse than a bound all its levels respect. *)
Lemma depth_cost_bound (is_buy : bool) (lim : Q) levels want :
  Forall level_positive levels ->
  Forall (fun l => if is_buy then dval (level_price l) <= lim else lim <= dval (level_price l))%Q levels ->
  (0 <= want)%Q -> (want <= depth_size levels)%Q ->
  (if is_buy then depth_cost want levels <= want * lim else want * lim <= depth_cost want levels)%Q.
Proof.
  intros Hp. revert want. induction Hp as [|l t [Hprice Hsize] Ht IH]; intros want Hb H0 Hle.
  { cbn in *. assert (want == 0)%Q as E by lra. destruct is_buy; rewrite E; lra. }
  inversion_clear Hb as [|? ? Hl Hbt]. cbn [depth_cost]; cbv zeta. cbn in Hle.
  set (c := Qmin want (dval (level_size l))).
  assert (0 <= c /\ c <= want /\ want - c <= depth_size t)%Q as (Hc0 & Hcw & Hrest).
  { unfold c. destruct (Q.min_spec want (dval (level_size l))) as [[? ->]|[? ->]]; repeat split; try lra.
    destruct (depth_nonneg t Ht). lra. }
  specialize (IH (want - c)%Q Hbt ltac:(lra) Hrest).
  destruct is_buy.
  - assert (c * dval (level_price l) <= c * lim)%Q by nra. nra.
  - assert (c * lim <= c * dval (level_price l))%Q by nra. nra.
Qed.

(** * The plan *)

Lemma quantize_size_bounded s k : (Qabs (dval s) <= q10 (26 - k))%Q -> exists r, quantize_size (Fin s) k = Ok r.
Proof.
  intros H. destruct (dis_zero s) eqn:Hz.
  - unfold quantize_size, quantize. rewrite Hz. by eexists.
  - apply quantize_size_ok. pose proof (adjusted_le s _ Hz H). lia.
Qed.

Lemma truncation_nonneg s r e : truncation s r e -> (0 <= s)%Q -> (0 <= r /\ r <= s)%Q.
Proof. intros (_ & H & _) Hs. destruct (H Hs) as (? & ? & _). by split. Qed.

Lemma dval_dmin a b : (dval (dmin a b) == Qmin (dval a) (dval b))%Q.
Proof. destruct (dmin_cases a b) as [[-> H]|[-> H]]; symmetry; [by apply Q.min_l|apply Q.min_r; lra]. Qed.

(** The eligible levels respect the limit. *)
Lemma eligible_inside (is_buy : bool) limit levels :
  Forall (fun l => if is_buy then dval (level_price l) <= dval limit else dval limit <= dval (level_price l))%Q
    (List.filter (inside_limit is_buy limit) levels).
Proof.
  induction levels as [|l t IH]; cbn; [constructor|].
  destruct (inside_limit is_buy limit l) eqn:E; [|done]. constructor; [|done].
  unfold inside_limit in E. destruct is_buy; by apply dleb_spec.
Qed.

(** The two sizes of a plan. *)
Lemma plan_sizes req available sz :
  (0 < dval req)%Q -> (dval req <= q10 (26 - sz))%Q -> (0 <= dval available)%Q ->
  exists submitted visible, quantize_size (Fin req) sz = Ok submitted /\
    quantize_size (Fin (dmin submitted available)) sz = Ok visible /\
    truncation (dval req) (dval submitted) (- sz) /\
    truncation (Qmin (dval submitted) (dval available)) (dval visible) (- sz) /\
    (0 <= dval submitted)%Q /\ (0 <= dval visible)%Q /\ (dval visible <= dval submitted)%Q /\
    (dval visible <= dval available)%Q.
Proof.
  intros H0 Hmax Ha.
  destruct (quantize_size_bounded req sz) as [submitted Hs]; [rewrite Qabs_pos; lra|].
  pose proof (quantize_size_truncation _ _ _ Hs) as Ts.
  destruct (truncation_nonneg _ _ _ Ts) as [Hs0 Hsr]; [lra|].
  assert (0 <= dval (dmin submitted available) /\ dval (dmin submitted available) <= dval submitted
          /\ dval (dmin submitted available) <= dval available)%Q as (Hm0 & Hms & Hma).
  { destruct (dmin_cases submitted available) as [[-> ?]|[-> ?]]; repeat split; lra. }
  destruct (quantize_size_bounded (dmin submitted available) sz) as [visible Hv]; [rewrite Qabs_pos; lra|].
  pose proof (quantize_size_truncation _ _ _ Hv) as Tv.
  destruct (truncation_nonneg _ _ _ Tv Hm0) as [Hv0 Hvm].
  exists submitted, visible. split_and!; try done; try lra. by rewrite dval_dmin in Tv.
Qed.

(** C22. The plan of an order is the exact walk over the visible depth.  For a side
    whose digits fit the context and a request inside it, [executable_ioc] never
    raises, in particular never finds that the depth "changed"; the submitted
    size is the request truncated to the lot; the visible size is the truncated
    part of it that the levels inside the limit hold, and without any there is no
    plan; the notional is exactly what the reference walk [depth_cost] charges
    for it, the average price its quotient up to one rounding, and no unit is
    planned beyond the limit. *)
Theorem executable_ioc_exact v (is_buy : bool) req slip hard limit k j :
  exact_depth k j (side_levels is_buy v) -> 0 <= sn_sz_decimals v <= k ->
  (0 < dval req)%Q -> (dval req <= q10 (26 - sn_sz_decimals v))%Q ->
  bad_optional (fun s => dltb s dzero || dleb (dint 10000) s) slip = false ->
  bad_optional (fun h => dleb h dzero) hard = false ->
  ioc_limit v is_buy slip hard = Ok (Some limit) ->
  let eligible := List.filter (inside_limit is_buy limit) (side_levels is_buy v) in
  exists submitted visible : Q,
    truncation (dval req) submitted (- sn_sz_decimals v) /\
    truncation (Qmin submitted (depth_size eligible)) visible (- sn_sz_decimals v) /\
    match executable_ioc v is_buy (Fin req) slip hard with
    | Ok None => (visible == 0)%Q
    | Ok (Some e) =>
        (0 < visible)%Q /\ (dval (ioc_size e) == submitted)%Q /\ (dval (visible_size e) == visible)%Q /\
        limit_px e = limit /\ (dval (estimated_notional e) == depth_cost visible eligible)%Q /\
        near ulp28 (depth_cost visible eligible / visible) (dval (estimated_vwap e)) /\
        (if is_buy then depth_cost visible eligible <= visible * dval limit
         else visible * dval limit <= depth_cost visible eligible)%Q
    | Raise _ => False
    end.
Proof.
  intros Hd Hsz H0 Hmax Hslip Hhard Hlim eligible.
  pose proof (exact_depth_filter (inside_limit is_buy limit) _ _ _ Hd) as He. fold eligible in He.
  pose proof (dsum_exact _ _ _ He) as Hav. pose proof (ed_positive _ _ _ He) as Hpos.
  destruct (depth_nonneg _ Hpos) as [Hdep Hnot].
  destruct (plan_sizes req (dsum (level_size <$> eligible)) (sn_sz_decimals v))
    as (submitted & visible & Hq1 & Hq2 & T1 & T2 & Hs0 & Hv0 & Hvs & Hva); [done|done|lra|].
  rewrite Hav in T2, Hva. exists (dval submitted), (dval visible). split_and!; [done|done|].
  unfold executable_ioc.
  assert (dleb req dzero = false) as -> by (apply dleb_false; rewrite dval_zero; lra).
  rewrite Hslip, Hhard, Hlim. cbn [mbind res_bind]. fold eligible. rewrite Hq1. cbn [mbind res_bind].
  rewrite Hq2. cbn [mbind res_bind].
  destruct (dleb submitted dzero || dleb visible dzero) eqn:Hz.
  { apply orb_true_iff in Hz as [Hz|Hz]; apply dleb_spec in Hz; rewrite dval_zero in Hz; lra. }
  apply orb_false_iff in Hz as [_ Hz]. apply dleb_false in Hz. rewrite dval_zero in Hz.
  pose proof (walk_exact k j eligible dzero visible He) as Hw.
  destruct (walk_depth eligible dzero visible) as [notional remaining].
  destruct Hw as [Hr Hn]; try done; rewrite ?dval_zero; try apply multiple_zero; try lra.
  { apply (multiple_of_mono _ (- sn_sz_decimals v)); [lia|]. apply T2. }
  { pose proof (ed_notional _ _ _ He). lra. }
  assert (deqb remaining dzero = true) as -> by (apply deqb_spec; by rewrite dval_zero).
  cbn [negb]. destruct (ddiv_ok notional visible) as [vwap Hvw].
  { apply not_true_iff_false. intros E. apply dis_zero_spec in E. lra. }
  rewrite Hvw. cbn [mbind res_bind ioc_size visible_size limit_px estimated_notional estimated_vwap].
  rewrite dval_zero, Qplus_0_l in Hn. split_and!; try done.
  - rewrite <- Hn. by apply ddiv_near.
  - apply (depth_cost_bound is_buy); [done|apply eligible_inside|lra|done].
Qed.

(** A buy of 3 against 1 at 100 and 5 at 101, with 200 basis points. *)
Definition example_book : MarketSnapshot :=
  MkMarketSnapshot "BTC" "r1" 0 2 40 (dint 100) (dint 100)
    [MkLevel (dint 99) (dint 4) None] [MkLevel (dint 100) (dint 1) None; MkLevel (dint 101) (dint 5) None] 1 1 1 1 1 1.

Lemma executable_ioc_exact_witness : exists visible e,
  executable_ioc example_book true (Fin (dint 3)) (Some (Fin (dint 200))) None = Ok (Some e) /\
  (0 < visible)%Q /\ (dval (estimated_notional e) == depth_cost visible (sn_asks example_book))%Q.
Proof.
  assert (exact_depth 2 2 (side_levels true example_book)) as Hd.
  { split; cbn; repeat constructor; try by vm_compute.
    all: first [by exists 100 | by exists 500 | by exists 10000 | by exists 10100]. }
  destruct (executable_ioc_exact example_book true (dint 3) (Some (Fin (dint 200))) None (Dec false 10200 (-2)) 2 2
    Hd ltac:(cbn; lia) ltac:(by vm_compute) ltac:(by vm_compute) eq_refl eq_refl ltac:(by vm_compute))
    as (submitted & visible & _ & _ & H).
  destruct (executable_ioc _ _ _ _ _) as [[e|]|] eqn:E; [|by vm_compute in E..].
  destruct H as (Hpos & _ & _ & _ & Hn & _). exists visible, e. by split_and!.
Defined.
