(* ===== verification/MarketStreamFacts.v ===== *)
(** Properties of MarketStream.v: in every reachable state the feeds are ordered,
    uncrossed and owned by executable markets, so a refused frame changes nothing
    and a snapshot is always a book one can trade against. *)

From S2P Require Import Prelude PyDecimal DecimalFacts PyText TextFacts Models Markets MarketFacts AccountParsing FrameErrors Precision MarketCatalog MarketStream DepthFacts.
From Stdlib Require Import QArith Lqa Ascii.

Open Scope Z_scope.

Abbreviation fails := (fails_in false).

Lemma fails_market_error {A} msg : fails (@market_error A msg).
Proof. done. Qed.
#[export] Hint Resolve fails_market_error : fails.

Lemma fails_time v : fails (positive_time v).
Proof. unfold positive_time. solve_fails. Qed.
#[export] Hint Resolve fails_time : fails.

Lemma fails_level v : fails (parse_level v).
Proof. unfold parse_level. solve_fails. Qed.
#[export] Hint Resolve fails_level : fails.

Lemma fails_levels v b : fails (parse_levels v b).
Proof. unfold parse_levels. solve_fails. Qed.
#[export] Hint Resolve fails_levels : fails.

Lemma fails_bbo_level v b : fails (parse_bbo_level v b).
Proof. unfold parse_bbo_level. solve_fails. Qed.
#[export] Hint Resolve fails_bbo_level : fails.

Lemma fails_context d t : fails (parse_context d t).
Proof. unfold parse_context. solve_fails. Qed.

Lemma fails_book d t : fails (parse_book d t).
Proof. unfold parse_book. solve_fails. Qed.

Lemma fails_bbo d t : fails (parse_bbo d t).
Proof. unfold parse_bbo. solve_fails. Qed.
#[export] Hint Resolve fails_context fails_book fails_bbo : fails.

(** * What a parsed frame says *)

Record side_ok (is_bid : bool) (levels : list DepthLevel) : Prop := {
  sd_positive : Forall level_positive levels;
  sd_outward : all_outward is_bid (level_price <$> levels) = true;
}.

Record context_ok (c : Context_) : Prop := {
  co_oracle : (0 < dval (oracle_px c))%Q;
  co_mark : (0 < dval (mark_px c))%Q;
}.

Record book_ok (b : Book) : Prop := {
  bk_bids : side_ok true (bids b);
  bk_asks : side_ok false (asks b);
  bk_time : 0 < book_exchange_ms b;
  bk_uncrossed : locked (best_or_none (bids b)) (best_or_none (asks b)) = false;
}.

Record bbo_ok (q : Bbo) : Prop := {
  bo_bid : forall l, bid q = Some l -> level_positive l;
  bo_ask : forall l, ask q = Some l -> level_positive l;
  bo_time : 0 < bbo_exchange_ms q;
  bo_uncrossed : locked (level_price <$> bid q) (level_price <$> ask q) = false;
}.

Lemma not_dleb_zero d : dleb d dzero = false -> (0 < dval d)%Q.
Proof. intros H. apply dleb_false in H. by rewrite dval_zero in H. Qed.

Lemma positive_time_pos v z : positive_time v = Ok z -> 0 < z.
Proof.
  unfold positive_time. destruct v; try done; destruct (int_text _) as [n|]; try done;
    (destruct (Z.leb_spec n 0) as [|Hn]; [done|]; intros [= <-]; exact Hn).
Qed.

Lemma parse_level_ok v l : parse_level v = Ok l -> level_positive l.
Proof.
  unfold parse_level. destruct v as [| | | | | |o]; try done. destruct (obj_get "px" o), (obj_get "sz" o); try done.
  intros (price & _ & (size & _ & H)%bind_Ok)%bind_Ok.
  destruct (dleb price dzero || dleb size dzero) eqn:E; [done|]. apply orb_false_iff in E as [E1 E2].
  apply bind_Ok in H as (count & _ & [= <-]). split; by apply not_dleb_zero.
Qed.

Lemma parse_levels_ok v b l : parse_levels v b = Ok l -> side_ok b l.
Proof.
  unfold parse_levels. destruct v as [| | | | |rows|]; try done. intros (levels & Hl & H)%bind_Ok.
  destruct (all_outward b _) eqn:E; [|done]. injection H as <-. split; [|done].
  apply map_res_Forall2 in Hl. apply list.Forall_forall. intros x Hx.
  apply list_elem_of_lookup in Hx as [i Hi]. destruct (Forall2_lookup_r _ _ _ _ _ Hl Hi) as (v & _ & Hv).
  by eapply parse_level_ok.
Qed.

Lemma parse_bbo_level_ok v b q l : parse_bbo_level v b = Ok q -> q = Some l -> level_positive l.
Proof.
  unfold parse_bbo_level. intros H ->. destruct v; try done; apply bind_Ok in H as (levels & Hl & H);
    apply parse_levels_ok in Hl as [Hp _]; (destruct Hp; [done|]); by injection H as <-.
Qed.

Lemma parse_context_ok d t c : parse_context d t = Ok c -> context_ok c /\ ctx_received_ms c = t.
Proof.
  unfold parse_context. destruct (default _ _) as [| | | | | |raw]; try done.
  destruct (obj_get "oraclePx" raw), (obj_get "markPx" raw); try done.
  intros (o & _ & (m & _ & H)%bind_Ok)%bind_Ok.
  destruct (dleb o dzero || dleb m dzero) eqn:E; [done|]. apply orb_false_iff in E as [E1 E2].
  injection H as <-. split; [|done]. split; by apply not_dleb_zero.
Qed.

Lemma parse_book_ok d t b : parse_book d t = Ok b -> book_ok b /\ bk_received_ms b = t.
Proof.
  unfold parse_book. destruct (obj_field "levels" d) as [| | | | |l|]; try done.
  destruct l as [|rb [|ra [|]]]; try done.
  intros (bs & Hb & (aks & Ha & H)%bind_Ok)%bind_Ok.
  destruct (locked _ _) eqn:E; [done|]. apply bind_Ok in H as (time & Ht & [= <-]). split; [|done].
  split; cbn; [by eapply parse_levels_ok..|by eapply positive_time_pos|done].
Qed.

Lemma parse_bbo_ok d t q : parse_bbo d t = Ok q -> bbo_ok q /\ bo_received_ms q = t.
Proof.
  unfold parse_bbo. destruct (obj_field "bbo" d) as [| | | | |l|]; try done.
  destruct l as [|rb [|ra [|]]]; try done.
  intros (b & Hb & (a & Ha & H)%bind_Ok)%bind_Ok.
  destruct (locked _ _) eqn:E; [done|]. apply bind_Ok in H as (time & Ht & [= <-]). split; [|done].
  split; cbn; [eauto using parse_bbo_level_ok..|by eapply positive_time_pos|done].
Qed.

Lemma top_of_book_ok b t : book_ok b -> bbo_ok (top_of_book b t).
Proof.
  intros [[Hb _] [Ha _] Ht Hu]. split; cbn; try done.
  - intros l Hl. destruct (bids b); [done|]. injection Hl as <-. by inversion Hb.
  - intros l Hl. destruct (asks b); [done|]. injection Hl as <-. by inversion Ha.
Qed.

(** * Markets of the catalog *)

Definition is_canon (m : string) : Prop := canonical_market_symbol (JStr m) = Ok m.

Lemma canonical_is_canon v m : canonical_market_symbol v = Ok m -> is_canon m.
Proof.
  unfold canonical_market_symbol, canonical_market. intros (i & Hi & ->)%fmap_Ok.
  by apply canonical_market_of, (parse_valid v).
Qed.

Definition tradable (c : CatalogRevision) (m : string) : Prop := is_canon m /\ exists spec, catalog_market m c = Ok spec.

Lemma revision_market_canon m c : is_canon m ->
  revision_market m c = Ok (List.find (fun x => bool_decide (cm_symbol x = m)) (cr_markets c)).
Proof. intros H. unfold revision_market. unfold is_canon, canonical_market_symbol in H. by rewrite H. Qed.

(** The lookup of a canonical market either finds an executable entry or refuses. *)
Lemma catalog_market_canon m c : is_canon m ->
  catalog_market m c =
    match List.find (fun x => bool_decide (cm_symbol x = m)) (cr_markets c) with
    | None => market_error "market is absent from the pinned catalog"
    | Some spec =>
        if is_delisted spec || bool_decide (readiness spec = DELISTED) then market_error "market is delisted" else
        if bool_decide (readiness spec = UNTRUSTED) then market_error "market has untrusted catalog identity"
        else Ok spec
    end.
Proof.
  intros H. unfold catalog_market. rewrite H. cbn [mbind res_bind]. by rewrite revision_market_canon.
Qed.

Lemma catalog_market_error m c e : is_canon m -> catalog_market m c = Raise e -> exists msg, e = MarketStreamError msg.
Proof.
  intros H. rewrite catalog_market_canon by done. unfold market_error.
  destruct (List.find _ _); repeat case_match; intros [= <-]; eauto.
Qed.

Lemma catalog_market_symbol m c spec : is_canon m -> catalog_market m c = Ok spec ->
  cm_symbol spec = m /\ In spec (cr_markets c) /\ is_delisted spec = false.
Proof.
  intros H. rewrite catalog_market_canon by done. unfold market_error.
  destruct (List.find _ _) as [x|] eqn:E; [|done]. apply find_some in E as [Hin Hx].
  apply bool_decide_eq_true in Hx. destruct (is_delisted x) eqn:Ed; [done|]. cbn [orb].
  repeat case_match; try done. by intros [= <-].
Qed.

(** [replace_catalog] keeps exactly the tradable ones of the active markets. *)
Lemma executable_steps c l acc : (forall m, m ∈ l -> is_canon m) ->
  exists r, fold_res (executable_step c) l acc = Ok r /\
    forall m, m ∈ r <-> m ∈ acc \/ m ∈ l /\ tradable c m.
Proof.
  revert acc. induction l as [|x l IH]; intros acc Hl.
  { exists acc. split; [done|]. intros m. split; [by left|]. intros [?|[Hm _]]; [done|by apply elem_of_nil in Hm]. }
  pose proof (Hl x ltac:(by left)) as Hx.
  cbn [fold_res]. unfold executable_step at 1. rewrite revision_market_canon by done. cbn [mbind res_bind].
  set (acc' := match List.find _ _ with Some _ => _ | None => _ end).
  assert (forall m, m ∈ acc' <-> m ∈ acc \/ m = x /\ tradable c x) as Hacc.
  { intros m. unfold acc', tradable. rewrite catalog_market_canon by done.
    assert (forall msg, m ∈ acc <-> m ∈ acc \/ m = x /\ is_canon x /\ exists spec, @market_error CatalogMarket msg = Ok spec)
      as Hno by (intros; split; [by left|by intros [?|(_ & _ & ? & ?)]]).
    assert (forall spec : CatalogMarket, m ∈ {[x]} ∪ acc <-> m ∈ acc \/ m = x /\ is_canon x /\ exists s, Ok spec = Ok s)
      as Hyes.
    { intros spec. rewrite elem_of_union, elem_of_singleton.
      split; [intros [->|?]; [right; eauto|by left]|intros [?|[-> _]]; auto]. }
    destruct (List.find _ _) as [spec|]; [|apply Hno].
    destruct (is_delisted spec); [apply Hno|].
    destruct (readiness spec); first [apply Hyes|apply Hno]. }
  destruct (IH acc') as (r & Hr & Hm); [intros; apply Hl; by right|].
  exists r. split; [exact Hr|]. intros m. rewrite Hm, Hacc, elem_of_cons. naive_solver.
Qed.

(** [set_active_markets] answers with tradable markets or refuses. *)
Lemma request_steps c l acc r : (forall m, m ∈ acc -> tradable c m) ->
  fold_res (request_step c) l acc = Ok r -> forall m, m ∈ r -> tradable c m.
Proof.
  intros Hacc. apply (fold_res_ind (fun s : gset string => forall m, m ∈ s -> tradable c m)); [|done].
  intros s x s' _ Hs H. unfold request_step in H. apply bind_Ok in H as (canonical & Hc & H).
  apply bind_Ok in H as (spec & Hspec & [= <-]). intros m [->%elem_of_singleton|Hm]%elem_of_union; [|auto].
  split; [by eapply canonical_is_canon|by exists spec].
Qed.

(** * The invariant *)

(** Every feed belongs to an active market, is well-formed and was received by [T];
    a book always comes with a quote at least as new. *)
Record feeds_ok (T : Z) (s : MarketStream) : Prop := {
  fe_contexts : forall m c, contexts s !! m = Some c -> m ∈ active s /\ context_ok c /\ 0 < ctx_received_ms c <= T;
  fe_books : forall m b, books s !! m = Some b ->
    m ∈ active s /\ book_ok b /\ 0 < bk_received_ms b <= T /\
    exists q, bbos s !! m = Some q /\ book_exchange_ms b <= bbo_exchange_ms q;
  fe_bbos : forall m q, bbos s !! m = Some q -> m ∈ active s /\ bbo_ok q /\ 0 < bo_received_ms q <= T;
}.

Definition all_tradable (s : MarketStream) : Prop := forall m, m ∈ active s -> tradable (catalog s) m.

Record market_ok (s : MarketStream) : Prop := {
  mo_tradable : all_tradable s;
  mo_feeds : feeds_ok (ms_activity s) s;
  mo_activity : 0 <= ms_activity s;
  mo_epoch : 0 <= ms_epoch s;
}.

Lemma feeds_ok_later T T' s : T <= T' -> feeds_ok T s -> feeds_ok T' s.
Proof.
  intros HT [Hc Hb Hq]. split.
  - intros m c H. destruct (Hc m c H) as (? & ? & ?). split_and!; try done; lia.
  - intros m b H. destruct (Hb m b H) as (? & ? & ? & ?). split_and!; try done; lia.
  - intros m q H. destruct (Hq m q H) as (? & ? & ?). split_and!; try done; lia.
Qed.

(** The invariant looks at the feeds and the active set only. *)
Lemma feeds_ok_same T s s' : active s' = active s -> contexts s' = contexts s -> books s' = books s ->
  bbos s' = bbos s -> feeds_ok T s -> feeds_ok T s'.
Proof. intros E1 E2 E3 E4 [Hc Hb Hq]. split; rewrite ?E1, ?E2, ?E3, ?E4; done. Qed.

Lemma feeds_ok_empty T c e t a : feeds_ok T (MkMarketStream c e t a ∅ ∅ ∅).
Proof. split; cbn; intros m ? H; by rewrite lookup_empty in H. Qed.

Lemma put_context_ok T m c s : feeds_ok T s -> m ∈ active s -> context_ok c -> 0 < ctx_received_ms c <= T ->
  feeds_ok T (put_context m c s).
Proof.
  intros [Hc Hb Hq] Hm Hok Ht. split; cbn; [|done|done].
  intros m' c'. destruct (decide (m = m')) as [<-|Hne]; [rewrite lookup_insert_eq; by intros [= <-]|].
  rewrite lookup_insert_ne by done. apply Hc.
Qed.

Lemma put_bbo_ok T m q s : feeds_ok T s -> m ∈ active s -> bbo_ok q -> 0 < bo_received_ms q <= T ->
  backwards bbo_exchange_ms (bbo_exchange_ms q) (bbos s !! m) = false -> feeds_ok T (put_bbo m q s).
Proof.
  intros [Hc Hb Hq] Hm Hok Ht Hback. split; cbn; [done| |].
  - intros m' b H. destruct (Hb m' b H) as (? & ? & ? & q' & Hq' & Hle). split_and!; try done; try lia.
    destruct (decide (m = m')) as [<-|Hne].
    + exists q. rewrite lookup_insert_eq. split; [done|]. rewrite Hq' in Hback. cbn in Hback. apply Z.ltb_ge in Hback. lia.
    + exists q'. by rewrite lookup_insert_ne.
  - intros m' q'. destruct (decide (m = m')) as [<-|Hne]; [rewrite lookup_insert_eq; by intros [= <-]|].
    rewrite lookup_insert_ne by done. apply Hq.
Qed.

(** A new book, and the quote it brings unless a newer one is known. *)
Definition put_depth (m : string) (b : Book) (t : Z) (s : MarketStream) : MarketStream :=
  let s := put_book m b s in
  if backwards bbo_exchange_ms (book_exchange_ms b) (bbos s !! m) then s else put_bbo m (top_of_book b t) s.

Lemma put_depth_ok T m b s : feeds_ok T s -> m ∈ active s -> book_ok b -> 0 < bk_received_ms b <= T ->
  feeds_ok T (put_depth m b (bk_received_ms b) s).
Proof.
  intros [Hc Hb Hq] Hm Hok Ht. unfold put_depth. cbn [put_book set_feeds bbos].
  destruct (bbos s !! m) as [q|] eqn:Eq; cbn [backwards]; [destruct (Z.ltb_spec (book_exchange_ms b) (bbo_exchange_ms q))|];
    (split; cbn; [done| |]); intros m'.
  all: destruct (decide (m = m')) as [<-|Hne]; rewrite ?lookup_insert_eq, ?lookup_insert_ne by done; auto.
  all: intros ? [= <-]; try (split_and!; [done|by apply top_of_book_ok|cbn; lia|cbn; lia]).
  all: split_and!; try done; try lia.
  - exists q. split; [done|lia].
  - by exists (top_of_book b (bk_received_ms b)).
  - by exists (top_of_book b (bk_received_ms b)).
Qed.

Lemma lookup_drop_feeds {V} l (m : gmap string V) k :
  drop_feeds l m !! k = if bool_decide (k ∈ l) then None else m !! k.
Proof.
  induction l as [|x l IH]; [done|]. change (drop_feeds (x :: l) m) with (delete x (drop_feeds l m)).
  destruct (decide (x = k)) as [->|Hne].
  - rewrite lookup_delete_eq, bool_decide_eq_true_2; [done|by left].
  - rewrite lookup_delete_ne, IH by done.
    rewrite (bool_decide_ext (k ∈ x :: l) (k ∈ l)); [done|]. rewrite elem_of_cons. naive_solver.
Qed.

Lemma elem_of_sorted_set (X : gset string) m : m ∈ sorted_set X <-> m ∈ X.
Proof. unfold sorted_set. by rewrite elem_of_py_sorted, elem_of_elements. Qed.

(** Dropping the feeds of the removed markets. *)
Lemma adopt_ok T requested s : feeds_ok T s -> feeds_ok T (adopt_active requested (sorted_set (active s ∖ requested)) s).
Proof.
  intros [Hc Hb Hq]. unfold adopt_active.
  assert (forall m, m ∈ active s -> m ∉ sorted_set (active s ∖ requested) -> m ∈ requested) as Hkeep.
  { intros m Hm Hn. rewrite elem_of_sorted_set in Hn. apply not_elem_of_difference in Hn as [?|?]; done. }
  split; cbn; intros m x; rewrite lookup_drop_feeds; case_bool_decide as Hin; try done; intros Hx.
  - destruct (Hc m x Hx) as (? & ? & ?). split_and!; auto; lia.
  - destruct (Hb m x Hx) as (? & ? & ? & q & Hq' & Hle). split_and!; auto; try lia.
    exists q. by rewrite lookup_drop_feeds, bool_decide_eq_false_2.
  - destruct (Hq m x Hx) as (? & ? & ?). split_and!; auto; lia.
Qed.

(** * One frame *)

(** What an accepted frame does to the feeds. *)
Inductive feed_moves (m : string) (t : Z) (s : MarketStream) : MarketStream -> Prop :=
  | move_context c : context_ok c -> ctx_received_ms c = t -> feed_moves m t s (put_context m c s)
  | move_book b : book_ok b -> bk_received_ms b = t ->
      backwards book_exchange_ms (book_exchange_ms b) (books s !! m) = false -> feed_moves m t s (put_depth m b t s)
  | move_bbo q : bbo_ok q -> bo_received_ms q = t ->
      backwards bbo_exchange_ms (bbo_exchange_ms q) (bbos s !! m) = false -> feed_moves m t s (put_bbo m q s).

Lemma feed_moves_ok m t s s' T : feed_moves m t s s' -> m ∈ active s -> 0 < t <= T -> feeds_ok T s -> feeds_ok T s'.
Proof.
  intros [c Hc Ht|b Hb Ht _|q Hq Ht Hback] Hm HT Hs.
  - apply put_context_ok; try done. lia.
  - rewrite <- Ht. apply put_depth_ok; try done. lia.
  - apply put_bbo_ok; try done. lia.
Qed.

(** An accepted frame changes no more than the feeds of its market. *)
Lemma feed_moves_frame m t s s' : feed_moves m t s s' ->
  active s' = active s /\ catalog s' = catalog s /\ ms_epoch s' = ms_epoch s /\
  (forall m', m' <> m -> contexts s' !! m' = contexts s !! m' /\ books s' !! m' = books s !! m' /\ bbos s' !! m' = bbos s !! m') /\
  (forall b b', books s !! m = Some b -> books s' !! m = Some b' -> book_exchange_ms b <= book_exchange_ms b') /\
  (forall q q', bbos s !! m = Some q -> bbos s' !! m = Some q' -> bbo_exchange_ms q <= bbo_exchange_ms q').
Proof.
  intros [c Hc Ht|b Hb Ht Hback|q Hq Ht Hback]; unfold put_depth.
  - split_and!; try done; [|naive_solver lia..].
    intros m' Hne. cbn. by rewrite lookup_insert_ne.
  - destruct (backwards bbo_exchange_ms _ _) eqn:E; split_and!; try done; cbn in *.
    1,4: intros m' Hne; by rewrite ?lookup_insert_ne.
    all: intros x x' Hx; rewrite ?lookup_insert_eq; try (rewrite Hx in Hback; cbn in Hback; apply Z.ltb_ge in Hback);
      intros [= <-] || (rewrite Hx; intros [= <-]); try lia.
    rewrite Hx in E. cbn in E. apply Z.ltb_ge in E. cbn. lia.
  - split_and!; try done; cbn.
    + intros m' Hne. by rewrite lookup_insert_ne.
    + naive_solver lia.
    + intros x x' Hx. rewrite lookup_insert_eq. intros [= <-]. rewrite Hx in Hback. cbn in Hback.
      apply Z.ltb_ge in Hback. lia.
Qed.

Lemma dispatch_moves channel m d t s s' r :
  market_dispatch channel m d t s = (s', r) ->
  match r with Ok _ => feed_moves m t s s' | Raise e => s' = s /\ frame_exn false e end.
Proof.
  unfold market_dispatch, apply_l2_book, apply_bbo, jbind, jlift, jquery, jmodify, jraise.
  repeat case_bool_decide.
  - pose proof (fails_context d t) as Hf. destruct (parse_context d t) as [c|e] eqn:E; intros [= <- <-]; [|done].
    apply parse_context_ok in E as [Hc Ht]. by constructor.
  - pose proof (fails_book d t) as Hf. destruct (parse_book d t) as [b|e] eqn:E; [|intros [= <- <-]; done].
    apply parse_book_ok in E as [Hb Ht]. destruct (backwards _ _ (books s !! m)) eqn:Eb; intros [= <- <-]; [done|].
    by apply move_book.
  - pose proof (fails_bbo d t) as Hf. destruct (parse_bbo d t) as [q|e] eqn:E; [|intros [= <- <-]; done].
    apply parse_bbo_ok in E as [Hq Ht]. destruct (backwards _ _ (bbos s !! m)) eqn:Eb; intros [= <- <-]; [done|].
    by apply move_bbo.
  - by intros [= <- <-].
Qed.

(** The latest quote is never crossed, so a snapshot of an active market never fails. *)
Lemma merged_uncrossed bs aks q : bbo_ok q ->
  locked (best_or_none (merge_bbo bs (bid q) true)) (best_or_none (merge_bbo aks (ask q) false)) = false.
Proof. intros [_ _ _ H]. by destruct (bid q), (ask q). Qed.

Lemma snapshot_total m s T : all_tradable s -> feeds_ok T s -> m ∈ active s -> exists v, market_snapshot m s = Ok v.
Proof.
  intros Ht [_ _ Hq] Hm. destruct (Ht m Hm) as [Hc [spec Hspec]].
  unfold market_snapshot. rewrite Hc. cbn [mbind res_bind]. rewrite bool_decide_eq_true_2 by done. cbn [negb].
  rewrite Hspec. cbn [mbind res_bind]. destruct (contexts s !! m), (books s !! m) as [b|], (bbos s !! m) as [q|] eqn:E; eauto.
  destruct (Hq _ _ E) as (_ & Hok & _). rewrite merged_uncrossed by done. eauto.
Qed.

Lemma validate_frame_cases epoch t s :
  ms_validate_frame epoch t s = Ok tt /\ epoch = ms_epoch s /\ 0 < t /\ ms_activity s <= t \/
  exists msg, ms_validate_frame epoch t s = Raise (MarketStreamError msg).
Proof.
  unfold ms_validate_frame, market_error.
  destruct (_ =? 0); [eauto|]. destruct (Z.eqb_spec epoch (ms_epoch s)); cbn [negb]; [|eauto].
  destruct (Z.leb_spec t 0); [eauto|]. destruct (Z.ltb_spec t (ms_activity s)); [eauto|]. left. by split_and!.
Qed.

(** A frame is refused without a trace or moves the feeds of one active market. *)
Lemma frame_cases message epoch t s s' r : market_ok s -> apply_market_frame message epoch t s = (s', r) ->
  match r with
  | Raise e => s' = s /\ exists msg, e = MarketStreamError msg
  | Ok v => exists m s1, m ∈ active s /\ epoch = ms_epoch s /\ 0 < t /\ ms_activity s <= t /\
      feed_moves m t s s1 /\ s' = set_ms_activity t s1 /\ market_snapshot m s' = Ok v
  end.
Proof.
  intros Hs. unfold apply_market_frame, jbind, jlift, jquery, jraise, jmodify.
  destruct (validate_frame_cases epoch t s) as [(-> & He & Ht & Hact)|[msg ->]]; [|intros [= <- <-]; eauto].
  destruct message as [| | | | | |o]; try (intros [= <- <-]; eauto).
  destruct (obj_field "data" o) as [| | | | | |data]; try (intros [= <- <-]; eauto).
  destruct (canonical_market_symbol (obj_field "coin" data)) as [m|e] eqn:Em; cbn [catch].
  2: { apply canonical_raises in Em. destruct e; try discriminate Em. intros [= <- <-]. eauto. }
  case_bool_decide as Hm; [|intros [= <- <-]; eauto].
  destruct (mo_tradable _ Hs m Hm) as [Hc [spec ->]].
  unfold market_guarded. destruct (market_dispatch _ m data t s) as [s1 [[]|e]] eqn:Ed;
    apply dispatch_moves in Ed.
  - pose proof (feed_moves_frame _ _ _ _ Ed) as (Ea & Ecat & _).
    destruct (snapshot_total m (set_ms_activity t s1) t) as [v Hv].
    + unfold all_tradable. cbn. rewrite Ea, Ecat. apply Hs.
    + eapply (feeds_ok_same _ s1); try done. eapply feed_moves_ok; [done|done|lia|].
      eapply feeds_ok_later; [done|apply Hs].
    + cbn. by rewrite Ea.
    + rewrite Hv. intros [= <- <-]. exists m, s1. by split_and!.
  - destruct Ed as [-> He']. intros [= <- <-]. split; [done|]. unfold market_frame_error, frame_exn in *.
    destruct e; try done; cbn; eauto.
Qed.

(** * Merging the quote into the depth *)

Lemma outward_trans is_bid a b c : outward is_bid a b = true -> outward is_bid b c = true -> outward is_bid a c = true.
Proof. unfold outward. destruct is_bid; rewrite !dltb_spec; intros; lra. Qed.

Lemma all_outward_cons is_bid x l :
  all_outward is_bid (x :: l) = true <-> Forall (fun y => outward is_bid x y = true) l /\ all_outward is_bid l = true.
Proof.
  revert x. induction l as [|y l IH]; intros x; [by split|].
  change (all_outward is_bid (x :: y :: l)) with (outward is_bid x y && all_outward is_bid (y :: l)).
  rewrite andb_true_iff, IH. split.
  - intros (Hxy & Hy & Hl). split; [|by split]. constructor; [done|].
    eapply list.Forall_impl; [exact Hy|]. intros z. by apply outward_trans.
  - intros [H Hl]. inversion_clear H. split; [done|]. exact Hl.
Qed.

Lemma Forall_price_filter (P : dec -> Prop) p levels :
  Forall P (level_price <$> levels) -> Forall P (level_price <$> List.filter p levels).
Proof. induction levels as [|l t IH]; [done|]. cbn. intros H. inversion_clear H. destruct (p l); [constructor|]; auto. Qed.

Lemma filter_prices p (f : dec -> bool) levels : (forall l, p l = f (level_price l)) ->
  Forall (fun d => f d = true) (level_price <$> List.filter p levels).
Proof.
  intros Hp. induction levels as [|l t IH]; [constructor|]. cbn. destruct (p l) eqn:E; [|done].
  constructor; [by rewrite <- Hp|done].
Qed.

Lemma outward_filter is_bid p levels :
  all_outward is_bid (level_price <$> levels) = true -> all_outward is_bid (level_price <$> List.filter p levels) = true.
Proof.
  induction levels as [|l t IH]; [done|]. change (level_price <$> l :: t) with (level_price l :: (level_price <$> t)).
  rewrite all_outward_cons. intros [Hl Ht]. cbn [List.filter]. destruct (p l); [|auto].
  change (level_price <$> l :: ?x) with (level_price l :: (level_price <$> x)).
  apply all_outward_cons. split; [|auto]. by apply Forall_price_filter.
Qed.

Lemma merge_bbo_ok is_bid levels q : side_ok is_bid levels -> (forall l, q = Some l -> level_positive l) ->
  side_ok is_bid (merge_bbo levels q is_bid).
Proof.
  intros [Hp Ho] Hq. destruct q as [b|]; [|by split]. cbn. split.
  - constructor; [auto|]. by apply Forall_lfilter.
  - cbn [fmap list_fmap]. apply all_outward_cons. split; [|by apply outward_filter].
    by apply (filter_prices _ (outward is_bid (level_price b))).
Qed.

(** * Reachable states *)

Inductive market_op :=
  | Begin (received_ms : Z)
  | Activity (epoch received_ms : Z)
  | Frame (message : json) (epoch received_ms : Z)
  | SetActive (markets : list string)
  | Replace (c : CatalogRevision).

Definition op_step (o : market_op) (s : MarketStream) : MarketStream :=
  match o with
  | Begin t => (ms_begin_connection t s).1
  | Activity e t => (ms_note_activity e t s).1
  | Frame m e t => (apply_market_frame m e t s).1
  | SetActive l => (set_active_markets l s).1
  | Replace c => (replace_catalog c s).1
  end.

Inductive reachable : MarketStream -> Prop :=
  | reach_new c markets s : make_market_stream c markets = Ok s -> reachable s
  | reach_step o s : reachable s -> reachable (op_step o s).

Lemma adopt_market_ok requested s :
  feeds_ok (ms_activity s) s -> 0 <= ms_activity s -> 0 <= ms_epoch s ->
  (forall m, m ∈ requested -> tradable (catalog s) m) ->
  market_ok (adopt_active requested (sorted_set (active s ∖ requested)) s).
Proof. intros Hf H1 H2 Ht. split; [exact Ht|by apply adopt_ok|done|done]. Qed.

Lemma set_active_ok l s : feeds_ok (ms_activity s) s -> 0 <= ms_activity s -> 0 <= ms_epoch s ->
  match set_active_markets l s with
  | (s', Ok _) => market_ok s'
  | (s', Raise _) => s' = s
  end.
Proof.
  intros Hf H1 H2. unfold set_active_markets, jbind, jquery, jmodify, jret.
  destruct (fold_res _ l ∅) as [requested|e] eqn:E; [|done]. cbn [removed].
  apply adopt_market_ok; try done.
  intros m Hm. eapply request_steps; [|exact E|exact Hm]. intros x Hx. by apply not_elem_of_empty in Hx.
Qed.

Lemma begin_ok t s : market_ok s -> market_ok (ms_begin_connection t s).1.
Proof.
  intros Hs. unfold ms_begin_connection, jbind, jlift, jmodify, jquery. destruct (Z.ltb_spec t 0); cbn; [done|].
  split; cbn; [apply Hs|apply feeds_ok_empty|done|]. pose proof (mo_epoch _ Hs). lia.
Qed.

Lemma set_activity_ok t s : feeds_ok t s -> all_tradable s -> 0 <= t -> 0 <= ms_epoch s -> market_ok (set_ms_activity t s).
Proof. intros Hf Ht H0 He. split; try done. by apply (feeds_ok_same _ s). Qed.

Lemma activity_ok e t s : market_ok s -> market_ok (ms_note_activity e t s).1.
Proof.
  intros Hs. unfold ms_note_activity, jbind, jquery, jmodify.
  destruct (validate_frame_cases e t s) as [(-> & _ & Ht & Hact)|[msg ->]]; cbn; [|done].
  apply set_activity_ok; try apply Hs; [|lia]. eapply feeds_ok_later; [done|apply Hs].
Qed.

Lemma market_frame_ok message e t s : market_ok s -> market_ok (apply_market_frame message e t s).1.
Proof.
  intros Hs. destruct (apply_market_frame message e t s) as [s' r] eqn:E. apply frame_cases in E; [|done].
  destruct r as [v|]; [|by destruct E as [-> _]]. destruct E as (m & s1 & Hm & _ & Ht & Hact & Hmv & -> & _). cbn [fst].
  destruct (feed_moves_frame _ _ _ _ Hmv) as (Ea & Ec & Ee & _).
  apply set_activity_ok; [|unfold all_tradable; rewrite Ea, Ec; apply Hs|lia|rewrite Ee; apply Hs].
  eapply feed_moves_ok; [done|done|lia|]. eapply feeds_ok_later; [done|apply Hs].
Qed.

Lemma replace_ok c s : market_ok s -> market_ok (replace_catalog c s).1.
Proof.
  intros Hs. unfold replace_catalog, jbind, jquery, jmodify, jret. cbn [set_catalog active].
  destruct (executable_steps c (elements (active s)) ∅) as (r & -> & Hr).
  { intros m Hm%elem_of_elements. by apply (mo_tradable _ Hs). }
  cbn [fst]. apply (adopt_market_ok r (set_catalog c s)); try apply Hs.
  - by apply (feeds_ok_same _ s); [..|apply Hs].
  - intros m Hm. apply Hr in Hm as [Hm|[_ ?]]; [by apply not_elem_of_empty in Hm|done].
Qed.

Lemma reachable_market_ok s : reachable s -> market_ok s.
Proof.
  induction 1 as [c markets s H|o s _ IH].
  - unfold make_market_stream in H.
    pose proof (set_active_ok markets (MkMarketStream c 0 0 ∅ ∅ ∅ ∅)) as Hok.
    destruct (set_active_markets _ _) as [s' r]. apply bind_Ok in H as (ch & -> & [= <-]).
    apply Hok; [apply feeds_ok_empty|done|done].
  - destruct o; cbn [op_step]; auto using begin_ok, activity_ok, market_frame_ok, replace_ok.
    pose proof (set_active_ok markets s) as Hok. destruct (set_active_markets markets s) as [s' [ch|e]].
    + apply Hok; apply IH.
    + rewrite (Hok (mo_feeds _ IH) (mo_activity _ IH) (mo_epoch _ IH)). exact IH.
Qed.

(** * Properties *)

(** ** A stream of one market *)

Definition example_market : CatalogMarket :=
  MkCatalogMarket "BTC" "" 0 0 0 5 40 READY "cross" 0 None false 0 None None 0 0 "" false no_pending.
Definition example_catalog : CatalogRevision := MkRevision 1 "catalog-000001" "v1" "mainnet" 1 [""] [example_market] "" "" "".

Definition example_level (px sz : string) : json := JObj [("px", JStr px); ("sz", JStr sz); ("n", JInt 1)].
Definition example_context : json :=
  JObj [("channel", JStr "activeAssetCtx");
        ("data", JObj [("coin", JStr "BTC"); ("ctx", JObj [("oraclePx", JStr "100"); ("markPx", JStr "100.5")])])].
Definition example_depth : json :=
  JObj [("channel", JStr "l2Book");
        ("data", JObj [("coin", JStr "BTC"); ("time", JInt 990);
          ("levels", JList [JList [example_level "99" "2"; example_level "98" "1"]; JList [example_level "101" "3"]])])].

Definition example_stream : MarketStream :=
  match make_market_stream example_catalog ["BTC"] with
  | Ok s => op_step (Frame example_depth 1 1002) (op_step (Frame example_context 1 1001) (op_step (Begin 1000) s))
  | Raise _ => MkMarketStream example_catalog 0 0 ∅ ∅ ∅ ∅
  end.

Lemma example_reachable : reachable example_stream.
Proof.
  unfold example_stream. destruct (make_market_stream example_catalog ["BTC"]) as [s|e] eqn:E.
  - do 3 apply reach_step. by eapply reach_new.
  - apply (f_equal is_ok) in E. by vm_compute in E.
Qed.

(** C35. A market frame is accepted whole or refused without a trace.  In every
    reachable state, whatever the message: either [apply] raises
    [MarketStreamError], nothing else, and the stream is exactly as before; or
    the frame belongs to the current connection and to an active market, only the
    feeds of that market have changed, neither its book nor its quote went back
    in exchange time, and the answer is the new snapshot.  In particular the check
    that the merged book is uncrossed, which comes after the assignments, never
    fires. *)
Theorem market_frame_exact s message epoch t : reachable s ->
  match apply_market_frame message epoch t s with
  | (s', Raise e) => s' = s /\ exists msg, e = MarketStreamError msg
  | (s', Ok v) =>
      exists m, m ∈ active s /\ epoch = ms_epoch s /\ ms_activity s <= ms_activity s' /\ ms_activity s' = t /\
        active s' = active s /\ catalog s' = catalog s /\ ms_epoch s' = ms_epoch s /\
        (forall m', m' <> m ->
           contexts s' !! m' = contexts s !! m' /\ books s' !! m' = books s !! m' /\ bbos s' !! m' = bbos s !! m') /\
        (forall b b', books s !! m = Some b -> books s' !! m = Some b' -> book_exchange_ms b <= book_exchange_ms b') /\
        (forall q q', bbos s !! m = Some q -> bbos s' !! m = Some q' -> bbo_exchange_ms q <= bbo_exchange_ms q') /\
        market_snapshot m s' = Ok v
  end.
Proof.
  intros Hs%reachable_market_ok. destruct (apply_market_frame message epoch t s) as [s' r] eqn:E.
  apply frame_cases in E; [|done]. destruct r as [v|e]; [|done].
  destruct E as (m & s1 & Hm & He & Ht & Hact & Hmv & -> & Hv). exists m.
  destruct (feed_moves_frame _ _ _ _ Hmv) as (E1 & E2 & E3 & E4 & E5 & E6). by split_and!.
Qed.

(** A frame with an earlier receive time is refused. *)
Lemma market_frame_exact_witness :
  (apply_market_frame example_depth 1 1001 example_stream).1 = example_stream /\
  exists msg, (apply_market_frame example_depth 1 1001 example_stream).2 = Raise (MarketStreamError msg).
Proof.
  pose proof (market_frame_exact example_stream example_depth 1 1001 example_reachable) as H.
  destruct (apply_market_frame example_depth 1 1001 example_stream) as [s' [v|e]] eqn:E.
  - apply (f_equal (fun r => is_ok r.2)) in E. by vm_compute in E.
  - destruct H as [-> [msg ->]]. split; [done|by exists msg].
Defined.

(** C34. Every snapshot is a book one can trade against.  In every reachable state an
    active market has an answer, never an error; a snapshot carries the asset id
    and precision of its entry in the current catalog, which is not delisted; all
    its prices and sizes are positive, bids strictly descend and asks strictly
    ascend from the latest quote, and the best bid is below the best ask; its
    quote is at least as new as its depth, and nothing in it was received before
    the connection's activity began or after its last.  A fresh one, moreover, was
    received within the allowed age. *)
Theorem market_snapshot_sound s m : reachable s -> m ∈ active s ->
  exists r, market_snapshot m s = Ok r /\
  forall v, r = Some v ->
    sn_market v = m /\ sn_epoch v = ms_epoch s /\
    (exists spec, In spec (cr_markets (catalog s)) /\ cm_symbol spec = m /\ is_delisted spec = false /\
       sn_asset_id v = asset_id spec /\ sn_sz_decimals v = cm_sz_decimals spec) /\
    (0 < dval (sn_oracle_px v) /\ 0 < dval (sn_mark_px v))%Q /\
    side_ok true (sn_bids v) /\ side_ok false (sn_asks v) /\
    (forall b a, head (sn_bids v) = Some b -> head (sn_asks v) = Some a -> dval (level_price b) < dval (level_price a))%Q /\
    book_time_ms v <= bbo_time_ms v /\
    (forall t, t ∈ [context_received_ms v; book_received_ms v; bbo_received_ms v] -> 0 < t <= ms_activity s) /\
    (forall now age, fresh_snapshot m now age s = Ok (Some v) ->
       0 <= now - ms_activity s <= age /\
       forall t, t ∈ [context_received_ms v; book_received_ms v; bbo_received_ms v] -> 0 <= now - t <= age).
Proof.
  intros Hs%reachable_market_ok Hm. destruct (mo_tradable _ Hs m Hm) as [Hc [spec Hspec]].
  destruct (snapshot_total m s _ (mo_tradable _ Hs) (mo_feeds _ Hs) Hm) as [r Hr]. exists r. split; [done|].
  intros v ->. pose proof Hr as Hr0.
  unfold market_snapshot in Hr. rewrite Hc in Hr. cbn [mbind res_bind] in Hr.
  rewrite bool_decide_eq_true_2 in Hr by done. cbn [negb] in Hr. rewrite Hspec in Hr. cbn [mbind res_bind] in Hr.
  destruct (contexts s !! m) as [c|] eqn:Ec; [|done]. destruct (books s !! m) as [b|] eqn:Eb; [|done].
  destruct (bbos s !! m) as [q|] eqn:Eq; [|done].
  destruct (mo_feeds _ Hs) as [Fc Fb Fq]. destruct (Fc _ _ Ec) as (_ & [Ho Hmk] & Hct).
  destruct (Fb _ _ Eb) as (_ & Hbk & Hbt & q' & Eq' & Hle). destruct (Fq _ _ Eq) as (_ & Hbo & Hqt).
  assert (q' = q) as -> by congruence. pose proof (merged_uncrossed (bids b) (asks b) q Hbo) as Hun.
  rewrite Hun in Hr. injection Hr as <-.
  destruct (catalog_market_symbol _ _ _ Hc Hspec) as (Hsym & Hin & Hdel).
  split_and!; try done.
  - by exists spec.
  - apply merge_bbo_ok; [apply Hbk|apply Hbo].
  - apply merge_bbo_ok; [apply Hbk|apply Hbo].
  - cbn. intros x y Hx Hy. unfold best_or_none in Hun. rewrite Hx, Hy in Hun. by apply dleb_false.
  - cbn. intros t Ht. repeat (apply elem_of_cons in Ht as [->|Ht]; [lia|]). by apply elem_of_nil in Ht.
  - intros now age. unfold fresh_snapshot. rewrite Hr0. cbn [mbind res_bind]. unfold market_is_fresh.
    destruct (age <=? 0); [done|]. cbn [sn_epoch]. rewrite Z.eqb_refl. cbn [negb].
    intros ([] & Hf & [=])%bind_Ok. injection Hf as Hf. unfold recent in Hf. cbn in Hf. rewrite !andb_true_iff, !Z.leb_le in Hf.
    split; [lia|]. cbn. intros t Ht. repeat (apply elem_of_cons in Ht as [->|Ht]; [lia|]). by apply elem_of_nil in Ht.
Qed.

Lemma market_snapshot_sound_witness :
  exists v, market_snapshot "BTC" example_stream = Ok (Some v) /\ side_ok true (sn_bids v) /\ side_ok false (sn_asks v).
Proof.
  destruct (market_snapshot_sound example_stream "BTC" example_reachable) as ([v|] & Hr & H).
  - by apply (bool_decide_unpack _); vm_compute.
  - exists v. destruct (H v eq_refl) as (_ & _ & _ & _ & Hb & Ha & _). by split_and!.
  - apply (f_equal (fun r => match r with Ok (Some _) => true | _ => false end)) in Hr. by vm_compute in Hr.
Defined.
