(* ===== verification/Runtime.v ===== *)
(** continuous_runtime.py: the runtime of the leader streams, the market reducer and
    the signer lanes.

    A method runs between two [await]s without interruption, so it is a computation
    over the runtime; the fields of [_Slot] are grouped into the records below.
    Every clock reading, the answers of the follower and gap-repair hooks and the
    ownership locks are arguments.  The checkpoint database is a map from slots to
    payloads.  The execution evidence, which no decision reads, is left out. *)

From S2P Require Import Prelude PyDecimal PyText Models Markets ContinuousConfig Precision OrderPreflight MarketCatalog MarketStream.
From S2P Require AccountStream DesiredEngine ActionJournal WsActions Executor.
From Stdlib Require Import Ascii.

Open Scope Z_scope.

Abbreviation FillRecord := AccountStream.FillRecord.
Abbreviation fill_id := AccountStream.fill_id.
Abbreviation NextAction := DesiredEngine.NextAction.

Definition TRANSIENT_REJECTION_RETRY_MS : Z := 5000.

Inductive RuntimeState := RUNNING | PAUSE_ENTRIES | RECOVERING | OPERATOR_STOP.

#[export] Instance RuntimeState_eq_dec : EqDecision RuntimeState.
Proof. solve_decision. Defined.

Definition RuntimeState_value (s : RuntimeState) : string :=
  match s with
  | RUNNING => "RUNNING" | PAUSE_ENTRIES => "PAUSE_ENTRIES" | RECOVERING => "RECOVERING" | OPERATOR_STOP => "OPERATOR_STOP"
  end.

(** * Data *)

Record FollowerTruth := MkTruth {
  ft_positions : dict Position;
  ft_equity : dec;
  ft_observed_ms : Z;
  ft_dex_observed_ms : dict Z;
  ft_available_collateral : option dec;
}.

Record Trigger := MkTrigger { tr_price : dec; tr_time_ms : Z; tr_accepted_ms : Z }.

Record RejectedTarget := MkRejected {
  rj_desired_id : string;
  rj_follower_fingerprint : string * string * string * string;
  rj_market_identity_sha256 : string;
  rj_reason : string;
}.

Record LiquidityRetry := MkRetry {
  lr_desired_id : string;
  lr_source_revision : Z;
  not_before_ms : Z;
  after_observed_ms : Z;
  liquidity_fingerprint_of : list string;
  retry_count : Z;
  require_market_observation : bool;
  observe_context : bool;
  lr_reason : string;
}.

(** What of the source's positions is copied, and what is only observed. *)
Record Attribution := MkAttribution {
  unattributed : dict dec;
  attributable : dict dec;
  pending_catalog_markets : gset string;
  applied_fills : list fill_id;
  triggers : dict Trigger;
  source_revisions : dict Z;
}.

(** Whether the slot may act, and why not. *)
Record Gate := MkGate {
  state : RuntimeState;
  reason : string;
  source_ready : bool;
  ever_baselined : bool;
  initial_follower_nonflat : bool;
  operator_paused : bool;
  fail_close_reason : option string;
  startup_blocker : option string;
}.

(** When the slot acted, and what it waits for. *)
Record Pacing := MkPacing {
  action_times : list Z;
  liquidity_retries : dict LiquidityRetry;
  rejected_targets : dict RejectedTarget;
}.

Record Slot := MkRuntimeSlot {
  bound : BoundContinuousSlot;
  account : AccountStream.AccountStream;
  lane : Executor.SignerLane;
  slot_identity : dict string;
  gate : Gate;
  expected_source : option (dict dec);
  attribution : Attribution;
  follower : option FollowerTruth;
  restored_follower_positions : option (dict dec);
  pacing : Pacing;
  truth_revision : Z;
}.

Section SlotUpdates.
Variable s : Slot.
Definition set_account v := MkRuntimeSlot (bound s) v (lane s) (slot_identity s) (gate s) (expected_source s)
  (attribution s) (follower s) (restored_follower_positions s) (pacing s) (truth_revision s).
Definition set_gate v := MkRuntimeSlot (bound s) (account s) (lane s) (slot_identity s) v (expected_source s)
  (attribution s) (follower s) (restored_follower_positions s) (pacing s) (truth_revision s).
Definition set_expected v := MkRuntimeSlot (bound s) (account s) (lane s) (slot_identity s) (gate s) v
  (attribution s) (follower s) (restored_follower_positions s) (pacing s) (truth_revision s).
Definition set_attribution v := MkRuntimeSlot (bound s) (account s) (lane s) (slot_identity s) (gate s)
  (expected_source s) v (follower s) (restored_follower_positions s) (pacing s) (truth_revision s).
Definition set_follower v := MkRuntimeSlot (bound s) (account s) (lane s) (slot_identity s) (gate s)
  (expected_source s) (attribution s) v (restored_follower_positions s) (pacing s) (truth_revision s).
Definition set_restored v := MkRuntimeSlot (bound s) (account s) (lane s) (slot_identity s) (gate s)
  (expected_source s) (attribution s) (follower s) v (pacing s) (truth_revision s).
Definition set_pacing v := MkRuntimeSlot (bound s) (account s) (lane s) (slot_identity s) (gate s)
  (expected_source s) (attribution s) (follower s) (restored_follower_positions s) v (truth_revision s).
Definition bump_truth := MkRuntimeSlot (bound s) (account s) (lane s) (slot_identity s) (gate s)
  (expected_source s) (attribution s) (follower s) (restored_follower_positions s) (pacing s) (truth_revision s + 1).
End SlotUpdates.

Section GateUpdates.
Variable g : Gate.
Definition set_state st r := MkGate st r (source_ready g) (ever_baselined g) (initial_follower_nonflat g)
  (operator_paused g) (fail_close_reason g) (startup_blocker g).
Definition set_source_ready v := MkGate (state g) (reason g) v (ever_baselined g) (initial_follower_nonflat g)
  (operator_paused g) (fail_close_reason g) (startup_blocker g).
Definition set_baselined := MkGate (state g) (reason g) true true (initial_follower_nonflat g)
  (operator_paused g) (fail_close_reason g) (startup_blocker g).
Definition set_nonflat v := MkGate (state g) (reason g) (source_ready g) (ever_baselined g) v
  (operator_paused g) (fail_close_reason g) (startup_blocker g).
Definition set_paused v := MkGate (state g) (reason g) (source_ready g) (ever_baselined g) (initial_follower_nonflat g)
  v (fail_close_reason g) (startup_blocker g).
Definition set_fail_close v := MkGate (state g) (reason g) (source_ready g) (ever_baselined g)
  (initial_follower_nonflat g) (operator_paused g) v (startup_blocker g).
End GateUpdates.

Definition set_retries (v : dict LiquidityRetry) (p : Pacing) : Pacing := MkPacing (action_times p) v (rejected_targets p).
Definition set_rejected (v : dict RejectedTarget) (p : Pacing) : Pacing := MkPacing (action_times p) (liquidity_retries p) v.
Definition set_times (v : list Z) (p : Pacing) : Pacing := MkPacing v (liquidity_retries p) (rejected_targets p).

Definition on_gate (f : Gate -> Gate) (s : Slot) : Slot := set_gate s (f (gate s)).
Definition on_pacing (f : Pacing -> Pacing) (s : Slot) : Slot := set_pacing s (f (pacing s)).

(** A text that is there and not empty, as Python's truth value has it. *)
Definition said (text : option string) : option string :=
  match text with Some "" => None | _ => text end.

(** [_block] *)
Definition block (why : string) (s : Slot) : Slot :=
  on_gate (fun g => if bool_decide (state g = OPERATOR_STOP) then g else set_state g RECOVERING why) s.

(** * Sizes *)

(** A decimal that is not zero. *)
Definition truthy (d : dec) : bool := negb (dis_zero d).

Definition sizes_step (acc : dict dec) (mp : string * Position) : res (dict dec) :=
  if truthy (pos_size mp.2)
  then m ← canonical_market_symbol (JStr mp.1); Ok (dict_set m (pos_size mp.2) acc)
  else Ok acc.

(** [_sizes] *)
Definition sizes (positions : dict Position) : res (dict dec) := fold_res sizes_step positions [].

(** [_source_sizes] *)
Definition source_sizes (s : Slot) : res (dict dec) :=
  sizes (AccountStream.positions (AccountStream.source_state (account s))).

(** [_nz] *)
Definition nz (values : dict dec) : dict dec := List.filter (fun kv => truthy kv.2) values.

(** [_opposite] *)
Definition opposite (left right : dec) : bool :=
  truthy left && truthy right && negb (Bool.eqb (dpos left) (dpos right)).

(** [_put] *)
Definition put_size (values : dict dec) (market : string) (value : dec) : dict dec :=
  if truthy value then dict_set market value values else dict_del market values.

Definition size_at (values : dict dec) (market : string) : dec := default dzero (dict_get market values).

(** * Attribution of source fills *)

Section Attribute.
Variables (catalog : CatalogRevision) (max_source_fill_age_ms : Z) (b : BoundContinuousSlot).

(** What one opposite fill consumes of a holding: the rest of the holding and of the fill. *)
Definition consume (held delta : dec) : dec * dec :=
  if opposite delta held
  then let amount := copy_sign (dmin (dabs delta) (dabs held)) delta in (dadd held amount, dsub delta amount)
  else (held, delta).

(** A fill recovered across a gap is a signal only while it is young. *)
Definition fresh_recovery (recovered_at_ms : option Z) (f : FillRecord) : bool :=
  match recovered_at_ms with
  | None => true
  | Some t => (0 <=? t - AccountStream.time_ms f) && (t - AccountStream.time_ms f <=? max_source_fill_age_ms)
  end.

Definition denied (market : string) : bool := dynamic_market_eligibility b && bool_decide (market ∈ denied_markets b).

(** What the fill leaves observed and copied of its market. *)
Definition split_fill (signal : bool) (old copied delta : dec) : dec * dec :=
  let '(copied, delta) := consume copied delta in
  let '(old, delta) := (if truthy delta && truthy old then consume old delta else (old, delta)) in
  if signal then (old, dadd copied delta) else (dadd old delta, copied).

(** The newest 4096 fills are remembered. *)
Definition remember_fill (id : fill_id) (seen : list fill_id) : list fill_id :=
  let seen := seen ++ [id] in if (4096 <? List.length seen)%nat then tail seen else seen.

Definition attribute_step (recovered_at_ms : option Z) (acc : Attribution * list string * bool) (f : FillRecord)
    : res (Attribution * list string * bool) :=
  let '(a, changed, refresh) := acc in
  if bool_decide (AccountStream.identity f ∈ applied_fills a) then Ok acc else
  let market := AccountStream.f_market f in
  let fresh := fresh_recovery recovered_at_ms f in
  let signal := fresh && negb (denied market) in
  let '(old, copied) := split_fill signal (size_at (unattributed a) market) (size_at (attributable a) market)
                          (AccountStream.fill_signed_size f) in
  missing ← (if signal && dynamic_market_eligibility b
             then spec ← revision_market market catalog; Ok (absent spec) else Ok false);
  let accepted := default (AccountStream.f_received_ms f) recovered_at_ms in
  Ok (MkAttribution (put_size (unattributed a) market old) (put_size (attributable a) market copied)
        (if missing : bool then {[market]} ∪ pending_catalog_markets a else pending_catalog_markets a)
        (remember_fill (AccountStream.identity f) (applied_fills a))
        (if signal then dict_set market (MkTrigger (AccountStream.f_price f) (AccountStream.time_ms f) accepted) (triggers a)
         else triggers a)
        (dict_set market (default 0 (dict_get market (source_revisions a)) + 1) (source_revisions a)),
      if bool_decide (market ∈ changed) then changed else market :: changed,
      refresh || missing).

(** The sum of what is observed and what is copied is the source's own position. *)
Definition attributed_to (a : Attribution) (current : dict dec) (market : string) : bool :=
  deqb (dadd (size_at (unattributed a) market) (size_at (attributable a) market)) (size_at current market).

(** [_attribute]: a transaction; the flag asks for a catalog refresh. *)
Definition attribute (fills : list FillRecord) (recovered_at_ms : option Z) (s : Slot) : res (Slot * bool) :=
  result ← fold_res (attribute_step recovered_at_ms) fills (attribution s, [], false);
  let '(a, changed, refresh) := result in
  if bool_decide (changed = []) then Ok (s, false) else
  current ← source_sizes s;
  if negb (forallb (attributed_to a current) changed)
  then Raise (ValueError "post-baseline fill attribution does not match source truth") else
  Ok (on_pacing (fun p => set_retries (fold_right dict_del (liquidity_retries p) changed) p) (set_attribution s a), refresh).

(** [_attribution_matches] over every market that is mentioned. *)
Definition attribution_matches (s : Slot) : res bool :=
  current ← source_sizes s;
  let a := attribution s in
  Ok (forallb (attributed_to a current)
        (dict_keys current ++ dict_keys (unattributed a) ++ dict_keys (attributable a))).

(** * The baseline of a connection *)

(** One fill of the chain the gap-repair hook returns. *)
Definition repair_step (working : dict dec) (f : FillRecord) : res (dict dec) :=
  match AccountStream.start_position f with
  | Some start =>
      if negb (deqb start (size_at working (AccountStream.f_market f)))
      then Raise (ValueError "gap repair fill chain does not start at checkpoint truth") else
      Ok (dict_set (AccountStream.f_market f) (dadd start (AccountStream.fill_signed_size f)) working)
  | None => Raise (ValueError "gap repair fill chain does not start at checkpoint truth")
  end.

(** [_baseline], with the answer of the hook ([None] without one), over the slot and
    the request for a catalog refresh: whether the slot is to be saved. *)
Definition baseline (hook : option (res (list FillRecord))) (now_ms : Z) : ST (Slot * bool) bool := fun '(s, refresh) =>
  match source_sizes s with
  | Raise e => (s, refresh, Raise e)
  | Ok current =>
      let expected := default [] (expected_source s) in
      if negb (ever_baselined (gate s)) then
        let a := attribution s in
        let a := MkAttribution current [] (pending_catalog_markets a) (applied_fills a) (triggers a) (source_revisions a) in
        (set_expected (on_gate set_baselined (set_attribution s a)) (Some current), refresh, Ok true)
      else if AccountStream.sizes_eqb (nz expected) (nz current) then
        (set_expected (on_gate (fun g => set_source_ready g true) s) (Some current), refresh, Ok true)
      else match hook with
      | None => (block "source changed across gap and no repair hook is configured" s, refresh, Ok false)
      | Some (Raise e) => (s, refresh, Raise e)
      | Some (Ok fills) =>
          match (working ← fold_res repair_step fills expected;
                 if negb (AccountStream.sizes_eqb (nz working) (nz current))
                 then Raise (ValueError "gap repair fill chain does not reach reconnect truth")
                 else attribute fills (Some now_ms) s) with
          | Raise e => (s, refresh, Raise e)
          | Ok (s', requested) =>
              match attribution_matches s' with
              | Raise e => (s', refresh || requested, Raise e)
              | Ok false => (s', refresh || requested, Raise (ValueError "gap repair did not converge to the source baseline"))
              | Ok true =>
                  (set_expected (on_gate (fun g => set_source_ready g true) s') (Some current), refresh || requested, Ok true)
              end
          end
      end
  end.
End Attribute.

(** * Readiness *)

(** [_prune_rate]: forget the sends of more than a minute ago. *)
Fixpoint prune_rate (cutoff : Z) (times : list Z) : list Z :=
  match times with
  | t :: rest => if t <=? cutoff then prune_rate cutoff rest else times
  | [] => []
  end.

Definition prune (action_clock : Z) (s : Slot) : Slot :=
  on_pacing (fun p => set_times (prune_rate (action_clock - 60000) (action_times p)) p) s.

Definition rate_reached (limit : Z) (s : Slot) : bool := limit <=? Z.of_nat (List.length (action_times (pacing s))).

(** [0 <= now - observed <= max_age] *)
Definition truth_fresh (max_age_ms now_ms : Z) (f : FollowerTruth) : bool := recent now_ms max_age_ms (ft_observed_ms f).

(** [_ready]; [unresolved] is read only where the code reads it. *)
Definition ready (source_age_ms follower_age_ms now_ms action_clock : Z) (unresolved : res (dict dec)) : ST Slot unit := fun s =>
  let g := gate s in
  if bool_decide (state g = OPERATOR_STOP) then (s, Ok tt) else
  match said (startup_blocker g) with
  | Some why => (block why s, Ok tt)
  | None =>
  match said (fail_close_reason g) with
  | Some why => (on_gate (fun g => set_state g PAUSE_ENTRIES ("fail-close: " +:+ why)) s, Ok tt)
  | None =>
  match (if source_ready g
         then AccountStream.snapshot_is_fresh (AccountStream.snapshot AccountStream.SOURCE (account s)) now_ms source_age_ms
         else Ok false) with
  | Raise e => (s, Raise e)
  | Ok false => (block "source truth is unavailable or stale" s, Ok tt)
  | Ok true =>
  if negb (match follower s with Some f => truth_fresh follower_age_ms now_ms f | None => false end)
  then (block "follower WS truth is unavailable or stale" s, Ok tt) else
  if initial_follower_nonflat g then (block "startup follower exposure has no runtime attribution" s, Ok tt) else
  match unresolved with
  | Raise e => (s, Raise e)
  | Ok (_ :: _) => (block "signer lane has unresolved action outcome" s, Ok tt)
  | Ok [] =>
      let s := prune action_clock s in
      if operator_paused g || rate_reached (action_limit_per_minute (config (bound s))) s
      then (on_gate (fun g => set_state g PAUSE_ENTRIES
              (if operator_paused g then "operator pause" else "slot action limit reached")) s, Ok tt)
      else (on_gate (fun g => set_state g RUNNING "ready") s, Ok tt)
  end end end end.

(** * Markets of a slot *)

Definition follower_sizes (s : Slot) : dict dec :=
  match follower s with Some f => (fun mp => (mp.1, pos_size mp.2)) <$> ft_positions f | None => [] end.

Definition follower_position (market : string) (f : FollowerTruth) : Position :=
  default (flat_position market) (dict_get market (ft_positions f)).

(** [_needed] *)
Definition needed (allowed : list string) (unresolved : dict dec) (s : Slot) : gset string :=
  let values := AccountStream.dict_update (AccountStream.dict_update (attributable (attribution s)) (follower_sizes s)) unresolved in
  list_to_set (fst <$> List.filter (fun mv =>
    truthy mv.2 && (bool_decide (mv.1 ∈ allowed) || dict_mem mv.1 (follower_sizes s) || dict_mem mv.1 unresolved)) values).

(** [replace(source, size=size)] of an optional finite position. *)
Definition with_size {D E} (size : E) (p : PositionOf D) : PositionOf E :=
  MkPosition (pos_coin p) size (pos_entry_px p) (pos_leverage p) (pos_updated_ms p).

(** [_attributable_positions] *)
Definition attributable_positions (allowed : list string) (s : Slot) : dict RawPosition :=
  let source := AccountStream.positions (AccountStream.source_state (account s)) in
  (fun ms => (ms.1, with_size (Fin ms.2) (default (flat_position ms.1) (dict_get ms.1 source)))) <$>
  List.filter (fun ms => negb (bool_decide (ms.1 ∈ pending_catalog_markets (attribution s)))
                && truthy ms.2 && (bool_decide (allowed = []) || bool_decide (ms.1 ∈ allowed)))
    (attributable (attribution s)).

(** [_order_rules] *)
Definition order_rules (catalog : CatalogRevision) (market : string) : res HyperliquidPerpRules :=
  spec ← revision_market market catalog;
  match spec with
  | None => Raise (ValueError "market has no catalog order rules")
  | Some spec =>
      let r := perp_rules (cm_symbol spec) (cm_sz_decimals spec) (cm_max_leverage spec) in
      Ok (MkRules (r_market r) (r_sz_decimals r) (r_max_leverage r) (r_minimum_notional_usd r) (r_contract_size r)
            (r_market_type r) (margin_mode spec))
  end.

(** [_effective_allowed_markets] *)
Definition copyable (b : BoundContinuousSlot) (m : CatalogMarket) : bool :=
  negb (bool_decide (cm_symbol m ∈ denied_markets b)) && negb (is_delisted m) && negb (removal_tombstone m)
  && (collateral_token m =? 0) && negb (bool_decide (readiness m ∈ [DELISTED; UNTRUSTED])).

Definition effective_allowed_markets (b : BoundContinuousSlot) (c : CatalogRevision) : list string :=
  if negb (dynamic_market_eligibility b) then allowed_markets (config b)
  else py_sorted str_leb (cm_symbol <$> List.filter (copyable b) (cr_markets c)).

(** [_effective_config] *)
Definition effective_config (allowed : list string) (s : Slot) : ContinuousSlotConfig :=
  let c := config (bound s) in
  MkSlot (slot c) (source_address c) (follower_account_address c) (credential_profile_id c) (multiplier c)
    (max_order_notional_usd c) (max_gross_exposure_usd c) (max_open_positions c) (max_leverage c)
    (action_limit_per_minute c) allowed (slot_enabled c).
