(* ===== verification/Checkpoint.v ===== *)
(** continuous_runtime.py: what of a slot survives a restart.

    The table [continuous_state] maps a slot to a version and the text of its
    payload.  [json.loads] is a parameter; sizes are finite, as everything
    [save] writes. *)

From S2P Require Import Prelude PyDecimal PyText Models Markets ContinuousConfig Precision MarketCatalog Runtime.
From S2P Require AccountStream.
From Stdlib Require Import Ascii.

Open Scope Z_scope.

(** The rows of [continuous_state]. *)
Abbreviation store := (dict (Z * string)).

Definition dict_items {V} (to_json : V -> json) (d : dict V) : list (string * json) := (fun kv => (kv.1, to_json kv.2)) <$> d.

Definition strs (l : list string) : json := JList (JStr <$> l).

(** [_wire_decimals] *)
Definition wire_decimals (values : dict dec) : json := JObj (dict_items (fun d => JStr (dec_str d)) (nz values)).

(** [sorted(d.items())] *)
Definition by_market {V} (d : dict V) : dict V := py_sorted (fun a b => str_leb a.1 b.1) d.

Definition option_json (o : option string) : json := match o with Some s => JStr s | None => JNull end.

(** * Saving *)

Definition trigger_payload (t : Trigger) : json :=
  JObj [("price", JStr (dec_str (tr_price t))); ("time_ms", JInt (tr_time_ms t)); ("accepted_ms", JInt (tr_accepted_ms t))].

Definition fill_payload (f : fill_id) : json := strs [f.1.1; f.1.2; f.2].

(** [list[-n:]] *)
Definition last_n {A} (n : nat) (l : list A) : list A := drop (List.length l - n) l.

Definition follower_payload (f : option FollowerTruth) : res json :=
  match f with
  | None => Ok JNull
  | Some f =>
      positions ← sizes (ft_positions f);
      Ok (JObj [("positions", wire_decimals positions); ("equity", JStr (dec_str (ft_equity f)));
                ("observed_ms", JInt (ft_observed_ms f))])
  end.

(** The payload [save] writes. *)
Definition payload (s : Slot) : res (list (string * json)) :=
  let a := attribution s in
  f ← follower_payload (follower s);
  Ok [("identity", JObj (dict_items JStr (slot_identity s)));
      ("state", JStr (RuntimeState_value (state (gate s))));
      ("source", wire_decimals (default [] (expected_source s)));
      ("unattributed", wire_decimals (unattributed a));
      ("attributable", wire_decimals (attributable a));
      ("pending_catalog_markets", strs (py_sorted str_leb (elements (pending_catalog_markets a))));
      ("fills", JList (fill_payload <$> last_n 512 (applied_fills a)));
      ("triggers", JObj (dict_items trigger_payload (by_market (triggers a))));
      ("source_revisions", JObj (dict_items JInt (by_market (source_revisions a))));
      ("initial_follower_nonflat", JBool (initial_follower_nonflat (gate s)));
      ("fail_close_reason", option_json (fail_close_reason (gate s)));
      ("follower", f)].

Definition encode (p : list (string * json)) : string := of_chars (json_dumps (JObj p)).

(** [save] *)
Definition save (s : Slot) (db : store) : res store := p ← payload s; Ok (dict_set (slot (config (bound s))) (1, encode p) db).

(** [upgrade_identity] *)
Definition upgrade_identity (id : string) (p : list (string * json)) (identity : dict string) (db : store) : store :=
  match dict_get id db with
  | Some (1, _) => dict_set id (1, encode (dict_set "identity" (JObj (dict_items JStr identity)) p)) db
  | _ => db
  end.

(** * Loading *)

Section Load.
Variable loads : string -> option json.

Definition load (id : string) (db : store) : res (option (list (string * json))) :=
  match dict_get id db with
  | None => Ok None
  | Some (version, text) =>
      if negb (version =? 1) then Raise (ValueError "unsupported continuous state version") else
      match loads text with
      | Some (JObj o) => Ok (Some o)
      | Some _ => Raise (ValueError "malformed continuous state")
      | None => Raise (ValueError "JSONDecodeError")
      end
  end.
End Load.

(** [Decimal(str(v))] of a finite number. *)
Definition read_decimal (v : json) : res dec :=
  match decimal_of_string (py_str v) with
  | Some (Fin d) => Ok d
  | _ => Raise (ArithmeticError "InvalidOperation")
  end.

Definition read_entry {V} (read : json -> res V) (acc : dict V) (kv : string * json) : res (dict V) :=
  d ← read kv.2; Ok (dict_set kv.1 d acc).

(** A comprehension over [value.items()]. *)
Definition read_items {V} (read : json -> res V) (value : json) : res (dict V) :=
  match value with JObj o => fold_res (read_entry read) o [] | _ => Ok [] end.

(** [_read_decimals] *)
Definition read_decimals (value : json) : res (dict dec) := read_items read_decimal value.

(** [value[key]] *)
Definition item_of (key : string) (o : list (string * json)) : res json :=
  match obj_get key o with Some v => Ok v | None => Raise (KeyError key) end.

Definition read_trigger (acc : dict Trigger) (kv : string * json) : res (dict Trigger) :=
  match kv.2 with
  | JObj o =>
      price ← item_of "price" o;
      price ← read_decimal price;
      time ← item_of "time_ms" o;
      time_ms ← json_int time;
      accepted_ms ← json_int (default time (obj_get "accepted_ms" o));
      Ok (dict_set kv.1 (MkTrigger price time_ms accepted_ms) acc)
  | _ => Ok acc
  end.

Definition read_triggers (value : json) : res (dict Trigger) :=
  match value with JObj o => fold_res read_trigger o [] | _ => Ok [] end.

Definition read_fill (acc : list fill_id) (item : json) : list fill_id :=
  match item with
  | JList [a; b; c] =>
      let f := (py_str a, py_str b, py_str c) in
      if bool_decide (f ∈ acc) then acc else acc ++ [f]
  | _ => acc
  end.

Definition read_fills (value : option json) : res (list fill_id) :=
  match value with
  | None => Ok []
  | Some (JList l) => Ok (fold_left read_fill l [])
  | Some (JObj _ | JStr _) => Ok []
  | Some _ => Raise (TypeError "object is not iterable")
  end.

Definition read_revision (v : json) : res Z := n ← json_int v; Ok (Z.max 0 n).

Definition str_item (v : json) : option string := match v with JStr s => Some s | _ => None end.

Definition read_pending (value : option json) : res (gset string) :=
  match value with
  | None => Ok ∅
  | Some (JList l) =>
      match mapM str_item l with
      | Some names => ms ← map_res (fun m => canonical_market_symbol (JStr m)) names; Ok (list_to_set ms)
      | None => Raise (ValueError "malformed pending catalog state")
      end
  | Some _ => Raise (ValueError "malformed pending catalog state")
  end.

(** The identity the payload may have: the slot's own, or the one of before the
    denied markets were part of it. *)
Definition stored_identity_ok (stored : json) (identity : dict string) : res bool :=
  if json_eqb stored (JObj (dict_items JStr identity)) then Ok false else
  let legacy := List.filter (fun kv => negb (bool_decide (kv.1 = "denied_markets_sha256"))) identity in
  match stored with
  | JObj _ => if json_eqb stored (JObj (dict_items JStr legacy)) then Ok true
              else Raise (ValueError "continuous state identity mismatch")
  | _ => Raise (ValueError "continuous state identity mismatch")
  end.

(** A market whose copying was decided without the catalog: kept pending while the
    catalog does not have it, observed only when it may not be copied. *)
Definition settle_pending (c : CatalogRevision) (allowed : list string) (acc : Attribution * bool) (market : string)
    : res (Attribution * bool) :=
  let '(a, refresh) := acc in
  spec ← revision_market market c;
  match spec with
  | None =>
      if truthy (size_at (attributable a) market)
      then Ok (MkAttribution (unattributed a) (attributable a) ({[market]} ∪ pending_catalog_markets a)
                 (applied_fills a) (triggers a) (source_revisions a), true)
      else Ok (a, refresh)
  | Some _ =>
      if bool_decide (market ∈ allowed) then Ok (a, refresh) else
      let size := size_at (attributable a) market in
      Ok (MkAttribution (put_size (unattributed a) market (dadd (size_at (unattributed a) market) size))
            (dict_del market (attributable a)) (pending_catalog_markets a) (applied_fills a)
            (dict_del market (triggers a)) (source_revisions a), refresh)
  end.

(** Discovery intent reconstructed from the copied sizes. *)
Definition undiscovered (c : CatalogRevision) (acc : gset string) (ms : string * dec) : res (gset string) :=
  if negb (truthy ms.2) then Ok acc else
  spec ← revision_market ms.1 c;
  Ok (if absent spec then {[ms.1]} ∪ acc else acc).

(** [value is True] *)
Definition json_is_true (v : json) : bool := match v with JBool b => b | _ => false end.

(** A restored slot has a baseline, but no trusted source yet. *)
Definition restored_gate (nonflat : bool) (g : Gate) : Gate :=
  MkGate (state g) (reason g) (source_ready g) true nonflat (operator_paused g) (fail_close_reason g) (startup_blocker g).

(** The fields of the gate that are restored. *)
Definition restore_fail_close (p : list (string * json)) (g : Gate) : Gate :=
  match obj_field "fail_close_reason" p with
  | JStr r => if is_empty (py_strip r) then g else set_paused (set_fail_close g (Some (py_strip r))) true
  | _ => g
  end.

Definition restore_state (p : list (string * json)) (g : Gate) : Gate :=
  let stored := str_or_empty (obj_field "state" p) in
  if bool_decide (stored = RuntimeState_value OPERATOR_STOP) then set_state g OPERATOR_STOP "restored operator stop"
  else if bool_decide (stored = RuntimeState_value PAUSE_ENTRIES) then set_paused g true else g.

Definition restored_follower (p : list (string * json)) (prior : option (dict dec)) : res (option (dict dec)) :=
  match obj_field "follower" p with
  | JObj f => positions ← read_decimals (obj_field "positions" f); Ok (Some positions)
  | _ => Ok prior
  end.

(** [_restore] of a slot that was just made: the slot, the request for a catalog
    refresh, and whether the identity is to be upgraded. *)
Definition restore (c : CatalogRevision) (allowed : list string) (p : option (list (string * json))) (s : Slot)
    : res (Slot * bool * bool) :=
  match p with
  | None => Ok (s, false, false)
  | Some p =>
      upgraded ← stored_identity_ok (obj_field "identity" p) (slot_identity s);
      source ← read_decimals (obj_field "source" p);
      observed ← read_decimals (obj_field "unattributed" p);
      copied ← read_decimals (obj_field "attributable" p);
      pending ← read_pending (obj_get "pending_catalog_markets" p);
      pending ← (if dynamic_market_eligibility (bound s) then fold_res (undiscovered c) copied pending else Ok pending);
      follower_positions ← restored_follower p (restored_follower_positions s);
      fills ← read_fills (obj_get "fills" p);
      triggers ← read_triggers (obj_field "triggers" p);
      revisions ← read_items read_revision (obj_field "source_revisions" p);
      let a := MkAttribution observed copied ∅ fills triggers revisions in
      settled ← fold_res (settle_pending c allowed) (elements pending) (a, false);
      let g := restored_gate (json_is_true (obj_field "initial_follower_nonflat" p)) (gate s) in
      let g := restore_state p (restore_fail_close p g) in
      Ok (set_restored (set_expected (set_attribution (set_gate s g) settled.1) (Some source)) follower_positions,
          settled.2, upgraded)
  end.
