(* ===== verification/RuntimePlan.v ===== *)
(** continuous_runtime.py: from the state of the runtime to one prepared order.

    [plan_drive] is the decision the runtime takes under its locks: which
    correction to make, whether the slot may make it now, at which price and size,
    and whether the exposure of every slot together allows it.  The digest and
    the stored remainders of the lanes are parameters. *)

From S2P Require Import Prelude PyDecimal PyText Models Markets ContinuousConfig Precision OrderPreflight MarketCatalog MarketStream Runtime Checkpoint.
From S2P Require AccountStream DesiredEngine ActionJournal WsActions Executor.
From Stdlib Require Import Ascii.

Open Scope Z_scope.

(** The limits the runtime was constructed with. *)
Record RuntimeLimits := MkLimits {
  execution_enabled : bool;
  max_tracking_bps : dec;
  reduction_slippage_bps : dec;
  emergency_slippage_bps : dec;
  max_source_fill_age_ms : Z;
  source_age_ms : Z;
  market_age_ms : Z;
  follower_age_ms : Z;
  combined_gross_cap : dec;
}.

Record Runtime := MkRuntime {
  limits : RuntimeLimits;
  rt_catalog : CatalogRevision;
  rt_market : MarketStream;
  rt_slots : dict Slot;
  rt_allowed : dict (list string);
  reservations : dict (dict dec);
  prewarm_markets : gset string;
  source_open_epoch : option Z;
  catalog_refresh_request : bool;
  rt_journal : ActionJournal.db;
  rt_store : store;
  rt_mux : WsActions.mux;
  rt_locks : bool;
  rt_audited : dict (gset string);
}.

Section RuntimeUpdates.
Variable r : Runtime.
Definition set_slots v := MkRuntime (limits r) (rt_catalog r) (rt_market r) v (rt_allowed r) (reservations r)
  (prewarm_markets r) (source_open_epoch r) (catalog_refresh_request r) (rt_journal r) (rt_store r) (rt_mux r) (rt_locks r) (rt_audited r).
Definition set_reservations v := MkRuntime (limits r) (rt_catalog r) (rt_market r) (rt_slots r) (rt_allowed r) v
  (prewarm_markets r) (source_open_epoch r) (catalog_refresh_request r) (rt_journal r) (rt_store r) (rt_mux r) (rt_locks r) (rt_audited r).
Definition set_market v := MkRuntime (limits r) (rt_catalog r) v (rt_slots r) (rt_allowed r) (reservations r)
  (prewarm_markets r) (source_open_epoch r) (catalog_refresh_request r) (rt_journal r) (rt_store r) (rt_mux r) (rt_locks r) (rt_audited r).
Definition set_open_epoch v := MkRuntime (limits r) (rt_catalog r) (rt_market r) (rt_slots r) (rt_allowed r) (reservations r)
  (prewarm_markets r) v (catalog_refresh_request r) (rt_journal r) (rt_store r) (rt_mux r) (rt_locks r) (rt_audited r).
Definition set_refresh_request v := MkRuntime (limits r) (rt_catalog r) (rt_market r) (rt_slots r) (rt_allowed r)
  (reservations r) (prewarm_markets r) (source_open_epoch r) v (rt_journal r) (rt_store r) (rt_mux r) (rt_locks r) (rt_audited r).
Definition set_journal v := MkRuntime (limits r) (rt_catalog r) (rt_market r) (rt_slots r) (rt_allowed r) (reservations r)
  (prewarm_markets r) (source_open_epoch r) (catalog_refresh_request r) v (rt_store r) (rt_mux r) (rt_locks r) (rt_audited r).
Definition set_store v := MkRuntime (limits r) (rt_catalog r) (rt_market r) (rt_slots r) (rt_allowed r) (reservations r)
  (prewarm_markets r) (source_open_epoch r) (catalog_refresh_request r) (rt_journal r) v (rt_mux r) (rt_locks r) (rt_audited r).
Definition set_mux v := MkRuntime (limits r) (rt_catalog r) (rt_market r) (rt_slots r) (rt_allowed r) (reservations r)
  (prewarm_markets r) (source_open_epoch r) (catalog_refresh_request r) (rt_journal r) (rt_store r) v (rt_locks r) (rt_audited r).
Definition adopt_catalog c prewarm := MkRuntime (limits r) c (rt_market r) (rt_slots r) (rt_allowed r) (reservations r) prewarm
  (source_open_epoch r) (catalog_refresh_request r) (rt_journal r) (rt_store r) (rt_mux r) (rt_locks r) (rt_audited r).
Definition set_allowed v := MkRuntime (limits r) (rt_catalog r) (rt_market r) (rt_slots r) v (reservations r) (prewarm_markets r)
  (source_open_epoch r) (catalog_refresh_request r) (rt_journal r) (rt_store r) (rt_mux r) (rt_locks r) (rt_audited r).
Definition set_audited v := MkRuntime (limits r) (rt_catalog r) (rt_market r) (rt_slots r) (rt_allowed r) (reservations r) (prewarm_markets r)
  (source_open_epoch r) (catalog_refresh_request r) (rt_journal r) (rt_store r) (rt_mux r) (rt_locks r) v.
End RuntimeUpdates.

(** [self._slots[id]] *)
Definition slot_of (id : string) (r : Runtime) : res Slot :=
  match dict_get id (rt_slots r) with Some s => Ok s | None => Raise (KeyError id) end.

Definition put_slot (id : string) (s : Slot) (r : Runtime) : Runtime := set_slots r (dict_set id s (rt_slots r)).

Definition on_slot (id : string) (f : Slot -> Slot) (r : Runtime) : Runtime :=
  match dict_get id (rt_slots r) with Some s => put_slot id (f s) r | None => r end.

Definition allowed_of (id : string) (r : Runtime) : list string := default [] (dict_get id (rt_allowed r)).

(** * Fingerprints *)

Section Plan.
Variables (sha256 : string -> string) (loads : string -> option json).

Definition digest_of (j : json) : string := sha256 (of_chars (json_dumps j)).

(** What the signer lane of the slot still has outstanding. *)
Definition unresolved_of (r : Runtime) (s : Slot) : res (dict dec) :=
  Executor.unresolved_signed_remaining loads (lane s) (rt_journal r).

Definition leverage_text (l : option Z) : string := match l with Some n => str_of_Z n | None => "" end.

(** [_rejection_follower_fingerprint] *)
Definition rejection_fingerprint (f : FollowerTruth) (market : string) : string * string * string * string :=
  let position := follower_position market f in
  let portfolio := JList ((fun mp => JObj [("market", JStr mp.1); ("size", JStr (dec_str (pos_size mp.2)));
                                             ("leverage", JStr (leverage_text (pos_leverage mp.2)))])
                            <$> by_market (ft_positions f)) in
  (dec_str (pos_size position), leverage_text (pos_leverage position), dec_str (ft_equity f), digest_of portfolio).

Definition market_identity_payload (c : CatalogRevision) (market : string) : res json :=
  spec ← revision_market market c;
  Ok match spec with
     | None => JObj [("symbol", JStr market); ("missing", JBool true)]
     | Some m => JObj [("symbol", JStr (cm_symbol m)); ("dex", JStr (cm_dex m)); ("asset_id", JInt (asset_id m));
         ("dex_index", JInt (dex_index m)); ("universe_index", JInt (universe_index m));
         ("sz_decimals", JInt (cm_sz_decimals m)); ("max_leverage", JInt (cm_max_leverage m));
         ("margin_mode", JStr (margin_mode m)); ("collateral_token", JInt (collateral_token m));
         ("margin_table_id", match margin_table_id m with Some n => JInt n | None => JNull end)]
     end.

(** [_catalog_markets_sha256] *)
Definition catalog_markets_sha256 (c : CatalogRevision) (markets : list string) : res string :=
  identities ← map_res (market_identity_payload c) (py_sorted str_leb markets); Ok (digest_of (JList identities)).

(** [_liquidity_fingerprint] *)
Definition liquidity_fingerprint (v : MarketSnapshot) (side : string) (limit : dec) (include_context : bool) : list string :=
  let is_buy := bool_decide (side = "buy") in
  [side; dec_str limit] ++ (if include_context then [dec_str (sn_oracle_px v); dec_str (sn_mark_px v)] else []) ++
  ((fun l => dec_str (level_price l) +:+ ":" +:+ dec_str (level_size l)) <$>
     List.filter (inside_limit is_buy limit) (side_levels is_buy v)).

(** [_liquidity_retry_delay_ms] *)
Definition liquidity_retry_delay_ms (retry_count : Z) : res Z :=
  if retry_count <=? 0 then Raise (ValueError "liquidity retry count must be positive") else
  Ok (if retry_count =? 1 then 1000 else if retry_count =? 2 then 2000 else 5000).

(** * Corrections that need no price *)

Definition side_against (projected : dec) : string := if dpos projected then "sell" else "buy".

(** [_forced_close_action] *)
Fixpoint first_close (id why : string) (unresolved : dict dec) (positions : dict Position) : option NextAction :=
  match positions with
  | [] => None
  | (market, position) :: rest =>
      let pending := size_at unresolved market in
      let projected := dadd (pos_size position) pending in
      if negb (truthy projected) || truthy pending then first_close id why unresolved rest else
      Some (DesiredEngine.MkNextAction
              (digest_of (JList [JStr "fail-close-v1"; JStr id; JStr market; JStr (dec_str projected)]))
              market (side_against projected) (dabs projected) true ("fail-close: " +:+ why))
  end.

Definition forced_close_action (id : string) (s : Slot) (f : FollowerTruth) (unresolved : dict dec) : option NextAction :=
  first_close id (default "requested" (said (fail_close_reason (gate s)))) unresolved (by_market (ft_positions f)).

(** The positions that certainly are to be closed: nothing is copied any more, or the
    source went to the other side. *)
Definition reduction_candidate (s : Slot) (unresolved : dict dec) (mp : string * Position) : option (string * dec * dec) :=
  let '(market, position) := mp in
  let pending := size_at unresolved market in
  let projected := dadd (pos_size position) pending in
  let source := size_at (attributable (attribution s)) market in
  if negb (truthy projected) || truthy pending || (truthy source && negb (opposite source projected))
  then None else Some (market, projected, source).

(** The first candidate with a fresh price, else the first one. *)
Fixpoint first_fresh (r : Runtime) (now_ms : Z) (l : list (string * dec * dec)) : res (option (string * dec * dec)) :=
  match l with
  | [] => Ok None
  | c :: rest =>
      v ← fresh_snapshot c.1.1 now_ms (market_age_ms (limits r)) (rt_market r);
      match v with Some _ => Ok (Some c) | None => first_fresh r now_ms rest end
  end.

(** [_provable_reduction] *)
Definition provable_reduction (id : string) (r : Runtime) (s : Slot) (f : FollowerTruth) (unresolved : dict dec) (now_ms : Z)
    : res (option NextAction) :=
  match omap (reduction_candidate s unresolved) (by_market (ft_positions f)) with
  | [] => Ok None
  | first :: _ as candidates =>
      fresh ← first_fresh r now_ms candidates;
      let '(market, projected, source) := default first fresh in
      Ok (Some (DesiredEngine.MkNextAction
        (digest_of (JList [JStr "provable-close-v1"; JStr id; JStr market; JStr (dec_str projected); JStr (dec_str source)]))
        market (side_against projected) (dabs projected) true "close confirmed exposure before any opposite-side replan"))
  end.

(** * Exposure of all slots *)

Definition add_pending (values pending : dict dec) : dict dec :=
  fold_left (fun acc mv => dict_set mv.1 (dadd (size_at acc mv.1) mv.2) acc) pending values.

(** [self._reservations.get(id) or slot.lane.unresolved_signed_remaining()] *)
Definition pending_of (r : Runtime) (id : string) (s : Slot) : res (dict dec) :=
  match dict_get id (reservations r) with
  | Some (_ :: _ as p) => Ok p
  | _ => unresolved_of r s
  end.

(** The confirmed and the projected sizes of a slot, or nothing where they are not known. *)
Definition slot_exposure (r : Runtime) (now_ms : Z) (id : string) (s : Slot) : res (option (dict dec * dict dec)) :=
  match follower s with
  | Some f =>
      if negb (truth_fresh (follower_age_ms (limits r)) now_ms f) then Ok None else
      base ← sizes (ft_positions f);
      pending ← pending_of r id s;
      Ok (Some (nz base, nz (add_pending base pending)))
  | None => Ok None
  end.

(** Every slot in turn; the first unknown one ends the loop. *)
Fixpoint all_exposures (r : Runtime) (now_ms : Z) (slots : dict Slot) : res (option (dict (dict dec * dict dec))) :=
  match slots with
  | [] => Ok (Some [])
  | (id, s) :: rest =>
      e ← slot_exposure r now_ms id s;
      match e with
      | None => Ok None
      | Some e =>
          others ← all_exposures r now_ms rest;
          Ok match others with Some l => Some ((id, e) :: l) | None => None end
      end
  end.

Definition exposure_markets (e : dict dec * dict dec) : list string :=
  elements (list_to_set (dict_keys e.1) ∪ list_to_set (dict_keys e.2) : gset string).

(** The larger of the confirmed and the projected size, at the mark price. *)
Fixpoint gross_of (mark : string -> res (option dec)) (e : dict dec * dict dec) (markets : list string) (total : dec)
    : res (dec + string) :=
  match markets with
  | [] => Ok (inl total)
  | m :: rest =>
      px ← mark m;
      match px with
      | None => Ok (inr ("combined exposure lacks fresh " +:+ m +:+ " price"))
      | Some px => gross_of mark e rest (dadd total (dmul (dmax (dabs (size_at e.1 m)) (dabs (size_at e.2 m))) px))
      end
  end.

(** The mark price of a market, or the limit price of the order itself. *)
Definition mark_price (r : Runtime) (now_ms : Z) (own : bool) (market : string) (price : dec) (m : string) : res (option dec) :=
  if own && bool_decide (m = market) then Ok (Some price) else
  v ← fresh_snapshot m now_ms (market_age_ms (limits r)) (rt_market r); Ok (option_map sn_mark_px v).

Fixpoint all_gross (r : Runtime) (now_ms : Z) (id market : string) (price : dec) (l : dict (dict dec * dict dec))
    : res (dict dec + string) :=
  match l with
  | [] => Ok (inl [])
  | (other, e) :: rest =>
      g ← gross_of (mark_price r now_ms (bool_decide (other = id)) market price) e (exposure_markets e) dzero;
      match g with
      | inr why => Ok (inr why)
      | inl total =>
          gs ← all_gross r now_ms id market price rest;
          Ok match gs with inl gs => inl ((other, total) :: gs) | inr why => inr why end
      end
  end.

(** The position before and after the action, with everything outstanding counted. *)
Definition exposure_change (r : Runtime) (id : string) (s : Slot) (f : FollowerTruth) (a : NextAction) : res (dec * dec) :=
  current ← sizes (ft_positions f);
  pending ← pending_of r id s;
  let before := size_at (add_pending current pending) (DesiredEngine.na_market a) in
  Ok (before, dadd before (DesiredEngine.signed_size a)).

(** [_exposure]: the reason not to send, if there is one. *)
Definition exposure (r : Runtime) (id : string) (s : Slot) (f : FollowerTruth) (a : NextAction) (price : dec) (now_ms : Z)
    : res (option string) :=
  ba ← exposure_change r id s f a;
  let '(before, after) := ba in
  if dleb (dabs after) (dabs before) then Ok None else
  let market := DesiredEngine.na_market a in
  all ← all_exposures r now_ms (rt_slots r);
  match all with
  | None => Ok (Some "combined exposure is unknown or stale for another slot")
  | Some all =>
      match dict_get id all with
      | None => Raise (KeyError id)
      | Some (base, values) =>
          let own := (base, dict_set market after values) in
          if max_open_positions (config (bound s)) <? Z.of_nat (List.length (exposure_markets own))
          then Ok (Some "projected position count exceeds the slot cap") else
          gs ← all_gross r now_ms id market price (dict_set id own all);
          match gs with
          | inr why => Ok (Some why)
          | inl gross =>
              let cap := dmin (max_gross_exposure_usd (config (bound s)))
                              (dmul (ft_equity f) (dint (max_leverage (config (bound s))))) in
              if dltb cap (size_at gross id) then Ok (Some "projected slot gross exceeds collateral/config cap") else
              if dltb (combined_gross_cap (limits r)) (dsum (dict_values gross))
              then Ok (Some "projected combined gross exceeds the plan cap") else Ok None
          end
      end
  end.
End Plan.
