(* ===== verification/RuntimeDrive.v ===== *)
(** continuous_runtime.py: [_plan_drive].

    The plan of one correction runs under the lock of the slot.  A step of it
    changes the runtime and either goes on or leaves with an action and a reason,
    the early returns of the code.  The set of needed markets is walked in one
    fixed order. *)

From S2P Require Import Prelude PyDecimal PyText Models Markets ContinuousConfig Precision OrderPreflight MarketCatalog MarketStream Runtime Checkpoint RuntimePlan.
From S2P Require AccountStream DesiredEngine ActionJournal WsActions Executor.
From Stdlib Require Import Ascii.

Open Scope Z_scope.

(** * Steps with an early return *)

Definition Drive (A : Type) : Type := ST Runtime (A + (option NextAction * string)).

Definition dret {A} (a : A) : Drive A := jret (inl a).
Definition leave {A} (action : option NextAction) (why : string) : Drive A := jret (inr (action, why)).
Definition dquery {A} (q : Runtime -> res A) : Drive A := let! a := jquery q in jret (inl a).
Definition dbind {A B} (m : Drive A) (k : A -> Drive B) : Drive B :=
  let! x := m in match x with inl a => k a | inr out => jret (inr out) end.

Declare Scope drive_scope.
Notation "'let?' x := m 'in' k" := (dbind m (fun x => k))
  (at level 200, x pattern, m at level 100, k at level 200) : drive_scope.
Open Scope drive_scope.

(** The slot itself, and a change of it. *)
Definition this (id : string) : Drive Slot := dquery (slot_of id).
Definition tell (id : string) (f : Slot -> Slot) : Drive unit := let! _ := jmodify (on_slot id f) in jret (inl ()).

(** Change the slot, then leave with its reason. *)
Definition halt {A} (id : string) (action : option NextAction) (f : Slot -> Slot) : Drive A :=
  let? _ := tell id f in let? s := this id in leave action (reason (gate s)).

Definition pause (why : string) : Slot -> Slot := on_gate (fun g => set_state g PAUSE_ENTRIES why).

(** [self._store.save(slot)] *)
Definition save_slot (id : string) : ST Runtime unit := fun r =>
  match (s ← slot_of id r; save s (rt_store r)) with
  | Ok db => (set_store r db, Ok tt)
  | Raise e => (r, Raise e)
  end.

(** What the clocks read while one order is planned. *)
Record DriveClocks := MkDriveClocks {
  ready_clock : Z;
  rate_clock : Z;
  gate_elapsed : Z;
}.


Inductive ExecutionClass := EMERGENCY_REDUCTION | ENTRY | NORMAL_REDUCTION.

#[export] Instance ExecutionClass_eq_dec : EqDecision ExecutionClass.
Proof. solve_decision. Defined.

Record PreparedIoc := MkPreparedIoc {
  pi_action : NextAction;
  pi_snapshot : MarketSnapshot;
  pi_executable : ExecutableIoc;
  pi_required_epoch : Z;
  pi_retry_count : Z;
  pi_source_revision : Z;
}.

(** The action, priced and sized. *)
Record Priced := MkPriced {
  pr_snapshot : MarketSnapshot;
  pr_executable : ExecutableIoc;
  pr_retry_count : Z;
  pr_source_revision : Z;
}.

Section Drive.
Variables (sha256 : string -> string) (loads : string -> option json).

(** [_ready] of the slot. *)
Definition ready_slot (id : string) (now_ms clock : Z) : ST Runtime unit := fun r =>
  match slot_of id r with
  | Raise e => (r, Raise e)
  | Ok s =>
      let '(s, result) := ready (source_age_ms (limits r)) (follower_age_ms (limits r)) now_ms clock (unresolved_of loads r s) s in
      (put_slot id s r, result)
  end.

(** ** Whether the slot may act now *)

(** Under a forced close: the position to close next. *)
Definition start_flatten (id : string) (now_ms : Z) : Drive (option NextAction) :=
  let? s := this id in
  if bool_decide (state (gate s) = OPERATOR_STOP) then leave None (reason (gate s)) else
  let? age := dquery (fun r => Ok (follower_age_ms (limits r))) in
  match follower s with
  | None => halt id None (block "fail-close requires fresh follower truth")
  | Some f =>
      if negb (truth_fresh age now_ms f) then halt id None (block "fail-close requires fresh follower truth") else
      let? unresolved := dquery (fun r => unresolved_of loads r s) in
      if negb (bool_decide (unresolved = [])) then halt id None (block "fail-close is resolving an earlier action") else
      match forced_close_action sha256 id s f unresolved with
      | Some a => dret (Some a)
      | None =>
          let? _ := tell id (pause ("fail-close complete: " +:+ default "requested" (said (fail_close_reason (gate s))))) in
          let! _ := save_slot id in
          let? s := this id in leave None (reason (gate s))
      end
  end.

Definition start_ready (id : string) (now_ms clock : Z) : Drive (option NextAction) :=
  let! _ := ready_slot id now_ms clock in
  let? s := this id in
  if bool_decide (state (gate s) ∈ [RECOVERING; OPERATOR_STOP]) then leave None (reason (gate s)) else dret None.

(** ** Which correction to make *)

Definition source_equity_of (s : Slot) : option dec :=
  let v := AccountStream.snapshot AccountStream.SOURCE (account s) in
  if bool_decide (AccountStream.source_account_mode (account s) = "standard")
  then Some (AccountStream.perp_equity_total v)
  else AccountStream.total <$> AccountStream.collateral (AccountStream.sn_state v).

(** The fresh snapshots of the markets, or the first market without one. *)
Fixpoint snapshots_of (now_ms : Z) (markets : list string) (r : Runtime) : res (dict MarketSnapshot + string) :=
  match markets with
  | [] => Ok (inl [])
  | m :: rest =>
      v ← fresh_snapshot m now_ms (market_age_ms (limits r)) (rt_market r);
      match v with
      | None => Ok (inr m)
      | Some v =>
          others ← snapshots_of now_ms rest r;
          Ok match others with inl l => inl ((m, v) :: l) | inr m => inr m end
      end
  end.

Definition market_rules_of (markets : list string) (r : Runtime) : res (dict HyperliquidPerpRules) :=
  map_res (fun m => rules ← order_rules (rt_catalog r) m; Ok (m, rules)) markets.

(** The desired portfolio and the decision towards it. *)
Definition decide_copy (id : string) (s : Slot) (f : FollowerTruth) (equity : dec) (unresolved : dict dec)
    (snapshots : dict MarketSnapshot) (r : Runtime) : res DesiredEngine.ActionDecision :=
  let cfg := effective_config (allowed_of id r) s in
  let mids := (fun mv => (mv.1, Fin (sn_mark_px mv.2))) <$> snapshots in
  let decimals := (fun mv => (mv.1, sn_sz_decimals mv.2)) <$> snapshots in
  desired ← DesiredEngine.build_desired_portfolio sha256 cfg (attributable_positions (allowed_of id r) s)
              (Fin equity) (Fin (ft_equity f)) mids;
  rules ← market_rules_of (dict_keys snapshots) r;
  DesiredEngine.choose_next_action cfg desired (ft_positions f) unresolved mids decimals (Some rules).

Definition copy_correction (id : string) (now_ms : Z) (s : Slot) (f : FollowerTruth) (unresolved : dict dec) : Drive NextAction :=
  match source_equity_of s with
  | None => halt id None (block "Unified source collateral truth is unavailable")
  | Some equity =>
      if dleb equity dzero then halt id None (block "source sizing equity is not positive and finite") else
      let? snapshots := dquery (fun r => snapshots_of now_ms (elements (needed (allowed_of id r) unresolved s)) r) in
      match snapshots with
      | inr m => halt id None (block ("market " +:+ m +:+ " is not executable"))
      | inl snapshots =>
          let? d := dquery (decide_copy id s f equity unresolved snapshots) in
          match DesiredEngine.action d with
          | Some a => dret a
          | None =>
              let why := default "" (DesiredEngine.blocker d) in
              let? _ := tell id (if contains "unresolved attempted action" why then block why else fun s => s) in
              leave None (if is_empty why then "desired and follower state agree" else why)
          end
      end
  end.

Definition correction (id : string) (now_ms : Z) (s : Slot) (f : FollowerTruth) (unresolved : dict dec)
    (forced : option NextAction) : Drive NextAction :=
  match forced with
  | Some a => dret a
  | None =>
      let? a := dquery (fun r => provable_reduction sha256 id r s f unresolved now_ms) in
      match a with Some a => dret a | None => copy_correction id now_ms s f unresolved end
  end.

(** ** Whether the slot may send it *)

Definition projected_before (f : FollowerTruth) (unresolved : dict dec) (market : string) : dec :=
  dadd (pos_size (follower_position market f)) (size_at unresolved market).

Definition is_increasing (before : dec) (a : NextAction) : bool :=
  dltb (dabs before) (dabs (dadd before (DesiredEngine.signed_size a))).

Definition class_of (force increasing : bool) : ExecutionClass :=
  if force then EMERGENCY_REDUCTION else if increasing then ENTRY else NORMAL_REDUCTION.

(** A target the venue refused stays refused while its evidence is unchanged. *)
Definition rejection_stands (f : FollowerTruth) (a : NextAction) (rejected : RejectedTarget) (c : CatalogRevision) : res bool :=
  let market := DesiredEngine.na_market a in
  if negb (bool_decide (rj_desired_id rejected = DesiredEngine.na_desired_id a)
           && bool_decide (rj_follower_fingerprint rejected = rejection_fingerprint sha256 f market)) then Ok false else
  identity ← catalog_markets_sha256 sha256 c [market];
  Ok (bool_decide (rj_market_identity_sha256 rejected = identity)).

Definition check_rejected (id : string) (f : FollowerTruth) (a : NextAction) : Drive unit :=
  let? s := this id in
  match dict_get (DesiredEngine.na_market a) (rejected_targets (pacing s)) with
  | None => dret tt
  | Some rejected =>
      let? stands := dquery (fun r => rejection_stands f a rejected (rt_catalog r)) in
      if stands : bool
      then leave (Some a) ("unchanged target remains blocked after rejection: " +:+ rj_reason rejected)
      else tell id (on_pacing (fun p => set_rejected (dict_del (DesiredEngine.na_market a) (rejected_targets p)) p))
  end.

Definition rate_limit (b : BoundContinuousSlot) (increasing : bool) : Z :=
  let entry := action_limit_per_minute (config b) in
  if increasing then entry else entry + Z.max 2 (entry / 2).

Definition check_rate (id : string) (force increasing : bool) (clock : Z) (a : NextAction) : Drive unit :=
  let? s := this id in
  if bool_decide (state (gate s) = PAUSE_ENTRIES) && increasing then leave (Some a) (reason (gate s)) else
  let? _ := tell id (prune clock) in
  let? s := this id in
  if negb force && rate_reached (rate_limit (bound s) increasing) s
  then halt id (Some a) (pause "slot action limit reached") else dret tt.

(** ** Its price and size *)

Definition drop_retry (market : string) : Slot -> Slot :=
  on_pacing (fun p => set_retries (dict_del market (liquidity_retries p)) p).

(** The retry that still speaks of this target, if any. *)
Definition current_retry (id : string) (a : NextAction) (revision : Z) : Drive (option LiquidityRetry) :=
  let market := DesiredEngine.na_market a in
  let? s := this id in
  match dict_get market (liquidity_retries (pacing s)) with
  | None => dret None
  | Some retry =>
      if negb (bool_decide (lr_desired_id retry = DesiredEngine.na_desired_id a)) || negb (lr_source_revision retry =? revision)
      then let? _ := tell id (drop_retry market) in dret None
      else dret (Some retry)
  end.

(** The bound on the price and on its distance from the best one: an entry is bound by
    the price of the leader's fill, a reduction by the book. *)
Definition envelope (l : RuntimeLimits) (class : ExecutionClass) (trigger : option Trigger) (a : NextAction) (v : MarketSnapshot)
    : res (option pydec * option pydec) :=
  match class with
  | ENTRY =>
      match trigger with
      | None => Raise (AssertionError "trigger")
      | Some t =>
          hard ← aggressive_ioc_price (Fin (tr_price t)) (bool_decide (DesiredEngine.na_side a = "buy"))
                   (Fin (max_tracking_bps l)) (sn_sz_decimals v);
          Ok (Some (Fin hard), None)
      end
  | EMERGENCY_REDUCTION => Ok (None, Some (Fin (emergency_slippage_bps l)))
  | NORMAL_REDUCTION => Ok (None, Some (Fin (reduction_slippage_bps l)))
  end.

(** What the book offers inside the envelope, cut to the order cap. *)
Definition capped_ioc (v : MarketSnapshot) (is_buy : bool) (size cap : dec) (hard buffer : option pydec) : res (option ExecutableIoc) :=
  executable ← executable_ioc v is_buy (Fin size) buffer hard;
  match executable with
  | Some e =>
      if dltb cap (dmul (ioc_size e) (limit_px e)) then
        ratio ← ddiv cap (limit_px e);
        lots ← quantize_size (Fin ratio) (sn_sz_decimals v);
        if dltb dzero lots then executable_ioc v is_buy (Fin (dmin size (dabs lots))) buffer hard else Ok None
      else Ok (Some e)
  | None => Ok None
  end.

(** When the market data the retry waits for was observed. *)
Definition observed_of (retry : LiquidityRetry) (v : MarketSnapshot) : Z :=
  if observe_context retry then context_received_ms v else Z.max (bbo_received_ms v) (book_received_ms v).

(** The reason the retry still waits, once the order is priced. *)
Definition retry_waits (retry : LiquidityRetry) (gate_now_ms : Z) (a : NextAction) (v : MarketSnapshot) (e : ExecutableIoc)
    : option string :=
  if negb (require_market_observation retry) then None
  else if observed_of retry v <=? after_observed_ms retry
  then Some ("waiting for post-result market data after " +:+ lr_reason retry)
  else if bool_decide (liquidity_fingerprint v (DesiredEngine.na_side a) (limit_px e) (observe_context retry)
                       = liquidity_fingerprint_of retry) && (gate_now_ms <? not_before_ms retry)
  then Some ("waiting before unchanged-liquidity retry after " +:+ lr_reason retry)
  else None.

Definition no_liquidity_reason : string :=
  "latest target is waiting: current BBO is outside the source-fill price cap or has no executable liquidity".

Definition check_retry (id : string) (retry : option LiquidityRetry) (gate_now_ms : Z) (a : NextAction) (v : MarketSnapshot)
    (e : ExecutableIoc) : Drive Z :=
  match retry with
  | None => dret 0
  | Some retry =>
      match retry_waits retry gate_now_ms a v e with
      | Some why => leave (Some a) why
      | None => let? _ := tell id (drop_retry (DesiredEngine.na_market a)) in dret (retry_count retry)
      end
  end.

(** From the action to a limit price and a size the book can fill. *)
Definition price_action (id : string) (force increasing : bool) (gate_now_ms : Z) (a : NextAction) : Drive Priced :=
  let market := DesiredEngine.na_market a in
  let? found := dquery (fun r => fresh_snapshot market gate_now_ms (market_age_ms (limits r)) (rt_market r)) in
  match found with
  | None => halt id (Some a) (block ("market " +:+ market +:+ " became stale before send"))
  | Some v =>
      let? s := this id in
      let revision := default 0 (dict_get market (source_revisions (attribution s))) in
      let? retry := current_retry id a revision in
      if match retry with
         | Some retry => negb (require_market_observation retry) && (gate_now_ms <? not_before_ms retry)
         | None => false
         end
      then leave (Some a) ("waiting after " +:+ match retry with Some retry => lr_reason retry | None => "" end) else
      let trigger := if increasing then dict_get market (triggers (attribution s)) else None in
      if increasing && absent trigger
      then halt id (Some a) (pause "entry has no accepted post-baseline source fill") else
      let? bounds := dquery (fun r => envelope (limits r) (class_of force increasing) trigger a v) in
      let? executable := dquery (fun _ => capped_ioc v (bool_decide (DesiredEngine.na_side a = "buy")) (DesiredEngine.na_size a)
                                   (max_order_notional_usd (config (bound s))) bounds.1 bounds.2) in
      match executable with
      | None =>
          if increasing then halt id (Some a) (pause no_liquidity_reason)
          else halt id (Some a) (block "reduction has no executable liquidity inside its price envelope")
      | Some e => let? count := check_retry id retry gate_now_ms a v e in dret (MkPriced v e count revision)
      end
  end.

(** ** The last gate *)

Definition preflight_of (s : Slot) (f : FollowerTruth) (before : dec) (a : NextAction) (e : ExecutableIoc) (r : Runtime)
    : res OrderPreflightResult :=
  rules ← order_rules (rt_catalog r) (DesiredEngine.na_market a);
  preflight_hyperliquid_perp_order rules (Fin (ioc_size e)) (Fin (limit_px e)) (DesiredEngine.na_reduce_only a)
    (Fin before) (pos_leverage (follower_position (DesiredEngine.na_market a) f)) None
    (DesiredEngine.na_side a) (Fin (max_order_notional_usd (config (bound s)))).

Definition with_action_size (size : dec) (a : NextAction) : NextAction :=
  DesiredEngine.MkNextAction (DesiredEngine.na_desired_id a) (DesiredEngine.na_market a) (DesiredEngine.na_side a) size
    (DesiredEngine.na_reduce_only a) (DesiredEngine.na_reason a).

(** Reserve the exposure, then read the epoch the order is to be sent in. *)
Definition reserve (id : string) (a : NextAction) : ST Runtime Z :=
  let! _ := jmodify (fun r => set_reservations r
              (dict_set id [(DesiredEngine.na_market a, DesiredEngine.signed_size a)] (reservations r))) in
  let! epoch := jquery (fun r => WsActions.capture_epoch (rt_mux r)) in
  let! _ := jmodify (on_slot id bump_truth) in jret epoch.

Definition commit (id : string) (f : FollowerTruth) (before : dec) (gate_now_ms : Z) (a : NextAction) (p : Priced) : Drive PreparedIoc :=
  let e := pr_executable p in
  let? s := this id in
  let? eligibility := dquery (preflight_of s f before a e) in
  if negb (placeable eligibility)
  then halt id (Some a) (pause ("order preflight rejected: " +:+ pf_reason eligibility)) else
  let a := with_action_size (ioc_size e) a in
  let? locks := dquery (fun r => Ok (rt_locks r)) in
  if negb locks then halt id (Some a) (block "exclusive account/signer ownership was lost") else
  let? blocker := dquery (fun r => exposure loads r id s f a (limit_px e) gate_now_ms) in
  match blocker with
  | Some why => let? _ := tell id (pause why) in leave (Some a) why
  | None =>
      let? armed := dquery (fun r => Ok (execution_enabled (limits r))) in
      if negb armed then leave (Some a) "execution disarmed" else
      let! epoch := reserve id a in
      dret (MkPreparedIoc a (pr_snapshot p) e epoch (pr_retry_count p) (pr_source_revision p))
  end.

(** [_plan_drive] *)
Definition plan_drive (t : DriveClocks) (id : string) (now_ms : Z) (force : bool) : Drive PreparedIoc :=
  let? forced := (if force then start_flatten id now_ms else start_ready id now_ms (ready_clock t)) in
  let? s := this id in
  match follower s with
  | None => jraise (AssertionError "follower")
  | Some f =>
      let? unresolved := dquery (fun r => unresolved_of loads r s) in
      let? a := correction id now_ms s f unresolved forced in
      let before := projected_before f unresolved (DesiredEngine.na_market a) in
      let increasing := is_increasing before a in
      let? _ := check_rejected id f a in
      let? _ := check_rate id force increasing (rate_clock t) a in
      let gate_now_ms := now_ms + Z.max 0 (gate_elapsed t) in
      let? priced := price_action id force increasing gate_now_ms a in
      commit id f before gate_now_ms a priced
  end.
End Drive.
