(* ===== verification/RuntimeFold.v ===== *)
(** continuous_runtime.py: [_fold] and [_drive], from one planned order to its result.

    The signer lane runs between two locked parts of [_drive]; what other tasks
    change meanwhile is an argument [meanwhile] that may be any change of the
    runtime, applied before the outcome is folded. *)

From S2P Require Import Prelude PyDecimal PyText Models Markets ContinuousConfig Precision OrderPreflight MarketCatalog MarketStream Runtime Checkpoint RuntimePlan RuntimeDrive.
From S2P Require AccountStream DesiredEngine ActionJournal WsActions Executor.
From Stdlib Require Import Ascii.

Open Scope Z_scope.

(** * Folding the outcome of one order *)

Definition NO_LIQUIDITY : list string :=
  ["could not immediately match against any resting orders"; "no liquidity"; "ioc cancel"].

Definition TRANSIENT : list string := ["rate limit"; "temporar"; "overload"; "unavailable"; "try again"; "timeout"].

Definition VENUE_STATE : list string :=
  ["positionincreaseatopeninterestcap"; "positionflipatopeninterestcap"; "tooaggressiveatopeninterestcap";
   "openinterestincrease"; "order would increase open interest while open interest is capped";
   "order rejected due to price more aggressive than oracle while at open interest cap";
   "order would increase open interest too quickly"; "order price too far from oracle"].

Definition mentions (fragments : list string) (text : string) : bool := existsb (fun f => contains f text) fragments.

(** [lowered.partition(":")[2].strip() if ":" in lowered else lowered] *)
Definition rejection_detail (lowered : string) : string :=
  if contains ":" lowered then py_strip (of_chars (split_at ":"%char (to_chars lowered)).2) else lowered.

Definition no_liquidity (o : WsActions.PostOutcome) (lowered : string) : bool :=
  match o with
  | WsActions.PO_CANCELLED => true
  | WsActions.PO_REJECTED => mentions NO_LIQUIDITY lowered
  | _ => false
  end.

Definition is_partial (o : WsActions.PostOutcome) : bool := match o with WsActions.PO_PARTIALLY_FILLED => true | _ => false end.

(** Why the market is tried again, if it is. *)
Inductive RetryKind := NO_FILL | TRANSIENT_REJECTION | VENUE_REJECTION | PARTIAL_FILL.

Definition retry_reason (k : RetryKind) : string :=
  match k with
  | NO_FILL => "terminal IOC no-fill"
  | TRANSIENT_REJECTION => "transient exchange rejection"
  | VENUE_REJECTION => "venue market-state rejection"
  | PARTIAL_FILL => "terminal IOC partial fill"
  end.

Definition observes_context (k : RetryKind) : bool := match k with VENUE_REJECTION => true | _ => false end.
Definition observes_market (k : RetryKind) : bool := match k with TRANSIENT_REJECTION => false | _ => true end.

(** The retry that is scheduled, [observed] being the clock at the end of the order. *)
Definition make_retry (k : RetryKind) (observed : Z) (a : NextAction) (p : PreparedIoc) : res LiquidityRetry :=
  let v := pi_snapshot p in
  let count := pi_retry_count p + 1 in
  let floor := Z.max (Z.max observed (bbo_received_ms v)) (book_received_ms v) in
  delay ← (match k with TRANSIENT_REJECTION => Ok TRANSIENT_REJECTION_RETRY_MS | _ => liquidity_retry_delay_ms count end);
  Ok (MkRetry (DesiredEngine.na_desired_id a) (pi_source_revision p) (observed + delay)
        (if observes_context k then Z.max floor (context_received_ms v) else floor)
        (liquidity_fingerprint v (DesiredEngine.na_side a) (limit_px (pi_executable p)) (observes_context k))
        count (observes_market k) (observes_context k) (retry_reason k)).

Section Fold.
Variable sha256 : string -> string.

Definition schedule (k : RetryKind) (observed : Z) (a : NextAction) (p : PreparedIoc) : ST Slot unit :=
  let! retry := jlift (make_retry k observed a p) in
  jmodify (on_pacing (fun q => set_retries (dict_set (DesiredEngine.na_market a) retry (liquidity_retries q)) q)).

(** A refusal that is not transient: the target is not tried again as it is. *)
Definition reject_target (c : CatalogRevision) (a : NextAction) (why : string) : ST Slot unit := fun s =>
  match follower s with
  | None => (s, Raise (AssertionError "follower"))
  | Some f =>
      let market := DesiredEngine.na_market a in
      match catalog_markets_sha256 sha256 c [market] with
      | Raise e => (s, Raise e)
      | Ok identity =>
          let rejected := MkRejected (DesiredEngine.na_desired_id a) (rejection_fingerprint sha256 f market) identity why in
          (on_pacing (fun q => set_rejected (dict_set market rejected (rejected_targets q)) q) s, Ok tt)
      end
  end.

Definition forget_market (market : string) : Slot -> Slot :=
  on_pacing (fun q => set_rejected (dict_del market (rejected_targets q)) (set_retries (dict_del market (liquidity_retries q)) q)).

Definition positions_after (f : FollowerTruth) (market : string) (size : dec) : dict Position :=
  if truthy size
  then dict_set market (MkPosition market size (pos_entry_px (follower_position market f)) (pos_leverage (follower_position market f))
                          (pos_updated_ms (follower_position market f))) (ft_positions f)
  else dict_del market (ft_positions f).

Definition with_positions (ps : dict Position) (f : FollowerTruth) : FollowerTruth :=
  MkTruth ps (ft_equity f) (ft_observed_ms f) (ft_dex_observed_ms f) (ft_available_collateral f).

Definition filled_signed (a : NextAction) (filled : dec) : dec :=
  if bool_decide (DesiredEngine.na_side a = "buy") then filled else dopp filled.

(** A fill: the position it leaves, and a retry of the rest. *)
Definition fold_fill (observed : Z) (a : NextAction) (result : WsActions.PostResult) (same : bool) (p : PreparedIoc) : ST Slot unit :=
  let market := DesiredEngine.na_market a in
  let! _ := jmodify (forget_market market) in
  fun s =>
  match follower s with
  | None => (s, Raise (AssertionError "follower"))
  | Some f =>
      let prior := pos_size (follower_position market f) in
      let size := dadd prior (filled_signed a (WsActions.post_filled_size result)) in
      if DesiredEngine.na_reduce_only a && opposite size prior
      then (block "reduce-only fill crossed confirmed follower truth" s, Ok tt) else
      let s := set_follower s (Some (with_positions (positions_after f market size) f)) in
      if is_partial (WsActions.post_outcome result) && same
      then schedule PARTIAL_FILL observed a p s else (s, Ok tt)
  end.

Definition fold_rejection (c : CatalogRevision) (observed : Z) (a : NextAction) (result : WsActions.PostResult) (same : bool)
    (p : PreparedIoc) : ST Slot unit :=
  let detail := rejection_detail (py_lower (WsActions.post_reason result)) in
  if negb same then jret tt
  else if mentions TRANSIENT detail then schedule TRANSIENT_REJECTION observed a p
  else if mentions VENUE_STATE detail then schedule VENUE_REJECTION observed a p
  else reject_target c a (WsActions.post_reason result).

(** [_fold] *)
Definition fold (c : CatalogRevision) (observed : Z) (a : NextAction) (result : WsActions.PostResult) (p : PreparedIoc)
    : ST Slot unit := fun s =>
  let market := DesiredEngine.na_market a in
  let same := default 0 (dict_get market (source_revisions (attribution s))) =? pi_source_revision p in
  match WsActions.post_outcome result with
  | WsActions.PO_UNKNOWN => (block "IOC outcome is unknown" s, Ok tt)
  | outcome =>
      if no_liquidity outcome (py_lower (WsActions.post_reason result))
      then if same then schedule NO_FILL observed a p s else (s, Ok tt) else
      match outcome with
      | WsActions.PO_REJECTED => fold_rejection c observed a result same p s
      | WsActions.PO_FILLED | WsActions.PO_PARTIALLY_FILLED => fold_fill observed a result same p s
      | _ => (s, Ok tt)
      end
  end.
End Fold.

(** * Driving one slot *)

(** What [except (TypeError, ValueError)] catches, and its text. *)
Definition caught_text (e : exn) : option string :=
  match e with
  | TypeError msg | ValueError msg | MarketIdentityError msg | AccountStreamError msg | MarketStreamError msg => Some msg
  | _ => None
  end.

(** [f"{type(exc).__name__}: {exc}"] *)
Definition exn_text (e : exn) : string :=
  match e with
  | ValueError m => "ValueError: " +:+ m
  | MarketIdentityError m => "MarketIdentityError: " +:+ m
  | AccountStreamError m => "AccountStreamError: " +:+ m
  | MarketStreamError m => "MarketStreamError: " +:+ m
  | UnifiedAccountStateError m => "UnifiedAccountStateError: " +:+ m
  | ArithmeticError m => "ArithmeticError: " +:+ m
  | TypeError m => "TypeError: " +:+ m
  | KeyError m => "KeyError: " +:+ m
  | RuntimeError m => "RuntimeError: " +:+ m
  | RestThrottleBacklogError m => "RestThrottleBacklogError: " +:+ m
  | AssertionError m => "AssertionError: " +:+ m
  | IntegrityError m => "IntegrityError: " +:+ m
  | ConnectionError m => "ConnectionError: " +:+ m
  | FollowerTruthError m => "FollowerTruthError: " +:+ m
  | OtherError cls m => cls +:+ ": " +:+ m
  end.

Section DriveSlot.
Variables (sha256 : string -> string) (loads : string -> option json).

(** The markets the slots need; a slot that needs one outside the catalog is blocked. *)
Fixpoint activate_slots (ids : list string) (markets : gset string) : ST Runtime (gset string) :=
  match ids with
  | [] => jret markets
  | id :: rest =>
      let! s := jquery (slot_of id) in
      let! unresolved := jquery (fun r => unresolved_of loads r s) in
      let! wanted := jquery (fun r => Ok (needed (allowed_of id r) unresolved s)) in
      let! found := jquery (fun r => Ok (map_res (fun m => catalog_market m (catalog (rt_market r))) (elements wanted))) in
      match found with
      | Ok _ => activate_slots rest (markets ∪ wanted)
      | Raise e =>
          match caught_text e with
          | Some msg => let! _ := jmodify (on_slot id (block ("market activation failed: " +:+ msg))) in activate_slots rest markets
          | None => jraise e
          end
      end
  end.

(** A call of the market reducer. *)
Definition on_market {A} (m : ST MarketStream A) : ST Runtime A := fun r =>
  let '(market, result) := m (rt_market r) in (set_market r market, result).

(** [_activate] *)
Definition activate : ST Runtime MarketSubscriptionChange :=
  let! start := jquery (fun r => Ok (dict_keys (rt_slots r), prewarm_markets r)) in
  let! markets := activate_slots start.1 start.2 in
  on_market (set_active_markets (elements markets)).

(** A call of the signer lane over the journal. *)
Definition on_journal {A} (m : Executor.J A) : ST Runtime A := fun r =>
  let '(db, result) := m (rt_journal r) in (set_journal r db, result).

(** One execution of the lane: the record it leaves and the classified result. *)
Abbreviation Execute := (NextAction -> Z -> dec -> Z -> Executor.J (ActionJournal.ActionRecord * WsActions.PostResult)).

Definition release (id : string) : ST Runtime unit := jmodify (fun r => set_reservations r (dict_del id (reservations r))).

Definition add_time (t : option Z) : Slot -> Slot :=
  on_pacing (fun p => match t with Some t => set_times (action_times p ++ [t]) p | None => p end).

(** When the order was sent, for the rate limit. *)
Definition attempted_ms (record : ActionJournal.ActionRecord) (result : WsActions.PostResult) (clock : Z) : option Z :=
  match ActionJournal.send_attempted_ms record with
  | Some t => Some t
  | None => match WsActions.post_outcome result with WsActions.PO_NOT_SENT => None | _ => Some clock end
  end.

(** A computation over one slot of the runtime. *)
Definition on_slot_st {A} (id : string) (m : CatalogRevision -> ST Slot A) : ST Runtime A := fun r =>
  match slot_of id r with
  | Raise e => (r, Raise e)
  | Ok s => let '(s, result) := m (rt_catalog r) s in (put_slot id s r, result)
  end.

(** The locked part after the response. *)
Definition finish (id : string) (p : PreparedIoc) (attempt_clock fold_clock : Z)
    (attempt : ActionJournal.ActionRecord * WsActions.PostResult) : ST Runtime unit :=
  let '(record, result) := attempt in
  let! _ := release id in
  let! _ := jmodify (on_slot id (add_time (attempted_ms record result attempt_clock))) in
  let! _ := on_slot_st id (fun c => fold sha256 c fold_clock (pi_action p) result p) in
  let! _ := jmodify (on_slot id bump_truth) in
  save_slot id.

(** The readings of the clocks of one drive, after its plan. *)
Record OrderClocks := MkOrderClocks { attempt_clock : Z; fold_clock : Z; after_elapsed : Z; after_clock : Z }.

Definition outcome_text (o : WsActions.PostOutcome) : string :=
  match o with
  | WsActions.PO_NOT_SENT => "not_sent" | WsActions.PO_UNKNOWN => "unknown" | WsActions.PO_REJECTED => "rejected"
  | WsActions.PO_FILLED => "filled" | WsActions.PO_PARTIALLY_FILLED => "partially_filled"
  | WsActions.PO_CANCELLED => "cancelled" | WsActions.PO_INFO => "info"
  end.

(** The reason a drive ends with, and the action it was about. *)
Definition drive_end : Type := option NextAction * string.

Definition with_reason (id : string) (a : option NextAction) : ST Runtime drive_end :=
  let! s := jquery (slot_of id) in jret (a, reason (gate s)).

(** [_drive] *)
Definition drive (execute : Execute) (meanwhile : Runtime -> Runtime) (t : DriveClocks) (o : OrderClocks) (id : string)
    (now_ms : Z) (force : bool) : ST Runtime drive_end :=
  let! planned := plan_drive sha256 loads t id now_ms force in
  match planned with
  | inr out => jret out
  | inl p =>
      let a := pi_action p in
      fun r =>
      let '(r, attempt) := on_journal (execute a (sn_asset_id (pi_snapshot p)) (limit_px (pi_executable p)) (pi_required_epoch p)) r in
      let r := meanwhile r in
      match attempt with
      | Raise e =>
          (let! _ := release id in
           let! _ := jmodify (on_slot id (block ("IOC failed: " +:+ exn_text e))) in
           let! _ := save_slot id in
           with_reason id (Some a)) r
      | Ok attempt =>
          (let! _ := finish id p (attempt_clock o) (fold_clock o) attempt in
           let! _ := activate in
           let! _ := ready_slot loads id (now_ms + Z.max 0 (after_elapsed o)) (after_clock o) in
           jret (Some a, "IOC " +:+ outcome_text (WsActions.post_outcome attempt.2))) r
      end
  end.

(** The last part of [_safe_drive]: whatever is raised blocks the slot. *)
Definition safe (id : string) (m : ST Runtime drive_end) : ST Runtime drive_end := fun r =>
  match m r with
  | (r, Raise e) =>
      (let! _ := jmodify (on_slot id (block ("slot drive failed: " +:+ exn_text e))) in
       let! _ := save_slot id in
       with_reason id None) r
  | out => out
  end.
End DriveSlot.
