(* ===== verification/RuntimeEvents.v ===== *)
(** continuous_runtime.py: what the runtime does with source and market frames,
    connections, follower truth, catalog revisions and operator commands.

    A handler is a computation over the runtime up to its next [await] and beyond;
    the drive it ends with is an argument, and so are the answers of the follower
    and gap-repair hooks. *)

From S2P Require Import Prelude PyDecimal PyText Models Markets ContinuousConfig Precision OrderPreflight MarketCatalog MarketStream Runtime Checkpoint RuntimePlan RuntimeDrive RuntimeFold.
From S2P Require AccountStream DesiredEngine ActionJournal WsActions Executor.
From Stdlib Require Import Ascii.

Open Scope Z_scope.

Record Dispatch := MkDispatch {
  dp_slot : option string;
  dp_state : option RuntimeState;
  dp_reason : string;
  dp_market_change : MarketSubscriptionChange;
  dp_action : option NextAction;
  source_frame_accepted : bool;
}.

Definition no_change : MarketSubscriptionChange := MkChange [] [].
Definition ignored (why : string) : Dispatch := MkDispatch None None why no_change None false.

Definition for_slots (f : string -> ST Runtime unit) : list string -> ST Runtime unit :=
  fix go ids := match ids with [] => jret tt | id :: rest => let! _ := f id in go rest end.

Definition slot_now (id : string) : ST Runtime Slot := jquery (slot_of id).
Definition slot_ids : ST Runtime (list string) := jquery (fun r => Ok (dict_keys (rt_slots r))).
Definition change (id : string) (f : Slot -> Slot) : ST Runtime unit := jmodify (on_slot id f).

(** The dispatch of a slot as it is now. *)
Definition report (id why : string) (accepted : bool) : ST Runtime Dispatch :=
  let! s := slot_now id in jret (MkDispatch (Some id) (Some (state (gate s))) why no_change None accepted).
Definition report_reason (id : string) (accepted : bool) : ST Runtime Dispatch :=
  let! s := slot_now id in report id (reason (gate s)) accepted.

(** [_change] *)
Definition change_since (before : gset string) : ST Runtime MarketSubscriptionChange :=
  jquery (fun r => let after := active (rt_market r) in
                   Ok (MkChange (sorted_set (after ∖ before)) (sorted_set (before ∖ after)))).

(** A computation over the account stream of a slot. *)
Definition on_account {A} (m : ST AccountStream.AccountStream A) : ST Slot A := fun s =>
  let '(a, result) := m (account s) in (set_account s a, result).

Definition in_slot {A} (id : string) (m : ST Slot A) : ST Runtime A := on_slot_st id (fun _ => m).

(** [try: m except Exception as exc: h(exc)], keeping what [m] assigned. *)
Definition handle {A} (m : ST Runtime A) (h : exn -> ST Runtime A) : ST Runtime A := fun r =>
  match m r with
  | (r, Raise e) => h e r
  | out => out
  end.

Section Events.
Variables (sha256 : string -> string) (loads : string -> option json).

(** The drive a handler ends with, if it is asked to. *)
Variable drive_slot : string -> ST Runtime drive_end.

(** * Operator *)

Definition request_fail_close_one (why id : string) : ST Runtime unit :=
  let! s := slot_now id in
  if bool_decide (state (gate s) = OPERATOR_STOP) then jret tt else
  let latched := default (py_strip why) (said (fail_close_reason (gate s))) in
  let! _ := change id (on_gate (fun g =>
    set_state (set_paused (set_fail_close g (Some latched)) true) PAUSE_ENTRIES ("fail-close: " +:+ latched))) in
  save_slot id.

(** [request_fail_close] *)
Definition request_fail_close (ids : list string) (why : string) : ST Runtime unit :=
  if is_empty (py_strip why) then jraise (ValueError "fail-close reason cannot be empty") else
  for_slots (request_fail_close_one why) ids.

(** The checkpoint becomes observed; nothing of it is copied any more. *)
Definition rearmed (observed : dict dec) (s : Slot) : Slot :=
  let a := attribution s in
  let g := gate s in
  set_pacing
    (set_gate
      (set_attribution s (MkAttribution observed [] ∅ (applied_fills a) [] (source_revisions a)))
      (MkGate RECOVERING "operator re-arm awaiting live reconciliation" (source_ready g) (ever_baselined g) false false None
         (startup_blocker g)))
    (MkPacing (action_times (pacing s)) [] []).

Definition flat_truth (s : Slot) : bool :=
  match follower s with Some f => bool_decide (ft_positions f = []) | None => false end.

(** [dict(slot.expected_source or _source_sizes(slot))] *)
Definition observed_source (s : Slot) : res (dict dec) :=
  match expected_source s with Some (_ :: _ as l) => Ok l | _ => source_sizes s end.

Definition operator_rearm_one (id : string) : ST Runtime unit :=
  let! s := slot_now id in
  if negb (flat_truth s) then jraise (RuntimeError "operator re-arm requires authoritative flat follower") else
  let! unresolved := jquery (fun r => unresolved_of loads r s) in
  if negb (bool_decide (unresolved = [])) then jraise (RuntimeError "operator re-arm requires terminal actions") else
  let! observed := jlift (observed_source s) in
  let! _ := change id (rearmed observed) in
  save_slot id.

(** [operator_rearm] *)
Definition operator_rearm (ids : list string) : ST Runtime unit :=
  let! armed := jquery (fun r => Ok (execution_enabled (limits r))) in
  if negb armed then jraise (RuntimeError "operator re-arm requires execution to be armed") else
  for_slots operator_rearm_one ids.

(** [set_operator_state] *)
Definition set_operator_state (id : string) (st : RuntimeState) (now_ms clock : Z) : ST Runtime unit :=
  let! s := slot_now id in
  let! _ :=
    match st with
    | OPERATOR_STOP => change id (on_gate (fun g => set_state g OPERATOR_STOP "operator stop"))
    | PAUSE_ENTRIES => change id (on_gate (fun g => set_state (set_paused g true) PAUSE_ENTRIES "operator pause"))
    | RUNNING =>
        if bool_decide (state (gate s) = OPERATOR_STOP)
        then jraise (ValueError "operator may only stop, pause entries, or request resume") else
        let! _ := change id (on_gate (fun g => set_paused g false)) in ready_slot loads id now_ms clock
    | RECOVERING => jraise (ValueError "operator may only stop, pause entries, or request resume")
    end in
  save_slot id.

(** [follower_is_flat] *)
Definition follower_is_flat (observed_at_least_ms : option Z) (s : Slot) : bool :=
  match follower s with
  | Some f => bool_decide (ft_positions f = []) && match observed_at_least_ms with Some t => t <=? ft_observed_ms f | None => true end
  | None => false
  end.

(** * Connections *)

Definition source_baseline_complete (s : Slot) : bool :=
  AccountStream.baseline_complete (AccountStream.snapshot AccountStream.SOURCE (account s)).

Definition begin_source_one (received_ms : Z) (id : string) : ST Runtime Z :=
  let! s := slot_now id in
  let! _ := (if ever_baselined (gate s) && source_baseline_complete s
             then let! current := jlift (source_sizes s) in change id (fun s => set_expected s (Some current))
             else jret tt) in
  let! _ := change id (on_gate (fun g => set_source_ready g false)) in
  let! _ := change id (block "source connection is rebuilding") in
  in_slot id (on_account (AccountStream.begin_connection received_ms)).

Fixpoint begin_sources (received_ms : Z) (ids : list string) (epochs : gset Z) : ST Runtime (gset Z) :=
  match ids with
  | [] => jret epochs
  | id :: rest => let! e := begin_source_one received_ms id in begin_sources received_ms rest ({[e]} ∪ epochs)
  end.

(** [begin_source_connection] *)
Definition begin_source_connection (received_ms : Z) : ST Runtime Z :=
  let! ids := slot_ids in
  let! epochs := begin_sources received_ms ids ∅ in
  match elements epochs with
  | [epoch] => let! _ := jmodify (fun r => set_open_epoch r (Some epoch)) in jret epoch
  | _ => jraise (RuntimeError "source reducer epochs diverged")
  end.

(** A slot that needs a market is blocked. *)
Definition block_needing (why id : string) : ST Runtime unit :=
  let! s := slot_now id in
  let! unresolved := jquery (fun r => unresolved_of loads r s) in
  let! wanted := jquery (fun r => Ok (needed (allowed_of id r) unresolved s)) in
  if bool_decide (wanted = ∅) then jret tt else change id (block why).

(** [begin_market_connection] *)
Definition begin_market_connection (received_ms : Z) : ST Runtime Z :=
  let! epoch := on_market (ms_begin_connection received_ms) in
  let! ids := slot_ids in
  let! _ := for_slots (block_needing "market connection is rebuilding") ids in
  jret epoch.

Definition note_source_activity (epoch received_ms : Z) : ST Runtime unit :=
  let! ids := slot_ids in
  for_slots (fun id => in_slot id (on_account (AccountStream.note_connection_activity epoch received_ms))) ids.

Definition note_market_activity (epoch received_ms : Z) : ST Runtime unit := on_market (ms_note_activity epoch received_ms).

Definition close_source_one (epoch : Z) (why : string) (id : string) : ST Runtime unit :=
  let! s := slot_now id in
  if epoch =? AccountStream.connection_epoch (account s)
  then let! _ := change id (on_gate (fun g => set_source_ready g false)) in change id (block ("source gap: " +:+ why))
  else jret tt.

(** [connection_gap] *)
Definition connection_gap (kind : string) (epoch : Z) (why : string) : ST Runtime unit :=
  let! ids := slot_ids in
  let! market_epoch := jquery (fun r => Ok (ms_epoch (rt_market r))) in
  if bool_decide (kind = "source") then
    let! _ := jmodify (fun r => if bool_decide (source_open_epoch r = Some epoch) then set_open_epoch r None else r) in
    for_slots (close_source_one epoch why) ids
  else if bool_decide (kind = "market") && (epoch =? market_epoch) then
    for_slots (block_needing ("market gap: " +:+ why)) ids
  else jraise (ValueError "connection kind must be source or market").

(** * Source frames *)

Definition ACCOUNT_CHANNELS : list string := ["allDexsClearinghouseState"; "spotState"; "userFills"; "userTwapSliceFills"].

Definition frame_user (message : list (string * json)) : string :=
  match obj_field "data" message with
  | JObj data => py_lower (py_str (json_or (json_or (obj_field "user" data) (obj_field "userAddress" data)) (JStr "")))
  | _ => ""
  end.

(** [_baseline] of a slot, with the answer of the gap-repair hook, and its save. *)
Definition baseline_slot (hook : option (res (list FillRecord))) (id : string) (now_ms : Z) : ST Runtime unit := fun r =>
  match slot_of id r with
  | Raise e => (r, Raise e)
  | Ok s =>
      let '(s, refresh, result) :=
        baseline (rt_catalog r) (max_source_fill_age_ms (limits r)) (bound s) hook now_ms (s, catalog_refresh_request r) in
      let r := set_refresh_request (put_slot id s r) refresh in
      match result with
      | Raise e => (r, Raise e)
      | Ok true => save_slot id r
      | Ok false => (r, Ok tt)
      end
  end.

Definition unapplied (s : Slot) (fills : list FillRecord) : list FillRecord :=
  List.filter (fun f => negb (bool_decide (AccountStream.identity f ∈ applied_fills (attribution s)))) fills.

(** New fills of a trusted source: attributed and durable before any order. *)
Definition accept_fills (id : string) (fills : list FillRecord) (received_ms : Z) : ST Runtime unit :=
  let! s := slot_now id in
  let! request := jquery (fun r => Ok (rt_catalog r, max_source_fill_age_ms (limits r))) in
  let! attributed := jlift (attribute request.1 request.2 (bound s) (unapplied s fills) (Some received_ms) s) in
  let! _ := jmodify (fun r => set_refresh_request (put_slot id attributed.1 r) (catalog_refresh_request r || attributed.2)) in
  let! s := slot_now id in
  let! current := jlift (source_sizes s) in
  let! _ := change id (fun s => set_expected s (Some current)) in
  save_slot id.

(** What follows an accepted frame of the slot's account. *)
Definition after_frame (hook : option (res (list FillRecord))) (id : string) (received_ms : Z)
    (update : AccountStream.AccountStreamUpdate) : ST Runtime unit :=
  let! s := slot_now id in
  if source_baseline_complete s && negb (source_ready (gate s)) then baseline_slot hook id received_ms
  else match AccountStream.new_fills update with
  | [] => jret tt
  | fills =>
      if source_ready (gate s) then accept_fills id fills received_ms
      else change id (block "live source fill arrived before trusted baseline")
  end.

(** The locked part of [apply_source]: the frame, and whether it was accepted. *)
Definition source_frame (hook : option (res (list FillRecord))) (id : string) (message : list (string * json))
    (epoch received_ms : Z) : ST Runtime (bool * option exn) := fun r =>
  match in_slot id (on_account (AccountStream.apply_frame (JObj message) epoch received_ms)) r with
  | (r, Raise e) => (r, Ok (false, Some e))
  | (r, Ok update) =>
      match after_frame hook id received_ms update r with
      | (r, Raise e) => (r, Ok (true, Some e))
      | (r, Ok _) => (r, Ok (true, None))
      end
  end.

(** [apply_source] *)
Definition apply_source (source_index : dict string) (hook : option (res (list FillRecord))) (message : list (string * json))
    (epoch received_ms : Z) (driven : bool) : ST Runtime Dispatch :=
  if negb (bool_decide (str_or_empty (obj_field "channel" message) ∈ ACCOUNT_CHANNELS))
  then jret (ignored "ignored non-account source frame") else
  match dict_get (frame_user message) source_index with
  | None => jret (ignored "ignored unconfigured source frame")
  | Some id =>
      let! before := jquery (fun r => Ok (active (rt_market r))) in
      let! open := jquery (fun r => Ok (source_open_epoch r)) in
      if negb (bool_decide (open = Some epoch)) then report id "source frame rejected for closed connection epoch" false else
      let! outcome := source_frame hook id message epoch received_ms in
      match outcome with
      | (accepted, Some e) =>
          let! _ := change id (block ("source frame failed: " +:+ exn_text e)) in
          report_reason id accepted
      | (accepted, None) =>
          let! s := slot_now id in
          let pending := if bool_decide (state (gate s) = RECOVERING) then reason (gate s) else "source frame accepted; drive pending" in
          let! _ := activate loads in
          let! out := (if driven then drive_slot id else jret (None, pending)) in
          let! changed := change_since before in
          let! s := slot_now id in
          jret (MkDispatch (Some id) (Some (state (gate s))) out.2 changed out.1 accepted)
      end
  end.

(** * Market frames *)

(** The slots that need the market. *)
Fixpoint slots_needing (market : string) (ids : list string) : ST Runtime (list string) :=
  match ids with
  | [] => jret []
  | id :: rest =>
      let! s := slot_now id in
      let! unresolved := jquery (fun r => unresolved_of loads r s) in
      let! wanted := jquery (fun r => Ok (needed (allowed_of id r) unresolved s)) in
      let! others := slots_needing market rest in
      jret (if bool_decide (market ∈ wanted) then id :: others else others)
  end.

Fixpoint report_each (f : string -> ST Runtime Dispatch) (ids : list string) : ST Runtime (list Dispatch) :=
  match ids with
  | [] => jret []
  | id :: rest => let! d := f id in let! ds := report_each f rest in jret (d :: ds)
  end.

(** [drive_one]; the drives of the affected slots are taken in turn. *)
Definition drive_one (id : string) : ST Runtime Dispatch :=
  let! out := drive_slot id in
  let! s := slot_now id in
  jret (MkDispatch (Some id) (Some (state (gate s))) out.2 no_change out.1 false).

(** [apply_market] *)
Definition apply_market (message : list (string * json)) (epoch received_ms : Z) (driven : bool) : ST Runtime (list Dispatch) :=
  match canonical_market_symbol (match obj_field "data" message with JObj data => obj_field "coin" data | _ => JNull end) with
  | Raise e =>
      if absent (caught_text e) then jraise e else jret [ignored "ignored malformed market frame"]
  | Ok market =>
      let! ids := slot_ids in
      let! affected := slots_needing market ids in
      fun r =>
      match on_market (apply_market_frame (JObj message) epoch received_ms) r with
      | (r, Raise (MarketStreamError msg)) =>
          (let! _ := for_slots (fun id => change id (block ("market " +:+ market +:+ " failed: " +:+ msg))) affected in
           report_each (fun id => report_reason id false) affected) r
      | (r, Raise e) => (r, Raise e)
      | (r, Ok None) => report_each (fun id => report id (market +:+ " snapshot incomplete") false) affected r
      | (r, Ok (Some _)) =>
          if driven then report_each drive_one affected r
          else report_each (fun id => report id "market frame accepted; drive pending" false) affected r
      end
  end.
End Events.
