(* ===== verification/RuntimeReconcile.v ===== *)
(** continuous_runtime.py: follower truth and catalog revisions.

    [reconcile_follower] awaits three times; what other tasks change meanwhile is
    an argument, any change of the runtime.  The follower hook answers with raw
    positions or raises. *)

From S2P Require Import Prelude PyDecimal PyText Models Markets ContinuousConfig Precision OrderPreflight MarketCatalog MarketStream Runtime Checkpoint RuntimePlan RuntimeDrive RuntimeFold RuntimeEvents.
From S2P Require AccountStream DesiredEngine ActionJournal WsActions Executor.
From Stdlib Require Import Ascii.

Open Scope Z_scope.

(** [FollowerTruth] as the hook gives it. *)
Record RawTruth := MkRawTruth {
  raw_positions : dict RawPosition;
  raw_equity : pydec;
  raw_observed_ms : Z;
  raw_dex_observed_ms : dict Z;
  raw_available_collateral : option dec;
}.

(** A position of a market that was delisted under dynamic eligibility is still managed. *)
Definition managed_tombstone (c : CatalogRevision) (b : BoundContinuousSlot) (name : string) : res bool :=
  if negb (dynamic_market_eligibility b) then Ok false else
  spec ← revision_market name c;
  Ok match spec with Some m => is_delisted m || removal_tombstone m | None => false end.

Definition truth_step (c : CatalogRevision) (b : BoundContinuousSlot) (allowed : list string) (acc : dict Position)
    (mp : string * RawPosition) : res (dict Position) :=
  name ← canonical_market_symbol (JStr mp.1);
  match pos_size mp.2 with
  | Fin size =>
      tombstone ← managed_tombstone c b name;
      if truthy size && negb (bool_decide (allowed = [])) && negb (bool_decide (name ∈ allowed)) && negb tombstone
      then Raise (ValueError "follower has unmanaged exposure") else
      Ok (if truthy size
          then dict_set name (MkPosition name size (pos_entry_px mp.2) (pos_leverage mp.2) (pos_updated_ms mp.2)) acc
          else acc)
  | _ => Raise (ValueError "follower position is non-finite")
  end.

(** [_truth] *)
Definition truth (c : CatalogRevision) (b : BoundContinuousSlot) (allowed : list string) (t : RawTruth) (now_ms : Z)
    : res FollowerTruth :=
  match raw_equity t with
  | Fin equity =>
      if dleb equity dzero || negb ((0 <? raw_observed_ms t) && (raw_observed_ms t <=? now_ms))
      then Raise (ValueError "follower WS truth has invalid equity/time") else
      positions ← fold_res (truth_step c b allowed) (raw_positions t) [];
      Ok (MkTruth positions equity (raw_observed_ms t) (raw_dex_observed_ms t) (raw_available_collateral t))
  | _ => Raise (ValueError "follower WS truth has invalid equity/time")
  end.

Section Reconcile.
Variables (loads : string -> option json).

(** Exposure found at the first reading, that the checkpoint does not explain. *)
Definition nonflat_after (first_truth : bool) (f : FollowerTruth) (s : Slot) : res bool :=
  let g := gate s in
  if first_truth && negb (bool_decide (ft_positions f = [])) && bool_decide (attributable (attribution s) = []) then
    observed ← sizes (ft_positions f);
    Ok (match restored_follower_positions s with
        | Some restored => if AccountStream.sizes_eqb restored observed then initial_follower_nonflat g else true
        | None => true
        end)
  else Ok (if initial_follower_nonflat g && bool_decide (ft_positions f = []) then false else initial_follower_nonflat g).

(** The locked part that adopts a follower truth. *)
Definition adopt_truth (f : FollowerTruth) : ST Slot unit := fun s =>
  let first_truth := absent (follower s) in
  let s := bump_truth (set_follower s (Some f)) in
  match nonflat_after first_truth f s with
  | Raise e => (s, Raise e)
  | Ok nonflat =>
      let s := on_gate (fun g => set_nonflat g nonflat) s in
      (if first_truth then set_restored s None else s, Ok tt)
  end.

Definition failed (id : string) (e : exn) : ST Runtime Dispatch :=
  let! _ := change id (block ("follower WS reconciliation failed: " +:+ exn_text e)) in report_reason id false.

(** Resolve every outstanding action of the lane; [true] when one was found. *)
Fixpoint resolve_all (l : Executor.SignerLane) (info : WsActions.call -> Executor.J WsActions.WireResult) (epoch clock : Z)
    (records : list ActionJournal.ActionRecord) : ST Runtime unit :=
  match records with
  | [] => jret tt
  | record :: rest =>
      let! _ := on_journal (Executor.resolve_by_cloid l info (ActionJournal.cloid record) epoch clock) in
      resolve_all l info epoch clock rest
  end.

(** The first locked part: the epoch, what the lane has outstanding, the revision. *)
Definition start_reconcile (id : string) (clock : Z) : ST Runtime (Z * list ActionJournal.ActionRecord * Z) :=
  let! s := slot_now id in
  let! epoch := jquery (fun r => WsActions.capture_epoch (rt_mux r)) in
  let! _ := on_journal (Executor.recover_provably_unsent (lane s) clock) in
  let! records := jquery (fun r => Executor.lane_recovery_actions (lane s) (rt_journal r)) in
  let! s := slot_now id in
  jret (epoch, records, truth_revision s).

(** The resolutions, and the revision after them; nothing when another task won. *)
Definition recover_actions (info : WsActions.call -> Executor.J WsActions.WireResult) (meanwhile : Runtime -> Runtime)
    (id : string) (epoch clock revision : Z) (records : list ActionJournal.ActionRecord) : ST Runtime (option Z) :=
  let! s := slot_now id in
  let! _ := resolve_all (lane s) info epoch clock records in
  let! _ := jmodify meanwhile in
  let! s := slot_now id in
  match records with
  | [] => jret (Some revision)
  | _ =>
      if negb (truth_revision s =? revision) then jret None else
      let! _ := change id bump_truth in
      let! s := slot_now id in jret (Some (truth_revision s))
  end.

(** The last locked part: the truth of the same epoch and the same revision. *)
Definition finish_reconcile (id : string) (epoch revision now_ms : Z) (t : RawTruth) : ST Runtime (option Dispatch) := fun r =>
  match WsActions.capture_epoch (rt_mux r) with
  | Raise e => (let! d := failed id e in jret (Some d)) r
  | Ok current =>
      if negb (current =? epoch)
      then (let! _ := change id (block "follower WS reconciliation crossed a connection epoch") in
            let! d := report_reason id false in jret (Some d)) r
      else
      match slot_of id r with
      | Raise e => (r, Raise e)
      | Ok s =>
          if negb (truth_revision s =? revision)
          then (let! d := report id "stale follower truth discarded after concurrent action" false in jret (Some d)) r
          else match truth (rt_catalog r) (bound s) (allowed_of id r) t now_ms with
          | Raise e => (let! d := failed id e in jret (Some d)) r
          | Ok f => (let! _ := in_slot id (adopt_truth f) in let! _ := save_slot id in jret None) r
          end
      end
  end.

Variable drive_slot : string -> ST Runtime drive_end.

(** What follows an adopted truth. *)
Definition after_truth (id : string) (before : gset string) (driven : bool) : ST Runtime Dispatch :=
  let! s := slot_now id in
  let pending := if bool_decide (state (gate s) = RECOVERING) then reason (gate s) else "follower truth refreshed; drive pending" in
  let! _ := activate loads in
  let! out := (if driven then drive_slot id else jret (None, pending)) in
  let! changed := change_since before in
  let! s := slot_now id in
  jret (MkDispatch (Some id) (Some (state (gate s))) out.2 changed out.1 false).

Definition reserved (id : string) (r : Runtime) : bool :=
  match dict_get id (reservations r) with Some (_ :: _) => true | _ => false end.

(** From the recovery to the truth, whatever other tasks do between the awaits. *)
Definition read_truth (info : WsActions.call -> Executor.J WsActions.WireResult) (hook : Runtime -> res RawTruth)
    (meanwhile1 meanwhile2 : Runtime -> Runtime) (id : string) (epoch clock revision : Z)
    (records : list ActionJournal.ActionRecord) : ST Runtime (option (Z * RawTruth)) :=
  let! recovered := recover_actions info meanwhile1 id epoch clock revision records in
  match recovered with
  | None => jret None
  | Some revision =>
      let! t := jquery hook in
      let! _ := jmodify meanwhile2 in
      jret (Some (revision, t))
  end.

(** [reconcile_follower] *)
Definition reconcile_follower (info : WsActions.call -> Executor.J WsActions.WireResult) (hook : Runtime -> res RawTruth)
    (meanwhile1 meanwhile2 : Runtime -> Runtime) (id : string) (now_ms clock : Z) (driven : bool) : ST Runtime Dispatch :=
  let! s := slot_now id in
  let! before := jquery (fun r => Ok (active (rt_market r))) in
  let! busy := jquery (fun r => Ok (reserved id r)) in
  if bool_decide (state (gate s) = OPERATOR_STOP) then report_reason id false else
  if busy : bool then report id "follower refresh deferred during in-flight action" false else
  fun r =>
  match start_reconcile id clock r with
  | (r, Raise e) => failed id e r
  | (r, Ok (epoch, records, revision)) =>
      match read_truth info hook meanwhile1 meanwhile2 id epoch clock revision records r with
      | (r, Raise e) => failed id e r
      | (r, Ok None) => report id "stale follower recovery result discarded" false r
      | (r, Ok (Some (revision, t))) =>
          (let! early := finish_reconcile id epoch revision now_ms t in
           match early with
           | Some d => jret d
           | None => after_truth id before driven
           end) r
      end
  end.
End Reconcile.

(** * Catalog revisions *)

Section Catalog.
Variables (loads : string -> option json).

(** The subscriptions of the sources and the markets are limited together. *)
Fixpoint subscription_count (slots : dict Slot) : res Z :=
  match slots with
  | [] => Ok 0
  | (_, s) :: rest =>
      specs ← AccountStream.source_subscription_specs (source_address (config (bound s)))
                (AccountStream.source_account_mode (account s));
      n ← subscription_count rest;
      Ok (Z.of_nat (List.length specs) + n)
  end.

Definition all_allowed (c : CatalogRevision) (slots : dict Slot) : dict (list string) :=
  (fun ids => (ids.1, effective_allowed_markets (bound ids.2) c)) <$> slots.

(** [allowed or None] *)
Definition scope_of (allowed : list string) : option (list string) := match allowed with [] => None | l => Some l end.

(** One market that waited for the catalog. *)
Definition discovered_step (c : CatalogRevision) (allowed : list string) (acc : Attribution * bool) (market : string)
    : res (Attribution * bool) :=
  let '(a, changed) := acc in
  spec ← revision_market market c;
  match spec with
  | None => Ok (a, changed)
  | Some _ =>
      let pending := pending_catalog_markets a ∖ {[market]} in
      if bool_decide (market ∈ allowed)
      then Ok (MkAttribution (unattributed a) (attributable a) pending (applied_fills a) (triggers a) (source_revisions a), true)
      else
        let size := size_at (attributable a) market in
        Ok (MkAttribution (put_size (unattributed a) market (dadd (size_at (unattributed a) market) size))
              (dict_del market (attributable a)) pending (applied_fills a) (dict_del market (triggers a)) (source_revisions a), true)
  end.

(** The slot under the new catalog: whether its checkpoint is to be saved. *)
Definition slot_under_catalog (c : CatalogRevision) (id : string) : ST Runtime bool :=
  let! s := slot_now id in
  let allowed := effective_allowed_markets (bound s) c in
  let! _ := jmodify (fun r => set_allowed r (dict_set id allowed (rt_allowed r))) in
  let! _ := in_slot id (on_account (AccountStream.set_market_scope (scope_of allowed) (scope_of allowed))) in
  let! s := slot_now id in
  let! settled := jlift (fold_res (discovered_step c allowed) (elements (pending_catalog_markets (attribution s))) (attribution s, false)) in
  let! _ := change id (fun s => set_attribution s settled.1) in
  jret settled.2.

Fixpoint slots_under_catalog (c : CatalogRevision) (ids : list string) : ST Runtime (list string) :=
  match ids with
  | [] => jret []
  | id :: rest =>
      let! changed := slot_under_catalog c id in
      let! others := slots_under_catalog c rest in
      jret (if changed : bool then id :: others else others)
  end.

(** [apply_catalog] *)
Definition apply_catalog (c : CatalogRevision) : ST Runtime MarketSubscriptionChange :=
  let! current := jquery (fun r => Ok (rt_catalog r)) in
  if negb (bool_decide (cr_network c = cr_network current)) || (sequence c <=? sequence current)
  then jraise (ValueError "catalog refresh network/sequence is invalid") else
  let! slots := jquery (fun r => Ok (rt_slots r)) in
  let prewarm : gset string := list_to_set (concat (dict_values (all_allowed c slots))) in
  let! count := jlift (subscription_count slots) in
  if 1000 <? count + 3 * Z.of_nat (size prewarm)
  then jraise (ValueError "refreshed catalog exceeds the 1000 WebSocket subscription limit") else
  let! before := jquery (fun r => Ok (active (rt_market r))) in
  let! _ := on_market (replace_catalog c) in
  let! _ := jmodify (fun r => adopt_catalog r c prewarm) in
  let! changed := slots_under_catalog c (dict_keys slots) in
  let! _ := on_market (set_active_markets (elements prewarm)) in
  let! _ := for_slots save_slot (py_sorted str_leb changed) in
  let! _ := activate loads in
  change_since before.
End Catalog.
