(* ===== verification/RuntimeSession.v ===== *)
(** continuous_runtime.py: one serialised drive of a slot, with the refresh of the DEXes it
    needs, and what the runtime reports without changing anything.

    [_drive_serialized] waits for the drive of the slot, refreshes the follower truth of
    every DEX that a needed market belongs to, and then drives.  The refresh awaits once
    per DEX; what other tasks change meanwhile is an argument. *)

From S2P Require Import Prelude PyDecimal PyText Models Markets ContinuousConfig Precision OrderPreflight MarketCatalog MarketStream Runtime Checkpoint RuntimePlan RuntimeDrive RuntimeFold RuntimeEvents.
From S2P Require AccountStream DesiredEngine ActionJournal WsActions Executor.
From Stdlib Require Import Ascii.

Open Scope Z_scope.

Definition audited_of (id : string) (r : Runtime) : gset string := default ∅ (dict_get id (rt_audited r)).

Section Session.
Variables (sha256 : string -> string) (loads : string -> option json).

(** * Follower truth of one DEX *)

(** [refresh_dex] of the follower hook: the positions it reads, for a slot, a DEX, an epoch, a
    time, and whether the resting orders are audited; [None] when the hook has no such method. *)
Variable refresh : option (Runtime -> string -> string -> Z -> Z -> bool -> res (dict Position)).

(** A DEX is stale until its orders were audited and its positions are recent. *)
Definition dex_stale (audited : gset string) (f : FollowerTruth) (now_ms age : Z) (dex : string) : bool :=
  let elapsed := now_ms - default 0 (dict_get dex (ft_dex_observed_ms f)) in
  negb (bool_decide (dex ∈ audited)) || negb ((0 <=? elapsed) && (elapsed <=? age)).

Definition needed_dexes (markets : gset string) : res (list string) :=
  dexes ← map_res (fun m => market_dex (JStr m)) (elements markets);
  Ok (py_sorted (fun a b => dex_key_leb (dex_sort_key a) (dex_sort_key b)) (elements (list_to_set dexes : gset string))).

Definition stale_dexes (id : string) (f : FollowerTruth) (unresolved : dict dec) (s : Slot) (now_ms : Z) (r : Runtime) : res (list string) :=
  dexes ← needed_dexes (needed (allowed_of id r) unresolved s);
  Ok (List.filter (dex_stale (audited_of id r) f now_ms (follower_age_ms (limits r))) dexes).

(** The positions outside the DEX, and those that were read in it. *)
Definition outside_dex (dex : string) (acc : dict Position) (mp : string * Position) : res (dict Position) :=
  d ← market_dex (JStr mp.1); Ok (if bool_decide (d = dex) then acc else dict_set mp.1 mp.2 acc).

Definition with_dex (dex : string) (now_ms : Z) (parsed : dict Position) (f : FollowerTruth) : res FollowerTruth :=
  kept ← fold_res (outside_dex dex) (ft_positions f) [];
  let positions := fold_left (fun acc mp => dict_set mp.1 mp.2 acc) parsed kept in
  Ok (MkTruth (by_market positions) (ft_equity f) (ft_observed_ms f) (dict_set dex now_ms (ft_dex_observed_ms f))
        (ft_available_collateral f)).

(** The locked part after the answer: adopted only on the same epoch and revision. *)
Definition adopt_dex (id dex : string) (now_ms epoch revision : Z) (parsed : dict Position) : ST Runtime unit :=
  let! current := jquery (fun r => WsActions.capture_epoch (rt_mux r)) in
  let! s := slot_now id in
  if negb (current =? epoch) || negb (truth_revision s =? revision) then jret tt else
  match follower s with
  | None => jraise (AssertionError "follower")
  | Some f =>
      let! f' := jlift (with_dex dex now_ms parsed f) in
      let! _ := change id (fun s => bump_truth (set_follower s (Some f'))) in
      jmodify (fun r => set_audited r (dict_set id ({[dex]} ∪ audited_of id r) (rt_audited r)))
  end.

(** The stale DEXes in turn; the loop ends when the follower truth is gone. *)
Fixpoint refresh_each (hook : Runtime -> string -> string -> Z -> Z -> bool -> res (dict Position))
    (meanwhile : string -> Runtime -> Runtime) (id : string) (now_ms : Z) (dexes : list string) : ST Runtime unit :=
  match dexes with
  | [] => jret tt
  | dex :: rest =>
      let! s := slot_now id in
      match follower s with
      | None => jret tt
      | Some _ =>
          let! epoch := jquery (fun r => WsActions.capture_epoch (rt_mux r)) in
          let! parsed := jquery (fun r => hook r id dex epoch now_ms (negb (bool_decide (dex ∈ audited_of id r)))) in
          let! _ := jmodify (meanwhile dex) in
          let! _ := adopt_dex id dex now_ms epoch (truth_revision s) parsed in
          refresh_each hook meanwhile id now_ms rest
      end
  end.

(** [_ensure_needed_dex_truth] *)
Definition ensure_needed_dex_truth (meanwhile : string -> Runtime -> Runtime) (id : string) (now_ms : Z) : ST Runtime unit :=
  let! s := slot_now id in
  match refresh, follower s with
  | Some hook, Some f =>
      let! unresolved := jquery (fun r => unresolved_of loads r s) in
      let! stale := jquery (stale_dexes id f unresolved s now_ms) in
      refresh_each hook meanwhile id now_ms stale
  | _, _ => jret tt
  end.

(** * One drive *)

(** What the clocks read around one drive, and what other tasks do while it awaits. *)
Record DriveRun := MkDriveRun {
  dr_queued : Z;
  dr_refresh_elapsed : Z;
  dr_plan : DriveClocks;
  dr_order : OrderClocks;
  dr_while_refreshing : string -> Runtime -> Runtime;
  dr_while_sent : Runtime -> Runtime;
  dr_execute : NextAction -> Z -> dec -> Z -> Executor.J (ActionJournal.ActionRecord * WsActions.PostResult);
}.

(** [_safe_drive] *)
Definition safe_drive (t : DriveRun) (id : string) (now_ms : Z) (force : bool) : ST Runtime drive_end :=
  safe id (
    let! _ := ensure_needed_dex_truth (dr_while_refreshing t) id now_ms in
    drive sha256 loads (dr_execute t) (dr_while_sent t) (dr_plan t) (dr_order t) id (now_ms + Z.max 0 (dr_refresh_elapsed t)) force).

(** [_drive_serialized] *)
Definition drive_serialized (t : DriveRun) (id : string) (now_ms : Z) (force : bool) : ST Runtime drive_end :=
  safe_drive t id (now_ms + Z.max 0 (dr_queued t)) force.

Definition driven (t : DriveRun) (id : string) (now_ms : Z) (force : bool) : ST Runtime Dispatch :=
  let! before := jquery (fun r => Ok (active (rt_market r))) in
  let! out := drive_serialized t id now_ms force in
  let! changed := change_since before in
  let! s := slot_now id in
  jret (MkDispatch (Some id) (Some (state (gate s))) out.2 changed out.1 false).

(** [drive_slot] and [drive_fail_close] *)
Definition drive_slot (t : DriveRun) (id : string) (now_ms : Z) : ST Runtime Dispatch := driven t id now_ms false.
Definition drive_fail_close (t : DriveRun) (id : string) (now_ms : Z) : ST Runtime Dispatch := driven t id now_ms true.

(** * Reports *)

Definition source_is_ready (now_ms : Z) (r : Runtime) (s : Slot) : res bool :=
  if source_ready (gate s)
  then AccountStream.snapshot_is_fresh (AccountStream.snapshot AccountStream.SOURCE (account s)) now_ms (source_age_ms (limits r))
  else Ok false.

(** [status] and [source_frame_status] *)
Definition status (id : string) (r : Runtime) : res (RuntimeState * string) :=
  s ← slot_of id r; Ok (state (gate s), reason (gate s)).
Definition source_frame_status (id : string) (received_ms : Z) (r : Runtime) : res (bool * bool) :=
  s ← slot_of id r;
  Ok (AccountStream.last_connection_activity_ms (account s) =? received_ms, source_ready (gate s)).
Definition source_slot_id (source_index : dict string) (source : string) : option string :=
  dict_get (py_lower (py_strip source)) source_index.

(** [source_subscriptions] *)
Definition source_subscriptions (r : Runtime) : res (list json) :=
  specs ← map_res (fun ids => AccountStream.source_subscription_specs (source_address (config (bound ids.2)))
                                (AccountStream.source_account_mode (account ids.2))) (rt_slots r);
  Ok (concat specs).

Definition fail_close_slots (r : Runtime) : list string :=
  py_sorted str_leb (omap (fun ids => if absent (said (fail_close_reason (gate ids.2))) then None else Some ids.1) (rt_slots r)).

(** [catalog_retention_markets] *)
Fixpoint retained (r : Runtime) (slots : dict Slot) : res (gset string) :=
  match slots with
  | [] => Ok ∅
  | (_, s) :: rest =>
      unresolved ← unresolved_of loads r s;
      others ← retained r rest;
      let held := match follower s with Some f => dict_keys (ft_positions f) | None => [] end in
      Ok (list_to_set (dict_keys (attributable (attribution s)) ++ held ++ dict_keys unresolved) ∪ others)
  end.
Definition catalog_retention_markets (r : Runtime) : res (gset string) := retained r (rt_slots r).

(** What [operational_status] says about the positions of a slot. *)
Record SlotStatus := MkStatus {
  st_state : RuntimeState;
  st_reason : string;
  st_latest_event_ms : Z;
  st_latest_market : string;
  st_market : string;
  st_last_sync_ms : Z;
  st_desired : option (dict dec);
  st_actual : dict dec;
  st_projected : dict dec;
  st_unresolved : dict dec;
  st_data_stale : bool;
}.

(** [max(..., key=(time_ms, market))] *)
Definition latest_trigger (ts : dict Trigger) : option (string * Trigger) :=
  let later (a b : string * Trigger) := tuple_leb Z.leb str_leb (tr_time_ms a.2, a.1) (tr_time_ms b.2, b.1) in
  match ts with
  | [] => None
  | t :: rest => Some (fold_left (fun best x => if later x best then best else x) rest t)
  end.

Definition desired_mid (now_ms : Z) (r : Runtime) (m : string) : res (string * pydec) :=
  v ← fresh_snapshot m now_ms (market_age_ms (limits r)) (rt_market r);
  match v with Some v => Ok (m, Fin (sn_mark_px v)) | None => Raise (ValueError "market snapshot unavailable") end.

(** The target of the slot, where it can be computed. *)
Definition desired_sizes (id : string) (now_ms : Z) (r : Runtime) (s : Slot) : res (option (dict dec)) :=
  match follower s, source_equity_of s with
  | Some f, Some equity =>
      if dleb equity dzero then Ok None else
      let copied := attributable_positions (allowed_of id r) s in
      mids ← map_res (desired_mid now_ms r) (dict_keys copied);
      desired ← DesiredEngine.build_desired_portfolio sha256 (effective_config (allowed_of id r) s) copied
                  (Fin equity) (Fin (ft_equity f)) mids;
      values ← sizes (DesiredEngine.positions desired);
      Ok (Some (nz values))
  | _, _ => Ok None
  end.

(** [except (TypeError, ValueError)] *)
Definition or_unknown {A} (x : res (option A)) : res (option A) :=
  match x with
  | Raise e => if absent (caught_text e) then Raise e else Ok None
  | _ => x
  end.

(** [operational_status] *)
Definition operational_status (id : string) (now_ms : Z) (r : Runtime) : res SlotStatus :=
  s ← slot_of id r;
  unresolved ← unresolved_of loads r s;
  actual ← match follower s with Some f => sizes (ft_positions f) | None => Ok [] end;
  let projected := fold_left (fun acc mv => put_size acc mv.1 (dadd (size_at acc mv.1) mv.2)) unresolved actual in
  desired ← or_unknown (desired_sizes id now_ms r s);
  fresh ← source_is_ready now_ms r s;
  let latest := latest_trigger (triggers (attribution s)) in
  let latest_market := match latest with Some t => t.1 | None => "" end in
  let known := py_sorted str_leb (elements (list_to_set (dict_keys projected ++ dict_keys (attributable (attribution s))) : gset string)) in
  Ok (MkStatus (state (gate s)) (reason (gate s)) (match latest with Some t => tr_time_ms t.2 | None => 0 end) latest_market
        (if is_empty latest_market then default "" (head known) else latest_market)
        (match follower s with Some f => ft_observed_ms f | None => 0 end)
        desired (nz actual) (nz projected) (nz unresolved)
        (negb fresh || match follower s with
                       | Some f => negb (truth_fresh (follower_age_ms (limits r)) now_ms f)
                       | None => true
                       end)).
End Session.
