(* ===== verification/RuntimeInit.v ===== *)
(** continuous_runtime.py: the constructor.

    The proofs a preflight collected are arguments; opening the database and taking the
    lock files is I/O: [locked] says whether every lock was acquired. *)

From S2P Require Import Prelude PyDecimal PyText Models Markets ContinuousConfig MarketCatalog MarketStream Runtime Checkpoint RuntimePlan RuntimeReconcile.
From S2P Require AccountStream DesiredEngine ActionJournal WsActions Executor.

Open Scope Z_scope.

(** What the caller proved about a slot before the start. *)
Record SlotProof := MkProof {
  sp_lane : Executor.SignerLane;
  sp_vault : option string;
  sp_source_mode : string;
  sp_dexes : list string;
}.

Definition same_keys {A} (ids : gset string) (d : dict A) : bool := bool_decide (ids = list_to_set (dict_keys d)).

(** [0 <= value < 10000], with infinities and NaN refused. *)
Definition slippage (v : pydec) : res dec :=
  match v with
  | Fin d => if dleb dzero d && dltb d (dint 10000) then Ok d else Raise (ValueError "slippage limits must be finite and below 10000 bps")
  | _ => Raise (ValueError "slippage limits must be finite and below 10000 bps")
  end.

(** The options of the constructor. *)
Record RuntimeOptions := MkOptions {
  op_execution_enabled : bool;
  op_slippages : pydec * pydec * pydec;
  op_max_source_fill_age_ms : Z;
  op_source_age_ms : Z;
  op_market_age_ms : Z;
  op_follower_age_ms : Z;
}.

Section Init.
Variables (sha256 : string -> string) (loads : string -> option json).
Variables (plan : ContinuousPlan) (c : CatalogRevision).

Definition equity_basis (mode : string) : string :=
  if bool_decide (mode = "standard") then "standard_sum_relevant_dex_account_value" else "unified_spot_token0_usdc_total".

(** The vault the orders are to be signed for, when the account is not the wallet's own. *)
Definition expected_vault (b : BoundContinuousSlot) : option string :=
  if bool_decide (follower_account_address (config b) = global_account_address b) then None
  else Some (follower_account_address (config b)).

(** The checks of one slot, in the order of the code. *)
Definition check_slot (b : BoundContinuousSlot) (p : SlotProof) : res string :=
  let mode := py_lower (py_strip (sp_source_mode p)) in
  if negb (forallb (fun d => bool_decide (d ∈ wire_dexes c)) (sp_dexes p))
  then Raise (ValueError "preflight DEX proof is outside the catalog") else
  if negb (bool_decide (mode ∈ ["standard"; "unified"])) then Raise (ValueError "source mode proof is invalid") else
  if negb (bool_decide (py_lower (py_strip (expected_account_mode b)) = "unified"))
  then Raise (ValueError "follower must be preflight-proven Unified") else
  if negb (bool_decide (py_lower (Executor.sl_follower_account (sp_lane p)) = follower_account_address (config b)))
  then Raise (ValueError "signer lane follower mismatch") else
  if negb (bool_decide (py_lower (Executor.sl_api_wallet_address (sp_lane p)) = api_wallet_address b))
  then Raise (ValueError "signer lane wallet mismatch") else
  if negb (bool_decide (py_lower <$> sp_vault p = expected_vault b) && bool_decide (py_lower <$> Executor.sl_vault_address (sp_lane p) = expected_vault b))
  then Raise (ValueError "signing-vault proof mismatch") else Ok mode.

(** The identity a checkpoint is bound to. *)
Definition identity_of (b : BoundContinuousSlot) (mode : string) : res (dict string) :=
  markets ← (if dynamic_market_eligibility b then Ok "dynamic" else catalog_markets_sha256 sha256 c (allowed_markets (config b)));
  Ok [("plan_sha256", plan_sha256 plan); ("runtime_id", runtime_id plan); ("network", plan_network plan);
      ("source", source_address (config b)); ("source_account_mode", mode); ("source_equity_basis", equity_basis mode);
      ("follower", follower_account_address (config b)); ("api_wallet", api_wallet_address b);
      ("market_policy", if dynamic_market_eligibility b then "all_active_token0_perps" else "explicit_allowlist");
      ("catalog_markets_sha256", markets);
      ("denied_markets_sha256", digest_of sha256 (strs (py_sorted str_leb (denied_markets b))))].

Definition readiness_value (r : MarketReadiness) : string :=
  match r with
  | READY => "READY" | NO_CONTEXT => "NO_CONTEXT" | HALTED => "HALTED" | DELISTED => "DELISTED" | UNTRUSTED => "UNTRUSTED"
  end.

(** Whether the runtime may start with the market, or why not. *)
Definition market_issue (m : string) : res (option string) :=
  spec ← revision_market m c;
  Ok match spec with
     | None => Some (m +:+ " is absent from the pinned catalog")
     | Some spec =>
         if is_delisted spec || bool_decide (readiness spec ∈ [HALTED; DELISTED; UNTRUSTED])
         then Some (m +:+ " is not runtime-ready (" +:+ readiness_value (readiness spec) +:+ ")") else None
     end.

Definition market_issues (allowed : list string) : res (list (string * option string)) :=
  map_res (fun m => why ← market_issue m; Ok (m, why)) allowed.

Definition new_gate (issues : list string) : Gate :=
  match issues with
  | [] => MkGate RECOVERING "startup reconciliation required" false false false false None None
  | _ => let why := "allowed market validation failed: " +:+ String.concat "; " issues in
         MkGate RECOVERING why false false false false None (Some why)
  end.

Definition new_slot (b : BoundContinuousSlot) (a : AccountStream.AccountStream) (l : Executor.SignerLane) (identity : dict string)
    (issues : list string) : Slot :=
  MkRuntimeSlot b a l identity (new_gate issues) None (MkAttribution [] [] ∅ [] [] []) None None (MkPacing [] [] []) 0.

(** One slot: its account stream, its checkpoint, and the orders it sent in the last minute. *)
Definition init_slot (b : BoundContinuousSlot) (p : SlotProof) (action_clock : Z) (r : Runtime) : res Runtime :=
  let id := slot (config b) in
  let allowed := effective_allowed_markets b c in
  mode ← check_slot b p;
  base ← map_res (fun m => market_dex (JStr m)) (allowed_markets (config b));
  identity ← identity_of b mode;
  account ← AccountStream.make_stream (source_address (config b)) (follower_account_address (config b)) mode
              (scope_of allowed) (scope_of allowed) (dynamic_market_eligibility b) 100000;
  issues ← market_issues allowed;
  stored ← load loads id (rt_store r);
  restored ← restore c allowed stored (new_slot b account (sp_lane p) identity (omap snd issues));
  let '(s, refresh, upgraded) := restored in
  times ← ActionJournal.recent_send_attempts (Executor.sl_follower_account (sp_lane p))
            (Executor.sl_api_wallet_address (sp_lane p)) (Z.max 0 (action_clock - 60000)) (rt_journal r);
  let store := match stored with
               | Some payload => if upgraded : bool then upgrade_identity id payload identity (rt_store r) else rt_store r
               | None => rt_store r
               end in
  let ready := list_to_set (omap (fun mw : string * option string => if absent mw.2 then Some mw.1 else None) issues) : gset string in
  Ok (MkRuntime (limits r) (rt_catalog r) (rt_market r)
        (dict_set id (on_pacing (set_times (action_times (pacing s) ++ times)) s) (rt_slots r))
        (dict_set id allowed (rt_allowed r)) (reservations r) (prewarm_markets r ∪ ready) (source_open_epoch r)
        (catalog_refresh_request r || refresh) (rt_journal r) store (rt_mux r) (rt_locks r)
        (dict_set id (list_to_set (sp_dexes p ++ base)) (rt_audited r))).

Definition source_of (s : Slot) : string := source_address (config (bound s)).

Definition init_slots (proofs : dict SlotProof) (action_clock : Z) (acc : Runtime * gset string) (b : BoundContinuousSlot)
    : res (Runtime * gset string) :=
  match dict_get (slot (config b)) proofs with
  | None => Raise (KeyError (slot (config b)))
  | Some p =>
      r ← init_slot b p action_clock acc.1;
      let source := source_address (config b) in
      if bool_decide (source ∈ acc.2) then Raise (ValueError "leader accounts must be unique on the shared source stream")
      else Ok (r, {[source]} ∪ acc.2)
  end.

Definition make_limits (o : RuntimeOptions) : res RuntimeLimits :=
  if Z.min (Z.min (op_max_source_fill_age_ms o) (op_source_age_ms o)) (Z.min (op_market_age_ms o) (op_follower_age_ms o)) <=? 0
  then Raise (ValueError "freshness limits must be positive") else
  let '(tracking, reduction, emergency) := op_slippages o in
  tracking ← slippage tracking;
  reduction ← slippage reduction;
  emergency ← slippage emergency;
  Ok (MkLimits (op_execution_enabled o) tracking reduction emergency (op_max_source_fill_age_ms o) (op_source_age_ms o)
        (op_market_age_ms o) (op_follower_age_ms o) (max_combined_gross_usd plan)).

(** [ContinuousRuntime(...)] *)
Definition make_runtime (bounds : list BoundContinuousSlot) (proofs : dict SlotProof) (o : RuntimeOptions)
    (journal : ActionJournal.db) (db : store) (mux : WsActions.mux) (action_clock : Z) (locked : bool) : res Runtime :=
  let ids : gset string := list_to_set ((fun b => slot (config b)) <$> bounds) in
  if negb ((1 <=? Z.of_nat (size ids)) && (Z.of_nat (size ids) <=? 10)) || negb (same_keys ids proofs)
  then Raise (ValueError "plan, signer lanes and preflight proofs must match 1-10 slots") else
  l ← make_limits o;
  market ← make_market_stream c [];
  made ← fold_res (init_slots proofs action_clock) bounds
           (MkRuntime l c market [] [] [] ∅ None false journal db mux locked [], ∅);
  let r := made.1 in
  count ← subscription_count (rt_slots r);
  if 1000 <? count + 3 * Z.of_nat (size (prewarm_markets r))
  then Raise (ValueError "continuous runtime exceeds the 1000 WebSocket subscription limit") else
  let '(market, activated) := set_active_markets (elements (prewarm_markets r)) (rt_market r) in
  _ ← activated;
  if negb locked then Raise (RuntimeError "lock") else
  Ok (set_market r market).
End Init.
