(* ===== verification/ContinuousFollower.v ===== *)
(** continuous_follower.py: equity and positions of the follower, read over the WebSocket.

    [wire] answers a request; the workers that read several DEXes at once only take turns
    in asking, so that the model reads the DEXes in their order; FollowerFacts.v shows
    that the order does not matter for the truth that is returned. *)

From S2P Require Import Prelude PyDecimal PyText Models Markets RestPolicy ContinuousConfig MarketCatalog AccountParsing.
From S2P Require WsActions RuntimeReconcile.

Open Scope Z_scope.

Definition truth_error {A} (msg : string) : res A := Raise (FollowerTruthError msg).

(** [catalog_position_dexes] *)
Definition catalog_position_dexes (c : CatalogRevision) : list string :=
  let owned := cm_dex <$> List.filter (fun m => negb (removal_tombstone m)) (cr_markets c) in
  List.filter (fun dex => bool_decide (dex ∈ owned)) (wire_dexes c).

(** [WsFollowerInfo]: the bounds of the constructor are positive. *)
Record WsFollowerInfo := MkFollowerInfo {
  fi_catalog : CatalogRevision;
  catalog_dexes : list string;
  maximum_inflight : Z;
  per_slot_workers : Z;
}.

Definition make_follower_info (c : CatalogRevision) (inflight workers : Z) (timeout_positive : bool) : res WsFollowerInfo :=
  if (inflight <? 1) || (workers <? 1) || negb timeout_positive then Raise (ValueError "follower WS bounds must be positive") else
  if inflight <? workers then Raise (ValueError "per-slot follower workers exceed the shared inflight bound") else
  match catalog_position_dexes c with
  | [] => Raise (ValueError "follower truth requires at least one catalog DEX")
  | dexes => Ok (MkFollowerInfo c dexes inflight workers)
  end.

(** [replace_catalog] *)
Definition replace_follower_catalog (c : CatalogRevision) (f : WsFollowerInfo) : res WsFollowerInfo :=
  match catalog_position_dexes c with
  | [] => Raise (ValueError "follower truth requires at least one catalog DEX")
  | dexes => Ok (MkFollowerInfo c dexes (maximum_inflight f) (per_slot_workers f))
  end.

(** [dexes_for] *)
Definition dexes_for (f : WsFollowerInfo) (b : BoundContinuousSlot) : res (list string) :=
  dexes ← map_res (fun m => market_dex (JStr m)) (allowed_markets (config b));
  let dexes := py_sorted (fun a b => dex_key_leb (dex_sort_key a) (dex_sort_key b)) (elements (list_to_set dexes : gset string)) in
  if bool_decide (dexes = []) || negb (forallb (fun d => bool_decide (d ∈ catalog_dexes f)) dexes)
  then truth_error "follower plan contains an unavailable DEX" else Ok dexes.

Definition requests_per_refresh (f : WsFollowerInfo) (b : BoundContinuousSlot) : res Z :=
  dexes ← dexes_for f b;
  let n := Z.of_nat (List.length dexes) in Ok (1 + n + (if external_writers_allowed b then n else 0)).

Definition weight_per_refresh (f : WsFollowerInfo) (b : BoundContinuousSlot) : res Z :=
  dexes ← dexes_for f b;
  spot ← authoritative_rest_weight "info:spotClearinghouseState";
  state ← authoritative_rest_weight "info:clearinghouseState";
  orders ← (if external_writers_allowed b then authoritative_rest_weight "info:openOrders" else Ok 0);
  Ok (spot + Z.of_nat (List.length dexes) * (state + orders)).

Section Info.
Variable wire : WsActions.call -> res WsActions.WireResult.
Variables (f : WsFollowerInfo) (b : BoundContinuousSlot) (epoch now_ms : Z).

(** [_info] *)
Definition info (payload : list (string * json)) : res json :=
  c ← WsActions.info_call payload epoch true;
  w ← wire c;
  let result := WsActions.post_info_result w in
  match WsActions.post_outcome result, WsActions.post_response result with
  | WsActions.PO_INFO, JObj response =>
      if negb (json_is_str "info" (obj_field "type" response)) then truth_error "follower WS info envelope is malformed" else
      match obj_field "payload" response with
      | JObj inner =>
          match obj_get "data" inner with
          | Some data =>
              if json_eqb (obj_field "type" inner) (JStr (str_or_empty (obj_field "type" payload))) then Ok data
              else truth_error "follower WS info payload is mismatched"
          | None => truth_error "follower WS info payload is mismatched"
          end
      | _ => truth_error "follower WS info payload is mismatched"
      end
  | WsActions.PO_INFO, _ => truth_error "follower WS info envelope is malformed"
  | _, _ => truth_error "follower WS info failed"
  end.

(** [{"type": kind, "user": follower, **suffix}] *)
Definition dex_request (kind dex : string) : list (string * json) :=
  [("type", JStr kind); ("user", JStr (follower_account_address (config b)))] ++ (if is_empty dex then [] else [("dex", JStr dex)]).

Definition is_usdc_row (row : json) : bool :=
  match row with
  | JObj o => bool_decide (py_str (obj_field "token" o) = "0") && bool_decide (py_upper (str_or_empty (obj_field "coin" o)) = "USDC")
  | _ => false
  end.

(** [_token_zero_usdc_balance] *)
Definition token_zero_usdc_balance (payload : json) : res (dec * dec) :=
  match payload with
  | JObj o =>
      match obj_field "balances" o with
      | JList rows =>
          match List.filter is_usdc_row rows with
          | [JObj row] =>
              match decimal_of_string (py_str (obj_field "total" row)), decimal_of_string (py_str (obj_field "hold" row)) with
              | Some (Fin total), Some (Fin hold) =>
                  if dleb total dzero || negb (dleb dzero hold && dleb hold total)
                  then truth_error "follower token-0 Spot USDC balance is inconsistent" else Ok (total, dsub total hold)
              | Some _, Some _ => truth_error "follower token-0 Spot USDC balance is inconsistent"
              | _, _ => truth_error "follower token-0 Spot USDC balance is malformed"
              end
          | _ => truth_error "follower requires exactly one token-0 Spot USDC balance"
          end
      | _ => truth_error "follower Spot collateral is malformed"
      end
  | _ => truth_error "follower Spot collateral is malformed"
  end.

(** The open orders of a DEX, when they are audited: there must be none. *)
Definition audit_orders (dex : string) : res unit :=
  orders ← info (dex_request "openOrders" dex);
  match orders with
  | JList l =>
      if negb (forallb (fun o => match o with JObj _ => true | _ => false end) l) then truth_error "follower open-order truth is malformed" else
      match l with [] => Ok tt | _ => truth_error "follower has resting orders" end
  | _ => truth_error "follower open-order truth is malformed"
  end.

(** The positions of one DEX. *)
Definition dex_positions (audit : bool) (dex : string) : res (dict Position) :=
  state ← info (dex_request "clearinghouseState" dex);
  match state with
  | JObj o =>
      parsed ← parse_clearinghouse_positions o now_ms dex;
      _ ← (if audit then audit_orders dex else Ok tt);
      Ok parsed
  | _ => truth_error "follower clearinghouse state is malformed"
  end.

Definition trusted (market : string) : res bool :=
  spec ← revision_market market (fi_catalog f);
  Ok match spec with Some m => negb (bool_decide (readiness m = UNTRUSTED)) | None => false end.

Definition admit_position (acc : dict Position) (mp : string * Position) : res (dict Position) :=
  if bool_decide (mp.1 ∈ dict_keys acc) then truth_error "duplicate follower position identity" else
  ok ← trusted mp.1;
  if ok : bool then Ok (dict_set mp.1 mp.2 acc) else truth_error "follower position has no trusted identity".

(** One DEX, as a worker reads it. *)
Definition dex_step (acc : dict Position) (dex : string) : res (dict Position) :=
  parsed ← dex_positions (external_writers_allowed b) dex; fold_res admit_position parsed acc.

Definition raw_position (p : Position) : RawPosition :=
  MkPosition (pos_coin p) (Fin (pos_size p)) (pos_entry_px p) (pos_leverage p) (pos_updated_ms p).

(** [__call__] *)
Definition follower_call : res RuntimeReconcile.RawTruth :=
  spot ← info [("type", JStr "spotClearinghouseState"); ("user", JStr (follower_account_address (config b)))];
  balance ← token_zero_usdc_balance spot;
  dexes ← dexes_for f b;
  positions ← fold_res dex_step dexes [];
  Ok (RuntimeReconcile.MkRawTruth ((fun mp => (mp.1, raw_position mp.2)) <$> py_sorted (fun a b => str_leb a.1 b.1) positions)
        (Fin balance.1) now_ms ((fun dex => (dex, now_ms)) <$> dexes) (Some balance.2)).

Definition check_trusted (acc : unit) (mp : string * Position) : res unit :=
  ok ← trusted mp.1; if ok : bool then Ok tt else truth_error "follower position has no trusted identity".

(** [refresh_dex] *)
Definition refresh_dex (dex : string) (audit_open_orders : bool) : res (dict Position) :=
  if negb (bool_decide (dex ∈ catalog_dexes f)) then truth_error "follower DEX is unavailable" else
  parsed ← dex_positions (audit_open_orders || external_writers_allowed b) dex;
  _ ← fold_res check_trusted parsed tt;
  Ok parsed.
End Info.
