(* ===== verification/RuntimeExample.v ===== *)
(** A small runtime on which the hypotheses of the runtime's theorems hold: one slot
    that copies one BTC position of a standard account. *)

From S2P Require Import Prelude PyDecimal PyText Models Markets ContinuousConfig Precision OrderPreflight MarketCatalog MarketStream MarketStreamFacts Runtime Checkpoint RuntimePlan RuntimeDrive.
From S2P Require AccountStream DesiredEngine ActionJournal WsActions Executor.

Open Scope Z_scope.

Definition leader : string := "0x1111111111111111111111111111111111111111".
Definition follower_account : string := "0x2222222222222222222222222222222222222222".
Definition api_wallet : string := "0x3333333333333333333333333333333333333333".

Definition example_config : ContinuousSlotConfig :=
  MkSlot "slot-1" leader follower_account "p" (dint 1) (dint 1000) (dint 5000) 3 5 10 ["BTC"] true.

Definition example_bound : BoundContinuousSlot := MkBound example_config api_wallet "key" follower_account "unified" false [] false.

Definition example_source (now : Z) : AccountStream.AccountStream :=
  let components := (fun c => (AccountStream.component_name c, now)) <$> AccountStream.STANDARD_SOURCE_COMPONENTS in
  AccountStream.MkStream leader follower_account 10 "standard" (Some {["BTC"]}) (Some {["BTC"]}) false {[""]} 1 now
    (AccountStream.MkAccount [("BTC", MkPosition "BTC" (dint 1) None (Some 3) now)] None [("", dint 1000)] [] []
       components components [])
    AccountStream.empty_account [].

Definition example_gate : Gate := MkGate RECOVERING "startup" true true false false None None.

Definition example_slot_state (copied : dict dec) (holding : dict Position) : Slot :=
  MkRuntimeSlot example_bound (example_source 1000) (Executor.MkLane follower_account api_wallet None true 5000 true) [] example_gate
    (Some [("BTC", dint 1)])
    (MkAttribution [] copied ∅ [] [("BTC", MkTrigger (dint 101) 990 995)] [("BTC", 1)])
    (Some (MkTruth holding (dint 1000) 1000 [] None)) None (MkPacing [] [] []) 0.

Definition example_limits : RuntimeLimits :=
  MkLimits true (dint 50) (dint 100) (dint 300) 5000 30000 45000 90000 (dint 5000).

Definition example_runtime (mux : WsActions.mux) (s : Slot) : Runtime :=
  MkRuntime example_limits example_catalog example_stream [("slot-1", s)] [("slot-1", ["BTC"])] [] {["BTC"]} (Some 1) false
    ActionJournal.empty_db [] mux true [].

Definition connected : WsActions.mux := WsActions.MkMux true 7 0 false 0 ∅.

Definition copying : Slot := example_slot_state [("BTC", dint 1)] [].

Definition example_clocks : DriveClocks := MkDriveClocks 1003 1003 0.
