(* ===== verification/FollowerFacts.v ===== *)
(** The follower truth is complete: every DEX of the slot was read, and nothing else. *)

From S2P Require Import Prelude PyDecimal DecimalFacts PyText Models Markets ContinuousConfig MarketCatalog AccountParsing ContinuousFollower.
From S2P Require WsActions RuntimeReconcile MarketStreamFacts RuntimeExample.
From Stdlib Require Import QArith Lqa.

Open Scope Z_scope.

Lemma dict_set_fresh {V} k (v : V) d : k ∉ dict_keys d -> dict_set k v d = d ++ [(k, v)].
Proof.
  induction d as [|[k' v'] d IH]; cbn; [done|]. intros [Hne Hni]%not_elem_of_cons.
  rewrite decide_False by done. by rewrite IH.
Qed.

Section Follower.
Variable wire : WsActions.call -> res WsActions.WireResult.
Variables (f : WsFollowerInfo) (b : BoundContinuousSlot) (epoch now_ms : Z).
Local Abbreviation read_positions := (dex_positions wire b epoch now_ms (external_writers_allowed b)).

(** Adding the positions of a list appends them: their markets are new and trusted. *)
Lemma add_positions l acc out :
  fold_res (admit_position f) l acc = Ok out ->
  out = acc ++ l /\ (NoDup (dict_keys acc) -> NoDup (dict_keys out)) /\ forall mp, mp ∈ l -> trusted f mp.1 = Ok true.
Proof.
  revert acc. induction l as [|[m p] l IH]; intros acc H; cbn in H.
  { injection H as <-. rewrite app_nil_r. split_and!; [done..|]. by intros mp Hmp%elem_of_nil. }
  apply bind_Ok in H as (acc1 & Hstep & H). unfold admit_position in Hstep. cbn [fst snd] in Hstep.
  case_bool_decide as Hni; [done|]. apply bind_Ok in Hstep as ([] & Ht & [= <-]).
  apply IH in H as (-> & Hnd & Htr). rewrite dict_set_fresh in * by done. split_and!; [by rewrite <- app_assoc| |].
  - intros Ha. apply Hnd. unfold dict_keys in *. rewrite fmap_app. apply list.NoDup_app.
    split_and!; [done| |apply NoDup_singleton]. intros x Hx. by intros ->%list_elem_of_singleton.
  - intros mp [->|Hin]%elem_of_cons; [done|by apply Htr].
Qed.

(** Reading the DEXes one after another collects what each of them answers. *)
Lemma dex_steps dexes acc out :
  fold_res (dex_step wire f b epoch now_ms) dexes acc = Ok out ->
  exists pss, map_res read_positions dexes = Ok pss /\ fold_res (admit_position f) (concat pss) acc = Ok out.
Proof.
  revert acc. induction dexes as [|d dexes IH]; intros acc H; cbn in H.
  { injection H as <-. by exists []. }
  apply bind_Ok in H as (acc1 & Hstep & H). unfold dex_step in Hstep. apply bind_Ok in Hstep as (ps & Hps & Hadd).
  apply IH in H as (pss & Hpss & Hfold). exists (ps :: pss). cbn. rewrite Hps, Hpss. cbn. split; [done|].
  by rewrite fold_res_app, Hadd.
Qed.

Lemma map_res_perm {A B} (g : A -> res B) l l' r :
  l ≡ₚ l' -> map_res g l = Ok r -> exists r', map_res g l' = Ok r' /\ r ≡ₚ r'.
Proof.
  intros Hp H. apply map_res_Forall2 in H.
  destruct (Permutation_Forall2 Hp H) as (r' & Hr' & HF). exists r'. split; [by apply map_res_Forall2|done].
Qed.

Definition item_of (dexes : list string) (m : string) (p : Position) : Prop :=
  exists dex ps, dex ∈ dexes /\ read_positions dex = Ok ps /\ (m, p) ∈ ps.

(** What reading the DEXes yields, in whichever order they are read. *)
Lemma read_dexes dexes out :
  fold_res (dex_step wire f b epoch now_ms) dexes [] = Ok out ->
  NoDup (dict_keys out) /\ (forall m p, (m, p) ∈ out <-> item_of dexes m p) /\
  (forall m p, (m, p) ∈ out -> trusted f m = Ok true) /\
  (forall dex, dex ∈ dexes -> exists ps, read_positions dex = Ok ps) /\
  forall dexes' out', dexes ≡ₚ dexes' -> fold_res (dex_step wire f b epoch now_ms) dexes' [] = Ok out' -> out ≡ₚ out'.
Proof.
  intros H. apply dex_steps in H as (pss & Hpss & Hadd). apply add_positions in Hadd as (-> & Hnd & Htr). cbn [app] in *.
  split_and!.
  - apply Hnd. constructor.
  - intros m p. rewrite list_elem_of_In, in_concat. split.
    + intros (ps & Hin%list_elem_of_In & Hmp%list_elem_of_In). apply (map_res_elem _ _ _ _ Hpss) in Hin as (dex & Hdex & Hps). by exists dex, ps.
    + intros (dex & ps & Hdex & Hps & Hmp). exists ps. split; apply list_elem_of_In; [|done].
      apply (map_res_elem _ _ _ _ Hpss). by exists dex.
  - intros m p Hin. by apply (Htr (m, p)).
  - intros dex Hdex. apply map_res_Forall2 in Hpss. apply list_elem_of_lookup in Hdex as [i Hi].
    destruct (Forall2_lookup_l _ _ _ _ _ Hpss Hi) as (ps & _ & Hps). by exists ps.
  - intros dexes' out' Hp H'. apply dex_steps in H' as (pss' & Hpss' & Hadd'). apply add_positions in Hadd' as (-> & _ & _).
    destruct (map_res_perm _ _ _ _ Hp Hpss) as (pss2 & Hpss2 & Hperm). assert (pss2 = pss') as -> by congruence.
    cbn [app]. assert (forall l : list (dict Position), concat l = flat_map (fun x => x) l) as Hflat by (intros l; by rewrite flat_map_concat_map, map_id).
    by rewrite !Hflat, Hperm.
Qed.

Lemma token_zero_sound payload total free :
  token_zero_usdc_balance payload = Ok (total, free) ->
  exists hold, (0 < dval total)%Q /\ (0 <= dval hold /\ dval hold <= dval total)%Q /\ free = dsub total hold.
Proof.
  unfold token_zero_usdc_balance. intros H. repeat case_match; simplify_eq. bool_prop.
  match goal with H : dleb _ dzero = false, H1 : dleb dzero ?h = true, H2 : dleb ?h _ = true |- _ =>
    exists h; apply dleb_false in H; apply dleb_spec in H1, H2; rewrite dval_zero in * end.
  by split_and!.
Qed.

(** C12. The follower truth is complete and authoritative.  When the hook answers, the equity is
    the positive token-0 total and the free part what is not held; the slot's plan names at
    least one DEX, every DEX of the plan is in the catalog, was read, and its time is recorded;
    a position is reported exactly when one of those DEXes answered with it, its market has a
    trusted identity in the catalog, and no market is reported twice; where other writers are
    allowed, no DEX has a resting order.  Whatever order the workers read the DEXes in, the
    positions are the same. *)
Theorem follower_truth_complete t :
  follower_call wire f b epoch now_ms = Ok t ->
  exists dexes total hold,
    dexes_for f b = Ok dexes /\ dexes <> [] /\ (forall dex, dex ∈ dexes -> dex ∈ catalog_dexes f) /\
    RuntimeReconcile.raw_equity t = Fin total /\ (0 < dval total)%Q /\ (0 <= dval hold /\ dval hold <= dval total)%Q /\
    RuntimeReconcile.raw_available_collateral t = Some (dsub total hold) /\
    RuntimeReconcile.raw_observed_ms t = now_ms /\ dict_keys (RuntimeReconcile.raw_dex_observed_ms t) = dexes /\
    NoDup (dict_keys (RuntimeReconcile.raw_positions t)) /\
    (forall m p, dict_get m (RuntimeReconcile.raw_positions t) = Some p <-> exists q, p = raw_position q /\ item_of dexes m q) /\
    (forall m, m ∈ dict_keys (RuntimeReconcile.raw_positions t) -> trusted f m = Ok true) /\
    (external_writers_allowed b = true -> forall dex, dex ∈ dexes -> audit_orders wire b epoch dex = Ok tt) /\
    (forall dexes' out, dexes ≡ₚ dexes' -> fold_res (dex_step wire f b epoch now_ms) dexes' [] = Ok out ->
       forall m, raw_position <$> dict_get m out = dict_get m (RuntimeReconcile.raw_positions t)).
Proof.
  intros H. unfold follower_call in H. apply bind_Ok in H as (spot & _ & H). apply bind_Ok in H as ([total free] & Hbal & H).
  apply bind_Ok in H as (dexes & Hdexes & H). apply bind_Ok in H as (out & Hout & [= <-]).
  cbn [RuntimeReconcile.raw_positions RuntimeReconcile.raw_equity RuntimeReconcile.raw_observed_ms
    RuntimeReconcile.raw_dex_observed_ms RuntimeReconcile.raw_available_collateral fst snd].
  destruct (token_zero_sound _ _ _ Hbal) as (hold & Htot & [Hh0 Hh1] & ->).
  destruct (read_dexes _ _ Hout) as (Hnd & Hin & Htr & Hread & Hperm).
  set (sorted := py_sorted (fun x y : string * Position => str_leb x.1 y.1) out).
  assert (sorted ≡ₚ out) as Hs by apply py_sorted_perm.
  assert (dict_keys ((fun mp => (mp.1, raw_position mp.2)) <$> sorted) = dict_keys sorted) as Hkeys.
  { unfold dict_keys. rewrite <- list_fmap_compose. by apply list_fmap_ext. }
  assert (NoDup (dict_keys sorted)) as Hnd' by (unfold dict_keys in *; by rewrite Hs).
  assert (forall m, dict_get m ((fun mp => (mp.1, raw_position mp.2)) <$> sorted) = raw_position <$> dict_get m out) as Hget.
  { intros m. rewrite <- (dict_get_perm _ _ m Hnd' Hs). clear. induction sorted as [|[k v] l IH]; cbn; [done|]. by case_decide. }
  pose proof Hdexes as Hd. unfold dexes_for in Hd. apply bind_Ok in Hd as (names & _ & Hd).
  destruct (bool_decide _ || _) eqn:E in Hd; [done|]. injection Hd as <-. apply orb_false_iff in E as [Hne Hall].
  apply bool_decide_eq_false in Hne. apply negb_false_iff in Hall. rewrite forallb_forall in Hall.
  eexists _, total, hold. split_and!; try done.
  - intros dex Hdex. apply list_elem_of_In in Hdex. specialize (Hall _ Hdex). by apply bool_decide_eq_true in Hall.
  - apply keys_const.
  - by rewrite Hkeys.
  - intros m p. rewrite Hget, fmap_Some. split.
    + intros (q & Hq & ->). exists q. split; [done|]. apply Hin. by apply dict_get_Some_in.
    + intros (q & -> & Hq). exists q. split; [|done]. apply dict_in_get; [done|]. by apply Hin.
  - intros m. rewrite Hkeys. unfold dict_keys. rewrite Hs. intros ([m' p] & -> & Hm)%list_elem_of_fmap. by apply (Htr m' p).
  - intros Hext dex Hdex. destruct (Hread dex Hdex) as [ps Hps]. unfold dex_positions in Hps. rewrite Hext in Hps.
    apply bind_Ok in Hps as (state & _ & Hps). destruct state; try done. apply bind_Ok in Hps as (parsed & _ & Hps).
    by apply bind_Ok in Hps as ([] & Haudit & _).
  - intros dexes' out' Hp Hout' m. rewrite Hget. f_equal. symmetry. apply dict_get_perm; [done|]. by apply (Hperm dexes').
Qed.
End Follower.

(** * Example *)

Definition example_answer (kind : string) : json :=
  if bool_decide (kind = "spotClearinghouseState")
  then JObj [("balances", JList [JObj [("coin", JStr "USDC"); ("token", JInt 0); ("total", JStr "1000.5"); ("hold", JStr "10")]])]
  else JObj [("assetPositions", JList [JObj [("position", JObj [("coin", JStr "BTC"); ("szi", JStr "-0.25")])]])].

Definition example_wire (c : WsActions.call) : res WsActions.WireResult :=
  let kind := py_str (obj_field "type" (WsActions.c_payload c)) in
  Ok (WsActions.MkWire 1 WsActions.W_RESPONSE
        (JObj [("type", JStr "info"); ("payload", JObj [("type", JStr kind); ("data", example_answer kind)])]) "").

Definition example_info : WsFollowerInfo := MkFollowerInfo MarketStreamFacts.example_catalog [""] 12 2.

Lemma follower_truth_complete_witness :
  make_follower_info MarketStreamFacts.example_catalog 12 2 true = Ok example_info /\
  exists t, follower_call example_wire example_info RuntimeExample.example_bound 7 1000 = Ok t /\
    (fun mp => (mp.1, pos_size mp.2)) <$> RuntimeReconcile.raw_positions t = [("BTC", Fin (Dec true 25 (-2)))] /\
    dict_keys (RuntimeReconcile.raw_dex_observed_ms t) = [""] /\
    trusted example_info "BTC" = Ok true.
Proof.
  split; [by vm_compute|].
  destruct (follower_call example_wire example_info RuntimeExample.example_bound 7 1000) as [t|] eqn:E; [|by vm_compute in E].
  exists t. split; [done|].
  destruct (follower_truth_complete example_wire example_info RuntimeExample.example_bound 7 1000 t E)
    as (dexes & total & hold & Hd & _ & _ & _ & _ & _ & _ & _ & Hk & _ & _ & Htr & _).
  vm_compute in Hd. injection Hd as <-. split; [vm_compute in E; injection E as <-; by vm_compute|].
  split; [done|]. apply Htr. vm_compute in E. injection E as <-. by left.
Defined.
