(* ===== verification/PlanFacts.v ===== *)
(** What a prepared order went through: the facts about [plan_drive]. *)

From S2P Require Import Prelude PyDecimal DecimalFacts PyText Models Markets ContinuousConfig Precision OrderPreflight MarketCatalog MarketStream Runtime Checkpoint RuntimePlan RuntimeDrive RuntimeExample.
From S2P Require AccountStream DesiredEngine ActionJournal WsActions Executor.
From Stdlib Require Import QArith Lqa.

Open Scope Z_scope.

(** * Steps that go on *)

Lemma dbind_inl {A B} (m : Drive A) (k : A -> Drive B) r r' b :
  dbind m k r = (r', Ok (inl b)) -> exists a r1, m r = (r1, Ok (inl a)) /\ k a r1 = (r', Ok (inl b)).
Proof. unfold dbind. intros ([a|out] & r1 & H & Hk)%jbind_Ok; [by exists a, r1|done]. Qed.

Lemma dret_inl {A} (a b : A) r r' : dret a r = (r', Ok (inl b)) -> r' = r /\ b = a.
Proof. unfold dret, jret. by intros [= -> ->]. Qed.

Lemma leave_inl {A} a why r r' (b : A) : leave a why r = (r', Ok (inl b)) -> False.
Proof. by unfold leave, jret. Qed.

Lemma dquery_inl {A} (q : Runtime -> res A) r r' a : dquery q r = (r', Ok (inl a)) -> r' = r /\ q r = Ok a.
Proof. unfold dquery. intros (b & r1 & [-> Hq]%jquery_Ok & [= <- <-])%jbind_Ok. done. Qed.

Lemma this_inl id r r' s : this id r = (r', Ok (inl s)) -> r' = r /\ slot_of id r = Ok s.
Proof. apply dquery_inl. Qed.

Lemma tell_inl id f r r' u : tell id f r = (r', Ok (inl u)) -> r' = on_slot id f r.
Proof. unfold tell. by intros (b & r1 & [= <- <-] & [= <- _])%jbind_Ok. Qed.

Lemma halt_inl {A} id a f r r' (b : A) : halt id a f r = (r', Ok (inl b)) -> False.
Proof. unfold halt. intros (? & ? & _ & (? & ? & _ & []%leave_inl)%dbind_inl)%dbind_inl. Qed.

(** One step of a drive that went on. *)
Ltac drive_step :=
  match goal with
  | H : dbind _ _ _ = (_, Ok (inl _)) |- _ =>
      let a := fresh "a" in let r1 := fresh "r" in let H1 := fresh "H" in
      apply dbind_inl in H as (a & r1 & H1 & H)
  | H : dret _ _ = (_, Ok (inl _)) |- _ => apply dret_inl in H as [-> ->]
  | H : leave _ _ _ = (_, Ok (inl _)) |- _ => by apply leave_inl in H
  | H : halt _ _ _ _ = (_, Ok (inl _)) |- _ => by apply halt_inl in H
  | H : dquery _ _ = (_, Ok (inl _)) |- _ => let Hq := fresh "Hq" in apply dquery_inl in H as [-> Hq]
  | H : this _ _ = (_, Ok (inl _)) |- _ => let Hs := fresh "Hs" in apply this_inl in H as [-> Hs]
  | H : tell _ _ _ = (_, Ok (inl _)) |- _ => apply tell_inl in H as ->
  | H : (if ?b then _ else _) _ = (_, Ok (inl _)) |- _ => let E := fresh "E" in destruct b eqn:E
  | H : match ?m with Some _ => _ | None => _ end _ = (_, Ok (inl _)) |- _ => let E := fresh "E" in destruct m eqn:E
  end.
Ltac drive_inv := repeat (drive_step; try done).

(** * What the plan leaves as it was *)

(** The inputs of the plan are those it started from; [R] relates its slot before and after. *)
Record planning (R : Slot -> Slot -> Prop) (id : string) (r r' : Runtime) : Prop := {
  pl_limits : limits r' = limits r;
  pl_catalog : rt_catalog r' = rt_catalog r;
  pl_market : rt_market r' = rt_market r;
  pl_allowed : rt_allowed r' = rt_allowed r;
  pl_reservations : reservations r' = reservations r;
  pl_journal : rt_journal r' = rt_journal r;
  pl_mux : rt_mux r' = rt_mux r;
  pl_locks : rt_locks r' = rt_locks r;
  pl_others id' : id' <> id -> dict_get id' (rt_slots r') = dict_get id' (rt_slots r);
  pl_slot s' : slot_of id r' = Ok s' -> exists s, slot_of id r = Ok s /\ R s s';
}.

(** The slot's truth is untouched; only its gate and its pacing may change. *)
Definition same_truth (s s' : Slot) : Prop :=
  bound s' = bound s /\ account s' = account s /\ lane s' = lane s /\ attribution s' = attribution s /\
  follower s' = follower s /\ expected_source s' = expected_source s /\ truth_revision s' = truth_revision s.

(** Neither has it acted, nor changed its state. *)
Definition same_gate (s s' : Slot) : Prop :=
  same_truth s s' /\ gate s' = gate s /\ action_times (pacing s') = action_times (pacing s).

#[export] Instance same_truth_preorder : PreOrder same_truth.
Proof. split; [by intros s; split_and!|]. intros a b c H1 H2. unfold same_truth in *. destruct_and?. split_and!; congruence. Qed.

#[export] Instance same_gate_preorder : PreOrder same_gate.
Proof.
  split; [by intros s; split_and!|]. intros a b c (H1 & H2 & H3) (H4 & H5 & H6).
  split; [by transitivity b|]. split; congruence.
Qed.

Section Progress.
Context (R : Slot -> Slot -> Prop) `{!PreOrder R} (id : string).

#[export] Instance planning_preorder : PreOrder (planning R id).
Proof.
  split.
  - intros r. split; try done. intros s Hs. by exists s.
  - intros a b c [] []. split; [congruence..| |].
    { intros id' Hne. rewrite pl_others1 by done. by apply pl_others0. }
    intros s (s1 & H1 & HR1)%pl_slot1. apply pl_slot0 in H1 as (s0 & H0 & HR0). exists s0. split; [done|by etrans].
Qed.

Lemma slot_of_put s r : slot_of id (put_slot id s r) = Ok s.
Proof. unfold slot_of, put_slot. cbn. by rewrite dict_get_set_eq. Qed.

Lemma planning_put r s s' : slot_of id r = Ok s -> R s s' -> planning R id r (put_slot id s' r).
Proof.
  intros Hs HR. split; try done; unfold put_slot; cbn.
  - intros id' Hne. by rewrite dict_get_set_ne.
  - intros s1. change (slot_of id (put_slot id s' r) = Ok s1 -> exists s0, slot_of id r = Ok s0 /\ R s0 s1).
    rewrite slot_of_put. intros [= <-]. by exists s.
Qed.

Lemma planning_on_slot r f : (forall s, slot_of id r = Ok s -> R s (f s)) -> planning R id r (on_slot id f r).
Proof.
  intros HR. unfold on_slot. destruct (dict_get id (rt_slots r)) as [s|] eqn:E; [|reflexivity].
  assert (slot_of id r = Ok s) as Hs by (unfold slot_of; by rewrite E).
  by apply planning_put with s; [|apply HR].
Qed.
End Progress.
#[global] Existing Instance planning_preorder.

Lemma planning_mono (R R' : Slot -> Slot -> Prop) id r r' :
  (forall s s', R s s' -> R' s s') -> planning R id r r' -> planning R' id r r'.
Proof. intros H []. split; try done. intros s' (s & Hs & HR)%pl_slot0. exists s. auto. Qed.

(** The inputs are the same, so are the readings of the lane. *)
Lemma unresolved_planning loads R id r r' s s' :
  planning R id r r' -> lane s' = lane s -> unresolved_of loads r' s' = unresolved_of loads r s.
Proof. intros [] Hl. unfold unresolved_of. by rewrite Hl, pl_journal0. Qed.

(** * The stages *)

Lemma on_gate_truth f s : same_truth s (on_gate f s).
Proof. by split_and!. Qed.
Lemma on_pacing_truth f s : same_truth s (on_pacing f s).
Proof. by split_and!. Qed.
Lemma block_truth why s : same_truth s (block why s).
Proof. apply on_gate_truth. Qed.
Lemma prune_truth clock s : same_truth s (prune clock s).
Proof. apply on_pacing_truth. Qed.
Lemma drop_retry_gate market s : same_gate s (drop_retry market s).
Proof. by split_and!. Qed.

Create HintDb planning.
#[export] Hint Resolve on_gate_truth on_pacing_truth block_truth prune_truth drop_retry_gate : planning.

Lemma ready_truth source_age follower_age now clock unresolved s s' x :
  ready source_age follower_age now clock unresolved s = (s', x) -> same_truth s s'.
Proof.
  unfold ready. repeat case_match; intros [= <- _]; auto with planning; try reflexivity.
  all: etrans; [apply prune_truth|apply on_gate_truth].
Qed.

Lemma lookup_on_slot id f r s : slot_of id r = Ok s -> slot_of id (on_slot id f r) = Ok (f s).
Proof. unfold slot_of at 1, on_slot. case_match; intros [= <-]. apply slot_of_put. Qed.

Section Stages.
Variables (sha256 : string -> string) (loads : string -> option json) (id : string).

Lemma start_ready_go now clock r r' x :
  start_ready loads id now clock r = (r', Ok (inl x)) ->
  x = None /\ planning same_truth id r r' /\
  exists s, slot_of id r' = Ok s /\ (state (gate s) = RUNNING \/ state (gate s) = PAUSE_ENTRIES).
Proof.
  unfold start_ready. intros (u & r1 & Hr & H)%jbind_Ok. drive_inv. split; [done|].
  apply bool_decide_eq_false in E. split.
  - unfold ready_slot in Hr. destruct (slot_of id r) as [s0|] eqn:Hs0; [|done].
    destruct (ready _ _ _ _ _ s0) as [s1 res1] eqn:Er. injection Hr as <- _.
    eapply planning_put; [exact Hs0|by eapply ready_truth].
  - eexists. split; [done|]. destruct (state _); [by left|by right|set_solver..].
Qed.

Lemma start_flatten_go now r r' x :
  start_flatten sha256 loads id now r = (r', Ok (inl x)) ->
  r' = r /\ exists s f a, x = Some a /\ slot_of id r = Ok s /\ state (gate s) <> OPERATOR_STOP /\
    follower s = Some f /\ truth_fresh (follower_age_ms (limits r)) now f = true /\
    unresolved_of loads r s = Ok [] /\ forced_close_action sha256 id s f [] = Some a.
Proof.
  unfold start_flatten. intros H. drive_inv. 2: { exfalso. apply jbind_Ok in H as (? & ? & _ & H). by drive_inv. }
  bool_prop. split; [done|]. subst. simplify_eq. by repeat eexists.
Qed.

Lemma correction_go now s f unresolved forced r r' a :
  correction sha256 id now s f unresolved forced r = (r', Ok (inl a)) -> r' = r.
Proof.
  unfold correction, copy_correction. intros H. drive_inv.
  destruct a1; drive_inv.
Qed.

Lemma check_rejected_go f a r r' u :
  check_rejected sha256 id f a r = (r', Ok (inl u)) -> planning same_gate id r r'.
Proof.
  unfold check_rejected. intros H. drive_inv; try reflexivity.
  apply planning_on_slot; [tc_solve|]. intros s _. by split_and!.
Qed.

Lemma check_rate_go force increasing clock a r r' u :
  check_rate id force increasing clock a r = (r', Ok (inl u)) ->
  planning same_truth id r r' /\ exists s0 s, slot_of id r = Ok s0 /\ slot_of id r' = Ok s /\ gate s = gate s0 /\
    (increasing = true -> state (gate s) <> PAUSE_ENTRIES) /\
    (force = false -> Z.of_nat (List.length (action_times (pacing s))) < rate_limit (bound s) increasing).
Proof.
  unfold check_rate. intros H. drive_inv.
  match goal with Hs : slot_of id (on_slot _ _ _) = Ok _, H0 : slot_of id r = Ok _ |- _ =>
    rewrite (lookup_on_slot _ _ _ _ H0) in Hs; injection Hs as <- end.
  split; [apply planning_on_slot; [tc_solve|]; intros; apply prune_truth|].
  eexists _, _. split_and!; [done|by apply lookup_on_slot|done|..].
  - intros ->. cbn. rewrite andb_true_r in E. by apply bool_decide_eq_false in E.
  - intros ->. cbn [negb andb] in E0. unfold rate_reached in E0. by apply Z.leb_gt in E0.
Qed.
End Stages.

(** * Its price and its size *)

Lemma dmin_le a b : (dval (dmin a b) <= dval a /\ dval (dmin a b) <= dval b)%Q.
Proof. destruct (dmin_cases a b) as [[-> H]|[-> H]]; split; lra. Qed.

Lemma quantize_at_most x k y : quantize_size (Fin x) k = Ok y -> (0 < dval y -> dval y <= dval x)%Q.
Proof.
  intros (_ & H1 & H2)%quantize_size_truncation H. destruct (Qlt_le_dec (dval x) 0); [destruct H2; lra|]. destruct H1; lra.
Qed.

Lemma executable_inv v (is_buy : bool) req slip hard e :
  executable_ioc v is_buy (Fin req) slip hard = Ok (Some e) ->
  ioc_limit v is_buy slip hard = Ok (Some (limit_px e)) /\ (0 < dval (ioc_size e) <= dval req)%Q.
Proof.
  unfold executable_ioc. intros H. res_inv. bool_prop. split; [done|]. cbn.
  repeat match goal with H : dleb ?x dzero = false |- _ => apply dleb_false in H; rewrite dval_zero in H end.
  repeat match goal with H : quantize_size _ _ = Ok _ |- _ => apply quantize_at_most in H; [|done] end.
  match goal with H : (_ <= dval (dmin ?x ?y))%Q |- _ => destruct (dmin_le x y) end. lra.
Qed.

Lemma capped_inv v (is_buy : bool) size cap hard buffer e :
  capped_ioc v is_buy size cap hard buffer = Ok (Some e) ->
  ioc_limit v is_buy buffer hard = Ok (Some (limit_px e)) /\ (0 < dval (ioc_size e) <= dval size)%Q.
Proof.
  unfold capped_ioc. intros H. res_inv.
  - match goal with H : executable_ioc _ _ (Fin (dmin size ?x)) _ _ = _ |- _ => apply executable_inv in H; destruct (dmin_le size x) end.
    destruct_and!. split; [done|]. lra.
  - by eapply executable_inv.
Qed.

(** A limit [bps] away from a price, at most: above it for a buy, below it for a sell, up to the
    three 28-digit roundings of the bound. *)
Definition inside_bps (is_buy : bool) (price bps limit : dec) : Prop :=
  let w := (dval bps / 10000)%Q in
  (if is_buy then dval limit <= dval price * ((1 + w * (1 + ulp28)) * (1 + ulp28)) * (1 + ulp28)
   else dval price * ((1 - w * (1 + ulp28)) * (1 - ulp28)) * (1 - ulp28) <= dval limit)%Q.

(** An entry is bound by the price of the leader's fill; a reduction by the best price of the
    book, with the slippage of its class. *)
Definition priced_inside (l : RuntimeLimits) (force increasing : bool) (trigger : option Trigger) (is_buy : bool)
    (v : MarketSnapshot) (limit : dec) : Prop :=
  valid_price (PERP_MAX_DECIMALS - sn_sz_decimals v) (dval limit) /\
  if negb force && increasing
  then exists t, trigger = Some t /\ inside_bps is_buy (tr_price t) (max_tracking_bps l) limit
  else exists best rest, side_levels is_buy v = best :: rest /\
    inside_bps is_buy (level_price best) (if force then emergency_slippage_bps l else reduction_slippage_bps l) limit.

Lemma envelope_limit l force increasing trigger a v size cap bounds e :
  let is_buy := bool_decide (DesiredEngine.na_side a = "buy") in
  envelope l (class_of force increasing) trigger a v = Ok bounds ->
  capped_ioc v is_buy size cap bounds.1 bounds.2 = Ok (Some e) ->
  priced_inside l force increasing trigger is_buy v (limit_px e).
Proof.
  intros is_buy H [Hlim _]%capped_inv. unfold priced_inside.
  assert (forall slippage, ioc_limit v is_buy (Some (Fin slippage)) None = Ok (Some (limit_px e)) ->
    valid_price (PERP_MAX_DECIMALS - sn_sz_decimals v) (dval (limit_px e)) /\
    exists best rest, side_levels is_buy v = best :: rest /\ inside_bps is_buy (level_price best) slippage (limit_px e)) as Hbook.
  { intros slippage Hl. unfold ioc_limit in Hl. destruct (side_levels is_buy v) as [|best rest]; [done|].
    apply bind_Ok in Hl as (x & Hx & [= ->]). apply aggressive_ioc_price_inside in Hx as (_ & _ & _ & Hv & Hin).
    split; [done|]. by exists best, rest. }
  destruct force; [|destruct increasing].
  1, 3: injection H as <-; cbn [fst snd] in Hlim; apply Hbook; rewrite Hlim; reflexivity.
  cbn [negb andb class_of envelope] in *. destruct trigger as [t|]; [|done].
  apply bind_Ok in H as (h & Hh & [= <-]). cbn in Hlim. injection Hlim as ->.
  apply aggressive_ioc_price_inside in Hh as (_ & _ & _ & Hv & Hin). split; [done|]. by exists t.
Qed.

Section Gate.
Variables (sha256 : string -> string) (loads : string -> option json) (id : string).

Lemma current_retry_go a revision r r' x :
  current_retry id a revision r = (r', Ok (inl x)) -> planning same_gate id r r'.
Proof.
  unfold current_retry. intros H. drive_inv; try reflexivity.
  apply planning_on_slot; [tc_solve|]. auto with planning.
Qed.

Lemma check_retry_go retry now a v e r r' n :
  check_retry id retry now a v e r = (r', Ok (inl n)) -> planning same_gate id r r'.
Proof.
  unfold check_retry. intros H. drive_inv; try reflexivity.
  apply planning_on_slot; [tc_solve|]. auto with planning.
Qed.

Lemma price_action_go force increasing gate_now a r r' p :
  price_action id force increasing gate_now a r = (r', Ok (inl p)) ->
  planning same_gate id r r' /\
  fresh_snapshot (DesiredEngine.na_market a) gate_now (market_age_ms (limits r)) (rt_market r) = Ok (Some (pr_snapshot p)) /\
  (0 < dval (ioc_size (pr_executable p)) <= dval (DesiredEngine.na_size a))%Q /\
  exists s, slot_of id r = Ok s /\
    priced_inside (limits r) force increasing (dict_get (DesiredEngine.na_market a) (triggers (attribution s)))
      (bool_decide (DesiredEngine.na_side a = "buy")) (pr_snapshot p) (limit_px (pr_executable p)).
Proof.
  unfold price_action. intros H. drive_inv.
  match goal with H : current_retry _ _ _ _ = _ |- _ => apply current_retry_go in H as Hp1 end.
  match goal with H : check_retry _ _ _ _ _ _ _ = _ |- _ => apply check_retry_go in H as Hp2 end.
  split; [by etrans|]. split; [done|].
  match goal with H : capped_ioc _ _ _ _ _ _ = _ |- _ => pose proof (capped_inv _ _ _ _ _ _ _ H) as [_ Hpos]; rename H into Hcap end.
  split; [done|]. eexists. split; [done|].
  match goal with H : envelope _ _ _ _ _ = _ |- _ => rename H into Henv end.
  pose proof (envelope_limit _ _ _ _ _ _ _ _ _ _ Henv Hcap) as Hin. rewrite <- (pl_limits _ _ _ _ Hp1).
  unfold priced_inside in *. by destruct force, increasing.
Qed.
End Gate.

(** * The exposure of all slots *)

(** The order does not raise the slot's exposure to its market, or the exposure of every
    slot is known and stays within the caps. *)
Definition within_caps (loads : string -> option json) (r : Runtime) (id : string) (s : Slot) (f : FollowerTruth)
    (a : NextAction) (price : dec) (now_ms : Z) : Prop :=
  exists before after, exposure_change loads r id s f a = Ok (before, after) /\
  ((dval (dabs after) <= dval (dabs before))%Q \/
   exists all base values gross,
     all_exposures loads r now_ms (rt_slots r) = Ok (Some all) /\ dict_get id all = Some (base, values) /\
     let own := (base, dict_set (DesiredEngine.na_market a) after values) in
     Z.of_nat (List.length (exposure_markets own)) <= max_open_positions (config (bound s)) /\
     all_gross r now_ms id (DesiredEngine.na_market a) price (dict_set id own all) = Ok (inl gross) /\
     (dval (size_at gross id) <= dval (max_gross_exposure_usd (config (bound s))))%Q /\
     (dval (size_at gross id) <= dval (dmul (ft_equity f) (dint (max_leverage (config (bound s))))))%Q /\
     (dval (dsum (dict_values gross)) <= dval (combined_gross_cap (limits r)))%Q).

Lemma exposure_none loads r id s f a price now_ms :
  exposure loads r id s f a price now_ms = Ok None -> within_caps loads r id s f a price now_ms.
Proof.
  unfold exposure, within_caps. intros H. res_inv; exists d, d0; (split; [done|]).
  { left. by apply dleb_spec. }
  right. match goal with E : dltb (dmin ?x ?y) ?g = false |- _ => destruct (dmin_le x y); apply dltb_false in E end.
  match goal with E : dltb _ (dsum _) = false |- _ => apply dltb_false in E end. bool_prop.
  eexists _, _, _, _. split_and!; [done|done|done|done|lra|lra|done].
Qed.

Section Commit.
Variables (loads : string -> option json) (id : string).

(** The runtime with the order reserved. *)
Definition reserved_order (a : NextAction) (r : Runtime) : Runtime :=
  on_slot id bump_truth (set_reservations r (dict_set id [(DesiredEngine.na_market a, DesiredEngine.signed_size a)] (reservations r))).

Lemma commit_go f before gate_now a p r r' prep :
  commit loads id f before gate_now a p r = (r', Ok (inl prep)) ->
  pi_action prep = with_action_size (ioc_size (pr_executable p)) a /\ pi_snapshot prep = pr_snapshot p /\
  pi_executable prep = pr_executable p /\ r' = reserved_order (pi_action prep) r /\
  WsActions.connection_epoch (rt_mux r) = Some (pi_required_epoch prep) /\
  execution_enabled (limits r) = true /\ rt_locks r = true /\
  exists s verdict, slot_of id r = Ok s /\ preflight_of s f before a (pr_executable p) r = Ok verdict /\ placeable verdict = true /\
    exposure loads r id s f (pi_action prep) (limit_px (pr_executable p)) gate_now = Ok None.
Proof.
  unfold commit. intros H. drive_inv.
  apply jbind_Ok in H as (epoch & r2 & Hr & H). drive_inv.
  unfold reserve in Hr. apply jbind_Ok in Hr as (? & ? & [= <- <-] & Hr).
  apply jbind_Ok in Hr as (? & ? & [-> Hep]%jquery_Ok & Hr). apply jbind_Ok in Hr as (? & ? & [= <- <-] & [= <- <-]).
  unfold WsActions.capture_epoch in Hep. destruct (WsActions.connection_epoch _) eqn:Emux; [|done]. injection Hep as ->.
  bool_prop. res_inv. split_and!; try done. eexists _, _. split_and!; [done|done|done|]. cbn. by subst.
Qed.
End Commit.

Lemma planning_slot R id r r' s s' : planning R id r r' -> slot_of id r = Ok s -> slot_of id r' = Ok s' -> R s s'.
Proof. intros [] Hs (s0 & Hs0 & HR)%pl_slot0. rewrite Hs in Hs0. by injection Hs0 as <-. Qed.

(** * The prepared order *)

Section Prepared.
Variables (sha256 : string -> string) (loads : string -> option json) (id : string).

(** The notional of the order, rounded to what the venue takes, is within the order cap. *)
Definition order_within_cap (r : Runtime) (s : Slot) (market : string) (e : ExecutableIoc) : Prop :=
  exists rules lots px, order_rules (rt_catalog r) market = Ok rules /\
    (dabs <$> quantize_size (Fin (ioc_size e)) (r_sz_decimals rules)) = Ok lots /\ (0 < dval lots)%Q /\
    quantize_price (Fin (limit_px e)) (r_sz_decimals rules) (is_spot rules) = Ok px /\
    (dval (notional rules lots px) <= dval (max_order_notional_usd (config (bound s))))%Q.

(** What held of the runtime [r] when the order [p] for the correction [a] was reserved;
    [before] is the slot's exposure to the market, outstanding actions included. *)
Record send_allowed (force : bool) (gate_now : Z) (r : Runtime) (s : Slot) (f : FollowerTruth) (before : dec)
    (a : NextAction) (p : PreparedIoc) : Prop := {
  sa_slot : slot_of id r = Ok s;
  sa_follower : follower s = Some f;
  sa_before : exists unresolved, unresolved_of loads r s = Ok unresolved /\
    before = projected_before f unresolved (DesiredEngine.na_market a);
  sa_armed : execution_enabled (limits r) = true;
  sa_locks : rt_locks r = true;
  sa_epoch : WsActions.connection_epoch (rt_mux r) = Some (pi_required_epoch p);
  sa_action : pi_action p = with_action_size (ioc_size (pi_executable p)) a;
  sa_size : (0 < dval (ioc_size (pi_executable p)) <= dval (DesiredEngine.na_size a))%Q;
  sa_state : force = false -> state (gate s) = RUNNING \/ (state (gate s) = PAUSE_ENTRIES /\ is_increasing before a = false);
  sa_rate : force = false ->
    Z.of_nat (List.length (action_times (pacing s))) < rate_limit (bound s) (is_increasing before a);
  sa_fresh : fresh_snapshot (DesiredEngine.na_market a) gate_now (market_age_ms (limits r)) (rt_market r)
    = Ok (Some (pi_snapshot p));
  sa_price : priced_inside (limits r) force (is_increasing before a)
    (dict_get (DesiredEngine.na_market a) (triggers (attribution s))) (bool_decide (DesiredEngine.na_side a = "buy"))
    (pi_snapshot p) (limit_px (pi_executable p));
  sa_cap : order_within_cap r s (DesiredEngine.na_market a) (pi_executable p);
  sa_exposure : within_caps loads r id s f (pi_action p) (limit_px (pi_executable p)) gate_now;
}.

(** The part of the plan after the correction is chosen. *)
Lemma gated_send t f before a now force r r' u1 u2 p priced gate_now r1 r2 r3 :
  let increasing := is_increasing before a in
  check_rejected sha256 id f a r = (r1, Ok (inl u1)) ->
  check_rate id force increasing t a r1 = (r2, Ok (inl u2)) ->
  price_action id force increasing gate_now a r2 = (r3, Ok (inl priced)) ->
  commit loads id f before now a priced r3 = (r', Ok (inl p)) -> now = gate_now ->
  forall s unresolved, slot_of id r = Ok s -> follower s = Some f -> unresolved_of loads r s = Ok unresolved ->
  before = projected_before f unresolved (DesiredEngine.na_market a) ->
  (force = false -> state (gate s) = RUNNING \/ state (gate s) = PAUSE_ENTRIES) ->
  planning same_truth id r r3 /\ r' = reserved_order id (pi_action p) r3 /\
  exists s3, send_allowed force gate_now r3 s3 f before a p.
Proof.
  intros increasing H1 H2 H3 H4 -> s unresolved Hs Hf Hun Hbefore Hstate.
  apply check_rejected_go in H1. apply check_rate_go in H2 as (P2 & s1 & s2 & Hs1 & Hs2 & Hg & Hpause & Hrate).
  apply price_action_go in H3 as (P3 & Hfresh & Hpos & s2' & Hs2' & Hentry).
  rewrite Hs2 in Hs2'. injection Hs2' as <-.
  apply commit_go in H4 as (Ha & Hsn & Hex & -> & Hep & Harm & Hlk & s3 & verdict & Hs3 & Hpre & Hpl & Hexp).
  pose proof (planning_slot _ _ _ _ _ _ H1 Hs Hs1) as [T1 [G1 _]].
  pose proof (planning_slot _ _ _ _ _ _ P2 Hs1 Hs2) as T2.
  pose proof (planning_slot _ _ _ _ _ _ P3 Hs2 Hs3) as [T3 [G3 A3]].
  assert (same_truth s s3) as T by (etrans; [exact T1|]; by etrans).
  assert (planning same_truth id r r3) as P.
  { etrans; [by eapply planning_mono, H1; intros ? ? []|]. etrans; [exact P2|].
    by eapply planning_mono, P3; intros ? ? []. }
  split; [exact P|]. split; [done|]. exists s3. destruct T as (Tb & Tacc & Tl & Tat & Tf & _).
  destruct T3 as (T3b & _ & _ & T3at & _). rewrite <- Hex in Ha, Hexp, Hpre, Hpos.
  rewrite <- Hsn, <- (pl_limits _ _ _ _ P3), <- ?(pl_market _ _ _ _ P3) in Hfresh. rewrite <- Hsn, <- Hex, <- (pl_limits _ _ _ _ P3) in Hentry.
  split; try done.
  - by rewrite Tf.
  - exists unresolved. split; [|done]. by rewrite (unresolved_planning _ _ _ _ _ _ _ P Tl).
  - intros Hforce. rewrite G3. destruct (Hstate Hforce) as [E|E]; [left; congruence|].
    right. split; [congruence|]. apply not_true_is_false. intros Hi. apply (Hpause Hi). congruence.
  - intros Hforce. rewrite A3, T3b. by apply Hrate.
  - by rewrite T3at.
  - unfold preflight_of in Hpre. apply bind_Ok in Hpre as (rules & Hrules & Hpre).
    destruct (placeable_inv _ _ _ _ _ _ _ _ _ _ Hpre Hpl) as (q & capd & lots & px & [= <-] & [= <-] & Hq & Hlots & Hl0 & Hpx & Hn).
    by exists rules, lots, px.
  - by apply exposure_none.
Qed.
End Prepared.

(** What a prepared order went through. *)
Lemma plan_prepared sha256 loads t id now_ms force r r' p :
  plan_drive sha256 loads t id now_ms force r = (r', Ok (inl p)) ->
  exists r1 s f before a,
    planning same_truth id r r1 /\ r' = reserved_order id (pi_action p) r1 /\
    send_allowed loads id force (now_ms + Z.max 0 (gate_elapsed t)) r1 s f before a p /\
    (force = true -> exists s0, slot_of id r = Ok s0 /\ state (gate s0) <> OPERATOR_STOP /\
       truth_fresh (follower_age_ms (limits r)) now_ms f = true /\ unresolved_of loads r s0 = Ok [] /\
       forced_close_action sha256 id s0 f [] = Some a).
Proof.
  unfold plan_drive. intros H. apply dbind_inl in H as (forced & ra & Hstart & H).
  apply dbind_inl in H as (s & rb & [-> Hs]%this_inl & H).
  destruct (follower s) as [f|] eqn:Hf; [|done].
  apply dbind_inl in H as (unresolved & rc & [-> Hun]%dquery_inl & H).
  apply dbind_inl in H as (a & rd & Hcor & H). pose proof (correction_go _ _ _ _ _ _ _ _ _ _ Hcor) as ->.
  apply dbind_inl in H as (u1 & r1 & H1 & H). apply dbind_inl in H as (u2 & r2 & H2 & H).
  apply dbind_inl in H as (priced & r3 & H3 & H).
  assert (planning same_truth id r ra /\ (force = false -> state (gate s) = RUNNING \/ state (gate s) = PAUSE_ENTRIES)) as [P Hst].
  { destruct force.
    - apply start_flatten_go in Hstart as (-> & _). split; [reflexivity|done].
    - apply (start_ready_go sha256) in Hstart as (_ & P & s' & Hs' & Hst). rewrite Hs in Hs'. injection Hs' as <-. split; [exact P|by intros _]. }
  destruct (gated_send sha256 loads id (rate_clock t) f _ a _ force ra r' u1 u2 p priced _ r1 r2 r3 H1 H2 H3 H eq_refl s unresolved
    Hs Hf Hun eq_refl Hst) as (P3 & -> & s3 & Hsend).
  exists r3, s3, f, (projected_before f unresolved (DesiredEngine.na_market a)), a.
  split; [by etrans|]. split; [done|]. split; [done|]. intros ->.
  apply start_flatten_go in Hstart as (-> & s0 & f0 & a0 & -> & Hs0 & Hne & Hf0 & Hfr & Hu & Ha).
  rewrite Hs in Hs0. injection Hs0 as <-. rewrite Hf in Hf0. injection Hf0 as <-.
  apply dret_inl in Hcor as [_ ->]. by exists s.
Qed.

(** C7. An order that the plan hands to the signer passed every gate.  Planning changed
    nothing but the gate and the pacing of its own slot; the runtime it hands over holds
    exactly the reservation of the order.  The slot was running, or paused and only
    reducing; it had sent fewer actions in the last minute than its limit; execution was
    armed, the account locks held, the transport connected and the market data fresh.
    The order, rounded as the venue rounds it, is within the order cap.  Its limit is a
    valid price.  An order that raises the exposure goes back to a fill of the leader after
    the baseline, and its limit is within the tracking bound of the price of that fill; any
    other order is within the slippage of its class, of a normal reduction or of a forced
    close, of the best price of the book.  Unless the order lowers the exposure to its
    market, the exposure of the slot and of all slots together, with everything
    outstanding counted, stays within the caps.  Under a forced close the order is the
    close of a position that fresh follower truth shows, with nothing outstanding. *)
Theorem prepared_order_safe sha256 loads t id now_ms force r r' p :
  plan_drive sha256 loads t id now_ms force r = (r', Ok (inl p)) ->
  exists r1 s f before a,
    planning same_truth id r r1 /\ r' = reserved_order id (pi_action p) r1 /\
    send_allowed loads id force (now_ms + Z.max 0 (gate_elapsed t)) r1 s f before a p /\
    (force = true -> exists s0, slot_of id r = Ok s0 /\ state (gate s0) <> OPERATOR_STOP /\
       truth_fresh (follower_age_ms (limits r)) now_ms f = true /\ unresolved_of loads r s0 = Ok [] /\
       forced_close_action sha256 id s0 f [] = Some a).
Proof. apply plan_prepared. Qed.

Lemma prepared_order_safe_witness :
  exists r' p r1 s f before a,
    plan_drive (fun x => x) (fun _ => None) example_clocks "slot-1" 1003 false (example_runtime connected copying) = (r', Ok (inl p)) /\
    send_allowed (fun _ => None) "slot-1" false 1003 r1 s f before a p /\ DesiredEngine.na_side (pi_action p) = "buy".
Proof.
  destruct (plan_drive (fun x => x) (fun _ => None) example_clocks "slot-1" 1003 false (example_runtime connected copying))
    as [r' [[p|out]|e]] eqn:E; [|by vm_compute in E..].
  destruct (prepared_order_safe _ _ _ _ _ _ _ _ _ E) as (r1 & s & f & before & a & _ & _ & Hsend & _).
  exists r', p, r1, s, f, before, a. split; [done|]. split; [exact Hsend|].
  vm_compute in E. by injection E as _ <-.
Defined.
