(* ===== verification/LatchFacts.v ===== *)
(** The fail-close latch holds: until the operator re-arms, no handler of the runtime and
    no interleaving of them lets a latched slot raise its exposure. *)

From S2P Require Import Prelude PyDecimal DecimalFacts RoundingFacts PyText Models Markets ContinuousConfig Precision OrderPreflight MarketCatalog MarketStream DesiredFacts Runtime Checkpoint RuntimePlan RuntimeDrive RuntimeFold RuntimeEvents RuntimeReconcile RuntimeSession RuntimeExample PlanFacts.
From S2P Require AccountStream DesiredEngine ActionJournal WsActions Executor.
From Stdlib Require Import QArith Qabs Lqa.

Open Scope Z_scope.

(** * What a latched slot keeps *)

Definition latched (why : string) (s : Slot) : Prop :=
  fail_close_reason (gate s) = Some why /\ why <> "" /\ state (gate s) <> RUNNING.

(** The slot stays latched, for the same reason. *)
Definition holds_latch (s s' : Slot) : Prop := forall why, latched why s -> latched why s'.

(** Every latched slot of the runtime stays latched. *)
Definition latch_kept (r r' : Runtime) : Prop :=
  forall id s why, dict_get id (rt_slots r) = Some s -> latched why s ->
  exists s', dict_get id (rt_slots r') = Some s' /\ latched why s'.

#[export] Instance holds_latch_preorder : PreOrder holds_latch.
Proof. split; [by intros s why|]. intros a b c H1 H2 why H. by apply H2, H1. Qed.

#[export] Instance latch_kept_preorder : PreOrder latch_kept.
Proof.
  split.
  - intros r id s why Hs Hl. by exists s.
  - intros a b c H1 H2 id s why Hs Hl. destruct (H1 _ _ _ Hs Hl) as (s1 & Hs1 & Hl1). by apply (H2 _ s1).
Qed.

Lemma latch_same_slots r r' : rt_slots r' = rt_slots r -> latch_kept r r'.
Proof. intros E id s why Hs Hl. exists s. by rewrite E. Qed.

Lemma latch_put id s s' r : dict_get id (rt_slots r) = Some s -> holds_latch s s' -> latch_kept r (put_slot id s' r).
Proof.
  intros Hs Hh id' s0 why Hs0 Hl. unfold put_slot. cbn. destruct (decide (id = id')) as [<-|Hne].
  - rewrite dict_get_set_eq. exists s'. split; [done|]. apply Hh. congruence.
  - rewrite dict_get_set_ne by done. by exists s0.
Qed.

Lemma latch_on_slot id f r : (forall s, holds_latch s (f s)) -> latch_kept r (on_slot id f r).
Proof. intros Hf. unfold on_slot. destruct (dict_get id (rt_slots r)) as [s|] eqn:E; [|done]. by eapply latch_put. Qed.

Lemma slot_of_get id r s : slot_of id r = Ok s <-> dict_get id (rt_slots r) = Some s.
Proof. unfold slot_of. destruct (dict_get id (rt_slots r)); split; intros; simplify_eq; done. Qed.

(** Changes of a slot that leave its latch. *)
Lemma gate_holds f s :
  (forall g, fail_close_reason (f g) = fail_close_reason g) -> (forall g, state (f g) = state g) -> holds_latch s (on_gate f s).
Proof. intros H1 H2 why. unfold latched, on_gate. cbn. by rewrite H1, H2. Qed.

Lemma same_gate_holds s s' : gate s' = gate s -> holds_latch s s'.
Proof. intros E why. unfold latched. by rewrite E. Qed.

Lemma set_state_holds st why s : st <> RUNNING -> holds_latch s (on_gate (fun g => set_state g st why) s).
Proof. intros Hst why' (H1 & H2 & H3). by split_and!. Qed.

Lemma gate_stops f s :
  (forall g, fail_close_reason (f g) = fail_close_reason g) -> (forall g, state (f g) <> RUNNING) -> holds_latch s (on_gate f s).
Proof. intros H1 H2 why (E & Hne & _). unfold latched, on_gate. cbn. by rewrite H1. Qed.

Lemma block_holds why s : holds_latch s (block why s).
Proof. intros why' (H1 & H2 & H3). unfold block, on_gate, latched. cbn. by case_bool_decide. Qed.

Lemma pause_holds why s : holds_latch s (pause why s).
Proof. by apply set_state_holds. Qed.

Create HintDb latch.
#[export] Hint Resolve block_holds pause_holds latch_on_slot : latch.
#[export] Hint Extern 1 (holds_latch _ _) => (apply same_gate_holds; reflexivity) : latch.
#[export] Hint Extern 1 (holds_latch _ (on_gate _ _)) => (apply gate_holds; reflexivity) : latch.
#[export] Hint Extern 1 (holds_latch _ (on_gate _ _)) => (apply gate_stops; [reflexivity|discriminate]) : latch.
#[export] Hint Extern 1 (latch_kept _ _) => (apply latch_same_slots; reflexivity) : latch.
#[export] Hint Extern 2 (latch_kept ?r ?r) => reflexivity : latch.

(** * Computations *)

(** Whatever the runtime, and whether it raises or not. *)
Definition Keeps {A} (m : ST Runtime A) : Prop := forall r, latch_kept r (m r).1.
Definition KeepsSlot {A} (m : ST Slot A) : Prop := forall s, holds_latch s (m s).1.

Lemma keeps_ret {A} (a : A) : Keeps (jret a).
Proof. intros r. reflexivity. Qed.
Lemma keeps_raise {A} e : Keeps (jraise e : ST Runtime A).
Proof. intros r. reflexivity. Qed.
Lemma keeps_query {A} (q : Runtime -> res A) : Keeps (jquery q).
Proof. intros r. reflexivity. Qed.
Lemma keeps_lift {A} (x : res A) : Keeps (jlift x).
Proof. intros r. reflexivity. Qed.
Lemma keeps_modify f : (forall r, latch_kept r (f r)) -> Keeps (jmodify f).
Proof. intros H r. apply H. Qed.

Lemma keeps_bind {A B} (m : ST Runtime A) (k : A -> ST Runtime B) : Keeps m -> (forall a, Keeps (k a)) -> Keeps (jbind m k).
Proof.
  intros Hm Hk r. unfold jbind. pose proof (Hm r) as H1. destruct (m r) as [r1 [a|e]]; cbn in *; [|done].
  etrans; [exact H1|apply Hk].
Qed.

Lemma keeps_slot_query {A} (q : Slot -> res A) : KeepsSlot (jquery q).
Proof. intros s. reflexivity. Qed.
Lemma keeps_slot_ret {A} (a : A) : KeepsSlot (jret a).
Proof. intros s. reflexivity. Qed.
Lemma keeps_slot_lift {A} (x : res A) : KeepsSlot (jlift x).
Proof. intros s. reflexivity. Qed.
Lemma keeps_slot_modify f : (forall s, holds_latch s (f s)) -> KeepsSlot (jmodify f).
Proof. intros H s. apply H. Qed.
Lemma keeps_slot_bind {A B} (m : ST Slot A) (k : A -> ST Slot B) : KeepsSlot m -> (forall a, KeepsSlot (k a)) -> KeepsSlot (jbind m k).
Proof.
  intros Hm Hk s. unfold jbind. pose proof (Hm s) as H1. destruct (m s) as [s1 [a|e]]; cbn in *; [|done].
  etrans; [exact H1|apply Hk].
Qed.

(** A computation over one slot. *)
Lemma keeps_on_slot_st {A} id (m : CatalogRevision -> ST Slot A) : (forall c, KeepsSlot (m c)) -> Keeps (on_slot_st id m).
Proof.
  intros Hm r. unfold on_slot_st. destruct (slot_of id r) as [s|] eqn:E; [|reflexivity]. apply slot_of_get in E.
  pose proof (Hm (rt_catalog r) s) as Hh. destruct (m (rt_catalog r) s) as [s' x]. by eapply latch_put.
Qed.

Lemma keeps_in_slot {A} id (m : ST Slot A) : KeepsSlot m -> Keeps (in_slot id m).
Proof. intros Hm. by apply keeps_on_slot_st. Qed.

Lemma keeps_on_account {A} (m : ST AccountStream.AccountStream A) : KeepsSlot (on_account m).
Proof. intros s. unfold on_account. destruct (m (account s)). by apply same_gate_holds. Qed.

Lemma keeps_on_market {A} (m : ST MarketStream A) : Keeps (on_market m).
Proof. intros r. unfold on_market. destruct (m (rt_market r)). by apply latch_same_slots. Qed.

Lemma keeps_on_journal {A} (m : Executor.J A) : Keeps (on_journal m).
Proof. intros r. unfold on_journal. destruct (m (rt_journal r)). by apply latch_same_slots. Qed.

Lemma keeps_save id : Keeps (save_slot id).
Proof. intros r. unfold save_slot. destruct (s ← slot_of id r; save s (rt_store r)); by apply latch_same_slots. Qed.

Lemma keeps_change id f : (forall s, holds_latch s (f s)) -> Keeps (change id f).
Proof. intros Hf. apply keeps_modify. intros r. by apply latch_on_slot. Qed.

#[export] Hint Resolve keeps_ret keeps_raise keeps_query keeps_lift keeps_save keeps_on_market keeps_on_journal
  keeps_on_account keeps_slot_query keeps_slot_ret keeps_slot_lift : latch.

(** Introduce what is quantified in the statement, not in the notions it names. *)
Ltac intros_only := repeat match goal with |- forall _, _ => intro end.

(** One step through a handler, by its outermost construct. *)
Ltac keep_step :=
  match goal with
  | |- forall _, _ => intro
  | |- Keeps (jbind _ _) => apply keeps_bind
  | |- Keeps (jmodify _) => apply keeps_modify; intros_only; try solve [auto with latch]
  | |- Keeps (change _ _) => apply keeps_change; intros_only; try solve [auto with latch]
  | |- Keeps (in_slot _ _) => apply keeps_in_slot
  | |- Keeps (on_slot_st _ _) => apply keeps_on_slot_st
  | |- KeepsSlot (jbind _ _) => apply keeps_slot_bind
  | |- KeepsSlot (jmodify _) => apply keeps_slot_modify; intros_only; try solve [auto with latch]
  | |- Keeps (if ?b then _ else _) => destruct b
  | |- Keeps (match ?x with _ => _ end) => destruct x
  | |- KeepsSlot (if ?b then _ else _) => destruct b
  | |- KeepsSlot (match ?x with _ => _ end) => destruct x
  | _ => solve [auto with latch]
  end.
Ltac keep := repeat keep_step.

(** A computation that was applied to its runtime. *)
Ltac as_keeps := match goal with |- latch_kept ?r (fst (?m ?r)) => let H := fresh in assert (Keeps m) as H; [|exact (H r)] end.

(** * The gate *)

Lemma prune_gate clock s : gate (prune clock s) = gate s.
Proof. done. Qed.

Lemma said_some text : text <> "" -> said (Some text) = Some text.
Proof. by destruct text. Qed.

Lemma said_not_empty default_text text : default_text <> "" -> default default_text (said text) <> "".
Proof. by destruct text as [[]|]. Qed.

Lemma ready_holds source_age follower_age now clock unresolved : KeepsSlot (ready source_age follower_age now clock unresolved).
Proof.
  intros s why (Hw & Hne & Hs). unfold ready. rewrite Hw, said_some by done. case_bool_decide; [done|].
  destruct (said (startup_blocker (gate s))); cbn [fst]; [by apply block_holds|by split_and!].
Qed.

Section Latch.
Variables (sha256 : string -> string) (loads : string -> option json).

Lemma keeps_ready id now clock : Keeps (ready_slot loads id now clock).
Proof.
  intros r. unfold ready_slot. destruct (slot_of id r) as [s|] eqn:E; [|reflexivity]. apply slot_of_get in E.
  match goal with |- context [ready ?a ?b ?c ?d ?e s] => pose proof (ready_holds a b c d e s) as Hh; destruct (ready a b c d e s) as [s' x] end.
  by eapply latch_put.
Qed.

(** ** The plan *)

Lemma keeps_dbind {A B} (m : Drive A) (k : A -> Drive B) : Keeps m -> (forall a, Keeps (k a)) -> Keeps (dbind m k).
Proof. intros Hm Hk. apply keeps_bind; [done|]. intros [a|out]; [apply Hk|apply keeps_ret]. Qed.
Lemma keeps_dret {A} (a : A) : Keeps (dret a).
Proof. apply keeps_ret. Qed.
Lemma keeps_leave {A} act why : Keeps (leave act why : Drive A).
Proof. apply keeps_ret. Qed.
Lemma keeps_dquery {A} (q : Runtime -> res A) : Keeps (dquery q).
Proof. apply keeps_bind; [apply keeps_query|intros; apply keeps_ret]. Qed.
Lemma keeps_this id : Keeps (this id).
Proof. apply keeps_dquery. Qed.
Lemma keeps_tell id f : (forall s, holds_latch s (f s)) -> Keeps (tell id f).
Proof. intros Hf. apply keeps_bind; [by apply keeps_change|intros; apply keeps_ret]. Qed.
Lemma keeps_halt {A} id act f : (forall s, holds_latch s (f s)) -> Keeps (halt id act f : Drive A).
Proof. intros Hf. apply keeps_dbind; [by apply keeps_tell|]. intros _. apply keeps_dbind; [apply keeps_this|intros; apply keeps_leave]. Qed.

Hint Resolve keeps_ready keeps_dret keeps_leave keeps_dquery keeps_this : latch.

Ltac plan_keep :=
  repeat match goal with
    | |- Keeps (dbind _ _) => apply keeps_dbind
    | |- Keeps (tell _ _) => apply keeps_tell; intros_only; try solve [auto with latch]
    | |- Keeps (halt _ _ _) => apply keeps_halt; intros_only; try solve [auto with latch]
    | _ => keep_step
    end.

Lemma keeps_correction id now s f unresolved forced : Keeps (correction sha256 id now s f unresolved forced).
Proof.
  unfold correction, copy_correction. plan_keep. destruct (contains _ _); [apply block_holds|reflexivity].
Qed.

Lemma keeps_price_action id force increasing now a : Keeps (price_action id force increasing now a).
Proof. unfold price_action, current_retry, check_retry. plan_keep. Qed.

Lemma keeps_commit id f before now a p : Keeps (commit loads id f before now a p).
Proof. unfold commit, reserve. plan_keep. Qed.

Lemma keeps_plan t id now force : Keeps (plan_drive sha256 loads t id now force).
Proof.
  unfold plan_drive. apply keeps_dbind.
  - destruct force; unfold start_flatten, start_ready; plan_keep.
  - plan_keep.
    + apply keeps_correction.
    + unfold check_rejected. plan_keep.
    + unfold check_rate. plan_keep.
    + apply keeps_price_action.
    + apply keeps_commit.
Qed.

Hint Resolve keeps_plan keeps_correction : latch.

(** ** The outcome of an order *)

Lemma schedule_holds k observed a p : KeepsSlot (schedule k observed a p).
Proof. unfold schedule. keep. Qed.

Lemma reject_holds c a why : KeepsSlot (reject_target sha256 c a why).
Proof.
  intros s. unfold reject_target. destruct (follower s); [|reflexivity].
  destruct (catalog_markets_sha256 _ _ _); [by apply same_gate_holds|reflexivity].
Qed.

Lemma fold_fill_holds observed a result same p : KeepsSlot (fold_fill observed a result same p).
Proof.
  unfold fold_fill. apply keeps_slot_bind; [keep|]. intros _ s. destruct (follower s) as [f|]; [|reflexivity].
  cbv zeta. destruct (_ && _); [apply block_holds|]. match goal with |- context [set_follower s ?x] => set (s1 := set_follower s x) end.
  assert (holds_latch s s1) as H by by apply same_gate_holds. destruct (_ && _); [|exact H].
  etrans; [exact H|]. apply schedule_holds.
Qed.

Lemma fold_holds c observed a result p : KeepsSlot (fold sha256 c observed a result p).
Proof.
  intros s. unfold fold. destruct (WsActions.post_outcome result); try apply block_holds.
  all: destruct (no_liquidity _ _); [destruct (_ =? _); [apply schedule_holds|reflexivity]|]; try reflexivity.
  all: try apply fold_fill_holds.
  unfold fold_rejection. destruct (_ =? _); cbn [negb]; [|reflexivity].
  destruct (mentions TRANSIENT _); [apply schedule_holds|]. destruct (mentions VENUE_STATE _); [apply schedule_holds|apply reject_holds].
Qed.
Hint Resolve fold_holds : latch.

Lemma keeps_activate_slots ids markets : Keeps (activate_slots loads ids markets).
Proof. revert markets. induction ids as [|id ids IH]; intros markets; cbn [activate_slots]; keep; apply IH. Qed.

Lemma keeps_activate : Keeps (activate loads).
Proof. unfold activate. keep. apply keeps_activate_slots. Qed.
Hint Resolve keeps_activate : latch.

Lemma keeps_release id : Keeps (release id).
Proof. unfold release. keep. Qed.
Hint Resolve keeps_release : latch.

Lemma keeps_with_reason id a : Keeps (with_reason id a).
Proof. unfold with_reason. keep. Qed.
Hint Resolve keeps_with_reason : latch.

Lemma keeps_finish id p t1 t2 attempt : Keeps (finish sha256 id p t1 t2 attempt).
Proof. unfold finish. destruct attempt as [record result]. keep. Qed.
Hint Resolve keeps_finish : latch.

(** [drive], when what other tasks do while the order is at the venue keeps the latch. *)
Lemma keeps_drive execute meanwhile t o id now force :
  (forall r, latch_kept r (meanwhile r)) -> Keeps (drive sha256 loads execute meanwhile t o id now force).
Proof.
  intros Hm. unfold drive. apply keeps_bind; [apply keeps_plan|]. intros [p|out]; [|apply keeps_ret]. intros r.
  match goal with |- context [on_journal ?m r] => pose proof (keeps_on_journal m r) as Hj; destruct (on_journal m r) as [r1 x] end.
  cbn [fst] in Hj. etrans; [exact Hj|]. etrans; [apply Hm|]. destruct x as [attempt|e].
  - as_keeps. keep.
  - as_keeps. keep.
Qed.

Lemma keeps_safe id m : Keeps m -> Keeps (safe id m).
Proof.
  intros Hm r. unfold safe. pose proof (Hm r) as H. destruct (m r) as [r1 [x|e]]; cbn [fst] in *; [done|]. etrans; [exact H|].
  as_keeps. keep.
Qed.

(** ** A serialised drive *)

Lemma keeps_refresh hook meanwhile id now dexes :
  (forall d r, latch_kept r (meanwhile d r)) -> Keeps (refresh_each hook meanwhile id now dexes).
Proof.
  intros Hm. induction dexes as [|d dexes IH]; cbn [refresh_each]; [keep|]. unfold adopt_dex, slot_now. keep.
Qed.

Definition respects (t : DriveRun) : Prop :=
  (forall d r, latch_kept r (dr_while_refreshing t d r)) /\ (forall r, latch_kept r (dr_while_sent t r)).

Lemma keeps_serialized refresh t id now force : respects t -> Keeps (drive_serialized sha256 loads refresh t id now force).
Proof.
  intros [H1 H2]. unfold drive_serialized, safe_drive. apply keeps_safe. apply keeps_bind.
  - unfold ensure_needed_dex_truth, slot_now. keep. by apply keeps_refresh.
  - intros _. by apply keeps_drive.
Qed.

(** ** Handlers *)

Lemma keeps_for_slots f ids : (forall id, Keeps (f id)) -> Keeps (for_slots f ids).
Proof. intros Hf. induction ids as [|id ids IH]; cbn [for_slots]; keep. Qed.

Lemma keeps_report id why accepted : Keeps (report id why accepted).
Proof. unfold report, slot_now. keep. Qed.
Lemma keeps_report_reason id accepted : Keeps (report_reason id accepted).
Proof. unfold report_reason, slot_now. keep. apply keeps_report. Qed.
Lemma keeps_slot_now id : Keeps (slot_now id).
Proof. apply keeps_query. Qed.
Lemma keeps_slot_ids : Keeps slot_ids.
Proof. apply keeps_query. Qed.
Lemma keeps_change_since before : Keeps (change_since before).
Proof. apply keeps_query. Qed.
Hint Resolve keeps_report keeps_report_reason keeps_slot_now keeps_slot_ids keeps_change_since : latch.

Lemma keeps_request_fail_close ids why : Keeps (request_fail_close ids why).
Proof.
  unfold request_fail_close. destruct (is_empty (py_strip why)) eqn:E; [keep|]. apply keeps_for_slots. intros id r.
  unfold request_fail_close_one, jbind at 1, slot_now, jquery. destruct (slot_of id r) as [s|] eqn:Es; [|reflexivity].
  case_bool_decide; [reflexivity|]. apply slot_of_get in Es. unfold jbind, change, jmodify.
  etrans; [|apply keeps_save]. unfold on_slot. rewrite Es. eapply latch_put; [exact Es|].
  intros why' (Hw & Hne & _). unfold latched. cbn. rewrite Hw, said_some by done. by split_and!.
Qed.

Lemma keeps_set_operator_state id st now clock : Keeps (set_operator_state loads id st now clock).
Proof. unfold set_operator_state. keep. Qed.

Lemma keeps_begin_source received : Keeps (begin_source_connection received).
Proof.
  unfold begin_source_connection. keep. 
  assert (forall ids epochs, Keeps (begin_sources received ids epochs)) as H; [|apply H].
  intros ids. induction ids as [|id ids IH]; intros epochs; cbn [begin_sources]; [keep|].
  apply keeps_bind; [|intros; apply IH]. unfold begin_source_one. keep.
Qed.

Lemma keeps_block_needing why id : Keeps (block_needing loads why id).
Proof. unfold block_needing. keep. Qed.

Lemma keeps_begin_market received : Keeps (begin_market_connection loads received).
Proof. unfold begin_market_connection. keep. apply keeps_for_slots, keeps_block_needing. Qed.

Lemma keeps_note_source epoch received : Keeps (note_source_activity epoch received).
Proof. unfold note_source_activity. keep. apply keeps_for_slots. keep. Qed.

Lemma keeps_gap kind epoch why : Keeps (connection_gap loads kind epoch why).
Proof.
  unfold connection_gap. keep.
  - destruct (bool_decide _); auto with latch.
  - apply keeps_for_slots. unfold close_source_one. keep.
  - apply keeps_for_slots, keeps_block_needing.
Qed.

Lemma keeps_note_market epoch received : Keeps (note_market_activity epoch received).
Proof. apply keeps_on_market. Qed.

(** ** Frames *)

Lemma attribute_gate c age b fills recovered s s' requested :
  attribute c age b fills recovered s = Ok (s', requested) -> gate s' = gate s.
Proof.
  unfold attribute. intros H. apply bind_Ok in H as ([[a ch] rf] & _ & H). cbv zeta in H.
  case_bool_decide; [by simplify_eq|]. apply bind_Ok in H as (current & _ & H). destruct (negb _); by simplify_eq.
Qed.

Lemma baseline_holds c age b hook now s refresh : holds_latch s (baseline c age b hook now (s, refresh)).1.1.
Proof.
  unfold baseline. destruct (source_sizes s) as [current|e]; [|reflexivity].
  destruct (negb (ever_baselined _)); [by apply (gate_holds set_baselined)|].
  destruct (AccountStream.sizes_eqb _ _); [by apply (gate_holds (fun g => set_source_ready g true))|].
  destruct hook as [[fills|e]|]; [|reflexivity|apply block_holds].
  destruct (working ← _; _) as [[s' requested]|e] eqn:E; [|reflexivity].
  assert (holds_latch s s') as H.
  { apply same_gate_holds. apply bind_Ok in E as (working & _ & E). destruct (negb _); [done|]. by eapply attribute_gate. }
  destruct (attribution_matches s') as [[]|e]; [|done..].
  etrans; [exact H|]. by apply (gate_holds (fun g => set_source_ready g true)).
Qed.

Lemma keeps_baseline hook id now : Keeps (baseline_slot hook id now).
Proof.
  intros r. unfold baseline_slot. destruct (slot_of id r) as [s|] eqn:E; [|reflexivity]. apply slot_of_get in E.
  match goal with |- context [baseline ?c ?a ?b hook now (s, ?f)] =>
    pose proof (baseline_holds c a b hook now s f) as Hh; destruct (baseline c a b hook now (s, f)) as [[s' refresh] x] end.
  cbn [fst] in Hh. assert (latch_kept r (set_refresh_request (put_slot id s' r) refresh)) as H
    by (etrans; [by eapply latch_put|by apply latch_same_slots]).
  destruct x as [[]|e]; [|done..]. etrans; [exact H|]. apply keeps_save.
Qed.
Hint Resolve keeps_baseline : latch.

Lemma keeps_accept_fills id fills received : Keeps (accept_fills id fills received).
Proof.
  intros r. unfold accept_fills, jbind at 1, slot_now, jquery at 1. destruct (slot_of id r) as [s|] eqn:E; [|reflexivity].
  unfold jbind at 1, jquery at 1, jbind at 1, jlift at 1. cbn [fst snd].
  destruct (attribute _ _ _ _ _ s) as [[s' requested]|e] eqn:Ea; [|reflexivity].
  apply attribute_gate in Ea. apply slot_of_get in E. unfold jbind at 1, jmodify at 1. cbn [fst snd].
  etrans; [eapply latch_put; [exact E|apply same_gate_holds, Ea]|].
  etrans; [by apply (latch_same_slots _ (set_refresh_request (put_slot id s' r) (catalog_refresh_request r || requested)))|].
  as_keeps. keep.
Qed.
Hint Resolve keeps_accept_fills : latch.

Lemma keeps_after_frame hook id received update : Keeps (after_frame hook id received update).
Proof. unfold after_frame. keep. Qed.

Lemma keeps_source_frame hook id message epoch received : Keeps (source_frame hook id message epoch received).
Proof.
  intros r. unfold source_frame.
  pose proof (keeps_in_slot id _ (keeps_on_account (AccountStream.apply_frame (JObj message) epoch received)) r) as H.
  destruct (in_slot _ _ r) as [r1 [update|e]]; cbn [fst] in *; [|done].
  pose proof (keeps_after_frame hook id received update r1) as H1. destruct (after_frame _ _ _ _ r1) as [r2 [u|e]]; by etrans.
Qed.
Hint Resolve keeps_source_frame : latch.

Lemma keeps_apply_source drive index hook message epoch received driven :
  (forall id, Keeps (drive id)) -> Keeps (apply_source loads drive index hook message epoch received driven).
Proof. intros Hd. unfold apply_source. keep. Qed.

Lemma keeps_report_each f ids : (forall id, Keeps (f id)) -> Keeps (report_each f ids).
Proof. intros Hf. induction ids as [|id ids IH]; cbn [report_each]; keep. Qed.

Lemma keeps_slots_needing market ids : Keeps (slots_needing loads market ids).
Proof. induction ids as [|id ids IH]; cbn [slots_needing]; keep. Qed.
Hint Resolve keeps_slots_needing : latch.

Lemma keeps_drive_one drive id : (forall id, Keeps (drive id)) -> Keeps (drive_one drive id).
Proof. intros Hd. unfold drive_one. keep. Qed.

Lemma keeps_apply_market drive message epoch received driven :
  (forall id, Keeps (drive id)) -> Keeps (apply_market loads drive message epoch received driven).
Proof.
  intros Hd. unfold apply_market. destruct (canonical_market_symbol _) as [market|e]; [|keep].
  apply keeps_bind; [keep|]. intros ids. apply keeps_bind; [keep|]. intros affected r.
  pose proof (keeps_on_market (apply_market_frame (JObj message) epoch received) r) as H.
  destruct (on_market _ r) as [r1 [[v|]|e]]; cbn [fst] in H.
  - etrans; [exact H|]. destruct driven; as_keeps; apply keeps_report_each; intros; [by apply keeps_drive_one|keep].
  - etrans; [exact H|]. as_keeps. apply keeps_report_each. keep.
  - destruct e; try exact H. etrans; [exact H|]. as_keeps.
    apply keeps_bind; [apply keeps_for_slots; keep|]. intros _. apply keeps_report_each. keep.
Qed.

(** ** Follower truth and the catalog *)

Lemma keeps_failed id e : Keeps (failed id e).
Proof. unfold failed. keep. Qed.
Hint Resolve keeps_failed : latch.

Lemma keeps_resolve_all l info epoch clock records : Keeps (resolve_all l info epoch clock records).
Proof. induction records as [|record records IH]; cbn [resolve_all]; keep. Qed.
Hint Resolve keeps_resolve_all : latch.

Lemma adopt_truth_holds f : KeepsSlot (adopt_truth f).
Proof.
  intros s. unfold adopt_truth. cbv zeta. destruct (nonflat_after _ _ _) as [nonflat|e]; cbn [fst]; [|by apply same_gate_holds].
  transitivity (bump_truth (set_follower s (Some f))); [by apply same_gate_holds|].
  destruct (absent _); by apply (gate_holds (fun g => set_nonflat g nonflat) (bump_truth (set_follower s (Some f)))).
Qed.
Hint Resolve adopt_truth_holds : latch.

Lemma keeps_start_reconcile id clock : Keeps (start_reconcile id clock).
Proof. unfold start_reconcile. keep. Qed.

Lemma keeps_read_truth info hook m1 m2 id epoch clock revision records :
  (forall r, latch_kept r (m1 r)) -> (forall r, latch_kept r (m2 r)) ->
  Keeps (read_truth info hook m1 m2 id epoch clock revision records).
Proof. intros H1 H2. unfold read_truth, recover_actions. keep. Qed.

Lemma keeps_finish_reconcile id epoch revision now t : Keeps (finish_reconcile id epoch revision now t).
Proof.
  intros r. unfold finish_reconcile. destruct (WsActions.capture_epoch _); [|as_keeps; keep].
  destruct (negb _); [as_keeps; keep|]. destruct (slot_of id r); [|reflexivity].
  destruct (negb _); [as_keeps; keep|]. destruct (truth _ _ _ _ _); [as_keeps; keep|as_keeps; keep].
Qed.

Lemma keeps_after_truth drive id before driven : (forall id, Keeps (drive id)) -> Keeps (after_truth loads drive id before driven).
Proof. intros Hd. unfold after_truth. keep. Qed.

Lemma keeps_reconcile drive info hook m1 m2 id now clock driven :
  (forall id, Keeps (drive id)) -> (forall r, latch_kept r (m1 r)) -> (forall r, latch_kept r (m2 r)) ->
  Keeps (reconcile_follower loads drive info hook m1 m2 id now clock driven).
Proof.
  intros Hd H1 H2. unfold reconcile_follower. keep. intros r.
  pose proof (keeps_start_reconcile id clock r) as Hs. destruct (start_reconcile _ _ r) as [r1 [[[epoch records] revision]|e]]; cbn [fst] in Hs.
  2: { etrans; [exact Hs|]. apply keeps_failed. }
  pose proof (keeps_read_truth info hook m1 m2 id epoch clock revision records H1 H2 r1) as Ht.
  destruct (read_truth _ _ _ _ _ _ _ _ _ r1) as [r2 [[[revision' t]|]|e]]; cbn [fst] in Ht; (etrans; [exact Hs|]; etrans; [exact Ht|]).
  - as_keeps. apply keeps_bind; [apply keeps_finish_reconcile|]. intros [d|]; [keep|by apply keeps_after_truth].
  - apply keeps_report.
  - apply keeps_failed.
Qed.

Lemma keeps_slots_under_catalog c ids : Keeps (slots_under_catalog c ids).
Proof. induction ids as [|id ids IH]; cbn [slots_under_catalog]; unfold slot_under_catalog; keep. Qed.
Hint Resolve keeps_slots_under_catalog : latch.

Lemma keeps_apply_catalog c : Keeps (apply_catalog loads c).
Proof. unfold apply_catalog. keep. apply keeps_for_slots. keep. Qed.
End Latch.
#[export] Hint Resolve keeps_slot_now keeps_change_since : latch.

(** * What the runtime does until an operator re-arms it *)

Section Runs.
Variables (sha256 : string -> string) (loads : string -> option json).
Variable refresh : option (Runtime -> string -> string -> Z -> Z -> bool -> res (dict Position)).

(** The drives a handler ends with, one per slot it drives. *)
Abbreviation drives t now := (fun id => drive_serialized sha256 loads refresh (t id) id now false).

(** Any sequence of handlers, each with other handlers running while it awaits; only
    [operator_rearm] is missing. *)
Inductive runs : Runtime -> Runtime -> Prop :=
  | runs_none r : runs r r
  | runs_then r1 r2 r3 : runs r1 r2 -> runs r2 r3 -> runs r1 r3
  | runs_connection r mux : runs r (set_mux r mux)
  | runs_request_fail_close r ids why : runs r (request_fail_close ids why r).1
  | runs_set_operator_state r id st now clock : runs r (set_operator_state loads id st now clock r).1
  | runs_begin_source r received : runs r (begin_source_connection received r).1
  | runs_begin_market r received : runs r (begin_market_connection loads received r).1
  | runs_note_source r epoch received : runs r (note_source_activity epoch received r).1
  | runs_note_market r epoch received : runs r (note_market_activity epoch received r).1
  | runs_gap r kind epoch why : runs r (connection_gap loads kind epoch why r).1
  | runs_catalog r c : runs r (apply_catalog loads c r).1
  | runs_driven r t id now force :
      (forall d r, runs r (dr_while_refreshing t d r)) -> (forall r, runs r (dr_while_sent t r)) ->
      runs r (driven sha256 loads refresh t id now force r).1
  | runs_source r t index hook message epoch received driven :
      (forall id d r, runs r (dr_while_refreshing (t id) d r)) -> (forall id r, runs r (dr_while_sent (t id) r)) ->
      runs r (apply_source loads (drives t received) index hook message epoch received driven r).1
  | runs_market r t message epoch received driven :
      (forall id d r, runs r (dr_while_refreshing (t id) d r)) -> (forall id r, runs r (dr_while_sent (t id) r)) ->
      runs r (apply_market loads (drives t received) message epoch received driven r).1
  | runs_reconcile r t info hook m1 m2 id now clock driven :
      (forall id d r, runs r (dr_while_refreshing (t id) d r)) -> (forall id r, runs r (dr_while_sent (t id) r)) ->
      (forall r, runs r (m1 r)) -> (forall r, runs r (m2 r)) ->
      runs r (reconcile_follower loads (drives t now) info hook m1 m2 id now clock driven r).1.

Lemma keeps_driven t id now force : respects t -> Keeps (driven sha256 loads refresh t id now force).
Proof.
  intros Ht. unfold driven. apply keeps_bind; [keep|]. intros before.
  apply keeps_bind; [by apply keeps_serialized|]. intros out. keep.
Qed.

Lemma runs_latch r r' : runs r r' -> latch_kept r r'.
Proof.
  induction 1; try match goal with |- latch_kept ?r (fst (?m ?r)) => cut (Keeps m); [intros Hk; apply Hk|] end.
  - reflexivity.
  - by etrans.
  - by apply latch_same_slots.
  - apply keeps_request_fail_close.
  - apply keeps_set_operator_state.
  - apply keeps_begin_source.
  - apply keeps_begin_market.
  - apply keeps_note_source.
  - apply keeps_note_market.
  - apply keeps_gap.
  - apply keeps_apply_catalog.
  - by apply keeps_driven.
  - apply keeps_apply_source. intros. by apply keeps_serialized.
  - apply keeps_apply_market. intros. by apply keeps_serialized.
  - apply keeps_reconcile; [intros; by apply keeps_serialized|done|done].
Qed.
End Runs.

(** * A request latches *)

Lemma save_keeps_slots id r : rt_slots (save_slot id r).1 = rt_slots r.
Proof. unfold save_slot. by destruct (s ← slot_of id r; save s (rt_store r)). Qed.

Lemma request_one_others why id' id r : id' <> id ->
  dict_get id (rt_slots (request_fail_close_one why id' r).1) = dict_get id (rt_slots r).
Proof.
  intros Hne. unfold request_fail_close_one, jbind at 1, slot_now, jquery, slot_of.
  destruct (dict_get id' (rt_slots r)) as [s|] eqn:Hs; [|done]. case_bool_decide; [done|].
  unfold jbind, change, jmodify, on_slot. rewrite Hs, save_keeps_slots. cbn. by rewrite dict_get_set_ne.
Qed.

Lemma request_one_latches why id r s :
  dict_get id (rt_slots r) = Some s -> state (gate s) <> OPERATOR_STOP -> py_strip why <> "" ->
  exists s' latch, dict_get id (rt_slots (request_fail_close_one why id r).1) = Some s' /\ latched latch s'.
Proof.
  intros Hs Hst Hw. unfold request_fail_close_one, jbind at 1, slot_now, jquery, slot_of. rewrite Hs.
  case_bool_decide; [done|]. unfold jbind, change, jmodify, on_slot. rewrite Hs. set (latch := default (py_strip why) (said (fail_close_reason (gate s)))).
  assert (latch <> "") as Hl.
  { by apply said_not_empty. }
  match goal with |- context [save_slot id (put_slot id ?x r)] => exists x, latch; rewrite (save_keeps_slots id (put_slot id x r)) end.
  cbn. rewrite dict_get_set_eq. split; [done|]. by split_and!.
Qed.

Lemma request_latches ids why r r' u id s :
  request_fail_close ids why r = (r', Ok u) -> id ∈ ids -> dict_get id (rt_slots r) = Some s ->
  state (gate s) <> OPERATOR_STOP -> exists s' latch, dict_get id (rt_slots r') = Some s' /\ latched latch s'.
Proof.
  unfold request_fail_close. destruct (is_empty (py_strip why)) eqn:Ew; [done|]. intros H Hin.
  assert (py_strip why <> "") as Hne by by destruct (py_strip why). clear Ew. revert r s H.
  induction ids as [|id' ids IH]; intros r s H Hs Hst; [by apply elem_of_nil in Hin|].
  cbn [for_slots] in H. apply jbind_Ok in H as (u1 & r1 & H1 & H). destruct (decide (id' = id)) as [->|Hid].
  - destruct (request_one_latches why id r s Hs Hst Hne) as (s1 & latch & Hs1 & Hl). rewrite H1 in Hs1.
    assert (Keeps (for_slots (request_fail_close_one why) ids)) as Hk.
    { pose proof (keeps_request_fail_close ids why) as Hk. unfold request_fail_close in Hk. by destruct (py_strip why). }
    destruct (Hk r1 id s1 latch Hs1 Hl) as (s2 & Hs2 & Hl2). rewrite H in Hs2. by exists s2, latch.
  - apply elem_of_cons in Hin as [Hin|Hin]; [done|]. eapply IH; [exact Hin|exact H| |exact Hst]. rewrite <- Hs. by rewrite <- (request_one_others why id' id r Hid), H1.
Qed.

(** * A smaller order lowers too *)

(** The sum with a number cut toward zero is no further out than the sum or the start. *)
Lemma add_cut b x x' :
  fits b -> cut (dval x) (dval x') -> (Qabs (dval (dadd b x)) <= Qabs (dval b) -> Qabs (dval (dadd b x')) <= Qabs (dval b))%Q.
Proof.
  intros Hb [C1 C2] H. destruct (Qlt_le_dec (Qabs (dval b)) (Qabs (dval b + dval x'))) as [Hlt|Hle].
  - eapply Qle_trans; [|exact H]. apply dfix_mono. rewrite !dadd_exact_val.
    pose proof (Qabs_cases (dval b)). pose proof (Qabs_cases (dval b + dval x')). pose proof (Qabs_cases (dval b + dval x)).
    destruct (Qlt_le_dec (dval x) 0); [destruct C2; [lra|]|destruct C1; [lra|]]; intuition lra.
  - apply dfix_le_fits; [done|]. by rewrite dadd_exact_val.
Qed.

Lemma dopp_magnitude a b : (Qabs (dval b) <= Qabs (dval a) -> Qabs (dval (dopp b)) <= Qabs (dval (dopp a)))%Q.
Proof.
  intros H. unfold dopp. apply dfix_mono.
  assert (forall d, Qabs (dval (if dis_zero d then copy_abs d else copy_negate d)) == Qabs (dval d))%Q as E; [|by rewrite !E].
  intros d. destruct (dis_zero d); [rewrite copy_abs_val; apply Qabs_pos, Qabs_nonneg|by rewrite copy_negate_val, Qabs_opp].
Qed.

Lemma dopp_cut a b : (0 < dval b <= dval a)%Q -> cut (dval (dopp a)) (dval (dopp b)).
Proof.
  intros [Hb Hab]. assert (Qabs (dval (dopp b)) <= Qabs (dval (dopp a)))%Q as H
    by (apply dopp_magnitude; rewrite !Qabs_pos by lra; done).
  destruct ulp28_range as [U0 U1].
  destruct (near_sign ulp28 _ _ U0 U1 (dopp_near a)) as (_ & Ha & _).
  destruct (near_sign ulp28 _ _ U0 U1 (dopp_near b)) as (_ & Hb' & _).
  assert (dval (dopp a) < 0)%Q by (apply Ha; lra). assert (dval (dopp b) < 0)%Q by (apply Hb'; lra).
  rewrite !Qabs_neg in H by lra. split; intros; split; lra.
Qed.

(** What the plan sends was not increasing as a correction; neither is it as an order. *)
Lemma order_not_increasing before a n :
  fits before -> (0 < dval n <= dval (DesiredEngine.na_size a))%Q ->
  is_increasing before a = false -> is_increasing before (with_action_size n a) = false.
Proof.
  intros Hb Hn H. unfold is_increasing in *. apply dltb_false in H. apply dltb_false.
  rewrite !dabs_fits_val in * by auto with copytrader. revert H. apply add_cut; [done|].
  unfold DesiredEngine.signed_size, with_action_size. cbn. case_bool_decide; [|by apply dopp_cut].
  split; intros; split; lra.
Qed.

(** A forced close is made from a position with exposure, against it and as large. *)
Lemma first_close_inv sha256 id why positions a :
  first_close sha256 id why [] positions = Some a ->
  exists position, (DesiredEngine.na_market a, position) ∈ positions /\ DesiredEngine.na_reduce_only a = true /\
    let projected := dadd (pos_size position) dzero in
    ~ (dval projected == 0)%Q /\ DesiredEngine.na_side a = (if dpos projected then "sell" else "buy") /\
    DesiredEngine.na_size a = dabs projected.
Proof.
  induction positions as [|[m p] rest IH]; cbn [first_close]; [done|].
  change (size_at [] m) with dzero. destruct (truthy (dadd (pos_size p) dzero)) eqn:Et; cbn [negb orb truthy dis_zero].
  - intros [= <-]. exists p. cbn. split_and!; try done; [by left|]. intros E%dis_zero_spec. unfold truthy in Et. by rewrite E in Et.
  - intros (position & Hin & H)%IH. exists position. split; [by right|done].
Qed.

(** A smaller order with the side and at most the size of a close takes part of the position. *)
Lemma close_takes_part size n a : ~ (dval (dadd size dzero) == 0)%Q ->
  DesiredEngine.na_side a = (if dpos (dadd size dzero) then "sell" else "buy") ->
  DesiredEngine.na_size a = dabs (dadd size dzero) -> (0 < dval n <= dval (DesiredEngine.na_size a))%Q ->
  let change := dval (DesiredEngine.signed_size (with_action_size n a)) in
  (dval size * change < 0 /\ Qabs change <= (1 + ulp28) * Qabs (dval size) /\ (fits size -> Qabs change <= Qabs (dval size)))%Q.
Proof.
  intros Hnz Hside Hsize [Hn0 Hn] change. set (projected := dadd size dzero) in *.
  assert (fits projected) as Hf by apply dadd_fits. rewrite Hsize, dabs_fits_val in Hn by done.
  assert (near ulp28 (dval size) (dval projected)) as Hnear.
  { pose proof (dadd_near size dzero) as H. by rewrite dval_zero, Qplus_0_r in H. }
  destruct ulp28_range as [U0 U1]. destruct (near_sign ulp28 _ _ U0 U1 Hnear) as (Hp & Hneg & Hz).
  assert (Qabs (dval projected) <= (1 + ulp28) * Qabs (dval size))%Q as Hup.
  { pose proof (Qabs_triangle (dval projected - dval size) (dval size)) as Ht. unfold near in Hnear.
    rewrite Qabs_wd with (y := dval projected) in Ht by ring. lra. }
  assert (Qabs change <= Qabs (dval projected) /\ dval projected * change < 0)%Q as [Hle Hopp].
  { unfold change, DesiredEngine.signed_size, with_action_size. cbn. rewrite Hside. destruct (dpos projected) eqn:E.
    - apply dpos_spec in E. rewrite bool_decide_eq_false_2 by done.
      assert (Qabs (dval n) <= Qabs (dval (dabs projected)))%Q as Hm.
      { rewrite dabs_fits_val by done. rewrite (Qabs_pos (dval n)), (Qabs_pos (Qabs _)) by (try apply Qabs_nonneg; lra). done. }
      apply dopp_magnitude in Hm. rewrite (dopp_fits (dabs projected)), Qabs_opp in Hm by apply dabs_is_fits.
      rewrite dabs_fits_val in Hm by done. rewrite (Qabs_pos (Qabs _)) in Hm by apply Qabs_nonneg. split; [done|].
      destruct (near_sign ulp28 _ _ U0 U1 (dopp_near n)) as (_ & Ho & _). assert (dval (dopp n) < 0)%Q by (apply Ho; lra). nra.
    - assert (dval projected < 0)%Q as Hlt.
      { assert (~ (0 < dval projected)%Q) by (rewrite <- dpos_spec; congruence). destruct (Q_dec (dval projected) 0) as [[]|]; done. }
      rewrite bool_decide_eq_true_2 by done. rewrite (Qabs_pos (dval n)) by lra. split; [done|nra]. }
  split_and!; [|lra|].
  - destruct (Q_dec (dval size) 0) as [[H|H]|H]; [apply Hneg in H as H'|apply Hp in H as H'|by rewrite H in Hz; destruct Hnz; apply Hz]; nra.
  - intros Hfs. assert (Qabs (dval projected) <= Qabs (dval size))%Q; [|lra].
    apply dfix_le_fits; [done|]. rewrite dadd_exact_val, dval_zero, Qplus_0_r. lra.
Qed.

(** What an order of the plan does to the exposure.  Under a forced close it is sent
    reduce-only against a position of the follower truth, with nothing outstanding, and takes
    at most all of it.  Any other order leaves no more exposure to its market than there is
    with everything outstanding counted. *)
Definition lowers (loads : string -> option json) (force : bool) (r : Runtime) (s : Slot) (a : NextAction) : Prop :=
  let market := DesiredEngine.na_market a in
  let change := DesiredEngine.signed_size a in
  exists f unresolved, follower s = Some f /\ unresolved_of loads r s = Ok unresolved /\
  if force
  then unresolved = [] /\ DesiredEngine.na_reduce_only a = true /\
    exists position, (market, position) ∈ ft_positions f /\
      (dval (pos_size position) * dval change < 0 /\
       Qabs (dval change) <= (1 + ulp28) * Qabs (dval (pos_size position)) /\
       (fits (pos_size position) -> Qabs (dval change) <= Qabs (dval (pos_size position))))%Q
  else let before := dadd (pos_size (follower_position market f)) (size_at unresolved market) in
    (Qabs (dval (dadd before change)) <= Qabs (dval before))%Q.

Lemma latched_orders_lower sha256 loads t id now force why r s r' p :
  slot_of id r = Ok s -> latched why s -> plan_drive sha256 loads t id now force r = (r', Ok (inl p)) ->
  lowers loads force r s (pi_action p).
Proof.
  intros Hs Hl H. pose proof (keeps_plan sha256 loads t id now force r) as Hk. rewrite H in Hk.
  apply plan_prepared in H as (r1 & s1 & f & before & a & P & -> & Hsend & Hforce). unfold lowers. cbv zeta.
  pose proof (sa_slot _ _ _ _ _ _ _ _ _ _ Hsend) as Hs1. apply slot_of_get in Hs1 as Hg1.
  destruct (planning_slot _ _ _ _ _ _ P Hs Hs1) as (_ & _ & Hlane & _ & Hf & _).
  destruct (sa_before _ _ _ _ _ _ _ _ _ _ Hsend) as (unresolved & Hun & Hbefore).
  rewrite (unresolved_planning _ _ _ _ _ _ _ P Hlane) in Hun.
  exists f, unresolved. rewrite <- Hf. split; [apply (sa_follower _ _ _ _ _ _ _ _ _ _ Hsend)|]. split; [done|].
  rewrite (sa_action _ _ _ _ _ _ _ _ _ _ Hsend). pose proof (sa_size _ _ _ _ _ _ _ _ _ _ Hsend) as Hsize. destruct force.
  - destruct Hforce as (s0 & Hs0 & _ & _ & Hu & Ha); [done|]. rewrite Hs in Hs0. injection Hs0 as <-. rewrite Hun in Hu. injection Hu as ->.
    apply first_close_inv in Ha as (position & Hin & Hro & Hnz & Hside & Hsz). split; [done|]. split; [done|].
    exists position. split; [unfold by_market in Hin; by apply elem_of_py_sorted in Hin|by apply close_takes_part].
  - apply slot_of_get in Hs as Hg. destruct (Hk id s why Hg Hl) as (s2 & Hs2 & _ & _ & Hst).
    assert (is_increasing before a = false) as Hni.
    { destruct (sa_state _ _ _ _ _ _ _ _ _ _ Hsend eq_refl) as [E|[_ E]]; [|done].
      exfalso. revert Hs2. unfold reserved_order, on_slot. cbn. rewrite Hg1. unfold put_slot. cbn. rewrite dict_get_set_eq.
      intros [= <-]. by apply Hst. }
    rewrite Hbefore in Hni. apply (order_not_increasing _ _ (ioc_size (pi_executable p))) in Hni; [|apply dadd_fits|exact Hsize].
    unfold is_increasing in Hni. apply dltb_false in Hni. rewrite !dabs_fits_val in Hni by apply dadd_fits. exact Hni.
Qed.

(** C8. A fail-close holds.  Once a fail-close was requested for a slot that no operator
    had stopped, the slot stays latched through every sequence of frames, connection
    changes, follower reconciliations, catalog revisions, operator states and drives,
    with other handlers running whenever one of them awaits; only a re-arm by the
    operator ends it.  While it is latched the slot never runs, and no order its plan
    prepares raises its exposure: a forced close is sent reduce-only, against a position
    the follower truth shows, with nothing outstanding, and takes at most all of it; any
    other order leaves the exposure to its market, outstanding actions included, no larger
    than it is. *)
Theorem fail_close_latched sha256 loads refresh r0 r r' ids why u id s0 :
  request_fail_close ids why r0 = (r, Ok u) -> id ∈ ids -> slot_of id r0 = Ok s0 -> state (gate s0) <> OPERATOR_STOP ->
  runs sha256 loads refresh r r' ->
  exists s latch, slot_of id r' = Ok s /\ latched latch s /\
    forall t now force r'' p, plan_drive sha256 loads t id now force r' = (r'', Ok (inl p)) ->
      lowers loads force r' s (pi_action p).
Proof.
  intros Hreq Hid Hs0 Hst Hruns. apply slot_of_get in Hs0.
  destruct (request_latches _ _ _ _ _ _ _ Hreq Hid Hs0 Hst) as (s1 & latch & Hs1 & Hl1).
  destruct (runs_latch _ _ _ _ _ Hruns _ _ _ Hs1 Hl1) as (s & Hs & Hl). apply slot_of_get in Hs.
  exists s, latch. split_and!; [done|done|]. intros. by eapply latched_orders_lower.
Qed.

(** A slot that holds a position, and the runtime after an operator tried to resume it. *)
Definition held : Slot := example_slot_state [("BTC", dint 1)] [("BTC", MkPosition "BTC" (dint 2) None (Some 3) 1000)].
Definition requested : Runtime := (request_fail_close ["slot-1"] "operator" (example_runtime connected held)).1.
Definition resumed : Runtime := (set_operator_state (fun _ => None) "slot-1" RUNNING 1003 1003 requested).1.

Lemma fail_close_latched_witness : exists s latch r'' p,
  slot_of "slot-1" resumed = Ok s /\ latched latch s /\
  plan_drive (fun x => x) (fun _ => None) example_clocks "slot-1" 1003 true resumed = (r'', Ok (inl p)) /\
  lowers (fun _ => None) true resumed s (pi_action p) /\ DesiredEngine.na_side (pi_action p) = "sell".
Proof.
  destruct (fail_close_latched (fun x => x) (fun _ => None) None (example_runtime connected held) requested resumed
    ["slot-1"] "operator" tt "slot-1" held) as (s & latch & Hs & Hl & Hp).
  - vm_compute. reflexivity.
  - by left.
  - reflexivity.
  - discriminate.
  - apply runs_set_operator_state.
  - destruct (plan_drive (fun x => x) (fun _ => None) example_clocks "slot-1" 1003 true resumed)
      as [r'' [[p|out]|e]] eqn:E; [|by vm_compute in E..].
    exists s, latch, r'', p. split; [done|]. split; [done|]. split; [done|]. split; [exact (Hp _ _ _ _ _ E)|].
    vm_compute in E. by injection E as _ <-.
Defined.
