(* ===== verification/AttributionFacts.v ===== *)
(** What becomes of the source's fills: what is copied, what is only observed. *)

From S2P Require Import Prelude PyDecimal DecimalFacts RoundingFacts PyText Models Markets ContinuousConfig MarketCatalog MarketStreamFacts Runtime RuntimeExample.
From S2P Require AccountStream.
From Stdlib Require Import QArith Qabs Qminmax Lqa.

Open Scope Z_scope.

Abbreviation f_market := AccountStream.f_market.
Abbreviation f_side := AccountStream.f_side.
Abbreviation f_size := AccountStream.f_size.
Abbreviation fill_signed_size := AccountStream.fill_signed_size.

(** * Between nothing and what there was *)

Definition shrinks (x y : Q) : Prop := ((0 <= y /\ y <= x) \/ (x <= y /\ y <= 0))%Q.

#[export] Instance shrinks_proper : Proper (Qeq ==> Qeq ==> iff) shrinks.
Proof. intros x y H x' y' H'. unfold shrinks. by rewrite H, H'. Qed.

Lemma shrinks_refl x : shrinks x x.
Proof. unfold shrinks. destruct (Qlt_le_dec x 0); [right|left]; split; lra. Qed.

Lemma shrinks_trans x y z : shrinks x y -> shrinks y z -> shrinks x z.
Proof. unfold shrinks. intros [[]|[]] [[]|[]]; [left|left|right|right]; split; lra. Qed.

Lemma shrinks_abs x y : shrinks x y -> (Qabs y <= Qabs x)%Q.
Proof. intros [[]|[]]; [rewrite !Qabs_pos by lra; lra|rewrite !Qabs_neg by lra; lra]. Qed.

(** * Exact sizes *)

(** A size that is a whole number of the smallest lots. *)
Definition lots (k : Z) (d : dec) : Prop := multiple_of (- k) (dval d).

Lemma truthy_spec d : truthy d = false <-> (dval d == 0)%Q.
Proof. unfold truthy. rewrite negb_false_iff. apply dis_zero_spec. Qed.

Lemma opposite_spec x y : opposite x y = true ->
  ((0 < dval x /\ dval y < 0) \/ (dval x < 0 /\ 0 < dval y))%Q.
Proof.
  unfold opposite. intros H. bool_prop.
  assert (~ (dval x == 0)%Q) as Hx by (intros E%truthy_spec; congruence).
  assert (~ (dval y == 0)%Q) as Hy by (intros E%truthy_spec; congruence).
  destruct (dpos x) eqn:Ex, (dpos y) eqn:Ey; try done.
  - apply dpos_spec in Ex. assert (~ (0 < dval y)%Q) by (intros E%dpos_spec; congruence). left. lra.
  - apply dpos_spec in Ey. assert (~ (0 < dval x)%Q) by (intros E%dpos_spec; congruence). right. lra.
Qed.

Lemma opposite_false x y : opposite x y = false -> (0 <= dval x * dval y)%Q.
Proof.
  unfold opposite. intros H. destruct (truthy x) eqn:Ex; [|apply truthy_spec in Ex; rewrite Ex; lra].
  destruct (truthy y) eqn:Ey; [|apply truthy_spec in Ey; rewrite Ey; lra]. cbn [andb] in H. bool_prop.
  assert (dpos x = dpos y) as E by (by destruct (dpos x), (dpos y)).
  destruct (dpos y) eqn:Py.
  - apply dpos_spec in E, Py. nra.
  - assert (~ (0 < dval x)%Q) by (rewrite <- dpos_spec; congruence). assert (~ (0 < dval y)%Q) by (rewrite <- dpos_spec; congruence). nra.
Qed.

(** What a holding pays of an opposite change: all of the change if it can, else all it has. *)
Definition pays (held change held' rest : Q) : Prop :=
  (held * change < 0 /\ Qabs change <= Qabs held /\ held' == held + change /\ rest == 0)%Q \/
  (held * change < 0 /\ Qabs held <= Qabs change /\ held' == 0 /\ rest == held + change)%Q \/
  (0 <= held * change /\ held' == held /\ rest == change)%Q.

Lemma pays_of_amount h d amount h' d' :
  (h' == h + amount -> d' == d - amount -> h * d < 0 ->
   (Qabs d <= Qabs h /\ amount == d) \/ (Qabs h <= Qabs d /\ amount == - h) -> pays h d h' d')%Q.
Proof.
  intros Eh Ed Ho [[Hle Ea]|[Hle Ea]]; rewrite Ea in Eh, Ed; [left|right; left].
  - split_and!; [exact Ho|exact Hle|exact Eh|lra].
  - split_and!; [exact Ho|exact Hle|lra|lra].
Qed.

(** A fill of size [d]: the copied size pays first, then the observed one, and what is left is
    added to the copied size if the fill may be copied, else to the observed one. *)
Definition spent (signal : bool) (o c d o' c' : Q) : Prop :=
  exists c1 d1 o1 d2, pays c d c1 d1 /\ pays o d1 o1 d2 /\
    if signal then (o' == o1 /\ c' == c1 + d2)%Q else (o' == o1 + d2 /\ c' == c1)%Q.

Lemma pays_ext h d e h' r : (d == e)%Q -> pays h d h' r -> pays h e h' r.
Proof. unfold pays. intros E. by rewrite E. Qed.

Lemma spent_ext sg o c d e o' c' : (d == e)%Q -> spent sg o c d o' c' -> spent sg o c e o' c'.
Proof. intros E (c1 & d1 & o1 & d2 & H & H'). exists c1, d1, o1, d2. split; [by eapply pays_ext|exact H']. Qed.

(** The amount an opposite fill consumes. *)
Lemma consumed_val k h d :
  on_grid (- k) (dval h) -> on_grid (- k) (dval d) -> opposite d h = true ->
  let amount := copy_sign (dmin (dabs d) (dabs h)) d in
  (Qabs (dval d) <= Qabs (dval h) /\ dval amount == dval d)%Q \/
  (Qabs (dval h) <= Qabs (dval d) /\ dval amount == - dval h)%Q.
Proof.
  intros Hh Hd Ho amount. apply opposite_spec in Ho. destruct (dneg_spec d) as [Hneg Hpos].
  assert (0 <= dval (dmin (dabs d) (dabs h)))%Q as H0.
  { destruct (dmin_cases (dabs d) (dabs h)) as [[-> _]|[-> _]]; erewrite dabs_on_grid by done; apply Qabs_nonneg. }
  unfold amount. rewrite (copy_sign_val _ _ H0).
  destruct (dmin_cases (dabs d) (dabs h)) as [[-> Hle]|[-> Hle]];
    rewrite !(dabs_on_grid (- k)) in * by done; [left|right]; (split; [lra|]).
  all: destruct (Qabs_cases (dval d)) as [[? Ed]|[? Ed]], (Qabs_cases (dval h)) as [[? Eh]|[? Eh]]; rewrite ?Ed, ?Eh in *.
  all: destruct (dneg d); [specialize (Hneg eq_refl)|specialize (Hpos eq_refl)]; lra.
Qed.

Lemma consume_exact k h d :
  on_grid (- k) (dval h) -> on_grid (- k) (dval d) ->
  let '(h', d') := consume h d in
  lots k h' /\ lots k d' /\ (dval h' + dval d' == dval h + dval d)%Q /\
  shrinks (dval h) (dval h') /\ shrinks (dval d) (dval d') /\ pays (dval h) (dval d) (dval h') (dval d').
Proof.
  intros Hh Hd. unfold consume. destruct (opposite d h) eqn:Ho.
  2: { split_and!; [apply Hh|apply Hd|reflexivity|apply shrinks_refl..|]. right. right. apply opposite_false in Ho. split_and!; [lra|done..]. }
  pose proof (consumed_val k h d Hh Hd Ho) as Ha. cbv zeta in Ha.
  set (amount := copy_sign _ d) in *. apply opposite_spec in Ho.
  assert (multiple_of (- k) (dval amount)) as Hm.
  { destruct Ha as [[_ ->]|[_ ->]]; [apply Hd|apply multiple_opp, Hh]. }
  assert (shrinks (dval h) (dval h + dval amount) /\ shrinks (dval d) (dval d - dval amount)) as [Sh Sd].
  { unfold shrinks.
    destruct (Qabs_cases (dval d)) as [[? Ed]|[? Ed]], (Qabs_cases (dval h)) as [[? Eh]|[? Eh]]; rewrite Ed, Eh in Ha;
    destruct Ha as [[? Ea]|[? Ea]]; split; rewrite Ea; lra. }
  assert (on_grid (- k) (dval h + dval amount)) as Gh.
  { split; [apply multiple_add; [apply Hh|done]|]. apply shrinks_abs in Sh. destruct Hh. lra. }
  assert (on_grid (- k) (dval d - dval amount)) as Gd.
  { split; [apply multiple_sub; [apply Hd|done]|]. apply shrinks_abs in Sd. destruct Hd. lra. }
  assert (dval h * dval d < 0)%Q as Hneg by (clear - Ho; destruct Ho as [[? ?]|[? ?]]; nra).
  pose proof (dadd_on_grid _ _ _ Gh) as Eh. pose proof (dsub_on_grid _ _ _ Gd) as Ed.
  pose proof (pays_of_amount _ _ _ _ _ Eh Ed Hneg Ha) as Hp.
  unfold lots. split_and!; [rewrite Eh; apply Gh|rewrite Ed; apply Gd|rewrite Eh, Ed; ring| | |exact Hp];
    unfold shrinks in *; rewrite ?Eh, ?Ed; assumption.
Qed.

(** * One fill *)

Lemma add_room k x y b : lots k x -> lots k y -> (Qabs (dval x) + Qabs (dval y) <= b)%Q -> (b < q10 (28 + - k))%Q ->
  (dval (dadd x y) == dval x + dval y)%Q /\ lots k (dadd x y) /\ (Qabs (dval (dadd x y)) <= Qabs (dval x) + Qabs (dval y))%Q.
Proof.
  intros Hx Hy Hb Hr. pose proof (Qabs_triangle (dval x) (dval y)) as Ht.
  assert (dval (dadd x y) == dval x + dval y)%Q as E.
  { apply (dadd_on_grid (- k)). split; [by apply multiple_add|]. lra. }
  split; [done|]. unfold lots. rewrite E. split; [by apply multiple_add|done].
Qed.

Lemma split_fill_exact k (signal : bool) o c d b :
  lots k o -> lots k c -> lots k d -> (Qabs (dval o) + Qabs (dval c) + Qabs (dval d) <= b)%Q -> (b < q10 (28 + - k))%Q ->
  let '(o', c') := split_fill signal o c d in
  lots k o' /\ lots k c' /\ (dval o' + dval c' == dval o + dval c + dval d)%Q /\
  (Qabs (dval o') + Qabs (dval c') <= Qabs (dval o) + Qabs (dval c) + Qabs (dval d))%Q /\
  (signal = false -> shrinks (dval c) (dval c')) /\ (signal = true -> shrinks (dval o) (dval o')) /\
  spent signal (dval o) (dval c) (dval d) (dval o') (dval c').
Proof.
  intros Ho Hc Hd Hb Hr.
  pose proof (Qabs_nonneg (dval o)) as N1. pose proof (Qabs_nonneg (dval c)) as N2. pose proof (Qabs_nonneg (dval d)) as N3.
  unfold split_fill. pose proof (consume_exact k c d) as H1. destruct (consume c d) as [c1 d1].
  destruct H1 as (L1 & L2 & S1 & K1 & K2 & Y1); [split; [done|lra]..|].
  apply shrinks_abs in K1 as A1. apply shrinks_abs in K2 as A2.
  assert (exists o2 d2, (if truthy d1 && truthy o then consume o d1 else (o, d1)) = (o2, d2) /\ lots k o2 /\ lots k d2 /\
    (dval o2 + dval d2 == dval o + dval d1)%Q /\ shrinks (dval o) (dval o2) /\ shrinks (dval d1) (dval d2) /\
    pays (dval o) (dval d1) (dval o2) (dval d2))
    as (o2 & d2 & -> & L3 & L4 & S2 & K3 & K4 & Y2).
  { destruct (truthy d1 && truthy o) eqn:Et.
    2: { exists o, d1. split_and!; try done; try apply shrinks_refl. right. right. split_and!; [|done..].
         apply andb_false_iff in Et as [E%truthy_spec|E%truthy_spec]; rewrite E; lra. }
    pose proof (consume_exact k o d1) as H2. destruct (consume o d1) as [o2 d2]. exists o2, d2.
    destruct H2 as (? & ? & ? & ? & ? & ?); [split; [done|lra]..|]. by split_and!. }
  apply shrinks_abs in K3 as A3. apply shrinks_abs in K4 as A4.
  destruct signal.
  - destruct (add_room k c1 d2 b) as (E & L & A); [done|done|lra|done|].
    split_and!; try done; [rewrite E; lra|lra|]. by exists (dval c1), (dval d1), (dval o2), (dval d2).
  - destruct (add_room k o2 d2 b) as (E & L & A); [done|done|lra|done|].
    split_and!; try done; [rewrite E; lra|lra|]. by exists (dval c1), (dval d1), (dval o2), (dval d2).
Qed.

(** * Tables of sizes *)

Lemma size_at_put values market v m :
  (dval (size_at (put_size values market v) m) == if decide (m = market) then dval v else dval (size_at values m))%Q.
Proof.
  unfold size_at, put_size. destruct (truthy v) eqn:E.
  - destruct (decide (m = market)) as [->|Hne]; [by rewrite dict_get_set_eq|by rewrite dict_get_set_ne].
  - apply truthy_spec in E. destruct (decide (m = market)) as [->|Hne].
    + rewrite dict_get_del_eq. cbn. by rewrite dval_zero, E.
    + by rewrite dict_get_del_ne.
Qed.

Lemma lots_put k values market v m :
  lots k v -> (forall m, lots k (size_at values m)) -> lots k (size_at (put_size values market v) m).
Proof. intros Hv Hall. unfold lots. rewrite size_at_put. case_decide; [done|apply Hall]. Qed.

(** * A batch of fills *)

Section Batch.
Variables (c : CatalogRevision) (age : Z) (b : BoundContinuousSlot) (recovered : option Z) (k : Z).

(** The fills of the batch that are not remembered. *)
Fixpoint admitted (seen : list fill_id) (fills : list FillRecord) : list FillRecord :=
  match fills with
  | [] => []
  | f :: rest =>
      if bool_decide (AccountStream.identity f ∈ seen) then admitted seen rest
      else f :: admitted (remember_fill (AccountStream.identity f) seen) rest
  end.

(** A fill that may create a copied position. *)
Definition signals (f : FillRecord) : bool := fresh_recovery age recovered f && negb (denied b (f_market f)).

(** What a fill adds to the position of its market. *)
Definition change (f : FillRecord) : Q := if bool_decide (f_side f = "buy") then dval (f_size f) else (- dval (f_size f))%Q.

(** What a list of fills adds to a market, with and without sign. *)
Fixpoint net (m : string) (l : list FillRecord) : Q :=
  match l with
  | [] => 0
  | f :: rest => if decide (f_market f = m) then change f + net m rest else net m rest
  end.
Fixpoint mass (m : string) (l : list FillRecord) : Q :=
  match l with
  | [] => 0
  | f :: rest => if decide (f_market f = m) then Qabs (dval (f_size f)) + mass m rest else mass m rest
  end.

Lemma mass_nonneg m l : (0 <= mass m l)%Q.
Proof.
  induction l as [|f l IH]; cbn [mass]; [lra|]. case_decide; [|done]. pose proof (Qabs_nonneg (dval (f_size f))). lra.
Qed.

(** The observed and the copied size of a market. *)
Definition observed (a : Attribution) (m : string) : Q := dval (size_at (unattributed a) m).
Definition copied (a : Attribution) (m : string) : Q := dval (size_at (attributable a) m).

(** All sizes are whole lots, and with the fills to come they fit the context. *)
Definition exact_sizes (a : Attribution) (l : list FillRecord) : Prop :=
  (forall m, lots k (size_at (unattributed a) m) /\ lots k (size_at (attributable a) m)) /\
  Forall (fun f => lots k (f_size f)) l /\
  forall m, (Qabs (observed a m) + Qabs (copied a m) + mass m l < q10 (28 + - k))%Q.

(** What the fills [l] made of [a]. *)
Record attributes (l : list FillRecord) (a a' : Attribution) : Prop := {
  ab_sum m : (observed a' m + copied a' m == observed a m + copied a m + net m l)%Q;
  ab_copied m : (forall f, f ∈ l -> f_market f = m -> signals f = false) -> shrinks (copied a m) (copied a' m);
  ab_observed m : (forall f, f ∈ l -> f_market f = m -> signals f = true) -> shrinks (observed a m) (observed a' m);
}.

(** The fills [l] one after the other, on the observed and the copied sizes. *)
Inductive spent_by : list FillRecord -> (string -> Q) -> (string -> Q) -> (string -> Q) -> (string -> Q) -> Prop :=
  | sb_done o c o' c' : (forall m, o' m == o m /\ c' m == c m)%Q -> spent_by [] o c o' c'
  | sb_fill f l o c o1 c1 o' c' :
      let m := f_market f in
      spent (signals f) (o m) (c m) (change f) (o1 m) (c1 m) ->
      (forall x, x <> m -> o1 x == o x /\ c1 x == c x)%Q -> spent_by l o1 c1 o' c' -> spent_by (f :: l) o c o' c'.

Lemma attributes_nil a : attributes [] a a.
Proof. split; intros m; cbn; [ring|intros; apply shrinks_refl..]. Qed.

Lemma attributes_cons f l a a1 a' : attributes [f] a a1 -> attributes l a1 a' -> attributes (f :: l) a a'.
Proof.
  intros H1 H2. split; intros m.
  - rewrite (ab_sum _ _ _ H2), (ab_sum _ _ _ H1). cbn. case_decide; ring.
  - intros H. eapply shrinks_trans; [apply (ab_copied _ _ _ H1)|apply (ab_copied _ _ _ H2)]; intros g Hg; apply H; set_solver.
  - intros H. eapply shrinks_trans; [apply (ab_observed _ _ _ H1)|apply (ab_observed _ _ _ H2)]; intros g Hg; apply H; set_solver.
Qed.

(** The signed size of a fill that is counted in whole lots. *)
Lemma fill_size_val f : lots k (f_size f) -> (Qabs (dval (f_size f)) < q10 (28 + - k))%Q ->
  (dval (fill_signed_size f) == change f)%Q /\ lots k (fill_signed_size f) /\ (Qabs (dval (fill_signed_size f)) == Qabs (dval (f_size f)))%Q.
Proof.
  intros Hl Hb. unfold change, AccountStream.fill_signed_size. case_bool_decide; [by split_and!|].
  assert (dval (dopp (f_size f)) == - dval (f_size f))%Q as E.
  { apply (dopp_on_grid (- k)). by split. }
  split; [exact E|]. split; [|by rewrite E, Qabs_opp]. unfold lots. rewrite E. by apply multiple_opp.
Qed.

Lemma attribute_step_new a ch rf f a' ch' rf' :
  AccountStream.identity f ∉ applied_fills a ->
  attribute_step c age b recovered (a, ch, rf) f = Ok (a', ch', rf') ->
  let m := f_market f in
  let '(o, cp) := split_fill (signals f) (size_at (unattributed a) m) (size_at (attributable a) m) (fill_signed_size f) in
  unattributed a' = put_size (unattributed a) m o /\ attributable a' = put_size (attributable a) m cp /\
  applied_fills a' = remember_fill (AccountStream.identity f) (applied_fills a) /\ (m ∈ ch' /\ forall x, x ∈ ch -> x ∈ ch').
Proof.
  intros Hni H m. unfold attribute_step in H. rewrite bool_decide_false in H by done. cbv zeta in H.
  fold m in H. unfold signals. fold m.
  destruct (split_fill _ _ _ _) as [o cp]. apply bind_Ok in H as (missing & _ & [= <- <- <-]).
  cbn. split_and!; try done; case_bool_decide; set_solver.
Qed.

Lemma step_attributes a ch rf f a' ch' rf' l :
  AccountStream.identity f ∉ applied_fills a -> exact_sizes a (f :: l) ->
  attribute_step c age b recovered (a, ch, rf) f = Ok (a', ch', rf') ->
  attributes [f] a a' /\ exact_sizes a' l /\
  spent (signals f) (observed a (f_market f)) (copied a (f_market f)) (change f)
    (observed a' (f_market f)) (copied a' (f_market f)) /\
  (forall x, x <> f_market f -> observed a' x == observed a x /\ copied a' x == copied a x)%Q.
Proof.
  intros Hni (Hl & Hf & Hroom) Hs. inversion_clear Hf as [|? ? Hlf Hll].
  pose proof (attribute_step_new _ _ _ _ _ _ _ Hni Hs) as H. cbv zeta in H. set (m := f_market f) in *.
  pose proof (split_fill_exact k (signals f) (size_at (unattributed a) m) (size_at (attributable a) m) (fill_signed_size f)
    (Qabs (observed a m) + Qabs (copied a m) + Qabs (dval (fill_signed_size f)))%Q) as E.
  destruct (split_fill _ _ _ _) as [o cp]. destruct H as (Hu & Ha & Hap & _).
  destruct (Hl m) as [Lo Lc]. pose proof (Hroom m) as Hm. cbn [mass] in Hm. rewrite decide_True in Hm by done.
  pose proof (mass_nonneg m l) as Hmass. pose proof (Qabs_nonneg (observed a m)) as N1. pose proof (Qabs_nonneg (copied a m)) as N2.
  destruct (fill_size_val f Hlf ltac:(lra)) as (Ech & Hls & Eabs). unfold observed, copied in *.
  destruct E as (L1 & L2 & S & A & Kc & Ko & Y); [done|done|done|lra|lra|].
  assert (forall x, (dval (size_at (unattributed a') x) == if decide (x = m) then dval o else dval (size_at (unattributed a) x))%Q) as Vo
    by (intros x; rewrite Hu; apply size_at_put).
  assert (forall x, (dval (size_at (attributable a') x) == if decide (x = m) then dval cp else dval (size_at (attributable a) x))%Q) as Vc
    by (intros x; rewrite Ha; apply size_at_put).
  split; [|split; [|split; [|intros x Hx; unfold observed, copied; rewrite Vo, Vc; by rewrite !decide_False by done]]].
  - split; intros x; unfold observed, copied; rewrite ?Vo, ?Vc; cbn [net]; fold m.
    + repeat case_decide; try congruence; subst; lra.
    + intros Hall. destruct (decide (x = m)) as [->|]; [|apply shrinks_refl]. apply Kc, Hall; [by left|done].
    + intros Hall. destruct (decide (x = m)) as [->|]; [|apply shrinks_refl]. apply Ko, Hall; [by left|done].
  - split; [|split; [done|]].
    + intros x. rewrite Hu, Ha. split; apply lots_put; try done; apply Hl.
    + intros x. unfold observed, copied. rewrite Vo, Vc. pose proof (Hroom x) as Hx. cbn [mass] in Hx. fold m in Hx.
      repeat case_decide; try congruence; subst; lra.
  - pose proof (Vo m) as Eo. pose proof (Vc m) as Ec. rewrite decide_True in Eo, Ec by done. unfold observed, copied.
    apply (spent_ext _ _ _ _ _ _ _ Ech) in Y. destruct Y as (c1 & d1 & o1 & d2 & Y1 & Y2 & Y3). exists c1, d1, o1, d2. split_and!; [done..|].
    destruct (signals f); rewrite Eo, Ec; exact Y3.
Qed.

Lemma fold_attributes fills a ch rf a' ch' rf' :
  exact_sizes a (admitted (applied_fills a) fills) ->
  fold_res (attribute_step c age b recovered) fills (a, ch, rf) = Ok (a', ch', rf') ->
  attributes (admitted (applied_fills a) fills) a a' /\ exact_sizes a' [] /\
  spent_by (admitted (applied_fills a) fills) (observed a) (copied a) (observed a') (copied a') /\
  (forall x, x ∈ ch -> x ∈ ch') /\ forall f, f ∈ admitted (applied_fills a) fills -> f_market f ∈ ch'.
Proof.
  revert a ch rf. induction fills as [|f fills IH]; intros a ch rf Hex H; cbn [fold_res] in H.
  { injection H as <- <- <-. split; [apply attributes_nil|]. split_and!; [done|by constructor|done|set_solver]. }
  destruct (attribute_step _ _ _ _ _ f) as [[[a1 ch1] rf1]|e] eqn:Es; [|done]. cbn [admitted] in *.
  case_bool_decide as Hin.
  { unfold attribute_step in Es. rewrite bool_decide_true in Es by done. injection Es as <- <- <-. by eapply IH. }
  destruct (step_attributes _ _ _ _ _ _ _ _ Hin Hex Es) as (Hab & Hex1 & Hsp & Hoth).
  pose proof (attribute_step_new _ _ _ _ _ _ _ Hin Es) as Hn. cbv zeta in Hn. destruct (split_fill _ _ _ _) as [o cp].
  destruct Hn as (_ & _ & Hap & Hm & Hch). rewrite <- Hap in *. destruct (IH _ _ _ Hex1 H) as (Hat & Hex' & Hsb & Hch1 & Hall).
  split; [by eapply attributes_cons|]. split; [done|]. split; [by eapply sb_fill|]. split; [auto|].
  intros g [->|Hg]%elem_of_cons; auto.
Qed.
End Batch.

(** ** What is durable of it *)

Lemma attributed_value k a current m :
  exact_sizes k a [] -> attributed_to a current m = true ->
  (observed a m + copied a m == dval (size_at current m))%Q.
Proof.
  intros (Hl & _ & Hroom). unfold attributed_to. rewrite deqb_spec. intros <-.
  destruct (add_room k (size_at (unattributed a) m) (size_at (attributable a) m) _ (proj1 (Hl m)) (proj2 (Hl m)) (Qle_refl _)) as (-> & _).
  - specialize (Hroom m). cbn [mass] in Hroom. unfold observed, copied in Hroom. lra.
  - reflexivity.
Qed.

(** C10. Attribution of source fills is exact, conservative and complete.  When sizes are
    whole lots that fit the 28 digits of the context, an accepted batch changes, in every
    market, the observed and the copied size together by exactly the signed sizes of the
    fills that were not yet remembered.  Each fill in its turn is paid by the copied size
    first, as far as it is opposite, then by the observed one, and what is left of it is
    copied if it may be, else observed.  So in a market without a fill that may be copied (all
    of them recovered too late after a gap, or the market denied) the copied size only
    shrinks towards zero, and where every fill may be copied the observed one does.  In every
    market of the batch the two add up to the source's own position, and nothing else of the
    slot changes but its waiting retries. *)
Theorem attribution_conserves c age b fills recovered k s s' refresh :
  let l := admitted (applied_fills (attribution s)) fills in
  exact_sizes k (attribution s) l ->
  attribute c age b fills recovered s = Ok (s', refresh) ->
  spent_by age b recovered l (observed (attribution s)) (copied (attribution s))
    (observed (attribution s')) (copied (attribution s')) /\
  attributes age b recovered l (attribution s) (attribution s') /\
  (l <> [] -> exists current, source_sizes s = Ok current /\ forall f, f ∈ l ->
     (observed (attribution s') (f_market f) + copied (attribution s') (f_market f) == dval (size_at current (f_market f)))%Q) /\
  exists retries, s' = on_pacing (set_retries retries) (set_attribution s (attribution s')).
Proof.
  intros l Hex H. unfold attribute in H. apply bind_Ok in H as ([[a' ch] rf] & Hfold & H).
  destruct (fold_attributes _ _ _ _ _ _ _ _ _ _ _ _ Hex Hfold) as (Hat & Hex' & Hsb & _ & Hch). fold l in Hat, Hsb, Hch.
  case_bool_decide as Ech.
  - injection H as <- <-. assert (l = []) as El.
    { destruct l as [|f t]; [done|]. specialize (Hch f). subst ch. set_solver. }
    rewrite El in *. split; [by constructor|]. split; [apply attributes_nil|]. split; [done|].
    exists (liquidity_retries (pacing s)). by destruct s as [? ? ? ? ? ? ? ? ? [] ?].
  - apply bind_Ok in H as (current & Hcur & H). destruct (forallb _ ch) eqn:Eall; [|done]. injection H as <- <-.
    split; [done|]. split; [done|]. split; [|by eexists]. intros _. exists current. split; [done|]. intros f Hf.
    apply attributed_value with k; [done|]. rewrite forallb_forall in Eall. apply Eall, list_elem_of_In, Hch, Hf.
Qed.

(** A buy of 0.6 that was recovered ten seconds late. *)
Definition late_fill : FillRecord :=
  AccountStream.MkFill "0x1" "BTC" "0xaa" "1" 1000 "buy" (Dec false 6 (-1)) (dint 100) None None 11000 1 false.

Definition partly_copying : Slot := example_slot_state [("BTC", Dec false 4 (-1))] [].

Lemma attribution_conserves_witness :
  exists s', attribute example_catalog 5000 example_bound [late_fill] (Some 11000) partly_copying = Ok (s', false) /\
    shrinks (copied (attribution partly_copying) "BTC") (copied (attribution s') "BTC") /\
    (observed (attribution s') "BTC" + copied (attribution s') "BTC" == 1)%Q.
Proof.
  destruct (attribute example_catalog 5000 example_bound [late_fill] (Some 11000) partly_copying) as [[s' rf]|e] eqn:E;
    [|by vm_compute in E].
  destruct (attribution_conserves example_catalog 5000 example_bound [late_fill] (Some 11000) 1 partly_copying s' rf) as (_ & Hat & Hcur & _).
  - split; [|split].
    + intros m. unfold size_at. cbn [partly_copying example_slot_state attribution unattributed attributable dict_get].
      split; [by exists 0|]. destruct (decide (m = "BTC")); [by exists 4|by exists 0].
    + repeat constructor. by exists 6.
    + intros m. unfold observed, copied, size_at. cbn [partly_copying example_slot_state attribution unattributed attributable dict_get].
      destruct (decide (m = "BTC")) as [->|Hne]; [by vm_compute|].
      change (mass m _) with (mass m [late_fill]). cbn [mass]. rewrite decide_False by (cbn; congruence). by vm_compute.
  - exact E.
  - assert (rf = false) as -> by (vm_compute in E; by injection E as _ <-).
    exists s'. split; [done|]. split.
    + apply (ab_copied _ _ _ _ _ _ Hat). intros f Hf _. change (f ∈ [late_fill]) in Hf.
      apply list_elem_of_singleton in Hf as ->. by vm_compute.
    + destruct Hcur as (current & Hc & Hsum); [by vm_compute|].
      rewrite (Hsum late_fill); [|by left]. vm_compute in Hc. by injection Hc as <-.
Defined.
