(* ===== verification/CheckpointFacts.v ===== *)
(** A restart keeps what the checkpoint holds. *)

From S2P Require Import Prelude PyDecimal DecimalFacts PyText TextFacts Models Markets ContinuousConfig MarketCatalog MarketStreamFacts Runtime RuntimeExample Checkpoint AttributionFacts.
From S2P Require AccountStream.
From Stdlib Require Import QArith.

Open Scope Z_scope.

(** * Reading a table *)

Section Table.
Context {V W : Type} (to_json : V -> json) (step : dict W -> string * json -> res (dict W)) (g : V -> W).
Hypothesis Hstep : forall acc k v, step acc (k, sort_keys (to_json v)) = Ok (dict_set k (g v) acc).

Lemma read_entries (e : dict V) acc : NoDup (dict_keys e) ->
  exists d, fold_res step ((fun kv => (kv.1, sort_keys (to_json kv.2))) <$> e) acc = Ok d /\
    forall k, dict_get k d = match dict_get k e with Some v => Some (g v) | None => dict_get k acc end.
Proof.
  revert acc. induction e as [|[k v] e IH]; intros acc Hnd; cbn [fmap list_fmap fold_res]; [by exists acc|].
  apply list.NoDup_cons in Hnd as [Hni Hnd]. cbn [fst snd]. rewrite Hstep.
  destruct (IH (dict_set k (g v) acc)) as (d & Hd & Hget); [done|].
  exists d. split; [done|]. intros k'. rewrite Hget. cbn [dict_get]. destruct (decide (k' = k)) as [->|Hne].
  - by rewrite (proj2 (dict_get_None k e) Hni), dict_get_set_eq.
  - by rewrite dict_get_set_ne.
Qed.

(** A table of values that was written, and is read again. *)
Lemma read_table (d : dict V) : NoDup (dict_keys d) ->
  exists o d', sort_keys (JObj (dict_items to_json d)) = JObj o /\ fold_res step o [] = Ok d' /\
    forall k, dict_get k d' = g <$> dict_get k d.
Proof.
  intros Hnd. rewrite sort_keys_obj. unfold dict_items. rewrite py_sorted_fmap by done.
  rewrite <- list_fmap_compose.
  destruct (read_entries (py_sorted field_leb d) []) as (d' & Hd & Hget); [by apply sorted_NoDup|].
  eexists _, d'. split; [reflexivity|]. split; [exact Hd|]. intros k. rewrite Hget, dict_get_sorted by done. by destruct (dict_get k d).
Qed.
End Table.

(** ** Sizes *)

Lemma read_text v : read_decimal (JStr (dec_str v)) = Ok v.
Proof. unfold read_decimal. cbn [py_str]. by rewrite decimal_str_roundtrip. Qed.

Lemma read_wire_decimal acc k v : read_entry read_decimal acc (k, sort_keys (JStr (dec_str v))) = Ok (dict_set k v acc).
Proof. unfold read_entry. cbn [sort_keys snd fst]. by rewrite read_text. Qed.

Lemma dict_get_nz (d : dict dec) k : NoDup (dict_keys d) ->
  dict_get k (nz d) = match dict_get k d with Some v => if truthy v then Some v else None | None => None end.
Proof.
  induction d as [|[k' v] d IH]; [done|]. intros [Hni Hnd]%list.NoDup_cons. unfold nz in *. cbn [List.filter dict_get snd].
  destruct (truthy v) eqn:Et; cbn [dict_get]; destruct (decide (k = k')) as [->|Hne]; auto; rewrite ?Et; try done.
  rewrite IH by done. by rewrite (proj2 (dict_get_None k' d) Hni).
Qed.

Lemma nz_NoDup (d : dict dec) : NoDup (dict_keys d) -> NoDup (dict_keys (nz d)).
Proof.
  induction d as [|[k v] d IH]; [done|]. intros [Hni Hnd]%list.NoDup_cons.
  change (nz ((k, v) :: d)) with (if truthy v then (k, v) :: nz d else nz d).
  destruct (truthy v); [|by apply IH]. cbn. apply list.NoDup_cons. split; [|by apply IH].
  intros Hin. apply Hni. apply list_elem_of_fmap in Hin as ([k' v'] & -> & Hin). apply list_elem_of_In, List.filter_In in Hin as [Hin _].
  apply list_elem_of_fmap. exists (k', v'). split; [done|]. by apply list_elem_of_In.
Qed.

(** The same sizes, a missing entry being no size. *)
Definition same_sizes (d d' : dict dec) : Prop := forall m, (dval (size_at d' m) == dval (size_at d m))%Q.

Lemma read_wire_decimals d : NoDup (dict_keys d) ->
  exists d', read_decimals (sort_keys (wire_decimals d)) = Ok d' /\ same_sizes d d' /\ (forall m, m ∈ dict_keys d' -> m ∈ dict_keys d).
Proof.
  intros Hnd. destruct (read_table (fun v => JStr (dec_str v)) (read_entry read_decimal) (fun v => v) read_wire_decimal (nz d))
    as (o & d' & Ho & Hd & Hget); [by apply nz_NoDup|].
  exists d'. split; [unfold wire_decimals; by rewrite Ho|]. split.
  - intros m. unfold size_at. rewrite Hget, dict_get_nz by done. destruct (dict_get m d) as [v|]; [|done].
    destruct (truthy v) eqn:E; [done|]. apply truthy_spec in E. cbn. by rewrite E, dval_zero.
  - intros m Hm. destruct (dict_get m d') as [v|] eqn:E; [|by apply dict_get_None in E].
    rewrite Hget, dict_get_nz in E by done. destruct (dict_get m d) as [w|] eqn:Ew; [|done].
    apply dict_get_Some_in in Ew. apply list_elem_of_fmap. by exists (m, w).
Qed.

(** ** Fills, triggers, revisions *)

Lemma sort_strs l : sort_keys (strs l) = strs l.
Proof. unfold strs. cbn [sort_keys]. f_equal. by rewrite <- list_fmap_compose. Qed.

Lemma read_written_fills l acc : NoDup (acc ++ l) -> fold_left read_fill (fill_payload <$> l) acc = acc ++ l.
Proof.
  revert acc. induction l as [|[[x y] z] l IH]; intros acc Hnd; cbn [fmap list_fmap fold_left]; [by rewrite app_nil_r|].
  cbn [fill_payload read_fill strs fmap list_fmap fst snd py_str].
  assert ((x, y, z) ∉ acc) as Hni.
  { intros Hin. apply list.NoDup_app in Hnd as (_ & H & _). apply (H _ Hin). by left. }
  rewrite bool_decide_false by done. rewrite IH; [by rewrite <- app_assoc|by rewrite <- app_assoc].
Qed.

Lemma last_n_NoDup {A} n (l : list A) : NoDup l -> NoDup (last_n n l).
Proof. intros H. rewrite <- (take_drop (List.length l - n) l) in H. by apply list.NoDup_app in H as (_ & _ & H). Qed.

Lemma read_fills_written l : NoDup l -> read_fills (Some (sort_keys (JList (fill_payload <$> l)))) = Ok l.
Proof.
  intros Hnd. cbn [sort_keys read_fills]. f_equal. rewrite <- list_fmap_compose.
  assert (forall l : list fill_id, (sort_keys ∘ fill_payload) <$> l = fill_payload <$> l) as ->.
  { intros l0. apply list_fmap_ext. intros _ f _. unfold compose, fill_payload. apply sort_strs. }
  by rewrite read_written_fills.
Qed.

Lemma read_written_trigger acc k t : read_trigger acc (k, sort_keys (trigger_payload t)) = Ok (dict_set k t acc).
Proof.
  unfold trigger_payload. rewrite sort_keys_obj.
  change (py_sorted field_leb _) with
    [("accepted_ms", JInt (tr_accepted_ms t)); ("price", JStr (dec_str (tr_price t))); ("time_ms", JInt (tr_time_ms t))].
  unfold read_trigger. cbn [fst snd fmap list_fmap sort_keys]. set (o := [_; _; _]).
  change (item_of "price" o) with (Ok (JStr (dec_str (tr_price t)))).
  change (item_of "time_ms" o) with (Ok (JInt (tr_time_ms t))).
  change (obj_get "accepted_ms" o) with (Some (JInt (tr_accepted_ms t))).
  cbn [mbind res_bind]. rewrite read_text. cbn. by destruct t.
Qed.

Lemma read_written_revision acc k n : read_entry read_revision acc (k, sort_keys (JInt n)) = Ok (dict_set k (Z.max 0 n) acc).
Proof. done. Qed.

(** ** Identity and pending markets *)

Lemma json_eqb_obj o o' : List.length o = List.length o' ->
  (forall k v, (k, v) ∈ o -> exists w, obj_get k o' = Some w /\ json_eqb v w = true) -> json_eqb (JObj o) (JObj o') = true.
Proof.
  intros Hl H. cbn [json_eqb]. rewrite Hl, Nat.eqb_refl. cbn [andb]. clear Hl.
  induction o as [|[k v] o IH]; [done|]. destruct (H k v) as (w & -> & ->); [by left|].
  apply IH. intros k' v' Hin. apply H. by right.
Qed.

Lemma identity_written (d : dict string) : NoDup (dict_keys d) ->
  json_eqb (sort_keys (JObj (dict_items JStr d))) (JObj (dict_items JStr d)) = true.
Proof.
  intros Hnd. rewrite sort_keys_obj. apply json_eqb_obj.
  - by rewrite length_fmap, length_py_sorted.
  - intros k v ([k' j] & [= -> ->] & Hin)%list_elem_of_fmap. apply elem_of_py_sorted in Hin.
    apply list_elem_of_fmap in Hin as ([k0 s0] & [= -> ->] & Hin). exists (JStr s0). cbn [fst snd].
    split; [|cbn; by apply bool_decide_true]. rewrite obj_get_dict. unfold dict_items. rewrite (dict_get_fmap JStr).
    by rewrite (dict_in_get _ s0).
Qed.

Lemma read_pending_written (ms : gset string) :
  (forall m, m ∈ ms -> canonical_market_symbol (JStr m) = Ok m) ->
  read_pending (Some (sort_keys (strs (py_sorted str_leb (elements ms))))) = Ok ms.
Proof.
  intros Hc. rewrite sort_strs. cbn [strs read_pending].
  assert (forall l : list string, mapM str_item (JStr <$> l) = Some l) as ->.
  { induction l as [|x l IH]; [done|]. cbn. by rewrite IH. }
  assert (forall l : list string, (forall m, m ∈ l -> m ∈ ms) ->
    map_res (fun m => canonical_market_symbol (JStr m)) l = Ok l) as Hm.
  { induction l as [|x l IH]; intros Hl; [done|]. cbn [map_res]. rewrite Hc by (apply Hl; by left).
    rewrite IH; [done|]. intros m Hin. apply Hl. by right. }
  rewrite Hm; [|intros m Hin; apply elem_of_py_sorted in Hin; set_solver]. cbn. f_equal.
  apply leibniz_equiv. intros m. rewrite elem_of_list_to_set, elem_of_py_sorted. set_solver.
Qed.

(** * Markets the catalog did not have *)

Section Settle.
Variables (c : CatalogRevision) (allowed : list string).

Lemma revision_named m : canonical_market_symbol (JStr m) = Ok m -> exists spec, revision_market m c = Ok spec.
Proof. unfold revision_market. change (canonical_market (JStr m)) with (canonical_market_symbol (JStr m)). intros ->. by eexists. Qed.

(** The market stays as it was stored: it is still allowed, still unknown, or was never pending. *)
Definition stays (l : list string) (m : string) : Prop :=
  forall spec, revision_market m c = Ok (Some spec) -> m ∈ allowed \/ m ∉ l.

Record settled (l : list string) (a a' : Attribution) : Prop := {
  st_sizes m : stays l m -> dict_get m (unattributed a') = dict_get m (unattributed a) /\
    dict_get m (attributable a') = dict_get m (attributable a) /\ dict_get m (triggers a') = dict_get m (triggers a);
  st_fills : applied_fills a' = applied_fills a;
  st_revisions : source_revisions a' = source_revisions a;
}.

Lemma settle_one m a rf : (exists spec, revision_market m c = Ok spec) ->
  exists a' rf', settle_pending c allowed (a, rf) m = Ok (a', rf') /\ settled [m] a a'.
Proof.
  intros [spec Hs]. unfold settle_pending. rewrite Hs. cbn [mbind res_bind]. destruct spec as [spec|].
  - case_bool_decide as Ha; eexists _, _; (split; [reflexivity|]); split; try done.
    intros x Hx. cbn. assert (m <> x) as Hne.
    { intros <-. destruct (Hx _ Hs) as [?|Hn]; [done|]. apply Hn. by left. }
    unfold put_size. rewrite !dict_get_del_ne by done. destruct (truthy _); [|by rewrite dict_get_del_ne].
    by rewrite dict_get_set_ne.
  - destruct (truthy _); eexists _, _; (split; [reflexivity|]); by split.
Qed.

Lemma settle_all l a rf : (forall m, m ∈ l -> exists spec, revision_market m c = Ok spec) ->
  exists a' rf', fold_res (settle_pending c allowed) l (a, rf) = Ok (a', rf') /\ settled l a a'.
Proof.
  revert a rf. induction l as [|m l IH]; intros a rf Hl; cbn [fold_res]; [exists a, rf; split; [done|by split]|].
  destruct (settle_one m a rf) as (a1 & rf1 & -> & H1); [apply Hl; by left|].
  destruct (IH a1 rf1) as (a' & rf' & -> & H2); [intros; apply Hl; by right|].
  exists a', rf'. split; [done|]. split.
  - intros x Hx. destruct (st_sizes _ _ _ H1 x) as (E1 & E2 & E3).
    { intros spec Hs. destruct (Hx spec Hs); [by left|right]; set_solver. }
    destruct (st_sizes _ _ _ H2 x) as (E4 & E5 & E6).
    { intros spec Hs. destruct (Hx spec Hs); [by left|right]; set_solver. }
    by rewrite E4, E5, E6.
  - rewrite (st_fills _ _ _ H2). apply (st_fills _ _ _ H1).
  - rewrite (st_revisions _ _ _ H2). apply (st_revisions _ _ _ H1).
Qed.

Lemma undiscovered_all (d : dict dec) acc : (forall m, m ∈ dict_keys d -> exists spec, revision_market m c = Ok spec) ->
  exists acc', fold_res (undiscovered c) d acc = Ok acc' /\ (forall m, m ∈ acc' -> m ∈ acc \/ revision_market m c = Ok None).
Proof.
  revert acc. induction d as [|[k v] d IH]; intros acc Hd; cbn [fold_res]; [exists acc; split; [done|by left]|].
  destruct (Hd k) as [spec Hs]; [by left|]. unfold undiscovered at 1. cbn [fst snd]. rewrite Hs. cbn [mbind res_bind].
  assert (forall acc1, (forall m, m ∈ acc1 -> m ∈ acc \/ revision_market m c = Ok None) ->
    exists acc', fold_res (undiscovered c) d acc1 = Ok acc' /\ (forall m, m ∈ acc' -> m ∈ acc \/ revision_market m c = Ok None)) as Hgo.
  { intros acc1 H1. destruct (IH acc1) as (acc' & -> & H2); [intros; apply Hd; by right|].
    exists acc'. split; [done|]. intros m [?|?]%H2; auto. }
  destruct (negb (truthy v)); [apply Hgo; auto|]. destruct spec as [spec|]; cbn [absent]; apply Hgo; [auto|].
  intros m [->%elem_of_singleton|?]%elem_of_union; auto.
Qed.
End Settle.

(** * A restart *)

(** Names and identities are unique, as the keys of a dictionary are. *)
Record durable (s : Slot) : Prop := {
  du_identity : NoDup (dict_keys (slot_identity s));
  du_source : NoDup (dict_keys (default [] (expected_source s)));
  du_observed : NoDup (dict_keys (unattributed (attribution s)));
  du_copied : NoDup (dict_keys (attributable (attribution s)));
  du_triggers : NoDup (dict_keys (triggers (attribution s)));
  du_revisions : NoDup (dict_keys (source_revisions (attribution s)));
  du_fills : NoDup (applied_fills (attribution s));
  du_names m : m ∈ pending_catalog_markets (attribution s) \/ m ∈ dict_keys (attributable (attribution s)) ->
    canonical_market_symbol (JStr m) = Ok m;
}.

(** What of the stopped slot [s] the restored slot [s'] has. *)
Record survives (c : CatalogRevision) (allowed : list string) (s s' : Slot) : Prop := {
  sv_source : same_sizes (default [] (expected_source s)) (default [] (expected_source s'));
  sv_sizes m : stays c allowed (elements (pending_catalog_markets (attribution s))) m ->
    (observed (attribution s') m == observed (attribution s) m)%Q /\ (copied (attribution s') m == copied (attribution s) m)%Q /\
    dict_get m (triggers (attribution s')) = dict_get m (triggers (attribution s));
  sv_fills : applied_fills (attribution s') = last_n 512 (applied_fills (attribution s));
  sv_revisions m : dict_get m (source_revisions (attribution s')) = Z.max 0 <$> dict_get m (source_revisions (attribution s));
  sv_baselined : ever_baselined (gate s') = true /\ source_ready (gate s') = false;
  sv_nonflat : initial_follower_nonflat (gate s') = initial_follower_nonflat (gate s);
  sv_stop : state (gate s') = OPERATOR_STOP <-> state (gate s) = OPERATOR_STOP;
  sv_pause : state (gate s) = PAUSE_ENTRIES -> operator_paused (gate s') = true;
  sv_latch why : fail_close_reason (gate s) = Some why -> py_strip why <> "" ->
    fail_close_reason (gate s') = Some (py_strip why) /\ operator_paused (gate s') = true;
}.

(** The fields of a payload, read back. *)
Lemma payload_fields s p : payload s = Ok p ->
  NoDup (dict_keys p) /\ exists f, follower_payload (follower s) = Ok f /\
  let field k := obj_get k ((fun kv => (kv.1, sort_keys kv.2)) <$> py_sorted field_leb p) in
  field "identity" = Some (sort_keys (JObj (dict_items JStr (slot_identity s)))) /\
  field "state" = Some (JStr (RuntimeState_value (state (gate s)))) /\
  field "source" = Some (sort_keys (wire_decimals (default [] (expected_source s)))) /\
  field "unattributed" = Some (sort_keys (wire_decimals (unattributed (attribution s)))) /\
  field "attributable" = Some (sort_keys (wire_decimals (attributable (attribution s)))) /\
  field "pending_catalog_markets" = Some (sort_keys (strs (py_sorted str_leb (elements (pending_catalog_markets (attribution s)))))) /\
  field "fills" = Some (sort_keys (JList (fill_payload <$> last_n 512 (applied_fills (attribution s))))) /\
  field "triggers" = Some (sort_keys (JObj (dict_items trigger_payload (by_market (triggers (attribution s)))))) /\
  field "source_revisions" = Some (sort_keys (JObj (dict_items JInt (by_market (source_revisions (attribution s)))))) /\
  field "initial_follower_nonflat" = Some (JBool (initial_follower_nonflat (gate s))) /\
  field "fail_close_reason" = Some (option_json (fail_close_reason (gate s))) /\
  field "follower" = Some (sort_keys f).
Proof.
  unfold payload. intros (f & Hf & [= <-])%bind_Ok. split; [by apply (bool_decide_unpack _)|].
  exists f. split; [done|]. cbv zeta.
  assert (sort_keys (option_json (fail_close_reason (gate s))) = option_json (fail_close_reason (gate s))) as Ho
    by (by destruct (fail_close_reason _)).
  split_and!; rewrite sorted_field by (by apply (bool_decide_unpack _)); cbn [fmap option_fmap option_map]; try reflexivity.
  transitivity (Some (sort_keys (option_json (fail_close_reason (gate s))))); [reflexivity|by rewrite Ho].
Qed.

Lemma read_follower s f : follower_payload (follower s) = Ok f ->
  (forall t, follower s = Some t -> exists ps, sizes (ft_positions t) = Ok ps /\ NoDup (dict_keys ps)) ->
  forall p prior, obj_get "follower" p = Some (sort_keys f) -> exists r, restored_follower p prior = Ok r.
Proof.
  intros Hf Hnd p prior Hp. unfold restored_follower, obj_field. rewrite Hp. cbn [default].
  unfold follower_payload in Hf. destruct (follower s) as [t|]; [|injection Hf as <-; by eexists].
  destruct (Hnd t eq_refl) as (ps & Hps & Hn). rewrite Hps in Hf. injection Hf as <-.
  rewrite sort_keys_obj. change (py_sorted field_leb _) with
    [("equity", JStr (dec_str (ft_equity t))); ("observed_ms", JInt (ft_observed_ms t)); ("positions", wire_decimals ps)].
  cbn [fmap list_fmap]. set (o := [_; _; _]).
  destruct (read_wire_decimals ps Hn) as (d & Hd & _). exists (Some d).
  transitivity (positions ← read_decimals (sort_keys (wire_decimals ps)); Ok (Some positions)); [reflexivity|by rewrite Hd].
Qed.

(** The keys of [sizes] are unique. *)
Lemma sizes_unique ps r : sizes ps = Ok r -> NoDup (dict_keys r).
Proof.
  unfold sizes. assert (NoDup (dict_keys (@nil (string * dec)))) as H0 by constructor. revert H0. generalize (@nil (string * dec)) as acc.
  induction ps as [|mp ps IH]; intros acc Hnd; cbn [fold_res]; [by intros [= <-]|].
  destruct (sizes_step acc mp) as [acc'|] eqn:E; [|done]. apply IH. unfold sizes_step in E.
  destruct (truthy _); res_inv; auto with copytrader.
Qed.

Lemma state_value_inj a b : RuntimeState_value a = RuntimeState_value b -> a = b.
Proof. by destruct a, b. Qed.

(** The gate that is restored from the fields of the payload. *)
Lemma gate_survives p s s0 :
  obj_get "state" p = Some (JStr (RuntimeState_value (state (gate s)))) ->
  obj_get "fail_close_reason" p = Some (option_json (fail_close_reason (gate s))) ->
  state (gate s0) <> OPERATOR_STOP ->
  let g := restore_state p (restore_fail_close p (restored_gate (initial_follower_nonflat (gate s)) (gate s0))) in
  (ever_baselined g = true /\ source_ready g = source_ready (gate s0)) /\
  initial_follower_nonflat g = initial_follower_nonflat (gate s) /\
  (state g = OPERATOR_STOP <-> state (gate s) = OPERATOR_STOP) /\
  (state (gate s) = PAUSE_ENTRIES -> operator_paused g = true) /\
  (forall why, fail_close_reason (gate s) = Some why -> py_strip why <> "" ->
    fail_close_reason g = Some (py_strip why) /\ operator_paused g = true).
Proof.
  intros Hst Hfc Hne g. unfold g, restore_state, restore_fail_close, obj_field. rewrite Hst, Hfc. cbn [from_option id].
  assert (str_or_empty (JStr (RuntimeState_value (state (gate s)))) = RuntimeState_value (state (gate s))) as -> by (by destruct (state (gate s))).
  set (g1 := match option_json (fail_close_reason (gate s)) with JStr r => _ | _ => _ end).
  assert (ever_baselined g1 = true /\ source_ready g1 = source_ready (gate s0) /\ state g1 = state (gate s0) /\
    initial_follower_nonflat g1 = initial_follower_nonflat (gate s) /\
    forall why, fail_close_reason (gate s) = Some why -> py_strip why <> "" ->
      fail_close_reason g1 = Some (py_strip why) /\ operator_paused g1 = true) as (G1 & G2 & G3 & G4 & G5).
  { unfold g1. destruct (fail_close_reason (gate s)) as [r|]; cbn [option_json]; [|by split_and!].
    destruct (is_empty (py_strip r)) eqn:Er; split_and!; try done; intros why [= <-]; [|done].
    by destruct (py_strip r). }
  set (g2 := if bool_decide (_ = RuntimeState_value OPERATOR_STOP) then _ else _).
  assert (g2 = match state (gate s) with
               | OPERATOR_STOP => set_state g1 OPERATOR_STOP "restored operator stop"
               | PAUSE_ENTRIES => set_paused g1 true
               | _ => g1
               end) as -> by (unfold g2; by destruct (state (gate s))).
  clear Hst. destruct (state (gate s)); cbn; split_and!; try done; rewrite ?G3; try (split; congruence).
  intros why H1 H2. destruct (G5 why H1 H2). by split.
Qed.

Section Restart.
Variables (loads : string -> option json) (c : CatalogRevision) (allowed : list string) (s s0 : Slot).
Hypotheses (Hs : durable s) (Hid : slot_identity s0 = slot_identity s)
  (Hne : state (gate s0) <> OPERATOR_STOP) (Hnr : source_ready (gate s0) = false).

(** The attribution that is read, before the pending markets are settled. *)
Lemma attribution_read o : 
  obj_get "unattributed" o = Some (sort_keys (wire_decimals (unattributed (attribution s)))) ->
  obj_get "attributable" o = Some (sort_keys (wire_decimals (attributable (attribution s)))) ->
  obj_get "fills" o = Some (sort_keys (JList (fill_payload <$> last_n 512 (applied_fills (attribution s))))) ->
  obj_get "triggers" o = Some (sort_keys (JObj (dict_items trigger_payload (by_market (triggers (attribution s)))))) ->
  obj_get "source_revisions" o = Some (sort_keys (JObj (dict_items JInt (by_market (source_revisions (attribution s)))))) ->
  exists un att tr rv,
    read_decimals (obj_field "unattributed" o) = Ok un /\ same_sizes (unattributed (attribution s)) un /\
    read_decimals (obj_field "attributable" o) = Ok att /\ same_sizes (attributable (attribution s)) att /\
    (forall m, m ∈ dict_keys att -> m ∈ dict_keys (attributable (attribution s))) /\
    read_fills (obj_get "fills" o) = Ok (last_n 512 (applied_fills (attribution s))) /\
    read_triggers (obj_field "triggers" o) = Ok tr /\ (forall m, dict_get m tr = dict_get m (triggers (attribution s))) /\
    read_items read_revision (obj_field "source_revisions" o) = Ok rv /\
    (forall m, dict_get m rv = Z.max 0 <$> dict_get m (source_revisions (attribution s))).
Proof.
  intros H1 H2 H3 H4 H5. unfold obj_field. rewrite H1, H2, H3, H4, H5. cbn [from_option id].
  destruct (read_wire_decimals _ (du_observed _ Hs)) as (un & Hun & Hsun & _).
  destruct (read_wire_decimals _ (du_copied _ Hs)) as (att & Hatt & Hsatt & Hkeys).
  destruct (read_table trigger_payload read_trigger (fun t => t) read_written_trigger (by_market (triggers (attribution s))))
    as (o1 & tr & Ho1 & Htr & Hgtr); [by apply sorted_NoDup, du_triggers|].
  destruct (read_table JInt (read_entry read_revision) (Z.max 0) read_written_revision (by_market (source_revisions (attribution s))))
    as (o2 & rv & Ho2 & Hrv & Hgrv); [by apply sorted_NoDup, du_revisions|].
  exists un, att, tr, rv. rewrite Ho1, Ho2. split_and!; try done.
  - by apply read_fills_written, last_n_NoDup, du_fills.
  - intros m. rewrite Hgtr, <- (dict_get_sorted (triggers (attribution s))) by apply Hs. by destruct (dict_get m _).
  - intros m. rewrite Hgrv. f_equal. apply (dict_get_sorted (source_revisions (attribution s))), Hs.
Qed.

(** C13. A restart keeps what a checkpoint holds.  When a slot was saved, and the text is read
    back as [json.loads] reads what [json.dumps] wrote, loading and restoring it into a new
    slot with the same identity never fails.  The last trusted source sizes, the observed and
    the copied sizes, the triggers, the source revisions and the newest 512 fill identities
    are the saved ones, for every market that was not waiting for the catalog, is still
    unknown to it or may be copied.  The restored slot does not trust its source yet, an
    operator stop stays a stop and nothing else becomes one, a pause stays a pause, and a
    fail-close latch stays latched. *)
Theorem checkpoint_survives_restart db db' :
  save s db = Ok db' ->
  (forall p, payload s = Ok p -> loads (encode p) = Some (sort_keys (JObj p))) ->
  exists o s' refresh,
    load loads (slot (config (bound s))) db' = Ok (Some o) /\
    restore c allowed (Some o) s0 = Ok (s', refresh, false) /\ survives c allowed s s'.
Proof.
  intros Hsave Hloads. unfold save in Hsave. apply bind_Ok in Hsave as (p & Hp & [= <-]).
  pose proof (Hloads p Hp) as Hl. rewrite sort_keys_obj in Hl.
  destruct (payload_fields s p Hp) as (_ & f & Hf & F1 & F2 & F3 & F4 & F5 & F6 & F7 & F8 & F9 & F10 & F11 & F12). cbv zeta in *.
  set (o := (fun kv => (kv.1, sort_keys kv.2)) <$> py_sorted field_leb p) in *.
  destruct (attribution_read o F4 F5 F7 F8 F9) as (un & att & tr & rv & Run & Sun & Ratt & Satt & Katt & Rf & Rtr & Gtr & Rrv & Grv).
  destruct (read_wire_decimals _ (du_source _ Hs)) as (src & Rsrc & Ssrc & _).
  destruct (read_follower s f Hf (fun t Ht => ltac:(unfold follower_payload in Hf; rewrite Ht in Hf;
    apply bind_Ok in Hf as (ps & Hps & _); exists ps; split; [exact Hps|by eapply sizes_unique])) o (restored_follower_positions s0) F12)
    as (rf & Rrf).
  assert (exists pend, (if dynamic_market_eligibility (bound s0) then fold_res (undiscovered c) att (pending_catalog_markets (attribution s))
      else Ok (pending_catalog_markets (attribution s))) = Ok pend /\
      forall m, m ∈ pend -> m ∈ pending_catalog_markets (attribution s) \/ revision_market m c = Ok None) as (pend & Rp & Kp).
  { destruct (dynamic_market_eligibility _); [|eexists; split; [done|by left]].
    apply undiscovered_all. intros m Hm. apply revision_named, (du_names _ Hs). right. by apply Katt. }
  destruct (settle_all c allowed (elements pend)
    (MkAttribution un att ∅ (last_n 512 (applied_fills (attribution s))) tr rv) false) as (a' & refresh & Rst & St).
  { intros m Hm%elem_of_elements. destruct (Kp m Hm) as [Hin|Hn]; [|by eexists]. apply revision_named, (du_names _ Hs). by left. }
  pose proof (gate_survives o s s0 F2 F11 Hne) as (G1 & G2 & G3 & G4 & G5). cbv zeta in *.
  eexists o, _, refresh. split; [unfold load; rewrite dict_get_set_eq; cbn [negb]; by rewrite Hl|]. split.
  - unfold restore, obj_field. rewrite F1, F3, F6. cbn [from_option id]. unfold stored_identity_ok.
    rewrite Hid, (identity_written _ (du_identity _ Hs)). cbn [mbind res_bind]. rewrite Rsrc. cbn [mbind res_bind].
    fold (obj_field "unattributed" o) (obj_field "attributable" o) (obj_field "triggers" o) (obj_field "source_revisions" o).
    rewrite Run. cbn [mbind res_bind]. rewrite Ratt. cbn [mbind res_bind].
    rewrite read_pending_written by (intros; apply (du_names _ Hs); by left). cbn [mbind res_bind]. rewrite Rp. cbn [mbind res_bind].
    rewrite Rrf. cbn [mbind res_bind]. rewrite Rf. cbn [mbind res_bind]. rewrite Rtr. cbn [mbind res_bind].
    rewrite Rrv. cbn [mbind res_bind]. rewrite Rst. cbn [mbind res_bind fst snd].
    rewrite F10. reflexivity.
  - split; cbn [attribution gate expected_source set_restored set_expected set_attribution set_gate on_gate from_option id]; auto.
    + intros m Hm. destruct (st_sizes _ _ _ _ _ St m) as (E1 & E2 & E3).
      { intros spec Hspec. destruct (Hm spec Hspec) as [?|Hni]; [by left|right]. intros Hin%elem_of_elements.
        destruct (Kp m Hin) as [?|Hn]; [|congruence]. apply Hni. by apply elem_of_elements. }
      unfold observed, copied, size_at. rewrite E1, E2, E3. split_and!; [apply Sun|apply Satt|apply Gtr].
    + apply (st_fills _ _ _ _ _ St).
    + intros m. rewrite (st_revisions _ _ _ _ _ St). apply Grv.
    + rewrite Hnr in G1. exact G1.
Qed.
End Restart.

(** A slot whose fail-close latch is set, and the slot a restart makes for it. *)
Definition latched : Slot := on_gate (fun g => set_state (set_fail_close g (Some "limit")) PAUSE_ENTRIES "fail-close: limit") copying.
Definition restarted : Slot :=
  MkRuntimeSlot example_bound (example_source 5000) (lane copying) [] (MkGate RECOVERING "startup" false false false false None None)
    None (MkAttribution [] [] ∅ [] [] []) None None (MkPacing [] [] []) 0.

Lemma checkpoint_survives_restart_witness :
  exists loads db' o s' refresh,
    save latched [] = Ok db' /\ load loads "slot-1" db' = Ok (Some o) /\
    restore example_catalog ["BTC"] (Some o) restarted = Ok (s', refresh, false) /\
    (copied (attribution s') "BTC" == 1)%Q /\ fail_close_reason (gate s') = Some "limit".
Proof.
  set (p := match payload latched with Ok p => p | Raise _ => [] end).
  destruct (save latched []) as [db'|e] eqn:E; [|by vm_compute in E].
  destruct (checkpoint_survives_restart (fun _ => Some (sort_keys (JObj p))) example_catalog ["BTC"] latched restarted)
    with (db := @nil (string * (Z * string))) (db' := db') as (o & s' & refresh & Hl & Hr & Hsv).
  - split; try (by apply (bool_decide_unpack _); vm_compute).
    intros m [Hm|Hm]; [set_solver|]. apply list_elem_of_singleton in Hm as ->. by vm_compute.
  - reflexivity.
  - done.
  - done.
  - exact E.
  - intros q Hq. unfold p. by rewrite Hq.
  - exists (fun _ => Some (sort_keys (JObj p))), db', o, s', refresh. split_and!; try done.
    + destruct (sv_sizes _ _ _ _ Hsv "BTC") as (_ & -> & _); [|by vm_compute]. intros spec _. left. by left.
    + apply (sv_latch _ _ _ _ Hsv "limit"); [done|by vm_compute].
Defined.
