(* ===== verification/ReconcileFacts.v ===== *)
(** Follower truth is adopted only while nothing overlaps it; and what a lost
    transport or a refused market leaves behind. *)

From S2P Require Import Prelude PyDecimal PyText Models Markets ContinuousConfig MarketCatalog MarketStream MarketStreamFacts Runtime Checkpoint RuntimePlan RuntimeDrive RuntimeFold RuntimeEvents RuntimeReconcile RuntimeExample.
From S2P Require AccountStream DesiredEngine ActionJournal WsActions Executor.

Open Scope Z_scope.

(** * What a command leaves of a slot *)

(** Follower and revision of the slot are those of before. *)
Definition same_follower (id : string) (r r' : Runtime) : Prop :=
  forall s', slot_of id r' = Ok s' -> exists s, slot_of id r = Ok s /\ follower s' = follower s /\ truth_revision s' = truth_revision s.

Lemma same_follower_refl id r : same_follower id r r.
Proof. intros s Hs. by exists s. Qed.

Lemma slot_put id s r : slot_of id (put_slot id s r) = Ok s.
Proof. unfold slot_of, put_slot. cbn. by rewrite dict_get_set_eq. Qed.

Lemma change_block id why r r' u : change id (block why) r = (r', Ok u) -> same_follower id r r'.
Proof.
  unfold change, jmodify. intros [= <- _] s' Hs'. unfold on_slot in Hs'.
  destruct (dict_get id (rt_slots r)) as [s|] eqn:E; [|exists s'; by split_and!].
  rewrite slot_put in Hs'. injection Hs' as <-. exists s. unfold slot_of. by rewrite E.
Qed.

Lemma report_state id why accepted r r' d : report id why accepted r = (r', Ok d) -> r' = r.
Proof. unfold report. by intros (s & r1 & [-> _]%jquery_Ok & [= <- _])%jbind_Ok. Qed.

Lemma report_reason_state id accepted r r' d : report_reason id accepted r = (r', Ok d) -> r' = r.
Proof. unfold report_reason. by intros (s & r1 & [-> _]%jquery_Ok & H%report_state)%jbind_Ok. Qed.

Lemma failed_follower id e r r' d : failed id e r = (r', Ok d) -> same_follower id r r'.
Proof. unfold failed. by intros (u & r1 & H1 & ->%report_reason_state)%jbind_Ok; apply change_block in H1. Qed.

Lemma save_slot_slots id r r' u : save_slot id r = (r', Ok u) -> rt_slots r' = rt_slots r.
Proof. unfold save_slot. destruct (_ ≫= _); [by intros [= <- _]|done]. Qed.

(** * The last locked part of a reconciliation *)

Lemma adopt_truth_follower f s s' u : adopt_truth f s = (s', Ok u) -> follower s' = Some f /\ truth_revision s' = truth_revision s + 1.
Proof.
  unfold adopt_truth. cbv zeta. destruct (nonflat_after _ _ _); [|done]. intros [= <- _]. by destruct (absent _).
Qed.

Lemma adopted id epoch revision now_ms t r r' :
  finish_reconcile id epoch revision now_ms t r = (r', Ok None) ->
  WsActions.connection_epoch (rt_mux r) = Some epoch /\
  exists s f s', slot_of id r = Ok s /\ truth_revision s = revision /\
    truth (rt_catalog r) (bound s) (allowed_of id r) t now_ms = Ok f /\
    slot_of id r' = Ok s' /\ follower s' = Some f /\ truth_revision s' = revision + 1.
Proof.
  unfold finish_reconcile, WsActions.capture_epoch.
  destruct (WsActions.connection_epoch (rt_mux r)) as [current|].
  2: { intros H. by apply jbind_Ok in H as (? & ? & _ & [= _ ?]). }
  destruct (Z.eqb_spec current epoch) as [->|Hne]; cbn [negb].
  2: { intros H. apply jbind_Ok in H as (? & ? & _ & H). by apply jbind_Ok in H as (? & ? & _ & [= _ ?]). }
  destruct (slot_of id r) as [s|e] eqn:Hs; [|done].
  destruct (Z.eqb_spec (truth_revision s) revision) as [<-|Hne]; cbn [negb].
  2: { intros H. by apply jbind_Ok in H as (? & ? & _ & [= _ ?]). }
  destruct (truth _ _ _ _ _) as [f|e] eqn:Hf.
  2: { intros H. by apply jbind_Ok in H as (? & ? & _ & [= _ ?]). }
  intros H. apply jbind_Ok in H as (u & r1 & H1 & H). apply jbind_Ok in H as (u' & r2 & H2%save_slot_slots & [= <-]).
  split; [done|]. unfold in_slot, on_slot_st in H1. rewrite Hs in H1.
  destruct (adopt_truth f s) as [s' res'] eqn:Ha. injection H1 as <- ->. apply adopt_truth_follower in Ha as [Ha1 Ha2].
  exists s, f, s'. split_and!; try done. unfold slot_of. rewrite H2. cbn. by rewrite dict_get_set_eq.
Qed.

Lemma not_adopted id epoch revision now_ms t r r' d :
  finish_reconcile id epoch revision now_ms t r = (r', Ok (Some d)) -> same_follower id r r'.
Proof.
  unfold finish_reconcile. destruct (WsActions.capture_epoch _) as [current|e].
  2: { intros (? & ? & H%failed_follower & [= <- _])%jbind_Ok. done. }
  destruct (current =? epoch); cbn [negb].
  2: { intros H. apply jbind_Ok in H as (? & ? & H1%change_block & H). by apply jbind_Ok in H as (? & ? & ->%report_reason_state & [= <- _]). }
  destruct (slot_of id r) as [s|e] eqn:Hs; [|done]. destruct (truth_revision s =? revision); cbn [negb].
  2: { intros (? & ? & ->%report_state & [= <- _])%jbind_Ok. apply same_follower_refl. }
  destruct (truth _ _ _ _ _) as [f|e].
  2: { intros (? & ? & H%failed_follower & [= <- _])%jbind_Ok. done. }
  intros H. apply jbind_Ok in H as (? & ? & _ & H). by apply jbind_Ok in H as (? & ? & _ & [= _ ?]).
Qed.

Lemma reconcile_deferred loads drive_slot info hook meanwhile1 meanwhile2 id now_ms clock driven r s :
  slot_of id r = Ok s -> state (gate s) <> OPERATOR_STOP -> reserved id r = true ->
  exists d, reconcile_follower loads drive_slot info hook meanwhile1 meanwhile2 id now_ms clock driven r = (r, Ok d) /\
    dp_reason d = "follower refresh deferred during in-flight action".
Proof.
  intros Hs Hne Hr. unfold reconcile_follower, jbind, slot_now, jquery. rewrite Hs, bool_decide_false by done.
  rewrite Hr. unfold report, jbind, slot_now, jquery. rewrite Hs. by eexists.
Qed.

(** C11. Follower truth never overlaps an action.  While an order of the slot is reserved a
    reconciliation changes nothing at all, whatever the hooks would answer, and reserving an
    order moves the truth revision of its slot on.  When, by the end of the reading, the
    transport has another epoch or another task moved the revision, the slot keeps exactly the
    follower truth and the revision that the other tasks left, and so it does when the recovery
    of its actions was overtaken.  Otherwise the truth that is adopted is the validated answer
    of the hook, and it moves the revision on in its turn. *)
Theorem follower_truth_guarded loads drive_slot info hook meanwhile1 meanwhile2 id now_ms clock driven r s :
  slot_of id r = Ok s -> state (gate s) <> OPERATOR_STOP ->
  let reconcile := reconcile_follower loads drive_slot info hook meanwhile1 meanwhile2 id now_ms clock driven r in
  (reserved id r = true -> exists d, reconcile = (r, Ok d) /\ dp_reason d = "follower refresh deferred during in-flight action") /\
  (forall a, exists s', slot_of id (on_slot id bump_truth (set_reservations r (dict_set id a (reservations r)))) = Ok s' /\
     truth_revision s' = truth_revision s + 1) /\
  (reserved id r = false -> forall epoch records revision rs, start_reconcile id clock r = (rs, Ok (epoch, records, revision)) ->
     (forall ra, read_truth info hook meanwhile1 meanwhile2 id epoch clock revision records rs = (ra, Ok None) ->
        forall r' d, reconcile = (r', Ok d) -> same_follower id ra r') /\
     (forall revision2 t rb s2,
        read_truth info hook meanwhile1 meanwhile2 id epoch clock revision records rs = (rb, Ok (Some (revision2, t))) ->
        slot_of id rb = Ok s2 ->
        ((WsActions.connection_epoch (rt_mux rb) <> Some epoch \/ truth_revision s2 <> revision2) ->
           forall r' d, reconcile = (r', Ok d) -> same_follower id rb r') /\
        (forall rc, finish_reconcile id epoch revision2 now_ms t rb = (rc, Ok None) -> exists f s3,
           truth (rt_catalog rb) (bound s2) (allowed_of id rb) t now_ms = Ok f /\
           slot_of id rc = Ok s3 /\ follower s3 = Some f /\ truth_revision s3 = revision2 + 1))).
Proof.
  intros Hs Hne reconcile.
  split; [|split].
  - intros Hr. by eapply reconcile_deferred.
  - intros a. exists (bump_truth s). split; [|done]. unfold on_slot. cbn [rt_slots set_reservations].
    unfold slot_of in Hs. destruct (dict_get id (rt_slots r)); [|done]. injection Hs as ->. apply slot_put.
  - intros Hr epoch records revision rs Hstart. split.
    + intros ra Hread r' d H. unfold reconcile, reconcile_follower, jbind, slot_now, jquery in H.
      rewrite Hs, bool_decide_false in H by done. rewrite Hr, Hstart, Hread in H.
      apply report_state in H as ->. apply same_follower_refl.
    + intros revision2 t rb s2 Hread Hs2. split.
      * intros Hover r' d H. unfold reconcile, reconcile_follower in H. unfold jbind at 1 2 3, slot_now, jquery in H.
        rewrite Hs, bool_decide_false in H by done. rewrite Hr, Hstart, Hread in H.
        apply jbind_Ok in H as ([d'|] & rc & Hfin & H).
        { injection H as <- _. by eapply not_adopted. }
        apply adopted in Hfin as (Hep & s3 & f & s4 & Hs3 & Hrev & _). rewrite Hs2 in Hs3. injection Hs3 as <-.
        destruct Hover; congruence.
      * intros rc Hfin. apply adopted in Hfin as (_ & s3 & f & s4 & Hs3 & _ & Hf & Hs4 & Hf4 & Hr4).
        rewrite Hs2 in Hs3. injection Hs3 as <-. by exists f, s4.
Qed.

(** A truth that another task's action overtakes. *)
Definition example_truth : RawTruth := MkRawTruth [("BTC", MkPosition "BTC" (Fin (dint 1)) None (Some 3) 1004)] (Fin (dint 1000)) 1004 [] None.
Definition overtaken (driven : bool) : Runtime * res Dispatch :=
  reconcile_follower (fun _ => None) (fun _ => jret (None, "")) (fun _ => jraise (ValueError "unused")) (fun _ => Ok example_truth)
    (fun r => r) (on_slot "slot-1" bump_truth) "slot-1" 1004 1004 driven (example_runtime connected copying).

Lemma follower_truth_guarded_witness : exists r' d s',
  overtaken true = (r', Ok d) /\ slot_of "slot-1" r' = Ok s' /\ follower s' = follower copying /\ truth_revision s' = 1.
Proof.
  destruct (follower_truth_guarded (fun _ => None) (fun _ => jret (None, "")) (fun _ => jraise (ValueError "unused")) (fun _ => Ok example_truth)
    (fun r => r) (on_slot "slot-1" bump_truth) "slot-1" 1004 1004 true (example_runtime connected copying) copying) as (_ & _ & H);
    [done|done|].
  destruct (overtaken true) as [r' [d|e]] eqn:E; [|by vm_compute in E].
  destruct (start_reconcile "slot-1" 1004 (example_runtime connected copying)) as [rs [[[epoch records] revision]|e]] eqn:Es;
    [|by vm_compute in Es].
  destruct (H eq_refl epoch records revision rs eq_refl) as [_ H2].
  destruct (read_truth (fun _ => jraise (ValueError "unused")) (fun _ => Ok example_truth) (fun r => r) (on_slot "slot-1" bump_truth)
    "slot-1" epoch 1004 revision records rs) as [rb [[[revision2 t]|]|e]] eqn:Er.
  2, 3: vm_compute in Es; injection Es as <- <- <- <-; by vm_compute in Er.
  destruct (slot_of "slot-1" rb) as [s2|e] eqn:Es2.
  2: { vm_compute in Es; injection Es as <- <- <- <-. vm_compute in Er. injection Er as <- _ _. by vm_compute in Es2. }
  destruct (H2 revision2 t rb s2 eq_refl Es2) as [Hdiscard _].
  assert (truth_revision s2 = 1 /\ revision2 = 0 /\ follower s2 = follower copying) as (E1 & E2 & E3).
  { vm_compute in Es; injection Es as <- <- <- <-. vm_compute in Er. injection Er as <- <- _. vm_compute in Es2. by injection Es2 as <-. }
  destruct (slot_of "slot-1" r') as [s'|e] eqn:Es'; [|vm_compute in E; injection E as <- _; by vm_compute in Es'].
  assert (truth_revision s2 <> revision2) as Hne by (by rewrite E1, E2).
  destruct (Hdiscard (or_intror Hne) r' d E s' Es') as (s3 & Hs3 & Hf & Hr).
  rewrite Es2 in Hs3. injection Hs3 as <-. exists r', d, s'. split_and!; [done|done|by rewrite Hf|by rewrite Hr].
Defined.

(** * A reservation that is never released *)

(** The transport is down when the order is reserved: [capture_epoch] raises after the
    reservation was written, and nothing on that path takes it back.  Nothing is sent, but
    from then on every reconciliation of the slot defers to an action in flight, also once
    the transport is back. *)
Theorem disconnected_drive_leaves_reservation execute meanwhile order_clocks :
  exists r' out,
    safe "slot-1" (drive (fun x => x) (fun _ => None) execute meanwhile example_clocks order_clocks "slot-1" 1003 false)
      (example_runtime WsActions.new_mux copying) = (r', Ok out) /\
    rt_journal r' = ActionJournal.empty_db /\
    forall mux loads drive_slot info hook meanwhile1 meanwhile2 now_ms clock driven, exists d,
      reconcile_follower loads drive_slot info hook meanwhile1 meanwhile2 "slot-1" now_ms clock driven (set_mux r' mux)
        = (set_mux r' mux, Ok d) /\
      dp_reason d = "follower refresh deferred during in-flight action".
Proof.
  destruct (plan_drive (fun x => x) (fun _ => None) example_clocks "slot-1" 1003 false (example_runtime WsActions.new_mux copying))
    as [r1 [x|e]] eqn:Ep; [by vm_compute in Ep|].
  unfold safe, drive. unfold jbind at 1. rewrite Ep.
  destruct ((let! _ := jmodify (on_slot "slot-1" (block ("slot drive failed: " +:+ exn_text e))) in
    let! _ := save_slot "slot-1" in with_reason "slot-1" None) r1) as [r' [out|e']] eqn:Es.
  2: { vm_compute in Ep. injection Ep as <- <-. by vm_compute in Es. }
  exists r', out. split; [done|].
  assert (exists s', slot_of "slot-1" r' = Ok s' /\ state (gate s') = RECOVERING /\ reserved "slot-1" r' = true /\
    rt_journal r' = ActionJournal.empty_db) as (s' & Hs & Hst & Hres & Hj).
  { vm_compute in Ep. injection Ep as <- <-. vm_compute in Es. injection Es as <- <-. eexists. split; [reflexivity|]. by vm_compute. }
  split; [done|]. intros. apply reconcile_deferred with s'; [done|by rewrite Hst|done].
Qed.

(** * A market that is refused *)

(** The catalog refuses the market: it is absent, delisted or untrusted. *)
Definition refused (c : CatalogRevision) (m : string) : Prop := forall acc acc', request_step c acc m <> Ok acc'.

Lemma fold_refused c l acc acc' m : m ∈ l -> refused c m -> fold_res (request_step c) l acc <> Ok acc'.
Proof.
  intros Hin Hm. revert acc. induction l as [|x l IH]; intros acc; [set_solver|]. cbn [fold_res].
  destruct (request_step c acc x) as [a|e] eqn:E; [|done].
  apply elem_of_cons in Hin as [->|Hin]; [by apply Hm in E|by apply IH].
Qed.

Lemma set_active_refused l m ms ms' ch : m ∈ l -> refused (catalog ms) m -> set_active_markets l ms <> (ms', Ok ch).
Proof.
  intros Hin Hm H. unfold set_active_markets in H. apply jbind_Ok in H as (a & ms1 & [-> Ha]%jquery_Ok & _).
  by eapply fold_refused.
Qed.

Lemma activate_slots_grows loads ids markets r r' result :
  activate_slots loads ids markets r = (r', Ok result) -> markets ⊆ result /\ rt_market r' = rt_market r.
Proof.
  revert markets r. induction ids as [|id ids IH]; intros markets r H; cbn [activate_slots] in H.
  { injection H as <- <-. done. }
  apply jbind_Ok in H as (s & r1 & [-> _]%jquery_Ok & H). apply jbind_Ok in H as (un & r1 & [-> _]%jquery_Ok & H).
  apply jbind_Ok in H as (wanted & r1 & [-> _]%jquery_Ok & H). apply jbind_Ok in H as (found & r1 & [-> _]%jquery_Ok & H).
  destruct found as [l|e].
  - apply IH in H as [H1 H2]. split; [set_solver|done].
  - destruct (caught_text e) as [msg|]; [|done]. apply jbind_Ok in H as (u & r1 & [= <- _] & H). apply IH in H as [H1 H2].
    split; [done|]. rewrite H2. unfold on_slot. by destruct (dict_get id (rt_slots r)).
Qed.

(** While a prewarmed market is refused, no slot is activated. *)
Lemma activate_refused loads r m : m ∈ prewarm_markets r -> refused (catalog (rt_market r)) m ->
  forall r' ch, activate loads r <> (r', Ok ch).
Proof.
  intros Hin Hm r' ch H. unfold activate in H. apply jbind_Ok in H as (start & r1 & [-> Hs]%jquery_Ok & H).
  injection Hs as <-. cbn [fst snd] in H. apply jbind_Ok in H as (markets & r2 & [Hsub Hmk]%activate_slots_grows & H).
  unfold on_market in H. destruct (set_active_markets (elements markets) (rt_market r2)) as [ms res'] eqn:E.
  injection H as _ ->. rewrite Hmk in E. apply (set_active_refused _ m) in E; [done|by apply elem_of_elements, Hsub|done].
Qed.

Lemma delisted_refused c m spec : canonical_market_symbol (JStr m) = Ok m -> revision_market m c = Ok (Some spec) ->
  is_delisted spec = true -> refused c m.
Proof.
  intros Hc Hr Hd acc acc' H. unfold request_step in H. rewrite Hc in H. cbn [mbind res_bind] in H.
  unfold catalog_market in H. rewrite Hc in H. cbn [mbind res_bind] in H. rewrite Hr in H. cbn [mbind res_bind] in H.
  by rewrite Hd in H.
Qed.

(** The next revision of the catalog, in which the allowed market is delisted. *)
Definition delisted_catalog : CatalogRevision :=
  MkRevision 2 "catalog-000002" "v1" "mainnet" 2 [""]
    [MkCatalogMarket "BTC" "" 0 0 0 5 40 DELISTED "cross" 0 None true 0 None None 0 0 "" false no_pending] "" "" "".

(** A market of an explicit allow-list is delisted.  [apply_catalog] prewarms the whole list,
    so it raises after it adopted the catalog, and from then on no activation succeeds: every
    frame and every reconciliation of every slot ends in an error. *)
Theorem delisted_market_stops_every_slot loads :
  exists r' e, apply_catalog loads delisted_catalog (example_runtime connected copying) = (r', Raise e) /\
    rt_catalog r' = delisted_catalog /\ forall r2 ch, activate loads r' <> (r2, Ok ch).
Proof.
  destruct (apply_catalog loads delisted_catalog (example_runtime connected copying)) as [r' [ch|e]] eqn:E; [by vm_compute in E|].
  assert (rt_catalog r' = delisted_catalog /\ catalog (rt_market r') = delisted_catalog /\ "BTC" ∈ prewarm_markets r') as (H1 & H2 & H3).
  { vm_compute in E. injection E as <- _. split_and!; [done|done|]. apply (bool_decide_unpack _). by vm_compute. }
  exists r', e. split; [done|]. split; [done|]. apply activate_refused with "BTC"; [done|]. rewrite H2.
  eapply delisted_refused; [by vm_compute|by vm_compute|done].
Qed.
